(* ===== verification/_CoqProject ===== *)
-Q . S2P
Prelude.v
Config.v
SeqNum.v
TcpRtt.v
TcpCc.v
TcpNewReno.v
TcpCubic.v
SackRange.v
TcpSack.v
TcpSackPipe.v
TcpSackUpdate.v
TcpSackNextSeg.v
TcpOptions.v
TcpOptionsWire.v
TcpOptionsSack.v
Latency.v
LatencyFacts.v
Scheduler.v
SchedulerFacts.v
SchedulerRun.v
Txn.v
Redis.v
RedisReply.v
FlowPool.v
OwnerTimer.v
OwnerTimerPlace.v
OwnerTimerCore.v
OwnerTimerWheel.v
OwnerTimerCascade.v
OwnerTimerFacts.v
OwnerTimerRun.v
OwnerTimerHistory.v
TcpOfo.v
TcpOfoFacts.v
Rbtree.v
RbtreeFacts.v
RbtreeErase.v
RbtreeQueue.v
TcpOfoStream.v
TcpSndBuf.v
TcpTcb.v
TcpAck.v
TcpTx.v
TcpState.v
TcpListen.v
TcpSend.v
TcpSendSteps.v
TcpSendTx.v
TcpSendHistory.v
TcpFlush.v
TcpListenFacts.v
TcpConnection.v
TcpCorners.v
Json.v
JsonFacts.v
JsonText.v
WorkflowPlan.v
WorkflowPlanFacts.v
Dns.v
DnsFacts.v
Http.v
HttpFacts.v
ConnPool.v
Nepoll.v
Flow.v
FlowFacts.v
FlowLife.v
FlowStart.v
FlowHistory.v
FlowTheorems.v
Arp.v
ArpFacts.v
Udp.v
UdpFacts.v
Workflow.v
WorkflowFacts.v
WorkflowInv.v
WorkflowSteps.v
WorkflowHistory.v
