(* ===== verification/Prelude.v ===== *)
(** * SnowTG: verification of the TCP core, ARP, UDP, the owner timers and the
      traffic generator with its workflows (root file)

    ** The program

    SnowTG is a DPDK userspace IPv4 stack ([src/pro-stack]) and a traffic
    generator on top of it ([src/traffic-gen]).  Every worker core owns its
    sockets, timers and flows, and runs one reactor loop without locks.  On
    the receive path TCP parses the options of a segment, feeds ACK and SACK
    information to the scoreboard, the RTT estimator and the congestion
    controller, and asks the scoreboard which bytes to resend; the owner's
    timer engine drives retransmission and deadlines.  In the generator the
    scheduler turns a rate plan into arrivals, each arrival takes a flow from
    the flow pool and runs a transaction, the transaction hands the received
    bytes to a protocol plugin, and the outcome is recorded in latency
    histograms that are merged over the workers.  A class may instead run
    workflows: business transactions of several HTTP, DNS, think and branch
    steps, compiled from JSON, which make one exchange after the other over
    the same flows.

    Everything below is sequential code of one owner, so an operation is a
    function from the state of its component to its result and the new state.
    A C integer is a [Z] reduced at its width wherever the code can wrap; a
    struct is a record with one setter per field; an allocation that can fail,
    a clock reading and a callback are arguments.

    ** Files

    - Prelude: machine integers, error numbers, boolean and counting lemmas,
      tactics ([warith], [bprop], [bsplit]) and the hint database [widths].
    - Config: constants of [config.h] and the owner-local gauges of
      [resource.h].
    - SeqNum: serial-number comparisons ([seq_lt] and friends).
    - TcpRtt: [tcp_rtt.c].
    - TcpCc, TcpNewReno, TcpCubic: the callback table of [tcp_cc.h], its
      dispatch [tcp_cc.c], and the controllers of [tcp_cc/newreno.c] and
      [tcp_cc/cubic.c].  The class of lawful tables in TcpCc is the interface
      both controllers implement and the send-window theorem relies on.
    - SackRange, TcpSack: the interval lists and the scoreboard and recovery
      machine of [tcp_sack.c]; TcpSackPipe, TcpSackUpdate and TcpSackNextSeg
      hold the theorems.
    - TcpOptions: [tcp_options.c]; TcpOptionsWire and TcpOptionsSack hold the
      theorems on the wire format and on the receiver's SACK report.
    - TcpOfo: the receive path, that is the out-of-order queue of [tcp_ofo.c]
      and [tcp_receive_stream_range], [tcp_recv] and their helpers in
      [tcp.c]; TcpOfoFacts and TcpOfoStream hold the theorems.
    - Rbtree: [rbtree.c] with its pointers, on a heap of cells, and the
      functions of [tcp_ofo.c] that search the tree and insert into it.
      TcpOfo keeps the queue as a list and does not mention the tree that
      indexes it; RbtreeQueue proves that the tree gives the list's answers.
      RbtreeFacts: the shape of a tree in the heap, contexts, rotations,
      colours and insertion; RbtreeErase: erasure.
    - TcpSndBuf: the send buffer ([tcp_sndbuf_*]).  TcpTcb: the control block
      [tcb] ([struct tcp_stream]), its windows, fragments, timers and
      teardown; [out] is the trace of what a block does outside itself
      (packets, wake-ups, what it tells its listener), [fault] records a null
      dereference, and [tcp_io] is what an operation reads from outside
      (clock, results of allocations, of address resolution, of the output
      ring).
    - TcpAck: [tcp_process_peer_ack_ex].  TcpTx: [tcp_tx_flush], its loops and
      [tcp_send].  TcpState: the handlers of [tcp_state_ops], the ingress of a
      stream, the timer callback, [tcp_connect] and [tcp_close].  TcpListen:
      listeners, passive opens and accept.
    - TcpSend, TcpSendSteps, TcpSendTx, TcpSendHistory: the
      invariant [conn] of the send side (which bytes are buffered, sent and
      acknowledged, what the queued and the sent packets carry) and its
      preservation by every operation.  TcpFlush: the measure of the transmit
      loop.  TcpListenFacts: the listener invariant.  TcpConnection: the
      histories [tcp_step] of a connection and the composition with a
      receiver.  TcpCorners: termination of the flush and the behaviours at
      the edges.
    - OwnerTimer: the timer-wheel build of [owner_timer.c].  OwnerTimerPlace
      is the arithmetic of levels and slots, OwnerTimerCore the lists and
      occupancy words, OwnerTimerWheel the search for the next bucket,
      OwnerTimerCascade the cascade, OwnerTimerFacts and OwnerTimerRun the
      engine invariant, OwnerTimerHistory the properties.
    - Scheduler: [scheduler.c] and the plan partition of [scenario.c];
      SchedulerFacts and SchedulerRun hold the theorems.
    - Latency, LatencyFacts: the histograms of [latency.c].
    - Txn: [txn.c] and the plugin table of [proto.h], with the class
      [ChunkLaws] a stream plugin promises; Redis is the plugin
      [redis_client.c] and its instance of the class, RedisReply the
      reply grammar and the request round trip.
    - FlowPool: [flow_pool.c] and its refinement of a set of indices in use.
    - Json: the typed scalar of [value.h], the tokenizer [jsmn.h], the strict documents and values of
      [value.c] and the helpers of [scenario_json.c].  JsonFacts: strings and
      UTF-8; JsonText: the grammar of RFC 8259 and the contract of the
      tokenizer.
    - WorkflowPlan: the compiler [workflow_plan.c]; WorkflowPlanFacts: what a
      compiled plan guarantees.
    - Http: the plugin [http_client.c] over the callbacks llhttp makes, which
      are a tree [run] given as a parameter; HttpFacts holds the theorem.
    - Workflow: the engine [workflow.c].  WorkflowFacts: what one business does
      to the counters of its group ([moves]); WorkflowInv: the invariant
      [engine_ok] between turns and inside the turn of a business;
      WorkflowSteps: every operation keeps it; WorkflowHistory: the reachable
      engines and the properties.
    - Dns: the plugin [dns_client.c],
      reading bytes in a monad that tells a read outside the datagram from a
      rejected one; DnsFacts holds the theorems.
    - ConnPool: the records of [flow.h] and [conn_pool.c].  Flow: [flow.c],
      with the admission, event and idle-shutdown functions of [main_tg.c];
      a flow is named by its slot, [flow_io] is what an operation reads from
      outside, [notes] the trace of reports and sockets.  FlowFacts: the socket map, due queue and pool agree with
      the flags of the flows ([shaped]); FlowLife: a flow between events
      ([rest]) and what an event leaves of it; FlowStart: admission;
      FlowHistory: expiry, shutdown and the histories of a shard;
      FlowTheorems: [reactor.c] and the properties.
    - Arp: [arp.c], the neighbour cache of one owner with its hash as a map;
      ArpFacts holds the theorems.  Nepoll: [nepoll.c], the poll sets of the
      readiness interface with their references, the sockets being a snapshot
      of what [socket_public_snapshot] reads.  Udp: [udp.c] and
      [udp_memory.c] for one socket; UdpFacts holds the theorems.

    ** What the theorems show

    - The byte stream: in every history of a connection, whatever the
      application, the network, the timers and failing allocations do, the
      packets carry the written bytes under their sequence numbers
      ([tcp_sender_stream]), the send buffer is the unacknowledged part of
      what was written ([tcp_send_buffer_exact]), and a receiver fed those
      packets in any order reads a prefix of it and, at the end of the
      stream, all of it ([tcp_end_to_end], from [tcp_stream_prefix] of the
      receive path).  Flushes outside SACK recovery end
      ([tcp_flush_terminates]).
    - The tree of the out-of-order queue: inserting and erasing keep it
      red-black and put or remove exactly the node meant
      ([ofo_insert_exact], [rb_erase_exact]), and its search starts the walk
      where the list has it ([ofo_start_exact]).
    - Readiness: a due subscription is reported after finitely many scans
      ([nepoll_fair]), and a poll set lives exactly as long as it is open or
      waited on ([nepoll_memory_exact]).
    - Listeners: the backlog counters are exact and accept hands out the
      oldest live child.
    - Edges, proved on concrete histories: a FIN deferred behind unsent data
      is lost together with the data when the flight is acknowledged
      ([deferred_fin_lost]), CLOSE_WAIT does not hear window updates
      ([close_wait_window_stuck]), a SYN-RECV timer without a fragment
      dereferences null ([syn_recv_timer_null]), a second listen keeps the
      ring ([relisten_keeps_ring]).
    - Loss recovery: the interval-based Pipe estimate is the octet-by-octet
      count of RFC 6675; an ACK leaves exactly the reported bytes of the
      flight on the scoreboard; a scheduled segment never contains a SACKed
      byte or leaves the flight, and NextSeg rule 1 is complete.
      [TcpSackUpdate.wild_block_escapes_flight] is a counterexample for
      blocks outside the hypotheses of the scoreboard theorem: a block whose
      edges lie about half the sequence space apart is not clipped.
    - Options: what is emitted on a SYN and on an established segment is what
      the parser reads back; the SACK report describes the out-of-order
      queue; PAWS rejects exactly the old segments.
    - Congestion control and RTT: growth of both controllers, the exact cube
      root and the shape of the CUBIC curve, the one-segment floor of the
      send window under any lawful table, RFC 6298 estimation, Karn's rule and
      the bounds of the timeout.
    - Timers: in every history, with callbacks that arm and cancel timers, a
      poll fires only armed timers whose deadline has passed, each once, and
      every timer whose tick is reached; the counters are exact.
    - Scheduler: skipping in O(classes) is selecting one by one, arrivals are
      the exact integral of the rate and split over the shards without loss,
      and every planned arrival is attempted, skipped or pending.
    - Transactions: cutting the stream into chunks does not matter, and the
      Redis parser accepts exactly the replies of its grammar; requests decode
      to the command's words.
    - Flows: in every interleaving of admissions, events, timer callbacks,
      expiry rounds and shutdown every admitted transaction is reported once
      ([flow_conservation]), a due flow ends and every other holds an armed
      timer for its deadline ([flow_expiry]), an event reaches exactly the
      flow of its handle ([flow_event_exact]), the connection pool is exact
      ([pool_exact]) and shutting the idle connections ends and closes them
      all ([close_idle_exact]).
    - JSON: an accepted document is a text of the grammar
      ([document_strict]), a string decodes to the UTF-8 of its code points or
      is refused ([string_read_exact]), and the validator's fuel is enough
      ([valid_fuel_enough]).
    - HTTP: headers and body are captured exactly or the response is refused
      ([http_response_exact]).
    - Workflows: a compiled plan only moves forward ([compile_forward]); in
      every history the counters of every step balance with each other, with
      the businesses in progress and with the admissions
      ([workflow_conservation]); a business whose time is up ends in the next
      tick that reaches it ([workflow_timeout_ends]).  [whitelist_gap] shows
      member names the compiler should refuse and does not.
    - DNS: no read leaves the datagram, a query decodes to its configuration,
      a matching answer is accepted, and an address comes from the question
      by CNAME links of the answer section; [question_confused] shows that a
      label with dots or a NUL in it is taken for the name asked.
    - ARP and UDP: an address resolves only to what was learned last, and two
      stacks resolve each other over the wire ([arp_exchange]); a cache full
      of unanswered probes never recovers ([arp_resolving_forever]).  A send
      puts the whole buffer into datagrams, a receive is that of an abstract
      queue, and the queue nodes are exact.
    - Pools and histograms: a flow is never handed out twice, double returns
      and foreign pointers are refused; quantiles are within a sixteenth of
      the exact order statistic and merging is concatenation.

    ** Fuel

    Loops that are not structural take fuel, and the theorems are proved for
    the fuel the definitions use: 33 rounds for the binary search of Pipe and
    32 for the cube root (32-bit intervals), the option length for the parser
    (each option takes at least a byte), [avoidance_fuel] for the NewReno
    avoidance loop (the acknowledged bytes over the window), the number of
    phases plus one and the pending arrivals for the scheduler loops, twice
    the chunk length plus one for the Redis loop, eight rounds per timer for
    the cascade (each round lowers the level of every timer it moves), and the
    queue lengths for the other timer loops.  The drain of the out-of-order
    queue has the queue's length.  The JSON validator takes two rounds per token
    plus two ([valid_fuel_enough]), the tokenizer loop the text's length and
    seventeen doublings of the token buffer (the last exceeds its limit).  Every
    loop of the red-black tree ends within [tree_fuel] rounds, one more than
    twice the binary logarithm of the nodes plus one.  The
    transmit loop takes its fuel as an
    argument and answers [None] when it runs out: outside SACK recovery the
    bytes of the send buffer plus four always suffice
    ([tcp_flush_terminates]), and the histories use only flushes that ended.
    Elsewhere running out of fuel never decides a result.

    ** Not modelled

    Of [tcp.c]: the frame and checksum checks of [tcp_ingress], addresses and
    ports (the four-tuple index, ephemeral ports, the layout of packets) and
    the initial sequence number generator, whose values are arguments.  The
    clock is read once per operation.  A block belongs to a memory domain
    (the null branches of the accounting are dead code in the program).

    Of the traffic generator's side: null arguments; the error number of a
    failing plugin initialisation (taken as ENOMEM); flows without a
    completion observer (every caller in [main_tg.c] sets one); statistics
    and latency calls of the admission.  Of workflows: the callback table for
    cloning, and the pointers a business keeps into its plan.  [strtod],
    [strtold], [inet_pton] and llhttp are parameters.  Of ARP and UDP: the layout of frames
    and the checksums.

    Sockets and cross-owner requests and the dispatch of received packets are
    not modelled; the device, packet and mempool layers, the rte_timer build of
    the timers, the CSV writers and the applications are input/output or third-party code. *)

From stdpp Require Export prelude.
From Stdlib Require Export ZArith Lia Bool.
From Stdlib Require String Ascii.

#[global] Open Scope Z_scope.

(** ** Fixed-width unsigned integers

    A C object of type [uintN_t] is a [Z]; every arithmetic result that the
    code stores into such an object is reduced by the wrap of its width. *)

Definition u8 (z : Z) : Z := z mod 256.
Definition u16 (z : Z) : Z := z mod 65536.
Definition u32 (z : Z) : Z := z mod 4294967296.
Definition u64 (z : Z) : Z := z mod 18446744073709551616.
Definition u128 (z : Z) : Z := z mod 340282366920938463463374607431768211456.

Definition UINT8_MAX : Z := 255.
Definition UINT16_MAX : Z := 65535.
Definition UINT32_MAX : Z := 4294967295.
Definition UINT64_MAX : Z := 18446744073709551615.

(** The [int32_t] reading of a 32-bit pattern (two's complement). *)
Definition i32 (z : Z) : Z :=
  let w := u32 z in if w <? 2147483648 then w else w - 4294967296.

(** [__builtin_clzll] and [__builtin_ctzll] on a nonzero 64-bit value. *)
Definition clz64 (x : Z) : Z := 63 - Z.log2 x.
Fixpoint ctz_from (fuel : nat) (x i : Z) : Z :=
  match fuel with
  | O => i
  | S f => if Z.testbit x i then i else ctz_from f x (i + 1)
  end.
Definition ctz64 (x : Z) : Z := ctz_from 64 x 0.

Definition in_u8 (z : Z) : Prop := 0 <= z < 256.
Definition in_u16 (z : Z) : Prop := 0 <= z < 65536.
Definition in_u32 (z : Z) : Prop := 0 <= z < 4294967296.
Definition in_u64 (z : Z) : Prop := 0 <= z < 18446744073709551616.

(** Linear arithmetic after the widths, the limits and every division or
    modulus by a constant are written out. *)
Ltac wunfold :=
  unfold in_u8, in_u16, in_u32, in_u64, i32, u8, u16, u32, u64, u128,
    UINT8_MAX, UINT16_MAX, UINT32_MAX, UINT64_MAX in *.
Ltac warith := wunfold; Z.to_euclidean_division_equations; lia.

Create HintDb widths.
#[export] Hint Unfold in_u8 in_u16 in_u32 in_u64 : widths.

Lemma u8_range z : in_u8 (u8 z).
Proof. warith. Qed.
Lemma u16_range z : in_u16 (u16 z).
Proof. warith. Qed.
Lemma u32_range z : in_u32 (u32 z).
Proof. warith. Qed.
Lemma u64_range z : in_u64 (u64 z).
Proof. warith. Qed.

Lemma u8_small z : in_u8 z -> u8 z = z.
Proof. intros; apply Z.mod_small; warith. Qed.
Lemma u16_small z : in_u16 z -> u16 z = z.
Proof. intros; apply Z.mod_small; warith. Qed.
Lemma u32_small z : in_u32 z -> u32 z = z.
Proof. intros; apply Z.mod_small; warith. Qed.
Lemma u64_small z : in_u64 z -> u64 z = z.
Proof. intros; apply Z.mod_small; warith. Qed.
Lemma u128_small z :
  0 <= z < 340282366920938463463374607431768211456 -> u128 z = z.
Proof. intros; apply Z.mod_small; lia. Qed.

#[export] Hint Resolve u8_range u16_range u32_range u64_range : widths.

(** The low [n] bits kept by a narrowing cast compose. *)
Lemma u32_u32 z : u32 (u32 z) = u32 z.
Proof. apply u32_small, u32_range. Qed.
Lemma u32_add_l a b : u32 (u32 a + b) = u32 (a + b).
Proof. unfold u32. apply Zplus_mod_idemp_l. Qed.
Lemma u32_add_r a b : u32 (a + u32 b) = u32 (a + b).
Proof. unfold u32. apply Zplus_mod_idemp_r. Qed.
Lemma u32_sub_l a b : u32 (u32 a - b) = u32 (a - b).
Proof. unfold u32. apply Zminus_mod_idemp_l. Qed.
Lemma u32_sub_r a b : u32 (a - u32 b) = u32 (a - b).
Proof. unfold u32. apply Zminus_mod_idemp_r. Qed.

(** ** Bit operations as arithmetic *)

Lemma lor_add k x n : 0 <= n -> 0 <= x < 2 ^ n -> Z.lor (k * 2 ^ n) x = k * 2 ^ n + x.
Proof.
  intros Hn Hx. assert (Z.land (k * 2 ^ n) x = 0) as E.
  { apply Z.bits_inj'. intros i Hi. rewrite Z.land_spec, Z.bits_0. destruct (decide (i < n)).
    - by rewrite Z.mul_pow2_bits_low.
    - destruct (decide (x = 0)) as [->|]; [by rewrite Z.bits_0, andb_false_r|].
      rewrite (Z.bits_above_log2 x), andb_false_r; [done|lia|]. enough (Z.log2 x < n) by lia. apply Z.log2_lt_pow2; lia. }
  rewrite <- Z.lxor_lor by done. symmetry. by apply Z.add_nocarry_lxor.
Qed.
Lemma land_mod x n : 0 <= n -> Z.land x (2 ^ n - 1) = x mod 2 ^ n.
Proof. intros. rewrite <- Z.land_ones, Z.ones_equiv by done. done. Qed.

(** ** Error numbers the modelled functions report *)
Inductive errno :=
  EINVAL | ENOMEM | ENOBUFS | EBUSY | EALREADY | EOVERFLOW | EPERM | ENOSPC | EAGAIN | ESHUTDOWN
| EPIPE | ETIMEDOUT | ECONNRESET | ECANCELED | EINPROGRESS | EADDRINUSE | EADDRNOTAVAIL
| EMSGSIZE | ENOENT | EBADF | EEXIST | EHOSTUNREACH | ENETUNREACH | ENOTCONN | EISCONN | EDESTADDRREQ | EOPNOTSUPP
| EMFILE | ESTALE | ECONNREFUSED | EINTR | EAFNOSUPPORT | EIO | ENOSYS | EPROTO | ERANGE | ENETDOWN | EFAULT | ENFILE.
#[global] Instance errno_eq_dec : EqDecision errno.
Proof. solve_decision. Defined.

(** ** Booleans of the code as propositions

    [bsplit] turns every boolean comparison of the context and the goal that
    drives an [if] into a case split with its arithmetic meaning. *)
Ltac bprop :=
  repeat match goal with
    | H : (_ && _)%bool = true |- _ => apply andb_true_iff in H; destruct H
    | H : (_ || _)%bool = false |- _ => apply orb_false_iff in H; destruct H
    | H : negb _ = true |- _ => apply negb_true_iff in H
    | H : negb _ = false |- _ => apply negb_false_iff in H
    | H : (_ <? _) = true |- _ => apply Z.ltb_lt in H
    | H : (_ <? _) = false |- _ => apply Z.ltb_ge in H
    | H : (_ <=? _) = true |- _ => apply Z.leb_le in H
    | H : (_ <=? _) = false |- _ => apply Z.leb_gt in H
    | H : (_ =? _) = true |- _ => apply Z.eqb_eq in H
    | H : (_ =? _) = false |- _ => apply Z.eqb_neq in H
    end.

Ltac bsplit1 :=
  match goal with
  | |- context [if ?b then _ else _] =>
      lazymatch b with
      | context [if _ then _ else _] => fail
      | _ => let E := fresh "E" in destruct b eqn:E
      end
  end.
Ltac bsplit := repeat (bsplit1; bprop).

(** ** Sums over lists *)

Definition Zsum (l : list Z) : Z := foldr Z.add 0 l.

Lemma Zsum_nil : Zsum [] = 0.
Proof. done. Qed.
Lemma Zsum_cons x l : Zsum (x :: l) = x + Zsum l.
Proof. done. Qed.
Lemma Zsum_app l k : Zsum (l ++ k) = Zsum l + Zsum k.
Proof.
  induction l as [|x l IH]; [done|]. rewrite <- app_comm_cons, !Zsum_cons. lia.
Qed.
Lemma Zsum_nonneg l : Forall (fun x => 0 <= x) l -> 0 <= Zsum l.
Proof. induction 1; rewrite ?Zsum_cons, ?Zsum_nil; lia. Qed.

Create Rewrite HintDb zsum.
#[export] Hint Rewrite Zsum_nil Zsum_cons Zsum_app : zsum.

(** ** Lengths of lists as integers *)

Definition zlen {A} (l : list A) : Z := Z.of_nat (length l).

Lemma zlen_nonneg {A} (l : list A) : 0 <= zlen l.
Proof. unfold zlen. lia. Qed.
Lemma zlen_app {A} (l k : list A) : zlen (l ++ k) = zlen l + zlen k.
Proof. unfold zlen. rewrite length_app. lia. Qed.
Lemma zlen_cons {A} (x : A) l : zlen (x :: l) = 1 + zlen l.
Proof. unfold zlen. cbn [length]. lia. Qed.
Lemma zlen_drop {A} k (l : list A) : 0 <= k <= zlen l -> zlen (drop (Z.to_nat k) l) = zlen l - k.
Proof. unfold zlen. rewrite length_drop. lia. Qed.
Lemma zlen_take {A} k (l : list A) : 0 <= k <= zlen l -> zlen (take (Z.to_nat k) l) = k.
Proof. unfold zlen. rewrite length_take. lia. Qed.
Lemma zlen_zero {A} (l : list A) : zlen l = 0 -> l = [].
Proof. unfold zlen. destruct l; cbn; [done|lia]. Qed.
Lemma take_front {A} (l k : list A) : take (length (l ++ k) - length k) (l ++ k) = l.
Proof. rewrite length_app, Nat.add_sub. apply take_app_length. Qed.
Lemma app_cons_split {A} (l : list A) x k : l ++ x :: k = (l ++ [x]) ++ k.
Proof. by rewrite <- app_assoc. Qed.

(** ** C strings

    A character array is the list of its bytes; [cstr] is the string in it. *)

Fixpoint cstr (l : list Z) : list Z :=
  match l with
  | [] => []
  | c :: t => if c =? 0 then [] else c :: cstr t
  end.

Lemma cstr_length l : (length (cstr l) <= length l)%nat.
Proof. induction l as [|c l IH]; cbn; [lia|]. destruct (c =? 0); cbn; lia. Qed.

(** The bytes of a string literal. *)
Definition text (s : String.string) : list Z :=
  map (fun c => Z.of_N (Ascii.N_of_ascii c)) (String.list_ascii_of_string s).

(** [snprintf("%zu")]: decimal digits, most significant first. *)
Fixpoint dec_digits (fuel : nat) (n : Z) : list Z :=
  match fuel with
  | O => []
  | S f => (if n <? 10 then [] else dec_digits f (n / 10)) ++ [48 + n mod 10]
  end.
Definition print_size (n : Z) : list Z := dec_digits 20 n.

(** ** Counting positions of an integer interval

    [cnt f a b] is the number of positions [x] with [a <= x < b] that satisfy
    the boolean predicate [f]. *)

Fixpoint cnt_from (f : Z -> bool) (a : Z) (n : nat) : Z :=
  match n with
  | O => 0
  | S k => (if f a then 1 else 0) + cnt_from f (a + 1) k
  end.

Definition cnt (f : Z -> bool) (a b : Z) : Z := cnt_from f a (Z.to_nat (b - a)).

Lemma cnt_from_app f a n m :
  cnt_from f a (n + m) = cnt_from f a n + cnt_from f (a + Z.of_nat n) m.
Proof.
  revert a. induction n as [|n IH]; intros a; cbn [cnt_from Nat.add].
  - rewrite Z.add_0_r. done.
  - rewrite IH. replace (a + 1 + Z.of_nat n) with (a + Z.of_nat (S n)) by lia. lia.
Qed.

Lemma cnt_split f a b c : a <= b <= c -> cnt f a c = cnt f a b + cnt f b c.
Proof.
  intros H. unfold cnt.
  replace (Z.to_nat (c - a)) with (Z.to_nat (b - a) + Z.to_nat (c - b))%nat by lia.
  rewrite cnt_from_app. replace (a + Z.of_nat (Z.to_nat (b - a))) with b by lia. done.
Qed.

Lemma cnt_empty f a b : b <= a -> cnt f a b = 0.
Proof. intros. unfold cnt. replace (Z.to_nat (b - a)) with 0%nat by lia. done. Qed.

Lemma cnt_ext f g a b :
  (forall x, a <= x < b -> f x = g x) -> cnt f a b = cnt g a b.
Proof.
  intros H. unfold cnt.
  assert (forall x, a <= x < a + Z.of_nat (Z.to_nat (b - a)) -> f x = g x) as H'
    by (intros; apply H; lia).
  revert H'. clear H. generalize (Z.to_nat (b - a)) as n. intros n. revert a.
  induction n as [|n IH]; intros a H; cbn [cnt_from]; [done|].
  rewrite (H a) by lia. rewrite (IH (a + 1)); [done|]. intros; apply H; lia.
Qed.

Lemma cnt_const (v : bool) a b : a <= b -> cnt (fun _ => v) a b = if v then b - a else 0.
Proof.
  intros H. unfold cnt.
  replace (if v then b - a else 0) with (if v then Z.of_nat (Z.to_nat (b - a)) else 0)
    by (destruct v; lia).
  clear H. generalize (Z.to_nat (b - a)) as n. intros n. revert a.
  induction n as [|n IH]; intros a; cbn [cnt_from]; [by destruct v|].
  rewrite IH. destruct v; lia.
Qed.

Lemma cnt_all f a b : a <= b -> (forall x, a <= x < b -> f x = true) -> cnt f a b = b - a.
Proof. intros H Hf. rewrite (cnt_ext f (fun _ => true)) by done. by rewrite cnt_const. Qed.

Lemma cnt_none f a b : (forall x, a <= x < b -> f x = false) -> cnt f a b = 0.
Proof.
  intros Hf. destruct (decide (a <= b)); [|apply cnt_empty; lia].
  rewrite (cnt_ext f (fun _ => false)) by done. by rewrite cnt_const.
Qed.

Lemma cnt_range f a b : 0 <= cnt f a b <= Z.max 0 (b - a).
Proof.
  unfold cnt. replace (Z.max 0 (b - a)) with (Z.of_nat (Z.to_nat (b - a))) by lia.
  generalize (Z.to_nat (b - a)) as n. intros n. revert a.
  induction n as [|n IH]; intros a; cbn [cnt_from]; [lia|].
  specialize (IH (a + 1)). destruct (f a); lia.
Qed.

(** Only the part of the interval where [f] can hold counts. *)
Lemma cnt_clip f a b lo hi :
  a <= b ->
  (forall x, a <= x < b -> ~ (lo <= x < hi) -> f x = false) ->
  cnt f a b = cnt f (Z.max a lo) (Z.min b hi).
Proof.
  intros Hab Hf.
  destruct (decide (Z.max a lo <= Z.min b hi)).
  - rewrite (cnt_split f a (Z.max a lo) b), (cnt_split f (Z.max a lo) (Z.min b hi) b) by lia.
    rewrite (cnt_none f a), (cnt_none f (Z.min b hi)); [lia| |]; intros; apply Hf; lia.
  - rewrite (cnt_empty f (Z.max a lo)) by lia. apply cnt_none.
    intros; apply Hf; lia.
Qed.

(** A predicate that only turns from true to false on an interval holds on
    exactly a prefix of it. *)
Lemma prefix_boundary (f : Z -> bool) a b :
  a <= b -> (forall x y, a <= x -> x <= y -> y < b -> f y = true -> f x = true) ->
  exists k, a <= k <= b /\ forall x, a <= x < b -> f x = (x <? k).
Proof.
  intros Hab. remember (Z.to_nat (b - a)) as n eqn:En. revert a Hab En.
  induction n as [|n IH]; intros a Hab En Hf.
  - exists a. split; lia.
  - destruct (f a) eqn:Ea.
    + destruct (IH (a + 1)) as (k & Hk & Hx); [lia|lia|intros x y ? ? ? ?; apply (Hf x y); lia || done|].
      exists k. split; [lia|]. intros x Hxr. destruct (decide (x = a)) as [->|]; [|apply Hx; lia].
      rewrite Ea. lia.
    + exists a. split; [lia|]. intros x Hxr. destruct (f x) eqn:Ex; [|lia].
      rewrite (Hf a x) in Ea; lia || done.
Qed.

Lemma cnt_diff f g a b :
  (forall x, a <= x < b -> g x = true -> f x = true) ->
  cnt (fun x => f x && negb (g x)) a b = cnt f a b - cnt g a b.
Proof.
  intros H. unfold cnt.
  assert (forall x, a <= x < a + Z.of_nat (Z.to_nat (b - a)) -> g x = true -> f x = true) as H'
    by (intros; apply H; lia || done).
  revert H'. clear H. generalize (Z.to_nat (b - a)) as n. intros n. revert a.
  induction n as [|n IH]; intros a H; cbn [cnt_from]; [done|].
  rewrite (IH (a + 1)) by (intros; apply H; lia || done).
  specialize (H a ltac:(lia)). destruct (f a), (g a); cbn; try lia.
Qed.

Lemma cnt_shift f a b c : cnt (fun k => f (c + k)) a b = cnt f (c + a) (c + b).
Proof.
  unfold cnt. replace (c + b - (c + a)) with (b - a) by lia.
  generalize (Z.to_nat (b - a)) as n. intros n. revert a.
  induction n as [|n IH]; intros a; cbn [cnt_from]; [done|].
  rewrite IH. do 2 f_equal. lia.
Qed.

(** An interval inside the counted one. *)
Lemma cnt_interval lo hi a b :
  a <= b -> cnt (fun x => (lo <=? x) && (x <? hi)) a b = Z.max 0 (Z.min b hi - Z.max a lo).
Proof.
  intros Hab. rewrite (cnt_clip _ a b lo hi) by (lia || (intros; lia)).
  destruct (decide (Z.max a lo <= Z.min b hi)).
  - rewrite cnt_all; [lia|lia|]. intros x Hx. lia.
  - rewrite cnt_empty by lia. lia.
Qed.

(** Counting with period [p]: every window of one period counts the same. *)
Lemma cnt_period f p a :
  0 < p -> 0 <= a -> (forall x, 0 <= x -> f (x + p) = f x) ->
  cnt f a (a + p) = cnt f 0 p.
Proof.
  intros Hp Ha Hf. revert a Ha. apply (natlike_ind (fun a => cnt f a (a + p) = cnt f 0 p)); [done|].
  intros a Ha IH. rewrite <- IH. unfold Z.succ.
  pose proof (cnt_split f a (a + 1) (a + 1 + p) ltac:(lia)) as H1.
  pose proof (cnt_split f a (a + p) (a + 1 + p) ltac:(lia)) as H2.
  assert (cnt f a (a + 1) = cnt f (a + p) (a + 1 + p)) as H3.
  { unfold cnt. replace (Z.to_nat (a + 1 - a)) with 1%nat by lia.
    replace (Z.to_nat (a + 1 + p - (a + p))) with 1%nat by lia. cbn. by rewrite Hf by lia. }
  lia.
Qed.

Lemma cnt_periods f p a q :
  0 < p -> 0 <= a -> 0 <= q -> (forall x, 0 <= x -> f (x + p) = f x) ->
  cnt f a (a + q * p) = q * cnt f 0 p.
Proof.
  intros Hp Ha Hq Hf. revert q Hq.
  apply (natlike_ind (fun q => cnt f a (a + q * p) = q * cnt f 0 p)).
  - rewrite cnt_empty by lia. lia.
  - intros q Hq IH. assert (0 <= q * p) by (apply Z.mul_nonneg_nonneg; lia).
    replace (a + Z.succ q * p) with (a + q * p + p) by lia.
    rewrite (cnt_split f a (a + q * p)) by lia.
    rewrite (cnt_period f p (a + q * p)) by (done || lia). rewrite IH, Z.mul_succ_l. lia.
Qed.

(** Changing one element of a summed list. *)
Lemma Zsum_alter {A} (f : A -> Z) (h : A -> A) i l x :
  l !! i = Some x -> Zsum (map f (alter h i l)) = Zsum (map f l) + (f (h x) - f x).
Proof.
  unfold Zsum. revert i. induction l as [|y t IH]; intros [|i] Hx; cbn in *; try done.
  - injection Hx as ->. lia.
  - specialize (IH i Hx). lia.
Qed.
