(* ===== verification/Config.v ===== *)
(** * Compile-time constants (pro-stack/config.h) *)

From S2P Require Import Prelude.

Definition TCP_DEFAULT_MSS : Z := 1460.

Definition TCP_RTO_INITIAL_MS : Z := 1000.
Definition TCP_RTO_MIN_MS : Z := 200.
Definition TCP_RTO_MAX_MS : Z := 60000.

Definition TCP_RCVBUF_SIZE : Z := 256 * 1024.
Definition TCP_OFO_MAX_SEGS : Z := 32.
Definition TCP_MEMORY_CHUNK_SIZE : Z := 2048.
Definition TCP_SNDBUF_SIZE : Z := 64 * 1024.
Definition TCP_SNDBUF_APP_HIWAT : Z := TCP_SNDBUF_SIZE.
Definition TCP_SYN_RTO_MS : Z := 1000.
Definition TCP_DATA_MAX_RETRIES : Z := 5.
Definition TCP_SYN_MAX_RETRIES : Z := 5.
Definition TCP_FIN_WAIT_2_TIMEOUT_MS : Z := 60000.
Definition RING_SIZE : Z := 1024.
Definition TCP_MSL_MS : Z := 1000.
Definition TCP_2MSL_MS : Z := 2 * TCP_MSL_MS.

(** ** Resource counters (pro-stack/resource.h) *)

Record resource_metric := mk_metric {
  r_capacity : Z;
  r_current : Z;
  r_peak : Z;
  r_exhausted : Z;
  r_unavailable : Z;
  r_busy : Z;
  r_limit : Z
}.

Definition metric_zero : resource_metric := mk_metric 0 0 0 0 0 0 0.

Definition resource_acquire (n : Z) (r : resource_metric) : resource_metric :=
  let c := u64 (r_current r + n) in
  mk_metric (r_capacity r) c (if r_peak r <? c then c else r_peak r)
    (r_exhausted r) (r_unavailable r) (r_busy r) (r_limit r).
Definition resource_release (n : Z) (r : resource_metric) : resource_metric :=
  mk_metric (r_capacity r) (u64 (r_current r - n)) (r_peak r)
    (r_exhausted r) (r_unavailable r) (r_busy r) (r_limit r).

(** The increments of the two failure counters. *)
Definition resource_unavailable (r : resource_metric) : resource_metric :=
  mk_metric (r_capacity r) (r_current r) (r_peak r)
    (r_exhausted r) (u64 (r_unavailable r + 1)) (r_busy r) (r_limit r).
Definition resource_exhausted (r : resource_metric) : resource_metric :=
  mk_metric (r_capacity r) (r_current r) (r_peak r)
    (u64 (r_exhausted r + 1)) (r_unavailable r) (r_busy r) (r_limit r).

(** A counter that counts [n] live objects: current is exact and the peak has
    seen it. *)
Definition counts_live (n : Z) (r : resource_metric) : Prop :=
  r_current r = n /\ n <= r_peak r.

Lemma acquire_counts n r :
  counts_live n r -> 0 <= n -> n + 1 < 18446744073709551616 -> counts_live (n + 1) (resource_acquire 1 r).
Proof.
  intros [H1 H2] Hn Hm. unfold counts_live, resource_acquire. cbn [r_current r_peak].
  rewrite H1, u64_small by warith. split; [done|]. bsplit; lia.
Qed.
Lemma release_counts n r :
  counts_live n r -> 0 < n < 18446744073709551616 -> counts_live (n - 1) (resource_release 1 r).
Proof.
  intros [H1 H2] Hn. unfold counts_live, resource_release. cbn [r_current r_peak].
  rewrite H1, u64_small by warith. split; lia.
Qed.
