(* ===== verification/SeqNum.v ===== *)
(** * TCP serial numbers (pro-stack/tcp_sack.c, tcp_ofo.c, tcp.c)

    The modulo-2^32 comparisons every TCP module uses, and the one fact the
    rest of the development needs about them: inside a window that is shorter
    than 2^31 the comparisons are the comparisons of the distances from the
    window's left edge. *)

From S2P Require Import Prelude.

(** [(int32_t)(a - b) < 0] on two [uint32_t]. *)
Definition seq_lt (a b : Z) : bool := i32 (a - b) <? 0.
Definition seq_leq (a b : Z) : bool := i32 (a - b) <=? 0.
Definition seq_gt (a b : Z) : bool := seq_lt b a.
(** tcp.c and tcp_ofo.c write the comparison out: it differs from [seq_gt] at
    the distance 2^31. *)
Definition tcp_seq_gt (a b : Z) : bool := 0 <? i32 (a - b).
Definition seq_min (a b : Z) : Z := if seq_lt a b then a else b.

(** Distance of [x] from a window's left edge [base]. *)
Definition off (base x : Z) : Z := u32 (x - base).

(** [x] lies in the half of the sequence space that starts at [base]. *)
Definition near (base x : Z) : Prop := in_u32 x /\ off base x < 2147483648.

Section Window.
Context (base : Z).

Lemma off_range x : 0 <= off base x < 4294967296.
Proof. apply u32_range. Qed.

Lemma off_inj x y : in_u32 x -> in_u32 y -> off base x = off base y -> x = y.
Proof. unfold off. warith. Qed.

Lemma off_base : off base base = 0.
Proof. unfold off. rewrite Z.sub_diag. done. Qed.

Lemma off_sub a b :
  near base a -> near base b -> off base a <= off base b ->
  u32 (b - a) = off base b - off base a.
Proof. unfold near, off. intros [? ?] [? ?] ?. warith. Qed.

Lemma i32_off a b :
  near base a -> near base b -> i32 (a - b) = off base a - off base b.
Proof.
  unfold near, off, i32. intros [? ?] [? ?]. cbv zeta.
  destruct (u32 (a - b) <? 2147483648) eqn:E; bprop; warith.
Qed.

Lemma seq_lt_off a b :
  near base a -> near base b -> seq_lt a b = (off base a <? off base b).
Proof. intros Ha Hb. unfold seq_lt. rewrite (i32_off a b Ha Hb). lia. Qed.

Lemma seq_leq_off a b :
  near base a -> near base b -> seq_leq a b = (off base a <=? off base b).
Proof. intros Ha Hb. unfold seq_leq. rewrite (i32_off a b Ha Hb). lia. Qed.

Lemma seq_gt_off a b :
  near base a -> near base b -> seq_gt a b = (off base b <? off base a).
Proof. intros Ha Hb. by apply seq_lt_off. Qed.

Lemma tcp_seq_gt_off a b :
  near base a -> near base b -> tcp_seq_gt a b = (off base b <? off base a).
Proof. intros Ha Hb. unfold tcp_seq_gt. rewrite (i32_off a b Ha Hb). lia. Qed.

Lemma seq_min_off a b :
  near base a -> near base b ->
  off base (seq_min a b) = Z.min (off base a) (off base b) /\
  near base (seq_min a b).
Proof.
  intros Ha Hb. unfold seq_min. rewrite (seq_lt_off a b Ha Hb).
  bsplit; split; try done; lia.
Qed.

(** The sequence number at distance [n] from the base. *)
Lemma off_at n : 0 <= n < 2147483648 -> off base (u32 (base + n)) = n.
Proof. unfold off. warith. Qed.

Lemma near_at n : 0 <= n < 2147483648 -> near base (u32 (base + n)).
Proof. intros. split; [apply u32_range|]. rewrite off_at; lia. Qed.

Lemma near_base : in_u32 base -> near base base.
Proof. split; [done|]. rewrite off_base. lia. Qed.

Lemma near_add a n :
  near base a -> 0 <= n -> off base a + n < 2147483648 ->
  near base (u32 (a + n)) /\ off base (u32 (a + n)) = off base a + n.
Proof. unfold near, off. intros [? ?] ? ?. warith. Qed.
End Window.

(** Signed distance from [base], for numbers that may also lie behind it. *)
Definition sdist (base x : Z) : Z := i32 (x - base).

Lemma sdist_near base x : near base x -> sdist base x = off base x.
Proof. unfold sdist, near, off, i32. intros [_ H]. cbv zeta. bsplit; lia. Qed.

Lemma sdist_range base x : -2147483648 <= sdist base x < 2147483648.
Proof. unfold sdist, i32. cbv zeta. bsplit; warith. Qed.

Lemma sdist_pos_near base x :
  in_u32 x -> 0 <= sdist base x -> near base x.
Proof. unfold sdist, near, off, i32. cbv zeta. intros ?. bsplit; warith. Qed.

Lemma seq_lt_sdist base a b :
  -2147483648 <= sdist base a - sdist base b < 2147483648 ->
  seq_lt a b = (sdist base a <? sdist base b).
Proof.
  unfold sdist, seq_lt. intros H.
  assert (i32 (a - b) = i32 (a - base) - i32 (b - base)) as ->; [|lia].
  revert H. unfold i32. cbv zeta. bsplit; warith.
Qed.

(** Moving the window's left edge forward keeps everything at or above it. *)
Lemma near_rebase b0 una x :
  near b0 una -> near b0 x -> off b0 una <= off b0 x ->
  near una x /\ off una x = off b0 x - off b0 una.
Proof. unfold near, off. intros [? ?] [? ?] ?. warith. Qed.

Create HintDb seqnum.
#[export] Hint Resolve near_base near_at : seqnum.

(** serial-number comparison agrees with the order of the distances from
    any window base that both sequence numbers are within 2^31 of; so it is a
    strict total order on the window, also when the window crosses 2^32. *)
Theorem seq_order_window base a b (Ha : near base a) (Hb : near base b) :
  (seq_lt a b = true <-> off base a < off base b) /\
  (seq_leq a b = true <-> off base a <= off base b) /\
  (seq_gt a b = true <-> off base b < off base a) /\
  (seq_lt a b = false /\ seq_lt b a = false -> a = b).
Proof.
  rewrite (seq_lt_off _ a b Ha Hb), (seq_leq_off _ a b Ha Hb),
    (seq_gt_off _ a b Ha Hb), (seq_lt_off _ b a Hb Ha).
  rewrite !Z.ltb_lt, Z.leb_le, !Z.ltb_ge.
  repeat split; try lia. intros [? ?].
  apply (off_inj base); [apply Ha|apply Hb|lia].
Qed.

(** The window crosses the wrap: 4294967290 precedes 5. *)
Lemma seq_order_window_witness :
  near 4294967290 4294967290 /\ near 4294967290 5 /\
  (seq_lt 4294967290 5 = true <-> off 4294967290 4294967290 < off 4294967290 5).
Proof.
  assert (near 4294967290 4294967290) as H1 by (split; vm_compute; split; congruence).
  assert (near 4294967290 5) as H2 by (split; vm_compute; split; congruence).
  split; [exact H1|]. split; [exact H2|].
  exact (proj1 (seq_order_window 4294967290 4294967290 5 H1 H2)).
Defined.
