(* ===== verification/TcpRtt.v ===== *)
(** * RTT estimation and retransmission timeout (pro-stack/tcp_rtt.c)

    The RTT fields of [struct tcp_stream] are the record [tcp_rtt]; the
    Timestamp clock [tcp_options_now_ms()] is read once by the only operation
    that needs it, so it is that operation's argument [now_ms].  The
    negotiated flag [timestamps_ok] belongs to the option module and is
    passed to the operations that test it. *)

From S2P Require Import Prelude Config SeqNum.


Record tcp_rtt := mk_rtt {
  srtt_ms : Z;
  rttvar_ms : Z;
  rto_ms : Z;
  rtt_probe_valid : bool;
  rtt_probe_end_seq : Z;
  rtt_probe_tsval : Z;
  rtt_retransmitting : bool
}.

Definition tcp_rtt_clamp (rto : Z) : Z :=
  if rto <? TCP_RTO_MIN_MS then TCP_RTO_MIN_MS
  else if TCP_RTO_MAX_MS <? rto then TCP_RTO_MAX_MS
  else u32 rto.

Definition tcp_rtt_reset (s : tcp_rtt) : tcp_rtt :=
  mk_rtt 0 0 TCP_RTO_INITIAL_MS false 0 0 false.

Definition tcp_rtt_note_xmit (timestamps_ok : bool) (end_seq tsval : Z)
    (s : tcp_rtt) : tcp_rtt :=
  if negb timestamps_ok || rtt_retransmitting s || rtt_probe_valid s then s
  else mk_rtt (srtt_ms s) (rttvar_ms s) (rto_ms s) true end_seq tsval
         (rtt_retransmitting s).

(** The RFC 6298 integer update of the pair (SRTT, RTTVAR), in [uint32_t]. *)
Definition rtt_estimate (srtt rttvar sample : Z) : Z * Z :=
  if srtt =? 0 then (sample, sample / 2)
  else
    let delta := if sample <? srtt then srtt - sample else sample - srtt in
    (u32 (7 * srtt + sample) / 8, u32 (3 * rttvar + delta) / 4).

Definition tcp_rtt_on_ack (timestamps_ok : bool) (ack : Z) (ts_present : bool)
    (tsecr now_ms : Z) (s : tcp_rtt) : bool * tcp_rtt :=
  if negb timestamps_ok || negb ts_present || negb (rtt_probe_valid s)
     || rtt_retransmitting s || negb (tsecr =? rtt_probe_tsval s)
     || (i32 (ack - rtt_probe_end_seq s) <? 0)
  then (false, s)
  else
    let sample0 := u32 (now_ms - tsecr) in
    let sample := if sample0 =? 0 then 1 else sample0 in
    let '(srtt, rttvar) := rtt_estimate (srtt_ms s) (rttvar_ms s) sample in
    let rto := u64 (srtt + u32 (4 * rttvar)) in
    (true, mk_rtt srtt rttvar (tcp_rtt_clamp rto) false
             (rtt_probe_end_seq s) (rtt_probe_tsval s) (rtt_retransmitting s)).

(** [None] is the [false] return, which leaves [*sample_ms] alone. *)
Definition tcp_rtt_sample_ack (timestamps_ok ts_present : bool)
    (tsecr now_ms : Z) (s : tcp_rtt) : option Z :=
  if negb timestamps_ok || negb ts_present || rtt_retransmitting s then None
  else let sample := u32 (now_ms - tsecr) in
       Some (if sample =? 0 then 1 else sample).

Definition tcp_rtt_on_timeout (s : tcp_rtt) : tcp_rtt :=
  mk_rtt (srtt_ms s) (rttvar_ms s) (tcp_rtt_clamp (u64 (rto_ms s * 2))) false
    (rtt_probe_end_seq s) (rtt_probe_tsval s) true.

Definition tcp_rtt_on_retransmit (s : tcp_rtt) : tcp_rtt :=
  mk_rtt (srtt_ms s) (rttvar_ms s) (rto_ms s) false
    (rtt_probe_end_seq s) (rtt_probe_tsval s) true.

Definition tcp_rtt_on_flight_acked (s : tcp_rtt) : tcp_rtt :=
  mk_rtt (srtt_ms s) (rttvar_ms s) (rto_ms s) false
    (rtt_probe_end_seq s) (rtt_probe_tsval s) false.

(** ** The component as a state machine *)

Inductive rtt_op :=
| NoteXmit (ts_ok : bool) (end_seq tsval : Z)
| OnAck (ts_ok : bool) (ack : Z) (ts_present : bool) (tsecr now_ms : Z)
| OnTimeout
| OnRetransmit
| OnFlightAcked.

Definition rtt_step (s : tcp_rtt) (o : rtt_op) : tcp_rtt :=
  match o with
  | NoteXmit ok e t => tcp_rtt_note_xmit ok e t s
  | OnAck ok a p e n => snd (tcp_rtt_on_ack ok a p e n s)
  | OnTimeout => tcp_rtt_on_timeout s
  | OnRetransmit => tcp_rtt_on_retransmit s
  | OnFlightAcked => tcp_rtt_on_flight_acked s
  end.

Definition rtt_run (s : tcp_rtt) (os : list rtt_op) : tcp_rtt :=
  foldl rtt_step s os.

(** ** Invariants *)

Definition rtt_sane (s : tcp_rtt) : Prop :=
  TCP_RTO_MIN_MS <= rto_ms s <= TCP_RTO_MAX_MS /\
  in_u32 (srtt_ms s) /\ in_u32 (rttvar_ms s) /\
  (rtt_retransmitting s = true -> rtt_probe_valid s = false).

Lemma clamp_range r : TCP_RTO_MIN_MS <= tcp_rtt_clamp r <= TCP_RTO_MAX_MS.
Proof.
  unfold tcp_rtt_clamp, TCP_RTO_MIN_MS, TCP_RTO_MAX_MS. bsplit; warith.
Qed.

Lemma clamp_value r :
  tcp_rtt_clamp r = Z.max TCP_RTO_MIN_MS (Z.min r TCP_RTO_MAX_MS).
Proof.
  unfold tcp_rtt_clamp, TCP_RTO_MIN_MS, TCP_RTO_MAX_MS. bsplit; warith.
Qed.

Lemma estimate_range srtt rttvar sample :
  in_u32 sample ->
  in_u32 (fst (rtt_estimate srtt rttvar sample)) /\
  in_u32 (snd (rtt_estimate srtt rttvar sample)).
Proof. intros. unfold rtt_estimate. bsplit; cbn [fst snd]; warith. Qed.

#[local] Hint Resolve clamp_range : core.

Lemma rtt_step_sane s o : rtt_sane s -> rtt_sane (rtt_step s o).
Proof.
  intros (Hr & Hs & Hv & Hk). destruct o; unfold rtt_sane; cbn.
  - unfold tcp_rtt_note_xmit. destruct (negb ts_ok || _ || _) eqn:E; [done|].
    bprop. cbn. rewrite H1. done.
  - unfold tcp_rtt_on_ack. destruct (_ || _) eqn:E; [done|]. bprop.
    set (sample := if _ =? 0 then _ else _).
    assert (in_u32 sample) as Hu by (unfold sample; bsplit; warith).
    destruct (estimate_range (srtt_ms s) (rttvar_ms s) sample Hu).
    destruct (rtt_estimate _ _ _). cbn in *. done.
  - done.
  - done.
  - done.
Qed.

Lemma rtt_run_ind (P : tcp_rtt -> Prop) os s :
  (forall s o, P s -> P (rtt_step s o)) -> P s -> P (rtt_run s os).
Proof. intros Hstep. revert s. induction os; cbn; eauto. Qed.

(** from a reset, whatever sequence of transmissions, ACKs, timeouts and
    retransmissions follows, the retransmission timeout stays within the
    configured [200 ms, 60 s] and a probe is never armed while Karn's guard
    is set. *)
Theorem rto_always_bounded s0 os :
  rtt_sane (rtt_run (tcp_rtt_reset s0) os).
Proof.
  apply rtt_run_ind; [apply rtt_step_sane|].
  repeat split; cbn; try done; vm_compute; congruence.
Qed.

(** ** Karn's algorithm *)

Definition ends_suppression (o : rtt_op) : bool :=
  match o with OnFlightAcked => true | _ => false end.

Lemma suppressed_step s o :
  rtt_retransmitting s = true -> ends_suppression o = false ->
  rtt_retransmitting (rtt_step s o) = true /\
  srtt_ms (rtt_step s o) = srtt_ms s /\
  rttvar_ms (rtt_step s o) = rttvar_ms s /\
  rto_ms s <= rto_ms (rtt_step s o) \/ TCP_RTO_MAX_MS < rto_ms s.
Proof.
  intros Hk Ho. destruct o; try discriminate Ho; cbn.
  - left. unfold tcp_rtt_note_xmit. rewrite Hk, orb_true_r. cbn. rewrite Hk.
    repeat split; lia.
  - left. unfold tcp_rtt_on_ack. rewrite Hk, orb_true_r. cbn. rewrite Hk.
    repeat split; lia.
  - rewrite clamp_value. unfold TCP_RTO_MIN_MS, TCP_RTO_MAX_MS.
    destruct (decide (rto_ms s <= 60000)); [left|right]; repeat split; try done; [|lia].
    destruct (decide (0 <= rto_ms s)); warith.
  - left. repeat split; lia.
Qed.

(** Karn's rule.  After a timeout or a fast/SACK retransmission no ACK
    changes SRTT or RTTVAR, and the RTO never falls, until the whole flight
    has been acknowledged. *)
Theorem karn_suppression s os (Hs : rtt_sane s)
    (Hk : rtt_retransmitting s = true)
    (Hos : Forall (fun o => ends_suppression o = false) os) :
  srtt_ms (rtt_run s os) = srtt_ms s /\
  rttvar_ms (rtt_run s os) = rttvar_ms s /\
  rto_ms s <= rto_ms (rtt_run s os).
Proof.
  revert s Hs Hk. induction Hos as [|o os Ho Hos IH]; intros s Hs Hk.
  - cbn. lia.
  - cbn. destruct (suppressed_step s o Hk Ho) as [(Hk' & E1 & E2 & Hle)|Hgt].
    + destruct (IH (rtt_step s o) (rtt_step_sane s o Hs) Hk') as (F1 & F2 & F3).
      unfold rtt_run in *. rewrite F1, F2. repeat split; lia.
    + destruct Hs as [? _]. lia.
Qed.

Lemma karn_suppression_witness :
  let s := tcp_rtt_on_timeout (mk_rtt 80 20 200 true 5 7 false) in
  rto_ms s = 400 /\
  srtt_ms (rtt_run s [OnAck true 6 true 7 300; OnTimeout; NoteXmit true 9 9]) = 80.
Proof.
  intros s. split; [vm_compute; reflexivity|].
  refine (proj1 (karn_suppression s _ _ _ _)).
  - repeat split; vm_compute; congruence.
  - reflexivity.
  - repeat constructor.
Defined.

(** ** The estimator against RFC 6298 *)

(** Below 2^29 ms (six days) no product of the estimator wraps. *)
Definition RTT_EXACT_MAX : Z := 536870912.

(** on samples and estimates below 2^29 ms the C expressions compute the
    RFC 6298 recurrences exactly: the new SRTT lies between the old one and
    the sample (so a measured connection never returns to the "no sample"
    value 0), RTTVAR moves toward the deviation, both stay below the bound,
    and the RTO is the clamped SRTT + 4 * RTTVAR. *)
Theorem rtt_on_ack_rfc6298 s ack tsecr now_ms
    (Hp : rtt_probe_valid s = true) (Hk : rtt_retransmitting s = false)
    (He : tsecr = rtt_probe_tsval s)
    (Hc : 0 <= i32 (ack - rtt_probe_end_seq s))
    (Hs : 0 <= srtt_ms s < RTT_EXACT_MAX) (Hv : 0 <= rttvar_ms s < RTT_EXACT_MAX)
    (Hn : u32 (now_ms - tsecr) < RTT_EXACT_MAX) :
  let R := Z.max 1 (u32 (now_ms - tsecr)) in
  let s' := snd (tcp_rtt_on_ack true ack true tsecr now_ms s) in
  fst (tcp_rtt_on_ack true ack true tsecr now_ms s) = true /\
  (srtt_ms s = 0 -> srtt_ms s' = R /\ rttvar_ms s' = R / 2) /\
  (srtt_ms s <> 0 ->
     srtt_ms s' = (7 * srtt_ms s + R) / 8 /\
     rttvar_ms s' = (3 * rttvar_ms s + Z.abs (srtt_ms s - R)) / 4 /\
     Z.min (srtt_ms s) R <= srtt_ms s' <= Z.max (srtt_ms s) R) /\
  0 < srtt_ms s' < RTT_EXACT_MAX /\ 0 <= rttvar_ms s' < RTT_EXACT_MAX /\
  rto_ms s' = Z.max TCP_RTO_MIN_MS
                (Z.min (srtt_ms s' + 4 * rttvar_ms s') TCP_RTO_MAX_MS) /\
  rtt_probe_valid s' = false.
Proof.
  intros R s'. unfold s', tcp_rtt_on_ack.
  replace (negb true || negb true || negb (rtt_probe_valid s)
    || rtt_retransmitting s || negb (tsecr =? rtt_probe_tsval s)
    || (i32 (ack - rtt_probe_end_seq s) <? 0)) with false
    by (rewrite Hp, Hk, He, Z.eqb_refl; cbn; lia).
  assert ((if u32 (now_ms - tsecr) =? 0 then 1 else u32 (now_ms - tsecr)) = R) as ->
    by (unfold R; pose proof (u32_range (now_ms - tsecr)); bsplit; warith).
  assert (1 <= R < RTT_EXACT_MAX) as HR by (unfold R, RTT_EXACT_MAX in *; lia).
  clearbody R. unfold rtt_estimate, RTT_EXACT_MAX in *.
  destruct (srtt_ms s =? 0) eqn:E; bprop; cbn;
    rewrite ?clamp_value, ?(u32_small (4 * _)), ?u64_small by warith.
  - repeat split; try lia; warith.
  - assert ((if R <? srtt_ms s then srtt_ms s - R else R - srtt_ms s)
            = Z.abs (srtt_ms s - R)) as -> by (bsplit; lia).
    rewrite !(u32_small (_ + _)) by warith.
    rewrite ?(u32_small (4 * _)), ?u64_small by warith.
    repeat split; try lia; warith.
Qed.

Lemma rtt_on_ack_rfc6298_witness :
  let s := mk_rtt 80 20 200 true 1000 500 false in
  let s' := snd (tcp_rtt_on_ack true 1000 true 500 620 s) in
  srtt_ms s' = 85 /\ rttvar_ms s' = 25 /\ rtt_probe_valid s' = false.
Proof.
  intros s s'.
  assert (0 <= i32 (1000 - rtt_probe_end_seq s)) as H1 by (vm_compute; congruence).
  assert (0 <= srtt_ms s < RTT_EXACT_MAX) as H2 by (split; vm_compute; congruence).
  assert (0 <= rttvar_ms s < RTT_EXACT_MAX) as H3 by (split; vm_compute; congruence).
  assert (u32 (620 - 500) < RTT_EXACT_MAX) as H4 by (vm_compute; congruence).
  destruct (rtt_on_ack_rfc6298 s 1000 500 620 eq_refl eq_refl eq_refl H1 H2 H3 H4)
    as (_ & _ & _ & _ & _ & _ & Hpv).
  split; [reflexivity|]. split; [reflexivity|exact Hpv].
Defined.
