(* ===== verification/TcpCc.v ===== *)
(** * Congestion control: shared state, helpers and dispatch
    (pro-stack/tcp_cc.h, tcp_cc.c, tcp_cc/internal.h)

    [tcp_cc_state] is the algorithm-independent part of the control block.
    Its private 64-byte area is typed by [cubic_state], the only layout a
    built-in algorithm gives it; an all-zero area is [cubic_zero].  The fields
    of [struct tcp_stream] that a callback only reads are [cc_env].  A
    callback table is the record [tcp_cc_ops]; an optional callback is an
    [option].  [CcOpsLaws] is what the transport relies on from a table, and
    the dispatch theorems are proved against it. *)

From stdpp Require Import strings.
From S2P Require Import Prelude Config.

Definition TCP_CC_PRIV_SIZE : Z := 64.

(** ** Data *)

Record cubic_state := mk_cubic {
  cubic_credit : Z;
  w_max : Z;
  w_last_max : Z;
  cwnd_prior : Z;
  cwnd_epoch : Z;
  w_est : Z;
  k_ms : Z;
  epoch_start_ms : Z;
  last_update_ms : Z;
  round_end : Z;
  last_round_min_rtt : Z;
  current_round_min_rtt : Z;
  css_baseline_min_rtt : Z;
  sample_count : Z;
  css_rounds : Z;
  phase : Z;
  cflags : Z
}.

Definition with_cubic_credit (v : Z) (s : cubic_state) : cubic_state :=
  mk_cubic v (w_max s) (w_last_max s) (cwnd_prior s) (cwnd_epoch s)
   (w_est s) (k_ms s) (epoch_start_ms s) (last_update_ms s) (round_end s)
   (last_round_min_rtt s) (current_round_min_rtt s) (css_baseline_min_rtt s)
   (sample_count s) (css_rounds s) (phase s) (cflags s) .
Definition with_w_max (v : Z) (s : cubic_state) : cubic_state :=
  mk_cubic (cubic_credit s) v (w_last_max s) (cwnd_prior s) (cwnd_epoch s)
   (w_est s) (k_ms s) (epoch_start_ms s) (last_update_ms s) (round_end s)
   (last_round_min_rtt s) (current_round_min_rtt s) (css_baseline_min_rtt s)
   (sample_count s) (css_rounds s) (phase s) (cflags s) .
Definition with_w_last_max (v : Z) (s : cubic_state) : cubic_state :=
  mk_cubic (cubic_credit s) (w_max s) v (cwnd_prior s) (cwnd_epoch s)
   (w_est s) (k_ms s) (epoch_start_ms s) (last_update_ms s) (round_end s)
   (last_round_min_rtt s) (current_round_min_rtt s) (css_baseline_min_rtt s)
   (sample_count s) (css_rounds s) (phase s) (cflags s) .
Definition with_cwnd_prior (v : Z) (s : cubic_state) : cubic_state :=
  mk_cubic (cubic_credit s) (w_max s) (w_last_max s) v (cwnd_epoch s)
   (w_est s) (k_ms s) (epoch_start_ms s) (last_update_ms s) (round_end s)
   (last_round_min_rtt s) (current_round_min_rtt s) (css_baseline_min_rtt s)
   (sample_count s) (css_rounds s) (phase s) (cflags s) .
Definition with_cwnd_epoch (v : Z) (s : cubic_state) : cubic_state :=
  mk_cubic (cubic_credit s) (w_max s) (w_last_max s) (cwnd_prior s) v
   (w_est s) (k_ms s) (epoch_start_ms s) (last_update_ms s) (round_end s)
   (last_round_min_rtt s) (current_round_min_rtt s) (css_baseline_min_rtt s)
   (sample_count s) (css_rounds s) (phase s) (cflags s) .
Definition with_w_est (v : Z) (s : cubic_state) : cubic_state :=
  mk_cubic (cubic_credit s) (w_max s) (w_last_max s) (cwnd_prior s)
   (cwnd_epoch s) v (k_ms s) (epoch_start_ms s) (last_update_ms s)
   (round_end s) (last_round_min_rtt s) (current_round_min_rtt s)
   (css_baseline_min_rtt s) (sample_count s) (css_rounds s) (phase s)
   (cflags s) .
Definition with_k_ms (v : Z) (s : cubic_state) : cubic_state :=
  mk_cubic (cubic_credit s) (w_max s) (w_last_max s) (cwnd_prior s)
   (cwnd_epoch s) (w_est s) v (epoch_start_ms s) (last_update_ms s)
   (round_end s) (last_round_min_rtt s) (current_round_min_rtt s)
   (css_baseline_min_rtt s) (sample_count s) (css_rounds s) (phase s)
   (cflags s) .
Definition with_epoch_start_ms (v : Z) (s : cubic_state) : cubic_state :=
  mk_cubic (cubic_credit s) (w_max s) (w_last_max s) (cwnd_prior s)
   (cwnd_epoch s) (w_est s) (k_ms s) v (last_update_ms s) (round_end s)
   (last_round_min_rtt s) (current_round_min_rtt s) (css_baseline_min_rtt s)
   (sample_count s) (css_rounds s) (phase s) (cflags s) .
Definition with_last_update_ms (v : Z) (s : cubic_state) : cubic_state :=
  mk_cubic (cubic_credit s) (w_max s) (w_last_max s) (cwnd_prior s)
   (cwnd_epoch s) (w_est s) (k_ms s) (epoch_start_ms s) v (round_end s)
   (last_round_min_rtt s) (current_round_min_rtt s) (css_baseline_min_rtt s)
   (sample_count s) (css_rounds s) (phase s) (cflags s) .
Definition with_round_end (v : Z) (s : cubic_state) : cubic_state :=
  mk_cubic (cubic_credit s) (w_max s) (w_last_max s) (cwnd_prior s)
   (cwnd_epoch s) (w_est s) (k_ms s) (epoch_start_ms s) (last_update_ms s) v
   (last_round_min_rtt s) (current_round_min_rtt s) (css_baseline_min_rtt s)
   (sample_count s) (css_rounds s) (phase s) (cflags s) .
Definition with_last_round_min_rtt (v : Z) (s : cubic_state) : cubic_state :=
  mk_cubic (cubic_credit s) (w_max s) (w_last_max s) (cwnd_prior s)
   (cwnd_epoch s) (w_est s) (k_ms s) (epoch_start_ms s) (last_update_ms s)
   (round_end s) v (current_round_min_rtt s) (css_baseline_min_rtt s)
   (sample_count s) (css_rounds s) (phase s) (cflags s) .
Definition with_current_round_min_rtt (v : Z) (s : cubic_state) : cubic_state :=
  mk_cubic (cubic_credit s) (w_max s) (w_last_max s) (cwnd_prior s)
   (cwnd_epoch s) (w_est s) (k_ms s) (epoch_start_ms s) (last_update_ms s)
   (round_end s) (last_round_min_rtt s) v (css_baseline_min_rtt s)
   (sample_count s) (css_rounds s) (phase s) (cflags s) .
Definition with_css_baseline_min_rtt (v : Z) (s : cubic_state) : cubic_state :=
  mk_cubic (cubic_credit s) (w_max s) (w_last_max s) (cwnd_prior s)
   (cwnd_epoch s) (w_est s) (k_ms s) (epoch_start_ms s) (last_update_ms s)
   (round_end s) (last_round_min_rtt s) (current_round_min_rtt s) v
   (sample_count s) (css_rounds s) (phase s) (cflags s) .
Definition with_sample_count (v : Z) (s : cubic_state) : cubic_state :=
  mk_cubic (cubic_credit s) (w_max s) (w_last_max s) (cwnd_prior s)
   (cwnd_epoch s) (w_est s) (k_ms s) (epoch_start_ms s) (last_update_ms s)
   (round_end s) (last_round_min_rtt s) (current_round_min_rtt s)
   (css_baseline_min_rtt s) v (css_rounds s) (phase s) (cflags s) .
Definition with_css_rounds (v : Z) (s : cubic_state) : cubic_state :=
  mk_cubic (cubic_credit s) (w_max s) (w_last_max s) (cwnd_prior s)
   (cwnd_epoch s) (w_est s) (k_ms s) (epoch_start_ms s) (last_update_ms s)
   (round_end s) (last_round_min_rtt s) (current_round_min_rtt s)
   (css_baseline_min_rtt s) (sample_count s) v (phase s) (cflags s) .
Definition with_phase (v : Z) (s : cubic_state) : cubic_state :=
  mk_cubic (cubic_credit s) (w_max s) (w_last_max s) (cwnd_prior s)
   (cwnd_epoch s) (w_est s) (k_ms s) (epoch_start_ms s) (last_update_ms s)
   (round_end s) (last_round_min_rtt s) (current_round_min_rtt s)
   (css_baseline_min_rtt s) (sample_count s) (css_rounds s) v (cflags s) .
Definition with_cflags (v : Z) (s : cubic_state) : cubic_state :=
  mk_cubic (cubic_credit s) (w_max s) (w_last_max s) (cwnd_prior s)
   (cwnd_epoch s) (w_est s) (k_ms s) (epoch_start_ms s) (last_update_ms s)
   (round_end s) (last_round_min_rtt s) (current_round_min_rtt s)
   (css_baseline_min_rtt s) (sample_count s) (css_rounds s) (phase s) v.

Definition cubic_zero : cubic_state :=
  mk_cubic 0 0 0 0 0 0 0 0 0 0 0 0 0 0 0 0 0.

Record tcp_cc_state := mk_cc {
  cwnd : Z;
  ssthresh : Z;
  initial_window : Z;
  ca_acked : Z;
  rto_loss_seq : Z;
  rto_loss_valid : bool;
  last_data_tx_ms : Z;
  cwnd_limited : bool;
  priv : cubic_state
}.

Definition with_cwnd (v : Z) (s : tcp_cc_state) : tcp_cc_state :=
  mk_cc v (ssthresh s) (initial_window s) (ca_acked s) (rto_loss_seq s)
   (rto_loss_valid s) (last_data_tx_ms s) (cwnd_limited s) (priv s) .
Definition with_ssthresh (v : Z) (s : tcp_cc_state) : tcp_cc_state :=
  mk_cc (cwnd s) v (initial_window s) (ca_acked s) (rto_loss_seq s)
   (rto_loss_valid s) (last_data_tx_ms s) (cwnd_limited s) (priv s) .
Definition with_initial_window (v : Z) (s : tcp_cc_state) : tcp_cc_state :=
  mk_cc (cwnd s) (ssthresh s) v (ca_acked s) (rto_loss_seq s)
   (rto_loss_valid s) (last_data_tx_ms s) (cwnd_limited s) (priv s) .
Definition with_ca_acked (v : Z) (s : tcp_cc_state) : tcp_cc_state :=
  mk_cc (cwnd s) (ssthresh s) (initial_window s) v (rto_loss_seq s)
   (rto_loss_valid s) (last_data_tx_ms s) (cwnd_limited s) (priv s) .
Definition with_rto_loss_seq (v : Z) (s : tcp_cc_state) : tcp_cc_state :=
  mk_cc (cwnd s) (ssthresh s) (initial_window s) (ca_acked s) v
   (rto_loss_valid s) (last_data_tx_ms s) (cwnd_limited s) (priv s) .
Definition with_rto_loss_valid (v : bool) (s : tcp_cc_state) : tcp_cc_state :=
  mk_cc (cwnd s) (ssthresh s) (initial_window s) (ca_acked s)
   (rto_loss_seq s) v (last_data_tx_ms s) (cwnd_limited s) (priv s) .
Definition with_last_data_tx_ms (v : Z) (s : tcp_cc_state) : tcp_cc_state :=
  mk_cc (cwnd s) (ssthresh s) (initial_window s) (ca_acked s)
   (rto_loss_seq s) (rto_loss_valid s) v (cwnd_limited s) (priv s) .
Definition with_cwnd_limited (v : bool) (s : tcp_cc_state) : tcp_cc_state :=
  mk_cc (cwnd s) (ssthresh s) (initial_window s) (ca_acked s)
   (rto_loss_seq s) (rto_loss_valid s) (last_data_tx_ms s) v (priv s) .
Definition with_priv (v : cubic_state) (s : tcp_cc_state) : tcp_cc_state :=
  mk_cc (cwnd s) (ssthresh s) (initial_window s) (ca_acked s)
   (rto_loss_seq s) (rto_loss_valid s) (last_data_tx_ms s) (cwnd_limited s)
   v.

(** Fields of the enclosing stream read by the callbacks. *)
Record cc_env := mk_env {
  snd_mss : Z;
  srtt : Z;
  syn_retransmitted : bool
}.

Inductive tcp_cc_loss_reason :=
| TCP_CC_LOSS_SACK
| TCP_CC_LOSS_DUPACK
| TCP_CC_LOSS_RTO.

Record tcp_cc_ack_event := mk_ack {
  ack_seq : Z;
  snd_nxt : Z;
  acked_bytes : Z;
  newly_sacked_bytes : Z;
  flight_size : Z;
  now_ms : Z;
  rtt_sample_ms : Z;
  rtt_sample_valid : bool;
  ack_cwnd_limited : bool;
  duplicate_ack : bool;
  entered_recovery : bool;
  partial_ack : bool;
  newreno_recovery : bool;
  in_recovery : bool
}.

Record tcp_cc_tx_event := mk_tx {
  tx_bytes : Z;
  tx_now_ms : Z;
  tx_retransmission : bool;
  tx_cwnd_limited : bool
}.

Record tcp_cc_loss_event := mk_loss {
  loss_reason : tcp_cc_loss_reason;
  loss_flight_size : Z;
  loss_recovery_point : Z;
  first_rto_for_seq : bool
}.

Record tcp_cc_ops := mk_ops {
  cc_name : string;
  priv_size : Z;
  op_init : option (cc_env -> bool -> tcp_cc_state -> tcp_cc_state);
  op_reset : option (cc_env -> tcp_cc_state -> tcp_cc_state);
  op_on_ack : option (cc_env -> tcp_cc_ack_event -> tcp_cc_state -> tcp_cc_state);
  op_on_packet_sent :
    option (cc_env -> tcp_cc_tx_event -> tcp_cc_state -> tcp_cc_state);
  op_on_loss :
    option (cc_env -> tcp_cc_loss_event -> tcp_cc_state -> tcp_cc_state);
  op_on_recovery_exit : option (cc_env -> tcp_cc_state -> tcp_cc_state);
  op_on_rto :
    option (cc_env -> tcp_cc_loss_event -> tcp_cc_state -> tcp_cc_state);
  op_on_idle_restart : option (cc_env -> tcp_cc_state -> tcp_cc_state);
  op_on_dsack : option (cc_env -> Z * Z -> bool -> tcp_cc_state -> tcp_cc_state)
}.

(** ** Helpers shared by the algorithms *)

Definition tcp_cc_smss (e : cc_env) : Z :=
  if negb (snd_mss e =? 0) then snd_mss e else TCP_DEFAULT_MSS.

Definition tcp_cc_add_sat (l r : Z) : Z :=
  if UINT32_MAX - l <? r then UINT32_MAX else u32 (l + r).

Definition tcp_cc_initial_window (smss : Z) : Z :=
  if 2190 <? smss then tcp_cc_add_sat smss smss
  else if 1095 <? smss then tcp_cc_add_sat (tcp_cc_add_sat smss smss) smss
  else tcp_cc_add_sat (tcp_cc_add_sat smss smss) (tcp_cc_add_sat smss smss).

Definition tcp_cc_ssthresh (flight smss numerator denominator : Z) : Z :=
  let threshold := u32 (u64 (flight * numerator) / denominator) in
  let floor := tcp_cc_add_sat smss smss in
  if floor <? threshold then threshold else floor.

(** RFC 6582 window inflation; the flag is the function's return value. *)
Definition tcp_cc_newreno_recovery_ack (e : cc_env) (ev : tcp_cc_ack_event)
    (s : tcp_cc_state) : bool * tcp_cc_state :=
  let smss := tcp_cc_smss e in
  if negb (in_recovery ev) then (false, s)
  else if negb (newreno_recovery ev) then (true, s)
  else if entered_recovery ev then (true, s)
  else if partial_ack ev then
    let c1 := if acked_bytes ev <? cwnd s then cwnd s - acked_bytes ev else 0 in
    let c2 := if smss <=? acked_bytes ev then tcp_cc_add_sat c1 smss else c1 in
    let c3 := if c2 <? smss then smss else c2 in
    (true, with_cwnd c3 s)
  else if duplicate_ack ev then
    (true, with_cwnd (tcp_cc_add_sat (cwnd s) smss) s)
  else (true, s).

(** ** Dispatch layer *)

Record tcp_cc := mk_tcp_cc { ops : option tcp_cc_ops; st : tcp_cc_state }.

Definition cc_zero : tcp_cc_state := mk_cc 0 0 0 0 0 false 0 false cubic_zero.

Definition dispatch (f : option (tcp_cc_state -> tcp_cc_state)) (c : tcp_cc) : tcp_cc :=
  match f with Some g => mk_tcp_cc (ops c) (g (st c)) | None => c end.

Definition tcp_cc_set_ops (e : cc_env) (o : option tcp_cc_ops) (syn_rexmit : bool)
    (c : tcp_cc) : tcp_cc :=
  match o with
  | None => c
  | Some t =>
      if TCP_CC_PRIV_SIZE <? priv_size t then c
      else dispatch ((fun f => f e syn_rexmit) <$> op_init t)
             (mk_tcp_cc (Some t) cc_zero)
  end.

Definition tcp_cc_reset (e : cc_env) (c : tcp_cc) : tcp_cc :=
  dispatch (t ← ops c; (fun f => f e) <$> op_reset t) c.

Definition tcp_cc_on_ack (e : cc_env) (ev : tcp_cc_ack_event) (c : tcp_cc) : tcp_cc :=
  dispatch (t ← ops c; (fun f => f e ev) <$> op_on_ack t) c.

Definition tcp_cc_on_packet_sent (e : cc_env) (ev : tcp_cc_tx_event) (c : tcp_cc) : tcp_cc :=
  let s1 := with_cwnd_limited (tx_cwnd_limited ev)
              (with_last_data_tx_ms (tx_now_ms ev) (st c)) in
  let c1 := mk_tcp_cc (ops c) s1 in
  dispatch (t ← ops c; (fun f => f e ev) <$> op_on_packet_sent t) c1.

Definition tcp_cc_on_loss (e : cc_env) (ev : tcp_cc_loss_event) (c : tcp_cc) : tcp_cc :=
  dispatch (t ← ops c; (fun f => f e ev) <$> op_on_loss t) c.

Definition tcp_cc_on_recovery_exit (e : cc_env) (c : tcp_cc) : tcp_cc :=
  dispatch (t ← ops c; (fun f => f e) <$> op_on_recovery_exit t) c.

Definition tcp_cc_on_rto (e : cc_env) (ev : tcp_cc_loss_event) (c : tcp_cc) : tcp_cc :=
  dispatch (t ← ops c; (fun f => f e ev) <$> op_on_rto t) c.

Definition tcp_cc_on_idle_restart (e : cc_env) (now rto : Z) (c : tcp_cc) : tcp_cc :=
  if negb (last_data_tx_ms (st c) =? 0)
     && (rto <? u32 (now - last_data_tx_ms (st c)))
  then dispatch (t ← ops c; (fun f => f e) <$> op_on_idle_restart t) c
  else c.

Definition tcp_cc_on_dsack (e : cc_env) (block : Z * Z) (covers : bool) (c : tcp_cc) : tcp_cc :=
  dispatch (t ← ops c; (fun f => f e block covers) <$> op_on_dsack t) c.

Definition tcp_cc_send_window (c : tcp_cc) : Z :=
  match ops c with None => UINT32_MAX | Some _ => cwnd (st c) end.

(** ** Invariant of a congestion-control state

    The congestion window, the slow-start threshold and the restart window
    are never below one SMSS and every field keeps its C width. *)

Definition env_ok (e : cc_env) : Prop := in_u16 (snd_mss e) /\ in_u32 (srtt e).

Definition cubic_ok (p : cubic_state) : Prop :=
  in_u64 (cubic_credit p) /\ in_u32 (w_max p) /\ in_u32 (cwnd_prior p) /\
  in_u32 (w_est p) /\ in_u32 (k_ms p).

Definition cc_ok (smss : Z) (s : tcp_cc_state) : Prop :=
  smss <= cwnd s <= UINT32_MAX /\
  smss <= ssthresh s <= UINT32_MAX /\
  smss <= initial_window s <= UINT32_MAX /\
  in_u32 (ca_acked s) /\ cubic_ok (priv s).

Definition ack_ok (ev : tcp_cc_ack_event) : Prop :=
  in_u32 (acked_bytes ev) /\ in_u32 (now_ms ev) /\ in_u32 (rtt_sample_ms ev).

(** ** Facts on the helpers *)

Lemma smss_range e : env_ok e -> 1 <= tcp_cc_smss e <= 65535.
Proof. intros [? _]. unfold tcp_cc_smss, TCP_DEFAULT_MSS. bsplit; warith. Qed.

Lemma add_sat_min l r :
  0 <= l <= UINT32_MAX -> 0 <= r <= UINT32_MAX ->
  tcp_cc_add_sat l r = Z.min UINT32_MAX (l + r).
Proof. intros. unfold tcp_cc_add_sat. bsplit; warith. Qed.

Lemma initial_window_value smss :
  1 <= smss <= 65535 ->
  tcp_cc_initial_window smss =
    (if 2190 <? smss then 2 else if 1095 <? smss then 3 else 4) * smss.
Proof.
  intros. unfold tcp_cc_initial_window.
  rewrite !add_sat_min by (rewrite ?add_sat_min; warith). bsplit; warith.
Qed.

Lemma ssthresh_value flight smss num den :
  in_u32 flight -> 1 <= smss <= 65535 -> 0 <= num <= den -> 0 < den <= 10 ->
  tcp_cc_ssthresh flight smss num den =
    Z.max (flight * num / den) (2 * smss).
Proof.
  intros Hf Hs Hn Hd. unfold tcp_cc_ssthresh.
  rewrite add_sat_min by warith.
  assert (0 <= flight * num / den <= flight) as Hq.
  { split; [apply Z.div_pos; [|lia]; wunfold; nia|].
    apply Z.div_le_upper_bound; [lia|]. wunfold. nia. }
  rewrite u64_small by (wunfold; nia). rewrite u32_small by warith.
  destruct (_ <? _) eqn:E; bprop; warith.
Qed.

Lemma recovery_ack_ok e ev s :
  env_ok e -> ack_ok ev -> cc_ok (tcp_cc_smss e) s ->
  cc_ok (tcp_cc_smss e) (snd (tcp_cc_newreno_recovery_ack e ev s)).
Proof.
  intros He (Ha & _ & _) Hok. pose proof (smss_range e He) as Hs.
  destruct Hok as (Hc & Ht & Hi & Hca & Hp).
  unfold tcp_cc_newreno_recovery_ack, cc_ok.
  set (m := tcp_cc_smss e) in *.
  destruct (in_recovery ev), (newreno_recovery ev), (entered_recovery ev),
    (partial_ack ev), (duplicate_ack ev); cbn; try done;
    rewrite ?add_sat_min by warith; repeat split; try apply Hp; try warith;
    destruct (acked_bytes ev <? cwnd s) eqn:E1, (m <=? acked_bytes ev) eqn:E2;
    bprop; rewrite ?add_sat_min by warith; bsplit; warith.
Qed.

(** ** The interface a callback table offers to the transport *)

Class CcOpsLaws (t : tcp_cc_ops) : Prop := {
  law_size : priv_size t <= TCP_CC_PRIV_SIZE;
  law_init : forall e b s, env_ok e -> cubic_ok (priv s) ->
    exists f, op_init t = Some f /\ cc_ok (tcp_cc_smss e) (f e b s);
  law_reset : forall f e s, op_reset t = Some f -> env_ok e ->
    cc_ok (tcp_cc_smss e) s -> cc_ok (tcp_cc_smss e) (f e s);
  law_ack : forall f e ev s, op_on_ack t = Some f -> env_ok e -> ack_ok ev ->
    cc_ok (tcp_cc_smss e) s -> cc_ok (tcp_cc_smss e) (f e ev s);
  law_sent : forall f e ev s, op_on_packet_sent t = Some f -> env_ok e ->
    cc_ok (tcp_cc_smss e) s -> cc_ok (tcp_cc_smss e) (f e ev s);
  law_loss : forall f e ev s, op_on_loss t = Some f \/ op_on_rto t = Some f ->
    env_ok e -> in_u32 (loss_flight_size ev) ->
    cc_ok (tcp_cc_smss e) s -> cc_ok (tcp_cc_smss e) (f e ev s);
  law_exit : forall f e s,
    op_on_recovery_exit t = Some f \/ op_on_idle_restart t = Some f ->
    env_ok e -> cc_ok (tcp_cc_smss e) s -> cc_ok (tcp_cc_smss e) (f e s);
  law_dsack : forall f e blk b s, op_on_dsack t = Some f -> env_ok e ->
    cc_ok (tcp_cc_smss e) s -> cc_ok (tcp_cc_smss e) (f e blk b s)
}.

(** A call the transport makes on the dispatch layer. *)
Inductive cc_call :=
| CallReset
| CallAck (ev : tcp_cc_ack_event)
| CallSent (ev : tcp_cc_tx_event)
| CallLoss (ev : tcp_cc_loss_event)
| CallExit
| CallRto (ev : tcp_cc_loss_event)
| CallIdle (now rto : Z)
| CallDsack (block : Z * Z) (covers : bool).

Definition cc_apply (e : cc_env) (c : tcp_cc) (k : cc_call) : tcp_cc :=
  match k with
  | CallReset => tcp_cc_reset e c
  | CallAck ev => tcp_cc_on_ack e ev c
  | CallSent ev => tcp_cc_on_packet_sent e ev c
  | CallLoss ev => tcp_cc_on_loss e ev c
  | CallExit => tcp_cc_on_recovery_exit e c
  | CallRto ev => tcp_cc_on_rto e ev c
  | CallIdle now rto => tcp_cc_on_idle_restart e now rto c
  | CallDsack b v => tcp_cc_on_dsack e b v c
  end.

Definition call_ok (k : cc_call) : Prop :=
  match k with
  | CallAck ev => ack_ok ev
  | CallLoss ev | CallRto ev => in_u32 (loss_flight_size ev)
  | _ => True
  end.

(** A trace keeps the negotiated MSS; SRTT may differ at each call. *)
Definition cc_run (c : tcp_cc) (l : list (cc_env * cc_call)) : tcp_cc :=
  foldl (fun c p => cc_apply (fst p) c (snd p)) c l.

Section Dispatch.
Context (t : tcp_cc_ops) `{!CcOpsLaws t}.

Definition cc_inv (smss : Z) (c : tcp_cc) : Prop :=
  ops c = Some t /\ cc_ok smss (st c).

Lemma dispatch_inv smss f c :
  cc_inv smss c -> (forall g, f = Some g -> cc_ok smss (g (st c))) ->
  cc_inv smss (dispatch f c).
Proof. intros [Ho Hc] Hf. destruct f; cbn; [split; cbn; auto|done]. Qed.

Ltac dispatch_law H :=
  apply dispatch_inv; [assumption|];
  rewrite H; cbn; intros g Hg;
  apply fmap_Some in Hg as (h & Hh & ->).

Lemma cc_apply_inv e c k :
  env_ok e -> call_ok k -> cc_inv (tcp_cc_smss e) c ->
  cc_inv (tcp_cc_smss e) (cc_apply e c k).
Proof.
  intros He Hk Hinv. pose proof Hinv as [Ho Hc].
  destruct k; cbn [cc_apply call_ok] in *.
  - unfold tcp_cc_reset. dispatch_law Ho. by eapply law_reset.
  - unfold tcp_cc_on_ack. dispatch_law Ho. by eapply law_ack.
  - unfold tcp_cc_on_packet_sent. dispatch_law Ho. by eapply law_sent.
  - unfold tcp_cc_on_loss. dispatch_law Ho. eapply law_loss; eauto.
  - unfold tcp_cc_on_recovery_exit. dispatch_law Ho. eapply law_exit; eauto.
  - unfold tcp_cc_on_rto. dispatch_law Ho. eapply law_loss; eauto.
  - unfold tcp_cc_on_idle_restart. destruct (_ && _); [|done].
    dispatch_law Ho. eapply law_exit; eauto.
  - unfold tcp_cc_on_dsack. dispatch_law Ho. by eapply law_dsack.
Qed.

Lemma set_ops_inv e b c :
  env_ok e -> cc_inv (tcp_cc_smss e) (tcp_cc_set_ops e (Some t) b c).
Proof.
  intros He. unfold tcp_cc_set_ops. pose proof law_size as Hs.
  destruct (_ <? _) eqn:E; bprop; [lia|].
  assert (cubic_ok (priv cc_zero)) as Hz by (repeat split; vm_compute; congruence).
  destruct (law_init e b cc_zero He Hz) as (f & Hf & Hok).
  rewrite Hf. split; [done|exact Hok].
Qed.

Lemma cc_run_inv smss c l :
  Forall (fun p => env_ok (fst p) /\ tcp_cc_smss (fst p) = smss /\ call_ok (snd p)) l ->
  cc_inv smss c -> cc_inv smss (cc_run c l).
Proof.
  intros Hl. revert c. induction Hl as [|[e k] l (He & <- & Hk) _ IH]; intros c Hc; [done|].
  cbn. apply IH. by apply cc_apply_inv.
Qed.

(** for every callback table that keeps the interface's laws, after
    selecting it the congestion window that the transport reads is, along any
    sequence of ACK, transmission, loss, timeout, exit, idle and D-SACK
    events, at least one SMSS and never wraps beyond 32 bits. *)
Theorem send_window_floor e b c0 l (He : env_ok e)
    (Hl : Forall (fun p => env_ok (fst p) /\ tcp_cc_smss (fst p) = tcp_cc_smss e /\
                           call_ok (snd p)) l) :
  tcp_cc_smss e <= tcp_cc_send_window (cc_run (tcp_cc_set_ops e (Some t) b c0) l)
    <= UINT32_MAX.
Proof.
  destruct (cc_run_inv (tcp_cc_smss e) (tcp_cc_set_ops e (Some t) b c0) l Hl
              (set_ops_inv e b c0 He)) as [Ho Hok].
  unfold tcp_cc_send_window. rewrite Ho. apply Hok.
Qed.
End Dispatch.
