(* ===== verification/TcpNewReno.v ===== *)
(** * NewReno congestion control (pro-stack/tcp_cc/newreno.c)

    Every callback of [tcp_newreno_ops] as a function on [tcp_cc_state], the
    callback table itself, the proof that it keeps the interface of
    [TcpCc.CcOpsLaws], and the byte-counted growth of congestion avoidance. *)

From stdpp Require Import strings.
From S2P Require Import Prelude TcpCc.

Definition newreno_init (e : cc_env) (syn_rexmit : bool) (s : tcp_cc_state) : tcp_cc_state :=
  let smss := tcp_cc_smss e in
  let iw := tcp_cc_initial_window smss in
  mk_cc (if syn_rexmit then smss else iw) UINT32_MAX iw 0
    (rto_loss_seq s) false 0 false (priv s).

Definition newreno_reset (e : cc_env) (s : tcp_cc_state) : tcp_cc_state :=
  newreno_init e (syn_retransmitted e) (with_priv cubic_zero s).

(** The loop [while (cwnd != UINT32_MAX && ca_acked >= cwnd)].  Each round
    consumes the window it started from, so the quotient bounds the rounds;
    two more cover a zero window. *)
Fixpoint avoidance_loop (fuel : nat) (smss cwnd ca_acked : Z) : Z * Z :=
  match fuel with
  | O => (cwnd, ca_acked)
  | S n =>
      if negb (cwnd =? UINT32_MAX) && (cwnd <=? ca_acked)
      then avoidance_loop n smss (tcp_cc_add_sat cwnd smss) (ca_acked - cwnd)
      else (cwnd, ca_acked)
  end.

Definition avoidance_fuel (cwnd ca_acked : Z) : nat :=
  Z.to_nat (ca_acked / Z.max 1 cwnd) + 2.

Definition newreno_on_ack (e : cc_env) (ev : tcp_cc_ack_event) (s0 : tcp_cc_state) : tcp_cc_state :=
  let smss := tcp_cc_smss e in
  let acked := acked_bytes ev in
  let '(consumed, s1) := tcp_cc_newreno_recovery_ack e ev s0 in
  if consumed || (acked =? 0) then s1
  else
    let s := with_rto_loss_valid false s1 in
    if cwnd s <? ssthresh s then
      let increase := if acked <? smss then acked else smss in
      with_cwnd (tcp_cc_add_sat (cwnd s) increase) s
    else
      let ca := tcp_cc_add_sat (ca_acked s) acked in
      let '(c, ca') := avoidance_loop (avoidance_fuel (cwnd s) ca) smss (cwnd s) ca in
      with_ca_acked ca' (with_cwnd c s).

Definition newreno_on_packet_sent (e : cc_env) (ev : tcp_cc_tx_event) (s : tcp_cc_state) : tcp_cc_state := s.

Definition newreno_on_loss (e : cc_env) (ev : tcp_cc_loss_event) (s : tcp_cc_state) : tcp_cc_state :=
  let smss := tcp_cc_smss e in
  let threshold := tcp_cc_ssthresh (loss_flight_size ev) smss 1 2 in
  let s1 :=
    match loss_reason ev with
    | TCP_CC_LOSS_RTO =>
        with_cwnd smss (if first_rto_for_seq ev then with_ssthresh threshold s else s)
    | TCP_CC_LOSS_DUPACK =>
        with_cwnd (tcp_cc_add_sat threshold
                     (tcp_cc_add_sat smss (tcp_cc_add_sat smss smss)))
          (with_ssthresh threshold s)
    | TCP_CC_LOSS_SACK => with_cwnd threshold (with_ssthresh threshold s)
    end in
  with_ca_acked 0 s1.

Definition newreno_on_recovery_exit (e : cc_env) (s : tcp_cc_state) : tcp_cc_state :=
  with_ca_acked 0
    (if ssthresh s <? cwnd s then with_cwnd (ssthresh s) s else s).

Definition newreno_on_rto (e : cc_env) (ev : tcp_cc_loss_event) (s : tcp_cc_state) : tcp_cc_state :=
  newreno_on_loss e ev s.

Definition newreno_on_idle_restart (e : cc_env) (s : tcp_cc_state) : tcp_cc_state :=
  with_ca_acked 0
    (if initial_window s <? cwnd s then with_cwnd (initial_window s) s else s).

Definition newreno_on_dsack (e : cc_env) (block : Z * Z) (covers : bool)
    (s : tcp_cc_state) : tcp_cc_state := s.

Definition tcp_newreno_ops : tcp_cc_ops := {|
  cc_name := "newreno";
  priv_size := 0;
  op_init := Some newreno_init;
  op_reset := Some newreno_reset;
  op_on_ack := Some newreno_on_ack;
  op_on_packet_sent := Some newreno_on_packet_sent;
  op_on_loss := Some newreno_on_loss;
  op_on_recovery_exit := Some newreno_on_recovery_exit;
  op_on_rto := Some newreno_on_rto;
  op_on_idle_restart := Some newreno_on_idle_restart;
  op_on_dsack := Some newreno_on_dsack
|}.

(** ** The avoidance loop *)

(** The loop as the relation of its C body: zero or more rounds. *)
Inductive rounds (smss : Z) : Z * Z -> nat -> Z * Z -> Prop :=
| rounds_done c a :
    (c = UINT32_MAX \/ a < c) -> rounds smss (c, a) 0 (c, a)
| rounds_more c a n r :
    c <> UINT32_MAX -> c <= a ->
    rounds smss (tcp_cc_add_sat c smss, a - c) n r ->
    rounds smss (c, a) (S n) r.

Lemma avoidance_loop_rounds fuel smss c a :
  1 <= smss <= UINT32_MAX -> 1 <= c <= UINT32_MAX -> 0 <= a ->
  (Z.to_nat (a / c) < fuel)%nat ->
  exists n, rounds smss (c, a) n (avoidance_loop fuel smss c a).
Proof.
  revert c a. induction fuel as [|fuel IH]; intros c a Hs Hc Ha Hf; [lia|].
  cbn [avoidance_loop].
  destruct (_ && _) eqn:E; bprop.
  - pose proof (add_sat_min c smss ltac:(wunfold; lia) ltac:(wunfold; lia)) as Hadd.
    destruct (IH (tcp_cc_add_sat c smss) (a - c)) as [n Hn]; try (wunfold; lia).
    + assert ((a - c) / tcp_cc_add_sat c smss <= (a - c) / c) as Hle
        by (apply Z.div_le_compat_l; wunfold; lia).
      assert (a / c = (a - c) / c + 1) as Hd
        by (replace a with ((a - c) + 1 * c) at 1 by lia;
            rewrite Z.div_add by lia; done).
      assert (0 <= (a - c) / tcp_cc_add_sat c smss)
        by (apply Z.div_pos; wunfold; lia).
      lia.
    + exists (S n). constructor; try done; lia.
  - exists 0%nat. constructor.
    apply andb_false_iff in E as [E|E]; bprop; lia.
Qed.

Lemma rounds_spec smss c a n c' a' :
  1 <= smss <= UINT32_MAX -> 1 <= c <= UINT32_MAX ->
  rounds smss (c, a) n (c', a') ->
  c' = Z.min UINT32_MAX (c + Z.of_nat n * smss) /\ a' <= a /\ (0 <= a -> 0 <= a') /\
  (c' = UINT32_MAX \/ a' < c').
Proof.
  intros Hs Hc H. remember (c, a) as p eqn:Ep. remember (c', a') as q eqn:Eq.
  revert c a Ep Hc. induction H as [c1 a1 Hd|c1 a1 n r Hne Hle H IH]; intros c a [= -> ->] Hc.
  - injection Eq as <- <-. repeat split; try done; try lia.
  - destruct (IH Eq (tcp_cc_add_sat c smss) (a - c) eq_refl) as (E1 & E2 & E3 & E4);
      rewrite add_sat_min in * by (wunfold; lia); [wunfold; lia|].
    rewrite E1. repeat split; try lia; wunfold; lia.
Qed.

(** ** The interface laws *)

Lemma newreno_init_ok e b s :
  env_ok e -> cubic_ok (priv s) -> cc_ok (tcp_cc_smss e) (newreno_init e b s).
Proof.
  intros He Hp. pose proof (smss_range e He) as Hm.
  unfold cc_ok, newreno_init. cbn. rewrite initial_window_value by lia.
  destruct b; repeat split; try apply Hp; bsplit; warith.
Qed.

Lemma newreno_on_ack_ok e ev s :
  env_ok e -> ack_ok ev -> cc_ok (tcp_cc_smss e) s ->
  cc_ok (tcp_cc_smss e) (newreno_on_ack e ev s).
Proof.
  intros He Ha Hs. pose proof (smss_range e He) as Hm.
  pose proof (recovery_ack_ok e ev s He Ha Hs) as Hr.
  unfold newreno_on_ack. destruct (tcp_cc_newreno_recovery_ack e ev s) as [k s1].
  cbn in Hr. destruct (k || _); [done|].
  destruct Ha as (Ha & _ & _), Hr as (Hc & Ht & Hi & Hca & Hp).
  set (m := tcp_cc_smss e) in *. cbn. destruct (_ <? _) eqn:E.
  - unfold cc_ok; cbn. rewrite add_sat_min by (bsplit; warith).
    repeat split; try apply Hp; try warith; bsplit; warith.
  - set (ca := tcp_cc_add_sat _ _).
    assert (0 <= ca <= UINT32_MAX) as Hca'
      by (unfold ca; rewrite add_sat_min by warith; warith).
    destruct (avoidance_loop_rounds (avoidance_fuel (cwnd s1) ca) m (cwnd s1) ca)
      as [n Hn]; try (wunfold; lia).
    { unfold avoidance_fuel. rewrite Z.max_r by lia. lia. }
    destruct (avoidance_loop _ _ _ _) as [c' a'].
    apply rounds_spec in Hn as (E1 & E2 & E3 & _); try (wunfold; lia).
    unfold cc_ok; cbn. repeat split; try apply Hp; try warith.
Qed.

Lemma loss_window_ok flight smss num den :
  in_u32 flight -> 1 <= smss <= 65535 -> 0 <= num <= den -> 0 < den <= 10 ->
  smss <= tcp_cc_ssthresh flight smss num den <= UINT32_MAX.
Proof.
  intros Hf Hs Hn Hd. rewrite ssthresh_value by done.
  assert (flight * num / den <= flight)
    by (apply Z.div_le_upper_bound; [lia|]; wunfold; nia).
  warith.
Qed.

Lemma newreno_on_loss_ok e ev s :
  env_ok e -> in_u32 (loss_flight_size ev) -> cc_ok (tcp_cc_smss e) s ->
  cc_ok (tcp_cc_smss e) (newreno_on_loss e ev s).
Proof.
  intros He Hf (Hc & Ht & Hi & Hca & Hp). pose proof (smss_range e He) as Hm.
  pose proof (loss_window_ok (loss_flight_size ev) (tcp_cc_smss e) 1 2 Hf Hm
                ltac:(lia) ltac:(lia)) as Hw.
  unfold newreno_on_loss, cc_ok. set (m := tcp_cc_smss e) in *.
  destruct (loss_reason ev), (first_rto_for_seq ev); cbn;
    rewrite ?(add_sat_min m m), ?(add_sat_min m), ?(add_sat_min (tcp_cc_ssthresh _ _ _ _)) by (rewrite ?add_sat_min by warith; warith);
    repeat split; try apply Hp; warith.
Qed.

Lemma newreno_deflate_ok e s :
  cc_ok (tcp_cc_smss e) s ->
  cc_ok (tcp_cc_smss e) (newreno_on_recovery_exit e s) /\
  cc_ok (tcp_cc_smss e) (newreno_on_idle_restart e s).
Proof.
  intros (Hc & Ht & Hi & Hca & Hp).
  unfold newreno_on_recovery_exit, newreno_on_idle_restart, cc_ok.
  split; bsplit; cbn; repeat split; try apply Hp; warith.
Qed.

#[export] Instance newreno_laws : CcOpsLaws tcp_newreno_ops.
Proof.
  split; cbn.
  - vm_compute; congruence.
  - intros e b s He Hp. eexists; split; [done|]. by apply newreno_init_ok.
  - intros f e s [= <-] He Hs. apply newreno_init_ok; [done|].
    repeat split; vm_compute; congruence.
  - intros f e ev s [= <-]. apply newreno_on_ack_ok.
  - by intros f e ev s [= <-].
  - intros f e ev s [[= <-]|[= <-]]; apply newreno_on_loss_ok.
  - intros f e s [[= <-]|[= <-]] _ Hs; by apply newreno_deflate_ok.
  - by intros f e blk b s [= <-].
Qed.

(** ** Growth *)

(** one ACK outside recovery.  In slow start the window grows by exactly
    min(acked, SMSS) (saturating).  In congestion avoidance the loop ends
    after some [n] rounds, each of which consumed one full window of
    acknowledged bytes and added exactly one SMSS; the bytes left over are
    fewer than the new window. *)
Theorem newreno_growth e ev s (He : env_ok e) (Ha : ack_ok ev)
    (Hs : cc_ok (tcp_cc_smss e) s) (Hr : in_recovery ev = false)
    (Hn : acked_bytes ev <> 0) :
  let s' := newreno_on_ack e ev s in
  (cwnd s < ssthresh s ->
     cwnd s' = Z.min UINT32_MAX
                 (cwnd s + Z.min (acked_bytes ev) (tcp_cc_smss e)) /\
     ca_acked s' = ca_acked s) /\
  (ssthresh s <= cwnd s ->
     exists n : nat,
       rounds (tcp_cc_smss e)
         (cwnd s, Z.min UINT32_MAX (ca_acked s + acked_bytes ev)) n
         (cwnd s', ca_acked s') /\
       cwnd s' = Z.min UINT32_MAX (cwnd s + Z.of_nat n * tcp_cc_smss e) /\
       (cwnd s' = UINT32_MAX \/ ca_acked s' < cwnd s')).
Proof.
  intros s'. pose proof (smss_range e He) as Hm.
  destruct Ha as (Ha & _ & _), Hs as (Hc & Ht & Hi & Hca & Hp).
  unfold s', newreno_on_ack, tcp_cc_newreno_recovery_ack. rewrite Hr.
  cbn [negb orb]. rewrite (proj2 (Z.eqb_neq _ _) Hn). cbn.
  set (m := tcp_cc_smss e) in *. split; intros Hlt.
  - rewrite (proj2 (Z.ltb_lt _ _) Hlt). cbn. split; [|done].
    rewrite add_sat_min by (bsplit; warith). bsplit; lia.
  - rewrite (proj2 (Z.ltb_ge _ _) Hlt).
    rewrite (add_sat_min (ca_acked s)) by warith.
    set (ca := Z.min _ _).
    assert (0 <= ca <= UINT32_MAX) by (unfold ca; warith).
    destruct (avoidance_loop_rounds (avoidance_fuel (cwnd s) ca) m (cwnd s) ca)
      as [n Hn']; try (wunfold; lia).
    { unfold avoidance_fuel. rewrite Z.max_r by lia. lia. }
    destruct (avoidance_loop _ _ _ _) as [c' a'] eqn:El. cbn.
    exists n. pose proof Hn' as Hn2.
    apply rounds_spec in Hn2 as (E1 & _ & _ & E4); try (wunfold; lia). done.
Qed.

Lemma newreno_growth_witness :
  let e := mk_env 1000 50 false in
  let ev := mk_ack 0 0 2500 0 0 10 0 false true false false false false false in
  let s := mk_cc 2000 2000 4000 0 0 false 0 false cubic_zero in
  cwnd (newreno_on_ack e ev s) = 3000 /\
  exists n : nat, cwnd (newreno_on_ack e ev s)
    = Z.min UINT32_MAX (cwnd s + Z.of_nat n * tcp_cc_smss e).
Proof.
  intros e ev s. split; [vm_compute; reflexivity|].
  destruct (newreno_growth e ev s) as [_ H].
  - repeat split; vm_compute; congruence.
  - repeat split; vm_compute; congruence.
  - repeat split; vm_compute; congruence.
  - reflexivity.
  - vm_compute; congruence.
  - destruct H as (n & _ & Hn & _); [vm_compute; congruence|].
    exists n. exact Hn.
Defined.
