(* ===== verification/TcpCubic.v ===== *)
(** * CUBIC with HyStart++ (pro-stack/tcp_cc/cubic.c)

    The fixed-point CUBIC window function, the HyStart++ round detector, all
    callbacks of [tcp_cubic_ops] and its interface laws. *)

From stdpp Require Import strings.
From S2P Require Import Prelude TcpCc TcpNewReno.

Definition CUBIC_BETA_NUM : Z := 7.
Definition CUBIC_BETA_DEN : Z := 10.
Definition CUBIC_C_NUM : Z := 2.
Definition CUBIC_C_DEN : Z := 5.
Definition CUBIC_TIME_SCALE : Z := 1000000000.

Definition HYSTART_MIN_SAMPLES : Z := 8.
Definition HYSTART_MIN_THRESH_MS : Z := 4.
Definition HYSTART_MAX_THRESH_MS : Z := 16.
Definition HYSTART_CSS_ROUNDS : Z := 5.
Definition HYSTART_SS_GROWTH : Z := 8.
Definition HYSTART_CSS_DIVISOR : Z := 4.

Definition CUBIC_PHASE_SLOW_START : Z := 0.
Definition CUBIC_PHASE_CSS : Z := 1.
Definition CUBIC_PHASE_AVOIDANCE : Z := 2.

Definition CUBIC_F_EPOCH_VALID : Z := 1.
Definition CUBIC_F_LAST_UPDATE_VALID : Z := 2.
Definition CUBIC_F_ROUND_VALID : Z := 4.
Definition CUBIC_F_HYSTART_DONE : Z := 8.
Definition CUBIC_F_AFTER_TIMEOUT : Z := 16.

(** [ca->flags & f], [ca->flags |= f], [ca->flags &= (uint8_t)~f]. *)
Definition flag_set (f : Z) (p : cubic_state) : bool := negb (Z.land (cflags p) f =? 0).
Definition flag_on (f : Z) (p : cubic_state) : cubic_state :=
  with_cflags (u8 (Z.lor (cflags p) f)) p.
Definition flag_off (f : Z) (p : cubic_state) : cubic_state :=
  with_cflags (Z.land (cflags p) (u8 (Z.lnot f))) p.

(** ** Fixed-point cube root and window function *)

(** Binary search of [cubic_root]; 32 halvings close [0, UINT32_MAX]. *)
Fixpoint cubic_root_loop (fuel : nat) (value low high : Z) : Z :=
  match fuel with
  | O => low
  | S n =>
      if low <? high then
        let mid := low + (high - low + 1) / 2 in
        if u128 (u128 (mid * mid) * mid) <=? value
        then cubic_root_loop n value mid high
        else cubic_root_loop n value low (mid - 1)
      else low
  end.

Definition cubic_root (value : Z) : Z := u32 (cubic_root_loop 32 value 0 UINT32_MAX).

Definition cubic_k_ms (w_max cwnd_epoch smss : Z) : Z :=
  if (w_max <=? cwnd_epoch) || (smss =? 0) then 0
  else
    let scaled := u128 (u128 ((w_max - cwnd_epoch) * CUBIC_C_DEN) * CUBIC_TIME_SCALE) in
    cubic_root (scaled / (CUBIC_C_NUM * smss)).

Definition cubic_window_at (wmax k smss elapsed_ms : Z) : Z :=
  let offset := elapsed_ms - k in
  let distance := if offset <? 0 then - offset else offset in
  let delta0 := u128 (u128 (distance * distance) * distance) in
  let delta1 := u128 (delta0 * u128 (smss * CUBIC_C_NUM)) in
  let delta := delta1 / (CUBIC_C_DEN * CUBIC_TIME_SCALE) in
  if offset <? 0 then
    if wmax <=? delta then 0 else u32 (wmax - u32 delta)
  else if UINT32_MAX - wmax <? delta then UINT32_MAX
  else u32 (wmax + u32 delta).

(** ** State handling *)

Definition cubic_reset_epoch (p : cubic_state) : cubic_state :=
  flag_off (Z.lor CUBIC_F_EPOCH_VALID CUBIC_F_LAST_UPDATE_VALID)
    (with_last_update_ms 0 (with_epoch_start_ms 0 (with_k_ms 0 (with_w_est 0
      (with_cwnd_epoch 0 (with_cubic_credit 0 p)))))).

Definition cubic_init (e : cc_env) (syn_rexmit : bool) (s : tcp_cc_state) : tcp_cc_state :=
  let smss := tcp_cc_smss e in
  let iw := tcp_cc_initial_window smss in
  mk_cc (if syn_rexmit then smss else iw) UINT32_MAX iw 0
    (rto_loss_seq s) false 0 false
    (with_phase CUBIC_PHASE_SLOW_START cubic_zero).

Definition cubic_reset (e : cc_env) (s : tcp_cc_state) : tcp_cc_state :=
  cubic_init e (syn_retransmitted e) s.

Definition hystart_begin_round (snd_nxt : Z) (p : cubic_state) : cubic_state :=
  flag_on CUBIC_F_ROUND_VALID
    (with_sample_count 0 (with_current_round_min_rtt UINT32_MAX
      (with_round_end snd_nxt p))).

Definition hystart_finish_round (s : tcp_cc_state) : tcp_cc_state :=
  let p := priv s in
  if sample_count p =? 0 then s
  else
    let s1 :=
      if phase p =? CUBIC_PHASE_CSS then
        if current_round_min_rtt p <? css_baseline_min_rtt p then
          with_priv (with_css_rounds 0 (with_phase CUBIC_PHASE_SLOW_START p)) s
        else
          let p1 := with_css_rounds (u8 (css_rounds p + 1)) p in
          if HYSTART_CSS_ROUNDS <=? css_rounds p1 then
            with_ssthresh (cwnd s)
              (with_priv (cubic_reset_epoch (with_cwnd_prior (cwnd s)
                 (flag_on CUBIC_F_HYSTART_DONE
                    (with_phase CUBIC_PHASE_AVOIDANCE p1)))) s)
          else with_priv p1 s
      else s in
    with_priv (with_last_round_min_rtt (current_round_min_rtt (priv s1)) (priv s1)) s1.

(** The part of [hystart_update] after the round bookkeeping: record one
    sample and test the delay threshold. *)
Definition hystart_sample (ev : tcp_cc_ack_event) (p0 : cubic_state) : cubic_state :=
  let p1 := if rtt_sample_ms ev <? current_round_min_rtt p0
            then with_current_round_min_rtt (rtt_sample_ms ev) p0 else p0 in
  let p := if negb (sample_count p1 =? UINT8_MAX)
           then with_sample_count (u8 (sample_count p1 + 1)) p1 else p1 in
  if (phase p =? CUBIC_PHASE_SLOW_START) && negb (last_round_min_rtt p =? 0)
     && (HYSTART_MIN_SAMPLES <=? sample_count p)
  then
    let t0 := last_round_min_rtt p / 8 in
    let t1 := if t0 <? HYSTART_MIN_THRESH_MS then HYSTART_MIN_THRESH_MS else t0 in
    let t := if HYSTART_MAX_THRESH_MS <? t1 then HYSTART_MAX_THRESH_MS else t1 in
    if u32 (last_round_min_rtt p + t) <=? current_round_min_rtt p then
      with_css_baseline_min_rtt (current_round_min_rtt p)
        (with_css_rounds 0 (with_phase CUBIC_PHASE_CSS p))
    else p
  else p.

Definition hystart_update (ev : tcp_cc_ack_event) (s : tcp_cc_state) : tcp_cc_state :=
  let p := priv s in
  if flag_set CUBIC_F_HYSTART_DONE p || (phase p =? CUBIC_PHASE_AVOIDANCE)
     || negb (rtt_sample_valid ev) then s
  else if negb (flag_set CUBIC_F_ROUND_VALID p) then
    with_priv (hystart_sample ev (hystart_begin_round (snd_nxt ev) p)) s
  else if 0 <=? i32 (ack_seq ev - round_end p) then
    let s1 := hystart_finish_round s in
    if phase (priv s1) =? CUBIC_PHASE_AVOIDANCE then s1
    else with_priv (hystart_sample ev (hystart_begin_round (snd_nxt ev) (priv s1))) s1
  else with_priv (hystart_sample ev p) s.

Definition cubic_begin_epoch (e : cc_env) (now : Z) (s : tcp_cc_state) : cubic_state :=
  let smss := tcp_cc_smss e in
  let p := with_w_est (cwnd s) (with_cwnd_epoch (cwnd s) (priv s)) in
  let p1 :=
    if flag_set CUBIC_F_AFTER_TIMEOUT p || (w_max p =? 0) then
      flag_off CUBIC_F_AFTER_TIMEOUT (with_k_ms 0 (with_w_max (cwnd s) p))
    else with_k_ms (cubic_k_ms (w_max p) (cwnd_epoch p) smss) p in
  flag_on (Z.lor CUBIC_F_EPOCH_VALID CUBIC_F_LAST_UPDATE_VALID)
    (with_cubic_credit 0 (with_last_update_ms now (with_epoch_start_ms now p1))).

(** The window update of [cubic_avoidance_ack] once the epoch is running and
    the flow is window-limited. *)
Definition cubic_grow (e : cc_env) (ev : tcp_cc_ack_event) (p0 : cubic_state)
    (s : tcp_cc_state) : tcp_cc_state :=
  let smss := tcp_cc_smss e in
  let alpha_num := if cwnd_prior p0 <=? w_est p0 then 1 else 9 in
  let alpha_den := if cwnd_prior p0 <=? w_est p0 then 1 else 17 in
  let inc0 := u64 (u64 (alpha_num * acked_bytes ev) * smss) in
  let inc := inc0 / u64 (alpha_den * (if negb (cwnd s =? 0) then cwnd s else smss)) in
  let p := with_w_est (tcp_cc_add_sat (w_est p0) (u32 inc)) p0 in
  let elapsed := u32 (now_ms ev - epoch_start_ms p) in
  let rtt := if negb (srtt e =? 0) then srtt e
             else if rtt_sample_valid ev then rtt_sample_ms ev else 1 in
  let target0 := cubic_window_at (w_max p) (k_ms p) smss (u32 (elapsed + rtt)) in
  let upper := tcp_cc_add_sat (cwnd s) (cwnd s / 2) in
  let target1 := if target0 <? cwnd s then cwnd s else target0 in
  let target := if upper <? target1 then upper else target1 in
  let '(p', c) :=
    if (cwnd s <? target) && negb (cwnd s =? UINT32_MAX) then
      let credit := u64 (cubic_credit p + u64 ((target - cwnd s) * smss)) in
      let increase := u32 (credit / cwnd s) in
      (with_cubic_credit (credit mod cwnd s) p, tcp_cc_add_sat (cwnd s) increase)
    else (p, cwnd s) in
  with_cwnd (if c <? w_est p' then w_est p' else c) (with_priv p' s).

Definition cubic_avoidance_ack (e : cc_env) (ev : tcp_cc_ack_event) (s : tcp_cc_state) : tcp_cc_state :=
  let p := if negb (flag_set CUBIC_F_EPOCH_VALID (priv s))
           then cubic_begin_epoch e (now_ms ev) s else priv s in
  if negb (ack_cwnd_limited ev) then
    let p1 := if flag_set CUBIC_F_LAST_UPDATE_VALID p
              then with_epoch_start_ms
                     (u32 (epoch_start_ms p + u32 (now_ms ev - last_update_ms p))) p
              else p in
    with_priv (flag_on CUBIC_F_LAST_UPDATE_VALID
                 (with_last_update_ms (now_ms ev) p1)) s
  else
    cubic_grow e ev
      (flag_on CUBIC_F_LAST_UPDATE_VALID (with_last_update_ms (now_ms ev) p)) s.

Definition cubic_on_ack (e : cc_env) (ev : tcp_cc_ack_event) (s0 : tcp_cc_state) : tcp_cc_state :=
  let smss := tcp_cc_smss e in
  let '(consumed, s1) := tcp_cc_newreno_recovery_ack e ev s0 in
  if consumed || (acked_bytes ev =? 0) then s1
  else
    let s := with_rto_loss_valid false s1 in
    if (cwnd s <? ssthresh s) && negb (phase (priv s) =? CUBIC_PHASE_AVOIDANCE) then
      let s2 := hystart_update ev s in
      if negb (ack_cwnd_limited ev) then s2
      else
        let cap := u32 (if UINT32_MAX <? smss * HYSTART_SS_GROWTH then UINT32_MAX
                        else smss * HYSTART_SS_GROWTH) in
        let i0 := if acked_bytes ev <? cap then acked_bytes ev else cap in
        let i1 := if phase (priv s2) =? CUBIC_PHASE_CSS
                  then i0 / HYSTART_CSS_DIVISOR else i0 in
        let increase := if i1 =? 0 then 1 else i1 in
        with_cwnd (tcp_cc_add_sat (cwnd s2) increase) s2
    else
      let s2 :=
        if negb (phase (priv s) =? CUBIC_PHASE_AVOIDANCE) then
          with_priv (cubic_reset_epoch (with_cwnd_prior (cwnd s)
            (flag_on CUBIC_F_HYSTART_DONE
               (with_phase CUBIC_PHASE_AVOIDANCE (priv s))))) s
        else s in
      cubic_avoidance_ack e ev s2.

Definition cubic_on_packet_sent (e : cc_env) (ev : tcp_cc_tx_event) (s : tcp_cc_state) : tcp_cc_state := s.

Definition cubic_on_loss (e : cc_env) (ev : tcp_cc_loss_event) (s : tcp_cc_state) : tcp_cc_state :=
  let smss := tcp_cc_smss e in
  let threshold := tcp_cc_ssthresh (loss_flight_size ev) smss CUBIC_BETA_NUM CUBIC_BETA_DEN in
  match loss_reason ev with
  | TCP_CC_LOSS_RTO =>
      let s1 := if first_rto_for_seq ev
                then with_ssthresh threshold
                       (with_priv (with_cwnd_prior (cwnd s) (priv s)) s)
                else s in
      let p := flag_off CUBIC_F_ROUND_VALID
                 (flag_on (Z.lor CUBIC_F_HYSTART_DONE CUBIC_F_AFTER_TIMEOUT)
                    (with_phase CUBIC_PHASE_SLOW_START (priv s1))) in
      with_priv (cubic_reset_epoch p) (with_cwnd smss s1)
  | _ =>
      let p := with_w_last_max (w_max (priv s)) (with_cwnd_prior (cwnd s) (priv s)) in
      let p1 :=
        if negb (w_max p =? 0) && (cwnd s <? w_max p)
        then with_w_max (u32 (u64 (cwnd s * (CUBIC_BETA_DEN + CUBIC_BETA_NUM))
                              / (2 * CUBIC_BETA_DEN))) p
        else with_w_max (cwnd s) p in
      let c := match loss_reason ev with
               | TCP_CC_LOSS_DUPACK =>
                   tcp_cc_add_sat threshold
                     (tcp_cc_add_sat smss (tcp_cc_add_sat smss smss))
               | _ => threshold
               end in
      let p2 := cubic_reset_epoch
                  (flag_on CUBIC_F_HYSTART_DONE (with_phase CUBIC_PHASE_AVOIDANCE p1)) in
      with_priv p2 (with_ca_acked 0 (with_cwnd c (with_ssthresh threshold s)))
  end.

Definition cubic_on_recovery_exit (e : cc_env) (s : tcp_cc_state) : tcp_cc_state :=
  let s1 := if ssthresh s <? cwnd s then with_cwnd (ssthresh s) s else s in
  with_priv (cubic_reset_epoch (priv s)) (with_ca_acked 0 s1).

Definition cubic_on_rto (e : cc_env) (ev : tcp_cc_loss_event) (s : tcp_cc_state) : tcp_cc_state :=
  cubic_on_loss e ev s.

Definition cubic_on_idle_restart (e : cc_env) (s : tcp_cc_state) : tcp_cc_state :=
  let s1 := if initial_window s <? cwnd s then with_cwnd (initial_window s) s else s in
  with_priv (cubic_reset_epoch (priv s)) s1.

Definition cubic_on_dsack (e : cc_env) (block : Z * Z) (covers : bool)
    (s : tcp_cc_state) : tcp_cc_state := s.

Definition tcp_cubic_ops : tcp_cc_ops := {|
  cc_name := "cubic";
  priv_size := 64;
  op_init := Some cubic_init;
  op_reset := Some cubic_reset;
  op_on_ack := Some cubic_on_ack;
  op_on_packet_sent := Some cubic_on_packet_sent;
  op_on_loss := Some cubic_on_loss;
  op_on_recovery_exit := Some cubic_on_recovery_exit;
  op_on_rto := Some cubic_on_rto;
  op_on_idle_restart := Some cubic_on_idle_restart;
  op_on_dsack := Some cubic_on_dsack
|}.

(** ** Cube root *)

Lemma cubic_root_loop_spec fuel value low high :
  0 <= low <= high -> high <= UINT32_MAX -> high - low < 2 ^ Z.of_nat fuel ->
  low * low * low <= value -> value < (high + 1) * (high + 1) * (high + 1) ->
  let r := cubic_root_loop fuel value low high in
  low <= r <= high /\ r * r * r <= value < (r + 1) * (r + 1) * (r + 1).
Proof.
  revert low high. induction fuel as [|fuel IH]; intros low high Hl Hh Hf Hlo Hhi; cbn.
  - assert (low = high) as -> by (cbn in Hf; lia). lia.
  - rewrite Nat2Z.inj_succ, Z.pow_succ_r in Hf by lia.
    destruct (low <? high) eqn:E; bprop; [|assert (low = high) as -> by lia; lia].
    set (mid := low + (high - low + 1) / 2).
    assert (low < mid <= high) as Hm
      by (unfold mid; Z.to_euclidean_division_equations; lia).
    assert (2 * (high - mid) <= high - low /\ 2 * (mid - 1 - low) <= high - low) as Hhalf
      by (unfold mid; Z.to_euclidean_division_equations; lia).
    assert (0 <= mid * mid <= UINT32_MAX * UINT32_MAX) as Hsq by (wunfold; nia).
    assert (0 <= mid * mid * mid <= UINT32_MAX * UINT32_MAX * UINT32_MAX) as Hcube
      by (wunfold; nia).
    rewrite (u128_small (mid * mid)) by (wunfold; lia).
    rewrite u128_small by (wunfold; lia).
    destruct (_ <=? value) eqn:E2; bprop.
    + destruct (IH mid high); try lia.
    + destruct (IH low (mid - 1)); try lia.
Qed.

(** C34: [cubic_root] is the exact integer cube root of every value below
    2^96: the binary search terminates within its 32 halvings and none of its
    128-bit products wraps. *)
Theorem cubic_root_exact value (Hv : 0 <= value < 2 ^ 96) :
  let r := cubic_root value in
  in_u32 r /\ r * r * r <= value < (r + 1) * (r + 1) * (r + 1).
Proof.
  intros r. unfold r, cubic_root.
  change (2 ^ 96) with ((4294967295 + 1) * (4294967295 + 1) * (4294967295 + 1)) in Hv.
  assert (UINT32_MAX - 0 < 2 ^ Z.of_nat 32) as Hf by (vm_compute; reflexivity).
  destruct (cubic_root_loop_spec 32 value 0 UINT32_MAX) as [Hr Hs];
    [wunfold; lia|lia|exact Hf|lia|apply Hv|].
  rewrite u32_small by (wunfold; lia). split; [wunfold; lia|exact Hs].
Qed.

Lemma cubic_root_exact_witness :
  let r := cubic_root 12500000000000 in
  r = 23207 /\ in_u32 r.
Proof.
  intros r. split; [vm_compute; reflexivity|].
  refine (proj1 (cubic_root_exact 12500000000000 _)). split; vm_compute; congruence.
Defined.

(** ** The window function *)

Definition cubic_delta (smss distance : Z) : Z :=
  distance * distance * distance * (smss * CUBIC_C_NUM)
    / (CUBIC_C_DEN * CUBIC_TIME_SCALE).

Lemma cube_mono a b : 0 <= a <= b -> 0 <= a * a * a <= b * b * b.
Proof.
  intros H. assert (0 <= a * a <= b * b) by nia. nia.
Qed.

Lemma cubic_delta_mono smss a b :
  0 <= smss -> 0 <= a <= b -> 0 <= cubic_delta smss a <= cubic_delta smss b.
Proof.
  intros Hs Hab. unfold cubic_delta, CUBIC_C_DEN, CUBIC_TIME_SCALE, CUBIC_C_NUM.
  pose proof (cube_mono a b Hab) as Hc.
  split; [apply Z.div_pos; nia|]. apply Z.div_le_mono; nia.
Qed.

Lemma cubic_delta_0 smss : cubic_delta smss 0 = 0.
Proof. done. Qed.

(** Without any wrap the C function is the clamped cubic polynomial. *)
Lemma cubic_window_value wmax k smss t :
  in_u32 wmax -> in_u32 k -> 1 <= smss <= 65535 -> in_u32 t ->
  cubic_window_at wmax k smss t =
    if t <? k then Z.max 0 (wmax - cubic_delta smss (k - t))
    else Z.min UINT32_MAX (wmax + cubic_delta smss (t - k)).
Proof.
  intros Hw Hk Hs Ht. unfold cubic_window_at.
  set (d := if t - k <? 0 then - (t - k) else t - k).
  assert (0 <= d <= UINT32_MAX) as Hd by (unfold d; bsplit; warith).
  assert (0 <= d * d * d <= UINT32_MAX * UINT32_MAX * UINT32_MAX) as Hc
    by (pose proof (cube_mono d UINT32_MAX Hd); lia).
  rewrite (u128_small (d * d)) by (wunfold; nia).
  rewrite (u128_small (d * d * d)) by (wunfold; lia).
  rewrite (u128_small (smss * _)) by (unfold CUBIC_C_NUM; lia).
  rewrite (u128_small (d * d * d * _)) by (unfold CUBIC_C_NUM; wunfold; nia).
  fold (cubic_delta smss d).
  assert (0 <= cubic_delta smss d) as Hdl
    by (pose proof (cubic_delta_mono smss 0 d ltac:(lia) ltac:(lia)); lia).
  replace (t - k <? 0) with (t <? k) by lia.
  destruct (t <? k) eqn:E; bprop.
  - replace (k - t) with d by (unfold d; bsplit; lia).
    destruct (wmax <=? _) eqn:E2; bprop; [lia|]. warith.
  - replace (t - k) with d by (unfold d; bsplit; lia).
    clear Hc. clearbody d. destruct (_ <? _) eqn:E2; bprop; [lia|].
    rewrite (u32_small (cubic_delta _ _)), u32_small by (wunfold; lia). lia.
Qed.

Lemma k_ms_delta wm cw smss :
  in_u32 wm -> 0 <= cw -> 1 <= smss <= 65535 ->
  in_u32 (cubic_k_ms wm cw smss) /\
  (cw <= wm -> cubic_delta smss (cubic_k_ms wm cw smss) <= wm - cw).
Proof.
  intros Hw Hcw Hs. unfold cubic_k_ms.
  destruct (_ || _) eqn:E.
  { split; [vm_compute; split; congruence|]. rewrite cubic_delta_0. lia. }
  bprop. unfold CUBIC_C_DEN, CUBIC_TIME_SCALE, CUBIC_C_NUM.
  rewrite (u128_small (_ * 5)) by (wunfold; lia).
  rewrite u128_small by (wunfold; lia).
  set (v := _ / (2 * smss)).
  assert (0 <= v <= (wm - cw) * 5 * 1000000000) as Hv.
  { split; [apply Z.div_pos; lia|]. apply Z.div_le_upper_bound; nia. }
  assert (v * (2 * smss) <= (wm - cw) * 5 * 1000000000) as Hv2
    by (unfold v; rewrite Z.mul_comm; apply Z.mul_div_le; lia).
  pose proof (cubic_root_loop_spec 32 v 0 UINT32_MAX) as Hroot. cbn zeta in Hroot.
  assert (UINT32_MAX - 0 < 2 ^ Z.of_nat 32) by (vm_compute; done).
  destruct Hroot as [Hr1 Hr2]; try (wunfold; lia).
  unfold cubic_root. rewrite u32_small by (wunfold; lia). split; [wunfold; lia|]. intros _.
  unfold cubic_delta, CUBIC_C_NUM, CUBIC_C_DEN, CUBIC_TIME_SCALE.
  apply Z.div_le_upper_bound; nia.
Qed.

(** the CUBIC curve.  With K computed from the plateau and the window at
    the start of the epoch, the window function equals the plateau exactly at
    K, is monotone in time, and already at the start of the epoch is at least
    the window the epoch began with: concave growth toward W_max, then convex
    probing beyond it. *)
Theorem cubic_curve wm cw smss t1 t2
    (Hw : in_u32 wm) (Hc : 0 <= cw <= wm) (Hs : 1 <= smss <= 65535)
    (Ht1 : in_u32 t1) (Ht2 : in_u32 t2) (Ht : t1 <= t2) :
  let k := cubic_k_ms wm cw smss in
  cubic_window_at wm k smss k = wm /\
  cubic_window_at wm k smss t1 <= cubic_window_at wm k smss t2 /\
  cw <= cubic_window_at wm k smss 0 /\
  (t1 <= k -> cubic_window_at wm k smss t1 <= wm) /\
  (k <= t1 -> wm <= cubic_window_at wm k smss t1).
Proof.
  intros k. destruct (k_ms_delta wm cw smss Hw ltac:(lia) Hs) as [Hk Hkd].
  fold k in Hk, Hkd.
  assert (in_u32 0) as H0 by warith.
  rewrite !cubic_window_value by assumption.
  pose proof (cubic_delta_mono smss) as Hm.
  assert (forall x, 0 <= x -> 0 <= cubic_delta smss x) as Hpos
    by (intros x Hx; specialize (Hm 0 x); lia).
  repeat split.
  - rewrite Z.ltb_irrefl, Z.sub_diag, cubic_delta_0. wunfold. lia.
  - destruct (t1 <? k) eqn:E1, (t2 <? k) eqn:E2; bprop.
    + specialize (Hm (k - t2) (k - t1)). lia.
    + specialize (Hpos (k - t1)) as Hp1. specialize (Hpos (t2 - k)). wunfold. lia.
    + lia.
    + specialize (Hm (t1 - k) (t2 - k)). lia.
  - destruct (0 <? k) eqn:E; bprop.
    + rewrite Z.sub_0_r. lia.
    + specialize (Hpos (0 - k)). wunfold. lia.
  - intros Hle. destruct (t1 <? k) eqn:E; bprop.
    + specialize (Hpos (k - t1)). wunfold. lia.
    + replace (t1 - k) with 0 by lia. rewrite cubic_delta_0. wunfold. lia.
  - intros Hle. destruct (t1 <? k) eqn:E; bprop; [lia|].
    specialize (Hpos (t1 - k)). wunfold. lia.
Qed.

Lemma cubic_curve_witness :
  let k := cubic_k_ms 20000 15000 1000 in
  k = 2320 /\ cubic_window_at 20000 k 1000 k = 20000 /\
  cubic_window_at 20000 k 1000 (k - 1000) = 19600.
Proof.
  intros k. split; [vm_compute; reflexivity|]. split; [|vm_compute; reflexivity].
  refine (proj1 (cubic_curve 20000 15000 1000 0 5 _ _ _ _ _ _));
    repeat split; vm_compute; congruence.
Defined.

(** ** The interface laws *)

Lemma cubic_zero_ok : cubic_ok cubic_zero.
Proof. repeat split; vm_compute; congruence. Qed.

Lemma reset_epoch_ok p : cubic_ok p -> cubic_ok (cubic_reset_epoch p).
Proof. intros (?&?&?&?&?). repeat split; cbn; warith. Qed.

#[local] Hint Resolve cubic_zero_ok reset_epoch_ok : core.

Lemma cubic_init_ok e b s : env_ok e -> cc_ok (tcp_cc_smss e) (cubic_init e b s).
Proof.
  intros He. pose proof (smss_range e He) as Hm.
  unfold cc_ok, cubic_init. cbn. rewrite initial_window_value by lia.
  destruct b; repeat split; cbn; bsplit; warith.
Qed.

Lemma cc_ok_priv smss p s :
  cc_ok smss s -> cubic_ok p -> cc_ok smss (with_priv p s).
Proof. intros (?&?&?&?&_) Hp. repeat split; try apply Hp; cbn; warith. Qed.

Lemma hystart_finish_ok smss s :
  1 <= smss -> cc_ok smss s -> cc_ok smss (hystart_finish_round s).
Proof.
  intros Hm (Hc & Ht & Hi & Hca & Hp). pose proof Hp as (?&?&?&?&?).
  unfold hystart_finish_round.
  repeat (destruct (_ =? _) || destruct (_ <? _) || destruct (_ <=? _));
    repeat split; cbn; try apply Hp; warith.
Qed.

Lemma hystart_sample_ok ev p : cubic_ok p -> cubic_ok (hystart_sample ev p).
Proof.
  intros Hp. unfold hystart_sample.
  repeat match goal with |- context [if ?b then _ else _] => destruct b end; apply Hp.
Qed.

Lemma hystart_update_ok smss ev s :
  1 <= smss -> cc_ok smss s -> cc_ok smss (hystart_update ev s).
Proof.
  intros Hm Hs. pose proof (hystart_finish_ok smss s Hm Hs) as Hf.
  unfold hystart_update.
  repeat (match goal with |- context [if ?b then _ else _] => destruct b end);
    try done; apply cc_ok_priv; try done; apply hystart_sample_ok;
    first [apply Hs | apply Hf].
Qed.

Lemma cubic_begin_epoch_ok e now s :
  env_ok e -> cc_ok (tcp_cc_smss e) s -> cubic_ok (cubic_begin_epoch e now s).
Proof.
  intros He (Hc & Ht & Hi & Hca & (?&?&?&?&?)). pose proof (smss_range e He) as Hm.
  destruct (k_ms_delta (w_max (priv s)) (cwnd s) (tcp_cc_smss e)) as [Hk _];
    try done; [wunfold; lia|].
  unfold cubic_begin_epoch, cubic_ok. destruct (_ || _); cbn; repeat split; warith.
Qed.

Lemma cubic_grow_ok e ev p s :
  env_ok e -> ack_ok ev -> cc_ok (tcp_cc_smss e) s -> cubic_ok p ->
  cc_ok (tcp_cc_smss e) (cubic_grow e ev p s).
Proof.
  intros He (Ha & _ & _) (Hc & Ht & Hi & Hca & _) (?&?&?&?&?).
  pose proof (smss_range e He) as Hm.
  unfold cubic_grow. set (m := tcp_cc_smss e) in *.
  set (inc := _ / u64 _). rewrite (add_sat_min (w_est p)) by warith.
  pose proof (u32_range inc) as Hinc. clearbody inc.
  set (target := if _ <? (if _ <? _ then _ else _) then _ else _). clearbody target.
  destruct (_ && _) eqn:E; bprop; cbn.
  - set (credit := u64 _). pose proof (u64_range (cubic_credit p + u64 ((target - cwnd s) * m))) as Hcr.
    fold credit in Hcr. clearbody credit.
    pose proof (u32_range (credit / cwnd s)) as Hq.
    rewrite add_sat_min by warith.
    assert (0 <= credit mod cwnd s < cwnd s) by (apply Z.mod_pos_bound; lia).
    unfold cc_ok, cubic_ok; cbn; bsplit; repeat split; cbn; warith.
  - unfold cc_ok, cubic_ok; cbn; bsplit; repeat split; cbn; warith.
Qed.

Lemma cubic_avoidance_ack_ok e ev s :
  env_ok e -> ack_ok ev -> cc_ok (tcp_cc_smss e) s ->
  cc_ok (tcp_cc_smss e) (cubic_avoidance_ack e ev s).
Proof.
  intros He Ha Hs. unfold cubic_avoidance_ack.
  set (p := if negb (flag_set CUBIC_F_EPOCH_VALID _) then _ else _).
  assert (cubic_ok p) as Hp
    by (unfold p; destruct (negb _); [by apply cubic_begin_epoch_ok|apply Hs]).
  clearbody p. destruct (negb (ack_cwnd_limited ev)).
  - apply cc_ok_priv; [done|]. destruct Hp as (?&?&?&?&?).
    destruct (flag_set _ _); repeat split; cbn; warith.
  - by apply cubic_grow_ok.
Qed.

Lemma cubic_on_ack_ok e ev s :
  env_ok e -> ack_ok ev -> cc_ok (tcp_cc_smss e) s ->
  cc_ok (tcp_cc_smss e) (cubic_on_ack e ev s).
Proof.
  intros He Ha Hs. pose proof (smss_range e He) as Hm.
  pose proof (recovery_ack_ok e ev s He Ha Hs) as Hr.
  unfold cubic_on_ack. destruct (tcp_cc_newreno_recovery_ack e ev s) as [k s1].
  cbn [snd] in Hr. destruct (k || _); [done|].
  assert (cc_ok (tcp_cc_smss e) (with_rto_loss_valid false s1)) as Hs1 by apply Hr.
  set (s2 := with_rto_loss_valid false s1) in *. clearbody s2. clear Hr s1.
  destruct (_ && _).
  - pose proof (hystart_update_ok (tcp_cc_smss e) ev s2 ltac:(lia) Hs1) as Hh.
    destruct (negb _); [done|].
    destruct Ha as (Ha & _ & _), Hh as (Hc & Ht & Hi & Hca & Hp).
    unfold cc_ok, HYSTART_SS_GROWTH, HYSTART_CSS_DIVISOR. cbn.
    rewrite add_sat_min by (bsplit; warith).
    repeat split; try apply Hp; try warith; bsplit; warith.
  - apply cubic_avoidance_ack_ok; try done.
    destruct (negb _); [|done]. apply cc_ok_priv; [done|].
    apply reset_epoch_ok. destruct Hs1 as (Hc & _ & _ & _ & (?&?&?&?&?)).
    repeat split; cbn; warith.
Qed.

Lemma cubic_on_loss_ok e ev s :
  env_ok e -> in_u32 (loss_flight_size ev) -> cc_ok (tcp_cc_smss e) s ->
  cc_ok (tcp_cc_smss e) (cubic_on_loss e ev s).
Proof.
  intros He Hf (Hc & Ht & Hi & Hca & Hp). pose proof (smss_range e He) as Hm.
  pose proof (loss_window_ok (loss_flight_size ev) (tcp_cc_smss e)
                CUBIC_BETA_NUM CUBIC_BETA_DEN Hf Hm
                ltac:(vm_compute; split; congruence) ltac:(vm_compute; split; congruence)) as Hw.
  unfold cubic_on_loss. set (m := tcp_cc_smss e) in *.
  set (th := tcp_cc_ssthresh _ _ _ _) in *. clearbody th.
  pose proof (u32_range (u64 (cwnd s * (CUBIC_BETA_DEN + CUBIC_BETA_NUM))
                          / (2 * CUBIC_BETA_DEN))) as Hu.
  set (fc := u32 _) in *. clearbody fc. destruct Hp as (?&?&?&?&?).
  destruct (loss_reason ev), (first_rto_for_seq ev); cbn;
    rewrite ?(add_sat_min m m), ?(add_sat_min m), ?(add_sat_min th) by (rewrite ?add_sat_min by warith; warith);
    try destruct (_ && _); unfold cc_ok; cbn; repeat split; cbn; warith.
Qed.

Lemma cubic_deflate_ok e s :
  cc_ok (tcp_cc_smss e) s ->
  cc_ok (tcp_cc_smss e) (cubic_on_recovery_exit e s) /\
  cc_ok (tcp_cc_smss e) (cubic_on_idle_restart e s).
Proof.
  intros (Hc & Ht & Hi & Hca & Hp). pose proof (reset_epoch_ok _ Hp) as Hp'.
  unfold cubic_on_recovery_exit, cubic_on_idle_restart, cc_ok.
  split; bsplit; cbn [cwnd ssthresh initial_window ca_acked priv with_priv with_cwnd with_ca_acked];
    repeat split; try apply Hp'; warith.
Qed.

#[export] Instance cubic_laws : CcOpsLaws tcp_cubic_ops.
Proof.
  split; cbn.
  - vm_compute; congruence.
  - intros e b s He Hp. eexists; split; [done|]. by apply cubic_init_ok.
  - intros f e s [= <-] He Hs. by apply cubic_init_ok.
  - intros f e ev s [= <-]. apply cubic_on_ack_ok.
  - by intros f e ev s [= <-].
  - intros f e ev s [[= <-]|[= <-]]; apply cubic_on_loss_ok.
  - intros f e s [[= <-]|[= <-]] _ Hs; by apply cubic_deflate_ok.
  - by intros f e blk b s [= <-].
Qed.

(** The default algorithm through the dispatch layer: one loss, one timeout,
    one idle restart. *)
Lemma send_window_floor_witness :
  let e := mk_env 1460 40 false in
  let loss := mk_loss TCP_CC_LOSS_DUPACK 5000 0 false in
  let rto := mk_loss TCP_CC_LOSS_RTO 5000 0 true in
  let l := [(e, CallLoss loss); (e, CallRto rto); (e, CallIdle 9000 200)] in
  let c := tcp_cc_set_ops e (Some tcp_cubic_ops) false (mk_tcp_cc None cc_zero) in
  tcp_cc_send_window (cc_run c l) = 1460 /\
  1460 <= tcp_cc_send_window (cc_run c l) <= UINT32_MAX.
Proof.
  intros e loss rto l c. split; [vm_compute; reflexivity|].
  refine (send_window_floor tcp_cubic_ops e false (mk_tcp_cc None cc_zero) l _ _).
  - repeat split; vm_compute; congruence.
  - repeat constructor; vm_compute; try congruence; try reflexivity.
Defined.

(** ** Growth *)

Lemma cubic_grow_bounds e ev p s :
  env_ok e -> ack_ok ev -> cc_ok (tcp_cc_smss e) s -> cubic_ok p ->
  cubic_credit p < cwnd s ->
  let s' := cubic_grow e ev p s in
  cwnd s <= cwnd s' <= Z.max (w_est (priv s')) (cwnd s + tcp_cc_smss e) /\
  cubic_credit (priv s') < cwnd s'.
Proof.
  intros He (Ha & _ & _) (Hc & _) (Hcr & _ & _ & Hwe & _) Hlt s'.
  pose proof (smss_range e He) as Hm.
  unfold s', cubic_grow. set (m := tcp_cc_smss e) in *.
  set (inc := _ / u64 _). clearbody inc.
  pose proof (u32_range inc) as Hinc. rewrite (add_sat_min (w_est p)) by warith.
  rewrite (add_sat_min (cwnd s) (cwnd s / 2)) by warith.
  set (t0 := cubic_window_at _ _ _ _). clearbody t0.
  set (target := if _ <? (if _ <? _ then _ else _) then _ else _).
  assert (target <= cwnd s + cwnd s / 2) as Htg by (unfold target; bsplit; warith).
  clearbody target. destruct (_ && _) eqn:E; bprop; cbn.
  - assert ((target - cwnd s) * m <= cwnd s / 2 * m) as Hmul by nia.
    assert (cwnd s / 2 * m <= 2147483648 * 65535) by (wunfold; Z.to_euclidean_division_equations; nia).
    rewrite (u64_small ((target - cwnd s) * m)) by (wunfold; nia).
    rewrite u64_small by (wunfold; nia).
    set (credit := cubic_credit p + (target - cwnd s) * m) in *.
    assert (0 <= credit) by (unfold credit; wunfold; nia).
    assert (2 * credit <= cwnd s * (m + 2) - 2) as Hcb
      by (unfold credit; Z.to_euclidean_division_equations; nia).
    assert (0 <= credit / cwnd s <= m) as Hq.
    { split; [apply Z.div_pos; lia|].
      apply Z.lt_succ_r, Z.div_lt_upper_bound; [lia|]. unfold Z.succ. nia. }
    rewrite u32_small by warith. rewrite add_sat_min by warith.
    pose proof (Z.mod_pos_bound credit (cwnd s) ltac:(lia)) as Hmod.
    set (q := credit / cwnd s) in *. set (r := credit mod cwnd s) in *. clearbody q r.
    bsplit; warith.
  - bsplit; warith.
Qed.

Lemma cubic_avoidance_bounds e ev s :
  env_ok e -> ack_ok ev -> cc_ok (tcp_cc_smss e) s ->
  cubic_credit (priv s) < cwnd s ->
  let s' := cubic_avoidance_ack e ev s in
  (ack_cwnd_limited ev = false -> cwnd s' = cwnd s) /\
  cwnd s <= cwnd s' <= Z.max (w_est (priv s')) (cwnd s + tcp_cc_smss e) /\
  cubic_credit (priv s') < cwnd s'.
Proof.
  intros He Ha Hs Hcr s'. pose proof (smss_range e He) as Hm.
  pose proof Hs as [Hc _].
  unfold s', cubic_avoidance_ack.
  set (p := if negb (flag_set CUBIC_F_EPOCH_VALID _) then _ else _).
  assert (cubic_ok p /\ cubic_credit p < cwnd s) as [Hp Hpc].
  { unfold p; destruct (negb _).
    - split; [by apply cubic_begin_epoch_ok|]. cbn. lia.
    - split; [apply Hs|done]. }
  clearbody p. destruct (ack_cwnd_limited ev); cbn [negb].
  - split; [done|]. by apply cubic_grow_bounds.
  - split; [done|]. destruct (flag_set _ _); cbn; lia.
Qed.

Lemma hystart_keeps_cwnd ev s :
  0 < cwnd s -> cubic_credit (priv s) < cwnd s ->
  cwnd (hystart_update ev s) = cwnd s /\
  cubic_credit (priv (hystart_update ev s)) < cwnd s.
Proof.
  intros Hpos Hcr. unfold hystart_update, hystart_finish_round, hystart_sample.
  repeat match goal with |- context [if ?b then _ else _] => destruct b end; cbn; split; done || lia.
Qed.

(** one ACK outside recovery under CUBIC never shrinks the window.  An
    application-limited ACK leaves it unchanged; a slow-start ACK adds at most
    min(acked, 8 SMSS), or one byte; in congestion avoidance the window gains
    at most one SMSS unless the TCP-friendly estimate is larger.  The
    fractional credit stays below the window, so the 64-bit accumulator and
    the narrowing casts never lose bits. *)
Theorem cubic_growth e ev s (He : env_ok e) (Ha : ack_ok ev)
    (Hs : cc_ok (tcp_cc_smss e) s) (Hr : in_recovery ev = false)
    (Hn : acked_bytes ev <> 0) (Hcr : cubic_credit (priv s) < cwnd s) :
  let s' := cubic_on_ack e ev s in
  cwnd s <= cwnd s' /\ cubic_credit (priv s') < cwnd s' /\
  (ack_cwnd_limited ev = false -> cwnd s' = cwnd s) /\
  (cwnd s < ssthresh s -> phase (priv s) <> CUBIC_PHASE_AVOIDANCE ->
     cwnd s' <= cwnd s + Z.max 1 (Z.min (acked_bytes ev) (8 * tcp_cc_smss e))) /\
  (phase (priv s) = CUBIC_PHASE_AVOIDANCE \/ ssthresh s <= cwnd s ->
     cwnd s' <= Z.max (w_est (priv s')) (cwnd s + tcp_cc_smss e)).
Proof.
  intros s'. pose proof (smss_range e He) as Hm.
  unfold s', cubic_on_ack, tcp_cc_newreno_recovery_ack. rewrite Hr.
  cbn [negb orb]. rewrite (proj2 (Z.eqb_neq _ _) Hn).
  set (s2 := with_rto_loss_valid false s).
  assert (cc_ok (tcp_cc_smss e) s2) as Hs2 by apply Hs.
  assert (cwnd s = cwnd s2 /\ ssthresh s = ssthresh s2 /\ priv s = priv s2)
    as (Ec & Et & Ep) by done.
  rewrite Ec, Et, Ep in *. clearbody s2. clear Hs s Ec Et Ep s'. rename s2 into s.
  pose proof Hs2 as [Hc _]. destruct Ha as (Ha1 & Ha2 & Ha3).
  destruct (_ && _) eqn:E.
  - bprop. destruct (hystart_keeps_cwnd ev s ltac:(lia) Hcr) as [Hk Hkc].
    destruct (ack_cwnd_limited ev); cbn [negb].
    + unfold HYSTART_SS_GROWTH, HYSTART_CSS_DIVISOR. cbn. rewrite Hk.
      rewrite add_sat_min by (bsplit; warith).
      set (i := if _ =? 0 then _ else _).
      assert (1 <= i <= Z.max 1 (Z.min (acked_bytes ev) (8 * tcp_cc_smss e))) as Hi
        by (unfold i; bsplit; warith).
      clearbody i. repeat split; try done; try warith; intros; warith.
    + rewrite Hk. repeat split; try done; lia.
  - assert (~ (cwnd s < ssthresh s /\ phase (priv s) <> CUBIC_PHASE_AVOIDANCE)) as Hno.
    { intros [? ?]. apply andb_false_iff in E as [E|E]; bprop; [lia|done]. }
    set (s3 := if negb _ then _ else _).
    assert (cc_ok (tcp_cc_smss e) s3 /\ cwnd s3 = cwnd s /\
            cubic_credit (priv s3) < cwnd s) as (H1 & H2 & H3).
    { unfold s3. destruct (negb _); [|done].
      split; [apply cc_ok_priv; [done|]|cbn; lia].
      apply reset_epoch_ok. destruct Hs2 as (_ & _ & _ & _ & (?&?&?&?&?)).
      repeat split; cbn; warith. }
    destruct (cubic_avoidance_bounds e ev s3 He (conj Ha1 (conj Ha2 Ha3)) H1
                ltac:(rewrite H2; done)) as (B1 & B2 & B3).
    rewrite H2 in *. repeat split; try done; try lia.
Qed.

Lemma cubic_growth_witness :
  let e := mk_env 1000 100 false in
  let ev := mk_ack 0 0 1000 0 0 600 0 false true false false false false false in
  let s := mk_cc 10000 9000 4000 0 0 false 0 false
             (mk_cubic 0 14000 0 10000 10000 10000 2154 0 500 0 0 0 0 0 0 2 3) in
  cwnd s <= cwnd (cubic_on_ack e ev s) /\ cwnd (cubic_on_ack e ev s) = 10277.
Proof.
  intros e ev s. split; [|vm_compute; reflexivity].
  refine (proj1 (cubic_growth e ev s _ _ _ _ _ _));
    try (repeat split; vm_compute; congruence); vm_compute; reflexivity.
Defined.
