(* ===== verification/SackRange.v ===== *)
(** * Sorted sequence-interval lists of the SACK scoreboard
    (pro-stack/tcp_sack.c: range_alloc .. range_intersects)

    A linked list of [struct tcp_sack_range] is a [list tcp_sack_range] in
    list order.  Whether the owner-local pool has a node is the argument
    [alloc_ok] of the operation that allocates; the per-stream cap is the
    code's own test of [range_count].

    The specification side reads a list as the set of byte positions it
    covers, counted as distances from a window base. *)

From S2P Require Import Prelude SeqNum.

Definition TCP_SACK_SCORE_MAX_RANGES : Z := 128.

Definition TCP_SACK_RANGE_SACKED : Z := 1.
Definition TCP_SACK_RANGE_RETRANSMITTED : Z := 2.

Record tcp_sack_range := mk_range { rleft : Z; rright : Z; rflags : Z }.

(** ** Operations *)

(** The per-stream part of [range_alloc]: [None] when the cap or the pool
    refuses, otherwise the new node count. *)
Definition range_alloc (alloc_ok : bool) (count : Z) : option Z :=
  if TCP_SACK_SCORE_MAX_RANGES <=? count then None
  else if alloc_ok then Some (u16 (count + 1)) else None.

Definition range_free (count : Z) : Z :=
  if negb (count =? 0) then count - 1 else count.

Fixpoint range_list_clear (count : Z) (head : list tcp_sack_range) : Z :=
  match head with
  | [] => count
  | _ :: next => range_list_clear (range_free count) next
  end.

(** First loop of [range_insert]: nodes that end before [left]. *)
Fixpoint insert_skip (left : Z) (l : list tcp_sack_range)
    : list tcp_sack_range * list tcp_sack_range :=
  match l with
  | cur :: next =>
      if seq_lt (rright cur) left
      then let '(p, rest) := insert_skip left next in (cur :: p, rest)
      else ([], l)
  | [] => ([], [])
  end.

(** Locals of the second loop of [range_insert]. *)
Record merge_acc := mk_merge {
  m_left : Z;
  m_right : Z;
  m_new : Z;
  m_reuse : bool;
  m_count : Z
}.

Definition merge_one (ol orr : Z) (cur : tcp_sack_range) (a : merge_acc) : merge_acc :=
  let overlap_left := if seq_gt (rleft cur) ol then rleft cur else ol in
  let overlap_right := if seq_lt (rright cur) orr then rright cur else orr in
  mk_merge
    (if seq_lt (rleft cur) (m_left a) then rleft cur else m_left a)
    (if seq_gt (rright cur) (m_right a) then rright cur else m_right a)
    (if seq_lt overlap_left overlap_right
     then u32 (m_new a - u32 (overlap_right - overlap_left)) else m_new a)
    true
    (if m_reuse a then range_free (m_count a) else m_count a).

Fixpoint insert_merge (ol orr : Z) (a : merge_acc) (l : list tcp_sack_range)
    : merge_acc * list tcp_sack_range :=
  match l with
  | cur :: next =>
      if negb (seq_gt (rleft cur) (m_right a))
      then insert_merge ol orr (merge_one ol orr cur a) next
      else (a, l)
  | [] => (a, [])
  end.

(** Result: the returned byte count ([UINT32_MAX] on allocation failure, which
    leaves the list alone), the list and the node count. *)
Definition range_insert (alloc_ok : bool) (count : Z) (head : list tcp_sack_range)
    (left right flags : Z) : Z * list tcp_sack_range * Z :=
  let '(before, rest) := insert_skip left head in
  let '(a, after) :=
    insert_merge left right (mk_merge left right (u32 (right - left)) false count) rest in
  let node := mk_range (m_left a) (m_right a) flags in
  if m_reuse a then (m_new a, before ++ node :: after, m_count a)
  else match range_alloc alloc_ok (m_count a) with
       | None => (UINT32_MAX, head, m_count a)
       | Some c => (m_new a, before ++ node :: after, c)
       end.

Fixpoint range_list_trim (count : Z) (head : list tcp_sack_range) (left right : Z)
    : list tcp_sack_range * Z :=
  match head with
  | [] => ([], count)
  | cur :: next =>
      if negb (seq_lt (rleft cur) right) || negb (seq_lt left (rright cur))
      then range_list_trim (range_free count) next left right
      else
        let cur' := mk_range
          (if seq_lt (rleft cur) left then left else rleft cur)
          (if seq_gt (rright cur) right then right else rright cur) (rflags cur) in
        let '(l, c) := range_list_trim count next left right in (cur' :: l, c)
  end.

Fixpoint range_intersects (head : list tcp_sack_range) (left right : Z) : bool :=
  match head with
  | [] => false
  | r :: next =>
      if negb (seq_lt (rleft r) right) then false
      else if seq_lt left (rright r) then true
      else range_intersects next left right
  end.

(** ** Specification: the set of covered positions *)

Section Spec.
Context (base : Z).

(** [r] covers the position at distance [x] from the base. *)
Definition in_range (r : tcp_sack_range) (x : Z) : bool :=
  (off base (rleft r) <=? x) && (x <? off base (rright r)).

Definition covers (l : list tcp_sack_range) (x : Z) : bool :=
  existsb (fun r => in_range r x) l.

(** Bytes in the list. *)
Definition rbytes (l : list tcp_sack_range) : Z :=
  Zsum (map (fun r => off base (rright r) - off base (rleft r)) l).

(** Sorted, nonempty, pairwise separated ranges above [lo] and up to [E]. *)
Fixpoint ranges_ok (E lo : Z) (l : list tcp_sack_range) : Prop :=
  match l with
  | [] => True
  | r :: t =>
      near base (rleft r) /\ near base (rright r) /\
      lo < off base (rleft r) /\ off base (rleft r) < off base (rright r) <= E /\
      ranges_ok E (off base (rright r)) t
  end.

(** A list of a window that starts at the base. *)
Definition score_ok (E : Z) (l : list tcp_sack_range) : Prop := ranges_ok E (-1) l.

Lemma ranges_ok_weaken E lo lo' l : lo' <= lo -> ranges_ok E lo l -> ranges_ok E lo' l.
Proof. destruct l as [|r t]; cbn; [done|]. intros ? (? & ? & ? & ? & ?). split_and!; try done; lia. Qed.

Lemma ranges_ok_app E lo l1 l2 :
  ranges_ok E lo (l1 ++ l2) <->
  ranges_ok E lo l1 /\
  ranges_ok E (List.last (map (fun r => off base (rright r)) l1) lo) l2.
Proof.
  revert lo. induction l1 as [|r t IH]; intros lo; [cbn; tauto|].
  cbn [app ranges_ok map]. rewrite IH.
  assert (List.last (off base (rright r) :: map (fun r => off base (rright r)) t) lo
          = List.last (map (fun r => off base (rright r)) t) (off base (rright r))) as ->.
  { clear. revert lo. generalize (off base (rright r)) as a.
    induction t as [|x t IH]; intros a lo; [done|].
    cbn [map]. transitivity (List.last (off base (rright x) :: map (fun r => off base (rright r)) t) lo); [done|].
    rewrite (IH _ lo), (IH _ a). done. }
  tauto.
Qed.

Lemma covers_below E lo l x : ranges_ok E lo l -> x <= lo -> covers l x = false.
Proof.
  revert lo. induction l as [|r t IH]; intros lo; [done|].
  cbn [ranges_ok covers existsb]. intros (_ & _ & H1 & H2 & H3) Hx.
  fold (covers t x). rewrite (IH _ H3) by lia. unfold in_range. lia.
Qed.

Lemma covers_bound E lo l x : ranges_ok E lo l -> covers l x = true -> lo < x < E.
Proof.
  revert lo. induction l as [|r t IH]; intros lo; [done|].
  cbn [ranges_ok covers existsb]. intros (_ & _ & H1 & H2 & H3) Hx.
  apply orb_true_iff in Hx as [Hx|Hx]; [unfold in_range in Hx; lia|].
  specialize (IH _ H3 Hx). lia.
Qed.

Lemma rbytes_cons r l : rbytes (r :: l) = off base (rright r) - off base (rleft r) + rbytes l.
Proof. done. Qed.
Lemma rbytes_app l1 l2 : rbytes (l1 ++ l2) = rbytes l1 + rbytes l2.
Proof. unfold rbytes. rewrite map_app, Zsum_app. done. Qed.

Lemma rbytes_range E lo l : ranges_ok E lo l -> 0 <= rbytes l /\ (l <> [] -> rbytes l <= E - lo - 1).
Proof.
  revert lo. induction l as [|r t IH]; intros lo; [done|].
  cbn [ranges_ok]. intros (_ & _ & H1 & H2 & H3). rewrite rbytes_cons.
  destruct (IH _ H3) as [? Ht]. split; [lia|]. intros _.
  destruct t; [cbn; lia|]. specialize (Ht ltac:(done)). lia.
Qed.

Lemma covers_app l1 l2 x : covers (l1 ++ l2) x = covers l1 x || covers l2 x.
Proof. apply existsb_app. Qed.
Lemma covers_cons r l x : covers (r :: l) x = in_range r x || covers l x.
Proof. done. Qed.
End Spec.

Create HintDb ranges.
#[export] Hint Resolve ranges_ok_weaken : ranges.

(** ** Insertion *)

(** Endpoint selection by one comparison. *)
Ltac by_cmp :=
  match goal with |- context [?a <? ?b] => destruct (Z.ltb_spec a b) end;
  split; done || lia.

Section Insert.
Context (base : Z).

Abbreviation o := (off base).

Lemma insert_skip_spec E lo l left :
  ranges_ok base E lo l -> near base left ->
  let '(p, rest) := insert_skip left l in
  l = p ++ rest /\ Forall (fun r => o (rright r) < o left) p /\
  Forall (fun r => o left <= o (rright r)) rest.
Proof.
  intros Hl Hn. revert lo Hl. induction l as [|r t IH]; intros lo Hl; [done|].
  cbn [insert_skip ranges_ok] in *. destruct Hl as (Hnl & Hnr & H1 & H2 & Ht).
  rewrite (seq_lt_off base _ _ Hnr Hn). destruct (_ <? _) eqn:E1; bprop.
  - specialize (IH _ Ht). destruct (insert_skip left t) as [p rest].
    destruct IH as (-> & Hp & Hr). split_and!; auto.
  - split_and!; [done|done|]. constructor; [done|]. clear IH H1 H2.
    revert E1 Ht. generalize (o (rright r)) as b. induction t as [|r2 t IH2]; intros b E1 Ht; [done|].
    cbn in Ht. destruct Ht as (_ & _ & ? & ? & Ht). constructor; [lia|].
    apply (IH2 (o (rright r2))); [lia|done].
Qed.

(** Loop invariant of the merging loop: [lo] is the end of the last merged
    node once one has been merged, [m_new] still counts everything of the new
    interval beyond it. *)
Definition merge_inv (ol orr : Z) (lo : Z) (a : merge_acc) : Prop :=
  near base (m_left a) /\ near base (m_right a) /\
  (if m_reuse a
   then o (m_left a) <= o ol <= lo /\ o (m_right a) = Z.max (o orr) lo /\
        Z.max 0 (o orr - lo) <= m_new a <= o orr - o ol
   else m_left a = ol /\ m_right a = orr /\ m_new a = o orr - o ol).

Lemma merge_one_spec E ol orr lo a cur :
  near base ol -> near base orr -> o ol < o orr ->
  merge_inv ol orr lo a ->
  near base (rleft cur) -> near base (rright cur) ->
  lo < o (rleft cur) -> o (rleft cur) < o (rright cur) <= E ->
  o ol <= o (rright cur) -> o (rleft cur) <= o (m_right a) ->
  let a' := merge_one ol orr cur a in
  merge_inv ol orr (o (rright cur)) a' /\
  o (m_left a') = Z.min (o (m_left a)) (o (rleft cur)) /\
  o (m_right a') = Z.max (o (m_right a)) (o (rright cur)) /\
  m_new a' - m_new a =
     o (m_right a') - o (m_left a') - (o (m_right a) - o (m_left a))
       - (o (rright cur) - o (rleft cur)).
Proof.
  intros Hol Hor Hlt (Hml & Hmr & Hinv) Hcl Hcr Hlo Hc1 Hc2 Hc3. cbn zeta.
  assert (o ol <= o (m_right a)) by (destruct (m_reuse a); destruct Hinv as (? & ? & ?); subst; lia).
  unfold merge_one, merge_inv. cbn [m_left m_right m_new m_reuse m_count].
  rewrite (seq_lt_off base _ _ Hcl Hml), (seq_gt_off base _ _ Hcr Hmr),
    (seq_gt_off base _ _ Hcl Hol), (seq_lt_off base _ _ Hcr Hor).
  set (ovl := if o ol <? o (rleft cur) then rleft cur else ol).
  set (ovr := if o (rright cur) <? o orr then rright cur else orr).
  assert (near base ovl /\ o ovl = Z.max (o (rleft cur)) (o ol)) as [Hnl El]
    by (unfold ovl; by_cmp).
  assert (near base ovr /\ o ovr = Z.min (o (rright cur)) (o orr)) as [Hnr Er]
    by (unfold ovr; by_cmp).
  rewrite (seq_lt_off base _ _ Hnl Hnr).
  set (ml' := if o (rleft cur) <? o (m_left a) then rleft cur else m_left a).
  set (mr' := if o (m_right a) <? o (rright cur) then rright cur else m_right a).
  assert (near base ml' /\ o ml' = Z.min (o (m_left a)) (o (rleft cur))) as [Hnl' El']
    by (unfold ml'; by_cmp).
  assert (near base mr' /\ o mr' = Z.max (o (m_right a)) (o (rright cur))) as [Hnr' Er']
    by (unfold mr'; by_cmp).
  clearbody ovl ovr ml' mr'.
  pose proof (off_range base (m_left a)). pose proof (off_range base ol).
  pose proof (proj2 Hor). pose proof (off_range base (rleft cur)).
  assert (m_reuse a = false -> o (m_left a) = o ol /\ o (m_right a) = o orr) as Hf
    by (intros Er0; rewrite Er0 in Hinv; destruct Hinv as (-> & -> & _); done).
  destruct (Z.ltb_spec (o ovl) (o ovr)).
  - rewrite (off_sub base ovl ovr Hnl Hnr) by lia.
    rewrite u32_small by (wunfold; destruct (m_reuse a); lia).
    destruct (m_reuse a); [|destruct (Hf eq_refl)]; split_and!; try done; lia.
  - destruct (m_reuse a); [|destruct (Hf eq_refl)]; split_and!; try done; lia.
Qed.

Lemma insert_merge_spec E ol orr lo0 lo a l :
  near base ol -> near base orr -> o ol < o orr <= E ->
  merge_inv ol orr lo a -> ranges_ok base E lo l ->
  Forall (fun r => o ol <= o (rright r)) l ->
  lo0 <= lo -> lo0 < o (m_left a) -> o (m_right a) <= E ->
  Z.of_nat (length l) <= m_count a ->
  let '(a', after) := insert_merge ol orr a l in
  exists mid, l = mid ++ after /\
    near base (m_left a') /\ near base (m_right a') /\
    lo0 < o (m_left a') /\ o (m_left a') < o (m_right a') <= E /\
    o (m_left a') <= o ol /\ o orr <= o (m_right a') /\
    ranges_ok base E (o (m_right a')) after /\
    (forall x, in_range base (mk_range (m_left a') (m_right a') 0) x
       = in_range base (mk_range (m_left a) (m_right a) 0) x || covers base mid x) /\
    m_new a' - m_new a = o (m_right a') - o (m_left a')
       - (o (m_right a) - o (m_left a)) - rbytes base mid /\
    0 <= m_new a' <= o orr - o ol /\
    m_reuse a' = m_reuse a || negb (bool_decide (mid = [])) /\
    m_count a' = m_count a - Z.of_nat (length mid)
       + (if m_reuse a then 0 else if m_reuse a' then 1 else 0).
Proof.
  intros Hol Hor Hlt Hinv Hok Hall Hlo0 Hl0 HmE Hcnt.
  revert lo a Hinv Hok Hall Hlo0 Hl0 HmE Hcnt.
  induction l as [|cur t IH]; intros lo a Hinv Hok Hall Hlo0 Hl0 HmE Hcnt; cbn [insert_merge].
  - exists []. destruct Hinv as (H1 & H2 & H3).
    assert (o (m_left a) <= o ol /\ o orr <= o (m_right a) /\ 0 <= m_new a <= o orr - o ol)
      by (destruct (m_reuse a); destruct H3 as (? & ? & ?); subst; lia).
    split_and!; try done; try lia; cbn; intros; rewrite ?orb_false_r; try done; destruct (m_reuse a); lia || done.
  - cbn [ranges_ok] in Hok. destruct Hok as (Hcl & Hcr & Hc1 & Hc2 & Hok).
    inversion_clear Hall as [|? ? Hh Hall'].
    pose proof Hinv as (Hml & Hmr & Hi).
    rewrite (seq_gt_off base _ _ Hcl Hmr).
    destruct (Z.ltb_spec (o (m_right a)) (o (rleft cur))) as [Hgt|Hle]; cbn [negb].
    + exists [].
      assert (o (m_left a) <= o ol /\ o orr <= o (m_right a) /\ 0 <= m_new a <= o orr - o ol)
        by (destruct (m_reuse a); destruct Hi as (? & ? & ?); subst; lia).
      split_and!; try done; try lia; cbn; intros; rewrite ?orb_false_r; try done;
        destruct (m_reuse a); lia.
    + pose proof (merge_one_spec E ol orr lo a cur Hol Hor ltac:(lia) Hinv Hcl Hcr Hc1 Hc2 Hh Hle) as Hone.
      cbn zeta in Hone. set (a1 := merge_one ol orr cur a) in *.
      destruct Hone as (Hinv1 & E1 & E2 & E3).
      assert (m_reuse a1 = true) as Hr1 by done.
      assert (m_count a1 = (if m_reuse a then m_count a - 1 else m_count a)) as Hc.
      { assert (0 < m_count a) by (cbn [length] in Hcnt; lia).
        unfold a1, merge_one, range_free; cbn.
        destruct (m_reuse a); [|done]. destruct (Z.eqb_spec (m_count a) 0); cbn; lia. }
      clearbody a1. cbn [length] in Hcnt.
      specialize (IH (o (rright cur)) a1 Hinv1 Hok Hall' ltac:(lia) ltac:(lia) ltac:(lia)
                    ltac:(rewrite Hc; destruct (m_reuse a); lia)).
      destruct (insert_merge ol orr a1 t) as [a' after].
      destruct IH as (mid & -> & G1 & G2 & G3 & G4 & G5 & G6 & G7 & G8 & G9 & G10 & G11 & G12).
      exists (cur :: mid). rewrite Hr1 in *. split_and!; try done; try lia.
      * intros x. rewrite G8. rewrite covers_cons. unfold in_range; cbn. rewrite E1, E2.
        pose proof (off_range base (m_left a)).
        assert (o ol <= o (m_right a) /\ o (m_left a) <= o ol /\ o ol <= o (rright cur)) by
          (destruct (m_reuse a); destruct Hi as (? & ? & ?); subst; lia).
        destruct (covers base mid x); lia.
      * rewrite rbytes_cons. lia.
      * rewrite G11. destruct (m_reuse a); done.
      * rewrite G11 in *. cbn [length orb] in *. destruct (m_reuse a); lia.
Qed.

Lemma last_below lo l b :
  lo < b -> Forall (fun r => o (rright r) < b) l ->
  List.last (map (fun r => o (rright r)) l) lo < b.
Proof.
  intros Hlo Hall. induction Hall as [|r t Hr Ht IH]; [done|].
  cbn. destruct t; [done|]. exact IH.
Qed.

(** What one insertion promises. *)
Definition insert_post (E : Z) (alloc_ok : bool) (count : Z)
    (head : list tcp_sack_range) (left right : Z)
    (res : Z * list tcp_sack_range * Z) : Prop :=
  let '(n, head', count') := res in
  (n = UINT32_MAX /\ head' = head /\ count' = count /\
     (TCP_SACK_SCORE_MAX_RANGES <= count \/ alloc_ok = false)) \/
  (score_ok base E head' /\
   (forall x, covers base head' x
      = covers base head x || ((o left <=? x) && (x <? o right))) /\
   rbytes base head' = rbytes base head + n /\
   0 <= n <= o right - o left /\
   count' - Z.of_nat (length head') = count - Z.of_nat (length head) /\
   count' <= count + 1 /\ count' <= Z.max count TCP_SACK_SCORE_MAX_RANGES).

Lemma range_insert_spec E alloc_ok count head left right flags :
  score_ok base E head -> near base left -> near base right ->
  o left < o right <= E ->
  Z.of_nat (length head) <= count < 65535 ->
  insert_post E alloc_ok count head left right
    (range_insert alloc_ok count head left right flags).
Proof.
  intros Hok Hl Hr Hlt Hcnt. unfold range_insert.
  pose proof (insert_skip_spec E (-1) head left Hok Hl) as Hskip.
  destruct (insert_skip left head) as [p rest]. destruct Hskip as (-> & Hp & Hrest).
  apply ranges_ok_app in Hok as [Hok1 Hok2].
  set (lo := List.last _ _) in Hok2.
  pose proof (off_range base left) as Hnn.
  assert (lo < o left) as Hlo by (apply last_below; [lia|done]).
  rewrite (off_sub base left right Hl Hr) by lia.
  rewrite length_app in *.
  set (a0 := mk_merge left right (o right - o left) false count).
  assert (merge_inv left right lo a0) as Hinv by (split_and!; done).
  pose proof (insert_merge_spec E left right lo lo a0 rest Hl Hr ltac:(lia) Hinv Hok2
    Hrest ltac:(lia) ltac:(cbn; lia) ltac:(cbn; lia) ltac:(cbn; lia)) as Hm.
  destruct (insert_merge left right a0 rest) as [a after].
  destruct Hm as (mid & -> & G1 & G2 & G3 & G4 & G5 & G6 & G7 & G8 & G9 & G10 & G11 & G12).
  cbn [m_reuse m_left m_right m_new m_count a0 orb] in *.
  rewrite length_app in *.
  set (node := mk_range (m_left a) (m_right a) flags).
  assert (forall x, in_range base node x
            = in_range base (mk_range (m_left a) (m_right a) 0) x) as Hnode by done.
  assert (score_ok base E (p ++ node :: after)) as Hok'.
  { apply ranges_ok_app. split; [done|]. fold lo. cbn. split_and!; done || lia. }
  assert (forall x, covers base (p ++ node :: after) x
            = covers base (p ++ mid ++ after) x || ((o left <=? x) && (x <? o right))) as Hcov.
  { intros x. rewrite !covers_app, covers_cons, Hnode, G8.
    unfold in_range at 1. cbn.
    destruct (covers base p x), (covers base mid x), (covers base after x), (_ && _); done. }
  assert (rbytes base (p ++ node :: after) = rbytes base (p ++ mid ++ after) + m_new a) as Hby.
  { rewrite !rbytes_app, rbytes_cons. cbn. lia. }
  unfold insert_post.
  destruct (m_reuse a) eqn:Er.
  - assert (1 <= Z.of_nat (length mid)) by (destruct mid; [done|cbn [length]; lia]).
    right. rewrite !length_app. cbn [length]. split_and!; try done; lia.
  - assert (mid = []) as -> by (by destruct (bool_decide_reflect (mid = []))).
    cbn [length app] in *. unfold range_alloc.
    destruct (Z.leb_spec TCP_SACK_SCORE_MAX_RANGES (m_count a)).
    + left. split_and!; try done; lia.
    + destruct alloc_ok.
      * right. rewrite u16_small by (wunfold; lia). rewrite !length_app. cbn [length].
        split_and!; try done; lia.
      * left. split_and!; try done; first [lia|by right].
Qed.
End Insert.

(** ** Removal and queries *)

Section Clip.
Context (base : Z).
Abbreviation o := (off base).

Lemma range_list_clear_count count l :
  Z.of_nat (length l) <= count ->
  range_list_clear count l = count - Z.of_nat (length l).
Proof.
  revert count. induction l as [|r t IH]; intros count H; cbn [range_list_clear length] in *; [lia|].
  unfold range_free. destruct (Z.eqb_spec count 0); cbn; rewrite IH; lia.
Qed.

Lemma range_list_trim_spec E lo count l left right :
  ranges_ok base E lo l -> near base left -> near base right -> o left < o right ->
  Z.of_nat (length l) <= count ->
  let '(l', count') := range_list_trim count l left right in
  ranges_ok base (o right) (Z.max lo (o left - 1)) l' /\
  (forall x, covers base l' x = covers base l x && ((o left <=? x) && (x <? o right))) /\
  count' - Z.of_nat (length l') = count - Z.of_nat (length l).
Proof.
  intros Hok Hl Hr Hlt Hcnt. revert lo count Hok Hcnt.
  induction l as [|c t IH]; intros lo count Hok Hcnt; cbn [range_list_trim]; [done|].
  cbn [ranges_ok length] in *. destruct Hok as (Hcl & Hcr & H1 & H2 & Hok).
  rewrite (seq_lt_off base _ _ Hcl Hr), (seq_lt_off base _ _ Hl Hcr).
  destruct (_ || _) eqn:E0.
  - specialize (IH _ (range_free count) Hok).
    assert (range_free count = count - 1) as Hf
      by (unfold range_free; destruct (Z.eqb_spec count 0); cbn; lia).
    rewrite Hf in *. specialize (IH ltac:(lia)).
    destruct (range_list_trim (count - 1) t left right) as [l' count'].
    destruct IH as (I1 & I2 & I3). split_and!; [|intros x|lia].
    + eapply ranges_ok_weaken; [|exact I1]. lia.
    + rewrite I2, covers_cons. unfold in_range. destruct (covers base t x); lia.
  - bprop. specialize (IH _ count Hok ltac:(lia)).
    destruct (range_list_trim count t left right) as [l' count'].
    destruct IH as (I1 & I2 & I3).
    rewrite (seq_lt_off base _ _ Hcl Hl), (seq_gt_off base _ _ Hcr Hr).
    set (cl := if o (rleft c) <? o left then left else rleft c).
    set (cr := if o right <? o (rright c) then right else rright c).
    assert (near base cl /\ o cl = Z.max (o (rleft c)) (o left)) as [Hnl El]
      by (unfold cl; by_cmp).
    assert (near base cr /\ o cr = Z.min (o (rright c)) (o right)) as [Hnr Er]
      by (unfold cr; by_cmp).
    clearbody cl cr. split_and!; [cbn; split_and!; try done; try lia|intros x|cbn [length]; lia].
    + destruct (decide (o (rright c) <= o right)).
      * eapply ranges_ok_weaken; [|exact I1]. lia.
      * destruct l' as [|c2 t2]; [done|]. cbn in I1. lia.
    + rewrite !covers_cons, I2. unfold in_range; cbn. rewrite El, Er.
      destruct (covers base t x); lia.
Qed.

Lemma range_intersects_spec E lo l left right :
  ranges_ok base E lo l -> near base left -> near base right -> o left < o right ->
  range_intersects l left right = true <->
  exists x, o left <= x < o right /\ covers base l x = true.
Proof.
  intros Hok Hl Hr Hlt. revert lo Hok.
  induction l as [|c t IH]; intros lo Hok; cbn [range_intersects].
  - split; [done|]. intros (x & _ & ?). done.
  - cbn [ranges_ok] in Hok. destruct Hok as (Hcl & Hcr & H1 & H2 & Hok).
    rewrite (seq_lt_off base _ _ Hcl Hr), (seq_lt_off base _ _ Hl Hcr).
    destruct (Z.ltb_spec (o (rleft c)) (o right)) as [Hlr|Hlr]; cbn [negb].
    + destruct (Z.ltb_spec (o left) (o (rright c))) as [Hrl|Hrl].
      * split; [|done]. intros _. exists (Z.max (o left) (o (rleft c))).
        split; [lia|]. rewrite covers_cons. unfold in_range. lia.
      * rewrite (IH _ Hok). split; intros (x & Hx & Hc); exists x; (split; [done|]).
        -- rewrite covers_cons, Hc. apply orb_true_r.
        -- rewrite covers_cons in Hc. apply orb_true_iff in Hc as [Hc|Hc]; [|done].
           unfold in_range in Hc. lia.
    + split; [done|]. intros (x & Hx & Hc).
      rewrite covers_cons in Hc. apply orb_true_iff in Hc as [Hc|Hc].
      * unfold in_range in Hc. lia.
      * pose proof (covers_bound base _ _ _ _ Hok Hc). lia.
Qed.
End Clip.

(** ** Bytes as a count of positions *)

Lemma rbytes_cnt base E lo l :
  ranges_ok base E lo l -> lo < E -> rbytes base l = cnt (covers base l) (lo + 1) E.
Proof.
  revert lo. induction l as [|r t IH]; intros lo Hok Hlo.
  - rewrite cnt_none; [done|]. done.
  - cbn [ranges_ok] in Hok. destruct Hok as (_ & _ & H1 & H2 & Hok). rewrite rbytes_cons.
    rewrite (cnt_split _ (lo + 1) (off base (rleft r))) by lia.
    rewrite (cnt_split _ (off base (rleft r)) (off base (rright r))) by lia.
    rewrite (cnt_none _ (lo + 1)).
    2: { intros x Hx. rewrite covers_cons, (covers_below base E _ t x Hok) by lia.
         unfold in_range. lia. }
    rewrite (cnt_all _ (off base (rleft r))); [|lia|].
    2: { intros x Hx. rewrite covers_cons. unfold in_range. lia. }
    rewrite (cnt_ext (covers base (r :: t)) (covers base t)).
    2: { intros x Hx. rewrite covers_cons. unfold in_range. destruct (covers base t x); lia. }
    destruct (decide (off base (rright r) < E)) as [Hlt|Hge].
    + rewrite (IH _ Hok Hlt). 
      rewrite (cnt_split (covers base t) (off base (rright r)) (off base (rright r) + 1) E) by lia.
      rewrite (cnt_none _ (off base (rright r)) (off base (rright r) + 1)); [lia|].
      intros x Hx. apply (covers_below base E _ t x Hok). lia.
    + rewrite cnt_empty by lia. destruct t as [|r2 t2]; [change (rbytes base []) with 0; lia|].
      cbn [ranges_ok] in Hok. lia.
Qed.
