(* ===== verification/TcpSack.v ===== *)
(** * SACK scoreboard and loss recovery (pro-stack/tcp_sack.c)

    [struct tcp_sack_state] is the record [tcp_sack_state]; the fields of the
    enclosing stream that the module only reads are [sack_env].  Sequence
    numbers are [uint32_t]; a half-open interval is given by its two edges. *)

From S2P Require Import Prelude Config SeqNum SackRange.

Definition TCP_SACK_MAX_BLOCKS : nat := 4.
Definition TCP_SACK_DUP_THRESH : Z := 3.

(** ** Data *)

Record tcp_sack_block := mk_block { bleft : Z; bright : Z }.

Inductive tcp_recovery_mode :=
| TCP_RECOVERY_NORMAL
| TCP_RECOVERY_SACK
| TCP_RECOVERY_RTO
| TCP_RECOVERY_NEWRENO.

Inductive tcp_recovery_tx_kind :=
| TCP_RECOVERY_TX_NONE
| TCP_RECOVERY_TX_RETRANSMIT
| TCP_RECOVERY_TX_NEW_DATA.

#[global] Instance mode_eq_dec : EqDecision tcp_recovery_mode.
Proof. solve_decision. Defined.
#[global] Instance tx_kind_eq_dec : EqDecision tcp_recovery_tx_kind.
Proof. solve_decision. Defined.

Record tcp_recovery_candidate := mk_cand {
  kind : tcp_recovery_tx_kind;
  nextseg_rule : Z;
  rescue : bool;
  cseq : Z;
  cend : Z
}.

(** [memset(&pending, 0, sizeof(pending))]. *)
Definition no_candidate : tcp_recovery_candidate :=
  mk_cand TCP_RECOVERY_TX_NONE 0 false 0 0.

Record tcp_sack_state := mk_sack {
  sacked : list tcp_sack_range;
  retransmitted : list tcp_sack_range;
  range_count : Z;
  degraded : bool;
  degraded_until : Z;
  mode : tcp_recovery_mode;
  high_data : Z;
  high_rxt : Z;
  rescue_rxt : Z;
  recovery_point : Z;
  pipe : Z;
  dup_acks : Z;
  limited_transmit : bool;
  pending : tcp_recovery_candidate
}.

Definition with_sacked (v : list tcp_sack_range) (s : tcp_sack_state) : tcp_sack_state :=
  mk_sack v (retransmitted s) (range_count s) (degraded s)
   (degraded_until s) (mode s) (high_data s) (high_rxt s) (rescue_rxt s)
   (recovery_point s) (pipe s) (dup_acks s) (limited_transmit s) (pending s)
   .
Definition with_retransmitted (v : list tcp_sack_range) (s : tcp_sack_state) : tcp_sack_state :=
  mk_sack (sacked s) v (range_count s) (degraded s) (degraded_until s)
   (mode s) (high_data s) (high_rxt s) (rescue_rxt s) (recovery_point s)
   (pipe s) (dup_acks s) (limited_transmit s) (pending s) .
Definition with_range_count (v : Z) (s : tcp_sack_state) : tcp_sack_state :=
  mk_sack (sacked s) (retransmitted s) v (degraded s) (degraded_until s)
   (mode s) (high_data s) (high_rxt s) (rescue_rxt s) (recovery_point s)
   (pipe s) (dup_acks s) (limited_transmit s) (pending s) .
Definition with_degraded (v : bool) (s : tcp_sack_state) : tcp_sack_state :=
  mk_sack (sacked s) (retransmitted s) (range_count s) v (degraded_until s)
   (mode s) (high_data s) (high_rxt s) (rescue_rxt s) (recovery_point s)
   (pipe s) (dup_acks s) (limited_transmit s) (pending s) .
Definition with_degraded_until (v : Z) (s : tcp_sack_state) : tcp_sack_state :=
  mk_sack (sacked s) (retransmitted s) (range_count s) (degraded s) v
   (mode s) (high_data s) (high_rxt s) (rescue_rxt s) (recovery_point s)
   (pipe s) (dup_acks s) (limited_transmit s) (pending s) .
Definition with_mode (v : tcp_recovery_mode) (s : tcp_sack_state) : tcp_sack_state :=
  mk_sack (sacked s) (retransmitted s) (range_count s) (degraded s)
   (degraded_until s) v (high_data s) (high_rxt s) (rescue_rxt s)
   (recovery_point s) (pipe s) (dup_acks s) (limited_transmit s) (pending s)
   .
Definition with_high_data (v : Z) (s : tcp_sack_state) : tcp_sack_state :=
  mk_sack (sacked s) (retransmitted s) (range_count s) (degraded s)
   (degraded_until s) (mode s) v (high_rxt s) (rescue_rxt s)
   (recovery_point s) (pipe s) (dup_acks s) (limited_transmit s) (pending s)
   .
Definition with_high_rxt (v : Z) (s : tcp_sack_state) : tcp_sack_state :=
  mk_sack (sacked s) (retransmitted s) (range_count s) (degraded s)
   (degraded_until s) (mode s) (high_data s) v (rescue_rxt s)
   (recovery_point s) (pipe s) (dup_acks s) (limited_transmit s) (pending s)
   .
Definition with_rescue_rxt (v : Z) (s : tcp_sack_state) : tcp_sack_state :=
  mk_sack (sacked s) (retransmitted s) (range_count s) (degraded s)
   (degraded_until s) (mode s) (high_data s) (high_rxt s) v
   (recovery_point s) (pipe s) (dup_acks s) (limited_transmit s) (pending s)
   .
Definition with_recovery_point (v : Z) (s : tcp_sack_state) : tcp_sack_state :=
  mk_sack (sacked s) (retransmitted s) (range_count s) (degraded s)
   (degraded_until s) (mode s) (high_data s) (high_rxt s) (rescue_rxt s) v
   (pipe s) (dup_acks s) (limited_transmit s) (pending s) .
Definition with_pipe (v : Z) (s : tcp_sack_state) : tcp_sack_state :=
  mk_sack (sacked s) (retransmitted s) (range_count s) (degraded s)
   (degraded_until s) (mode s) (high_data s) (high_rxt s) (rescue_rxt s)
   (recovery_point s) v (dup_acks s) (limited_transmit s) (pending s) .
Definition with_dup_acks (v : Z) (s : tcp_sack_state) : tcp_sack_state :=
  mk_sack (sacked s) (retransmitted s) (range_count s) (degraded s)
   (degraded_until s) (mode s) (high_data s) (high_rxt s) (rescue_rxt s)
   (recovery_point s) (pipe s) v (limited_transmit s) (pending s) .
Definition with_limited_transmit (v : bool) (s : tcp_sack_state) : tcp_sack_state :=
  mk_sack (sacked s) (retransmitted s) (range_count s) (degraded s)
   (degraded_until s) (mode s) (high_data s) (high_rxt s) (rescue_rxt s)
   (recovery_point s) (pipe s) (dup_acks s) v (pending s) .
Definition with_pending (v : tcp_recovery_candidate) (s : tcp_sack_state) : tcp_sack_state :=
  mk_sack (sacked s) (retransmitted s) (range_count s) (degraded s)
   (degraded_until s) (mode s) (high_data s) (high_rxt s) (rescue_rxt s)
   (recovery_point s) (pipe s) (dup_acks s) (limited_transmit s) v.

Record sack_env := mk_senv {
  snd_una : Z;
  snd_mss : Z;
  sack_permitted : bool
}.

Record tcp_sack_ack_result := mk_result {
  newly_sacked_bytes : Z;
  new_sack_information : bool;
  dsack_valid : bool;
  dsack : tcp_sack_block;
  dsack_covers_retransmission : bool;
  recovery_exited : bool
}.

Definition smss (e : sack_env) : Z :=
  if negb (snd_mss e =? 0) then snd_mss e else TCP_DEFAULT_MSS.

(** ** Scoreboard maintenance *)

Definition sack_degrade (s : tcp_sack_state) : tcp_sack_state :=
  let c1 := range_list_clear (range_count s) (sacked s) in
  let c2 := range_list_clear c1 (retransmitted s) in
  mk_sack [] [] c2 true (high_data s) TCP_RECOVERY_NORMAL (high_data s) (high_rxt s)
    (rescue_rxt s) (recovery_point s) 0 0 false no_candidate.

Definition block_contains (outer inner : tcp_sack_block) : bool :=
  seq_leq (bleft outer) (bleft inner) && seq_leq (bright inner) (bright outer).

Definition tcp_sack_state_init (initial_seq : Z) : tcp_sack_state :=
  mk_sack [] [] 0 false 0 TCP_RECOVERY_NORMAL initial_seq initial_seq initial_seq
    initial_seq 0 0 false no_candidate.

(** The nodes go back to the pool, then the whole state is zeroed. *)
Definition tcp_sack_state_reset (initial_seq : Z) (s : tcp_sack_state) : tcp_sack_state :=
  tcp_sack_state_init initial_seq.

Definition tcp_sack_trim (e : sack_env) (flight_end : Z) (s : tcp_sack_state) : tcp_sack_state :=
  let una := snd_una e in
  let s1 :=
    if negb (seq_lt una flight_end) then
      with_retransmitted [] (with_sacked []
        (with_range_count
           (range_list_clear (range_list_clear (range_count s) (sacked s))
              (retransmitted s)) s))
    else
      let '(l1, c1) := range_list_trim (range_count s) (sacked s) una flight_end in
      let '(l2, c2) := range_list_trim c1 (retransmitted s) una flight_end in
      with_range_count c2 (with_retransmitted l2 (with_sacked l1 s)) in
  let s2 :=
    if degraded s1 && negb (seq_lt una (degraded_until s1))
    then with_degraded false s1 else s1 in
  if negb (bool_decide (kind (pending s2) = TCP_RECOVERY_TX_NONE))
     && (negb (seq_lt (cseq (pending s2)) flight_end)
         || negb (seq_lt una (cend (pending s2))))
  then with_pending no_candidate s2 else s2.

(** The block loop of [tcp_sack_update]; [i] numbers the blocks for the
    allocation oracle.  [None] is the exit through an allocation failure. *)
Fixpoint update_blocks (alloc_ok : nat -> bool) (e : sack_env) (flight_end : Z)
    (i : nat) (blocks : list tcp_sack_block) (newly : Z) (s : tcp_sack_state)
    : option Z * tcp_sack_state :=
  match blocks with
  | [] => (Some newly, s)
  | b :: rest =>
      let left := if seq_lt (bleft b) (snd_una e) then snd_una e else bleft b in
      let right := if seq_gt (bright b) flight_end then flight_end else bright b in
      if negb (seq_lt left right)
      then update_blocks alloc_ok e flight_end (S i) rest newly s
      else
        let '(added, l, c) :=
          range_insert (alloc_ok i) (range_count s) (sacked s) left right
            TCP_SACK_RANGE_SACKED in
        let s1 := with_range_count c (with_sacked l s) in
        if added =? UINT32_MAX then (None, sack_degrade s1)
        else update_blocks alloc_ok e flight_end (S i) rest (u32 (newly + added)) s1
  end.

(** The shared exit label: leave SACK or RTO recovery at RecoveryPoint. *)
Definition exit_recovery (e : sack_env) (s : tcp_sack_state) : bool * tcp_sack_state :=
  if (bool_decide (mode s = TCP_RECOVERY_SACK) || bool_decide (mode s = TCP_RECOVERY_RTO))
     && negb (seq_lt (snd_una e) (recovery_point s))
  then (true, with_pending no_candidate (with_limited_transmit false (with_dup_acks 0
                (with_pipe 0 (with_mode TCP_RECOVERY_NORMAL s)))))
  else (false, s).

(** RFC 2883: the first block is a D-SACK when it lies below the ACK or inside
    the second block. *)
Definition first_is_dsack (packet_ack : Z) (blocks : list tcp_sack_block) : bool :=
  match blocks with
  | [] => false
  | b0 :: t =>
      seq_leq (bright b0) packet_ack
      || match t with [] => false | b1 :: _ => block_contains b1 b0 end
  end.

(** The middle of [tcp_sack_update]: the guard that skips the blocks, or the
    block loop from index [i]; the result is [newly_sacked_bytes]. *)
Definition sack_accept (alloc_ok : nat -> bool) (e : sack_env) (flight_end : Z)
    (i : nat) (blocks : list tcp_sack_block) (s : tcp_sack_state) : Z * tcp_sack_state :=
  if degraded s || negb (sack_permitted e) || negb (seq_lt (snd_una e) flight_end)
  then (0, s)
  else
    match update_blocks alloc_ok e flight_end i (drop i blocks) 0 s with
    | (Some n, s1) => (n, s1)
    | (None, s1) => (0, s1)
    end.

Definition tcp_sack_update (alloc_ok : nat -> bool) (e : sack_env) (packet_ack : Z)
    (blocks0 : list tcp_sack_block) (flight_end : Z) (s0 : tcp_sack_state)
    : tcp_sack_ack_result * tcp_sack_state :=
  let s := tcp_sack_trim e flight_end s0 in
  let blocks := take TCP_SACK_MAX_BLOCKS blocks0 in
  let fd := first_is_dsack packet_ack blocks in
  let dsk := if fd then hd (mk_block 0 0) blocks else mk_block 0 0 in
  let dcov := fd && range_intersects (retransmitted s) (bleft dsk) (bright dsk) in
  let '(newly, s1) :=
    sack_accept alloc_ok e flight_end (if fd then 1 else 0)%nat blocks s in
  let '(exited, s2) := exit_recovery e s1 in
  (mk_result newly (negb (newly =? 0)) fd dsk dcov exited, s2).

(** ** Loss detection and the Pipe estimate *)

Fixpoint is_lost_loop (smss seq : Z) (l : list tcp_sack_range)
    (bytes_above discontiguous : Z) : bool :=
  match l with
  | [] => false
  | r :: next =>
      if negb (seq_gt (rright r) seq)
      then is_lost_loop smss seq next bytes_above discontiguous
      else
        let left := if seq_gt (rleft r) seq then rleft r else seq in
        let bytes := if seq_lt left (rright r)
                     then u32 (bytes_above + u32 (rright r - left)) else bytes_above in
        let disc := if seq_gt (rleft r) seq then u32 (discontiguous + 1) else discontiguous in
        if (TCP_SACK_DUP_THRESH <=? disc) || (u32 ((TCP_SACK_DUP_THRESH - 1) * smss) <? bytes)
        then true
        else is_lost_loop smss seq next bytes disc
  end.

Definition tcp_sack_is_lost (e : sack_env) (s : tcp_sack_state) (seq : Z) : bool :=
  is_lost_loop (smss e) seq (sacked s) 0 0.

Fixpoint retransmitted_overlap (high_rxt : Z) (l : list tcp_sack_range)
    (left right bytes : Z) : Z :=
  match l with
  | [] => bytes
  | r :: next =>
      if negb (seq_lt (rleft r) right) then bytes
      else if negb (seq_lt left (rright r))
      then retransmitted_overlap high_rxt next left right bytes
      else
        let lo := if seq_gt left (rleft r) then left else rleft r in
        let rr := if seq_lt right (rright r) then right else rright r in
        let bytes' :=
          if seq_lt lo rr && seq_lt lo high_rxt then
            u32 (bytes + u32 ((if seq_gt rr high_rxt then high_rxt else rr) - lo))
          else bytes in
        retransmitted_overlap high_rxt next left right bytes'
  end.

(** Binary search for the first byte of [left + lo, left + hi) that is not
    lost; 32 halvings close a 32-bit interval. *)
Fixpoint not_lost_search (fuel : nat) (lost : Z -> bool) (left lo hi : Z) : Z :=
  match fuel with
  | O => lo
  | S n =>
      if lo <? hi then
        let mid := lo + (hi - lo) / 2 in
        if lost (u32 (left + mid)) then not_lost_search n lost left (mid + 1) hi
        else not_lost_search n lost left lo mid
      else lo
  end.

Definition pipe_for_unsacked (e : sack_env) (s : tcp_sack_state) (left right : Z) : Z :=
  let p := retransmitted_overlap (high_rxt s) (retransmitted s) left right 0 in
  if negb (seq_lt left right) then p
  else if negb (tcp_sack_is_lost e s left) then u32 (p + u32 (right - left))
  else
    let lo := not_lost_search 33 (tcp_sack_is_lost e s) left 0 (u32 (right - left)) in
    u32 (p + u32 (right - u32 (left + lo))).

Fixpoint pipe_loop (e : sack_env) (s : tcp_sack_state) (flight_end : Z)
    (l : list tcp_sack_range) (cursor p : Z) : Z :=
  match l with
  | r :: next =>
      if seq_lt cursor flight_end then
        let p' := if seq_lt cursor (rleft r)
                  then u32 (p + pipe_for_unsacked e s cursor (seq_min (rleft r) flight_end))
                  else p in
        let cursor' := if seq_gt (rright r) cursor then rright r else cursor in
        pipe_loop e s flight_end next cursor' p'
      else p
  | [] =>
      if seq_lt cursor flight_end then u32 (p + pipe_for_unsacked e s cursor flight_end)
      else p
  end.

Definition tcp_sack_set_pipe (e : sack_env) (flight_end : Z) (s : tcp_sack_state)
    : Z * tcp_sack_state :=
  let p := pipe_loop e s flight_end (sacked s) (snd_una e) 0 in
  (p, with_pipe p s).

(** ** NextSeg candidates *)

(** Save one SMSS-limited choice; [false] leaves the state alone. *)
Definition candidate_set (e : sack_env) (k : tcp_recovery_tx_kind) (rule : Z)
    (resc : bool) (seq end_ : Z) (s : tcp_sack_state) : bool * tcp_sack_state :=
  if negb (seq_lt seq end_) then (false, s)
  else
    let end' := if smss e <? u32 (end_ - seq) then u32 (seq + smss e) else end_ in
    (true, with_pending (mk_cand k rule resc seq end') s).

(** [Some (out_left, out_right)] is the [true] return. *)
Fixpoint find_unsacked (l : list tcp_sack_range) (cursor right : Z) : option (Z * Z) :=
  match l with
  | r :: next =>
      if seq_lt cursor right then
        if negb (seq_lt (rright r) cursor) && seq_lt cursor (rleft r)
        then Some (cursor, seq_min (rleft r) right)
        else find_unsacked next (if seq_gt (rright r) cursor then rright r else cursor) right
      else None
  | [] => if seq_lt cursor right then Some (cursor, right) else None
  end.

Definition highest_sacked (e : sack_env) (s : tcp_sack_state) : Z :=
  foldl (fun h r => if seq_gt (rright r) h then rright r else h) (snd_una e) (sacked s).

Fixpoint find_highest_unsacked (l : list tcp_sack_range) (cursor right : Z)
    (found : option (Z * Z)) : option (Z * Z) :=
  match l with
  | r :: next =>
      if seq_lt cursor right then
        let found' := if seq_lt cursor (rleft r)
                      then Some (cursor, seq_min (rleft r) right) else found in
        find_highest_unsacked next
          (if seq_gt (rright r) cursor then rright r else cursor) right found'
      else found
  | [] => if seq_lt cursor right then Some (cursor, right) else found
  end.

Definition tcp_sack_enter_recovery (e : sack_env) (m : tcp_recovery_mode) (flight_end : Z)
    (s : tcp_sack_state) : tcp_sack_state :=
  let end_ := seq_min (u32 (snd_una e + smss e)) flight_end in
  let s1 := with_limited_transmit false (with_rescue_rxt (snd_una e)
    (with_high_rxt (snd_una e) (with_recovery_point flight_end (with_mode m s)))) in
  snd (candidate_set e TCP_RECOVERY_TX_RETRANSMIT 1 false (snd_una e) end_ s1).

Definition tcp_sack_schedule_newreno_partial (e : sack_env) (flight_end : Z)
    (s : tcp_sack_state) : bool * tcp_sack_state :=
  if negb (bool_decide (mode s = TCP_RECOVERY_NEWRENO))
     || negb (seq_lt (snd_una e) flight_end)
  then (false, s)
  else
    let end_ := seq_min (u32 (snd_una e + smss e)) flight_end in
    candidate_set e TCP_RECOVERY_TX_RETRANSMIT 1 false (snd_una e) end_
      (with_pending no_candidate s).

Definition tcp_sack_on_rto (e : sack_env) (flight_end : Z) (s : tcp_sack_state) : tcp_sack_state :=
  let c := range_list_clear (range_count s) (sacked s) in
  tcp_sack_enter_recovery e TCP_RECOVERY_RTO flight_end
    (with_dup_acks 0 (with_degraded false (with_range_count c (with_sacked [] s)))).

(** NextSeg rule 1: walk the holes below [highest] until one is lost.  Each
    round moves [left] past one SACKed range, so the list length bounds it. *)
Fixpoint first_lost_hole (fuel : nat) (e : sack_env) (s : tcp_sack_state)
    (left highest : Z) : option (Z * Z) :=
  match fuel with
  | O => None
  | S n =>
      match find_unsacked (sacked s) left highest with
      | None => None
      | Some (l, r) =>
          if tcp_sack_is_lost e s l then Some (l, r) else first_lost_hole n e s r highest
      end
  end.

Definition tcp_sack_schedule_next (e : sack_env) (sndbuf_end : Z) (allow_new_data : bool)
    (s : tcp_sack_state) : bool * tcp_sack_state :=
  if negb (bool_decide (kind (pending s) = TCP_RECOVERY_TX_NONE)) then (true, s)
  else if degraded s then (false, s)
  else match mode s with
  | TCP_RECOVERY_RTO =>
      match find_unsacked (sacked s) (snd_una e) (high_data s) with
      | Some (l, r) => candidate_set e TCP_RECOVERY_TX_RETRANSMIT 1 false l r s
      | None => (false, s)
      end
  | TCP_RECOVERY_SACK =>
      let highest := highest_sacked e s in
      let left := if seq_gt (high_rxt s) (snd_una e) then high_rxt s else snd_una e in
      match first_lost_hole (S (S (length (sacked s)))) e s left highest with
      | Some (l, r) => candidate_set e TCP_RECOVERY_TX_RETRANSMIT 1 false l r s
      | None =>
          if allow_new_data && seq_lt (high_data s) sndbuf_end then
            candidate_set e TCP_RECOVERY_TX_NEW_DATA 2 false (high_data s) sndbuf_end s
          else match find_unsacked (sacked s) left highest with
          | Some (l, r) => candidate_set e TCP_RECOVERY_TX_RETRANSMIT 3 false l r s
          | None =>
              if negb (seq_lt (snd_una e) (rescue_rxt s)) then
                match find_highest_unsacked (sacked s) (snd_una e) (high_data s) None with
                | Some (l, r) =>
                    let start := if smss e <? u32 (r - l) then u32 (r - smss e) else l in
                    candidate_set e TCP_RECOVERY_TX_RETRANSMIT 4 true start r s
                | None => (false, s)
                end
              else (false, s)
          end
      end
  | _ => (false, s)
  end.

Definition tcp_sack_commit_candidate (alloc_ok : bool) (e : sack_env) (sent_end : Z)
    (s : tcp_sack_state) : tcp_sack_state :=
  let c := pending s in
  let finish s :=
    with_pending no_candidate
      (if bool_decide (mode s = TCP_RECOVERY_SACK)
       then with_pipe (u32 (pipe s + u32 (sent_end - cseq c))) s else s) in
  match kind c with
  | TCP_RECOVERY_TX_NONE => s
  | k =>
      if negb (seq_lt (cseq c) sent_end) then s
      else match k with
      | TCP_RECOVERY_TX_NEW_DATA =>
          finish (if seq_gt sent_end (high_data s) then with_high_data sent_end s else s)
      | _ =>
          let '(added, l, n) :=
            range_insert alloc_ok (range_count s) (retransmitted s) (cseq c) sent_end
              TCP_SACK_RANGE_RETRANSMITTED in
          let s1 := with_range_count n (with_retransmitted l s) in
          if added =? UINT32_MAX then sack_degrade s1
          else finish
            (if rescue c then with_rescue_rxt (recovery_point s1) s1
             else if seq_gt sent_end (high_rxt s1) then with_high_rxt sent_end s1
             else s1)
      end
  end.

Definition tcp_sack_cancel_candidate (s : tcp_sack_state) : tcp_sack_state :=
  with_pending no_candidate s.

Definition tcp_sack_note_new_data (end_seq : Z) (s : tcp_sack_state) : tcp_sack_state :=
  if seq_gt end_seq (high_data s) then with_high_data end_seq s else s.

Definition tcp_sack_score_count (s : tcp_sack_state) : Z :=
  u16 (Z.of_nat (length (sacked s))).
