(* ===== verification/TcpSackPipe.v ===== *)
(** * The Pipe estimate against RFC 6675 (facts on TcpSack.v)

    [tcp_sack_set_pipe] walks interval lists and finds the boundary between
    lost and not-lost bytes by binary search.  RFC 6675 defines Pipe octet by
    octet.  This file proves the two equal. *)

From S2P Require Import Prelude Config SeqNum SackRange TcpSack.

Section Lost.
Context (base m : Z).
Abbreviation o := (off base).

(** SACKed bytes above position [x], and SACKed intervals that start above. *)
Definition bytes_above (l : list tcp_sack_range) (x : Z) : Z :=
  Zsum (map (fun r => Z.max 0 (o (rright r) - Z.max (o (rleft r)) x)) l).
Definition discontiguous_above (l : list tcp_sack_range) (x : Z) : Z :=
  Zsum (map (fun r => if x <? o (rleft r) then 1 else 0) l).

(** RFC 6675 IsLost with DupThresh = 3 and SMSS [m]. *)
Definition lost_at (l : list tcp_sack_range) (x : Z) : bool :=
  (TCP_SACK_DUP_THRESH <=? discontiguous_above l x)
  || ((TCP_SACK_DUP_THRESH - 1) * m <? bytes_above l x).

Lemma bytes_above_cons r l x :
  bytes_above (r :: l) x = Z.max 0 (o (rright r) - Z.max (o (rleft r)) x) + bytes_above l x.
Proof. done. Qed.
Lemma discontiguous_cons r l x :
  discontiguous_above (r :: l) x = (if x <? o (rleft r) then 1 else 0) + discontiguous_above l x.
Proof. done. Qed.

Lemma above_nonneg l x : 0 <= bytes_above l x /\ 0 <= discontiguous_above l x.
Proof.
  induction l as [|r t IH]; [done|]. rewrite bytes_above_cons, discontiguous_cons.
  destruct (_ <? _); lia.
Qed.

Lemma above_le_bytes E lo l x : ranges_ok base E lo l -> bytes_above l x <= rbytes base l.
Proof.
  revert lo. induction l as [|r t IH]; intros lo; [done|].
  cbn [ranges_ok]. intros (_ & _ & _ & H & Ht). rewrite bytes_above_cons, rbytes_cons.
  specialize (IH _ Ht). lia.
Qed.

(** IsLost only weakens as the position moves up. *)
Lemma lost_antitone l x y : x <= y -> lost_at l y = true -> lost_at l x = true.
Proof.
  intros Hxy. assert (bytes_above l y <= bytes_above l x /\
                      discontiguous_above l y <= discontiguous_above l x).
  { induction l as [|r t IH]; [done|]. rewrite !bytes_above_cons, !discontiguous_cons.
    destruct (Z.ltb_spec y (o (rleft r))), (Z.ltb_spec x (o (rleft r))); lia. }
  unfold lost_at, TCP_SACK_DUP_THRESH. lia.
Qed.

Lemma is_lost_loop_spec E lo l seq bytes disc :
  1 <= m <= 65535 -> E < 2147483648 ->
  ranges_ok base E lo l -> near base seq ->
  0 <= bytes <= 2 * m -> 0 <= disc < 3 ->
  is_lost_loop m seq l bytes disc =
    (3 <=? disc + discontiguous_above l (o seq)) || (2 * m <? bytes + bytes_above l (o seq)).
Proof.
  intros Hm HE Hok Hs. revert lo bytes disc Hok.
  induction l as [|r t IH]; intros lo bytes disc Hok Hb Hd.
  - cbn. lia.
  - cbn [is_lost_loop ranges_ok] in *. destruct Hok as (Hl & Hr & H1 & H2 & Hok).
    rewrite bytes_above_cons, discontiguous_cons.
    pose proof (above_nonneg t (o seq)) as [Hn1 Hn2].
    rewrite (seq_gt_off base _ _ Hr Hs), (seq_gt_off base _ _ Hl Hs).
    destruct (Z.ltb_spec (o seq) (o (rright r))) as [Hx|Hx]; cbn [negb].
    + set (left := if o seq <? o (rleft r) then rleft r else seq).
      assert (near base left /\ o left = Z.max (o (rleft r)) (o seq)) as [Hnl El]
        by (unfold left; by_cmp).
      clearbody left. rewrite (seq_lt_off base _ _ Hnl Hr).
      destruct (Z.ltb_spec (o left) (o (rright r))); [|lia].
      rewrite (off_sub base left (rright r) Hnl Hr) by lia.
      pose proof (off_range base left). unfold TCP_SACK_DUP_THRESH.
      rewrite (u32_small (bytes + _)) by (wunfold; lia).
      rewrite (u32_small (_ * m)) by (wunfold; lia).
      rewrite (u32_small (disc + 1)) by (wunfold; lia).
      replace (Z.max 0 (o (rright r) - Z.max (o (rleft r)) (o seq)))
        with (o (rright r) - o left) by lia.
      set (disc' := if o seq <? o (rleft r) then disc + 1 else disc).
      assert (disc' = disc + (if o seq <? o (rleft r) then 1 else 0)) as Ed
        by (unfold disc'; destruct (_ <? _); lia).
      assert (0 <= disc' <= disc + 1) by (rewrite Ed; destruct (_ <? _); lia).
      clearbody disc'. destruct (_ || _) eqn:Et.
      * apply orb_true_iff in Et. lia.
      * bprop. rewrite (IH _ _ _ Hok) by lia. lia.
    + rewrite (IH _ _ _ Hok) by lia.
      destruct (Z.ltb_spec (o seq) (o (rleft r))); [lia|]. lia.
Qed.

(** The search returns the boundary of a predicate that holds on a prefix. *)
Lemma not_lost_search_spec fuel lost left lo hi k :
  0 <= lo <= hi -> hi - lo < 2 ^ (Z.of_nat fuel - 1) -> (1 <= fuel)%nat ->
  lo <= k <= hi ->
  (forall i, lo <= i < hi -> lost (u32 (left + i)) = (i <? k)) ->
  not_lost_search fuel lost left lo hi = k.
Proof.
  revert lo hi. induction fuel as [|n IH]; intros lo hi Hlo Hf Hn Hk Hp; [lia|].
  cbn [not_lost_search]. destruct (Z.ltb_spec lo hi); [|lia].
  replace (Z.of_nat (S n) - 1) with (Z.of_nat n) in Hf by lia.
  assert ((1 <= n)%nat) as Hn1 by (destruct n; [cbn in Hf; lia|lia]).
  replace (Z.of_nat n) with (Z.succ (Z.of_nat n - 1)) in Hf by lia.
  rewrite Z.pow_succ_r in Hf by lia.
  set (mid := lo + (hi - lo) / 2).
  assert (lo <= mid < hi /\ 2 * (mid - lo) <= hi - lo /\ 2 * (hi - mid - 1) <= hi - lo) as Hm
    by (unfold mid; Z.to_euclidean_division_equations; lia).
  clearbody mid. rewrite Hp by lia. destruct (Z.ltb_spec mid k).
  - apply IH; try lia. intros. apply Hp. lia.
  - apply IH; try lia. intros. apply Hp. lia.
Qed.
End Lost.

Lemma smss_bounds e : in_u16 (snd_mss e) -> 1 <= smss e <= 65535.
Proof. intros H. unfold smss, TCP_DEFAULT_MSS. bsplit; warith. Qed.

Section Pipe.
Context (e : sack_env) (s : tcp_sack_state) (E : Z).
Abbreviation base := (snd_una e).
Abbreviation o := (off base).
Abbreviation rx := (sdist base (high_rxt s)).

Hypothesis Huna : in_u32 base.
Hypothesis Hmss : in_u16 (snd_mss e).
Hypothesis HE : 0 <= E < 2147483648.
Hypothesis Hsk : score_ok base E (sacked s).
Hypothesis Hrt : score_ok base E (retransmitted s).
Hypothesis Hrx : in_u32 (high_rxt s) /\ E - 2147483648 <= rx.

Definition lost_pos (x : Z) : bool := lost_at base (smss e) (sacked s) x.
(** Retransmitted bytes below HighRxt. *)
Definition retrans_pos (x : Z) : bool := covers base (retransmitted s) x && (x <? rx).

Lemma is_lost_pos seq :
  near base seq -> tcp_sack_is_lost e s seq = lost_pos (o seq).
Proof.
  intros Hs. unfold tcp_sack_is_lost.
  rewrite (is_lost_loop_spec base (smss e) E (-1) (sacked s) seq 0 0);
    try done; try lia; [by apply smss_bounds|pose proof (smss_bounds e Hmss); lia].
Qed.

Lemma overlap_spec lo l left right bytes :
  ranges_ok base E lo l -> near base left -> near base right ->
  o left < o right <= E -> 0 <= bytes -> bytes + (E - lo) < 4294967296 ->
  retransmitted_overlap (high_rxt s) l left right bytes =
    bytes + cnt (fun x => covers base l x && (x <? rx)) (o left) (o right).
Proof.
  intros Hok Hl Hr Hlr. revert lo bytes Hok.
  induction l as [|r t IH]; intros lo bytes Hok Hb Hbe; cbn [retransmitted_overlap ranges_ok] in *.
  { rewrite cnt_none; [lia|done]. }
  destruct Hok as (Hcl & Hcr & H1 & H2 & Hok).
  rewrite (seq_lt_off base _ _ Hcl Hr), (seq_lt_off base _ _ Hl Hcr).
  destruct (Z.ltb_spec (o (rleft r)) (o right)) as [Ha|Ha]; cbn [negb].
  2: { rewrite cnt_none; [lia|]. intros x Hx. rewrite covers_cons.
       rewrite (covers_below base E _ t x Hok) by lia. unfold in_range. lia. }
  destruct (Z.ltb_spec (o left) (o (rright r))) as [Hc|Hc]; cbn [negb].
  2: { rewrite (IH _ _ Hok) by lia. f_equal. apply cnt_ext. intros x Hx.
       rewrite covers_cons. unfold in_range.
       destruct (covers base t x); lia. }
  rewrite (seq_gt_off base _ _ Hl Hcl), (seq_lt_off base _ _ Hr Hcr).
  set (l0 := if o (rleft r) <? o left then left else rleft r).
  set (r0 := if o right <? o (rright r) then right else rright r).
  assert (near base l0 /\ o l0 = Z.max (o (rleft r)) (o left)) as [Hnl El]
    by (unfold l0; by_cmp).
  assert (near base r0 /\ o r0 = Z.min (o (rright r)) (o right)) as [Hnr Er]
    by (unfold r0; by_cmp).
  clearbody l0 r0. pose proof (sdist_range base (high_rxt s)) as Hsr.
  pose proof (off_range base left) as Hol. pose proof (off_range base (rleft r)) as Horl.
  rewrite (seq_lt_off base _ _ Hnl Hnr).
  rewrite (seq_lt_sdist base l0 (high_rxt s)) by (rewrite (sdist_near _ _ Hnl); lia).
  unfold seq_gt. rewrite (seq_lt_sdist base (high_rxt s) r0) by (rewrite (sdist_near _ _ Hnr); lia).
  rewrite (sdist_near _ _ Hnl), (sdist_near _ _ Hnr).
  destruct (Z.ltb_spec (o l0) (o r0)); [|lia].
  assert (cnt (fun x => covers base (r :: t) x && (x <? rx)) (o left) (o right)
    = cnt (fun x => x <? rx) (o l0) (o r0)
      + cnt (fun x => covers base t x && (x <? rx)) (o left) (o right)) as ->.
  { rewrite (cnt_split _ (o left) (o r0) (o right)) by lia.
    rewrite (cnt_split (fun x => covers base t x && _) (o left) (o r0) (o right)) by lia.
    rewrite (cnt_none (fun x => covers base t x && _) (o left) (o r0)).
    2: { intros x Hx. rewrite (covers_below base E _ t x Hok) by lia. done. }
    rewrite (cnt_clip (fun x => covers base (r :: t) x && (x <? rx))
               (o left) (o r0) (o (rleft r)) (o (rright r))) by first
      [lia | intros x Hx Hn; rewrite covers_cons, (covers_below base E _ t x Hok) by lia;
             unfold in_range; lia].
    replace (Z.max (o left) (o (rleft r))) with (o l0) by lia.
    replace (Z.min (o r0) (o (rright r))) with (o r0) by lia.
    rewrite (cnt_ext (fun x => covers base (r :: t) x && (x <? rx)) (fun x => x <? rx) (o l0)).
    2: { intros x Hx. rewrite covers_cons. unfold in_range. lia. }
    rewrite (cnt_ext (fun x => covers base (r :: t) x && (x <? rx))
               (fun x => covers base t x && (x <? rx)) (o r0)).
    2: { intros x Hx. rewrite covers_cons. unfold in_range.
         destruct (decide (o right <= o (rright r))); destruct (covers base t x); lia. }
    lia. }
  destruct (Z.ltb_spec (o l0) rx) as [Hlx|Hlx]; cbn [andb].
  - set (rr := if rx <? o r0 then high_rxt s else r0).
    assert (near base rr /\ o rr = Z.min rx (o r0)) as [Hnrr Err].
    { unfold rr. destruct (Z.ltb_spec rx (o r0)); [|split; [done|lia]].
      assert (near base (high_rxt s)) as Hnh by (apply sdist_pos_near; [apply Hrx|lia]).
      split; [done|]. rewrite <- (sdist_near _ _ Hnh). lia. }
    clearbody rr. rewrite (off_sub base l0 rr Hnl Hnrr) by lia.
    rewrite (cnt_clip (fun x => x <? rx) (o l0) (o r0) (o l0) rx) by lia.
    rewrite (cnt_all _ (Z.max _ _)) by lia.
    rewrite u32_small by (wunfold; lia).
    rewrite (IH _ _ Hok) by lia. lia.
  - rewrite (cnt_none (fun x => x <? rx) (o l0)) by lia.
    rewrite (IH _ _ Hok) by lia. lia.
Qed.

(** One hole: its bytes not deemed lost plus its retransmitted bytes. *)
Lemma pipe_hole_spec left right :
  near base left -> near base right -> o left < o right <= E ->
  pipe_for_unsacked e s left right =
    cnt (fun x => negb (lost_pos x)) (o left) (o right)
    + cnt retrans_pos (o left) (o right).
Proof.
  intros Hl Hr Hlr. unfold pipe_for_unsacked.
  rewrite (overlap_spec (-1) (retransmitted s) left right 0) by (done || lia).
  fold retrans_pos. rewrite Z.add_0_l.
  pose proof (off_range base left) as Hol.
  pose proof (cnt_range retrans_pos (o left) (o right)) as Hc.
  rewrite (seq_lt_off base _ _ Hl Hr). destruct (Z.ltb_spec (o left) (o right)); [|lia].
  cbn [negb]. rewrite (is_lost_pos left Hl), (off_sub base left right Hl Hr) by lia.
  destruct (lost_pos (o left)) eqn:El; cbn [negb].
  - destruct (prefix_boundary (fun i => lost_pos (o left + i)) 0 (o right - o left))
      as (k & Hk & Hpre); [lia| |].
    { intros x y ? ? ?. apply lost_antitone. lia. }
    assert (not_lost_search 33 (tcp_sack_is_lost e s) left 0 (o right - o left) = k) as ->.
    { apply not_lost_search_spec; try lia.
      intros i Hi. destruct Hr as [? ?].
      destruct (near_add base left i Hl) as [Hn En]; try lia.
      rewrite is_lost_pos by done. rewrite En. apply Hpre. lia. }
    destruct (near_add base left k Hl) as [Hn En]; try (destruct Hr; lia).
    rewrite (off_sub base _ right Hn Hr) by lia. rewrite En.
    rewrite (u32_small) by (wunfold; lia).
    rewrite (cnt_split (fun x => negb (lost_pos x)) _ (o left + k)) by lia.
    assert (forall x, o left <= x < o right -> lost_pos x = (x - o left <? k)) as Hx.
    { intros x Hx. rewrite <- Hpre by lia. f_equal. lia. }
    rewrite (cnt_none (fun x => negb (lost_pos x)) (o left) (o left + k))
      by (intros x ?; rewrite Hx; lia).
    rewrite (cnt_all (fun x => negb (lost_pos x)) (o left + k))
      by first [lia | intros x ?; rewrite Hx; lia]. lia.
  - rewrite (u32_small) by (wunfold; lia). rewrite (cnt_all (fun x => negb _)); try lia.
    intros x Hx. destruct (lost_pos x) eqn:Ex; [|done].
    assert (lost_pos (o left) = true) by (eapply lost_antitone; [|exact Ex]; lia). congruence.
Qed.

Definition hole_pipe (l : list tcp_sack_range) (a b : Z) : Z :=
  cnt (fun x => negb (covers base l x) && negb (lost_pos x)) a b
  + cnt (fun x => negb (covers base l x) && retrans_pos x) a b.

Lemma hole_pipe_split l a b c :
  a <= b <= c -> hole_pipe l a c = hole_pipe l a b + hole_pipe l b c.
Proof.
  intros H. unfold hole_pipe.
  rewrite (cnt_split _ a b c H), (cnt_split (fun x => _ && retrans_pos x) a b c H). lia.
Qed.

Lemma hole_pipe_ext l l' a b :
  (forall x, a <= x < b -> covers base l x = covers base l' x) ->
  hole_pipe l a b = hole_pipe l' a b.
Proof.
  intros H. unfold hole_pipe. f_equal; apply cnt_ext; intros x Hx; by rewrite H.
Qed.

Lemma hole_pipe_free l a b :
  (forall x, a <= x < b -> covers base l x = false) ->
  hole_pipe l a b = cnt (fun x => negb (lost_pos x)) a b + cnt retrans_pos a b.
Proof.
  intros H. unfold hole_pipe. f_equal; apply cnt_ext; intros x Hx; by rewrite H.
Qed.

Lemma hole_pipe_full l a b :
  (forall x, a <= x < b -> covers base l x = true) -> hole_pipe l a b = 0.
Proof.
  intros H. unfold hole_pipe. rewrite !cnt_none; [lia| |]; intros x Hx; by rewrite H.
Qed.

Lemma hole_pipe_range l a b : 0 <= hole_pipe l a b <= 2 * Z.max 0 (b - a).
Proof.
  unfold hole_pipe.
  pose proof (cnt_range (fun x => negb (covers base l x) && negb (lost_pos x)) a b).
  pose proof (cnt_range (fun x => negb (covers base l x) && retrans_pos x) a b). lia.
Qed.

Lemma pipe_loop_spec fe lo l cursor p :
  near base fe -> o fe = E -> ranges_ok base E lo l -> near base cursor ->
  lo <= o cursor <= Z.max 0 lo -> o cursor <= E ->
  0 <= p -> p + 2 * (E - o cursor) < 4294967296 ->
  pipe_loop e s fe l cursor p = p + hole_pipe l (o cursor) E.
Proof.
  intros Hf Ef. revert lo cursor p.
  induction l as [|r t IH]; intros lo cursor p Hok Hc Hlo HcE Hp Hb; cbn [pipe_loop].
  - rewrite (seq_lt_off base _ _ Hc Hf), Ef.
    pose proof (hole_pipe_range [] (o cursor) E).
    destruct (Z.ltb_spec (o cursor) E).
    + rewrite pipe_hole_spec by (done || lia). rewrite Ef, <- (hole_pipe_free []) by done.
      rewrite u32_small by (wunfold; lia). done.
    + replace E with (o cursor) by lia. unfold hole_pipe. rewrite !cnt_empty by lia. lia.
  - cbn [ranges_ok] in Hok. destruct Hok as (Hcl & Hcr & H1 & H2 & Hok).
    rewrite (seq_lt_off base _ _ Hc Hf), Ef, (seq_lt_off base _ _ Hc Hcl),
      (seq_gt_off base _ _ Hcr Hc).
    pose proof (off_range base (rleft r)) as Hnn.
    assert (o cursor <= o (rleft r)) as Hcr1 by lia.
    destruct (Z.ltb_spec (o cursor) E); [|lia].
    destruct (Z.ltb_spec (o cursor) (o (rright r))); [|lia].
    destruct (seq_min_off base (rleft r) fe Hcl Hf) as [Em Hm].
    assert (o (seq_min (rleft r) fe) = o (rleft r)) as Em' by lia. clear Em.
    rewrite (hole_pipe_split (r :: t) (o cursor) (o (rleft r)) E) by lia.
    rewrite (hole_pipe_split (r :: t) (o (rleft r)) (o (rright r)) E) by lia.
    rewrite (hole_pipe_full (r :: t) (o (rleft r)) (o (rright r)))
      by (intros x Hx; rewrite covers_cons; unfold in_range; lia).
    rewrite (hole_pipe_ext (r :: t) t (o (rright r)) E)
      by (intros x Hx; rewrite covers_cons; unfold in_range; destruct (covers base t x); lia).
    pose proof (hole_pipe_range (r :: t) (o cursor) (o (rleft r))).
    assert (forall x, o cursor <= x < o (rleft r) -> covers base (r :: t) x = false) as Hfree.
    { intros x Hx. rewrite covers_cons, (covers_below base E _ t x Hok) by lia.
      unfold in_range. lia. }
    destruct (Z.ltb_spec (o cursor) (o (rleft r))).
    + rewrite pipe_hole_spec by (done || lia).
      rewrite Em', <- (hole_pipe_free (r :: t)) by done.
      rewrite u32_small by (wunfold; lia). rewrite (IH _ _ _ Hok Hcr) by lia. lia.
    + rewrite (IH _ _ _ Hok Hcr) by lia.
      replace (o (rleft r)) with (o cursor) by lia.
      replace (hole_pipe (r :: t) (o cursor) (o cursor)) with 0
        by (unfold hole_pipe; rewrite !cnt_empty by lia; lia). lia.
Qed.
End Pipe.

(** C10: [tcp_sack_set_pipe] computes RFC 6675 SetPipe octet by octet.  For
    any scoreboard over a flight shorter than 2^31 bytes the value returned and
    stored is the number of unSACKed bytes not deemed lost plus the number of
    unSACKed bytes retransmitted below HighRxt: the interval walk and the
    binary search for the loss boundary lose nothing, and no 32-bit sum wraps. *)
Theorem set_pipe_rfc6675 e s flight_end
  (Huna : in_u32 (snd_una e)) (Hmss : in_u16 (snd_mss e)) (Hfe : near (snd_una e) flight_end)
  (Hsk : score_ok (snd_una e) (off (snd_una e) flight_end) (sacked s))
  (Hrt : score_ok (snd_una e) (off (snd_una e) flight_end) (retransmitted s))
  (Hrx : in_u32 (high_rxt s) /\
         off (snd_una e) flight_end - 2147483648 <= sdist (snd_una e) (high_rxt s)) :
  tcp_sack_set_pipe e flight_end s =
    (let p := hole_pipe e s (sacked s) 0 (off (snd_una e) flight_end) in
     (p, with_pipe p s)).
Proof.
  unfold tcp_sack_set_pipe.
  pose proof (off_range (snd_una e) flight_end) as H0. destruct (Hfe) as [_ H1].
  rewrite (pipe_loop_spec e s (off (snd_una e) flight_end) Hmss ltac:(lia) Hsk Hrt Hrx
             flight_end (-1) (sacked s) (snd_una e) 0); rewrite ?off_base; try done; try lia.
  by apply near_base.
Qed.

(** A flight of 1000 bytes across the wrap of the sequence space: the first
    hole is lost, its first half is already retransmitted. *)
Definition pipe_demo : tcp_sack_state :=
  with_high_rxt 4294967246 (with_retransmitted [mk_range 4294967196 4294967246 2]
    (with_sacked [mk_range 0 100 1; mk_range 200 300 1; mk_range 400 500 1]
       (tcp_sack_state_init 4294967196))).

Lemma set_pipe_rfc6675_witness :
  tcp_sack_set_pipe (mk_senv 4294967196 100 true) 900 pipe_demo
    = (650, with_pipe 650 pipe_demo).
Proof.
  assert (near 4294967196 900) as Hfe by (split; vm_compute; split; congruence).
  rewrite (set_pipe_rfc6675 (mk_senv 4294967196 100 true) pipe_demo 900);
    [vm_compute; reflexivity| | |exact Hfe| | |].
  - vm_compute; split; congruence.
  - vm_compute; split; congruence.
  - repeat split; vm_compute; congruence.
  - repeat split; vm_compute; congruence.
  - repeat split; vm_compute; congruence.
Defined.
