(* ===== verification/TcpSackUpdate.v ===== *)
(** * Scoreboard maintenance (facts on TcpSack.v)

    The scoreboard as a set of byte positions under trimming, ACK processing
    and retransmission, and the behaviour of ACK blocks from outside the
    flight. *)

From S2P Require Import Prelude Config SeqNum SackRange TcpSack.

(** ** Moving the window base *)

Section Rebase.
Context (b0 una : Z) (Hu : near b0 una).
Abbreviation d := (off b0 una).

Lemma ranges_ok_rebase E lo l :
  d - 1 <= lo -> ranges_ok b0 E lo l -> ranges_ok una (E - d) (lo - d) l.
Proof.
  revert lo. induction l as [|r t IH]; intros lo Hlo; [done|].
  cbn [ranges_ok]. intros (Hl & Hr & H1 & H2 & Ht).
  destruct (near_rebase b0 una (rleft r) Hu Hl) as [Hl' El]; [lia|].
  destruct (near_rebase b0 una (rright r) Hu Hr) as [Hr' Er]; [lia|].
  rewrite El, Er. split_and!; try done; try lia. apply IH; [lia|done].
Qed.

Lemma covers_rebase E lo l x :
  d - 1 <= lo -> ranges_ok b0 E lo l -> covers una l x = covers b0 l (x + d).
Proof.
  revert lo. induction l as [|r t IH]; intros lo Hlo; [done|].
  cbn [ranges_ok]. intros (Hl & Hr & H1 & H2 & Ht). rewrite !covers_cons.
  rewrite (IH (off b0 (rright r)) ltac:(lia) Ht). unfold in_range.
  destruct (near_rebase b0 una (rleft r) Hu Hl) as [_ ->]; [lia|].
  destruct (near_rebase b0 una (rright r) Hu Hr) as [_ ->]; [lia|].
  destruct (covers b0 t (x + d)); lia.
Qed.
End Rebase.

Lemma trim_length count l left right :
  (length (fst (range_list_trim count l left right)) <= length l)%nat.
Proof.
  revert count. induction l as [|r t IH]; intros count; cbn [range_list_trim]; [done|].
  destruct (_ || _); [specialize (IH (range_free count)); cbn [length]; lia|].
  specialize (IH count). destruct (range_list_trim count t left right). cbn in *. lia.
Qed.

(** ** The scoreboard invariant *)

(** Both lists are sorted, separated and inside the flight [una, una + E), and
    the stream's node count is exact and within its cap. *)
Definition sack_wf (una E : Z) (s : tcp_sack_state) : Prop :=
  score_ok una E (sacked s) /\ score_ok una E (retransmitted s) /\
  range_count s = Z.of_nat (length (sacked s)) + Z.of_nat (length (retransmitted s)) /\
  range_count s <= TCP_SACK_SCORE_MAX_RANGES.

Lemma trim_list b0 E0 una fe count l :
  score_ok b0 E0 l -> near b0 una -> near b0 fe -> off b0 una < off b0 fe ->
  Z.of_nat (length l) <= count ->
  let '(l', count') := range_list_trim count l una fe in
  score_ok una (off una fe) l' /\
  (forall x, 0 <= x < off una fe -> covers una l' x = covers b0 l (x + off b0 una)) /\
  count' - Z.of_nat (length l') = count - Z.of_nat (length l) /\
  (length l' <= length l)%nat.
Proof.
  intros Hok Hu Hf Hlt Hc.
  pose proof (range_list_trim_spec b0 E0 (-1) count l una fe Hok Hu Hf Hlt Hc) as H.
  pose proof (trim_length count l una fe) as Hlen.
  destruct (range_list_trim count l una fe) as [l' c'].
  destruct H as (H1 & H2 & H3). cbn in Hlen.
  pose proof (off_range b0 una) as Hnn.
  replace (Z.max (-1) (off b0 una - 1)) with (off b0 una - 1) in H1 by lia.
  destruct (near_rebase b0 una fe Hu Hf) as [_ Ef]; [lia|].
  split_and!; try done.
  - apply (ranges_ok_rebase b0 una Hu) in H1; [|lia].
    rewrite Ef. unfold score_ok. by replace (-1) with (off b0 una - 1 - off b0 una) by lia.
  - intros x Hx. rewrite (covers_rebase b0 una Hu _ _ l' x (Z.le_refl _) H1), H2.
    destruct (covers b0 l _); lia.
Qed.

(** Trimming to a flight whose left edge has moved up re-establishes the
    invariant for the new flight and keeps exactly what is still in it. *)
Lemma trim_spec e fe b0 E0 s :
  sack_wf b0 E0 s -> near b0 (snd_una e) -> near b0 fe ->
  off b0 (snd_una e) <= off b0 fe ->
  let s' := tcp_sack_trim e fe s in
  sack_wf (snd_una e) (off (snd_una e) fe) s' /\
  range_count s' <= range_count s /\
  (forall x, 0 <= x < off (snd_una e) fe ->
     covers (snd_una e) (sacked s') x = covers b0 (sacked s) (x + off b0 (snd_una e)) /\
     covers (snd_una e) (retransmitted s') x
       = covers b0 (retransmitted s) (x + off b0 (snd_una e))).
Proof.
  intros (Hs & Hr & Hc & Hcap) Hu Hf Hle. cbn zeta.
  destruct (near_rebase b0 _ fe Hu Hf Hle) as [Hnf Ef].
  unfold tcp_sack_trim. rewrite (seq_lt_off b0 _ _ Hu Hf).
  set (s1 := if negb _ then _ else _).
  assert (sack_wf (snd_una e) (off (snd_una e) fe) s1 /\
    range_count s1 <= range_count s /\
    (forall x, 0 <= x < off (snd_una e) fe ->
     covers (snd_una e) (sacked s1) x = covers b0 (sacked s) (x + off b0 (snd_una e)) /\
     covers (snd_una e) (retransmitted s1) x
       = covers b0 (retransmitted s) (x + off b0 (snd_una e)))) as H.
  { unfold s1, sack_wf. destruct (Z.ltb_spec (off b0 (snd_una e)) (off b0 fe)); cbn [negb].
    - pose proof (trim_list b0 E0 (snd_una e) fe (range_count s) (sacked s)
        Hs Hu Hf ltac:(lia) ltac:(lia)) as H1.
      destruct (range_list_trim (range_count s) _ _ _) as [l1 c1].
      destruct H1 as (A1 & A2 & A3 & A4).
      pose proof (trim_list b0 E0 (snd_una e) fe c1 (retransmitted s)
        Hr Hu Hf ltac:(lia) ltac:(lia)) as H1.
      destruct (range_list_trim c1 _ _ _) as [l2 c2].
      destruct H1 as (B1 & B2 & B3 & B4). cbn.
      split_and!; try done; try lia. intros x Hx. split; [apply A2|apply B2]; lia.
    - cbn. rewrite !range_list_clear_count; try lia.
      2: { rewrite range_list_clear_count; lia. }
      split_and!; try done; try lia. }
  clearbody s1. revert H. destruct (degraded s1 && _); cbn; destruct (negb _ && _); done.
Qed.

(** ** ACK blocks *)

(** A block the receiver can have sent: a nonempty interval whose right edge
    is not more than 2^31 behind the end of the flight. *)
Definition block_sane (una E : Z) (b : tcp_sack_block) : Prop :=
  in_u32 (bleft b) /\ in_u32 (bright b) /\
  sdist una (bleft b) < sdist una (bright b) /\ E - 2147483648 < sdist una (bright b).

(** The block covers the byte at distance [x] from [una]. *)
Definition block_at (una x : Z) (b : tcp_sack_block) : bool :=
  (sdist una (bleft b) <=? x) && (x <? sdist una (bright b)).

Section Blocks.
Context (alloc_ok : nat -> bool) (e : sack_env) (fe : Z).
Abbreviation una := (snd_una e).
Abbreviation E := (off una fe).
Hypothesis Huna : in_u32 una.
Hypothesis Hfe : near una fe.

Lemma sdist_base : sdist una una = 0.
Proof. rewrite sdist_near by (by apply near_base). apply off_base. Qed.

(** Clipping a sane block to the flight, by serial comparisons. *)
Lemma clip_block b :
  block_sane una E b ->
  let left := if seq_lt (bleft b) una then una else bleft b in
  let right := if seq_gt (bright b) fe then fe else bright b in
  (seq_lt left right = true /\ near una left /\ near una right /\
   off una left = Z.max 0 (sdist una (bleft b)) /\
   off una right = Z.min E (sdist una (bright b)) /\ off una left < off una right) \/
  (seq_lt left right = false /\ forall x, 0 <= x < E -> block_at una x b = false).
Proof.
  intros (Hl & Hr & Hlr & Hd). cbn zeta. unfold block_at.
  pose proof (sdist_range una (bleft b)). pose proof (sdist_range una (bright b)).
  pose proof sdist_base as Hb. pose proof (sdist_near _ _ Hfe) as Ef.
  destruct (Hfe) as [_ HE]. pose proof (off_range una fe).
  unfold seq_gt.
  rewrite (seq_lt_sdist una (bleft b) una) by lia.
  rewrite (seq_lt_sdist una fe (bright b)) by lia. rewrite Hb, Ef.
  set (left := if sdist una (bleft b) <? 0 then una else bleft b).
  set (right := if E <? sdist una (bright b) then fe else bright b).
  assert (near una left /\ off una left = Z.max 0 (sdist una (bleft b))) as [Hnl El].
  { unfold left. destruct (Z.ltb_spec (sdist una (bleft b)) 0).
    - split; [by apply near_base|]. rewrite off_base. lia.
    - assert (near una (bleft b)) as Hn by (by apply sdist_pos_near).
      split; [done|]. rewrite <- (sdist_near _ _ Hn). lia. }
  assert (in_u32 right /\ sdist una right = Z.min E (sdist una (bright b))) as [Hir Er]
    by (unfold right; destruct (Z.ltb_spec E (sdist una (bright b)));
        (split; [by apply Hfe || done|lia])).
  clearbody left right.
  rewrite (seq_lt_sdist una left right) by (rewrite (sdist_near _ _ Hnl); lia).
  rewrite (sdist_near _ _ Hnl).
  destruct (Z.ltb_spec (off una left) (sdist una right)).
  - left. assert (near una right) as Hn by (apply sdist_pos_near; [done|lia]).
    rewrite <- (sdist_near _ _ Hn). split_and!; done || lia.
  - right. split; [done|]. intros x Hx. lia.
Qed.

(** The block loop: either every block went in and the byte count is the
    growth of the scoreboard, or an allocation failed and SACK is degraded. *)
Lemma update_blocks_spec i blocks newly s :
  Forall (block_sane una E) blocks -> sack_wf una E s ->
  0 <= newly -> newly + (E - rbytes una (sacked s)) < 4294967296 ->
  match update_blocks alloc_ok e fe i blocks newly s with
  | (Some n, s') =>
      exists l c, s' = with_range_count c (with_sacked l s) /\ sack_wf una E s' /\
        n = newly + (rbytes una l - rbytes una (sacked s)) /\
        rbytes una (sacked s) <= rbytes una l /\
        forall x, 0 <= x < E ->
          covers una l x = covers una (sacked s) x || existsb (block_at una x) blocks
  | (None, s') =>
      (exists l c, s' = sack_degrade (with_range_count c (with_sacked l s)) /\
         sack_wf una E (with_range_count c (with_sacked l s))) /\
      (TCP_SACK_SCORE_MAX_RANGES < range_count s + Z.of_nat (length blocks) \/
       exists j, alloc_ok j = false)
  end.
Proof.
  revert i newly s. induction blocks as [|b rest IH]; intros i newly s Hb Hwf Hn Hcap;
    cbn [update_blocks].
  - exists (sacked s), (range_count s). destruct s. cbn. split_and!; try done; try lia.
    intros x _. by rewrite orb_false_r.
  - inversion_clear Hb as [|? ? Hsane Hrest].
    destruct (clip_block b Hsane) as [(Hlt & Hnl & Hnr & El & Er & Hoo)|[Hlt Hno]].
    + set (left := if seq_lt (bleft b) una then una else bleft b) in *.
      set (right := if seq_gt (bright b) fe then fe else bright b) in *.
      rewrite Hlt. cbn [negb]. pose proof Hwf as (W1 & W2 & W3 & W4).
      destruct (Hfe) as [_ HE].
      pose proof (range_insert_spec una E (alloc_ok i) (range_count s) (sacked s) left right
        TCP_SACK_RANGE_SACKED W1 Hnl Hnr ltac:(lia)
        ltac:(unfold TCP_SACK_SCORE_MAX_RANGES in W4; lia)) as Hins.
      unfold insert_post in Hins. unfold TCP_SACK_SCORE_MAX_RANGES in *.
      destruct (range_insert _ _ _ _ _ _) as [[added l] c].
      destruct Hins as [(-> & -> & -> & Hf)|(G1 & G2 & G3 & G4 & G5 & G6 & G7)].
      * rewrite Z.eqb_refl. split; [|cbn [length]; destruct Hf; [left; lia|right; eauto]].
        exists (sacked s), (range_count s). split; [done|]. by destruct s.
      * destruct (Z.eqb_spec added UINT32_MAX) as [?|_]; [unfold UINT32_MAX in *; lia|].
        set (s1 := with_range_count c (with_sacked l s)).
        assert (sack_wf una E s1) as Hwf1.
        { unfold sack_wf, TCP_SACK_SCORE_MAX_RANGES. cbn. split_and!; try done; lia. }
        destruct (rbytes_range una E (-1) l G1) as [_ Hrb].
        rewrite u32_small by (wunfold; destruct l; [cbn in *; lia|specialize (Hrb ltac:(done)); lia]).
        assert (sacked s1 = l) as Es1 by done.
        specialize (IH (S i) (newly + added) s1 Hrest Hwf1 ltac:(lia) ltac:(rewrite Es1; lia)).
        destruct (update_blocks _ _ _ _ _ _ s1) as [[n|] s'].
        -- destruct IH as (l' & c' & -> & I1 & I2 & I3 & I4). exists l', c'.
           cbn [s1 sacked with_sacked with_range_count] in *.
           split_and!; try done; try lia.
           intros x Hx. rewrite I4, G2 by done. cbn [existsb].
           assert (block_at una x b = (off una left <=? x) && (x <? off una right)) as ->
             by (unfold block_at; rewrite El, Er; lia).
           by rewrite orb_assoc.
        -- destruct IH as [(l' & c' & -> & I1) I2]. split; [by exists l', c'|].
           cbn [length s1 range_count with_range_count] in *. destruct I2; [left; lia|by right].
    + rewrite Hlt. cbn [negb]. specialize (IH (S i) newly s Hrest Hwf Hn Hcap).
      destruct (update_blocks _ _ _ _ _ _ _) as [[n|] s'].
      * destruct IH as (l' & c' & -> & I1 & I2 & I3 & I4). exists l', c'.
        split_and!; try done. intros x Hx. rewrite I4 by done. cbn [existsb].
        by rewrite (Hno x Hx).
      * destruct IH as [I1 I2]. split; [done|]. cbn [length]. destruct I2; [left; lia|by right].
Qed.
End Blocks.

(** Leaving recovery touches neither list. *)
Lemma exit_recovery_lists e s :
  sacked (snd (exit_recovery e s)) = sacked s /\
  retransmitted (snd (exit_recovery e s)) = retransmitted s /\
  range_count (snd (exit_recovery e s)) = range_count s /\
  degraded (snd (exit_recovery e s)) = degraded s.
Proof. unfold exit_recovery. destruct (_ && _); done. Qed.

Lemma sack_wf_ext una E s s' :
  sacked s' = sacked s -> retransmitted s' = retransmitted s ->
  range_count s' = range_count s -> sack_wf una E s -> sack_wf una E s'.
Proof. unfold sack_wf. by intros -> -> ->. Qed.

Lemma degrade_wf una E s : sack_wf una E s -> sack_wf una E (sack_degrade s).
Proof.
  intros (_ & _ & H & _). unfold sack_wf, sack_degrade. cbn.
  rewrite !range_list_clear_count; [|lia|rewrite range_list_clear_count; lia].
  split_and!; try done; unfold TCP_SACK_SCORE_MAX_RANGES; lia.
Qed.

(** The bytes of a scoreboard, counted over the flight. *)
Lemma score_bytes una E l : 0 <= E -> score_ok una E l -> rbytes una l = cnt (covers una l) 0 E.
Proof. intros HE Hl. by rewrite (rbytes_cnt una E (-1) l Hl) by lia. Qed.

(** The blocks that reach the scoreboard: at most four, less a leading D-SACK. *)
Definition used_blocks (r : tcp_sack_ack_result) (blocks : list tcp_sack_block) :=
  drop (if dsack_valid r then 1 else 0)%nat (take TCP_SACK_MAX_BLOCKS blocks).

(** The acceptance phase over an already trimmed scoreboard. *)
Lemma sack_accept_spec alloc_ok e fe i blocks s :
  in_u32 (snd_una e) -> near (snd_una e) fe -> sack_wf (snd_una e) (off (snd_una e) fe) s ->
  Forall (block_sane (snd_una e) (off (snd_una e) fe)) blocks ->
  let '(n, s') := sack_accept alloc_ok e fe i blocks s in
  let accept := sack_permitted e && negb (degraded s) in
  sack_wf (snd_una e) (off (snd_una e) fe) s' /\
  ((accept = true /\ degraded s' = true /\ sacked s' = [] /\ retransmitted s' = [] /\ n = 0 /\
    (TCP_SACK_SCORE_MAX_RANGES < range_count s + Z.of_nat (length blocks) \/
     exists j, alloc_ok j = false)) \/
   ((forall x, 0 <= x < off (snd_una e) fe -> covers (snd_una e) (sacked s') x
       = covers (snd_una e) (sacked s) x
         || (accept && existsb (block_at (snd_una e) x) (drop i blocks))) /\
    n = rbytes (snd_una e) (sacked s') - rbytes (snd_una e) (sacked s))).
Proof.
  intros Huna Hnf Hwf Hb. unfold sack_accept.
  assert (seq_lt (snd_una e) fe = (0 <? off (snd_una e) fe)) as ->
    by (rewrite (seq_lt_off (snd_una e)), off_base; [done|by apply near_base|done]).
  pose proof (off_range (snd_una e) fe) as HE0.
  destruct (degraded s || _ || _) eqn:Eg.
  - split; [done|]. right. split; [|lia]. intros x Hx.
    destruct (Z.ltb_spec 0 (off (snd_una e) fe)); [|lia].
    destruct (degraded s), (sack_permitted e); cbn in *; try done; by rewrite orb_false_r.
  - apply orb_false_iff in Eg as [Eg _]. apply orb_false_iff in Eg as [Eg1 Eg2]. bprop.
    pose proof Hwf as (W1 & _).
    assert (0 <= rbytes (snd_una e) (sacked s)) by (by apply (rbytes_range _ _ _ _ W1)).
    pose proof (update_blocks_spec alloc_ok e fe Huna Hnf i (drop i blocks) 0 s
      ltac:(by apply Forall_drop) Hwf ltac:(lia) ltac:(lia)) as Hup.
    rewrite length_drop in Hup.
    destruct (update_blocks _ _ _ _ _ _ _) as [[n|] s2]; cbv zeta; rewrite Eg1, Eg2.
    + destruct Hup as (l & c & -> & U1 & U2 & U3 & U4). split; [done|]. right. by split.
    + destruct Hup as [(l & c & -> & U1) U2]. split; [by apply degrade_wf|]. left.
      split_and!; try done. destruct U2; [left; lia|by right].
Qed.


(** A scoreboard of one range, an ACK that moves the flight up by 100 bytes
    and brings two blocks across the wrap of the sequence space: the first
    extends the range by 50 bytes. *)
Definition update_demo : tcp_sack_state :=
  with_range_count 1 (with_sacked [mk_range 4294967196 0 1] (tcp_sack_state_init 4294966996)).

Definition update_demo_env : sack_env := mk_senv 4294967096 100 true.
Definition update_demo_blocks : list tcp_sack_block :=
  [mk_block 4294967246 50; mk_block 4294967096 0].

Example update_demo_result :
  let '(r, s') := tcp_sack_update (fun _ => true) update_demo_env 4294967096
                    update_demo_blocks 1000 update_demo in
  newly_sacked_bytes r = 150 /\ sacked s' = [mk_range 4294967096 50 1].
Proof. vm_compute. done. Qed.


(** ** Blocks from outside the flight

    [block_sane] is needed: the code tests each edge of a block only against
    the nearer edge of the flight.  A block that starts just below 2^31 above
    [snd_una] and ends just behind it passes the parser's own check (its right
    edge is serially after its left edge) and both clips, and enters the
    scoreboard although it lies outside the flight of 1000 bytes. *)
Definition wild_block : tcp_sack_block := mk_block 2147484647 995.

(** A SACK block whose edges lie almost half the sequence space apart is
    not clipped to the flight: it passes the parser's order check and both
    clips, enters the scoreboard outside the flight of 1000 bytes and is
    counted as 2147483644 newly SACKed bytes on top of the 100 of the genuine
    block. *)
Lemma wild_block_escapes_flight :
  let e := mk_senv 1000 1460 true in
  let '(r, s') := tcp_sack_update (fun _ => true) e 1000 [mk_block 1500 1600; wild_block] 2000
                    (tcp_sack_state_init 1000) in
  seq_gt (bright wild_block) (bleft wild_block) = true /\
  sacked s' = [mk_range 1500 1600 1; mk_range 2147484647 995 1] /\
  newly_sacked_bytes r = 2147483744 /\ ~ sack_wf 1000 (off 1000 2000) s'.
Proof.
  cbv zeta. destruct (tcp_sack_update _ _ _ _ _ _) as [r s'] eqn:E.
  vm_compute in E. injection E as <- <-. split_and!; try done.
  intros (H & _). cbn in H. unfold off in H. destruct H as (_ & _ & _ & _ & H1 & H2 & H3 & H4 & _).
  revert H4. vm_compute. intros [_ H]. by apply H.
Qed.
