(* ===== verification/TcpSackNextSeg.v ===== *)
(** * NextSeg (facts on TcpSack.v)

    What [tcp_sack_schedule_next] may choose: the lowest hole by rule 1, new
    data by rule 2, the remaining holes by rules 3 and 4, never a byte that is
    already SACKed and never more than one SMSS. *)

From S2P Require Import Prelude Config SeqNum SackRange TcpSack TcpSackPipe TcpSackUpdate.

Section Holes.
Context (base E : Z).
Abbreviation o := (off base).

(** The interval [a, b) is unSACKed and lies in [lo, hi). *)
Definition hole_in (l : list tcp_sack_range) (lo hi a b : Z) : Prop :=
  near base a /\ near base b /\ lo <= o a /\ o a < o b <= hi /\
  forall x, o a <= x < o b -> covers base l x = false.

Lemma hole_in_cons r l lo hi a b :
  hole_in l lo hi a b -> o (rright r) <= o a -> hole_in (r :: l) lo hi a b.
Proof.
  intros (H1 & H2 & H3 & H4 & H5) Hr. split_and!; try done; try lia.
  intros x Hx. rewrite covers_cons, H5 by done. unfold in_range. lia.
Qed.

Lemma find_unsacked_spec lo l cursor right :
  ranges_ok base E lo l -> near base cursor -> near base right ->
  match find_unsacked l cursor right with
  | Some (a, b) =>
      hole_in l (o cursor) (o right) a b /\
      forall x, o cursor <= x < o a -> covers base l x = true
  | None => forall x, o cursor <= x < o right -> covers base l x = true
  end.
Proof.
  intros Hok Hc Hr. revert lo cursor Hok Hc.
  induction l as [|r t IH]; intros lo cursor Hok Hc; cbn [find_unsacked];
    rewrite (seq_lt_off base _ _ Hc Hr).
  - destruct (Z.ltb_spec (o cursor) (o right)); [|intros x Hx; lia].
    split; [split_and!; done || lia|intros x Hx; lia].
  - destruct (Z.ltb_spec (o cursor) (o right)); [|intros x Hx; lia].
    cbn [ranges_ok] in Hok. destruct Hok as (Hl & Hrr & H1 & H2 & Hok).
    rewrite (seq_lt_off base _ _ Hrr Hc), (seq_lt_off base _ _ Hc Hl),
      (seq_gt_off base _ _ Hrr Hc).
    destruct (Z.ltb_spec (o cursor) (o (rleft r))).
    + destruct (Z.ltb_spec (o (rright r)) (o cursor)); [lia|]. cbn [negb andb].
      destruct (seq_min_off base (rleft r) right Hl Hr) as [Em Hm].
      split; [|intros x Hx; lia]. split_and!; try done; try lia.
      intros x Hx. rewrite covers_cons, (covers_below base E _ t x Hok) by lia.
      unfold in_range. lia.
    + rewrite andb_false_r.
      destruct (Z.ltb_spec (o cursor) (o (rright r))).
      * specialize (IH _ (rright r) Hok Hrr). destruct (find_unsacked t _ _) as [[a b]|].
        -- destruct IH as [I1 I2]. pose proof I1 as (_ & _ & I3 & _). split.
           ++ apply hole_in_cons; [|lia]. destruct I1 as (? & ? & ? & ? & ?).
              split_and!; done || lia.
           ++ intros x Hx. rewrite covers_cons. unfold in_range.
              destruct (decide (x < o (rright r))); [lia|]. rewrite I2 by lia. apply orb_true_r.
        -- intros x Hx. rewrite covers_cons. unfold in_range.
           destruct (decide (x < o (rright r))); [lia|]. rewrite IH by lia. apply orb_true_r.
      * specialize (IH _ cursor Hok Hc). destruct (find_unsacked t _ _) as [[a b]|].
        -- destruct IH as [I1 I2]. pose proof I1 as (_ & _ & I3 & _). split.
           ++ apply hole_in_cons; [done|lia].
           ++ intros x Hx. rewrite covers_cons, I2 by done. apply orb_true_r.
        -- intros x Hx. rewrite covers_cons, IH by done. apply orb_true_r.
Qed.

Lemma find_highest_spec lo l cursor right found :
  ranges_ok base E lo l -> near base cursor -> near base right ->
  match find_highest_unsacked l cursor right found with
  | Some (a, b) => hole_in l (o cursor) (o right) a b \/ found = Some (a, b)
  | None => found = None /\ forall x, o cursor <= x < o right -> covers base l x = true
  end.
Proof.
  intros Hok Hc Hr. revert lo cursor found Hok Hc.
  induction l as [|r t IH]; intros lo cursor found Hok Hc; cbn [find_highest_unsacked];
    rewrite (seq_lt_off base _ _ Hc Hr).
  - destruct (Z.ltb_spec (o cursor) (o right)).
    + left. split_and!; done || lia.
    + destruct found as [[a b]|]; [auto|]. split; [done|lia].
  - destruct (Z.ltb_spec (o cursor) (o right));
      [|destruct found as [[a b]|]; [auto|split; [done|lia]]].
    cbn [ranges_ok] in Hok. destruct Hok as (Hl & Hrr & H1 & H2 & Hok).
    rewrite (seq_lt_off base _ _ Hc Hl), (seq_gt_off base _ _ Hrr Hc).
    destruct (seq_min_off base (rleft r) right Hl Hr) as [Em Hm].
    set (found' := if o cursor <? o (rleft r) then Some (cursor, seq_min (rleft r) right) else found).
    set (cursor' := if o cursor <? o (rright r) then rright r else cursor).
    assert (near base cursor' /\ o cursor' = Z.max (o cursor) (o (rright r))) as [Hc' Ec]
      by (unfold cursor'; by_cmp).
    specialize (IH (o (rright r)) cursor' found' Hok Hc').
    destruct (find_highest_unsacked t cursor' right found') as [[a b]|].
    + destruct IH as [(I1 & I2 & I3 & I4 & I5)|I].
      * left. apply hole_in_cons; [split_and!; done || lia|lia].
      * unfold found' in I. destruct (Z.ltb_spec (o cursor) (o (rleft r))); [|auto].
        injection I as <- <-. left. split_and!; try done; try lia.
        intros x Hx. rewrite covers_cons, (covers_below base E _ t x Hok) by lia. unfold in_range. lia.
    + destruct IH as [I1 I2]. unfold found' in I1.
      destruct (Z.ltb_spec (o cursor) (o (rleft r))); [done|]. split; [done|].
      intros x Hx. rewrite covers_cons. unfold in_range.
      destruct (decide (x < o (rright r))); [lia|]. rewrite I2 by lia. apply orb_true_r.
Qed.

(** The greatest right edge bounds everything the list covers. *)
Lemma highest_sacked_spec lo l h :
  ranges_ok base E lo l -> near base h -> o h <= E ->
  let top := foldl (fun h r => if seq_gt (rright r) h then rright r else h) h l in
  near base top /\ o h <= o top <= E /\ forall x, covers base l x = true -> x < o top.
Proof.
  revert lo h. induction l as [|r t IH]; intros lo h Hok Hh HhE; cbn [foldl].
  - split_and!; try done; lia.
  - cbn [ranges_ok] in Hok. destruct Hok as (Hl & Hr & H1 & H2 & Hok).
    rewrite (seq_gt_off base _ _ Hr Hh).
    set (h' := if o h <? o (rright r) then rright r else h).
    assert (near base h' /\ o h' = Z.max (o h) (o (rright r))) as [Hh' Eh]
      by (unfold h'; by_cmp). clearbody h'.
    destruct (IH _ h' Hok Hh' ltac:(lia)) as (I1 & I2 & I3). split_and!; try done; try lia.
    intros x. rewrite covers_cons. unfold in_range. destruct (covers base t x) eqn:Ex; [|lia].
    intros _. by apply I3.
Qed.
End Holes.

Section NextSeg.
Context (e : sack_env) (s : tcp_sack_state) (sndbuf_end : Z).
Abbreviation una := (snd_una e).
Abbreviation o := (off una).
Hypothesis Huna : in_u32 una.
Hypothesis Hmss : in_u16 (snd_mss e).
Hypothesis Hhd : near una (high_data s).
Hypothesis Hse : near una sndbuf_end.
Hypothesis Hwf : sack_wf una (o (high_data s)) s.
Hypothesis Hrx : in_u32 (high_rxt s) /\ -2147483648 < sdist una (high_rxt s).

(** Where rules 1 and 3 start looking: above HighRxt, not below the flight. *)
Definition scan_from : Z := Z.max 0 (sdist una (high_rxt s)).

(** What a scheduled candidate must satisfy. *)
Definition candidate_ok (allow_new_data : bool) (c : tcp_recovery_candidate) : Prop :=
  near una (cseq c) /\ near una (cend c) /\
  o (cseq c) < o (cend c) /\ o (cend c) - o (cseq c) <= smss e /\
  match kind c with
  | TCP_RECOVERY_TX_NONE => False
  | TCP_RECOVERY_TX_NEW_DATA =>
      allow_new_data = true /\ nextseg_rule c = 2 /\ rescue c = false /\
      cseq c = high_data s /\ o (cend c) <= o sndbuf_end
  | TCP_RECOVERY_TX_RETRANSMIT =>
      o (cend c) <= o (high_data s) /\ (rescue c = true <-> nextseg_rule c = 4) /\
      (forall x, o (cseq c) <= x < o (cend c) -> covers una (sacked s) x = false) /\
      (mode s = TCP_RECOVERY_SACK -> nextseg_rule c = 1 ->
         lost_pos e s (o (cseq c)) = true)
  end.

Lemma candidate_set_ok k rule resc seq end_ :
  near una seq -> near una end_ -> o seq < o end_ ->
  exists end', candidate_set e k rule resc seq end_ s
      = (true, with_pending (mk_cand k rule resc seq end') s) /\
    near una end' /\ o end' = Z.min (o end_) (o seq + smss e).
Proof.
  intros Hs He Hlt. unfold candidate_set.
  rewrite (seq_lt_off una _ _ Hs He). destruct (Z.ltb_spec (o seq) (o end_)); [|lia].
  cbn [negb]. rewrite (off_sub una _ _ Hs He) by lia.
  pose proof (smss_bounds e Hmss) as Hb.
  destruct (Z.ltb_spec (smss e) (o end_ - o seq)).
  - destruct (near_add una seq (smss e) Hs) as [Hn En]; [lia|destruct He; lia|].
    eexists. split; [done|]. split; [done|lia].
  - eexists. split; [done|]. split; [done|lia].
Qed.

(** Any hole of the flight gives a legal retransmission. *)
Lemma retransmit_ok allow rule resc a b lo hi :
  hole_in una (sacked s) lo hi a b -> hi <= o (high_data s) ->
  (resc = true <-> rule = 4) ->
  (mode s = TCP_RECOVERY_SACK -> rule = 1 -> lost_pos e s (o a) = true) ->
  exists c, candidate_set e TCP_RECOVERY_TX_RETRANSMIT rule resc a b s
      = (true, with_pending c s) /\ candidate_ok allow c /\
      kind c = TCP_RECOVERY_TX_RETRANSMIT /\ nextseg_rule c = rule /\ cseq c = a.
Proof.
  intros (H1 & H2 & H3 & H4 & H5) Hhi Hresc Hlost.
  destruct (candidate_set_ok TCP_RECOVERY_TX_RETRANSMIT rule resc a b) as (end' & -> & N & En);
    try done; try lia.
  pose proof (smss_bounds e Hmss).
  eexists. split; [done|]. split; [|done]. unfold candidate_ok; cbn.
  split_and!; try done; try lia. intros x Hx. apply H5. lia.
Qed.

Lemma scan_start :
  let left := if seq_gt (high_rxt s) una then high_rxt s else una in
  near una left /\ o left = scan_from.
Proof.
  cbn zeta. destruct Hrx as [Hrx1 Hrx2]. unfold seq_gt, scan_from. pose proof (sdist_range una (high_rxt s)) as Hr.
  rewrite (seq_lt_sdist una una (high_rxt s)) by (rewrite (sdist_base e Huna); lia).
  rewrite (sdist_base e Huna). destruct (Z.ltb_spec 0 (sdist una (high_rxt s))).
  - assert (near una (high_rxt s)) as Hn by (apply sdist_pos_near; [done|lia]).
    split; [done|]. rewrite <- (sdist_near _ _ Hn). lia.
  - split; [by apply near_base|]. rewrite off_base. lia.
Qed.

Lemma flight_lost seq :
  near una seq -> tcp_sack_is_lost e s seq = lost_pos e s (o seq).
Proof.
  intros Hn. pose proof (off_range una (high_data s)).
  apply (is_lost_pos e s (o (high_data s))); try done; try apply Hwf.
  destruct Hhd. lia.
Qed.

(** The hole scan: it stops at the first hole, since no later hole can be lost
    when the first is not; so one round of fuel already decides it. *)
Lemma first_lost_hole_spec n left highest :
  near una left -> near una highest ->
  match first_lost_hole (S n) e s left highest with
  | Some (a, b) =>
      find_unsacked (sacked s) left highest = Some (a, b) /\ lost_pos e s (o a) = true
  | None => forall x, o left <= x < o highest ->
      covers una (sacked s) x = false -> lost_pos e s x = false
  end.
Proof.
  revert left. induction n as [|n IH]; intros left Hl Hh; cbn [first_lost_hole];
    pose proof (find_unsacked_spec una (o (high_data s)) (-1) (sacked s) left highest
                  (proj1 Hwf) Hl Hh) as Hf;
    destruct (find_unsacked (sacked s) left highest) as [[a b]|];
    try (intros x Hx Hc; rewrite Hf in Hc by done; done);
    destruct Hf as [Hole Hcov]; pose proof Hole as (Na & Nb & _);
    rewrite (flight_lost a Na);
    (destruct (lost_pos e s (o a)) eqn:El; [done|]).
  - intros x Hx Hc. destruct (lost_pos e s x) eqn:Ex; [|done].
    destruct (decide (x < o a)); [rewrite Hcov in Hc by lia; done|].
    assert (lost_pos e s (o a) = true) by (eapply lost_antitone; [|exact Ex]; lia). congruence.
  - specialize (IH b Nb Hh). destruct Hole as (_ & _ & _ & Hab & _).
    assert (forall x, o a <= x -> lost_pos e s x = false) as Hno.
    { intros x Hx. destruct (lost_pos e s x) eqn:Ex; [|done].
      assert (lost_pos e s (o a) = true) by (eapply lost_antitone; [|exact Ex]; lia). congruence. }
    assert (first_lost_hole (S n) e s b highest = None) as Hnone.
    { destruct (first_lost_hole (S n) e s b highest) as [[a' b']|]; [|done].
      destruct IH as [Hfu Hlo].
      pose proof (find_unsacked_spec una (o (high_data s)) (-1) (sacked s) b highest
                    (proj1 Hwf) Nb Hh) as Hf. rewrite Hfu in Hf.
      destruct Hf as [(_ & _ & Hba & _) _]. rewrite Hno in Hlo by lia. done. }
    change (match first_lost_hole (S n) e s b highest with
            | Some (a0, b0) => Some (a, b) = Some (a0, b0) /\ lost_pos e s (o a0) = true
            | None => forall x, o left <= x < o highest ->
                covers una (sacked s) x = false -> lost_pos e s x = false end).
    rewrite Hnone. intros x Hx Hc.
    destruct (decide (x < o a)); [rewrite Hcov in Hc by lia; done|]. apply Hno. lia.
Qed.

Lemma new_data_ok allow :
  allow = true -> o (high_data s) < o sndbuf_end ->
  exists c, candidate_set e TCP_RECOVERY_TX_NEW_DATA 2 false (high_data s) sndbuf_end s
      = (true, with_pending c s) /\ candidate_ok allow c /\ nextseg_rule c = 2.
Proof.
  intros Ha Hlt.
  destruct (candidate_set_ok TCP_RECOVERY_TX_NEW_DATA 2 false (high_data s) sndbuf_end Hhd Hse Hlt)
    as (end' & -> & N & En).
  pose proof (smss_bounds e Hmss). eexists. split; [done|]. split; [|done].
  unfold candidate_ok; cbn. split_and!; try done; lia.
Qed.

Lemma top_spec :
  near una (highest_sacked e s) /\ o (highest_sacked e s) <= o (high_data s).
Proof.
  unfold highest_sacked.
  destruct (highest_sacked_spec una (o (high_data s)) (-1) (sacked s) una)
    as (H1 & H2 & _); [apply Hwf|by apply near_base|rewrite off_base; apply off_range|].
  split; [done|lia].
Qed.

Lemma hole_search left right :
  near una left -> near una right -> o right <= o (high_data s) ->
  match find_unsacked (sacked s) left right with
  | Some (a, b) => hole_in una (sacked s) (o left) (o right) a b
  | None => True
  end.
Proof.
  intros Hl Hr _. pose proof (find_unsacked_spec una (o (high_data s)) (-1) (sacked s) left right
    (proj1 Hwf) Hl Hr) as H. destruct (find_unsacked _ _ _) as [[a b]|]; [apply H|done].
Qed.

(** The rescue segment: the last SMSS of the highest hole. *)
Lemma rescue_ok allow a b lo hi :
  hole_in una (sacked s) lo hi a b -> hi <= o (high_data s) ->
  let start := if smss e <? u32 (b - a) then u32 (b - smss e) else a in
  exists c, candidate_set e TCP_RECOVERY_TX_RETRANSMIT 4 true start b s
      = (true, with_pending c s) /\ candidate_ok allow c.
Proof.
  intros Hole Hhi. pose proof Hole as (H1 & H2 & H3 & H4 & H5). cbn zeta.
  pose proof (smss_bounds e Hmss) as Hb. pose proof (off_range una a) as Ha.
  rewrite (off_sub una a b H1 H2) by lia.
  assert (hole_in una (sacked s) lo hi
    (if smss e <? o b - o a then u32 (b - smss e) else a) b) as Hole'.
  { destruct (Z.ltb_spec (smss e) (o b - o a)); [|done].
    destruct (near_add una a (o b - o a - smss e) H1) as [Hn En]; [lia|destruct H2; lia|].
    assert (u32 (b - smss e) = u32 (a + (o b - o a - smss e))) as ->
      by (unfold off in *; destruct H1, H2; warith).
    split_and!; try done; try lia. intros x Hx. apply H5. lia. }
  destruct (retransmit_ok allow 4 true _ b lo hi Hole' Hhi ltac:(done) ltac:(done))
    as (c & E1 & E2 & _). by exists c.
Qed.

Lemma schedule_sound allow s' :
  pending s = no_candidate ->
  tcp_sack_schedule_next e sndbuf_end allow s = (true, s') ->
  exists c, s' = with_pending c s /\ candidate_ok allow c.
Proof.
  intros Hp. unfold tcp_sack_schedule_next. rewrite Hp. cbn [kind no_candidate].
  rewrite bool_decide_eq_true_2 by done. cbn [negb].
  destruct top_spec as [Ht1 Ht2]. destruct scan_start as [Hs1 Hs2].
  assert (near una una) as Hnu by (by apply near_base).
  destruct (degraded s); [done|].
  destruct (mode s) eqn:Em; try done.
  - pose proof (first_lost_hole_spec (S (length (sacked s))) _ _ Hs1 Ht1) as Hf.
    pose proof (hole_search _ _ Hs1 Ht1 Ht2) as Hh.
    destruct (first_lost_hole _ _ _ _ _) as [[a b]|].
    { destruct Hf as [Hf Hlost]. rewrite Hf in Hh.
      destruct (retransmit_ok allow 1 false a b _ _ Hh Ht2 ltac:(done) ltac:(done)) as (c & -> & Hc & _).
      intros [= <-]. eauto. }
    rewrite (seq_lt_off una _ _ Hhd Hse).
    destruct (allow && _) eqn:Ea.
    { bprop. destruct (new_data_ok allow) as (c & -> & Hc & _); try done. intros [= <-]. eauto. }
    destruct (find_unsacked _ _ _) as [[a b]|].
    { destruct (retransmit_ok allow 3 false a b _ _ Hh Ht2 ltac:(done) ltac:(done)) as (c & -> & Hc & _).
      intros [= <-]. eauto. }
    destruct (negb _); [|done].
    pose proof (find_highest_spec una (o (high_data s)) (-1) (sacked s) una (high_data s) None
      (proj1 Hwf) Hnu Hhd) as Hg.
    destruct (find_highest_unsacked _ _ _ _) as [[a b]|]; [|done].
    destruct Hg as [Hg|]; [|done].
    destruct (rescue_ok allow a b _ _ Hg ltac:(lia)) as (c & -> & Hc). intros [= <-]. eauto.
  - pose proof (hole_search _ _ Hnu Hhd ltac:(lia)) as Hh.
    destruct (find_unsacked _ _ _) as [[a b]|]; [|done].
    destruct (retransmit_ok allow 1 false a b _ _ Hh ltac:(lia) ltac:(done)) as (c & -> & Hc & _);
      [by rewrite Em|]. intros [= <-]. eauto.
Qed.

Lemma schedule_rule1 allow x :
  pending s = no_candidate -> degraded s = false -> mode s = TCP_RECOVERY_SACK ->
  scan_from <= x < o (highest_sacked e s) ->
  covers una (sacked s) x = false -> lost_pos e s x = true ->
  exists c, tcp_sack_schedule_next e sndbuf_end allow s = (true, with_pending c s) /\
    candidate_ok allow c /\ nextseg_rule c = 1 /\
    scan_from <= o (cseq c) <= x /\
    forall y, scan_from <= y < o (cseq c) -> covers una (sacked s) y = true.
Proof.
  intros Hp Hd Hm Hx Hc Hl. unfold tcp_sack_schedule_next. rewrite Hp, Hd, Hm. cbn [kind no_candidate].
  rewrite bool_decide_eq_true_2 by done. cbn [negb].
  destruct top_spec as [Ht1 Ht2]. destruct scan_start as [Hs1 Hs2].
  pose proof (first_lost_hole_spec (S (length (sacked s))) _ _ Hs1 Ht1) as Hf.
  pose proof (find_unsacked_spec una (o (high_data s)) (-1) (sacked s) _ _ (proj1 Hwf) Hs1 Ht1) as Hh.
  destruct (first_lost_hole _ _ _ _ _) as [[a b]|].
  - destruct Hf as [Hf Hlost]. rewrite Hf in Hh. destruct Hh as [Hh Hcov].
    destruct (retransmit_ok allow 1 false a b _ _ Hh Ht2 ltac:(done) ltac:(done))
      as (c & -> & Hok & _ & Hr & Hs). exists c. rewrite Hs. rewrite Hs2 in *.
    pose proof Hh as (_ & _ & ? & _). split_and!; try done.
    destruct (decide (o a <= x)); [done|]. rewrite Hcov in Hc by lia. done.
  - rewrite Hf in Hl; [done|lia|done].
Qed.
End NextSeg.

(** C31: every candidate [tcp_sack_schedule_next] installs is legal.  It is a
    nonempty segment of at most one SMSS; a retransmission stays inside the
    flight and contains no SACKed byte, a rule-1 choice of SACK recovery starts
    at a byte IsLost declares lost, only rule 4 is a rescue; new data starts at
    HighData, stays inside the send buffer and needs the caller's permission.
    Nothing but the pending slot changes. *)
Theorem next_seg_sound e s sndbuf_end allow s'
  (Huna : in_u32 (snd_una e)) (Hmss : in_u16 (snd_mss e))
  (Hhd : near (snd_una e) (high_data s)) (Hse : near (snd_una e) sndbuf_end)
  (Hwf : sack_wf (snd_una e) (off (snd_una e) (high_data s)) s)
  (Hrx : in_u32 (high_rxt s) /\ -2147483648 < sdist (snd_una e) (high_rxt s))
  (Hp : pending s = no_candidate)
  (Hrun : tcp_sack_schedule_next e sndbuf_end allow s = (true, s')) :
  exists c, s' = with_pending c s /\ candidate_ok e s sndbuf_end allow c.
Proof. by apply schedule_sound. Qed.

(** NextSeg rule 1 is complete.  In SACK recovery, whenever some byte
    above HighRxt and below the highest SACKed byte is unSACKed and lost, the
    scheduler answers with rule 1, and the candidate starts at the lowest
    unSACKed byte of that region. *)
Theorem next_seg_rule1 e s sndbuf_end allow x
  (Huna : in_u32 (snd_una e)) (Hmss : in_u16 (snd_mss e))
  (Hhd : near (snd_una e) (high_data s))
  (Hwf : sack_wf (snd_una e) (off (snd_una e) (high_data s)) s)
  (Hrx : in_u32 (high_rxt s) /\ -2147483648 < sdist (snd_una e) (high_rxt s))
  (Hp : pending s = no_candidate) (Hd : degraded s = false)
  (Hm : mode s = TCP_RECOVERY_SACK)
  (Hx : scan_from e s <= x < off (snd_una e) (highest_sacked e s))
  (Hc : covers (snd_una e) (sacked s) x = false) (Hl : lost_pos e s x = true) :
  exists c, tcp_sack_schedule_next e sndbuf_end allow s = (true, with_pending c s) /\
    candidate_ok e s sndbuf_end allow c /\ nextseg_rule c = 1 /\
    scan_from e s <= off (snd_una e) (cseq c) <= x /\
    forall y, scan_from e s <= y < off (snd_una e) (cseq c) ->
      covers (snd_una e) (sacked s) y = true.
Proof. by apply schedule_rule1. Qed.

(** Three SACKed ranges above a hole across the wrap of the sequence space. *)
Definition next_demo_env : sack_env := mk_senv 4294967196 60 true.
Definition next_demo : tcp_sack_state :=
  with_range_count 3 (with_sacked [mk_range 0 100 1; mk_range 200 300 1; mk_range 400 500 1]
    (with_high_data 900 (with_mode TCP_RECOVERY_SACK (tcp_sack_state_init 4294967196)))).
Definition next_demo_cand : tcp_recovery_candidate :=
  mk_cand TCP_RECOVERY_TX_RETRANSMIT 1 false 4294967196 4294967256.

Lemma next_demo_facts :
  in_u32 (snd_una next_demo_env) /\ in_u16 (snd_mss next_demo_env) /\
  near (snd_una next_demo_env) (high_data next_demo) /\
  sack_wf (snd_una next_demo_env) (off (snd_una next_demo_env) (high_data next_demo)) next_demo /\
  in_u32 (high_rxt next_demo) /\
  -2147483648 < sdist (snd_una next_demo_env) (high_rxt next_demo).
Proof. repeat split; vm_compute; congruence. Qed.

Lemma next_seg_sound_witness :
  candidate_ok next_demo_env next_demo 900 true next_demo_cand.
Proof.
  destruct next_demo_facts as (H1 & H2 & H3 & H4 & H5 & H6).
  destruct (next_seg_sound next_demo_env next_demo 900 true (with_pending next_demo_cand next_demo)
    H1 H2 H3 H3 H4 (conj H5 H6) eq_refl ltac:(vm_compute; reflexivity)) as (c & Hc & Hok).
  assert (next_demo_cand = c) as ->
    by exact (f_equal pending Hc). exact Hok.
Defined.

Lemma next_seg_rule1_witness :
  exists c, tcp_sack_schedule_next next_demo_env 900 true next_demo = (true, with_pending c next_demo)
    /\ nextseg_rule c = 1.
Proof.
  destruct next_demo_facts as (H1 & H2 & H3 & H4 & H5 & H6).
  destruct (next_seg_rule1 next_demo_env next_demo 900 true 20 H1 H2 H3 H4 (conj H5 H6)
    eq_refl eq_refl eq_refl ltac:(split; vm_compute; congruence) ltac:(vm_compute; reflexivity)
    ltac:(vm_compute; reflexivity)) as (c & Hc & _ & Hr & _).
  exists c. split; [exact Hc|exact Hr].
Defined.
