(* ===== verification/TcpOptions.v ===== *)
(** * TCP options (pro-stack/tcp_options.c)

    Wire encoding, parsing and per-stream negotiation.  Bytes are [Z] in
    [0, 256); a parsed or emitted option area is a list of bytes.  The stream
    fields the module uses are [tcp_opt_state]; arrays with a count are the
    list of their valid entries ([sack_history], [rx_sacks]).  The Timestamp
    clock is the argument [now]. *)

From S2P Require Import Prelude Config SeqNum SackRange TcpSack.

Definition TCP_OPT_EOL : Z := 0.
Definition TCP_OPT_NOP : Z := 1.
Definition TCP_OPT_MSS : Z := 2.
Definition TCP_OPT_WSCALE : Z := 3.
Definition TCP_OPT_SACK_PERMITTED : Z := 4.
Definition TCP_OPT_SACK : Z := 5.
Definition TCP_OPT_TIMESTAMP : Z := 8.
Definition TCP_MIN_MSS : Z := 536.
Definition TCP_WSCALE_MAX : Z := 14.
Definition TCP_PAWS_IDLE_MS : Z := 24 * 24 * 60 * 60 * 1000.
Definition RTE_TCP_SYN_FLAG : Z := 2.
Definition RTE_TCP_ACK_FLAG : Z := 16.

(** [hdr->tcp_flags & FLAG] as a condition. *)
Definition has_flag (flags f : Z) : bool := negb (Z.land flags f =? 0).

(** ** Data *)

Record tcp_opt_state := mk_opt {
  timestamps_ok : bool;
  ts_recent : Z;
  ts_recent_valid : bool;
  ts_recent_age_ms : Z;
  ts_last_val : Z;
  rx_timestamp_present : bool;
  rx_tsval : Z;
  rx_tsecr : Z;
  sack_local_offered : bool;
  sack_peer_permitted : bool;
  sack_permitted : bool;
  sack_recent_valid : bool;
  sack_recent : tcp_sack_block;
  sack_history : list tcp_sack_block;
  dsack_pending : bool;
  dsack_block : tcp_sack_block;
  rx_sacks : list tcp_sack_block;
  fin_deferred : bool;
  snd_mss : Z;
  snd_wscale : Z;
  wscale_ok : bool;
  rcv_wscale : Z;
  recv_ack : Z;
  snd_una : Z;
  ofo : list (Z * Z);
  sack : tcp_sack_state
}.

Definition with_timestamps_ok (v : bool) (s : tcp_opt_state) : tcp_opt_state :=
  mk_opt v (ts_recent s) (ts_recent_valid s) (ts_recent_age_ms s)
   (ts_last_val s) (rx_timestamp_present s) (rx_tsval s) (rx_tsecr s)
   (sack_local_offered s) (sack_peer_permitted s) (sack_permitted s)
   (sack_recent_valid s) (sack_recent s) (sack_history s) (dsack_pending s)
   (dsack_block s) (rx_sacks s) (fin_deferred s) (snd_mss s) (snd_wscale s)
   (wscale_ok s) (rcv_wscale s) (recv_ack s) (snd_una s) (ofo s) (sack s) .
Definition with_ts_recent (v : Z) (s : tcp_opt_state) : tcp_opt_state :=
  mk_opt (timestamps_ok s) v (ts_recent_valid s) (ts_recent_age_ms s)
   (ts_last_val s) (rx_timestamp_present s) (rx_tsval s) (rx_tsecr s)
   (sack_local_offered s) (sack_peer_permitted s) (sack_permitted s)
   (sack_recent_valid s) (sack_recent s) (sack_history s) (dsack_pending s)
   (dsack_block s) (rx_sacks s) (fin_deferred s) (snd_mss s) (snd_wscale s)
   (wscale_ok s) (rcv_wscale s) (recv_ack s) (snd_una s) (ofo s) (sack s) .
Definition with_ts_recent_valid (v : bool) (s : tcp_opt_state) : tcp_opt_state :=
  mk_opt (timestamps_ok s) (ts_recent s) v (ts_recent_age_ms s)
   (ts_last_val s) (rx_timestamp_present s) (rx_tsval s) (rx_tsecr s)
   (sack_local_offered s) (sack_peer_permitted s) (sack_permitted s)
   (sack_recent_valid s) (sack_recent s) (sack_history s) (dsack_pending s)
   (dsack_block s) (rx_sacks s) (fin_deferred s) (snd_mss s) (snd_wscale s)
   (wscale_ok s) (rcv_wscale s) (recv_ack s) (snd_una s) (ofo s) (sack s) .
Definition with_ts_recent_age_ms (v : Z) (s : tcp_opt_state) : tcp_opt_state :=
  mk_opt (timestamps_ok s) (ts_recent s) (ts_recent_valid s) v
   (ts_last_val s) (rx_timestamp_present s) (rx_tsval s) (rx_tsecr s)
   (sack_local_offered s) (sack_peer_permitted s) (sack_permitted s)
   (sack_recent_valid s) (sack_recent s) (sack_history s) (dsack_pending s)
   (dsack_block s) (rx_sacks s) (fin_deferred s) (snd_mss s) (snd_wscale s)
   (wscale_ok s) (rcv_wscale s) (recv_ack s) (snd_una s) (ofo s) (sack s) .
Definition with_ts_last_val (v : Z) (s : tcp_opt_state) : tcp_opt_state :=
  mk_opt (timestamps_ok s) (ts_recent s) (ts_recent_valid s)
   (ts_recent_age_ms s) v (rx_timestamp_present s) (rx_tsval s) (rx_tsecr s)
   (sack_local_offered s) (sack_peer_permitted s) (sack_permitted s)
   (sack_recent_valid s) (sack_recent s) (sack_history s) (dsack_pending s)
   (dsack_block s) (rx_sacks s) (fin_deferred s) (snd_mss s) (snd_wscale s)
   (wscale_ok s) (rcv_wscale s) (recv_ack s) (snd_una s) (ofo s) (sack s) .
Definition with_rx_timestamp_present (v : bool) (s : tcp_opt_state) : tcp_opt_state :=
  mk_opt (timestamps_ok s) (ts_recent s) (ts_recent_valid s)
   (ts_recent_age_ms s) (ts_last_val s) v (rx_tsval s) (rx_tsecr s)
   (sack_local_offered s) (sack_peer_permitted s) (sack_permitted s)
   (sack_recent_valid s) (sack_recent s) (sack_history s) (dsack_pending s)
   (dsack_block s) (rx_sacks s) (fin_deferred s) (snd_mss s) (snd_wscale s)
   (wscale_ok s) (rcv_wscale s) (recv_ack s) (snd_una s) (ofo s) (sack s) .
Definition with_rx_tsval (v : Z) (s : tcp_opt_state) : tcp_opt_state :=
  mk_opt (timestamps_ok s) (ts_recent s) (ts_recent_valid s)
   (ts_recent_age_ms s) (ts_last_val s) (rx_timestamp_present s) v
   (rx_tsecr s) (sack_local_offered s) (sack_peer_permitted s)
   (sack_permitted s) (sack_recent_valid s) (sack_recent s) (sack_history s)
   (dsack_pending s) (dsack_block s) (rx_sacks s) (fin_deferred s)
   (snd_mss s) (snd_wscale s) (wscale_ok s) (rcv_wscale s) (recv_ack s)
   (snd_una s) (ofo s) (sack s) .
Definition with_rx_tsecr (v : Z) (s : tcp_opt_state) : tcp_opt_state :=
  mk_opt (timestamps_ok s) (ts_recent s) (ts_recent_valid s)
   (ts_recent_age_ms s) (ts_last_val s) (rx_timestamp_present s)
   (rx_tsval s) v (sack_local_offered s) (sack_peer_permitted s)
   (sack_permitted s) (sack_recent_valid s) (sack_recent s) (sack_history s)
   (dsack_pending s) (dsack_block s) (rx_sacks s) (fin_deferred s)
   (snd_mss s) (snd_wscale s) (wscale_ok s) (rcv_wscale s) (recv_ack s)
   (snd_una s) (ofo s) (sack s) .
Definition with_sack_local_offered (v : bool) (s : tcp_opt_state) : tcp_opt_state :=
  mk_opt (timestamps_ok s) (ts_recent s) (ts_recent_valid s)
   (ts_recent_age_ms s) (ts_last_val s) (rx_timestamp_present s)
   (rx_tsval s) (rx_tsecr s) v (sack_peer_permitted s) (sack_permitted s)
   (sack_recent_valid s) (sack_recent s) (sack_history s) (dsack_pending s)
   (dsack_block s) (rx_sacks s) (fin_deferred s) (snd_mss s) (snd_wscale s)
   (wscale_ok s) (rcv_wscale s) (recv_ack s) (snd_una s) (ofo s) (sack s) .
Definition with_sack_peer_permitted (v : bool) (s : tcp_opt_state) : tcp_opt_state :=
  mk_opt (timestamps_ok s) (ts_recent s) (ts_recent_valid s)
   (ts_recent_age_ms s) (ts_last_val s) (rx_timestamp_present s)
   (rx_tsval s) (rx_tsecr s) (sack_local_offered s) v (sack_permitted s)
   (sack_recent_valid s) (sack_recent s) (sack_history s) (dsack_pending s)
   (dsack_block s) (rx_sacks s) (fin_deferred s) (snd_mss s) (snd_wscale s)
   (wscale_ok s) (rcv_wscale s) (recv_ack s) (snd_una s) (ofo s) (sack s) .
Definition with_sack_permitted (v : bool) (s : tcp_opt_state) : tcp_opt_state :=
  mk_opt (timestamps_ok s) (ts_recent s) (ts_recent_valid s)
   (ts_recent_age_ms s) (ts_last_val s) (rx_timestamp_present s)
   (rx_tsval s) (rx_tsecr s) (sack_local_offered s) (sack_peer_permitted s)
   v (sack_recent_valid s) (sack_recent s) (sack_history s)
   (dsack_pending s) (dsack_block s) (rx_sacks s) (fin_deferred s)
   (snd_mss s) (snd_wscale s) (wscale_ok s) (rcv_wscale s) (recv_ack s)
   (snd_una s) (ofo s) (sack s) .
Definition with_sack_recent_valid (v : bool) (s : tcp_opt_state) : tcp_opt_state :=
  mk_opt (timestamps_ok s) (ts_recent s) (ts_recent_valid s)
   (ts_recent_age_ms s) (ts_last_val s) (rx_timestamp_present s)
   (rx_tsval s) (rx_tsecr s) (sack_local_offered s) (sack_peer_permitted s)
   (sack_permitted s) v (sack_recent s) (sack_history s) (dsack_pending s)
   (dsack_block s) (rx_sacks s) (fin_deferred s) (snd_mss s) (snd_wscale s)
   (wscale_ok s) (rcv_wscale s) (recv_ack s) (snd_una s) (ofo s) (sack s) .
Definition with_sack_recent (v : tcp_sack_block) (s : tcp_opt_state) : tcp_opt_state :=
  mk_opt (timestamps_ok s) (ts_recent s) (ts_recent_valid s)
   (ts_recent_age_ms s) (ts_last_val s) (rx_timestamp_present s)
   (rx_tsval s) (rx_tsecr s) (sack_local_offered s) (sack_peer_permitted s)
   (sack_permitted s) (sack_recent_valid s) v (sack_history s)
   (dsack_pending s) (dsack_block s) (rx_sacks s) (fin_deferred s)
   (snd_mss s) (snd_wscale s) (wscale_ok s) (rcv_wscale s) (recv_ack s)
   (snd_una s) (ofo s) (sack s) .
Definition with_sack_history (v : list tcp_sack_block) (s : tcp_opt_state) : tcp_opt_state :=
  mk_opt (timestamps_ok s) (ts_recent s) (ts_recent_valid s)
   (ts_recent_age_ms s) (ts_last_val s) (rx_timestamp_present s)
   (rx_tsval s) (rx_tsecr s) (sack_local_offered s) (sack_peer_permitted s)
   (sack_permitted s) (sack_recent_valid s) (sack_recent s) v
   (dsack_pending s) (dsack_block s) (rx_sacks s) (fin_deferred s)
   (snd_mss s) (snd_wscale s) (wscale_ok s) (rcv_wscale s) (recv_ack s)
   (snd_una s) (ofo s) (sack s) .
Definition with_dsack_pending (v : bool) (s : tcp_opt_state) : tcp_opt_state :=
  mk_opt (timestamps_ok s) (ts_recent s) (ts_recent_valid s)
   (ts_recent_age_ms s) (ts_last_val s) (rx_timestamp_present s)
   (rx_tsval s) (rx_tsecr s) (sack_local_offered s) (sack_peer_permitted s)
   (sack_permitted s) (sack_recent_valid s) (sack_recent s) (sack_history s)
   v (dsack_block s) (rx_sacks s) (fin_deferred s) (snd_mss s)
   (snd_wscale s) (wscale_ok s) (rcv_wscale s) (recv_ack s) (snd_una s)
   (ofo s) (sack s) .
Definition with_dsack_block (v : tcp_sack_block) (s : tcp_opt_state) : tcp_opt_state :=
  mk_opt (timestamps_ok s) (ts_recent s) (ts_recent_valid s)
   (ts_recent_age_ms s) (ts_last_val s) (rx_timestamp_present s)
   (rx_tsval s) (rx_tsecr s) (sack_local_offered s) (sack_peer_permitted s)
   (sack_permitted s) (sack_recent_valid s) (sack_recent s) (sack_history s)
   (dsack_pending s) v (rx_sacks s) (fin_deferred s) (snd_mss s)
   (snd_wscale s) (wscale_ok s) (rcv_wscale s) (recv_ack s) (snd_una s)
   (ofo s) (sack s) .
Definition with_rx_sacks (v : list tcp_sack_block) (s : tcp_opt_state) : tcp_opt_state :=
  mk_opt (timestamps_ok s) (ts_recent s) (ts_recent_valid s)
   (ts_recent_age_ms s) (ts_last_val s) (rx_timestamp_present s)
   (rx_tsval s) (rx_tsecr s) (sack_local_offered s) (sack_peer_permitted s)
   (sack_permitted s) (sack_recent_valid s) (sack_recent s) (sack_history s)
   (dsack_pending s) (dsack_block s) v (fin_deferred s) (snd_mss s)
   (snd_wscale s) (wscale_ok s) (rcv_wscale s) (recv_ack s) (snd_una s)
   (ofo s) (sack s) .
Definition with_fin_deferred (v : bool) (s : tcp_opt_state) : tcp_opt_state :=
  mk_opt (timestamps_ok s) (ts_recent s) (ts_recent_valid s)
   (ts_recent_age_ms s) (ts_last_val s) (rx_timestamp_present s)
   (rx_tsval s) (rx_tsecr s) (sack_local_offered s) (sack_peer_permitted s)
   (sack_permitted s) (sack_recent_valid s) (sack_recent s) (sack_history s)
   (dsack_pending s) (dsack_block s) (rx_sacks s) v (snd_mss s)
   (snd_wscale s) (wscale_ok s) (rcv_wscale s) (recv_ack s) (snd_una s)
   (ofo s) (sack s) .
Definition with_snd_mss (v : Z) (s : tcp_opt_state) : tcp_opt_state :=
  mk_opt (timestamps_ok s) (ts_recent s) (ts_recent_valid s)
   (ts_recent_age_ms s) (ts_last_val s) (rx_timestamp_present s)
   (rx_tsval s) (rx_tsecr s) (sack_local_offered s) (sack_peer_permitted s)
   (sack_permitted s) (sack_recent_valid s) (sack_recent s) (sack_history s)
   (dsack_pending s) (dsack_block s) (rx_sacks s) (fin_deferred s) v
   (snd_wscale s) (wscale_ok s) (rcv_wscale s) (recv_ack s) (snd_una s)
   (ofo s) (sack s) .
Definition with_snd_wscale (v : Z) (s : tcp_opt_state) : tcp_opt_state :=
  mk_opt (timestamps_ok s) (ts_recent s) (ts_recent_valid s)
   (ts_recent_age_ms s) (ts_last_val s) (rx_timestamp_present s)
   (rx_tsval s) (rx_tsecr s) (sack_local_offered s) (sack_peer_permitted s)
   (sack_permitted s) (sack_recent_valid s) (sack_recent s) (sack_history s)
   (dsack_pending s) (dsack_block s) (rx_sacks s) (fin_deferred s)
   (snd_mss s) v (wscale_ok s) (rcv_wscale s) (recv_ack s) (snd_una s)
   (ofo s) (sack s) .
Definition with_wscale_ok (v : bool) (s : tcp_opt_state) : tcp_opt_state :=
  mk_opt (timestamps_ok s) (ts_recent s) (ts_recent_valid s)
   (ts_recent_age_ms s) (ts_last_val s) (rx_timestamp_present s)
   (rx_tsval s) (rx_tsecr s) (sack_local_offered s) (sack_peer_permitted s)
   (sack_permitted s) (sack_recent_valid s) (sack_recent s) (sack_history s)
   (dsack_pending s) (dsack_block s) (rx_sacks s) (fin_deferred s)
   (snd_mss s) (snd_wscale s) v (rcv_wscale s) (recv_ack s) (snd_una s)
   (ofo s) (sack s) .
Definition with_rcv_wscale (v : Z) (s : tcp_opt_state) : tcp_opt_state :=
  mk_opt (timestamps_ok s) (ts_recent s) (ts_recent_valid s)
   (ts_recent_age_ms s) (ts_last_val s) (rx_timestamp_present s)
   (rx_tsval s) (rx_tsecr s) (sack_local_offered s) (sack_peer_permitted s)
   (sack_permitted s) (sack_recent_valid s) (sack_recent s) (sack_history s)
   (dsack_pending s) (dsack_block s) (rx_sacks s) (fin_deferred s)
   (snd_mss s) (snd_wscale s) (wscale_ok s) v (recv_ack s) (snd_una s)
   (ofo s) (sack s) .
Definition with_recv_ack (v : Z) (s : tcp_opt_state) : tcp_opt_state :=
  mk_opt (timestamps_ok s) (ts_recent s) (ts_recent_valid s)
   (ts_recent_age_ms s) (ts_last_val s) (rx_timestamp_present s)
   (rx_tsval s) (rx_tsecr s) (sack_local_offered s) (sack_peer_permitted s)
   (sack_permitted s) (sack_recent_valid s) (sack_recent s) (sack_history s)
   (dsack_pending s) (dsack_block s) (rx_sacks s) (fin_deferred s)
   (snd_mss s) (snd_wscale s) (wscale_ok s) (rcv_wscale s) v (snd_una s)
   (ofo s) (sack s) .
Definition with_snd_una (v : Z) (s : tcp_opt_state) : tcp_opt_state :=
  mk_opt (timestamps_ok s) (ts_recent s) (ts_recent_valid s)
   (ts_recent_age_ms s) (ts_last_val s) (rx_timestamp_present s)
   (rx_tsval s) (rx_tsecr s) (sack_local_offered s) (sack_peer_permitted s)
   (sack_permitted s) (sack_recent_valid s) (sack_recent s) (sack_history s)
   (dsack_pending s) (dsack_block s) (rx_sacks s) (fin_deferred s)
   (snd_mss s) (snd_wscale s) (wscale_ok s) (rcv_wscale s) (recv_ack s) v
   (ofo s) (sack s) .
Definition with_ofo (v : list (Z * Z)) (s : tcp_opt_state) : tcp_opt_state :=
  mk_opt (timestamps_ok s) (ts_recent s) (ts_recent_valid s)
   (ts_recent_age_ms s) (ts_last_val s) (rx_timestamp_present s)
   (rx_tsval s) (rx_tsecr s) (sack_local_offered s) (sack_peer_permitted s)
   (sack_permitted s) (sack_recent_valid s) (sack_recent s) (sack_history s)
   (dsack_pending s) (dsack_block s) (rx_sacks s) (fin_deferred s)
   (snd_mss s) (snd_wscale s) (wscale_ok s) (rcv_wscale s) (recv_ack s)
   (snd_una s) v (sack s) .
Definition with_sack (v : tcp_sack_state) (s : tcp_opt_state) : tcp_opt_state :=
  mk_opt (timestamps_ok s) (ts_recent s) (ts_recent_valid s)
   (ts_recent_age_ms s) (ts_last_val s) (rx_timestamp_present s)
   (rx_tsval s) (rx_tsecr s) (sack_local_offered s) (sack_peer_permitted s)
   (sack_permitted s) (sack_recent_valid s) (sack_recent s) (sack_history s)
   (dsack_pending s) (dsack_block s) (rx_sacks s) (fin_deferred s)
   (snd_mss s) (snd_wscale s) (wscale_ok s) (rcv_wscale s) (recv_ack s)
   (snd_una s) (ofo s) v.

Record tcp_fragment := mk_frag {
  tcp_flags : Z;
  data_off : Z;
  opt_len : Z;
  options : list Z
}.

Definition with_tcp_flags (v : Z) (s : tcp_fragment) : tcp_fragment :=
  mk_frag v (data_off s) (opt_len s) (options s) .
Definition with_data_off (v : Z) (s : tcp_fragment) : tcp_fragment :=
  mk_frag (tcp_flags s) v (opt_len s) (options s) .
Definition with_opt_len (v : Z) (s : tcp_fragment) : tcp_fragment :=
  mk_frag (tcp_flags s) (data_off s) v (options s) .
Definition with_options (v : list Z) (s : tcp_fragment) : tcp_fragment :=
  mk_frag (tcp_flags s) (data_off s) (opt_len s) v.

Record tcp_options_rx := mk_rx {
  mss : Z;
  wscale : Z;
  wscale_present : bool;
  sack_permitted_present : bool;
  sacks : list tcp_sack_block;
  timestamp_present : bool;
  tsval : Z;
  tsecr : Z
}.

(** The state after [memset(rx, 0, ...)] and the MSS default. *)
Definition rx_init : tcp_options_rx :=
  mk_rx TCP_DEFAULT_MSS 0 false false [] false 0 0.

(** [(uint32_t)(cycles * 1000 / hz)]. *)
Definition tcp_options_now_ms (cycles hz : Z) : Z := u32 (u64 (cycles * 1000) / hz).

Definition tcp_options_seq_at_or_after (seq boundary : Z) : bool := 0 <=? i32 (seq - boundary).
Definition tcp_options_seq_after (seq boundary : Z) : bool := 0 <? i32 (seq - boundary).

(** ** Network byte order *)

Definition be32 (v : Z) : list Z :=
  [u8 (Z.shiftr v 24); u8 (Z.shiftr v 16); u8 (Z.shiftr v 8); u8 v].
Definition byte_at (l : list Z) (i : nat) : Z := nth i l 0.
Definition get_be32 (l : list Z) : Z :=
  byte_at l 0 * 16777216 + byte_at l 1 * 65536 + byte_at l 2 * 256 + byte_at l 3.

(** ** Encoding *)

(** [None] is the [-1] return: the 40-byte area would overflow. *)
Definition tcp_options_append (data : list Z) (f : tcp_fragment) : option tcp_fragment :=
  let offset := opt_len f * 4 in
  let len := Z.of_nat (length data) in
  if 40 <? offset + len then None
  else Some (with_opt_len ((offset + len + 4 - 1) / 4)
         (with_options (take (Z.to_nat offset) (options f) ++ data
            ++ drop (Z.to_nat (offset + len)) (options f)) f)).

Definition tcp_options_emit_mss (m : Z) : tcp_fragment -> option tcp_fragment :=
  tcp_options_append [TCP_OPT_MSS; 4; u8 (Z.shiftr m 8); u8 m].
Definition tcp_options_emit_wscale (ws : Z) : tcp_fragment -> option tcp_fragment :=
  tcp_options_append [TCP_OPT_NOP; TCP_OPT_WSCALE; 3; ws].
Definition tcp_options_emit_timestamp (val ecr : Z) : tcp_fragment -> option tcp_fragment :=
  tcp_options_append ([TCP_OPT_NOP; TCP_OPT_NOP; TCP_OPT_TIMESTAMP; 10] ++ be32 val ++ be32 ecr).
Definition tcp_options_emit_sack_permitted : tcp_fragment -> option tcp_fragment :=
  tcp_options_append [TCP_OPT_SACK_PERMITTED; 2].

Definition tcp_options_block_contains (outer inner : tcp_sack_block) : bool :=
  negb (tcp_options_seq_after (bleft outer) (bleft inner))
  && negb (tcp_options_seq_after (bright inner) (bright outer)).

Definition tcp_options_add_distinct (capacity : Z) (block : tcp_sack_block)
    (out : list tcp_sack_block) : list tcp_sack_block :=
  if existsb (fun b => tcp_options_block_contains b block) out then out
  else if capacity <=? Z.of_nat (length out) then out
  else out ++ [block].

(** Index of the first history entry comparable with [block]. *)
Fixpoint history_find (block : tcp_sack_block) (h : list tcp_sack_block) : option nat :=
  match h with
  | [] => None
  | b :: t =>
      if tcp_options_block_contains b block || tcp_options_block_contains block b then Some 0%nat
      else option_map S (history_find block t)
  end.

Definition tcp_options_history_push (block : tcp_sack_block) (s : tcp_opt_state) : tcp_opt_state :=
  let h := sack_history s in
  with_sack_history
    (match history_find block h with
     | Some i => block :: take i h ++ drop (S i) h
     | None => take TCP_SACK_MAX_BLOCKS (block :: h)
     end) s.

(** First loop of [tcp_options_collect_sacks]: [acc] is [normalized] with its
    last entry first. *)
Fixpoint normalize_ofo (ack : Z) (segs : list (Z * Z)) (acc : list tcp_sack_block)
    : list tcp_sack_block :=
  match segs with
  | [] => rev acc
  | (seq, len) :: rest =>
      let right := u32 (seq + len) in
      if (len =? 0) || negb (tcp_options_seq_after right ack) then normalize_ofo ack rest acc
      else
        let left := if tcp_options_seq_after ack seq then ack else seq in
        match acc with
        | b :: older =>
            if negb (tcp_options_seq_after left (bright b)) then
              if tcp_options_seq_after right (bright b)
              then normalize_ofo ack rest (mk_block (bleft b) right :: older)
              else normalize_ofo ack rest acc
            else if Z.of_nat (length acc) =? TCP_OFO_MAX_SEGS then rev acc
            else normalize_ofo ack rest (mk_block left right :: acc)
        | [] => normalize_ofo ack rest [mk_block left right]
        end
  end.

Definition recent_match (r b : tcp_sack_block) : bool :=
  tcp_options_seq_after (bright b) (bleft r) && tcp_options_seq_after (bright r) (bleft b).

(** The history loop: revalidate each remembered block against [normalized]. *)
Definition add_history (capacity : Z) (normalized : list tcp_sack_block)
    (out : list tcp_sack_block) (h : tcp_sack_block) : list tcp_sack_block :=
  if Z.of_nat (length out) <? capacity then
    match List.find (fun n => tcp_options_block_contains n h) normalized with
    | Some n => tcp_options_add_distinct capacity n out
    | None => out
    end
  else out.
Definition add_remaining (capacity : Z) (out : list tcp_sack_block) (n : tcp_sack_block)
    : list tcp_sack_block :=
  if Z.of_nat (length out) <? capacity then tcp_options_add_distinct capacity n out else out.

Definition tcp_options_collect_sacks (capacity : Z) (s : tcp_opt_state)
    : list tcp_sack_block * tcp_opt_state :=
  let normalized := normalize_ofo (recv_ack s) (ofo s) [] in
  let recent := if sack_recent_valid s
                then List.find (recent_match (sack_recent s)) normalized else None in
  let use_dsack := dsack_pending s && negb (capacity =? 0) in
  let out1 :=
    if use_dsack then
      let o0 := tcp_options_add_distinct capacity (dsack_block s) [] in
      if tcp_options_seq_after (bright (dsack_block s)) (recv_ack s) then
        match List.find (fun n => tcp_options_block_contains n (dsack_block s)) normalized with
        | Some n => tcp_options_add_distinct capacity n o0
        | None => o0
        end
      else o0
    else [] in
  let s1 := if use_dsack then with_dsack_pending false s else s in
  let '(out2, s2) :=
    match recent with
    | Some n => (tcp_options_add_distinct capacity n out1, tcp_options_history_push n s1)
    | None => (out1, s1)
    end in
  let s3 := with_sack_recent_valid false s2 in
  let out3 := foldl (add_history capacity normalized) out2 (sack_history s3) in
  let out4 := foldl (add_remaining capacity) out3 normalized in
  (out4, s3).

Definition block_bytes (b : tcp_sack_block) : list Z := be32 (bleft b) ++ be32 (bright b).

Definition tcp_options_emit_sack (s : tcp_opt_state) (f : tcp_fragment)
    : option tcp_fragment * tcp_opt_state :=
  let offset := opt_len f * 4 in
  if negb (has_flag (tcp_flags f) RTE_TCP_ACK_FLAG) || negb (sack_permitted s)
     || (negb (dsack_pending s) && bool_decide (ofo s = [])) || (40 <? offset + 2)
  then (Some f, s)
  else
    let capacity := Z.min (u8 ((40 - offset - 2) / 8)) (Z.of_nat TCP_SACK_MAX_BLOCKS) in
    let '(blocks, s1) := tcp_options_collect_sacks capacity s in
    if bool_decide (blocks = []) then (Some f, s1)
    else (tcp_options_append
            ([TCP_OPT_SACK; u8 (2 + Z.of_nat (length blocks) * 8)] ++ mjoin (map block_bytes blocks)) f,
          s1).

Definition tcp_options_finish (f : tcp_fragment) : tcp_fragment :=
  with_data_off (u8 (Z.shiftl (5 + opt_len f) 4)) f.

(** Both appliers start from a cleared option area. *)
Definition frag_clear (f : tcp_fragment) : tcp_fragment :=
  with_opt_len 0 (with_options (replicate 40 0) f).

(** [tcp_options_ts_now]: the value and its record in [ts_last_val]. *)
Definition tcp_options_ts_now (now : Z) (s : tcp_opt_state) : Z * tcp_opt_state :=
  (now, with_ts_last_val now s).

Definition tcp_options_apply_syn (now : Z) (include_wscale include_timestamp
    include_sack_permitted : bool) (ecr : Z) (s : tcp_opt_state) (f : tcp_fragment)
    : option tcp_fragment * tcp_opt_state :=
  match tcp_options_emit_mss TCP_DEFAULT_MSS (frag_clear f) with
  | None => (None, s)
  | Some f1 =>
  match (if include_wscale then tcp_options_emit_wscale (rcv_wscale s) f1 else Some f1) with
  | None => (None, s)
  | Some f2 =>
  let '(v, s1) := if include_timestamp then tcp_options_ts_now now s else (0, s) in
  match (if include_timestamp then tcp_options_emit_timestamp v ecr f2 else Some f2) with
  | None => (None, s1)
  | Some f3 =>
  match (if include_sack_permitted then tcp_options_emit_sack_permitted f3 else Some f3) with
  | None => (None, s1)
  | Some f4 =>
      let s2 := with_sack_local_offered include_sack_permitted s1 in
      let s3 := with_sack_permitted (sack_local_offered s2 && sack_peer_permitted s2) s2 in
      (Some (tcp_options_finish f4), s3)
  end end end end.

Definition tcp_options_apply_established (now : Z) (s : tcp_opt_state) (f : tcp_fragment)
    : option tcp_fragment * tcp_opt_state :=
  let f0 := frag_clear f in
  let '(v, s1) := if timestamps_ok s then tcp_options_ts_now now s else (0, s) in
  match (if timestamps_ok s then tcp_options_emit_timestamp v (ts_recent s) f0 else Some f0) with
  | None => (None, s1)
  | Some f1 =>
      match tcp_options_emit_sack s1 f1 with
      | (None, s2) => (None, s2)
      | (Some f2, s2) => (Some (tcp_options_finish f2), s2)
      end
  end.

(** ** Parsing *)

Record parse_state := mk_ps {
  ps_rx : tcp_options_rx;
  mss_present : bool;
  sack_permitted_seen : bool;
  sack_seen : bool
}.

(** The block loop of option kind 5; [None] on an inverted block. *)
Fixpoint parse_blocks (count : nat) (l : list Z) : option (list tcp_sack_block) :=
  match count with
  | O => Some []
  | S n =>
      let left := get_be32 l in
      let right := get_be32 (drop 4 l) in
      if negb (tcp_options_seq_after right left) then None
      else option_map (cons (mk_block left right)) (parse_blocks n (drop 8 l))
  end.

(** One option of length [len] at the head of [opt]. *)
Definition parse_option (flags kind len : Z) (opt : list Z) (p : parse_state) : option parse_state :=
  let rx := ps_rx p in
  if kind =? TCP_OPT_MSS then
    if negb (len =? 4) || mss_present p then None
    else
      let value := Z.lor (Z.shiftl (byte_at opt 2) 8) (byte_at opt 3) in
      let m := if TCP_MIN_MSS <=? value then value else mss rx in
      Some (mk_ps (mk_rx m (wscale rx) (wscale_present rx) (sack_permitted_present rx) (sacks rx)
                     (timestamp_present rx) (tsval rx) (tsecr rx))
              true (sack_permitted_seen p) (sack_seen p))
  else if kind =? TCP_OPT_WSCALE then
    if negb (len =? 3) || wscale_present rx || (TCP_WSCALE_MAX <? byte_at opt 2) then None
    else Some (mk_ps (mk_rx (mss rx) (byte_at opt 2) true (sack_permitted_present rx) (sacks rx)
                        (timestamp_present rx) (tsval rx) (tsecr rx))
                 (mss_present p) (sack_permitted_seen p) (sack_seen p))
  else if kind =? TCP_OPT_SACK_PERMITTED then
    if negb (len =? 2) || sack_permitted_seen p then None
    else Some (mk_ps (mk_rx (mss rx) (wscale rx) (wscale_present rx)
                        (if has_flag flags RTE_TCP_SYN_FLAG then true
                         else sack_permitted_present rx) (sacks rx)
                        (timestamp_present rx) (tsval rx) (tsecr rx))
                 (mss_present p) true (sack_seen p))
  else if kind =? TCP_OPT_SACK then
    if (len <? 10) || negb ((len - 2) mod 8 =? 0) || sack_seen p then None
    else
      let count := u8 ((len - 2) / 8) in
      if Z.of_nat TCP_SACK_MAX_BLOCKS <? count then None
      else match parse_blocks (Z.to_nat count) (drop 2 opt) with
      | None => None
      | Some bs =>
          Some (mk_ps (mk_rx (mss rx) (wscale rx) (wscale_present rx) (sack_permitted_present rx)
                         (if negb (has_flag flags RTE_TCP_SYN_FLAG) && has_flag flags RTE_TCP_ACK_FLAG
                          then bs else sacks rx)
                         (timestamp_present rx) (tsval rx) (tsecr rx))
                  (mss_present p) (sack_permitted_seen p) true)
      end
  else if kind =? TCP_OPT_TIMESTAMP then
    if negb (len =? 10) || timestamp_present rx then None
    else Some (mk_ps (mk_rx (mss rx) (wscale rx) (wscale_present rx) (sack_permitted_present rx)
                        (sacks rx) true (get_be32 (drop 2 opt)) (get_be32 (drop 6 opt)))
                 (mss_present p) (sack_permitted_seen p) (sack_seen p))
  else Some p.

(** The option loop; every round consumes a byte, so the length is enough
    fuel.  [None] is the [-1] return. *)
Fixpoint parse_loop (fuel : nat) (flags : Z) (opt : list Z) (p : parse_state)
    : option parse_state :=
  match opt with
  | [] => Some p
  | kind :: rest =>
      match fuel with
      | O => None
      | S n =>
          if kind =? TCP_OPT_EOL then Some p
          else if kind =? TCP_OPT_NOP then parse_loop n flags rest p
          else match rest with
          | [] => None
          | len :: _ =>
              if (len <? 2) || (Z.of_nat (length opt) <? len) then None
              else match parse_option flags kind len opt p with
              | None => None
              | Some p' => parse_loop n flags (drop (Z.to_nat len) opt) p'
              end
          end
      end
  end.

(** [area] holds the bytes behind the fixed header. *)
Definition tcp_options_parse (doff flags : Z) (area : list Z) : option tcp_options_rx :=
  let hdr_len := Z.shiftr doff 4 * 4 in
  if hdr_len <? 20 then None
  else
    let opt := take (Z.to_nat (hdr_len - 20)) area in
    option_map ps_rx (parse_loop (length opt) flags opt (mk_ps rx_init false false false)).

(** ** Stream state *)

Definition tcp_options_reset_state (s : tcp_opt_state) : tcp_opt_state :=
  mk_opt false 0 false 0 0 false 0 0 false false false false (sack_recent s) [] false
    (dsack_block s) [] false (snd_mss s) (snd_wscale s) (wscale_ok s) (rcv_wscale s)
    (recv_ack s) (snd_una s) (ofo s) (tcp_sack_state_reset (snd_una s) (sack s)).

Definition tcp_options_negotiate_syn (now : Z) (peer : tcp_options_rx) (s : tcp_opt_state)
    : tcp_opt_state :=
  let s1 := with_timestamps_ok (timestamp_present peer)
    (with_wscale_ok (wscale_present peer) (with_snd_wscale (wscale peer)
      (with_snd_mss (if mss peer <? TCP_DEFAULT_MSS then mss peer else TCP_DEFAULT_MSS) s))) in
  let s2 := if sack_permitted_present peer then with_sack_peer_permitted true s1 else s1 in
  let s3 := with_sack_permitted (sack_local_offered s2 && sack_peer_permitted s2) s2 in
  if timestamp_present peer
  then with_ts_recent_age_ms now (with_ts_recent_valid true (with_ts_recent (tsval peer) s3))
  else s3.

(** The result is the return code and the state. *)
Definition tcp_options_process_inbound (now : Z) (rx : tcp_options_rx) (is_rst : bool)
    (seg_seq : Z) (seq_acceptable : bool) (s : tcp_opt_state) : Z * tcp_opt_state :=
  let s1 := with_rx_sacks (sacks rx) (with_rx_tsecr (tsecr rx) (with_rx_tsval (tsval rx)
              (with_rx_timestamp_present (timestamp_present rx) s))) in
  if is_rst || negb (timestamps_ok s1) then (0, s1)
  else if negb (timestamp_present rx) then (-1, s1)
  else
    let s2 := if ts_recent_valid s1 && (TCP_PAWS_IDLE_MS <? u32 (now - ts_recent_age_ms s1))
              then with_ts_recent_valid false s1 else s1 in
    if seq_acceptable && tcp_options_seq_at_or_after seg_seq (recv_ack s2)
       && ts_recent_valid s2 && (i32 (tsval rx - ts_recent s2) <? 0)
    then (-2, s2) else (0, s2).

Definition tcp_options_note_receive_progress (now : Z) (s : tcp_opt_state) : tcp_opt_state :=
  if negb (timestamps_ok s) || negb (rx_timestamp_present s) then s
  else with_ts_recent_age_ms now (with_ts_recent_valid true (with_ts_recent (rx_tsval s) s)).

(** [f] is [None] for a null fragment. *)
Definition tcp_options_data_mss (s : tcp_opt_state) (f : option tcp_fragment) : Z :=
  let peer := if snd_mss s =? 0 then TCP_DEFAULT_MSS else snd_mss s in
  let option_bytes :=
    match f with
    | None => 0
    | Some f => if opt_len f <? 0 then 0 else u16 (u16 (opt_len f) * 4)
    end in
  let local := if TCP_DEFAULT_MSS <? option_bytes then 0 else TCP_DEFAULT_MSS - option_bytes in
  if peer <? local then peer else local.
