(* ===== verification/TcpOptionsWire.v ===== *)
(** * Encode/decode round trips of TCP options (facts on TcpOptions.v) *)

From S2P Require Import Prelude Config SeqNum SackRange TcpSack TcpOptions.

(** ** Bytes *)

Lemma get_be32_be32 v l : in_u32 v -> get_be32 (be32 v ++ l) = v.
Proof.
  intros H. unfold get_be32, be32, byte_at. cbn [app nth].
  rewrite !Z.shiftr_div_pow2 by lia.
  change (2 ^ 24) with 16777216. change (2 ^ 16) with 65536. change (2 ^ 8) with 256.
  warith.
Qed.

Lemma be16_value v : in_u16 v -> Z.lor (Z.shiftl (u8 (Z.shiftr v 8)) 8) (u8 v) = v.
Proof.
  intros H. rewrite Z.shiftr_div_pow2, Z.shiftl_mul_pow2 by lia. change (2 ^ 8) with 256.
  assert (Z.land (u8 (v / 256) * 256) (u8 v) = 0) as Hd.
  { apply Z.bits_inj'. intros n Hn. rewrite Z.land_spec, Z.bits_0.
    change 256 with (2 ^ 8). unfold u8 at 2. change 256 with (2 ^ 8).
    destruct (decide (n < 8)).
    - rewrite Z.mul_pow2_bits_low by lia. done.
    - rewrite Z.mod_pow2_bits_high by lia. apply andb_false_r. }
  rewrite <- Z.lxor_lor, <- Z.add_nocarry_lxor by done. warith.
Qed.

(** ** The option area of a fragment *)

(** The area holds [bytes], then zeros. *)
Definition frag_bytes (f : tcp_fragment) (bytes : list Z) : Prop :=
  (length bytes <= 40)%nat /\ options f = bytes ++ replicate (40 - length bytes) 0 /\
  opt_len f = (Z.of_nat (length bytes) + 3) / 4.

(** What goes on the wire: the bytes and the padding to a word. *)
Definition padded (bytes : list Z) : list Z :=
  bytes ++ replicate (Z.to_nat ((Z.of_nat (length bytes) + 3) / 4 * 4) - length bytes) 0.

Lemma frag_clear_bytes f : frag_bytes (frag_clear f) [].
Proof. split_and!; done || (cbn; lia). Qed.

(** Appending behind word-aligned content. *)
Lemma append_bytes f bytes data :
  frag_bytes f bytes -> Z.of_nat (length bytes) mod 4 = 0 ->
  (length bytes + length data <= 40)%nat ->
  exists f', tcp_options_append data f = Some f' /\ frag_bytes f' (bytes ++ data) /\
    tcp_flags f' = tcp_flags f.
Proof.
  intros (Hl & Ho & Hn) Hm Hlen. unfold tcp_options_append. rewrite Hn.
  replace ((Z.of_nat (length bytes) + 3) / 4 * 4) with (Z.of_nat (length bytes))
    by (Z.to_euclidean_division_equations; lia).
  destruct (Z.ltb_spec 40 (Z.of_nat (length bytes) + Z.of_nat (length data))); [lia|].
  eexists. split; [done|]. split; [|done]. unfold frag_bytes. rewrite length_app. cbn.
  split_and!; [lia| |].
  - rewrite Ho, Nat2Z.id, take_app_length. rewrite <- app_assoc. do 2 f_equal.
    rewrite drop_app_ge by lia. rewrite drop_replicate. f_equal. lia.
  - f_equal. lia.
Qed.

Lemma frag_wire f bytes area :
  frag_bytes f bytes -> area = take (Z.to_nat (opt_len f * 4)) (options f) -> area = padded bytes.
Proof.
  intros (Hl & Ho & Hn) ->. unfold padded. rewrite Ho, Hn.
  rewrite take_app_ge by (Z.to_euclidean_division_equations; lia). f_equal.
  rewrite take_replicate. f_equal. Z.to_euclidean_division_equations; lia.
Qed.

(** The data offset written for a finished fragment gives back its area. *)
Lemma finish_area f bytes :
  frag_bytes f bytes ->
  let f' := tcp_options_finish f in
  (Z.shiftr (data_off f') 4 * 4 <? 20) = false /\
  take (Z.to_nat (Z.shiftr (data_off f') 4 * 4 - 20)) (options f') = padded bytes.
Proof.
  intros Hf. cbn zeta. unfold tcp_options_finish. cbn [data_off with_data_off options].
  assert (0 <= opt_len f <= 10) as Hb
    by (destruct Hf as (? & _ & ->); Z.to_euclidean_division_equations; lia).
  rewrite Z.shiftl_mul_pow2, Z.shiftr_div_pow2 by lia. change (2 ^ 4) with 16.
  assert (u8 ((5 + opt_len f) * 16) / 16 = 5 + opt_len f) as -> by warith.
  split; [lia|]. eapply frag_wire; [done|]. f_equal. lia.
Qed.

(** ** The option loop *)

Lemma parse_fuel n m flags opt p :
  (length opt <= n)%nat -> (length opt <= m)%nat ->
  parse_loop n flags opt p = parse_loop m flags opt p.
Proof.
  revert m opt p. induction n as [|n IH]; intros m opt p Hn Hm.
  - destruct opt; [by destruct m|cbn in Hn; lia].
  - destruct opt as [|k rest]; [by destruct m|]. cbn [length] in *.
    destruct m as [|m]; [lia|]. cbn [parse_loop].
    destruct (k =? TCP_OPT_EOL); [done|]. destruct (k =? TCP_OPT_NOP); [apply IH; lia|].
    destruct rest as [|len body]; [done|].
    destruct (len <? 2) eqn:E2; [done|]. cbn [orb].
    destruct (_ <? len); [done|]. destruct (parse_option _ _ _ _ _); [|done]. bprop.
    cbn [length] in *. apply IH; rewrite length_drop; cbn [length]; lia.
Qed.

Definition parse_all (flags : Z) (opt : list Z) (p : parse_state) : option parse_state :=
  parse_loop (length opt) flags opt p.

Lemma parse_all_zeros flags n p : parse_all flags (replicate n 0) p = Some p.
Proof. by destruct n. Qed.

Lemma parse_all_nop flags rest p : parse_all flags (1 :: rest) p = parse_all flags rest p.
Proof. done. Qed.

(** One option in front: it is decoded, then the rest is parsed. *)
Lemma parse_all_option flags kind len body rest p :
  kind <> 0 -> kind <> 1 -> len = Z.of_nat (length body + 2) ->
  parse_all flags (kind :: len :: body ++ rest) p =
    match parse_option flags kind len (kind :: len :: body ++ rest) p with
    | None => None
    | Some p' => parse_all flags rest p'
    end.
Proof.
  intros H0 H1 ->. unfold parse_all. cbn [length parse_loop].
  unfold TCP_OPT_EOL, TCP_OPT_NOP.
  destruct (Z.eqb_spec kind 0); [done|]. destruct (Z.eqb_spec kind 1); [done|].
  destruct (Z.ltb_spec (Z.of_nat (length body + 2)) 2); [lia|].
  rewrite length_app.
  destruct (Z.ltb_spec (Z.of_nat (S (S (length body + length rest)))) (Z.of_nat (length body + 2))); [lia|].
  cbn [orb]. destruct (parse_option _ _ _ _ _) as [p'|]; [|done].
  rewrite Nat2Z.id. replace (length body + 2)%nat with (S (S (length body))) by lia.
  cbn [drop]. rewrite drop_app_length. 
  exact (parse_fuel (S (length body + length rest)) (length rest) flags rest p' ltac:(lia) ltac:(lia)).
Qed.

(** ** One lemma per encoded option *)

Section Options.
Context (flags : Z) (rest : list Z).
Context (m w : Z) (wp sp : bool) (sk : list tcp_sack_block) (tp : bool) (tv te : Z).
Context (ms ps ss : bool).

Lemma parse_mss v :
  in_u16 v -> TCP_MIN_MSS <= v ->
  parse_all flags ([TCP_OPT_MSS; 4; u8 (Z.shiftr v 8); u8 v] ++ rest)
      (mk_ps (mk_rx m w wp sp sk tp tv te) false ps ss)
  = parse_all flags rest (mk_ps (mk_rx v w wp sp sk tp tv te) true ps ss).
Proof.
  intros Hv Hm. 
  rewrite (parse_all_option flags TCP_OPT_MSS 4 [u8 (Z.shiftr v 8); u8 v] rest) by done.
  unfold parse_option, byte_at. cbn -[Z.shiftl Z.shiftr Z.lor u8 parse_all].
  rewrite be16_value by done. by destruct (Z.leb_spec TCP_MIN_MSS v); [|lia].
Qed.

Lemma parse_wscale v :
  0 <= v <= TCP_WSCALE_MAX ->
  parse_all flags ([TCP_OPT_NOP; TCP_OPT_WSCALE; 3; v] ++ rest)
      (mk_ps (mk_rx m w false sp sk tp tv te) ms ps ss)
  = parse_all flags rest (mk_ps (mk_rx m v true sp sk tp tv te) ms ps ss).
Proof.
  intros Hv. cbn [app]. unfold TCP_OPT_NOP. rewrite parse_all_nop.
  rewrite (parse_all_option flags TCP_OPT_WSCALE 3 [v] rest) by done.
  unfold parse_option, byte_at. cbn -[parse_all Z.ltb TCP_WSCALE_MAX].
  by destruct (Z.ltb_spec TCP_WSCALE_MAX v); [lia|].
Qed.

Lemma parse_sack_permitted :
  parse_all flags ([TCP_OPT_SACK_PERMITTED; 2] ++ rest)
      (mk_ps (mk_rx m w wp sp sk tp tv te) ms false ss)
  = parse_all flags rest
      (mk_ps (mk_rx m w wp (if has_flag flags RTE_TCP_SYN_FLAG then true else sp) sk tp tv te)
         ms true ss).
Proof. by rewrite (parse_all_option flags TCP_OPT_SACK_PERMITTED 2 [] rest). Qed.

Lemma parse_timestamp v ecr :
  in_u32 v -> in_u32 ecr ->
  parse_all flags ([TCP_OPT_NOP; TCP_OPT_NOP; TCP_OPT_TIMESTAMP; 10] ++ be32 v ++ be32 ecr ++ rest)
      (mk_ps (mk_rx m w wp sp sk false tv te) ms ps ss)
  = parse_all flags rest (mk_ps (mk_rx m w wp sp sk true v ecr) ms ps ss).
Proof.
  intros Hv He. cbn [app]. unfold TCP_OPT_NOP. rewrite !parse_all_nop.
  pose proof (parse_all_option flags TCP_OPT_TIMESTAMP 10 (be32 v ++ be32 ecr) rest
    (mk_ps (mk_rx m w wp sp sk false tv te) ms ps ss) ltac:(done) ltac:(done) ltac:(done)) as H.
  etransitivity; [exact H|].
  unfold parse_option. cbn -[parse_all get_be32 be32].
  do 4 f_equal; unfold be32 at 1; cbn [app drop].
  - apply (get_be32_be32 v (be32 ecr ++ rest) Hv).
  - apply (get_be32_be32 ecr rest He).
Qed.
End Options.

(** Blocks whose right edge is after their left edge survive the wire. *)
Definition block_wire_ok (b : tcp_sack_block) : Prop :=
  in_u32 (bleft b) /\ in_u32 (bright b) /\ tcp_options_seq_after (bright b) (bleft b) = true.

Lemma parse_blocks_bytes bs rest :
  Forall block_wire_ok bs ->
  parse_blocks (length bs) (mjoin (map block_bytes bs) ++ rest) = Some bs.
Proof.
  induction 1 as [|b t (Hl & Hr & Ho) _ IH]; [done|].
  cbn [map length]. change (mjoin (block_bytes b :: map block_bytes t))
    with (block_bytes b ++ mjoin (map block_bytes t)).
  unfold block_bytes at 1. rewrite <- !app_assoc. cbn [parse_blocks].
  rewrite (get_be32_be32 (bleft b)) by done.
  replace (drop 4 (be32 (bleft b) ++ be32 (bright b) ++ mjoin (map block_bytes t) ++ rest))
    with (be32 (bright b) ++ mjoin (map block_bytes t) ++ rest) by done.
  rewrite (get_be32_be32 (bright b)) by done. rewrite Ho. cbn [negb].
  replace (drop 8 (be32 (bleft b) ++ be32 (bright b) ++ mjoin (map block_bytes t) ++ rest))
    with (mjoin (map block_bytes t) ++ rest) by done.
  rewrite IH. by destruct b.
Qed.

Lemma blocks_bytes_length bs : length (mjoin (map block_bytes bs)) = (8 * length bs)%nat.
Proof.
  induction bs as [|b t IH]; [done|]. cbn [map length].
  change (mjoin (block_bytes b :: map block_bytes t))
    with (block_bytes b ++ mjoin (map block_bytes t)).
  rewrite length_app, IH. cbn. lia.
Qed.

Lemma parse_sack flags bs rest m w wp sp tp tv te ms ps :
  Forall block_wire_ok bs -> (1 <= length bs <= 4)%nat ->
  has_flag flags RTE_TCP_SYN_FLAG = false -> has_flag flags RTE_TCP_ACK_FLAG = true ->
  parse_all flags
      (([TCP_OPT_SACK; u8 (2 + Z.of_nat (length bs) * 8)] ++ mjoin (map block_bytes bs)) ++ rest)
      (mk_ps (mk_rx m w wp sp [] tp tv te) ms ps false)
  = parse_all flags rest (mk_ps (mk_rx m w wp sp bs tp tv te) ms ps true).
Proof.
  intros Hb Hn Hs Ha.
  rewrite (u8_small (2 + _)) by (wunfold; lia).
  replace (2 + Z.of_nat (length bs) * 8) with (Z.of_nat (8 * length bs + 2)) by lia.
  cbn [app]. rewrite parse_all_option by (done || by rewrite blocks_bytes_length). set (opt := TCP_OPT_SACK :: _).
  assert (drop 2 opt = mjoin (map block_bytes bs) ++ rest) as Hd by done.
  clearbody opt. unfold parse_option.
  change (TCP_OPT_SACK =? TCP_OPT_MSS) with false. change (TCP_OPT_SACK =? TCP_OPT_WSCALE) with false.
  change (TCP_OPT_SACK =? TCP_OPT_SACK_PERMITTED) with false.
  change (TCP_OPT_SACK =? TCP_OPT_SACK) with true. cbn [sack_seen ps_rx]. cbv iota.
  replace (Z.of_nat (8 * length bs + 2) - 2) with (Z.of_nat (length bs) * 8) by lia.
  rewrite Z.mod_mul, Z.div_mul by lia. rewrite u8_small by (wunfold; lia).
  destruct (Z.ltb_spec (Z.of_nat (8 * length bs + 2)) 10); [lia|]. cbn [orb negb Z.eqb].
  unfold TCP_SACK_MAX_BLOCKS. destruct (Z.ltb_spec (Z.of_nat 4) (Z.of_nat (length bs))); [lia|].
  rewrite Nat2Z.id, Hd, parse_blocks_bytes by done. by rewrite Hs, Ha.
Qed.

(** ** Round trips *)

(** An option that is emitted only on a condition. *)
Lemma append_if (b : bool) f bytes data :
  frag_bytes f bytes -> Z.of_nat (length bytes) mod 4 = 0 ->
  (length bytes + length data <= 40)%nat ->
  exists f', (if b then tcp_options_append data f else Some f) = Some f' /\
    frag_bytes f' (bytes ++ if b then data else []) /\ tcp_flags f' = tcp_flags f.
Proof.
  intros Hf Hm Hl. destruct b; [by apply append_bytes|].
  exists f. rewrite app_nil_r. done.
Qed.

Lemma parse_finished f bytes flags p :
  frag_bytes f bytes ->
  parse_all flags (padded bytes) (mk_ps rx_init false false false) = Some p ->
  tcp_options_parse (data_off (tcp_options_finish f)) flags (options (tcp_options_finish f))
    = Some (ps_rx p).
Proof.
  intros Hf Hp. unfold tcp_options_parse.
  destruct (finish_area f bytes Hf) as [-> ->]. unfold parse_all in Hp. by rewrite Hp.
Qed.

(** a SYN carries exactly what it was asked to carry.  Encoding never
    overflows the 40-byte option area, and parsing the emitted header returns
    MSS 1460, the window scale, the Timestamp pair and SACK-Permitted, each
    present exactly when it was requested. *)
Theorem syn_options_roundtrip now (iw it isp : bool) ecr s f
  (Hws : 0 <= rcv_wscale s <= TCP_WSCALE_MAX) (Hnow : in_u32 now) (Hecr : in_u32 ecr)
  (Hsyn : has_flag (tcp_flags f) RTE_TCP_SYN_FLAG = true) :
  exists f' s', tcp_options_apply_syn now iw it isp ecr s f = (Some f', s') /\
    sack_permitted s' = isp && sack_peer_permitted s /\
    tcp_options_parse (data_off f') (tcp_flags f) (options f') =
      Some (mk_rx TCP_DEFAULT_MSS (if iw then rcv_wscale s else 0) iw isp [] it
              (if it then now else 0) (if it then ecr else 0)).
Proof.
  unfold tcp_options_apply_syn, tcp_options_emit_mss, tcp_options_emit_wscale,
    tcp_options_emit_timestamp, tcp_options_emit_sack_permitted.
  destruct (append_bytes _ _ [TCP_OPT_MSS; 4; u8 (Z.shiftr TCP_DEFAULT_MSS 8); u8 TCP_DEFAULT_MSS]
    (frag_clear_bytes f)) as (f1 & -> & H1 & F1); [done|cbn; lia|].
  destruct (append_if iw f1 _ [TCP_OPT_NOP; TCP_OPT_WSCALE; 3; rcv_wscale s] H1)
    as (f2 & -> & H2 & F2); [done|cbn; lia|].
  unfold tcp_options_ts_now.
  replace (if it then (now, with_ts_last_val now s) else (0, s))
    with ((if it then now else 0), (if it then with_ts_last_val now s else s)) by (by destruct it).
  destruct (append_if it f2 _ ([TCP_OPT_NOP; TCP_OPT_NOP; TCP_OPT_TIMESTAMP; 10]
      ++ be32 (if it then now else 0) ++ be32 ecr) H2) as (f3 & -> & H3 & F3);
    [by destruct iw|destruct iw; cbn; lia|].
  destruct (append_if isp f3 _ [TCP_OPT_SACK_PERMITTED; 2] H3) as (f4 & -> & H4 & F4);
    [by destruct iw, it|destruct iw, it; cbn; lia|].
  eexists _, _. split; [done|]. split; [by destruct it|].
  assert (in_u16 TCP_DEFAULT_MSS) by (split; done).
  erewrite (parse_finished f4); [|exact H4|].
  2: { unfold padded. rewrite <- !app_assoc. unfold rx_init.
       change ([] ++ ?x) with x. rewrite parse_mss by done.
       instantiate (1 := mk_ps (mk_rx TCP_DEFAULT_MSS (if iw then rcv_wscale s else 0) iw isp [] it
              (if it then now else 0) (if it then ecr else 0)) true isp false).
       destruct iw; [rewrite parse_wscale by done|rewrite app_nil_l];
         (destruct it; [rewrite <- !app_assoc, parse_timestamp by done|rewrite app_nil_l]);
         (destruct isp; [rewrite parse_sack_permitted, Hsyn|rewrite app_nil_l]);
         apply parse_all_zeros. }
  done.
Qed.

Lemma syn_options_roundtrip_witness :
  exists f' s', tcp_options_apply_syn 123456 true true true 99
      (tcp_options_reset_state (mk_opt false 0 false 0 0 false 0 0 false false false false
         (mk_block 0 0) [] false (mk_block 0 0) [] false 0 0 false 7 0 0 []
         (tcp_sack_state_init 0))) (mk_frag 2 0 0 []) = (Some f', s') /\
    tcp_options_parse (data_off f') 2 (options f') =
      Some (mk_rx 1460 7 true true [] true 123456 99).
Proof.
  edestruct (syn_options_roundtrip 123456 true true true 99) as (f' & s' & E & _ & P);
    [| | | |exists f', s'; split; [exact E|exact P]].
  - vm_compute; split; congruence.
  - vm_compute; split; congruence.
  - vm_compute; split; congruence.
  - reflexivity.
Defined.
