(* ===== verification/TcpOptionsSack.v ===== *)
(** * Receiver SACK blocks (facts on TcpOptions.v)

    The blocks [tcp_options_collect_sacks] reports against the out-of-order
    queue they are built from, and the round trip of an established segment's
    options. *)

From S2P Require Import Prelude Config SeqNum SackRange TcpSack TcpOptions TcpOptionsWire.

Lemma seq_after_sdist base a b :
  -2147483648 < sdist base a - sdist base b < 2147483648 ->
  tcp_options_seq_after a b = (sdist base b <? sdist base a).
Proof.
  unfold sdist, tcp_options_seq_after. intros H.
  assert (i32 (a - b) = i32 (a - base) - i32 (b - base)) as ->; [|lia].
  revert H. unfold i32. cbv zeta. bsplit; warith.
Qed.

Lemma sdist_add base a n :
  in_u32 a -> 0 <= n -> sdist base a + n < 2147483648 -> sdist base (u32 (a + n)) = sdist base a + n.
Proof. unfold sdist, i32. cbv zeta. intros ? ?. bsplit; warith. Qed.

Definition to_range (b : tcp_sack_block) : tcp_sack_range := mk_range (bleft b) (bright b) 0.

Section Normalize.
Context (ack : Z) (Hack : in_u32 ack).
Abbreviation o := (off ack).
Abbreviation TOP := 2147483647.

(** The out-of-order queue: in sequence order, within 2^31 of RCV.NXT. *)
Fixpoint ofo_ok (lo : Z) (segs : list (Z * Z)) : Prop :=
  match segs with
  | [] => True
  | (seq, len) :: t =>
      in_u32 seq /\ 0 <= len /\ lo <= sdist ack seq /\ -2147483648 < sdist ack seq /\
      sdist ack seq + len <= TOP /\ ofo_ok (sdist ack seq) t
  end.

(** The segment holds the byte at distance [x] from RCV.NXT. *)
Definition seg_at (x : Z) (seg : Z * Z) : bool :=
  (sdist ack (fst seg) <=? x) && (x <? sdist ack (fst seg) + snd seg).

Definition blocks_ok (bs : list tcp_sack_block) : Prop :=
  score_ok ack TOP (map to_range bs).
Definition blocks_at (bs : list tcp_sack_block) (x : Z) : bool :=
  covers ack (map to_range bs) x.

(** [blocks_ok] of a list grown at its end. *)
Lemma blocks_ok_snoc bs b :
  blocks_ok (bs ++ [b]) <->
  blocks_ok bs /\ near ack (bleft b) /\ near ack (bright b) /\
  List.last (map (fun b => o (bright b)) bs) (-1) < o (bleft b) /\ o (bleft b) < o (bright b).
Proof.
  unfold blocks_ok, score_ok. rewrite map_app, ranges_ok_app, map_map. cbn.
  split; [intros (? & ? & ? & ? & ? & _)|intros (? & ? & ? & ? & ?)]; split_and!; try done; try lia.
  destruct H1. lia.
Qed.

Lemma blocks_at_snoc bs b x :
  blocks_at (bs ++ [b]) x = blocks_at bs x || in_range ack (to_range b) x.
Proof. unfold blocks_at. rewrite map_app, covers_app. cbn. by rewrite orb_false_r. Qed.

Lemma last_snoc (bs : list tcp_sack_block) b d :
  List.last (map (fun b => o (bright b)) (bs ++ [b])) d = o (bright b).
Proof. rewrite map_app. apply List.last_last. Qed.

(** The merged list starts its last block no later than the next segment. *)
Definition acc_ok (lo : Z) (acc : list tcp_sack_block) : Prop :=
  blocks_ok (rev acc) /\ match acc with b :: _ => o (bleft b) <= Z.max 0 lo | [] => True end.

Lemma normalize_step seq len acc lo :
  acc_ok lo acc -> in_u32 seq -> 0 < len -> lo <= sdist ack seq ->
  -2147483648 < sdist ack seq -> 0 < sdist ack seq + len <= TOP ->
  let right := u32 (seq + len) in
  let left := if tcp_options_seq_after ack seq then ack else seq in
  near ack left /\ near ack right /\
  o left = Z.max 0 (sdist ack seq) /\ o right = sdist ack seq + len /\
  tcp_options_seq_after right ack = true.
Proof.
  intros Hacc Hs Hl Hlo Hm Hr. cbn zeta.
  assert (sdist ack ack = 0) as Hz by (rewrite sdist_near, off_base; [done|by apply near_base]).
  pose proof (sdist_range ack seq) as Hsr.
  pose proof (sdist_add ack seq len Hs ltac:(lia) ltac:(lia)) as Er.
  assert (near ack (u32 (seq + len))) as Hnr
    by (apply sdist_pos_near; [apply u32_range|lia]).
  rewrite (seq_after_sdist ack ack seq) by lia. rewrite (seq_after_sdist ack _ ack) by lia.
  rewrite Hz, Er, <- (sdist_near _ _ Hnr), Er.
  destruct (Z.ltb_spec (sdist ack seq) 0).
  - rewrite off_base. split_and!; try done; try lia. by apply near_base.
  - assert (near ack seq) as Hn by (by apply sdist_pos_near).
    rewrite <- (sdist_near _ _ Hn). split_and!; try done; lia.
Qed.

Lemma normalize_spec segs acc lo :
  acc_ok lo acc -> ofo_ok lo segs ->
  Z.of_nat (length acc + length segs) <= TCP_OFO_MAX_SEGS ->
  let res := normalize_ofo ack segs acc in
  blocks_ok res /\
  forall x, 0 <= x -> blocks_at res x = blocks_at (rev acc) x || existsb (seg_at x) segs.
Proof.
  cbn zeta. revert acc lo. induction segs as [|[seq len] t IH]; intros acc lo Hacc Hok Hlen;
    cbn [normalize_ofo ofo_ok existsb length] in *.
  - split; [apply Hacc|]. intros x _. by rewrite orb_false_r.
  - destruct Hok as (Hs & Hl & Hlo & Hm & Hr & Hok).
    pose proof (normalize_step seq len acc lo Hacc Hs) as Hst.
    assert (acc_ok (sdist ack seq) acc) as Hacc'
      by (destruct Hacc as [A1 A2]; split; [done|destruct acc; [done|lia]]).
    destruct ((len =? 0) || _) eqn:Eskip.
    { assert (sdist ack seq + len <= 0 \/ len = 0) as Hz.
      { apply orb_true_iff in Eskip as [E|E]; bprop; [by right|].
        destruct (decide (len = 0)); [by right|]. destruct (decide (sdist ack seq + len <= 0)); [by left|].
        destruct Hst as (_ & _ & _ & _ & E2); try lia. congruence. }
      destruct (IH acc (sdist ack seq) Hacc' Hok ltac:(lia)) as [I1 I2]. split; [done|].
      intros x Hx. rewrite I2 by done. unfold seg_at at 2. cbn [fst snd].
      replace ((sdist ack seq <=? x) && (x <? sdist ack seq + len)) with false by lia. done. }
    apply orb_false_iff in Eskip as [E0 E1]. bprop.
    assert (0 < sdist ack seq + len) as Hpos.
    { destruct (decide (0 < sdist ack seq + len)); [done|].
      assert (sdist ack ack = 0) as Hz by (rewrite sdist_near, off_base; [done|by apply near_base]).
      rewrite (seq_after_sdist ack _ ack) in E1; rewrite ?Hz, sdist_add in *; try done; try lia. }
    destruct Hst as (Hnl & Hnr & El & Er & _); try lia. clear E1.
    set (right := u32 (seq + len)) in *.
    set (left := if tcp_options_seq_after ack seq then ack else seq) in *. clearbody left right.
    assert (forall x, 0 <= x -> in_range ack (mk_range left right 0) x = seg_at x (seq, len)) as Hsame.
    { intros x Hx. unfold in_range, seg_at. cbn. rewrite El, Er. lia. }
    destruct acc as [|b older].
    + assert (acc_ok (sdist ack seq) [mk_block left right]) as Hn.
      { split; [|cbn [bleft]; lia]. apply (blocks_ok_snoc [] (mk_block left right)).
        cbn [bleft bright List.last map].
        split_and!; try done; lia. }
      destruct (IH [mk_block left right] (sdist ack seq) Hn Hok ltac:(cbn [length]; lia)) as [I1 I2].
      split; [done|]. intros x Hx. rewrite I2 by done. cbn [rev app].
      rewrite (blocks_at_snoc [] (mk_block left right)). unfold to_range. cbn [bleft bright].
      by rewrite Hsame.
    + destruct Hacc' as [A1 A2]. cbn [rev] in *. pose proof A1 as A1'.
      apply blocks_ok_snoc in A1 as (B1 & B2 & B3 & B4 & B5).
      assert (forall y, near ack y -> tcp_options_seq_after y (bright b) = (o (bright b) <? o y)) as Hcmp.
      { intros y Hy. pose proof (off_range ack y). pose proof (off_range ack (bright b)).
        pose proof (sdist_near _ _ Hy) as E1. pose proof (sdist_near _ _ B3) as E2.
        rewrite (seq_after_sdist ack) by (rewrite E1, E2; destruct Hy, B3; lia).
        by rewrite E1, E2. }
      rewrite (Hcmp left Hnl), (Hcmp right Hnr).
      destruct (Z.ltb_spec (o (bright b)) (o left)) as [Hgap|Hgap]; cbn [negb].
      * destruct (Z.eqb_spec (Z.of_nat (length (b :: older))) TCP_OFO_MAX_SEGS);
          [unfold TCP_OFO_MAX_SEGS in *; cbn [length] in *; lia|].
        assert (acc_ok (sdist ack seq) (mk_block left right :: b :: older)) as Hn.
        { split; [|cbn [bleft]; lia]. cbn [rev]. apply blocks_ok_snoc. rewrite last_snoc. cbn [bleft bright].
          split_and!; try done; lia. }
        destruct (IH _ (sdist ack seq) Hn Hok ltac:(cbn [length] in *; lia)) as [I1 I2].
        split; [done|]. intros x Hx. rewrite I2 by done. cbn [rev].
        rewrite (blocks_at_snoc _ (mk_block left right)). unfold to_range. cbn [bleft bright].
        by rewrite Hsame, orb_assoc.
      * destruct (Z.ltb_spec (o (bright b)) (o right)) as [Hext|Hext].
        -- assert (acc_ok (sdist ack seq) (mk_block (bleft b) right :: older)) as Hn.
           { split; [|done]. cbn [rev]. apply blocks_ok_snoc. cbn [bleft bright]. split_and!; try done; lia. }
           destruct (IH _ (sdist ack seq) Hn Hok ltac:(cbn [length] in *; lia)) as [I1 I2].
           split; [done|]. intros x Hx. rewrite I2 by done. cbn [rev]. rewrite !blocks_at_snoc.
           rewrite <- Hsame by done. unfold in_range, to_range. cbn [rleft rright bleft bright].
           destruct (blocks_at (rev older) x), (existsb (seg_at x) t); try lia.
        -- destruct (IH (b :: older) (sdist ack seq) ltac:(by split) Hok ltac:(cbn [length] in *; lia))
             as [I1 I2].
           split; [done|]. intros x Hx. rewrite I2 by done. cbn [rev]. rewrite !blocks_at_snoc.
           rewrite <- Hsame by done. unfold in_range, to_range. cbn [rleft rright bleft bright].
           destruct (blocks_at (rev older) x), (existsb (seg_at x) t); try lia.
Qed.
End Normalize.

(** ** Selecting the reported blocks *)

Section Collect.
Context (cap : Z) (allowed : tcp_sack_block -> Prop).

(** At most [cap] blocks, each allowed, none inside an earlier one. *)
Definition report_ok (out : list tcp_sack_block) : Prop :=
  Z.of_nat (length out) <= cap /\ Forall allowed out /\
  forall i j a b, (i < j)%nat -> out !! i = Some a -> out !! j = Some b ->
    tcp_options_block_contains a b = false.

(** [b] lies inside a reported block. *)
Definition reported (out : list tcp_sack_block) (b : tcp_sack_block) : Prop :=
  exists a, a ∈ out /\ tcp_options_block_contains a b = true.

Definition extends (out out' : list tcp_sack_block) : Prop := exists k, out' = out ++ k.

Lemma extends_refl out : extends out out.
Proof. exists []. by rewrite app_nil_r. Qed.
Lemma extends_trans a b c : extends a b -> extends b c -> extends a c.
Proof. intros [k ->] [l ->]. exists (k ++ l). by rewrite app_assoc. Qed.
Lemma extends_reported a b x : extends a b -> reported a x -> reported b x.
Proof. intros [k ->] (y & Hy & Hc). exists y. split; [|done]. apply elem_of_app. by left. Qed.
Lemma extends_length a b : extends a b -> (length a <= length b)%nat.
Proof. intros [k ->]. rewrite length_app. lia. Qed.

Lemma contains_refl b : tcp_options_block_contains b b = true.
Proof.
  unfold tcp_options_block_contains, tcp_options_seq_after. by rewrite !Z.sub_diag.
Qed.

Lemma add_distinct_spec b out :
  report_ok out -> allowed b ->
  let out' := tcp_options_add_distinct cap b out in
  report_ok out' /\ extends out out' /\
  (Z.of_nat (length out') < cap -> reported out' b).
Proof.
  intros (H1 & H2 & H3) Hb. cbn zeta. unfold tcp_options_add_distinct.
  destruct (existsb _ out) eqn:Ee.
  - split; [by split_and!|]. split; [apply extends_refl|]. intros _.
    apply existsb_exists in Ee as (a & Ha & Hc). exists a. split; [by apply list_elem_of_In|done].
  - destruct (Z.leb_spec cap (Z.of_nat (length out))).
    { split; [by split_and!|]. split; [apply extends_refl|]. lia. }
    split; [|split; [by exists [b]|]].
    + split_and!; [rewrite length_app; cbn; lia|apply Forall_app; by repeat constructor|].
      intros i j x y Hij Hx Hy. apply lookup_app_Some in Hy as [Hy|[Hj Hy]].
      * apply lookup_app_Some in Hx as [Hx|[Hi _]]; [by eapply H3|].
        apply lookup_lt_Some in Hy. lia.
      * apply list_lookup_singleton_Some in Hy as [Hj' <-].
        rewrite lookup_app_l in Hx by lia.
        destruct (tcp_options_block_contains x b) eqn:Ec; [|done].
        rewrite <- Ee. symmetry. apply existsb_exists. exists x. split; [|done].
        apply list_elem_of_In. by eapply list_elem_of_lookup_2.
    + intros _. exists b. split; [apply elem_of_app; right; by constructor|apply contains_refl].
Qed.

(** Folding any step that only adds allowed blocks keeps the report. *)
Lemma fold_report {A} (f : list tcp_sack_block -> A -> list tcp_sack_block) l out :
  (forall o a, a ∈ l -> report_ok o -> report_ok (f o a) /\ extends o (f o a)) ->
  report_ok out -> report_ok (foldl f out l) /\ extends out (foldl f out l).
Proof.
  revert out. induction l as [|a t IH]; intros out Hf Hout; cbn [foldl]; [by split; [|apply extends_refl]|].
  destruct (Hf out a ltac:(by left) Hout) as [H1 H2].
  destruct (IH (f out a)) as [I1 I2]; [intros; apply Hf; [by right|done]|done|].
  split; [done|]. by eapply extends_trans.
Qed.

Lemma add_remaining_spec l out :
  report_ok out -> Forall allowed l ->
  let out' := foldl (add_remaining cap) out l in
  report_ok out' /\ extends out out' /\
  (Z.of_nat (length out') < cap -> Forall (reported out') l).
Proof.
  cbn zeta. revert out. induction l as [|n t IH]; intros out Hout Hall; cbn [foldl];
    [split_and!; [done|apply extends_refl|by constructor]|].
  inversion_clear Hall as [|? ? Hn Ht]. unfold add_remaining at 2 4 6 8.
  destruct (Z.ltb_spec (Z.of_nat (length out)) cap).
  - destruct (add_distinct_spec n out Hout Hn) as (A1 & A2 & A3).
    destruct (IH _ A1 Ht) as (I1 & I2 & I3). split; [done|].
    split; [by eapply extends_trans|]. intros Hlt. constructor; [|by apply I3].
    eapply extends_reported; [exact I2|]. apply A3. pose proof (extends_length _ _ I2). lia.
  - destruct (IH _ Hout Ht) as (I1 & I2 & I3). split; [done|]. split; [done|].
    intros Hlt. pose proof (extends_length _ _ I2). lia.
Qed.
End Collect.

Lemma history_step cap (allowed : tcp_sack_block -> Prop) normalized out h :
  Forall allowed normalized -> report_ok cap allowed out ->
  report_ok cap allowed (add_history cap normalized out h) /\
  extends out (add_history cap normalized out h).
Proof.
  intros Hn Hout. unfold add_history.
  destruct (_ <? cap); [|by split; [|apply extends_refl]].
  destruct (List.find _ normalized) as [n|] eqn:Ef; [|by split; [|apply extends_refl]].
  apply List.find_some in Ef as [Ef _]. rewrite Forall_forall in Hn.
  destruct (add_distinct_spec cap allowed n out Hout) as (A1 & A2 & _); [|by split].
  apply Hn. by apply list_elem_of_In.
Qed.

(** Start of the report: the one-shot D-SACK and the block around it. *)
Definition dsack_report (cap : Z) (normalized : list tcp_sack_block) (s : tcp_opt_state) :=
  let o0 := tcp_options_add_distinct cap (dsack_block s) [] in
  if tcp_options_seq_after (bright (dsack_block s)) (recv_ack s) then
    match List.find (fun n => tcp_options_block_contains n (dsack_block s)) normalized with
    | Some n => tcp_options_add_distinct cap n o0
    | None => o0
    end
  else o0.

Lemma dsack_report_spec cap (allowed : tcp_sack_block -> Prop) normalized s :
  0 < cap -> Forall allowed normalized -> allowed (dsack_block s) ->
  report_ok cap allowed (dsack_report cap normalized s) /\
  extends [dsack_block s] (dsack_report cap normalized s).
Proof.
  intros Hcap Hn Hd. unfold dsack_report.
  assert (tcp_options_add_distinct cap (dsack_block s) [] = [dsack_block s]) as ->.
  { unfold tcp_options_add_distinct. cbn [existsb length].
    by destruct (Z.leb_spec cap (Z.of_nat 0)); [lia|]. }
  assert (report_ok cap allowed [dsack_block s]) as H1.
  { split_and!; [cbn; lia|by repeat constructor|].
    intros i j a b Hij Ha Hb. apply lookup_lt_Some in Hb. cbn in Hb. lia. }
  destruct (tcp_options_seq_after _ _); [|by split; [|apply extends_refl]].
  destruct (List.find _ normalized) as [n|] eqn:Ef; [|by split; [|apply extends_refl]].
  apply List.find_some in Ef as [Ef _]. rewrite Forall_forall in Hn.
  destruct (add_distinct_spec cap allowed n _ H1) as (A1 & A2 & _); [|by split].
  apply Hn. by apply list_elem_of_In.
Qed.

(** A reported block is the D-SACK, or a maximal run of queued bytes. *)
Definition reportable (s : tcp_opt_state) (b : tcp_sack_block) : Prop :=
  b ∈ normalize_ofo (recv_ack s) (ofo s) [] \/ (dsack_pending s = true /\ b = dsack_block s).

Lemma collect_spec cap s :
  0 <= cap ->
  let '(out, s') := tcp_options_collect_sacks cap s in
  let normalized := normalize_ofo (recv_ack s) (ofo s) [] in
  report_ok cap (reportable s) out /\
  (dsack_pending s = true -> 0 < cap -> extends [dsack_block s] out) /\
  (Z.of_nat (length out) < cap -> Forall (reported out) normalized) /\
  dsack_pending s' = dsack_pending s && (cap =? 0) /\ sack_recent_valid s' = false.
Proof.
  intros Hcap. unfold tcp_options_collect_sacks.
  set (normalized := normalize_ofo (recv_ack s) (ofo s) []).
  assert (Forall (reportable s) normalized) as Hn
    by (apply Forall_forall; intros; by left).
  set (recent := if sack_recent_valid s then _ else None).
  assert (forall n, recent = Some n -> reportable s n) as Hrec.
  { intros n. unfold recent. destruct (sack_recent_valid s); [|done].
    intros Ef. apply List.find_some in Ef as [Ef _]. left. by apply list_elem_of_In. }
  clearbody recent. fold (dsack_report cap normalized s).
  set (use := dsack_pending s && negb (cap =? 0)).
  set (out1 := if use then _ else []).
  assert (report_ok cap (reportable s) out1 /\
          (dsack_pending s = true -> 0 < cap -> extends [dsack_block s] out1)) as [R1 X1].
  { unfold out1. destruct use eqn:Eu.
    - unfold use in Eu. bprop. destruct (dsack_report_spec cap (reportable s) normalized s)
        as [? ?]; [lia|done|by right|]. by split.
    - split; [split_and!; [done|by constructor|done]|]. intros Hd Hc. unfold use in Eu.
      rewrite Hd in Eu. destruct (Z.eqb_spec cap 0); [lia|done]. }
  clearbody out1. set (s1 := if use then _ else s).
  assert (dsack_pending s1 = dsack_pending s && (cap =? 0)) as Ed.
  { unfold s1, use. destruct (dsack_pending s) eqn:E1, (cap =? 0); cbn; done. }
  clearbody s1. set (pr := match recent with Some n => _ | None => _ end).
  assert (report_ok cap (reportable s) (fst pr) /\ extends out1 (fst pr) /\
          dsack_pending (snd pr) = dsack_pending s1) as (R2 & X2 & D2).
  { unfold pr. destruct recent as [n|]; [|split_and!; [done|apply extends_refl|done]].
    destruct (add_distinct_spec cap (reportable s) n out1 R1) as (A1 & A2 & _); [by apply Hrec|].
    split_and!; done. }
  clearbody pr. destruct pr as [out2 s2]. cbn [fst snd] in *.
  destruct (fold_report cap (reportable s) (add_history cap normalized)
    (sack_history (with_sack_recent_valid false s2)) out2) as [R3 X3]; [|done|].
  { intros out h _ Hout. by apply history_step. }
  destruct (add_remaining_spec cap (reportable s) normalized _ R3 Hn) as (R4 & X4 & F4).
  split_and!; try done; [|by rewrite <- Ed, <- D2].
  intros Hd Hc. eapply extends_trans; [by apply X1|]. eapply extends_trans; [exact X2|].
  eapply extends_trans; [exact X3|exact X4].
Qed.

Section Report.
Context (s : tcp_opt_state).
Abbreviation ack := (recv_ack s).
Hypothesis Hack : in_u32 ack.
Hypothesis Hofo : ofo_ok ack (-2147483648) (ofo s).
Hypothesis Hlen : Z.of_nat (length (ofo s)) <= TCP_OFO_MAX_SEGS.

(** [b] is a nonempty run of bytes the queue holds above RCV.NXT. *)
Definition queued_run (b : tcp_sack_block) : Prop :=
  near ack (bleft b) /\ near ack (bright b) /\ off ack (bleft b) < off ack (bright b) /\
  forall x, off ack (bleft b) <= x < off ack (bright b) ->
    existsb (seg_at ack x) (ofo s) = true.

Lemma normalized_spec :
  let normalized := normalize_ofo ack (ofo s) [] in
  blocks_ok ack normalized /\
  forall x, 0 <= x -> blocks_at ack normalized x = existsb (seg_at ack x) (ofo s).
Proof.
  destruct (normalize_spec ack Hack (ofo s) [] (-2147483648)) as [H1 H2]; try done.
Qed.

Lemma score_elem E lo l r :
  ranges_ok ack E lo l -> r ∈ l ->
  near ack (rleft r) /\ near ack (rright r) /\ off ack (rleft r) < off ack (rright r).
Proof.
  revert lo. induction l as [|a t IH]; intros lo Hok Hin; [by apply elem_of_nil in Hin|].
  cbn [ranges_ok] in Hok. destruct Hok as (H1 & H2 & _ & H3 & Hok).
  apply elem_of_cons in Hin as [->|Hin]; [split_and!; done || lia|by eapply IH].
Qed.

Lemma normalized_run b : b ∈ normalize_ofo ack (ofo s) [] -> queued_run b.
Proof.
  intros Hb. destruct normalized_spec as [H1 H2].
  destruct (score_elem _ _ _ (to_range b) H1) as (N1 & N2 & N3); [by apply list_elem_of_fmap_2|].
  split_and!; try done. intros x Hx. pose proof (off_range ack (bleft b)).
  rewrite <- H2 by lia. apply existsb_exists. exists (to_range b).
  split; [by apply in_map, list_elem_of_In|]. unfold in_range. cbn [to_range rleft rright]. lia.
Qed.

Lemma run_wire_ok b : queued_run b -> block_wire_ok b.
Proof.
  intros (H1 & H2 & H3 & _). split; [apply H1|]. split; [apply H2|].
  pose proof (off_range ack (bleft b)). destruct (H2) as [_ H4].
  rewrite (seq_after_sdist ack) by (rewrite !sdist_near by done; lia).
  rewrite !sdist_near by done. lia.
Qed.
End Report.

Lemma sack_collect_ok cap s :
  in_u32 (recv_ack s) -> ofo_ok (recv_ack s) (-2147483648) (ofo s) ->
  Z.of_nat (length (ofo s)) <= TCP_OFO_MAX_SEGS ->
  (dsack_pending s = true -> block_wire_ok (dsack_block s)) -> 0 < cap ->
  let '(out, _) := tcp_options_collect_sacks cap s in
  Z.of_nat (length out) <= cap /\ Forall block_wire_ok out.
Proof.
  intros H1 H2 H3 H4 H5. pose proof (collect_spec cap s ltac:(lia)) as Hc.
  destruct (tcp_options_collect_sacks cap s) as [out s'].
  destruct Hc as ((C1 & C2 & _) & _). split; [done|].
  eapply Forall_impl; [exact C2|]. intros b [Hn|[Hd ->]]; [|by apply H4].
  eapply run_wire_ok, normalized_run; done.
Qed.

(** C33: the receiver's SACK report is accurate.  At most [cap] blocks are
    reported; a pending D-SACK comes first and is consumed; every other block
    is a nonempty run of bytes the out-of-order queue really holds above
    RCV.NXT; no block repeats part of the report inside an earlier one; and
    when the report is not full, every queued byte above RCV.NXT lies in a run
    that a reported block contains. *)
Theorem sack_report_accurate cap s
  (Hack : in_u32 (recv_ack s)) (Hofo : ofo_ok (recv_ack s) (-2147483648) (ofo s))
  (Hlen : Z.of_nat (length (ofo s)) <= TCP_OFO_MAX_SEGS) (Hcap : 0 < cap) :
  let '(out, s') := tcp_options_collect_sacks cap s in
  Z.of_nat (length out) <= cap /\ dsack_pending s' = false /\
  (dsack_pending s = true -> hd_error out = Some (dsack_block s)) /\
  (forall b, b ∈ out -> queued_run s b \/ (dsack_pending s = true /\ b = dsack_block s)) /\
  (forall i j a b, (i < j)%nat -> out !! i = Some a -> out !! j = Some b ->
     tcp_options_block_contains a b = false) /\
  (Z.of_nat (length out) < cap ->
   forall x, 0 <= x -> existsb (seg_at (recv_ack s) x) (ofo s) = true ->
     exists run, in_range (recv_ack s) (to_range run) x = true /\ queued_run s run /\
                 reported out run).
Proof.
  pose proof (collect_spec cap s ltac:(lia)) as Hc.
  destruct (tcp_options_collect_sacks cap s) as [out s'].
  destruct Hc as ((C1 & C2 & C3) & C4 & C5 & C6 & _). cbv zeta in C5.
  split_and!; try done.
  - rewrite C6. destruct (Z.eqb_spec cap 0); [lia|]. apply andb_false_r.
  - intros Hd. destruct (C4 Hd Hcap) as [k ->]. done.
  - intros b Hb. rewrite Forall_forall in C2. destruct (C2 b Hb) as [Hn|Hd]; [left|by right].
    by apply normalized_run.
  - intros Hlt x Hx Hs. specialize (C5 Hlt). destruct (normalized_spec s Hack Hofo Hlen) as [_ N2].
    rewrite <- N2 in Hs by done. apply existsb_exists in Hs as (r & Hr & Hin).
    apply in_map_iff in Hr as (run & <- & Hr). apply list_elem_of_In in Hr.
    exists run. rewrite Forall_forall in C5. split_and!; [done|by apply normalized_run|by apply C5].
Qed.

(** A queue of two segments above RCV.NXT, adjacent across the wrap, and a
    third one further up. *)
Definition report_demo : tcp_opt_state :=
  mk_opt true 77 true 0 0 false 0 0 true true true true (mk_block 300 310) [] true
    (mk_block 300 310) [] false 0 0 false 7 4294967000 0
    [(4294967200, 96); (0, 50); (300, 20)] (tcp_sack_state_init 0).

Lemma sack_report_accurate_witness :
  let '(out, s') := tcp_options_collect_sacks 3 report_demo in
  Z.of_nat (length out) <= 3 /\ dsack_pending s' = false /\
  hd_error out = Some (mk_block 300 310).
Proof.
  pose proof (sack_report_accurate 3 report_demo ltac:(vm_compute; split; congruence)
    ltac:(repeat split; vm_compute; congruence) ltac:(vm_compute; congruence)
    ltac:(vm_compute; reflexivity)) as H.
  destruct (tcp_options_collect_sacks 3 report_demo) as [out s'].
  destruct H as (H1 & H2 & H3 & _). split; [exact H1|]. split; [exact H2|]. exact (H3 eq_refl).
Defined.

Example report_demo_blocks :
  fst (tcp_options_collect_sacks 3 report_demo)
  = [mk_block 300 310; mk_block 300 320; mk_block 4294967200 50].
Proof. reflexivity. Qed.

(** ** Established segments *)

(** Recording the Timestamp clock does not change the report. *)
Lemma collect_ts_last cap v s :
  fst (tcp_options_collect_sacks cap (with_ts_last_val v s)) = fst (tcp_options_collect_sacks cap s).
Proof.
  unfold tcp_options_collect_sacks.
  cbn [recv_ack ofo sack_recent_valid sack_recent dsack_pending dsack_block with_ts_last_val].
  destruct (if sack_recent_valid s then _ else _), (dsack_pending s && _); done.
Qed.

(** The blocks an established segment reports. *)
Definition segment_blocks (s : tcp_opt_state) : list tcp_sack_block :=
  if sack_permitted s && (dsack_pending s || negb (bool_decide (ofo s = [])))
  then fst (tcp_options_collect_sacks (if timestamps_ok s then 3 else 4) s) else [].

(** Emission of the SACK option behind a word-aligned prefix. *)
Lemma emit_sack_spec s f bytes cap :
  in_u32 (recv_ack s) -> ofo_ok (recv_ack s) (-2147483648) (ofo s) ->
  Z.of_nat (length (ofo s)) <= TCP_OFO_MAX_SEGS ->
  (dsack_pending s = true -> block_wire_ok (dsack_block s)) ->
  has_flag (tcp_flags f) RTE_TCP_ACK_FLAG = true ->
  frag_bytes f bytes -> Z.of_nat (length bytes) mod 4 = 0 ->
  cap = Z.min ((38 - Z.of_nat (length bytes)) / 8) 4 -> 0 < cap ->
  let bs := if sack_permitted s && (dsack_pending s || negb (bool_decide (ofo s = [])))
            then fst (tcp_options_collect_sacks cap s) else [] in
  Forall block_wire_ok bs /\ (length bs <= 4)%nat /\
  exists f' s', tcp_options_emit_sack s f = (Some f', s') /\ tcp_flags f' = tcp_flags f /\
    frag_bytes f' (bytes ++ if bool_decide (bs = []) then []
       else [TCP_OPT_SACK; u8 (2 + Z.of_nat (length bs) * 8)] ++ mjoin (map block_bytes bs)).
Proof.
  intros Hack Hofo Hlen Hd Hflag Hf Hm Ecap Hcap. cbn zeta. unfold tcp_options_emit_sack.
  pose proof Hf as (Hl & _ & Hn). rewrite Hflag, Hn. cbn [negb orb].
  replace ((Z.of_nat (length bytes) + 3) / 4 * 4) with (Z.of_nat (length bytes))
    by (Z.to_euclidean_division_equations; lia).
  destruct (Z.ltb_spec 40 (Z.of_nat (length bytes) + 2));
    [exfalso; revert Ecap Hcap; Z.to_euclidean_division_equations; lia|].
  rewrite orb_false_r.
  replace (negb (sack_permitted s) || negb (dsack_pending s) && bool_decide (ofo s = []))
    with (negb (sack_permitted s && (dsack_pending s || negb (bool_decide (ofo s = [])))))
    by (by destruct (sack_permitted s), (dsack_pending s), (bool_decide _)).
  destruct (sack_permitted s && _); cbn [negb].
  2: { split; [constructor|]. split; [cbn; lia|]. exists f, s. rewrite app_nil_r. done. }
  rewrite (u8_small) by (wunfold; Z.to_euclidean_division_equations; lia).
  replace (Z.min ((40 - Z.of_nat (length bytes) - 2) / 8) (Z.of_nat TCP_SACK_MAX_BLOCKS)) with cap
    by (rewrite Ecap; unfold TCP_SACK_MAX_BLOCKS; f_equal; f_equal; lia).
  pose proof (sack_collect_ok cap s) as Hr. destruct (tcp_options_collect_sacks cap s) as [out s'].
  cbn [fst]. destruct Hr as [R1 R2]; try done.
  split; [done|]. split; [lia|].
  destruct (bool_decide_reflect (out = [])) as [->|Hne].
  { exists f, s'. rewrite app_nil_r. done. }
  set (data := [_; _] ++ _).
  assert (length data = 2 + 8 * length out)%nat as Hdl
    by (unfold data; rewrite length_app, blocks_bytes_length; done).
  destruct (append_bytes f bytes data Hf Hm) as (f' & -> & H1 & H2);
    [revert R1; rewrite Ecap, Hdl; Z.to_euclidean_division_equations; lia|].
  exists f', s'. done.
Qed.

(** C32: options of an established segment survive the wire.  For a non-SYN
    ACK segment, encoding never fails, and the peer's parser returns exactly
    the Timestamp pair (when negotiated) and exactly the reported SACK blocks
    in order: at most three beside a Timestamp, four without. *)
Theorem established_options_roundtrip now s f
  (Hnow : in_u32 now) (Hts : in_u32 (ts_recent s)) (Hack : in_u32 (recv_ack s))
  (Hofo : ofo_ok (recv_ack s) (-2147483648) (ofo s))
  (Hlen : Z.of_nat (length (ofo s)) <= TCP_OFO_MAX_SEGS)
  (Hd : dsack_pending s = true -> block_wire_ok (dsack_block s))
  (Hsyn : has_flag (tcp_flags f) RTE_TCP_SYN_FLAG = false)
  (Hackf : has_flag (tcp_flags f) RTE_TCP_ACK_FLAG = true) :
  exists f' s', tcp_options_apply_established now s f = (Some f', s') /\
    tcp_options_parse (data_off f') (tcp_flags f) (options f') =
      Some (mk_rx TCP_DEFAULT_MSS 0 false false (segment_blocks s) (timestamps_ok s)
              (if timestamps_ok s then now else 0) (if timestamps_ok s then ts_recent s else 0)).
Proof.
  unfold tcp_options_apply_established, tcp_options_emit_timestamp, tcp_options_ts_now.
  set (ts := timestamps_ok s).
  replace (if ts then (now, with_ts_last_val now s) else (0, s))
    with ((if ts then now else 0), (if ts then with_ts_last_val now s else s)) by (by destruct ts).
  set (s1 := if ts then with_ts_last_val now s else s).
  destruct (append_if ts (frag_clear f) [] ([TCP_OPT_NOP; TCP_OPT_NOP; TCP_OPT_TIMESTAMP; 10]
      ++ be32 (if ts then now else 0) ++ be32 (ts_recent s)) (frag_clear_bytes f))
    as (f1 & -> & H1 & F1); [done|cbn; lia|].
  destruct (emit_sack_spec s1 f1 _ (if ts then 3 else 4)
      ltac:(unfold s1; by destruct ts) ltac:(unfold s1; by destruct ts)
      ltac:(unfold s1; by destruct ts) ltac:(unfold s1; by destruct ts) ltac:(by rewrite F1) H1
      ltac:(by destruct ts) ltac:(by destruct ts) ltac:(by destruct ts))
    as (Hw & Hn & f2 & s2 & -> & F2 & H2).
  assert ((if sack_permitted s1 && (dsack_pending s1 || negb (bool_decide (ofo s1 = [])))
           then fst (tcp_options_collect_sacks (if ts then 3 else 4) s1) else [])
          = segment_blocks s) as Ebs.
  { unfold segment_blocks, s1, ts. destruct (timestamps_ok s); [|done].
    cbn [sack_permitted dsack_pending ofo with_ts_last_val]. by rewrite collect_ts_last. }
  rewrite Ebs in *. clear Ebs. set (bs := segment_blocks s) in *. clearbody bs.
  eexists _, _. split; [done|].
  erewrite (parse_finished f2); [|exact H2|].
  2: { unfold padded. rewrite <- !app_assoc, app_nil_l. unfold rx_init.
       instantiate (1 := mk_ps (mk_rx TCP_DEFAULT_MSS 0 false false bs ts
          (if ts then now else 0) (if ts then ts_recent s else 0)) false false
          (negb (bool_decide (bs = [])))).
       destruct ts; [rewrite <- !app_assoc, parse_timestamp by done|rewrite app_nil_l];
         (destruct (bool_decide_reflect (bs = [])) as [->|Hne];
           [rewrite app_nil_l; apply parse_all_zeros
           |rewrite parse_sack by (done || (destruct bs; [done|cbn [length] in *; lia]));
            apply parse_all_zeros]). }
  done.
Qed.

Lemma established_options_roundtrip_witness :
  exists f' s', tcp_options_apply_established 123456 report_demo (mk_frag 16 0 0 []) = (Some f', s') /\
    tcp_options_parse (data_off f') 16 (options f') =
      Some (mk_rx 1460 0 false false
              [mk_block 300 310; mk_block 300 320; mk_block 4294967200 50] true 123456 77).
Proof.
  destruct (established_options_roundtrip 123456 report_demo (mk_frag 16 0 0 [])) as (f' & s' & E & P).
  - vm_compute; split; congruence.
  - vm_compute; split; congruence.
  - vm_compute; split; congruence.
  - repeat split; vm_compute; congruence.
  - vm_compute; congruence.
  - intros _. repeat split; vm_compute; congruence.
  - reflexivity.
  - reflexivity.
  - exists f', s'. split; [exact E|exact P].
Defined.

(** ** Timestamps and segment size *)

(** PAWS.  On a non-RST segment of a stream that negotiated Timestamps, a
    missing Timestamp is answered with -1, and the segment is rejected with -2
    exactly when its sequence range is acceptable, it starts at or after
    RCV.NXT, TS.Recent is valid and at most 24 days old, and its TSval is
    serially before TS.Recent; in every other case it passes.  TS.Recent itself
    never changes here. *)
Theorem paws_decision now rx is_rst seg_seq ok s :
  let '(rc, s') := tcp_options_process_inbound now rx is_rst seg_seq ok s in
  ts_recent s' = ts_recent s /\ rx_sacks s' = sacks rx /\
  ((is_rst = true \/ timestamps_ok s = false) -> rc = 0) /\
  (is_rst = false -> timestamps_ok s = true ->
     (timestamp_present rx = false -> rc = -1) /\
     (timestamp_present rx = true ->
        rc = 0 \/ rc = -2) /\
     (rc = -2 <-> timestamp_present rx = true /\ ok = true /\
        0 <= i32 (seg_seq - recv_ack s) /\ ts_recent_valid s = true /\
        u32 (now - ts_recent_age_ms s) <= TCP_PAWS_IDLE_MS /\
        seq_lt (tsval rx) (ts_recent s) = true)).
Proof.
  unfold tcp_options_process_inbound, tcp_options_seq_at_or_after, seq_lt.
  cbn [timestamps_ok ts_recent_valid ts_recent_age_ms with_rx_sacks with_rx_tsecr with_rx_tsval
       with_rx_timestamp_present].
  destruct is_rst; cbn [orb]; [split_and!; intros; done || by left|].
  destruct (timestamps_ok s) eqn:Et; cbn [negb]; [|split_and!; intros; done || by right].
  destruct (timestamp_present rx) eqn:Ep; cbn [negb].
  2: { split_and!; try done; try (by intros [|]). intros _ _. split_and!; try done.
       split; [done|]. by intros [? _]. }
  destruct (ts_recent_valid s) eqn:Ev; cbn [andb].
  - destruct (Z.ltb_spec TCP_PAWS_IDLE_MS (u32 (now - ts_recent_age_ms s))) as [Hidle|Hidle].
    + cbn [ts_recent_valid with_ts_recent_valid]. rewrite andb_false_r. cbn [andb].
      split_and!; try done; try (by intros [|]). intros _ _. split_and!; try done; try (by left).
      split; [done|]. lia.
    + cbn [recv_ack ts_recent ts_recent_valid with_rx_sacks with_rx_tsecr with_rx_tsval
        with_rx_timestamp_present]. rewrite Ev.
      destruct (_ && _) eqn:Ec.
      * bprop. split_and!; try done; try (by intros [|]). intros _ _. split_and!; try done; try (by right).
        split; [|done]. intros _. split_and!; try done; lia.
      * split_and!; try done; try (by intros [|]). intros _ _. split_and!; try done; try (by left).
        split; [done|]. intros (_ & -> & H1 & _ & _ & H2). cbn [andb] in Ec. lia.
  - cbn [ts_recent_valid with_rx_sacks with_rx_tsecr with_rx_tsval with_rx_timestamp_present].
    rewrite Ev, andb_false_r. cbn [andb].
    split_and!; try done; try (by intros [|]). intros _ _. split_and!; try done; try (by left).
    split; [done|]. by intros (_ & _ & _ & ? & _).
Qed.

(** The payload limit leaves room for the options in one 1460-byte segment. *)
Lemma data_mss_bounds s f :
  in_u16 (snd_mss s) -> 0 <= opt_len f <= 10 ->
  0 <= tcp_options_data_mss s (Some f) /\
  tcp_options_data_mss s (Some f) + opt_len f * 4 <= TCP_DEFAULT_MSS /\
  (snd_mss s <> 0 -> tcp_options_data_mss s (Some f) <= snd_mss s).
Proof.
  intros Hm Ho. unfold tcp_options_data_mss, TCP_DEFAULT_MSS.
  destruct (Z.ltb_spec (opt_len f) 0); [lia|].
  rewrite (u16_small (opt_len f)) by (wunfold; lia).
  rewrite u16_small by (wunfold; lia).
  destruct (Z.ltb_spec 1460 (opt_len f * 4)); [lia|].
  destruct (Z.eqb_spec (snd_mss s) 0); bsplit; wunfold; lia.
Qed.
