(* ===== verification/Latency.v ===== *)
(** * Latency histograms (traffic-gen/core/latency.c)

    Log-linear histograms, per phase and class groups, and their merging.  The
    bucket array is a list of 976 counters; [__builtin_clzll] is 63 minus the
    binary logarithm.  CSV formatting is not modelled. *)

From S2P Require Import Prelude.

Definition TG_HIST_BUCKETS : nat := 976.

Record tg_histogram := mk_hist { buckets : list Z; hcount : Z; max_us : Z }.

Definition hist_zero : tg_histogram := mk_hist (replicate TG_HIST_BUCKETS 0) 0 0.

Definition tg_hist_index (us : Z) : Z :=
  if us <? 32 then us
  else
    let exponent := 63 - clz64 us in
    32 + (exponent - 5) * 16 + Z.shiftr us (exponent - 4) - 16.

Definition tg_hist_upper (index : Z) : Z :=
  if index <? 32 then index
  else
    let exponent := (index - 32) / 16 + 5 in
    let slot := (index - 32) mod 16 in
    if (exponent =? 63) && (slot =? 15) then UINT64_MAX
    else u64 (Z.shiftl (17 + slot) (exponent - 4)) - 1.

Definition tg_histogram_record (us : Z) (h : tg_histogram) : tg_histogram :=
  mk_hist (alter (fun b => u64 (b + 1)) (Z.to_nat (tg_hist_index us)) (buckets h))
    (u64 (hcount h + 1)) (if max_us h <? us then us else max_us h).

Definition tg_histogram_merge (dst src : tg_histogram) : tg_histogram :=
  mk_hist (zip_with (fun d s => u64 (d + s)) (buckets dst) (buckets src))
    (u64 (hcount dst + hcount src))
    (if max_us dst <? max_us src then max_us src else max_us dst).

(** The cumulative scan; [i] is the index of the head of [bs]. *)
Fixpoint quantile_scan (bs : list Z) (i sum rank max : Z) : Z :=
  match bs with
  | [] => max
  | b :: rest =>
      let sum' := u64 (sum + b) in
      if rank <=? sum' then
        let upper := tg_hist_upper i in if upper <? max then upper else max
      else quantile_scan rest (i + 1) sum' rank max
  end.

Definition tg_histogram_quantile (h : tg_histogram) (permille : Z) : Z :=
  if (hcount h =? 0) || (1000 <? permille) || (permille =? 0) then 0
  else
    let rank := u64 (u128 (u128 (hcount h * permille) + 999) / 1000) in
    quantile_scan (buckets h) 0 0 rank (max_us h).

Definition tg_us (cycles hz : Z) : Z :=
  u64 (u128 (u128 (u128 (cycles * 1000000) + hz) - 1) / hz).

(** ** Groups *)

(** Indices of [enum tg_latency_metric]. *)
Definition TG_LAT_SCHEDULE : nat := 0.
Definition TG_LAT_CONNECT : nat := 1.
Definition TG_LAT_FIRST_RX : nat := 2.
Definition TG_LAT_COMPLETE : nat := 3.
Definition TG_LAT_SCHEDULED_COMPLETE : nat := 4.
Definition TG_LAT_COMPLETE_SUCCESS : nat := 5.
Definition TG_LAT_COMPLETE_FAILURE : nat := 6.
Definition TG_LAT_METRICS : nat := 7.

Record tg_latency_group := mk_group {
  hist : list tg_histogram;
  admitted : Z;
  success : Z;
  failed : Z;
  start_failed : Z;
  planned_first : Z;
  planned_last : Z;
  actual_first : Z;
  actual_last : Z
}.

Definition with_hist (v : list tg_histogram) (s : tg_latency_group) : tg_latency_group :=
  mk_group v (admitted s) (success s) (failed s) (start_failed s)
   (planned_first s) (planned_last s) (actual_first s) (actual_last s) .
Definition with_admitted (v : Z) (s : tg_latency_group) : tg_latency_group :=
  mk_group (hist s) v (success s) (failed s) (start_failed s)
   (planned_first s) (planned_last s) (actual_first s) (actual_last s) .
Definition with_success (v : Z) (s : tg_latency_group) : tg_latency_group :=
  mk_group (hist s) (admitted s) v (failed s) (start_failed s)
   (planned_first s) (planned_last s) (actual_first s) (actual_last s) .
Definition with_failed (v : Z) (s : tg_latency_group) : tg_latency_group :=
  mk_group (hist s) (admitted s) (success s) v (start_failed s)
   (planned_first s) (planned_last s) (actual_first s) (actual_last s) .
Definition with_start_failed (v : Z) (s : tg_latency_group) : tg_latency_group :=
  mk_group (hist s) (admitted s) (success s) (failed s) v (planned_first s)
   (planned_last s) (actual_first s) (actual_last s) .
Definition with_planned_first (v : Z) (s : tg_latency_group) : tg_latency_group :=
  mk_group (hist s) (admitted s) (success s) (failed s) (start_failed s) v
   (planned_last s) (actual_first s) (actual_last s) .
Definition with_planned_last (v : Z) (s : tg_latency_group) : tg_latency_group :=
  mk_group (hist s) (admitted s) (success s) (failed s) (start_failed s)
   (planned_first s) v (actual_first s) (actual_last s) .
Definition with_actual_first (v : Z) (s : tg_latency_group) : tg_latency_group :=
  mk_group (hist s) (admitted s) (success s) (failed s) (start_failed s)
   (planned_first s) (planned_last s) v (actual_last s) .
Definition with_actual_last (v : Z) (s : tg_latency_group) : tg_latency_group :=
  mk_group (hist s) (admitted s) (success s) (failed s) (start_failed s)
   (planned_first s) (planned_last s) (actual_first s) v.

Definition group_zero : tg_latency_group :=
  mk_group (replicate TG_LAT_METRICS hist_zero) 0 0 0 0 0 0 0 0.

Record tg_latency := mk_latency {
  groups : option (list tg_latency_group);
  phase_count : Z;
  class_count : Z;
  hz : Z;
  drain_us : Z;
  drained : bool
}.

(** The fields of [struct tg_flow] this module reads and writes. *)
Record lat_flow := mk_lflow {
  planned_cycles : Z;
  load_phase_index : Z;
  class_index : Z;
  start_cycles : Z;
  connected_cycles : Z;
  first_rx_cycles : Z
}.

(** [alloc_ok] is the success of [calloc]; [None] is the [-1] return. *)
Definition tg_latency_init (alloc_ok : bool) (plan_classes plan_phases hz0 : Z) : option tg_latency :=
  if (plan_classes =? 0) || (plan_phases =? 0) || (hz0 =? 0) then None
  else if alloc_ok then
    Some (mk_latency (Some (replicate (Z.to_nat (plan_phases * plan_classes)) group_zero))
            plan_phases plan_classes hz0 0 false)
  else None.

Definition tg_latency_fini (l : tg_latency) : tg_latency := mk_latency None 0 0 0 0 false.

(** Index of a group; [None] is the null pointer. *)
Definition tg_group (l : tg_latency) (phase cls : Z) : option nat :=
  match groups l with
  | None => None
  | Some _ =>
      if (phase_count l <=? phase) || (class_count l <=? cls) then None
      else Some (Z.to_nat (u32 (u32 (phase * class_count l) + cls)))
  end.

Definition group_update (l : tg_latency) (i : nat) (f : tg_latency_group -> tg_latency_group)
    : tg_latency :=
  mk_latency (option_map (alter f i) (groups l)) (phase_count l) (class_count l) (hz l)
    (drain_us l) (drained l).

Definition hist_record (metric : nat) (us : Z) (g : tg_latency_group) : tg_latency_group :=
  with_hist (alter (tg_histogram_record us) metric (hist g)) g.

Definition group_admit (planned actual hz0 : Z) (g : tg_latency_group) : tg_latency_group :=
  let g1 := if admitted g =? 0 then with_actual_first actual (with_planned_first planned g) else g in
  let g2 := with_admitted (u64 (admitted g1 + 1)) (with_actual_last actual (with_planned_last planned g1)) in
  hist_record TG_LAT_SCHEDULE (tg_us (if planned <=? actual then actual - planned else 0) hz0) g2.

Definition tg_latency_on_admitted (l : tg_latency) (flow : lat_flow) (phase cls planned : Z)
    : tg_latency * lat_flow :=
  let flow' := mk_lflow planned phase cls (start_cycles flow) (connected_cycles flow)
                 (first_rx_cycles flow) in
  match tg_group l phase cls with
  | None => (l, flow')
  | Some i => (group_update l i (group_admit planned (start_cycles flow) (hz l)), flow')
  end.

Definition tg_latency_on_start_failed (l : tg_latency) (phase cls : Z) : tg_latency :=
  match tg_group l phase cls with
  | None => l
  | Some i => group_update l i (fun g => with_start_failed (u64 (start_failed g + 1)) g)
  end.

Definition group_finish (flow : lat_flow) (ok : bool) (now hz0 : Z) (g : tg_latency_group)
    : tg_latency_group :=
  let g1 := if ok then with_success (u64 (success g + 1)) g
            else with_failed (u64 (failed g + 1)) g in
  let g2 := if negb (connected_cycles flow =? 0) && (start_cycles flow <=? connected_cycles flow)
            then hist_record TG_LAT_CONNECT (tg_us (connected_cycles flow - start_cycles flow) hz0) g1
            else g1 in
  let g3 := if negb (first_rx_cycles flow =? 0) && (start_cycles flow <=? first_rx_cycles flow)
            then hist_record TG_LAT_FIRST_RX (tg_us (first_rx_cycles flow - start_cycles flow) hz0) g2
            else g2 in
  let g4 := if start_cycles flow <=? now then
              let us := tg_us (now - start_cycles flow) hz0 in
              hist_record (if ok then TG_LAT_COMPLETE_SUCCESS else TG_LAT_COMPLETE_FAILURE) us
                (hist_record TG_LAT_COMPLETE us g3)
            else g3 in
  if planned_cycles flow <=? now
  then hist_record TG_LAT_SCHEDULED_COMPLETE (tg_us (now - planned_cycles flow) hz0) g4 else g4.

Definition tg_latency_on_finished (l : tg_latency) (flow : lat_flow) (ok : bool) (now : Z)
    : tg_latency :=
  match tg_group l (load_phase_index flow) (class_index flow) with
  | None => l
  | Some i => group_update l i (group_finish flow ok now (hz l))
  end.

Definition tg_latency_on_drained (l : tg_latency) (stop now : Z) (clean : bool) : tg_latency :=
  match groups l with
  | None => l
  | Some _ =>
      mk_latency (groups l) (phase_count l) (class_count l) (hz l)
        (if stop <=? now then tg_us (now - stop) (hz l) else 0) clean
  end.

Definition tg_group_merge (dst src : tg_latency_group) : tg_latency_group :=
  let d1 := with_hist (zip_with tg_histogram_merge (hist dst) (hist src)) dst in
  let d2 :=
    if negb (admitted src =? 0) then
      let d := if (admitted d1 =? 0) || (planned_first src <? planned_first d1)
               then with_planned_first (planned_first src) d1 else d1 in
      let d := if (admitted d =? 0) || (actual_first src <? actual_first d)
               then with_actual_first (actual_first src) d else d in
      let d := if planned_last d <? planned_last src
               then with_planned_last (planned_last src) d else d in
      if actual_last d <? actual_last src then with_actual_last (actual_last src) d else d
    else d1 in
  with_start_failed (u64 (start_failed d2 + start_failed src))
    (with_failed (u64 (failed d2 + failed src))
      (with_success (u64 (success d2 + success src))
        (with_admitted (u64 (admitted d2 + admitted src)) d2))).
