(* ===== verification/LatencyFacts.v ===== *)
(** * Histogram accuracy (facts on Latency.v)

    The bucket map is monotone with at most 1/16 relative error, so a quantile
    read from the histogram is within 6.25 percent above the exact
    nearest-rank value of the recorded samples, and merging histograms is the
    same as recording all samples into one. *)

From S2P Require Import Prelude Latency.

(** ** The bucket map *)

(** Exponent, bucket width and quotient of a value from 32 up. *)
Lemma index_big us :
  32 <= us < 18446744073709551616 ->
  exists e q w, 5 <= e <= 63 /\ w = 2 ^ (e - 4) /\ 0 < w /\ 16 <= q <= 31 /\
    q * w <= us < (q + 1) * w /\ 16 * w <= us /\
    tg_hist_index us = 32 + (e - 5) * 16 + (q - 16) /\ e = Z.log2 us.
Proof.
  intros H. pose proof (Z.log2_spec us ltac:(lia)) as [L1 L2].
  assert (5 <= Z.log2 us) as He1 by (apply (Z.log2_le_mono 32); lia).
  assert (Z.log2 us < 64) as He2 by (apply Z.log2_lt_pow2; lia).
  set (e := Z.log2 us) in *. exists e, (us / 2 ^ (e - 4)), (2 ^ (e - 4)).
  assert (0 < 2 ^ (e - 4)) as Hw by (apply Z.pow_pos_nonneg; lia).
  assert (2 ^ e = 16 * 2 ^ (e - 4)) as Hp.
  { change 16 with (2 ^ 4). rewrite <- Z.pow_add_r by lia. f_equal. lia. }
  assert (2 ^ Z.succ e = 32 * 2 ^ (e - 4)) as Hp2 by (rewrite Z.pow_succ_r by lia; lia).
  remember (2 ^ (e - 4)) as w eqn:Ew.
  assert (16 <= us / w) by (apply Z.div_le_lower_bound; lia).
  assert (us / w < 32) by (apply Z.div_lt_upper_bound; lia).
  pose proof (Z.mul_div_le us w Hw). pose proof (Z.mul_succ_div_gt us w Hw).
  split_and!; try lia.
  unfold tg_hist_index, clz64. destruct (Z.ltb_spec us 32); [lia|].
  fold e. replace (63 - (63 - e)) with e by lia. rewrite Z.shiftr_div_pow2 by lia.
  rewrite <- Ew. lia.
Qed.

Lemma upper_big e q :
  5 <= e <= 63 -> 16 <= q <= 31 ->
  tg_hist_upper (32 + (e - 5) * 16 + (q - 16)) = (q + 1) * 2 ^ (e - 4) - 1.
Proof.
  intros He Hq. unfold tg_hist_upper.
  destruct (Z.ltb_spec (32 + (e - 5) * 16 + (q - 16)) 32); [lia|].
  replace ((32 + (e - 5) * 16 + (q - 16) - 32) / 16) with (e - 5)
    by (Z.to_euclidean_division_equations; lia).
  replace ((32 + (e - 5) * 16 + (q - 16) - 32) mod 16) with (q - 16)
    by (Z.to_euclidean_division_equations; lia).
  replace (e - 5 + 5) with e by lia.
  destruct (Z.eqb_spec e 63) as [->|He63]; destruct (Z.eqb_spec (q - 16) 15); cbn [andb].
  1: { replace q with 31 by lia. reflexivity. }
  all: rewrite Z.shiftl_mul_pow2 by lia; replace (17 + (q - 16)) with (q + 1) by lia;
    rewrite u64_small; [done|]; unfold in_u64.
  - change (2 ^ (63 - 4)) with 576460752303423488. lia.
  - assert (0 < 2 ^ (e - 4) <= 2 ^ 58) by (split; [apply Z.pow_pos_nonneg; lia|apply Z.pow_le_mono_r; lia]).
    change (2 ^ 58) with 288230376151711744 in *. nia.
  - assert (0 < 2 ^ (e - 4) <= 2 ^ 58) by (split; [apply Z.pow_pos_nonneg; lia|apply Z.pow_le_mono_r; lia]).
    change (2 ^ 58) with 288230376151711744 in *. nia.
Qed.

(** The index is inside the array, its bucket's upper bound is not below the
    value, and it is above it by less than a sixteenth. *)
Lemma bucket_bounds us :
  in_u64 us ->
  0 <= tg_hist_index us < Z.of_nat TG_HIST_BUCKETS /\
  us <= tg_hist_upper (tg_hist_index us) /\
  16 * (tg_hist_upper (tg_hist_index us) - us) <= us /\
  (us < 32 -> tg_hist_upper (tg_hist_index us) = us).
Proof.
  intros Hu. unfold in_u64 in Hu. change (Z.of_nat TG_HIST_BUCKETS) with 976.
  destruct (Z.ltb_spec us 32) as [Hs|Hs].
  - assert (tg_hist_index us = us) as -> by (unfold tg_hist_index; destruct (Z.ltb_spec us 32); lia).
    unfold tg_hist_upper. destruct (Z.ltb_spec us 32); lia.
  - destruct (index_big us ltac:(lia)) as (e & q & w & He & -> & Hw & Hq & Hu2 & Hu3 & -> & _).
    rewrite upper_big by lia. lia.
Qed.

Lemma index_mono a b : 0 <= a <= b -> in_u64 b -> tg_hist_index a <= tg_hist_index b.
Proof.
  intros Hab Hb. unfold in_u64 in Hb.
  assert (forall x, x < 32 -> tg_hist_index x = x) as Hsm
    by (intros x Hx; unfold tg_hist_index; destruct (Z.ltb_spec x 32); lia).
  destruct (Z.ltb_spec b 32); [rewrite !Hsm by lia; lia|].
  destruct (index_big b ltac:(lia)) as (eb & qb & wb & Heb & Ewb & Hwb & Hqb & Hb2 & _ & -> & Leb).
  destruct (Z.ltb_spec a 32); [rewrite Hsm by lia; lia|].
  destruct (index_big a ltac:(lia)) as (ea & qa & wa & Hea & Ewa & Hwa & Hqa & Ha2 & _ & -> & Lea).
  assert (ea <= eb) as Hle by (subst ea eb; apply Z.log2_le_mono; lia).
  destruct (decide (ea = eb)) as [Heq|]; [|lia].
  assert (wa = wb) as -> by (subst wa wb; by rewrite Heq).
  assert (qa <= qb); [|lia]. destruct (decide (qb < qa)); [|lia]. exfalso. nia.
Qed.

(** ** Histograms of a list of samples *)

Definition record_all (xs : list Z) : tg_histogram :=
  foldl (fun h x => tg_histogram_record x h) hist_zero xs.

(** Samples whose bucket index satisfies [f]. *)
Definition samples_where (f : Z -> bool) (xs : list Z) : Z :=
  Z.of_nat (length (List.filter (fun x => f (tg_hist_index x)) xs)).

Lemma samples_where_snoc f xs x :
  samples_where f (xs ++ [x]) = samples_where f xs + if f (tg_hist_index x) then 1 else 0.
Proof.
  unfold samples_where. rewrite List.filter_app, length_app. cbn. destruct (f _); cbn; lia.
Qed.

Lemma record_all_snoc xs x : record_all (xs ++ [x]) = tg_histogram_record x (record_all xs).
Proof. unfold record_all. by rewrite foldl_app. Qed.

Lemma record_all_spec xs :
  Forall in_u64 xs ->
  length (buckets (record_all xs)) = TG_HIST_BUCKETS /\
  (forall i, (i < TG_HIST_BUCKETS)%nat ->
     buckets (record_all xs) !! i = Some (u64 (samples_where (Z.eqb (Z.of_nat i)) xs))) /\
  hcount (record_all xs) = u64 (Z.of_nat (length xs)) /\
  max_us (record_all xs) = foldr Z.max 0 xs.
Proof.
  induction xs as [|x xs IH] using rev_ind; intros Hall.
  - split_and!; [done| |done|done]. intros i Hi.
    change (buckets (record_all [])) with (replicate TG_HIST_BUCKETS 0).
    rewrite lookup_replicate_2; [done|exact Hi].
  - apply Forall_app in Hall as [Hxs Hx]. inversion_clear Hx as [|? ? Hx' _].
    destruct (IH Hxs) as (L & B & N & M). rewrite record_all_snoc.
    destruct (bucket_bounds x Hx') as [Hidx _].
    unfold tg_histogram_record. cbn [buckets hcount max_us]. split_and!.
    + by rewrite length_alter.
    + intros i Hi. rewrite samples_where_snoc.
      destruct (Z.eqb_spec (Z.of_nat i) (tg_hist_index x)) as [Heq|Hne].
      * rewrite <- Heq, Nat2Z.id, list_lookup_alter, decide_True, B by done. cbn. f_equal.
        unfold u64. by rewrite Zplus_mod_idemp_l.
      * rewrite list_lookup_alter_ne by lia. rewrite B by done. by rewrite Z.add_0_r.
    + rewrite N, length_app. unfold u64. rewrite Zplus_mod_idemp_l. f_equal. cbn. lia.
    + rewrite M, foldr_app. cbn [foldr].
      assert (forall y, 0 <= y -> foldr Z.max y xs = Z.max y (foldr Z.max 0 xs)) as Hf.
      { clear. induction xs as [|a t IH]; intros y Hy; cbn; [lia|]. rewrite IH by done. lia. }
      unfold in_u64 in Hx'. rewrite (Hf (Z.max x 0)) by lia. bsplit; lia.
Qed.

(** ** Quantiles *)

(** Samples at or below the bucket [i]: what the scan has summed up. *)
Definition cum (xs : list Z) (i : Z) : Z := samples_where (fun k => k <=? i) xs.

Lemma cum_step xs i : cum xs i = cum xs (i - 1) + samples_where (Z.eqb i) xs.
Proof.
  unfold cum, samples_where. induction xs as [|x t IH]; [done|].
  cbn [List.filter]. destruct (Z.eqb_spec i (tg_hist_index x)), (Z.leb_spec (tg_hist_index x) i),
    (Z.leb_spec (tg_hist_index x) (i - 1)); cbn [length]; lia.
Qed.

Lemma samples_where_le f xs : 0 <= samples_where f xs <= Z.of_nat (length xs).
Proof.
  unfold samples_where. pose proof (List.filter_length_le (fun x => f (tg_hist_index x)) xs). lia.
Qed.

(** The scan from bucket [k] on returns the bound of the first bucket whose
    cumulative count reaches the rank. *)
Lemma scan_spec xs rank mx i n k :
  Forall in_u64 xs -> Z.of_nat (length xs) < 18446744073709551616 ->
  (forall j, (j < n)%nat -> k + Z.of_nat j <> i -> k + Z.of_nat j < i -> cum xs (k + Z.of_nat j) < rank) ->
  rank <= cum xs i -> k <= i < k + Z.of_nat n -> 0 <= k ->
  quantile_scan (map (fun j => u64 (samples_where (Z.eqb (k + Z.of_nat j)) xs)) (seq 0 n))
    k (cum xs (k - 1)) rank mx
  = (if tg_hist_upper i <? mx then tg_hist_upper i else mx).
Proof.
  intros Hall Hlen. revert k. induction n as [|n IH]; intros k Hbelow Hi Hk Hk0; [lia|].
  cbn [seq map quantile_scan].
  replace (k + Z.of_nat 0) with k by lia.
  pose proof (samples_where_le (Z.eqb k) xs).
  pose proof (samples_where_le (fun j => j <=? k) xs) as Hc. fold (cum xs k) in Hc.
  rewrite (u64_small (samples_where _ _)) by (unfold in_u64; lia).
  rewrite <- cum_step. rewrite u64_small by (unfold in_u64; lia).
  destruct (decide (k = i)) as [->|Hne].
  - destruct (Z.leb_spec rank (cum xs i)); [done|lia].
  - pose proof (Hbelow 0%nat ltac:(lia) ltac:(lia) ltac:(lia)) as H0.
    replace (k + Z.of_nat 0) with k in H0 by lia.
    destruct (Z.leb_spec rank (cum xs k)); [lia|].
    rewrite <- seq_shift, map_map. specialize (IH (k + 1)).
    replace (k + 1 - 1) with k in IH by lia.
    rewrite <- IH; try lia.
    + f_equal. apply map_ext. intros j. do 3 f_equal. lia.
    + intros j Hj J1 J2. specialize (Hbelow (S j) ltac:(lia) ltac:(lia) ltac:(lia)).
      by replace (k + 1 + Z.of_nat j) with (k + Z.of_nat (S j)) by lia.
Qed.

(** [x] is the exact nearest-rank value: at least [rank] samples are at most
    [x], fewer than [rank] are below it. *)
Definition nearest_rank (xs : list Z) (rank x : Z) : Prop :=
  x ∈ xs /\
  rank <= Z.of_nat (length (List.filter (fun y => y <=? x) xs)) /\
  Z.of_nat (length (List.filter (fun y => y <? x) xs)) < rank.

Lemma filter_length_mono {A} (f h : A -> bool) l :
  (forall a, a ∈ l -> f a = true -> h a = true) ->
  (length (List.filter f l) <= length (List.filter h l))%nat.
Proof.
  induction l as [|a t IH]; intros H; [done|]. cbn.
  specialize (IH ltac:(intros; apply H; [by right|done])).
  pose proof (H a ltac:(by left)). destruct (f a) eqn:Ef, (h a) eqn:Eh; cbn; try lia.
Qed.

(** The bucket of the nearest-rank value is where the scan stops. *)
Lemma rank_bucket xs rank x :
  Forall in_u64 xs -> nearest_rank xs rank x ->
  rank <= cum xs (tg_hist_index x) /\
  forall k, k < tg_hist_index x -> cum xs k < rank.
Proof.
  intros Hall (Hin & Hge & Hlt). rewrite Forall_forall in Hall.
  assert (in_u64 x) as Hx by (by apply Hall).
  split.
  - eapply Z.le_trans; [exact Hge|]. apply Nat2Z.inj_le. apply filter_length_mono.
    intros y Hy Hyx. specialize (Hall y Hy). unfold in_u64 in *. bprop.
    apply Z.leb_le, index_mono; [lia|done].
  - intros k Hk. eapply Z.le_lt_trans; [|exact Hlt]. apply Nat2Z.inj_le. apply filter_length_mono.
    intros y Hy Hyk. specialize (Hall y Hy). bprop. apply Z.ltb_lt.
    destruct (decide (y < x)); [done|].
    assert (tg_hist_index x <= tg_hist_index y); [|lia].
    apply index_mono; [unfold in_u64 in *; lia|done].
Qed.

Lemma list_max_ge xs x : x ∈ xs -> x <= foldr Z.max 0 xs.
Proof.
  induction xs as [|a t IH]; [by intros ?%elem_of_nil|]. cbn.
  intros [->|H]%elem_of_cons; [lia|]. specialize (IH H). lia.
Qed.

(** quantile accuracy.  For fewer than 2^64 recorded microsecond samples
    the quantile read from the histogram lies between the exact nearest-rank
    sample and 6.25 percent above it, and never above the largest sample; below
    32 us it is exact up to the histogram maximum. *)
Theorem quantile_within_sixteenth xs permille x
  (Hall : Forall in_u64 xs) (Hlen : Z.of_nat (length xs) < 18446744073709551616)
  (Hp : 1 <= permille <= 1000)
  (Hx : nearest_rank xs ((Z.of_nat (length xs) * permille + 999) / 1000) x) :
  let q := tg_histogram_quantile (record_all xs) permille in
  x <= q /\ 16 * (q - x) <= x /\ q <= foldr Z.max 0 xs /\ (x < 32 -> q = x).
Proof.
  destruct (record_all_spec xs Hall) as (L & B & N & M).
  pose proof Hx as (Hin & _ & _).
  assert (0 < Z.of_nat (length xs)) as Hpos by (destruct xs; [by apply elem_of_nil in Hin|cbn; lia]).
  cbn zeta. unfold tg_histogram_quantile. rewrite N, M, u64_small by (unfold in_u64; lia).
  destruct (Z.eqb_spec (Z.of_nat (length xs)) 0); [lia|].
  destruct (Z.ltb_spec 1000 permille); [lia|]. destruct (Z.eqb_spec permille 0); [lia|]. cbn [orb].
  assert (0 <= Z.of_nat (length xs) * permille <= Z.of_nat (length xs) * 1000) as Hm by nia.
  rewrite (u128_small (_ * _)) by lia. rewrite u128_small by lia.
  set (rank := (Z.of_nat (length xs) * permille + 999) / 1000) in *.
  rewrite (u64_small rank) by (unfold rank, in_u64; Z.to_euclidean_division_equations; lia).
  destruct (rank_bucket xs rank x Hall Hx) as [R1 R2].
  rewrite Forall_forall in Hall. pose proof (Hall x Hin) as Hxu.
  destruct (bucket_bounds x Hxu) as (B1 & B2 & B3 & B4).
  assert (buckets (record_all xs) =
    map (fun j => u64 (samples_where (Z.eqb (0 + Z.of_nat j)) xs)) (seq 0 TG_HIST_BUCKETS)) as ->.
  { apply list_eq. intros i. destruct (decide (i < TG_HIST_BUCKETS)%nat) as [Hi|Hi].
    - rewrite B by done. symmetry. apply list_lookup_fmap_Some. exists i.
      split; [done|]. by apply lookup_seq.
    - rewrite !lookup_ge_None_2; [done|rewrite length_fmap, length_seq; lia|lia]. }
  assert (cum xs (0 - 1) = 0) as E0.
  { unfold cum, samples_where.
    rewrite (List.filter_ext_in _ (fun _ => false)); [by rewrite List.filter_false|].
    intros y Hy. apply Z.leb_gt. apply list_elem_of_In in Hy.
    destruct (bucket_bounds y (Hall y Hy)) as [? _]. lia. }
  pose proof (scan_spec xs rank (foldr Z.max 0 xs) (tg_hist_index x) TG_HIST_BUCKETS 0
    ltac:(by apply Forall_forall) Hlen ltac:(intros j _ _ Hj; by apply R2) R1 ltac:(lia) ltac:(lia))
    as Hsc.
  rewrite E0 in Hsc. rewrite Hsc.
  pose proof (list_max_ge xs x Hin). bsplit; split_and!; lia.
Qed.

Lemma quantile_within_sixteenth_witness :
  let xs := [10; 1000; 40; 100000; 7] in
  40 <= tg_histogram_quantile (record_all xs) 500 /\
  16 * (tg_histogram_quantile (record_all xs) 500 - 40) <= 40.
Proof.
  assert (Forall in_u64 [10; 1000; 40; 100000; 7]) as H1
    by (repeat constructor; vm_compute; congruence).
  assert (nearest_rank [10; 1000; 40; 100000; 7] 3 40) as H2.
  { split; [right; right; left|]. split; vm_compute; congruence. }
  destruct (quantile_within_sixteenth [10; 1000; 40; 100000; 7] 500 40 H1
    ltac:(vm_compute; reflexivity) ltac:(split; vm_compute; congruence) H2) as (A & B & _).
  split; [exact A|exact B].
Defined.

(** ** Merging *)

Lemma merge_lookup (l k : list Z) i :
  length l = length k -> zip_with (fun d s => u64 (d + s)) l k !! i
  = match l !! i, k !! i with Some a, Some b => Some (u64 (a + b)) | _, _ => None end.
Proof. intros _. rewrite lookup_zip_with. by destruct (l !! i), (k !! i). Qed.

Lemma samples_where_app f xs ys :
  samples_where f (xs ++ ys) = samples_where f xs + samples_where f ys.
Proof. unfold samples_where. rewrite List.filter_app, length_app. lia. Qed.

(** merging is exact.  The merge of two workers' histograms is the
    histogram of all their samples together: every bucket, the count and the
    maximum, also when counters wrap. *)
Theorem merge_is_concatenation xs ys (Hx : Forall in_u64 xs) (Hy : Forall in_u64 ys) :
  tg_histogram_merge (record_all xs) (record_all ys) = record_all (xs ++ ys).
Proof.
  destruct (record_all_spec xs Hx) as (Lx & Bx & Nx & Mx).
  destruct (record_all_spec ys Hy) as (Ly & By & Ny & My).
  destruct (record_all_spec (xs ++ ys)) as (L & B & N & M); [by apply Forall_app|].
  destruct (record_all (xs ++ ys)) as [bs c m]. cbn [buckets hcount max_us] in *.
  unfold tg_histogram_merge. rewrite Nx, Ny, Mx, My. f_equal.
  - apply list_eq. intros i. rewrite merge_lookup by congruence.
    destruct (decide (i < TG_HIST_BUCKETS)%nat) as [Hi|Hi].
    + rewrite Bx, By, B by done. f_equal. rewrite samples_where_app. unfold u64.
      by rewrite <- Zplus_mod.
    + rewrite !lookup_ge_None_2 by lia. done.
  - rewrite N, length_app, Nat2Z.inj_add. unfold u64. by rewrite <- Zplus_mod.
  - rewrite M, foldr_app.
    assert (forall l y, 0 <= y -> foldr Z.max y l = Z.max y (foldr Z.max 0 l)) as Hf.
    { induction l as [|a t IH]; intros y Hy0; cbn; [lia|]. rewrite IH by done. lia. }
    assert (forall l, 0 <= foldr Z.max 0 l) as Hnn by (induction l; cbn; lia).
    rewrite (Hf xs (foldr Z.max 0 ys)) by apply Hnn. bsplit; lia.
Qed.

Lemma merge_is_concatenation_witness :
  tg_histogram_merge (record_all [5; 700]) (record_all [33]) = record_all [5; 700; 33].
Proof.
  exact (merge_is_concatenation [5; 700] [33] ltac:(repeat constructor; vm_compute; congruence)
           ltac:(repeat constructor; vm_compute; congruence)).
Defined.

(** Durations round up: the reported microseconds are the least that cover the
    cycles. *)
Lemma tg_us_ceiling cycles hz0 :
  in_u64 cycles -> 1 <= hz0 < 18446744073709551616 ->
  cycles * 1000000 + hz0 <= hz0 * 18446744073709551616 ->
  hz0 * (tg_us cycles hz0 - 1) < cycles * 1000000 <= hz0 * tg_us cycles hz0.
Proof.
  unfold in_u64. intros Hc Hh Hf. unfold tg_us.
  rewrite (u128_small (cycles * 1000000)) by lia. rewrite (u128_small (_ + _)) by lia.
  rewrite (u128_small (_ - _)) by lia.
  set (n := cycles * 1000000 + hz0 - 1).
  assert (0 <= n / hz0 < 18446744073709551616) as Hq.
  { split; [apply Z.div_pos; lia|]. apply Z.div_lt_upper_bound; lia. }
  rewrite u64_small by done.
  pose proof (Z.mul_div_le n hz0 ltac:(lia)). pose proof (Z.mul_succ_div_gt n hz0 ltac:(lia)). lia.
Qed.
