(* ===== verification/Scheduler.v ===== *)
(** * Open-arrival scheduler (traffic-gen/core/scheduler.c, scenario.c)

    The owner-local scheduler and the plan fields it reads.  The start callback
    is the argument [start]: whether the n-th attempt of a turn is admitted.
    The inverse of a rate ramp is computed in [long double] by the code; it is
    the argument [ramp_offset], and only the planned deadline handed to the
    callback depends on it. *)

From S2P Require Import Prelude.

Definition TG_PLAN_MAX_CLASSES : Z := 16.
Definition TG_PLAN_MAX_PHASES : Z := 16.
Definition TG_PLAN_MAX_DURATION_SEC : Z := 86400.
Definition TG_PLAN_MAX_CPS : Z := 1000000.
Definition TG_PLAN_MAX_CONCURRENCY : Z := 65536.

(** ** Plan *)

Record tg_phase_plan := mk_phase { ph_duration_sec : Z; ph_start_cps : Z; ph_target_cps : Z }.

(** [proto_config] is the plugin-owned configuration, if the class has one. *)
Record tg_class_plan := mk_class { weight : Z; proto_config : option Z }.

Record tg_plan := mk_plan {
  duration_sec : Z;
  max_concurrency : Z;
  target_cps : Z;
  total_weight : Z;
  schedule_shard_index : Z;
  schedule_shard_count : Z;
  phases : list tg_phase_plan;
  selection_phase : Z;
  classes : list tg_class_plan
}.

Definition phase_count (p : tg_plan) : Z := Z.of_nat (length (phases p)).
Definition class_count (p : tg_plan) : Z := Z.of_nat (length (classes p)).

Definition tg_plan_active_shards (p : tg_plan) (worker_count : Z) : Z :=
  if (worker_count =? 0) || (target_cps p =? 0) || (max_concurrency p =? 0) then 0
  else
    let a := if target_cps p <? worker_count then target_cps p else worker_count in
    if max_concurrency p <? a then max_concurrency p else a.

(** Cloning the configurations in order; [None] is the first clone failure,
    after which the shard is abandoned. *)
Fixpoint clone_classes (config_clone : Z -> option Z) (cs : list tg_class_plan)
    : option (list tg_class_plan) :=
  match cs with
  | [] => Some []
  | c :: t =>
      match proto_config c with
      | None => option_map (cons c) (clone_classes config_clone t)
      | Some cfg =>
          match config_clone cfg with
          | None => None
          | Some cfg' =>
              option_map (cons (mk_class (weight c) (Some cfg'))) (clone_classes config_clone t)
          end
      end
  end.

(** [None] is the [-1] return. *)
Definition tg_plan_partition (config_clone : Z -> option Z) (source : tg_plan)
    (shard_index shard_count : Z) : option tg_plan :=
  if (shard_count =? 0) || (shard_count <=? shard_index) || (target_cps source =? 0)
     || (max_concurrency source =? 0) || (class_count source =? 0) || (total_weight source =? 0)
     || (TG_PLAN_MAX_CLASSES <? class_count source) || (target_cps source <? shard_count)
     || (max_concurrency source <? shard_count)
  then None
  else
    match clone_classes config_clone (classes source) with
    | None => None
    | Some cs =>
        Some (mk_plan (duration_sec source)
          (max_concurrency source / shard_count
             + if shard_index <? max_concurrency source mod shard_count then 1 else 0)
          (target_cps source / shard_count
             + if shard_index <? target_cps source mod shard_count then 1 else 0)
          (total_weight source) shard_index shard_count (phases source)
          (u32 (u64 (shard_index * total_weight source) / shard_count)) cs)
    end.

(** ** Scheduler state *)

Record tg_schedule_count := mk_count { attempted : Z; skipped : Z }.

Record tg_scheduler := mk_sched {
  plan : tg_plan;
  cycles_per_second : Z;
  start_cycles : Z;
  last_cycles : Z;
  token_numerator : Z;
  selection_cursor : Z;
  phase_start_cycles : Z;
  global_arrival_offset : Z;
  dispatch_ordinal : Z;
  phase_consumed : Z;
  phase_seen : Z;
  planned_total : Z;
  skipped_total : Z;
  concurrency_blocked_turns : Z;
  dispatch_planned_cycles : Z;
  stop_cycles : Z;
  phase_index : Z;
  counts : list (list tg_schedule_count);
  active : Z;
  live_sockets : Z;
  resource_pauses : Z;
  resource_paused : bool;
  started : bool;
  stopped : bool
}.

Definition with_plan (v : tg_plan) (s : tg_scheduler) : tg_scheduler :=
  mk_sched v (cycles_per_second s) (start_cycles s) (last_cycles s)
   (token_numerator s) (selection_cursor s) (phase_start_cycles s)
   (global_arrival_offset s) (dispatch_ordinal s) (phase_consumed s)
   (phase_seen s) (planned_total s) (skipped_total s)
   (concurrency_blocked_turns s) (dispatch_planned_cycles s) (stop_cycles s)
   (phase_index s) (counts s) (active s) (live_sockets s)
   (resource_pauses s) (resource_paused s) (started s) (stopped s) .
Definition with_cycles_per_second (v : Z) (s : tg_scheduler) : tg_scheduler :=
  mk_sched (plan s) v (start_cycles s) (last_cycles s) (token_numerator s)
   (selection_cursor s) (phase_start_cycles s) (global_arrival_offset s)
   (dispatch_ordinal s) (phase_consumed s) (phase_seen s) (planned_total s)
   (skipped_total s) (concurrency_blocked_turns s)
   (dispatch_planned_cycles s) (stop_cycles s) (phase_index s) (counts s)
   (active s) (live_sockets s) (resource_pauses s) (resource_paused s)
   (started s) (stopped s) .
Definition with_start_cycles (v : Z) (s : tg_scheduler) : tg_scheduler :=
  mk_sched (plan s) (cycles_per_second s) v (last_cycles s)
   (token_numerator s) (selection_cursor s) (phase_start_cycles s)
   (global_arrival_offset s) (dispatch_ordinal s) (phase_consumed s)
   (phase_seen s) (planned_total s) (skipped_total s)
   (concurrency_blocked_turns s) (dispatch_planned_cycles s) (stop_cycles s)
   (phase_index s) (counts s) (active s) (live_sockets s)
   (resource_pauses s) (resource_paused s) (started s) (stopped s) .
Definition with_last_cycles (v : Z) (s : tg_scheduler) : tg_scheduler :=
  mk_sched (plan s) (cycles_per_second s) (start_cycles s) v
   (token_numerator s) (selection_cursor s) (phase_start_cycles s)
   (global_arrival_offset s) (dispatch_ordinal s) (phase_consumed s)
   (phase_seen s) (planned_total s) (skipped_total s)
   (concurrency_blocked_turns s) (dispatch_planned_cycles s) (stop_cycles s)
   (phase_index s) (counts s) (active s) (live_sockets s)
   (resource_pauses s) (resource_paused s) (started s) (stopped s) .
Definition with_token_numerator (v : Z) (s : tg_scheduler) : tg_scheduler :=
  mk_sched (plan s) (cycles_per_second s) (start_cycles s) (last_cycles s) v
   (selection_cursor s) (phase_start_cycles s) (global_arrival_offset s)
   (dispatch_ordinal s) (phase_consumed s) (phase_seen s) (planned_total s)
   (skipped_total s) (concurrency_blocked_turns s)
   (dispatch_planned_cycles s) (stop_cycles s) (phase_index s) (counts s)
   (active s) (live_sockets s) (resource_pauses s) (resource_paused s)
   (started s) (stopped s) .
Definition with_selection_cursor (v : Z) (s : tg_scheduler) : tg_scheduler :=
  mk_sched (plan s) (cycles_per_second s) (start_cycles s) (last_cycles s)
   (token_numerator s) v (phase_start_cycles s) (global_arrival_offset s)
   (dispatch_ordinal s) (phase_consumed s) (phase_seen s) (planned_total s)
   (skipped_total s) (concurrency_blocked_turns s)
   (dispatch_planned_cycles s) (stop_cycles s) (phase_index s) (counts s)
   (active s) (live_sockets s) (resource_pauses s) (resource_paused s)
   (started s) (stopped s) .
Definition with_phase_start_cycles (v : Z) (s : tg_scheduler) : tg_scheduler :=
  mk_sched (plan s) (cycles_per_second s) (start_cycles s) (last_cycles s)
   (token_numerator s) (selection_cursor s) v (global_arrival_offset s)
   (dispatch_ordinal s) (phase_consumed s) (phase_seen s) (planned_total s)
   (skipped_total s) (concurrency_blocked_turns s)
   (dispatch_planned_cycles s) (stop_cycles s) (phase_index s) (counts s)
   (active s) (live_sockets s) (resource_pauses s) (resource_paused s)
   (started s) (stopped s) .
Definition with_global_arrival_offset (v : Z) (s : tg_scheduler) : tg_scheduler :=
  mk_sched (plan s) (cycles_per_second s) (start_cycles s) (last_cycles s)
   (token_numerator s) (selection_cursor s) (phase_start_cycles s) v
   (dispatch_ordinal s) (phase_consumed s) (phase_seen s) (planned_total s)
   (skipped_total s) (concurrency_blocked_turns s)
   (dispatch_planned_cycles s) (stop_cycles s) (phase_index s) (counts s)
   (active s) (live_sockets s) (resource_pauses s) (resource_paused s)
   (started s) (stopped s) .
Definition with_dispatch_ordinal (v : Z) (s : tg_scheduler) : tg_scheduler :=
  mk_sched (plan s) (cycles_per_second s) (start_cycles s) (last_cycles s)
   (token_numerator s) (selection_cursor s) (phase_start_cycles s)
   (global_arrival_offset s) v (phase_consumed s) (phase_seen s)
   (planned_total s) (skipped_total s) (concurrency_blocked_turns s)
   (dispatch_planned_cycles s) (stop_cycles s) (phase_index s) (counts s)
   (active s) (live_sockets s) (resource_pauses s) (resource_paused s)
   (started s) (stopped s) .
Definition with_phase_consumed (v : Z) (s : tg_scheduler) : tg_scheduler :=
  mk_sched (plan s) (cycles_per_second s) (start_cycles s) (last_cycles s)
   (token_numerator s) (selection_cursor s) (phase_start_cycles s)
   (global_arrival_offset s) (dispatch_ordinal s) v (phase_seen s)
   (planned_total s) (skipped_total s) (concurrency_blocked_turns s)
   (dispatch_planned_cycles s) (stop_cycles s) (phase_index s) (counts s)
   (active s) (live_sockets s) (resource_pauses s) (resource_paused s)
   (started s) (stopped s) .
Definition with_phase_seen (v : Z) (s : tg_scheduler) : tg_scheduler :=
  mk_sched (plan s) (cycles_per_second s) (start_cycles s) (last_cycles s)
   (token_numerator s) (selection_cursor s) (phase_start_cycles s)
   (global_arrival_offset s) (dispatch_ordinal s) (phase_consumed s) v
   (planned_total s) (skipped_total s) (concurrency_blocked_turns s)
   (dispatch_planned_cycles s) (stop_cycles s) (phase_index s) (counts s)
   (active s) (live_sockets s) (resource_pauses s) (resource_paused s)
   (started s) (stopped s) .
Definition with_planned_total (v : Z) (s : tg_scheduler) : tg_scheduler :=
  mk_sched (plan s) (cycles_per_second s) (start_cycles s) (last_cycles s)
   (token_numerator s) (selection_cursor s) (phase_start_cycles s)
   (global_arrival_offset s) (dispatch_ordinal s) (phase_consumed s)
   (phase_seen s) v (skipped_total s) (concurrency_blocked_turns s)
   (dispatch_planned_cycles s) (stop_cycles s) (phase_index s) (counts s)
   (active s) (live_sockets s) (resource_pauses s) (resource_paused s)
   (started s) (stopped s) .
Definition with_skipped_total (v : Z) (s : tg_scheduler) : tg_scheduler :=
  mk_sched (plan s) (cycles_per_second s) (start_cycles s) (last_cycles s)
   (token_numerator s) (selection_cursor s) (phase_start_cycles s)
   (global_arrival_offset s) (dispatch_ordinal s) (phase_consumed s)
   (phase_seen s) (planned_total s) v (concurrency_blocked_turns s)
   (dispatch_planned_cycles s) (stop_cycles s) (phase_index s) (counts s)
   (active s) (live_sockets s) (resource_pauses s) (resource_paused s)
   (started s) (stopped s) .
Definition with_concurrency_blocked_turns (v : Z) (s : tg_scheduler) : tg_scheduler :=
  mk_sched (plan s) (cycles_per_second s) (start_cycles s) (last_cycles s)
   (token_numerator s) (selection_cursor s) (phase_start_cycles s)
   (global_arrival_offset s) (dispatch_ordinal s) (phase_consumed s)
   (phase_seen s) (planned_total s) (skipped_total s) v
   (dispatch_planned_cycles s) (stop_cycles s) (phase_index s) (counts s)
   (active s) (live_sockets s) (resource_pauses s) (resource_paused s)
   (started s) (stopped s) .
Definition with_dispatch_planned_cycles (v : Z) (s : tg_scheduler) : tg_scheduler :=
  mk_sched (plan s) (cycles_per_second s) (start_cycles s) (last_cycles s)
   (token_numerator s) (selection_cursor s) (phase_start_cycles s)
   (global_arrival_offset s) (dispatch_ordinal s) (phase_consumed s)
   (phase_seen s) (planned_total s) (skipped_total s)
   (concurrency_blocked_turns s) v (stop_cycles s) (phase_index s)
   (counts s) (active s) (live_sockets s) (resource_pauses s)
   (resource_paused s) (started s) (stopped s) .
Definition with_stop_cycles (v : Z) (s : tg_scheduler) : tg_scheduler :=
  mk_sched (plan s) (cycles_per_second s) (start_cycles s) (last_cycles s)
   (token_numerator s) (selection_cursor s) (phase_start_cycles s)
   (global_arrival_offset s) (dispatch_ordinal s) (phase_consumed s)
   (phase_seen s) (planned_total s) (skipped_total s)
   (concurrency_blocked_turns s) (dispatch_planned_cycles s) v
   (phase_index s) (counts s) (active s) (live_sockets s)
   (resource_pauses s) (resource_paused s) (started s) (stopped s) .
Definition with_phase_index (v : Z) (s : tg_scheduler) : tg_scheduler :=
  mk_sched (plan s) (cycles_per_second s) (start_cycles s) (last_cycles s)
   (token_numerator s) (selection_cursor s) (phase_start_cycles s)
   (global_arrival_offset s) (dispatch_ordinal s) (phase_consumed s)
   (phase_seen s) (planned_total s) (skipped_total s)
   (concurrency_blocked_turns s) (dispatch_planned_cycles s) (stop_cycles s)
   v (counts s) (active s) (live_sockets s) (resource_pauses s)
   (resource_paused s) (started s) (stopped s) .
Definition with_counts (v : list (list tg_schedule_count)) (s : tg_scheduler) : tg_scheduler :=
  mk_sched (plan s) (cycles_per_second s) (start_cycles s) (last_cycles s)
   (token_numerator s) (selection_cursor s) (phase_start_cycles s)
   (global_arrival_offset s) (dispatch_ordinal s) (phase_consumed s)
   (phase_seen s) (planned_total s) (skipped_total s)
   (concurrency_blocked_turns s) (dispatch_planned_cycles s) (stop_cycles s)
   (phase_index s) v (active s) (live_sockets s) (resource_pauses s)
   (resource_paused s) (started s) (stopped s) .
Definition with_active (v : Z) (s : tg_scheduler) : tg_scheduler :=
  mk_sched (plan s) (cycles_per_second s) (start_cycles s) (last_cycles s)
   (token_numerator s) (selection_cursor s) (phase_start_cycles s)
   (global_arrival_offset s) (dispatch_ordinal s) (phase_consumed s)
   (phase_seen s) (planned_total s) (skipped_total s)
   (concurrency_blocked_turns s) (dispatch_planned_cycles s) (stop_cycles s)
   (phase_index s) (counts s) v (live_sockets s) (resource_pauses s)
   (resource_paused s) (started s) (stopped s) .
Definition with_live_sockets (v : Z) (s : tg_scheduler) : tg_scheduler :=
  mk_sched (plan s) (cycles_per_second s) (start_cycles s) (last_cycles s)
   (token_numerator s) (selection_cursor s) (phase_start_cycles s)
   (global_arrival_offset s) (dispatch_ordinal s) (phase_consumed s)
   (phase_seen s) (planned_total s) (skipped_total s)
   (concurrency_blocked_turns s) (dispatch_planned_cycles s) (stop_cycles s)
   (phase_index s) (counts s) (active s) v (resource_pauses s)
   (resource_paused s) (started s) (stopped s) .
Definition with_resource_pauses (v : Z) (s : tg_scheduler) : tg_scheduler :=
  mk_sched (plan s) (cycles_per_second s) (start_cycles s) (last_cycles s)
   (token_numerator s) (selection_cursor s) (phase_start_cycles s)
   (global_arrival_offset s) (dispatch_ordinal s) (phase_consumed s)
   (phase_seen s) (planned_total s) (skipped_total s)
   (concurrency_blocked_turns s) (dispatch_planned_cycles s) (stop_cycles s)
   (phase_index s) (counts s) (active s) (live_sockets s) v
   (resource_paused s) (started s) (stopped s) .
Definition with_resource_paused (v : bool) (s : tg_scheduler) : tg_scheduler :=
  mk_sched (plan s) (cycles_per_second s) (start_cycles s) (last_cycles s)
   (token_numerator s) (selection_cursor s) (phase_start_cycles s)
   (global_arrival_offset s) (dispatch_ordinal s) (phase_consumed s)
   (phase_seen s) (planned_total s) (skipped_total s)
   (concurrency_blocked_turns s) (dispatch_planned_cycles s) (stop_cycles s)
   (phase_index s) (counts s) (active s) (live_sockets s)
   (resource_pauses s) v (started s) (stopped s) .
Definition with_started (v : bool) (s : tg_scheduler) : tg_scheduler :=
  mk_sched (plan s) (cycles_per_second s) (start_cycles s) (last_cycles s)
   (token_numerator s) (selection_cursor s) (phase_start_cycles s)
   (global_arrival_offset s) (dispatch_ordinal s) (phase_consumed s)
   (phase_seen s) (planned_total s) (skipped_total s)
   (concurrency_blocked_turns s) (dispatch_planned_cycles s) (stop_cycles s)
   (phase_index s) (counts s) (active s) (live_sockets s)
   (resource_pauses s) (resource_paused s) v (stopped s) .
Definition with_stopped (v : bool) (s : tg_scheduler) : tg_scheduler :=
  mk_sched (plan s) (cycles_per_second s) (start_cycles s) (last_cycles s)
   (token_numerator s) (selection_cursor s) (phase_start_cycles s)
   (global_arrival_offset s) (dispatch_ordinal s) (phase_consumed s)
   (phase_seen s) (planned_total s) (skipped_total s)
   (concurrency_blocked_turns s) (dispatch_planned_cycles s) (stop_cycles s)
   (phase_index s) (counts s) (active s) (live_sockets s)
   (resource_pauses s) (resource_paused s) (started s) v.

(** [counts[phase][class]]. *)
Definition count_alter (f : tg_schedule_count -> tg_schedule_count) (cls : nat) (s : tg_scheduler)
    : tg_scheduler :=
  with_counts (alter (alter f cls) (Z.to_nat (phase_index s)) (counts s)) s.

Definition tg_phase (s : tg_scheduler) : tg_phase_plan :=
  if negb (phase_count (plan s) =? 0)
  then nth (Z.to_nat (phase_index s)) (phases (plan s)) (mk_phase 0 0 0)
  else mk_phase (duration_sec (plan s)) (target_cps (plan s)) (target_cps (plan s)).

Definition tg_shards (s : tg_scheduler) : Z :=
  if negb (phase_count (plan s) =? 0) && negb (schedule_shard_count (plan s) =? 0)
  then schedule_shard_count (plan s) else 1.

Definition shard_index_of (s : tg_scheduler) : Z :=
  if tg_shards s =? 1 then 0 else schedule_shard_index (plan s).

(** Arrivals of all shards before [elapsed] cycles of the phase. *)
Definition due_global (p : tg_phase_plan) (hz elapsed : Z) : Z :=
  let duration := u64 (ph_duration_sec p * hz) in
  let rate0 := u128 (u128 (2 * ph_start_cps p) * duration) in
  let rate_term :=
    if ph_start_cps p <=? ph_target_cps p
    then u128 (rate0 + u128 ((ph_target_cps p - ph_start_cps p) * elapsed))
    else u128 (rate0 - u128 ((ph_start_cps p - ph_target_cps p) * elapsed)) in
  let numerator := u128 (elapsed * rate_term) in
  let denominator := u128 (u128 (2 * duration) * hz) in
  u64 (u128 (u128 (numerator + denominator) - 1) / denominator).

(** One shard's part of the first [global] arrivals. *)
Definition shard_due (global index shards : Z) : Z :=
  if global <=? index then 0 else u64 (global - index + shards - 1) / shards.

Definition tg_due_count (s : tg_scheduler) (elapsed : Z) : Z :=
  shard_due (due_global (tg_phase s) (cycles_per_second s) elapsed) (shard_index_of s) (tg_shards s).

(** [ramp_offset p n hz]: the ramp branch, computed in floating point. *)
Definition tg_due_cycles (ramp_offset : tg_phase_plan -> Z -> Z -> Z) (s : tg_scheduler) : Z :=
  let p := tg_phase s in
  let n := u64 (phase_consumed s * tg_shards s + shard_index_of s) in
  let offset :=
    if ph_start_cps p =? ph_target_cps p
    then u64 (n * cycles_per_second s / ph_target_cps p)
    else if n =? 0 then 0
    else ramp_offset p n (cycles_per_second s) in
  u64 (phase_start_cycles s + offset).

(** Arrivals of one class in a run of [count] from the selection cursor. *)
Definition skip_hits (total cursor remainder quotient begin_ end_ : Z) : Z :=
  let part wrap :=
    let lo := begin_ + wrap * total in
    let hi := end_ + wrap * total in
    let lo' := if lo <? cursor then cursor else lo in
    let hi' := if cursor + remainder <? hi then cursor + remainder else hi in
    if lo' <? hi' then hi' - lo' else 0 in
  quotient * (end_ - begin_) + part 0 + part 1.

Fixpoint skip_classes (total cursor remainder quotient : Z) (i : nat) (begin_ : Z)
    (cs : list tg_class_plan) (s : tg_scheduler) : tg_scheduler :=
  match cs with
  | [] => s
  | c :: t =>
      let end_ := begin_ + weight c in
      let hits := skip_hits total cursor remainder quotient begin_ end_ in
      skip_classes total cursor remainder quotient (S i) end_ t
        (count_alter (fun n => mk_count (attempted n) (u64 (skipped n + hits))) i s)
  end.

Definition tg_skip (count : Z) (s : tg_scheduler) : tg_scheduler :=
  let total := total_weight (plan s) in
  let cursor := selection_cursor s mod total in
  let s1 := skip_classes total cursor (count mod total) (count / total) 0 0 (classes (plan s)) s in
  with_skipped_total (u64 (skipped_total s1 + count))
    (with_phase_consumed (u64 (phase_consumed s1 + count))
      (with_selection_cursor (u64 (selection_cursor s1 + count)) s1)).

Fixpoint select_class (selected cumulative : Z) (i : nat) (cs : list tg_class_plan) : nat :=
  match cs with
  | [] => 0
  | c :: t =>
      let cumulative' := u32 (cumulative + weight c) in
      if selected <? cumulative' then i else select_class selected cumulative' (S i) t
  end.

Definition tg_select (s : tg_scheduler) : nat * tg_scheduler :=
  (select_class (selection_cursor s mod total_weight (plan s)) 0 0 (classes (plan s)),
   with_selection_cursor (u64 (selection_cursor s + 1)) s).

(** [None] is the [-1] return. *)
Definition tg_scheduler_init (p : tg_plan) (hz : Z) : option tg_scheduler :=
  if (class_count p =? 0) || (TG_PLAN_MAX_CLASSES <? class_count p) || (total_weight p =? 0)
     || (max_concurrency p =? 0) || (target_cps p =? 0) || (duration_sec p =? 0)
     || (TG_PLAN_MAX_DURATION_SEC <? duration_sec p) || (TG_PLAN_MAX_PHASES <? phase_count p)
     || (hz =? 0) || (10000000000 <? hz)
  then None
  else Some (mk_sched p hz 0 0 0 (selection_phase p) 0 0 0 0 0 0 0 0 0 0 0
         (replicate 16 (replicate 16 (mk_count 0 0))) 0 0 0 false false false).

Definition tg_scheduler_start_at (epoch : Z) (s : tg_scheduler) : tg_scheduler :=
  with_stop_cycles (u64 (epoch + u64 (duration_sec (plan s) * cycles_per_second s)))
    (with_last_cycles epoch (with_phase_start_cycles epoch (with_start_cycles epoch
      (with_started true s)))).

(** The phase loop of a turn: account due arrivals, and at a phase's end skip
    its backlog and move on.  The result is [false] when the plan ended. *)
Fixpoint phase_loop (fuel : nat) (now : Z) (s : tg_scheduler) : bool * tg_scheduler :=
  match fuel with
  | O => (false, s)
  | S n =>
      let phase := tg_phase s in
      let duration := u64 (ph_duration_sec phase * cycles_per_second s) in
      let elapsed := u64 (now - phase_start_cycles s) in
      let ended := duration <=? elapsed in
      let due := tg_due_count s (if ended then duration else elapsed) in
      let s1 := with_phase_seen due
                  (with_planned_total (u64 (planned_total s + u64 (due - phase_seen s))) s) in
      if negb ended then (true, s1)
      else
        let s2 := tg_skip (u64 (due - phase_consumed s1)) s1 in
        let s3 := with_global_arrival_offset
          (u64 (global_arrival_offset s2
             + u64 (u64 (ph_duration_sec phase * u32 (ph_start_cps phase + ph_target_cps phase)) + 1) / 2)) s2 in
        let s4 := with_token_numerator 0 (with_phase_seen 0 (with_phase_consumed 0
          (with_phase_index (u32 (phase_index s3 + 1))
            (with_phase_start_cycles (u64 (phase_start_cycles s3 + duration)) s3)))) in
        let nphases := if negb (phase_count (plan s4) =? 0) then phase_count (plan s4) else 1 in
        if phase_index s4 =? nphases then (false, with_stopped true s4)
        else phase_loop n now s4
  end.

(** The dispatch loop; [k] counts the attempts, [pending] bounds them. *)
Fixpoint dispatch_loop (fuel : nat) (ramp_offset : tg_phase_plan -> Z -> Z -> Z)
    (start : nat -> bool) (budget : Z) (k : nat) (pending : Z) (s : tg_scheduler)
    : nat * Z * tg_scheduler :=
  match fuel with
  | O => (k, pending, s)
  | S n =>
      if negb (resource_paused s) && (Z.of_nat k <? budget) && negb (pending =? 0)
         && (active s <? max_concurrency (plan s))
      then
        let '(selected, s1) := tg_select s in
        let s2 := with_dispatch_planned_cycles (tg_due_cycles ramp_offset s1) s1 in
        let s3 := with_dispatch_ordinal
          (u64 (global_arrival_offset s2 + u64 (phase_consumed s2 * tg_shards s2) + shard_index_of s2)) s2 in
        let s4 := count_alter (fun c => mk_count (u64 (attempted c + 1)) (skipped c)) selected s3 in
        let s5 := with_phase_consumed (u64 (phase_consumed s4 + 1)) s4 in
        let s6 := if start k then with_active (u32 (active s5 + 1)) s5 else s5 in
        dispatch_loop n ramp_offset start budget (S k) (pending - 1) s6
      else (k, pending, s)
  end.

Definition tg_scheduler_tick (ramp_offset : tg_phase_plan -> Z -> Z -> Z) (start : nat -> bool)
    (now budget : Z) (s : tg_scheduler) : Z * tg_scheduler :=
  if stopped s then (0, s)
  else if negb (started s) then (0, tg_scheduler_start_at now s)
  else if now <? start_cycles s then (0, s)
  else if now <? last_cycles s then (0, with_stopped true s)
  else
    let nphases := if negb (phase_count (plan s) =? 0) then phase_count (plan s) else 1 in
    match phase_loop (S (Z.to_nat nphases)) now (with_last_cycles now s) with
    | (false, s1) => (0, s1)
    | (true, s1) =>
        let pending := u64 (phase_seen s1 - phase_consumed s1) in
        let cap := max_concurrency (plan s1) in
        let '(pending2, s2) :=
          if cap <? pending then (cap, tg_skip (pending - cap) s1) else (pending, s1) in
        let '(attempts, pending3, s3) :=
          dispatch_loop (Z.to_nat pending2) ramp_offset start budget 0 pending2 s2 in
        let s4 := with_token_numerator (u64 (pending3 * cycles_per_second s3)) s3 in
        let s5 := if negb (pending3 =? 0) && (max_concurrency (plan s4) <=? active s4)
                  then with_concurrency_blocked_turns (u64 (concurrency_blocked_turns s4 + 1)) s4
                  else s4 in
        (Z.of_nat attempts, s5)
    end.

Definition tg_scheduler_on_flow_finished (s : tg_scheduler) : tg_scheduler :=
  if negb (active s =? 0) then with_active (active s - 1) s else s.
Definition tg_scheduler_on_socket_created (s : tg_scheduler) : tg_scheduler :=
  with_live_sockets (u32 (live_sockets s + 1)) s.
Definition tg_scheduler_on_socket_released (s : tg_scheduler) : tg_scheduler :=
  if negb (live_sockets s =? 0) then with_live_sockets (live_sockets s - 1) s else s.
Definition tg_scheduler_set_resource_available (available : bool) (s : tg_scheduler) : tg_scheduler :=
  if negb available && negb (resource_paused s)
  then with_resource_pauses (u64 (resource_pauses s + 1)) (with_resource_paused true s)
  else if available then with_resource_paused false s else s.
Definition tg_scheduler_is_stopped (s : tg_scheduler) : bool := stopped s.
