(* ===== verification/SchedulerFacts.v ===== *)
(** * Scheduler correctness (facts on Scheduler.v)

    The O(classes) skip against the selections it stands for, the exact arrival
    integral, the split of arrivals over shards, and the accounting of a whole
    run. *)

From S2P Require Import Prelude Scheduler.

(** ** Weighted selection *)

Definition weights_sum (cs : list tg_class_plan) : Z := Zsum (map weight cs).
Definition weights_ok (cs : list tg_class_plan) : Prop := Forall (fun c => 0 <= weight c) cs.

Lemma weights_nonneg cs : weights_ok cs -> 0 <= weights_sum cs.
Proof.
  intros H. apply Zsum_nonneg. induction H; cbn; constructor; done.
Qed.

Lemma select_class_ge cs selected b k :
  weights_ok cs -> 0 <= b -> b + Zsum (map weight cs) < 4294967296 ->
  b <= selected < b + weights_sum cs -> (k <= select_class selected b k cs)%nat.
Proof.
  unfold weights_sum. revert k b. induction cs as [|c t IH]; intros k b Hw Hb Hlt Hr; [cbn in *; lia|].
  inversion_clear Hw as [|? ? Hc Ht]. cbn [map] in *. rewrite Zsum_cons in *.
  pose proof (weights_nonneg t Ht) as Hn. unfold weights_sum in Hn.
  cbn [select_class]. rewrite u32_small by (wunfold; lia).
  destruct (Z.ltb_spec selected (b + weight c)); [lia|].
  assert (S k <= select_class selected (b + weight c) (S k) t)%nat; [|lia].
  apply IH; [done|lia|lia|lia].
Qed.

(** Class [j] of a list that starts at [base] is chosen exactly for the
    selectors of its own weight interval. *)
Lemma select_class_spec cs base i selected j :
  weights_ok cs -> 0 <= base -> base + weights_sum cs < 4294967296 ->
  base <= selected < base + weights_sum cs -> (j < length cs)%nat ->
  Nat.eqb (select_class selected base i cs) (i + j) =
    (base + weights_sum (take j cs) <=? selected)
    && (selected <? base + weights_sum (take (S j) cs)).
Proof.
  revert base i j. induction cs as [|c t IH]; intros base i j Hw Hb Hs Hsel Hj; [cbn in Hj; lia|].
  inversion_clear Hw as [|? ? Hc Ht]. pose proof (weights_nonneg t Ht) as Hn.
  unfold weights_sum in *. cbn [map] in *. rewrite Zsum_cons in *.
  cbn [select_class]. rewrite u32_small by (wunfold; lia).
  destruct (Z.ltb_spec selected (base + weight c)).
  - destruct j as [|j].
    + rewrite Nat.add_0_r, Nat.eqb_refl. cbn [take map]. rewrite Zsum_cons, take_0. cbn [map].
      rewrite !Zsum_nil. lia.
    + destruct (Nat.eqb_spec i (i + S j)); [lia|]. cbn [take map]. rewrite Zsum_cons.
      assert (0 <= Zsum (map weight (take j t))); [|lia].
      apply (weights_nonneg (take j t)). by apply Forall_take.
  - destruct j as [|j].
    + cbn [take map]. rewrite Zsum_cons, take_0. cbn [map]. rewrite !Zsum_nil.
      assert (Nat.eqb (select_class selected (base + weight c) (S i) t) (i + 0) = false) as ->; [|lia].
      apply Nat.eqb_neq. clear IH.
      pose proof (select_class_ge t selected (base + weight c) (S i) Ht ltac:(lia) ltac:(lia)
        ltac:(unfold weights_sum; lia)). lia.
    + replace (i + S j)%nat with (S i + j)%nat by lia. cbn [length] in Hj.
      rewrite (IH (base + weight c) (S i) j Ht) by lia.
      cbn [take map]. rewrite !Zsum_cons. lia.
Qed.

Section Skip.
Context (total : Z) (Htot : 0 < total).

Lemma mod_period x : 0 <= x -> (x + total) mod total = x mod total.
Proof. intros _. rewrite <- (Z.mul_1_l total) at 1. by rewrite Z_mod_plus_full. Qed.

(** One class: the closed formula counts the selectors of its interval in a
    run of [count] from [cursor]. *)
Lemma skip_hits_spec cursor count b e :
  0 <= cursor -> 0 <= count -> 0 <= b <= e -> e <= total ->
  skip_hits total (cursor mod total) (count mod total) (count / total) b e =
    cnt (fun k => (b <=? (cursor + k) mod total) && ((cursor + k) mod total <? e)) 0 count.
Proof.
  intros Hc Hn Hbe Het.
  set (f := fun x => (b <=? x mod total) && (x mod total <? e)).
  set (c := cursor mod total). set (r := count mod total). set (q := count / total).
  assert (0 <= c < total) as Hcr by (apply Z.mod_pos_bound; lia).
  assert (0 <= r < total) as Hrr by (apply Z.mod_pos_bound; lia).
  assert (0 <= q) by (apply Z.div_pos; lia).
  assert (count = r + q * total) as Ec
    by (unfold q, r; rewrite (Z.div_mod count total) at 1; lia).
  rewrite (cnt_ext _ (fun k => f (c + k))).
  2: { intros k Hk. unfold f, c. rewrite Zplus_mod_idemp_l. done. }
  rewrite cnt_shift, Z.add_0_r.
  assert (0 <= q * total) by (apply Z.mul_nonneg_nonneg; lia).
  rewrite (cnt_split f c (c + r)) by lia.
  replace (c + count) with (c + r + q * total) by lia.
  rewrite (cnt_periods f total (c + r) q) by
    first [lia | intros x Hx; unfold f; by rewrite mod_period].
  assert (cnt f 0 total = e - b) as ->.
  { rewrite (cnt_ext f (fun x => (b <=? x) && (x <? e))).
    - rewrite cnt_interval by lia. lia.
    - intros x Hx. unfold f. rewrite Z.mod_small by lia. done. }
  assert (cnt f c (c + r) = Z.max 0 (Z.min (c + r) e - Z.max c b)
    + Z.max 0 (Z.min (c + r) (e + total) - Z.max c (b + total))) as ->.
  { rewrite (cnt_split f c (Z.min total (c + r))) by lia.
    rewrite (cnt_ext f (fun x => (b <=? x) && (x <? e)) c)
      by (intros x Hx; unfold f; rewrite Z.mod_small by lia; done).
    rewrite cnt_interval by lia.
    rewrite (cnt_ext f (fun x => (b + total <=? x) && (x <? e + total)) (Z.min total (c + r))).
    - rewrite cnt_interval by lia. lia.
    - intros x Hx. unfold f. replace x with (x - total + total) at 1 2 by lia.
      rewrite mod_period by lia. rewrite Z.mod_small by lia. lia. }
  assert (forall lo hi,
    (let lo' := if lo <? c then c else lo in
     let hi' := if c + r <? hi then c + r else hi in
     if lo' <? hi' then hi' - lo' else 0) = Z.max 0 (Z.min (c + r) hi - Z.max c lo)) as Hpart
    by (intros lo hi; cbv zeta; bsplit; lia).
  unfold skip_hits. cbv beta zeta in *. rewrite !Hpart.
  rewrite !Z.mul_0_l, !Z.mul_1_l, !Z.add_0_r. lia.
Qed.
End Skip.

(** ** Counters *)

(** Equality of wrapping 64-bit counters. *)
Definition eq64 (a b : Z) : Prop := exists k, a - b = k * 18446744073709551616.

Lemma u64_eq64 x : eq64 (u64 x) x.
Proof. exists (- (x / 18446744073709551616)). unfold u64. Z.to_euclidean_division_equations. lia. Qed.
Lemma eq64_refl x : eq64 x x.
Proof. exists 0. lia. Qed.
Lemma eq64_trans a b c : eq64 a b -> eq64 b c -> eq64 a c.
Proof. intros [k Hk] [l Hl]. exists (k + l). lia. Qed.
Lemma eq64_sub a b c d : eq64 a b -> eq64 c d -> eq64 (a - c) (b - d).
Proof. intros [k Hk] [l Hl]. exists (k - l). lia. Qed.
Lemma eq64_add a b c d : eq64 a b -> eq64 c d -> eq64 (a + c) (b + d).
Proof. intros [k Hk] [l Hl]. exists (k + l). lia. Qed.

Lemma eq64_mod a b : eq64 a b <-> (a - b) mod 18446744073709551616 = 0.
Proof.
  split.
  - intros [k ->]. apply Z_mod_mult.
  - intros H. exists ((a - b) / 18446744073709551616). Z.to_euclidean_division_equations. lia.
Qed.

(** [wraps] proves a congruence of counters from the ones in the context. *)
Ltac wraps :=
  rewrite ?eq64_mod in *; unfold u64 in *; Z.to_euclidean_division_equations; lia.

Definition get_count (s : tg_scheduler) (ph cl : nat) : option tg_schedule_count :=
  counts s !! ph ≫= fun row => row !! cl.

Definition dims_ok (s : tg_scheduler) : Prop :=
  length (counts s) = 16%nat /\ Forall (fun row => length row = 16%nat) (counts s).

Definition attempted_sum (s : tg_scheduler) : Z :=
  Zsum (map (fun row => Zsum (map attempted row)) (counts s)).
Definition skipped_sum (s : tg_scheduler) : Z :=
  Zsum (map (fun row => Zsum (map skipped row)) (counts s)).

Lemma count_alter_dims f cl s : dims_ok s -> dims_ok (count_alter f cl s).
Proof.
  intros [H1 H2]. unfold dims_ok, count_alter. cbn. rewrite length_alter. split; [done|].
  apply Forall_alter; [done|]. intros row _ Hr. by rewrite length_alter.
Qed.

Lemma dims_get s cl :
  dims_ok s -> 0 <= phase_index s < 16 -> (cl < 16)%nat ->
  exists x row, counts s !! Z.to_nat (phase_index s) = Some row /\ row !! cl = Some x.
Proof.
  intros [H1 H2] Hp Hc.
  destruct (lookup_lt_is_Some_2 (counts s) (Z.to_nat (phase_index s))) as [row Hr]; [lia|].
  rewrite Forall_forall in H2. pose proof (H2 row (list_elem_of_lookup_2 _ _ _ Hr)) as Hl.
  destruct (lookup_lt_is_Some_2 row cl) as [x Hx]; [lia|]. eauto.
Qed.

Lemma count_alter_sums f cl s (g : tg_schedule_count -> Z) d :
  dims_ok s -> 0 <= phase_index s < 16 -> (cl < 16)%nat -> (forall x, eq64 (g (f x)) (g x + d)) ->
  eq64 (Zsum (map (fun row => Zsum (map g row)) (counts (count_alter f cl s))))
       (Zsum (map (fun row => Zsum (map g row)) (counts s)) + d).
Proof.
  intros Hd Hp Hc Hf. destruct (dims_get s cl Hd Hp Hc) as (x & row & Hr & Hx).
  unfold count_alter. cbn [counts with_counts].
  rewrite (Zsum_alter (fun row => Zsum (map g row)) _ _ _ _ Hr).
  rewrite (Zsum_alter g f cl row x Hx). destruct (Hf x) as [k Hk]. exists k. lia.
Qed.

(** Counters are not negative; one that does not grow past [d] more adds at
    most [d] to the sum, whether it wraps or not. *)
Definition counts_nonneg (s : tg_scheduler) : Prop :=
  Forall (Forall (fun c => 0 <= attempted c /\ 0 <= skipped c)) (counts s).

Lemma count_alter_exact f cl s (g : tg_schedule_count -> Z) d :
  dims_ok s -> 0 <= phase_index s < 16 -> (cl < 16)%nat -> counts_nonneg s ->
  (forall x, 0 <= attempted x -> 0 <= skipped x -> g (f x) <= g x + d) ->
  Zsum (map (fun row => Zsum (map g row)) (counts (count_alter f cl s)))
  <= Zsum (map (fun row => Zsum (map g row)) (counts s)) + d.
Proof.
  intros Hd Hp Hc Hn Hf. destruct (dims_get s cl Hd Hp Hc) as (x & row & Hr & Hx).
  unfold count_alter. cbn [counts with_counts]. rewrite (Zsum_alter (fun row => Zsum (map g row)) _ _ _ _ Hr).
  rewrite (Zsum_alter g f cl row x Hx). unfold counts_nonneg in Hn. rewrite Forall_lookup in Hn. specialize (Hn _ _ Hr).
  rewrite Forall_lookup in Hn. destruct (Hn _ _ Hx) as [H1 H2]. specialize (Hf x H1 H2). lia.
Qed.

Lemma count_alter_nonneg f cl s :
  counts_nonneg s -> (forall x, 0 <= attempted x -> 0 <= skipped x -> 0 <= attempted (f x) /\ 0 <= skipped (f x)) ->
  counts_nonneg (count_alter f cl s).
Proof.
  intros Hn Hf. unfold counts_nonneg, count_alter in *. cbn. apply Forall_alter; [done|]. intros row _ Hrow.
  apply Forall_alter; [done|]. intros x _ [H1 H2]. by apply Hf.
Qed.

Lemma sums_nonneg s : counts_nonneg s -> 0 <= attempted_sum s /\ 0 <= skipped_sum s.
Proof.
  intros Hn. unfold attempted_sum, skipped_sum. split; apply Zsum_nonneg, Forall_map; unfold counts_nonneg in Hn;
    (eapply Forall_impl; [exact Hn|]); intros row Hr; apply Zsum_nonneg, Forall_map; (eapply Forall_impl; [exact Hr|]); intros x [? ?]; done.
Qed.

Lemma count_alter_get f cl s ph c :
  get_count (count_alter f cl s) ph c =
    (if bool_decide (ph = Z.to_nat (phase_index s) /\ c = cl)
     then f <$> get_count s ph c else get_count s ph c).
Proof.
  unfold get_count, count_alter. cbn [counts with_counts].
  case_bool_decide as Hd.
  - destruct Hd as [-> ->]. rewrite list_lookup_alter, decide_True by done.
    destruct (counts s !! _) as [row|]; [|done]. cbn. by rewrite list_lookup_alter, decide_True.
  - destruct (decide (ph = Z.to_nat (phase_index s))) as [->|Hne].
    + rewrite list_lookup_alter, decide_True by done.
      destruct (counts s !! _) as [row|]; [|done]. cbn.
      rewrite list_lookup_alter_ne; [done|]. intros ->. by apply Hd.
    + by rewrite list_lookup_alter_ne by done.
Qed.

(** ** The skip as a run of selections *)

(** Selections of class [j] among [count] from the cursor. *)
Definition selections (p : tg_plan) (cursor count : Z) (j : nat) : Z :=
  cnt (fun k => Nat.eqb (select_class ((cursor + k) mod total_weight p) 0 0 (classes p)) j) 0 count.

Definition plan_ok (p : tg_plan) : Prop :=
  weights_ok (classes p) /\ total_weight p = weights_sum (classes p) /\
  0 < total_weight p < 4294967296 /\ (length (classes p) <= 16)%nat /\
  (length (phases p) <= 16)%nat /\ 0 < max_concurrency p < 4294967296.

Lemma weights_take j cs : weights_ok cs -> 0 <= weights_sum (take j cs) <= weights_sum cs.
Proof.
  intros H. pose proof (weights_nonneg _ (Forall_take _ j _ H)).
  pose proof (weights_nonneg _ (Forall_drop _ j _ H)).
  unfold weights_sum in *. rewrite <- (take_drop j cs) at 3. rewrite map_app, Zsum_app. lia.
Qed.

Lemma take_weight j cs c :
  cs !! j = Some c -> weights_sum (take (S j) cs) = weights_sum (take j cs) + weight c.
Proof.
  intros H. rewrite (take_S_r cs j c H). unfold weights_sum. rewrite map_app, Zsum_app. cbn. lia.
Qed.

Lemma skip_hits_selections p cursor count j c :
  plan_ok p -> 0 <= cursor -> 0 <= count -> classes p !! j = Some c ->
  let b := weights_sum (take j (classes p)) in
  skip_hits (total_weight p) (cursor mod total_weight p) (count mod total_weight p)
    (count / total_weight p) b (b + weight c) = selections p cursor count j.
Proof.
  intros (Hw & Ht & Hr & _) Hc Hn Hj. cbn zeta.
  pose proof (weights_take j _ Hw). pose proof (weights_take (S j) _ Hw) as H2.
  rewrite (take_weight j _ c Hj) in H2.
  assert (0 <= weight c).
  { unfold weights_ok in Hw. rewrite Forall_forall in Hw. apply Hw. by eapply list_elem_of_lookup_2. }
  rewrite skip_hits_spec by lia. unfold selections. apply cnt_ext. intros k Hk.
  assert (0 <= (cursor + k) mod total_weight p < total_weight p) by (apply Z.mod_pos_bound; lia).
  pose proof (select_class_spec (classes p) 0 0 ((cursor + k) mod total_weight p) j Hw) as Hs.
  cbn [Nat.add] in Hs. rewrite Hs; try lia; [|by eapply lookup_lt_Some].
  rewrite (take_weight j _ c Hj). lia.
Qed.

Section SkipState.
Context (p : tg_plan) (cursor count : Z).
Hypothesis Hp : plan_ok p.
Hypothesis Hcur : 0 <= cursor.
Hypothesis Hcnt : 0 <= count.

(** Selections of the classes from [i] on. *)
Definition selections_from (i : nat) : Z :=
  cnt (fun k => weights_sum (take i (classes p)) <=? (cursor + k) mod total_weight p) 0 count.

Lemma selections_from_step i c :
  classes p !! i = Some c ->
  selections_from i = selections p cursor count i + selections_from (S i).
Proof.
  intros Hi. destruct Hp as (Hw & Ht & Hr & _). unfold selections_from.
  pose proof (weights_take (S i) _ Hw) as H2. pose proof (weights_take i _ Hw).
  assert (0 <= weight c).
  { unfold weights_ok in Hw. rewrite Forall_forall in Hw. apply Hw. by eapply list_elem_of_lookup_2. }
  rewrite (take_weight i _ c Hi) in *.
  pose proof (cnt_diff
    (fun k => weights_sum (take i (classes p)) <=? (cursor + k) mod total_weight p)
    (fun k => weights_sum (take i (classes p)) + weight c <=? (cursor + k) mod total_weight p)
    0 count ltac:(cbv beta; intros; lia)) as Hd. cbv beta in Hd.
  assert (selections p cursor count i = cnt (fun k =>
     (weights_sum (take i (classes p)) <=? (cursor + k) mod total_weight p)
     && negb (weights_sum (take i (classes p)) + weight c <=? (cursor + k) mod total_weight p)) 0 count)
    as ->; [|lia].
  apply cnt_ext. intros k Hk.
  assert (0 <= (cursor + k) mod total_weight p < total_weight p) by (apply Z.mod_pos_bound; lia).
  pose proof (select_class_spec (classes p) 0 0 ((cursor + k) mod total_weight p) i Hw) as Hs.
  cbn [Nat.add] in Hs. rewrite Hs; try lia; [|by eapply lookup_lt_Some].
  rewrite (take_weight i _ c Hi). lia.
Qed.

Lemma selections_from_0 : selections_from 0 = count.
Proof.
  unfold selections_from. destruct Hp as (_ & _ & Hr & _). rewrite cnt_all; [lia|lia|].
  intros k Hk. rewrite take_0. change (weights_sum []) with 0.
  assert (0 <= (cursor + k) mod total_weight p) by (apply Z.mod_pos_bound; lia). lia.
Qed.

Lemma selections_from_end : selections_from (length (classes p)) = 0.
Proof.
  unfold selections_from. destruct Hp as (_ & Ht & Hr & _). apply cnt_none.
  intros k Hk. rewrite firstn_all, <- Ht.
  assert ((cursor + k) mod total_weight p < total_weight p) by (apply Z.mod_pos_bound; lia). lia.
Qed.

(** The state after the class loop from class [i] on. *)
Definition skip_post (i : nat) (s s' : tg_scheduler) : Prop :=
  (exists cts, s' = with_counts cts s) /\ dims_ok s' /\
  eq64 (attempted_sum s') (attempted_sum s) /\
  eq64 (skipped_sum s') (skipped_sum s + selections_from i) /\
  (counts_nonneg s -> counts_nonneg s' /\ attempted_sum s' <= attempted_sum s /\ skipped_sum s' <= skipped_sum s + selections_from i) /\
  forall cl x, get_count s (Z.to_nat (phase_index s)) cl = Some x ->
    (i <= cl < length (classes p))%nat ->
    get_count s' (Z.to_nat (phase_index s)) cl =
      Some (mk_count (attempted x) (u64 (skipped x + selections p cursor count cl))).

Lemma skip_classes_spec cs i s :
  drop i (classes p) = cs -> dims_ok s -> 0 <= phase_index s < 16 ->
  (i <= length (classes p))%nat ->
  let s' := skip_classes (total_weight p) (cursor mod total_weight p) (count mod total_weight p)
              (count / total_weight p) i (weights_sum (take i (classes p))) cs s in
  skip_post i s s' /\
  forall cl, (cl < i)%nat -> get_count s' (Z.to_nat (phase_index s)) cl
                           = get_count s (Z.to_nat (phase_index s)) cl.
Proof.
  cbn zeta. revert i s. induction cs as [|c t IH]; intros i s Hdrop Hd Hph Hi; cbn [skip_classes].
  - assert (i = length (classes p)) as ->.
    { pose proof (f_equal length Hdrop) as Hl. rewrite length_drop in Hl. cbn in Hl. lia. }
    split; [|done]. split_and!.
    + exists (counts s). by destruct s.
    + done.
    + apply eq64_refl.
    + rewrite selections_from_end, Z.add_0_r. apply eq64_refl.
    + rewrite selections_from_end. intros ?. split_and!; [done|lia|lia].
    + intros; lia.
  - assert (classes p !! i = Some c) as Hci.
    { rewrite <- (Nat.add_0_r i), <- lookup_drop, Hdrop. done. }
    pose proof (lookup_lt_Some _ _ _ Hci) as Hlt.
    assert (drop (S i) (classes p) = t) as Hdrop'.
    { apply (drop_S _ c i) in Hci. congruence. }
    rewrite (skip_hits_selections p cursor count i c) by done.
    rewrite <- (take_weight i _ c Hci).
    set (f := fun n => mk_count (attempted n) (u64 (skipped n + selections p cursor count i))).
    set (s1 := count_alter f i s).
    destruct Hp as (_ & _ & _ & Hlen & _).
    destruct (IH (S i) s1 Hdrop' ltac:(by apply count_alter_dims) Hph ltac:(lia))
      as [(C1 & C2 & C3 & C4 & Cn & C5) C6].
    change (phase_index s1) with (phase_index s) in *.
    split; [split_and!|].
    + destruct C1 as [cts ->]. exists cts. done.
    + done.
    + eapply eq64_trans; [exact C3|].
      pose proof (count_alter_sums f i s attempted 0 Hd Hph ltac:(lia)
        ltac:(intros x; cbn; rewrite Z.add_0_r; apply eq64_refl)) as H0.
      rewrite Z.add_0_r in H0. exact H0.
    + eapply eq64_trans; [exact C4|]. rewrite (selections_from_step i c Hci).
      pose proof (count_alter_sums f i s skipped (selections p cursor count i) Hd Hph ltac:(lia)
        ltac:(intros x; cbn; apply u64_eq64)) as [k Hk]. exists k.
      unfold skipped_sum, s1 in *. lia.
    + intros Hn. pose proof (cnt_range (fun k => Nat.eqb (select_class ((cursor + k) mod total_weight p) 0 0 (classes p)) i) 0 count) as Hsel.
      fold (selections p cursor count i) in Hsel.
      assert (counts_nonneg s1) as Hn1.
      { apply count_alter_nonneg; [done|]. intros x H1 H2. cbn. split; [done|apply u64_range]. }
      destruct (Cn Hn1) as (K1 & K2 & K3). split; [done|]. rewrite (selections_from_step i c Hci).
      pose proof (count_alter_exact f i s attempted 0 Hd Hph ltac:(lia) Hn ltac:(intros x ? ?; cbn; lia)).
      pose proof (count_alter_exact f i s skipped (selections p cursor count i) Hd Hph ltac:(lia) Hn
        ltac:(intros x ? ?; cbn; apply Z.mod_le; lia)).
      unfold attempted_sum, skipped_sum, s1 in *. lia.
    + intros cl x Hx Hcl. destruct (decide (cl = i)) as [->|Hne].
      * rewrite C6 by lia. unfold s1. rewrite count_alter_get, bool_decide_eq_true_2, Hx by done. done.
      * apply C5; [|lia]. unfold s1. rewrite count_alter_get, bool_decide_eq_false_2; [done|]. intros [_ ?]; done.
    + intros cl Hcl. rewrite C6 by lia. unfold s1.
      rewrite count_alter_get, bool_decide_eq_false_2; [done|]. intros [_ ?]; lia.
Qed.
End SkipState.

(** The classes of the next [n] selections, and the state after them. *)
Fixpoint select_times (n : nat) (s : tg_scheduler) : list nat * tg_scheduler :=
  match n with
  | O => ([], s)
  | S k => let '(c, s1) := tg_select s in let '(l, s2) := select_times k s1 in (c :: l, s2)
  end.
Definition times (j : nat) (l : list nat) : Z := Z.of_nat (count_occ Nat.eq_dec l j).

(** The selectors of a run of [n] do not meet the wrap of the 64-bit cursor, or
    the wrap is a multiple of the cycle. *)
Definition run_fits (cursor n total : Z) : Prop := cursor + n <= 18446744073709551616 \/ 18446744073709551616 mod total = 0.

Lemma cursor_mod cursor n total k : run_fits cursor n total -> 0 < total -> 0 <= cursor -> 0 <= k < n ->
  u64 (cursor + k) mod total = (cursor + k) mod total.
Proof.
  intros [H|H] Ht Hc Hk; [by rewrite u64_small by (wunfold; lia)|]. apply Z_div_exact_full_2 in H; [|lia]. unfold u64.
  rewrite (Z.div_mod (cursor + k) 18446744073709551616) at 2 by lia. rewrite H at 2.
  replace (total * (18446744073709551616 / total) * ((cursor + k) / 18446744073709551616) + (cursor + k) mod 18446744073709551616)
    with ((cursor + k) mod 18446744073709551616 + (18446744073709551616 / total * ((cursor + k) / 18446744073709551616)) * total) by ring.
  by rewrite Z_mod_plus_full.
Qed.

Lemma select_times_spec n : forall s c, plan_ok (plan s) -> 0 <= c -> selection_cursor s = u64 c -> run_fits c (Z.of_nat n) (total_weight (plan s)) ->
  let '(l, s') := select_times n s in
  (forall j, times j l = selections (plan s) c (Z.of_nat n) j) /\ s' = with_selection_cursor (u64 (c + Z.of_nat n)) s.
Proof.
  induction n as [|n IH]; intros s c Hp Hc Ec Hf; cbn [select_times].
  { split; [intros j; done|]. rewrite Z.add_0_r, <- Ec. by destruct s. }
  unfold tg_select. set (s1 := with_selection_cursor _ s).
  assert (run_fits (c + 1) (Z.of_nat n) (total_weight (plan s))) as Hf1 by (destruct Hf; [left; lia|by right]).
  assert (u64 (u64 c + 1) = u64 (c + 1)) as Eu by (unfold u64; by rewrite Zplus_mod_idemp_l).
  pose proof (IH s1 (c + 1) Hp ltac:(lia) ltac:(cbn; by rewrite Ec) Hf1) as H. destruct (select_times n s1) as [l s2].
  destruct H as [Hl ->]. split.
  - intros j. pose proof Hp as (_ & _ & Hr & _). pose proof (cursor_mod c (Z.of_nat (S n)) _ 0 Hf ltac:(lia) Hc ltac:(lia)) as H0.
    rewrite Z.add_0_r in H0. unfold selections at 1. rewrite (cnt_split _ 0 1) by lia.
    assert (cnt (fun k => Nat.eqb (select_class ((c + k) mod total_weight (plan s)) 0 0 (classes (plan s))) j) 1 (Z.of_nat (S n)) = times j l) as ->.
    { rewrite Hl. unfold selections. replace (Z.of_nat (S n)) with (1 + Z.of_nat n) by lia. rewrite <- (Z.add_0_r 1) at 1.
      rewrite <- cnt_shift. apply cnt_ext. intros k Hk. do 3 f_equal. lia. }
    unfold times. cbn [count_occ]. rewrite Ec, H0. unfold cnt. change (Z.to_nat (1 - 0)) with 1%nat. cbn [cnt_from]. rewrite !Z.add_0_r.
    destruct (Nat.eq_dec _ j) as [->|Hne]; [rewrite Nat.eqb_refl; lia|]. apply Nat.eqb_neq in Hne. rewrite Hne. lia.
  - unfold s1. replace (c + Z.of_nat (S n)) with (c + 1 + Z.of_nat n) by lia. by destruct s.
Qed.

(** C35: skipping is selecting.  [tg_skip n] adds to every class's skipped
    counter exactly the number of times [n] calls of tg_select would return
    the class, leaves the selection cursor where those calls would leave it, so
    that the class mix continues unchanged, and counts all [n] arrivals as
    consumed and skipped.  The run must not cross the wrap of the 64-bit
    cursor (2^64 arrivals), unless the weights' sum divides 2^64; [skip_wrap]
    shows that the two differ there. *)
Theorem skip_is_selecting s n
  (Hp : plan_ok (plan s)) (Hd : dims_ok s) (Hph : 0 <= phase_index s < 16)
  (Hcur : in_u64 (selection_cursor s)) (Hn : run_fits (selection_cursor s) (Z.of_nat n) (total_weight (plan s))) :
  let s' := tg_skip (Z.of_nat n) s in
  let '(picked, s1) := select_times n s in
  (forall cl x, get_count s (Z.to_nat (phase_index s)) cl = Some x ->
     (cl < length (classes (plan s)))%nat ->
     get_count s' (Z.to_nat (phase_index s)) cl = Some (mk_count (attempted x) (u64 (skipped x + times cl picked)))) /\
  selection_cursor s' = selection_cursor s1 /\
  phase_consumed s' = u64 (phase_consumed s + Z.of_nat n) /\
  skipped_total s' = u64 (skipped_total s + Z.of_nat n) /\
  eq64 (skipped_sum s') (skipped_sum s + Z.of_nat n).
Proof.
  cbn zeta. pose proof (select_times_spec n s (selection_cursor s) Hp ltac:(unfold in_u64 in *; lia) ltac:(by rewrite u64_small) Hn) as Hs.
  destruct (select_times n s) as [picked s1]. destruct Hs as [Ht ->]. unfold tg_skip.
  destruct (skip_classes_spec (plan s) (selection_cursor s) (Z.of_nat n) Hp ltac:(unfold in_u64 in *; lia) ltac:(lia) (classes (plan s)) 0 s
    eq_refl Hd Hph ltac:(lia)) as [((cts & E) & _ & _ & C4 & _ & C5) _].
  rewrite take_0 in *. change (weights_sum []) with 0 in *.
  rewrite selections_from_0 in C4 by (done || lia). rewrite E in *.
  split_and!; try done. intros cl x Hx Hl. rewrite Ht. exact (C5 cl x Hx ltac:(lia)).
Qed.

(** Two classes of weight 3 and 1, one phase of 10 s at 100 arrivals per
    second, a 1 MHz clock. *)
Definition demo_plan : tg_plan :=
  mk_plan 10 8 100 4 0 1 [mk_phase 10 100 100] 0 [mk_class 3 None; mk_class 1 None].
Definition demo_sched : tg_scheduler :=
  match tg_scheduler_init demo_plan 1000000 with
  | Some s => s
  | None => mk_sched demo_plan 1 0 0 0 0 0 0 0 0 0 0 0 0 0 0 0 [] 0 0 0 false false false
  end.

Lemma demo_plan_ok : plan_ok demo_plan.
Proof. repeat split; repeat constructor; vm_compute; congruence. Qed.

Lemma skip_is_selecting_witness :
  fst (select_times 7 demo_sched) = [0; 0; 0; 1; 0; 0; 0]%nat /\
  get_count (tg_skip 7 demo_sched) 0 0 = Some (mk_count 0 6) /\
  get_count (tg_skip 7 demo_sched) 0 1 = Some (mk_count 0 1) /\
  selection_cursor (tg_skip 7 demo_sched) = selection_cursor (snd (select_times 7 demo_sched)).
Proof.
  split; [vm_compute; reflexivity|].
  pose proof (skip_is_selecting demo_sched 7 demo_plan_ok
    ltac:(split; [reflexivity|repeat constructor]) ltac:(vm_compute; split; congruence)
    ltac:(vm_compute; split; congruence) ltac:(left; vm_compute; congruence)) as H.
  destruct (select_times 7 demo_sched) as [l s1] eqn:E. destruct H as (H & Hc & _).
  assert (l = [0; 0; 0; 1; 0; 0; 0]%nat) as -> by (vm_compute in E; by injection E as <- _). cbn [fst snd].
  split_and!; [exact (H 0%nat (mk_count 0 0) ltac:(vm_compute; reflexivity) ltac:(vm_compute; lia))
    |exact (H 1%nat (mk_count 0 0) ltac:(vm_compute; reflexivity) ltac:(vm_compute; lia))|exact Hc].
Defined.

(** At the wrap the cursor's residue jumps: with weights 1 and 2 and the cursor
    at 2^64 - 1, two selections take the first class twice, the skip counts one
    arrival of each. *)
Example skip_wrap :
  let p := mk_plan 10 8 100 3 0 1 [mk_phase 10 100 100] 0 [mk_class 1 None; mk_class 2 None] in
  let s := with_selection_cursor UINT64_MAX (with_plan p demo_sched) in
  fst (select_times 2 s) = [0; 0]%nat /\
  get_count (tg_skip 2 s) 0 0 = Some (mk_count 0 1) /\ get_count (tg_skip 2 s) 0 1 = Some (mk_count 0 1).
Proof. vm_compute. split_and!; reflexivity. Qed.

(** ** Arrivals over shards and time *)

Lemma shard_due_step g i n :
  0 < n -> 0 <= i < n -> 0 <= g -> g + n < 18446744073709551615 ->
  shard_due (g + 1) i n = shard_due g i n + (if g mod n =? i then 1 else 0).
Proof.
  intros Hn Hi Hg Hb. unfold shard_due.
  pose proof (Z.div_mod g n ltac:(lia)) as Hdm.
  pose proof (Z.mod_pos_bound g n Hn) as Hm. set (q := g / n) in *. set (m := g mod n) in *.
  assert (0 <= q) by (apply Z.div_pos; lia). clearbody q m.
  destruct (Z.leb_spec (g + 1) i).
  - destruct (Z.leb_spec g i); [|lia]. destruct (Z.eqb_spec m i); [|lia].
    assert (q = 0) by nia. nia.
  - rewrite (u64_small (g + 1 - i + n - 1)) by (wunfold; lia).
    destruct (Z.leb_spec g i).
    + assert (g = i) as -> by lia. assert (q = 0) as -> by nia.
      replace (i + 1 - i + n - 1) with (1 * n) by lia. rewrite Z.div_mul by lia.
      destruct (Z.eqb_spec m i); lia.
    + rewrite (u64_small (g - i + n - 1)) by (wunfold; lia).
      destruct (Z.eqb_spec m i) as [->|Hne].
      * replace (g + 1 - i + n - 1) with ((q + 1) * n) by nia. rewrite Z.div_mul by lia.
        replace (g - i + n - 1) with (q * n + (n - 1)) by nia.
        rewrite Z.div_add_l, Z.div_small by lia. lia.
      * destruct (decide (m < i)).
        -- replace (g + 1 - i + n - 1) with (q * n + (m - i + n)) by nia.
           replace (g - i + n - 1) with (q * n + (m - i + n - 1)) by nia.
           rewrite !Z.div_add_l, !Z.div_small by lia. lia.
        -- replace (g + 1 - i + n - 1) with ((q + 1) * n + (m - i)) by nia.
           replace (g - i + n - 1) with ((q + 1) * n + (m - i - 1)) by nia.
           rewrite !Z.div_add_l, !Z.div_small by lia. lia.
Qed.

(** Sum over the shards [0 .. n-1]. *)
Definition over_shards (f : Z -> Z) (n : nat) : Z := Zsum (map (fun i => f (Z.of_nat i)) (seq 0 n)).

Lemma over_shards_S f n : over_shards f (S n) = over_shards f n + f (Z.of_nat n).
Proof.
  unfold over_shards. rewrite seq_S, map_app, Zsum_app. cbn [map]. rewrite Zsum_cons, Zsum_nil.
  rewrite Nat.add_0_l. lia.
Qed.

Lemma over_shards_ext f g n :
  (forall i, 0 <= i < Z.of_nat n -> f i = g i) -> over_shards f n = over_shards g n.
Proof.
  induction n as [|n IH]; intros H; [done|]. rewrite !over_shards_S, IH by (intros; apply H; lia).
  rewrite H by lia. done.
Qed.

Lemma over_shards_add f g n :
  over_shards (fun i => f i + g i) n = over_shards f n + over_shards g n.
Proof. induction n as [|n IH]; [done|]. rewrite !over_shards_S, IH. lia. Qed.

Lemma over_shards_one m n :
  0 <= m -> over_shards (fun i => if m =? i then 1 else 0) n = if m <? Z.of_nat n then 1 else 0.
Proof.
  intros Hm. induction n as [|n IH]; [destruct (Z.ltb_spec m (Z.of_nat 0)); [lia|done]|].
  rewrite over_shards_S, IH.
  destruct (Z.eqb_spec m (Z.of_nat n)), (Z.ltb_spec m (Z.of_nat n)), (Z.ltb_spec m (Z.of_nat (S n))); lia.
Qed.

(** the shards own every arrival exactly once.  For any number of shards
    the per-shard due counts add up to the global due count, at every instant. *)
Theorem shards_partition_arrivals g n
  (Hn : (0 < n)%nat) (Hg : 0 <= g) (Hb : g + Z.of_nat n < 18446744073709551615) :
  over_shards (fun i => shard_due g i (Z.of_nat n)) n = g.
Proof.
  revert g Hg Hb. apply (natlike_ind (fun g => g + Z.of_nat n < 18446744073709551615 ->
    over_shards (fun i => shard_due g i (Z.of_nat n)) n = g)).
  - intros _. rewrite (over_shards_ext _ (fun _ => 0)).
    + clear. induction n as [|n IH]; [done|]. rewrite over_shards_S. lia.
    + intros i Hi. unfold shard_due. destruct (Z.leb_spec 0 i); [done|lia].
  - intros g Hg IH Hb. unfold Z.succ in *.
    rewrite (over_shards_ext _ (fun i => shard_due g i (Z.of_nat n)
      + (if g mod Z.of_nat n =? i then 1 else 0))) by (intros i Hi; apply shard_due_step; lia).
    rewrite over_shards_add, IH by lia.
    pose proof (Z.mod_pos_bound g (Z.of_nat n) ltac:(lia)).
    rewrite over_shards_one by lia. destruct (Z.ltb_spec (g mod Z.of_nat n) (Z.of_nat n)); lia.
Qed.

Lemma shards_partition_arrivals_witness :
  over_shards (fun i => shard_due 1000 i 3) 3 = 1000.
Proof. exact (shards_partition_arrivals 1000 3 ltac:(lia) ltac:(lia) ltac:(lia)). Defined.

Definition phase_ok (p : tg_phase_plan) (hz : Z) : Prop :=
  1 <= ph_duration_sec p <= TG_PLAN_MAX_DURATION_SEC /\ 0 <= ph_start_cps p <= TG_PLAN_MAX_CPS /\
  0 <= ph_target_cps p <= TG_PLAN_MAX_CPS /\ 1 <= hz <= 10000000000.

(** Twice the arrivals before [t] cycles, times duration and clock. *)
Definition arrivals2 (p : tg_phase_plan) (hz t : Z) : Z :=
  let d := ph_duration_sec p * hz in
  t * (2 * ph_start_cps p * d + (ph_target_cps p - ph_start_cps p) * t).

Lemma due_global_exact p hz t :
  phase_ok p hz -> 0 <= t <= ph_duration_sec p * hz ->
  let D := 2 * (ph_duration_sec p * hz) * hz in
  due_global p hz t = (arrivals2 p hz t + D - 1) / D /\
  0 <= arrivals2 p hz t /\ 0 < D /\ (arrivals2 p hz t + D - 1) / D < 18446744073709551616.
Proof.
  unfold phase_ok, TG_PLAN_MAX_DURATION_SEC, TG_PLAN_MAX_CPS. intros (Hd & Ha & Hb & Hh) Ht.
  cbn zeta. unfold due_global, arrivals2.
  set (a := ph_start_cps p) in *. set (b := ph_target_cps p) in *. set (d := ph_duration_sec p) in *.
  assert (1 <= d * hz <= 864000000000000) as HD by nia.
  assert (d * hz <= 86400 * hz) as HD2 by nia.
  rewrite (u64_small (d * hz)) by (wunfold; lia). set (D := d * hz) in *. clearbody D.
  assert (0 <= a * D <= 864000000000000000000) as H1 by nia.
  assert (0 <= b * t <= 864000000000000000000) as H2 by nia.
  assert (0 <= a * t <= a * D) as H3 by nia.
  rewrite (u128_small (2 * a)) by lia. rewrite (u128_small (2 * a * D)) by lia.
  set (R := 2 * a * D + (b - a) * t).
  assert (0 <= R <= 3000000000000000000000) as HR by (unfold R; lia).
  replace (if a <=? b then u128 (2 * a * D + u128 ((b - a) * t))
           else u128 (2 * a * D - u128 ((a - b) * t))) with R.
  2: { unfold R. destruct (Z.leb_spec a b).
       - assert (a * t <= b * t) by nia. rewrite (u128_small ((b - a) * t)) by lia.
         rewrite u128_small by lia. done.
       - assert (b * t <= a * t) by nia. rewrite (u128_small ((a - b) * t)) by lia.
         rewrite u128_small by lia. lia. }
  assert (0 <= t * R <= 864000000000000 * 3000000000000000000000) as HtR by nia.
  assert (1 <= D * hz <= 8640000000000000000000000) as HDh by nia.
  rewrite (u128_small (2 * D)) by lia. rewrite (u128_small (2 * D * hz)) by lia.
  rewrite (u128_small (t * R)) by lia. rewrite (u128_small (t * R + _)) by lia.
  rewrite u128_small by lia.
  assert (t * R <= 2 * D * hz * 100000000000) as Hup.
  { pose proof (Z.mul_le_mono_nonneg_r a 1000000 (2 * D - t) ltac:(lia) ltac:(lia)).
    pose proof (Z.mul_le_mono_nonneg_r b 1000000 t ltac:(lia) ltac:(lia)).
    assert (R <= 2000000 * D) by (unfold R; lia).
    pose proof (Z.mul_le_mono_nonneg t (86400 * hz) R (2000000 * D) ltac:(lia) ltac:(lia)
      ltac:(lia) ltac:(lia)). lia. }
  assert ((t * R + 2 * D * hz - 1) / (2 * D * hz) < 18446744073709551616) as Hq
    by (apply Z.div_lt_upper_bound; lia).
  assert (0 <= (t * R + 2 * D * hz - 1) / (2 * D * hz)) by (apply Z.div_pos; lia).
  rewrite u64_small by (wunfold; lia). split_and!; lia.
Qed.

Lemma arrivals2_mono p hz t t' :
  phase_ok p hz -> 0 <= t <= t' -> t' <= ph_duration_sec p * hz ->
  arrivals2 p hz t <= arrivals2 p hz t'.
Proof.
  intros (Hd & Ha & Hb & Hh) Ht Ht'. unfold arrivals2.
  set (D := ph_duration_sec p * hz) in *. set (a := ph_start_cps p) in *. set (b := ph_target_cps p) in *.
  clearbody D a b.
  assert (0 <= a * (2 * D - t - t')) by (apply Z.mul_nonneg_nonneg; lia).
  assert (0 <= b * (t + t')) by (apply Z.mul_nonneg_nonneg; lia).
  assert (0 <= (t' - t) * (a * (2 * D - t - t') + b * (t + t'))) by (apply Z.mul_nonneg_nonneg; lia).
  lia.
Qed.

Lemma ceil_half k n : 0 < k -> 0 <= n -> (k * n + 2 * k - 1) / (2 * k) = (n + 1) / 2.
Proof.
  intros Hk Hn. pose proof (Z.div_mod (n + 1) 2 ltac:(lia)) as Hdm.
  pose proof (Z.mod_pos_bound (n + 1) 2 ltac:(lia)). set (q := (n + 1) / 2) in *.
  set (r := (n + 1) mod 2) in *. clearbody q r.
  symmetry. apply (Z.div_unique _ _ _ (k * r + k - 1)); [left; nia|].
  replace n with (2 * q + r - 1) by lia. ring.
Qed.

(** the arrival count is exact.  For every phase the scenario loader
    admits, no 128-bit or 64-bit intermediate wraps: the number of global
    arrivals due before an instant is the exact ceiling of the integral of the
    linear rate ramp, it never decreases, it starts at zero, and at the end of
    the phase it is the amount by which the scheduler advances the global
    arrival offset. *)
Theorem due_count_exact p hz t t'
  (Hp : phase_ok p hz) (Ht : 0 <= t <= t') (Ht' : t' <= ph_duration_sec p * hz) :
  let D := 2 * (ph_duration_sec p * hz) * hz in
  due_global p hz t = (arrivals2 p hz t + D - 1) / D /\
  due_global p hz t <= due_global p hz t' /\ due_global p hz 0 = 0 /\
  due_global p hz (ph_duration_sec p * hz) =
    u64 (u64 (ph_duration_sec p * u32 (ph_start_cps p + ph_target_cps p)) + 1) / 2.
Proof.
  cbn zeta. destruct (due_global_exact p hz t Hp ltac:(lia)) as (E1 & P1 & HD & B1).
  destruct (due_global_exact p hz t' Hp ltac:(lia)) as (E2 & P2 & _ & B2).
  destruct (due_global_exact p hz 0 Hp ltac:(lia)) as (E0 & P0 & _ & _).
  destruct (due_global_exact p hz (ph_duration_sec p * hz) Hp ltac:(lia)) as (E3 & P3 & _ & B3).
  split; [exact E1|]. split; [|split].
  - rewrite E1, E2. apply Z.div_le_mono; [lia|]. pose proof (arrivals2_mono p hz t t' Hp Ht Ht'). lia.
  - rewrite E0. unfold arrivals2. rewrite Z.mul_0_l. apply Z.div_small. lia.
  - rewrite E3. destruct Hp as (Hd & Ha & Hb & Hh).
    unfold TG_PLAN_MAX_DURATION_SEC, TG_PLAN_MAX_CPS in *.
    rewrite (u32_small (_ + _)) by (wunfold; lia).
    assert (0 <= ph_duration_sec p * (ph_start_cps p + ph_target_cps p) <= 86400 * 2000000) as Hn by nia.
    rewrite (u64_small (_ * _)) by (wunfold; lia). rewrite u64_small by (wunfold; lia).
    rewrite <- (ceil_half (ph_duration_sec p * hz * hz)) by (lia || nia).
    unfold arrivals2. f_equal; [|ring]. f_equal. ring.
Qed.

Lemma due_count_exact_witness :
  due_global (mk_phase 10 100 200) 1000000 5000000 = 625 /\
  due_global (mk_phase 10 100 200) 1000000 10000000 = 1500.
Proof.
  destruct (due_count_exact (mk_phase 10 100 200) 1000000 5000000 10000000) as (H1 & _ & _ & H2).
  - repeat split; vm_compute; congruence.
  - split; vm_compute; congruence.
  - vm_compute; congruence.
  - split; [rewrite H1; vm_compute; reflexivity|].
    change 10000000 with (ph_duration_sec (mk_phase 10 100 200) * 1000000).
    rewrite H2. vm_compute. reflexivity.
Defined.

(** ** Partitioning a plan *)

Lemma over_shards_lt r n :
  0 <= r -> over_shards (fun i => if i <? r then 1 else 0) n = Z.min r (Z.of_nat n).
Proof.
  intros Hr. induction n as [|n IH]; [cbn; lia|]. rewrite over_shards_S, IH.
  destruct (Z.ltb_spec (Z.of_nat n) r); lia.
Qed.

Lemma over_shards_const c n : over_shards (fun _ => c) n = c * Z.of_nat n.
Proof. induction n as [|n IH]; [cbn; lia|]. rewrite over_shards_S, IH. lia. Qed.

(** An even split with the remainder on the first shards adds up. *)
Lemma even_split m n :
  (0 < n)%nat -> 0 <= m ->
  over_shards (fun i => m / Z.of_nat n + if i <? m mod Z.of_nat n then 1 else 0) n = m.
Proof.
  intros Hn Hm. rewrite over_shards_add, over_shards_const.
  pose proof (Z.mod_pos_bound m (Z.of_nat n) ltac:(lia)).
  rewrite over_shards_lt by lia. rewrite (Z.div_mod m (Z.of_nat n)) at 3 by lia. lia.
Qed.

Lemma clone_classes_total clone cs :
  (forall c, exists c', clone c = Some c') ->
  exists cs', clone_classes clone cs = Some cs' /\ map weight cs' = map weight cs.
Proof.
  intros Hc. induction cs as [|c t (cs' & E & W)]; [by exists []|].
  cbn [clone_classes]. rewrite E. destruct (proto_config c) as [cfg|] eqn:Ep.
  - destruct (Hc cfg) as [c' ->]. eexists. split; [done|]. cbn. by rewrite W.
  - eexists. split; [done|]. cbn. by rewrite W.
Qed.

Definition shard_field (f : tg_plan -> Z) (clone : Z -> option Z) (source : tg_plan) (n : nat) (i : Z) : Z :=
  match tg_plan_partition clone source i (Z.of_nat n) with Some p => f p | None => 0 end.

(** partitioning preserves the load.  When the worker count is at most
    [tg_plan_active_shards] and the plugin can clone its configurations, every
    shard gets a plan with at least one unit of rate and of concurrency and the
    same class weights, and over all shards the rates and the concurrency
    limits add up to those of the source plan. *)
Theorem partition_preserves_load clone source n
  (Hclone : forall c, exists c', clone c = Some c')
  (Hn : (0 < n)%nat) (Hr : 0 <= max_concurrency source /\ 0 <= target_cps source)
  (Hw : 0 < total_weight source) (Hc : 1 <= class_count source <= TG_PLAN_MAX_CLASSES)
  (Ha : Z.of_nat n <= tg_plan_active_shards source (Z.of_nat n)) :
  (forall i, 0 <= i < Z.of_nat n -> exists p,
     tg_plan_partition clone source i (Z.of_nat n) = Some p /\
     1 <= max_concurrency p /\ 1 <= target_cps p /\
     map weight (classes p) = map weight (classes source) /\
     schedule_shard_index p = i /\ phases p = phases source) /\
  over_shards (shard_field max_concurrency clone source n) n = max_concurrency source /\
  over_shards (shard_field target_cps clone source n) n = target_cps source.
Proof.
  assert (Z.of_nat n <= target_cps source /\ Z.of_nat n <= max_concurrency source) as [H1 H2].
  { revert Ha. unfold tg_plan_active_shards.
    destruct (_ || _) eqn:E; [lia|]. bsplit; lia. }
  destruct (clone_classes_total clone (classes source) Hclone) as (cs & Ecs & Wcs).
  assert (forall i, 0 <= i < Z.of_nat n -> tg_plan_partition clone source i (Z.of_nat n) =
    Some (mk_plan (duration_sec source)
      (max_concurrency source / Z.of_nat n
         + if i <? max_concurrency source mod Z.of_nat n then 1 else 0)
      (target_cps source / Z.of_nat n
         + if i <? target_cps source mod Z.of_nat n then 1 else 0)
      (total_weight source) i (Z.of_nat n) (phases source)
      (u32 (u64 (i * total_weight source) / Z.of_nat n)) cs)) as Hpart.
  { intros i Hi. unfold tg_plan_partition. destruct (_ || _) eqn:E; [exfalso; lia|].
    by rewrite Ecs. }
  assert (1 <= max_concurrency source / Z.of_nat n) by (apply Z.div_le_lower_bound; lia).
  assert (1 <= target_cps source / Z.of_nat n) by (apply Z.div_le_lower_bound; lia).
  split; [|split].
  - intros i Hi. eexists. split; [by apply Hpart|]. cbn [max_concurrency target_cps classes
      schedule_shard_index phases]. split_and!; try done; bsplit; lia.
  - rewrite <- (even_split (max_concurrency source) n) by lia. apply over_shards_ext.
    intros i Hi. unfold shard_field. rewrite Hpart by lia. done.
  - rewrite <- (even_split (target_cps source) n) by lia. apply over_shards_ext.
    intros i Hi. unfold shard_field. rewrite Hpart by lia. done.
Qed.

Lemma partition_preserves_load_witness :
  over_shards (shard_field max_concurrency Some demo_plan 3) 3 = 8 /\
  over_shards (shard_field target_cps Some demo_plan 3) 3 = 100.
Proof.
  destruct (partition_preserves_load Some demo_plan 3) as (_ & A & B).
  - intros c. exists c. reflexivity.
  - lia.
  - vm_compute; split; congruence.
  - vm_compute; reflexivity.
  - vm_compute; split; congruence.
  - vm_compute; congruence.
  - split; [exact A|exact B].
Defined.
