(* ===== verification/SchedulerRun.v ===== *)
(** * Accounting of a scheduler run (facts on Scheduler.v)

    Every planned arrival is attempted, skipped or pending, whatever sequence
    of turns and completions the worker goes through; admissions respect the
    turn budget and the concurrency limit. *)

From S2P Require Import Prelude Scheduler SchedulerFacts.

Definition plan_phases (p : tg_plan) : Z :=
  if negb (phase_count p =? 0) then phase_count p else 1.

Lemma plan_phases_range p : plan_ok p -> 1 <= plan_phases p <= 16.
Proof.
  intros (_ & _ & _ & _ & H & _). unfold plan_phases, phase_count.
  destruct (Z.eqb_spec (Z.of_nat (length (phases p))) 0); cbn; lia.
Qed.

Definition phase_of (p : tg_plan) (i : Z) : tg_phase_plan :=
  if negb (phase_count p =? 0) then nth (Z.to_nat i) (phases p) (mk_phase 0 0 0)
  else mk_phase (duration_sec p) (target_cps p) (target_cps p).
Definition phase_cycles (p : tg_plan) (hz i : Z) : Z := ph_duration_sec (phase_of p i) * hz.

(** What the scenario loader and the partition admit. *)
Definition loaded (p : tg_plan) (hz : Z) : Prop :=
  (forall i, 0 <= i < plan_phases p -> phase_ok (phase_of p i) hz) /\
  0 <= schedule_shard_index p < 4294967296 /\ 0 <= schedule_shard_count p < 4294967296.

(** The shard's arrivals due in phase [i] before [t] cycles of it, and those of
    all the phases before [i]. *)
Definition due_in (p : tg_plan) (hz i t : Z) : Z :=
  let n := if negb (phase_count p =? 0) && negb (schedule_shard_count p =? 0) then schedule_shard_count p else 1 in
  shard_due (due_global (phase_of p i) hz t) (if n =? 1 then 0 else schedule_shard_index p) n.
Definition due_before (p : tg_plan) (hz i : Z) : Z :=
  Zsum (map (fun k => due_in p hz (Z.of_nat k) (phase_cycles p hz (Z.of_nat k))) (seq 0 (Z.to_nat i))).

(** A phase has at most a day of a million arrivals per second. *)
Definition PHASE_MAX : Z := 86400000000.

Lemma shard_due_mono g g' i n : 0 <= i -> 0 < n < 4294967296 -> 0 <= g <= g' -> g' < 9223372036854775808 ->
  0 <= shard_due g i n <= shard_due g' i n /\ shard_due g' i n <= g'.
Proof.
  intros Hi Hn Hg Hb. unfold shard_due.
  assert (forall x, 0 <= x < 9223372036854775808 -> i < x -> u64 (x - i + n - 1) = x - i + n - 1) as Hu by (intros; apply u64_small; wunfold; lia).
  destruct (Z.leb_spec g' i) as [|H']; [destruct (Z.leb_spec g i); lia|]. rewrite (Hu g') by lia.
  assert (0 <= (g' - i + n - 1) / n <= g').
  { split; [apply Z.div_pos; lia|]. apply Z.div_le_upper_bound; nia. }
  destruct (Z.leb_spec g i); [lia|]. rewrite (Hu g) by lia. split; [|lia]. split; [apply Z.div_pos; lia|apply Z.div_le_mono; lia].
Qed.

Lemma due_in_range p hz i t t' : loaded p hz -> 0 <= i < plan_phases p -> 0 <= t <= t' -> t' <= phase_cycles p hz i ->
  0 <= due_in p hz i t <= due_in p hz i t' /\ due_in p hz i t' <= PHASE_MAX.
Proof.
  intros (Hl & Hx & Hc) Hi Ht Ht'. specialize (Hl i Hi). unfold phase_cycles in Ht'.
  destruct (due_count_exact _ _ t t' Hl Ht Ht') as (_ & Hm & _ & _).
  destruct (due_count_exact _ _ t' (ph_duration_sec (phase_of p i) * hz) Hl ltac:(lia) ltac:(lia)) as (_ & Hm' & _ & He).
  destruct (due_global_exact _ _ t Hl ltac:(lia)) as (E & P & HD & _).
  assert (0 <= due_global (phase_of p i) hz t) as H0 by (rewrite E; apply Z.div_pos; lia).
  assert (due_global (phase_of p i) hz (ph_duration_sec (phase_of p i) * hz) <= PHASE_MAX) as Hmax.
  { rewrite He. destruct Hl as (L1 & L2 & L3 & L4). unfold TG_PLAN_MAX_DURATION_SEC, TG_PLAN_MAX_CPS, PHASE_MAX in *.
    rewrite (u32_small (_ + _)) by (wunfold; lia).
    assert (0 <= ph_duration_sec (phase_of p i) * (ph_start_cps (phase_of p i) + ph_target_cps (phase_of p i)) <= 86400 * 2000000) by nia.
    rewrite (u64_small (_ * _)) by (wunfold; lia). rewrite u64_small by (wunfold; lia). apply Z.lt_succ_r, Z.div_lt_upper_bound; lia. }
  unfold due_in. cbv zeta. unfold PHASE_MAX in *.
  set (n := if negb _ && negb _ then _ else _). set (j := if _ =? 1 then _ else _).
  assert (0 < n < 4294967296) as Hn by (subst n; destruct (negb _ && negb _) eqn:En; bprop; lia).
  assert (0 <= j) as Hj by (subst j; destruct (n =? 1); lia).
  destruct (shard_due_mono (due_global (phase_of p i) hz t) (due_global (phase_of p i) hz t') j n Hj Hn); lia.
Qed.

Lemma due_before_S p hz i : 0 <= i -> due_before p hz (i + 1) = due_before p hz i + due_in p hz i (phase_cycles p hz i).
Proof.
  intros Hi. unfold due_before. replace (Z.to_nat (i + 1)) with (S (Z.to_nat i)) by lia.
  rewrite seq_S, map_app, Zsum_app. cbn [map Nat.add]. rewrite Zsum_cons, Zsum_nil, Z2Nat.id by lia. lia.
Qed.
Lemma due_before_range p hz i : loaded p hz -> 0 <= i <= plan_phases p -> 0 <= due_before p hz i <= i * PHASE_MAX.
Proof.
  intros Hl [H0 H1]. revert H1. pattern i. apply natlike_ind; [done| |done]. clear i H0. intros i Hi IH H1. unfold Z.succ in *.
  rewrite due_before_S by done.
  pose proof (Hl) as (Hp & _). pose proof (Hp i ltac:(lia)) as (L & _ & _ & L4).
  assert (0 <= phase_cycles p hz i) as Hd by (unfold phase_cycles; nia).
  pose proof (due_in_range p hz i _ _ Hl ltac:(lia) (conj Hd (Z.le_refl _)) (Z.le_refl _)). lia.
Qed.

(** Every arrival due so far is attempted, skipped or waiting, exactly. *)
Definition balanced (p : tg_plan) (hz : Z) (s : tg_scheduler) : Prop :=
  planned_total s = due_before p hz (phase_index s) + phase_seen s /\
  planned_total s = attempted_sum s + skipped_sum s + (phase_seen s - phase_consumed s) /\
  skipped_sum s = skipped_total s /\ 0 <= phase_consumed s <= phase_seen s.

(** What is seen of a phase was due by the last clock reading. *)
Definition clock_ok (p : tg_plan) (hz : Z) (s : tg_scheduler) : Prop :=
  in_u64 (last_cycles s) /\ 0 <= phase_start_cycles s <= last_cycles s /\
  (started s = false -> phase_seen s = 0 /\ phase_index s = 0) /\
  (phase_index s < plan_phases p ->
     phase_seen s <= due_in p hz (phase_index s) (Z.min (phase_cycles p hz (phase_index s)) (last_cycles s - phase_start_cycles s))) /\
  (phase_index s = plan_phases p -> phase_seen s = 0).

Definition sched_inv (p : tg_plan) (hz : Z) (s : tg_scheduler) : Prop :=
  (plan s = p /\ cycles_per_second s = hz) /\ (dims_ok s /\ counts_nonneg s) /\
  0 <= active s <= max_concurrency p /\ 0 <= selection_cursor s /\
  (0 <= phase_index s <= plan_phases p /\ (stopped s = false -> phase_index s < plan_phases p)) /\
  balanced p hz s /\ clock_ok p hz s.

(** Fields the skip and the phase loop leave alone. *)
Lemma skip_classes_frame total c r q cs i b s :
  active (skip_classes total c r q i b cs s) = active s /\
  resource_paused (skip_classes total c r q i b cs s) = resource_paused s.
Proof.
  revert i b s. induction cs as [|x t IH]; intros i b s; cbn [skip_classes]; [done|].
  match goal with |- context [skip_classes _ _ _ _ (S i) ?b' t ?s'] =>
    destruct (IH (S i) b' s') as [-> ->] end. done.
Qed.

Lemma skip_frame count s :
  active (tg_skip count s) = active s /\ resource_paused (tg_skip count s) = resource_paused s.
Proof. apply skip_classes_frame. Qed.

Lemma phase_loop_frame fuel now s :
  active (snd (phase_loop fuel now s)) = active s /\
  resource_paused (snd (phase_loop fuel now s)) = resource_paused s.
Proof.
  revert s. induction fuel as [|n IH]; intros s; [done|]. cbn [phase_loop].
  set (due := tg_due_count _ _).
  set (s1 := with_phase_seen due _).
  destruct (negb _); [done|].
  destruct (skip_frame (u64 (due - phase_consumed s1)) s1) as [F1 F2].
  set (s2 := tg_skip _ s1) in *. clearbody s2.
  match goal with |- context [if ?b then _ else _] => destruct b end.
  - split; [exact F1|exact F2].
  - match goal with |- context [phase_loop n now ?s4] => destruct (IH s4) as [-> ->] end.
    split; [exact F1|exact F2].
Qed.

(** Congruent counters below 2^64 are equal. *)
Lemma eq64_exact a b : eq64 a b -> 0 <= a < 18446744073709551616 -> 0 <= b < 18446744073709551616 -> a = b.
Proof. intros [k Hk] Ha Hb. nia. Qed.

Section Run.
Context (p : tg_plan) (hz : Z) (Hp : plan_ok p) (Hl : loaded p hz).

Lemma inv_phase s : sched_inv p hz s -> stopped s = false -> 0 <= phase_index s < 16.
Proof.
  intros (_ & _ & _ & _ & [H1 H2] & _) Hs. pose proof (plan_phases_range p Hp).
  specialize (H2 Hs). lia.
Qed.

(** The sums stay far below 2^64. *)
Lemma inv_bounds s : sched_inv p hz s -> 0 <= attempted_sum s /\ 0 <= skipped_sum s /\
  planned_total s <= 17 * PHASE_MAX /\ attempted_sum s + skipped_sum s + (phase_seen s - phase_consumed s) = planned_total s /\
  0 <= phase_seen s <= PHASE_MAX.
Proof.
  intros (_ & [_ Hn] & _ & _ & [Hx _] & (B1 & B2 & B3 & B4) & (C1 & C2 & C3 & C4 & C5)).
  destruct (sums_nonneg s Hn) as [S1 S2]. pose proof (plan_phases_range p Hp).
  pose proof (due_before_range p hz (phase_index s) Hl Hx) as Hb.
  assert (0 <= phase_seen s <= PHASE_MAX) as Hsn; [|unfold PHASE_MAX in *; split_and!; lia].
  destruct (decide (phase_index s = plan_phases p)) as [He|Hne]; [rewrite (C5 He); unfold PHASE_MAX; lia|].
  specialize (C4 ltac:(lia)). pose proof Hl as (Hph & _). pose proof (Hph (phase_index s) ltac:(lia)) as (L & _ & _ & L4).
  assert (0 <= phase_cycles p hz (phase_index s)) as Hd by (unfold phase_cycles; nia).
  match type of C4 with _ <= due_in _ _ _ ?t => pose proof (due_in_range p hz (phase_index s) t t Hl ltac:(lia) ltac:(lia) ltac:(lia)) end. lia.
Qed.

(** Changes to fields the invariant does not read. *)
Lemma inv_ext s s' :
  plan s' = plan s -> cycles_per_second s' = cycles_per_second s -> counts s' = counts s -> active s' = active s ->
  selection_cursor s' = selection_cursor s -> phase_index s' = phase_index s ->
  stopped s' = stopped s -> planned_total s' = planned_total s ->
  skipped_total s' = skipped_total s -> phase_seen s' = phase_seen s ->
  phase_consumed s' = phase_consumed s -> last_cycles s' = last_cycles s ->
  phase_start_cycles s' = phase_start_cycles s -> started s' = started s -> sched_inv p hz s -> sched_inv p hz s'.
Proof.
  unfold sched_inv, balanced, clock_ok, dims_ok, counts_nonneg, attempted_sum, skipped_sum.
  intros -> -> -> -> -> -> -> -> -> -> -> -> -> ->. done.
Qed.

(** Skipping part of what is waiting. *)
Lemma skip_inv count s :
  sched_inv p hz s -> stopped s = false -> 0 <= count <= phase_seen s - phase_consumed s ->
  let s' := tg_skip count s in
  sched_inv p hz s' /\ phase_consumed s' = phase_consumed s + count /\
  exists cts v w x, s' = with_skipped_total v (with_phase_consumed w (with_selection_cursor x (with_counts cts s))).
Proof.
  intros Hi Hs Hc. pose proof (inv_phase s Hi Hs) as Hph. destruct (inv_bounds s Hi) as (S1 & S2 & S3 & S4 & S5).
  destruct Hi as ([Epl Ehz] & [Hd Hn] & Ha & Hcur & Hx & (B1 & B2 & B3 & B4) & Hck). cbn zeta. unfold tg_skip.
  pose proof Hp as Hp'. rewrite <- Epl in Hp'. unfold PHASE_MAX in *.
  destruct (skip_classes_spec (plan s) (selection_cursor s) count Hp' Hcur ltac:(lia) (classes (plan s)) 0 s
    eq_refl Hd Hph ltac:(lia)) as [((cts & E) & C2 & C3 & C4 & Cn & _) _].
  destruct (Cn Hn) as (N1 & N2 & N3). destruct (sums_nonneg _ N1) as [N4 N5].
  rewrite take_0 in *. change (weights_sum []) with 0 in *. rewrite selections_from_0 in * by (done || lia). rewrite E in *.
  apply eq64_exact in C3; [|lia..]. apply eq64_exact in C4; [|lia..].
  cbn [skipped_total phase_consumed with_counts with_skipped_total with_phase_consumed with_selection_cursor] in *.
  rewrite (u64_small (phase_consumed s + count)) by (wunfold; lia). rewrite (u64_small (skipped_total s + count)) by (wunfold; lia).
  split; [|split; [done|by eexists cts, _, _, _]].
  unfold sched_inv, balanced, clock_ok.
  change (attempted_sum (with_skipped_total _ _)) with (attempted_sum (with_counts cts s)).
  change (skipped_sum (with_skipped_total _ _)) with (skipped_sum (with_counts cts s)).
  cbn [plan active selection_cursor phase_index stopped planned_total skipped_total phase_seen started last_cycles phase_start_cycles
       cycles_per_second phase_consumed with_counts with_skipped_total with_phase_consumed with_selection_cursor].
  split_and!; try done; try lia; try apply u64_range; try apply Hx; by apply Hck.
Qed.

(** A later clock reading. *)
Lemma clock_inv now s : sched_inv p hz s -> last_cycles s <= now -> in_u64 now -> sched_inv p hz (with_last_cycles now s).
Proof.
  intros (A1 & A2 & A3 & A4 & A5 & A6 & (C1 & C2 & C3 & C4 & C5)) Hle Hn. do 6 (split; [assumption|]). unfold clock_ok.
  cbn [last_cycles phase_start_cycles started phase_seen phase_index with_last_cycles]. split_and!; try done; try lia.
  intros Hx. specialize (C4 Hx). pose proof (proj1 Hl (phase_index s) ltac:(lia)) as (L & _ & _ & L4).
  assert (0 <= phase_cycles p hz (phase_index s)) as Hd by (unfold phase_cycles; nia).
  match goal with |- _ <= due_in _ _ _ ?t' => match type of C4 with _ <= due_in _ _ _ ?t =>
    pose proof (due_in_range p hz (phase_index s) t t' Hl ltac:(lia) ltac:(lia) ltac:(lia)) end end. lia.
Qed.

Lemma due_count_in s t : plan s = p -> cycles_per_second s = hz -> tg_due_count s t = due_in p hz (phase_index s) t.
Proof. intros <- <-. done. Qed.

(** What is newly due is planned and seen. *)
Lemma see_inv s (due := due_in p hz (phase_index s) (Z.min (phase_cycles p hz (phase_index s)) (last_cycles s - phase_start_cycles s))) :
  sched_inv p hz s -> stopped s = false -> started s = true ->
  sched_inv p hz (with_phase_seen due (with_planned_total (u64 (planned_total s + u64 (due - phase_seen s))) s)).
Proof.
  intros Hi Hs Hst. destruct (inv_bounds s Hi) as (S1 & S2 & S3 & S4 & S5).
  destruct Hi as (A1 & A2 & A3 & A4 & [A5 A5'] & (B1 & B2 & B3 & B4) & (C1 & C2 & C3 & C4 & C5)). specialize (A5' Hs). specialize (C4 A5').
  pose proof (proj1 Hl (phase_index s) ltac:(lia)) as (L & _ & _ & L4).
  assert (0 <= phase_cycles p hz (phase_index s)) as Hd by (unfold phase_cycles; nia). fold due in C4.
  assert (0 <= due <= PHASE_MAX) as Hdue.
  { subst due. match goal with |- context [due_in _ _ _ ?t] => pose proof (due_in_range p hz (phase_index s) t t Hl ltac:(lia) ltac:(lia) ltac:(lia)) end. lia. }
  assert (0 <= planned_total s) by lia. unfold PHASE_MAX in *.
  rewrite (u64_small (due - _)) by (wunfold; lia). rewrite u64_small by (wunfold; lia).
  unfold sched_inv, balanced, clock_ok.
  change (attempted_sum (with_phase_seen _ _)) with (attempted_sum s). change (skipped_sum (with_phase_seen _ _)) with (skipped_sum s).
  cbn [plan active selection_cursor phase_index stopped planned_total skipped_total phase_seen started last_cycles phase_start_cycles
       cycles_per_second phase_consumed with_phase_seen with_planned_total].
  split_and!; try done; try apply A1; try apply A2; try lia. congruence.
Qed.

(** Both phase counters restart with the next phase. *)
Definition next_phase (offset duration : Z) (s : tg_scheduler) : tg_scheduler :=
  let s3 := with_global_arrival_offset offset s in
  with_token_numerator 0 (with_phase_seen 0 (with_phase_consumed 0
    (with_phase_index (u32 (phase_index s3 + 1))
      (with_phase_start_cycles (u64 (phase_start_cycles s3 + duration)) s3)))).

Lemma next_phase_inv offset s (d := phase_cycles p hz (phase_index s)) :
  sched_inv p hz s -> stopped s = false -> started s = true -> d <= last_cycles s - phase_start_cycles s ->
  phase_consumed s = phase_seen s -> phase_seen s = due_in p hz (phase_index s) d ->
  let s4 := next_phase offset d s in
  stopped s4 = false /\ started s4 = true /\ last_cycles s4 = last_cycles s /\ phase_index s4 = phase_index s + 1 /\
  (phase_index s4 <> plan_phases p -> sched_inv p hz s4) /\ (phase_index s4 = plan_phases p -> sched_inv p hz (with_stopped true s4)).
Proof.
  intros Hi Hs Hst Hel Hcs Hdue. cbv zeta. pose proof (inv_phase s Hi Hs) as Hph.
  pose proof Hi as (F1 & F2 & F5 & F6 & [F7 F8] & (B1 & B2 & B3 & B4) & (C1 & C2 & C3 & C4 & C5)).
  specialize (F8 Hs). pose proof (proj1 Hl (phase_index s) ltac:(lia)) as (L1 & _ & _ & L4).
  assert (0 <= d) by (unfold d, phase_cycles; nia).
  pose proof (due_before_S p hz (phase_index s) ltac:(lia)) as Eb. fold d in Eb. rewrite <- Hdue in Eb.
  assert (forall s4, counts s4 = counts s -> plan s4 = plan s -> cycles_per_second s4 = cycles_per_second s -> active s4 = active s -> selection_cursor s4 = selection_cursor s ->
    phase_index s4 = phase_index s + 1 -> (stopped s4 = false -> phase_index s4 <> plan_phases p) -> planned_total s4 = planned_total s -> skipped_total s4 = skipped_total s ->
    phase_seen s4 = 0 -> phase_consumed s4 = 0 -> last_cycles s4 = last_cycles s -> started s4 = true ->
    phase_start_cycles s4 = phase_start_cycles s + d -> sched_inv p hz s4) as K.
  { intros s4 K5 K3 K4 K6 K7 K8 K9 K10 K11 K12 K13 K14 K15 K16.
    unfold sched_inv, balanced, clock_ok, dims_ok, counts_nonneg, attempted_sum, skipped_sum in *.
    rewrite K3, K4, K5, K6, K7, K8, K10, K11, K12, K13, K14, K15, K16 in *. split; [done|]. split; [done|]. split; [done|]. split; [done|].
    split; [split; [lia|]; intros E; specialize (K9 E); lia|]. split; [split_and!; lia|]. split_and!; try done; try lia. intros Hy.
    pose proof (proj1 Hl (phase_index s + 1) ltac:(lia)) as (L1' & _ & _ & L4').
    assert (0 <= phase_cycles p hz (phase_index s + 1)) by (unfold phase_cycles; nia).
    match goal with |- _ <= due_in _ _ _ ?t => pose proof (due_in_range p hz (phase_index s + 1) t t Hl ltac:(lia) ltac:(lia) ltac:(lia)) end. lia. }
  assert (u32 (phase_index s + 1) = phase_index s + 1) as Ei by (apply u32_small; wunfold; lia).
  assert (u64 (phase_start_cycles s + d) = phase_start_cycles s + d) as Es by (apply u64_small; unfold in_u64 in *; wunfold; lia).
  unfold next_phase. cbv zeta.
  split_and!; [exact Hs|exact Hst|reflexivity|exact Ei|..]; intros Hx;
    (apply K; cbn [counts plan active selection_cursor phase_index stopped planned_total skipped_total phase_seen started last_cycles phase_start_cycles
       cycles_per_second phase_consumed with_token_numerator with_phase_seen with_phase_consumed with_phase_index with_stopped
       with_phase_start_cycles with_global_arrival_offset] in *); rewrite ?Ei, ?Es in *; try done.
Qed.

(** One round of the phase loop at the end of a phase: what was not consumed
    is skipped. *)
Lemma phase_step_inv s :
  sched_inv p hz s -> stopped s = false -> started s = true ->
  phase_cycles p hz (phase_index s) <= last_cycles s - phase_start_cycles s ->
  phase_seen s = due_in p hz (phase_index s) (phase_cycles p hz (phase_index s)) ->
  forall offset duration, duration = phase_cycles p hz (phase_index s) ->
  let s4 := next_phase offset duration (tg_skip (u64 (phase_seen s - phase_consumed s)) s) in
  stopped s4 = false /\ started s4 = true /\ last_cycles s4 = last_cycles s /\ phase_index s4 = phase_index s + 1 /\
  (phase_index s4 <> plan_phases p -> sched_inv p hz s4) /\ (phase_index s4 = plan_phases p -> sched_inv p hz (with_stopped true s4)).
Proof.
  intros Hi Hs Hst Hel Hdue offset duration ->. cbv zeta. destruct (inv_bounds s Hi) as (_ & _ & _ & _ & S5).
  assert (0 <= phase_consumed s <= phase_seen s) as Hcs by apply Hi. unfold PHASE_MAX in *.
  rewrite (u64_small (phase_seen s - _)) by (wunfold; lia).
  destruct (skip_inv (phase_seen s - phase_consumed s) s Hi Hs ltac:(lia)) as (I2 & R2 & cts & v & w & x & E).
  cbv zeta in I2, R2, E. revert I2 R2 E. generalize (tg_skip (phase_seen s - phase_consumed s) s). intros s2 I2 R2 E.
  assert (stopped s2 = false /\ started s2 = true /\ last_cycles s2 = last_cycles s /\ phase_index s2 = phase_index s /\
    phase_seen s2 = phase_seen s /\ phase_start_cycles s2 = phase_start_cycles s) as (D1 & D2 & D3 & D4 & D5 & D6) by (rewrite E; done).
  pose proof (next_phase_inv offset s2 I2 D1 D2) as H. rewrite D3, D4, D5, D6 in H. apply H; [done|lia|done].
Qed.

Lemma phase_loop_inv fuel now s :
  sched_inv p hz s -> stopped s = false -> started s = true -> last_cycles s = now -> plan_phases p - phase_index s < Z.of_nat fuel ->
  let '(go, s') := phase_loop fuel now s in
  sched_inv p hz s' /\ stopped s' = negb go /\ (go = false -> phase_seen s' = phase_consumed s').
Proof.
  revert s. induction fuel as [|n IH]; intros s Hi Hs Hst Hnow Hf.
  { destruct Hi as (_ & _ & _ & _ & [X _] & _). lia. }
  cbn [phase_loop]. pose proof (inv_phase s Hi Hs) as Hph.
  assert (tg_phase s = phase_of p (phase_index s) /\ cycles_per_second s = hz /\ plan s = p) as (Eph & Ehz & Epl) by (destruct Hi as ([<- <-] & _); done).
  assert (in_u64 (last_cycles s) /\ 0 <= phase_start_cycles s <= last_cycles s) as [Hlu Hps] by (destruct Hi as (_ & _ & _ & _ & _ & _ & (? & ? & _)); done).
  assert (phase_index s < plan_phases p) as Hx by (by apply Hi).
  pose proof (proj1 Hl (phase_index s) ltac:(lia)) as (L1 & _ & _ & L4).
  rewrite Eph, Ehz. assert (u64 (ph_duration_sec (phase_of p (phase_index s)) * hz) = phase_cycles p hz (phase_index s)) as ->
    by (apply u64_small; unfold phase_cycles, TG_PLAN_MAX_DURATION_SEC in *; wunfold; nia).
  assert (u64 (now - phase_start_cycles s) = last_cycles s - phase_start_cycles s) as -> by (rewrite <- Hnow; apply u64_small; unfold in_u64 in *; wunfold; lia).
  set (d := phase_cycles p hz (phase_index s)) in *. set (el := last_cycles s - phase_start_cycles s) in *.
  rewrite (due_count_in s _ Epl Ehz). replace (if d <=? el then d else el) with (Z.min d el) by (destruct (Z.leb_spec d el); lia).
  pose proof (see_inv s Hi Hs Hst) as Hi1. fold d el in Hi1.
  destruct (Z.leb_spec d el) as [Eend|Eend]; cbn [negb]; [|by split_and!]. rewrite Z.min_l in * by done.
  set (s1 := with_phase_seen _ _) in *.
  change (phase_consumed s) with (phase_consumed s1).
  pose proof (phase_step_inv s1 Hi1 Hs Hst Eend eq_refl) as H. change (phase_seen s1) with (due_in p hz (phase_index s) d) in H.
  change (phase_index s1) with (phase_index s) in H. fold d in H. revert H.
  assert (phase_seen s1 = due_in p hz (phase_index s) d /\ last_cycles s1 = now /\ phase_index s1 = phase_index s) as (Q1 & Q2 & Q3) by done.
  rewrite Q2. generalize (tg_skip (u64 (due_in p hz (phase_index s) d - phase_consumed s1)) s1). intros s2 H.
  specialize (H (u64 (global_arrival_offset s2 + u64 (u64 (ph_duration_sec (phase_of p (phase_index s)) *
    u32 (ph_start_cps (phase_of p (phase_index s)) + ph_target_cps (phase_of p (phase_index s)))) + 1) / 2)) d eq_refl).
  unfold next_phase in H. cbv zeta in H. revert H.
  match goal with |- context [with_token_numerator 0 ?x] => generalize (with_token_numerator 0 x) end. intros s4 (K1 & K2 & K3 & K4 & K5 & K6).
  destruct (decide (phase_index s4 = plan_phases p)) as [Hy|Hy].
  - specialize (K6 Hy). assert (plan s4 = p) as -> by (by destruct K6 as ([? _] & _)). fold (plan_phases p). rewrite (proj2 (Z.eqb_eq _ _) Hy).
    split; [done|]. split; [done|]. intros _. cbn. destruct K6 as (_ & _ & _ & _ & _ & (_ & _ & _ & Hc) & (_ & _ & _ & _ & Hz)). cbn in *. specialize (Hz Hy). lia.
  - specialize (K5 Hy). assert (plan s4 = p) as Ep by (by destruct K5 as ([? _] & _)). rewrite Ep. fold (plan_phases p). rewrite (proj2 (Z.eqb_neq _ _) Hy).
    apply IH; [done..|lia].
Qed.

Lemma select_class_lt (cs : list tg_class_plan) : forall sel b i,
  (select_class sel b i cs <= i + length cs)%nat /\ (cs <> [] -> select_class sel b i cs < i + length cs \/ select_class sel b i cs = 0)%nat.
Proof.
  induction cs as [|c t IH]; intros sel b i; cbn [select_class length]; [split; [lia|done]|].
  destruct (_ <? _); [lia|]. destruct (IH sel (u32 (b + weight c)) (S i)) as [I1 I2].
  split; [lia|]. intros _. destruct t; [right; done|]. specialize (I2 ltac:(done)). lia.
Qed.
Lemma select_range s : plan s = p -> (fst (tg_select s) < 16)%nat.
Proof.
  intros E. unfold tg_select. cbn [fst]. rewrite E. destruct Hp as (Hw & Ht & Hr & Hle & _).
  destruct (classes p) as [|c t] eqn:Ec; [cbn; lia|]. destruct (select_class_lt (c :: t) (selection_cursor s mod total_weight p) 0 0%nat) as [_ Hz].
  specialize (Hz ltac:(done)). cbn [length] in *. lia.
Qed.

(** One more attempt is counted. *)
Definition attempt (c : tg_schedule_count) : tg_schedule_count := mk_count (u64 (attempted c + 1)) (skipped c).

Lemma attempt_inv cl s :
  sched_inv p hz s -> stopped s = false -> phase_consumed s < phase_seen s -> (cl < 16)%nat ->
  let s4 := count_alter attempt cl s in
  sched_inv p hz (with_phase_consumed (u64 (phase_consumed s4 + 1)) s4) /\ u64 (phase_consumed s4 + 1) = phase_consumed s + 1.
Proof.
  intros Hi Hs Hc Hcl. cbv zeta. pose proof (inv_phase s Hi Hs) as Hph. destruct (inv_bounds s Hi) as (S1 & S2 & S3 & S4 & S5). unfold PHASE_MAX in *.
  pose proof Hi as (F1 & [Hd Hn] & F5 & F6 & F7 & (B1 & B2 & B3 & B4) & F9).
  assert (forall x, eq64 (attempted (attempt x)) (attempted x + 1)) as Ha by (intros x; cbn; apply u64_eq64).
  assert (forall x, eq64 (skipped (attempt x)) (skipped x + 0)) as Hk by (intros x; cbn; rewrite Z.add_0_r; apply eq64_refl).
  assert (counts_nonneg (count_alter attempt cl s)) as Hn1.
  { apply count_alter_nonneg; [done|]. intros x H1 H2. cbn. split; [apply u64_range|done]. }
  pose proof (count_alter_sums attempt cl s attempted 1 Hd Hph Hcl Ha) as G1.
  pose proof (count_alter_sums attempt cl s skipped 0 Hd Hph Hcl Hk) as G2.
  pose proof (count_alter_exact attempt cl s attempted 1 Hd Hph Hcl Hn ltac:(intros x ? ?; cbn; apply Z.mod_le; lia)) as G3.
  pose proof (count_alter_exact attempt cl s skipped 0 Hd Hph Hcl Hn ltac:(intros x ? ?; cbn; lia)) as G4.
  pose proof (count_alter_dims attempt cl s Hd) as Hd1. destruct (sums_nonneg _ Hn1) as [N1 N2].
  fold (attempted_sum s) (attempted_sum (count_alter attempt cl s)) in *. fold (skipped_sum s) (skipped_sum (count_alter attempt cl s)) in *.
  apply eq64_exact in G1; [|lia..]. apply eq64_exact in G2; [|lia..]. clear G3 G4.
  change (phase_consumed (count_alter attempt cl s)) with (phase_consumed s). rewrite u64_small by (wunfold; lia). split; [|done].
  unfold count_alter in *. revert G1 G2 Hn1 Hd1 N1 N2. generalize (alter (alter attempt cl) (Z.to_nat (phase_index s)) (counts s)). intros cts G1 G2 Hn1 Hd1 _ _.
  assert (forall v, attempted_sum (with_phase_consumed v (with_counts cts s)) = attempted_sum (with_counts cts s) /\
    skipped_sum (with_phase_consumed v (with_counts cts s)) = skipped_sum (with_counts cts s)) as Hsum by done.
  unfold sched_inv, balanced, clock_ok. destruct (Hsum (phase_consumed s + 1)) as [-> ->].
  cbn [plan active selection_cursor phase_index stopped planned_total skipped_total phase_seen started last_cycles phase_start_cycles
       cycles_per_second phase_consumed with_counts with_phase_consumed].
  split; [exact F1|]. split; [split; [exact Hd1|exact Hn1]|]. split; [exact F5|]. split; [exact F6|]. split; [exact F7|]. split; [|exact F9].
  split_and!; lia.
Qed.

Lemma cursor_inv x v w s : sched_inv p hz s -> sched_inv p hz (with_dispatch_ordinal v (with_dispatch_planned_cycles w (with_selection_cursor (u64 x) s))).
Proof.
  intros (F1 & F2 & F5 & F6 & F7 & F8 & F9). split; [exact F1|]. split; [exact F2|]. split; [exact F5|].
  split; [cbn; apply u64_range|]. split; [exact F7|]. split; [exact F8|exact F9].
Qed.
Lemma active_inv v s : sched_inv p hz s -> 0 <= v <= max_concurrency p -> sched_inv p hz (with_active v s).
Proof. intros (F1 & F2 & F5 & F6 & F7 & F8 & F9) Hv. split; [exact F1|]. split; [exact F2|]. split; [exact Hv|]. split; [exact F6|]. split; [exact F7|]. split; [exact F8|exact F9]. Qed.

Definition waiting (s : tg_scheduler) : Z := phase_seen s - phase_consumed s.

Lemma dispatch_loop_inv fuel ramp start budget k s :
  sched_inv p hz s -> stopped s = false -> 0 <= budget ->
  let '(k', pending', s') := dispatch_loop fuel ramp start budget k (waiting s) s in
  sched_inv p hz s' /\ stopped s' = false /\ (k <= k')%nat /\
  (Z.of_nat k <= budget -> Z.of_nat k' <= budget) /\ (resource_paused s = true -> k' = k) /\
  pending' = waiting s' /\ waiting s' = waiting s - Z.of_nat (k' - k) /\ active s' <= active s + Z.of_nat (k' - k).
Proof.
  revert k s. induction fuel as [|n IH]; intros k s Hi Hs Hb; cbn [dispatch_loop].
  { split_and!; try done; lia. }
  destruct (_ && _ && _ && _) eqn:Eg; [|split_and!; try done; lia]. bprop.
  pose proof (select_range s (proj1 (proj1 Hi))) as Hcl. unfold tg_select in *. cbn [fst] in Hcl.
  revert Hcl. generalize (select_class (selection_cursor s mod total_weight (plan s)) 0 0 (classes (plan s))). intros cl Hcl.
  match goal with |- context [with_dispatch_planned_cycles ?y _] => generalize y end. intros w.
  match goal with |- context [with_dispatch_ordinal ?x _] => generalize x end. intros v.
  pose proof (cursor_inv (selection_cursor s + 1) v w s Hi) as Hi3. set (s3 := with_dispatch_ordinal v _) in *.
  assert (stopped s3 = false /\ phase_consumed s3 = phase_consumed s /\ phase_seen s3 = phase_seen s /\ active s3 = active s /\
    resource_paused s3 = resource_paused s) as (D1 & D2 & D3 & D4 & D5) by done. clearbody s3.
  assert (0 <= phase_consumed s <= phase_seen s) as Hcs by apply Hi. assert (plan s = p) as Epl by apply Hi. rewrite Epl in *.
  unfold waiting in *.
  change (fun c => mk_count (u64 (attempted c + 1)) (skipped c)) with attempt.
  destruct (attempt_inv cl s3 Hi3 D1 ltac:(lia) Hcl) as [I5 C5]. cbv zeta in I5.
  set (s5 := with_phase_consumed _ (count_alter _ cl s3)) in *.
  assert (phase_consumed s5 = phase_consumed s + 1 /\ phase_seen s5 = phase_seen s /\ active s5 = active s /\ stopped s5 = false /\
    resource_paused s5 = resource_paused s) as (E1 & E2 & E3 & E4 & E5).
  { split; [rewrite <- D2; exact C5|]. rewrite <- D3, <- D4, <- D5. split_and!; [done..|exact D1|done]. }
  clearbody s5. assert (0 <= active s) by apply Hi.
  set (s6 := if start k then _ else _).
  assert (active s6 = active s + (if start k then 1 else 0) /\ stopped s6 = false /\ resource_paused s6 = resource_paused s /\
    sched_inv p hz s6 /\ phase_consumed s6 = phase_consumed s + 1 /\ phase_seen s6 = phase_seen s) as (A1 & A2 & A3 & A4 & A5 & A6).
  { destruct Hp as (_ & _ & _ & _ & _ & Hm). unfold s6. destruct (start k); [|split_and!; first [done|lia|congruence]].
    rewrite E3. cbn [active stopped resource_paused phase_consumed phase_seen with_active]. rewrite u32_small by (wunfold; lia). split_and!; try done.
    apply active_inv; [done|lia]. }
  clearbody s6. specialize (IH (S k) s6 A4 A2 Hb). replace (phase_seen s6 - phase_consumed s6) with (phase_seen s - phase_consumed s - 1) in IH by lia.
  destruct (dispatch_loop n ramp start budget (S k) _ s6) as [[k' pd'] s']. destruct IH as (F1 & F2 & F3 & F4 & F5 & F6 & F7 & F8).
  split_and!; try done; try lia; try congruence. destruct (start k); lia.
Qed.

(** The epoch is set before anything is due. *)
Lemma start_at_inv epoch s : sched_inv p hz s -> started s = false -> in_u64 epoch -> sched_inv p hz (tg_scheduler_start_at epoch s).
Proof.
  intros (F1 & F2 & F5 & F6 & F7 & F8 & (C1 & C2 & C3 & C4 & C5)) Hst He. destruct (C3 Hst) as [Z1 Z2].
  split; [exact F1|]. split; [exact F2|]. split; [exact F5|]. split; [exact F6|]. split; [exact F7|]. split; [exact F8|].
  unfold clock_ok, tg_scheduler_start_at. cbn [last_cycles phase_start_cycles started phase_seen phase_index with_stop_cycles with_last_cycles
    with_phase_start_cycles with_start_cycles with_started]. split_and!; try done; try (unfold in_u64 in He; lia).
  intros Hx. rewrite Z1, Z2. pose proof (proj1 Hl 0 ltac:(lia)) as (L1 & _ & _ & L4).
  assert (0 <= phase_cycles p hz 0) by (unfold phase_cycles; nia).
  match goal with |- _ <= due_in _ _ _ ?t => pose proof (due_in_range p hz 0 t t Hl ltac:(lia) ltac:(lia) ltac:(lia)) end. lia.
Qed.

(** One turn, at a clock reading of 64 bits. *)
Lemma tick_inv ramp start now budget s :
  sched_inv p hz s -> waiting s <= max_concurrency p -> 0 <= budget -> in_u64 now ->
  let '(r, s') := tg_scheduler_tick ramp start now budget s in
  sched_inv p hz s' /\ waiting s' <= max_concurrency p /\ 0 <= r <= budget /\ (resource_paused s = true -> r = 0) /\
  active s' <= active s + r.
Proof.
  intros Hi Hw Hb Hn. unfold tg_scheduler_tick.
  destruct (stopped s) eqn:Hs; [split_and!; done || lia|].
  destruct (started s) eqn:Hst; cbn [negb].
  2: { change (active (tg_scheduler_start_at now s)) with (active s). change (waiting (tg_scheduler_start_at now s)) with (waiting s).
       split; [by apply start_at_inv|]. split_and!; done || lia. }
  destruct (now <? start_cycles s); [split_and!; done || lia|].
  destruct (Z.ltb_spec now (last_cycles s)) as [|Hle].
  { change (active (with_stopped true s)) with (active s). change (waiting (with_stopped true s)) with (waiting s).
    split; [|split_and!; done || lia]. destruct Hi as (F1 & F2 & F5 & F6 & [F7 _] & F8).
    split; [exact F1|]. split; [exact F2|]. split; [exact F5|]. split; [exact F6|]. split; [|exact F8]. split; [exact F7|done]. }
  pose proof (clock_inv now s Hi Hle Hn) as Hi0. assert (plan s = p) as Epl by apply Hi. fold (plan_phases (plan s)). rewrite Epl.
  assert (0 <= phase_index s) as Hx by apply Hi. pose proof (plan_phases_range p Hp) as Hr.
  pose proof (phase_loop_inv (S (Z.to_nat (plan_phases p))) now (with_last_cycles now s) Hi0 Hs Hst eq_refl
    ltac:(cbn [phase_index with_last_cycles]; lia)) as HL.
  pose proof (phase_loop_frame (S (Z.to_nat (plan_phases p))) now (with_last_cycles now s)) as [Fa Fr].
  destruct (phase_loop _ now _) as [go s1]. destruct HL as (I1 & S1 & W1). cbn [snd] in Fa, Fr.
  change (active (with_last_cycles now s)) with (active s) in Fa.
  change (resource_paused (with_last_cycles now s)) with (resource_paused s) in Fr.
  assert (0 < max_concurrency p < 4294967296) as Hm by apply Hp.
  destruct go; cbn [negb] in S1. 2: { unfold waiting. rewrite Fa, (W1 eq_refl). split_and!; done || lia. }
  destruct (inv_bounds s1 I1) as (_ & _ & _ & _ & B5). assert (0 <= phase_consumed s1 <= phase_seen s1) as Hcs by apply I1. unfold PHASE_MAX in *.
  rewrite (u64_small (phase_seen s1 - phase_consumed s1)) by (wunfold; lia). fold (waiting s1).
  assert (plan s1 = p) as E1 by apply I1. rewrite E1.
  set (pr := if max_concurrency p <? waiting s1 then _ else _).
  assert (sched_inv p hz (snd pr) /\ stopped (snd pr) = false /\ fst pr = waiting (snd pr) /\ waiting (snd pr) <= max_concurrency p /\
          active (snd pr) = active s /\ resource_paused (snd pr) = resource_paused s) as (I2 & S2 & P2 & M2 & A2 & R2).
  { unfold pr. destruct (Z.ltb_spec (max_concurrency p) (waiting s1)) as [Hlt|Hge]; [|by split_and!]. unfold waiting in *. cbn [fst snd].
    destruct (skip_inv (phase_seen s1 - phase_consumed s1 - max_concurrency p) s1 I1 S1 ltac:(lia)) as (J1 & J2 & cts & v & w & x & E).
    destruct (skip_frame (phase_seen s1 - phase_consumed s1 - max_concurrency p) s1) as [K1 K2].
    cbv zeta in *. revert J1 J2 E K1 K2. generalize (tg_skip (phase_seen s1 - phase_consumed s1 - max_concurrency p) s1). intros s2 J1 J2 E K1 K2.
    assert (phase_seen s2 = phase_seen s1 /\ stopped s2 = stopped s1) as [Q1 Q2] by (rewrite E; done).
    rewrite J2, Q1, Q2. split_and!; first [done|lia|congruence]. }
  clearbody pr. destruct pr as [pending2 s2]. cbn [fst snd] in *. subst pending2.
  pose proof (dispatch_loop_inv (Z.to_nat (waiting s2)) ramp start budget 0 s2 I2 S2 Hb) as HD.
  destruct (dispatch_loop _ _ _ _ _ _ _) as [[att pd3] s3].
  destruct HD as (I3 & S3 & K1 & K2 & K3 & K4 & K5 & K6).
  set (s5 := if _ && _ then _ else _).
  assert (sched_inv p hz s5 /\ waiting s5 = waiting s3 /\ active s5 = active s3) as (I5 & W5 & A5).
  { unfold s5. destruct (_ && _); (split; [by apply (inv_ext s3)|done]). }
  clearbody s5. rewrite W5, A5. split; [done|]. split; [lia|]. split; [lia|]. split; [intros Hr'; rewrite K3; [done|congruence]|lia].
Qed.

(** ** Whole runs *)

(** What happens to a worker's scheduler between two points in time; the epoch
    is set only before the run. *)
Inductive sched_step (ramp : tg_phase_plan -> Z -> Z -> Z) : tg_scheduler -> tg_scheduler -> Prop :=
| step_tick now budget start s : in_u64 now -> 0 <= budget -> sched_step ramp s (snd (tg_scheduler_tick ramp start now budget s))
| step_start_at epoch s : in_u64 epoch -> started s = false -> sched_step ramp s (tg_scheduler_start_at epoch s)
| step_flow_finished s : sched_step ramp s (tg_scheduler_on_flow_finished s)
| step_socket_created s : sched_step ramp s (tg_scheduler_on_socket_created s)
| step_socket_released s : sched_step ramp s (tg_scheduler_on_socket_released s)
| step_resource available s : sched_step ramp s (tg_scheduler_set_resource_available available s).

Lemma step_inv ramp s s' : sched_step ramp s s' -> sched_inv p hz s /\ waiting s <= max_concurrency p ->
  sched_inv p hz s' /\ waiting s' <= max_concurrency p.
Proof.
  intros [now budget start x Hn Hb|epoch x He Hx|x|x|x|b x] [Hi Hw].
  - pose proof (tick_inv ramp start now budget x Hi Hw Hb Hn) as H. destruct (tg_scheduler_tick _ _ _ _ _). cbn [snd]. tauto.
  - split; [by apply start_at_inv|done].
  - unfold tg_scheduler_on_flow_finished. destruct (Z.eqb_spec (active x) 0); cbn [negb]; [done|]. split; [|done].
    assert (0 <= active x <= max_concurrency p) by apply Hi. apply active_inv; [done|lia].
  - split; [by apply (inv_ext x)|done].
  - unfold tg_scheduler_on_socket_released. destruct (negb _); [split; [by apply (inv_ext x)|done]|done].
  - unfold tg_scheduler_set_resource_available. destruct (_ && _); [split; [by apply (inv_ext x)|done]|].
    destruct b; [split; [by apply (inv_ext x)|done]|done].
Qed.

Lemma run_inv ramp s s' : rtc (sched_step ramp) s s' -> sched_inv p hz s /\ waiting s <= max_concurrency p ->
  sched_inv p hz s' /\ waiting s' <= max_concurrency p.
Proof. induction 1 as [|x y z H _ IH]; [done|]. intros Hx. apply IH. by eapply step_inv. Qed.

Lemma init_inv s0 : in_u32 (selection_phase p) -> tg_scheduler_init p hz = Some s0 -> sched_inv p hz s0 /\ waiting s0 = 0.
Proof.
  intros Hsel. unfold tg_scheduler_init. destruct (_ || _); [done|]. intros [= <-]. split; [|done].
  pose proof (plan_phases_range p Hp) as Hr. pose proof Hp as (_ & _ & _ & _ & _ & Hm).
  unfold sched_inv, balanced, clock_ok, in_u32 in *.
  cbn [plan active selection_cursor phase_index stopped planned_total skipped_total phase_seen started last_cycles phase_start_cycles
       cycles_per_second phase_consumed]. split; [done|]. split; [split; [split; [done|repeat constructor]|unfold counts_nonneg; cbn; repeat constructor; cbn; lia]|].
  split; [lia|]. split; [lia|]. split; [split; [lia|intros _; lia]|]. split; [split_and!; done|]. split_and!; try done.
  intros Hx. pose proof (proj1 Hl 0 ltac:(lia)) as (L1 & _ & _ & L4).
  assert (0 <= phase_cycles p hz 0) by (unfold phase_cycles; nia).
  match goal with |- _ <= due_in _ _ _ ?t => pose proof (due_in_range p hz 0 t t Hl ltac:(lia) ltac:(lia) ltac:(lia)) end. lia.
Qed.
End Run.

(** C36: no arrival is lost or counted twice.  From initialisation on, after any
    sequence of scheduler turns, completions, socket events and resource
    changes: the planned arrivals are those of the finished phases plus those
    seen of the current one, all of them due by the rate ramp at the last clock
    reading; each of them is attempted, skipped or waiting, and in only one of
    these ways - the numbers add up as integers, no counter wraps; the waiting
    ones are never fewer than none and never more than the concurrency limit,
    beyond which they are skipped; the per-class skip counters add up to the
    skip total; and the active flows never exceed the limit.  The plan is one
    the loader admits: rates up to a million per second, phases up to a day. *)
Theorem scheduler_conservation ramp p hz s0 s
  (Hp : plan_ok p) (Hl : loaded p hz) (Hsel : in_u32 (selection_phase p)) (Hinit : tg_scheduler_init p hz = Some s0)
  (Hrun : rtc (sched_step ramp) s0 s) :
  let pending := phase_seen s - phase_consumed s in
  planned_total s = due_before p hz (phase_index s) + phase_seen s /\
  (phase_index s < plan_phases p ->
     phase_seen s <= due_in p hz (phase_index s) (Z.min (phase_cycles p hz (phase_index s)) (last_cycles s - phase_start_cycles s))) /\
  planned_total s = attempted_sum s + skipped_sum s + pending /\
  0 <= pending <= max_concurrency p /\ skipped_sum s = skipped_total s /\
  0 <= attempted_sum s /\ 0 <= skipped_sum s /\ 0 <= active s <= max_concurrency p.
Proof.
  cbv zeta. destruct (init_inv p hz Hp Hl s0 Hsel Hinit) as [I0 W0]. assert (0 < max_concurrency p) by apply Hp.
  destruct (run_inv p hz Hp Hl ramp s0 s Hrun) as [Hi Hw]; [split; [done|lia]|].
  destruct (inv_bounds p hz Hp Hl s Hi) as (B1 & B2 & _). unfold waiting in Hw.
  destruct Hi as (_ & _ & A & _ & _ & (C1 & C2 & C3 & C4) & (_ & _ & _ & D4 & _)). split_and!; try done; lia.
Qed.

(** Two flows end; the backlog of 300 arrivals of three seconds is cut to the
    limit of eight, and a budget of four attempts. *)
Definition demo_run : tg_scheduler :=
  tg_scheduler_on_flow_finished (snd (tg_scheduler_tick (fun _ _ _ => 0) (fun k => Nat.even k) 3000000 4
    (snd (tg_scheduler_tick (fun _ _ _ => 0) (fun _ => true) 55000 4 (tg_scheduler_start_at 0 demo_sched))))).

Lemma demo_loaded : loaded demo_plan 1000000.
Proof.
  split; [|vm_compute; split; split; congruence]. intros i Hi. change (plan_phases demo_plan) with 1 in Hi. assert (i = 0) as -> by lia.
  repeat split; vm_compute; congruence.
Qed.

Lemma demo_reached : rtc (sched_step (fun _ _ _ => 0)) demo_sched demo_run.
Proof.
  refine (rtc_l _ _ _ _ (step_start_at _ 0 _ _ _) (rtc_l _ _ _ _ (step_tick _ 55000 4 (fun _ => true) _ _ _)
    (rtc_l _ _ _ _ (step_tick _ 3000000 4 (fun k => Nat.even k) _ _ _) (rtc_once _ _ (step_flow_finished _ _))))); first [by split|lia|reflexivity].
Qed.

Lemma scheduler_conservation_witness :
  planned_total demo_run = 300 /\ attempted_sum demo_run = 8 /\ skipped_sum demo_run = 288 /\
  (phase_seen demo_run - phase_consumed demo_run = 4) /\
  planned_total demo_run = attempted_sum demo_run + skipped_sum demo_run + (phase_seen demo_run - phase_consumed demo_run) /\
  0 <= active demo_run <= 8.
Proof.
  destruct (scheduler_conservation (fun _ _ _ => 0) demo_plan 1000000 demo_sched demo_run demo_plan_ok demo_loaded
    ltac:(vm_compute; split; congruence) ltac:(vm_compute; reflexivity) demo_reached) as (_ & _ & H & _ & _ & _ & _ & A).
  do 4 (split; [vm_compute; reflexivity|]). split; [exact H|exact A].
Defined.
