(* ===== verification/Txn.v ===== *)
(** * Transactions and the protocol-plugin interface
    (traffic-gen/core/txn.c, proto/proto.h)

    [tg_proto_ops] is the callback table of a plugin over its configuration
    type [Cfg] and its private state type [Ctx]; an optional callback is an
    [option].  [ChunkLaws] states what the transaction layer may rely on: a
    stream may be cut into chunks anywhere. *)

From S2P Require Import Prelude Config.

(** ** Transactions *)

Inductive tg_proto_result := TG_PROTO_MORE | TG_PROTO_COMPLETE | TG_PROTO_FAILED.

Inductive tg_error_reason :=
| TG_ERROR_NONE
| TG_ERROR_CONNECT_TIMEOUT
| TG_ERROR_RESPONSE_TIMEOUT
| TG_ERROR_RESET
| TG_ERROR_PEER_EOF
| TG_ERROR_HTTP_STATUS
| TG_ERROR_DNS_RCODE
| TG_ERROR_PARSE
| TG_ERROR_RESOURCE
| TG_ERROR_CONNECT
| TG_ERROR_IO
| TG_ERROR_START
| TG_ERROR_WORKFLOW
| TG_ERROR_REDIS_ERROR.

#[global] Instance result_eq_dec : EqDecision tg_proto_result.
Proof. solve_decision. Defined.
#[global] Instance reason_eq_dec : EqDecision tg_error_reason.
Proof. solve_decision. Defined.

Section Txn.
Context {Cfg Ctx : Type}.

(** [bound] is [proto != NULL]; [class_config] and [proto_ctx] may be null. *)
Record tg_txn := mk_txn {
  resource_counted : bool;
  error_reason : tg_error_reason;
  bound : bool;
  class_config : option Cfg;
  proto_ctx : option Ctx;
  request : list Z;
  request_offset : Z;
  response_bytes : Z;
  connection_reusable : bool;
  peer_closes : bool
}.

Definition txn_zero : tg_txn := mk_txn false TG_ERROR_NONE false None None [] 0 0 false false.

Definition with_error_reason (v : tg_error_reason) (t : tg_txn) : tg_txn :=
  mk_txn (resource_counted t) v (bound t) (class_config t) (proto_ctx t) (request t)
    (request_offset t) (response_bytes t) (connection_reusable t) (peer_closes t).
Definition with_proto_ctx (v : option Ctx) (t : tg_txn) : tg_txn :=
  mk_txn (resource_counted t) (error_reason t) (bound t) (class_config t) v (request t)
    (request_offset t) (response_bytes t) (connection_reusable t) (peer_closes t).
Definition with_request (v : list Z) (t : tg_txn) : tg_txn :=
  mk_txn (resource_counted t) (error_reason t) (bound t) (class_config t) (proto_ctx t) v
    (request_offset t) (response_bytes t) (connection_reusable t) (peer_closes t).
Definition with_response_bytes (v : Z) (t : tg_txn) : tg_txn :=
  mk_txn (resource_counted t) (error_reason t) (bound t) (class_config t) (proto_ctx t) (request t)
    (request_offset t) v (connection_reusable t) (peer_closes t).
Definition with_connection_reusable (v : bool) (t : tg_txn) : tg_txn :=
  mk_txn (resource_counted t) (error_reason t) (bound t) (class_config t) (proto_ctx t) (request t)
    (request_offset t) (response_bytes t) v (peer_closes t).
Definition with_resource_counted (v : bool) (t : tg_txn) : tg_txn :=
  mk_txn v (error_reason t) (bound t) (class_config t) (proto_ctx t) (request t)
    (request_offset t) (response_bytes t) (connection_reusable t) (peer_closes t).

(** [p_init] returns [false] for a nonzero status. *)
Record tg_proto_ops := mk_proto {
  p_init : option (tg_txn -> bool * tg_txn);
  p_on_tx_accepted : option (tg_txn -> Z -> tg_txn);
  p_on_rx : option (tg_txn -> list Z -> tg_proto_result * tg_txn);
  p_on_eof : option (tg_txn -> tg_proto_result * tg_txn);
  p_reset : option (tg_txn -> tg_txn)
}.

Context (proto : tg_proto_ops).

(** The metric is the owner's thread-local [txn_resources].  The plugin's
    reset only releases its heap context; the [memset] then clears every
    field it could have written. *)
Definition tg_txn_reset (t : tg_txn) (m : resource_metric) : tg_txn * resource_metric :=
  (txn_zero, if resource_counted t then resource_release 1 m else m).

Definition tg_txn_init (cfg : option Cfg) (m : resource_metric) : bool * tg_txn * resource_metric :=
  let t0 := mk_txn false TG_ERROR_NONE true cfg None [] 0 0 false false in
  let '(ok, t1) := match p_init proto with Some f => f t0 | None => (true, t0) end in
  if ok then (true, with_resource_counted true t1, resource_acquire 1 m)
  else let '(t2, m2) := tg_txn_reset t1 (resource_unavailable m) in (false, t2, m2).

Definition tg_txn_init_with_request (cfg : option Cfg) (req : list Z) (t : tg_txn)
    (m : resource_metric) : bool * tg_txn * resource_metric :=
  if bool_decide (req = []) then (false, t, m)
  else
    let '(ok, t1, m1) := tg_txn_init cfg m in
    if ok then (true, with_request req t1, m1) else (false, t1, m1).

Definition tg_txn_rearm_with_request (cfg : option Cfg) (req : list Z) (t : tg_txn)
    (m : resource_metric) : bool * tg_txn * resource_metric :=
  if bool_decide (req = []) then (false, t, m)
  else let '(t1, m1) := tg_txn_reset t m in tg_txn_init_with_request cfg req t1 m1.

Definition tg_txn_on_tx_accepted (t : tg_txn) (bytes : Z) : tg_txn :=
  if bound t then match p_on_tx_accepted proto with Some f => f t bytes | None => t end else t.

Definition tg_txn_on_rx (t : tg_txn) (data : list Z) : tg_proto_result * tg_txn :=
  if bound t then
    match p_on_rx proto with
    | None => (TG_PROTO_FAILED, t)
    | Some f =>
        let '(r, t1) := f (with_response_bytes (u64 (response_bytes t + Z.of_nat (length data))) t) data in
        (r, if bool_decide (r = TG_PROTO_FAILED) && bool_decide (error_reason t1 = TG_ERROR_NONE)
            then with_error_reason TG_ERROR_PARSE t1 else t1)
    end
  else (TG_PROTO_FAILED, t).

Definition tg_txn_on_eof (t : tg_txn) : tg_proto_result * tg_txn :=
  if bound t then
    match p_on_eof proto with
    | None => (TG_PROTO_FAILED, t)
    | Some f =>
        let '(r, t1) := f t in
        (r, if bool_decide (r = TG_PROTO_FAILED) && bool_decide (error_reason t1 = TG_ERROR_NONE)
            then with_error_reason TG_ERROR_PEER_EOF t1 else t1)
    end
  else (TG_PROTO_FAILED, t).

(** ** The stream contract of a plugin *)

(** Delivering two chunks is delivering their concatenation; the plugin does
    not read the byte counter, keeps the transaction bound, and a failure
    always names its reason. *)
Class ChunkLaws := {
  chunk_on_rx : tg_txn -> list Z -> tg_proto_result * tg_txn;
  chunk_is_rx : p_on_rx proto = Some chunk_on_rx;
  chunk_app : forall t a b,
    chunk_on_rx t (a ++ b) = chunk_on_rx (snd (chunk_on_rx t a)) b;
  chunk_bytes : forall t d v,
    chunk_on_rx (with_response_bytes v t) d
    = (fst (chunk_on_rx t d), with_response_bytes v (snd (chunk_on_rx t d)));
  chunk_count : forall t d, response_bytes (snd (chunk_on_rx t d)) = response_bytes t;
  chunk_bound : forall t d, bound (snd (chunk_on_rx t d)) = bound t;
  chunk_inv : tg_txn -> Prop;
  chunk_inv_bytes : forall t v, chunk_inv t -> chunk_inv (with_response_bytes v t);
  chunk_inv_rx : forall t d, chunk_inv t -> chunk_inv (snd (chunk_on_rx t d));
  chunk_reason : forall t d, chunk_inv t -> fst (chunk_on_rx t d) = TG_PROTO_FAILED ->
    error_reason (snd (chunk_on_rx t d)) <> TG_ERROR_NONE
}.

(** Delivering a list of chunks; the last result counts. *)
Definition feed (t : tg_txn) (chunks : list (list Z)) : tg_proto_result * tg_txn :=
  foldl (fun rt d => tg_txn_on_rx (snd rt) d) (TG_PROTO_MORE, t) chunks.

Section Chunks.
Context {laws : ChunkLaws}.

Lemma on_rx_plugin t d :
  bound t = true -> chunk_inv t ->
  tg_txn_on_rx t d =
    (fst (chunk_on_rx t d),
     with_response_bytes (u64 (response_bytes t + Z.of_nat (length d))) (snd (chunk_on_rx t d))).
Proof.
  intros Hb Hi. unfold tg_txn_on_rx. rewrite Hb, chunk_is_rx, chunk_bytes.
  destruct (bool_decide_reflect (fst (chunk_on_rx t d) = TG_PROTO_FAILED)) as [Hf|]; [|done].
  rewrite bool_decide_eq_false_2; [done|].
  change (error_reason (snd (chunk_on_rx t d)) <> TG_ERROR_NONE). by apply chunk_reason.
Qed.

Lemma on_rx_app t a b :
  bound t = true -> chunk_inv t ->
  tg_txn_on_rx (snd (tg_txn_on_rx t a)) b = tg_txn_on_rx t (a ++ b) /\
  bound (snd (tg_txn_on_rx t a)) = true /\ chunk_inv (snd (tg_txn_on_rx t a)).
Proof.
  intros Hb Hi. rewrite (on_rx_plugin t a Hb Hi). cbn [snd].
  assert (chunk_inv (snd (chunk_on_rx t a))) as Hi1 by (by apply chunk_inv_rx).
  assert (bound (snd (chunk_on_rx t a)) = true) as Hb1 by (by rewrite chunk_bound).
  split_and!; [|done|by apply chunk_inv_bytes].
  rewrite on_rx_plugin by (done || by apply chunk_inv_bytes).
  rewrite (on_rx_plugin t (a ++ b) Hb Hi). rewrite chunk_app, !chunk_bytes.
  cbn [fst snd]. f_equal. rewrite length_app.
  change (response_bytes (with_response_bytes ?v _)) with v.
  assert (u64 (u64 (response_bytes t + Z.of_nat (length a)) + Z.of_nat (length b))
          = u64 (response_bytes t + Z.of_nat (length a + length b))) as ->; [|done].
  unfold u64. rewrite Zplus_mod_idemp_l. f_equal. lia.
Qed.

Lemma feed_concat t d ds :
  bound t = true -> chunk_inv t ->
  feed t (d :: ds) = tg_txn_on_rx t (d ++ concat ds).
Proof.
  unfold feed. cbn [foldl snd]. revert d. induction ds as [|d2 ds IH] using rev_ind; intros d Hb Hi.
  - cbn. by rewrite app_nil_r.
  - rewrite foldl_app, IH by done. cbn [foldl].
    destruct (on_rx_app t (d ++ concat ds) d2 Hb Hi) as [-> _].
    rewrite concat_app. cbn [concat]. by rewrite app_nil_r, app_assoc.
Qed.
End Chunks.
End Txn.

Arguments tg_txn : clear implicits.
Arguments tg_proto_ops : clear implicits.
