(* ===== verification/Redis.v ===== *)
(** * Redis client plugin (traffic-gen/proto/redis/redis_client.c)

    The RESP2 request encoder and the incremental reply parser.  A character
    array is the list of its bytes; [cstr] is the C string in it. *)

From S2P Require Import Prelude Txn.

Definition TG_REDIS_BULK_MAX : Z := 512 * 1024 * 1024.
Definition LINE_CAP : Z := 1024.

Inductive tg_redis_command := TG_REDIS_PING | TG_REDIS_GET | TG_REDIS_SET.
#[global] Instance command_eq_dec : EqDecision tg_redis_command.
Proof. solve_decision. Defined.

Record tg_redis_config := mk_rcfg {
  command : tg_redis_command;
  keepalive : bool;
  key : list Z;
  value : list Z
}.

Inductive redis_parse_state := TYPE | LINE | LINE_LF | BODY | BODY_CR | BODY_LF | DONE | FAILED.
#[global] Instance parse_state_eq_dec : EqDecision redis_parse_state.
Proof. solve_decision. Defined.

(** [line] holds the first [line_len] bytes of the buffer. *)
Record tg_redis_state := mk_redis {
  rstate : redis_parse_state;
  remaining : Z;
  rtype : Z;
  line : list Z
}.

Definition redis_zero : tg_redis_state := mk_redis TYPE 0 0 [].

Abbreviation CR := 13.
Abbreviation LF := 10.

Definition config_valid (c : tg_redis_config) : bool :=
  existsb (Z.eqb 0) (key c) && existsb (Z.eqb 0) (value c).

(** ** Request *)

Definition command_name (c : tg_redis_command) : list Z :=
  match c with
  | TG_REDIS_PING => [80; 73; 78; 71]
  | TG_REDIS_GET => [71; 69; 84]
  | TG_REDIS_SET => [83; 69; 84]
  end.
Definition command_index (c : tg_redis_command) : nat :=
  match c with TG_REDIS_PING => 0 | TG_REDIS_GET => 1 | TG_REDIS_SET => 2 end.

Definition bulk_string (arg : list Z) : list Z :=
  ([36] ++ print_size (Z.of_nat (length arg)) ++ [CR; LF]) ++ arg ++ [CR; LF].

(** The argument loop; [None] is the too-large exit. *)
Fixpoint build_args (args : list (list Z)) (cap offset : Z) : option (list Z) :=
  match args with
  | [] => Some []
  | a :: t =>
      let h := Z.of_nat (length ([36] ++ print_size (Z.of_nat (length a)) ++ [CR; LF])) in
      let n := Z.of_nat (length a) in
      if (32 <=? h) || (cap - offset <? h + n + 2) then None
      else option_map (app (bulk_string a)) (build_args t cap (offset + h + n + 2))
  end.

Definition build_request (config : option tg_redis_config) (cap : Z) : option (list Z) :=
  match config with
  | None => None
  | Some c =>
      if negb (config_valid c) then None
      else
        let args := [command_name (command c); cstr (key c); cstr (value c)] in
        let count := S (command_index (command c)) in
        if cap <? 4 then None
        else option_map (app [42; 48 + Z.of_nat count; CR; LF]) (build_args (take count args) cap 4)
  end.

(** ** Reply *)

Abbreviation rtxn := (tg_txn tg_redis_config tg_redis_state).

(** [alloc] is whether [calloc] returned memory. *)
Definition init (alloc : bool) (t : rtxn) : bool * rtxn :=
  match class_config t with
  | Some c =>
      if config_valid c
      then (alloc, with_proto_ctx (if alloc then Some redis_zero else None) t) else (false, t)
  | None => (false, t)
  end.

(** The digit loop of a bulk header: whether every digit was accepted, and
    the [remaining] the loop leaves. *)
Fixpoint parse_length (l : list Z) (remaining : Z) : bool * Z :=
  match l with
  | [] => (true, remaining)
  | c :: t =>
      let digit := u32 (c - 48) in
      if (9 <? digit) || ((TG_REDIS_BULK_MAX - digit) / 10 <? remaining) then (false, remaining)
      else parse_length t (remaining * 10 + digit)
  end.

(** [inl (is_redis_error, s')] is the [-1] return, with [true] when the
    reason was set to a server error. *)
Definition finish_line (cmd : tg_redis_command) (s : tg_redis_state)
    : (bool * tg_redis_state) + tg_redis_state :=
  if rtype s =? 45 then inl (negb (bool_decide (line s = [])), s)
  else if rtype s =? 43 then
    let expected := match cmd with TG_REDIS_PING => [80; 79; 78; 71] | _ => [79; 75] end in
    if bool_decide (cmd = TG_REDIS_GET) || negb (bool_decide (line s = expected)) then inl (false, s)
    else inr (mk_redis DONE (remaining s) (rtype s) (line s))
  else if negb (bool_decide (cmd = TG_REDIS_GET)) || bool_decide (line s = []) then inl (false, s)
  else if bool_decide (line s = [45; 49]) then inr (mk_redis DONE (remaining s) (rtype s) (line s))
  else match parse_length (line s) (remaining s) with
  | (false, n) => inl (false, mk_redis (rstate s) n (rtype s) (line s))
  | (true, n) => inr (mk_redis (if n =? 0 then BODY_CR else BODY) n (rtype s) (line s))
  end.

(** One byte outside a bulk body; [inl] is the jump to [invalid]. *)
Definition step_byte (cmd : tg_redis_command) (s : tg_redis_state) (c : Z)
    : (bool * tg_redis_state) + tg_redis_state :=
  match rstate s with
  | TYPE =>
      if negb (c =? 43) && negb (c =? 45) && negb (c =? 36) then inl (false, s)
      else inr (mk_redis LINE (remaining s) c (line s))
  | LINE =>
      if c =? CR then inr (mk_redis LINE_LF (remaining s) (rtype s) (line s))
      else if (c =? 0) || (c =? LF) || (Z.of_nat (length (line s)) =? LINE_CAP) then inl (false, s)
      else inr (mk_redis LINE (remaining s) (rtype s) (line s ++ [c]))
  | LINE_LF => if negb (c =? LF) then inl (false, s) else finish_line cmd s
  | BODY_CR => if negb (c =? CR) then inl (false, s)
               else inr (mk_redis BODY_LF (remaining s) (rtype s) (line s))
  | BODY_LF => if negb (c =? LF) then inl (false, s)
               else inr (mk_redis DONE (remaining s) (rtype s) (line s))
  | _ => inl (false, s)
  end.

(** The chunk loop.  A round consumes a byte or leaves the body state, so
    [2 * length + 1] rounds are enough ([rx_loop_run]). *)
Fixpoint rx_loop (fuel : nat) (cmd : tg_redis_command) (s : tg_redis_state) (data : list Z)
    : (bool * tg_redis_state) + tg_redis_state :=
  match fuel with
  | O => inr s
  | S f =>
      match data with
      | [] => inr s
      | c :: rest =>
          if bool_decide (rstate s = BODY) then
            let n := Z.min (Z.of_nat (length data)) (remaining s) in
            let rem := remaining s - n in
            rx_loop f cmd
              (mk_redis (if rem =? 0 then BODY_CR else BODY) rem (rtype s) (line s))
              (drop (Z.to_nat n) data)
          else match step_byte cmd s c with
          | inl e => inl e
          | inr s' => rx_loop f cmd s' rest
          end
      end
  end.

Definition fail (reason : tg_error_reason) (s : tg_redis_state) (t : rtxn) : tg_proto_result * rtxn :=
  (TG_PROTO_FAILED,
   with_error_reason reason (with_connection_reusable false
     (with_proto_ctx (Some (mk_redis FAILED (remaining s) (rtype s) (line s))) t))).

(** A transaction without a configuration never passes [init]. *)
Definition on_rx (t : rtxn) (data : list Z) : tg_proto_result * rtxn :=
  match proto_ctx t, class_config t with
  | Some s, Some c =>
      if bool_decide (rstate s = FAILED) then (TG_PROTO_FAILED, t)
      else match rx_loop (S (2 * length data)) (command c) s data with
      | inl (e, s') =>
          fail (if e || bool_decide (error_reason t = TG_ERROR_REDIS_ERROR)
                then TG_ERROR_REDIS_ERROR else TG_ERROR_PARSE) s' t
      | inr s' =>
          let t1 := with_proto_ctx (Some s') t in
          if bool_decide (rstate s' = DONE)
          then (TG_PROTO_COMPLETE, with_connection_reusable (keepalive c) t1)
          else (TG_PROTO_MORE, t1)
      end
  | _, _ => (TG_PROTO_FAILED, t)
  end.

Definition on_eof (t : rtxn) : tg_proto_result * rtxn :=
  (match proto_ctx t with
   | Some s => if bool_decide (rstate s = DONE) then TG_PROTO_COMPLETE else TG_PROTO_FAILED
   | None => TG_PROTO_FAILED
   end, with_connection_reusable false t).

Definition reset (t : rtxn) : rtxn := with_proto_ctx None t.

Definition tg_redis_proto_ops (alloc : bool) : tg_proto_ops tg_redis_config tg_redis_state :=
  mk_proto (Some (init alloc)) None (Some on_rx) (Some on_eof) (Some reset).

(** ** The parser as an instance of [ChunkLaws] *)

(** ** Chunk loop against the byte-at-a-time parser *)

Abbreviation outcome := ((bool * tg_redis_state) + tg_redis_state)%type.

Definition step1 (cmd : tg_redis_command) (s : tg_redis_state) (c : Z) : outcome :=
  if bool_decide (rstate s = BODY) then
    if remaining s <=? 0 then step_byte cmd (mk_redis BODY_CR 0 (rtype s) (line s)) c
    else inr (mk_redis (if remaining s - 1 =? 0 then BODY_CR else BODY)
                (remaining s - 1) (rtype s) (line s))
  else step_byte cmd s c.

Fixpoint run (cmd : tg_redis_command) (s : tg_redis_state) (data : list Z) : outcome :=
  match data with
  | [] => inr s
  | c :: t => match step1 cmd s c with inl e => inl e | inr s' => run cmd s' t end
  end.

Lemma run_app cmd s a b :
  run cmd s (a ++ b) = match run cmd s a with inl e => inl e | inr s' => run cmd s' b end.
Proof.
  revert s. induction a as [|c a IH]; intros s; [done|].
  cbn. destruct (step1 cmd s c); [done|apply IH].
Qed.

(** Skipping part of a bulk body at once is skipping it byte by byte. *)
Lemma run_body cmd s data n :
  rstate s = BODY -> (n <= length data)%nat -> 1 <= Z.of_nat n <= remaining s ->
  run cmd s data =
  run cmd (mk_redis (if remaining s - Z.of_nat n =? 0 then BODY_CR else BODY)
             (remaining s - Z.of_nat n) (rtype s) (line s)) (drop n data).
Proof.
  revert s data. induction n as [|n IH]; intros s data Hs Hl Hn; [lia|].
  destruct data as [|c data]; cbn in Hl; [lia|].
  cbn [run drop]. unfold step1. rewrite Hs, bool_decide_eq_true_2 by done.
  destruct (remaining s <=? 0) eqn:E; bprop; [lia|].
  destruct (decide (n = 0%nat)) as [->|Hn0].
  { cbn [drop]. replace (Z.of_nat 1) with 1 by lia. done. }
  rewrite (proj2 (Z.eqb_neq (remaining s - 1) 0)) by lia.
  rewrite IH by (cbn; lia || done). cbn [remaining rtype line].
  replace (remaining s - 1 - Z.of_nat n) with (remaining s - Z.of_nat (S n)) by lia. done.
Qed.

Definition body_extra (s : tg_redis_state) : nat :=
  if bool_decide (rstate s = BODY) then 1%nat else 0%nat.

Lemma rx_loop_run fuel cmd s data :
  (data <> [] -> (2 * length data + body_extra s <= fuel)%nat) ->
  rx_loop fuel cmd s data = run cmd s data.
Proof.
  revert s data. induction fuel as [|fuel IH]; intros s data Hf.
  { destruct data; [done|]. specialize (Hf ltac:(done)). cbn in Hf. lia. }
  destruct data as [|c rest]; [done|]. specialize (Hf ltac:(done)).
  cbn [rx_loop]. unfold body_extra in Hf. cbn [length] in Hf.
  destruct (bool_decide (rstate s = BODY)) eqn:Hb in Hf |- *.
  2:{ cbn [run]. unfold step1. rewrite Hb.
      destruct (step_byte cmd s c) as [e|s'] eqn:Es; [done|]. apply IH. intros _.
      clear Hb. unfold body_extra. case_bool_decide; lia. }
  apply bool_decide_eq_true in Hb. cbv zeta.
  destruct (Z.leb_spec (remaining s) 0) as [Hr|Hr].
  - rewrite Z.min_r by (cbn; lia). rewrite Z.sub_diag. cbn [Z.eqb].
    replace (Z.to_nat (remaining s)) with 0%nat by lia. rewrite drop_0, IH.
    2:{ intros _. change (body_extra _) with 0%nat. cbn [length]. lia. }
    cbn [run]. unfold step1 at 2. rewrite Hb, bool_decide_eq_true_2 by done.
    destruct (remaining s <=? 0) eqn:E; bprop; [|lia]. done.
  - set (n := Z.to_nat (Z.min (Z.of_nat (length (c :: rest))) (remaining s))).
    assert (1 <= Z.of_nat n <= remaining s) by (unfold n; cbn [length]; lia).
    rewrite (run_body cmd s (c :: rest) n Hb) by (unfold n; cbn [length] in *; lia).
    replace (Z.min (Z.of_nat (length (c :: rest))) (remaining s)) with (Z.of_nat n)
      by (unfold n; cbn [length]; lia).
    apply IH. intros Hne.
    assert (length (drop n (c :: rest)) <> 0%nat) by (by destruct (drop n (c :: rest))).
    rewrite length_drop in *. cbn [length] in *.
    destruct (Z.eqb_spec (remaining s - Z.of_nat n) 0);
      [change (body_extra _) with 0%nat; lia|].
    unfold n in *. lia.
Qed.

(** ** The stream contract *)

Lemma on_rx_run (t : rtxn) data s c :
  proto_ctx t = Some s -> class_config t = Some c -> rstate s <> FAILED ->
  on_rx t data =
  match run (command c) s data with
  | inl (e, s') =>
      fail (if e || bool_decide (error_reason t = TG_ERROR_REDIS_ERROR)
            then TG_ERROR_REDIS_ERROR else TG_ERROR_PARSE) s' t
  | inr s' =>
      let t1 := with_proto_ctx (Some s') t in
      if bool_decide (rstate s' = DONE)
      then (TG_PROTO_COMPLETE, with_connection_reusable (keepalive c) t1)
      else (TG_PROTO_MORE, t1)
  end.
Proof.
  intros Hs Hc Hf. unfold on_rx. rewrite Hs, Hc, bool_decide_eq_false_2 by done.
  rewrite rx_loop_run; [done|]. intros _. unfold body_extra. case_bool_decide; lia.
Qed.

Lemma on_rx_stuck (t : rtxn) data :
  proto_ctx t = None \/ class_config t = None
  \/ (exists s, proto_ctx t = Some s /\ rstate s = FAILED) ->
  on_rx t data = (TG_PROTO_FAILED, t).
Proof.
  unfold on_rx. intros [->|[Hc|(s & Hs & Hf)]]; [done| |].
  - rewrite Hc. by destruct (proto_ctx t).
  - rewrite Hs, bool_decide_eq_true_2 by done. by destruct (class_config t).
Qed.

Lemma ctx_cases (t : rtxn) :
  (proto_ctx t = None \/ class_config t = None
   \/ (exists s, proto_ctx t = Some s /\ rstate s = FAILED)) \/
  (exists s c, proto_ctx t = Some s /\ class_config t = Some c /\ rstate s <> FAILED).
Proof.
  destruct (proto_ctx t) as [s|]; [|by do 2 left].
  destruct (class_config t) as [c|]; [|left; by right; left].
  destruct (decide (rstate s = FAILED)); [|right; eauto].
  left. right. right. eauto.
Qed.

(** The state machine never steps into [FAILED] by itself. *)
Lemma step1_not_failed cmd s c s' : step1 cmd s c = inr s' -> rstate s' <> FAILED.
Proof.
  assert (forall q d q', step_byte cmd q d = inr q' -> rstate q' <> FAILED) as Hb.
  { intros q d q'. unfold step_byte, finish_line.
    destruct (parse_length _ _) as [[] n];
    repeat case_match; intros; simplify_eq; cbn; congruence. }
  unfold step1. repeat case_match; intros; simplify_eq; eauto; cbn; congruence.
Qed.
Lemma run_not_failed cmd s data s' : rstate s <> FAILED -> run cmd s data = inr s' -> rstate s' <> FAILED.
Proof.
  revert s. induction data as [|c data IH]; intros s Hs; cbn; [intros; by simplify_eq|].
  destruct (step1 cmd s c) as [|s1] eqn:E; [done|]. eauto using step1_not_failed.
Qed.

(** A finished reply rejects every further byte. *)
Lemma run_done cmd s data : rstate s = DONE -> data <> [] -> run cmd s data = inl (false, s).
Proof.
  intros Hs Hd. destruct data as [|c data]; [done|]. cbn. unfold step1, step_byte. by rewrite Hs.
Qed.

Lemma redis_chunk_app (t : rtxn) a b : on_rx t (a ++ b) = on_rx (snd (on_rx t a)) b.
Proof.
  destruct (ctx_cases t) as [Hst|(s & c & Hs & Hc & Hf)].
  { by rewrite (on_rx_stuck t a Hst), !(on_rx_stuck t _ Hst). }
  rewrite !(on_rx_run t _ s c) by done. rewrite run_app.
  destruct (run (command c) s a) as [[e s1]|s1] eqn:E.
  { cbn [fail snd]. rewrite on_rx_stuck; [done|]. right. right. eexists. split; [done|done]. }
  assert (rstate s1 <> FAILED) as Hf1 by eauto using run_not_failed.
  cbv zeta. destruct (bool_decide_reflect (rstate s1 = DONE)) as [Hd|Hd]; cbn [snd].
  - rewrite (on_rx_run _ b s1 c) by done.
    destruct b as [|b0 b]; [by cbn; rewrite bool_decide_eq_true_2|].
    by rewrite run_done.
  - by rewrite (on_rx_run _ b s1 c).
Qed.

Lemma redis_frame (t : rtxn) d v :
  on_rx (with_response_bytes v t) d
  = (fst (on_rx t d), with_response_bytes v (snd (on_rx t d)))
  /\ response_bytes (snd (on_rx t d)) = response_bytes t
  /\ bound (snd (on_rx t d)) = bound t.
Proof.
  unfold on_rx. cbn [proto_ctx class_config with_response_bytes error_reason].
  destruct (proto_ctx t) as [s|], (class_config t) as [c|]; try done.
  case_bool_decide; [done|].
  destruct (rx_loop _ _ _ _) as [[e s']|s']; [done|]. by case_bool_decide.
Qed.

(** A live parser context; a failed parser has named its reason. *)
Definition redis_inv (t : rtxn) : Prop :=
  exists s c, proto_ctx t = Some s /\ class_config t = Some c /\
    (rstate s = FAILED -> error_reason t <> TG_ERROR_NONE).

Lemma redis_inv_rx t d :
  redis_inv t ->
  redis_inv (snd (on_rx t d)) /\
  (fst (on_rx t d) = TG_PROTO_FAILED -> error_reason (snd (on_rx t d)) <> TG_ERROR_NONE).
Proof.
  intros (s & c & Hs & Hc & Hr).
  destruct (decide (rstate s = FAILED)) as [Hf|Hf].
  { rewrite on_rx_stuck by eauto. split; [by exists s, c|]. auto. }
  rewrite (on_rx_run t d s c) by done.
  destruct (run (command c) s d) as [[e s1]|s1] eqn:E.
  - cbn [fail fst snd].
    assert (forall b : bool, (if b then TG_ERROR_REDIS_ERROR else TG_ERROR_PARSE) <> TG_ERROR_NONE)
      as Hn by (by intros []).
    split; [|intros; apply Hn]. eexists _, c. split_and!; [done|done|]. intros _. apply Hn.
  - assert (rstate s1 <> FAILED) by eauto using run_not_failed.
    cbv zeta. destruct (bool_decide (rstate s1 = DONE)); cbn [fst snd];
      (split; [|done]); exists s1, c; by split_and!.
Qed.

#[export] Instance redis_chunks (alloc : bool) : ChunkLaws (tg_redis_proto_ops alloc).
Proof.
  refine {| chunk_on_rx := on_rx; chunk_inv := redis_inv |}.
  - done.
  - apply redis_chunk_app.
  - intros. apply redis_frame.
  - intros. by apply (redis_frame t d 0).
  - intros. by apply (redis_frame t d 0).
  - intros t v H. exact H.
  - intros. by apply redis_inv_rx.
  - intros. by apply redis_inv_rx.
Defined.
