(* ===== verification/RedisReply.v ===== *)
(** * Redis plugin: which replies are accepted, which requests are built

    [valid_reply] is the grammar of RESP2 replies a command may receive,
    [decode_request] a reference decoder of RESP arrays of bulk strings. *)

From Stdlib Require Import String Ascii.
From S2P Require Import Prelude Config Txn Redis.

Definition CRLF : list Z := [CR; LF].

(** ** Decimal numbers *)

Definition is_digit (c : Z) : Prop := 48 <= c <= 57.
Definition dec_from (acc : Z) (l : list Z) : Z := foldl (fun a c => a * 10 + (c - 48)) acc l.

Lemma dec_from_ge l acc : 0 <= acc -> Forall is_digit l -> acc <= dec_from acc l.
Proof.
  intros Ha Hl. revert acc Ha. induction Hl as [|c l Hc Hl IH]; intros acc Ha; [done|].
  unfold dec_from in *. unfold is_digit in Hc. cbn [foldl].
  specialize (IH (acc * 10 + (c - 48)) ltac:(lia)). lia.
Qed.

(** The digit loop accepts exactly the decimal numbers up to the bulk limit. *)
Lemma parse_length_spec l r n :
  0 <= r <= TG_REDIS_BULK_MAX -> Forall in_u8 l ->
  (parse_length l r = (true, n) <->
   Forall is_digit l /\ n = dec_from r l /\ n <= TG_REDIS_BULK_MAX).
Proof.
  intros Hr Hl. revert r Hr. induction Hl as [|c l Hc Hl IH]; intros r Hr.
  { cbn. split; [intros [= <-]; split_and!; [done|done|lia]|by intros (_ & -> & _)]. }
  cbn [parse_length]. set (d := u32 (c - 48)).
  assert (9 < d \/ (d = c - 48 /\ is_digit c)) as Hd
    by (unfold d, is_digit, in_u8, u32 in *; destruct (Z_le_gt_dec 48 c);
        [rewrite Z.mod_small by lia; lia|left; warith]).
  assert (9 < d -> ~ is_digit c) as Hnd
    by (intros ? ?; unfold d, is_digit, u32 in *; rewrite Z.mod_small in * by lia; lia).
  destruct (Z.ltb_spec 9 d) as [H9|H9]; cbn [orb].
  { split; [done|]. intros (Hall & _). inversion Hall. by apply Hnd in H9. }
  destruct Hd as [|[Hd Hdig]]; [lia|].
  assert ((TG_REDIS_BULK_MAX - d) / 10 < r <-> TG_REDIS_BULK_MAX < r * 10 + d) as Hq.
  { split; intros; [|apply Z.div_lt_upper_bound; lia].
    destruct (Z.lt_ge_cases TG_REDIS_BULK_MAX (r * 10 + d)); [done|].
    assert (r <= (TG_REDIS_BULK_MAX - d) / 10) by (apply Z.div_le_lower_bound; lia). lia. }
  assert (forall x, dec_from r (c :: l) = x <-> dec_from (r * 10 + d) l = x) as Hcons
    by (intros; unfold dec_from; cbn [foldl]; by rewrite Hd).
  unfold is_digit in Hdig.
  destruct (Z.ltb_spec ((TG_REDIS_BULK_MAX - d) / 10) r) as [Hb|Hb].
  - apply Hq in Hb. split; [done|]. intros (Hall & Hn & Hm). inversion_clear Hall.
    symmetry in Hn. apply Hcons in Hn. pose proof (dec_from_ge l (r * 10 + d) ltac:(lia) ltac:(done)).
    lia.
  - assert (~ TG_REDIS_BULK_MAX < r * 10 + d) by (rewrite <- Hq; lia).
    rewrite IH by lia. rewrite Forall_cons.
    assert (is_digit c) by (unfold is_digit; lia).
    split; intros; destruct_and!; split_and!; try done; by (symmetry; apply Hcons).
Qed.

(** ** The reply grammar *)

Inductive valid_reply : tg_redis_command -> list Z -> Prop :=
| valid_pong : valid_reply TG_REDIS_PING (text "+PONG" ++ CRLF)
| valid_ok : valid_reply TG_REDIS_SET (text "+OK" ++ CRLF)
| valid_nil : valid_reply TG_REDIS_GET (text "$-1" ++ CRLF)
| valid_bulk digits body :
    digits <> [] -> Z.of_nat (length digits) <= LINE_CAP -> Forall is_digit digits ->
    dec_from 0 digits = Z.of_nat (length body) -> Z.of_nat (length body) <= TG_REDIS_BULK_MAX ->
    valid_reply TG_REDIS_GET (text "$" ++ digits ++ CRLF ++ body ++ CRLF).

(** What the bytes read so far look like in each parser state. *)
Definition bulk_header (s : tg_redis_state) (total : Z) : Prop :=
  rtype s = 36 /\ line s <> [] /\ Forall is_digit (line s) /\
  dec_from 0 (line s) = total /\ total <= TG_REDIS_BULK_MAX.

Definition seen (cmd : tg_redis_command) (s : tg_redis_state) (pre : list Z) : Prop :=
  Z.of_nat (length (line s)) <= LINE_CAP /\ Forall in_u8 (line s) /\
  match rstate s with
  | TYPE => pre = [] /\ line s = [] /\ remaining s = 0
  | LINE => pre = rtype s :: line s /\ remaining s = 0 /\ rtype s ∈ [43; 45; 36]
  | LINE_LF => pre = rtype s :: line s ++ [CR] /\ remaining s = 0 /\ rtype s ∈ [43; 45; 36]
  | BODY => exists body, cmd = TG_REDIS_GET /\ pre = rtype s :: line s ++ CRLF ++ body
      /\ 0 < remaining s /\ bulk_header s (Z.of_nat (length body) + remaining s)
  | BODY_CR => exists body, cmd = TG_REDIS_GET /\ pre = rtype s :: line s ++ CRLF ++ body
      /\ bulk_header s (Z.of_nat (length body))
  | BODY_LF => exists body, cmd = TG_REDIS_GET /\ pre = rtype s :: line s ++ CRLF ++ body ++ [CR]
      /\ bulk_header s (Z.of_nat (length body))
  | DONE => valid_reply cmd pre
  | FAILED => False
  end.

(** The end of a header line either finishes a one-line reply or opens the
    body the header announces. *)
Lemma finish_line_seen cmd s s' :
  seen cmd s (rtype s :: line s ++ [CR]) -> rstate s = LINE_LF ->
  finish_line cmd s = inr s' -> seen cmd s' (rtype s :: line s ++ CRLF).
Proof.
  unfold seen. intros (Hlen & Hu & Hst) Hs. rewrite Hs in Hst. destruct Hst as (_ & Hr0 & Hty).
  unfold finish_line. destruct (Z.eqb_spec (rtype s) 45); [done|].
  destruct (Z.eqb_spec (rtype s) 43) as [H43|H43].
  { cbv zeta. destruct (bool_decide_reflect (cmd = TG_REDIS_GET)); [done|]. cbn [orb].
    destruct (bool_decide_reflect (line s = match cmd with TG_REDIS_PING => [80; 79; 78; 71] | _ => [79; 75] end))
      as [Hl|]; [|done]. cbn [negb]. intros; simplify_eq. cbn [rstate line].
    split_and!; [done..|]. rewrite Hl, H43.
    destruct cmd; [apply valid_pong|done|apply valid_ok]. }
  destruct (bool_decide_reflect (cmd = TG_REDIS_GET)) as [->|]; [|done]. cbn [negb orb].
  assert (rtype s = 36) as H36 by (rewrite !elem_of_cons, elem_of_nil in Hty; tauto).
  destruct (bool_decide_reflect (line s = [])) as [|Hne]; [done|].
  destruct (bool_decide_reflect (line s = [45; 49])) as [Hl|_].
  { intros; simplify_eq. cbn [rstate line]. split_and!; [done..|].
    rewrite Hl, H36. apply valid_nil. }
  destruct (parse_length (line s) (remaining s)) as [[] len] eqn:Hp; [|done].
  rewrite Hr0 in Hp. apply parse_length_spec in Hp as (Hd & Hn & Hm);
    [|unfold TG_REDIS_BULK_MAX; lia|done].
  pose proof (dec_from_ge (line s) 0 ltac:(lia) Hd).
  intros; simplify_eq. cbn [rstate line]. split_and!; [done..|].
  destruct (Z.eqb_spec (dec_from 0 (line s)) 0); exists []; unfold bulk_header;
    cbn [rtype line remaining length]; rewrite ?app_nil_r; split_and!; try done; lia.
Qed.

Lemma header_app x (l body t : list Z) :
  (x :: l ++ CRLF ++ body) ++ t = x :: l ++ CRLF ++ body ++ t.
Proof. by rewrite <- app_comm_cons, <- !app_assoc. Qed.

Lemma step1_seen cmd s c s' pre :
  in_u8 c -> seen cmd s pre -> step1 cmd s c = inr s' -> seen cmd s' (pre ++ [c]).
Proof.
  intros Hc Hseen Hstep. pose proof Hseen as (Hlen & Hu & Hst).
  unfold step1 in Hstep. destruct (bool_decide_reflect (rstate s = BODY)) as [Hb|Hb].
  { rewrite Hb in Hst. destruct Hst as (body & -> & -> & Hrem & Hh).
    destruct (Z.leb_spec (remaining s) 0); [lia|]. simplify_eq. unfold seen. cbn [rstate line].
    split_and!; [done..|].
    destruct (Z.eqb_spec (remaining s - 1) 0); exists (body ++ [c]);
      unfold bulk_header in *; cbn [rtype line remaining]; rewrite length_app; cbn [length];
      rewrite header_app; destruct_and!; split_and!; done || lia. }
  unfold step_byte in Hstep. destruct (rstate s) eqn:Hs; try done.
  - destruct Hst as (-> & Hl & Hr). revert Hstep.
    destruct (Z.eqb_spec c 43), (Z.eqb_spec c 45), (Z.eqb_spec c 36); cbn [negb andb]; intros;
      simplify_eq; unfold seen; cbn [rstate line rtype remaining]; rewrite ?Hl; split_and!; try done;
      set_solver.
  - destruct Hst as (-> & Hr & Hty). revert Hstep. destruct (Z.eqb_spec c CR) as [->|]; intros; simplify_eq.
    { unfold seen. cbn [rstate line rtype remaining]. by split_and!. }
    destruct ((c =? 0) || (c =? LF)); [done|]. cbn [orb] in *.
    destruct (Z.eqb_spec (Z.of_nat (length (line s))) LINE_CAP); [done|]. simplify_eq.
    unfold seen. cbn [rstate line rtype remaining]. rewrite length_app. cbn [length].
    split_and!; try done; [lia|]. apply Forall_app. split; [done|by apply Forall_singleton].
  - destruct Hst as (-> & Hr & Hty). destruct (Z.eqb_spec c LF) as [->|]; [|done].
    cbn [negb] in Hstep. apply finish_line_seen in Hstep; [|done|done].
    rewrite <- app_comm_cons, <- app_assoc. exact Hstep.
  - destruct Hst as (body & -> & -> & Hh). destruct (Z.eqb_spec c CR) as [->|]; [|done].
    simplify_eq/=. unfold seen. cbn [rstate line rtype remaining]. split_and!; try done.
    exists body. split_and!; try done. apply header_app.
  - destruct Hst as (body & -> & -> & Hty & Hne & Hd & Hn & Hm).
    destruct (Z.eqb_spec c LF) as [->|]; [|done]. simplify_eq/=. unfold seen. cbn [rstate line].
    split_and!; try done.
    rewrite Hty. rewrite <- (app_assoc (line s)). cbn [app]. rewrite <- app_assoc.
    apply (valid_bulk (line s) body); done.
Qed.

Lemma run_seen cmd s pre data s' :
  Forall in_u8 data -> seen cmd s pre -> run cmd s data = inr s' -> seen cmd s' (pre ++ data).
Proof.
  intros Hd. revert s pre. induction Hd as [|c data Hc Hd IH]; intros s pre Hs; cbn [run].
  { intros [= <-]. by rewrite app_nil_r. }
  destruct (step1 cmd s c) as [|s1] eqn:E; [done|]. intros Hr.
  replace (pre ++ c :: data) with ((pre ++ [c]) ++ data) by (by rewrite <- app_assoc).
  eauto using step1_seen.
Qed.

(** ** Every valid reply is accepted *)

Definition line_byte (c : Z) : Prop := c <> 0 /\ c <> LF /\ c <> CR.

Lemma run_line cmd s l :
  rstate s = LINE -> Forall line_byte l ->
  Z.of_nat (length (line s)) + Z.of_nat (length l) <= LINE_CAP ->
  run cmd s l = inr (mk_redis LINE (remaining s) (rtype s) (line s ++ l)).
Proof.
  intros Hs Hl. revert s Hs. induction Hl as [|c l (H0 & H1 & H2) Hl IH]; intros s Hs Hlen.
  { cbn. rewrite app_nil_r. destruct s; cbn in *; by subst. }
  cbn [run]. unfold step1, step_byte. rewrite Hs, bool_decide_eq_false_2 by done.
  cbn [length] in Hlen.
  destruct (Z.eqb_spec c CR); [done|]. destruct (Z.eqb_spec c 0); [done|].
  destruct (Z.eqb_spec c LF); [done|].
  destruct (Z.eqb_spec (Z.of_nat (length (line s))) LINE_CAP); [lia|]. cbn [orb].
  rewrite IH; cbn [rstate line remaining rtype]; [|done|rewrite length_app; cbn [length]; lia].
  by rewrite <- app_assoc.
Qed.

(** A whole header line up to its line feed. *)
Lemma run_header cmd ty l :
  ty ∈ [43; 45; 36] -> Forall line_byte l -> Z.of_nat (length l) <= LINE_CAP ->
  run cmd redis_zero (ty :: l ++ CRLF) = finish_line cmd (mk_redis LINE_LF 0 ty l).
Proof.
  intros Hty Hl Hlen. cbn [run].
  assert (step1 cmd redis_zero ty = inr (mk_redis LINE 0 ty [])) as ->.
  { rewrite !elem_of_cons, elem_of_nil in Hty. destruct Hty as [->|[->|[->|[]]]]; done. }
  rewrite run_app, run_line by done.
  change (match finish_line cmd (mk_redis LINE_LF 0 ty l) with inl e => inl e | inr s' => inr s' end
          = finish_line cmd (mk_redis LINE_LF 0 ty l)).
  by destruct (finish_line cmd _).
Qed.

Lemma digit_line_byte l : Forall is_digit l -> Forall line_byte l /\ Forall in_u8 l.
Proof.
  intros H. split; (eapply Forall_impl; [exact H|]); unfold is_digit, line_byte, in_u8; cbn; lia.
Qed.

Lemma run_bulk_body cmd ty l body n :
  n = Z.of_nat (length body) ->
  run cmd (mk_redis (if n =? 0 then BODY_CR else BODY) n ty l) (body ++ CRLF)
  = inr (mk_redis DONE 0 ty l).
Proof.
  intros ->. destruct (Z.eqb_spec (Z.of_nat (length body)) 0) as [H0|H0].
  { assert (body = []) as -> by (by apply length_zero_iff_nil; lia). done. }
  rewrite (run_body _ _ _ (length body));
    [|done|rewrite length_app; lia|cbn [remaining]; lia].
  cbn [remaining rtype line]. rewrite Z.sub_diag, drop_app_length. done.
Qed.

Lemma run_valid cmd reply :
  valid_reply cmd reply -> exists s', run cmd redis_zero reply = inr s' /\ rstate s' = DONE.
Proof.
  destruct 1 as [| | |digits body Hne Hlen Hd Hv Hm]; try (by eexists).
  destruct (digit_line_byte _ Hd) as [Hlb Hu].
  change (text "$" ++ digits ++ CRLF ++ body ++ CRLF)
    with (36 :: digits ++ (CRLF ++ (body ++ CRLF))).
  rewrite app_assoc, app_comm_cons, run_app, run_header by (done || set_solver).
  unfold finish_line. cbn [rtype line remaining rstate Z.eqb Pos.eqb].
  rewrite (bool_decide_eq_false_2 (digits = [])), (bool_decide_eq_false_2 (digits = [45; 49])) by
    (done || (intros ->; inversion_clear Hd; unfold is_digit in *; lia)).
  rewrite (bool_decide_eq_true_2 (TG_REDIS_GET = TG_REDIS_GET)) by done. cbn [negb orb].
  destruct (parse_length digits 0) as [ok n] eqn:Hp.
  assert (ok = true /\ n = Z.of_nat (length body)) as [-> ->].
  { assert (parse_length digits 0 = (true, dec_from 0 digits)) as Hp2
      by (apply parse_length_spec; [unfold TG_REDIS_BULK_MAX; lia|done|split_and!; [done|done|lia]]).
    rewrite Hp in Hp2. simplify_eq. by rewrite Hv. }
  rewrite run_bulk_body by done. by eexists.
Qed.

(** ** Transactions on the reply stream *)

(** What initialization hands to the receive path. *)
Lemma redis_txn_ready cfg m0 alloc t m :
  tg_txn_init (tg_redis_proto_ops alloc) (Some cfg) m0 = (true, t, m) ->
  bound t = true /\ proto_ctx t = Some redis_zero /\ class_config t = Some cfg /\
  error_reason t = TG_ERROR_NONE /\ redis_inv t.
Proof.
  unfold tg_txn_init. cbn [p_init tg_redis_proto_ops init class_config].
  destruct (config_valid cfg); [|done]. destruct alloc; [|done].
  intros; simplify_eq. split_and!; try done. by eexists _, _.
Qed.

Lemma redis_complete_iff cfg m0 alloc t m data :
  tg_txn_init (tg_redis_proto_ops alloc) (Some cfg) m0 = (true, t, m) -> Forall in_u8 data ->
  (fst (on_rx t data) = TG_PROTO_COMPLETE <-> valid_reply (command cfg) data).
Proof.
  intros Hi Hd. destruct (redis_txn_ready _ _ _ _ _ Hi) as (_ & Hs & Hc & _).
  rewrite (on_rx_run t data redis_zero cfg) by done.
  assert (seen (command cfg) redis_zero []) as H0 by (unfold seen; cbn; unfold LINE_CAP; split_and!; done || lia).
  split.
  - destruct (run (command cfg) redis_zero data) as [[e s1]|s1] eqn:E; [done|].
    apply (run_seen _ _ [] _ _ Hd H0) in E as (_ & _ & E).
    cbv zeta. case_bool_decide as Hdone; [|done]. by rewrite Hdone in E.
  - intros Hv. apply run_valid in Hv as (s1 & -> & Hdone).
    cbv zeta. by rewrite bool_decide_eq_true_2.
Qed.

(** However the reply bytes of a Redis transaction are cut into receive
    chunks, the transaction layer reaches the same verdict and the same
    transaction state as if they had arrived in one piece. *)
Theorem redis_chunking cfg m0 alloc t m d ds :
  tg_txn_init (tg_redis_proto_ops alloc) (Some cfg) m0 = (true, t, m) ->
  feed (tg_redis_proto_ops alloc) t (d :: ds)
  = tg_txn_on_rx (tg_redis_proto_ops alloc) t (d ++ concat ds).
Proof.
  intros Hi. destruct (redis_txn_ready _ _ _ _ _ Hi) as (Hb & _ & _ & _ & Hinv).
  by apply (feed_concat _ (laws := redis_chunks alloc)).
Qed.

(** C37: A Redis transaction completes on exactly the replies of the RESP2
    grammar of its command ([+PONG], [+OK], the nil bulk, or a bulk string
    whose decimal header announces the length of its body), nothing missing
    and nothing after it; every other stream fails or waits. *)
Theorem redis_accepts_exactly cfg m0 alloc t m data :
  tg_txn_init (tg_redis_proto_ops alloc) (Some cfg) m0 = (true, t, m) -> Forall in_u8 data ->
  (fst (tg_txn_on_rx (tg_redis_proto_ops alloc) t data) = TG_PROTO_COMPLETE
   <-> valid_reply (command cfg) data) /\
  (fst (tg_txn_on_rx (tg_redis_proto_ops alloc) t data) = TG_PROTO_COMPLETE ->
   connection_reusable (snd (tg_txn_on_rx (tg_redis_proto_ops alloc) t data)) = keepalive cfg).
Proof.
  intros Hi Hd. destruct (redis_txn_ready _ _ _ _ _ Hi) as (Hb & Hs & Hc & _ & Hinv).
  rewrite (on_rx_plugin _ (laws := redis_chunks alloc) t data Hb Hinv). cbn [fst snd].
  change (chunk_on_rx _ t data) with (on_rx t data).
  split; [by eapply redis_complete_iff|].
  rewrite (on_rx_run t data redis_zero cfg) by done. cbv zeta.
  destruct (run (command cfg) redis_zero data) as [[e s1]|s1]; [done|].
  by case_bool_decide.
Qed.

(** An error reply ([-] and a nonempty line) fails the transaction with
    the server-error reason and never returns the connection to the pool,
    whatever bytes follow it. *)
Theorem redis_error_reply cfg m0 alloc t m msg rest :
  tg_txn_init (tg_redis_proto_ops alloc) (Some cfg) m0 = (true, t, m) ->
  msg <> [] -> Forall line_byte msg -> Z.of_nat (length msg) <= LINE_CAP ->
  let '(r, t') := tg_txn_on_rx (tg_redis_proto_ops alloc) t (text "-" ++ msg ++ CRLF ++ rest) in
  r = TG_PROTO_FAILED /\ error_reason t' = TG_ERROR_REDIS_ERROR /\ connection_reusable t' = false.
Proof.
  intros Hi Hne Hl Hlen. destruct (redis_txn_ready _ _ _ _ _ Hi) as (Hb & Hs & Hc & _ & Hinv).
  rewrite (on_rx_plugin _ (laws := redis_chunks alloc) t _ Hb Hinv).
  change (chunk_on_rx _ t ?x) with (on_rx t x).
  change (text "-" ++ msg ++ CRLF ++ rest) with (45 :: msg ++ (CRLF ++ rest)).
  rewrite (on_rx_run t _ redis_zero cfg) by done.
  rewrite app_assoc, app_comm_cons, run_app, run_header by (done || set_solver).
  unfold finish_line. cbn [rtype line Z.eqb Pos.eqb].
  rewrite bool_decide_eq_false_2 by done. done.
Qed.

(** ** Requests *)

Definition arg_wf (a : list Z) : Prop := Z.of_nat (length a) < 10 ^ 19.

(** Reference decoder of one bulk string and of an array of them. *)
Fixpoint span_digits (l : list Z) : list Z * list Z :=
  match l with
  | c :: t =>
      if (48 <=? c) && (c <=? 57) then let '(ds, r) := span_digits t in (c :: ds, r) else ([], l)
  | [] => ([], [])
  end.
Definition expect_crlf (l : list Z) : option (list Z) :=
  match l with
  | a :: b :: r => if (a =? CR) && (b =? LF) then Some r else None
  | _ => None
  end.
Definition decode_bulk (l : list Z) : option (list Z * list Z) :=
  match l with
  | c :: r =>
      if c =? 36 then
        let '(ds, r1) := span_digits r in
        r2 ← expect_crlf r1;
        let n := Z.to_nat (dec_from 0 ds) in
        r3 ← expect_crlf (drop n r2);
        Some (take n r2, r3)
      else None
  | [] => None
  end.
Fixpoint decode_bulks (count : nat) (l : list Z) : option (list (list Z) * list Z) :=
  match count with
  | O => Some ([], l)
  | S k => '(a, r) ← decode_bulk l; '(args, r') ← decode_bulks k r; Some (a :: args, r')
  end.
Definition decode_request (l : list Z) : option (list (list Z) * list Z) :=
  match l with
  | c :: k :: r => if c =? 42 then r' ← expect_crlf r; decode_bulks (Z.to_nat (k - 48)) r' else None
  | _ => None
  end.

(** The words of a command, as the server must see them. *)
Definition request_args (c : tg_redis_config) : list (list Z) :=
  match command c with
  | TG_REDIS_PING => [text "PING"]
  | TG_REDIS_GET => [text "GET"; cstr (key c)]
  | TG_REDIS_SET => [text "SET"; cstr (key c); cstr (value c)]
  end.

Lemma dec_digits_spec fuel n :
  0 <= n < 10 ^ Z.of_nat fuel -> (0 < fuel)%nat ->
  Forall is_digit (dec_digits fuel n) /\ dec_from 0 (dec_digits fuel n) = n /\
  (1 <= length (dec_digits fuel n) <= fuel)%nat.
Proof.
  revert n. induction fuel as [|fuel IH]; intros n Hn Hf; [lia|]. cbn [dec_digits].
  assert (is_digit (48 + n mod 10)) as Hd by (unfold is_digit; warith).
  destruct (Z.ltb_spec n 10).
  { cbn. unfold dec_from. cbn. split_and!; try lia; [by apply Forall_singleton|].
    rewrite Z.mod_small by lia. lia. }
  rewrite Nat2Z.inj_succ, Z.pow_succ_r in Hn by lia.
  assert (0 < fuel)%nat by (destruct fuel; [cbn in Hn; lia|lia]).
  destruct (IH (n / 10)) as (H1 & H2 & H3); [|done|].
  { split; [apply Z.div_pos; lia|apply Z.div_lt_upper_bound; lia]. }
  unfold dec_from in *. rewrite foldl_app, H2, length_app. cbn [foldl length].
  split_and!; try lia; [by apply Forall_app; split; [|apply Forall_singleton]|].
  warith.
Qed.

Lemma span_digits_app ds r :
  Forall is_digit ds -> span_digits (ds ++ CR :: r) = (ds, CR :: r).
Proof.
  induction 1 as [|c ds Hc Hd IH]; [done|]. cbn [app span_digits]. unfold is_digit in Hc.
  destruct (Z.leb_spec 48 c); [|lia]. destruct (Z.leb_spec c 57); [|lia]. cbn [andb]. by rewrite IH.
Qed.

Lemma print_size_spec a :
  arg_wf a ->
  Forall is_digit (print_size (Z.of_nat (length a))) /\
  dec_from 0 (print_size (Z.of_nat (length a))) = Z.of_nat (length a) /\
  (1 <= length (print_size (Z.of_nat (length a))) <= 20)%nat.
Proof. unfold arg_wf. intros H. apply dec_digits_spec; lia. Qed.

Lemma decode_bulk_string a r : arg_wf a -> decode_bulk (bulk_string a ++ r) = Some (a, r).
Proof.
  intros Ha. destruct (print_size_spec a Ha) as (Hd & Hv & _).
  unfold bulk_string, decode_bulk.
  replace ((([36] ++ print_size (Z.of_nat (length a)) ++ [CR; LF]) ++ a ++ [CR; LF]) ++ r)
    with (36 :: print_size (Z.of_nat (length a)) ++ CR :: LF :: a ++ CR :: LF :: r)
    by (cbn; f_equal; rewrite <- !app_assoc; done).
  cbn [Z.eqb Pos.eqb]. rewrite span_digits_app by done.
  cbn [expect_crlf Z.eqb Pos.eqb andb mbind option_bind]. rewrite Hv, Nat2Z.id, drop_app_length, take_app_length.
  done.
Qed.

(** The size of the encoding of an argument. *)
Definition arg_size (a : list Z) : Z := Z.of_nat (length (bulk_string a)).

Lemma build_args_spec args cap offset :
  Forall arg_wf args -> 0 <= offset ->
  match build_args args cap offset with
  | Some out => out = concat (map bulk_string args) /\
      (args <> [] -> offset + Z.of_nat (length out) <= cap)
  | None => cap < offset + Z.of_nat (length (concat (map bulk_string args)))
  end.
Proof.
  intros Hw. revert offset. induction Hw as [|a args Ha Hw IH]; intros offset Ho; [done|].
  destruct (print_size_spec a Ha) as (_ & _ & Hlen).
  cbn [build_args concat map]. cbv zeta. rewrite (length_app (bulk_string a)).
  set (h := Z.of_nat (length ([36] ++ _))).
  assert (Z.of_nat (length (bulk_string a)) = h + Z.of_nat (length a) + 2) as Hs
    by (unfold h, bulk_string; rewrite !length_app; cbn [length]; lia).
  assert (h < 32) by (unfold h; rewrite !length_app; cbn [length]; lia).
  destruct (Z.leb_spec 32 h); [lia|]. cbn [orb].
  destruct (Z.ltb_spec (cap - offset) (h + Z.of_nat (length a) + 2)); [lia|].
  specialize (IH (offset + h + Z.of_nat (length a) + 2) ltac:(lia)).
  destruct (build_args args cap _) as [out|]; cbn [option_map].
  - destruct IH as [-> Hc]. split; [done|]. intros _. rewrite length_app.
    destruct args as [|b args]; [cbn [map concat length]; lia|]. specialize (Hc ltac:(done)). lia.
  - lia.
Qed.

Lemma decode_bulks_concat args r :
  Forall arg_wf args -> decode_bulks (length args) (concat (map bulk_string args) ++ r) = Some (args, r).
Proof.
  induction 1 as [|a args Ha Hw IH]; [done|].
  cbn [length decode_bulks map concat]. rewrite <- app_assoc, decode_bulk_string by done.
  cbn. by rewrite IH.
Qed.

(** [build_request] writes the RESP array of the command's words: a RESP
    decoder reads back exactly the command name, the key and the value, and
    the encoding fits the buffer; it refuses a request only when the encoding
    is larger than the buffer. *)
Theorem redis_request_roundtrip cfg cap :
  config_valid cfg = true -> length (key cfg) = 1025%nat -> length (value cfg) = 1025%nat ->
  match build_request (Some cfg) cap with
  | Some req => decode_request req = Some (request_args cfg, []) /\ Z.of_nat (length req) <= cap
  | None => cap < 4 + Zsum (map arg_size (request_args cfg))
  end.
Proof.
  intros Hv Hk Hw. unfold build_request. rewrite Hv. cbn [negb]. cbv zeta.
  pose proof (cstr_length (key cfg)). pose proof (cstr_length (value cfg)).
  assert (Forall arg_wf (request_args cfg)) as Hargs
    by (unfold request_args; destruct (command cfg); repeat constructor; unfold arg_wf; cbn [length text]; cbn; lia).
  assert (take (S (command_index (command cfg)))
            [command_name (command cfg); cstr (key cfg); cstr (value cfg)] = request_args cfg) as ->
    by (unfold request_args; by destruct (command cfg)).
  assert (length (request_args cfg) = S (command_index (command cfg))) as Hcount
    by (unfold request_args; by destruct (command cfg)).
  assert (Zsum (map arg_size (request_args cfg))
          = Z.of_nat (length (concat (map bulk_string (request_args cfg))))) as Hsum.
  { clear. induction (request_args cfg) as [|a l IH]; [done|].
    cbn [map concat]. rewrite Zsum_cons, length_app, IH. unfold arg_size. lia. }
  rewrite Hsum. destruct (Z.ltb_spec cap 4); [lia|].
  pose proof (build_args_spec (request_args cfg) cap 4 Hargs ltac:(lia)) as Hb.
  destruct (build_args (request_args cfg) cap 4) as [out|]; cbn [option_map]; [|done].
  destruct Hb as [-> Hle]. split.
  - cbn [app decode_request Z.eqb Pos.eqb expect_crlf andb mbind option_bind].
    replace (Z.to_nat (48 + Z.of_nat (S (command_index (command cfg))) - 48))
      with (length (request_args cfg)) by lia.
    rewrite <- (app_nil_r (concat _)). by apply decode_bulks_concat.
  - cbn [app length]. assert (request_args cfg <> []) by (by intros E; rewrite E in Hcount). 
    specialize (Hle ltac:(done)). lia.
Qed.

Definition demo_config (cmd : tg_redis_command) : tg_redis_config :=
  mk_rcfg cmd true (text "k" ++ replicate 1024 0) (text "v1" ++ replicate 1023 0).

(** The reply [$2\r\nhi\r\n] to a GET, cut inside the header and the body. *)
Lemma redis_chunking_witness : exists t,
  fst (feed (tg_redis_proto_ops true) t [text "$"; text "2" ++ [CR]; [LF] ++ text "h"; text "i" ++ CRLF])
  = TG_PROTO_COMPLETE.
Proof.
  destruct (tg_txn_init (tg_redis_proto_ops true) (Some (demo_config TG_REDIS_GET)) metric_zero)
    as [[ok t] m] eqn:E.
  exists t. rewrite (redis_chunking (demo_config TG_REDIS_GET) metric_zero true t m).
  - vm_compute in E. injection E as _ <- _. vm_compute. reflexivity.
  - rewrite E. f_equal. f_equal. vm_compute in E. by injection E as <- _ _.
Defined.

Lemma redis_accepts_exactly_witness : exists t,
  fst (tg_txn_on_rx (tg_redis_proto_ops true) t (text "+PONG" ++ CRLF)) = TG_PROTO_COMPLETE.
Proof.
  destruct (tg_txn_init (tg_redis_proto_ops true) (Some (demo_config TG_REDIS_PING)) metric_zero)
    as [[ok t] m] eqn:E.
  exists t. apply (redis_accepts_exactly (demo_config TG_REDIS_PING) metric_zero true t m).
  - rewrite E. f_equal. f_equal. vm_compute in E. by injection E as <- _ _.
  - repeat (constructor; [unfold in_u8; cbn; lia|]). constructor.
  - apply valid_pong.
Defined.

Lemma redis_error_reply_witness : exists t,
  error_reason (snd (tg_txn_on_rx (tg_redis_proto_ops true) t
    (text "-" ++ text "ERR" ++ CRLF ++ []))) = TG_ERROR_REDIS_ERROR.
Proof.
  destruct (tg_txn_init (tg_redis_proto_ops true) (Some (demo_config TG_REDIS_SET)) metric_zero)
    as [[ok t] m] eqn:E.
  exists t.
  pose proof (redis_error_reply (demo_config TG_REDIS_SET) metric_zero true t m (text "ERR") []) as H.
  destruct (tg_txn_on_rx _ t _) as [r t'].
  destruct H as (_ & H & _); [|done| | |exact H].
  - rewrite E. f_equal. f_equal. vm_compute in E. by injection E as <- _ _.
  - repeat (constructor; [unfold line_byte; cbn; lia|]). constructor.
  - vm_compute. discriminate.
Defined.

Lemma redis_request_roundtrip_witness :
  exists req, build_request (Some (demo_config TG_REDIS_SET)) 1024 = Some req /\
  decode_request req = Some ([text "SET"; text "k"; text "v1"], []).
Proof.
  pose proof (redis_request_roundtrip (demo_config TG_REDIS_SET) 1024
    ltac:(by vm_compute) ltac:(by vm_compute) ltac:(by vm_compute)) as H.
  destruct (build_request (Some (demo_config TG_REDIS_SET)) 1024) as [req|] eqn:E.
  - exists req. split; [done|]. exact (proj1 H).
  - exfalso. vm_compute in E. discriminate E.
Defined.
