(* ===== verification/FlowPool.v ===== *)
(** * Owner-local flow pool (traffic-gen/core/flow_pool.c)

    The contiguous storage starts at address [base]; an element occupies
    [flow_size] bytes.  A flow is its two lifecycle flags and the rest of its
    fields, of type [Body]; [tg_flow_reset] (flow.c) clears all of them.
    The abstract specification is the set of indices in use. *)

From stdpp Require Import gmap.
From S2P Require Import Prelude Config.

Section FlowPool.
Context {Body : Type} (fresh : Body) (flow_size : Z).

Record flow := mk_flow { mapped : bool; in_use : bool; body : Body }.

Definition tg_flow_reset (_ : flow) : flow := mk_flow false false fresh.

(** [None] is a null array. *)
Record tg_flow_pool := mk_fpool {
  base : Z;
  flows : option (list flow);
  free_ids : option (list Z);
  capacity : Z;
  free_count : Z;
  resources : resource_metric
}.

Definition fpool_zero : tg_flow_pool := mk_fpool 0 None None 0 0 metric_zero.

Definition tg_flow_pool_index (p : tg_flow_pool) (address : Z) : option Z :=
  match flows p with
  | None => None
  | Some _ =>
      let end_ := u64 (base p + capacity p * flow_size) in
      if (address =? 0) || (address <? base p) || (end_ <=? address) then None
      else
        let offset := address - base p in
        if negb (offset mod flow_size =? 0) then None else Some (u32 (offset / flow_size))
  end.

(** [mem] is what the two allocations return: the storage address and its
    contents, and the index array; [None] is a refusal of either. *)
Definition tg_flow_pool_init (cap : Z) (mem : option (Z * list flow)) (p : tg_flow_pool)
    : (errno + unit) * tg_flow_pool :=
  if cap =? 0 then (inl EINVAL, p)
  else match mem with
  | None => (inl ENOMEM, fpool_zero)
  | Some (addr, storage) =>
      let ids := map (fun i => u32 (cap - 1 - Z.of_nat i)) (seq 0 (Z.to_nat cap)) in
      (inr tt, mk_fpool addr (Some (map tg_flow_reset storage)) (Some ids) cap cap
                 (mk_metric cap 0 0 0 0 0 0))
  end.

Definition tg_flow_pool_fini (p : tg_flow_pool) : tg_flow_pool := fpool_zero.

(** The index of the acquired flow.  Reading outside an array is undefined
    in C; [0] stands for it and is never read ([pool_rel]). *)
Definition tg_flow_pool_get (p : tg_flow_pool) : (errno + Z) * tg_flow_pool :=
  match flows p, free_ids p with
  | Some fs, Some ids =>
      if free_count p =? 0 then
        (inl ENOBUFS, mk_fpool (base p) (flows p) (free_ids p) (capacity p) (free_count p)
                        (resource_exhausted (resources p)))
      else
        let n := free_count p - 1 in
        let id := default 0 (ids !! Z.to_nat n) in
        let fs1 := alter (fun f => mk_flow (mapped (tg_flow_reset f)) true (body (tg_flow_reset f)))
                     (Z.to_nat id) fs in
        (inr id, mk_fpool (base p) (Some fs1) (free_ids p) (capacity p) n
                   (resource_acquire 1 (resources p)))
  | _, _ => (inl EINVAL, mk_fpool (base p) (flows p) (free_ids p) (capacity p) (free_count p)
                           (resource_unavailable (resources p)))
  end.

Definition tg_flow_pool_put (p : tg_flow_pool) (address : Z) : (errno + unit) * tg_flow_pool :=
  match flows p, free_ids p, tg_flow_pool_index p address with
  | Some fs, Some ids, Some id =>
      let f := default (mk_flow false false fresh) (fs !! Z.to_nat id) in
      if mapped f then (inl EBUSY, p)
      else if negb (in_use f) then (inl EALREADY, p)
      else if capacity p <=? free_count p then (inl EOVERFLOW, p)
      else (inr tt, mk_fpool (base p) (Some (alter tg_flow_reset (Z.to_nat id) fs))
                      (Some (<[Z.to_nat (free_count p) := id]> ids)) (capacity p)
                      (free_count p + 1) (resource_release 1 (resources p)))
  | _, _, _ => (inl EINVAL, p)
  end.

(** The holder of a flow works on its fields; it neither claims nor releases it. *)
Definition flow_write (id : nat) (m : bool) (b : Body) (p : tg_flow_pool) : tg_flow_pool :=
  mk_fpool (base p) (alter (fun f => mk_flow m (in_use f) b) id <$> flows p) (free_ids p)
    (capacity p) (free_count p) (resources p).

(** ** The abstract pool: a set of indices in use *)

Definition placed (p : tg_flow_pool) : Prop :=
  0 < flow_size /\ 0 < base p /\ 0 < capacity p < 4294967296 /\
  base p + capacity p * flow_size < 18446744073709551616.

Definition element_address (p : tg_flow_pool) (id : nat) : Z := base p + Z.of_nat id * flow_size.

Definition free_stack (p : tg_flow_pool) (ids : list Z) : list Z := take (Z.to_nat (free_count p)) ids.

Definition pool_rel (p : tg_flow_pool) (used : gset nat) : Prop :=
  exists fs ids,
    flows p = Some fs /\ free_ids p = Some ids /\ placed p /\
    Z.of_nat (length fs) = capacity p /\ Z.of_nat (length ids) = capacity p /\
    0 <= free_count p <= capacity p /\ NoDup (free_stack p ids) /\
    (forall z, z ∈ free_stack p ids -> exists id f, z = Z.of_nat id /\ fs !! id = Some f /\ in_use f = false) /\
    (forall id, id ∈ used <-> exists f, fs !! id = Some f /\ in_use f = true) /\
    Z.of_nat (size used) = capacity p - free_count p /\
    counts_live (capacity p - free_count p) (resources p).

Ltac pool_simpl :=
  cbn [flows free_ids capacity free_count resources base];
  unfold placed, free_stack in *; cbn [base capacity free_count].

Lemma pool_index_spec p used address :
  pool_rel p used ->
  match tg_flow_pool_index p address with
  | Some z => exists id : nat, z = Z.of_nat id /\ Z.of_nat id < capacity p /\ address = element_address p id
  | None => forall id : nat, Z.of_nat id < capacity p -> address <> element_address p id
  end.
Proof.
  intros (fs & ids & Hfs & _ & (Hs & Hb & Hc & He) & _).
  unfold tg_flow_pool_index, element_address. rewrite Hfs. cbv zeta.
  rewrite u64_small by (unfold in_u64; nia).
  destruct ((address =? 0) || (address <? base p) || (base p + capacity p * flow_size <=? address)) eqn:E.
  { intros id Hid ->. rewrite !orb_true_iff in E. destruct E as [[E|E]|E]; bprop; nia. }
  bprop. destruct (Z.eqb_spec ((address - base p) mod flow_size) 0) as [Hm|Hm]; cbn [negb].
  - pose proof (Z.div_mod (address - base p) flow_size ltac:(lia)) as Hd.
    assert (0 <= (address - base p) / flow_size < capacity p)
      by (split; [apply Z.div_pos; lia|apply Z.div_lt_upper_bound; lia]).
    exists (Z.to_nat ((address - base p) / flow_size)).
    rewrite u32_small by (unfold in_u32; lia). rewrite Z2Nat.id by lia. split_and!; [done|lia|lia].
  - intros id Hid ->. apply Hm. replace (base p + Z.of_nat id * flow_size - base p)
      with (Z.of_nat id * flow_size) by lia. apply Z.mod_mul. lia.
Qed.

(** Growing and shrinking the stack of free indices. *)
Lemma take_pred (ids : list Z) n :
  0 < n <= Z.of_nat (length ids) ->
  exists z, ids !! Z.to_nat (n - 1) = Some z /\
    take (Z.to_nat n) ids = take (Z.to_nat (n - 1)) ids ++ [z].
Proof.
  intros Hn. destruct (ids !! Z.to_nat (n - 1)) as [z|] eqn:E.
  2:{ apply lookup_ge_None_1 in E. lia. }
  exists z. split; [done|]. replace (Z.to_nat n) with (S (Z.to_nat (n - 1))) by lia.
  by apply take_S_r.
Qed.
Lemma take_succ_insert (ids : list Z) n z :
  0 <= n < Z.of_nat (length ids) ->
  take (Z.to_nat (n + 1)) (<[Z.to_nat n := z]> ids) = take (Z.to_nat n) ids ++ [z].
Proof.
  intros Hn. replace (Z.to_nat (n + 1)) with (S (Z.to_nat n)) by lia.
  rewrite (take_S_r _ _ z) by (apply list_lookup_insert_eq; lia).
  by rewrite take_insert_ge by lia.
Qed.

Lemma pool_get_step p used :
  pool_rel p used ->
  match tg_flow_pool_get p with
  | (inr z, p') => exists id fs, z = Z.of_nat id /\ flows p' = Some fs /\ (id ∉ used)
      /\ Z.of_nat id < capacity p /\ fs !! id = Some (mk_flow false true fresh)
      /\ pool_rel p' ({[id]} ∪ used)
  | (inl e, p') => e = ENOBUFS /\ Z.of_nat (size used) = capacity p /\ pool_rel p' used
  end.
Proof.
  intros (fs & ids & Hfs & Hids & Hpl & Hlf & Hli & Hfc & Hnd & Hfree & Hused & Hsz & Hcnt).
  unfold tg_flow_pool_get. rewrite Hfs, Hids.
  destruct (Z.eqb_spec (free_count p) 0) as [H0|H0].
  { split_and!; [done|lia|]. exists fs, ids. pool_simpl. split_and!; try done || lia || tauto. }
  destruct (take_pred ids (free_count p)) as (z & Hz & Htake); [lia|].
  unfold free_stack in *. rewrite Htake in Hnd, Hfree.
  apply NoDup_app in Hnd as (Hnd & Hdis & _).
  destruct (Hfree z) as (id & f & -> & Hf & Hu);
    [apply elem_of_app; right; by apply list_elem_of_singleton|].
  assert (id ∉ used) as Hid by (rewrite Hused; intros (g & Hg & Hgu); congruence).
  pose proof (lookup_lt_Some _ _ _ Hf). unfold placed in Hpl.
  cbv zeta. rewrite Hz. change (default 0 (Some ?x)) with x. rewrite Nat2Z.id.
  eexists id, _. cbn [flows capacity]. split_and!; [done|done|done|lia| |].
  { by rewrite list_lookup_alter_eq, Hf. }
  eexists _, ids. pool_simpl. rewrite length_alter.
  split_and!; try done || lia || tauto.
  - intros z' Hz'. destruct (Hfree z') as (id' & f' & -> & Hf' & Hu'); [apply elem_of_app; by left|].
    exists id', f'. split_and!; [done| |done].
    rewrite list_lookup_alter_ne; [done|]. intros <-. apply (Hdis _ Hz'). by apply list_elem_of_singleton.
  - intros id'. rewrite elem_of_union, elem_of_singleton, Hused.
    destruct (decide (id' = id)) as [->|Hne].
    + rewrite list_lookup_alter_eq, Hf. split; [|by left]. intros _. by eexists.
    + rewrite list_lookup_alter_ne by done. split; [by intros [?|?]|by right].
  - rewrite size_union by set_solver. rewrite size_singleton. lia.
  - replace (capacity p - (free_count p - 1)) with (capacity p - free_count p + 1) by lia.
    apply acquire_counts; [done|lia|lia].
Qed.

Lemma pool_put_step p used address :
  pool_rel p used ->
  match tg_flow_pool_put p address with
  | (inr _, p') => exists id, address = element_address p id /\ id ∈ used /\ pool_rel p' (used ∖ {[id]})
  | (inl EINVAL, p') => p' = p /\ forall id, Z.of_nat id < capacity p -> address <> element_address p id
  | (inl EBUSY, p') => p' = p /\ exists id fs f, address = element_address p id
      /\ flows p = Some fs /\ fs !! id = Some f /\ mapped f = true
  | (inl EALREADY, p') => p' = p /\ exists id, address = element_address p id /\ id ∉ used
  | (inl _, _) => False
  end.
Proof.
  intros Hrel. pose proof (pool_index_spec p used address Hrel) as Hidx.
  destruct Hrel as (fs & ids & Hfs & Hids & Hpl & Hlf & Hli & Hfc & Hnd & Hfree & Hused & Hsz & Hcnt).
  unfold tg_flow_pool_put. rewrite Hfs, Hids.
  destruct (tg_flow_pool_index p address) as [z|]; [|done].
  destruct Hidx as (id & -> & Hid & ->). cbv zeta. rewrite Nat2Z.id.
  destruct (fs !! id) as [f|] eqn:Hf; [|apply lookup_ge_None_1 in Hf; lia]. change (default _ (Some ?x)) with x.
  destruct (mapped f) eqn:Hm. { split; [done|]. by eexists id, fs, f. }
  destruct (in_use f) eqn:Hu; cbn [negb].
  2:{ split; [done|]. exists id. split; [done|]. rewrite Hused. intros (g & Hg & Hgu). congruence. }
  assert (id ∈ used) as Hin by (apply Hused; eauto).
  assert (1 <= size used)%nat
    by (rewrite <- (size_singleton (C := gset nat) id); apply subseteq_size, singleton_subseteq_l, Hin).
  destruct (Z.leb_spec (capacity p) (free_count p)); [lia|].
  exists id. split_and!; [done|done|].
  exists (alter tg_flow_reset id fs), (<[Z.to_nat (free_count p) := Z.of_nat id]> ids).
  pool_simpl. rewrite length_alter, length_insert, take_succ_insert by lia.
  assert (Z.of_nat id ∉ take (Z.to_nat (free_count p)) ids) as Hnf.
  { intros Hz. apply Hfree in Hz as (id' & g & Hi & Hg & Hgu). simplify_eq. congruence. }
  split_and!; try done || lia || tauto.
  - apply NoDup_app. split_and!; [done| |apply NoDup_singleton].
    intros z Hz ->%list_elem_of_singleton. done.
  - intros z. rewrite elem_of_app, list_elem_of_singleton.
    intros [Hz| ->].
    + destruct (Hfree z Hz) as (id' & f' & -> & Hf' & Hu'). exists id', f'. split_and!; [done| |done].
      rewrite list_lookup_alter_ne; [done|]. intros <-. congruence.
    + exists id. rewrite list_lookup_alter_eq, Hf. by eexists.
  - intros id'. rewrite elem_of_difference, elem_of_singleton, Hused.
    destruct (decide (id' = id)) as [->|Hne].
    + rewrite list_lookup_alter_eq, Hf. split; [tauto|]. intros (g & [= <-] & Hgu). discriminate Hgu.
    + rewrite list_lookup_alter_ne by done. tauto.
  - rewrite size_difference by (by apply singleton_subseteq_l). rewrite size_singleton. lia.
  - replace (capacity p - (free_count p + 1)) with (capacity p - free_count p - 1) by lia.
    apply release_counts; [done|lia].
Qed.

Lemma pool_write_step p used id m b : pool_rel p used -> pool_rel (flow_write id m b p) used.
Proof.
  intros (fs & ids & Hfs & Hids & Hpl & Hlf & Hli & Hfc & Hnd & Hfree & Hused & Hsz & Hcnt).
  unfold flow_write. rewrite Hfs. eexists _, ids. cbn [fmap option_fmap option_map]. pool_simpl.
  rewrite length_alter. split_and!; try done || lia || tauto.
  - intros z Hz. destruct (Hfree z Hz) as (i & f & -> & Hf & Hu).
    destruct (decide (i = id)) as [->|]; [|exists i, f; by rewrite list_lookup_alter_ne].
    exists id. rewrite list_lookup_alter_eq, Hf. by eexists.
  - intros i. rewrite Hused. destruct (decide (i = id)) as [->|]; [|by rewrite list_lookup_alter_ne].
    rewrite list_lookup_alter_eq. destruct (fs !! id) as [f|]; [|done].
    split; intros (g & [= <-] & Hg); by eexists.
Qed.

Lemma pool_init_rel cap addr storage p0 :
  0 < flow_size -> 0 < addr -> 0 < cap < 4294967296 -> addr + cap * flow_size < 18446744073709551616 ->
  Z.of_nat (length storage) = cap ->
  exists p, tg_flow_pool_init cap (Some (addr, storage)) p0 = (inr tt, p) /\ pool_rel p ∅.
Proof.
  intros H1 H2 H3 H4 H5. unfold tg_flow_pool_init. destruct (Z.eqb_spec cap 0); [lia|].
  eexists. split; [done|]. eexists _, _. split; [done|]. split; [done|]. pool_simpl.
  rewrite !length_map, length_seq, take_ge by (rewrite length_map, length_seq; lia).
  assert (forall i, i ∈ seq 0 (Z.to_nat cap) -> u32 (cap - 1 - Z.of_nat i) = cap - 1 - Z.of_nat i) as Hu
    by (intros i Hi; apply elem_of_seq in Hi; apply u32_small; unfold in_u32; lia).
  split_and!; try done || lia.
  - apply NoDup_fmap_2_strong; [|apply NoDup_seq]. intros a b Ha Hb. rewrite !Hu by done. lia.
  - intros z Hz. apply list_elem_of_fmap in Hz as (i & -> & Hi). rewrite Hu by done.
    apply elem_of_seq in Hi. destruct (lookup_lt_is_Some_2 storage (Z.to_nat (cap - 1 - Z.of_nat i))) as [f Hf]; [lia|].
    exists (Z.to_nat (cap - 1 - Z.of_nat i)), (tg_flow_reset f). split_and!; [lia| |done].
    rewrite list_lookup_fmap, Hf. done.
  - intros id. split; [set_solver|]. intros (f & Hf & Hin). apply list_lookup_fmap_Some in Hf as (g & -> & _). done.
  - rewrite size_empty. lia.
  - unfold counts_live. cbn. lia.
Qed.

(** ** Histories *)

(** [used] is what the history says: the indices handed out and not yet
    taken back. *)
Inductive reach : tg_flow_pool -> gset nat -> Prop :=
| reach_init cap addr storage p0 p :
    0 < flow_size -> 0 < addr -> 0 < cap < 4294967296 ->
    addr + cap * flow_size < 18446744073709551616 -> Z.of_nat (length storage) = cap ->
    tg_flow_pool_init cap (Some (addr, storage)) p0 = (inr tt, p) -> reach p ∅
| reach_get p used id p' :
    reach p used -> tg_flow_pool_get p = (inr id, p') -> reach p' ({[Z.to_nat id]} ∪ used)
| reach_get_refused p used e p' :
    reach p used -> tg_flow_pool_get p = (inl e, p') -> reach p' used
| reach_put p used id p' :
    reach p used -> tg_flow_pool_put p (element_address p id) = (inr tt, p') ->
    reach p' (used ∖ {[id]})
| reach_put_refused p used address e p' :
    reach p used -> tg_flow_pool_put p address = (inl e, p') -> reach p' used
| reach_write p used id m b :
    reach p used -> reach (flow_write id m b p) used.

Lemma element_address_inj p used i j :
  pool_rel p used -> element_address p i = element_address p j -> i = j.
Proof.
  intros (fs & ids & _ & _ & Hpl & _). unfold placed, element_address in *. intros H.
  assert (Z.of_nat i * flow_size = Z.of_nat j * flow_size) by lia. nia.
Qed.

Lemma reach_rel p used : reach p used -> pool_rel p used.
Proof.
  induction 1 as [cap addr storage p0 p Hs Ha Hc Hm Hl Hi | p used id p' _ IH Hg | p used e p' _ IH Hg
                 | p used id p' _ IH Hp | p used address e p' _ IH Hp | p used id m b _ IH].
  - destruct (pool_init_rel cap addr storage p0) as (q & Hq & Hr); try done. rewrite Hq in Hi. by injection Hi as <-.
  - apply pool_get_step in IH. rewrite Hg in IH. destruct IH as (i & fs & -> & _ & _ & _ & _ & Hr).
    by rewrite Nat2Z.id.
  - apply pool_get_step in IH. rewrite Hg in IH. tauto.
  - pose proof (pool_put_step p used (element_address p id) IH) as Hs. rewrite Hp in Hs.
    destruct Hs as (i & Hi & _ & Hr). by rewrite (element_address_inj p used id i IH Hi).
  - pose proof (pool_put_step p used address IH) as Hs. rewrite Hp in Hs.
    destruct e; try done; by destruct Hs as [-> _].
  - by apply pool_write_step.
Qed.

(** In every history of gets, puts and writes to flows, a get returns an
    index that is not held by anyone, with the flow reset and marked in use,
    and refuses only when all of the capacity is held. *)
Theorem flow_pool_get_exclusive p used :
  reach p used ->
  match tg_flow_pool_get p with
  | (inr z, p') => exists id fs, z = Z.of_nat id /\ (id ∉ used) /\ Z.of_nat id < capacity p
      /\ flows p' = Some fs /\ fs !! id = Some (mk_flow false true fresh)
  | (inl e, p') => e = ENOBUFS /\ Z.of_nat (size used) = capacity p
  end.
Proof.
  intros H%reach_rel%pool_get_step. destruct (tg_flow_pool_get p) as [[e|z] p']; [tauto|].
  destruct H as (id & fs & -> & Hf & Hn & Hc & Hl & _). by exists id, fs.
Qed.

(** A put succeeds on exactly the held elements that are not mapped; it
    reports a pointer that is not an element of the storage, a mapped flow
    and a second return of the same flow with their own error and leaves the
    pool unchanged; the overflow error never occurs. *)
Theorem flow_pool_put_checked p used address :
  reach p used ->
  match tg_flow_pool_put p address with
  | (inr _, p') => exists id, address = element_address p id /\ id ∈ used
      /\ free_count p' = free_count p + 1
  | (inl EINVAL, p') => p' = p /\ forall id, Z.of_nat id < capacity p -> address <> element_address p id
  | (inl EBUSY, p') => p' = p /\ exists id fs f, address = element_address p id
      /\ flows p = Some fs /\ fs !! id = Some f /\ mapped f = true
  | (inl EALREADY, p') => p' = p /\ exists id, address = element_address p id /\ id ∉ used
  | (inl _, _) => False
  end.
Proof.
  intros H%reach_rel. pose proof (pool_put_step p used address H) as Hs.
  destruct (tg_flow_pool_put p address) as [[e|[]] p'] eqn:E; [done|].
  destruct Hs as (id & Ha & Hu & _). exists id. split_and!; [done|done|].
  unfold tg_flow_pool_put in E. repeat case_match; simplify_eq; done.
Qed.

(** The resource gauge of the pool always shows the number of flows
    handed out, and the free stack and the held set split the capacity. *)
Theorem flow_pool_gauge p used :
  reach p used ->
  r_current (resources p) = Z.of_nat (size used) /\
  Z.of_nat (size used) + free_count p = capacity p /\ Z.of_nat (size used) <= r_peak (resources p).
Proof.
  intros (fs & ids & _ & _ & _ & _ & _ & _ & _ & _ & _ & Hs & [Hc Hp])%reach_rel. lia.
Qed.
End FlowPool.

Definition demo_pool : tg_flow_pool :=
  snd (tg_flow_pool_init tt 2 (Some (4096, [mk_flow true true tt; mk_flow false true tt])) fpool_zero).
Definition demo_pool1 : tg_flow_pool := snd (tg_flow_pool_get tt demo_pool).

Lemma demo_reach : reach tt 64 demo_pool ∅.
Proof.
  apply (reach_init _ _ 2 4096 [mk_flow true true tt; mk_flow false true tt] fpool_zero);
    reflexivity || lia.
Qed.
Lemma demo_reach1 : reach tt 64 demo_pool1 ({[0%nat]} ∪ ∅).
Proof. eapply (reach_get _ _ demo_pool ∅ 0); [apply demo_reach|reflexivity]. Qed.

Lemma flow_pool_get_exclusive_witness : exists z, fst (tg_flow_pool_get tt demo_pool1) = inr z /\ z <> 0.
Proof.
  pose proof (flow_pool_get_exclusive tt 64 demo_pool1 _ demo_reach1) as H.
  destruct (tg_flow_pool_get tt demo_pool1) as [[e|z] p'] eqn:E; [vm_compute in E; discriminate E|].
  exists z. split; [done|]. destruct H as (id & fs & -> & Hn & _). intros H0. apply Hn, elem_of_union_l, elem_of_singleton. lia.
Defined.

(** Index 1 is free: returning it again is refused as a double return. *)
Lemma flow_pool_put_checked_witness :
  fst (tg_flow_pool_put tt 64 demo_pool1 (4096 + 64)) = inl EALREADY /\
  exists id, 4096 + 64 = element_address 64 demo_pool1 id /\ id ∉ ({[0%nat]} ∪ ∅ : gset nat).
Proof.
  pose proof (flow_pool_put_checked tt 64 demo_pool1 _ (4096 + 64) demo_reach1) as H.
  destruct (tg_flow_pool_put tt 64 demo_pool1 (4096 + 64)) as [r p'] eqn:E.
  assert (r = inl EALREADY) as -> by (vm_compute in E; congruence).
  split; [done|]. exact (proj2 H).
Defined.

Lemma flow_pool_gauge_witness : r_current (resources demo_pool1) = 1.
Proof. by destruct (flow_pool_gauge tt 64 demo_pool1 _ demo_reach1) as (-> & _). Defined.
