(* ===== verification/OwnerTimer.v ===== *)
(** * Owner-local timers on the hierarchical wheel (pro-stack/owner_timer.c,
      built with OWNER_TIMER_WHEEL)

    One owner's engine together with the timer nodes it may touch.  A timer is
    named by its address.  The intrusive doubly-linked lists (the buckets, the
    immediate queue, a poll's ready queue and the active list) are the lists
    of the addresses they link, and a node's [whead] is the list that links
    it.  [hz] is the clock rate; every function that reads the clock takes the
    reading as an argument. *)

From stdpp Require Import gmap.
From S2P Require Import Prelude Config.

Definition WHEEL_LEVELS : Z := 8.
Definition WHEEL_SLOTS : Z := 256.
Definition WHEEL_BUCKETS : Z := WHEEL_LEVELS * WHEEL_SLOTS.

(** The list heads a wheel node can hang on. *)
Inductive whead_t := HBucket (b : Z) | HImmediate | HReady.
#[global] Instance whead_eq_dec : EqDecision whead_t.
Proof. solve_decision. Defined.

Record owner_timer := mk_timer {
  has_callback : bool;
  tm_engine : option Z;
  deadline_cycles : Z;
  tm_initialized : bool;
  armed : bool;
  tick : Z;
  whead : option whead_t
}.

Definition with_has_callback (v : bool) (s : owner_timer) : owner_timer :=
  mk_timer v (tm_engine s) (deadline_cycles s) (tm_initialized s) (armed s)
   (tick s) (whead s) .
Definition with_tm_engine (v : option Z) (s : owner_timer) : owner_timer :=
  mk_timer (has_callback s) v (deadline_cycles s) (tm_initialized s)
   (armed s) (tick s) (whead s) .
Definition with_deadline_cycles (v : Z) (s : owner_timer) : owner_timer :=
  mk_timer (has_callback s) (tm_engine s) v (tm_initialized s) (armed s)
   (tick s) (whead s) .
Definition with_tm_initialized (v : bool) (s : owner_timer) : owner_timer :=
  mk_timer (has_callback s) (tm_engine s) (deadline_cycles s) v (armed s)
   (tick s) (whead s) .
Definition with_armed (v : bool) (s : owner_timer) : owner_timer :=
  mk_timer (has_callback s) (tm_engine s) (deadline_cycles s)
   (tm_initialized s) v (tick s) (whead s) .
Definition with_tick (v : Z) (s : owner_timer) : owner_timer :=
  mk_timer (has_callback s) (tm_engine s) (deadline_cycles s)
   (tm_initialized s) (armed s) v (whead s) .
Definition with_whead (v : option whead_t) (s : owner_timer) : owner_timer :=
  mk_timer (has_callback s) (tm_engine s) (deadline_cycles s)
   (tm_initialized s) (armed s) (tick s) v.

Record owner_timer_wheel := mk_wheel {
  buckets : gmap Z (list Z);
  occupied : gmap Z Z;
  immediate : list Z;
  ready : list Z;
  cursor : Z;
  next_tick : Z;
  next_cycles : Z;
  polling : bool
}.

Definition with_buckets (v : gmap Z (list Z)) (s : owner_timer_wheel) : owner_timer_wheel :=
  mk_wheel v (occupied s) (immediate s) (ready s) (cursor s) (next_tick s)
   (next_cycles s) (polling s) .
Definition with_occupied (v : gmap Z Z) (s : owner_timer_wheel) : owner_timer_wheel :=
  mk_wheel (buckets s) v (immediate s) (ready s) (cursor s) (next_tick s)
   (next_cycles s) (polling s) .
Definition with_immediate (v : list Z) (s : owner_timer_wheel) : owner_timer_wheel :=
  mk_wheel (buckets s) (occupied s) v (ready s) (cursor s) (next_tick s)
   (next_cycles s) (polling s) .
Definition with_ready (v : list Z) (s : owner_timer_wheel) : owner_timer_wheel :=
  mk_wheel (buckets s) (occupied s) (immediate s) v (cursor s) (next_tick s)
   (next_cycles s) (polling s) .
Definition with_cursor (v : Z) (s : owner_timer_wheel) : owner_timer_wheel :=
  mk_wheel (buckets s) (occupied s) (immediate s) (ready s) v (next_tick s)
   (next_cycles s) (polling s) .
Definition with_next_tick (v : Z) (s : owner_timer_wheel) : owner_timer_wheel :=
  mk_wheel (buckets s) (occupied s) (immediate s) (ready s) (cursor s) v
   (next_cycles s) (polling s) .
Definition with_next_cycles (v : Z) (s : owner_timer_wheel) : owner_timer_wheel :=
  mk_wheel (buckets s) (occupied s) (immediate s) (ready s) (cursor s)
   (next_tick s) v (polling s) .
Definition with_polling (v : bool) (s : owner_timer_wheel) : owner_timer_wheel :=
  mk_wheel (buckets s) (occupied s) (immediate s) (ready s) (cursor s)
   (next_tick s) (next_cycles s) v.

Record owner_timer_engine := mk_engine {
  lcore_id : Z;
  e_capacity : Z;
  e_active : Z;
  e_resources : resource_metric;
  active_list : list Z;
  wheel : owner_timer_wheel;
  e_initialized : bool;
  timers : gmap Z owner_timer
}.

Definition with_lcore_id (v : Z) (s : owner_timer_engine) : owner_timer_engine :=
  mk_engine v (e_capacity s) (e_active s) (e_resources s) (active_list s)
   (wheel s) (e_initialized s) (timers s) .
Definition with_e_capacity (v : Z) (s : owner_timer_engine) : owner_timer_engine :=
  mk_engine (lcore_id s) v (e_active s) (e_resources s) (active_list s)
   (wheel s) (e_initialized s) (timers s) .
Definition with_e_active (v : Z) (s : owner_timer_engine) : owner_timer_engine :=
  mk_engine (lcore_id s) (e_capacity s) v (e_resources s) (active_list s)
   (wheel s) (e_initialized s) (timers s) .
Definition with_e_resources (v : resource_metric) (s : owner_timer_engine) : owner_timer_engine :=
  mk_engine (lcore_id s) (e_capacity s) (e_active s) v (active_list s)
   (wheel s) (e_initialized s) (timers s) .
Definition with_active_list (v : list Z) (s : owner_timer_engine) : owner_timer_engine :=
  mk_engine (lcore_id s) (e_capacity s) (e_active s) (e_resources s) v
   (wheel s) (e_initialized s) (timers s) .
Definition with_wheel (v : owner_timer_wheel) (s : owner_timer_engine) : owner_timer_engine :=
  mk_engine (lcore_id s) (e_capacity s) (e_active s) (e_resources s)
   (active_list s) v (e_initialized s) (timers s) .
Definition with_e_initialized (v : bool) (s : owner_timer_engine) : owner_timer_engine :=
  mk_engine (lcore_id s) (e_capacity s) (e_active s) (e_resources s)
   (active_list s) (wheel s) v (timers s) .
Definition with_timers (v : gmap Z owner_timer) (s : owner_timer_engine) : owner_timer_engine :=
  mk_engine (lcore_id s) (e_capacity s) (e_active s) (e_resources s)
   (active_list s) (wheel s) (e_initialized s) v.

Definition timer_alter (f : owner_timer -> owner_timer) (id : Z) (e : owner_timer_engine)
    : owner_timer_engine := with_timers (alter f id (timers e)) e.
Definition wheel_alter (f : owner_timer_wheel -> owner_timer_wheel) (e : owner_timer_engine)
    : owner_timer_engine := with_wheel (f (wheel e)) e.

Definition wlist (h : whead_t) (w : owner_timer_wheel) : list Z :=
  match h with
  | HBucket b => default [] (buckets w !! b)
  | HImmediate => immediate w
  | HReady => ready w
  end.
Definition set_wlist (h : whead_t) (l : list Z) (w : owner_timer_wheel) : owner_timer_wheel :=
  match h with
  | HBucket b => with_buckets (<[b := l]> (buckets w)) w
  | HImmediate => with_immediate l w
  | HReady => with_ready l w
  end.
Definition remove_id (id : Z) (l : list Z) : list Z := List.filter (fun x => negb (x =? id)) l.

(** [occupied[level][word]]. *)
Definition occ (w : owner_timer_wheel) (level word : Z) : Z :=
  default 0 (occupied w !! (level * 4 + word)).
Definition set_occ (level word v : Z) (w : owner_timer_wheel) : owner_timer_wheel :=
  with_occupied (<[level * 4 + word := v]> (occupied w)) w.

(** ** Active list *)

Definition owner_timer_active_link (id : Z) (e : owner_timer_engine) : owner_timer_engine :=
  timer_alter (with_armed true) id
    (with_e_resources (resource_acquire 1 (e_resources e))
      (with_e_active (u32 (e_active e + 1))
        (with_active_list (id :: active_list e) e))).

Definition owner_timer_active_unlink (id : Z) (e : owner_timer_engine) : owner_timer_engine :=
  match timers e !! id with
  | Some t =>
      if negb (armed t) || bool_decide (tm_engine t = None) then e
      else
        let e1 := timer_alter (with_armed false) id (with_active_list (remove_id id (active_list e)) e) in
        if e_active e1 =? 0 then e1
        else with_e_resources (resource_release 1 (e_resources e1)) (with_e_active (e_active e1 - 1) e1)
  | None => e
  end.

Section Clock.
Context (hz : Z).

(** ** The wheel *)

Definition wheel_tick (cycles : Z) (round_up : bool) : Z :=
  if hz =? 0 then 0
  else
    let ticks := u128 (cycles * 1000) in
    let ticks := if round_up then u128 (ticks + u64 (hz - 1)) else ticks in
    let ticks := ticks / hz in
    if UINT64_MAX <? ticks then UINT64_MAX else ticks.

Definition wheel_link (id : Z) (h : whead_t) (e : owner_timer_engine) : owner_timer_engine :=
  timer_alter (with_whead (Some h)) id
    (wheel_alter (fun w => set_wlist h (id :: wlist h w) w) e).

Definition wheel_unlink (id : Z) (e : owner_timer_engine) : owner_timer_engine :=
  match timers e !! id ≫= whead with
  | None => e
  | Some h =>
      let l := remove_id id (wlist h (wheel e)) in
      timer_alter (with_whead None) id
        (wheel_alter (fun w =>
           let w1 := set_wlist h l w in
           match h with
           | HBucket b =>
               if bool_decide (l = []) && (b <? WHEEL_BUCKETS)
               then let lv := b / 256 in let wd := b mod 256 / 64 in
                    set_occ lv wd (Z.land (occ w1 lv wd)
                                     (Z.lxor UINT64_MAX (u64 (Z.shiftl 1 (b mod 64))))) w1
               else w1
           | _ => w1
           end) e)
  end.

Definition wheel_boundary (cur level slot : Z) : Z :=
  let shift := level * 8 in
  let prefix :=
    if level =? 7 then 0
    else Z.land cur (Z.lxor UINT64_MAX (Z.shiftr UINT64_MAX (64 - (shift + 8)))) in
  Z.lor prefix (u64 (Z.shiftl slot shift)).

Definition wheel_cache_next (w : owner_timer_wheel) : owner_timer_wheel :=
  let cycles := u128 (next_tick w * hz + 999) / 1000 in
  with_next_cycles (if UINT64_MAX <? cycles then UINT64_MAX else cycles) w.

Definition wheel_schedule (id : Z) (e : owner_timer_engine) : owner_timer_engine :=
  let tk := match timers e !! id with Some t => tick t | None => 0 end in
  let cur := cursor (wheel e) in
  if tk <=? cur then wheel_link id HImmediate e
  else
    let level := (63 - clz64 (Z.lxor tk cur)) / 8 in
    let slot := Z.land (Z.shiftr tk (8 * level)) 255 in
    let bucket := level * 256 + slot in
    wheel_alter (fun w =>
      let w1 := set_occ level (slot / 64)
                  (Z.lor (occ w level (slot / 64)) (u64 (Z.shiftl 1 (slot mod 64)))) w in
      let boundary := wheel_boundary (cursor w1) level slot in
      if boundary <? next_tick w1 then wheel_cache_next (with_next_tick boundary w1) else w1)
      (wheel_link id (HBucket bucket) e).

(** The first nonzero word of a level. *)
Fixpoint first_slot (w : owner_timer_wheel) (level : Z) (words : list Z) : option Z :=
  match words with
  | [] => None
  | word :: t =>
      let bits := occ w level word in
      if bits =? 0 then first_slot w level t else Some (word * 64 + ctz64 bits)
  end.

(** The level loop: the selected bucket and [next_tick]. *)
Fixpoint next_levels (w : owner_timer_wheel) (levels : list Z) (acc : Z * Z) : Z * Z :=
  match levels with
  | [] => acc
  | level :: t =>
      next_levels w t
        match first_slot w level [0; 1; 2; 3] with
        | None => acc
        | Some slot =>
            let boundary := wheel_boundary (cursor w) level slot in
            if (fst acc =? WHEEL_BUCKETS) || (boundary <? snd acc)
            then (level * 256 + slot, boundary) else acc
        end
  end.

Definition wheel_next (w : owner_timer_wheel) : Z * owner_timer_wheel :=
  let '(selected, nt) := next_levels w [0; 1; 2; 3; 4; 5; 6; 7] (WHEEL_BUCKETS, UINT64_MAX) in
  (selected, wheel_cache_next (with_next_tick nt w)).

(** ** Poll *)

(** Moving the immediate queue to the ready queue. *)
Fixpoint move_immediate (fuel : nat) (e : owner_timer_engine) : owner_timer_engine :=
  match fuel with
  | O => e
  | S f =>
      match immediate (wheel e) with
      | [] => e
      | id :: _ => move_immediate f (wheel_link id HReady (wheel_unlink id e))
      end
  end.

(** Draining one bucket into the ready queue and the lower levels. *)
Fixpoint drain_bucket (fuel : nat) (bucket target now : Z) (e : owner_timer_engine)
    : owner_timer_engine :=
  match fuel with
  | O => e
  | S f =>
      match wlist (HBucket bucket) (wheel e) with
      | [] => e
      | id :: _ =>
          let e1 := wheel_unlink id e in
          let due := match timers e1 !! id with
                     | Some t => (tick t <=? target) && (deadline_cycles t <=? now)
                     | None => false
                     end in
          drain_bucket f bucket target now
            (if due then wheel_link id HReady e1 else wheel_schedule id e1)
      end
  end.

Fixpoint cascade (fuel : nat) (target now : Z) (e : owner_timer_engine) : owner_timer_engine :=
  match fuel with
  | O => e
  | S f =>
      if negb (next_tick (wheel e) <=? target) then e
      else
        let '(bucket, w1) := wheel_next (wheel e) in
        if (bucket =? WHEEL_BUCKETS) || (target <? next_tick w1) then with_wheel w1 e
        else
          let e1 := with_wheel (with_cursor (next_tick w1) w1) e in
          let e2 := drain_bucket (length (wlist (HBucket bucket) (wheel e1))) bucket target now e1 in
          cascade f target now (wheel_alter (fun w => snd (wheel_next w)) e2)
  end.

(** Every round of [cascade] moves each timer of one bucket to the ready
    queue or to a lower level, so eight rounds per timer suffice
    ([OwnerTimerCascade.cascade_spec]). *)
Definition cascade_fuel (e : owner_timer_engine) : nat := S (8 * size (timers e)).

(** Everything of [wheel_poll] before the callbacks. *)
Definition wheel_collect (now : Z) (e : owner_timer_engine) : owner_timer_engine :=
  let target := wheel_tick now (now =? UINT64_MAX) in
  let e1 := wheel_alter (with_polling true) e in
  let e2 := move_immediate (length (immediate (wheel e1))) (wheel_alter (with_ready []) e1) in
  let e3 := cascade (cascade_fuel e2) target now e2 in
  if cursor (wheel e3) <? target then wheel_alter (with_cursor target) e3 else e3.

(** ** Arming and cancelling *)

Definition owner_timer_on_owner (caller : Z) (e : owner_timer_engine) : bool :=
  e_initialized e && (caller =? lcore_id e).

(** The caller's registered engine is this one when it runs on its lcore; a
    caller on another lcore works on another engine and is refused a timer
    of this one. *)
Definition owner_timer_arm_at (caller id deadline now : Z) (e : owner_timer_engine)
    : (errno + unit) * owner_timer_engine :=
  match timers e !! id with
  | None => (inl EINVAL, e)
  | Some t =>
      if negb (tm_initialized t) || negb (has_callback t) then (inl EINVAL, e)
      else if negb (owner_timer_on_owner caller e) then (inl EPERM, e)
      else if negb (bool_decide (tm_engine t = None) || bool_decide (tm_engine t = Some (lcore_id e)))
      then (inl EPERM, e)
      else
        let newly_armed := negb (armed t) in
        if newly_armed && (e_capacity e <=? e_active e)
        then (inl ENOSPC, with_e_resources (resource_exhausted (e_resources e)) e)
        else
          let e1 := if armed t then wheel_unlink id e else e in
          let e2 := timer_alter (fun t => with_deadline_cycles deadline
                                            (with_tm_engine (Some (lcore_id e)) t)) id e1 in
          let e3 := if newly_armed then owner_timer_active_link id e2 else e2 in
          let e4 := timer_alter (with_tick (wheel_tick deadline true)) id e3 in
          (inr tt, if deadline <=? now then wheel_link id HImmediate e4 else wheel_schedule id e4)
  end.

Definition owner_timer_cancel (caller id : Z) (e : owner_timer_engine)
    : (errno + unit) * owner_timer_engine :=
  match timers e !! id with
  | None => (inl EINVAL, e)
  | Some t =>
      if negb (tm_initialized t) then (inl EINVAL, e)
      else if negb (armed t) then (inr tt, e)
      else if negb (bool_decide (tm_engine t = Some (lcore_id e)) && owner_timer_on_owner caller e)
      then (inl EPERM, e)
      else (inr tt, owner_timer_active_unlink id (wheel_unlink id e))
  end.

Definition owner_timer_is_armed (id : Z) (e : owner_timer_engine) : bool :=
  match timers e !! id with
  | Some t => tm_initialized t && armed t
  | None => false
  end.

Definition owner_timer_init (has_cb : bool) (id : Z) (e : owner_timer_engine) : owner_timer_engine :=
  with_timers (<[id := mk_timer has_cb None 0 true false 0 None]> (timers e)) e.

(** The owner's object with the node is freed. *)
Definition timer_free (id : Z) (e : owner_timer_engine) : owner_timer_engine := with_timers (delete id (timers e)) e.

(** What a callback does to the owner's timers, each arm with its own clock
    reading: it may rearm the timer it is called for, free the object that
    holds it, and arm, cancel, initialize and free any other.  A nested poll
    returns at once while [polling] is set. *)
Inductive timer_op := OpArm (id deadline clock : Z) | OpCancel (id : Z) | OpInit (has_cb : bool) (id : Z) | OpFree (id : Z).

Definition run_op (caller : Z) (e : owner_timer_engine) (op : timer_op) : owner_timer_engine :=
  match op with
  | OpArm id deadline clock => snd (owner_timer_arm_at caller id deadline clock e)
  | OpCancel id => snd (owner_timer_cancel caller id e)
  | OpInit has_cb id => owner_timer_init has_cb id e
  | OpFree id => timer_free id e
  end.

Definition callback_t : Type := Z -> Z -> owner_timer_engine -> list timer_op.

(** The callback loop; the fired timers in order. *)
Fixpoint fire_loop (fuel : nat) (cb : callback_t) (now : Z) (e : owner_timer_engine)
    : list Z * owner_timer_engine :=
  match fuel with
  | O => ([], e)
  | S f =>
      match ready (wheel e) with
      | [] => ([], e)
      | id :: _ =>
          let e1 := owner_timer_active_unlink id (wheel_unlink id e) in
          let e2 := foldl (run_op (lcore_id e1)) e1 (cb id now e1) in
          let '(fired, e3) := fire_loop f cb now e2 in
          (id :: fired, e3)
      end
  end.

Definition wheel_poll (cb : callback_t) (now : Z) (e : owner_timer_engine)
    : list Z * owner_timer_engine :=
  if polling (wheel e) || (e_active e =? 0) then ([], e)
  else if bool_decide (immediate (wheel e) = []) && (now <? next_cycles (wheel e)) then ([], e)
  else
    let e1 := wheel_collect now e in
    let '(fired, e2) := fire_loop (length (ready (wheel e1))) cb now e1 in
    (fired, wheel_alter (with_polling false) e2).

Definition owner_timer_poll (caller : Z) (cb : callback_t) (now : Z) (e : owner_timer_engine)
    : (errno + list Z) * owner_timer_engine :=
  if negb (owner_timer_on_owner caller e) then (inl EPERM, e)
  else let '(fired, e1) := wheel_poll cb now e in (inr fired, e1).

(** ** Engine life cycle and conversions *)

Definition wheel_zero : owner_timer_wheel := mk_wheel ∅ ∅ [] [] 0 0 0 false.

(** [taken] is whether the lcore already has an engine; [alloc] whether the
    wheel was allocated; [max_lcore] is [RTE_MAX_LCORE]. *)
Definition owner_timer_engine_init (max_lcore lcore capacity : Z) (taken alloc : bool) (now : Z)
    (e : owner_timer_engine) : (errno + unit) * owner_timer_engine :=
  if (max_lcore <=? lcore) || (capacity =? 0) then (inl EINVAL, e)
  else if taken then (inl EBUSY, e)
  else
    let r := mk_metric capacity 0 0 0 0 0 0 in
    if negb alloc then (inl ENOMEM, mk_engine lcore capacity 0 r [] wheel_zero false (timers e))
    else
      let w := mk_wheel ∅ ∅ [] [] (wheel_tick now false) UINT64_MAX UINT64_MAX false in
      (inr tt, mk_engine lcore capacity 0 r [] w true (timers e)).

Fixpoint cancel_all (fuel : nat) (caller : Z) (e : owner_timer_engine) : owner_timer_engine :=
  match fuel with
  | O => e
  | S f =>
      match active_list e with
      | [] => e
      | id :: _ => cancel_all f caller (snd (owner_timer_cancel caller id e))
      end
  end.

Definition owner_timer_engine_fini (caller : Z) (e : owner_timer_engine) : owner_timer_engine :=
  if negb (e_initialized e) || negb (owner_timer_on_owner caller e) then e
  else
    let e1 := cancel_all (length (active_list e)) caller e in
    mk_engine 0 0 0 metric_zero [] wheel_zero false (timers e1).

Definition owner_timer_ms_to_cycles (milliseconds : Z) : Z :=
  let seconds := milliseconds / 1000 in
  let remainder := milliseconds mod 1000 in
  if hz =? 0 then 0
  else if UINT64_MAX / hz <? seconds then UINT64_MAX
  else
    let cycles := u64 (seconds * hz) in
    let hz_whole := hz / 1000 in
    let hz_remainder := hz mod 1000 in
    if negb (remainder =? 0) && (UINT64_MAX / remainder <? hz_whole) then UINT64_MAX
    else
      let fractional := u64 (remainder * hz_whole) in
      let fractional_remainder := u64 (remainder * hz_remainder) / 1000 in
      if UINT64_MAX - fractional <? fractional_remainder then UINT64_MAX
      else
        let fractional := fractional + fractional_remainder in
        if UINT64_MAX - cycles <? fractional then UINT64_MAX else cycles + fractional.

Definition owner_timer_cycles_to_ms (cycles : Z) : Z :=
  if hz =? 0 then 0
  else let ms := u128 (cycles * 1000) / hz in if UINT64_MAX <? ms then UINT64_MAX else ms.

(** The delay and the placement read the clock separately. *)
Definition owner_timer_arm_after_ms (caller id delay_ms now clock : Z) (e : owner_timer_engine)
    : (errno + unit) * owner_timer_engine :=
  let delay := owner_timer_ms_to_cycles delay_ms in
  let deadline := if UINT64_MAX - now <? delay then UINT64_MAX else now + delay in
  owner_timer_arm_at caller id deadline clock e.
End Clock.
