(* ===== verification/OwnerTimerPlace.v ===== *)
(** * Timer wheel: the arithmetic of levels, slots and boundaries

    A level is one byte of the tick.  [placed_at c t l s] says that a timer of
    tick [t] belongs in slot [s] of level [l] when the cursor stands at [c]:
    the two agree above byte [l], and byte [l] of [t] is [s] and lies ahead. *)

From S2P Require Import Prelude Config OwnerTimer.

Definition D (l : Z) : Z := 256 ^ l.
Abbreviation W64 := 18446744073709551616.

Lemma D_pos l : 0 <= l -> 0 < D l.
Proof. intros. apply Z.pow_pos_nonneg; lia. Qed.
Lemma D_succ l : 0 <= l -> D (l + 1) = D l * 256.
Proof. intros. unfold D. rewrite Z.pow_add_r by lia. lia. Qed.
Lemma D_pow2 l : 0 <= l -> D l = 2 ^ (8 * l).
Proof. intros. unfold D. change 256 with (2 ^ 8). by rewrite <- Z.pow_mul_r by lia. Qed.
Lemma div_D_succ x l : 0 <= l -> x / D (l + 1) = x / D l / 256.
Proof. intros. pose proof (D_pos l H). rewrite D_succ by lia. by rewrite Z.div_div by lia. Qed.
Lemma div_D_le x y l m : 0 <= l <= m -> x / D l = y / D l -> x / D m = y / D m.
Proof.
  intros Hl He. pose proof (D_pos l ltac:(lia)). pose proof (D_pos (m - l) ltac:(lia)).
  assert (D m = D l * D (m - l)) as -> by (unfold D; rewrite <- Z.pow_add_r by lia; f_equal; lia).
  rewrite <- !Z.div_div by lia. by rewrite He.
Qed.

Definition placed_at (c t l s : Z) : Prop :=
  0 <= l < 8 /\ 0 <= s < 256 /\ t / D (l + 1) = c / D (l + 1) /\
  (t / D l) mod 256 = s /\ c / D l < t / D l.

(** The first tick of the slot that holds [t] at level [l]. *)
Definition slot_start (t l : Z) : Z := t / D l * D l.

Lemma slot_start_le t l : 0 <= l -> slot_start t l <= t < slot_start t l + D l.
Proof.
  intros. pose proof (D_pos l H). unfold slot_start.
  pose proof (Z.mul_div_le t (D l) ltac:(lia)). pose proof (Z.mul_succ_div_gt t (D l) ltac:(lia)). lia.
Qed.

Lemma lt_slot_start c t l : 0 <= l -> c < slot_start t l <-> c / D l < t / D l.
Proof.
  intros. pose proof (D_pos l H). unfold slot_start. split; intros.
  - apply Z.div_lt_upper_bound; lia.
  - pose proof (Z.mul_succ_div_gt c (D l) ltac:(lia)).
    assert (c / D l + 1 <= t / D l) by lia. nia.
Qed.

Lemma mask_high c k :
  0 <= c < W64 -> 0 < k < 64 ->
  Z.land c (Z.lxor UINT64_MAX (Z.shiftr UINT64_MAX (64 - k))) = c / 2 ^ k * 2 ^ k.
Proof.
  intros Hc Hk.
  change UINT64_MAX with (Z.ones 64).
  assert (Z.shiftr (Z.ones 64) (64 - k) = Z.ones k) as ->.
  { rewrite Z.shiftr_div_pow2, Z.ones_div_pow2 by lia. f_equal. lia. }
  rewrite <- Z.shiftl_mul_pow2, <- Z.shiftr_div_pow2 by lia.
  apply Z.bits_inj'. intros n Hn. rewrite Z.land_spec, Z.lxor_spec.
  rewrite Z.shiftl_spec by lia. rewrite !Z.testbit_ones by lia.
  destruct (Z.ltb_spec n k).
  - rewrite (Z.testbit_neg_r _ (n - k)) by lia.
    destruct (Z.leb_spec 0 n); [|lia]. destruct (Z.ltb_spec n 64); [|lia]. cbn. apply andb_false_r.
  - rewrite Z.shiftr_spec by lia. replace (n - k + k) with n by lia.
    destruct (Z.leb_spec 0 n); [|lia]. destruct (Z.ltb_spec n 64); cbn; [apply andb_true_r|].
    rewrite (Z.bits_above_log2 c n); [done|lia|].
    destruct (Z.eq_dec c 0) as [->|]; [cbn; lia|]. apply Z.log2_lt_pow2; [lia|].
    apply Z.lt_le_trans with (2 ^ 64); [lia|]. apply Z.pow_le_mono_r; lia.
Qed.

(** The bit-twiddled boundary is the cursor's prefix with the slot byte. *)
Lemma boundary_eq c l s :
  0 <= c < W64 -> 0 <= l < 8 -> 0 <= s < 256 ->
  wheel_boundary c l s = c / D (l + 1) * D (l + 1) + s * D l.
Proof.
  intros Hc Hl Hs. unfold wheel_boundary. cbv zeta.
  pose proof (D_pos l ltac:(lia)). pose proof (D_succ l ltac:(lia)) as HDs.
  assert (s * D l < W64 /\ 0 <= s * D l) as [Hb Hb0].
  { assert (D l <= D 7) by (unfold D; apply Z.pow_le_mono_r; lia).
    split; [|nia]. change (D 7) with 72057594037927936 in *. nia. }
  rewrite Z.shiftl_mul_pow2, (Z.mul_comm l 8), <- D_pow2, u64_small by (unfold in_u64; lia).
  assert ((if l =? 7 then 0 else Z.land c (Z.lxor UINT64_MAX (Z.shiftr UINT64_MAX (64 - (8 * l + 8)))))
          = c / D (l + 1) * D (l + 1)) as ->.
  { destruct (Z.eqb_spec l 7) as [->|].
    - change (D (7 + 1)) with W64. rewrite Z.div_small by lia. done.
    - rewrite mask_high by lia. by rewrite (D_pow2 (l + 1)), Z.mul_add_distr_l by lia. }
  rewrite (D_pow2 (l + 1)), Z.mul_add_distr_l, Z.mul_1_r by lia.
  set (q := c / 2 ^ (8 * l + 8)). rewrite <- Z.shiftl_mul_pow2 by lia.
  symmetry. rewrite <- Z.add_lor_land.
  assert (Z.land (Z.shiftl q (8 * l + 8)) (s * D l) = 0) as ->; [|lia].
  apply Z.bits_inj'. intros n Hn. rewrite Z.land_spec, Z.bits_0, Z.shiftl_spec by lia.
  destruct (Z.ltb_spec n (8 * l + 8)).
  { by rewrite Z.testbit_neg_r by lia. }
  rewrite (Z.bits_above_log2 (s * D l) n); [apply andb_false_r|lia|].
  destruct (Z.eq_dec (s * D l) 0) as [->|]; [cbn; lia|].
  apply Z.log2_lt_pow2; [lia|]. apply Z.lt_le_trans with (2 ^ (8 * l + 8)).
  - rewrite Z.pow_add_r, <- D_pow2 by lia. change (2 ^ 8) with 256. nia.
  - apply Z.pow_le_mono_r; lia.
Qed.

Lemma placed_boundary c t l s :
  0 <= c < W64 -> placed_at c t l s -> wheel_boundary c l s = slot_start t l.
Proof.
  intros Hc (Hl & Hs & Hp & Hm & _). rewrite boundary_eq by done. unfold slot_start.
  rewrite <- Hp, div_D_succ, D_succ by lia.
  pose proof (Z.div_mod (t / D l) 256 ltac:(lia)) as Hd. rewrite Hm in Hd. nia.
Qed.

Lemma placed_ahead c t l s : placed_at c t l s -> c < slot_start t l /\ slot_start t l <= t.
Proof.
  intros (Hl & _ & _ & _ & Hlt). split; [apply lt_slot_start; lia|apply slot_start_le; lia].
Qed.

(** The slot chosen by the highest differing byte is the right one. *)
Definition sched_level (tk cur : Z) : Z := (63 - clz64 (Z.lxor tk cur)) / 8.
Definition sched_slot (tk cur : Z) : Z := Z.land (Z.shiftr tk (8 * sched_level tk cur)) 255.

Lemma sched_placed c t :
  0 <= c < t -> t < W64 -> placed_at c t (sched_level t c) (sched_slot t c).
Proof.
  intros Hc Ht. unfold sched_slot, sched_level, clz64.
  set (x := Z.lxor t c). set (n := Z.log2 x). replace (63 - (63 - n)) with n by lia.
  assert (x <> 0) as Hx0 by (unfold x; rewrite Z.lxor_eq_0_iff; lia).
  assert (0 <= x) as Hx by (apply Z.lxor_nonneg; lia).
  pose proof (Z.log2_nonneg x) as Hn0. pose proof (Z.log2_spec x ltac:(lia)) as [Hn1 Hn2].
  fold n in Hn0, Hn1, Hn2.
  assert (n < 64) as Hn64.
  { destruct (Z.lt_ge_cases n 64); [done|]. exfalso.
    assert (Z.testbit x n = true) as Hb by (apply Z.bit_log2; lia).
    assert (forall y, 0 <= y < W64 -> Z.testbit y n = false) as Hy.
    { intros y Hy. destruct (Z.eq_dec y 0) as [->|]; [apply Z.bits_0|]. apply Z.bits_above_log2; [lia|].
      apply Z.lt_le_trans with 64; [|lia]. apply Z.log2_lt_pow2; [lia|]. exact (proj2 Hy). }
    unfold x in Hb. rewrite Z.lxor_spec, !Hy in Hb by lia. done. }
  set (l := n / 8). assert (0 <= l < 8) as Hl by (unfold l; split; [apply Z.div_pos; lia|apply Z.div_lt_upper_bound; lia]).
  assert (8 * l <= n < 8 * (l + 1)) as Hln by (unfold l; pose proof (Z.div_mod n 8 ltac:(lia)); pose proof (Z.mod_pos_bound n 8 ltac:(lia)); lia).
  assert (t / D (l + 1) = c / D (l + 1)) as Hhi.
  { rewrite !D_pow2, <- !Z.shiftr_div_pow2 by lia. apply Z.lxor_eq.
    rewrite <- Z.shiftr_lxor. fold x. apply Z.shiftr_eq_0; [done|]. fold n. lia. }
  assert (t / D l <> c / D l) as Hne.
  { rewrite !D_pow2, <- !Z.shiftr_div_pow2 by lia. rewrite <- Z.lxor_eq_0_iff, <- Z.shiftr_lxor. fold x.
    rewrite Z.shiftr_div_pow2 by lia. intros E.
    assert (1 <= x / 2 ^ (8 * l)); [|lia]. apply Z.div_le_lower_bound; [apply Z.pow_pos_nonneg; lia|].
    rewrite Z.mul_1_r. apply Z.le_trans with (2 ^ n); [apply Z.pow_le_mono_r; lia|done]. }
  assert (c / D l <= t / D l) by (apply Z.div_le_mono; [apply D_pos|]; lia).
  change 255 with (Z.ones 8). rewrite Z.land_ones, Z.shiftr_div_pow2, <- D_pow2 by lia.
  change (2 ^ 8) with 256. unfold placed_at.
  pose proof (Z.mod_pos_bound (t / D l) 256 ltac:(lia)). split_and!; done || lia.
Qed.

(** Advancing the cursor up to the start of a slot keeps its timers placed. *)
Lemma placed_advance c c' t l s :
  placed_at c t l s -> c <= c' < slot_start t l -> placed_at c' t l s.
Proof.
  intros Hp Hc. pose proof (placed_ahead _ _ _ _ Hp). destruct Hp as (Hl & Hs & Hp & Hm & Hlt).
  unfold placed_at. split_and!; try done || lia.
  - pose proof (D_pos (l + 1) ltac:(lia)).
    assert (c / D (l + 1) <= c' / D (l + 1)) by (apply Z.div_le_mono; lia).
    assert (c' / D (l + 1) <= t / D (l + 1)) by (apply Z.div_le_mono; lia). lia.
  - apply lt_slot_start; lia.
Qed.

(** Slots of distinct buckets start at distinct ticks, lower levels first. *)
Lemma placed_level_order c t l s t' l' s' :
  placed_at c t l s -> placed_at c t' l' s' -> l < l' -> slot_start t l < slot_start t' l'.
Proof.
  intros (Hl & _ & Hp & _ & _) (Hl' & _ & _ & _ & Hlt) Hll.
  apply Z.le_lt_trans with t; [apply slot_start_le; lia|].
  apply lt_slot_start; [lia|]. by rewrite (div_D_le t c (l + 1) l') by (done || lia).
Qed.

Lemma placed_same_start c t l s t' l' s' :
  placed_at c t l s -> placed_at c t' l' s' -> slot_start t l = slot_start t' l' -> l = l' /\ s = s'.
Proof.
  intros H1 H2 He.
  destruct (Z.lt_trichotomy l l') as [Hl|[->|Hl]].
  - pose proof (placed_level_order _ _ _ _ _ _ _ H1 H2 Hl). lia.
  - split; [done|]. destruct H1 as (Hl & _ & _ & <- & _), H2 as (_ & _ & _ & <- & _).
    pose proof (D_pos l' ltac:(lia)). unfold slot_start in He. f_equal. nia.
  - pose proof (placed_level_order _ _ _ _ _ _ _ H2 H1 Hl). lia.
Qed.

(** Once the cursor reaches the start of a slot its timers are due there or
    belong in a lower level. *)
Lemma placed_descends c' t l l2 s2 :
  0 <= l -> c' = slot_start t l -> placed_at c' t l2 s2 -> l2 < l.
Proof.
  intros Hl -> (Hl2 & _ & _ & _ & Hlt). destruct (Z.lt_ge_cases l2 l); [done|]. exfalso.
  pose proof (D_pos l Hl).
  assert (slot_start t l / D l = t / D l) as He by (unfold slot_start; apply Z.div_mul; lia).
  rewrite (div_D_le _ _ l l2 ltac:(lia) He) in Hlt. lia.
Qed.

(** ** Ticks and the clock *)

Section Ticks.
Context (hz : Z) (Hhz : 1000 <= hz < W64).

Lemma tick_down n : in_u64 n -> wheel_tick hz n false = n * 1000 / hz /\ in_u64 (wheel_tick hz n false).
Proof.
  intros Hn. unfold wheel_tick, in_u64 in *. destruct (Z.eqb_spec hz 0); [lia|]. cbv zeta.
  rewrite u128_small by lia.
  assert (n * 1000 / hz <= n) by (apply Z.div_le_upper_bound; nia).
  assert (0 <= n * 1000 / hz) by (apply Z.div_pos; lia).
  unfold UINT64_MAX. bsplit; lia.
Qed.
Lemma tick_up n :
  in_u64 n -> wheel_tick hz n true = (n * 1000 + (hz - 1)) / hz /\ in_u64 (wheel_tick hz n true).
Proof.
  intros Hn. unfold wheel_tick, in_u64 in *. destruct (Z.eqb_spec hz 0); [lia|]. cbv zeta.
  rewrite (u64_small (hz - 1)), !u128_small by (unfold in_u64; rewrite ?u128_small by lia; lia).
  assert ((n * 1000 + (hz - 1)) / hz < n + 1) by (apply Z.div_lt_upper_bound; nia).
  assert (0 <= (n * 1000 + (hz - 1)) / hz) by (apply Z.div_pos; lia).
  unfold UINT64_MAX. bsplit; lia.
Qed.

(** The tick a poll at [now] reaches. *)
Definition poll_target (now : Z) : Z := wheel_tick hz now (now =? UINT64_MAX).

Lemma poll_target_range now : in_u64 now -> in_u64 (poll_target now).
Proof.
  intros. unfold poll_target. destruct (now =? UINT64_MAX); [by apply tick_up|by apply tick_down].
Qed.
Lemma tick_down_le_target now : in_u64 now -> wheel_tick hz now false <= poll_target now.
Proof.
  intros Hn. unfold poll_target. destruct (now =? UINT64_MAX); [|done].
  destruct (tick_up now Hn) as [-> _], (tick_down now Hn) as [-> _]. apply Z.div_le_mono; lia.
Qed.
Lemma poll_target_mono a b : in_u64 a -> in_u64 b -> a <= b -> poll_target a <= poll_target b.
Proof.
  intros Ha Hb Hab. unfold poll_target. unfold UINT64_MAX, in_u64 in *.
  destruct (Z.eqb_spec a 18446744073709551615) as [->|].
  { assert (b = 18446744073709551615) as -> by lia. done. }
  apply Z.le_trans with (wheel_tick hz b false); [|apply (tick_down_le_target b Hb)].
  destruct (tick_down a Ha) as [-> _], (tick_down b Hb) as [-> _]. apply Z.div_le_mono; lia.
Qed.

(** A tick that has been reached belongs to a deadline that has passed. *)
Lemma reached_is_due d now :
  in_u64 d -> in_u64 now -> wheel_tick hz d true <= poll_target now -> d <= now.
Proof.
  intros Hd Hn. unfold poll_target. unfold UINT64_MAX, in_u64 in *.
  destruct (Z.eqb_spec now 18446744073709551615) as [->|]; [lia|].
  destruct (tick_up d Hd) as [-> _], (tick_down now Hn) as [-> _]. intros H.
  pose proof (Z.mul_div_le (now * 1000) hz ltac:(lia)).
  pose proof (Z.mul_succ_div_gt (d * 1000 + (hz - 1)) hz ltac:(lia)). nia.
Qed.

(** A poll that returns early because of the cached next expiry has not
    reached it. *)
Lemma early_return_sound nt now :
  in_u64 nt -> in_u64 now ->
  now < Z.min UINT64_MAX ((nt * hz + 999) / 1000) -> poll_target now < nt.
Proof.
  intros Hnt Hn H. unfold poll_target. unfold UINT64_MAX, in_u64 in *.
  destruct (Z.eqb_spec now 18446744073709551615); [lia|].
  destruct (tick_down now Hn) as [-> _]. apply Z.div_lt_upper_bound; [lia|].
  pose proof (Z.mul_div_le (nt * hz + 999) 1000 ltac:(lia)). nia.
Qed.

(** The cached expiry in cycles. *)
Lemma cache_next w :
  in_u64 (next_tick w) ->
  next_cycles (wheel_cache_next hz w) = Z.min UINT64_MAX ((next_tick w * hz + 999) / 1000).
Proof.
  intros Hn. unfold wheel_cache_next, in_u64, UINT64_MAX in *. cbn [next_cycles with_next_cycles].
  rewrite u128_small by nia. bsplit; lia.
Qed.
End Ticks.
