(* ===== verification/OwnerTimerCore.v ===== *)
(** * Timer wheel: lists, occupancy bits and the list operations

    [wheel_core] ties the nodes to the lists that link them and the occupancy
    words to the nonempty buckets; linking and unlinking keep it. *)

From stdpp Require Import gmap.
From S2P Require Import Prelude Config OwnerTimer OwnerTimerPlace.

(** ** Occupancy words *)

Lemma in_u64_bits x : 0 <= x -> (forall j, 64 <= j -> Z.testbit x j = false) -> in_u64 x.
Proof.
  intros Hx Hb. split; [done|]. change W64 with (2 ^ 64).
  destruct (Z.eq_dec x 0) as [->|]; [lia|]. apply Z.log2_lt_pow2; [lia|].
  destruct (Z.lt_ge_cases (Z.log2 x) 64); [done|]. specialize (Hb _ H). rewrite Z.bit_log2 in Hb by lia. done.
Qed.
Lemma u64_high_bits x j : in_u64 x -> 64 <= j -> Z.testbit x j = false.
Proof.
  intros [H0 H1] Hj. destruct (Z.eq_dec x 0) as [->|]; [apply Z.bits_0|].
  apply Z.bits_above_log2; [lia|]. apply Z.lt_le_trans with 64; [|lia]. by apply Z.log2_lt_pow2; [lia|].
Qed.
Lemma bit_u64 k : 0 <= k < 64 -> u64 (Z.shiftl 1 k) = 2 ^ k.
Proof.
  intros. rewrite Z.shiftl_mul_pow2, Z.mul_1_l by lia. apply u64_small. split; [apply Z.pow_nonneg; lia|].
  change W64 with (2 ^ 64). apply Z.pow_lt_mono_r; lia.
Qed.

Definition set_bit (x k : Z) : Z := Z.lor x (u64 (Z.shiftl 1 k)).
Definition clear_bit (x k : Z) : Z := Z.land x (Z.lxor UINT64_MAX (u64 (Z.shiftl 1 k))).

Lemma set_bit_spec x k j : 0 <= k < 64 -> 0 <= j -> Z.testbit (set_bit x k) j = Z.testbit x j || (j =? k).
Proof.
  intros Hk Hj. unfold set_bit. rewrite bit_u64, Z.lor_spec, Z.pow2_bits_eqb by lia. by rewrite Z.eqb_sym.
Qed.
Lemma set_bit_range x k : in_u64 x -> 0 <= k < 64 -> in_u64 (set_bit x k).
Proof.
  intros Hx Hk. apply in_u64_bits.
  - apply Z.lor_nonneg. split; [apply Hx|apply u64_range].
  - intros j Hj. rewrite set_bit_spec, (u64_high_bits x) by (done || lia). cbn. lia.
Qed.
Lemma clear_bit_spec x k j :
  in_u64 x -> 0 <= k < 64 -> 0 <= j -> Z.testbit (clear_bit x k) j = Z.testbit x j && negb (j =? k).
Proof.
  intros Hx Hk Hj. unfold clear_bit. rewrite bit_u64, Z.land_spec, Z.lxor_spec, Z.pow2_bits_eqb by lia.
  change UINT64_MAX with (Z.ones 64). rewrite Z.testbit_ones by lia. rewrite (Z.eqb_sym k j).
  destruct (Z.ltb_spec j 64); [|by rewrite (u64_high_bits x) by done].
  destruct (Z.leb_spec 0 j); [|lia]. cbn. by destruct (j =? k).
Qed.
Lemma clear_bit_range x k : in_u64 x -> 0 <= k < 64 -> in_u64 (clear_bit x k).
Proof.
  intros Hx Hk. apply in_u64_bits.
  - apply Z.land_nonneg. left. apply Hx.
  - intros j Hj. by rewrite clear_bit_spec, (u64_high_bits x) by (done || lia).
Qed.

(** Two levels of indexing address one word per 64 buckets. *)
Lemma occ_index b : 0 <= b -> b / 256 * 4 + b mod 256 / 64 = b / 64 /\ b mod 256 mod 64 = b mod 64.
Proof. intros. split; Z.to_euclidean_division_equations; lia. Qed.
Lemma slot_index l s :
  0 <= s < 256 -> l * 4 + s / 64 = (l * 256 + s) / 64 /\ (l * 256 + s) mod 64 = s mod 64
  /\ (l * 256 + s) / 256 = l /\ (l * 256 + s) mod 256 = s.
Proof. intros. split_and!; Z.to_euclidean_division_equations; lia. Qed.

Definition occ_word (w : owner_timer_wheel) (k : Z) : Z := default 0 (occupied w !! k).
Definition occ_bit (w : owner_timer_wheel) (b : Z) : bool := Z.testbit (occ_word w (b / 64)) (b mod 64).

Lemma occ_word_set w lv wd v k :
  occ_word (set_occ lv wd v w) k = if bool_decide (k = lv * 4 + wd) then v else occ_word w k.
Proof.
  unfold occ_word, set_occ. cbn [occupied with_occupied]. case_bool_decide as H.
  - subst. by rewrite lookup_insert_eq.
  - by rewrite lookup_insert_ne.
Qed.

(** ** The core invariant *)

Record wheel_core (e : owner_timer_engine) : Prop := {
  core_lists : forall h id, id ∈ wlist h (wheel e) <->
    exists t, timers e !! id = Some t /\ whead t = Some h;
  core_nodup : forall h, NoDup (wlist h (wheel e));
  core_range : forall id t b, timers e !! id = Some t -> whead t = Some (HBucket b) -> 0 <= b < 2048;
  core_occ : forall b, 0 <= b < 2048 ->
    occ_bit (wheel e) b = negb (bool_decide (wlist (HBucket b) (wheel e) = []));
  core_words : forall k, in_u64 (occ_word (wheel e) k)
}.

(** What an operation on the lists leaves alone. *)
Definition same_rest (e e' : owner_timer_engine) : Prop :=
  lcore_id e' = lcore_id e /\ e_capacity e' = e_capacity e /\ e_active e' = e_active e /\
  e_resources e' = e_resources e /\ active_list e' = active_list e /\
  e_initialized e' = e_initialized e /\ polling (wheel e') = polling (wheel e).
Lemma same_rest_refl e : same_rest e e.
Proof. by split_and!. Qed.
Lemma same_rest_trans a b c : same_rest a b -> same_rest b c -> same_rest a c.
Proof. unfold same_rest. intros; destruct_and!; split_and!; congruence. Qed.

Lemma wlist_set h l w h' : wlist h' (set_wlist h l w) = if bool_decide (h' = h) then l else wlist h' w.
Proof.
  destruct (decide (h' = h)) as [->|Hne].
  - rewrite bool_decide_eq_true_2 by done. destruct h; cbn; [by rewrite lookup_insert_eq|done|done].
  - rewrite bool_decide_eq_false_2 by done. destruct h, h'; cbn; try done.
    rewrite lookup_insert_ne; [done|congruence].
Qed.
Lemma wlist_set_occ h lv wd v w : wlist h (set_occ lv wd v w) = wlist h w.
Proof. by destruct h. Qed.
Lemma occ_word_set_wlist h l w k : occ_word (set_wlist h l w) k = occ_word w k.
Proof. by destruct h. Qed.

Lemma elem_of_remove_id x id l : x ∈ remove_id id l <-> x ∈ l /\ x <> id.
Proof.
  unfold remove_id. rewrite !list_elem_of_In, filter_In, negb_true_iff, Z.eqb_neq. done.
Qed.
Lemma NoDup_remove_id id l : NoDup l -> NoDup (remove_id id l).
Proof. rewrite !NoDup_ListNoDup. apply List.NoDup_filter. Qed.
Lemma remove_id_head id l : id ∉ l -> remove_id id (id :: l) = l.
Proof.
  intros H. unfold remove_id. cbn. rewrite Z.eqb_refl. cbn. induction l as [|x l IH]; [done|].
  cbn. destruct (Z.eqb_spec x id) as [->|]; [set_solver|]. cbn. f_equal. apply IH. set_solver.
Qed.

(** ** Unlinking *)

Lemma unlink_timers id e t h :
  timers e !! id = Some t -> whead t = Some h ->
  timers (wheel_unlink id e) = alter (with_whead None) id (timers e) /\
  (forall h', wlist h' (wheel (wheel_unlink id e)) =
     if bool_decide (h' = h) then remove_id id (wlist h (wheel e)) else wlist h' (wheel e)) /\
  cursor (wheel (wheel_unlink id e)) = cursor (wheel e) /\
  next_tick (wheel (wheel_unlink id e)) = next_tick (wheel e) /\
  next_cycles (wheel (wheel_unlink id e)) = next_cycles (wheel e) /\
  same_rest e (wheel_unlink id e).
Proof.
  intros Ht Hh. unfold wheel_unlink. rewrite Ht. cbn [mbind option_bind]. rewrite Hh. cbv zeta.
  unfold timer_alter, wheel_alter. cbn [timers with_timers with_wheel wheel].
  split; [done|]. split.
  - intros h'. destruct h as [b| |]; [|apply wlist_set..].
    destruct (_ && _); [rewrite wlist_set_occ|]; apply wlist_set.
  - destruct h as [b| |]; [|by split_and!..]. destruct (_ && _); by split_and!.
Qed.

Lemma unlink_core id e t h :
  wheel_core e -> timers e !! id = Some t -> whead t = Some h -> wheel_core (wheel_unlink id e).
Proof.
  intros [Hl Hn Hr Ho Hw] Ht Hh. destruct (unlink_timers id e t h Ht Hh) as (Etm & Els & _).
  assert (forall k, occ_word (wheel (wheel_unlink id e)) k =
    match h with
    | HBucket b => if bool_decide (remove_id id (wlist h (wheel e)) = []) && bool_decide (k = b / 64)
                   then clear_bit (occ_word (wheel e) k) (b mod 64) else occ_word (wheel e) k
    | _ => occ_word (wheel e) k
    end) as Eoc.
  { intros k. unfold wheel_unlink. rewrite Ht. cbn [mbind option_bind]. rewrite Hh. cbv zeta.
    unfold timer_alter, wheel_alter. cbn [wheel with_timers with_wheel].
    destruct h as [b| |]; [|apply occ_word_set_wlist..].
    pose proof (Hr id t b Ht Hh) as Hb. unfold WHEEL_BUCKETS, WHEEL_LEVELS, WHEEL_SLOTS.
    destruct (occ_index b ltac:(lia)) as [Hi _].
    rewrite (proj2 (Z.ltb_lt b (8 * 256))), andb_true_r by lia.
    destruct (bool_decide (remove_id id _ = [])); cbn [andb]; [|apply occ_word_set_wlist].
    rewrite occ_word_set, Hi. unfold occ. rewrite Hi.
    fold (occ_word (set_wlist (HBucket b) (remove_id id (wlist (HBucket b) (wheel e))) (wheel e)) (b / 64)).
    rewrite occ_word_set_wlist. case_bool_decide as E; [by subst|by rewrite occ_word_set_wlist]. }
  constructor.
  - intros h' x. rewrite Els, Etm. destruct (decide (x = id)) as [->|Hx].
    + rewrite lookup_alter_eq, Ht. split.
      * destruct (bool_decide_reflect (h' = h)); [intros [_ []]%elem_of_remove_id; done|].
        intros (t' & Ht' & Hh')%Hl. congruence.
      * by intros (t' & [= <-] & Hh').
    + rewrite lookup_alter_ne by done. rewrite <- Hl.
      destruct (bool_decide_reflect (h' = h)); [subst|done].
      rewrite elem_of_remove_id. tauto.
  - intros h'. rewrite Els. destruct (bool_decide_reflect (h' = h)); [by apply NoDup_remove_id|done].
  - intros x t' b. rewrite Etm. destruct (decide (x = id)) as [->|Hx].
    + rewrite lookup_alter_eq, Ht. by intros [= <-].
    + rewrite lookup_alter_ne by done. apply Hr.
  - intros b' Hb'. unfold occ_bit. rewrite Eoc, Els. specialize (Ho b' Hb'). unfold occ_bit in Ho.
    pose proof (Z.mod_pos_bound b' 64 ltac:(lia)).
    destruct h as [b| |];
      [|by rewrite (bool_decide_eq_false_2 (HBucket b' = HImmediate)) by done
       |by rewrite (bool_decide_eq_false_2 (HBucket b' = HReady)) by done].
    pose proof (Hr id t b Ht Hh) as Hb.
    destruct (decide (b' = b)) as [->|Hne].
    + rewrite (bool_decide_eq_true_2 (HBucket b = HBucket b)), (bool_decide_eq_true_2 (b / 64 = b / 64)), andb_true_r by done.
      destruct (bool_decide_reflect (remove_id id (wlist (HBucket b) (wheel e)) = [])) as [E|E]; cbn [negb].
      * rewrite clear_bit_spec by (apply Hw || lia). by rewrite Z.eqb_refl, andb_false_r.
      * cbn [andb]. rewrite Ho. apply negb_true_iff, bool_decide_eq_false_2.
        assert (id ∈ wlist (HBucket b) (wheel e)) as Hin by (apply Hl; eauto).
        intros E0. rewrite E0 in Hin. by apply not_elem_of_nil in Hin.
    + rewrite (bool_decide_eq_false_2 (HBucket b' = HBucket b)) by congruence. rewrite <- Ho.
      destruct (_ && _) eqn:E; [|done]. apply andb_true_iff in E as [_ E%bool_decide_eq_true].
      rewrite clear_bit_spec by (apply Hw || (apply Z.mod_pos_bound; lia) || lia).
      destruct (Z.eqb_spec (b' mod 64) (b mod 64)); [|apply andb_true_r].
      exfalso. apply Hne. rewrite (Z.div_mod b' 64), (Z.div_mod b 64) by lia. congruence.
  - intros k. rewrite Eoc. destruct h as [b| |]; try apply Hw.
    destruct (_ && _); [|apply Hw]. apply clear_bit_range; [apply Hw|apply Z.mod_pos_bound; lia].
Qed.

(** ** Linking *)

Lemma link_timers id h e :
  timers (wheel_link id h e) = alter (with_whead (Some h)) id (timers e) /\
  (forall h', wlist h' (wheel (wheel_link id h e)) =
     if bool_decide (h' = h) then id :: wlist h (wheel e) else wlist h' (wheel e)) /\
  (forall k, occ_word (wheel (wheel_link id h e)) k = occ_word (wheel e) k) /\
  cursor (wheel (wheel_link id h e)) = cursor (wheel e) /\
  next_tick (wheel (wheel_link id h e)) = next_tick (wheel e) /\
  next_cycles (wheel (wheel_link id h e)) = next_cycles (wheel e) /\
  same_rest e (wheel_link id h e).
Proof.
  unfold wheel_link, timer_alter, wheel_alter. cbn [timers with_timers with_wheel wheel].
  split; [done|]. split; [apply wlist_set|]. split; [apply occ_word_set_wlist|].
  destruct h; by split_and!.
Qed.

(** Linking an unlinked node keeps the lists exact. *)
Lemma link_lists id h e t :
  (forall h id, id ∈ wlist h (wheel e) <-> exists t, timers e !! id = Some t /\ whead t = Some h) ->
  (forall h, NoDup (wlist h (wheel e))) ->
  timers e !! id = Some t -> whead t = None ->
  (forall h' x, x ∈ wlist h' (wheel (wheel_link id h e)) <->
     exists t, timers (wheel_link id h e) !! x = Some t /\ whead t = Some h') /\
  (forall h', NoDup (wlist h' (wheel (wheel_link id h e)))).
Proof.
  intros Hl Hn Ht Hh. destruct (link_timers id h e) as (Etm & Els & _).
  assert (forall h', id ∉ wlist h' (wheel e)) as Hnot
    by (intros h' (t' & Ht' & Hh')%Hl; congruence).
  split.
  - intros h' x. rewrite Els, Etm. destruct (decide (x = id)) as [->|Hx].
    + rewrite lookup_alter_eq, Ht. destruct (bool_decide_reflect (h' = h)) as [->|Hne].
      * split; [|intros _; apply elem_of_cons; by left]. intros _. by eexists.
      * split; [by intros ?%Hnot|]. intros (t' & [= <-] & [= <-]). done.
    + rewrite lookup_alter_ne by done. rewrite <- Hl. destruct (bool_decide_reflect (h' = h)); [subst|done].
      rewrite elem_of_cons. tauto.
  - intros h'. rewrite Els. destruct (bool_decide_reflect (h' = h)); [|done]. by apply NoDup_cons.
Qed.

Lemma link_queue_core id h e t :
  wheel_core e -> timers e !! id = Some t -> whead t = None -> (forall b, h <> HBucket b) ->
  wheel_core (wheel_link id h e).
Proof.
  intros [Hl Hn Hr Ho Hw] Ht Hh Hq. destruct (link_timers id h e) as (Etm & Els & Eoc & _).
  destruct (link_lists id h e t Hl Hn Ht Hh) as [Hl' Hn']. constructor; try done.
  - intros x t' b. rewrite Etm. destruct (decide (x = id)) as [->|Hx].
    + rewrite lookup_alter_eq, Ht. intros [= <-] [= ->]. by destruct (Hq b).
    + rewrite lookup_alter_ne by done. apply Hr.
  - intros b Hb. unfold occ_bit. rewrite Eoc, Els.
    rewrite (bool_decide_eq_false_2 (HBucket b = h)) by (intros <-; by apply (Hq b)). by apply Ho.
  - intros k. rewrite Eoc. apply Hw.
Qed.

(** ** Scheduling into a bucket *)

(** Where [wheel_schedule] puts a tick. *)
Definition sched_head (tk cur : Z) : whead_t :=
  if tk <=? cur then HImmediate else HBucket (sched_level tk cur * 256 + sched_slot tk cur).

Section Schedule.
Context (hz : Z) (Hhz : 1000 <= hz < W64).

(** The cached expiry matches [next_tick]. *)
Definition cache_ok (w : owner_timer_wheel) : Prop :=
  in_u64 (next_tick w) /\
  next_cycles w = Z.min UINT64_MAX ((next_tick w * hz + 999) / 1000).

Lemma cache_ok_next w nt : in_u64 nt -> cache_ok (wheel_cache_next hz (with_next_tick nt w)).
Proof.
  intros Hn. unfold cache_ok. rewrite (cache_next hz Hhz) by exact Hn. done.
Qed.

Lemma schedule_spec id e t :
  wheel_core e -> timers e !! id = Some t -> whead t = None ->
  in_u64 (cursor (wheel e)) -> in_u64 (tick t) -> cache_ok (wheel e) ->
  let e' := wheel_schedule hz id e in
  wheel_core e' /\
  timers e' = alter (with_whead (Some (sched_head (tick t) (cursor (wheel e))))) id (timers e) /\
  cursor (wheel e') = cursor (wheel e) /\
  (forall h, h <> sched_head (tick t) (cursor (wheel e)) -> wlist h (wheel e') = wlist h (wheel e)) /\
  cache_ok (wheel e') /\
  next_tick (wheel e') <= next_tick (wheel e) /\
  (cursor (wheel e) < tick t ->
     next_tick (wheel e') <= slot_start (tick t) (sched_level (tick t) (cursor (wheel e)))) /\
  (next_tick (wheel e) <= slot_start (tick t) (sched_level (tick t) (cursor (wheel e))) ->
     next_tick (wheel e') = next_tick (wheel e)) /\
  same_rest e e'.
Proof.
  intros Hcore Ht Hh Hcur Htk Hcache. cbv zeta. unfold wheel_schedule. rewrite Ht. cbv zeta.
  unfold sched_head. destruct (Z.leb_spec (tick t) (cursor (wheel e))) as [Hle|Hgt].
  { destruct (link_timers id HImmediate e) as (Etm & Els & Eoc & Ec & En & Enc & Hs).
    split; [by apply (link_queue_core id _ e t)|]. unfold cache_ok. rewrite Ec, En, Enc.
    split; [done|]. split; [done|].
    split; [intros h Hne; by rewrite Els, bool_decide_eq_false_2|].
    split_and!; try done || lia; apply Hcache || apply Hs. }
  pose proof (sched_placed (cursor (wheel e)) (tick t) ltac:(unfold in_u64 in *; lia) (proj2 Htk)) as Hp.
  fold (sched_level (tick t) (cursor (wheel e))).
  set (l := sched_level (tick t) (cursor (wheel e))) in *.
  change (Z.land (Z.shiftr (tick t) (8 * l)) 255) with (sched_slot (tick t) (cursor (wheel e))).
  set (s := sched_slot (tick t) (cursor (wheel e))) in *.
  pose proof (placed_boundary _ _ _ _ Hcur Hp) as Hbnd. pose proof (placed_ahead _ _ _ _ Hp) as Hahead.
  assert (0 <= l < 8 /\ 0 <= s < 256) as [Hl8 Hs8] by (split; apply Hp).
  set (b := l * 256 + s). destruct (slot_index l s Hs8) as (Hi & Hm & _ & _). fold b in Hi, Hm.
  destruct (link_timers id (HBucket b) e) as (Etm & Els & Eoc & Ec & En & Enc & Hs).
  set (e1 := wheel_link id (HBucket b) e) in *.
  unfold wheel_alter. cbn [timers with_wheel wheel].
  set (w1 := set_occ l (s / 64)
               (Z.lor (occ (wheel e1) l (s / 64)) (u64 (Z.shiftl 1 (s mod 64)))) (wheel e1)).
  change (cursor w1) with (cursor (wheel e1)). change (next_tick w1) with (next_tick (wheel e1)).
  rewrite Ec, Hbnd, En.
  destruct Hcore as [Hl Hn Hr Ho Hw]. destruct (link_lists id (HBucket b) e t Hl Hn Ht Hh) as [Hl' Hn'].
  assert (forall k, occ_word w1 k = if bool_decide (k = b / 64)
            then set_bit (occ_word (wheel e) k) (b mod 64) else occ_word (wheel e) k) as Hword.
  { intros k. unfold w1. rewrite occ_word_set, Hi, Hm. unfold occ. rewrite Hi. fold (occ_word (wheel e1) (b / 64)).
    rewrite !Eoc. case_bool_decide as E; [by subst|done]. }
  assert (0 <= b < 2048) as Hb by (unfold b; lia).
  assert (forall w2, (forall h, wlist h w2 = wlist h w1) -> (forall k, occ_word w2 k = occ_word w1 k) ->
            wheel_core (with_wheel w2 e1)) as Hcore2.
  { intros w2 Hw2 Ho2. constructor; cbn [wheel with_wheel timers].
    - intros h x. rewrite Hw2. unfold w1. rewrite wlist_set_occ. apply Hl'.
    - intros h. rewrite Hw2. unfold w1. rewrite wlist_set_occ. apply Hn'.
    - intros x t' b'. rewrite Etm. destruct (decide (x = id)) as [->|Hx].
      + rewrite lookup_alter_eq, Ht. intros [= <-] [= <-]. done.
      + rewrite lookup_alter_ne by done. apply Hr.
    - intros b' Hb'. unfold occ_bit. rewrite Ho2, Hword, Hw2. unfold w1. rewrite wlist_set_occ, Els.
      specialize (Ho b' Hb'). unfold occ_bit in Ho.
      destruct (decide (b' = b)) as [->|Hne].
      + rewrite (bool_decide_eq_true_2 (b / 64 = b / 64)), (bool_decide_eq_true_2 (HBucket b = HBucket b)) by done.
        rewrite set_bit_spec by (apply Z.mod_pos_bound; lia).
        rewrite Z.eqb_refl, orb_true_r. symmetry. by apply negb_true_iff, bool_decide_eq_false_2.
      + rewrite (bool_decide_eq_false_2 (HBucket b' = HBucket b)) by congruence. rewrite <- Ho.
        destruct (bool_decide_reflect (b' / 64 = b / 64)) as [E|]; [|done].
        rewrite set_bit_spec by (apply Z.mod_pos_bound; lia).
        destruct (Z.eqb_spec (b' mod 64) (b mod 64)); [|apply orb_false_r].
        exfalso. apply Hne. rewrite (Z.div_mod b' 64), (Z.div_mod b 64) by lia. congruence.
    - intros k. rewrite Ho2, Hword. destruct (bool_decide _); [|apply Hw].
      apply set_bit_range; [apply Hw|apply Z.mod_pos_bound; lia]. }
  assert (forall h, h <> HBucket b -> wlist h w1 = wlist h (wheel e)) as Hframe
    by (intros h Hne; unfold w1; by rewrite wlist_set_occ, Els, bool_decide_eq_false_2).
  assert (in_u64 (slot_start (tick t) l)) as Hst by (unfold in_u64 in *; lia).
  destruct (Z.ltb_spec (slot_start (tick t) l) (next_tick (wheel e))) as [Hlt|Hge].
  - split; [by apply Hcore2|]. split; [done|]. split; [done|].
    split; [intros h Hne; by rewrite <- Hframe|].
    split; [by apply cache_ok_next|].
    cbn [wheel with_wheel].
    change (next_tick (wheel_cache_next ?h ?w)) with (slot_start (tick t) l). split_and!; try done || lia; apply Hs.
  - split; [by apply Hcore2|]. split; [done|]. split; [done|].
    split; [intros h Hne; by rewrite <- Hframe|].
    cbn [wheel with_wheel]. unfold cache_ok. change (next_tick w1) with (next_tick (wheel e1)).
    change (next_cycles w1) with (next_cycles (wheel e1)). rewrite En, Enc.
    split; [exact Hcache|]. split_and!; try done || lia; apply Hs.
Qed.
End Schedule.
