(* ===== verification/OwnerTimerWheel.v ===== *)
(** * Timer wheel: next expiry, cascading and the collection of due timers *)

From stdpp Require Import gmap.
From S2P Require Import Prelude Config OwnerTimer OwnerTimerPlace OwnerTimerCore.

(** ** The first occupied slot of a level *)

Lemma ctz_from_spec fuel x i :
  (exists j, i <= j < i + Z.of_nat fuel /\ Z.testbit x j = true) ->
  i <= ctz_from fuel x i < i + Z.of_nat fuel /\ Z.testbit x (ctz_from fuel x i) = true /\
  (forall j, i <= j < ctz_from fuel x i -> Z.testbit x j = false).
Proof.
  revert i. induction fuel as [|f IH]; intros i (j & Hj & Hb); [lia|]. cbn [ctz_from].
  destruct (Z.testbit x i) eqn:E; [split_and!; [lia|lia|done|lia]|].
  assert (j <> i) by congruence.
  destruct (IH (i + 1)) as (H1 & H2 & H3); [exists j; split; [lia|done]|].
  split_and!; [lia|lia|done|]. intros k Hk. destruct (decide (k = i)) as [->|]; [done|apply H3; lia].
Qed.

Lemma ctz64_spec x :
  in_u64 x -> x <> 0 ->
  0 <= ctz64 x < 64 /\ Z.testbit x (ctz64 x) = true /\
  (forall j, 0 <= j < ctz64 x -> Z.testbit x j = false).
Proof.
  intros Hx H0. unfold ctz64. apply (ctz_from_spec 64 x 0). exists (Z.log2 x).
  pose proof (Z.log2_nonneg x). split; [|apply Z.bit_log2; unfold in_u64 in Hx; lia].
  split; [lia|]. change (0 + Z.of_nat 64) with 64. unfold in_u64 in Hx.
  apply Z.log2_lt_pow2; [lia|]. exact (proj2 Hx).
Qed.

Definition bucket_full (w : owner_timer_wheel) (l s : Z) : Prop := wlist (HBucket (l * 256 + s)) w <> [].

Section Next.
Context (e : owner_timer_engine) (Hcore : wheel_core e).
Abbreviation w := (wheel e).

Lemma occ_full l s :
  0 <= l < 8 -> 0 <= s < 256 ->
  Z.testbit (occ w l (s / 64)) (s mod 64) = true <-> bucket_full w l s.
Proof.
  intros Hl Hs. destruct (slot_index l s Hs) as (Hi & Hm & _ & _).
  pose proof (core_occ e Hcore (l * 256 + s) ltac:(lia)) as Ho. unfold occ_bit in Ho.
  unfold occ. rewrite Hi, <- Hm. fold (occ_word w ((l * 256 + s) / 64)). rewrite Ho.
  unfold bucket_full. rewrite negb_true_iff, bool_decide_eq_false. done.
Qed.

Lemma first_slot_spec l words :
  0 <= l < 8 -> (forall wd, wd ∈ words -> 0 <= wd < 4) ->
  (forall i j a b, words !! i = Some a -> words !! j = Some b -> (i < j)%nat -> a < b) ->
  match first_slot w l words with
  | None => forall s, 0 <= s < 256 -> s / 64 ∈ words -> ~ bucket_full w l s
  | Some s => 0 <= s < 256 /\ bucket_full w l s /\
      forall s', 0 <= s' < s -> s' / 64 ∈ words -> ~ bucket_full w l s'
  end.
Proof.
  intros Hl. induction words as [|wd t IH]; intros Hr Hord; cbn [first_slot].
  { intros s _ Hs. by apply not_elem_of_nil in Hs. }
  assert (0 <= wd < 4) as Hwd by (apply Hr, elem_of_cons; by left).
  assert (in_u64 (occ w l wd)) as Hu by (apply (core_words e Hcore)).
  assert (forall b, b ∈ t -> wd < b) as Hlt.
  { intros b [k Hk]%list_elem_of_lookup. apply (Hord 0%nat (S k)); [done|done|lia]. }
  assert (forall s', 0 <= s' < 256 -> s' / 64 = wd ->
            (bucket_full w l s' <-> Z.testbit (occ w l wd) (s' mod 64) = true)) as Hbit
    by (intros s' Hs' <-; symmetry; by apply occ_full).
  destruct (Z.eqb_spec (occ w l wd) 0) as [H0|H0].
  - specialize (IH ltac:(intros; apply Hr, elem_of_cons; by right)
      ltac:(intros i j a b Ha Hb Hij; apply (Hord (S i) (S j)); done || lia)).
    assert (forall s', 0 <= s' < 256 -> s' / 64 = wd -> ~ bucket_full w l s') as Hno
      by (intros s' Hs' Hd Hf; apply Hbit in Hf; [|done|done]; by rewrite H0, Z.bits_0 in Hf).
    destruct (first_slot w l t) as [s|].
    + destruct IH as (H1 & H2 & H3). split_and!; [lia|lia|done|].
      intros s' Hs' [E|E]%elem_of_cons; [apply Hno; lia|by apply H3].
    + intros s' Hs' [E|E]%elem_of_cons; [by apply Hno|by apply IH].
  - destruct (ctz64_spec _ Hu H0) as (Hc1 & Hc2 & Hc3). set (k := ctz64 (occ w l wd)) in *.
    assert ((wd * 64 + k) / 64 = wd /\ (wd * 64 + k) mod 64 = k) as [Hd Hm]
      by (split; Z.to_euclidean_division_equations; lia).
    split_and!; [lia..| |].
    + apply Hbit; [lia|done|]. by rewrite Hm.
    + intros s' Hs' Hin. rewrite elem_of_cons in Hin.
      assert (s' / 64 <= wd) by (Z.to_euclidean_division_equations; lia).
      destruct Hin as [E|E]; [|apply Hlt in E; lia].
      intros Hf. apply Hbit in Hf; [|lia|done]. rewrite Hc3 in Hf; [done|].
      Z.to_euclidean_division_equations; lia.
Qed.

Lemma first_slot_all l :
  0 <= l < 8 ->
  match first_slot w l [0; 1; 2; 3] with
  | None => forall s, 0 <= s < 256 -> ~ bucket_full w l s
  | Some s => 0 <= s < 256 /\ bucket_full w l s /\ forall s', 0 <= s' < s -> ~ bucket_full w l s'
  end.
Proof.
  intros Hl. pose proof (first_slot_spec l [0; 1; 2; 3] Hl) as H.
  assert (forall s, 0 <= s < 256 -> s / 64 ∈ [0; 1; 2; 3]) as Hin.
  { intros s Hs. assert (s / 64 = 0 \/ s / 64 = 1 \/ s / 64 = 2 \/ s / 64 = 3) as Hc
      by (Z.to_euclidean_division_equations; lia).
    rewrite !elem_of_cons. tauto. }
  destruct (first_slot w l [0; 1; 2; 3]) as [s|].
  - destruct H as (H1 & H2 & H3).
    + intros wd Hw. rewrite !elem_of_cons, elem_of_nil in Hw. lia.
    + intros [|[|[|[|i]]]] [|[|[|[|j]]]] a b; cbn; intros; simplify_eq; lia.
    + split_and!; [lia..|done|]. intros s' Hs'. apply H3, Hin; lia.
  - intros s Hs. apply H; [| |done|by apply Hin].
    + intros wd Hw. rewrite !elem_of_cons, elem_of_nil in Hw. lia.
    + intros [|[|[|[|i]]]] [|[|[|[|j]]]] a b; cbn; intros; simplify_eq; lia.
Qed.

(** ** The earliest bucket *)

Context (Hcur : in_u64 (cursor w)).
Abbreviation bnd := (wheel_boundary (cursor w)).

Definition best (ls : list Z) (acc : Z * Z) : Prop :=
  (acc = (WHEEL_BUCKETS, UINT64_MAX) /\ forall l s, l ∈ ls -> 0 <= s < 256 -> ~ bucket_full w l s) \/
  (exists l s, 0 <= l < 8 /\ 0 <= s < 256 /\ acc = (l * 256 + s, bnd l s) /\ bucket_full w l s /\
     forall l' s', l' ∈ ls -> 0 <= s' < 256 -> bucket_full w l' s' -> bnd l s <= bnd l' s').

Lemma bnd_mono l s s' : 0 <= l < 8 -> 0 <= s <= s' -> s' < 256 -> bnd l s <= bnd l s'.
Proof.
  intros Hl Hs Hs'. rewrite !boundary_eq by (done || lia). pose proof (D_pos l ltac:(lia)). nia.
Qed.

Lemma next_levels_best todo seen acc :
  (forall l, l ∈ todo -> 0 <= l < 8) -> best seen acc -> best (seen ++ todo) (next_levels w todo acc).
Proof.
  revert seen acc. induction todo as [|l todo IH]; intros seen acc Hr Hb; cbn [next_levels].
  { by rewrite app_nil_r. }
  replace (seen ++ l :: todo) with ((seen ++ [l]) ++ todo) by (by rewrite <- app_assoc).
  apply IH; [intros; apply Hr, elem_of_cons; by right|].
  assert (0 <= l < 8) as Hl by (apply Hr, elem_of_cons; by left).
  pose proof (first_slot_all l Hl) as Hf.
  assert (forall l', l' ∈ seen ++ [l] <-> l' ∈ seen \/ l' = l) as Hin
    by (intros; by rewrite elem_of_app, list_elem_of_singleton).
  destruct (first_slot w l [0; 1; 2; 3]) as [s|].
  - destruct Hf as (Hs & Hfull & Hmin).
    assert (forall s', 0 <= s' < 256 -> bucket_full w l s' -> bnd l s <= bnd l s') as Hlow.
    { intros s' Hs' Hf'. apply bnd_mono; [done| |lia]. split; [lia|].
      destruct (Z.lt_ge_cases s' s); [|done]. destruct (Hmin s'); [lia|done]. }
    destruct Hb as [[-> Hb]|(l0 & s0 & Hl0 & Hs0 & -> & Hf0 & Hb)]; cbn [fst snd].
    + right. exists l, s. split_and!; try done || lia. intros l' s' [H| ->]%Hin Hs' Hf'; [by destruct (Hb l' s')|auto].
    + destruct (Z.eqb_spec (l0 * 256 + s0) WHEEL_BUCKETS) as [E|_];
        [unfold WHEEL_BUCKETS, WHEEL_LEVELS, WHEEL_SLOTS in E; lia|]. cbn [orb].
      destruct (Z.ltb_spec (bnd l s) (bnd l0 s0)); right.
      * exists l, s. split_and!; try done || lia. intros l' s' [H'| ->]%Hin Hs' Hf'; [|auto].
        specialize (Hb l' s' H' Hs' Hf'). lia.
      * exists l0, s0. split_and!; try done || lia. intros l' s' [H'| ->]%Hin Hs' Hf'; [auto|].
        specialize (Hlow s' Hs' Hf'). lia.
  - destruct Hb as [[-> Hb]|(l0 & s0 & Hl0 & Hs0 & -> & Hf0 & Hb)].
    + left. split; [done|]. intros l' s' [H| ->]%Hin Hs'; [by apply Hb|by apply Hf].
    + right. exists l0, s0. split_and!; try done || lia. intros l' s' [H| ->]%Hin Hs' Hf'; [auto|].
      by destruct (Hf s').
Qed.
End Next.
