(* ===== verification/OwnerTimerCascade.v ===== *)
(** * Timer wheel: one poll collects exactly the reached ticks

    [wheel_inv] is the placement invariant; [moved] describes what collecting
    up to a target tick does to each node; [weight] is the measure that bounds
    the cascade. *)

From stdpp Require Import gmap.
From S2P Require Import Prelude Config OwnerTimer OwnerTimerPlace OwnerTimerCore OwnerTimerWheel.

Section Cascade.
Context (hz : Z) (Hhz : 1000 <= hz < W64).

(** ** The placement invariant *)

(** Bucketed nodes, with their tick and bucket. *)
Definition in_bucket (e : owner_timer_engine) (id : Z) (t : owner_timer) (b : Z) : Prop :=
  timers e !! id = Some t /\ whead t = Some (HBucket b).

Definition tick_ok (t : owner_timer) : Prop :=
  whead t <> None -> in_u64 (deadline_cycles t) /\ tick t = wheel_tick hz (deadline_cycles t) true.

Record wheel_inv (e : owner_timer_engine) : Prop := {
  inv_core : wheel_core e;
  inv_cursor : in_u64 (cursor (wheel e));
  inv_place : forall id t b, in_bucket e id t b ->
    placed_at (cursor (wheel e)) (tick t) (b / 256) (b mod 256);
  inv_next : forall id t b, in_bucket e id t b -> next_tick (wheel e) <= slot_start (tick t) (b / 256);
  inv_cache : cache_ok hz (wheel e);
  inv_tick : forall id t, timers e !! id = Some t -> tick_ok t
}.

Lemma tick_ok_range t h : tick_ok t -> whead t = Some h -> in_u64 (tick t).
Proof. intros H Hh. destruct H as [Hd ->]; [by rewrite Hh|]. by apply tick_up. Qed.

Lemma bucket_member e b : wheel_core e ->
  (wlist (HBucket b) (wheel e) <> [] <-> exists id t, in_bucket e id t b).
Proof.
  intros Hc. split.
  - destruct (wlist (HBucket b) (wheel e)) as [|id l] eqn:E; [done|]. intros _.
    destruct (proj1 (core_lists e Hc (HBucket b) id)) as (t & Ht); [rewrite E; apply elem_of_cons; by left|].
    by exists id, t.
  - intros (id & t & Ht) E. assert (id ∈ wlist (HBucket b) (wheel e)) as Hin
      by (apply (core_lists e Hc); eauto). rewrite E in Hin. by apply not_elem_of_nil in Hin.
Qed.

(** ** [wheel_next] *)

Lemma wheel_next_spec e :
  wheel_inv e ->
  let '(b, w1) := wheel_next hz (wheel e) in
  cache_ok hz w1 /\
  (exists nt nc, w1 = with_next_cycles nc (with_next_tick nt (wheel e))) /\
  ((b = WHEEL_BUCKETS /\ (forall id t b', ~ in_bucket e id t b')) \/
   (0 <= b < WHEEL_BUCKETS /\ wlist (HBucket b) (wheel e) <> [] /\
    (forall id t, in_bucket e id t b -> slot_start (tick t) (b / 256) = next_tick w1) /\
    (forall id t b', in_bucket e id t b' -> next_tick w1 <= slot_start (tick t) (b' / 256) /\
       (b' <> b -> next_tick w1 < slot_start (tick t) (b' / 256))))).
Proof.
  intros [Hcore Hcur Hplace Hnext Hcache Htick].
  pose proof (next_levels_best e Hcore Hcur [0; 1; 2; 3; 4; 5; 6; 7] [] (WHEEL_BUCKETS, UINT64_MAX)) as Hb.
  unfold wheel_next. destruct (next_levels _ _ _) as [b nt] eqn:E. cbn [app] in Hb.
  assert (forall l, l ∈ [0; 1; 2; 3; 4; 5; 6; 7] <-> 0 <= l < 8) as Hlv.
  { intros l. rewrite !elem_of_cons, elem_of_nil. lia. }
  specialize (Hb ltac:(intros; by apply Hlv)).
  assert (best e [] (WHEEL_BUCKETS, UINT64_MAX)) as H0.
  { left. split; [done|]. intros l s Hl. by apply not_elem_of_nil in Hl. }
  specialize (Hb H0). clear H0.
  assert (forall id t b', in_bucket e id t b' -> 0 <= b' < 2048 /\ bucket_full (wheel e) (b' / 256) (b' mod 256)) as Hfull.
  { intros id t b' Ht. pose proof (core_range e Hcore id t b' (proj1 Ht) (proj2 Ht)) as Hr. split; [done|].
    unfold bucket_full. rewrite Z.mul_comm, <- Z.div_mod by lia. apply bucket_member; eauto. }
  destruct Hb as [[Heq Hnone]|(l & s & Hl & Hs & Heq & Hf & Hmin)]; simplify_eq.
  - split; [apply cache_ok_next; [done|unfold in_u64, UINT64_MAX; lia]|]. split; [by eexists _, _|].
    left. split; [done|]. intros id t b' Ht. destruct (Hfull id t b' Ht) as [Hr Hbf].
    eapply (Hnone (b' / 256) (b' mod 256)); [apply Hlv| |done]; Z.to_euclidean_division_equations; lia.
  - destruct (slot_index l s Hs) as (_ & _ & Hd & Hm).
    assert (exists id t, in_bucket e id t (l * 256 + s)) as (id0 & t0 & Ht0) by (by apply bucket_member).
    pose proof (Hplace _ _ _ Ht0) as Hp0. rewrite Hd, Hm in Hp0.
    pose proof (placed_boundary _ _ _ _ Hcur Hp0) as Hb0. pose proof (placed_ahead _ _ _ _ Hp0) as Ha0.
    pose proof (tick_ok_range t0 _ (Htick _ _ (proj1 Ht0)) (proj2 Ht0)) as Htk0.
    split; [apply cache_ok_next; [done|unfold in_u64 in *; lia]|]. split; [by eexists _, _|].
    right. unfold WHEEL_BUCKETS, WHEEL_LEVELS, WHEEL_SLOTS. split; [lia|]. split; [done|].
    change (next_tick (wheel_cache_next ?h (with_next_tick ?n ?w))) with n.
    assert (forall id t b', in_bucket e id t b' ->
              wheel_boundary (cursor (wheel e)) l s <= slot_start (tick t) (b' / 256)) as Hle.
    { intros id t b' Ht. destruct (Hfull id t b' Ht) as [Hr Hbf]. pose proof (Hplace _ _ _ Ht) as Hp.
      rewrite <- (placed_boundary _ _ _ _ Hcur Hp). apply Hmin; [| |done]; [apply Hlv|];
        Z.to_euclidean_division_equations; lia. }
    split.
    + intros id t Ht. pose proof (Hplace _ _ _ Ht) as Hp. rewrite Hd, Hm in Hp. rewrite Hd.
      symmetry. by apply placed_boundary.
    + intros id t b' Ht. split; [by eapply Hle|]. intros Hne. pose proof (Hle id t b' Ht) as H1.
      destruct (Z.eq_dec (wheel_boundary (cursor (wheel e)) l s) (slot_start (tick t) (b' / 256))) as [He|]; [|lia].
      exfalso. apply Hne. rewrite Hb0 in He.
      destruct (placed_same_start _ _ _ _ _ _ _ Hp0 (Hplace _ _ _ Ht) He) as [-> ->].
      destruct (Hfull id t b' Ht) as [Hr _]. Z.to_euclidean_division_equations; lia.
Qed.

(** ** Measure and movement *)

Definition weight (t : owner_timer) : nat :=
  match whead t with Some (HBucket b) => S (Z.to_nat (b / 256)) | _ => 0%nat end.
Definition total_weight (e : owner_timer_engine) : nat :=
  map_fold (fun _ t a => weight t + a)%nat 0%nat (timers e).

Lemma fold_delete (f : owner_timer -> nat) (m : gmap Z owner_timer) i t :
  m !! i = Some t ->
  map_fold (fun _ t a => f t + a)%nat 0%nat m
  = (f t + map_fold (fun _ t a => f t + a)%nat 0%nat (delete i m))%nat.
Proof.
  intros Hi. rewrite <- (insert_delete_id m i t Hi) at 1.
  rewrite map_fold_insert_L; [done|intros; lia|by rewrite lookup_delete_eq].
Qed.

Lemma weight_alter (g : owner_timer -> owner_timer) (m : gmap Z owner_timer) i t :
  m !! i = Some t ->
  (map_fold (fun _ t a => weight t + a)%nat 0%nat (alter g i m) + weight t
   = map_fold (fun _ t a => weight t + a)%nat 0%nat m + weight (g t))%nat.
Proof.
  intros Hi. rewrite (fold_delete weight m i t Hi).
  rewrite (fold_delete weight (alter g i m) i (g t)) by (by rewrite lookup_alter_eq, Hi).
  rewrite delete_alter_eq. lia.
Qed.

Lemma weight_bound e :
  wheel_core e -> (total_weight e <= 8 * size (timers e))%nat.
Proof.
  intros Hc. unfold total_weight. pose proof (core_range e Hc) as Hr. revert Hr.
  generalize (timers e) as m. clear Hc e. intros m. induction m as [|i t m Hi IH] using map_ind; intros Hr.
  { by rewrite map_fold_empty. }
  rewrite map_fold_insert_L by (done || (intros; lia)). rewrite map_size_insert_None by done.
  assert (weight t <= 8)%nat.
  { unfold weight. destruct (whead t) as [[b| |]|] eqn:E; [|lia..].
    specialize (Hr i t b ltac:(apply lookup_insert_eq) E).
    assert (b / 256 < 8) by (apply Z.div_lt_upper_bound; lia). lia. }
  assert (map_fold (fun (_ : Z) t a => weight t + a)%nat 0%nat m <= 8 * size m)%nat; [|lia].
  apply IH. intros j t' b Hj. apply (Hr j t' b). rewrite lookup_insert_ne; [done|congruence].
Qed.

Definition move_of (target : Z) (t : owner_timer) (h : option whead_t) : Prop :=
  match whead t with
  | Some (HBucket _) => (h = Some HReady /\ tick t <= target) \/ (exists b', h = Some (HBucket b'))
  | o => h = o
  end.

Definition moved (target : Z) (e e' : owner_timer_engine) : Prop :=
  forall id, match timers e !! id with
  | None => timers e' !! id = None
  | Some t => exists h, timers e' !! id = Some (with_whead h t) /\ move_of target t h
  end.

Lemma with_whead_id t : with_whead (whead t) t = t.
Proof. by destruct t. Qed.
Lemma with_whead_twice h h' t : with_whead h (with_whead h' t) = with_whead h t.
Proof. done. Qed.

Lemma moved_refl target e : moved target e e.
Proof.
  intros id. destruct (timers e !! id) as [t|]; [|done]. exists (whead t). rewrite with_whead_id.
  split; [done|]. unfold move_of. destruct (whead t) as [[b| |]|]; eauto.
Qed.
Lemma moved_trans target a b c : moved target a b -> moved target b c -> moved target a c.
Proof.
  intros H1 H2 id. specialize (H1 id). specialize (H2 id). destruct (timers a !! id) as [t|].
  - destruct H1 as (h & H1 & M1). rewrite H1 in H2. destruct H2 as (h' & H2 & M2).
    exists h'. rewrite with_whead_twice in H2. split; [done|]. unfold move_of in *.
    cbn [whead with_whead tick] in M2.
    destruct (whead t) as [[x| |]|]; try (by subst). destruct M1 as [[-> Hle]|[b' ->]]; [|done].
    left. by subst.
  - by rewrite H1 in H2.
Qed.

Lemma moved_alter target e e' id t h :
  timers e !! id = Some t -> timers e' = alter (with_whead h) id (timers e) ->
  move_of target t h -> moved target e e'.
Proof.
  intros Ht He Hm x. rewrite He. destruct (decide (x = id)) as [->|Hx].
  - rewrite lookup_alter_eq, Ht. by exists h.
  - rewrite lookup_alter_ne by done. apply (moved_refl target e x).
Qed.

(** ** Draining a bucket *)

Record drain_inv (b B : Z) (e : owner_timer_engine) : Prop := {
  di_core : wheel_core e;
  di_cursor : cursor (wheel e) = B;
  di_here : forall id t, in_bucket e id t b -> slot_start (tick t) (b / 256) = B;
  di_place : forall id t b', in_bucket e id t b' -> b' <> b -> placed_at B (tick t) (b' / 256) (b' mod 256);
  di_next : next_tick (wheel e) = B;
  di_cache : cache_ok hz (wheel e);
  di_tick : forall id t, timers e !! id = Some t -> tick_ok t
}.

(** Moving one node out of the bucket. *)
Lemma drain_move b B target e e2 id t h :
  drain_inv b B e -> in_bucket e id t b ->
  wheel_core e2 -> timers e2 = alter (with_whead (Some h)) id (timers e) ->
  cursor (wheel e2) = B -> next_tick (wheel e2) = B -> cache_ok hz (wheel e2) ->
  (h = HReady /\ tick t <= target \/
   exists b2, h = HBucket b2 /\ b2 / 256 < b / 256 /\ 0 <= b2 /\ placed_at B (tick t) (b2 / 256) (b2 mod 256)) ->
  drain_inv b B e2 /\ moved target e e2 /\ (total_weight e2 < total_weight e)%nat.
Proof.
  intros [Hc Hcur Hhere Hplace Hnext Hcache Htick] [Ht Hh] Hc2 Htm Hcur2 Hn2 Hca2 Hcase.
  assert (forall x t', timers e2 !! x = Some t' ->
    (x = id /\ t' = with_whead (Some h) t) \/ (x <> id /\ timers e !! x = Some t')) as Hlook.
  { intros x t'. rewrite Htm. destruct (decide (x = id)) as [->|Hx].
    - rewrite lookup_alter_eq, Ht. intros [= <-]. by left.
    - rewrite lookup_alter_ne by done. by right. }
  split; [|split].
  - constructor; try done.
    + intros x t' [[[-> ->]|[Hx Hl]]%Hlook Hh']; [|by eapply Hhere].
      destruct Hcase as [[-> _]|(b2 & -> & Hb2 & _)]; [done|]. cbn in Hh'. injection Hh' as ->. lia.
    + intros x t' b' [[[-> ->]|[Hx Hl]]%Hlook Hh'] Hne; [|by eapply Hplace].
      destruct Hcase as [[-> _]|(b2 & -> & _ & _ & Hp)]; [done|]. cbn in Hh'. by injection Hh' as <-.
    + intros x t' [[-> ->]|[Hx Hl]]%Hlook; [|by eapply Htick].
      intros _. apply (Htick id t Ht). by rewrite Hh.
  - eapply moved_alter; [done..|]. unfold move_of. rewrite Hh.
    destruct Hcase as [[-> ?]|(b2 & -> & _)]; [by left|right; eauto].
  - unfold total_weight. rewrite Htm.
    pose proof (weight_alter (with_whead (Some h)) (timers e) id t Ht) as Hw.
    assert (weight (with_whead (Some h) t) < weight t)%nat; [|lia].
    unfold weight. rewrite Hh. cbn [whead with_whead].
    destruct Hcase as [[-> _]|(b2 & -> & Hb2 & Hb20 & _)]; [lia|].
    pose proof (Z.div_pos b2 256 ltac:(lia) ltac:(lia)). lia.
Qed.

Lemma alter_whead_twice (m : gmap Z owner_timer) id h h' :
  alter (with_whead h) id (alter (with_whead h') id m) = alter (with_whead h) id m.
Proof. rewrite alter_alter_eq. by apply alter_ext. Qed.

Lemma drain_step b B target now e id rest :
  in_u64 now -> target = poll_target hz now -> B <= target -> in_u64 B -> 0 <= b ->
  drain_inv b B e -> wlist (HBucket b) (wheel e) = id :: rest ->
  let e1 := wheel_unlink id e in
  let due := match timers e1 !! id with
             | Some t => (tick t <=? target) && (deadline_cycles t <=? now)
             | None => false
             end in
  let e2 := if due then wheel_link id HReady e1 else wheel_schedule hz id e1 in
  drain_inv b B e2 /\ wlist (HBucket b) (wheel e2) = rest /\ moved target e e2 /\
  (total_weight e2 < total_weight e)%nat /\ same_rest e e2.
Proof.
  intros Hnow Htgt HB HBu Hb Hdi Hlist e1. pose proof Hdi as [Hc Hcur Hhere Hplace Hnext Hcache Htick].
  destruct (proj1 (core_lists e Hc (HBucket b) id)) as (t & Ht & Hh); [rewrite Hlist; apply elem_of_cons; by left|].
  assert (in_bucket e id t b) as Hin by done.
  destruct (unlink_timers id e t _ Ht Hh) as (Etm & Els & Ecur & Ent & Enc & Hsr). fold e1 in Etm, Els, Ecur, Ent, Enc, Hsr.
  pose proof (unlink_core id e t _ Hc Ht Hh) as Hc1. fold e1 in Hc1.
  assert (timers e1 !! id = Some (with_whead None t)) as Ht1 by (by rewrite Etm, lookup_alter_eq, Ht).
  assert (wlist (HBucket b) (wheel e1) = rest) as Hrest.
  { rewrite Els, bool_decide_eq_true_2, Hlist by done. apply remove_id_head.
    pose proof (core_nodup e Hc (HBucket b)) as Hnd. rewrite Hlist in Hnd. by apply NoDup_cons in Hnd as [? _]. }
  rewrite Ht1. cbn [tick deadline_cycles with_whead]. cbv zeta.
  destruct (Htick id t Ht) as [Hdl Htk]; [by rewrite Hh|].
  pose proof (tick_ok_range t _ (Htick id t Ht) Hh) as Htku.
  assert (((tick t <=? target) && (deadline_cycles t <=? now)) = (tick t <=? target)) as ->.
  { destruct (Z.leb_spec (tick t) target) as [Hle|]; [|done]. cbn. apply Z.leb_le.
    apply (reached_is_due hz Hhz); [done..|]. by rewrite <- Htk, <- Htgt. }
  destruct (Z.leb_spec (tick t) target) as [Hle|Hgt].
  - destruct (link_timers id HReady e1) as (Etm2 & Els2 & _ & Ecur2 & Ent2 & Enc2 & Hsr2).
    assert (timers (wheel_link id HReady e1) = alter (with_whead (Some HReady)) id (timers e)) as Etm3
      by (by rewrite Etm2, Etm, alter_whead_twice).
    destruct (drain_move b B target e (wheel_link id HReady e1) id t HReady) as (H1 & H2 & H3); try done.
    + by apply (link_queue_core id HReady e1 (with_whead None t)).
    + by rewrite Ecur2, Ecur.
    + by rewrite Ent2, Ent.
    + unfold cache_ok. rewrite Ent2, Enc2, Ent, Enc. exact Hcache.
    + by left.
  - destruct (schedule_spec hz Hhz id e1 (with_whead None t)) as (Hc2 & Etm2 & Ecur2 & Efr & Hca2 & _ & _ & Hnt & Hsr2);
      [done..|by rewrite Ecur, Hcur|done|unfold cache_ok; rewrite Ent, Enc; exact Hcache|].
    cbn [tick with_whead] in *. rewrite Ecur, Hcur in *.
    pose proof (sched_placed B (tick t) ltac:(unfold in_u64 in *; lia) (proj2 Htku)) as Hp.
    set (l2 := sched_level (tick t) B) in *. set (s2 := sched_slot (tick t) B) in *.
    assert (sched_head (tick t) B = HBucket (l2 * 256 + s2)) as Hhead
      by (unfold sched_head; destruct (Z.leb_spec (tick t) B); [lia|done]).
    rewrite Hhead in Etm2, Efr.
    assert (0 <= l2 < 8 /\ 0 <= s2 < 256) as [Hl2 Hs2] by (split; apply Hp).
    destruct (slot_index l2 s2 Hs2) as (_ & _ & Hd & Hm).
    assert (l2 < b / 256) as Hlow.
    { apply (placed_descends B (tick t) (b / 256) l2 s2); [apply Z.div_pos; lia| |done].
      symmetry. by apply (Hhere id t). }
    assert (timers (wheel_schedule hz id e1) = alter (with_whead (Some (HBucket (l2 * 256 + s2)))) id (timers e))
      as Etm3 by (by rewrite Etm2, Etm, alter_whead_twice).
    pose proof (placed_ahead _ _ _ _ Hp) as Hah.
    destruct (drain_move b B target e (wheel_schedule hz id e1) id t (HBucket (l2 * 256 + s2))) as (H1 & H2 & H3); try done.
    + rewrite Hnt; [by rewrite Ent|]. rewrite Ent, Hnext. lia.
    + right. exists (l2 * 256 + s2). rewrite Hd, Hm. split_and!; try done || lia; apply Hp.
    + split_and!; try done; [|by eapply same_rest_trans].
      rewrite Efr; [done|]. intros [= E]. rewrite E, Hd in Hlow. lia.
Qed.

Lemma drain_spec n b B target now e :
  in_u64 now -> target = poll_target hz now -> B <= target -> in_u64 B -> 0 <= b ->
  drain_inv b B e -> length (wlist (HBucket b) (wheel e)) = n ->
  let e' := drain_bucket hz n b target now e in
  drain_inv b B e' /\ wlist (HBucket b) (wheel e') = [] /\ moved target e e' /\
  (total_weight e' + n <= total_weight e)%nat /\ same_rest e e'.
Proof.
  intros Hnow Htgt HB HBu Hb. revert e. induction n as [|n IH]; intros e Hdi Hlen; cbv zeta.
  { cbn [drain_bucket]. destruct (wlist (HBucket b) (wheel e)); [|done].
    split_and!; try done || lia. apply moved_refl. }
  cbn [drain_bucket]. destruct (wlist (HBucket b) (wheel e)) as [|id rest] eqn:E; [done|].
  destruct (drain_step b B target now e id rest) as (H1 & H2 & H3 & H4 & H5); try done.
  cbv zeta. set (e2 := if _ : bool then _ else _) in *.
  destruct (IH e2 H1) as (J1 & J2 & J3 & J4 & J5); [rewrite H2; by injection Hlen|].
  split_and!; [done|done|by eapply moved_trans|lia|by eapply same_rest_trans].
Qed.

(** ** The cascade *)

(** Every remaining bucket lies beyond the target. *)
Definition beyond (target : Z) (e : owner_timer_engine) : Prop :=
  forall id t b, in_bucket e id t b -> target < slot_start (tick t) (b / 256).

Lemma with_wheel_core e w' :
  (forall h, wlist h w' = wlist h (wheel e)) -> (forall k, occ_word w' k = occ_word (wheel e) k) ->
  wheel_core e -> wheel_core (with_wheel w' e).
Proof.
  intros Hw Ho [C1 C2 C3 C4 C5]. constructor; cbn [wheel with_wheel timers]; try done.
  - intros. rewrite Hw. apply C1.
  - intros. rewrite Hw. apply C2.
  - intros b Hb. unfold occ_bit. rewrite Ho, Hw. by apply C4.
  - intros. rewrite Ho. apply C5.
Qed.

(** Recomputing the next expiry keeps the invariant. *)
Lemma wheel_next_inv e :
  wheel_inv e -> wheel_inv (wheel_alter (fun w => snd (wheel_next hz w)) e).
Proof.
  intros Hinv. pose proof (wheel_next_spec e Hinv) as Hn. unfold wheel_alter.
  destruct (wheel_next hz (wheel e)) as [b w1]. cbn [snd].
  destruct Hn as (Hca & (nt & nc & ->) & Hcase). destruct Hinv as [Hcore Hcur Hplace Hnext Hcache Htick].
  constructor; cbn [wheel with_wheel timers]; try done.
  - apply with_wheel_core; [by intros []|done|done].
  - intros id t b' Ht. destruct Hcase as [[_ Hno]|(_ & _ & _ & Hle)]; [by destruct (Hno id t b')|].
    by apply (Hle id t b').
Qed.

Lemma cascade_step e b w1 target now :
  in_u64 now -> target = poll_target hz now ->
  wheel_inv e -> wheel_next hz (wheel e) = (b, w1) -> b <> WHEEL_BUCKETS -> next_tick w1 <= target ->
  let e1 := with_wheel (with_cursor (next_tick w1) w1) e in
  let e2 := drain_bucket hz (length (wlist (HBucket b) (wheel e1))) b target now e1 in
  let e3 := wheel_alter (fun w => snd (wheel_next hz w)) e2 in
  wheel_inv e3 /\ moved target e e3 /\ (total_weight e3 < total_weight e)%nat /\ same_rest e e3 /\
  cursor (wheel e) <= cursor (wheel e3) <= target.
Proof.
  intros Hnow Htgt Hinv Hwn Hb Hle e1 e2 e3.
  pose proof (wheel_next_spec e Hinv) as Hn. rewrite Hwn in Hn.
  destruct Hn as (Hca & (nt & nc & Hw1) & [[? _]|(Hr & Hne & Hhere & Hothers)]); [done|].
  pose proof Hinv as [Hcore Hcur Hplace Hnext Hcache Htick].
  set (B := next_tick w1) in *.
  assert (exists id t, in_bucket e id t b) as (id0 & t0 & Ht0) by (by apply bucket_member).
  pose proof (placed_ahead _ _ _ _ (Hplace _ _ _ Ht0)) as Ha0. rewrite (Hhere _ _ Ht0) in Ha0.
  assert (in_u64 B) as HBu by apply Hca.
  assert (drain_inv b B e1) as Hdi.
  { constructor; try done.
    - apply with_wheel_core; subst w1; [by intros []|done|done].
    - intros id t b' Ht Hne'. apply (placed_advance (cursor (wheel e))); [by eapply (Hplace id)|].
      split; [lia|]. by apply (Hothers id t b'). }
  destruct (drain_spec (length (wlist (HBucket b) (wheel e1))) b B target now e1)
    as (D1 & D2 & D3 & D4 & D5); try done || lia. fold e2 in D1, D2, D3, D4, D5.
  assert (length (wlist (HBucket b) (wheel e1)) <> 0%nat) as Hlen.
  { replace (wlist (HBucket b) (wheel e1)) with (wlist (HBucket b) (wheel e)) by (by subst e1 w1).
    by destruct (wlist (HBucket b) (wheel e)). }
  assert (wheel_inv e2) as Hinv2.
  { destruct D1 as [C1 C2 C3 C4 C5 C6 C7].
    assert (forall id t b', in_bucket e2 id t b' -> b' <> b) as Hnb.
    { intros id t b' Ht ->. assert (exists id t, in_bucket e2 id t b) as Hex by eauto.
      by apply bucket_member in Hex. }
    constructor; try done.
    - by rewrite C2.
    - intros id t b' Ht. rewrite C2. apply (C4 id t b' Ht). by eapply Hnb.
    - intros id t b' Ht. rewrite C5. pose proof (placed_ahead _ _ _ _ (C4 id t b' Ht ltac:(by eapply Hnb))). lia. }
  assert (cursor (wheel e3) = B) as Hc3.
  { unfold e3, wheel_alter. cbn [wheel with_wheel].
    pose proof (wheel_next_spec e2 Hinv2) as Hn2. destruct (wheel_next hz (wheel e2)) as [b3 w3]. cbn [snd].
    destruct Hn2 as (_ & (nt3 & nc3 & ->) & _). apply (di_cursor _ _ _ D1). }
  split_and!.
  - by apply wheel_next_inv.
  - exact D3.
  - change (total_weight e3) with (total_weight e2). change (total_weight e) with (total_weight e1). lia.
  - assert (same_rest e e1) as S1 by (subst e1 w1; by split_and!).
    assert (same_rest e2 e3) as S3.
    { unfold e3, wheel_alter. pose proof (wheel_next_spec e2 Hinv2) as Hn2.
      destruct (wheel_next hz (wheel e2)) as [b3 w3]. destruct Hn2 as (_ & (nt3 & nc3 & ->) & _). by split_and!. }
    by eapply same_rest_trans; [eapply same_rest_trans|].
  - lia.
  - lia.
Qed.

Lemma cascade_spec fuel target now e :
  in_u64 now -> target = poll_target hz now -> wheel_inv e -> (total_weight e < fuel)%nat ->
  let e' := cascade hz fuel target now e in
  wheel_inv e' /\ moved target e e' /\ beyond target e' /\ same_rest e e' /\
  cursor (wheel e) <= cursor (wheel e') /\ (cursor (wheel e) <= target -> cursor (wheel e') <= target).
Proof.
  intros Hnow Htgt. revert e. induction fuel as [|fuel IH]; intros e Hinv Hf; [lia|].
  cbv zeta. cbn [cascade]. destruct (Z.leb_spec (next_tick (wheel e)) target) as [Hle|Hgt]; cbn [negb].
  2:{ split; [done|]. split; [apply moved_refl|]. split; [|split; [apply same_rest_refl|lia]].
      intros id t b Ht. pose proof (inv_next e Hinv id t b Ht). lia. }
  pose proof (wheel_next_spec e Hinv) as Hn. pose proof (wheel_next_inv e Hinv) as Hni.
  unfold wheel_alter in Hni. destruct (wheel_next hz (wheel e)) as [b w1] eqn:Hwn. cbn [snd] in Hni.
  destruct Hn as (Hca & (nt & nc & Hw1) & Hcase).
  assert (same_rest e (with_wheel w1 e) /\ cursor w1 = cursor (wheel e)) as [Hsr Hcw] by (subst w1; by split_and!).
  destruct (Z.eqb_spec b WHEEL_BUCKETS) as [->|Hb]; cbn [orb].
  { destruct Hcase as [[_ Hno]|[Hr _]]; [|lia].
    split; [done|]. split; [apply (moved_refl target e)|].
    split; [intros id t b' Ht; by destruct (Hno id t b')|]. cbn [wheel with_wheel]. split; [done|]. lia. }
  destruct (Z.ltb_spec target (next_tick w1)) as [Hlt|Hge].
  { destruct Hcase as [[? _]|(Hr & _ & _ & Hothers)]; [done|].
    split; [done|]. split; [apply (moved_refl target e)|].
    split; [intros id t b' Ht; pose proof (proj1 (Hothers id t b' Ht)); lia|].
    cbn [wheel with_wheel]. split; [done|]. lia. }
  destruct (cascade_step e b w1 target now Hnow Htgt Hinv Hwn Hb Hge) as (S1 & S2 & S3 & S4 & S5).
  set (e3 := wheel_alter _ _) in *.
  destruct (IH e3 S1 ltac:(lia)) as (J1 & J2 & J3 & J4 & J5 & J6).
  split; [done|]. split; [by eapply moved_trans|]. split; [done|]. split; [by eapply same_rest_trans|].
  split; [lia|]. intros _. apply J6. lia.
Qed.
End Cascade.
