(* ===== verification/OwnerTimerFacts.v ===== *)
(** * Owner timers: collection, arming, cancelling and the engine invariant *)

From stdpp Require Import gmap.
From S2P Require Import Prelude Config OwnerTimer OwnerTimerPlace OwnerTimerCore OwnerTimerWheel OwnerTimerCascade.

Section Facts.
Context (hz : Z) (Hhz : 1000 <= hz < W64).

(** ** The placement invariant under the elementary updates *)

Lemma wheel_inv_ext e e' :
  wheel e' = wheel e -> timers e' = timers e -> wheel_inv hz e -> wheel_inv hz e'.
Proof.
  intros Hw Ht [[C1 C2 C3 C4 C5] I2 I3 I4 I5 I6].
  constructor; [constructor|..]; unfold in_bucket in *; rewrite ?Hw, ?Ht; done.
Qed.

Lemma wheel_inv_flags e w' :
  (forall h, wlist h w' = wlist h (wheel e)) -> occupied w' = occupied (wheel e) ->
  cursor w' = cursor (wheel e) -> next_tick w' = next_tick (wheel e) ->
  next_cycles w' = next_cycles (wheel e) -> wheel_inv hz e -> wheel_inv hz (with_wheel w' e).
Proof.
  intros Hl Ho Hc Hn Hnc [I1 I2 I3 I4 I5 I6].
  constructor; cbn [wheel with_wheel timers]; unfold cache_ok in *; rewrite ?Hc, ?Hn, ?Hnc; try done.
  apply with_wheel_core; [done|intros; unfold occ_word; by rewrite Ho|done].
Qed.

(** Changing the other fields of an unlinked node. *)
Lemma wheel_inv_alter e id t f :
  wheel_inv hz e -> timers e !! id = Some t -> whead t = None -> whead (f t) = None ->
  wheel_inv hz (timer_alter f id e).
Proof.
  intros [[C1 C2 C3 C4 C5] I2 I3 I4 I5 I6] Ht Hh Hf.
  assert (forall x t', timers (timer_alter f id e) !! x = Some t' ->
            (x = id /\ t' = f t) \/ (x <> id /\ timers e !! x = Some t')) as Hlook.
  { intros x t'. unfold timer_alter. cbn [timers with_timers]. destruct (decide (x = id)) as [->|Hx].
    - rewrite lookup_alter_eq, Ht. intros [= <-]. by left.
    - rewrite lookup_alter_ne by done. by right. }
  assert (forall x t' h, timers (timer_alter f id e) !! x = Some t' -> whead t' = Some h ->
            timers e !! x = Some t') as Hold
    by (intros x t' h [[-> ->]|[_ H]]%Hlook Hh'; [congruence|done]).
  constructor; [constructor|..]; try done.
  - intros h x. change (wheel (timer_alter f id e)) with (wheel e). rewrite C1.
    split; intros (t' & Ht' & Hh'); [|exists t'; split; [by eapply Hold|done]].
    exists t'. split; [|done]. unfold timer_alter. cbn [timers with_timers].
    rewrite lookup_alter_ne; [done|]. intros ->. congruence.
  - intros x t' b Ht' Hh'. eapply C3; [by eapply Hold|done].
  - intros x t' b [Ht' Hh']. eapply I3. split; [by eapply Hold|done].
  - intros x t' b [Ht' Hh']. eapply I4. split; [by eapply Hold|done].
  - intros x t' [[-> ->]|[_ H]]%Hlook; [by intros|by eapply I6].
Qed.

Lemma wheel_inv_unlink e id t h :
  wheel_inv hz e -> timers e !! id = Some t -> whead t = Some h -> wheel_inv hz (wheel_unlink id e).
Proof.
  intros [I1 I2 I3 I4 I5 I6] Ht Hh.
  destruct (unlink_timers id e t h Ht Hh) as (Etm & Els & Ecur & Ent & Enc & _).
  assert (forall x t', timers (wheel_unlink id e) !! x = Some t' ->
            whead t' = None \/ timers e !! x = Some t') as Hlook.
  { intros x t'. rewrite Etm. destruct (decide (x = id)) as [->|Hx].
    - rewrite lookup_alter_eq, Ht. intros [= <-]. by left.
    - rewrite lookup_alter_ne by done. by right. }
  constructor; unfold cache_ok in *; rewrite ?Ecur, ?Ent, ?Enc; try done.
  - by apply (unlink_core id e t h).
  - intros x t' b [[Hn|Hx]%Hlook Hb]; [congruence|by eapply I3].
  - intros x t' b [[Hn|Hx]%Hlook Hb]; [congruence|by eapply I4].
  - intros x t' [Hn|Hx]%Hlook; [by intros ?|by eapply I6].
Qed.

(** A node ready to be linked: unlinked, with its tick computed. *)
Definition linkable (t : owner_timer) : Prop :=
  whead t = None /\ in_u64 (deadline_cycles t) /\ tick t = wheel_tick hz (deadline_cycles t) true.

Lemma wheel_inv_linked e e' id t h :
  wheel_inv hz e -> timers e !! id = Some t -> linkable t ->
  wheel_core e' -> timers e' = alter (with_whead (Some h)) id (timers e) ->
  cursor (wheel e') = cursor (wheel e) -> next_tick (wheel e') <= next_tick (wheel e) ->
  cache_ok hz (wheel e') ->
  (forall b, h = HBucket b -> placed_at (cursor (wheel e)) (tick t) (b / 256) (b mod 256) /\
     next_tick (wheel e') <= slot_start (tick t) (b / 256)) ->
  wheel_inv hz e'.
Proof.
  intros [I1 I2 I3 I4 I5 I6] Ht (Hh & Hd & Htk) Hc' Etm Ecur Ent Hca Hb.
  assert (forall x t', timers e' !! x = Some t' ->
            (x = id /\ t' = with_whead (Some h) t) \/ timers e !! x = Some t') as Hlook.
  { intros x t'. rewrite Etm. destruct (decide (x = id)) as [->|Hx].
    - rewrite lookup_alter_eq, Ht. intros [= <-]. by left.
    - rewrite lookup_alter_ne by done. by right. }
  constructor; rewrite ?Ecur; try done.
  - intros x t' b [[[-> ->]|Hx]%Hlook Hw]; [|by eapply I3]. cbn in Hw. injection Hw as ->. by apply Hb.
  - intros x t' b [[[-> ->]|Hx]%Hlook Hw].
    + cbn in Hw. injection Hw as ->. by apply Hb.
    + pose proof (I4 x t' b (conj Hx Hw)). lia.
  - intros x t' [[-> ->]|Hx]%Hlook; [by intros _|by eapply I6].
Qed.

Lemma wheel_inv_queue e id t h :
  wheel_inv hz e -> timers e !! id = Some t -> linkable t -> (forall b, h <> HBucket b) ->
  wheel_inv hz (wheel_link id h e).
Proof.
  intros Hi Ht Hl Hq. destruct (link_timers id h e) as (Etm & _ & _ & Ecur & Ent & Enc & _).
  eapply wheel_inv_linked; [exact Hi|exact Ht|exact Hl| |exact Etm|exact Ecur|lia| |].
  - apply (link_queue_core id h e t); [by apply inv_core in Hi|done|apply Hl|done].
  - unfold cache_ok. rewrite Ent, Enc. apply Hi.
  - intros b ->. by destruct (Hq b).
Qed.

Lemma wheel_inv_schedule e id t :
  wheel_inv hz e -> timers e !! id = Some t -> linkable t ->
  let e' := wheel_schedule hz id e in
  wheel_inv hz e' /\ same_rest e e' /\ cursor (wheel e') = cursor (wheel e) /\
  timers e' = alter (with_whead (Some (sched_head (tick t) (cursor (wheel e))))) id (timers e).
Proof.
  intros Hi Ht Hl. cbv zeta. pose proof Hi as [I1 I2 I3 I4 I5 I6].
  assert (in_u64 (tick t)) as Htk by (destruct Hl as (_ & Hd & ->); by apply tick_up).
  destruct (schedule_spec hz Hhz id e t I1 Ht (proj1 Hl) I2 Htk I5)
    as (Hc & Etm & Ecur & _ & Hca & Hle & Hbn & _ & Hs).
  split_and!; try done; try apply Hs. eapply wheel_inv_linked; try done.
  intros b Hb. unfold sched_head in Hb. destruct (Z.leb_spec (tick t) (cursor (wheel e))) as [|Hgt]; [done|].
  injection Hb as <-.
  pose proof (sched_placed (cursor (wheel e)) (tick t) ltac:(unfold in_u64 in *; lia) (proj2 Htk)) as Hp.
  destruct (slot_index (sched_level (tick t) (cursor (wheel e))) (sched_slot (tick t) (cursor (wheel e))))
    as (_ & _ & -> & ->); [apply Hp|]. split; [done|]. by apply Hbn.
Qed.

(** ** Collection *)

Lemma move_immediate_spec n e :
  wheel_inv hz e -> length (immediate (wheel e)) = n ->
  let e' := move_immediate n e in
  wheel_inv hz e' /\ same_rest e e' /\ cursor (wheel e') = cursor (wheel e) /\
  (forall id, timers e' !! id =
     (fun t => if bool_decide (whead t = Some HImmediate) then with_whead (Some HReady) t else t)
       <$> timers e !! id).
Proof.
  revert e. induction n as [|n IH]; intros e Hi Hlen; cbv zeta.
  { cbn [move_immediate]. split; [done|]. split; [apply same_rest_refl|]. split; [done|].
    intros id. destruct (timers e !! id) as [t|] eqn:Ht; [|done]. cbn. case_bool_decide as Hh; [|done].
    assert (id ∈ wlist HImmediate (wheel e)) as Hin by (apply (core_lists e (inv_core hz e Hi)); eauto).
    cbn in Hin. apply length_zero_iff_nil in Hlen. rewrite Hlen in Hin. by apply not_elem_of_nil in Hin. }
  cbn [move_immediate]. destruct (immediate (wheel e)) as [|id rest] eqn:E; [done|].
  pose proof (inv_core hz e Hi) as Hc.
  destruct (proj1 (core_lists e Hc HImmediate id)) as (t & Ht & Hh); [cbn; rewrite E; apply elem_of_cons; by left|].
  destruct (unlink_timers id e t _ Ht Hh) as (Etm & Els & Ecur & Ent & Enc & Hsr).
  pose proof (wheel_inv_unlink e id t _ Hi Ht Hh) as Hi1. set (e1 := wheel_unlink id e) in *.
  assert (timers e1 !! id = Some (with_whead None t)) as Ht1 by (by rewrite Etm, lookup_alter_eq, Ht).
  assert (linkable (with_whead None t)) as Hl1.
  { destruct (inv_tick hz e Hi id t Ht) as [? ?]; [by rewrite Hh|]. by split_and!. }
  pose proof (wheel_inv_queue e1 id _ HReady Hi1 Ht1 Hl1 ltac:(done)) as Hi2.
  destruct (link_timers id HReady e1) as (Etm2 & Els2 & _ & Ecur2 & _ & _ & Hsr2).
  set (e2 := wheel_link id HReady e1) in *.
  destruct (IH e2 Hi2) as (J1 & J2 & J3 & J4).
  { change (immediate (wheel e2)) with (wlist HImmediate (wheel e2)).
    rewrite Els2, (bool_decide_eq_false_2 (HImmediate = HReady)), Els,
      (bool_decide_eq_true_2 (HImmediate = HImmediate)) by done.
    change (wlist HImmediate (wheel e)) with (immediate (wheel e)). rewrite E, remove_id_head.
    - by injection Hlen.
    - pose proof (core_nodup e Hc HImmediate) as Hnd. cbn in Hnd. rewrite E in Hnd.
      by apply NoDup_cons in Hnd as [? _]. }
  split; [done|]. split; [by eapply same_rest_trans; [eapply same_rest_trans|]|].
  split; [by rewrite J3, Ecur2, Ecur|]. intros x. rewrite J4, Etm2, Etm, alter_whead_twice.
  destruct (decide (x = id)) as [->|Hx]; [|by rewrite lookup_alter_ne].
  rewrite lookup_alter_eq, Ht. cbn. by rewrite (bool_decide_eq_true_2 (whead t = Some HImmediate)).
Qed.

(** Where collecting at target tick [target] leaves a node. *)
Definition collected (target : Z) (t : owner_timer) (h : option whead_t) : Prop :=
  match whead t with
  | Some HImmediate => h = Some HReady
  | Some (HBucket _) => if tick t <=? target then h = Some HReady else exists b, h = Some (HBucket b)
  | o => h = o
  end.

Lemma wheel_collect_spec e now :
  wheel_inv hz e -> ready (wheel e) = [] -> in_u64 now ->
  cursor (wheel e) <= poll_target hz now ->
  let e' := wheel_collect hz now e in
  wheel_inv hz e' /\ cursor (wheel e') = poll_target hz now /\ polling (wheel e') = true /\
  lcore_id e' = lcore_id e /\ e_capacity e' = e_capacity e /\ e_active e' = e_active e /\
  e_resources e' = e_resources e /\ active_list e' = active_list e /\ e_initialized e' = e_initialized e /\
  (forall id, match timers e !! id with
     | None => timers e' !! id = None
     | Some t => exists h, timers e' !! id = Some (with_whead h t) /\ collected (poll_target hz now) t h
     end).
Proof.
  intros Hi Hr Hnow Hcur. cbv zeta. unfold wheel_collect. cbv zeta. fold (poll_target hz now).
  set (target := poll_target hz now) in *.
  set (e1 := wheel_alter (with_ready []) (wheel_alter (with_polling true) e)).
  change (immediate (wheel (wheel_alter (with_polling true) e))) with (immediate (wheel e1)).
  assert (wheel_inv hz e1) as Hi1.
  { apply (wheel_inv_flags e (with_ready [] (with_polling true (wheel e)))); try done.
    by intros [b| |]. }
  destruct (move_immediate_spec (length (immediate (wheel e1))) e1 Hi1 eq_refl) as (M1 & M2 & M3 & M4).
  set (e2 := move_immediate _ e1) in *.
  assert (in_u64 target) as Htu by (by apply poll_target_range).
  destruct (cascade_spec hz Hhz (cascade_fuel e2) target now e2) as (C1 & C2 & C3 & C4 & C5 & C6); try done.
  { unfold cascade_fuel. pose proof (weight_bound e2 (inv_core hz e2 M1)). lia. }
  set (e3 := cascade hz (cascade_fuel e2) target now e2) in *.
  assert (cursor (wheel e3) <= target) as Hc3 by (apply C6; rewrite M3; exact Hcur).
  assert (forall w', w' = with_cursor target (wheel e3) -> wheel_inv hz (with_wheel w' e3)) as Hadv.
  { intros w' ->. destruct C1 as [I1 I2 I3 I4 I5 I6].
    constructor; cbn [wheel with_wheel timers]; try done.
    - apply with_wheel_core; [by intros []|done|done].
    - intros id t b Hb. apply (placed_advance (cursor (wheel e3))); [by eapply (I3 id)|].
      split; [done|]. by eapply (C3 id). }
  assert (forall id, match timers e !! id with
     | None => timers e3 !! id = None
     | Some t => exists h, timers e3 !! id = Some (with_whead h t) /\ collected target t h
     end) as Hmap.
  { intros id. specialize (M4 id). specialize (C2 id). change (timers e1) with (timers e) in M4.
    destruct (timers e !! id) as [t|] eqn:Ht; cbn [fmap option_fmap option_map] in M4; rewrite M4 in C2; [|done].
    unfold collected. destruct C2 as (h & Hh & Hmv). exists h. destruct (whead t) as [[b| |]|] eqn:Hw;
      first [rewrite bool_decide_eq_false_2 in Hh, Hmv by done|rewrite bool_decide_eq_true_2 in Hh, Hmv by done];
      (split; [done|]); unfold move_of in Hmv; cbn [whead with_whead] in Hmv; rewrite ?Hw in Hmv; try done.
    destruct Hmv as [[-> Hle]|[b' ->]].
    - by destruct (Z.leb_spec (tick t) target); [|lia].
    - assert (in_bucket e3 id (with_whead (Some (HBucket b')) t) b') as Hb by done.
      pose proof (C3 _ _ _ Hb) as Hgt. pose proof (inv_place hz e3 C1 _ _ _ Hb) as Hp.
      apply placed_ahead in Hp. cbn [tick with_whead] in *.
      destruct (Z.leb_spec (tick t) target); [lia|]. by eexists. }
  destruct (same_rest_trans _ _ _ M2 C4) as (R1 & R2 & R3 & R4 & R5 & R6 & R7).
  assert (polling (wheel e3) = true) as Hp3 by exact R7.
  destruct (Z.ltb_spec (cursor (wheel e3)) target).
  - split; [by apply Hadv|]. split; [done|]. split; [exact Hp3|].
    split; [exact R1|]. split; [exact R2|]. split; [exact R3|]. split; [exact R4|].
    split; [exact R5|]. split; [exact R6|exact Hmap].
  - split; [done|]. split; [lia|]. split; [exact Hp3|].
    split; [exact R1|]. split; [exact R2|]. split; [exact R3|]. split; [exact R4|].
    split; [exact R5|]. split; [exact R6|exact Hmap].
Qed.
End Facts.
