(* ===== verification/OwnerTimerRun.v ===== *)
(** * Owner timers: the engine invariant, histories and what a poll fires *)

From stdpp Require Import gmap.
From S2P Require Import Prelude Config OwnerTimer OwnerTimerPlace OwnerTimerCore OwnerTimerWheel OwnerTimerCascade OwnerTimerFacts.

Lemma remove_id_length id l :
  NoDup l -> id ∈ l -> S (length (remove_id id l)) = length l.
Proof.
  induction 1 as [|x l Hx Hnd IH]; [by intros ?%not_elem_of_nil|].
  intros [->|Hin]%elem_of_cons.
  - rewrite remove_id_head by done. done.
  - cbn. destruct (Z.eqb_spec x id) as [->|]; [done|]. cbn. f_equal. by apply IH.
Qed.

Section Run.
Context (hz : Z) (Hhz : 1000 <= hz < W64).

(** ** The engine invariant at clock reading [clock] *)

Record engine_inv (clock : Z) (e : owner_timer_engine) : Prop := {
  ei_wheel : wheel_inv hz e;
  ei_armed : forall id t, timers e !! id = Some t -> (armed t = true <-> whead t <> None);
  ei_owner : forall id t, timers e !! id = Some t -> armed t = true -> tm_engine t = Some (lcore_id e);
  ei_active : forall id, id ∈ active_list e <-> exists t, timers e !! id = Some t /\ armed t = true;
  ei_nodup : NoDup (active_list e);
  ei_count : e_active e = Z.of_nat (length (active_list e)) /\ e_active e <= e_capacity e < 4294967296;
  ei_gauge : counts_live (e_active e) (e_resources e);
  ei_clock : in_u64 clock /\ cursor (wheel e) <= poll_target hz clock;
  ei_due : forall id t, timers e !! id = Some t -> whead t = Some HImmediate \/ whead t = Some HReady ->
    deadline_cycles t <= clock
}.

Lemma engine_inv_mono c c' e : c <= c' -> in_u64 c' -> engine_inv c e -> engine_inv c' e.
Proof.
  intros Hc Hu [E1 E2 E3 E4 E5 E6 E7 [E8 E8'] E9]. constructor; try done.
  - split; [done|]. pose proof (poll_target_mono hz Hhz c c' E8 Hu Hc). lia.
  - intros id t Ht Hh. specialize (E9 id t Ht Hh). lia.
Qed.

(** ** Cancelling and firing: leaving every list *)

Definition released (t : owner_timer) : owner_timer := with_armed false (with_whead None t).

Lemma release_effect clock e id t :
  engine_inv clock e -> timers e !! id = Some t -> armed t = true ->
  let e' := owner_timer_active_unlink id (wheel_unlink id e) in
  engine_inv clock e' /\ timers e' = alter released id (timers e) /\
  lcore_id e' = lcore_id e /\ e_initialized e' = e_initialized e /\ polling (wheel e') = polling (wheel e).
Proof.
  intros [E1 E2 E3 E4 E5 [E6 E6'] E7 E8 E9] Ht Ha. cbv zeta.
  destruct (whead t) as [h|] eqn:Hh; [|by apply (E2 id t Ht) in Ha].
  destruct (unlink_timers id e t h Ht Hh) as (Etm & _ & Ecur & _ & _ & (R1 & R2 & R3 & R4 & R5 & R6 & R7)).
  pose proof (wheel_inv_unlink hz e id t h E1 Ht Hh) as Hi1. set (e1 := wheel_unlink id e) in *.
  assert (timers e1 !! id = Some (with_whead None t)) as Ht1 by (by rewrite Etm, lookup_alter_eq, Ht).
  assert (id ∈ active_list e) as Hin by (apply E4; eauto).
  pose proof (remove_id_length id _ E5 Hin) as Hlen.
  unfold owner_timer_active_unlink. rewrite Ht1. cbn [armed tm_engine with_whead].
  rewrite Ha, (E3 id t Ht Ha). cbn [negb orb]. rewrite bool_decide_eq_false_2 by done. cbv zeta.
  set (e2 := timer_alter (with_armed false) id (with_active_list (remove_id id (active_list e1)) e1)).
  change (e_active e2) with (e_active e1). rewrite R3. destruct (Z.eqb_spec (e_active e) 0); [lia|].
  set (e3 := with_e_resources _ _).
  assert (wheel_inv hz e3) as Hi3.
  { apply (wheel_inv_ext hz (timer_alter (with_armed false) id e1)); [done|done|].
    by apply (wheel_inv_alter hz e1 id (with_whead None t)). }
  assert (timers e3 = alter released id (timers e)) as Etm3.
  { change (timers e3) with (alter (with_armed false) id (timers e1)). rewrite Etm, alter_alter_eq. done. }
  assert (forall x t', timers e3 !! x = Some t' ->
            (x = id /\ t' = released t) \/ (x <> id /\ timers e !! x = Some t')) as Hlook.
  { intros x t'. rewrite Etm3. destruct (decide (x = id)) as [->|Hx].
    - rewrite lookup_alter_eq, Ht. intros [= <-]. by left.
    - rewrite lookup_alter_ne by done. by right. }
  assert (active_list e3 = remove_id id (active_list e)) as Eal by (change (active_list e3) with (remove_id id (active_list e1)); by rewrite R5).
  split; [|by split_and!]. constructor.
  - done.
  - intros x t' [[-> ->]|[_ Hx]]%Hlook; [done|by eapply E2].
  - intros x t' [[-> ->]|[_ Hx]]%Hlook Ha'; [done|]. change (lcore_id e3) with (lcore_id e1). rewrite R1. by eapply E3.
  - intros x. rewrite Eal, elem_of_remove_id, E4. split.
    + intros [(t' & Hx & Ha') Hne]. exists t'. split; [|done]. by rewrite Etm3, lookup_alter_ne.
    + intros (t' & [[-> ->]|[Hne Hx]]%Hlook & Ha'); [done|]. eauto.
  - rewrite Eal. by apply NoDup_remove_id.
  - rewrite Eal. change (e_active e3) with (e_active e - 1). change (e_capacity e3) with (e_capacity e1).
    rewrite R2. lia.
  - change (e_active e3) with (e_active e - 1).
    change (e_resources e3) with (resource_release 1 (e_resources e1)). rewrite R4. apply release_counts; [done|lia].
  - change (cursor (wheel e3)) with (cursor (wheel e1)). by rewrite Ecur.
  - intros x t' [[-> ->]|[_ Hx]]%Hlook Hq; [by destruct Hq|by eapply E9].
Qed.

(** ** Arming *)

Definition arm_timer (lcore deadline : Z) (h : whead_t) (t : owner_timer) : owner_timer :=
  mk_timer (has_callback t) (Some lcore) deadline (tm_initialized t) true (wheel_tick hz deadline true) (Some h).

Lemma arm_unlinked clock e id t :
  engine_inv clock e -> timers e !! id = Some t ->
  let e1 := if armed t then wheel_unlink id e else e in
  wheel_inv hz e1 /\ same_rest e e1 /\ cursor (wheel e1) = cursor (wheel e) /\
  timers e1 = alter (with_whead None) id (timers e).
Proof.
  intros Hi Ht. cbv zeta. destruct (whead t) as [h|] eqn:Hh.
  - assert (armed t = true) as -> by (apply (ei_armed clock e Hi id t Ht); by rewrite Hh).
    destruct (unlink_timers id e t h Ht Hh) as (Etm & _ & Ecur & _ & _ & Hs).
    split; [apply (wheel_inv_unlink hz e id t h); by try apply Hi|]. done.
  - destruct (armed t) eqn:Ha; [by apply (ei_armed clock e Hi id t Ht) in Ha|].
    split; [apply Hi|]. split; [apply same_rest_refl|]. split; [done|].
    symmetry. apply alter_id. intros x Hx. rewrite Ht in Hx. injection Hx as <-. destruct t; cbn in *; by subst.
Qed.

Lemma arm_success clock e id t deadline now :
  engine_inv clock e -> in_u64 deadline -> now <= clock -> timers e !! id = Some t ->
  (armed t = true \/ e_active e < e_capacity e) ->
  let e1 := if armed t then wheel_unlink id e else e in
  let e2 := timer_alter (fun t => with_deadline_cycles deadline
                                    (with_tm_engine (Some (lcore_id e)) t)) id e1 in
  let e3 := if negb (armed t) then owner_timer_active_link id e2 else e2 in
  let e4 := timer_alter (with_tick (wheel_tick hz deadline true)) id e3 in
  let e5 := if deadline <=? now then wheel_link id HImmediate e4 else wheel_schedule hz id e4 in
  engine_inv clock e5 /\ (exists h, h <> HReady /\ timers e5 = alter (arm_timer (lcore_id e) deadline h) id (timers e)) /\
  lcore_id e5 = lcore_id e /\ e_initialized e5 = e_initialized e /\ polling (wheel e5) = polling (wheel e).
Proof.
  intros Hi Hd Hnow Ht Hcap. destruct (arm_unlinked clock e id t Hi Ht) as (U1 & U2 & U3 & U4).
  intros e1. fold e1 in U1, U2, U3, U4. intros e2 e3 e4 e5.
  destruct U2 as (R1 & R2 & R3 & R4 & R5 & R6 & R7).
  pose proof Hi as [E1 E2 E3 E4 E5 [E6 E6'] E7 [E8 E8'] E9].
  assert (timers e1 !! id = Some (with_whead None t)) as Ht1 by (by rewrite U4, lookup_alter_eq, Ht).
  set (t4 := mk_timer (has_callback t) (Some (lcore_id e)) deadline (tm_initialized t) true
               (wheel_tick hz deadline true) None).
  assert (timers e4 = alter (fun _ => t4) id (timers e)) as Etm4.
  { transitivity (alter (with_tick (wheel_tick hz deadline true)) id (timers e3)); [done|].
    assert (timers e3 = alter (fun t' => with_armed true (with_deadline_cycles deadline
              (with_tm_engine (Some (lcore_id e)) t'))) id (timers e1)) as ->.
    { unfold e3. destruct (armed t) eqn:Ha; cbn [negb].
      - change (timers e2) with (alter (fun t => with_deadline_cycles deadline (with_tm_engine (Some (lcore_id e)) t)) id (timers e1)).
        apply alter_ext. intros x Hx. rewrite Ht1 in Hx. injection Hx as <-. destruct t; cbn in *; by subst.
      - change (timers (owner_timer_active_link id e2)) with
          (alter (with_armed true) id (alter (fun t => with_deadline_cycles deadline (with_tm_engine (Some (lcore_id e)) t)) id (timers e1))).
        by rewrite alter_alter_eq. }
    rewrite U4, !alter_alter_eq. apply alter_ext. intros x Hx. rewrite Ht in Hx. by injection Hx as <-. }
  assert (wheel e4 = wheel e1) as Hw4 by (unfold e4, e3; by destruct (armed t)).
  assert (wheel_inv hz e4) as Hi4.
  { apply (wheel_inv_ext hz (timer_alter (fun _ => t4) id e1)); [done| |by apply (wheel_inv_alter hz e1 id (with_whead None t))].
    rewrite Etm4. cbn [timers timer_alter with_timers]. rewrite U4, alter_alter_eq. done. }
  assert (timers e4 !! id = Some t4) as Ht4 by (by rewrite Etm4, lookup_alter_eq, Ht).
  assert (linkable hz t4) as Hl4 by (by split_and!).
  assert (exists h, h <> HReady /\ (h = HImmediate -> deadline <= clock) /\ wheel_inv hz e5 /\
            same_rest e4 e5 /\ cursor (wheel e5) = cursor (wheel e4) /\
            timers e5 = alter (arm_timer (lcore_id e) deadline h) id (timers e)) as (h & Hh & Hdue & Hi5 & S5 & Ec5 & Etm5).
  { assert (forall h, alter (with_whead (Some h)) id (timers e4)
                      = alter (arm_timer (lcore_id e) deadline h) id (timers e)) as Hcomp.
    { intros h. rewrite Etm4, alter_alter_eq. apply alter_ext. intros x Hx. rewrite Ht in Hx. by injection Hx as <-. }
    unfold e5. destruct (Z.leb_spec deadline now) as [Hle|Hgt].
    - exists HImmediate. destruct (link_timers id HImmediate e4) as (Etm & _ & _ & Ecur & _ & _ & Hs).
      split; [done|]. split; [intros _; lia|]. split; [by apply (wheel_inv_queue hz e4 id t4)|].
      split; [done|]. split; [done|]. by rewrite Etm.
    - destruct (wheel_inv_schedule hz Hhz e4 id t4 Hi4 Ht4 Hl4) as (S1 & S2 & S3 & S4).
      exists (sched_head (tick t4) (cursor (wheel e4))). rewrite S4.
      split; [unfold sched_head; by destruct (_ <=? _)|]. split; [|by split_and!].
      unfold sched_head. destruct (Z.leb_spec (tick t4) (cursor (wheel e4))) as [Hle|]; [|done]. intros _.
      apply (reached_is_due hz Hhz); [done..|]. rewrite Hw4, U3 in Hle. cbn in Hle. lia. }
  assert (active_list e4 = (if armed t then active_list e else id :: active_list e)
          /\ e_active e4 = (if armed t then e_active e else e_active e + 1)
          /\ e_resources e4 = (if armed t then e_resources e else resource_acquire 1 (e_resources e))
          /\ e_capacity e4 = e_capacity e /\ lcore_id e4 = lcore_id e /\ e_initialized e4 = e_initialized e) as (A1 & A2 & A3 & A4 & A5 & A6).
  { unfold e4, e3. destruct (armed t); cbn [negb].
    - by split_and!.
    - assert (e_active (timer_alter (with_tick (wheel_tick hz deadline true)) id (owner_timer_active_link id e2)) = u32 (e_active e1 + 1)) as -> by done.
      rewrite R3, u32_small by (unfold in_u32; destruct Hcap; [done|lia]).
      by split_and!. }
  destruct S5 as (Q1 & Q2 & Q3 & Q4 & Q5 & Q6 & Q7).
  assert (forall x t', timers e5 !! x = Some t' ->
            (x = id /\ t' = arm_timer (lcore_id e) deadline h t) \/ (x <> id /\ timers e !! x = Some t')) as Hlook.
  { intros x t'. rewrite Etm5. destruct (decide (x = id)) as [->|Hx].
    - rewrite lookup_alter_eq, Ht. intros [= <-]. by left.
    - rewrite lookup_alter_ne by done. by right. }
  assert (armed t = true -> id ∈ active_list e) as Hact by (intros; apply E4; eauto).
  assert (armed t = false -> id ∉ active_list e) as Hnact by (intros Hf (t' & Ht' & Ha')%E4; congruence).
  split; [|split; [by exists h|split_and!; [by rewrite Q1, A5|by rewrite Q6, A6|rewrite Q7, Hw4; done]]].
  constructor.
  - done.
  - intros x t' [[-> ->]|[_ Hx]]%Hlook; [done|by eapply E2].
  - intros x t' [[-> ->]|[_ Hx]]%Hlook Ha'; rewrite Q1, A5; [done|by eapply E3].
  - intros x. rewrite Q5, A1. rewrite Etm5. destruct (decide (x = id)) as [->|Hx].
    + rewrite lookup_alter_eq, Ht. split; [intros _; by eexists|]. intros _.
      destruct (armed t); [by apply Hact|apply elem_of_cons; by left].
    + rewrite lookup_alter_ne by done. rewrite <- E4. destruct (armed t); [done|]. rewrite elem_of_cons. tauto.
  - rewrite Q5, A1. destruct (armed t); [done|]. apply NoDup_cons. by split; [apply Hnact|].
  - rewrite Q5, Q3, Q2, A1, A2, A4. destruct (armed t); [lia|]. cbn [length]. destruct Hcap; [done|lia].
  - rewrite Q3, Q4, A2, A3. destruct (armed t); [done|]. apply acquire_counts; [done|lia|lia].
  - rewrite Ec5, Hw4, U3. done.
  - intros x t' [[-> ->]|[_ Hx]]%Hlook Hq; [|by eapply E9]. cbn in *. apply Hdue. destruct Hq; congruence.
Qed.

(** ** Operations of callers and callbacks *)

Definition op_target (op : timer_op) : Z :=
  match op with OpArm id _ _ => id | OpCancel id => id | OpInit _ id => id | OpFree id => id end.

Definition unarmed (id : Z) (e : owner_timer_engine) : Prop := forall t, timers e !! id = Some t -> armed t = false.

(** Clock readings do not lie in the future of [late], and only an unarmed
    node is initialized or freed. *)
Definition op_ok (late : Z) (e : owner_timer_engine) (op : timer_op) : Prop :=
  match op with
  | OpArm _ d c => in_u64 d /\ c <= late
  | OpCancel _ => True
  | OpInit _ id => unarmed id e
  | OpFree id => unarmed id e
  end.
Fixpoint ops_ok (late caller : Z) (e : owner_timer_engine) (ops : list timer_op) : Prop :=
  match ops with [] => True | op :: r => op_ok late e op /\ ops_ok late caller (run_op hz caller e op) r end.

(** The node of an unarmed timer is replaced by a fresh one, or goes. *)
Lemma fresh_inv clock e m id :
  engine_inv clock e -> unarmed id e -> (forall x, x <> id -> m !! x = timers e !! x) ->
  (forall t, m !! id = Some t -> armed t = false /\ whead t = None) -> engine_inv clock (with_timers m e).
Proof.
  intros [E1 E2 E3 E4 E5 E6 E7 E8 E9] Hun Hm Hid.
  assert (forall x t, m !! x = Some t -> (x = id /\ armed t = false /\ whead t = None) \/ (x <> id /\ timers e !! x = Some t)) as Hlook.
  { intros x t Hx. destruct (decide (x = id)) as [->|Hne]; [left; by specialize (Hid t Hx)|right; by rewrite <- Hm]. }
  assert (forall x t, timers e !! x = Some t -> armed t = true \/ whead t <> None -> m !! x = Some t) as Hkeep.
  { intros x t Hx Hl. rewrite Hm; [done|]. intros ->. assert (armed t = true) by (destruct Hl; [done|by apply (E2 id t Hx)]).
    rewrite (Hun t Hx) in *. done. }
  destruct E1 as [[C1 C2 C3 C4 C5] I2 I3 I4 I5 I6].
  constructor; cbn [timers with_timers wheel lcore_id active_list e_active e_capacity e_resources]; try done.
  - constructor; cbn [timers with_timers wheel]; [constructor; cbn [timers with_timers wheel]|..]; try done.
    + intros h x. rewrite C1. split.
      * intros (t & Ht & Hh). exists t. split; [apply Hkeep; [done|right; by rewrite Hh]|done].
      * intros (t & [(-> & _ & Hn)|[_ Ht]]%Hlook & Hh); [congruence|eauto].
    + intros x t b [(-> & _ & Hn)|[_ Ht]]%Hlook Hh; [congruence|by eapply C3].
    + intros x t b [[(-> & _ & Hn)|[_ Ht]]%Hlook Hh]; [congruence|by eapply I3].
    + intros x t b [[(-> & _ & Hn)|[_ Ht]]%Hlook Hh]; [congruence|by eapply I4].
    + intros x t [(-> & _ & Hn)|[_ Ht]]%Hlook; [intros Hl; congruence|by eapply I6].
  - intros x t [(-> & Ha & Hn)|[_ Ht]]%Hlook; [by rewrite Ha, Hn|by eapply E2].
  - intros x t [(-> & Ha & _)|[_ Ht]]%Hlook Ha'; [congruence|by eapply E3].
  - intros x. rewrite E4. split.
    + intros (t & Ht & Ha). exists t. split; [apply Hkeep; [done|by left]|done].
    + intros (t & [(-> & Ha' & _)|[_ Ht]]%Hlook & Ha); [congruence|eauto].
  - intros x t [(-> & _ & Hn)|[_ Ht]]%Hlook Hh; [rewrite Hn in Hh; by destruct Hh|by eapply E9].
Qed.

Lemma timer_init_inv clock e has_cb id : engine_inv clock e -> unarmed id e -> engine_inv clock (owner_timer_init has_cb id e).
Proof.
  intros Hi Hun. apply (fresh_inv clock e _ id Hi Hun); [intros x Hx; by rewrite lookup_insert_ne|].
  intros t. rewrite lookup_insert_eq. by intros [= <-].
Qed.
Lemma timer_free_inv clock e id : engine_inv clock e -> unarmed id e -> engine_inv clock (timer_free id e).
Proof.
  intros Hi Hun. apply (fresh_inv clock e _ id Hi Hun); [intros x Hx; by rewrite lookup_delete_ne|].
  intros t. by rewrite lookup_delete_eq.
Qed.

(** An operation leaves every other node alone and never makes a node ready. *)
Definition touches_only (id : Z) (e e' : owner_timer_engine) : Prop :=
  (forall x, x <> id -> timers e' !! x = timers e !! x) /\
  (forall x t, timers e' !! x = Some t -> whead t = Some HReady -> timers e !! x = Some t) /\
  lcore_id e' = lcore_id e /\ e_initialized e' = e_initialized e /\ polling (wheel e') = polling (wheel e).

Lemma touches_refl id e : touches_only id e e.
Proof. by split_and!. Qed.
Lemma touches_alter id e e' f t :
  timers e !! id = Some t -> timers e' = alter f id (timers e) -> whead (f t) <> Some HReady ->
  lcore_id e' = lcore_id e -> e_initialized e' = e_initialized e -> polling (wheel e') = polling (wheel e) ->
  touches_only id e e'.
Proof.
  intros Ht He Hf H1 H2 H3. split_and!; try done.
  - intros x Hx. by rewrite He, lookup_alter_ne.
  - intros x t' Hx Hh. rewrite He in Hx. destruct (decide (x = id)) as [->|Hne].
    + rewrite lookup_alter_eq, Ht in Hx. injection Hx as <-. done.
    + by rewrite lookup_alter_ne in Hx.
Qed.

Lemma engine_inv_resources clock e r :
  counts_live (e_active e) r -> engine_inv clock e -> engine_inv clock (with_e_resources r e).
Proof.
  intros Hr [E1 E2 E3 E4 E5 E6 E7 E8 E9]. constructor; try done. by apply (wheel_inv_ext hz e).
Qed.

Lemma run_op_spec late caller e op :
  engine_inv late e -> op_ok late e op ->
  engine_inv late (run_op hz caller e op) /\ touches_only (op_target op) e (run_op hz caller e op).
Proof.
  intros Hi Hok. destruct op as [id d c|id|has_cb id|id]; cbn [run_op op_target op_ok] in *.
  - unfold owner_timer_arm_at. destruct (timers e !! id) as [t|] eqn:Ht; [|split; [done|apply touches_refl]].
    destruct (negb (tm_initialized t) || negb (has_callback t)); [split; [done|apply touches_refl]|].
    destruct (negb (owner_timer_on_owner caller e)); [split; [done|apply touches_refl]|].
    destruct (negb (_ || _)); [split; [done|apply touches_refl]|]. cbv zeta.
    destruct (negb (armed t) && (e_capacity e <=? e_active e)) eqn:Hfull.
    { cbn [snd]. split; [apply engine_inv_resources; [apply Hi|done]|]. by split_and!. }
    destruct Hok as [Hd Hc].
    destruct (arm_success late e id t d c Hi Hd Hc Ht) as (J1 & (h & Hh & J2) & J3 & J4 & J5).
    { destruct (armed t); [by left|]. right. cbn in Hfull. by apply Z.leb_gt in Hfull. }
    split; [exact J1|]. eapply touches_alter; [done|exact J2| |exact J3|exact J4|exact J5]. cbn. congruence.
  - unfold owner_timer_cancel. destruct (timers e !! id) as [t|] eqn:Ht; [|split; [done|apply touches_refl]].
    destruct (negb (tm_initialized t)); [split; [done|apply touches_refl]|].
    destruct (armed t) eqn:Ha; cbn [negb]; [|split; [done|apply touches_refl]].
    destruct (negb (_ && _)); [split; [done|apply touches_refl]|]. cbn [snd].
    destruct (release_effect late e id t Hi Ht Ha) as (J1 & J2 & J3 & J4 & J5).
    split; [done|]. by eapply touches_alter.
  - split; [by apply timer_init_inv|]. split_and!; try done; cbn.
    + intros x Hx. by rewrite lookup_insert_ne.
    + intros x t. rewrite lookup_insert_Some. by intros [[_ <-]|[_ ?]].
  - split; [by apply timer_free_inv|]. split_and!; try done; cbn.
    + intros x Hx. by rewrite lookup_delete_ne.
    + intros x t. rewrite lookup_delete_Some. by intros [_ ?].
Qed.

(** Nodes that stay ready across an operation are untouched. *)
Definition ready_shrinks (e e' : owner_timer_engine) : Prop :=
  (forall x t, timers e' !! x = Some t -> whead t = Some HReady -> timers e !! x = Some t) /\
  lcore_id e' = lcore_id e /\ e_initialized e' = e_initialized e /\ polling (wheel e') = polling (wheel e).

Lemma run_ops_spec late caller ops e :
  engine_inv late e -> ops_ok late caller e ops ->
  engine_inv late (foldl (run_op hz caller) e ops) /\
  ready_shrinks e (foldl (run_op hz caller) e ops) /\
  (forall x, Forall (fun op => op_target op <> x) ops -> timers (foldl (run_op hz caller) e ops) !! x = timers e !! x).
Proof.
  revert e. induction ops as [|op ops IH]; intros e Hi Hops; cbn [foldl].
  { split; [done|]. split; [by split_and!|done]. }
  destruct Hops as [Hop Hops]. destruct (run_op_spec late caller e op Hi Hop) as (H1 & T1 & T2 & T3 & T4 & T5).
  destruct (IH _ H1 Hops) as (J1 & (K1 & K2 & K3 & K4) & J3).
  split; [done|]. split.
  - split_and!; [|congruence..]. intros x t Hx Hh. apply T2; [by apply K1|done].
  - intros x Hx. inversion_clear Hx. rewrite J3 by done. by apply T1.
Qed.

(** ** The callback loop *)

(** What callbacks do is legal, each called when its timer is no longer armed. *)
Definition callback_ok (late : Z) (cb : callback_t) : Prop :=
  forall id now e, unarmed id e -> ops_ok late (lcore_id e) e (cb id now e).
(** No callback of another timer arms, cancels, initializes or frees [id]. *)
Definition undisturbed (cb : callback_t) (id : Z) : Prop :=
  forall other now e, other <> id -> Forall (fun op => op_target op <> id) (cb other now e).

(** A run of callbacks from [e]: each is that of a timer which is armed, with
    its deadline reached, when its turn comes - after everything the callbacks
    before it did - and runs when the timer is off every list. *)
Inductive firing (cb : callback_t) (now : Z) : owner_timer_engine -> list Z -> owner_timer_engine -> Prop :=
| firing_end e : firing cb now e [] e
| firing_next e id t fired e' :
    timers e !! id = Some t -> armed t = true -> deadline_cycles t <= now ->
    (let e1 := owner_timer_active_unlink id (wheel_unlink id e) in
     firing cb now (foldl (run_op hz (lcore_id e1)) e1 (cb id now e1)) fired e') ->
    firing cb now e (id :: fired) e'.

Definition is_ready (e : owner_timer_engine) (id : Z) (t : owner_timer) : Prop :=
  timers e !! id = Some t /\ whead t = Some HReady.

Lemma ready_member e id : wheel_core e -> id ∈ ready (wheel e) <-> exists t, is_ready e id t.
Proof. intros Hc. apply (core_lists e Hc HReady id). Qed.

Lemma ready_length_le e e' :
  wheel_core e -> wheel_core e' -> (forall x, x ∈ ready (wheel e') -> x ∈ ready (wheel e)) ->
  (length (ready (wheel e')) <= length (ready (wheel e)))%nat.
Proof.
  intros Hc Hc' Hsub. apply submseteq_length, NoDup_submseteq; [apply (core_nodup e' Hc' HReady)|done].
Qed.

Lemma fire_loop_spec fuel late cb now e :
  callback_ok late cb -> engine_inv late e -> (length (ready (wheel e)) <= fuel)%nat ->
  (forall id t, is_ready e id t -> deadline_cycles t <= now) ->
  let '(fired, e') := fire_loop hz fuel cb now e in
  engine_inv late e' /\ ready (wheel e') = [] /\ NoDup fired /\ firing cb now e fired e' /\
  lcore_id e' = lcore_id e /\ e_initialized e' = e_initialized e /\ polling (wheel e') = polling (wheel e) /\
  (forall id, id ∈ fired -> exists t, is_ready e id t /\ armed t = true /\ deadline_cycles t <= now) /\
  (forall id t, is_ready e id t -> undisturbed cb id -> id ∈ fired).
Proof.
  intros Hcb. revert e. induction fuel as [|fuel IH]; intros e Hi Hlen Hdue.
  { cbn [fire_loop]. assert (ready (wheel e) = []) as Hr by (destruct (ready (wheel e)); [done|cbn in Hlen; lia]).
    split_and!; try done; [constructor|constructor|by intros ? ?%not_elem_of_nil|].
    intros id t Ht. assert (id ∈ ready (wheel e)) as Hin by (apply ready_member; [apply Hi|eauto]).
    rewrite Hr in Hin. by apply not_elem_of_nil in Hin. }
  pose proof (inv_core hz e (ei_wheel late e Hi)) as Hc. cbn [fire_loop].
  destruct (ready (wheel e)) as [|id rest] eqn:Er.
  { split_and!; try done; [constructor|constructor|by intros ? ?%not_elem_of_nil|].
    intros id t Ht. assert (id ∈ ready (wheel e)) as Hin by (apply ready_member; eauto).
    rewrite Er in Hin. by apply not_elem_of_nil in Hin. }
  assert (id ∈ ready (wheel e)) as Hin by (rewrite Er; apply elem_of_cons; by left).
  apply ready_member in Hin as (t & Ht & Hh); [|done].
  assert (armed t = true) as Ha by (apply (ei_armed late e Hi id t Ht); by rewrite Hh).
  destruct (release_effect late e id t Hi Ht Ha) as (R1 & R2 & R3 & R4 & R5). cbv zeta.
  set (e1 := owner_timer_active_unlink id (wheel_unlink id e)) in *.
  assert (unarmed id e1) as Hoff by (intros t'; rewrite R2, lookup_alter_eq, Ht; by intros [= <-]).
  destruct (run_ops_spec late (lcore_id e1) (cb id now e1) e1 R1 (Hcb id now e1 Hoff)) as (O1 & (S1 & S2 & S3 & S4) & O3).
  set (e2 := foldl (run_op hz (lcore_id e1)) e1 (cb id now e1)) in *.
  assert (forall x t', is_ready e2 x t' -> x <> id /\ is_ready e x t') as Hsub.
  { intros x t' [Hx Hhx]. pose proof (S1 x t' Hx Hhx) as Hx1. rewrite R2 in Hx1.
    destruct (decide (x = id)) as [->|Hne].
    - rewrite lookup_alter_eq, Ht in Hx1. injection Hx1 as <-. done.
    - rewrite lookup_alter_ne in Hx1 by done. done. }
  assert (wheel_core e2) as Hc2 by apply (inv_core hz e2 (ei_wheel late e2 O1)).
  assert (length (ready (wheel e2)) <= fuel)%nat as Hlen2.
  { assert (length (ready (wheel e2)) <= length rest)%nat; [|cbn in Hlen; lia].
    apply submseteq_length, NoDup_submseteq; [apply (core_nodup e2 Hc2 HReady)|].
    intros x (t' & [Hne Hx]%Hsub)%ready_member; [|done].
    assert (x ∈ ready (wheel e)) as Hxin by (apply ready_member; eauto).
    rewrite Er in Hxin. by apply elem_of_cons in Hxin as [?|?]. }
  specialize (IH e2 O1 Hlen2 ltac:(intros x t' [_ Hx]%Hsub; by eapply Hdue)).
  destruct (fire_loop hz fuel cb now e2) as [fired e3].
  destruct IH as (J1 & J2 & J3 & Jf & J4 & J5 & J6 & J7 & J8).
  split; [done|]. split; [done|]. split.
  { apply NoDup_cons. split; [|done]. intros (t' & Hx & _)%J7. by apply Hsub in Hx as [? _]. }
  split; [eapply firing_next; [exact Ht|exact Ha|by apply (Hdue id)|exact Jf]|].
  split; [congruence|]. split; [congruence|]. split; [congruence|]. split.
  - intros x [->|Hx]%elem_of_cons.
    + exists t. split; [done|]. split; [done|]. by apply (Hdue id).
    + destruct (J7 x Hx) as (t' & Hr & Ha' & Hd'). apply Hsub in Hr as [_ Hr].
      exists t'. split; [exact Hr|]. by split.
  - intros x t' Hx Hund. apply elem_of_cons. destruct (decide (x = id)) as [->|Hne]; [by left|]. right.
    apply (J8 x t'); [|done]. destruct Hx as [Hx Hhx]. split; [|done].
    rewrite O3 by (apply Hund; congruence). by rewrite R2, lookup_alter_ne.
Qed.

(** ** Polling *)

(** A poll that returns at once has nothing to fire. *)
Lemma idle_poll_sound clock e now id t :
  engine_inv clock e -> ready (wheel e) = [] -> in_u64 now ->
  e_active e = 0 \/ (immediate (wheel e) = [] /\ now < next_cycles (wheel e)) ->
  timers e !! id = Some t -> armed t = true -> poll_target hz now < wheel_tick hz (deadline_cycles t) true.
Proof.
  intros Hi Hr Hnu Hidle Ht Ha. pose proof (ei_wheel clock e Hi) as Hw. pose proof (inv_core hz e Hw) as Hcore.
  destruct Hidle as [H0|[Himm Hnc]].
  { pose proof (ei_count clock e Hi) as [Hc _].
    assert (id ∈ active_list e) as Hin by (apply (ei_active clock e Hi); eauto).
    destruct (active_list e); [by apply not_elem_of_nil in Hin|]. cbn in Hc. lia. }
  apply (ei_armed clock e Hi id t Ht) in Ha. destruct (whead t) as [h|] eqn:Hh; [|done].
  assert (id ∈ wlist h (wheel e)) as Hin by (apply (core_lists e Hcore); eauto).
  destruct h as [b| |]; cbn in Hin; [|rewrite Himm in Hin; by apply not_elem_of_nil in Hin
                                     |rewrite Hr in Hin; by apply not_elem_of_nil in Hin].
  destruct (inv_cache hz e Hw) as [Hntu Hcache]. rewrite Hcache in Hnc.
  pose proof (early_return_sound hz Hhz _ now Hntu Hnu Hnc).
  pose proof (inv_next hz e Hw id t b (conj Ht Hh)).
  pose proof (placed_ahead _ _ _ _ (inv_place hz e Hw id t b (conj Ht Hh))).
  destruct (inv_tick hz e Hw id t Ht) as [_ Htk]; [by rewrite Hh|]. lia.
Qed.

(** Collecting keeps the engine invariant; the ready nodes are the linked
    ones whose tick is reached, and all of them are due. *)
Lemma collect_inv clock e now :
  engine_inv clock e -> ready (wheel e) = [] -> clock <= now -> in_u64 now ->
  let e1 := wheel_collect hz now e in
  engine_inv now e1 /\ lcore_id e1 = lcore_id e /\ e_initialized e1 = e_initialized e /\
  (forall id t', timers e1 !! id = Some t' -> exists t h, timers e !! id = Some t /\ t' = with_whead h t) /\
  (forall id, match timers e !! id with Some t => exists h, timers e1 !! id = Some (with_whead h t) | None => timers e1 !! id = None end) /\
  (forall id t, timers e !! id = Some t -> armed t = true ->
     wheel_tick hz (deadline_cycles t) true <= poll_target hz now ->
     timers e1 !! id = Some (with_whead (Some HReady) t)).
Proof.
  intros Hi Hr Hnow Hnu. cbv zeta. pose proof (ei_wheel clock e Hi) as Hw. pose proof (inv_core hz e Hw) as Hcore.
  assert (cursor (wheel e) <= poll_target hz now) as Hcur
    by (destruct (ei_clock clock e Hi) as [Hcu Hc]; pose proof (poll_target_mono hz Hhz clock now Hcu Hnu Hnow); lia).
  destruct (wheel_collect_spec hz Hhz e now Hw Hr Hnu Hcur) as (C1 & C2 & _ & C4 & C5 & C6 & C7 & C8 & C9 & C10).
  set (e1 := wheel_collect hz now e) in *.
  assert (forall x t', timers e1 !! x = Some t' -> exists t h, timers e !! x = Some t /\ t' = with_whead h t
            /\ collected (poll_target hz now) t h) as Hback.
  { intros x t' Hx. specialize (C10 x). destruct (timers e !! x) as [t|]; [|congruence].
    destruct C10 as (h & Hh & Hcl). rewrite Hx in Hh. injection Hh as ->. by exists t, h. }
  assert (forall x t h, timers e !! x = Some t -> collected (poll_target hz now) t h ->
            (h = Some HReady -> deadline_cycles t <= now) /\ (h = None <-> whead t = None) /\ h <> Some HImmediate
            /\ (whead t <> None -> wheel_tick hz (deadline_cycles t) true <= poll_target hz now -> h = Some HReady)) as Hcase.
  { intros x t h Ht. unfold collected. destruct (whead t) as [[b| |]|] eqn:Hh.
    - destruct (inv_tick hz e Hw x t Ht) as [Hd Htk]; [by rewrite Hh|]. rewrite <- Htk.
      destruct (Z.leb_spec (tick t) (poll_target hz now)) as [Hle|Hgt].
      + intros ->. split_and!; try done. intros _. apply (reached_is_due hz Hhz); [done..|]. by rewrite <- Htk.
      + intros [b' ->]. split_and!; try done. intros _ ?. lia.
    - intros ->. split_and!; try done. intros _. pose proof (ei_due clock e Hi x t Ht (or_introl Hh)). lia.
    - assert (x ∈ wlist HReady (wheel e)) as Hin by (apply (core_lists e Hcore); eauto). cbn in Hin.
      rewrite Hr in Hin. by apply not_elem_of_nil in Hin.
    - by intros ->. }
  split; [|split_and!; [done|done|intros id t' (t & h & Ht & -> & _)%Hback; eauto| |]].
  - destruct Hi as [E1 E2 E3 E4 E5 E6 E7 E8 E9]. constructor.
    + done.
    + intros x t' (t & h & Ht & -> & Hcl)%Hback. destruct (Hcase x t h Ht Hcl) as (_ & Hn & _).
      cbn [armed whead with_whead]. rewrite (E2 x t Ht). by rewrite Hn.
    + intros x t' (t & h & Ht & -> & _)%Hback Ha. rewrite C4. by apply (E3 x t).
    + intros x. rewrite C8, E4. split.
      * intros (t & Ht & Ha). specialize (C10 x). rewrite Ht in C10. destruct C10 as (h & Hh & _). by eexists.
      * intros (t' & (t & h & Ht & -> & _)%Hback & Ha). by exists t.
    + by rewrite C8.
    + by rewrite C6, C8, C5.
    + by rewrite C6, C7.
    + split; [done|]. by rewrite C2.
    + intros x t' (t & h & Ht & -> & Hcl)%Hback Hq. destruct (Hcase x t h Ht Hcl) as (Hd & _ & Himm & _).
      cbn [whead with_whead deadline_cycles] in *. destruct Hq as [->| ->]; [done|]. by apply Hd.
  - intros id. specialize (C10 id). destruct (timers e !! id); [|done]. destruct C10 as (h & Hh & _). eauto.
  - intros id t Ht Ha Hk. specialize (C10 id). rewrite Ht in C10. destruct C10 as (h & Hh & Hcl).
    apply (ei_armed clock e Hi id t Ht) in Ha.
    destruct (Hcase id t h Ht Hcl) as (_ & _ & _ & Hrd). by rewrite (Hrd Ha Hk) in Hh.
Qed.

(** Engines whose timers agree but for the list each is on. *)
Definition same_timers (e e' : owner_timer_engine) : Prop :=
  forall id, with_whead None <$> timers e' !! id = with_whead None <$> timers e !! id.

Lemma wheel_poll_spec clock late cb now e :
  engine_inv clock e -> ready (wheel e) = [] -> polling (wheel e) = false ->
  clock <= now -> now <= late -> in_u64 late -> callback_ok late cb ->
  let '(fired, e') := wheel_poll hz cb now e in
  engine_inv late e' /\ ready (wheel e') = [] /\ polling (wheel e') = false /\
  lcore_id e' = lcore_id e /\ e_initialized e' = e_initialized e /\ NoDup fired /\
  (exists e0 e1, same_timers e e0 /\ firing cb now e0 fired e1 /\ timers e' = timers e1) /\
  (forall id, id ∈ fired -> exists t, timers e !! id = Some t /\ armed t = true /\ deadline_cycles t <= now) /\
  (forall id t, timers e !! id = Some t -> armed t = true -> undisturbed cb id ->
     wheel_tick hz (deadline_cycles t) true <= poll_target hz now -> id ∈ fired).
Proof.
  intros Hi Hr Hp Hnow Hlate Hu Hcb. unfold wheel_poll. rewrite Hp. cbn [orb].
  assert (in_u64 now) as Hnu by (destruct (ei_clock clock e Hi) as [Hc _]; unfold in_u64 in *; lia).
  destruct ((e_active e =? 0) || (bool_decide (immediate (wheel e) = []) && (now <? next_cycles (wheel e)))) eqn:Hidle.
  { assert (e_active e = 0 \/ (immediate (wheel e) = [] /\ now < next_cycles (wheel e))) as Hcase.
    { apply orb_true_iff in Hidle as [H0|H0]; bprop; [by left|right]. by apply bool_decide_eq_true in H. }
    replace (if e_active e =? 0 then _ else _) with ([] : list Z, e)
      by (destruct (e_active e =? 0); [done|cbn [orb] in Hidle; by rewrite Hidle]).
    split; [by apply (engine_inv_mono clock); [lia| |]|].
    split_and!; try done; [constructor| |by intros ? ?%not_elem_of_nil|].
    { exists e, e. split; [by intros id|]. by split; [constructor|]. }
    intros id t Ht Ha _ Hk. pose proof (idle_poll_sound clock e now id t Hi Hr Hnu Hcase Ht Ha). lia. }
  apply orb_false_iff in Hidle as [-> ->].
  destruct (collect_inv clock e now Hi Hr Hnow Hnu) as (C1 & C2 & C3 & C4 & C6 & C5).
  set (e1 := wheel_collect hz now e) in *.
  pose proof (fire_loop_spec (length (ready (wheel e1))) late cb now e1 Hcb) as Hfire.
  specialize (Hfire ltac:(by apply (engine_inv_mono now)) (Nat.le_refl _)
    ltac:(intros x t' [Hx Hh]; apply (ei_due now e1 C1 x t' Hx); by right)).
  destruct (fire_loop hz (length (ready (wheel e1))) cb now e1) as [fired e2].
  destruct Hfire as (F1 & F2 & F3 & Ff & F4 & F5 & F6 & F7 & F8).
  split.
  { destruct F1 as [E1 E2 E3 E4 E5 E6 E7 E8 E9]. constructor; try done.
    by apply (wheel_inv_flags hz e2 (with_polling false (wheel e2))). }
  split; [done|]. split; [done|]. split; [transitivity (lcore_id e2); [done|congruence]|].
  split; [transitivity (e_initialized e2); [done|congruence]|]. split; [done|]. split.
  { exists e1, e2. split; [|by split]. intros id. specialize (C6 id). destruct (timers e !! id) as [t|]; [destruct C6 as (h & ->)|rewrite C6]; done. }
  split.
  - intros id (t' & [(t & h & Ht & ->)%C4 _] & Ha & Hd)%F7. by exists t.
  - intros id t Ht Ha Hund Hk. apply (F8 id (with_whead (Some HReady) t)); [|done].
    split; [by apply C5|done].
Qed.
End Run.
