(* ===== verification/OwnerTimerHistory.v ===== *)
(** * Owner timers: properties of every history

    [timer_reach c e]: engine [e] can arise at clock reading [c] from an
    initialized engine by initializing, arming and cancelling timers and by
    polls whose callbacks do the same. *)

From stdpp Require Import gmap.
From S2P Require Import Prelude Config OwnerTimer OwnerTimerPlace OwnerTimerCore OwnerTimerWheel OwnerTimerCascade OwnerTimerFacts OwnerTimerRun.

Section History.
Context (hz : Z).

Inductive timer_reach : Z -> owner_timer_engine -> Prop :=
| tr_init max_lcore lcore cap now e0 e :
    in_u64 now -> 0 <= cap < 4294967296 ->
    (forall id t, timers e0 !! id = Some t -> armed t = false /\ whead t = None) ->
    owner_timer_engine_init hz max_lcore lcore cap false true now e0 = (inr tt, e) -> timer_reach now e
| tr_timer_init c e has_cb id :
    timer_reach c e -> unarmed id e -> timer_reach c (owner_timer_init has_cb id e)
| tr_timer_free c e id : timer_reach c e -> unarmed id e -> timer_reach c (timer_free id e)
| tr_arm c e caller id deadline now :
    timer_reach c e -> c <= now -> in_u64 now -> in_u64 deadline ->
    timer_reach now (snd (owner_timer_arm_at hz caller id deadline now e))
| tr_cancel c e caller id :
    timer_reach c e -> timer_reach c (snd (owner_timer_cancel caller id e))
| tr_poll c e caller cb now late :
    timer_reach c e -> c <= now -> now <= late -> in_u64 late -> callback_ok hz late cb ->
    timer_reach late (snd (owner_timer_poll hz caller cb now e)).

Context (Hhz : 1000 <= hz < W64).

Lemma engine_init_inv max_lcore lcore cap now e0 e :
  in_u64 now -> 0 <= cap < 4294967296 ->
  (forall id t, timers e0 !! id = Some t -> armed t = false /\ whead t = None) ->
  owner_timer_engine_init hz max_lcore lcore cap false true now e0 = (inr tt, e) ->
  engine_inv hz now e /\ ready (wheel e) = [] /\ polling (wheel e) = false.
Proof.
  intros Hn Hc Hun. unfold owner_timer_engine_init. destruct (_ || _); [done|]. cbn [negb]. cbv zeta.
  intros [= <-]. split; [|done].
  assert (forall h, wlist h (mk_wheel ∅ ∅ [] [] (wheel_tick hz now false) UINT64_MAX UINT64_MAX false) = []) as Hl
    by (intros []; cbn; by rewrite ?lookup_empty).
  constructor; cbn [wheel timers lcore_id e_active e_capacity e_resources active_list].
  - constructor; cbn [wheel timers]; [constructor; cbn [wheel timers]|..].
    + intros h id. rewrite Hl. split; [by intros ?%not_elem_of_nil|]. intros (t & Ht & Hh).
      destruct (Hun id t Ht). congruence.
    + intros h. rewrite Hl. constructor.
    + intros id t b Ht Hh. destruct (Hun id t Ht). congruence.
    + intros b Hb. unfold occ_bit, occ_word. rewrite Hl. cbn [occupied]. rewrite lookup_empty. apply Z.bits_0.
    + intros k. unfold occ_word. cbn [occupied]. rewrite lookup_empty. by split.
    + by apply tick_down.
    + intros id t b [Ht Hh]. destruct (Hun id t Ht). congruence.
    + intros id t b [Ht Hh]. destruct (Hun id t Ht). congruence.
    + unfold cache_ok. cbn [next_tick next_cycles]. unfold in_u64, UINT64_MAX. split; [lia|].
      assert (18446744073709551615 <= (18446744073709551615 * hz + 999) / 1000); [|lia].
      apply Z.div_le_lower_bound; lia.
    + intros id t Ht Hh. destruct (Hun id t Ht). congruence.
  - intros id t Ht. destruct (Hun id t Ht) as [-> ->]. done.
  - intros id t Ht Ha. destruct (Hun id t Ht). congruence.
  - intros id. split; [by intros ?%not_elem_of_nil|]. intros (t & Ht & Ha). destruct (Hun id t Ht). congruence.
  - constructor.
  - cbn. lia.
  - by split.
  - split; [done|]. by apply tick_down_le_target.
  - intros id t Ht Hh. destruct (Hun id t Ht) as [_ Hw]. rewrite Hw in Hh. by destruct Hh.
Qed.

(** Without ready nodes the ready queue is empty. *)
Lemma touches_ready c id e e' :
  engine_inv hz c e -> engine_inv hz c e' -> touches_only id e e' -> ready (wheel e) = [] -> ready (wheel e') = [].
Proof.
  intros Hi Hi' (_ & Hsub & _) Hr. destruct (ready (wheel e')) as [|x l] eqn:E; [done|]. exfalso.
  assert (x ∈ wlist HReady (wheel e')) as Hin by (cbn; rewrite E; apply elem_of_cons; by left).
  apply (core_lists e' (inv_core hz e' (ei_wheel hz c e' Hi'))) in Hin as (t & Ht & Hh).
  assert (x ∈ wlist HReady (wheel e)) as Hin
    by (apply (core_lists e (inv_core hz e (ei_wheel hz c e Hi))); eauto).
  cbn in Hin. rewrite Hr in Hin. by apply not_elem_of_nil in Hin.
Qed.

Lemma timer_reach_inv c e :
  timer_reach c e -> engine_inv hz c e /\ ready (wheel e) = [] /\ polling (wheel e) = false.
Proof.
  induction 1 as [max_lcore lcore cap now e0 e Hn Hc Hun Hinit|c e has_cb id _ (IH & Hr & Hp) Hun|c e id _ (IH & Hr & Hp) Hun
                 |c e caller id d now _ (IH & Hr & Hp) Hc Hn Hd|c e caller id _ (IH & Hr & Hp)
                 |c e caller cb now late _ (IH & Hr & Hp) H1 H2 H3 H4].
  - by eapply engine_init_inv.
  - split; [by apply timer_init_inv|done].
  - split; [by apply timer_free_inv|done].
  - apply (engine_inv_mono hz Hhz c now) in IH; [|done..].
    destruct (run_op_spec hz Hhz now caller e (OpArm id d now) IH) as [J1 J2]; [by split; [|lia]|].
    split; [exact J1|]. split; [by apply (touches_ready now id e)|]. destruct J2 as (_ & _ & _ & _ & J2). cbn in J2. congruence.
  - destruct (run_op_spec hz Hhz c caller e (OpCancel id) IH I) as [J1 J2].
    split; [exact J1|]. split; [by apply (touches_ready c id e)|]. destruct J2 as (_ & _ & _ & _ & J2). cbn in J2. congruence.
  - unfold owner_timer_poll. destruct (negb _); cbn [snd].
    { split; [by apply (engine_inv_mono hz Hhz c); [lia| |]|done]. }
    pose proof (wheel_poll_spec hz Hhz c late cb now e IH Hr Hp H1 H2 H3 H4) as Hs.
    destruct (wheel_poll hz cb now e) as [fired e']. cbn [snd]. tauto.
Qed.
End History.

(** C29: timers never fire early, never twice and never when they are not
    armed.  In every history, every callback a poll runs belongs to a timer
    that is armed, with its deadline at or before the poll's clock reading, at
    the very moment its turn comes, after everything the earlier callbacks of
    the poll did - rearming, cancelling, initializing and freeing timers, their
    own and others; it was armed and due already when the poll began, so a
    timer armed by a callback waits for the next poll; and no timer fires twice
    in one poll. *)
Theorem timer_never_early hz c e caller cb now late fired e' :
  1000 <= hz < W64 -> timer_reach hz c e -> c <= now -> now <= late -> in_u64 late -> callback_ok hz late cb ->
  owner_timer_poll hz caller cb now e = (inr fired, e') ->
  NoDup fired /\
  (exists e0 e1, same_timers e e0 /\ firing hz cb now e0 fired e1 /\ timers e' = timers e1) /\
  forall id, id ∈ fired -> exists t, timers e !! id = Some t /\ armed t = true /\ deadline_cycles t <= now.
Proof.
  intros Hhz Hr H1 H2 H3 H4. destruct (timer_reach_inv hz Hhz c e Hr) as (Hi & Hrd & Hp).
  unfold owner_timer_poll. destruct (negb _); [done|].
  pose proof (wheel_poll_spec hz Hhz c late cb now e Hi Hrd Hp H1 H2 H3 H4) as Hs.
  destruct (wheel_poll hz cb now e) as [f e1]. intros [= -> ->]. tauto.
Qed.

(** C30: Timers do not fire late: a poll fires every armed timer whose
    millisecond tick (its deadline rounded up) has been reached, unless the
    callback of another timer of the same poll cancelled or rearmed it. *)
Theorem timer_fires_when_reached hz c e caller cb now late fired e' id t :
  1000 <= hz < W64 -> timer_reach hz c e -> c <= now -> now <= late -> in_u64 late -> callback_ok hz late cb ->
  owner_timer_poll hz caller cb now e = (inr fired, e') ->
  timers e !! id = Some t -> armed t = true -> undisturbed cb id ->
  wheel_tick hz (deadline_cycles t) true <= wheel_tick hz now false -> id ∈ fired.
Proof.
  intros Hhz Hr H1 H2 H3 H4. destruct (timer_reach_inv hz Hhz c e Hr) as (Hi & Hrd & Hp).
  unfold owner_timer_poll. destruct (negb _); [done|].
  pose proof (wheel_poll_spec hz Hhz c late cb now e Hi Hrd Hp H1 H2 H3 H4) as Hs.
  destruct (wheel_poll hz cb now e) as [f e1]. intros [= -> ->] Ht Ha Hu Hk.
  apply (proj2 (proj2 (proj2 (proj2 (proj2 (proj2 (proj2 (proj2 Hs))))))) id t Ht Ha Hu).
  assert (in_u64 now) as Hnu by (destruct (ei_clock hz c e Hi) as [Hc _]; unfold in_u64 in *; lia).
  pose proof (tick_down_le_target hz Hhz now Hnu). lia.
Qed.

(** The active counter and its gauge count the armed timers exactly and
    never exceed the capacity; a new arm on the owner's lcore is refused for
    space only when that many timers are armed. *)
Theorem timer_capacity hz c e caller id deadline now :
  1000 <= hz < W64 -> timer_reach hz c e -> c <= now -> in_u64 now -> in_u64 deadline ->
  NoDup (active_list e) /\
  (forall x, x ∈ active_list e <-> exists t, timers e !! x = Some t /\ armed t = true) /\
  Z.of_nat (length (active_list e)) = e_active e /\ r_current (e_resources e) = e_active e /\
  e_active e <= e_capacity e /\
  (fst (owner_timer_arm_at hz caller id deadline now e) = inl ENOSPC -> e_active e = e_capacity e).
Proof.
  intros Hhz Hr Hc Hn Hd. destruct (timer_reach_inv hz Hhz c e Hr) as (Hi & _).
  destruct Hi as [E1 E2 E3 E4 E5 [E6 E6'] [E7 E7'] E8 E9].
  split_and!; try done || lia. unfold owner_timer_arm_at. destruct (timers e !! id) as [t|]; [|done].
  destruct (_ || _); [done|]. destruct (negb _); [done|]. destruct (negb _); [done|]. cbv zeta.
  destruct (negb (armed t) && (e_capacity e <=? e_active e)) eqn:E; [|done]. intros _. bprop. lia.
Qed.

(** Arming and cancelling: a successful arm leaves the timer armed at the
    requested deadline, a successful cancel leaves it unarmed, and neither
    touches another timer. *)
Theorem timer_arm_cancel hz c e caller id deadline now :
  1000 <= hz < W64 -> timer_reach hz c e -> c <= now -> in_u64 now -> in_u64 deadline ->
  (forall e', owner_timer_arm_at hz caller id deadline now e = (inr tt, e') ->
     (exists t, timers e' !! id = Some t /\ armed t = true /\ deadline_cycles t = deadline) /\
     forall x, x <> id -> timers e' !! x = timers e !! x) /\
  (forall e', owner_timer_cancel caller id e = (inr tt, e') ->
     owner_timer_is_armed id e' = false /\ forall x, x <> id -> timers e' !! x = timers e !! x).
Proof.
  intros Hhz Hr Hc Hn Hd. destruct (timer_reach_inv hz Hhz c e Hr) as (Hi & _).
  apply (engine_inv_mono hz Hhz c now) in Hi; [|done..]. split.
  - intros e'. unfold owner_timer_arm_at. destruct (timers e !! id) as [t|] eqn:Ht; [|done].
    destruct (_ || _); [done|]. destruct (negb _); [done|]. destruct (negb _); [done|]. cbv zeta.
    destruct (negb (armed t) && (e_capacity e <=? e_active e)) eqn:Hf; [done|].
    destruct (arm_success hz Hhz now e id t deadline now Hi Hd (Z.le_refl _) Ht) as (_ & (h & _ & J) & _).
    { destruct (armed t); [by left|]. right. cbn in Hf. by apply Z.leb_gt in Hf. }
    cbv zeta in J. intros [= <-]. rewrite J. split; [|intros x Hx; by rewrite lookup_alter_ne].
    rewrite lookup_alter_eq, Ht. by eexists.
  - intros e'. unfold owner_timer_cancel. destruct (timers e !! id) as [t|] eqn:Ht; [|done].
    destruct (negb (tm_initialized t)); [done|]. destruct (armed t) eqn:Ha; cbn [negb].
    + destruct (negb (_ && _)); [done|]. destruct (release_effect hz now e id t Hi Ht Ha) as (_ & J & _).
      intros [= <-]. unfold owner_timer_is_armed. rewrite J. split; [|intros x Hx; by rewrite lookup_alter_ne].
      rewrite lookup_alter_eq, Ht. cbn. apply andb_false_r.
    + intros [= <-]. unfold owner_timer_is_armed. rewrite Ht, Ha. split; [apply andb_false_r|done].
Qed.

(** Converting milliseconds to cycles without 128-bit arithmetic gives
    the exact floor of the product, saturated at the 64-bit limit. *)
Theorem ms_to_cycles_exact hz ms :
  0 < hz < W64 -> in_u64 ms ->
  owner_timer_ms_to_cycles hz ms = Z.min UINT64_MAX (ms * hz / 1000).
Proof.
  intros Hh Hm. unfold owner_timer_ms_to_cycles, in_u64, UINT64_MAX in *. cbv zeta.
  pose proof (Z.div_mod ms 1000 ltac:(lia)) as Hms. pose proof (Z.mod_pos_bound ms 1000 ltac:(lia)) as Hr.
  pose proof (Z.div_mod hz 1000 ltac:(lia)) as Hhz'. pose proof (Z.mod_pos_bound hz 1000 ltac:(lia)) as Hhr.
  assert (0 <= ms / 1000) by (apply Z.div_pos; lia). assert (0 <= hz / 1000) by (apply Z.div_pos; lia).
  set (s := ms / 1000) in *. set (r := ms mod 1000) in *. set (w := hz / 1000) in *. set (k := hz mod 1000) in *.
  assert (ms * hz / 1000 = s * hz + (r * w + r * k / 1000)) as ->.
  { rewrite Hms at 1. replace ((1000 * s + r) * hz) with (r * k + (s * hz + r * w) * 1000) by (rewrite Hhz'; ring).
    rewrite Z.div_add by lia. lia. }
  assert (0 <= r * k / 1000 < 1000) by (split; [apply Z.div_pos; nia|apply Z.div_lt_upper_bound; nia]).
  destruct (Z.eqb_spec hz 0); [lia|].
  destruct (Z.ltb_spec (18446744073709551615 / hz) s) as [Hb|Hb].
  { assert (18446744073709551615 < s * hz); [|nia].
    pose proof (Z.mul_succ_div_gt 18446744073709551615 hz ltac:(lia)). nia. }
  assert (s * hz <= 18446744073709551615).
  { pose proof (Z.mul_div_le 18446744073709551615 hz ltac:(lia)). nia. }
  rewrite (u64_small (s * hz)) by (unfold in_u64; nia).
  rewrite (u64_small (r * k)) by (unfold in_u64; nia).
  destruct (negb (r =? 0) && (18446744073709551615 / r <? w)) eqn:Hc.
  { bprop. assert (18446744073709551615 < r * w); [|nia].
    pose proof (Z.mul_succ_div_gt 18446744073709551615 r ltac:(lia)). nia. }
  assert (0 <= r * w <= 18446744073709551615).
  { split; [nia|]. apply andb_false_iff in Hc as [Hc|Hc]; bprop; [nia|].
    destruct (Z.eq_dec r 0) as [->|]; [lia|]. pose proof (Z.mul_div_le 18446744073709551615 r ltac:(lia)). nia. }
  rewrite (u64_small (r * w)) by (unfold in_u64; lia). bsplit; nia.
Qed.

(** A 1 MHz clock, timer 7 armed at cycle 1001, polled at cycle 2000. *)
Definition demo_hz : Z := 1000000.
Definition demo_engine0 : owner_timer_engine :=
  snd (owner_timer_engine_init demo_hz 128 0 16 false true 0
         (mk_engine 0 0 0 metric_zero [] wheel_zero false ∅)).
Definition demo_engine : owner_timer_engine :=
  snd (owner_timer_arm_at demo_hz 0 7 1001 0 (owner_timer_init true 7 demo_engine0)).
Definition no_callback : callback_t := fun _ _ _ => [].

Lemma demo_timer_reach : timer_reach demo_hz 0 demo_engine.
Proof.
  apply tr_arm with (c := 0); [|lia|by split|by split].
  apply tr_timer_init; [|done].
  apply (tr_init demo_hz 128 0 16 0 (mk_engine 0 0 0 metric_zero [] wheel_zero false ∅));
    [by split|lia|done|reflexivity].
Qed.

(** Timers 7 and 8 are both due; each callback frees its own timer and
    cancels the other one, so only one of them fires. *)
Definition demo_pair : owner_timer_engine :=
  snd (owner_timer_arm_at demo_hz 0 8 1002 0 (owner_timer_init true 8 demo_engine)).
Definition cancel_other : callback_t := fun id _ _ => [OpFree id; OpCancel (15 - id)].

Lemma demo_pair_reach : timer_reach demo_hz 0 demo_pair.
Proof. apply tr_arm with (c := 0); [|lia|by split|by split]. apply tr_timer_init; [apply demo_timer_reach|done]. Qed.

Lemma cancel_other_ok : callback_ok demo_hz 2000 cancel_other.
Proof. intros id t e H. exact (conj H (conj I I)). Qed.

Lemma timer_never_early_witness : exists id e',
  owner_timer_poll demo_hz 0 cancel_other 2000 demo_pair = (inr [id], e') /\ (id = 7 \/ id = 8) /\ NoDup [id] /\
  exists e0 e1, same_timers demo_pair e0 /\ firing demo_hz cancel_other 2000 e0 [id] e1 /\ timers e' = timers e1.
Proof.
  destruct (owner_timer_poll demo_hz 0 cancel_other 2000 demo_pair) as [[err|fired] e'] eqn:E.
  { vm_compute in E. discriminate E. }
  destruct (timer_never_early demo_hz 0 demo_pair 0 cancel_other 2000 2000 fired e') as (H1 & H2 & _);
    [unfold demo_hz; lia|apply demo_pair_reach|lia|lia|by split|apply cancel_other_ok|exact E|].
  apply (f_equal fst) in E. vm_compute in E. injection E as <-. eexists _, e'. split; [reflexivity|].
  split; [first [by left|by right]|]. by split.
Defined.

Lemma timer_fires_when_reached_witness : exists fired e',
  owner_timer_poll demo_hz 0 no_callback 2000 demo_engine = (inr fired, e') /\ 7 ∈ fired.
Proof.
  destruct (owner_timer_poll demo_hz 0 no_callback 2000 demo_engine) as [[err|fired] e'] eqn:E.
  { vm_compute in E. discriminate E. }
  exists fired, e'. split; [done|].
  destruct (timers demo_engine !! 7) as [t|] eqn:Ht; [|vm_compute in Ht; discriminate Ht].
  assert (armed t = true /\ deadline_cycles t = 1001) as [Ha Hd]
    by (vm_compute in Ht; injection Ht as <-; by split).
  apply (timer_fires_when_reached demo_hz 0 demo_engine 0 no_callback 2000 2000 fired e' 7 t);
    [unfold demo_hz; lia|apply demo_timer_reach|lia|lia|by split|by intros ? ? ?; constructor|exact E|exact Ht|exact Ha
    |by intros ? ? ? ?; constructor|rewrite Hd; vm_compute; discriminate].
Defined.

Lemma timer_capacity_witness : e_active demo_engine <= e_capacity demo_engine.
Proof.
  apply (timer_capacity demo_hz 0 demo_engine 0 7 5000 0);
    [unfold demo_hz; lia|apply demo_timer_reach|lia|by split|by split].
Defined.

Lemma timer_arm_cancel_witness :
  owner_timer_is_armed 7 (snd (owner_timer_cancel 0 7 demo_engine)) = false.
Proof.
  destruct (owner_timer_cancel 0 7 demo_engine) as [r e'] eqn:E.
  assert (r = inr tt) as -> by (vm_compute in E; congruence).
  apply (timer_arm_cancel demo_hz 0 demo_engine 0 7 5000 0);
    [unfold demo_hz; lia|apply demo_timer_reach|lia|by split|by split|exact E].
Defined.

Lemma ms_to_cycles_exact_witness : owner_timer_ms_to_cycles 2400000001 1500 = 3600000001.
Proof. rewrite (ms_to_cycles_exact 2400000001 1500); [reflexivity|lia|by split]. Defined.
