(* ===== verification/TcpOfo.v ===== *)
(** * Out-of-order reassembly and the receive path
    (pro-stack/tcp_ofo.c; tcp.c: tcp_segment_acceptable ..
    tcp_receive_stream_range, tcp_recv)

    The receive half of a stream.  The queue of [struct tcp_ofo_seg] is the
    list of its nodes in sequence order; the red-black tree indexes the same
    nodes by the same key, so a lower-bound search in it is the first node of
    the list that does not precede the key: Rbtree models that tree and
    RbtreeQueue proves this.  A node's [len] bytes from [data_off] are its
    [odata].  Pool levels and allocation results are
    arguments. *)

From S2P Require Import Prelude Config SeqNum.

Definition TCP_OFO_MAX_BYTES : Z := TCP_RCVBUF_SIZE.
Definition TCP_OFO_OWNER_MAX_BYTES : Z := 4 * 1024 * 1024.
Definition TCP_OFO_PRESSURE_ENTER_PERCENT : Z := 75.
Definition TCP_OFO_PRESSURE_EXIT_PERCENT : Z := 50.
Definition TCP_OFO_PRESSURE_NEAR_DISTANCE : Z := 16 * 1024.
Definition TCP_OFO_PRESSURE_MEDIUM_DISTANCE : Z := 64 * 1024.
Definition TCP_OFO_PRESSURE_NEAR_MAX_SEGS : Z := 8.
Definition TCP_OFO_PRESSURE_MEDIUM_MAX_SEGS : Z := 16.
Definition TCP_OFO_PRESSURE_FAR_MAX_SEGS : Z := 24.
Definition TCP_OFO_PRESSURE_NEAR_MAX_BYTES : Z := 16 * 1024.
Definition TCP_OFO_PRESSURE_MEDIUM_MAX_BYTES : Z := 32 * 1024.
Definition TCP_OFO_PRESSURE_FAR_MAX_BYTES : Z := 48 * 1024.
Definition TCP_MEMORY_LOW_WATER : Z := 64.
Definition TCP_MEMORY_HIGH_WATER : Z := 128.

Inductive TCP_STATUS :=
| TCP_STATUS_CLOSED | TCP_STATUS_LISTEN | TCP_STATUS_SYN_SENT | TCP_STATUS_SYN_RECV
| TCP_STATUS_ESTABLISHED | TCP_STATUS_CLOSE_WAIT | TCP_STATUS_LAST_ACK | TCP_STATUS_TIME_WAIT
| TCP_STATUS_CLOSING | TCP_STATUS_FIN_WAIT_1 | TCP_STATUS_FIN_WAIT_2.
#[global] Instance status_eq_dec : EqDecision TCP_STATUS.
Proof. solve_decision. Defined.

Record tcp_ofo_seg := mk_oseg { oseq : Z; odata : list Z; ofin : bool }.
Definition oend (g : tcp_ofo_seg) : Z := u32 (oseq g + zlen (odata g)).

(** ** Owner metrics and pressure *)

Record tcp_ofo_metrics := mk_ofom {
  segments_current : Z;
  segments_peak : Z;
  bytes_current : Z;
  bytes_peak : Z;
  accepted_segments : Z;
  accepted_bytes : Z;
  released_segments : Z;
  released_bytes : Z;
  reorder_distance_max : Z;
  drop_rcvbuf : Z;
  drop_seg_limit : Z;
  drop_byte_limit : Z;
  drop_owner_limit : Z;
  drop_alloc : Z;
  drop_pressure : Z;
  pressure_transitions : Z;
  pressure_active : Z
}.

Definition with_segments_current (v : Z) (s : tcp_ofo_metrics) : tcp_ofo_metrics :=
  mk_ofom v (segments_peak s) (bytes_current s) (bytes_peak s)
   (accepted_segments s) (accepted_bytes s) (released_segments s)
   (released_bytes s) (reorder_distance_max s) (drop_rcvbuf s)
   (drop_seg_limit s) (drop_byte_limit s) (drop_owner_limit s)
   (drop_alloc s) (drop_pressure s) (pressure_transitions s)
   (pressure_active s).
Definition with_segments_peak (v : Z) (s : tcp_ofo_metrics) : tcp_ofo_metrics :=
  mk_ofom (segments_current s) v (bytes_current s) (bytes_peak s)
   (accepted_segments s) (accepted_bytes s) (released_segments s)
   (released_bytes s) (reorder_distance_max s) (drop_rcvbuf s)
   (drop_seg_limit s) (drop_byte_limit s) (drop_owner_limit s)
   (drop_alloc s) (drop_pressure s) (pressure_transitions s)
   (pressure_active s).
Definition with_bytes_current (v : Z) (s : tcp_ofo_metrics) : tcp_ofo_metrics :=
  mk_ofom (segments_current s) (segments_peak s) v (bytes_peak s)
   (accepted_segments s) (accepted_bytes s) (released_segments s)
   (released_bytes s) (reorder_distance_max s) (drop_rcvbuf s)
   (drop_seg_limit s) (drop_byte_limit s) (drop_owner_limit s)
   (drop_alloc s) (drop_pressure s) (pressure_transitions s)
   (pressure_active s).
Definition with_bytes_peak (v : Z) (s : tcp_ofo_metrics) : tcp_ofo_metrics :=
  mk_ofom (segments_current s) (segments_peak s) (bytes_current s) v
   (accepted_segments s) (accepted_bytes s) (released_segments s)
   (released_bytes s) (reorder_distance_max s) (drop_rcvbuf s)
   (drop_seg_limit s) (drop_byte_limit s) (drop_owner_limit s)
   (drop_alloc s) (drop_pressure s) (pressure_transitions s)
   (pressure_active s).
Definition with_accepted_segments (v : Z) (s : tcp_ofo_metrics) : tcp_ofo_metrics :=
  mk_ofom (segments_current s) (segments_peak s) (bytes_current s)
   (bytes_peak s) v (accepted_bytes s) (released_segments s)
   (released_bytes s) (reorder_distance_max s) (drop_rcvbuf s)
   (drop_seg_limit s) (drop_byte_limit s) (drop_owner_limit s)
   (drop_alloc s) (drop_pressure s) (pressure_transitions s)
   (pressure_active s).
Definition with_accepted_bytes (v : Z) (s : tcp_ofo_metrics) : tcp_ofo_metrics :=
  mk_ofom (segments_current s) (segments_peak s) (bytes_current s)
   (bytes_peak s) (accepted_segments s) v (released_segments s)
   (released_bytes s) (reorder_distance_max s) (drop_rcvbuf s)
   (drop_seg_limit s) (drop_byte_limit s) (drop_owner_limit s)
   (drop_alloc s) (drop_pressure s) (pressure_transitions s)
   (pressure_active s).
Definition with_released_segments (v : Z) (s : tcp_ofo_metrics) : tcp_ofo_metrics :=
  mk_ofom (segments_current s) (segments_peak s) (bytes_current s)
   (bytes_peak s) (accepted_segments s) (accepted_bytes s) v
   (released_bytes s) (reorder_distance_max s) (drop_rcvbuf s)
   (drop_seg_limit s) (drop_byte_limit s) (drop_owner_limit s)
   (drop_alloc s) (drop_pressure s) (pressure_transitions s)
   (pressure_active s).
Definition with_released_bytes (v : Z) (s : tcp_ofo_metrics) : tcp_ofo_metrics :=
  mk_ofom (segments_current s) (segments_peak s) (bytes_current s)
   (bytes_peak s) (accepted_segments s) (accepted_bytes s)
   (released_segments s) v (reorder_distance_max s) (drop_rcvbuf s)
   (drop_seg_limit s) (drop_byte_limit s) (drop_owner_limit s)
   (drop_alloc s) (drop_pressure s) (pressure_transitions s)
   (pressure_active s).
Definition with_reorder_distance_max (v : Z) (s : tcp_ofo_metrics) : tcp_ofo_metrics :=
  mk_ofom (segments_current s) (segments_peak s) (bytes_current s)
   (bytes_peak s) (accepted_segments s) (accepted_bytes s)
   (released_segments s) (released_bytes s) v (drop_rcvbuf s)
   (drop_seg_limit s) (drop_byte_limit s) (drop_owner_limit s)
   (drop_alloc s) (drop_pressure s) (pressure_transitions s)
   (pressure_active s).
Definition with_drop_rcvbuf (v : Z) (s : tcp_ofo_metrics) : tcp_ofo_metrics :=
  mk_ofom (segments_current s) (segments_peak s) (bytes_current s)
   (bytes_peak s) (accepted_segments s) (accepted_bytes s)
   (released_segments s) (released_bytes s) (reorder_distance_max s) v
   (drop_seg_limit s) (drop_byte_limit s) (drop_owner_limit s)
   (drop_alloc s) (drop_pressure s) (pressure_transitions s)
   (pressure_active s).
Definition with_drop_seg_limit (v : Z) (s : tcp_ofo_metrics) : tcp_ofo_metrics :=
  mk_ofom (segments_current s) (segments_peak s) (bytes_current s)
   (bytes_peak s) (accepted_segments s) (accepted_bytes s)
   (released_segments s) (released_bytes s) (reorder_distance_max s)
   (drop_rcvbuf s) v (drop_byte_limit s) (drop_owner_limit s) (drop_alloc s)
   (drop_pressure s) (pressure_transitions s) (pressure_active s).
Definition with_drop_byte_limit (v : Z) (s : tcp_ofo_metrics) : tcp_ofo_metrics :=
  mk_ofom (segments_current s) (segments_peak s) (bytes_current s)
   (bytes_peak s) (accepted_segments s) (accepted_bytes s)
   (released_segments s) (released_bytes s) (reorder_distance_max s)
   (drop_rcvbuf s) (drop_seg_limit s) v (drop_owner_limit s) (drop_alloc s)
   (drop_pressure s) (pressure_transitions s) (pressure_active s).
Definition with_drop_owner_limit (v : Z) (s : tcp_ofo_metrics) : tcp_ofo_metrics :=
  mk_ofom (segments_current s) (segments_peak s) (bytes_current s)
   (bytes_peak s) (accepted_segments s) (accepted_bytes s)
   (released_segments s) (released_bytes s) (reorder_distance_max s)
   (drop_rcvbuf s) (drop_seg_limit s) (drop_byte_limit s) v (drop_alloc s)
   (drop_pressure s) (pressure_transitions s) (pressure_active s).
Definition with_drop_alloc (v : Z) (s : tcp_ofo_metrics) : tcp_ofo_metrics :=
  mk_ofom (segments_current s) (segments_peak s) (bytes_current s)
   (bytes_peak s) (accepted_segments s) (accepted_bytes s)
   (released_segments s) (released_bytes s) (reorder_distance_max s)
   (drop_rcvbuf s) (drop_seg_limit s) (drop_byte_limit s)
   (drop_owner_limit s) v (drop_pressure s) (pressure_transitions s)
   (pressure_active s).
Definition with_drop_pressure (v : Z) (s : tcp_ofo_metrics) : tcp_ofo_metrics :=
  mk_ofom (segments_current s) (segments_peak s) (bytes_current s)
   (bytes_peak s) (accepted_segments s) (accepted_bytes s)
   (released_segments s) (released_bytes s) (reorder_distance_max s)
   (drop_rcvbuf s) (drop_seg_limit s) (drop_byte_limit s)
   (drop_owner_limit s) (drop_alloc s) v (pressure_transitions s)
   (pressure_active s).
Definition with_pressure_transitions (v : Z) (s : tcp_ofo_metrics) : tcp_ofo_metrics :=
  mk_ofom (segments_current s) (segments_peak s) (bytes_current s)
   (bytes_peak s) (accepted_segments s) (accepted_bytes s)
   (released_segments s) (released_bytes s) (reorder_distance_max s)
   (drop_rcvbuf s) (drop_seg_limit s) (drop_byte_limit s)
   (drop_owner_limit s) (drop_alloc s) (drop_pressure s) v
   (pressure_active s).
Definition with_pressure_active (v : Z) (s : tcp_ofo_metrics) : tcp_ofo_metrics :=
  mk_ofom (segments_current s) (segments_peak s) (bytes_current s)
   (bytes_peak s) (accepted_segments s) (accepted_bytes s)
   (released_segments s) (released_bytes s) (reorder_distance_max s)
   (drop_rcvbuf s) (drop_seg_limit s) (drop_byte_limit s)
   (drop_owner_limit s) (drop_alloc s) (drop_pressure s)
   (pressure_transitions s) v.

Record tcp_ofo_owner_state := mk_owner {
  metrics : tcp_ofo_metrics;
  lifetime_segments_peak : Z;
  lifetime_bytes_peak : Z;
  pressure : bool
}.

Definition with_metrics (v : tcp_ofo_metrics) (s : tcp_ofo_owner_state) : tcp_ofo_owner_state :=
  mk_owner v (lifetime_segments_peak s) (lifetime_bytes_peak s) (pressure s)
.
Definition with_lifetime_segments_peak (v : Z) (s : tcp_ofo_owner_state) : tcp_ofo_owner_state :=
  mk_owner (metrics s) v (lifetime_bytes_peak s) (pressure s).
Definition with_lifetime_bytes_peak (v : Z) (s : tcp_ofo_owner_state) : tcp_ofo_owner_state :=
  mk_owner (metrics s) (lifetime_segments_peak s) v (pressure s).
Definition with_pressure (v : bool) (s : tcp_ofo_owner_state) : tcp_ofo_owner_state :=
  mk_owner (metrics s) (lifetime_segments_peak s) (lifetime_bytes_peak s) v.

Definition metrics_alter (f : tcp_ofo_metrics -> tcp_ofo_metrics) (o : tcp_ofo_owner_state)
    : tcp_ofo_owner_state := with_metrics (f (metrics o)) o.

(** Free objects of the OFO and payload pools, when a link starts and after
    it, and the results of its two allocations. *)
Record ofo_mem := mk_omem {
  ofo_available : Z;
  payload_available : Z;
  ofo_available_after : Z;
  payload_available_after : Z;
  seg_alloc : bool;
  payload_alloc : bool
}.

Definition tcp_ofo_set_pressure (p : bool) (o : tcp_ofo_owner_state) : tcp_ofo_owner_state :=
  if Bool.eqb (pressure o) p then o
  else metrics_alter (fun m => with_pressure_transitions (u64 (pressure_transitions m + 1)) m)
         (with_pressure p o).

Definition tcp_ofo_update_pressure (ofo_av payload_av : Z) (o : tcp_ofo_owner_state)
    : tcp_ofo_owner_state :=
  let enter_bytes := TCP_OFO_OWNER_MAX_BYTES * TCP_OFO_PRESSURE_ENTER_PERCENT / 100 in
  let exit_bytes := TCP_OFO_OWNER_MAX_BYTES * TCP_OFO_PRESSURE_EXIT_PERCENT / 100 in
  if negb (pressure o) then
    if (ofo_av <=? TCP_MEMORY_LOW_WATER) || (payload_av <=? TCP_MEMORY_LOW_WATER)
       || (enter_bytes <=? bytes_current (metrics o))
    then tcp_ofo_set_pressure true o else o
  else if (TCP_MEMORY_HIGH_WATER <=? ofo_av) && (TCP_MEMORY_HIGH_WATER <=? payload_av)
          && (bytes_current (metrics o) <=? exit_bytes)
       then tcp_ofo_set_pressure false o else o.

(** [false] is the refusal. *)
Definition tcp_ofo_owner_can_reserve (bytes : Z) (o : tcp_ofo_owner_state) : bool :=
  if bytes =? 0 then true
  else negb ((TCP_OFO_OWNER_MAX_BYTES <? bytes_current (metrics o))
             || (TCP_OFO_OWNER_MAX_BYTES - bytes_current (metrics o) <? bytes)).

Definition tcp_ofo_metrics_release (bytes : Z) (segment : bool) (o : tcp_ofo_owner_state)
    : tcp_ofo_owner_state :=
  metrics_alter (fun m =>
    let m1 := with_bytes_current (if bytes_current m <=? bytes then 0 else bytes_current m - bytes) m in
    let m2 := with_released_bytes (u64 (released_bytes m1 + bytes)) m1 in
    if segment then
      with_released_segments (u64 (released_segments m2 + 1))
        (if segments_current m2 =? 0 then m2 else with_segments_current (segments_current m2 - 1) m2)
    else m2) o.

Definition tcp_ofo_effective_limits (m : ofo_mem) (distance : Z) (o : tcp_ofo_owner_state)
    : (Z * Z) * tcp_ofo_owner_state :=
  let o1 := tcp_ofo_update_pressure (ofo_available m) (payload_available m) o in
  (if negb (pressure o1) then (TCP_OFO_MAX_SEGS, TCP_OFO_MAX_BYTES)
   else if distance <=? TCP_OFO_PRESSURE_NEAR_DISTANCE
   then (TCP_OFO_PRESSURE_NEAR_MAX_SEGS, TCP_OFO_PRESSURE_NEAR_MAX_BYTES)
   else if distance <=? TCP_OFO_PRESSURE_MEDIUM_DISTANCE
   then (TCP_OFO_PRESSURE_MEDIUM_MAX_SEGS, TCP_OFO_PRESSURE_MEDIUM_MAX_BYTES)
   else (TCP_OFO_PRESSURE_FAR_MAX_SEGS, TCP_OFO_PRESSURE_FAR_MAX_BYTES), o1).

Definition tcp_ofo_metrics_accept (bytes : Z) (o : tcp_ofo_owner_state) : tcp_ofo_owner_state :=
  let sc := u64 (segments_current (metrics o) + 1) in
  let bc := u64 (bytes_current (metrics o) + bytes) in
  let o1 := with_lifetime_segments_peak (Z.max (lifetime_segments_peak o) sc)
              (with_lifetime_bytes_peak (Z.max (lifetime_bytes_peak o) bc) o) in
  metrics_alter (fun m =>
    with_segments_current sc (with_bytes_current bc
      (with_accepted_segments (u64 (accepted_segments m + 1))
        (with_accepted_bytes (u64 (accepted_bytes m + bytes))
          (with_segments_peak (Z.max (segments_peak m) sc)
            (with_bytes_peak (Z.max (bytes_peak m) bc) m)))))) o1.

Definition metrics_zero : tcp_ofo_metrics := mk_ofom 0 0 0 0 0 0 0 0 0 0 0 0 0 0 0 0 0.

Definition tcp_ofo_metrics_take (ofo_av payload_av : Z) (o : tcp_ofo_owner_state)
    : tcp_ofo_metrics * tcp_ofo_owner_state :=
  let o1 := tcp_ofo_update_pressure ofo_av payload_av o in
  let active := if pressure o1 then 1 else 0 in
  let out := with_pressure_active active (metrics o1) in
  (out, with_metrics
     (with_pressure_active active
       (with_segments_current (segments_current out) (with_segments_peak (segments_current out)
         (with_bytes_current (bytes_current out) (with_bytes_peak (bytes_current out) metrics_zero))))) o1).

(** ** The receive half of a stream *)

Record tcp_rx := mk_rx {
  recv_ack : Z;
  rcvbuf_size : Z;
  rcvbuf_used : Z;
  ofo : list tcp_ofo_seg;
  ofo_count : Z;
  ofo_bytes : Z;
  ofo_reorder_distance_peak : Z;
  sack_permitted : bool;
  dsack : option (Z * Z);
  sack_recent : option (Z * Z);
  sack_history_count : Z;
  status : TCP_STATUS;
  peer_eof : bool;
  rx_queue : list (list Z);
  rx_current : option (list Z);
  owner : tcp_ofo_owner_state;
  terminal_error : option errno
}.

Definition with_recv_ack (v : Z) (s : tcp_rx) : tcp_rx :=
  mk_rx v (rcvbuf_size s) (rcvbuf_used s) (ofo s) (ofo_count s)
   (ofo_bytes s) (ofo_reorder_distance_peak s) (sack_permitted s) (dsack s)
   (sack_recent s) (sack_history_count s) (status s) (peer_eof s)
   (rx_queue s) (rx_current s) (owner s) (terminal_error s).
Definition with_rcvbuf_used (v : Z) (s : tcp_rx) : tcp_rx :=
  mk_rx (recv_ack s) (rcvbuf_size s) v (ofo s) (ofo_count s) (ofo_bytes s)
   (ofo_reorder_distance_peak s) (sack_permitted s) (dsack s)
   (sack_recent s) (sack_history_count s) (status s) (peer_eof s)
   (rx_queue s) (rx_current s) (owner s) (terminal_error s).
Definition with_ofo (v : list tcp_ofo_seg) (s : tcp_rx) : tcp_rx :=
  mk_rx (recv_ack s) (rcvbuf_size s) (rcvbuf_used s) v (ofo_count s)
   (ofo_bytes s) (ofo_reorder_distance_peak s) (sack_permitted s) (dsack s)
   (sack_recent s) (sack_history_count s) (status s) (peer_eof s)
   (rx_queue s) (rx_current s) (owner s) (terminal_error s).
Definition with_ofo_count (v : Z) (s : tcp_rx) : tcp_rx :=
  mk_rx (recv_ack s) (rcvbuf_size s) (rcvbuf_used s) (ofo s) v (ofo_bytes s)
   (ofo_reorder_distance_peak s) (sack_permitted s) (dsack s)
   (sack_recent s) (sack_history_count s) (status s) (peer_eof s)
   (rx_queue s) (rx_current s) (owner s) (terminal_error s).
Definition with_ofo_bytes (v : Z) (s : tcp_rx) : tcp_rx :=
  mk_rx (recv_ack s) (rcvbuf_size s) (rcvbuf_used s) (ofo s) (ofo_count s) v
   (ofo_reorder_distance_peak s) (sack_permitted s) (dsack s)
   (sack_recent s) (sack_history_count s) (status s) (peer_eof s)
   (rx_queue s) (rx_current s) (owner s) (terminal_error s).
Definition with_ofo_reorder_distance_peak (v : Z) (s : tcp_rx) : tcp_rx :=
  mk_rx (recv_ack s) (rcvbuf_size s) (rcvbuf_used s) (ofo s) (ofo_count s)
   (ofo_bytes s) v (sack_permitted s) (dsack s) (sack_recent s)
   (sack_history_count s) (status s) (peer_eof s) (rx_queue s)
   (rx_current s) (owner s) (terminal_error s).
Definition with_sack_permitted (v : bool) (s : tcp_rx) : tcp_rx :=
  mk_rx (recv_ack s) (rcvbuf_size s) (rcvbuf_used s) (ofo s) (ofo_count s)
   (ofo_bytes s) (ofo_reorder_distance_peak s) v (dsack s)
   (sack_recent s) (sack_history_count s) (status s) (peer_eof s)
   (rx_queue s) (rx_current s) (owner s) (terminal_error s).
Definition with_dsack (v : option (Z * Z)) (s : tcp_rx) : tcp_rx :=
  mk_rx (recv_ack s) (rcvbuf_size s) (rcvbuf_used s) (ofo s) (ofo_count s)
   (ofo_bytes s) (ofo_reorder_distance_peak s) (sack_permitted s) v
   (sack_recent s) (sack_history_count s) (status s) (peer_eof s)
   (rx_queue s) (rx_current s) (owner s) (terminal_error s).
Definition with_sack_recent (v : option (Z * Z)) (s : tcp_rx) : tcp_rx :=
  mk_rx (recv_ack s) (rcvbuf_size s) (rcvbuf_used s) (ofo s) (ofo_count s)
   (ofo_bytes s) (ofo_reorder_distance_peak s) (sack_permitted s) (dsack s)
   v (sack_history_count s) (status s) (peer_eof s) (rx_queue s)
   (rx_current s) (owner s) (terminal_error s).
Definition with_sack_history_count (v : Z) (s : tcp_rx) : tcp_rx :=
  mk_rx (recv_ack s) (rcvbuf_size s) (rcvbuf_used s) (ofo s) (ofo_count s)
   (ofo_bytes s) (ofo_reorder_distance_peak s) (sack_permitted s) (dsack s)
   (sack_recent s) v (status s) (peer_eof s) (rx_queue s) (rx_current s)
   (owner s) (terminal_error s).
Definition with_status (v : TCP_STATUS) (s : tcp_rx) : tcp_rx :=
  mk_rx (recv_ack s) (rcvbuf_size s) (rcvbuf_used s) (ofo s) (ofo_count s)
   (ofo_bytes s) (ofo_reorder_distance_peak s) (sack_permitted s) (dsack s)
   (sack_recent s) (sack_history_count s) v (peer_eof s) (rx_queue s)
   (rx_current s) (owner s) (terminal_error s).
Definition with_peer_eof (v : bool) (s : tcp_rx) : tcp_rx :=
  mk_rx (recv_ack s) (rcvbuf_size s) (rcvbuf_used s) (ofo s) (ofo_count s)
   (ofo_bytes s) (ofo_reorder_distance_peak s) (sack_permitted s) (dsack s)
   (sack_recent s) (sack_history_count s) (status s) v (rx_queue s)
   (rx_current s) (owner s) (terminal_error s).
Definition with_rx_queue (v : list (list Z)) (s : tcp_rx) : tcp_rx :=
  mk_rx (recv_ack s) (rcvbuf_size s) (rcvbuf_used s) (ofo s) (ofo_count s)
   (ofo_bytes s) (ofo_reorder_distance_peak s) (sack_permitted s) (dsack s)
   (sack_recent s) (sack_history_count s) (status s) (peer_eof s) v
   (rx_current s) (owner s) (terminal_error s).
Definition with_rx_current (v : option (list Z)) (s : tcp_rx) : tcp_rx :=
  mk_rx (recv_ack s) (rcvbuf_size s) (rcvbuf_used s) (ofo s) (ofo_count s)
   (ofo_bytes s) (ofo_reorder_distance_peak s) (sack_permitted s) (dsack s)
   (sack_recent s) (sack_history_count s) (status s) (peer_eof s)
   (rx_queue s) v (owner s) (terminal_error s).
Definition with_owner (v : tcp_ofo_owner_state) (s : tcp_rx) : tcp_rx :=
  mk_rx (recv_ack s) (rcvbuf_size s) (rcvbuf_used s) (ofo s) (ofo_count s)
   (ofo_bytes s) (ofo_reorder_distance_peak s) (sack_permitted s) (dsack s)
   (sack_recent s) (sack_history_count s) (status s) (peer_eof s)
   (rx_queue s) (rx_current s) v (terminal_error s).
Definition with_terminal_error (v : option errno) (s : tcp_rx) : tcp_rx :=
  mk_rx (recv_ack s) (rcvbuf_size s) (rcvbuf_used s) (ofo s) (ofo_count s)
   (ofo_bytes s) (ofo_reorder_distance_peak s) (sack_permitted s) (dsack s)
   (sack_recent s) (sack_history_count s) (status s) (peer_eof s)
   (rx_queue s) (rx_current s) (owner s) v.

Definition owner_alter (f : tcp_ofo_owner_state -> tcp_ofo_owner_state) (s : tcp_rx) : tcp_rx :=
  with_owner (f (owner s)) s.
Definition count_drop (f : tcp_ofo_metrics -> tcp_ofo_metrics) (s : tcp_rx) : tcp_rx :=
  owner_alter (metrics_alter f) s.

Definition tcp_ofo_rcv_wnd (s : tcp_rx) : Z :=
  if rcvbuf_size s <=? rcvbuf_used s then 0 else rcvbuf_size s - rcvbuf_used s.

Definition tcp_ofo_rcvbuf_sub (bytes : Z) (s : tcp_rx) : tcp_rx :=
  with_rcvbuf_used (if rcvbuf_used s <=? bytes then 0 else rcvbuf_used s - bytes) s.

(** The nodes before the lower bound of [seq], and the rest. *)
Fixpoint tcp_ofo_lower_bound (seq : Z) (l : list tcp_ofo_seg) : list tcp_ofo_seg * list tcp_ofo_seg :=
  match l with
  | [] => ([], [])
  | g :: t =>
      if seq_lt (oseq g) seq then let '(pre, rest) := tcp_ofo_lower_bound seq t in (g :: pre, rest)
      else ([], l)
  end.

(** Where a walk starts: the lower bound, or the node before it when that
    one reaches past [seq]. *)
Definition walk_start (seq : Z) (l : list tcp_ofo_seg) : list tcp_ofo_seg * list tcp_ofo_seg :=
  let '(pre, rest) := tcp_ofo_lower_bound seq l in
  match last pre with
  | Some p => if tcp_seq_gt (oend p) seq then (removelast pre, p :: rest) else (pre, rest)
  | None => (pre, rest)
  end.

Fixpoint buffered_walk (l : list tcp_ofo_seg) (cursor end_ : Z) (prev : option tcp_ofo_seg)
    : option (Z * option tcp_ofo_seg) :=
  match l with
  | [] => Some (cursor, prev)
  | g :: t =>
      if seq_lt cursor end_ then
        if tcp_seq_gt (oseq g) cursor then None
        else buffered_walk t (if tcp_seq_gt (oend g) cursor then oend g else cursor) end_ (Some g)
      else Some (cursor, prev)
  end.

Definition tcp_ofo_range_buffered (seq len : Z) (has_fin : bool) (s : tcp_rx) : bool :=
  let end_ := u32 (seq + len) in
  match buffered_walk (snd (walk_start seq (ofo s))) seq end_ None with
  | None => false
  | Some (cursor, prev) =>
      if seq_lt cursor end_ then false
      else if negb has_fin then true
      else
        (match prev with Some g => ofin g && (oend g =? end_) | None => false end)
        || match snd (tcp_ofo_lower_bound end_ (ofo s)) with
           | g :: _ => (oseq g =? end_) && (zlen (odata g) =? 0) && ofin g
           | [] => false
           end
  end.

Definition tcp_ofo_record_rcv_window_drop (seq len : Z) (has_fin : bool) (s : tcp_rx) : tcp_rx :=
  if tcp_ofo_range_buffered seq len has_fin s then s
  else count_drop (fun m => with_drop_rcvbuf (u64 (drop_rcvbuf m + 1)) m) s.

(** Unlinking the head; the rest of the list is [t]. *)
Definition tcp_ofo_unlink (g : tcp_ofo_seg) (t : list tcp_ofo_seg) (s : tcp_rx) : tcp_rx :=
  let s1 := owner_alter (tcp_ofo_metrics_release (zlen (odata g)) true)
              (with_ofo_bytes (u32 (ofo_bytes s - zlen (odata g)))
                (with_ofo_count (u16 (ofo_count s - 1)) (with_ofo t s))) in
  if ofo_count s1 =? 0 then with_ofo_reorder_distance_peak 0 s1 else s1.

(** Trimming the head by [skip] bytes. *)
Definition tcp_ofo_rekey_after_trim (skip : Z) (g : tcp_ofo_seg) (t : list tcp_ofo_seg) (s : tcp_rx)
    : tcp_ofo_seg * tcp_rx :=
  let g' := mk_oseg (u32 (oseq g + skip)) (drop (Z.to_nat skip) (odata g)) (ofin g) in
  (g', tcp_ofo_rcvbuf_sub skip
         (owner_alter (tcp_ofo_metrics_release skip false)
           (with_ofo_bytes (u32 (ofo_bytes s - skip)) (with_ofo (g' :: t) s)))).

Fixpoint purge_nodes (l : list tcp_ofo_seg) (s : tcp_rx) : tcp_rx :=
  match l with
  | [] => s
  | g :: t => purge_nodes t (tcp_ofo_unlink g t (tcp_ofo_rcvbuf_sub (zlen (odata g)) s))
  end.

Definition tcp_ofo_purge (s : tcp_rx) : tcp_rx :=
  with_dsack None (with_sack_history_count 0 (with_sack_recent None
    (with_ofo_reorder_distance_peak 0 (with_ofo_bytes 0 (with_ofo_count 0
      (with_ofo [] (purge_nodes (ofo s) s))))))).

(** ** Insertion *)

(** Linking a node between [pre] and [rest]; [false] is the [-1] return. *)
Definition tcp_ofo_link (m : ofo_mem) (seq : Z) (data : list Z) (has_fin : bool)
    (pre rest : list tcp_ofo_seg) (s : tcp_rx) : bool * tcp_rx :=
  let len := zlen data in
  if (len =? 0) && negb has_fin then (true, s)
  else if match rest with g :: _ => oseq g =? seq | [] => false end then (true, s)
  else
    let reorder_distance := if tcp_seq_gt seq (recv_ack s) then u32 (seq - recv_ack s) else 0 in
    let episode_distance := Z.max reorder_distance (ofo_reorder_distance_peak s) in
    let s0 := count_drop (fun m => with_reorder_distance_max (Z.max (reorder_distance_max m) reorder_distance) m) s in
    let '((lim_segs, lim_bytes), o1) := tcp_ofo_effective_limits m episode_distance (owner s0) in
    let s1 := with_owner o1 s0 in
    if tcp_ofo_rcv_wnd s1 <? len
    then (false, count_drop (fun m => with_drop_rcvbuf (u64 (drop_rcvbuf m + 1)) m) s1)
    else if lim_segs <=? ofo_count s1
    then (false, count_drop (fun m =>
            let m1 := with_drop_seg_limit (u64 (drop_seg_limit m + 1)) m in
            if lim_segs <? TCP_OFO_MAX_SEGS then with_drop_pressure (u64 (drop_pressure m1 + 1)) m1 else m1) s1)
    else if (lim_bytes <? ofo_bytes s1) || (lim_bytes - ofo_bytes s1 <? len)
    then (false, count_drop (fun m =>
            let m1 := with_drop_byte_limit (u64 (drop_byte_limit m + 1)) m in
            if lim_bytes <? TCP_OFO_MAX_BYTES then with_drop_pressure (u64 (drop_pressure m1 + 1)) m1 else m1) s1)
    else if negb (tcp_ofo_owner_can_reserve len (owner s1))
    then (false, count_drop (fun m => with_drop_owner_limit (u64 (drop_owner_limit m + 1)) m) s1)
    else if (TCP_MEMORY_CHUNK_SIZE <? len) || negb (seg_alloc m) || ((0 <? len) && negb (payload_alloc m))
    then (false, count_drop (fun m => with_drop_alloc (u64 (drop_alloc m + 1)) m) s1)
    else
      (true, owner_alter (tcp_ofo_update_pressure (ofo_available_after m) (payload_available_after m))
        (owner_alter (tcp_ofo_metrics_accept len)
          (with_rcvbuf_used (u32 (rcvbuf_used s1 + len))
            (with_ofo_reorder_distance_peak episode_distance
              (with_ofo_bytes (u32 (ofo_bytes s1 + len))
                (with_ofo_count (u16 (ofo_count s1 + 1))
                  (with_ofo (pre ++ mk_oseg seq data has_fin :: rest) s1))))))).

(** The overlap walk; [mem k] serves the [k]-th link of the call. *)
Fixpoint ofo_walk (mem : nat -> ofo_mem) (k : nat) (seq : Z) (data : list Z) (has_fin : bool)
    (pre rest : list tcp_ofo_seg) (s : tcp_rx) : bool * tcp_rx :=
  match rest with
  | [] => tcp_ofo_link (mem k) seq data has_fin pre rest s
  | cur :: t =>
      let len := zlen data in
      if len =? 0 then tcp_ofo_link (mem k) seq data has_fin pre rest s
      else
        let cur_end := oend cur in
        let seg_end := u32 (seq + len) in
        if seq_leq cur_end seq then ofo_walk mem k seq data has_fin (pre ++ [cur]) t s
        else if seq_leq seg_end (oseq cur) then tcp_ofo_link (mem k) seq data has_fin pre rest s
        else
          let skip := u32 (cur_end - seq) in
          let over := (len <? skip) || ((skip =? len) && negb has_fin) in
          if seq_lt seq (oseq cur) then
            let left := u32 (oseq cur - seq) in
            let '(ok, s1) := tcp_ofo_link (mem k) seq (take (Z.to_nat left) data) false pre rest s in
            if negb ok then (false, s1)
            else if over then (true, s1)
            else ofo_walk mem (S k) cur_end (drop (Z.to_nat skip) data) has_fin
                   (take (length (ofo s1) - length rest) (ofo s1) ++ [cur]) t s1
          else if over then (true, s)
          else ofo_walk mem k cur_end (drop (Z.to_nat skip) data) has_fin (pre ++ [cur]) t s
  end.

Definition tcp_ofo_queue_insert (mem : nat -> ofo_mem) (seq : Z) (data : list Z) (has_fin : bool)
    (s : tcp_rx) : bool * tcp_rx :=
  let rcv_nxt := recv_ack s in
  let wnd_end := u32 (rcv_nxt + tcp_ofo_rcv_wnd s) in
  let skip := u32 (rcv_nxt - seq) in
  if seq_lt seq rcv_nxt && ((zlen data <? skip) || ((skip =? zlen data) && negb has_fin)) then (true, s)
  else
    let '(seq, data) := if seq_lt seq rcv_nxt then (rcv_nxt, drop (Z.to_nat skip) data) else (seq, data) in
    if negb (seq_lt seq wnd_end) then
      if tcp_ofo_range_buffered seq (zlen data) has_fin s then (true, s)
      else (true, tcp_ofo_record_rcv_window_drop seq (zlen data) has_fin s)
    else
      let '(data, has_fin) :=
        if tcp_seq_gt (u32 (seq + zlen data)) wnd_end
        then (take (Z.to_nat (u32 (wnd_end - seq))) data, false) else (data, has_fin) in
      if (zlen data =? 0) && negb has_fin then (true, s)
      else let '(pre, rest) := walk_start seq (ofo s) in ofo_walk mem 0 seq data has_fin pre rest s.

(** ** Delivery *)

(** [rx_ok n]: a blob can be allocated and queued behind [n] others. *)
Definition tcp_deliver_payload (rx_ok : nat -> bool) (data : list Z) (s : tcp_rx) : bool * tcp_rx :=
  if zlen data =? 0 then (true, s)
  else if (TCP_MEMORY_CHUNK_SIZE <? zlen data) || negb (rx_ok (length (rx_queue s))) then (false, s)
  else (true, with_rx_queue (rx_queue s ++ [data]) s).

Definition tcp_note_peer_eof (s : tcp_rx) : tcp_rx := with_peer_eof true s.

(** Each round removes the head, so the length of the queue bounds the
    rounds. *)
Fixpoint ofo_drain_loop (fuel : nat) (rx_ok : nat -> bool) (s : tcp_rx) : tcp_rx :=
  match fuel with
  | O => s
  | S f =>
      match ofo s with
      | [] => s
      | g :: t =>
          if tcp_seq_gt (oseq g) (recv_ack s) then s
          else
            let skip := u32 (recv_ack s - oseq g) in
            let behind := seq_lt (oseq g) (recv_ack s) in
            if behind && ((zlen (odata g) <? skip) || ((skip =? zlen (odata g)) && negb (ofin g)))
            then ofo_drain_loop f rx_ok (tcp_ofo_unlink g t (tcp_ofo_rcvbuf_sub (zlen (odata g)) s))
            else
              let '(g, s) := if behind then tcp_ofo_rekey_after_trim skip g t s else (g, s) in
              let '(ok, s) := if 0 <? zlen (odata g) then tcp_deliver_payload rx_ok (odata g) s else (true, s) in
              if negb ok then s
              else
                let s1 := tcp_ofo_unlink g t s in
                let s2 := with_recv_ack (u32 (recv_ack s1 + zlen (odata g))) s1 in
                if ofin g
                then tcp_ofo_purge (tcp_note_peer_eof (with_recv_ack (u32 (recv_ack s2 + 1)) s2))
                else ofo_drain_loop f rx_ok s2
      end
  end.

Definition tcp_ofo_drain (rx_ok : nat -> bool) (s : tcp_rx) : tcp_rx :=
  ofo_drain_loop (length (ofo s)) rx_ok s.

(** ** The stream receive path of tcp.c *)

Definition tcp_segment_acceptable (seq payload_len : Z) (has_fin : bool) (s : tcp_rx) : bool :=
  let rcv_nxt := recv_ack s in
  let rcv_wnd := tcp_ofo_rcv_wnd s in
  let seg_len := u16 payload_len + (if has_fin then 1 else 0) in
  let seg_end := u32 (seq + seg_len) in
  if rcv_wnd =? 0 then (seg_len =? 0) && (seq =? rcv_nxt)
  else if seg_len =? 0 then negb (seq_lt seq rcv_nxt) && seq_lt seq (u32 (rcv_nxt + rcv_wnd))
  else seq_lt seq (u32 (rcv_nxt + rcv_wnd)) && tcp_seq_gt seg_end rcv_nxt.

Fixpoint dup_scan (seq end_ : Z) (l : list tcp_ofo_seg) : option (Z * Z) :=
  match l with
  | [] => None
  | g :: t =>
      if negb (seq_lt (oseq g) end_) then None
      else if negb (seq_lt seq (oend g)) then dup_scan seq end_ t
      else
        let left := if tcp_seq_gt seq (oseq g) then seq else oseq g in
        let right := if seq_lt end_ (oend g) then end_ else oend g in
        if seq_lt left right then Some (left, right) else dup_scan seq end_ t
  end.

(** [dsack] is [Some] of the block while [dsack_pending]. *)
Definition tcp_sack_note_duplicate (seq len : Z) (s : tcp_rx) : tcp_rx :=
  let end_ := u32 (seq + len) in
  if negb (sack_permitted s) || (len =? 0) then with_dsack None s
  else
    let right := if seq_lt end_ (recv_ack s) then end_ else recv_ack s in
    with_dsack (if seq_lt seq (recv_ack s) && seq_lt seq right then Some (seq, right)
                else dup_scan seq end_ (ofo s)) s.

(** [sack_recent] is [Some] of the block while [sack_recent_valid]; the last
    overlapping node wins. *)
Definition tcp_sack_note_recent (seq len : Z) (s : tcp_rx) : tcp_rx :=
  let trigger_end := u32 (seq + len) in
  if len =? 0 then with_sack_recent None s
  else with_sack_recent
    (foldl (fun acc g =>
       if (zlen (odata g) =? 0) || negb (tcp_seq_gt (oend g) seq) || negb (tcp_seq_gt trigger_end (oseq g)) then acc
       else Some (if tcp_seq_gt (oseq g) seq then oseq g else seq,
                  if seq_lt (oend g) trigger_end then oend g else trigger_end)) None (ofo s)) s.

Definition tcp_ofo_insert (mem : nat -> ofo_mem) (seq : Z) (data : list Z) (has_fin : bool)
    (s : tcp_rx) : bool * tcp_rx :=
  let '(ok, s1) := tcp_ofo_queue_insert mem seq data has_fin (tcp_sack_note_duplicate seq (zlen data) s) in
  (ok, tcp_sack_note_recent seq (zlen data) s1).

Definition tcp_drain_recv (s : tcp_rx) : tcp_rx :=
  with_rcvbuf_used 0 (tcp_ofo_purge (with_rx_current None (with_rx_queue [] s))).

(** What an abort does to the receive half. *)
Definition tcp_abort_stream (error : errno) (s : tcp_rx) : tcp_rx :=
  with_terminal_error (Some error) (tcp_drain_recv (with_status TCP_STATUS_CLOSED s)).

(** [tw_armed]: the TIME-WAIT timer could be armed. *)
Definition tcp_enter_time_wait (tw_armed : bool) (s : tcp_rx) : bool * tcp_rx :=
  let s1 := with_status TCP_STATUS_TIME_WAIT s in
  if tw_armed then (true, s1) else (false, tcp_abort_stream ENOBUFS s1).

Definition tcp_apply_peer_eof (tw_armed : bool) (s : tcp_rx) : bool * tcp_rx :=
  if negb (peer_eof s) then (true, s)
  else match status s with
  | TCP_STATUS_ESTABLISHED => (true, with_status TCP_STATUS_CLOSE_WAIT s)
  | TCP_STATUS_FIN_WAIT_1 => (true, with_status TCP_STATUS_CLOSING s)
  | TCP_STATUS_FIN_WAIT_2 => tcp_enter_time_wait tw_armed s
  | _ => (true, s)
  end.

Definition past_eof (st : TCP_STATUS) : bool :=
  match st with
  | TCP_STATUS_CLOSE_WAIT | TCP_STATUS_LAST_ACK | TCP_STATUS_CLOSING | TCP_STATUS_TIME_WAIT => true
  | _ => false
  end.

(** The in-order branch of [tcp_receive_stream_range]. *)
Definition receive_next (mem : nat -> ofo_mem) (rx_ok : nat -> bool) (payload : list Z) (has_fin : bool)
    (seq : Z) (s : tcp_rx) : tcp_rx :=
  let '(ok, s1) := if 0 <? zlen payload then tcp_deliver_payload rx_ok payload s else (true, s) in
  if negb ok then snd (tcp_ofo_insert mem seq payload has_fin s1)
  else
    let s2 := with_rcvbuf_used (u32 (rcvbuf_used s1 + zlen payload))
                (with_recv_ack (u32 (recv_ack s1 + zlen payload)) s1) in
    if has_fin
    then tcp_ofo_purge (tcp_note_peer_eof (with_recv_ack (u32 (recv_ack s2 + 1)) s2))
    else tcp_ofo_drain rx_ok s2.

(** Up to [tcp_apply_peer_eof]; [false] when the code returns before it. *)
Definition receive_range (mem : nat -> ofo_mem) (rx_ok : nat -> bool) (seq : Z) (payload : list Z) (has_fin : bool)
    (s : tcp_rx) : bool * tcp_rx :=
  let rcv_nxt := recv_ack s in
  let wnd_end := u32 (rcv_nxt + tcp_ofo_rcv_wnd s) in
  let s := tcp_sack_note_duplicate seq (zlen payload) s in
  let s := if past_eof (status s) then with_peer_eof true s else s in
  if peer_eof s then (false, s)
  else if negb (tcp_segment_acceptable seq (zlen payload) has_fin s) then
    (false, if seq_lt seq rcv_nxt then s else tcp_ofo_record_rcv_window_drop seq (zlen payload) has_fin s)
  else
    let data_end := u32 (seq + zlen payload) in
    let '(payload, has_fin) :=
      if tcp_seq_gt data_end wnd_end then (take (Z.to_nat (u32 (wnd_end - seq))) payload, false)
      else if has_fin && negb (seq_lt data_end wnd_end) then (payload, false)
      else (payload, has_fin) in
    (true, if seq =? rcv_nxt then receive_next mem rx_ok payload has_fin seq s
           else tcp_ofo_drain rx_ok (snd (tcp_ofo_insert mem seq payload has_fin s))).

Definition tcp_receive_stream_range (mem : nat -> ofo_mem) (rx_ok : nat -> bool) (tw_armed : bool)
    (seq : Z) (payload : list Z) (has_fin : bool) (s : tcp_rx) : bool * tcp_rx :=
  let '(apply, s1) := receive_range mem rx_ok seq payload has_fin s in
  if apply then tcp_apply_peer_eof tw_armed s1 else (true, s1).

Inductive recv_result :=
| RecvBytes (bytes : list Z)
| RecvError (e : errno).

(** Up to [tcp_apply_peer_eof]: the result, and whether the blob was used up
    when bytes were copied. *)
Definition recv_copy (rx_ok : nat -> bool) (len : Z) (s : tcp_rx) : (recv_result * option bool) * tcp_rx :=
  if len =? 0 then ((RecvBytes [], None), s)
  else match terminal_error s with
  | Some e => ((RecvError e, None), s)
  | None =>
    let s0 := match rx_current s, rx_queue s with
              | None, b :: t => with_rx_current (Some b) (with_rx_queue t s)
              | _, _ => s
              end in
    match rx_current s0 with
    | None => ((if peer_eof s0 || bool_decide (status s0 = TCP_STATUS_CLOSED)
                then RecvBytes [] else RecvError EAGAIN, None), s0)
    | Some b =>
        let n := Z.min len (zlen b) in
        let s1 := with_rx_current (Some (drop (Z.to_nat n) b)) s0 in
        let s2 := with_rcvbuf_used (if rcvbuf_used s1 <? n then 0 else rcvbuf_used s1 - n) s1 in
        ((RecvBytes (take (Z.to_nat n) b), Some (n =? zlen b)), tcp_ofo_drain rx_ok s2)
    end
  end.

(** The bytes read ([RecvBytes []] is the end of the stream) or the error. *)
Definition tcp_recv (rx_ok : nat -> bool) (tw_armed : bool) (len : Z) (s : tcp_rx)
    : recv_result * tcp_rx :=
  let '((res, copied), s1) := recv_copy rx_ok len s in
  match copied with
  | None => (res, s1)
  | Some whole =>
      let '(ok, s2) := tcp_apply_peer_eof tw_armed s1 in
      (res, if ok && whole then with_rx_current None s2 else s2)
  end.
