(* ===== verification/TcpOfoFacts.v ===== *)
(** * Correctness of the receive path: the queue

    The peer's stream is a function from positions to bytes; the sequence
    number of position [p] is [isn + p] modulo 2^32 and [F] is the position
    of the FIN, when the peer sends one.  This file relates sequence numbers
    to positions and shows that inserting into the queue and draining it keep
    the queue sorted, disjoint and equal to the stream where it holds bytes.
    [TcpOfoStream] lifts this to histories of a connection. *)

From S2P Require Import Prelude Config SeqNum TcpOfo.

Definition held_len (l : list tcp_ofo_seg) : Z := Zsum (map (fun g => zlen (odata g)) l).

(** Bytes delivered and not yet read. *)
Definition pending (s : tcp_rx) : list Z := default [] (rx_current s) ++ concat (rx_queue s).

(** The part of the state that the queue operations leave alone. *)
Definition outer (s : tcp_rx) :=
  (recv_ack s, rcvbuf_size s, status s, peer_eof s, (rx_queue s, rx_current s), terminal_error s).

(** The part that only the queue operations change. *)
Definition inner (s : tcp_rx) := (rcvbuf_used s, ofo s, ofo_count s, ofo_bytes s).

Lemma held_len_app l k : held_len (l ++ k) = held_len l + held_len k.
Proof. unfold held_len. by rewrite map_app, Zsum_app. Qed.
Lemma held_len_cons g l : held_len (g :: l) = zlen (odata g) + held_len l.
Proof. done. Qed.
Lemma held_len_nonneg l : 0 <= held_len l.
Proof. apply Zsum_nonneg, Forall_map, Forall_forall. intros. apply zlen_nonneg. Qed.

Create Rewrite HintDb rx_len.
#[export] Hint Rewrite @zlen_app @zlen_cons held_len_app held_len_cons : rx_len.

(** ** What a link does *)

Lemma effective_limits_le m d o :
  fst (fst (tcp_ofo_effective_limits m d o)) <= TCP_OFO_MAX_SEGS /\
  snd (fst (tcp_ofo_effective_limits m d o)) <= TCP_OFO_MAX_BYTES.
Proof. unfold tcp_ofo_effective_limits. cbv zeta. bsplit; cbn; by vm_compute. Qed.

Lemma tcp_ofo_link_cases m seq data fin pre rest s ok s' :
  tcp_ofo_link m seq data fin pre rest s = (ok, s') ->
  outer s' = outer s /\
  ((inner s' = inner s /\
    (ok = true -> (zlen data = 0 /\ fin = false) \/ (exists g t, rest = g :: t /\ oseq g = seq))) \/
   (ok = true /\ (0 < zlen data \/ fin = true) /\ zlen data <= tcp_ofo_rcv_wnd s /\
    ofo_count s < TCP_OFO_MAX_SEGS /\
    inner s' = (u32 (rcvbuf_used s + zlen data), pre ++ mk_oseg seq data fin :: rest,
                u16 (ofo_count s + 1), u32 (ofo_bytes s + zlen data)))).
Proof.
  pose proof (zlen_nonneg data) as Hlen. unfold tcp_ofo_link. cbv zeta.
  destruct (_ && negb fin) eqn:E0.
  { bprop. intros [= <- <-]. repeat split. left. split; [done|]. by left. }
  assert (0 < zlen data \/ fin = true) as Hsome.
  { apply andb_false_iff in E0. destruct fin; [by right|]. destruct E0 as [E0|]; [|done]. left. lia. }
  destruct (match rest with g :: _ => oseq g =? seq | [] => false end) eqn:E1.
  { intros [= <- <-]. repeat split. left. split; [done|]. right.
    destruct rest as [|g t]; [done|]. exists g, t. split; [done|lia]. }
  match goal with |- context [tcp_ofo_effective_limits m ?d ?o] =>
    pose proof (effective_limits_le m d o) as Hl;
    destruct (tcp_ofo_effective_limits m d o) as [[ls lb] o1] end.
  cbn [fst snd] in Hl. set (s1 := with_owner o1 _).
  assert (outer s1 = outer s /\ inner s1 = inner s /\ tcp_ofo_rcv_wnd s1 = tcp_ofo_rcv_wnd s)
    as (Ho & Hi & Hw) by done. clearbody s1. unfold inner in Hi. injection Hi as Hu Hq Hc Hb.
  destruct (tcp_ofo_rcv_wnd s1 <? zlen data) eqn:E2; [|bprop;
  destruct (ls <=? ofo_count s1) eqn:E3; [|bprop;
  destruct (_ || (lb - ofo_bytes s1 <? zlen data)) eqn:E4; [|
  destruct (negb (tcp_ofo_owner_can_reserve _ _)) eqn:E5; [|
  destruct (_ || (_ && negb (payload_alloc m))) eqn:E6]]]].
  6: { intros [= <- <-]. split; [done|]. right. rewrite <- Hu, <- Hc, <- Hb.
       repeat split; [done|lia..]. }
  all: intros [= <- <-]; split; [exact Ho|left; split; [|done]]; unfold inner; cbn; congruence.
Qed.

(** ** Positions and sequence numbers *)

Definition at_pos (isn p : Z) : Z := u32 (isn + p).

Section Positions.
Context (isn : Z).
Local Abbreviation at_pos := (at_pos isn).

Lemma seq_lt_pos p q :
  -2147483648 <= p - q < 2147483648 -> seq_lt (at_pos p) (at_pos q) = (p <? q).
Proof.
  intros H. unfold seq_lt, at_pos, i32. cbv zeta. rewrite u32_sub_l, u32_sub_r.
  destruct (Z.ltb_spec p q); bsplit; bprop; try (apply Z.ltb_lt); try (apply Z.ltb_ge); warith.
Qed.
Lemma seq_gt_pos p q :
  -2147483648 <= p - q < 2147483648 -> tcp_seq_gt (at_pos p) (at_pos q) = (q <? p).
Proof.
  intros H. unfold tcp_seq_gt, at_pos, i32. cbv zeta. rewrite u32_sub_l, u32_sub_r.
  destruct (Z.ltb_spec q p); bsplit; bprop; try (apply Z.ltb_lt); try (apply Z.ltb_ge); warith.
Qed.
Lemma seq_leq_pos p q :
  -2147483648 <= p - q < 2147483648 -> seq_leq (at_pos p) (at_pos q) = (p <=? q).
Proof.
  intros H. unfold seq_leq, at_pos, i32. cbv zeta. rewrite u32_sub_l, u32_sub_r.
  destruct (Z.leb_spec p q); bsplit; bprop; try (apply Z.leb_le); try (apply Z.leb_gt); warith.
Qed.
Lemma at_pos_add p n : u32 (at_pos p + n) = at_pos (p + n).
Proof. unfold at_pos. rewrite u32_add_l. f_equal. lia. Qed.
Lemma at_pos_sub p q : 0 <= p - q < 4294967296 -> u32 (at_pos p - at_pos q) = p - q.
Proof. unfold at_pos. rewrite u32_sub_l, u32_sub_r. intros. rewrite u32_small; [lia|]. warith. Qed.
Lemma at_pos_eqb p q : -4294967296 < p - q < 4294967296 -> (at_pos p =? at_pos q) = (p =? q).
Proof.
  intros. destruct (Z.eqb_spec p q) as [->|]; [apply Z.eqb_refl|]. apply Z.eqb_neq.
  unfold at_pos. warith.
Qed.

End Positions.

Section Stream.
Context (isn : Z) (stream : Z -> Z) (F : option Z).
Local Abbreviation at_pos := (at_pos isn).

(** The [n] bytes of the stream from position [p]. *)
Definition bytes (p : Z) (n : nat) : list Z := map (fun i => stream (p + Z.of_nat i)) (seq 0 n).
Definition chunk (p : Z) (d : list Z) : Prop := d = bytes p (length d).

(** Data that ends at [e], with or without the FIN, agrees with [F]. *)
Definition fits (e : Z) (fin : bool) : Prop :=
  (fin = true -> F = Some e) /\ (forall f, F = Some f -> e <= f).

Lemma length_bytes p n : length (bytes p n) = n.
Proof. unfold bytes. by rewrite length_map, length_seq. Qed.
Lemma bytes_app p n m : bytes p (n + m) = bytes p n ++ bytes (p + Z.of_nat n) m.
Proof.
  unfold bytes. rewrite seq_app, map_app. f_equal. cbn [Nat.add].
  rewrite <- (Nat.add_0_r n) at 1. rewrite <- fmap_add_seq, map_map.
  apply map_ext. intros. f_equal. lia.
Qed.
Lemma chunk_app p d e : chunk p d -> chunk (p + zlen d) e -> chunk p (d ++ e).
Proof.
  unfold chunk, zlen. intros Hd He. rewrite length_app, bytes_app, <- Hd. by rewrite <- He.
Qed.
Lemma chunk_split p d e : chunk p (d ++ e) -> chunk p d /\ chunk (p + zlen d) e.
Proof.
  unfold chunk, zlen. rewrite length_app, bytes_app. intros H. apply app_inj_1 in H; [done|].
  by rewrite length_bytes.
Qed.
Lemma chunk_drop p k d : 0 <= k <= zlen d -> chunk p d -> chunk (p + k) (drop (Z.to_nat k) d).
Proof.
  intros Hk Hd. rewrite <- (take_drop (Z.to_nat k) d) in Hd. apply chunk_split in Hd as [_ Hd].
  by rewrite zlen_take in Hd by done.
Qed.
Lemma chunk_take p k d : chunk p d -> chunk p (take (Z.to_nat k) d).
Proof. intros Hd. rewrite <- (take_drop (Z.to_nat k) d) in Hd. by apply chunk_split in Hd as [? _]. Qed.
Lemma chunk_nil p : chunk p [].
Proof. done. Qed.

Lemma fits_le e e' : fits e false -> e' <= e -> fits e' false.
Proof. intros [_ H] He. split; [done|]. intros f Hf. specialize (H f Hf). lia. Qed.
Lemma fits_false e fin : fits e fin -> fits e false.
Proof. intros [_ H]. by split. Qed.

(** Node [g] holds the stream from position [p]. *)
Record seg_at (p : Z) (g : tcp_ofo_seg) : Prop := {
  sa_seq : oseq g = at_pos p;
  sa_data : chunk p (odata g);
  sa_fin : fits (p + zlen (odata g)) (ofin g);
  sa_some : 0 < zlen (odata g) \/ ofin g = true
}.

(** Sorted, disjoint nodes between positions [lo] and [hi]. *)
Inductive segs_ok : Z -> list tcp_ofo_seg -> Z -> Prop :=
| segs_nil lo hi : lo <= hi -> segs_ok lo [] hi
| segs_cons lo p g t hi :
    lo <= p -> seg_at p g -> segs_ok (p + zlen (odata g)) t hi -> segs_ok lo (g :: t) hi.

Lemma segs_le lo l hi : segs_ok lo l hi -> lo <= hi.
Proof. induction 1; [done|]. pose proof (zlen_nonneg (odata g)). lia. Qed.
Lemma segs_lower lo lo' l hi : lo' <= lo -> segs_ok lo l hi -> segs_ok lo' l hi.
Proof. intros Hl H. inversion H; subst; [apply segs_nil; lia|]. eapply segs_cons; [|done|done]; lia. Qed.
Lemma segs_upper lo l hi hi' : hi <= hi' -> segs_ok lo l hi -> segs_ok lo l hi'.
Proof. intros Hh. induction 1; [apply segs_nil; lia|]. eauto using segs_cons. Qed.
Lemma segs_app lo l k hi :
  segs_ok lo (l ++ k) hi <-> exists mid, segs_ok lo l mid /\ segs_ok mid k hi.
Proof.
  split.
  - revert lo. induction l as [|g l IH]; intros lo H; cbn in H.
    + exists lo. split; [by apply segs_nil|done].
    + inversion H as [|? p ? ? ? Hlo Hg Ht]; subst. destruct (IH _ Ht) as (mid & ? & ?).
      exists mid. split; [by eapply segs_cons|done].
  - intros (mid & Hl & Hk). induction Hl; cbn; [by eapply segs_lower|]. eapply segs_cons; eauto.
Qed.
Lemma segs_snoc lo l mid p g :
  segs_ok lo l mid -> mid <= p -> seg_at p g -> segs_ok lo (l ++ [g]) (p + zlen (odata g)).
Proof.
  intros Hl Hm Hg. apply segs_app. exists mid. split; [done|]. eapply segs_cons; [done..|].
  apply segs_nil. lia.
Qed.
(** Everything in the list may start at [p] when its first node does. *)
Lemma segs_from lo l hi p :
  segs_ok lo l hi -> p <= hi -> (forall g t q, l = g :: t -> lo <= q -> seg_at q g ->
    segs_ok (q + zlen (odata g)) t hi -> p <= q) -> segs_ok p l hi.
Proof.
  intros H Hp Hf. inversion H as [|? q g t]; subst; [by apply segs_nil|].
  eapply segs_cons; [|done..]. by eapply Hf.
Qed.

(** ** The queue and its accounting *)

Record queue_ok (lo hi : Z) (s : tcp_rx) : Prop := {
  qo_segs : segs_ok lo (ofo s) hi;
  qo_count : ofo_count s = zlen (ofo s);
  qo_max : ofo_count s <= TCP_OFO_MAX_SEGS;
  qo_bytes : ofo_bytes s = held_len (ofo s);
  qo_used : rcvbuf_used s = held_len (ofo s) + zlen (pending s);
  qo_room : rcvbuf_used s <= rcvbuf_size s;
  qo_size : rcvbuf_size s = TCP_RCVBUF_SIZE
}.

Lemma outer_pending s s' : outer s' = outer s -> pending s' = pending s.
Proof. unfold outer, pending. congruence. Qed.

Lemma outer_eq s s' :
  outer s' = outer s ->
  recv_ack s' = recv_ack s /\ rcvbuf_size s' = rcvbuf_size s /\ status s' = status s /\
  peer_eof s' = peer_eof s /\ rx_queue s' = rx_queue s /\ rx_current s' = rx_current s /\
  terminal_error s' = terminal_error s.
Proof. unfold outer. intros [= -> -> -> -> -> -> ->]. done. Qed.

Lemma queue_ok_same lo hi s s' :
  outer s' = outer s -> inner s' = inner s -> queue_ok lo hi s -> queue_ok lo hi s'.
Proof.
  intros Ho Hi [? ? ? ? ? ? ?]. pose proof (outer_pending s s' Ho).
  unfold outer, inner in *. split; congruence.
Qed.

Lemma rcv_wnd_eq lo hi s :
  queue_ok lo hi s -> tcp_ofo_rcv_wnd s = rcvbuf_size s - rcvbuf_used s.
Proof. intros []. unfold tcp_ofo_rcv_wnd. bsplit; lia. Qed.

Lemma queue_ok_ranges lo hi s :
  queue_ok lo hi s ->
  0 <= ofo_count s <= 32 /\ 0 <= ofo_bytes s <= rcvbuf_used s /\ rcvbuf_used s <= 262144 /\
  rcvbuf_size s = 262144.
Proof.
  intros []. pose proof (held_len_nonneg (ofo s)). pose proof (zlen_nonneg (pending s)).
  pose proof (zlen_nonneg (ofo s)). change TCP_RCVBUF_SIZE with 262144 in *.
  change TCP_OFO_MAX_SEGS with 32 in *. lia.
Qed.

(** A link between two parts of the queue. *)
Lemma link_ok m lo mid hi p data fin pre rest s ok s' :
  queue_ok lo hi s -> ofo s = pre ++ rest -> segs_ok lo pre mid -> mid <= p ->
  chunk p data -> fits (p + zlen data) fin -> segs_ok (p + zlen data) rest hi ->
  tcp_ofo_link m (at_pos p) data fin pre rest s = (ok, s') ->
  outer s' = outer s /\ queue_ok lo hi s'.
Proof.
  intros Q Hofo Hpre Hm Hd Hf Hr Hlink.
  apply tcp_ofo_link_cases in Hlink as [Ho [[Hi _]|(_ & Hsome & Hw & Hc & Hi)]];
    [split; [done|by eapply queue_ok_same]|].
  split; [done|]. pose proof (zlen_nonneg data) as Hn. pose proof (queue_ok_ranges _ _ _ Q) as R.
  rewrite (rcv_wnd_eq _ _ _ Q) in Hw. pose proof (outer_pending _ _ Ho) as Hp.
  destruct Q. unfold inner in Hi. injection Hi as Hu Hq Hc' Hb.
  assert (rcvbuf_size s' = rcvbuf_size s) as Hz by (unfold outer in Ho; congruence).
  assert (seg_at p (mk_oseg (at_pos p) data fin)) as Hg by (split; done).
  rewrite u32_small in Hu, Hb by (wunfold; lia). rewrite u16_small in Hc' by (wunfold; lia).
  rewrite Hofo in *. autorewrite with rx_len in *.
  split; rewrite ?Hq, ?Hu, ?Hc', ?Hb, ?Hp, ?Hz; autorewrite with rx_len; cbn [odata]; try lia.
  apply segs_app. exists mid. split; [done|]. by eapply segs_cons.
Qed.

(** Everything the walk compares lies within a half of the sequence space. *)
Definition span (lo hi : Z) : Prop := hi - lo < 1073741824.

(** The walk stands between [pre] and [rest] with [data] still to place at [p]. *)
Record walk_at (lo hi p : Z) (data : list Z) (fin : bool) (pre rest : list tcp_ofo_seg)
    (s : tcp_rx) : Prop := {
  wa_span : span lo hi;
  wa_queue : queue_ok lo hi s;
  wa_ofo : ofo s = pre ++ rest;
  wa_sides : exists mid, mid <= p /\ segs_ok lo pre mid /\ segs_ok mid rest hi;
  wa_room : lo <= p /\ p + zlen data <= hi;
  wa_data : chunk p data;
  wa_fin : fits (p + zlen data) fin;
  wa_empty : zlen data = 0 -> segs_ok p rest hi
}.

Lemma walk_link m lo hi p data fin pre rest s ok s' :
  walk_at lo hi p data fin pre rest s -> segs_ok (p + zlen data) rest hi ->
  tcp_ofo_link m (at_pos p) data fin pre rest s = (ok, s') ->
  outer s' = outer s /\ queue_ok lo hi s'.
Proof.
  intros [? ? ? (mid & ? & ? & ?) ? ? ? ?] Hr Hl.
  by apply (link_ok m lo mid hi p data fin pre rest s ok s').
Qed.

(** The node the walk stands at. *)
Lemma walk_cur lo hi p data fin pre cur t s :
  walk_at lo hi p data fin pre (cur :: t) s ->
  exists q, seg_at q cur /\ lo <= q /\ q + zlen (odata cur) <= hi /\
    segs_ok lo (pre ++ [cur]) (q + zlen (odata cur)) /\ segs_ok (q + zlen (odata cur)) t hi /\
    exists mid, mid <= p /\ mid <= q /\ segs_ok lo pre mid.
Proof.
  intros [_ _ _ (mid & ? & Hpre & Hrest) _ _ _ _]. pose proof (segs_le _ _ _ Hpre).
  inversion Hrest as [|? q ? ? ? Hq Hcur Ht]; subst. pose proof (segs_le _ _ _ Ht).
  exists q. split_and!; try (done || lia); [by eapply segs_snoc|by exists mid].
Qed.

(** Past [cur], with the bytes that [cur] covers dropped. *)
Lemma walk_advance lo hi p q data fin pre cur t s s1 pre1 :
  walk_at lo hi p data fin pre (cur :: t) s -> queue_ok lo hi s1 -> ofo s1 = pre1 ++ t ->
  segs_ok lo pre1 (q + zlen (odata cur)) -> segs_ok (q + zlen (odata cur)) t hi ->
  p < q + zlen (odata cur) <= p + zlen data ->
  walk_at lo hi (q + zlen (odata cur)) (drop (Z.to_nat (q + zlen (odata cur) - p)) data) fin pre1 t s1.
Proof.
  intros [? ? ? _ ? Hd ? _] Q1 Ho1 Hp1 Ht Hr. set (e := q + zlen (odata cur)) in *.
  assert (zlen (drop (Z.to_nat (e - p)) data) = zlen data - (e - p)) as Hdl by (apply zlen_drop; lia).
  assert (e + (zlen data - (e - p)) = p + zlen data) as He by lia.
  split; rewrite ?Hdl, ?He; try done; try lia; [by exists e|].
  replace e with (p + (e - p)) at 1 by lia. apply chunk_drop; [lia|done].
Qed.

(** Past a node that ends before [p]. *)
Lemma walk_pass lo hi p q data fin pre cur t s :
  walk_at lo hi p data fin pre (cur :: t) s -> zlen data <> 0 ->
  segs_ok lo (pre ++ [cur]) (q + zlen (odata cur)) -> segs_ok (q + zlen (odata cur)) t hi ->
  q + zlen (odata cur) <= p -> walk_at lo hi p data fin (pre ++ [cur]) t s.
Proof.
  intros [? ? Ho _ ? ? ? _] Hn Hp Ht Hle. split; try done; [by rewrite <- app_assoc|].
  by exists (q + zlen (odata cur)).
Qed.

(** The part of [data] left of [cur]. *)
Lemma walk_left lo hi p q data fin pre cur t s :
  walk_at lo hi p data fin pre (cur :: t) s -> p < q < p + zlen data ->
  walk_at lo hi p (take (Z.to_nat (q - p)) data) false pre (cur :: t) s /\
  zlen (take (Z.to_nat (q - p)) data) = q - p.
Proof.
  intros [? ? ? ? ? ? Hf _] Hr.
  assert (zlen (take (Z.to_nat (q - p)) data) = q - p) as Htl by (apply zlen_take; lia).
  split; [|done]. split; rewrite ?Htl; try done; try lia; [by apply chunk_take|].
  apply (fits_le (p + zlen data)); [by eapply fits_false|lia].
Qed.

Lemma walk_seg lo hi p data fin pre rest s :
  walk_at lo hi p data fin pre rest s -> 0 < zlen data -> seg_at p (mk_oseg (at_pos p) data fin).
Proof. intros [] ?. split; cbn; auto. Qed.

Lemma walk_ok mem k lo hi p data fin pre rest s ok s' :
  walk_at lo hi p data fin pre rest s ->
  ofo_walk mem k (at_pos p) data fin pre rest s = (ok, s') ->
  outer s' = outer s /\ queue_ok lo hi s'.
Proof.
  revert k p data pre s. induction rest as [|cur t IH]; intros k p data pre s W H; cbn [ofo_walk] in H.
  { eapply walk_link; [done| |done]. apply segs_nil. destruct W; lia. }
  destruct (zlen data =? 0) eqn:E0; bprop.
  { eapply walk_link; [done| |done]. rewrite E0, Z.add_0_r. by apply (wa_empty _ _ _ _ _ _ _ _ W). }
  pose proof (zlen_nonneg data) as Hn. pose proof (zlen_nonneg (odata cur)) as Hnc.
  destruct (walk_cur _ _ _ _ _ _ _ _ _ W) as (q & Hcur & Hq & Hqe & Hpre & Ht & mid & Hm & Hmq & Hpm).
  pose proof (wa_span _ _ _ _ _ _ _ _ W) as Hspan. pose proof (wa_room _ _ _ _ _ _ _ _ W) as Hroom.
  pose proof (wa_queue _ _ _ _ _ _ _ _ W) as Q. unfold span in Hspan.
  unfold oend in H. rewrite (sa_seq _ _ Hcur), !at_pos_add in H. cbv zeta in H.
  rewrite !seq_leq_pos, seq_lt_pos in H by lia.
  destruct (q + zlen (odata cur) <=? p) eqn:E1; bprop.
  { apply (IH k p data (pre ++ [cur]) s); [|done]. by eapply walk_pass. }
  destruct (p + zlen data <=? q) eqn:E2; bprop.
  { eapply walk_link; [done| |done]. by eapply segs_cons. }
  rewrite (at_pos_sub isn (q + zlen (odata cur)) p) in H by lia.
  destruct (p <? q) eqn:E3; bprop.
  - rewrite at_pos_sub in H by lia.
    destruct (walk_left lo hi p q data fin pre cur t s W ltac:(lia)) as [Wl Hl].
    destruct (tcp_ofo_link _ _ _ _ _ _ s) as [ok1 s1] eqn:El.
    assert (outer s1 = outer s /\ queue_ok lo hi s1) as [Ho1 Q1].
    { eapply walk_link; [done| |done]. rewrite Hl. eapply segs_cons; [|done..]. lia. }
    destruct ok1; [|injection H as <- <-; done]. cbn [negb] in H.
    destruct (_ || _) eqn:Eo in H; [injection H as <- <-; done|]. bprop.
    apply tcp_ofo_link_cases in El as [_ [[_ Hcase]|(_ & _ & _ & _ & Hi)]].
    { destruct (Hcase eq_refl) as [[? _]|(g & t' & [= -> ->] & Hs)]; [lia|].
      rewrite (sa_seq _ _ Hcur) in Hs. pose proof (at_pos_eqb isn q p ltac:(lia)). lia. }
    injection Hi as _ Hq1 _ _. rewrite Hq1, (app_cons_split pre), take_front in H.
    eapply (IH (S k)) in H as [Ho Q2]; [split; [congruence|done]|].
    eapply walk_advance; try done; [by rewrite Hq1, <- !app_assoc| |lia].
    apply (segs_snoc lo _ q); [|lia|done].
    apply (segs_upper lo _ (p + zlen (take (Z.to_nat (q - p)) data)) q); [lia|].
    apply (segs_snoc lo pre mid p (mk_oseg _ _ false)); [done..|]. eapply walk_seg; [done|lia].
  - destruct (_ || _) eqn:Eo in H; [injection H as <- <-; done|]. bprop.
    apply (IH k _ _ (pre ++ [cur]) s) in H; [done|]. eapply walk_advance; try done; [|lia].
    rewrite <- app_assoc. by destruct W.
Qed.

(** ** Insertion *)

Lemma lower_bound_split b p lo l hi pre rest :
  span b hi -> b <= lo -> b <= p <= hi -> segs_ok lo l hi ->
  tcp_ofo_lower_bound (at_pos p) l = (pre, rest) ->
  l = pre ++ rest /\ segs_ok p rest hi /\
  ((pre = [] /\ segs_ok lo rest hi) \/
   exists pre' g q mid, pre = pre' ++ [g] /\ segs_ok lo pre' mid /\ mid <= q < p /\ seg_at q g /\
     segs_ok (q + zlen (odata g)) rest hi).
Proof.
  intros Hspan Hb Hp Hl. unfold span in Hspan. revert pre rest Hb Hp.
  induction Hl as [lo hi Hle|lo q g t hi Hq Hg Ht IH]; intros pre rest Hb Hp H; cbn in H.
  { injection H as <- <-. split_and!; [done|apply segs_nil; lia|left]. split; [done|apply segs_nil; lia]. }
  pose proof (segs_le _ _ _ Ht) as Hle. pose proof (zlen_nonneg (odata g)) as Hn.
  rewrite (sa_seq _ _ Hg), seq_lt_pos in H by lia. destruct (q <? p) eqn:E; bprop.
  - destruct (tcp_ofo_lower_bound _ t) as [pre1 rest1]. injection H as <- <-.
    destruct (IH Hspan pre1 rest1) as (-> & Hr & Hcase); [lia|lia|done|].
    split_and!; [done|done|right].
    destruct Hcase as [[-> Hr']|(pre' & g' & q' & mid & -> & Hp' & Hm & Hg' & Ht')].
    + exists [], g, q, lo. split_and!; try done. by apply segs_nil.
    + exists (g :: pre'), g', q', mid. split_and!; try lia; try done. by eapply segs_cons.
  - injection H as <- <-. split_and!; [done| |left; split; [done|]];
      (eapply segs_cons; [|done..]; lia).
Qed.

Lemma walk_start_split p lo l hi pre rest :
  span lo hi -> lo <= p <= hi -> segs_ok lo l hi -> walk_start (at_pos p) l = (pre, rest) ->
  l = pre ++ rest /\ (exists mid, mid <= p /\ segs_ok lo pre mid /\ segs_ok mid rest hi) /\
  (F = Some p -> segs_ok p rest hi).
Proof.
  intros Hspan Hp Hl. unfold walk_start. destruct (tcp_ofo_lower_bound _ l) as [pre1 rest1] eqn:E.
  apply (lower_bound_split lo p lo l hi) in E as (-> & Hr & Hcase); [|done|lia|done|done].
  destruct Hcase as [[-> Hr']|(pre' & g & q & mid & -> & Hp' & Hm & Hg & Ht)].
  { intros [= <- <-]. split_and!; [done| |done]. exists lo. split_and!; [lia|apply segs_nil; lia|done]. }
  pose proof (segs_le _ _ _ Hp'). pose proof (segs_le _ _ _ Ht). pose proof (zlen_nonneg (odata g)).
  unfold span in Hspan. rewrite last_snoc. unfold oend.
  rewrite (sa_seq _ _ Hg), at_pos_add, seq_gt_pos by lia.
  destruct (p <? q + zlen (odata g)) eqn:E; bprop; intros [= <- <-].
  - rewrite removelast_last. split_and!; [by rewrite <- app_assoc| |].
    + exists mid. split_and!; [lia|done|]. by eapply segs_cons; [|done..]; lia.
    + intros Hf. pose proof (proj2 (sa_fin _ _ Hg) p Hf). lia.
  - split_and!; [done| |done]. exists (q + zlen (odata g)). split_and!; [lia| |done].
    apply (segs_snoc lo pre' mid q g); [done|lia|done].
Qed.

Lemma record_drop_same seq len fin s :
  outer (tcp_ofo_record_rcv_window_drop seq len fin s) = outer s /\
  inner (tcp_ofo_record_rcv_window_drop seq len fin s) = inner s.
Proof. unfold tcp_ofo_record_rcv_window_drop. by bsplit1. Qed.

Lemma queue_insert_old mem pos p data fin s :
  recv_ack s = at_pos pos -> -1073741824 <= p - pos < 0 -> 
  tcp_ofo_queue_insert mem (at_pos p) data fin s =
  if (zlen data <? pos - p) || ((pos - p =? zlen data) && negb fin) then (true, s)
  else tcp_ofo_queue_insert mem (at_pos pos) (drop (Z.to_nat (pos - p)) data) fin s.
Proof.
  intros Hack Hp. unfold tcp_ofo_queue_insert. cbv zeta. rewrite Hack, !seq_lt_pos, at_pos_sub by lia.
  rewrite Z.ltb_irrefl, (proj2 (Z.ltb_lt p pos)) by lia. cbn [andb]. by bsplit1.
Qed.

Lemma queue_insert_new mem pos p data fin s ok s' :
  queue_ok pos (pos + rcvbuf_size s) s -> recv_ack s = at_pos pos ->
  0 <= p - pos <= 1073741824 -> zlen data <= 65535 ->
  chunk p data -> fits (p + zlen data) fin ->
  tcp_ofo_queue_insert mem (at_pos p) data fin s = (ok, s') ->
  outer s' = outer s /\ queue_ok pos (pos + rcvbuf_size s) s'.
Proof.
  intros Q Hack Hp Hlen Hd Hf. pose proof (queue_ok_ranges _ _ _ Q) as R. pose proof (zlen_nonneg data) as Hn.
  unfold tcp_ofo_queue_insert. cbv zeta. rewrite (rcv_wnd_eq _ _ _ Q), Hack, !at_pos_add.
  set (wend := pos + (rcvbuf_size s - rcvbuf_used s)). 
  rewrite (seq_lt_pos isn p pos), (proj2 (Z.ltb_ge p pos)) by lia. cbn [andb]. rewrite at_pos_add, seq_gt_pos, !seq_lt_pos by lia.
  destruct (p <? wend) eqn:E1; cbn [negb]; bprop.
  2: { destruct (record_drop_same (at_pos p) (zlen data) fin s) as [? ?].
       destruct (tcp_ofo_range_buffered _ _ _ _); intros [= <- <-]; split; try done.
       by eapply queue_ok_same. }
  assert (exists data' fin', (if wend <? p + zlen data
      then (take (Z.to_nat (u32 (at_pos wend - at_pos p))) data, false) else (data, fin)) = (data', fin') /\
      p + zlen data' <= wend /\ chunk p data' /\ fits (p + zlen data') fin') as (data' & fin' & -> & Hw & Hd' & Hf').
  { destruct (wend <? p + zlen data) eqn:E2; bprop; [|by exists data, fin].
    rewrite at_pos_sub by lia. eexists _, _. split; [done|]. rewrite zlen_take by lia.
    split_and!; [lia|by apply chunk_take|]. eapply fits_le; [by eapply fits_false|lia]. }
  destruct (_ && negb fin') eqn:E2; [intros [= <- <-]; done|].
  destruct (walk_start _ _) as [pre rest] eqn:Ew.
  assert (span pos (pos + rcvbuf_size s)) as Hs by (unfold span; lia).
  apply (walk_start_split p pos _ (pos + rcvbuf_size s)) in Ew as (Ho & Hsides & He);
    [|done|lia|by destruct Q].
  apply walk_ok. split; try done; [lia|]. intros Hz. apply He.
  rewrite Hz in E2. cbn in E2. bprop. destruct fin'; [|done]. rewrite (proj1 Hf' eq_refl). f_equal. lia.
Qed.

(** Inserting stream data that starts near RCV.NXT keeps the queue.  Data
    left of RCV.NXT is trimmed, data right of the window is cut. *)
Lemma queue_insert_ok mem pos p data fin s ok s' :
  queue_ok pos (pos + rcvbuf_size s) s -> recv_ack s = at_pos pos ->
  -1073741824 <= p - pos <= 1073741824 -> zlen data <= 65535 ->
  chunk p data -> fits (p + zlen data) fin ->
  tcp_ofo_queue_insert mem (at_pos p) data fin s = (ok, s') ->
  outer s' = outer s /\ queue_ok pos (pos + rcvbuf_size s) s'.
Proof.
  intros Q Hack Hp Hlen Hd Hf. destruct (decide (pos <= p)); [by apply queue_insert_new; try lia|].
  rewrite (queue_insert_old mem pos) by (done || lia). bsplit1; [intros [= <- <-]; done|bprop].
  assert (zlen (drop (Z.to_nat (pos - p)) data) = zlen data - (pos - p)) as Hl by (apply zlen_drop; lia).
  apply queue_insert_new; rewrite ?Hl; try done; try lia.
  - replace pos with (p + (pos - p)) at 1 by lia. apply chunk_drop; [lia|done].
  - replace (pos + (zlen data - (pos - p))) with (p + zlen data) by lia. done.
Qed.

(** ** Removal and delivery *)

Lemma unlink_fields g t s :
  outer (tcp_ofo_unlink g t s) = outer s /\
  inner (tcp_ofo_unlink g t s) =
    (rcvbuf_used s, t, u16 (ofo_count s - 1), u32 (ofo_bytes s - zlen (odata g))).
Proof. unfold tcp_ofo_unlink. cbv zeta. by bsplit1. Qed.

Lemma rcvbuf_sub_fields n s :
  n <= rcvbuf_used s -> 
  outer (tcp_ofo_rcvbuf_sub n s) = outer s /\
  inner (tcp_ofo_rcvbuf_sub n s) = (rcvbuf_used s - n, ofo s, ofo_count s, ofo_bytes s).
Proof. intros. split; [done|]. unfold inner. cbn. do 3 f_equal. bsplit; lia. Qed.

(** The head goes; its bytes either leave the buffer or were delivered. *)
Lemma queue_ok_pop lo hi q g t s s1 :
  queue_ok lo hi s -> ofo s = g :: t -> lo <= q -> seg_at q g -> segs_ok (q + zlen (odata g)) t hi ->
  rcvbuf_size s1 = rcvbuf_size s ->
  inner s1 = (held_len t + zlen (pending s1), t, u16 (ofo_count s - 1), u32 (ofo_bytes s - zlen (odata g))) ->
  held_len t + zlen (pending s1) <= rcvbuf_size s ->
  queue_ok (q + zlen (odata g)) hi s1.
Proof.
  intros Q Hofo Hq Hg Ht Hz Hi Hroom. pose proof (queue_ok_ranges _ _ _ Q) as R.
  destruct Q. rewrite Hofo in *. autorewrite with rx_len in *.
  pose proof (zlen_nonneg t). pose proof (held_len_nonneg t). pose proof (zlen_nonneg (odata g)).
  rewrite u32_small, u16_small in Hi by (wunfold; lia). injection Hi as Hu Hq' Hc Hb.
  split; rewrite ?Hu, ?Hq', ?Hc, ?Hb, ?Hz; try done; lia.
Qed.

(** A node that RCV.NXT has passed is dropped. *)
Lemma drop_head_ok lo hi q g t s (s1 := tcp_ofo_unlink g t (tcp_ofo_rcvbuf_sub (zlen (odata g)) s)) :
  queue_ok lo hi s -> ofo s = g :: t -> lo <= q -> seg_at q g -> segs_ok (q + zlen (odata g)) t hi ->
  outer s1 = outer s /\ ofo s1 = t /\ queue_ok (q + zlen (odata g)) hi s1.
Proof.
  intros Q Hofo Hq Hg Ht. pose proof (qo_used _ _ _ Q) as Hu. pose proof (qo_room _ _ _ Q) as Hr.
  rewrite Hofo, held_len_cons in Hu. pose proof (zlen_nonneg (odata g)). pose proof (held_len_nonneg t).
  pose proof (zlen_nonneg (pending s)).
  destruct (rcvbuf_sub_fields (zlen (odata g)) s ltac:(lia)) as [Ho1 Hi1].
  destruct (unlink_fields g t (tcp_ofo_rcvbuf_sub (zlen (odata g)) s)) as [Ho2 Hi2]. fold s1 in Ho2, Hi2.
  assert (rcvbuf_used (tcp_ofo_rcvbuf_sub (zlen (odata g)) s) = rcvbuf_used s - zlen (odata g)) as Hi1u
    by (unfold inner in Hi1; congruence).
  assert (outer s1 = outer s) as Ho by congruence.
  pose proof (outer_pending _ _ Ho) as Hp. split_and!; [done|by injection Hi2|].
  eapply queue_ok_pop; try done; [unfold outer in Ho; congruence| |rewrite Hp; lia].
  rewrite Hi2, Hi1u, Hp. do 3 f_equal. lia.
Qed.

(** A node that straddles RCV.NXT is trimmed to start there. *)
Lemma trim_head_ok lo hi pos q g t s g' s1 :
  queue_ok lo hi s -> ofo s = g :: t -> lo <= q -> seg_at q g -> segs_ok (q + zlen (odata g)) t hi ->
  q <= pos <= q + zlen (odata g) -> (pos < q + zlen (odata g) \/ ofin g = true) ->
  tcp_ofo_rekey_after_trim (pos - q) g t s = (g', s1) ->
  outer s1 = outer s /\ ofo s1 = g' :: t /\ seg_at pos g' /\ pos + zlen (odata g') = q + zlen (odata g) /\
  ofin g' = ofin g /\ queue_ok pos hi s1.
Proof.
  intros Q Hofo Hq Hg Ht Hpos Hsome. unfold tcp_ofo_rekey_after_trim. cbv zeta. intros [= <- <-].
  pose proof (queue_ok_ranges _ _ _ Q) as R. destruct Q. rewrite Hofo in *. autorewrite with rx_len in *.
  pose proof (zlen_nonneg t). pose proof (held_len_nonneg t). pose proof (zlen_nonneg (pending s)).
  assert (zlen (drop (Z.to_nat (pos - q)) (odata g)) = zlen (odata g) - (pos - q)) as Hl
    by (apply zlen_drop; lia).
  assert (seg_at pos (mk_oseg (u32 (oseq g + (pos - q))) (drop (Z.to_nat (pos - q)) (odata g)) (ofin g))) as Hg'.
  { destruct Hg. split; cbn; rewrite ?Hl.
    - rewrite sa_seq0, at_pos_add. f_equal. lia.
    - replace pos with (q + (pos - q)) at 1 by lia. apply chunk_drop; [lia|done].
    - by replace (pos + (zlen (odata g) - (pos - q))) with (q + zlen (odata g)) by lia.
    - destruct Hsome; [left; lia|by right]. }
  cbn [odata ofin]. rewrite Hl. split_and!; try done; [lia|].
  split; cbn -[u32 zlen Z.sub held_len pending]; autorewrite with rx_len; cbn [odata]; rewrite ?Hl; try done.
  - eapply segs_cons; [|done|]; [lia|]. cbn [odata]. rewrite Hl.
    by replace (pos + (zlen (odata g) - (pos - q))) with (q + zlen (odata g)) by lia.
  - rewrite u32_small by (wunfold; lia). lia.
  - rewrite (outer_pending s) by done. bsplit; lia.
  - bsplit; lia.
Qed.

(** Delivery appends to the application's queue, or changes nothing. *)
Lemma deliver_fields rx_ok data s ok s1 :
  (if 0 <? zlen data then tcp_deliver_payload rx_ok data s else (true, s)) = (ok, s1) ->
  if ok then
    recv_ack s1 = recv_ack s /\ rcvbuf_size s1 = rcvbuf_size s /\ status s1 = status s /\
    peer_eof s1 = peer_eof s /\ rx_current s1 = rx_current s /\ terminal_error s1 = terminal_error s /\
    inner s1 = inner s /\ pending s1 = pending s ++ data
  else s1 = s.
Proof.
  pose proof (zlen_nonneg data) as Hn. destruct (0 <? zlen data) eqn:E; bprop.
  - unfold tcp_deliver_payload. rewrite (proj2 (Z.eqb_neq (zlen data) 0)) by lia.
    destruct (_ || _); intros [= <- <-]; [done|]. split_and!; try done.
    unfold pending. cbn. by rewrite concat_app, app_assoc; cbn; rewrite app_nil_r.
  - intros [= <- <-]. rewrite (zlen_zero data), app_nil_r by lia. by split_and!.
Qed.

(** Delivering the head moves its bytes to the application's queue. *)
Lemma deliver_head_ok rx_ok hi pos g t s ok s1 :
  queue_ok pos hi s -> ofo s = g :: t -> seg_at pos g -> segs_ok (pos + zlen (odata g)) t hi ->
  (if 0 <? zlen (odata g) then tcp_deliver_payload rx_ok (odata g) s else (true, s)) = (ok, s1) ->
  if ok then
    let s2 := tcp_ofo_unlink g t s1 in
    recv_ack s2 = recv_ack s /\ rcvbuf_size s2 = rcvbuf_size s /\ status s2 = status s /\
    peer_eof s2 = peer_eof s /\ rx_current s2 = rx_current s /\ terminal_error s2 = terminal_error s /\
    pending s2 = pending s ++ odata g /\ ofo s2 = t /\ queue_ok (pos + zlen (odata g)) hi s2
  else s1 = s.
Proof.
  intros Q Hofo Hg Ht H.
  apply deliver_fields in H.
  destruct ok; [|done]. cbv zeta. set (s2 := tcp_ofo_unlink g t s1).
  destruct (unlink_fields g t s1) as [Ho2 Hi2]. fold s2 in Ho2, Hi2.
  destruct H as (? & ? & ? & ? & ? & ? & Hi1 & Hp).
  pose proof (outer_pending _ _ Ho2) as Hp2. destruct (outer_eq _ _ Ho2) as (? & ? & ? & ? & ? & ? & ?).
  split_and!; try congruence; [by injection Hi2|].
  injection Hi1 as Hu1 Hf1 Hc1 Hb1.
  pose proof (qo_used _ _ _ Q) as Hu. pose proof (qo_room _ _ _ Q) as Hr. rewrite Hofo, held_len_cons in Hu.
  eapply queue_ok_pop; try done; [congruence| |]; rewrite ?Hi2, ?Hp2, ?Hp, ?zlen_app; [|lia].
  rewrite Hu1, Hc1, Hb1. do 3 f_equal. lia.
Qed.

Lemma purge_nodes_ok l lo hi s :
  queue_ok lo hi s -> ofo s = l ->
  outer (purge_nodes l s) = outer s /\ ofo (purge_nodes l s) = [] /\ queue_ok hi hi (purge_nodes l s).
Proof.
  revert lo s. induction l as [|g t IH]; intros lo s Q Hofo; cbn [purge_nodes].
  { split_and!; try done. destruct Q. split; try done. rewrite Hofo. by apply segs_nil. }
  pose proof (qo_segs _ _ _ Q) as Hs. rewrite Hofo in Hs. inversion Hs as [|? q ? ? ? Hq Hg Ht]; subst.
  destruct (drop_head_ok lo hi q g t s Q Hofo Hq Hg Ht) as (Ho & Hf & Q').
  destruct (IH _ _ Q' Hf) as (Ho' & ? & ?). split_and!; [congruence|done|done].
Qed.

Lemma purge_ok lo hi s :
  queue_ok lo hi s ->
  outer (tcp_ofo_purge s) = outer s /\ ofo (tcp_ofo_purge s) = [] /\ queue_ok hi hi (tcp_ofo_purge s).
Proof.
  intros Q. destruct (purge_nodes_ok (ofo s) lo hi s Q eq_refl) as (Ho & Hf & [? Hc ? Hb Hu ? ?]).
  assert (outer (tcp_ofo_purge s) = outer (purge_nodes (ofo s) s)) as Ho' by done.
  pose proof (outer_pending _ _ Ho') as Hp. rewrite Hf in *. split_and!; [by rewrite Ho'|done|].
  split; rewrite ?Hp; try done.
Qed.

(** ** Draining *)

(** Receiving, with every byte before position [pos] delivered. *)
Record live (pos : Z) (s : tcp_rx) : Prop := {
  lv_ack : recv_ack s = at_pos pos;
  lv_open : peer_eof s = false;
  lv_queue : queue_ok pos (pos + rcvbuf_size s) s
}.

(** The FIN was consumed at position [pos]. *)
Record finished (pos : Z) (s : tcp_rx) : Prop := {
  fn_end : F = Some pos;
  fn_ack : recv_ack s = at_pos (pos + 1);
  fn_eof : peer_eof s = true;
  fn_empty : ofo s = [];
  fn_queue : queue_ok (pos + rcvbuf_size s) (pos + rcvbuf_size s) s
}.

(** From [s] to [s'] the bytes [pos .. pos') were delivered. *)
Definition delivers (pos : Z) (s : tcp_rx) (s' : tcp_rx) : Prop :=
  rcvbuf_size s' = rcvbuf_size s /\ status s' = status s /\ rx_current s' = rx_current s /\
  terminal_error s' = terminal_error s /\
  exists d, pending s' = pending s ++ d /\ chunk pos d /\
    (fits pos false -> fits (pos + zlen d) false) /\
    (live (pos + zlen d) s' \/ finished (pos + zlen d) s').

Lemma delivers_more pos s s1 s' d :
  rcvbuf_size s1 = rcvbuf_size s -> status s1 = status s -> rx_current s1 = rx_current s ->
  terminal_error s1 = terminal_error s -> pending s1 = pending s ++ d -> chunk pos d ->
  (fits pos false -> fits (pos + zlen d) false) ->
  delivers (pos + zlen d) s1 s' -> delivers pos s s'.
Proof.
  intros ? ? ? ? Hp Hd Hf (? & ? & ? & ? & d' & Hp' & Hd' & Hf' & Hend).
  split_and!; try congruence. exists (d ++ d'). rewrite zlen_app, Z.add_assoc.
  split_and!; [by rewrite Hp', Hp, app_assoc|by apply chunk_app|auto|done].
Qed.

Lemma delivers_outer pos s s1 s' : outer s1 = outer s -> delivers pos s1 s' -> delivers pos s s'.
Proof.
  intros Ho H. destruct (outer_eq _ _ Ho) as (? & ? & ? & ? & ? & ? & ?).
  apply (delivers_more pos s s1 s' []); try done; [by rewrite app_nil_r; apply outer_pending|..];
    cbn [zlen length Z.of_nat]; by rewrite Z.add_0_r.
Qed.

(** The FIN after position [pos]. *)
Lemma eof_ok pos s lo hi :
  queue_ok lo hi s -> hi = pos + rcvbuf_size s -> recv_ack s = at_pos pos -> F = Some pos ->
  delivers pos s (tcp_ofo_purge (tcp_note_peer_eof (with_recv_ack (u32 (recv_ack s + 1)) s))).
Proof.
  intros Q -> Hack HF. set (s1 := tcp_note_peer_eof _).
  assert (queue_ok lo (pos + rcvbuf_size s) s1) as Q1 by by destruct Q.
  destruct (purge_ok _ _ _ Q1) as (Ho & Hf & Q2).
  pose proof (outer_pending _ _ Ho) as Hp. change (pending s1) with (pending s) in Hp.
  destruct (outer_eq _ _ Ho) as (Ha & Hz & Hs & He & Hrq & Hrc & Ht).
  split_and!; try done. exists []. cbn [zlen length Z.of_nat]. rewrite Z.add_0_r.
  split_and!; [by rewrite app_nil_r|done|done|right]. split; try done; [|by rewrite Hz].
  rewrite Ha. unfold s1. cbn. by rewrite Hack, at_pos_add.
Qed.

Lemma queue_ok_upper lo hi hi' s : hi <= hi' -> queue_ok lo hi s -> queue_ok lo hi' s.
Proof. intros ? []. split; try done. by eapply segs_upper. Qed.

Lemma delivers_nothing pos s s' :
  outer s' = outer s -> recv_ack s = at_pos pos -> peer_eof s = false ->
  queue_ok pos (pos + rcvbuf_size s) s' -> delivers pos s s'.
Proof.
  intros Ho Hack He Q. destruct (outer_eq _ _ Ho) as (? & Hz & ? & ? & ? & ? & ?).
  split_and!; try done. exists []. cbn [zlen length Z.of_nat]. rewrite app_nil_r, Z.add_0_r.
  split_and!; [by apply outer_pending|done|done|left]. split; [congruence|congruence|by rewrite Hz].
Qed.

(** A head at RCV.NXT: delivered, or kept when the application queue is full;
    [next] is the rest of the loop. *)
Lemma drain_head rx_ok pos g t s (next : tcp_rx -> tcp_rx) :
  queue_ok pos (pos + rcvbuf_size s) s -> recv_ack s = at_pos pos -> peer_eof s = false ->
  ofo s = g :: t -> seg_at pos g -> segs_ok (pos + zlen (odata g)) t (pos + rcvbuf_size s) ->
  (forall s2, queue_ok (pos + zlen (odata g)) (pos + zlen (odata g) + rcvbuf_size s2) s2 ->
     recv_ack s2 = at_pos (pos + zlen (odata g)) -> peer_eof s2 = false -> ofo s2 = t ->
     delivers (pos + zlen (odata g)) s2 (next s2)) ->
  delivers pos s
    (let '(ok, s) := if 0 <? zlen (odata g) then tcp_deliver_payload rx_ok (odata g) s else (true, s) in
     if negb ok then s
     else
       let s1 := tcp_ofo_unlink g t s in
       let s2 := with_recv_ack (u32 (recv_ack s1 + zlen (odata g))) s1 in
       if ofin g then tcp_ofo_purge (tcp_note_peer_eof (with_recv_ack (u32 (recv_ack s2 + 1)) s2))
       else next s2).
Proof.
  intros Q Hack He Hofo Hg Ht Hnext. destruct (if 0 <? _ then _ else _) as [ok s1] eqn:Ed.
  pose proof (deliver_head_ok rx_ok (pos + rcvbuf_size s) pos g t s ok s1 Q Hofo Hg Ht Ed) as Hd.
  destruct ok; cbn [negb]; [|subst s1; by apply delivers_nothing].
  cbv zeta in *. destruct Hd as (Ha & Hz & Hs & Hpe & Hrc & Hte & Hp & Hf & Q2).
  set (s2 := tcp_ofo_unlink g t s1) in *. pose proof (zlen_nonneg (odata g)) as Hn.
  set (s3 := with_recv_ack _ s2).
  assert (recv_ack s3 = at_pos (pos + zlen (odata g))) as Ha3
    by (unfold s3; cbn; by rewrite Ha, Hack, at_pos_add).
  assert (queue_ok (pos + zlen (odata g)) (pos + zlen (odata g) + rcvbuf_size s3) s3) as Q3.
  { apply (queue_ok_upper _ (pos + rcvbuf_size s)); [unfold s3; cbn; rewrite Hz; lia|]. by destruct Q2. }
  apply (delivers_more pos s s3 _ (odata g)); try done; [by destruct Hg|intros _; eapply fits_false; by destruct Hg|].
  destruct (ofin g) eqn:Ef; [|apply Hnext; try done; unfold s3; cbn; congruence].
  eapply eof_ok; [done..|]. by apply (proj1 (sa_fin _ _ Hg)).
Qed.

Lemma drain_loop_ok rx_ok fuel lo pos s :
  (length (ofo s) <= fuel)%nat -> queue_ok lo (pos + rcvbuf_size s) s -> pos - 65536 <= lo <= pos ->
  recv_ack s = at_pos pos -> peer_eof s = false -> delivers pos s (ofo_drain_loop fuel rx_ok s).
Proof.
  revert lo pos s. induction fuel as [|fuel IH]; intros lo pos s Hfuel Q Hlo Hack He;
    cbn [ofo_drain_loop]; pose proof (queue_ok_ranges _ _ _ Q) as R; pose proof (qo_segs _ _ _ Q) as Hs;
    (destruct (ofo s) as [|g t] eqn:Hofo;
      [apply delivers_nothing; try done; destruct Q; split; try done; rewrite Hofo; apply segs_nil; lia|]);
    cbn [length] in Hfuel; [lia|].
  inversion Hs as [|? q ? ? ? Hq Hg Ht]; subst. pose proof (segs_le _ _ _ Ht) as Hle.
  pose proof (zlen_nonneg (odata g)) as Hn.
  rewrite Hack, (sa_seq _ _ Hg), seq_gt_pos, !seq_lt_pos by lia. destruct (pos <? q) eqn:E1; bprop.
  { apply delivers_nothing; try done. destruct Q. split; try done. rewrite Hofo.
    by eapply segs_cons; [|done..]; lia. }
  rewrite at_pos_sub by lia. destruct (_ && _) eqn:E2.
  { destruct (drop_head_ok lo _ q g t s Q Hofo Hq Hg Ht) as (Ho & Hf & Q1).
    apply (delivers_outer _ _ _ _ Ho). destruct (outer_eq _ _ Ho) as (? & Hz & _ & ? & _).
    apply (IH (q + zlen (odata g))); [rewrite Hf; lia|by rewrite Hz|lia|congruence|congruence]. }
  set (trim := if q <? pos then _ else _).
  assert (exists g' s1, trim = (g', s1) /\ outer s1 = outer s /\ ofo s1 = g' :: t /\ seg_at pos g' /\
    pos + zlen (odata g') = q + zlen (odata g) /\ queue_ok pos (pos + rcvbuf_size s) s1)
    as (g' & s1 & -> & Ho & Hf & Hg' & Hend & Q1).
  { unfold trim. destruct (q <? pos) eqn:E3; bprop.
    - destruct (tcp_ofo_rekey_after_trim (pos - q) g t s) as [g' s1] eqn:Et.
      destruct (trim_head_ok lo _ pos q g t s g' s1 Q Hofo Hq Hg Ht) as (? & ? & ? & ? & ? & ?);
        [lia|destruct (ofin g); [by right|left; lia]|done|]. by exists g', s1.
    - assert (q = pos) as -> by lia. exists g, s. split_and!; try done.
      destruct Q. split; try done. rewrite Hofo. by eapply segs_cons. }
  apply (delivers_outer _ _ _ _ Ho). destruct (outer_eq _ _ Ho) as (? & Hz & _ & ? & _).
  pose proof (zlen_nonneg (odata g')).
  apply drain_head; rewrite ?Hz, ?Hend; try done; try congruence.
  intros s2 Q2 Ha2 He2 Hf2. eapply IH; [rewrite Hf2; lia|done|lia|done|done].
Qed.

End Stream.
