(* ===== verification/Rbtree.v ===== *)
(** * The intrusive red-black tree (pro-stack/rbtree.c, rbtree.h; the tree half
    of pro-stack/tcp_ofo.c)

    The nodes live in a heap of cells [struct rb_node] addressed by positive
    numbers; a pointer is [option positive], NULL being [None].  The operations
    run in a state monad over the heap and the root pointer in which a
    dereference of NULL, or of an address that holds no node, fails.  Loops
    take fuel.  The theorems are in RbtreeFacts, RbtreeInsert and RbtreeErase. *)

From stdpp Require Import gmap.
From S2P Require Import Prelude SeqNum.

Declare Scope rb_scope.
Delimit Scope rb_scope with rb.

Inductive rb_color := RB_RED | RB_BLACK.

#[global] Instance rb_color_eq_dec : EqDecision rb_color.
Proof. solve_decision. Defined.

Abbreviation addr := positive.
Abbreviation ptr := (option positive).

Record rb_node := mk_rb { rb_parent : ptr; rb_left : ptr; rb_right : ptr; rb_col : rb_color }.

(** The heap the tree lives in and [struct rb_root]'s [node]. *)
Record rb_state := mk_rbs { rb_heap : gmap addr rb_node; rb_root : ptr }.

(** ** The monad: state, failing on a bad dereference *)

Definition rbM (A : Type) : Type := rb_state -> option (A * rb_state).

#[global] Instance rbM_ret : MRet rbM := fun A a s => Some (a, s).
#[global] Instance rbM_bind : MBind rbM :=
  fun A B f m s => match m s with Some (a, s') => f a s' | None => None end.

Definition rb_crash {A} : rbM A := fun _ => None.

(** [*p]. *)
Definition load (p : ptr) : rbM rb_node :=
  fun s => match p ≫= fun a => rb_heap s !! a with Some n => Some (n, s) | None => None end.

(** An assignment to a field of [*p]. *)
Definition store (p : ptr) (f : rb_node -> rb_node) : rbM unit :=
  fun s =>
    match p with
    | Some a =>
        match rb_heap s !! a with
        | Some n => Some (tt, mk_rbs (<[a := f n]> (rb_heap s)) (rb_root s))
        | None => None
        end
    | None => None
    end.

Definition get_root : rbM ptr := fun s => Some (rb_root s, s).
Definition set_root (p : ptr) : rbM unit := fun s => Some (tt, mk_rbs (rb_heap s) p).

Definition set_parent (p q : ptr) : rbM unit :=
  store p (fun n => mk_rb q (rb_left n) (rb_right n) (rb_col n)).
Definition set_left (p q : ptr) : rbM unit :=
  store p (fun n => mk_rb (rb_parent n) q (rb_right n) (rb_col n)).
Definition set_right (p q : ptr) : rbM unit :=
  store p (fun n => mk_rb (rb_parent n) (rb_left n) q (rb_col n)).
Definition set_color (p : ptr) (c : rb_color) : rbM unit :=
  store p (fun n => mk_rb (rb_parent n) (rb_left n) (rb_right n) c).

Definition is_null (p : ptr) : bool := match p with None => true | Some _ => false end.
Definition ptr_eqb (p q : ptr) : bool := bool_decide (p = q).

(** ** rbtree.h *)

Definition rb_root_init : rbM unit := set_root None.

Definition rb_node_init (node : ptr) : rbM unit :=
  store node (fun _ => mk_rb None None None RB_RED).

Definition rb_empty (s : rb_state) : bool := is_null (rb_root s).

(** ** rbtree.c *)

Definition rb_color_of (node : ptr) : rbM rb_color :=
  if is_null node then mret RB_BLACK else n ← load node; mret (rb_col n).

Definition rb_set_color (node : ptr) (c : rb_color) : rbM unit :=
  if is_null node then mret tt else set_color node c.

Fixpoint rb_minimum (fuel : nat) (node : ptr) : rbM ptr :=
  match fuel with
  | O => rb_crash
  | S fuel =>
      if is_null node then mret node
      else n ← load node;
           if is_null (rb_left n) then mret node else rb_minimum fuel (rb_left n)
  end.

Fixpoint rb_maximum (fuel : nat) (node : ptr) : rbM ptr :=
  match fuel with
  | O => rb_crash
  | S fuel =>
      if is_null node then mret node
      else n ← load node;
           if is_null (rb_right n) then mret node else rb_maximum fuel (rb_right n)
  end.

(** The link that points at [node], in its parent or in the root, made to
    point at [new]: the three branches the rotations and rb_transplant share. *)
Definition rb_replace_child (node new : ptr) : rbM unit :=
  n ← load node;
  if is_null (rb_parent n) then set_root new
  else
    p ← load (rb_parent n);
    if ptr_eqb node (rb_left p) then set_left (rb_parent n) new
    else set_right (rb_parent n) new.

Definition rb_rotate_left (node : ptr) : rbM unit :=
  n ← load node;
  let right := rb_right n in
  r ← load right;
  set_right node (rb_left r);;
  (if is_null (rb_left r) then mret tt else set_parent (rb_left r) node);;
  n1 ← load node;
  set_parent right (rb_parent n1);;
  rb_replace_child node right;;
  set_left right node;;
  set_parent node right.

Definition rb_rotate_right (node : ptr) : rbM unit :=
  n ← load node;
  let left := rb_left n in
  l ← load left;
  set_left node (rb_right l);;
  (if is_null (rb_right l) then mret tt else set_parent (rb_right l) node);;
  n1 ← load node;
  set_parent left (rb_parent n1);;
  rb_replace_child node left;;
  set_right left node;;
  set_parent node left.

(** Where [struct rb_node **link] points: the root's field, or a child field. *)
Inductive rb_link := LinkRoot | LinkLeft (p : addr) | LinkRight (p : addr).

Definition load_link (link : rb_link) : rbM ptr :=
  match link with
  | LinkRoot => get_root
  | LinkLeft p => n ← load (Some p); mret (rb_left n)
  | LinkRight p => n ← load (Some p); mret (rb_right n)
  end.

Definition store_link (link : rb_link) (q : ptr) : rbM unit :=
  match link with
  | LinkRoot => set_root q
  | LinkLeft p => set_left (Some p) q
  | LinkRight p => set_right (Some p) q
  end.

Definition rb_link_node (node parent : ptr) (link : rb_link) : rbM unit :=
  store node (fun _ => mk_rb parent None None RB_RED);;
  store_link link node.

(** The loop of rb_insert_color. *)
Fixpoint insert_loop (fuel : nat) (node : ptr) : rbM unit :=
  match fuel with
  | O => rb_crash
  | S fuel =>
      rt ← get_root;
      if ptr_eqb node rt then mret tt
      else
        n ← load node;
        p ← load (rb_parent n);
        match rb_col p with
        | RB_BLACK => mret tt
        | RB_RED =>
            let parent := rb_parent n in
            let grandparent := rb_parent p in
            g ← load grandparent;
            if ptr_eqb parent (rb_left g) then
              let uncle := rb_right g in
              uc ← rb_color_of uncle;
              match uc with
              | RB_RED =>
                  set_color parent RB_BLACK;;
                  set_color uncle RB_BLACK;;
                  set_color grandparent RB_RED;;
                  insert_loop fuel grandparent
              | RB_BLACK =>
                  '(node, parent, grandparent) ←
                    (if ptr_eqb node (rb_right p) then
                       rb_rotate_left parent;;
                       n2 ← load parent;
                       p2 ← load (rb_parent n2);
                       mret (parent, rb_parent n2, rb_parent p2)
                     else mret (node, parent, grandparent));
                  set_color parent RB_BLACK;;
                  set_color grandparent RB_RED;;
                  rb_rotate_right grandparent;;
                  insert_loop fuel node
              end
            else
              let uncle := rb_left g in
              uc ← rb_color_of uncle;
              match uc with
              | RB_RED =>
                  set_color parent RB_BLACK;;
                  set_color uncle RB_BLACK;;
                  set_color grandparent RB_RED;;
                  insert_loop fuel grandparent
              | RB_BLACK =>
                  '(node, parent, grandparent) ←
                    (if ptr_eqb node (rb_left p) then
                       rb_rotate_right parent;;
                       n2 ← load parent;
                       p2 ← load (rb_parent n2);
                       mret (parent, rb_parent n2, rb_parent p2)
                     else mret (node, parent, grandparent));
                  set_color parent RB_BLACK;;
                  set_color grandparent RB_RED;;
                  rb_rotate_left grandparent;;
                  insert_loop fuel node
              end
        end
  end.

Definition rb_insert_color (fuel : nat) (node : ptr) : rbM unit :=
  insert_loop fuel node;;
  rt ← get_root;
  set_color rt RB_BLACK.

Definition rb_transplant (old new : ptr) : rbM unit :=
  rb_replace_child old new;;
  if is_null new then mret tt
  else o ← load old; set_parent new (rb_parent o).

(** One iteration of the loop of rb_erase_fixup once a red sibling has been
    rotated away, for a node that is a left child; [loop] is the rest of the
    loop. *)
Definition erase_left_tail (loop : ptr -> ptr -> rbM ptr) (parent sibling : ptr) : rbM ptr :=
  if is_null sibling then
    p1 ← load parent;
    loop parent (rb_parent p1)
  else
    s ← load sibling;
    lc ← rb_color_of (rb_left s);
    rc ← rb_color_of (rb_right s);
    if bool_decide (lc = RB_BLACK) && bool_decide (rc = RB_BLACK) then
      set_color sibling RB_RED;;
      p1 ← load parent;
      loop parent (rb_parent p1)
    else
      sibling ←
        (match rc with
         | RB_BLACK =>
             rb_set_color (rb_left s) RB_BLACK;;
             set_color sibling RB_RED;;
             rb_rotate_right sibling;;
             p1 ← load parent;
             mret (rb_right p1)
         | RB_RED => mret sibling
         end);
      p2 ← load parent;
      set_color sibling (rb_col p2);;
      set_color parent RB_BLACK;;
      s2 ← load sibling;
      rb_set_color (rb_right s2) RB_BLACK;;
      rb_rotate_left parent;;
      rt ← get_root;
      loop rt None.

(** The same for a right child. *)
Definition erase_right_tail (loop : ptr -> ptr -> rbM ptr) (parent sibling : ptr) : rbM ptr :=
  if is_null sibling then
    p1 ← load parent;
    loop parent (rb_parent p1)
  else
    s ← load sibling;
    rc ← rb_color_of (rb_right s);
    lc ← rb_color_of (rb_left s);
    if bool_decide (rc = RB_BLACK) && bool_decide (lc = RB_BLACK) then
      set_color sibling RB_RED;;
      p1 ← load parent;
      loop parent (rb_parent p1)
    else
      sibling ←
        (match lc with
         | RB_BLACK =>
             rb_set_color (rb_right s) RB_BLACK;;
             set_color sibling RB_RED;;
             rb_rotate_left sibling;;
             p1 ← load parent;
             mret (rb_left p1)
         | RB_RED => mret sibling
         end);
      p2 ← load parent;
      set_color sibling (rb_col p2);;
      set_color parent RB_BLACK;;
      s2 ← load sibling;
      rb_set_color (rb_left s2) RB_BLACK;;
      rb_rotate_right parent;;
      rt ← get_root;
      loop rt None.

(** The loop of rb_erase_fixup; it returns the node to blacken. *)
Fixpoint erase_loop (fuel : nat) (node parent : ptr) : rbM ptr :=
  match fuel with
  | O => rb_crash
  | S fuel =>
      rt ← get_root;
      nc ← rb_color_of node;
      if ptr_eqb node rt || bool_decide (nc = RB_RED) then mret node
      else
        p ← load parent;
        if ptr_eqb node (rb_left p) then
          sc ← rb_color_of (rb_right p);
          sibling ←
            (match sc with
             | RB_RED =>
                 set_color (rb_right p) RB_BLACK;;
                 set_color parent RB_RED;;
                 rb_rotate_left parent;;
                 p1 ← load parent;
                 mret (rb_right p1)
             | RB_BLACK => mret (rb_right p)
             end);
          erase_left_tail (erase_loop fuel) parent sibling
        else
          sc ← rb_color_of (rb_left p);
          sibling ←
            (match sc with
             | RB_RED =>
                 set_color (rb_left p) RB_BLACK;;
                 set_color parent RB_RED;;
                 rb_rotate_right parent;;
                 p1 ← load parent;
                 mret (rb_left p1)
             | RB_BLACK => mret (rb_left p)
             end);
          erase_right_tail (erase_loop fuel) parent sibling
  end.

Definition rb_erase_fixup (fuel : nat) (node parent : ptr) : rbM unit :=
  last ← erase_loop fuel node parent;
  rb_set_color last RB_BLACK.

(** In rb_erase, once the successor [removed] of [node] is cut out of its
    place: it takes [node]'s. *)
Definition rb_take_place (node removed : ptr) : rbM unit :=
  rb_transplant node removed;;
  n2 ← load node;
  set_left removed (rb_left n2);;
  m2 ← load removed;
  set_parent (rb_left m2) removed;;
  n3 ← load node;
  set_color removed (rb_col n3).

Definition rb_erase (fuel : nat) (node : ptr) : rbM unit :=
  n ← load node;
  '(replacement, replacement_parent, removed_color) ←
    (if is_null (rb_left n) then
       rb_transplant node (rb_right n);;
       mret (rb_right n, rb_parent n, rb_col n)
     else if is_null (rb_right n) then
       rb_transplant node (rb_left n);;
       mret (rb_left n, rb_parent n, rb_col n)
     else
       removed ← rb_minimum fuel (rb_right n);
       m ← load removed;
       let replacement := rb_right m in
       replacement_parent ←
         (if ptr_eqb (rb_parent m) node then
            (if is_null replacement then mret tt else set_parent replacement removed);;
            mret removed
          else
            rb_transplant removed replacement;;
            n1 ← load node;
            set_right removed (rb_right n1);;
            m1 ← load removed;
            set_parent (rb_right m1) removed;;
            mret (rb_parent m));
       rb_take_place node removed;;
       mret (replacement, replacement_parent, rb_col m));
  (match removed_color with
   | RB_BLACK => rb_erase_fixup fuel replacement replacement_parent
   | RB_RED => mret tt
   end);;
  rb_node_init node.

Definition rb_first (fuel : nat) : rbM ptr := rt ← get_root; rb_minimum fuel rt.
Definition rb_last (fuel : nat) : rbM ptr := rt ← get_root; rb_maximum fuel rt.

(** The climbing loops of rb_next and rb_prev. *)
Fixpoint next_climb (fuel : nat) (node parent : ptr) : rbM ptr :=
  match fuel with
  | O => rb_crash
  | S fuel =>
      if is_null parent then mret parent
      else p ← load parent;
           if ptr_eqb node (rb_right p) then next_climb fuel parent (rb_parent p)
           else mret parent
  end.

Fixpoint prev_climb (fuel : nat) (node parent : ptr) : rbM ptr :=
  match fuel with
  | O => rb_crash
  | S fuel =>
      if is_null parent then mret parent
      else p ← load parent;
           if ptr_eqb node (rb_left p) then prev_climb fuel parent (rb_parent p)
           else mret parent
  end.

Definition rb_next (fuel : nat) (node : ptr) : rbM ptr :=
  if is_null node then mret None
  else
    n ← load node;
    if is_null (rb_right n) then next_climb fuel node (rb_parent n)
    else rb_minimum fuel (rb_right n).

Definition rb_prev (fuel : nat) (node : ptr) : rbM ptr :=
  if is_null node then mret None
  else
    n ← load node;
    if is_null (rb_left n) then prev_climb fuel node (rb_parent n)
    else rb_maximum fuel (rb_left n).

(** ** The tree of the out-of-order queue (tcp_ofo.c)

    [key] gives the sequence number of the segment a node is embedded in. *)

Section OfoTree.
Context (key : addr -> Z).

Fixpoint lower_bound_loop (fuel : nat) (node result : ptr) (seq : Z) : rbM ptr :=
  match fuel with
  | O => rb_crash
  | S fuel =>
      match node with
      | None => mret result
      | Some cur =>
          n ← load node;
          if seq_lt (key cur) seq then lower_bound_loop fuel (rb_right n) result seq
          else lower_bound_loop fuel (rb_left n) node seq
      end
  end.

Definition ofo_tree_lower_bound (fuel : nat) (seq : Z) : rbM ptr :=
  rt ← get_root; lower_bound_loop fuel rt None seq.

Fixpoint insert_descend (fuel : nat) (seg : addr) (parent : ptr) (link : rb_link) : rbM (ptr * rb_link) :=
  match fuel with
  | O => rb_crash
  | S fuel =>
      q ← load_link link;
      match q with
      | None => mret (parent, link)
      | Some cur =>
          if seq_lt (key seg) (key cur) then insert_descend fuel seg (Some cur) (LinkLeft cur)
          else insert_descend fuel seg (Some cur) (LinkRight cur)
      end
  end.

Definition tcp_ofo_tree_insert (fuel : nat) (seg : addr) : rbM unit :=
  '(parent, link) ← insert_descend fuel seg None LinkRoot;
  rb_link_node (Some seg) parent link;;
  rb_insert_color fuel (Some seg).

(** Where tcp_ofo_queue_insert starts its walk: the first node that does not
    precede [seq], or the one before it when that reaches past [seq]
    ([seg_end] is a segment's [seq + len]). *)
Context (seg_end : addr -> Z).

Definition ofo_tree_start (fuel : nat) (seq : Z) : rbM ptr :=
  before ← ofo_tree_lower_bound fuel seq;
  prev_node ←
    (match before with
     | Some _ => rb_prev fuel before
     | None => rb_last fuel
     end);
  match prev_node with
  | Some prev => if tcp_seq_gt (seg_end prev) seq then mret prev_node else mret before
  | None => mret before
  end.
End OfoTree.

(** ** Examples: a run of the operations *)

Fixpoint insert_all (key : addr -> Z) (l : list addr) : rbM unit :=
  match l with
  | [] => mret tt
  | a :: l => tcp_ofo_tree_insert key 64 a;; insert_all key l
  end.

Fixpoint walk (n fuel : nat) (p : ptr) : rbM (list addr) :=
  match n, p with
  | S n, Some a => q ← rb_next fuel p; l ← walk n fuel q; mret (a :: l)
  | _, _ => mret []
  end.

Definition detached (l : list addr) : rb_state :=
  mk_rbs (list_to_map ((fun a => (a, mk_rb None None None RB_RED)) <$> l)) None.

Example walk_sorted :
  fst <$> (insert_all Zpos [5; 3; 9; 1; 4; 8; 2; 7; 6]%positive;; p ← rb_first 64; walk 64 64 p)
            (detached [1; 2; 3; 4; 5; 6; 7; 8; 9]%positive)
  = Some [1; 2; 3; 4; 5; 6; 7; 8; 9]%positive.
Proof. vm_compute. reflexivity. Qed.

Example walk_erased :
  fst <$> (insert_all Zpos [5; 3; 9; 1; 4; 8; 2; 7; 6]%positive;;
           rb_erase 64 (Some 5%positive);; rb_erase 64 (Some 1%positive);; rb_erase 64 (Some 8%positive);;
           p ← rb_first 64; walk 64 64 p)
            (detached [1; 2; 3; 4; 5; 6; 7; 8; 9]%positive)
  = Some [2; 3; 4; 6; 7; 9]%positive.
Proof. vm_compute. reflexivity. Qed.
