(* ===== verification/RbtreeFacts.v ===== *)
(** * The tree in the heap: zippers, the representation predicate, rotations,
    the red-black invariants and insertion

    A tree is the inductive [tree] with its node addresses; a position in it is
    a context of frames (a zipper) and the subtree in its hole.  [rep F s k t]
    says that the heap of [s] holds, cell by cell and with every parent
    pointer, the tree [plug k t], and agrees with [F] everywhere else.  Each
    primitive has a total-correctness rule ([wp]); the rotations and
    the colour changes are proved to act on the zipper alone.  [rb t n]: no red
    node has a red child and every path has [n] black nodes; rb_insert_color
    restores it after rb_link_node and keeps the sequence of nodes. *)

From stdpp Require Import gmap.
From S2P Require Import Prelude Rbtree.

(** ** Total-correctness rules of the monad *)

Definition wp {A} (m : rbM A) (s : rb_state) (Q : A -> rb_state -> Prop) : Prop :=
  exists a s', m s = Some (a, s') /\ Q a s'.

Lemma wp_ret {A} (a : A) s Q : Q a s -> wp (mret a) s Q.
Proof. intros. by exists a, s. Qed.

Lemma wp_bind {A B} (m : rbM A) (f : A -> rbM B) s Q :
  wp m s (fun a s' => wp (f a) s' Q) -> wp (m ≫= f) s Q.
Proof.
  intros (a & s' & E & b & s'' & E' & H). exists b, s''. unfold mbind, rbM_bind. by rewrite E.
Qed.

Lemma wp_mono {A} (m : rbM A) s (P Q : A -> rb_state -> Prop) :
  wp m s P -> (forall a s', P a s' -> Q a s') -> wp m s Q.
Proof. intros (a & s' & E & H) HPQ. exists a, s'. auto. Qed.

Lemma wp_root s Q : Q (rb_root s) s -> wp get_root s Q.
Proof. intros. by exists (rb_root s), s. Qed.

Lemma wp_load a n s Q : rb_heap s !! a = Some n -> Q n s -> wp (load (Some a)) s Q.
Proof. intros E H. exists n, s. split; [|done]. unfold load; cbn. by rewrite E. Qed.

Lemma wp_store a n f s Q :
  rb_heap s !! a = Some n -> Q tt (mk_rbs (<[a := f n]> (rb_heap s)) (rb_root s)) ->
  wp (store (Some a) f) s Q.
Proof. intros E H. exists tt. eexists. split; [|exact H]. unfold store. by rewrite E. Qed.

(** ** Trees, contexts and their cells *)

Inductive tree := Leaf | Node (c : rb_color) (l : tree) (x : addr) (r : tree).

Definition root_ptr (t : tree) : ptr :=
  match t with Leaf => None | Node _ _ x _ => Some x end.

Definition tree_color (t : tree) : rb_color :=
  match t with Leaf => RB_BLACK | Node c _ _ _ => c end.

Fixpoint elems (t : tree) : list addr :=
  match t with Leaf => [] | Node _ l x r => elems l ++ x :: elems r end.

Fixpoint cells (p : ptr) (t : tree) : list (addr * rb_node) :=
  match t with
  | Leaf => []
  | Node c l x r => (x, mk_rb p (root_ptr l) (root_ptr r) c) :: cells (Some x) l ++ cells (Some x) r
  end.

(** A frame: a node whose left (right) child is the hole. *)
Inductive frame := InLeft (c : rb_color) (x : addr) (r : tree) | InRight (c : rb_color) (l : tree) (x : addr).

Definition faddr (f : frame) : addr := match f with InLeft _ x _ => x | InRight _ _ x => x end.

Definition fill (f : frame) (t : tree) : tree :=
  match f with InLeft c x r => Node c t x r | InRight c l x => Node c l x t end.

Definition fcell (f : frame) (p q : ptr) : rb_node :=
  match f with
  | InLeft c x r => mk_rb p q (root_ptr r) c
  | InRight c l x => mk_rb p (root_ptr l) q c
  end.

Definition fsib (f : frame) : tree := match f with InLeft _ _ r => r | InRight _ l _ => l end.

(** A context, innermost frame first. *)
Abbreviation ctx := (list frame).

Fixpoint plug (k : ctx) (t : tree) : tree :=
  match k with [] => t | f :: k => plug k (fill f t) end.

Definition up (k : ctx) : ptr := match k with [] => None | f :: _ => Some (faddr f) end.

Fixpoint kcells (k : ctx) (q : ptr) : list (addr * rb_node) :=
  match k with
  | [] => []
  | f :: k => (faddr f, fcell f (up k) q) :: cells (Some (faddr f)) (fsib f) ++ kcells k (Some (faddr f))
  end.

Fixpoint kroot (k : ctx) (q : ptr) : ptr :=
  match k with [] => q | f :: k => kroot k (Some (faddr f)) end.

(** The addresses before and after the hole, in order. *)
Fixpoint before (k : ctx) : list addr :=
  match k with
  | [] => []
  | InLeft _ _ _ :: k => before k
  | InRight _ l x :: k => before k ++ elems l ++ [x]
  end.

Fixpoint after (k : ctx) : list addr :=
  match k with
  | [] => []
  | InLeft _ x r :: k => x :: elems r ++ after k
  | InRight _ _ _ :: k => after k
  end.

Lemma elems_plug k t : elems (plug k t) = before k ++ elems t ++ after k.
Proof.
  revert t. induction k as [|[c x r|c l x] k IH]; intros t; cbn.
  - by rewrite app_nil_r.
  - rewrite IH. cbn. by rewrite <-!app_assoc.
  - rewrite IH. cbn. by rewrite <-!app_assoc.
Qed.

Lemma cells_keys p t x : x ∈ (cells p t).*1 <-> x ∈ elems t.
Proof.
  revert p. induction t as [|c l IHl y r IHr]; intros p; cbn; [done|].
  rewrite fmap_app. set_solver.
Qed.

Lemma kcells_keys k q x : x ∈ (kcells k q).*1 <-> x ∈ before k \/ x ∈ after k.
Proof.
  revert q. induction k as [|f k IH]; intros q; cbn; [set_solver|].
  rewrite fmap_app, elem_of_cons, elem_of_app, cells_keys, IH. destruct f; cbn; set_solver.
Qed.

(** ** The representation predicate *)

Definition on (h : gmap addr rb_node) (l : list (addr * rb_node)) : Prop :=
  Forall (fun p => h !! p.1 = Some p.2) l.

Record rep (F : gmap addr rb_node) (s : rb_state) (k : ctx) (t : tree) : Prop := mk_rep {
  rep_ctx : on (rb_heap s) (kcells k (root_ptr t));
  rep_sub : on (rb_heap s) (cells (up k) t);
  rep_root : rb_root s = kroot k (root_ptr t);
  rep_nodup : NoDup (before k ++ elems t ++ after k);
  rep_rest : forall a, a ∉ before k ++ elems t ++ after k -> rb_heap s !! a = F !! a
}.

Lemma on_app h l1 l2 : on h (l1 ++ l2) <-> on h l1 /\ on h l2.
Proof. unfold on. by rewrite Forall_app. Qed.
Lemma on_cons h p l : on h (p :: l) <-> h !! p.1 = Some p.2 /\ on h l.
Proof. unfold on. by rewrite Forall_cons. Qed.

Lemma on_insert h l a n : a ∉ l.*1 -> on h l -> on (<[a := n]> h) l.
Proof.
  unfold on. rewrite !Forall_forall. intros Ha H [b m] Hin; cbn. rewrite lookup_insert_ne; [by apply (H (b, m))|].
  intros ->. apply Ha. apply list_elem_of_fmap. by exists (b, m).
Qed.

Lemma on_cells h p t a n : a ∉ elems t -> on h (cells p t) -> on (<[a := n]> h) (cells p t).
Proof. intros. apply on_insert; [by rewrite cells_keys|done]. Qed.

Lemma on_kcells h k q a n :
  a ∉ before k -> a ∉ after k -> on h (kcells k q) -> on (<[a := n]> h) (kcells k q).
Proof. intros. apply on_insert; [|done]. rewrite kcells_keys. tauto. Qed.

(** Giving the root of a subtree another parent. *)
Definition reparent (b : tree) (p : ptr) (h : gmap addr rb_node) : gmap addr rb_node :=
  match b with Leaf => h | Node c l x r => <[x := mk_rb p (root_ptr l) (root_ptr r) c]> h end.

(** Making the hole's link point elsewhere. *)
Definition link (k : ctx) (q : ptr) (s : rb_state) : rb_state :=
  match k with
  | [] => mk_rbs (rb_heap s) q
  | f :: k => mk_rbs (<[faddr f := fcell f (up k) q]> (rb_heap s)) (rb_root s)
  end.

Lemma on_reparent h b p q : NoDup (elems b) -> on h (cells q b) -> on (reparent b p h) (cells p b).
Proof.
  destruct b as [|c l x r]; cbn; [done|]. intros ND. rewrite !on_cons, !on_app. cbn.
  rewrite NoDup_app, NoDup_cons in ND. intros (_ & Hl & Hr). rewrite lookup_insert_eq.
  split_and!; [done|apply on_cells; [|done]..]; set_solver.
Qed.

Lemma reparent_ne h b p a : a ∉ elems b -> reparent b p h !! a = h !! a.
Proof. destruct b; cbn; [done|]. intros. apply lookup_insert_ne. set_solver. Qed.

Lemma on_agree h h' l : (forall a, a ∈ l.*1 -> h' !! a = h !! a) -> on h l -> on h' l.
Proof.
  unfold on. rewrite !Forall_forall. intros Hag H [b m] Hin; cbn. rewrite Hag; [by apply (H (b, m))|].
  apply list_elem_of_fmap. by exists (b, m).
Qed.

Lemma on_reparent_ne h b p l : (forall a, a ∈ l.*1 -> a ∉ elems b) -> on h l -> on (reparent b p h) l.
Proof. intros H. apply on_agree. intros a Ha. by apply reparent_ne, H. Qed.

Lemma on_link k q q' s :
  NoDup (before k ++ after k) -> on (rb_heap s) (kcells k q) -> on (rb_heap (link k q' s)) (kcells k q').
Proof.
  destruct k as [|f k]; cbn; [done|]. intros ND. rewrite !on_cons, !on_app. cbn.
  intros (_ & Hl & Hk). rewrite lookup_insert_eq. split_and!; [done|apply on_cells; [|done]|apply on_kcells; [..|done]];
  destruct f; cbn in *; rewrite ?NoDup_app, ?NoDup_cons in ND; set_solver.
Qed.

Lemma link_ne k q s a : a ∉ before k -> a ∉ after k -> rb_heap (link k q s) !! a = rb_heap s !! a.
Proof.
  destruct k as [|f k]; cbn; [done|]. intros. apply lookup_insert_ne. destruct f; cbn in *; set_solver.
Qed.

Lemma on_link_ne k q s l :
  (forall a, a ∈ l.*1 -> a ∉ before k /\ a ∉ after k) -> on (rb_heap s) l -> on (rb_heap (link k q s)) l.
Proof. intros H. apply on_agree. intros a Ha. apply link_ne; by apply H. Qed.

Lemma link_root k q q' s : rb_root s = kroot k q -> rb_root (link k q' s) = kroot k q'.
Proof. by destruct k. Qed.

(** Refocusing. *)
Lemma rep_left F s c l x r k : rep F s k (Node c l x r) <-> rep F s (InLeft c x r :: k) l.
Proof.
  split; intros [H1 H2 H3 H4 H5]; cbn in *; rewrite ?on_cons, ?on_app in *; cbn in *; split; cbn;
    rewrite ?on_cons, ?on_app; cbn; try tauto;
    rewrite <-?app_assoc in *; cbn in *; (done || intros; apply H5; set_solver).
Qed.

Lemma rep_right F s c l x r k : rep F s k (Node c l x r) <-> rep F s (InRight c l x :: k) r.
Proof.
  split; intros [H1 H2 H3 H4 H5]; cbn in *; rewrite ?on_cons, ?on_app in *; cbn in *; split; cbn;
    rewrite ?on_cons, ?on_app; cbn; try tauto;
    rewrite <-?app_assoc in *; cbn in *; (done || intros; apply H5; set_solver).
Qed.

Lemma rep_fill F s f k t : rep F s k (fill f t) <-> rep F s (f :: k) t.
Proof. destruct f; [apply rep_left|apply rep_right]. Qed.

Lemma rep_plug F s k t : rep F s [] (plug k t) <-> rep F s k t.
Proof.
  revert t. induction k as [|f k IH]; intros t; cbn; [done|]. by rewrite IH, rep_fill.
Qed.

Lemma rep_cell F s k c l x r :
  rep F s k (Node c l x r) -> rb_heap s !! x = Some (mk_rb (up k) (root_ptr l) (root_ptr r) c).
Proof. intros [_ H _ _ _]. cbn in H. rewrite on_cons in H. apply H. Qed.

(** Discharges a [NoDup]- or membership-based side condition. *)
Ltac nodup_solve :=
  match goal with
  | H : NoDup _ |- _ =>
      repeat match goal with
        | M : _ ∉ _ |- _ => revert M
        | M : _ ∈ _ |- _ => revert M
        end; clear -H; cbn in *;
      repeat (rewrite NoDup_app in H || rewrite NoDup_cons in H);
      repeat (rewrite NoDup_app || rewrite NoDup_cons); set_solver
  end.

Ltac on_split := repeat (rewrite on_cons || rewrite on_app).
Ltac on_split_in H := repeat (rewrite on_cons in H || rewrite on_app in H).

(** ** Rules at a focus *)

Section Rules.
Context (F : gmap addr rb_node).

Lemma wp_load_focus s k c l x r Q :
  rep F s k (Node c l x r) -> Q (mk_rb (up k) (root_ptr l) (root_ptr r) c) s -> wp (load (Some x)) s Q.
Proof. intros H. eapply wp_load. by eapply rep_cell. Qed.

Lemma wp_color_of s k t Q :
  rep F s k t -> Q (tree_color t) s -> wp (rb_color_of (root_ptr t)) s Q.
Proof.
  intros H HQ. destruct t as [|c l x r]; cbn; [by apply wp_ret|].
  apply wp_bind. eapply wp_load_focus; [done|]. by apply wp_ret.
Qed.

Lemma wp_set_color s k c c' l x r Q :
  rep F s k (Node c l x r) -> (forall s', rep F s' k (Node c' l x r) -> Q tt s') ->
  wp (set_color (Some x) c') s Q.
Proof.
  intros H HQ. eapply wp_store; [by eapply rep_cell|]. apply HQ. destruct H as [H1 H2 H3 H4 H5].
  cbn in *. rewrite on_cons, on_app in H2. rewrite NoDup_app, NoDup_app, NoDup_app, NoDup_cons in H4.
  split; cbn; [apply on_kcells; [set_solver..|done]| |done| |].
  - rewrite on_cons, on_app. cbn. rewrite lookup_insert_eq.
    split_and!; [done|apply on_cells; [set_solver|tauto]..].
  - rewrite NoDup_app, NoDup_app, NoDup_app, NoDup_cons. done.
  - intros a Ha. rewrite lookup_insert_ne by set_solver. by apply H5.
Qed.

(** rb_set_color on a possibly empty subtree. *)
Definition recolor (c : rb_color) (t : tree) : tree :=
  match t with Leaf => Leaf | Node _ l x r => Node c l x r end.

Lemma wp_rb_set_color s k t c Q :
  rep F s k t -> (forall s', rep F s' k (recolor c t) -> Q tt s') -> wp (rb_set_color (root_ptr t) c) s Q.
Proof.
  intros H HQ. destruct t; cbn; [apply wp_ret; by apply HQ|]. eapply wp_set_color; [done|]. exact HQ.
Qed.

Lemma wp_reparent s b p q Q :
  on (rb_heap s) (cells q b) -> Q tt (mk_rbs (reparent b p (rb_heap s)) (rb_root s)) ->
  wp (if is_null (root_ptr b) then mret tt else set_parent (root_ptr b) p) s Q.
Proof.
  destruct b as [|c l x r]; cbn; [destruct s; cbn; intros; by apply wp_ret|]. rewrite on_cons. cbn.
  intros [H _] HQ. by eapply wp_store.
Qed.

Lemma wp_replace_child s k x n q Q :
  on (rb_heap s) (kcells k (Some x)) -> rb_heap s !! x = Some n -> rb_parent n = up k ->
  x ∉ before k -> x ∉ after k ->
  Q tt (link k q s) -> wp (rb_replace_child (Some x) q) s Q.
Proof.
  intros Hk Hx Hp Hb Ha HQ. unfold rb_replace_child. apply wp_bind. eapply wp_load; [done|]. rewrite Hp.
  destruct k as [|f k]; cbn in *; [by eexists _, _|]. rewrite on_cons, on_app in Hk. cbn in Hk.
  destruct Hk as (Hf & Hs & _). apply wp_bind. eapply wp_load; [done|]. unfold ptr_eqb.
  destruct f as [c y r|c l y]; cbn in *.
  - rewrite bool_decide_eq_true_2 by done. by eapply wp_store.
  - rewrite bool_decide_eq_false_2; [by eapply wp_store|]. destruct l; cbn in *; [done|]. set_solver.
Qed.

(** ** Rotations *)

(** The heap after a rotation: [y] in the place of [x], [x] below [y], and the
    inner subtree [b] below [x]; [n1] and [n2] are intermediate contents. *)
Definition rotated (k : ctx) (b : tree) (x y : addr) (n1 n2 nx ny : rb_node) (s : rb_state) : rb_state :=
  let s3 := mk_rbs (<[y := n2]> (reparent b (Some x) (<[x := n1]> (rb_heap s)))) (rb_root s) in
  mk_rbs (<[x := nx]> (<[y := ny]> (rb_heap (link k (Some y) s3)))) (rb_root (link k (Some y) s3)).

Lemma rotated_other k b x y n1 n2 nx ny s z :
  z ∉ x :: y :: before k ++ after k ++ elems b ->
  rb_heap (rotated k b x y n1 n2 nx ny s) !! z = rb_heap s !! z.
Proof.
  intros Hz. unfold rotated. cbn -[insert]. rewrite !lookup_insert_ne, link_ne by set_solver. cbn -[insert].
  by rewrite lookup_insert_ne, reparent_ne, lookup_insert_ne by set_solver.
Qed.

Lemma rotated_cells k b x y n1 n2 nx ny s p t :
  (forall z, z ∈ elems t -> z ∉ x :: y :: before k ++ after k ++ elems b) ->
  on (rb_heap s) (cells p t) -> on (rb_heap (rotated k b x y n1 n2 nx ny s)) (cells p t).
Proof. intros H. apply on_agree. intros z Hz. apply rotated_other, H. by rewrite cells_keys in Hz. Qed.

Lemma rotated_ctx k b x y n1 n2 nx ny s :
  NoDup (x :: y :: (before k ++ after k) ++ elems b) ->
  on (rb_heap s) (kcells k (Some x)) ->
  on (rb_heap (rotated k b x y n1 n2 nx ny s)) (kcells k (Some y)).
Proof.
  intros ND Hk. unfold rotated. cbn -[insert]. do 2 (apply on_kcells; [nodup_solve..|]).
  eapply on_link; [nodup_solve|]. cbn -[insert]. apply on_kcells; [nodup_solve..|].
  apply on_reparent_ne; [intros z; rewrite kcells_keys; nodup_solve|].
  apply on_kcells; [nodup_solve..|exact Hk].
Qed.

Lemma rotated_inner k b x y n1 n2 nx ny s :
  NoDup (x :: y :: (before k ++ after k) ++ elems b) ->
  on (rb_heap s) (cells (Some y) b) ->
  on (rb_heap (rotated k b x y n1 n2 nx ny s)) (cells (Some x) b).
Proof.
  intros ND Hb. unfold rotated. cbn -[insert]. do 2 (apply on_cells; [nodup_solve|]).
  apply on_link_ne; [intros z; rewrite cells_keys; nodup_solve|]. cbn -[insert]. apply on_cells; [nodup_solve|].
  eapply on_reparent; [nodup_solve|]. apply on_cells; [nodup_solve|exact Hb].
Qed.

(** The part the two rotations share: [y] takes [x]'s place, then [last]
    writes [y]'s child and [x]'s parent. *)
Lemma wp_rotate_tail s k b x y nx ny side Q :
  NoDup (x :: y :: (before k ++ after k) ++ elems b) ->
  on (rb_heap s) (kcells k (Some x)) -> on (rb_heap s) (cells (Some y) b) ->
  rb_heap s !! y = Some ny -> rb_parent nx = up k ->
  let n2 := mk_rb (up k) (rb_left ny) (rb_right ny) (rb_col ny) in
  Q tt (rotated k b x y nx n2 (mk_rb (Some y) (rb_left nx) (rb_right nx) (rb_col nx)) (side n2) s) ->
  wp ((if is_null (root_ptr b) then mret tt else set_parent (root_ptr b) (Some x));;
      n1 ← load (Some x); set_parent (Some y) (rb_parent n1);;
      rb_replace_child (Some x) (Some y);;
      store (Some y) side;;
      set_parent (Some x) (Some y)) (mk_rbs (<[x := nx]> (rb_heap s)) (rb_root s)) Q.
Proof.
  intros ND Hk Hb Hy Hp n2 HQ.
  assert (Hxy : x <> y) by nodup_solve.
  apply wp_bind. eapply (wp_reparent _ _ _ (Some y)); cbn [rb_heap rb_root]; [apply on_cells; [nodup_solve|done]|].
  apply wp_bind. eapply wp_load; [cbn; rewrite reparent_ne by nodup_solve; by rewrite lookup_insert_eq|]. rewrite Hp.
  apply wp_bind. eapply wp_store; [cbn; rewrite reparent_ne, lookup_insert_ne by (done || nodup_solve); exact Hy|].
  cbn -[insert]. apply wp_bind. eapply (wp_replace_child _ k x nx); [|cbn|done|nodup_solve..|].
  { cbn. apply on_kcells; [nodup_solve..|]. apply on_reparent_ne; [intros z; rewrite kcells_keys; nodup_solve|].
    apply on_kcells; [nodup_solve..|done]. }
  { rewrite lookup_insert_ne, reparent_ne by (done || nodup_solve). by rewrite lookup_insert_eq. }
  apply wp_bind. eapply wp_store; [rewrite link_ne by nodup_solve; cbn; by rewrite lookup_insert_eq|].
  eapply wp_store; [|exact HQ].
  cbn. rewrite lookup_insert_ne, link_ne by (done || nodup_solve). cbn.
  rewrite lookup_insert_ne, reparent_ne by (done || nodup_solve). by rewrite lookup_insert_eq.
Qed.

(** A rotation keeps the sequence, hence distinctness and the rest of the heap. *)
Lemma rep_rotated s k b x y n1 n2 nx ny t t' :
  rep F s k t -> root_ptr t = Some x -> root_ptr t' = Some y -> elems t' = elems t ->
  NoDup (x :: y :: (before k ++ after k) ++ elems b) ->
  (forall z, z ∈ x :: y :: elems b -> z ∈ elems t) ->
  (let s' := rotated k b x y n1 n2 nx ny s in on (rb_heap s') (cells (up k) t')) ->
  rep F (rotated k b x y n1 n2 nx ny s) k t'.
Proof.
  intros [Hk Ht Hr ND Hrest] Hx Hy He ND' Hin Hon. rewrite Hx in Hk, Hr. split; rewrite ?Hy, ?He; auto.
  - by apply rotated_ctx.
  - unfold rotated. cbn. by apply (link_root k (Some x)).
  - intros a Ha. rewrite rotated_other; [by apply Hrest|]. intros Ha'. apply Ha.
    rewrite !elem_of_app. rewrite !elem_of_cons, !elem_of_app in Ha'.
    destruct Ha' as [->|[->|[Ha'|[Ha'|Ha']]]]; auto; right; left; apply Hin; set_solver.
Qed.

Lemma rotated_xy k b x y n1 n2 nx ny s :
  x <> y -> rb_heap (rotated k b x y n1 n2 nx ny s) !! x = Some nx /\
            rb_heap (rotated k b x y n1 n2 nx ny s) !! y = Some ny.
Proof.
  intros. unfold rotated. cbn. by rewrite lookup_insert_eq, lookup_insert_ne, lookup_insert_eq.
Qed.

Lemma wp_rotate_left s k c a x c' b y d Q :
  rep F s k (Node c a x (Node c' b y d)) ->
  (forall s', rep F s' k (Node c' (Node c a x b) y d) -> Q tt s') ->
  wp (rb_rotate_left (Some x)) s Q.
Proof.
  intros H HQ. pose proof (rep_cell _ _ _ _ _ _ _ H) as Hx.
  assert (Hr := H). rewrite rep_right in Hr. apply rep_cell in Hr as Hy. clear Hr.
  assert (Hr := H). destruct Hr as [Hk Ht _ ND _]. cbn in Ht. on_split_in Ht.
  destruct Ht as (_ & Ha & _ & Hb & Hd). cbn in Hx, Hy.
  unfold rb_rotate_left.
  apply wp_bind. eapply wp_load; [exact Hx|]. cbn [rb_right].
  apply wp_bind. eapply wp_load; [exact Hy|]. cbn [rb_left].
  apply wp_bind. eapply wp_store; [exact Hx|].
  eapply (wp_rotate_tail s k b x y); [nodup_solve|exact Hk|exact Hb|exact Hy|done|]. apply HQ.
  eapply rep_rotated; [exact H|done|done|cbn; by rewrite <-app_assoc|nodup_solve|set_solver|].
  cbn -[rotated]. on_split. cbn [fst snd]. edestruct (rotated_xy k b x y) as [-> ->]; [nodup_solve|].
  split_and!; [done|done|apply rotated_cells; [nodup_solve|done]|apply rotated_inner; [nodup_solve|done]|
    apply rotated_cells; [nodup_solve|done]].
Qed.

Lemma wp_rotate_right s k c a x c' b y d Q :
  rep F s k (Node c (Node c' d y b) x a) ->
  (forall s', rep F s' k (Node c' d y (Node c b x a)) -> Q tt s') ->
  wp (rb_rotate_right (Some x)) s Q.
Proof.
  intros H HQ. pose proof (rep_cell _ _ _ _ _ _ _ H) as Hx.
  assert (Hr := H). rewrite rep_left in Hr. apply rep_cell in Hr as Hy. clear Hr.
  assert (Hr := H). destruct Hr as [Hk Ht _ ND _]. cbn in Ht. on_split_in Ht.
  destruct Ht as (_ & _ & (Hd & Hb) & Ha). cbn in Hx, Hy.
  unfold rb_rotate_right.
  apply wp_bind. eapply wp_load; [exact Hx|]. cbn [rb_left].
  apply wp_bind. eapply wp_load; [exact Hy|]. cbn [rb_right].
  apply wp_bind. eapply wp_store; [exact Hx|].
  eapply (wp_rotate_tail s k b x y); [nodup_solve|exact Hk|exact Hb|exact Hy|done|]. apply HQ.
  eapply rep_rotated; [exact H|done|done|cbn; by rewrite <-app_assoc|nodup_solve|set_solver|].
  cbn -[rotated]. on_split. cbn [fst snd]. edestruct (rotated_xy k b x y) as [-> ->]; [nodup_solve|].
  split_and!; [done|apply rotated_cells; [nodup_solve|done]|done|apply rotated_inner; [nodup_solve|done]|
    apply rotated_cells; [nodup_solve|done]].
Qed.
End Rules.

(** ** The invariant, for trees and for contexts *)

Fixpoint rb (t : tree) (n : nat) : Prop :=
  match t with
  | Leaf => n = O
  | Node RB_RED l _ r => tree_color l = RB_BLACK /\ tree_color r = RB_BLACK /\ rb l n /\ rb r n
  | Node RB_BLACK l _ r => match n with O => False | S n => rb l n /\ rb r n end
  end.

Definition rb_tree (t : tree) : Prop := tree_color t = RB_BLACK /\ exists n, rb t n.

Definition fcolor (f : frame) : rb_color := match f with InLeft c _ _ => c | InRight c _ _ => c end.

(** The hole's parent is black. *)
Definition hole_red (k : ctx) : Prop := match k with [] => False | f :: _ => fcolor f = RB_BLACK end.

(** The context keeps the invariant when a tree of black height [n] fills it. *)
Fixpoint rbk (k : ctx) (n : nat) : Prop :=
  match k with
  | [] => True
  | f :: k =>
      rb (fsib f) n /\
      match fcolor f with
      | RB_RED => tree_color (fsib f) = RB_BLACK /\ hole_red k /\ rbk k n
      | RB_BLACK => rbk k (S n)
      end
  end.

Lemma rb_plug k t n :
  rbk k n -> rb t n -> (tree_color t = RB_RED -> hole_red k) -> rb_tree (plug k t).
Proof.
  revert t n. induction k as [|f k IH]; intros t n Hk Ht Hc; cbn in *.
  - split; [|eauto]. destruct (tree_color t); [by destruct Hc|done].
  - destruct Hk as [Hs Hk]. destruct f as [c x r|c l x], c; cbn in *.
    + destruct Hk as (? & ? & ?). apply (IH _ n); cbn; try done. split_and!; try done.
      destruct (tree_color t); [by specialize (Hc eq_refl)|done].
    + apply (IH _ (S n)); cbn; done.
    + destruct Hk as (? & ? & ?). apply (IH _ n); cbn; try done. split_and!; try done.
      destruct (tree_color t); [by specialize (Hc eq_refl)|done].
    + apply (IH _ (S n)); cbn; done.
Qed.

Lemma rb_unplug k t :
  rb_tree (plug k t) -> exists n, rb t n /\ rbk k n /\ (tree_color t = RB_RED -> hole_red k).
Proof.
  revert t. induction k as [|f k IH]; intros t H; cbn in *.
  - destruct H as [Hc [n Hn]]. exists n. by rewrite Hc.
  - apply IH in H as (n & Hf & Hk & Hc). destruct f as [c x r|c l x], c; cbn in *.
    + destruct Hf as (-> & ? & ? & ?). exists n. by rewrite H in *; split_and!; auto.
    + destruct n as [|n]; [done|]. destruct Hf. exists n. by split_and!.
    + destruct Hf as (? & -> & ? & ?). exists n. by rewrite H in *; split_and!; auto.
    + destruct n as [|n]; [done|]. destruct Hf. exists n. by split_and!.
Qed.

(** Recolouring the root black never hurts. *)
Lemma rb_recolor t n : rb t n -> exists m, rb (recolor RB_BLACK t) m.
Proof. destruct t as [|[] l x r]; cbn; [by exists O|intros (?&?&?&?); by exists (S n)|by exists n]. Qed.

(** ** Refocusing *)

Lemma rep_refocus F s k t k' t' : rep F s k t -> plug k t = plug k' t' -> rep F s k' t'.
Proof. intros H E. apply rep_plug. rewrite <-E. by apply rep_plug. Qed.

Lemma kroot_in k q : k <> [] -> exists a, kroot k q = Some a /\ (a ∈ before k \/ a ∈ after k).
Proof.
  revert q. induction k as [|f k IH]; intros q Hk; [done|]. cbn. destruct k as [|g k].
  - exists (faddr f). destruct f; cbn; set_solver.
  - destruct (IH (Some (faddr f)) ltac:(done)) as (a & E & H). exists a. rewrite E. split; [done|].
    destruct f; cbn in *; set_solver.
Qed.

Lemma focus_not_root F s k c l x r :
  rep F s k (Node c l x r) -> k <> [] -> rb_root s <> Some x.
Proof.
  intros [_ _ -> ND _] Hk. destruct (kroot_in k (root_ptr (Node c l x r)) Hk) as (a & -> & Ha).
  intros [= ->]. destruct Ha; nodup_solve.
Qed.

Lemma focus_root_eqb F s f k c l x r :
  rep F s (f :: k) (Node c l x r) -> ptr_eqb (Some x) (rb_root s) = false.
Proof. intros H. apply bool_decide_eq_false_2. intros E. by eapply focus_not_root. Qed.

(** Moving the focus, and one step of the program, in hypothesis [H]. *)
Ltac go_up H := rewrite <-rep_fill in H; cbn [fill] in H.
Ltac go_left H := rewrite rep_left in H.
Ltac go_right H := rewrite rep_right in H.
Ltac step_ret := apply wp_bind; apply wp_ret; cbn.
Ltac step_load H := apply wp_bind; eapply wp_load_focus; [exact H|]; cbn.
Ltac step_color_of H := apply wp_bind; eapply (wp_color_of _ _ _ _ _ H); cbn.
Ltac step_by L H :=
  match type of H with
  | rep _ ?s _ _ =>
      let s' := fresh s in let H' := fresh H in
      first [apply wp_bind; eapply L; [exact H|] | eapply L; [exact H|]];
      intros s' H'; clear H; try clear s; rename H' into H; cbn
  end.
Ltac step_color H := step_by wp_set_color H.
Ltac step_recolor H := step_by wp_rb_set_color H.
Ltac step_rotl H := step_by wp_rotate_left H.
Ltac step_rotr H := step_by wp_rotate_right H.

(** A right child is not its parent's left child. *)
Lemma right_not_left F s k c l x r : rep F s (InRight c l x :: k) r -> r <> Leaf -> ptr_eqb (root_ptr r) (root_ptr l) = false.
Proof.
  intros [_ _ _ ND _] Hr. apply bool_decide_eq_false_2. destruct r as [|cr lr xr rr]; [done|].
  destruct l as [|cl ll xl rl]; [done|]. cbn [root_ptr before] in *. intros [= ->].
  rewrite <-!app_assoc in ND. apply NoDup_app in ND as (_ & _ & ND). apply NoDup_app in ND as (_ & Hd & _).
  apply (Hd xl); cbn; set_solver +.
Qed.

Lemma left_not_right F s k c l x r : rep F s (InLeft c x r :: k) l -> l <> Leaf -> ptr_eqb (root_ptr l) (root_ptr r) = false.
Proof.
  intros [_ _ _ ND _] Hl. apply bool_decide_eq_false_2. destruct l as [|cl ll xl rl]; [done|].
  destruct r as [|cr lr xr rr]; [done|]. cbn [root_ptr after] in *. intros [= ->].
  apply NoDup_app in ND as (_ & _ & ND). apply NoDup_app in ND as (_ & Hd & _).
  apply (Hd xr); cbn; set_solver +.
Qed.

Lemma ptr_eqb_refl p : ptr_eqb p p = true.
Proof. by apply bool_decide_eq_true_2. Qed.

Ltac rb_done := cbn in *; repeat match goal with H : _ /\ _ |- _ => destruct H end; subst;
  repeat match goal with |- _ /\ _ => split end; try done; try congruence.

Ltac app_done := repeat (progress (cbn; rewrite <-?app_assoc)); done.

(** ** The insertion loop *)

Section Insert.
Context (F : gmap addr rb_node).

(** What the loop leaves: a tree with the same sequence that is red-black once
    its root is black. *)
Definition inserted (es : list addr) (s : rb_state) : Prop :=
  exists t, rep F s [] t /\ elems t = es /\ t <> Leaf /\ exists n, rb (recolor RB_BLACK t) n.

Lemma inserted_plug s k t n :
  rep F s k t -> t <> Leaf -> rbk k n -> rb t n -> (tree_color t = RB_RED -> hole_red k) ->
  inserted (before k ++ elems t ++ after k) s.
Proof.
  intros Hr Hne Hk Ht Hc. exists (plug k t). rewrite rep_plug, elems_plug. split_and!; [done|done| |].
  - intros E. apply (f_equal elems) in E. rewrite elems_plug in E. cbn in E.
    apply app_eq_nil in E as [_ E]. apply app_eq_nil in E as [E _]. destruct t as [|? l ? ?]; [by destruct Hne|]. cbn in E. by destruct (elems l).
  - destruct (rb_plug k t n Hk Ht Hc) as [_ [m Hm]]. by eapply rb_recolor.
Qed.

(** The loop stops at the root and below a black node. *)
Lemma insert_loop_root fuel s c l x r :
  rep F s [] (Node c l x r) -> insert_loop (S fuel) (Some x) s = Some (tt, s).
Proof.
  intros H. cbn. unfold mbind, rbM_bind, get_root. rewrite (rep_root _ _ _ _ H). cbn. by rewrite ptr_eqb_refl.
Qed.

Lemma insert_loop_black fuel s f k c l x r Q :
  rep F s (f :: k) (Node c l x r) -> fcolor f = RB_BLACK -> Q tt s ->
  wp (insert_loop (S fuel) (Some x)) s Q.
Proof.
  intros H Hf HQ. cbn. apply wp_bind, wp_root. rewrite (focus_root_eqb _ _ _ _ _ _ _ _ H).
  apply wp_bind. eapply wp_load_focus; [exact H|]. cbn.
  rewrite <-rep_fill in H. destruct f as [c' y r'|c' l' y]; cbn in *; subst;
    (apply wp_bind; eapply wp_load_focus; [exact H|]; cbn; by apply wp_ret).
Qed.

Abbreviation red l x r := (Node RB_RED l x r).

(** The state before the loop looks at the uncle, on either side. *)
Definition ready (k : ctx) (l : tree) (x : addr) (r : tree) (n : nat) : Prop :=
  rbk k n /\ rb l n /\ rb r n /\ tree_color l = RB_BLACK /\ tree_color r = RB_BLACK.

Lemma insert_loop_flip_l fuel s f g u k l x r Q :
  rep F s (f :: InLeft RB_BLACK g u :: k) (red l x r) -> fcolor f = RB_RED -> tree_color u = RB_RED ->
  (forall s', rep F s' k (red (recolor RB_BLACK (fill f (red l x r))) g (recolor RB_BLACK u)) ->
     wp (insert_loop fuel (Some g)) s' Q) ->
  wp (insert_loop (S fuel) (Some x)) s Q.
Proof.
  intros H Hf Hu HQ. cbn. apply wp_bind, wp_root. rewrite (focus_root_eqb _ _ _ _ _ _ _ _ H).
  step_load H. destruct u as [|? ul ux ur]; [done|]. cbn in Hu. subst.
  go_up H. destruct f as [c y z|c z y]; cbn in Hf; subst; cbn in H;
    (step_load H; go_up H; step_load H; rewrite ptr_eqb_refl;
     go_right H; step_color_of H; go_up H; go_left H; step_color H; go_up H; go_right H; step_color H;
     go_up H; step_color H; apply HQ; exact H).
Qed.

Lemma insert_loop_flip_r fuel s f g u k l x r Q :
  rep F s (f :: InRight RB_BLACK u g :: k) (red l x r) -> fcolor f = RB_RED -> tree_color u = RB_RED ->
  (forall s', rep F s' k (red (recolor RB_BLACK u) g (recolor RB_BLACK (fill f (red l x r)))) ->
     wp (insert_loop fuel (Some g)) s' Q) ->
  wp (insert_loop (S fuel) (Some x)) s Q.
Proof.
  intros H Hf Hu HQ. cbn. apply wp_bind, wp_root. rewrite (focus_root_eqb _ _ _ _ _ _ _ _ H).
  step_load H. destruct u as [|? ul ux ur]; [done|]. cbn in Hu. subst.
  go_up H. pose proof (right_not_left _ _ _ _ _ _ _ H) as Hne.
  destruct f as [c y z|c z y]; cbn in Hf; subst; cbn in H, Hne;
    (step_load H; go_up H; step_load H; rewrite Hne by done;
     go_left H; step_color_of H; go_up H; go_right H; step_color H; go_up H; go_left H; step_color H;
     go_up H; step_color H; apply HQ; exact H).
Qed.

(** The rotation cases end the loop. *)
Lemma insert_loop_outer_l fuel s p b g u k l x r Q :
  rep F s (InLeft RB_RED p b :: InLeft RB_BLACK g u :: k) (red l x r) -> tree_color u = RB_BLACK ->
  (forall s', rep F s' k (Node RB_BLACK (red l x r) p (red b g u)) -> Q tt s') ->
  wp (insert_loop (S (S fuel)) (Some x)) s Q.
Proof.
  intros H Hu HQ. pose proof (left_not_right _ _ _ _ _ _ _ H) as Hne.
  cbn -[insert_loop]. unfold insert_loop at 1; fold insert_loop.
  apply wp_bind, wp_root. rewrite (focus_root_eqb _ _ _ _ _ _ _ _ H).
  step_load H. go_up H. step_load H. go_up H. step_load H. rewrite ptr_eqb_refl.
  go_right H. step_color_of H. rewrite Hu. cbn in Hne. rewrite Hne by done. step_ret.
  go_up H. go_left H. step_color H. go_up H. step_color H. step_rotr H.
  go_left H. eapply insert_loop_black; [exact H|done|]. go_up H. by apply HQ.
Qed.

Lemma insert_loop_inner_l fuel s p b g u k l x r Q :
  rep F s (InRight RB_RED b p :: InLeft RB_BLACK g u :: k) (red l x r) -> tree_color u = RB_BLACK ->
  (forall s', rep F s' k (Node RB_BLACK (red b p l) x (red r g u)) -> Q tt s') ->
  wp (insert_loop (S (S fuel)) (Some x)) s Q.
Proof.
  intros H Hu HQ. unfold insert_loop at 1; fold insert_loop.
  apply wp_bind, wp_root. rewrite (focus_root_eqb _ _ _ _ _ _ _ _ H).
  step_load H. go_up H. step_load H. go_up H. step_load H. rewrite ptr_eqb_refl.
  go_right H. step_color_of H. rewrite Hu, ptr_eqb_refl. go_up H. go_left H.
  apply wp_bind. step_rotl H. go_left H. step_load H. go_up H. step_load H. apply wp_ret.
  step_color H. go_up H. step_color H. step_rotr H.
  go_left H. eapply insert_loop_black; [exact H|done|]. go_up H. by apply HQ.
Qed.

Lemma insert_loop_outer_r fuel s p b g u k l x r Q :
  rep F s (InRight RB_RED b p :: InRight RB_BLACK u g :: k) (red l x r) -> tree_color u = RB_BLACK ->
  (forall s', rep F s' k (Node RB_BLACK (red u g b) p (red l x r)) -> Q tt s') ->
  wp (insert_loop (S (S fuel)) (Some x)) s Q.
Proof.
  intros H Hu HQ. pose proof (right_not_left _ _ _ _ _ _ _ H) as Hne.
  unfold insert_loop at 1; fold insert_loop.
  apply wp_bind, wp_root. rewrite (focus_root_eqb _ _ _ _ _ _ _ _ H).
  step_load H. go_up H. pose proof (right_not_left _ _ _ _ _ _ _ H) as Hne'. cbn in Hne'.
  step_load H. go_up H. step_load H. rewrite Hne' by done.
  go_left H. step_color_of H. rewrite Hu. cbn in Hne. rewrite Hne by done. step_ret.
  go_up H. go_right H. step_color H. go_up H. step_color H. step_rotl H.
  go_right H. eapply insert_loop_black; [exact H|done|]. go_up H. by apply HQ.
Qed.

Lemma insert_loop_inner_r fuel s p b g u k l x r Q :
  rep F s (InLeft RB_RED p b :: InRight RB_BLACK u g :: k) (red l x r) -> tree_color u = RB_BLACK ->
  (forall s', rep F s' k (Node RB_BLACK (red u g l) x (red r p b)) -> Q tt s') ->
  wp (insert_loop (S (S fuel)) (Some x)) s Q.
Proof.
  intros H Hu HQ. unfold insert_loop at 1; fold insert_loop.
  apply wp_bind, wp_root. rewrite (focus_root_eqb _ _ _ _ _ _ _ _ H).
  step_load H. go_up H. pose proof (right_not_left _ _ _ _ _ _ _ H) as Hne'. cbn in Hne'.
  step_load H. go_up H. step_load H. rewrite Hne' by done.
  go_left H. step_color_of H. rewrite Hu, ptr_eqb_refl. go_up H. go_right H.
  apply wp_bind. step_rotr H. go_right H. step_load H. go_up H. step_load H. apply wp_ret.
  step_color H. go_up H. step_color H. step_rotl H.
  go_right H. eapply insert_loop_black; [exact H|done|]. go_up H. by apply HQ.
Qed.

Lemma inserted_at (Q : unit -> rb_state -> Prop) s k t n es :
  (forall s', inserted es s' -> Q tt s') ->
  rep F s k t -> t <> Leaf -> rbk k n -> rb t n -> (tree_color t = RB_RED -> hole_red k) ->
  es = before k ++ elems t ++ after k -> Q tt s.
Proof. intros HQ H Hne Hk Ht Hc ->. apply HQ. by eapply inserted_plug. Qed.

Lemma inserted_eq es es' s : inserted es s -> es = es' -> inserted es' s.
Proof. by intros ? <-. Qed.

Lemma insert_loop_ok fuel s k l x r n Q :
  (length k < fuel)%nat -> rep F s k (red l x r) -> ready k l x r n ->
  (forall s', inserted (before k ++ elems (red l x r) ++ after k) s' -> Q tt s') ->
  wp (insert_loop fuel (Some x)) s Q.
Proof.
  revert s k l x r n Q. induction fuel as [fuel IH] using lt_wf_ind. intros s k l x r n Q Hf H R HQ.
  destruct fuel as [|fuel]; [lia|]. destruct k as [|f k].
  { exists tt, s. split; [by eapply insert_loop_root|]. apply HQ. exists (red l x r).
    cbn. rewrite app_nil_r. split_and!; [done|done|done|]. exists (S n). destruct R as (_ & ? & ? & _). done. }
  destruct (fcolor f) eqn:Ef; cycle 1.
  { eapply insert_loop_black; [exact H|exact Ef|]. destruct R as (Hk & Hl & Hr & Cl & Cr).
    eapply (inserted_at _ _ _ _ n); [exact HQ|exact H|done|done|by cbn|by intros|done]. }
  destruct R as (Hk & Hl & Hr & Cl & Cr). cbn in Hk. rewrite Ef in Hk. destruct Hk as (Hs & Cs & Hg & Hk).
  destruct k as [|g k]; [done|]. cbn in Hg, Hk. rewrite Hg in Hk. destruct Hk as [Hu Hk]. cbn in Hf.
  destruct (tree_color (fsib g)) eqn:Eu.
  - assert (exists u', fsib g = u' /\ rb (recolor RB_BLACK u') (S n) /\ tree_color (recolor RB_BLACK u') = RB_BLACK
              /\ elems (recolor RB_BLACK u') = elems u') as (u' & E' & Hu' & Cu' & Eu').
    { exists (fsib g). destruct (fsib g) as [|[] ul ux ur]; rb_done. }
    destruct g as [c y u|c u y]; cbn in Hg, E', Eu; subst c; subst u;
      [eapply insert_loop_flip_l|eapply insert_loop_flip_r]; [exact H|exact Ef|exact Eu| |exact H|exact Ef|exact Eu| ];
      intros s' H'; (eapply (IH fuel ltac:(lia) s' k) with (n := S n); [lia|exact H'| |]);
      [unfold ready; split_and!; try done; destruct f as [c z b|c b z]; cbn in *; rb_done| |
       unfold ready; split_and!; try done; destruct f as [c z b|c b z]; cbn in *; rb_done|];
      (intros s'' Hi; apply HQ; eapply inserted_eq; [exact Hi|]; cbn; rewrite Eu';
       destruct f as [c z b|c b z]; app_done).
  - destruct fuel as [|fuel]; [lia|].
    destruct g as [c y u|c u y], f as [c' z b|c' b z]; cbn in Hg, Ef, Eu, Hs, Cs, Hu; subst c c';
      [eapply insert_loop_outer_l|eapply insert_loop_inner_l|eapply insert_loop_inner_r|eapply insert_loop_outer_r];
      first [exact H|exact Eu|intros s' H'];
      (eapply (inserted_at _ _ _ _ (S n)); [exact HQ|exact H'|done|exact Hk|cbn; rb_done|done|app_done]).
Qed.
End Insert.

(** ** Linking and colouring *)

(** The link of a hole. *)
Definition klink (k : ctx) : rb_link :=
  match k with
  | [] => LinkRoot
  | InLeft _ y _ :: _ => LinkLeft y
  | InRight _ _ y :: _ => LinkRight y
  end.

Section Link.
Context (F : gmap addr rb_node).

Lemma wp_store_link s k q q' Q :
  on (rb_heap s) (kcells k q) -> Q tt (link k q' s) -> wp (store_link (klink k) q') s Q.
Proof.
  destruct k as [|[c y r|c l y] k]; cbn; [by eexists _, _| |]; rewrite on_cons; intros [Hy _] HQ;
    (eapply wp_store; [exact Hy|exact HQ]).
Qed.

Lemma wp_link_node s k x Q :
  rep F s k Leaf -> x ∉ before k -> x ∉ after k -> is_Some (rb_heap s !! x) ->
  (forall s', rep F s' k (Node RB_RED Leaf x Leaf) -> Q tt s') ->
  wp (rb_link_node (Some x) (up k) (klink k)) s Q.
Proof.
  intros [Hk _ Hr ND Hrest] Hb Ha [n0 Hx] HQ. cbn in *.
  assert (ND' : NoDup (x :: before k ++ after k)) by (by rewrite NoDup_cons, elem_of_app; split; [tauto|]).
  apply wp_bind. eapply wp_store; [exact Hx|].
  eapply wp_store_link; [cbn; apply on_kcells; [nodup_solve..|exact Hk]|]. apply HQ. split.
  - eapply on_link; [nodup_solve|]. cbn. apply on_kcells; [nodup_solve..|exact Hk].
  - cbn. on_split. split; [|by constructor]. cbn. rewrite link_ne by nodup_solve. cbn. by rewrite lookup_insert_eq.
  - cbn. apply (link_root k None). exact Hr.
  - cbn. rewrite <-Permutation_middle. by rewrite NoDup_cons, elem_of_app; split; [tauto|].
  - cbn. intros a Ha'. rewrite link_ne by set_solver. cbn. rewrite lookup_insert_ne by set_solver. apply Hrest. set_solver.
Qed.

Lemma wp_insert_color fuel s k x Q :
  (length k < fuel)%nat -> rep F s k (Node RB_RED Leaf x Leaf) -> rb_tree (plug k Leaf) ->
  (forall s' t', rep F s' [] t' -> rb_tree t' -> elems t' = before k ++ x :: after k -> Q tt s') ->
  wp (rb_insert_color fuel (Some x)) s Q.
Proof.
  intros Hf H Hrb HQ. apply rb_unplug in Hrb as (n & Hn & Hk & _). cbn in Hn. subst n.
  apply wp_bind. eapply (insert_loop_ok F fuel s k Leaf x Leaf 0); [done|exact H|by split_and!|].
  intros s' (t & Ht & He & Hne & m & Hm). apply wp_bind, wp_root.
  rewrite (rep_root _ _ _ _ Ht). destruct t as [|c l y r]; [done|]. cbn.
  eapply wp_set_color; [exact Ht|]. intros s'' H'. eapply HQ; [exact H'| |exact He].
  split; [done|]. by exists m.
Qed.
End Link.

(** ** Height *)

Fixpoint depth (t : tree) : nat :=
  match t with Leaf => O | Node _ l _ r => S (Nat.max (depth l) (depth r)) end.

Lemma rb_size t n : rb t n -> (2 ^ n <= S (length (elems t)))%nat.
Proof.
  revert n. induction t as [|[] l IHl x r IHr]; intros n; cbn; [intros ->; done| |].
  - intros (_ & _ & Hl & Hr). rewrite length_app. cbn. apply IHl in Hl. lia.
  - destruct n as [|n]; [done|]. intros [Hl Hr]. rewrite length_app. cbn. apply IHl in Hl. apply IHr in Hr. lia.
Qed.

Lemma rb_depth t n : rb t n -> (depth t <= 2 * n + match tree_color t with RB_RED => 1 | RB_BLACK => 0 end)%nat.
Proof.
  revert n. induction t as [|[] l IHl x r IHr]; intros n; cbn; [lia| |].
  - intros (Cl & Cr & Hl & Hr). apply IHl in Hl. apply IHr in Hr. rewrite Cl in Hl. rewrite Cr in Hr. lia.
  - destruct n as [|n]; [done|]. intros [Hl Hr]. apply IHl in Hl. apply IHr in Hr.
    destruct (tree_color l), (tree_color r); lia.
Qed.

Lemma rb_tree_depth t : rb_tree t -> (depth t <= 2 * Nat.log2 (S (length (elems t))))%nat.
Proof.
  intros [Hc [n Hn]]. pose proof (rb_depth t n Hn) as Hd. rewrite Hc in Hd.
  pose proof (rb_size t n Hn) as Hs. apply Nat.log2_le_mono in Hs. rewrite Nat.log2_pow2 in Hs by lia. lia.
Qed.

Lemma depth_plug k t : (length k + depth t <= depth (plug k t))%nat.
Proof.
  revert t. induction k as [|f k IH]; intros t; cbn; [lia|]. specialize (IH (fill f t)). destruct f; cbn in *; lia.
Qed.

(** What bounds every loop over a tree of [n] nodes. *)
Definition tree_fuel (n : nat) : nat := 2 * Nat.log2 (S n) + 1.

Lemma tree_fuel_mono n m : (n <= m)%nat -> (tree_fuel n <= tree_fuel m)%nat.
Proof. intros. unfold tree_fuel. pose proof (Nat.log2_le_mono (S n) (S m) ltac:(lia)). lia. Qed.

Lemma plug_fuel k t : rb_tree (plug k t) -> (length k + depth t < tree_fuel (length (before k ++ elems t ++ after k)))%nat.
Proof.
  intros H. apply rb_tree_depth in H. pose proof (depth_plug k t). rewrite elems_plug in H. unfold tree_fuel. lia.
Qed.
