(* ===== verification/RbtreeErase.v ===== *)
(** * Erasing from the red-black tree

    rb_erase removes one node, keeps the order of the others and restores the
    invariant: the loop of rb_erase_fixup carries a subtree that is one black
    node short. *)

From stdpp Require Import gmap.
From S2P Require Import Prelude Rbtree RbtreeFacts.

(** A subtree that blackening makes one black node higher than [n], or that is
    black and of height [n]. *)
Definition short (t : tree) (n : nat) : Prop :=
  match t with
  | Node RB_RED l _ r => rb l n /\ rb r n
  | _ => rb t n
  end.

Section Erase.
Context (F : gmap addr rb_node).

(** What the loop returns: the subtree whose root is to be blackened. *)
Definition fixed (es : list addr) (p : ptr) (s : rb_state) : Prop :=
  exists k t, rep F s k t /\ p = root_ptr t /\ rb_tree (plug k (recolor RB_BLACK t)) /\
              before k ++ elems t ++ after k = es.

Lemma fixed_eq es es' p s : fixed es p s -> es = es' -> fixed es' p s.
Proof. by intros ? <-. Qed.

Lemma recolor_black t : rb_tree t -> recolor RB_BLACK t = t.
Proof. destruct t as [|c l x r]; cbn; [done|]. intros [Hc _]. cbn in Hc. by rewrite Hc. Qed.

Lemma root_not_null s f k : rep F s (f :: k) Leaf -> ptr_eqb None (rb_root s) = false.
Proof.
  intros [_ _ -> _ _]. destruct (kroot_in (f :: k) None ltac:(done)) as (a & E & _). cbn in *. by rewrite E.
Qed.

(** The loop stops at the root and at a red node. *)
Lemma erase_loop_root fuel s t parent Q :
  rep F s [] t -> Q (root_ptr t) s -> wp (erase_loop (S fuel) (root_ptr t) parent) s Q.
Proof.
  intros H HQ. cbn. apply wp_bind, wp_root. step_color_of H. rewrite (rep_root _ _ _ _ H). cbn.
  rewrite ptr_eqb_refl. by apply wp_ret.
Qed.

Lemma erase_loop_red fuel s k l x r parent Q :
  rep F s k (Node RB_RED l x r) -> Q (Some x) s -> wp (erase_loop (S fuel) (Some x) parent) s Q.
Proof.
  intros H HQ. cbn -[rb_color_of]. apply wp_bind, wp_root. step_color_of H. rewrite orb_true_r. by apply wp_ret.
Qed.

(** Leaving the loop through the root. *)
Definition exits (loop : ptr -> ptr -> rbM ptr) : Prop :=
  forall s t (Q : ptr -> rb_state -> Prop), rep F s [] t -> Q (root_ptr t) s -> wp (loop (root_ptr t) None) s Q.

Lemma loop_done loop s k t n es (Q : ptr -> rb_state -> Prop) :
  exits loop -> (forall p s', fixed es p s' -> Q p s') ->
  rep F s k t -> rbk k n -> rb t n -> (tree_color t = RB_RED -> hole_red k) ->
  es = before k ++ elems t ++ after k ->
  wp (rt ← get_root; loop rt None) s Q.
Proof.
  intros Hx HQ H Hk Ht Hc ->. apply rep_plug in H. apply wp_bind, wp_root.
  rewrite (rep_root _ _ _ _ H). cbn [kroot]. eapply Hx; [exact H|].
  apply HQ. exists [], (plug k t). pose proof (rb_plug k t n Hk Ht Hc) as Hp. cbn.
  rewrite recolor_black by done. rewrite app_nil_r, elems_plug. done.
Qed.

(** The second half of an iteration, with a black sibling. *)
Lemma left_tail_ok loop s k c t p sl y sr n es Q :
  exits loop ->
  rep F s (InLeft c p (Node RB_BLACK sl y sr) :: k) t ->
  rb t n -> tree_color t = RB_BLACK ->
  rbk (InLeft c p (Node RB_BLACK sl y sr) :: k) (S n) ->
  es = before k ++ (elems t ++ p :: elems sl ++ y :: elems sr) ++ after k ->
  (forall q s', fixed es q s' -> Q q s') ->
  (forall s' t' n', rep F s' k t' -> short t' n' -> rbk k (S n') ->
     (tree_color t' = c) -> es = before k ++ elems t' ++ after k ->
     wp (loop (root_ptr t') (up k)) s' Q) ->
  wp (erase_left_tail loop (Some p) (Some y)) s Q.
Proof.
  intros Hx H Ht Ct Hk -> HQ Hup. unfold erase_left_tail. cbn [is_null].
  cbn in Hk. destruct Hk as [[Hsl Hsr] Hk].
  go_up H. go_right H. step_load H. go_left H. step_color_of H. go_up H. go_right H. step_color_of H. go_up H.
  destruct (bool_decide _ && _) eqn:E.
  - rewrite andb_true_iff, !bool_decide_eq_true in E. step_color H. go_up H. step_load H. eapply (Hup _ (Node c t p (Node RB_RED sl y sr)) (match c with RB_RED => n | RB_BLACK => S n end)); [exact H| | |done|].
    + destruct c; cbn; rb_done.
    + destruct c; rb_done.
    + app_done.
  - destruct (tree_color sr) eqn:Er.
    + step_ret. go_up H. step_load H. go_right H. step_color H. go_up H. step_color H. go_right H.
      step_load H. go_right H. step_recolor H. do 2 go_up H. step_rotl H.
      destruct sr as [|[] a z b]; [done| |done]. cbn in H, Hsr.
      eapply (loop_done _ _ _ _ (match c with RB_RED => S n | RB_BLACK => S (S n) end)); [exact Hx|exact HQ|exact H|..]; destruct c; cbn; rb_done; app_done.
    + destruct sl as [|[] a z b]; [by rewrite ?bool_decide_true in E| |by rewrite ?bool_decide_true in E].
      apply wp_bind. cbn [tree_color] in *. go_left H. step_recolor H. go_up H. step_color H. step_rotr H. go_up H.
      step_load H. apply wp_ret. step_load H. go_right H. step_color H. go_up H. step_color H. go_right H.
      step_load H. go_right H. step_color H. do 2 go_up H. step_rotl H.
      cbn in H, Hsl. eapply (loop_done _ _ _ _ (match c with RB_RED => S n | RB_BLACK => S (S n) end)); [exact Hx|exact HQ|exact H|..]; destruct c; cbn; rb_done; app_done.
Qed.

Lemma right_tail_ok loop s k c t p sl y sr n es Q :
  exits loop ->
  rep F s (InRight c (Node RB_BLACK sl y sr) p :: k) t ->
  rb t n -> tree_color t = RB_BLACK ->
  rbk (InRight c (Node RB_BLACK sl y sr) p :: k) (S n) ->
  es = before k ++ ((elems sl ++ y :: elems sr) ++ p :: elems t) ++ after k ->
  (forall q s', fixed es q s' -> Q q s') ->
  (forall s' t' n', rep F s' k t' -> short t' n' -> rbk k (S n') ->
     (tree_color t' = c) -> es = before k ++ elems t' ++ after k ->
     wp (loop (root_ptr t') (up k)) s' Q) ->
  wp (erase_right_tail loop (Some p) (Some y)) s Q.
Proof.
  intros Hx H Ht Ct Hk -> HQ Hup. unfold erase_right_tail. cbn [is_null].
  cbn in Hk. destruct Hk as [[Hsl Hsr] Hk].
  go_up H. go_left H. step_load H. go_right H. step_color_of H. go_up H. go_left H. step_color_of H. go_up H.
  destruct (bool_decide _ && _) eqn:E.
  - rewrite andb_true_iff, !bool_decide_eq_true in E. step_color H. go_up H. step_load H.
    eapply (Hup _ (Node c (Node RB_RED sl y sr) p t) (match c with RB_RED => n | RB_BLACK => S n end)); [exact H| | |done|].
    + destruct c; cbn; rb_done.
    + destruct c; rb_done.
    + app_done.
  - destruct (tree_color sl) eqn:El.
    + step_ret. go_up H. step_load H. go_left H. step_color H. go_up H. step_color H. go_left H.
      step_load H. go_left H. step_recolor H. do 2 go_up H. step_rotr H.
      destruct sl as [|[] a z b]; [done| |done]. cbn in H, Hsl.
      eapply (loop_done _ _ _ _ (match c with RB_RED => S n | RB_BLACK => S (S n) end)); [exact Hx|exact HQ|exact H|..]; destruct c; cbn; rb_done; app_done.
    + destruct sr as [|[] a z b]; [by rewrite ?bool_decide_true in E| |by rewrite ?bool_decide_true in E].
      apply wp_bind. cbn [tree_color] in *. go_right H. step_recolor H. go_up H. step_color H. step_rotl H. go_up H.
      step_load H. apply wp_ret. step_load H. go_left H. step_color H. go_up H. step_color H. go_left H.
      step_load H. go_left H. step_color H. do 2 go_up H. step_rotr H.
      cbn in H, Hsr. eapply (loop_done _ _ _ _ (match c with RB_RED => S n | RB_BLACK => S (S n) end)); [exact Hx|exact HQ|exact H|..]; destruct c; cbn; rb_done; app_done.
Qed.

Lemma fixed_at s k t es :
  rep F s k t -> rb_tree (plug k (recolor RB_BLACK t)) -> es = before k ++ elems t ++ after k ->
  fixed es (root_ptr t) s.
Proof. intros ? ? ->. by exists k, t. Qed.

Lemma exits_loop fuel : exits (erase_loop (S fuel)).
Proof. intros s t Q H HQ. by eapply erase_loop_root. Qed.

(** A red subtree ends the loop, to be blackened. *)
Lemma short_red fuel s k t n es (Q : ptr -> rb_state -> Prop) parent :
  rep F s k t -> tree_color t = RB_RED -> short t n -> rbk k (S n) -> es = before k ++ elems t ++ after k ->
  (forall p s', fixed es p s' -> Q p s') -> wp (erase_loop (S fuel) (root_ptr t) parent) s Q.
Proof.
  intros H Hc Hs Hk He HQ. destruct t as [|[] l x r]; [done| |done].
  eapply erase_loop_red; [exact H|]. apply HQ. eapply (fixed_at _ _ (Node RB_RED l x r)); [exact H| |exact He].
  by apply (rb_plug k _ (S n)).
Qed.

#[local] Arguments erase_loop : simpl never.
#[local] Arguments erase_left_tail : simpl never.
#[local] Arguments erase_right_tail : simpl never.

Lemma erase_loop_ok fuel s k t n Q :
  (length k < fuel)%nat -> rep F s k t -> short t n -> rbk k (S n) ->
  (forall p s', fixed (before k ++ elems t ++ after k) p s' -> Q p s') ->
  wp (erase_loop fuel (root_ptr t) (up k)) s Q.
Proof.
  revert s k t n Q. induction fuel as [|fuel IH]; intros s k t n Q Hf H Hs Hk HQ; [lia|].
  destruct k as [|f k].
  { eapply erase_loop_root; [exact H|]. apply HQ. eapply (fixed_at _ []); [exact H| |done].
    destruct t as [|[] l x r]; cbn in *; (split; [done|]); [by exists n|by exists (S n)|by exists n]. }
  destruct (tree_color t) eqn:Ct; [by eapply short_red|].
  assert (Ht : rb t n) by (destruct t as [|[] l x r]; done).
  destruct fuel as [|fuel]; [cbn in Hf; lia|]. cbn in Hf.
  assert (Hrt : ptr_eqb (root_ptr t) (rb_root s) = false).
  { destruct t; [by eapply root_not_null|by eapply focus_root_eqb]. }
  unfold erase_loop at 1; fold erase_loop.
  apply wp_bind, wp_root. step_color_of H. rewrite Hrt, Ct. cbn [orb bool_decide].
  rewrite bool_decide_eq_false_2 by done.
  destruct f as [c p sb|c sb p]; destruct sb as [|cs sl y sr]; [by destruct Hk| |by destruct Hk|].
  - go_up H. step_load H. rewrite ptr_eqb_refl. go_right H. step_color_of H. go_up H. destruct cs.
    + cbn in Hk. destruct c; [by destruct Hk as (_ & ? & _)|]. destruct Hk as [(Cl & Cr & Hl & Hr) Hk].
      apply wp_bind. go_right H. step_color H. go_up H. step_color H. step_rotl H. go_left H. step_load H.
      apply wp_ret. destruct sl as [|[] sll z slr]; [done|done|]. cbn in Hl. go_left H.
      eapply (left_tail_ok _ _ _ _ t p sll z slr n); [apply exits_loop|exact H|done|done|cbn; rb_done|done| |].
      * intros q s' Hq. apply HQ. eapply fixed_eq; [exact Hq|]. app_done.
      * intros s' t' n' H' Hs' Hk' Hc' He'. eapply short_red; [exact H'|done|exact Hs'|exact Hk'|exact He'|].
        intros q s'' Hq. apply HQ. eapply fixed_eq; [exact Hq|]. app_done.
    + step_ret. go_left H. eapply (left_tail_ok _ _ _ _ t p sl y sr n); [apply exits_loop|exact H|done|done|exact Hk|done| |].
      * intros q s' Hq. apply HQ. eapply fixed_eq; [exact Hq|]. app_done.
      * intros s' t' n' H' Hs' Hk' Hc' He'. eapply IH; [lia|exact H'|exact Hs'|exact Hk'|]. rewrite <-He'.
        intros q s'' Hq. apply HQ. eapply fixed_eq; [exact Hq|]. app_done.
  - assert (Hne : ptr_eqb (root_ptr t) (Some y) = false).
    { destruct t as [|? ? x ?]; [done|]. by apply (right_not_left _ _ _ _ (Node cs sl y sr) _ _ H). }
    go_up H. step_load H. rewrite Hne. go_left H. step_color_of H. go_up H. destruct cs.
    + cbn in Hk. destruct c; [by destruct Hk as (_ & ? & _)|]. destruct Hk as [(Cl & Cr & Hl & Hr) Hk].
      apply wp_bind. go_left H. step_color H. go_up H. step_color H. step_rotr H. go_right H. step_load H.
      apply wp_ret. destruct sr as [|[] srl z srr]; [done|done|]. cbn in Hr. go_right H.
      eapply (right_tail_ok _ _ _ _ t p srl z srr n); [apply exits_loop|exact H|done|done|cbn; rb_done|done| |].
      * intros q s' Hq. apply HQ. eapply fixed_eq; [exact Hq|]. app_done.
      * intros s' t' n' H' Hs' Hk' Hc' He'. eapply short_red; [exact H'|done|exact Hs'|exact Hk'|exact He'|].
        intros q s'' Hq. apply HQ. eapply fixed_eq; [exact Hq|]. app_done.
    + step_ret. go_right H. eapply (right_tail_ok _ _ _ _ t p sl y sr n); [apply exits_loop|exact H|done|done|exact Hk|done| |].
      * intros q s' Hq. apply HQ. eapply fixed_eq; [exact Hq|]. app_done.
      * intros s' t' n' H' Hs' Hk' Hc' He'. eapply IH; [lia|exact H'|exact Hs'|exact Hk'|]. rewrite <-He'.
        intros q s'' Hq. apply HQ. eapply fixed_eq; [exact Hq|]. app_done.
Qed.
End Erase.

(** ** rb_erase *)

Section EraseNode.
Context (F : gmap addr rb_node).

Lemma elems_recolor c t : elems (recolor c t) = elems t.
Proof. by destruct t. Qed.

Lemma erase_fixup_ok fuel s k t n Q :
  (length k < fuel)%nat -> rep F s k t -> short t n -> rbk k (S n) ->
  (forall s' t', rep F s' [] t' -> rb_tree t' -> elems t' = before k ++ elems t ++ after k -> Q tt s') ->
  wp (rb_erase_fixup fuel (root_ptr t) (up k)) s Q.
Proof.
  intros Hf H Hs Hk HQ. unfold rb_erase_fixup. apply wp_bind. eapply erase_loop_ok; [done|exact H|exact Hs|exact Hk|].
  intros p s' (k' & t' & H' & -> & Hrb & He). eapply wp_rb_set_color; [exact H'|]. intros s'' H''.
  apply rep_plug in H''. eapply HQ; [exact H''|exact Hrb|]. by rewrite elems_plug, elems_recolor.
Qed.

(** *** rb_transplant *)

Definition transplanted (k : ctx) (t : tree) (s : rb_state) : rb_state :=
  mk_rbs (reparent t (up k) (rb_heap (link k (root_ptr t) s))) (rb_root (link k (root_ptr t) s)).

Lemma wp_transplant s k t x n q Q :
  NoDup (x :: (before k ++ after k) ++ elems t) ->
  on (rb_heap s) (kcells k (Some x)) -> on (rb_heap s) (cells q t) ->
  rb_heap s !! x = Some n -> rb_parent n = up k ->
  Q tt (transplanted k t s) -> wp (rb_transplant (Some x) (root_ptr t)) s Q.
Proof.
  intros ND Hk Ht Hx Hp HQ. unfold rb_transplant. apply wp_bind.
  eapply (wp_replace_child _ k x n); [exact Hk|exact Hx|exact Hp|nodup_solve..|].
  destruct t as [|c l y r]; [apply wp_ret; revert HQ; unfold transplanted; cbn; by destruct (link k None s)|]. cbn [root_ptr is_null].
  apply wp_bind. eapply wp_load; [rewrite link_ne by nodup_solve; exact Hx|]. rewrite Hp.
  cbn in Ht. rewrite on_cons in Ht. destruct Ht as [Hy _].
  eapply wp_store; [rewrite link_ne by nodup_solve; exact Hy|exact HQ].
Qed.

Lemma transplanted_other k t s a : a ∉ before k -> a ∉ after k -> a ∉ elems t ->
  rb_heap (transplanted k t s) !! a = rb_heap s !! a.
Proof. intros. unfold transplanted. cbn. by rewrite reparent_ne, link_ne. Qed.

Lemma rep_transplanted s k t x n q (G : gmap addr rb_node) :
  NoDup (x :: (before k ++ after k) ++ elems t) ->
  on (rb_heap s) (kcells k (Some x)) -> on (rb_heap s) (cells q t) ->
  rb_root s = kroot k (Some x) -> NoDup (before k ++ elems t ++ after k) ->
  rb_heap s !! x = Some n ->
  (forall a, a <> x -> a ∉ before k ++ elems t ++ after k -> rb_heap s !! a = G !! a) ->
  rep (<[x := n]> G) (transplanted k t s) k t.
Proof.
  intros ND Hk Ht Hr ND' Hx Hrest. split; [| | |exact ND'|].
  - cbn. apply on_reparent_ne; [intros z; rewrite kcells_keys; nodup_solve|].
    eapply on_link; [nodup_solve|exact Hk].
  - cbn. eapply on_reparent; [nodup_solve|]. apply on_link_ne; [intros z; rewrite cells_keys; nodup_solve|exact Ht].
  - cbn. by apply (link_root k (Some x)).
  - intros a Ha. rewrite transplanted_other by set_solver. destruct (decide (a = x)) as [->|Hax].
    + by rewrite lookup_insert_eq.
    + rewrite lookup_insert_ne by done. by apply Hrest.
Qed.

(** The node has at most one child. *)
Lemma wp_transplant_child s k c l x r t Q :
  rep F s k (Node c l x r) -> (l = Leaf /\ t = r \/ r = Leaf /\ t = l) ->
  (forall s', rep (<[x := mk_rb (up k) (root_ptr l) (root_ptr r) c]> F) s' k t -> Q tt s') ->
  wp (rb_transplant (Some x) (root_ptr t)) s Q.
Proof.
  intros H Hone HQ. pose proof (rep_cell _ _ _ _ _ _ _ H) as Hx. destruct H as [Hk Ht Hr ND Hrest].
  assert (He : elems l ++ x :: elems r ≡ₚ x :: elems t).
  { destruct Hone as [[-> ->]|[-> ->]]; [done|]. cbn. by rewrite <-Permutation_middle, app_nil_r. }
  assert (Hs : on (rb_heap s) (cells (Some x) t)).
  { cbn in Ht. on_split_in Ht. destruct Hone as [[-> ->]|[-> ->]]; tauto. }
  cbn [elems] in ND.
  assert (ND' : NoDup (x :: (before k ++ after k) ++ elems t)).
  { rewrite He in ND. revert ND. apply NoDup_Permutation_proper. solve_Permutation. }
  assert (Hn : NoDup (before k ++ elems t ++ after k)) by (clear ND; nodup_solve).
  eapply (wp_transplant _ _ _ _ _ (Some x)); [exact ND'|exact Hk|exact Hs|exact Hx|done|]. apply HQ.
  eapply rep_transplanted; [exact ND'|exact Hk|exact Hs|exact Hr|exact Hn|exact Hx|].
  intros a Hax Ha. apply Hrest. cbn. rewrite He. set_solver.
Qed.

(** *** The successor takes the node's place *)

Lemma wp_take_place s k x m c cl ll y lr cm r q px G Q :
  let l := Node cl ll y lr in
  NoDup (x :: m :: (before k ++ after k) ++ elems l ++ elems r) ->
  on (rb_heap s) (kcells k (Some x)) -> on (rb_heap s) (cells (Some x) l) ->
  on (rb_heap s) (cells q (Node cm Leaf m r)) ->
  rb_heap s !! x = Some (mk_rb (up k) (root_ptr l) px c) -> rb_root s = kroot k (Some x) ->
  (forall a, a ∉ before k ++ (elems l ++ m :: elems r) ++ after k -> rb_heap s !! a = G !! a) ->
  (forall s', rep G s' k (Node c l m r) -> Q tt s') ->
  wp (rb_take_place (Some x) (Some m)) s Q.
Proof.
  intros l ND Hk Hl Hm Hx Hr Hrest HQ. unfold rb_take_place.
  assert (NDt : NoDup (x :: (before k ++ after k) ++ elems (Node cm Leaf m r))) by nodup_solve.
  apply wp_bind. eapply (wp_transplant s k (Node cm Leaf m r)); [exact NDt|exact Hk|exact Hm|exact Hx|done|].
  assert (H : rep (<[x := mk_rb (up k) (root_ptr l) px c]> (rb_heap s)) (transplanted k (Node cm Leaf m r) s) k (Node cm Leaf m r)).
  { eapply rep_transplanted; [exact NDt|exact Hk|exact Hm|exact Hr|nodup_solve|exact Hx|done]. }
  clear NDt.
  assert (Ho : forall a, a ∉ before k -> a ∉ after k -> a ∉ m :: elems r ->
            rb_heap (transplanted k (Node cm Leaf m r) s) !! a = rb_heap s !! a).
  { intros. by apply transplanted_other. }
  set (s1 := transplanted k _ s) in *. clearbody s1.
  assert (Hl1 : on (rb_heap s1) (cells (Some x) l)).
  { eapply on_agree; [|exact Hl]. intros a Ha. rewrite cells_keys in Ha. apply Ho; nodup_solve. }
  assert (Hl2 := Hl1). cbn in Hl2. on_split_in Hl2. destruct Hl2 as (Hy1 & Hll & Hlr). cbn in Hy1.
  assert (Hx1 : rb_heap s1 !! x = Some (mk_rb (up k) (root_ptr l) px c)) by (rewrite Ho by nodup_solve; exact Hx).
  assert (Hxm : x <> m) by nodup_solve. assert (Hym : y <> m) by nodup_solve. assert (Hyx : x <> y) by nodup_solve.
  pose proof (rep_cell _ _ _ _ _ _ _ H) as Hm1. destruct H as [Hk1 Ht1 Hr1 _ _]. cbn [cells] in Ht1. on_split_in Ht1.
  destruct Ht1 as (_ & _ & Hr'). cbn [root_ptr] in *.
  apply wp_bind. eapply wp_load; [exact Hx1|]. cbn [rb_left].
  apply wp_bind. eapply wp_store; [exact Hm1|]. cbn [rb_parent rb_left rb_right rb_col].
  apply wp_bind. eapply wp_load; [cbn; by rewrite lookup_insert_eq|]. cbn [rb_left root_ptr l].
  apply wp_bind. eapply wp_store; [cbn; rewrite lookup_insert_ne by done; exact Hy1|].
  cbn [rb_parent rb_left rb_right rb_col].
  apply wp_bind. eapply wp_load; [cbn; rewrite !lookup_insert_ne by done; exact Hx1|]. cbn [rb_col].
  eapply wp_store; [cbn; rewrite lookup_insert_ne by done; by rewrite lookup_insert_eq|]. cbn [rb_parent rb_left rb_right rb_col].
  apply HQ. split.
  - cbn -[insert]. repeat (apply on_kcells; [nodup_solve..|]). exact Hk1.
  - cbn -[insert]. on_split. cbn [fst snd]. rewrite lookup_insert_eq. split; [done|].
    rewrite lookup_insert_ne, lookup_insert_eq by done. split; [done|split; [split|]].
    + do 3 (apply on_cells; [nodup_solve|]). exact Hll.
    + do 3 (apply on_cells; [nodup_solve|]). exact Hlr.
    + do 3 (apply on_cells; [nodup_solve|]). exact Hr'.
  - exact Hr1.
  - cbn. nodup_solve.
  - intros a Ha. cbn -[insert]. rewrite !lookup_insert_ne by set_solver. rewrite Ho by set_solver. by apply Hrest.
Qed.

(** *** The leftmost node *)

Definition is_left (f : frame) : Prop := match f with InLeft _ _ _ => True | InRight _ _ _ => False end.
Definition is_right (f : frame) : Prop := match f with InLeft _ _ _ => False | InRight _ _ _ => True end.

Lemma plug_app k1 k2 t : plug (k1 ++ k2) t = plug k2 (plug k1 t).
Proof. revert t. induction k1; intros t; cbn; [done|]. by rewrite IHk1. Qed.

Lemma is_left_before k : Forall is_left k -> before k = [].
Proof. induction 1 as [|f k Hf _ IH]; [done|]. by destruct f; cbn in *. Qed.
Lemma is_right_after k : Forall is_right k -> after k = [].
Proof. induction 1 as [|f k Hf _ IH]; [done|]. by destruct f; cbn in *. Qed.

Lemma wp_minimum r fuel s k Q :
  rep F s k r -> r <> Leaf -> (depth r <= fuel)%nat ->
  (forall k1 c m rm, r = plug k1 (Node c Leaf m rm) -> Forall is_left k1 ->
     rep F s (k1 ++ k) (Node c Leaf m rm) -> Q (Some m) s) ->
  wp (rb_minimum fuel (root_ptr r)) s Q.
Proof.
  revert fuel k. induction r as [|c l IH x r _]; intros fuel k H Hne Hd HQ; [done|].
  cbn in Hd. destruct fuel as [|fuel]; [lia|]. cbn. step_load H. destruct l as [|cl ll y lr].
  - apply wp_ret. by apply (HQ [] c x r).
  - cbn [is_null root_ptr]. eapply (IH fuel (InLeft c x r :: k)); [by rewrite <-rep_left|done|lia|].
    intros k1 c' m rm E Hk1 H'. eapply (HQ (k1 ++ [InLeft c x r])).
    + rewrite plug_app. cbn. by rewrite <-E.
    + apply Forall_app. split; [done|]. by repeat constructor.
    + rewrite <-app_assoc. exact H'.
Qed.

(** Renaming the node of a frame does not change the balance. *)
Lemma rbk_rename k1 c l x m k n :
  rbk (k1 ++ InRight c l x :: k) n -> rbk (k1 ++ InRight c l m :: k) n.
Proof.
  revert n. induction k1 as [|f k1 IH]; intros n; [done|]. cbn. intros [Hs H]. split; [done|].
  destruct (fcolor f); [|by apply IH]. destruct H as (? & Hr & ?). split_and!; [done| |by apply IH].
  by destruct k1.
Qed.

Lemma hole_red_rename k1 c l x m k :
  hole_red (k1 ++ InRight c l x :: k) -> hole_red (k1 ++ InRight c l m :: k).
Proof. by destruct k1. Qed.

(** What removing a node with at most one child needs of the balance. *)
Lemma one_child c l x r t n :
  rb (Node c l x r) n -> (l = Leaf /\ t = r \/ r = Leaf /\ t = l) ->
  match c with RB_BLACK => n = 1%nat /\ short t 0 | RB_RED => n = O /\ t = Leaf end.
Proof.
  assert (H0 : forall t, rb t 0 -> tree_color t = RB_BLACK -> t = Leaf).
  { intros [|[] ? ? ?]; cbn; [done|done|done]. }
  assert (Hsh : forall t, rb t 0 -> short t 0).
  { intros [|[] ? ? ?]; cbn; [done|by intros (?&?&?&?)|done]. }
  destruct c; cbn.
  - intros (Cl & Cr & Hl & Hr) [[-> ->]|[-> ->]]; cbn in *; subst; auto.
  - destruct n as [|n]; [done|]. intros [Hl Hr] [[-> ->]|[-> ->]]; cbn in *; subst; auto.
Qed.

End EraseNode.

Section EraseTop.
Context (F : gmap addr rb_node).

(** The end of rb_erase: fix the balance, then detach the node. *)
Lemma wp_erase_finish fuel s k t c x n es Q :
  rep F s k t -> (length k < fuel)%nat -> rbk k n ->
  match c with RB_BLACK => n = 1%nat /\ short t 0 | RB_RED => n = O /\ t = Leaf end ->
  es = before k ++ elems t ++ after k -> x ∉ es -> is_Some (F !! x) ->
  (forall s' t', rep (<[x := mk_rb None None None RB_RED]> F) s' [] t' -> rb_tree t' -> elems t' = es -> Q tt s') ->
  wp ((match c with
       | RB_BLACK => rb_erase_fixup fuel (root_ptr t) (up k)
       | RB_RED => mret tt
       end);; rb_node_init (Some x)) s Q.
Proof.
  intros H Hf Hk Hc -> Hx [n0 Hn0] HQ.
  assert (Hinit : forall s' t', rep F s' [] t' -> rb_tree t' -> elems t' = before k ++ elems t ++ after k ->
            wp (rb_node_init (Some x)) s' Q).
  { intros s' t' [H1 H2 H3 H4 H5] Hrb He. cbn in *. rewrite app_nil_r, He in *.
    eapply wp_store; [by rewrite H5|]. eapply (HQ _ t'); [|exact Hrb|exact He]. split; cbn.
    - by constructor.
    - apply on_cells; [by rewrite He|exact H2].
    - exact H3.
    - by rewrite He, app_nil_r.
    - intros a Ha. rewrite He, app_nil_r in Ha. destruct (decide (a = x)) as [->|].
      + by rewrite !lookup_insert_eq.
      + rewrite !lookup_insert_ne by done. by apply H5. }
  apply wp_bind. destruct c.
  - destruct Hc as [-> ->]. apply wp_ret. eapply (Hinit s (plug k Leaf)); [by apply rep_plug| |by rewrite elems_plug].
    by apply (rb_plug k Leaf 0).
  - destruct Hc as [-> Hs]. eapply erase_fixup_ok; [done|exact H|exact Hs|exact Hk|exact Hinit].
Qed.

End EraseTop.

Section EraseWhole.
Context (F : gmap addr rb_node).

Lemma reparent_same h b p : on h (cells p b) -> reparent b p h = h.
Proof. destruct b; cbn; [done|]. rewrite on_cons. intros [H _]. by apply insert_id. Qed.

(** The two children case up to the moment the successor has taken the node's
    place: the successor was the right child itself ... *)
Lemma wp_successor_child s k c cl ll y lr x cm m rm Q :
  let l := Node cl ll y lr in
  let n := mk_rb (up k) (Some y) (Some m) c in
  rep F s k (Node c l x (Node cm Leaf m rm)) ->
  (forall s', rep (<[x := n]> F) s' k (Node c l m rm) -> Q tt s') ->
  wp ((if is_null (root_ptr rm) then mret tt else set_parent (root_ptr rm) (Some m));; mret (Some m)) s
     (fun p s' => p = Some m /\ wp (rb_take_place (Some x) (Some m)) s' Q).
Proof.
  intros l n H HQ. pose proof (rep_cell _ _ _ _ _ _ _ H) as Hx.
  destruct H as [Hk Ht Hr ND Hrest]. cbn [cells] in Ht. on_split_in Ht. destruct Ht as (_ & Hl & Hm & _ & Hrm).
  assert (ND' : NoDup (x :: m :: (before k ++ after k) ++ elems l ++ elems rm)).
  { revert ND. apply NoDup_Permutation_proper. cbn. solve_Permutation. }
  apply wp_bind. eapply (wp_reparent _ _ _ (Some m)); [exact Hrm|]. rewrite reparent_same by exact Hrm.
  apply wp_ret. split; [done|].
  eapply (wp_take_place _ k x m c cl ll y lr cm rm (Some x) (Some m)); cbn [rb_heap rb_root];
    [exact ND'|exact Hk|exact Hl| |exact Hx|exact Hr| |exact HQ].
  - cbn [cells]. on_split. split_and!; [exact Hm|by constructor|exact Hrm].
  - intros a Ha. destruct (decide (a = x)) as [->|Hax]; [by rewrite lookup_insert_eq|].
    rewrite lookup_insert_ne by done. apply Hrest. cbn in *. set_solver.
Qed.

(** ... or it is the leftmost node further down. *)
Lemma wp_successor_deep s k c cl ll y lr x k1 f cm m rm (p : ptr) Q :
  let l := Node cl ll y lr in
  let r' := plug (f :: k1) rm in
  let n := mk_rb (up k) (Some y) (root_ptr r') c in
  rep F s (f :: k1 ++ InRight c l x :: k) (Node cm Leaf m rm) ->
  (forall s', rep (<[x := n]> F) s' k (Node c l m r') -> Q tt s') ->
  wp (rb_transplant (Some m) (root_ptr rm);;
      n1 ← load (Some x);
      set_right (Some m) (rb_right n1);;
      m1 ← load (Some m);
      set_parent (rb_right m1) (Some m);; mret p) s
     (fun q s' => q = p /\ wp (rb_take_place (Some x) (Some m)) s' Q).
Proof.
  intros l r' n H HQ. pose proof (rep_nodup _ _ _ _ H) as ND.
  apply wp_bind. eapply (wp_transplant_child F s _ cm Leaf m rm rm); [exact H|by left|].
  clear H s. intros s H. set (n0 := mk_rb (up _) _ _ cm) in H.
  assert (H' : rep (<[m := n0]> F) s k (Node c l x r')).
  { eapply rep_refocus; [exact H|]. exact (plug_app (f :: k1) (InRight c l x :: k) rm). }
  clear H. rename H' into H.
  assert (He : before k ++ (elems l ++ x :: m :: elems r') ++ after k ≡ₚ
               before (f :: k1 ++ InRight c l x :: k) ++ elems (Node cm Leaf m rm) ++ after (f :: k1 ++ InRight c l x :: k)).
  { rewrite <-elems_plug. change (f :: k1 ++ InRight c l x :: k) with ((f :: k1) ++ InRight c l x :: k).
    rewrite plug_app. cbn [plug fill].
    subst r'. rewrite !elems_plug. cbn [elems]. rewrite elems_plug.
    destruct f as [cf xf rf|cf lf xf]; cbn [fill elems before after app]; solve_Permutation. }
  rewrite <-He in ND. clear He.
  assert (ND' : NoDup (x :: m :: (before k ++ after k) ++ elems l ++ elems r')).
  { revert ND. apply NoDup_Permutation_proper. solve_Permutation. }
  clear ND. rename ND' into ND.
  assert (Hm : rb_heap s !! m = Some n0).
  { rewrite (rep_rest _ _ _ _ H); [by rewrite lookup_insert_eq|]. cbn [elems]. nodup_solve. }
  pose proof (rep_cell _ _ _ _ _ _ _ H) as Hx. destruct H as [Hk Ht Hr _ Hrest].
  cbn [cells] in Ht. on_split_in Ht. destruct Ht as (_ & Hl & Hr').
  assert (Hxm : x <> m) by nodup_solve.
  apply wp_bind. eapply wp_load; [exact Hx|]. cbn [rb_right].
  apply wp_bind. eapply wp_store; [exact Hm|]. cbn [rb_parent rb_left rb_right rb_col n0].
  apply wp_bind. eapply wp_load; [cbn; by rewrite lookup_insert_eq|]. cbn [rb_right].
  assert (Hroot : exists cr rl z rr, r' = Node cr rl z rr).
  { subst r'. cbn. destruct (plug k1 (fill f rm)) eqn:E; [|by eauto].
    apply (f_equal elems) in E. rewrite elems_plug in E. cbn in E. apply app_eq_nil in E as [_ E].
    apply app_eq_nil in E as [E _]. destruct f; cbn in E; [by destruct (elems rm)|by destruct (elems l0)]. }
  set (h1 := <[m := _]> (rb_heap s)).
  assert (Hr1 : on h1 (cells (Some x) r')) by (apply on_cells; [nodup_solve|exact Hr']).
  assert (Hw : wp (set_parent (root_ptr r') (Some m)) (mk_rbs h1 (rb_root s))
             (fun _ s' => s' = mk_rbs (reparent r' (Some m) h1) (rb_root s))).
  { destruct Hroot as (cr & rl & z & rr & E). rewrite E in *. cbn in Hr1. rewrite on_cons in Hr1.
    eapply wp_store; [exact (proj1 Hr1)|done]. }
  apply wp_bind. cbn [rb_heap rb_root]. eapply wp_mono; [exact Hw|]. intros [] s' ->.
  apply wp_ret. split; [done|].
  eapply (wp_take_place _ k x m c cl ll y lr cm r' (up (f :: k1 ++ InRight c l x :: k)) (root_ptr r'));
    cbn [rb_heap rb_root]; [exact ND| | | | |exact Hr| |exact HQ].
  - apply on_reparent_ne; [intros z; rewrite kcells_keys; nodup_solve|]. apply on_kcells; [nodup_solve..|exact Hk].
  - apply on_reparent_ne; [intros z; rewrite cells_keys; nodup_solve|]. apply on_cells; [nodup_solve|exact Hl].
  - cbn [cells]. on_split. split_and!; [|by constructor|].
    + cbn [fst snd]. rewrite reparent_ne by nodup_solve. subst h1. rewrite lookup_insert_eq. done.
    + eapply on_reparent; [nodup_solve|exact Hr1].
  - rewrite reparent_ne by nodup_solve. subst h1. by rewrite lookup_insert_ne.
  - intros a Ha. destruct (decide (a = x)) as [->|Hax].
    + rewrite lookup_insert_eq, reparent_ne by nodup_solve. subst h1. by rewrite lookup_insert_ne.
    + rewrite lookup_insert_ne, reparent_ne by set_solver. subst h1. rewrite lookup_insert_ne by set_solver.
      rewrite Hrest by (cbn; set_solver). by rewrite lookup_insert_ne by set_solver.
Qed.

(** rb_erase once the balance is to be restored. *)
Definition erase_rest (fuel : nat) (c : rb_color) (t : tree) (parent : ptr) (x : addr) : rbM unit :=
  (match c with
   | RB_BLACK => rb_erase_fixup fuel (root_ptr t) parent
   | RB_RED => mret tt
   end);; rb_node_init (Some x).

(** The sequence [es] without [x], from the tree [s] holds. *)
Definition erased (es : list addr) (x : addr) (s : rb_state) : Prop :=
  exists t G, rep (<[x := mk_rb None None None RB_RED]> G) s [] t /\ rb_tree t /\
    (forall a, a <> x -> G !! a = F !! a) /\ elems t = es.

(** At most one child. *)
Lemma wp_erase_one fuel s k c l x r t Q :
  rep F s k (Node c l x r) -> rb_tree (plug k (Node c l x r)) -> (length k < fuel)%nat ->
  (l = Leaf /\ t = r \/ r = Leaf /\ t = l) ->
  (forall s', erased (before k ++ (elems l ++ elems r) ++ after k) x s' -> Q tt s') ->
  wp (rb_transplant (Some x) (root_ptr t)) s (fun _ s' => wp (erase_rest fuel c t (up k) x) s' Q).
Proof.
  intros H Hrb Hf Ht HQ. pose proof (rep_nodup _ _ _ _ H) as ND. cbn in ND.
  assert (Hx : x ∉ before k ++ (elems l ++ elems r) ++ after k) by nodup_solve.
  assert (He : elems t = elems l ++ elems r) by (destruct Ht as [[-> ->]|[-> ->]]; cbn; by rewrite ?app_nil_r).
  eapply wp_transplant_child; [exact H|exact Ht|]. intros s' H'.
  apply rb_unplug in Hrb as (n & Hn & Hk & _). apply (one_child _ _ _ _ t) in Hn; [|done].
  eapply wp_erase_finish; [exact H'|lia|exact Hk|exact Hn|done|by rewrite He|by rewrite lookup_insert_eq; eauto|].
  intros s'' t' H'' Hrb' He'. apply HQ. exists t', (<[x := mk_rb (up k) (root_ptr l) (root_ptr r) c]> F).
  split_and!; [exact H''|exact Hrb'| |by rewrite He', He]. intros a Ha. by rewrite lookup_insert_ne.
Qed.

(** The sequence around the successor's hole. *)
Lemma successor_sequence k k1 c l m cm r rm :
  r = plug k1 (Node cm Leaf m rm) -> Forall is_left k1 ->
  before (k1 ++ InRight c l m :: k) ++ elems rm ++ after (k1 ++ InRight c l m :: k)
  = before k ++ (elems l ++ elems r) ++ after k.
Proof.
  intros -> Hk1. rewrite <-elems_plug, plug_app. cbn [plug fill]. rewrite elems_plug. cbn [elems]. rewrite !elems_plug.
  by rewrite (is_left_before k1 Hk1).
Qed.

(** Two children: once the successor has taken the node's place. *)
Lemma wp_erase_two fuel s s' G k c l x k1 cm m rm Q :
  rep F s (k1 ++ InRight c l x :: k) (Node cm Leaf m rm) -> Forall is_left k1 ->
  rb_tree (plug k (Node c l x (plug k1 (Node cm Leaf m rm)))) ->
  (length k1 + S (length k) < fuel)%nat ->
  (forall s', erased (before k ++ (elems l ++ elems (plug k1 (Node cm Leaf m rm))) ++ after k) x s' -> Q tt s') ->
  rep G s' k (Node c l m (plug k1 rm)) -> is_Some (G !! x) -> (forall a, a <> x -> G !! a = F !! a) ->
  wp (erase_rest fuel cm rm (up (k1 ++ InRight c l m :: k)) x) s' Q.
Proof.
  intros H Hk1 Hrb Hf HQ H' HGx HG. set (r := plug k1 (Node cm Leaf m rm)) in *.
  pose proof (successor_sequence k k1 c l m cm r rm eq_refl Hk1) as Heq.
  assert (Hx : x ∉ before k ++ (elems l ++ elems r) ++ after k).
  { pose proof (rep_nodup _ _ _ _ H) as ND. rewrite <-elems_plug, plug_app in ND. cbn [plug fill] in ND.
    rewrite elems_plug in ND. cbn [elems] in ND. fold r in ND. nodup_solve. }
  change (plug k (Node c l x r)) with (plug (InRight c l x :: k) r) in Hrb. unfold r in Hrb.
  rewrite <-plug_app in Hrb. apply rb_unplug in Hrb as (n & Hn & Hk & _).
  apply (one_child _ _ _ _ rm) in Hn; [|by left]. apply (rbk_rename _ _ _ _ m) in Hk.
  eapply (wp_erase_finish G fuel s' (k1 ++ InRight c l m :: k)) with (es := before k ++ (elems l ++ elems r) ++ after k);
    [|rewrite length_app; cbn; lia|exact Hk|exact Hn|by symmetry|exact Hx|exact HGx|].
  - eapply rep_refocus; [exact H'|]. by rewrite plug_app.
  - intros s'' t' H'' Ht' He'. apply HQ. exists t', G. done.
Qed.

(** The whole of rb_erase. *)
Lemma wp_rb_erase fuel s k c l x r Q :
  (depth (plug k (Node c l x r)) < fuel)%nat ->
  rep F s k (Node c l x r) -> rb_tree (plug k (Node c l x r)) ->
  (forall s', erased (before k ++ (elems l ++ elems r) ++ after k) x s' -> Q tt s') ->
  wp (rb_erase fuel (Some x)) s Q.
Proof.
  intros Hf H Hrb HQ. unfold rb_erase. step_load H. pose proof (depth_plug k (Node c l x r)) as Hd. cbn in Hd.
  destruct l as [|cl ll y lr].
  { cbn [root_ptr is_null]. apply wp_bind, wp_bind.
    eapply wp_mono; [apply (wp_erase_one fuel s k c Leaf x r r Q); [done|done|lia|by left|done]|].
    intros [] s' Hw. apply wp_ret. exact Hw. }
  cbn [root_ptr is_null]. destruct r as [|cr rl z rr].
  { cbn [root_ptr is_null]. apply wp_bind, wp_bind.
    eapply wp_mono; [apply (wp_erase_one fuel s k c (Node cl ll y lr) x Leaf (Node cl ll y lr) Q); [done|done|lia|by right|done]|].
    intros [] s' Hw. apply wp_ret. exact Hw. }
  set (l := Node cl ll y lr) in *. set (r := Node cr rl z rr) in *. cbn [root_ptr is_null].
  apply wp_bind, wp_bind. eapply (wp_minimum F r _ _ (InRight c l x :: k)); [by rewrite <-rep_right|done|lia|].
  intros k1 cm m rm Er Hk1 Hm. step_load Hm. rewrite Er in Hf, Hrb, HQ, H.
  assert (Hd' : (length k1 + S (length k) < fuel)%nat).
  { pose proof (depth_plug (k1 ++ InRight c l x :: k) (Node cm Leaf m rm)) as Hd2.
    rewrite plug_app in Hd2. cbn in Hd2. rewrite length_app in Hd2. cbn in Hd2. lia. }
  set (Q' := fun (_ : unit) s' => wp (erase_rest fuel cm rm (up (k1 ++ InRight c l m :: k)) x) s' Q).
  assert (Hfin : forall s' n, rep (<[x := n]> F) s' k (Node c l m (plug k1 rm)) -> Q' tt s').
  { intros s' n H'. eapply (wp_erase_two fuel s s' _ k c l x k1 cm m rm); [exact Hm|exact Hk1|exact Hrb|exact Hd'|exact HQ|exact H'| |].
    - by rewrite lookup_insert_eq; eauto.
    - intros. by rewrite lookup_insert_ne. }
  destruct k1 as [|f k1].
  - cbn [app up faddr]. rewrite ptr_eqb_refl. apply wp_bind.
    eapply wp_mono; [eapply (wp_successor_child s k c cl ll y lr x cm m rm Q'); [exact H|intros; by eapply Hfin]|].
    intros p s' [-> Hw]. apply wp_bind. eapply wp_mono; [exact Hw|]. intros [] s'' Hw'. apply wp_ret. exact Hw'.
  - assert (Hup : ptr_eqb (up ((f :: k1) ++ InRight c l x :: k)) (Some x) = false).
    { apply bool_decide_eq_false_2. cbn. intros [= Ex]. pose proof (rep_nodup _ _ _ _ H) as ND2. cbn [plug] in ND2.
      cbn [elems] in ND2. rewrite elems_plug in ND2.
      destruct f as [cf xf rf|cf lf xf]; cbn in Ex; subst xf; cbn [fill elems] in ND2; nodup_solve. }
    rewrite Hup. apply wp_bind.
    eapply wp_mono; [eapply (wp_successor_deep s k c cl ll y lr x k1 f cm m rm _ Q'); [exact Hm|intros; by eapply Hfin]|].
    intros p s' [-> Hw]. apply wp_bind. eapply wp_mono; [exact Hw|]. intros [] s'' Hw'. apply wp_ret. exact Hw'.
Qed.
End EraseWhole.
