(* ===== verification/RbtreeQueue.v ===== *)
(** * The red-black tree against its sequence, and the out-of-order queue

    [owns F s es]: the heap of [s] holds a red-black tree whose nodes, in
    order, are [es].  Erasing, inserting and walking are stated on [es]; for
    the out-of-order queue, [es] is the queue's list. *)

From stdpp Require Import gmap.
From S2P Require Import Prelude SeqNum TcpOfo TcpOfoFacts Rbtree RbtreeFacts RbtreeErase.

Definition owns (F : gmap addr rb_node) (s : rb_state) (es : list addr) : Prop :=
  exists t, rep F s [] t /\ rb_tree t /\ elems t = es.

(** ** Focusing on a node *)

Lemma NoDup_split {A} (x : A) (l1 l2 k1 k2 : list A) :
  NoDup (l1 ++ x :: l2) -> l1 ++ x :: l2 = k1 ++ x :: k2 -> l1 = k1 /\ l2 = k2.
Proof.
  intros ND E. apply app_eq_inv in E as [(k & -> & E)|(k & -> & E)]; destruct k as [|y k]; cbn in E; simplify_eq.
  - by rewrite app_nil_r.
  - exfalso. rewrite <-app_assoc in ND. apply NoDup_app in ND as (_ & _ & ND). cbn in ND.
    apply NoDup_cons in ND as [ND _]. set_solver.
  - by rewrite app_nil_r.
  - exfalso. apply NoDup_app in ND as (_ & _ & ND). apply NoDup_cons in ND as [ND _]. set_solver.
Qed.

Lemma focus_on x t : x ∈ elems t -> exists k c l r, t = plug k (Node c l x r).
Proof.
  induction t as [|c l IHl y r IHr]; cbn; [by intros ?%elem_of_nil|].
  rewrite elem_of_app, elem_of_cons. intros [H|[->|H]].
  - destruct (IHl H) as (k & c' & l' & r' & ->). exists (k ++ [InLeft c y r]), c', l', r'. by rewrite plug_app.
  - by exists [], c, l, r.
  - destruct (IHr H) as (k & c' & l' & r' & ->). exists (k ++ [InRight c l y]), c', l', r'. by rewrite plug_app.
Qed.

Lemma owns_focus F s pre x post :
  owns F s (pre ++ x :: post) ->
  exists k c l r, rep F s k (Node c l x r) /\ rb_tree (plug k (Node c l x r)) /\
    pre = before k ++ elems l /\ post = elems r ++ after k.
Proof.
  intros (t & H & Hrb & He). destruct (focus_on x t) as (k & c & l & r & ->); [rewrite He; set_solver|].
  rewrite rep_plug in H. pose proof (rep_nodup _ _ _ _ H) as ND. rewrite elems_plug in He.
  assert (E : before k ++ elems (Node c l x r) ++ after k = (before k ++ elems l) ++ x :: elems r ++ after k) by app_done.
  rewrite E in ND, He. destruct (NoDup_split _ _ _ _ _ ND He) as [<- <-]. by exists k, c, l, r.
Qed.

Lemma owns_nodup F s es : owns F s es -> NoDup es.
Proof. intros (t & H & _ & <-). pose proof (rep_nodup _ _ _ _ H) as ND. cbn in ND. by rewrite app_nil_r in ND. Qed.

Lemma rep_ext F G s k t : (forall a, F !! a = G !! a) -> rep F s k t -> rep G s k t.
Proof. intros E [H1 H2 H3 H4 H5]. split; try done. intros a Ha. rewrite <-E. by apply H5. Qed.

Lemma owns_erase F s fuel pre x post :
  (tree_fuel (length (pre ++ x :: post)) <= fuel)%nat -> owns F s (pre ++ x :: post) ->
  exists s', rb_erase fuel (Some x) s = Some (tt, s') /\
    owns (<[x := mk_rb None None None RB_RED]> F) s' (pre ++ post).
Proof.
  intros Hf Ho. pose proof Ho as (k & c & l & r & H & Hrb & -> & ->)%owns_focus.
  assert (Hd : (depth (plug k (Node c l x r)) < fuel)%nat).
  { apply rb_tree_depth in Hrb. unfold tree_fuel in Hf.
    replace (elems (plug k (Node c l x r))) with ((before k ++ elems l) ++ x :: elems r ++ after k) in Hrb
      by (rewrite elems_plug; app_done). lia. }
  destruct (wp_rb_erase F fuel s k c l x r (fun _ s' => owns (<[x := mk_rb None None None RB_RED]> F) s'
    ((before k ++ elems l) ++ elems r ++ after k)) Hd H Hrb) as ([] & s' & E & Ho'); [|by exists s'].
  intros s' (t' & G & H' & Hrb' & HG & He). exists t'. split_and!; [|exact Hrb'|rewrite He; by rewrite <-!app_assoc].
  eapply rep_ext; [|exact H']. intros a. destruct (decide (a = x)) as [->|]; [by rewrite !lookup_insert_eq|].
  rewrite !lookup_insert_ne by done. by apply HG.
Qed.

(** ** First, last, next, previous *)

Section Walk.
Context (F : gmap addr rb_node).

Lemma wp_maximum r fuel s k Q :
  rep F s k r -> r <> Leaf -> (depth r <= fuel)%nat ->
  (forall k1 c m lm, r = plug k1 (Node c lm m Leaf) -> Forall is_right k1 -> Q (Some m) s) ->
  wp (rb_maximum fuel (root_ptr r)) s Q.
Proof.
  revert fuel k. induction r as [|c l _ x r IH]; intros fuel k H Hne Hd HQ; [done|].
  cbn in Hd. destruct fuel as [|fuel]; [lia|]. cbn. step_load H. destruct r as [|cr rl y rr].
  - apply wp_ret. by apply (HQ [] c x l).
  - cbn [is_null root_ptr]. eapply (IH fuel (InRight c l x :: k)); [by rewrite <-rep_right|done|lia|].
    intros k1 c' m lm E Hk1. eapply (HQ (k1 ++ [InRight c l x])).
    + rewrite plug_app. cbn. by rewrite <-E.
    + apply Forall_app. split; [done|]. by repeat constructor.
Qed.

Lemma minimum_head r fuel s k Q :
  rep F s k r -> (depth r < fuel)%nat -> Q (head (elems r)) s -> wp (rb_minimum fuel (root_ptr r)) s Q.
Proof.
  intros H Hd HQ. destruct r as [|c l x r]; [destruct fuel; [lia|]; by apply wp_ret|].
  eapply wp_minimum; [exact H|done|cbn in *; lia|]. intros k1 c' m rm E Hk _. rewrite E, elems_plug in HQ.
  by rewrite (is_left_before k1 Hk) in HQ.
Qed.

Lemma maximum_last r fuel s k Q :
  rep F s k r -> (depth r < fuel)%nat -> Q (last (elems r)) s -> wp (rb_maximum fuel (root_ptr r)) s Q.
Proof.
  intros H Hd HQ. destruct r as [|c l x r]; [destruct fuel; [lia|]; by apply wp_ret|].
  eapply wp_maximum; [exact H|done|cbn in *; lia|]. intros k1 c' m lm E Hk. rewrite E, elems_plug in HQ.
  rewrite (is_right_after k1 Hk) in HQ. cbn in HQ. by rewrite app_nil_r, app_assoc, last_snoc in HQ.
Qed.

Lemma next_climb_head k t fuel s Q :
  rep F s k t -> t <> Leaf -> (length k < fuel)%nat -> Q (head (after k)) s ->
  wp (next_climb fuel (root_ptr t) (up k)) s Q.
Proof.
  revert t fuel. induction k as [|f k IH]; intros t fuel H Hne Hf HQ; (destruct fuel as [|fuel]; [lia|]).
  - by apply wp_ret.
  - cbn in Hf. destruct f as [c y r|c l y]; cbn [up faddr next_climb is_null].
    + pose proof (left_not_right _ _ _ _ _ _ _ H Hne) as E. go_up H. step_load H. rewrite E. by apply wp_ret.
    + go_up H. step_load H. rewrite ptr_eqb_refl. by apply (IH (Node c l y t) fuel H); [|lia|].
Qed.

Lemma prev_climb_last k t fuel s Q :
  rep F s k t -> t <> Leaf -> (length k < fuel)%nat -> Q (last (before k)) s ->
  wp (prev_climb fuel (root_ptr t) (up k)) s Q.
Proof.
  revert t fuel. induction k as [|f k IH]; intros t fuel H Hne Hf HQ; (destruct fuel as [|fuel]; [lia|]).
  - by apply wp_ret.
  - cbn in Hf. destruct f as [c y r|c l y]; cbn [up faddr prev_climb is_null].
    + go_up H. step_load H. rewrite ptr_eqb_refl. by apply (IH (Node c t y r) fuel H); [|lia|].
    + pose proof (right_not_left _ _ _ _ _ _ _ H Hne) as E. go_up H. step_load H. rewrite E.
      apply wp_ret. cbn in HQ. by rewrite app_assoc, last_snoc in HQ.
Qed.

Lemma head_app {A} (l k : list A) : l <> [] -> head (l ++ k) = head l.
Proof. by destruct l. Qed.
Lemma last_app_ne {A} (l k : list A) : k <> [] -> last (l ++ k) = last k.
Proof. intros. rewrite last_app. destruct (last k) eqn:E; [done|]. by apply last_None in E. Qed.

Lemma wp_next fuel s k c l x r Q :
  rep F s k (Node c l x r) -> (length k + depth (Node c l x r) < fuel)%nat ->
  Q (head (elems r ++ after k)) s -> wp (rb_next fuel (Some x)) s Q.
Proof.
  intros H Hf HQ. unfold rb_next. cbn [is_null]. step_load H. cbn in Hf. destruct r as [|cr rl y rr].
  - cbn [root_ptr is_null]. cbn in HQ. eapply (next_climb_head k (Node c l x Leaf)); [exact H|done|lia|exact HQ].
  - cbn [root_ptr is_null]. rewrite head_app in HQ by (cbn; by destruct (elems rl)).
    eapply (minimum_head (Node cr rl y rr) _ _ (InRight c l x :: k)); [by rewrite <-rep_right|lia|exact HQ].
Qed.

Lemma wp_prev fuel s k c l x r Q :
  rep F s k (Node c l x r) -> (length k + depth (Node c l x r) < fuel)%nat ->
  Q (last (before k ++ elems l)) s -> wp (rb_prev fuel (Some x)) s Q.
Proof.
  intros H Hf HQ. unfold rb_prev. cbn [is_null]. step_load H. cbn in Hf. destruct l as [|cl ll y lr].
  - cbn [root_ptr is_null]. cbn in HQ. rewrite app_nil_r in HQ.
    eapply (prev_climb_last k (Node c Leaf x r)); [exact H|done|lia|exact HQ].
  - cbn [root_ptr is_null]. rewrite last_app_ne in HQ by (cbn; by destruct (elems ll)).
    eapply (maximum_last (Node cl ll y lr) _ _ (InLeft c x r :: k)); [by rewrite <-rep_left|lia|exact HQ].
Qed.
End Walk.

Section Owns.
Context (F : gmap addr rb_node) (s : rb_state) (fuel : nat).

Lemma owns_next pre x post :
  owns F s (pre ++ x :: post) -> (tree_fuel (length (pre ++ x :: post)) <= fuel)%nat ->
  rb_next fuel (Some x) s = Some (head post, s).
Proof.
  intros (k & c & l & r & H & Hrb & -> & ->)%owns_focus Hf. apply plug_fuel in Hrb.
  destruct (wp_next F fuel s k c l x r (fun p s' => p = head (elems r ++ after k) /\ s' = s) H) as (p & s' & E & -> & ->);
    [|done|exact E].
  replace (before k ++ elems (Node c l x r) ++ after k) with ((before k ++ elems l) ++ x :: elems r ++ after k) in Hrb
    by app_done. lia.
Qed.

Lemma owns_prev pre x post :
  owns F s (pre ++ x :: post) -> (tree_fuel (length (pre ++ x :: post)) <= fuel)%nat ->
  rb_prev fuel (Some x) s = Some (last pre, s).
Proof.
  intros (k & c & l & r & H & Hrb & -> & ->)%owns_focus Hf. apply plug_fuel in Hrb.
  destruct (wp_prev F fuel s k c l x r (fun p s' => p = last (before k ++ elems l) /\ s' = s) H) as (p & s' & E & -> & ->);
    [|done|exact E].
  replace (before k ++ elems (Node c l x r) ++ after k) with ((before k ++ elems l) ++ x :: elems r ++ after k) in Hrb
    by app_done. lia.
Qed.

Lemma owns_first es :
  owns F s es -> (tree_fuel (length es) <= fuel)%nat -> rb_first fuel s = Some (head es, s).
Proof.
  intros (t & H & Hrb & <-) Hf. apply rb_tree_depth in Hrb. unfold tree_fuel in Hf.
  assert (W : wp (rb_first fuel) s (fun p s' => p = head (elems t) /\ s' = s)).
  { apply wp_bind, wp_root. rewrite (rep_root _ _ _ _ H). cbn [kroot].
    eapply (minimum_head F t _ _ []); [exact H|lia|done]. }
  by destruct W as (p & s' & E & -> & ->).
Qed.

Lemma owns_last es :
  owns F s es -> (tree_fuel (length es) <= fuel)%nat -> rb_last fuel s = Some (last es, s).
Proof.
  intros (t & H & Hrb & <-) Hf. apply rb_tree_depth in Hrb. unfold tree_fuel in Hf.
  assert (W : wp (rb_last fuel) s (fun p s' => p = last (elems t) /\ s' = s)).
  { apply wp_bind, wp_root. rewrite (rep_root _ _ _ _ H). cbn [kroot].
    eapply (maximum_last F t _ _ []); [exact H|lia|done]. }
  by destruct W as (p & s' & E & -> & ->).
Qed.
End Owns.

(** ** The searches of the out-of-order queue *)

Lemma app_split_mid {A} (a b pre post : list A) x :
  a ++ x :: b = pre ++ post ->
  (exists d, a = pre ++ d /\ post = d ++ x :: b) \/ (exists d, pre = a ++ x :: d /\ b = d ++ post).
Proof.
  intros [(d & -> & ->)|(d & -> & E)]%app_eq_inv; [by left; exists d|].
  destruct d as [|y d]; cbn in E.
  - left. exists []. by rewrite !app_nil_r.
  - right. injection E as <- ->. by exists d.
Qed.

(** A predicate that holds on [pre] and not on [post] decides which side of
    the root the boundary is on. *)
Lemma boundary_split {A} (p : A -> bool) (a b pre post : list A) x :
  a ++ x :: b = pre ++ post -> Forall (fun y => p y = true) pre -> Forall (fun y => p y = false) post ->
  (exists d, p x = false /\ a = pre ++ d /\ post = d ++ x :: b /\ Forall (fun y => p y = false) d) \/
  (exists d, p x = true /\ pre = a ++ x :: d /\ b = d ++ post /\ Forall (fun y => p y = true) d).
Proof.
  intros [(d & -> & ->)|(d & -> & ->)]%app_split_mid Hpre Hpost; [left|right]; exists d.
  - by apply Forall_app in Hpost as [? [? ?]%Forall_cons].
  - by apply Forall_app in Hpre as [? [? ?]%Forall_cons].
Qed.

Section Search.
Context (F : gmap addr rb_node) (key : addr -> Z).

Lemma wp_load_link s k t Q : rep F s k t -> Q (root_ptr t) s -> wp (load_link (klink k)) s Q.
Proof.
  intros H HQ. destruct k as [|[c y r|c l y] k]; cbn.
  - apply wp_root. by rewrite (rep_root _ _ _ _ H).
  - go_up H. step_load H. by apply wp_ret.
  - go_up H. step_load H. by apply wp_ret.
Qed.

Lemma wp_lower_bound fuel s k t q result pre post Q :
  rep F s k t -> (depth t < fuel)%nat -> elems t = pre ++ post ->
  Forall (fun a => seq_lt (key a) q = true) pre -> Forall (fun a => seq_lt (key a) q = false) post ->
  Q (match head post with Some a => Some a | None => result end) s ->
  wp (lower_bound_loop key fuel (root_ptr t) result q) s Q.
Proof.
  revert k t result pre post. induction fuel as [|fuel IH]; intros k t result pre post H Hd He Hpre Hpost HQ; [lia|].
  destruct t as [|c l x r]; cbn [root_ptr lower_bound_loop].
  { apply wp_ret. cbn in He. symmetry in He. apply app_eq_nil in He as [-> ->]. exact HQ. }
  step_load H. cbn in Hd, He.
  destruct (boundary_split (fun a => seq_lt (key a) q) _ _ _ _ _ He Hpre Hpost) as [(d & -> & El & -> & Hd')|(d & -> & -> & Er & Hd')].
  - go_left H. eapply (IH _ l (Some x) pre d); [exact H|lia|done|done|done|]. by destruct d.
  - go_right H. eapply (IH _ r result d post); [exact H|lia|done|done|done|exact HQ].
Qed.

Lemma wp_insert_descend fuel s seg k t pre post Q :
  rep F s k t -> (depth t < fuel)%nat -> elems t = pre ++ post ->
  Forall (fun a => seq_lt (key seg) (key a) = false) pre -> Forall (fun a => seq_lt (key seg) (key a) = true) post ->
  (forall k', rep F s k' Leaf -> plug k' Leaf = plug k t -> before k' = before k ++ pre -> after k' = post ++ after k ->
     Q (up k', klink k') s) ->
  wp (insert_descend key fuel seg (up k) (klink k)) s Q.
Proof.
  revert k t pre post. induction fuel as [|fuel IH]; intros k t pre post H Hd He Hpre Hpost HQ; [lia|].
  cbn [insert_descend]. apply wp_bind. eapply wp_load_link; [exact H|]. destruct t as [|c l x r]; cbn [root_ptr].
  { apply wp_ret. cbn in He. symmetry in He. apply app_eq_nil in He as [-> ->].
    apply HQ; [exact H|done|by rewrite app_nil_r|done]. }
  cbn in Hd, He.
  destruct (boundary_split (fun a => negb (seq_lt (key seg) (key a))) _ _ _ _ _ He)
    as [(d & Hx & El & -> & Hd')|(d & Hx & -> & Er & Hd')];
    [eapply Forall_impl; [done|]; cbn; by intros ? ->..| |].
  - apply negb_false_iff in Hx. rewrite Hx. go_left H. apply Forall_app in Hpost as [Hpost _].
    eapply (IH (InLeft c x r :: k) l pre d); [exact H|lia|done|done|done|].
    intros k' H' Hp Hb Ha. apply HQ; [exact H'|exact Hp|exact Hb|]. rewrite Ha. app_done.
  - apply negb_true_iff in Hx. rewrite Hx. go_right H. apply Forall_app in Hpre as [_ [_ Hpre]%Forall_cons].
    eapply (IH (InRight c l x :: k) r d post); [exact H|lia|done|done|done|].
    intros k' H' Hp Hb Ha. apply HQ; [exact H'|exact Hp| |exact Ha]. rewrite Hb. app_done.
Qed.

Lemma owns_lower_bound fuel s q pre post :
  owns F s (pre ++ post) -> (tree_fuel (length (pre ++ post)) <= fuel)%nat ->
  Forall (fun a => seq_lt (key a) q = true) pre -> Forall (fun a => seq_lt (key a) q = false) post ->
  ofo_tree_lower_bound key fuel q s = Some (head post, s).
Proof.
  intros (t & H & Hrb & He) Hf Hpre Hpost. apply rb_tree_depth in Hrb. rewrite He in Hrb. unfold tree_fuel in Hf.
  assert (W : wp (ofo_tree_lower_bound key fuel q) s (fun p s' => p = head post /\ s' = s)).
  { apply wp_bind, wp_root. rewrite (rep_root _ _ _ _ H). cbn [kroot].
    eapply (wp_lower_bound _ _ [] t); [exact H|lia|exact He|done|done|]. by destruct (head post). }
  by destruct W as (p & s' & E & -> & ->).
Qed.

Lemma owns_insert fuel s seg pre post :
  owns F s (pre ++ post) -> (tree_fuel (length (pre ++ post)) <= fuel)%nat ->
  seg ∉ pre ++ post -> is_Some (F !! seg) ->
  Forall (fun a => seq_lt (key seg) (key a) = false) pre -> Forall (fun a => seq_lt (key seg) (key a) = true) post ->
  exists s', tcp_ofo_tree_insert key fuel seg s = Some (tt, s') /\ owns F s' (pre ++ seg :: post).
Proof.
  intros (t & H & Hrb & He) Hf Hin HF Hpre Hpost. pose proof (rb_tree_depth _ Hrb) as Hd. rewrite He in Hd. unfold tree_fuel in Hf.
  assert (W : wp (tcp_ofo_tree_insert key fuel seg) s (fun _ s' => owns F s' (pre ++ seg :: post))).
  { apply wp_bind. eapply (wp_insert_descend _ _ _ [] t pre post); [exact H|lia|exact He|done|done|].
    intros k H' Hp Hb Ha. cbn in Hb, Ha. rewrite app_nil_r in Ha. cbn in Hp.
    assert (Hk : (length k <= depth t)%nat) by (rewrite <-Hp; pose proof (depth_plug k Leaf); lia).
    apply wp_bind. eapply wp_link_node; [exact H'|rewrite Hb; set_solver|rewrite Ha; set_solver| |].
    { rewrite (rep_rest _ _ _ _ H'); [done|]. rewrite Hb, Ha. cbn. exact Hin. }
    intros s' H''. eapply wp_insert_color; [|exact H''|by rewrite Hp|]; [lia|].
    intros s'' t' Ht' Hrb' He'. exists t'. split_and!; [exact Ht'|exact Hrb'|]. by rewrite He', Hb, Ha. }
  destruct W as ([] & s' & E & Ho). by exists s'.
Qed.
End Search.

(** ** What the tree promises the queue *)

Lemma walk_from F s fuel n pre post :
  owns F s (pre ++ post) -> (tree_fuel (length (pre ++ post)) <= fuel)%nat -> (length post <= n)%nat ->
  walk n fuel (head post) s = Some (post, s).
Proof.
  revert pre post. induction n as [|n IH]; intros pre post Ho Hf Hn.
  { destruct post; [done|cbn in Hn; lia]. }
  destruct post as [|x post]; [done|]. cbn [head walk]. unfold mbind, rbM_bind.
  rewrite (owns_next F s fuel pre x post Ho Hf). rewrite (IH (pre ++ [x]) post); rewrite <-?app_assoc; cbn; [done|done|done|].
  cbn in Hn. lia.
Qed.

Section Queue.
Context (isn : Z) (stream : Z -> Z) (fin : option Z) (sg : addr -> tcp_ofo_seg).
Local Abbreviation at_pos := (at_pos isn).
Local Abbreviation key := (fun a => oseq (sg a)).
Local Abbreviation send := (fun a => oend (sg a)).
Local Abbreviation segs_ok := (segs_ok isn stream fin).

Lemma segs_positions lo l hi :
  segs_ok lo l hi -> Forall (fun g => exists q, lo <= q <= hi /\ oseq g = at_pos q) l.
Proof.
  induction 1 as [|lo p g t hi Hp Hg Ht IH]; [by constructor|]. pose proof (segs_le _ _ _ _ _ _ Ht).
  pose proof (zlen_nonneg (odata g)). constructor.
  - exists p. split; [lia|apply Hg].
  - eapply Forall_impl; [exact IH|]. cbn. intros g' (q & ? & ?). exists q. split; [lia|done].
Qed.

Lemma lower_bound_app q l :
  exists pre rest, tcp_ofo_lower_bound q l = (pre, rest) /\ l = pre ++ rest /\
    Forall (fun g => seq_lt (oseq g) q = true) pre.
Proof.
  induction l as [|g l (pre & rest & E & -> & Hp)]; cbn; [by exists [], []|].
  destruct (seq_lt (oseq g) q) eqn:Hq.
  - rewrite E. exists (g :: pre), rest. split_and!; [done|done|]. by constructor.
  - by exists [], (g :: pre ++ rest).
Qed.

Lemma fmap_app_split {A B} (f : A -> B) l k1 k2 :
  f <$> l = k1 ++ k2 -> exists l1 l2, l = l1 ++ l2 /\ k1 = f <$> l1 /\ k2 = f <$> l2.
Proof. intros H. apply fmap_app_inv in H as (l1 & l2 & -> & -> & ->). by exists l1, l2. Qed.

Lemma lower_bound_list lo hi p es :
  segs_ok lo (sg <$> es) hi -> span lo hi -> lo <= p <= hi ->
  exists pre post, es = pre ++ post /\ tcp_ofo_lower_bound (at_pos p) (sg <$> es) = (sg <$> pre, sg <$> post) /\
    Forall (fun a => seq_lt (key a) (at_pos p) = true) pre /\ Forall (fun a => seq_lt (key a) (at_pos p) = false) post.
Proof.
  intros Hl Hs Hp. destruct (lower_bound_app (at_pos p) (sg <$> es)) as (pre & rest & E & El & Hpre).
  destruct (lower_bound_split _ _ _ lo p lo _ hi pre rest Hs ltac:(lia) Hp Hl E) as (_ & Hr & _).
  apply fmap_app_split in El as (l1 & l2 & -> & -> & ->). exists l1, l2. rewrite Forall_fmap in Hpre. split_and!; [done|done|done|].
  apply segs_positions in Hr. rewrite Forall_fmap in Hr. eapply Forall_impl; [exact Hr|]. cbn. intros a (q & Hq & ->).
  rewrite seq_lt_pos by (unfold span in Hs; lia). apply Z.ltb_ge. lia.
Qed.

(** C9: when the nodes of the tree are, in order, the segments of the
    out-of-order queue, the descent to the lower bound followed by the step
    to its predecessor (or to the last node) gives the node at which the walk
    over the queue as a list starts, with no cell changed; the fuel needed is
    logarithmic in the length of the queue. *)
Theorem ofo_start_exact F s fuel lo hi p es :
  owns F s es -> (tree_fuel (length es) <= fuel)%nat ->
  segs_ok lo (sg <$> es) hi -> span lo hi -> lo <= p <= hi ->
  exists pre rest, es = pre ++ rest /\ walk_start (at_pos p) (sg <$> es) = (sg <$> pre, sg <$> rest) /\
    ofo_tree_start key send fuel (at_pos p) s = Some (head rest, s).
Proof.
  intros Ho Hf Hl Hs Hp. destruct (lower_bound_list lo hi p es Hl Hs Hp) as (pre & post & -> & E & Hpre & Hpost).
  assert (Eb : ofo_tree_lower_bound key fuel (at_pos p) s = Some (head post, s)) by (by eapply owns_lower_bound).
  assert (Ep : (match head post with Some _ => rb_prev fuel (head post) | None => rb_last fuel end) s = Some (last pre, s)).
  { destruct post as [|b post]; cbn [head]; [|by apply (owns_prev F s fuel pre b post)].
    rewrite app_nil_r in *. by apply (owns_last F). }
  unfold walk_start, ofo_tree_start. rewrite E. unfold mbind, rbM_bind. rewrite Eb, Ep, fmap_last.
  destruct (last pre) as [a|] eqn:Ea; cbn; [|by exists pre, post].
  apply last_Some in Ea as [pre' ->]. destruct (tcp_seq_gt _ _); [|by exists (pre' ++ [a]), post].
  exists pre', (a :: post). rewrite <-app_assoc. split_and!; [done| |done]. f_equal.
  rewrite fmap_app. cbn. by rewrite removelast_last.
Qed.

(** C8: inserting a segment into the tree of the out-of-order queue never
    follows a wrong pointer and leaves a red-black tree whose nodes, in
    order, are those of the queue with the segment at the place its list has
    it; a logarithmic number of rounds is enough for every loop. *)
Theorem ofo_insert_exact F s fuel lo hi p pre post seg :
  owns F s (pre ++ post) -> (tree_fuel (length (pre ++ post)) <= fuel)%nat ->
  seg ∉ pre ++ post -> is_Some (F !! seg) ->
  span lo hi -> oseq (sg seg) = at_pos p ->
  segs_ok lo (sg <$> pre) p -> segs_ok p (sg <$> post) hi ->
  (forall a, a ∈ post -> oseq (sg a) <> oseq (sg seg)) ->
  exists s', tcp_ofo_tree_insert key fuel seg s = Some (tt, s') /\ owns F s' (pre ++ seg :: post).
Proof.
  intros Ho Hf Hin HF Hs Hseg Hpre Hpost Hne.
  pose proof (segs_le _ _ _ _ _ _ Hpre). pose proof (segs_le _ _ _ _ _ _ Hpost). unfold span in Hs.
  apply owns_insert; [done|done|done|done|..].
  - apply segs_positions in Hpre. rewrite Forall_fmap in Hpre. eapply Forall_impl; [exact Hpre|].
    cbn. intros a (q & Hq & ->). rewrite Hseg, seq_lt_pos by lia. apply Z.ltb_ge. lia.
  - apply segs_positions in Hpost. rewrite Forall_fmap, Forall_forall in Hpost. apply Forall_forall.
    intros a Ha. destruct (Hpost a Ha) as (q & Hq & E). specialize (Hne a Ha).
    rewrite E, Hseg in *. rewrite seq_lt_pos by lia. apply Z.ltb_lt. assert (q <> p) by congruence. lia.
Qed.
End Queue.

(** C7: erasing a node from the tree succeeds, leaves a red-black tree of
    the remaining nodes in their order, detaches the node, touches no cell
    outside the tree, and a walk from the first node by successors then
    visits exactly the remaining nodes. *)
Theorem rb_erase_exact F s fuel pre x post :
  owns F s (pre ++ x :: post) -> (tree_fuel (length (pre ++ x :: post)) <= fuel)%nat ->
  exists s', rb_erase fuel (Some x) s = Some (tt, s') /\
    owns (<[x := mk_rb None None None RB_RED]> F) s' (pre ++ post) /\
    (p ← rb_first fuel; walk (length (pre ++ post)) fuel p) s' = Some (pre ++ post, s').
Proof.
  intros Ho Hf. destruct (owns_erase F s fuel pre x post Hf Ho) as (s' & E & Ho'). exists s'.
  split_and!; [done|done|]. unfold mbind, rbM_bind.
  assert (Hf' : (tree_fuel (length (pre ++ post)) <= fuel)%nat).
  { etrans; [|exact Hf]. apply tree_fuel_mono. rewrite !length_app. cbn. lia. }
  rewrite (owns_first _ _ _ _ Ho' Hf'). eapply (walk_from _ s' fuel _ []); [exact Ho'|exact Hf'|done].
Qed.

(** ** Witnesses: three nodes, and a fourth to insert *)

Definition w_sg (a : addr) : tcp_ofo_seg := mk_oseg (10 * Zpos a) [0; 0] false.
Definition w_key (a : addr) : Z := oseq (w_sg a).

Definition w_tree : rb_state :=
  match insert_all w_key [2; 1; 4]%positive (detached [1; 2; 3; 4]%positive) with
  | Some (_, s) => s
  | None => detached []
  end.

Lemma w_owns : owns (rb_heap w_tree) w_tree [1; 2; 4]%positive.
Proof.
  exists (Node RB_BLACK (Node RB_RED Leaf 1%positive Leaf) 2%positive (Node RB_RED Leaf 4%positive Leaf)).
  split_and!; [split|split; [done|by exists 1%nat]|done].
  - by constructor.
  - repeat constructor; vm_compute; done.
  - vm_compute. done.
  - apply (bool_decide_unpack _). vm_compute. exact I.
  - done.
Qed.

Local Ltac w_seg := split; [done|done|split; [done|done]|left; by vm_compute].

Lemma w_segs : segs_ok 0 (fun _ => 0) None 0 (w_sg <$> [1; 2; 4]%positive) 100.
Proof.
  cbn. apply (segs_cons _ _ _ 0 10); [by vm_compute|w_seg|].
  apply (segs_cons _ _ _ _ 20); [by vm_compute|w_seg|].
  apply (segs_cons _ _ _ _ 40); [by vm_compute|w_seg|].
  apply segs_nil. by vm_compute.
Qed.

Lemma ofo_start_exact_witness :
  exists pre rest, [1; 2; 4]%positive = pre ++ rest /\
    walk_start (at_pos 0 21) (w_sg <$> [1; 2; 4]%positive) = (w_sg <$> pre, w_sg <$> rest) /\
    ofo_tree_start w_key (fun a => oend (w_sg a)) 8 (at_pos 0 21) w_tree = Some (head rest, w_tree).
Proof.
  apply (ofo_start_exact 0 (fun _ => 0) None w_sg (rb_heap w_tree) w_tree 8 0 100 21 [1; 2; 4]%positive w_owns);
    [vm_compute; lia|exact w_segs|unfold span; lia|lia].
Defined.

Lemma ofo_insert_exact_witness :
  exists s', tcp_ofo_tree_insert w_key 8 3 w_tree = Some (tt, s') /\ owns (rb_heap w_tree) s' ([1; 2]%positive ++ 3%positive :: [4]%positive).
Proof.
  apply (ofo_insert_exact 0 (fun _ => 0) None w_sg (rb_heap w_tree) w_tree 8 0 100 30 [1; 2]%positive [4]%positive 3%positive).
  - exact w_owns.
  - vm_compute. lia.
  - set_solver.
  - vm_compute. eauto.
  - unfold span. lia.
  - done.
  - cbn. apply (segs_cons _ _ _ 0 10); [by vm_compute|w_seg|].
    apply (segs_cons _ _ _ _ 20); [by vm_compute|w_seg|]. apply segs_nil. by vm_compute.
  - cbn. apply (segs_cons _ _ _ _ 40); [by vm_compute|w_seg|]. apply segs_nil. by vm_compute.
  - intros a ->%list_elem_of_singleton. done.
Defined.

Lemma rb_erase_exact_witness :
  exists s', rb_erase 8 (Some 2%positive) w_tree = Some (tt, s') /\
    owns (<[2%positive := mk_rb None None None RB_RED]> (rb_heap w_tree)) s' ([1]%positive ++ [4]%positive) /\
    (p ← rb_first 8; walk 2 8 p) s' = Some (([1]%positive ++ [4]%positive), s').
Proof. apply (rb_erase_exact _ _ 8 [1]%positive 2%positive [4]%positive); [exact w_owns|vm_compute; lia]. Defined.
