(* ===== verification/TcpOfoStream.v ===== *)
(** * Correctness of the receive path: histories of a connection

    The receive half of a connection sees segments of the peer's stream in
    any order, with loss, duplication and overlap, interleaved with reads of
    the application, state changes and aborts.  Whatever the order, the
    application reads a prefix of the stream, and the receive buffer is
    accounted exactly. *)

From S2P Require Import Prelude Config SeqNum TcpOfo TcpOfoFacts.

Section History.
Context (isn : Z) (stream : Z -> Z) (F : option Z).

Local Abbreviation at_pos := (at_pos isn).
Local Abbreviation chunk := (chunk stream).
Local Abbreviation fits := (fits F).
Local Abbreviation queue_ok := (queue_ok isn stream F).
Local Abbreviation live := (live isn stream F).
Local Abbreviation finished := (finished isn stream F).
Local Abbreviation delivers := (delivers isn stream F).

(** ** One segment *)

Lemma note_duplicate_outer seq len s :
  outer (tcp_sack_note_duplicate seq len s) = outer s /\ inner (tcp_sack_note_duplicate seq len s) = inner s.
Proof. unfold tcp_sack_note_duplicate. cbv zeta. by bsplit1. Qed.

Lemma note_recent_outer seq len s :
  outer (tcp_sack_note_recent seq len s) = outer s /\ inner (tcp_sack_note_recent seq len s) = inner s.
Proof. unfold tcp_sack_note_recent. cbv zeta. by bsplit1. Qed.

Lemma live_same pos s s' : outer s' = outer s -> inner s' = inner s -> live pos s -> live pos s'.
Proof.
  intros Ho Hi []. destruct (outer_eq _ _ Ho) as (? & Hz & ? & ? & ? & ? & ?).
  split; [congruence|congruence|]. rewrite Hz. by eapply queue_ok_same.
Qed.

Lemma note_duplicate_live pos seq len s (s1 := tcp_sack_note_duplicate seq len s) :
  live pos s -> live pos s1 /\ status s1 = status s /\ tcp_ofo_rcv_wnd s = tcp_ofo_rcv_wnd s1 /\
  pending s1 = pending s /\ rx_queue s1 = rx_queue s /\ recv_ack s1 = recv_ack s.
Proof.
  intros L. destruct (note_duplicate_outer seq len s) as [Ho Hi]. fold s1 in Ho, Hi.
  destruct (outer_eq _ _ Ho) as (Ha & Hz & Hs & _ & Hq & _).
  split_and!; try done; [by eapply live_same| |by apply outer_pending].
  unfold tcp_ofo_rcv_wnd. unfold inner in Hi. injection Hi as Hu _ _ _. by rewrite Hu, Hz.
Qed.

Lemma ofo_insert_ok mem pos p data fin s :
  live pos s -> -1073741824 <= p - pos <= 1073741824 -> zlen data <= 65535 ->
  chunk p data -> fits (p + zlen data) fin ->
  let s' := snd (tcp_ofo_insert mem (at_pos p) data fin s) in outer s' = outer s /\ live pos s'.
Proof.
  intros L Hp Hlen Hd Hf. unfold tcp_ofo_insert.
  destruct (note_duplicate_outer (at_pos p) (zlen data) s) as [Ho1 Hi1].
  pose proof (live_same _ _ _ Ho1 Hi1 L) as [Ha He Q].
  destruct (tcp_ofo_queue_insert _ _ _ _ _) as [ok s2] eqn:E. cbn [snd].
  apply (queue_insert_ok isn stream F mem pos) in E as [Ho2 Q2]; try done.
  destruct (note_recent_outer (at_pos p) (zlen data) s2) as [Ho3 Hi3].
  assert (outer (tcp_sack_note_recent (at_pos p) (zlen data) s2) = outer s) as Ho by congruence.
  split; [done|]. destruct (outer_eq _ _ Ho) as (? & Hz & ? & ? & ? & ? & ?).
  destruct (outer_eq _ _ Ho1) as (? & Hz1 & ? & ? & ? & ? & ?).
  split; [congruence|congruence|]. rewrite Hz, <- Hz1. exact (queue_ok_same _ _ _ _ _ _ _ Ho3 Hi3 Q2).
Qed.

Lemma drain_ok rx_ok lo pos s :
  queue_ok lo (pos + rcvbuf_size s) s -> pos - 65536 <= lo <= pos -> recv_ack s = at_pos pos ->
  peer_eof s = false -> delivers pos s (tcp_ofo_drain rx_ok s).
Proof. intros. unfold tcp_ofo_drain. by eapply drain_loop_ok. Qed.

(** Bytes taken in order: delivered and counted, before the queue is drained. *)
Lemma deliver_next_ok rx_ok pos payload s s1 :
  live pos s -> zlen payload <= tcp_ofo_rcv_wnd s ->
  (if 0 <? zlen payload then tcp_deliver_payload rx_ok payload s else (true, s)) = (true, s1) ->
  let s2 := with_rcvbuf_used (u32 (rcvbuf_used s1 + zlen payload))
              (with_recv_ack (u32 (recv_ack s1 + zlen payload)) s1) in
  rcvbuf_size s2 = rcvbuf_size s /\ status s2 = status s /\ rx_current s2 = rx_current s /\
  terminal_error s2 = terminal_error s /\ pending s2 = pending s ++ payload /\
  recv_ack s2 = at_pos (pos + zlen payload) /\ peer_eof s2 = false /\
  queue_ok pos (pos + zlen payload + rcvbuf_size s2) s2.
Proof.
  intros [Ha He Q] Hw H. pose proof (queue_ok_ranges _ _ _ _ _ _ Q) as R.
  pose proof (zlen_nonneg payload) as Hn. rewrite (rcv_wnd_eq _ _ _ _ _ _ Q) in Hw.
  apply deliver_fields in H as (Ha1 & Hz1 & ? & ? & ? & ? & Hi1 & Hp).
  unfold inner in Hi1. injection Hi1 as Hu1 Hf1 Hc1 Hb1. cbv zeta. set (s2 := with_rcvbuf_used _ _).
  change (pending s2) with (pending s1). cbn [recv_ack rcvbuf_size status rx_current terminal_error peer_eof].
  split_and!; try done.
  - unfold s2. cbn. by rewrite Ha1, Ha, at_pos_add.
  - unfold s2. cbn. congruence.
  - destruct Q. split; change (ofo s2) with (ofo s1); change (pending s2) with (pending s1);
      change (ofo_count s2) with (ofo_count s1); change (ofo_bytes s2) with (ofo_bytes s1);
      change (rcvbuf_size s2) with (rcvbuf_size s1);
      change (rcvbuf_used s2) with (u32 (rcvbuf_used s1 + zlen payload));
      rewrite ?Hf1, ?Hc1, ?Hb1, ?Hu1, ?Hz1, ?Hp, ?zlen_app; try done.
    + eapply segs_upper; [|done]. lia.
    + rewrite u32_small by (wunfold; lia). lia.
    + rewrite u32_small by (wunfold; lia). lia.
Qed.

Lemma receive_next_ok mem rx_ok pos payload fin s :
  live pos s -> zlen payload <= tcp_ofo_rcv_wnd s -> zlen payload <= 65535 ->
  chunk pos payload -> fits (pos + zlen payload) fin ->
  delivers pos s (receive_next mem rx_ok payload fin (at_pos pos) s).
Proof.
  intros L Hw Hlen Hd Hf. unfold receive_next. pose proof (zlen_nonneg payload) as Hn.
  destruct (if 0 <? _ then _ else _) as [ok s1] eqn:E. destruct ok; cbn [negb].
  - pose proof (deliver_next_ok rx_ok pos payload s s1 L Hw E) as D. cbv zeta in *.
    destruct D as (? & ? & ? & ? & Hp & Ha & He & Q).
    eapply delivers_more; try done; [intros _; by eapply fits_false|].
    destruct fin; [|eapply drain_ok; try done; lia].
    eapply eof_ok; try done. by apply Hf.
  - apply deliver_fields in E. subst s1.
    destruct (ofo_insert_ok mem pos pos payload fin s L ltac:(lia) Hlen Hd Hf) as [Ho [Ha' He' Q]].
    destruct L as [Ha He _].
    apply delivers_nothing; try done. by destruct (outer_eq _ _ Ho) as (_ & <- & _).
Qed.

(** A segment of the stream: [payload] from position [p], with the FIN when
    [fin], no farther than 2^30 from the byte the receiver waits for. *)
Record segment (pos p : Z) (payload : list Z) (fin : bool) : Prop := {
  sg_near : -1073741824 <= p - pos <= 1073741824;
  sg_len : zlen payload <= 65535;
  sg_data : chunk p payload;
  sg_fin : fits (p + zlen payload) fin
}.

Lemma acceptable_left pos p payload fin s :
  live pos s -> segment pos p payload fin ->
  tcp_segment_acceptable (at_pos p) (zlen payload) fin s = true -> p <= pos + tcp_ofo_rcv_wnd s.
Proof.
  intros [Ha _ Q] [? ? _ _]. pose proof (queue_ok_ranges _ _ _ _ _ _ Q). pose proof (zlen_nonneg payload).
  unfold tcp_segment_acceptable. cbv zeta. rewrite Ha, u16_small by (wunfold; lia).
  rewrite (rcv_wnd_eq _ _ _ _ _ _ Q), !at_pos_add.
  assert (0 <= (if fin then 1 else 0) <= 1) as Hk by by destruct fin. revert Hk.
  generalize (if fin then 1 else 0). intros k Hk. rewrite at_pos_eqb, seq_gt_pos, !seq_lt_pos by lia. bsplit; lia.
Qed.

(** The right edge clipped to the window. *)
Lemma clip_ok pos p payload fin s (wend := pos + tcp_ofo_rcv_wnd s) :
  live pos s -> segment pos p payload fin -> p <= wend ->
  exists payload' fin',
    (if tcp_seq_gt (u32 (at_pos p + zlen payload)) (at_pos wend)
     then (take (Z.to_nat (u32 (at_pos wend - at_pos p))) payload, false)
     else if fin && negb (seq_lt (u32 (at_pos p + zlen payload)) (at_pos wend)) then (payload, false)
     else (payload, fin)) = (payload', fin') /\
    p + zlen payload' <= wend /\ segment pos p payload' fin'.
Proof.
  intros [Ha _ Q] [Hn Hl Hd Hf] Hp. pose proof (queue_ok_ranges _ _ _ _ _ _ Q). pose proof (zlen_nonneg payload).
  unfold wend in *. rewrite (rcv_wnd_eq _ _ _ _ _ _ Q) in *.
  rewrite at_pos_add, seq_gt_pos, !seq_lt_pos by lia. bsplit1; bprop.
  { rewrite at_pos_sub by lia. eexists _, _. split; [done|]. rewrite zlen_take by lia. split; [lia|].
    split; rewrite ?zlen_take by lia; try done; [lia|by apply chunk_take|].
    eapply fits_le; [by eapply fits_false|lia]. }
  destruct (fin && _).
  - exists payload, false. split_and!; [done|lia|]. split; try done. by eapply fits_false.
  - exists payload, fin. split_and!; [done|lia|done].
Qed.

Lemma apply_open tw s : peer_eof s = false -> tcp_apply_peer_eof tw s = (true, s).
Proof. unfold tcp_apply_peer_eof. by intros ->. Qed.

Lemma receive_range_ok mem rx_ok tw pos p payload fin s :
  live pos s -> past_eof (status s) = false -> segment pos p payload fin ->
  exists s1, delivers pos s s1 /\
    tcp_receive_stream_range mem rx_ok tw (at_pos p) payload fin s = tcp_apply_peer_eof tw s1.
Proof.
  intros L Hpast G. unfold tcp_receive_stream_range, receive_range. cbv zeta.
  destruct (note_duplicate_outer (at_pos p) (zlen payload) s) as [Ho Hi].
  destruct (note_duplicate_live pos (at_pos p) (zlen payload) s L) as (L1 & Hs0 & Hw & _ & _ & Ha0).
  set (s0 := tcp_sack_note_duplicate _ _ s) in *.
  rewrite Hs0, Hpast, (lv_open _ _ _ _ _ L1), Hw, <- Ha0, (lv_ack _ _ _ _ _ L1).
  pose proof (lv_queue _ _ _ _ _ L1) as Q. pose proof (queue_ok_ranges _ _ _ _ _ _ Q) as R.
  destruct (tcp_segment_acceptable _ _ _ s0) eqn:Eacc; cbn [negb].
  2: { destruct (record_drop_same (at_pos p) (zlen payload) fin s0) as [Ho' Hi'].
       set (s1 := if seq_lt _ _ then _ else _).
       assert (outer s1 = outer s0 /\ inner s1 = inner s0) as [Ho1 Hi1] by (unfold s1; by bsplit1).
       pose proof (live_same _ _ _ Ho1 Hi1 L1) as [? He1 Q1]. exists s1. rewrite (apply_open tw s1 He1).
       split; [|done]. apply (delivers_outer _ _ _ _ _ _ _ Ho). 
       destruct L1, (outer_eq _ _ Ho1) as (_ & Hz1 & _). rewrite Hz1 in Q1. by apply delivers_nothing. }
  rewrite (at_pos_add isn pos).
  destruct (clip_ok pos p payload fin s0 L1 G) as (payload' & fin' & -> & Hend & [Hn Hl Hd Hf]);
    [by eapply acceptable_left|].
  rewrite at_pos_eqb by lia. eexists. split; [|done]. apply (delivers_outer _ _ _ _ _ _ _ Ho).
  destruct (p =? pos) eqn:E; bprop.
  - subst p. apply receive_next_ok; try done. lia.
  - destruct (ofo_insert_ok mem pos p payload' fin' s0 L1 Hn Hl Hd Hf) as [Ho2 [Ha2 He2 Q2]].
    apply (delivers_outer _ _ _ _ _ _ _ Ho2). eapply drain_ok; try done. lia.
Qed.

(** ** The invariant of a connection *)

(** [acc] has been read so far. *)
Definition stream_ok (acc : list Z) (s : tcp_rx) : Prop :=
  match terminal_error s with
  | None =>
      let pos := zlen (acc ++ pending s) in
      status s <> TCP_STATUS_CLOSED /\ chunk 0 (acc ++ pending s) /\ fits pos false /\
      (live pos s /\ past_eof (status s) = false \/ finished pos s)
  | Some _ =>
      status s = TCP_STATUS_CLOSED /\ chunk 0 acc /\ fits (zlen acc) false /\ pending s = [] /\
      inner s = (0, [], 0, 0)
  end.

Lemma purge_nodes_outer l s : outer (purge_nodes l s) = outer s.
Proof.
  revert s. induction l as [|g t IH]; intros s; cbn [purge_nodes]; [done|]. rewrite IH.
  by destruct (unlink_fields g t (tcp_ofo_rcvbuf_sub (zlen (odata g)) s)) as [-> _].
Qed.

Lemma stream_prefix acc s : stream_ok acc s -> chunk 0 acc /\ fits (zlen acc) false.
Proof.
  unfold stream_ok. destruct (terminal_error s); intros (_ & Hc & Hf & _); [done|].
  split; [by apply chunk_split in Hc as [? _]|]. eapply fits_le; [done|].
  rewrite zlen_app. pose proof (zlen_nonneg (pending s)). lia.
Qed.

(** Only the pending bytes matter, not how they are spread over the blobs. *)
Lemma stream_repack acc s s' :
  stream_ok acc s -> recv_ack s' = recv_ack s -> rcvbuf_size s' = rcvbuf_size s -> status s' = status s ->
  peer_eof s' = peer_eof s -> terminal_error s' = terminal_error s -> pending s' = pending s ->
  inner s' = inner s -> stream_ok acc s'.
Proof.
  intros H Ha Hz Hs He Ht Hp Hi. pose proof Hi as Hi'. unfold inner in Hi'.
  assert (forall lo hi, queue_ok lo hi s -> queue_ok lo hi s') as Hq
    by (intros lo hi []; split; congruence).
  unfold stream_ok in *. rewrite Ht, Hp, Hs. destruct (terminal_error s); [by rewrite Hi|].
  destruct H as (? & ? & ? & [[[? ? Q] ?]|[? ? ? Hofo Q]]); split_and!; try done.
  - left. split; [|done]. split; [congruence|congruence|]. rewrite Hz. by apply Hq.
  - right. split; try congruence. rewrite Hz. by apply Hq.
Qed.

Lemma stream_same acc s s' :
  stream_ok acc s -> outer s' = outer s -> inner s' = inner s -> stream_ok acc s'.
Proof.
  intros H Ho Hi. destruct (outer_eq _ _ Ho) as (? & ? & ? & ? & _ & _ & ?).
  by apply (stream_repack acc s); [..|apply outer_pending|].
Qed.

Lemma abort_ok e acc s : stream_ok acc s -> stream_ok acc (tcp_abort_stream e s).
Proof.
  intros H%stream_prefix. destruct H. unfold stream_ok.
  set (s1 := with_rx_current None (with_rx_queue [] (with_status TCP_STATUS_CLOSED s))).
  pose proof (purge_nodes_outer (ofo s1) s1) as Ho. destruct (outer_eq _ _ Ho) as (_ & _ & Hs & _).
  cbn [terminal_error tcp_abort_stream with_terminal_error]. split_and!; try done.
  exact (outer_pending _ _ Ho).
Qed.

Lemma apply_eof_ok tw acc s : terminal_error s = None -> stream_ok acc s ->
  stream_ok acc (snd (tcp_apply_peer_eof tw s)).
Proof.
  intros Ht Hs. destruct (peer_eof s) eqn:E; [|by rewrite apply_open].
  assert (forall st, st <> TCP_STATUS_CLOSED -> stream_ok acc (with_status st s)) as Hst.
  { intros st Hne. unfold stream_ok in *. cbn [terminal_error with_status]. rewrite Ht in *. cbv zeta in *.
    destruct Hs as (_ & ? & ? & [[[_ ? _] _]|Fn]); [congruence|]. split_and!; try done. right.
    destruct Fn as [? ? ? ? Q]. split; try done. by destruct Q. }
  unfold tcp_apply_peer_eof. rewrite E. cbn [negb].
  destruct (status s); cbn [snd]; try done; try by apply Hst.
  unfold tcp_enter_time_wait. destruct tw; [by apply Hst|by apply abort_ok, Hst].
Qed.

Lemma delivers_stream acc s s1 :
  terminal_error s = None -> status s <> TCP_STATUS_CLOSED -> past_eof (status s) = false ->
  chunk 0 (acc ++ pending s) -> fits (zlen (acc ++ pending s)) false ->
  delivers (zlen (acc ++ pending s)) s s1 -> stream_ok acc s1.
Proof.
  intros Ht Hs Hp Hc Hf (? & Hs1 & ? & Ht1 & d & Hpd & Hd & Hf' & Hend). unfold stream_ok.
  rewrite Ht1, Ht, Hpd, app_assoc, zlen_app, Hs1. split_and!; try done; [by apply chunk_app|by apply Hf'|].
  destruct Hend; [by left|by right].
Qed.

Lemma receive_stream_ok mem rx_ok tw p payload fin acc s :
  stream_ok acc s -> terminal_error s = None -> segment (zlen (acc ++ pending s)) p payload fin ->
  stream_ok acc (snd (tcp_receive_stream_range mem rx_ok tw (at_pos p) payload fin s)).
Proof.
  intros Hs Ht G. pose proof Hs as H. unfold stream_ok in H. rewrite Ht in H.
  destruct H as (Hne & Hc & Hf & [[L Hp]|Fn]).
  - destruct (receive_range_ok mem rx_ok tw _ p payload fin s L Hp G) as (s1 & D & ->).
    pose proof D as (_ & _ & _ & Ht1 & _). apply apply_eof_ok; [congruence|by eapply delivers_stream].
  - assert (tcp_receive_stream_range mem rx_ok tw (at_pos p) payload fin s =
      (true, (if past_eof (status s) then with_peer_eof true else id)
               (tcp_sack_note_duplicate (at_pos p) (zlen payload) s))) as ->.
    { unfold tcp_receive_stream_range, receive_range. cbv zeta.
      destruct (note_duplicate_outer (at_pos p) (zlen payload) s) as [Ho _].
      destruct (outer_eq _ _ Ho) as (_ & _ & -> & He & _). destruct (past_eof (status s)); [done|].
      unfold id. by rewrite He, (fn_eof _ _ _ _ _ Fn). }
    cbn [snd].
    destruct (note_duplicate_outer (at_pos p) (zlen payload) s) as [Ho Hi].
    apply (stream_same _ _ _ Hs); [|by destruct (past_eof _)].
    destruct (past_eof (status s)); [|done]. unfold outer. cbn -[tcp_sack_note_duplicate].
    destruct (outer_eq _ _ Ho) as (-> & -> & -> & _ & -> & -> & ->). by rewrite (fn_eof _ _ _ _ _ Fn).
Qed.

(** Reading [n] bytes of the current blob. *)
Lemma read_queue_ok lo hi b n s s2 :
  queue_ok lo hi s -> rx_current s = Some b -> 0 <= n <= zlen b ->
  s2 = with_rcvbuf_used (if rcvbuf_used s <? n then 0 else rcvbuf_used s - n)
         (with_rx_current (Some (drop (Z.to_nat n) b)) s) ->
  queue_ok lo hi s2 /\ take (Z.to_nat n) b ++ pending s2 = pending s.
Proof.
  intros Q Hb Hn ->. assert (take (Z.to_nat n) b ++ (drop (Z.to_nat n) b ++ concat (rx_queue s)) = pending s) as Hp.
  { unfold pending. rewrite Hb, app_assoc, take_drop. done. }
  split; [|done]. pose proof (held_len_nonneg (ofo s)).
  pose proof (f_equal zlen Hp) as Hl. rewrite !zlen_app, zlen_take in Hl by lia.
  pose proof (zlen_nonneg (drop (Z.to_nat n) b)). pose proof (zlen_nonneg (concat (rx_queue s))).
  destruct Q. split; try done; cbn -[zlen held_len pending]; bsplit; try lia.
  unfold pending at 1. cbn -[zlen held_len]. rewrite zlen_app. lia.
Qed.

Definition recv_bytes (r : recv_result) : list Z :=
  match r with RecvBytes b => b | RecvError _ => [] end.

Lemma apply_eof_blobs tw s s' :
  tcp_apply_peer_eof tw s = (true, s') -> rx_current s' = rx_current s /\ rx_queue s' = rx_queue s.
Proof.
  unfold tcp_apply_peer_eof, tcp_enter_time_wait. destruct (negb (peer_eof s)); [by intros [= <-]|].
  destruct (status s); try by intros [= <-]. destruct tw; [by intros [= <-]|done].
Qed.

(** A read from blob [b]: [s] after the bytes were taken, before the queue is
    drained. *)
Lemma read_drain_ok rx_ok acc s s2 b n :
  stream_ok acc s -> terminal_error s = None -> rx_current s = Some b -> 0 <= n <= zlen b ->
  s2 = with_rcvbuf_used (if rcvbuf_used s <? n then 0 else rcvbuf_used s - n)
         (with_rx_current (Some (drop (Z.to_nat n) b)) s) ->
  let s3 := tcp_ofo_drain rx_ok s2 in
  stream_ok (acc ++ take (Z.to_nat n) b) s3 /\ terminal_error s3 = None /\
  rx_current s3 = Some (drop (Z.to_nat n) b).
Proof.
  intros Hs Ht Hb Hn E. unfold stream_ok in Hs. rewrite Ht in Hs. destruct Hs as (Hne & Hc & Hf & Hcase).
  assert (forall lo hi, queue_ok lo hi s -> queue_ok lo hi s2 /\ take (Z.to_nat n) b ++ pending s2 = pending s)
    as Hr by (intros; by eapply read_queue_ok).
  assert (take (Z.to_nat n) b ++ pending s2 = pending s) as Hp.
  { destruct Hcase as [[[_ _ Q] _]|[_ _ _ _ Q]]; by destruct (Hr _ _ Q). }
  assert (terminal_error s2 = None /\ rx_current s2 = Some (drop (Z.to_nat n) b) /\ status s2 = status s /\
    recv_ack s2 = recv_ack s /\ rcvbuf_size s2 = rcvbuf_size s /\ peer_eof s2 = peer_eof s /\ ofo s2 = ofo s)
    as (Ht2 & Hb2 & Hs2 & Ha2 & Hz2 & He2 & Ho2) by by rewrite E.
  rewrite <- Hp, app_assoc in Hc, Hf, Hcase. cbv zeta.
  destruct Hcase as [[[Ha He Q] Hpe]|[HF Ha He Hofo Q]]; destruct (Hr _ _ Q) as [Q2 _].
  - assert (delivers (zlen ((acc ++ take (Z.to_nat n) b) ++ pending s2)) s2 (tcp_ofo_drain rx_ok s2)) as D.
    { eapply drain_ok; [by rewrite Hz2|lia|congruence|congruence]. }
    pose proof D as (_ & _ & Hrc & Ht3 & _). split_and!; [|congruence|congruence].
    eapply delivers_stream; try done; congruence.
  - assert (tcp_ofo_drain rx_ok s2 = s2) as -> by (unfold tcp_ofo_drain; by rewrite Ho2, Hofo).
    split_and!; try done. unfold stream_ok. rewrite Ht2. split_and!; try done; [congruence|right].
    split; congruence.
Qed.

Lemma recv_stream_ok rx_ok tw len acc s :
  0 <= len -> stream_ok acc s ->
  stream_ok (acc ++ recv_bytes (fst (tcp_recv rx_ok tw len s))) (snd (tcp_recv rx_ok tw len s)).
Proof.
  intros Hlen Hs. unfold tcp_recv, recv_copy. destruct (len =? 0); [cbn; by rewrite app_nil_r|].
  destruct (terminal_error s) eqn:Ht; [cbn; by rewrite app_nil_r|]. cbv zeta.
  set (s0 := match rx_current s with Some _ => _ | None => _ end).
  assert (stream_ok acc s0 /\ terminal_error s0 = None) as [Hs0 Ht0].
  { unfold s0. destruct (rx_current s) eqn:Ec; [done|]. destruct (rx_queue s) as [|b t] eqn:Eq; [done|].
    split; [|done]. apply (stream_repack acc s); try done. unfold pending. cbn. by rewrite Ec, Eq. }
  destruct (rx_current s0) as [b|] eqn:Eb; [|by destruct (_ || _); cbn; rewrite app_nil_r].
  pose proof (zlen_nonneg b) as Hb. set (n := len `min` zlen b). set (s2 := with_rcvbuf_used _ _).
  destruct (read_drain_ok rx_ok acc s0 s2 b n Hs0 Ht0 Eb ltac:(lia) eq_refl) as (Hs3 & Ht3 & Hc3).
  pose proof (apply_eof_ok tw _ _ Ht3 Hs3) as Hs4.
  destruct (tcp_apply_peer_eof tw _) as [ok s4] eqn:Ea. cbn [fst snd recv_bytes] in *.
  destruct (ok && _) eqn:Eok; [|done]. bprop. subst ok. apply apply_eof_blobs in Ea as [Hc4 _].
  apply (stream_repack _ s4); try done. unfold pending. cbn. rewrite Hc4, Hc3. cbn. rewrite drop_ge; [done|].
  unfold zlen in *. lia.
Qed.

(** ** Histories *)

(** A state and the bytes the application has read. *)
Inductive rx_step : tcp_rx * list Z -> tcp_rx * list Z -> Prop :=
| step_segment mem rx_ok tw p payload fin s acc :
    terminal_error s = None -> segment (zlen (acc ++ pending s)) p payload fin ->
    rx_step (s, acc) (snd (tcp_receive_stream_range mem rx_ok tw (at_pos p) payload fin s), acc)
| step_read rx_ok tw len s acc :
    0 <= len ->
    rx_step (s, acc) (snd (tcp_recv rx_ok tw len s), acc ++ recv_bytes (fst (tcp_recv rx_ok tw len s)))
| step_status st s acc :
    terminal_error s = None -> st <> TCP_STATUS_CLOSED -> (past_eof st = true -> peer_eof s = true) ->
    rx_step (s, acc) (with_status st s, acc)
| step_abort e s acc : rx_step (s, acc) (tcp_abort_stream e s, acc).

Definition rx_start (s : tcp_rx) : Prop :=
  recv_ack s = at_pos 0 /\ rcvbuf_size s = TCP_RCVBUF_SIZE /\ inner s = (0, [], 0, 0) /\
  status s = TCP_STATUS_ESTABLISHED /\ peer_eof s = false /\ pending s = [] /\ terminal_error s = None.

Lemma start_ok s : rx_start s -> fits 0 false -> stream_ok [] s.
Proof.
  intros (? & Hz & Hi & Hs & ? & Hp & Ht) Hf. unfold stream_ok. rewrite Ht, Hp, Hs. cbn.
  split_and!; try done. left. split; [|done]. unfold inner in Hi. injection Hi as Hu Ho Hc Hb.
  split; try done. split; rewrite ?Hu, ?Ho, ?Hc, ?Hb, ?Hz, ?Hp; try done. by apply segs_nil.
Qed.

Lemma status_step_ok st acc s :
  terminal_error s = None -> st <> TCP_STATUS_CLOSED -> (past_eof st = true -> peer_eof s = true) ->
  stream_ok acc s -> stream_ok acc (with_status st s).
Proof.
  intros Ht Hne Hp Hs. unfold stream_ok in *. cbn [terminal_error with_status]. rewrite Ht in *.
  change (pending (with_status st s)) with (pending s). cbv zeta in *.
  destruct Hs as (_ & ? & ? & [[[? Ho Q] _]|[? ? ? ? Q]]); split_and!; try done.
  - left. split; [split; try done; by destruct Q|]. cbn. destruct (past_eof st); [|done].
    rewrite Hp in Ho by done. done.
  - right. split; try done. by destruct Q.
Qed.

Lemma history_ok s0 s acc :
  rx_start s0 -> fits 0 false -> rtc rx_step (s0, []) (s, acc) -> stream_ok acc s.
Proof.
  intros H0 Hf H. apply (start_ok s0) in H0; [|done].
  change s with (fst (s, acc)). change acc with (snd (s, acc)) at 1. revert H.
  change (stream_ok (snd (s0, [] : list Z)) (fst (s0, [] : list Z))) in H0. 
  generalize dependent (s0, [] : list Z). generalize (s, acc). intros y x Hx H.
  induction H as [|x y z Hstep _ IH]; [done|]. apply IH. clear IH.
  destruct Hstep; cbn [fst snd] in *;
    eauto using receive_stream_ok, recv_stream_ok, status_step_ok, abort_ok.
Qed.

(** The next expected bytes are delivered when there is room and memory. *)
Lemma receive_next_progress mem rx_ok pos payload fin s :
  live pos s -> zlen payload <= tcp_ofo_rcv_wnd s -> zlen payload <= TCP_MEMORY_CHUNK_SIZE ->
  rx_ok (length (rx_queue s)) = true -> fits (pos + zlen payload) fin ->
  exists d, pending (receive_next mem rx_ok payload fin (at_pos pos) s) = pending s ++ payload ++ d.
Proof.
  intros L Hw Hchunk Hrx Hf. unfold receive_next. pose proof (zlen_nonneg payload) as Hn.
  destruct (if 0 <? _ then _ else _) as [ok s1] eqn:E. destruct ok; cbn [negb].
  2: { destruct (0 <? zlen payload); [|done]. unfold tcp_deliver_payload in E.
       rewrite Hrx, (proj2 (Z.ltb_ge _ _) Hchunk) in E. by destruct (zlen payload =? 0) in E. }
  pose proof (deliver_next_ok rx_ok pos payload s s1 L Hw E) as D. cbv zeta in *.
  destruct D as (? & ? & ? & ? & Hp & Ha & He & Q). set (s2 := with_rcvbuf_used _ _) in *.
  assert (exists s', delivers (pos + zlen payload) s2 s' /\
    (if fin then tcp_ofo_purge (tcp_note_peer_eof (with_recv_ack (u32 (recv_ack s2 + 1)) s2))
     else tcp_ofo_drain rx_ok s2) = s') as (s' & (_ & _ & _ & _ & d & Hd & _) & ->).
  { eexists. split; [|done]. destruct fin; [|eapply drain_ok; try done; change TCP_MEMORY_CHUNK_SIZE with 2048 in *; lia].
    eapply eof_ok; try done. by apply Hf. }
  exists d. by rewrite Hd, Hp, app_assoc.
Qed.

Lemma receive_range_next mem rx_ok tw pos payload (fin : bool) s :
  live pos s -> past_eof (status s) = false -> 0 < zlen payload <= 2048 ->
  zlen payload + (if fin then 1 else 0) <= tcp_ofo_rcv_wnd s ->
  tcp_receive_stream_range mem rx_ok tw (at_pos pos) payload fin s =
  tcp_apply_peer_eof tw
    (receive_next mem rx_ok payload fin (at_pos pos) (tcp_sack_note_duplicate (at_pos pos) (zlen payload) s)).
Proof.
  intros L Hpast Hsome Hwnd. unfold tcp_receive_stream_range, receive_range. cbv zeta.
  destruct (note_duplicate_live pos (at_pos pos) (zlen payload) s L) as (L1 & Hs1 & Hw1 & _ & _ & Ha1).
  set (s0 := tcp_sack_note_duplicate _ _ s) in *.
  rewrite Hs1, Hpast, (lv_open _ _ _ _ _ L1), Hw1, <- Ha1, (lv_ack _ _ _ _ _ L1), Z.eqb_refl.
  pose proof (lv_queue _ _ _ _ _ L1) as Q. pose proof (queue_ok_ranges _ _ _ _ _ _ Q) as R.
  rewrite Hw1 in Hwnd. pose proof (rcv_wnd_eq _ _ _ _ _ _ Q) as Hw.
  assert (tcp_segment_acceptable (at_pos pos) (zlen payload) fin s0 = true) as ->.
  { unfold tcp_segment_acceptable. cbv zeta. rewrite (lv_ack _ _ _ _ _ L1).
    rewrite u16_small, !at_pos_add by (wunfold; lia). revert Hwnd.
    assert (0 <= (if fin then 1 else 0) <= 1) as Hk by by destruct fin. revert Hk.
    generalize (if fin then 1 else 0). intros k ? ?. rewrite seq_gt_pos, !seq_lt_pos by lia. bsplit; lia. }
  cbn [negb]. rewrite !at_pos_add, !seq_gt_pos, !seq_lt_pos by (destruct fin; lia).
  destruct (pos + tcp_ofo_rcv_wnd s0 <? _) eqn:E1; bprop; [destruct fin; lia|]. destruct fin; [|done].
  by rewrite (proj2 (Z.ltb_lt (pos + zlen payload) (pos + tcp_ofo_rcv_wnd s0))) by lia.
Qed.

End History.

(** C6: whatever the order, loss, duplication and overlap in which segments of
    the peer's stream arrive, interleaved with reads and state changes, the
    bytes the application has read are a prefix of the stream that never runs
    past its FIN.  While the connection is not aborted the bytes read followed
    by the bytes still buffered for reading are exactly the stream up to
    RCV.NXT, and end of file is reported only at the position of the FIN. *)
Theorem tcp_stream_prefix isn stream F s0 s acc
    (H0 : rx_start isn s0) (HF : fits F 0 false)
    (H : rtc (rx_step isn stream F) (s0, []) (s, acc)) :
  acc = bytes stream 0 (length acc) /\ (forall f, F = Some f -> zlen acc <= f) /\
  (terminal_error s = None ->
   let n := zlen (acc ++ pending s) in
   acc ++ pending s = bytes stream 0 (length (acc ++ pending s)) /\
   recv_ack s = u32 (isn + n + (if peer_eof s then 1 else 0)) /\
   (peer_eof s = true -> F = Some n)).
Proof.
  apply (history_ok _ _ _ _ _ _ H0 HF) in H. destruct (stream_prefix _ _ _ _ _ H) as [Hc [_ Hf]].
  split_and!; [done|done|]. intros Ht. unfold stream_ok in H. rewrite Ht in H. cbv zeta.
  destruct H as (_ & ? & _ & [[[Ha He _] _]|[? Ha He _ _]]); rewrite He, Ha; unfold at_pos;
    split_and!; try done; f_equal; lia.
Qed.

(** in every history the receive-buffer accounting is exact: the bytes
    charged are the bytes waiting for the application plus the bytes queued
    out of order, they never exceed the buffer, and the queue's own counters
    are its length and its size, within the segment limit. *)
Theorem tcp_rx_accounting isn stream F s0 s acc
    (H0 : rx_start isn s0) (HF : fits F 0 false)
    (H : rtc (rx_step isn stream F) (s0, []) (s, acc)) :
  rcvbuf_used s = zlen (pending s) + held_len (ofo s) /\ rcvbuf_used s <= TCP_RCVBUF_SIZE /\
  ofo_bytes s = held_len (ofo s) /\ ofo_count s = zlen (ofo s) /\ ofo_count s <= TCP_OFO_MAX_SEGS.
Proof.
  apply (history_ok _ _ _ _ _ _ H0 HF) in H. unfold stream_ok in H. destruct (terminal_error s).
  - destruct H as (_ & _ & _ & -> & Hi). injection Hi as -> -> -> ->. by vm_compute.
  - destruct H as (_ & _ & _ & [[[_ _ Q] _]|[_ _ _ _ Q]]); destruct Q; split_and!; try done; lia.
Qed.

(** the byte the receiver waits for is not lost: in every history, a
    segment that starts at RCV.NXT, fits the window and a memory chunk and can
    be queued is delivered to the application at once, followed by whatever
    the out-of-order queue held behind it. *)
Theorem tcp_in_order_progress isn stream F s0 s acc mem rx_ok tw payload (fin : bool)
    (H0 : rx_start isn s0) (HF : fits F 0 false)
    (H : rtc (rx_step isn stream F) (s0, []) (s, acc))
    (Hopen : terminal_error s = None) (Heof : peer_eof s = false)
    (Hseg : segment stream F (zlen (acc ++ pending s)) (zlen (acc ++ pending s)) payload fin)
    (Hwnd : zlen payload + (if fin then 1 else 0) <= tcp_ofo_rcv_wnd s)
    (Hsome : 0 < zlen payload <= TCP_MEMORY_CHUNK_SIZE)
    (Hrx : rx_ok (length (rx_queue s)) = true) :
  let '(ok, s') := tcp_receive_stream_range mem rx_ok tw (recv_ack s) payload fin s in
  ok = true -> exists d, pending s' = pending s ++ payload ++ d.
Proof.
  apply (history_ok _ _ _ _ _ _ H0 HF) in H. unfold stream_ok in H. rewrite Hopen in H.
  destruct H as (Hne & Hc & Hf & [[L Hp]|[_ _ He _ _]]); [|congruence].
  destruct (tcp_receive_stream_range _ _ _ _ _ _ _) as [ok s'] eqn:E. intros ->.
  rewrite (lv_ack _ _ _ _ _ L), (receive_range_next isn stream F) in E by done.
  destruct (note_duplicate_live _ _ _ _ (at_pos isn (zlen (acc ++ pending s))) (zlen payload) s L)
    as (L1 & _ & Hw1 & Hp1 & Hq1 & _).
  destruct (receive_next_progress _ _ _ mem rx_ok _ payload fin _ L1) as [d Hd];
    [rewrite <- Hw1; destruct fin; lia|lia|by rewrite Hq1|by destruct Hseg|].
  apply apply_eof_blobs in E as [Hc' Hq']. exists d. rewrite <- Hp1, <- Hd. unfold pending. by rewrite Hc', Hq'.
Qed.

(** ** A concrete history

    Eight bytes and a FIN, with the initial sequence number close to 2^32: the
    tail of the stream arrives first, then an overlapping head, and the
    application reads everything. *)
Section Example.
Let stream (p : Z) : Z := p + 10.
Let isn : Z := 4294967292.
Let mem (_ : nat) : ofo_mem := mk_omem 1000 1000 1000 1000 true true.
Let rx_ok (_ : nat) : bool := true.

Definition demo_start : tcp_rx :=
  mk_rx 4294967292 TCP_RCVBUF_SIZE 0 [] 0 0 0 true None None 0 TCP_STATUS_ESTABLISHED false [] None
    (mk_owner metrics_zero 0 0 false) None.
Definition demo_tail : tcp_rx :=
  snd (tcp_receive_stream_range mem rx_ok true (at_pos isn 4) (bytes stream 4 4) true demo_start).
Definition demo_head : tcp_rx :=
  snd (tcp_receive_stream_range mem rx_ok true (at_pos isn 0) (bytes stream 0 6) false demo_tail).

Lemma demo_rx_start : rx_start isn demo_start.
Proof. by split_and!. Qed.

Lemma demo_fits p n fin : 0 <= p + n <= 8 -> (fin = true -> p + n = 8) -> fits (Some 8) (p + n) fin.
Proof. intros ? Hf. split; [intros E; by rewrite (Hf E)|]. intros f [= <-]. lia. Qed.

Lemma demo_segment pos p n fin :
  -100 <= p - pos <= 100 -> (n <= 8)%nat -> 0 <= p + Z.of_nat n <= 8 -> (fin = true -> p + Z.of_nat n = 8) ->
  segment stream (Some 8) pos p (bytes stream p n) fin.
Proof.
  intros. split; unfold zlen, chunk; rewrite ?length_bytes; try done; [lia|lia|].
  by apply demo_fits.
Qed.

Lemma demo_step_tail : rx_step isn stream (Some 8) (demo_start, []) (demo_tail, []).
Proof. apply (step_segment isn stream (Some 8) mem rx_ok true 4); [done|]. apply demo_segment; cbn; (lia || done). Qed.

Lemma demo_step_head : rx_step isn stream (Some 8) (demo_tail, []) (demo_head, []).
Proof.
  apply (step_segment isn stream (Some 8) mem rx_ok true 0); [by vm_compute|].
  replace (zlen _) with 0 by by vm_compute. apply demo_segment; (lia || done).
Qed.

Lemma demo_history : rtc (rx_step isn stream (Some 8)) (demo_start, []) (demo_head, []).
Proof. eapply rtc_l; [exact demo_step_tail|]. eapply rtc_l; [exact demo_step_head|]. apply rtc_refl. Qed.

Lemma tcp_stream_prefix_witness :
  pending demo_tail = [] /\ pending demo_head = [10; 11; 12; 13; 14; 15; 16; 17] /\
  peer_eof demo_head = true /\
  (peer_eof demo_head = true -> Some 8 = Some (zlen ([] ++ pending demo_head))).
Proof.
  split_and!; [by vm_compute..|].
  apply (tcp_stream_prefix isn stream (Some 8) demo_start demo_head []
    demo_rx_start (demo_fits 0 0 false ltac:(lia) ltac:(done)) demo_history). by vm_compute.
Defined.

Lemma tcp_rx_accounting_witness :
  ofo_count demo_tail = 1 /\ rcvbuf_used demo_tail = 4 /\ ofo_bytes demo_tail = held_len (ofo demo_tail).
Proof.
  split_and!; [by vm_compute..|].
  apply (tcp_rx_accounting isn stream (Some 8) demo_start demo_tail [] demo_rx_start
    (demo_fits 0 0 false ltac:(lia) ltac:(done)) (rtc_once _ _ demo_step_tail)).
Defined.

Lemma tcp_in_order_progress_witness :
  exists d, pending demo_head = pending demo_tail ++ bytes stream 0 6 ++ d.
Proof.
  pose proof (tcp_in_order_progress isn stream (Some 8) demo_start demo_tail [] mem rx_ok true
    (bytes stream 0 6) false demo_rx_start (demo_fits 0 0 false ltac:(lia) ltac:(done))
    (rtc_once _ _ demo_step_tail)) as H.
  assert (zlen ([] ++ pending demo_tail) = 0) as Hz by by vm_compute.
  unfold demo_head. rewrite Hz in H.
  assert (recv_ack demo_tail = at_pos isn 0) as Ha by by vm_compute. rewrite Ha in H.
  destruct (tcp_receive_stream_range mem rx_ok true (at_pos isn 0) (bytes stream 0 6) false demo_tail)
    as [ok s'] eqn:E. cbn [snd].
  apply H; [by vm_compute..|apply demo_segment; (lia || done)|by vm_compute| |done|].
  - split; by vm_compute.
  - transitivity (fst (tcp_receive_stream_range mem rx_ok true (at_pos isn 0) (bytes stream 0 6) false demo_tail));
      [by rewrite E|by vm_compute].
Defined.
End Example.
