(* ===== verification/TcpSndBuf.v ===== *)
(** * The TCP send buffer (pro-stack/tcp.c: tcp_sndbuf_init .. tcp_sndbuf_peek)

    Application bytes stay in a chain of chunks until they are acknowledged.
    A chunk's [data[0 .. len)] is [cdata]; [coff] is its acknowledged prefix.
    The owner's byte gauges are [sb_mem]; whether the [k]-th chunk of a call
    can be allocated is an argument.  The buffer refines a queue of bytes: an
    append adds at the end, an acknowledgement removes at the front, and a
    look-up by sequence number sees the bytes at that place. *)

From S2P Require Import Prelude Config SeqNum.

Record tcp_tx_chunk := mk_chunk { cdata : list Z; coff : Z; chunk_seq : Z }.

Record tcp_sndbuf := mk_sndbuf {
  chunks : list tcp_tx_chunk;
  sb_len : Z;
  head_seq : Z;
  unacked : Z
}.

(** [sndbuf_bytes] and [unacked_bytes] of [struct tcp_owner_memory]. *)
Record sb_mem := mk_sbmem { sndbuf_bytes : resource_metric; unacked_bytes : resource_metric }.

Definition tcp_sndbuf_init (isn : Z) : tcp_sndbuf := mk_sndbuf [] 0 isn 0.

Definition tcp_sndbuf_free (m : sb_mem) (sb : tcp_sndbuf) : sb_mem * tcp_sndbuf :=
  (mk_sbmem (resource_release (sb_len sb) (sndbuf_bytes m)) (resource_release (unacked sb) (unacked_bytes m)),
   mk_sndbuf [] 0 (head_seq sb) 0).

Definition tcp_sndbuf_reset (m : sb_mem) (seq : Z) (sb : tcp_sndbuf) : sb_mem * tcp_sndbuf :=
  let '(m1, sb1) := tcp_sndbuf_free m sb in (m1, mk_sndbuf (chunks sb1) (sb_len sb1) seq (unacked sb1)).

(** Copying [part] behind the bytes of the last chunk. *)
Definition chunk_fill (part : list Z) (c : tcp_tx_chunk) : tcp_tx_chunk :=
  mk_chunk (cdata c ++ part) (coff c) (chunk_seq c).
Fixpoint fill_tail (part : list Z) (l : list tcp_tx_chunk) : list tcp_tx_chunk :=
  match l with
  | [] => []
  | [c] => [chunk_fill part c]
  | c :: t => c :: fill_tail part t
  end.

(** Free bytes of the tail chunk. *)
Definition tail_space (l : list tcp_tx_chunk) : Z :=
  match last l with Some c => TCP_MEMORY_CHUNK_SIZE - zlen (cdata c) | None => 0 end.

(** Each round copies at least one byte or stops. *)
Fixpoint append_loop (fuel : nat) (alloc : nat -> bool) (k : nat) (data : list Z) (copied : Z)
    (m : sb_mem) (sb : tcp_sndbuf) : Z * (sb_mem * tcp_sndbuf) :=
  match fuel with
  | O => (copied, (m, sb))
  | S f =>
      if zlen data =? 0 then (copied, (m, sb))
      else
        let grow := tail_space (chunks sb) =? 0 in
        if grow && negb (alloc k) then (copied, (m, sb))
        else
          let l := if grow then chunks sb ++ [mk_chunk [] 0 (u32 (head_seq sb + sb_len sb))] else chunks sb in
          let space := if grow then TCP_MEMORY_CHUNK_SIZE else tail_space (chunks sb) in
          let n := Z.min (zlen data) space in
          append_loop f alloc (if grow then S k else k) (drop (Z.to_nat n) data) (copied + n)
            (mk_sbmem (resource_acquire n (sndbuf_bytes m)) (unacked_bytes m))
            (mk_sndbuf (fill_tail (take (Z.to_nat n) data) l) (u32 (sb_len sb + n)) (head_seq sb) (unacked sb))
  end.

(** The bytes accepted; [-1] when none could be, [0] for an empty request. *)
Definition tcp_sndbuf_append (alloc : nat -> bool) (data : list Z) (m : sb_mem) (sb : tcp_sndbuf)
    : Z * (sb_mem * tcp_sndbuf) :=
  if zlen data =? 0 then (0, (m, sb))
  else
    let '(copied, r) := append_loop (length data) alloc 0 data 0 m sb in
    (if copied =? 0 then -1 else copied, r).

Fixpoint remove_chunks (len : Z) (l : list tcp_tx_chunk) : list tcp_tx_chunk :=
  match l with
  | [] => []
  | c :: t =>
      if len =? 0 then l
      else
        let available := zlen (cdata c) - coff c in
        let n := Z.min len available in
        if coff c + n =? zlen (cdata c) then remove_chunks (len - n) t
        else mk_chunk (cdata c) (coff c + n) (chunk_seq c) :: t
  end.

(** Bytes the loop takes off the chain. *)
Fixpoint removed (len : Z) (l : list tcp_tx_chunk) : Z :=
  match l with
  | [] => 0
  | c :: t =>
      if len =? 0 then 0
      else let n := Z.min len (zlen (cdata c) - coff c) in
           n + (if coff c + n =? zlen (cdata c) then removed (len - n) t else 0)
  end.

Definition tcp_sndbuf_remove (len : Z) (m : sb_mem) (sb : tcp_sndbuf) : sb_mem * tcp_sndbuf :=
  if len =? 0 then (m, sb)
  else
    let len := Z.min len (sb_len sb) in
    let acked := Z.min len (unacked sb) in
    let n := removed len (chunks sb) in
    (mk_sbmem (resource_release len (sndbuf_bytes m)) (resource_release acked (unacked_bytes m)),
     mk_sndbuf (remove_chunks len (chunks sb)) (u32 (sb_len sb - n)) (u32 (head_seq sb + n)) (unacked sb - acked)).

Fixpoint peek_chunks (skip : Z) (l : list tcp_tx_chunk) : option (list Z) :=
  match l with
  | [] => None
  | c :: t =>
      let bytes := zlen (cdata c) - coff c in
      if skip <? bytes then Some (drop (Z.to_nat (coff c + skip)) (cdata c)) else peek_chunks (skip - bytes) t
  end.

(** The bytes from [seq] to the end of their chunk. *)
Definition tcp_sndbuf_peek (seq : Z) (sb : tcp_sndbuf) : option (list Z) :=
  if seq_lt seq (head_seq sb) || negb (seq_lt seq (u32 (head_seq sb + sb_len sb))) then None
  else peek_chunks (u32 (seq - head_seq sb)) (chunks sb).

(** ** The queue of bytes *)

Definition chunk_bytes (c : tcp_tx_chunk) : list Z := drop (Z.to_nat (coff c)) (cdata c).
Definition contents (sb : tcp_sndbuf) : list Z := concat (map chunk_bytes (chunks sb)).

(** Every chunk holds between one unacknowledged byte and a full chunk. *)
Definition chunk_ok (c : tcp_tx_chunk) : Prop :=
  0 <= coff c < zlen (cdata c) /\ zlen (cdata c) <= TCP_MEMORY_CHUNK_SIZE.

Record sndbuf_ok (sb : tcp_sndbuf) : Prop := {
  so_chunks : Forall chunk_ok (chunks sb);
  so_len : sb_len sb = zlen (contents sb);
  so_small : sb_len sb <= 1073741824;
  so_head : in_u32 (head_seq sb);
  so_unacked : 0 <= unacked sb <= sb_len sb
}.

Lemma zlen_chunk_bytes c : chunk_ok c -> zlen (chunk_bytes c) = zlen (cdata c) - coff c.
Proof. intros [? ?]. unfold chunk_bytes. apply zlen_drop. lia. Qed.

Lemma fill_tail_snoc part l c : fill_tail part (l ++ [c]) = l ++ [chunk_fill part c].
Proof. induction l as [|x l IH]; [done|]. cbn [app fill_tail]. rewrite IH. by destruct l. Qed.

Lemma fill_bytes part c : chunk_ok c \/ coff c = 0 -> chunk_bytes (chunk_fill part c) = chunk_bytes c ++ part.
Proof.
  intros H. unfold chunk_bytes, chunk_fill. cbn. apply drop_app_le.
  destruct H as [[? ?]| ->]; [unfold zlen in *|]; lia.
Qed.

(** One round of the append loop. *)
Lemma append_round grow data sb
    (l := if grow : bool then chunks sb ++ [mk_chunk [] 0 (u32 (head_seq sb + sb_len sb))] else chunks sb)
    (space := if grow then TCP_MEMORY_CHUNK_SIZE else tail_space (chunks sb))
    (n := Z.min (zlen data) space)
    (sb' := mk_sndbuf (fill_tail (take (Z.to_nat n) data) l) (u32 (sb_len sb + n)) (head_seq sb) (unacked sb)) :
  sndbuf_ok sb -> 0 < zlen data -> grow = (tail_space (chunks sb) =? 0) ->
  sb_len sb + zlen data <= 1073741824 ->
  0 < n <= zlen data /\ sndbuf_ok sb' /\ contents sb' = contents sb ++ take (Z.to_nat n) data /\
  sb_len sb' = sb_len sb + n.
Proof.
  intros [Hc Hl Hs Hh Hu] Hd Hg Hroom. change TCP_MEMORY_CHUNK_SIZE with 2048 in *.
  assert (exists l0 c, l = l0 ++ [c] /\ Forall chunk_ok l0 /\ (chunk_ok c \/ coff c = 0) /\
    0 <= coff c <= zlen (cdata c) /\ zlen (cdata c) + space = 2048 /\ 0 < space /\
    concat (map chunk_bytes l0) ++ chunk_bytes c = contents sb) as (l0 & c & El & Hl0 & Hcase & Hoff & Hsp & Hpos & Hcont).
  { subst l space. destruct grow.
    - exists (chunks sb), (mk_chunk [] 0 (u32 (head_seq sb + sb_len sb))).
      split_and!; cbn; try (done || lia); try apply app_nil_r.
    - unfold tail_space in *. destruct (last (chunks sb)) as [c0|] eqn:Elast; [|done].
      apply last_Some in Elast as [l0 El]. rewrite El in Hc |- *. apply Forall_app in Hc as [Hl0 Hc0].
      rewrite Forall_singleton in Hc0. exists l0, c0. symmetry in Hg. apply Z.eqb_neq in Hg.
      unfold contents. rewrite El, map_app, concat_app. cbn [map concat]. rewrite app_nil_r.
      pose proof Hc0 as Hc1. unfold chunk_ok in Hc1. change TCP_MEMORY_CHUNK_SIZE with 2048 in *.
      split_and!; try (done || lia); by left. }
  assert (0 < n <= zlen data) as Hn by lia. assert (zlen (take (Z.to_nat n) data) = n) as Ht by (apply zlen_take; lia).
  assert (chunks sb' = l0 ++ [chunk_fill (take (Z.to_nat n) data) c]) as Hch.
  { unfold sb'. cbn [chunks]. by rewrite El, fill_tail_snoc. }
  assert (contents sb' = contents sb ++ take (Z.to_nat n) data) as Hcont'.
  { unfold contents at 1. rewrite Hch, map_app, concat_app. cbn. rewrite app_nil_r, fill_bytes by done.
    by rewrite app_assoc, Hcont. }
  assert (u32 (sb_len sb + n) = sb_len sb + n) as Hu32 by (apply u32_small; wunfold; lia).
  split_and!; try done; try lia. split; cbn [sb_len head_seq unacked sb']; rewrite ?Hu32; try done; try lia.
  - rewrite Hch. apply Forall_app. split; [done|]. apply Forall_singleton. unfold chunk_ok, chunk_fill. cbn.
    rewrite zlen_app, Ht. change TCP_MEMORY_CHUNK_SIZE with 2048. lia.
  - rewrite Hcont', zlen_app, Ht. lia.
Qed.

Lemma append_loop_ok fuel alloc k data copied m sb :
  (length data <= fuel)%nat -> sndbuf_ok sb -> sb_len sb + zlen data <= 1073741824 ->
  exists n, 0 <= n <= zlen data /\ fst (append_loop fuel alloc k data copied m sb) = copied + n /\
    let sb' := snd (snd (append_loop fuel alloc k data copied m sb)) in
    sndbuf_ok sb' /\ contents sb' = contents sb ++ take (Z.to_nat n) data /\
    head_seq sb' = head_seq sb /\ unacked sb' = unacked sb /\
    ((forall j, alloc j = true) -> n = zlen data).
Proof.
  revert k data copied m sb. induction fuel as [|f IH]; intros k data copied m sb Hf Hok Hroom; cbn [append_loop].
  { destruct data; [|cbn in Hf; lia]. exists 0. cbn. rewrite app_nil_r. split_and!; try done; lia. }
  pose proof (zlen_nonneg data) as Hn0. assert (exists n, n = 0 /\ 0 <= n <= zlen data) as (n0 & -> & H0) by (exists 0; lia).
  destruct (zlen data =? 0) eqn:E0; bprop.
  { exists 0. cbn. rewrite app_nil_r. split_and!; try done; lia. }
  cbv zeta. set (grow := tail_space (chunks sb) =? 0). destruct (grow && negb (alloc k)) eqn:Eg.
  { exists 0. cbn. rewrite app_nil_r. split_and!; try done; [lia|]. intros Ha. bprop. by rewrite Ha in *. }
  destruct (append_round grow data sb Hok ltac:(lia) eq_refl Hroom) as (Hn & Hok' & Hc' & Hl').
  set (n := Z.min (zlen data) (if grow then _ else _)) in *. set (sb1 := mk_sndbuf _ _ _ _) in *.
  assert (zlen (drop (Z.to_nat n) data) = zlen data - n) as Hd by (apply zlen_drop; lia).
  destruct (IH (if grow then S k else k) (drop (Z.to_nat n) data) (copied + n)
    (mk_sbmem (resource_acquire n (sndbuf_bytes m)) (unacked_bytes m)) sb1)
    as (n1 & Hn1 & -> & Hok1 & Hc1 & Hh1 & Hu1 & Hall); [unfold zlen in *; lia|done|lia|].
  exists (n + n1). split_and!; try done; try lia; [|intros; rewrite Hall by done; lia].
  rewrite Hc1, Hc', <- app_assoc. f_equal.
  rewrite Z2Nat.inj_add by lia. apply take_take_drop.
Qed.

Lemma remove_chunks_ok len l :
  Forall chunk_ok l -> 0 <= len <= zlen (concat (map chunk_bytes l)) ->
  removed len l = len /\ Forall chunk_ok (remove_chunks len l) /\
  concat (map chunk_bytes (remove_chunks len l)) = drop (Z.to_nat len) (concat (map chunk_bytes l)).
Proof.
  revert len. induction l as [|c t IH]; intros len Hl Hlen; cbn [map concat removed remove_chunks] in *.
  { assert (len = 0) as -> by (change (zlen (@nil Z)) with 0 in Hlen; lia). done. }
  apply Forall_cons in Hl as [Hc Ht]. pose proof (zlen_chunk_bytes c Hc) as Hz. rewrite zlen_app in Hlen.
  destruct (len =? 0) eqn:E0; bprop; [subst; by split_and!; try apply Forall_cons|].
  pose proof Hc as [[Hc0 Hc1] Hc2].
  destruct (coff c + Z.min len (zlen (cdata c) - coff c) =? zlen (cdata c)) eqn:E; bprop.
  - destruct (IH (len - Z.min len (zlen (cdata c) - coff c)) Ht) as (-> & Hok & ->); [lia|].
    split_and!; [lia|done|]. rewrite drop_app_ge by (unfold zlen in *; lia). f_equal. unfold zlen in *. lia.
  - split_and!; [lia| |].
    + apply Forall_cons. split; [|done]. unfold chunk_ok. cbn. lia.
    + cbn [map concat]. rewrite drop_app_le by (unfold zlen in *; lia). f_equal.
      unfold chunk_bytes. cbn [cdata coff]. rewrite drop_drop. f_equal. lia.
Qed.

Lemma peek_chunks_ok skip l :
  Forall chunk_ok l -> 0 <= skip < zlen (concat (map chunk_bytes l)) ->
  exists b, peek_chunks skip l = Some b /\ 0 < zlen b <= TCP_MEMORY_CHUNK_SIZE /\
    b `prefix_of` drop (Z.to_nat skip) (concat (map chunk_bytes l)).
Proof.
  revert skip. induction l as [|c t IH]; intros skip Hl Hs; cbn [map concat peek_chunks] in *; [change (zlen (@nil Z)) with 0 in Hs; lia|].
  apply Forall_cons in Hl as [Hc Ht]. pose proof (zlen_chunk_bytes c Hc) as Hz. rewrite zlen_app in Hs.
  pose proof Hc as [[Hc0 Hc1] Hc2]. destruct (skip <? zlen (cdata c) - coff c) eqn:E; bprop.
  - eexists. split; [done|]. split; [rewrite zlen_drop; lia|].
    rewrite drop_app_le by (unfold zlen in *; lia). unfold chunk_bytes. rewrite drop_drop.
    rewrite Z2Nat.inj_add by lia. by eexists.
  - destruct (IH (skip - (zlen (cdata c) - coff c)) Ht) as (b & -> & Hb & Hp); [lia|].
    exists b. split; [done|]. split; [done|]. rewrite drop_app_ge by (unfold zlen in *; lia).
    replace (Z.to_nat skip - length (chunk_bytes c))%nat with (Z.to_nat (skip - (zlen (cdata c) - coff c))); [done|].
    unfold zlen in *. lia.
Qed.

Lemma append_ok alloc data m sb :
  sndbuf_ok sb -> sb_len sb + zlen data <= 1073741824 ->
  let r := tcp_sndbuf_append alloc data m sb in let sb' := snd (snd r) in
  exists n, 0 <= n <= zlen data /\ fst r = (if (n =? 0) && negb (zlen data =? 0) then -1 else n) /\
    sndbuf_ok sb' /\ contents sb' = contents sb ++ take (Z.to_nat n) data /\
    head_seq sb' = head_seq sb /\ unacked sb' = unacked sb /\ ((forall j, alloc j = true) -> n = zlen data).
Proof.
  intros Hok Hroom. unfold tcp_sndbuf_append. cbv zeta. pose proof (zlen_nonneg data) as Hn0.
  destruct (zlen data =? 0) eqn:E0; bprop.
  { exists 0. cbn. rewrite app_nil_r. split_and!; try done; lia. }
  destruct (append_loop_ok (length data) alloc 0 data 0 m sb ltac:(lia) Hok Hroom) as (n & Hn & Hf & Hr).
  destruct (append_loop _ _ _ _ _ _ _) as [cp r]. cbn [fst snd] in *. exists n. split; [done|].
  split; [|done]. subst cp. rewrite andb_true_r. by replace (0 + n) with n by lia.
Qed.

Lemma remove_ok len m sb :
  sndbuf_ok sb -> 0 <= len -> let sb' := snd (tcp_sndbuf_remove len m sb) in let n := Z.min len (sb_len sb) in
  sndbuf_ok sb' /\ contents sb' = drop (Z.to_nat n) (contents sb) /\ head_seq sb' = u32 (head_seq sb + n) /\
  unacked sb' = unacked sb - Z.min n (unacked sb) /\ sb_len sb' = sb_len sb - n.
Proof.
  intros [Hc Hl Hs Hh Hu] Hlen. unfold tcp_sndbuf_remove. cbv zeta. pose proof (zlen_nonneg (contents sb)) as H0.
  destruct (len =? 0) eqn:E0; bprop.
  { subst. rewrite Z.min_l by lia. cbn. rewrite Z.add_0_r, Z.min_l, !Z.sub_0_r, u32_small by (done || lia). by split_and!. }
  destruct (remove_chunks_ok (Z.min len (sb_len sb)) (chunks sb) Hc) as (Hr & Hok & Hcont); [unfold contents in *; lia|].
  cbn [snd]. rewrite Hr. assert (contents {| chunks := remove_chunks (Z.min len (sb_len sb)) (chunks sb);
    sb_len := u32 (sb_len sb - Z.min len (sb_len sb)); head_seq := u32 (head_seq sb + Z.min len (sb_len sb));
    unacked := unacked sb - Z.min (Z.min len (sb_len sb)) (unacked sb) |} =
    drop (Z.to_nat (Z.min len (sb_len sb))) (contents sb)) as Hcc by done.
  assert (u32 (sb_len sb - Z.min len (sb_len sb)) = sb_len sb - Z.min len (sb_len sb)) as E by (apply u32_small; wunfold; lia).
  split_and!; try done. split; rewrite ?Hcc; cbn [chunks sb_len head_seq unacked]; rewrite ?E; try done; try lia.
  - rewrite zlen_drop; lia.
  - apply u32_range.
Qed.

Lemma peek_ok k sb :
  sndbuf_ok sb -> 0 <= k < sb_len sb ->
  exists b, tcp_sndbuf_peek (u32 (head_seq sb + k)) sb = Some b /\ 0 < zlen b <= TCP_MEMORY_CHUNK_SIZE /\
    b `prefix_of` drop (Z.to_nat k) (contents sb).
Proof.
  intros [Hc Hl Hs Hh Hu] Hk. unfold tcp_sndbuf_peek.
  pose proof (near_base _ Hh) as Hb. pose proof (off_base (head_seq sb)) as Hb0.
  rewrite !(seq_lt_off (head_seq sb)) by (try apply near_at; done || lia). rewrite !off_at, Hb0 by lia.
  destruct (_ || _) eqn:E; bprop; [lia|].
  change (u32 (u32 (head_seq sb + k) - head_seq sb)) with (off (head_seq sb) (u32 (head_seq sb + k))).
  rewrite off_at by lia. apply peek_chunks_ok; [done|]. unfold contents in *. lia.
Qed.

Lemma peek_some seq sb b :
  sndbuf_ok sb -> in_u32 seq -> tcp_sndbuf_peek seq sb = Some b ->
  exists j, 0 <= j < sb_len sb /\ seq = u32 (head_seq sb + j) /\ 0 < zlen b <= TCP_MEMORY_CHUNK_SIZE /\
    b `prefix_of` drop (Z.to_nat j) (contents sb).
Proof.
  intros Hok Hs H. pose proof Hok as [_ Hl Hsm Hh _]. pose proof (zlen_nonneg (contents sb)) as H0.
  assert (off (head_seq sb) seq < sb_len sb /\ seq = u32 (head_seq sb + off (head_seq sb) seq)) as [Hj He].
  { revert H. unfold tcp_sndbuf_peek. destruct (_ || _) eqn:E; [done|]. intros _. bprop.
    rewrite <- Hl in H0. unfold seq_lt, off, i32 in *. cbv zeta in *. clear -Hs Hh Hsm H0 H1 H.
    repeat match goal with H : context [if ?b then _ else _] |- _ => destruct b eqn:? end; bprop; warith. }
  pose proof (off_range (head_seq sb) seq) as Hr. exists (off (head_seq sb) seq). split; [lia|]. split; [done|].
  destruct (peek_ok (off (head_seq sb) seq) sb Hok ltac:(lia)) as (b' & Hp & Hb & Hpre). rewrite <- He, H in Hp.
  by injection Hp as <-.
Qed.
