(* ===== verification/TcpTcb.v ===== *)
(** * The TCP control block (pro-stack/tcp.c, tcp.h)

    A stream is the composition of its receive half [tcp_rx], its option and
    scoreboard state [tcp_opt_state], its RTT and congestion-control state and
    its send buffer, with the fields tcp.c itself owns.  What an operation
    does to the outside (packets on the output ring, wake-ups, requests to the
    listener and to the socket table) is appended to [out].  Allocation, ARP,
    ring and timer results and the clocks are the fields of a [tcp_io], one
    per operation (one per packet attempt in the transmit loops). *)

From S2P Require Import Prelude Config SeqNum TcpRtt TcpCc TcpNewReno TcpCubic SackRange TcpSack OwnerTimer.
From S2P Require Import TcpOptions TcpOfo TcpSndBuf.

Definition RTE_TCP_FIN_FLAG : Z := 1.
Definition RTE_TCP_RST_FLAG : Z := 4.
Definition RTE_TCP_PSH_FLAG : Z := 8.

Definition OWNER_IO_EV_READ : Z := 1.
Definition OWNER_IO_EV_WRITE : Z := 2.
Definition OWNER_IO_EV_CONNECTED : Z := 4.
Definition OWNER_IO_EV_ERROR : Z := 8.
Definition OWNER_IO_EV_HUP : Z := 16.
Definition OWNER_IO_EV_ACCEPT : Z := 32.

(** An outbound segment: the header fields of [struct tcp_fragment], its
    option area and its payload. *)
Record tcp_segment := mk_seg {
  seg_seq : Z;
  seg_ack : Z;
  seg_flags : Z;
  seg_win : Z;
  seg_opts : tcp_fragment;
  seg_data : list Z
}.

Inductive tcp_event :=
| EvPacket (s : tcp_segment)
| EvMarkDirty
| EvArpWait
| EvReady (mask : Z)
| EvWakeSend
| EvWakeRecv
| EvCompleteConnect (e : option errno)
| EvAbortWaiters (e : errno)
| EvSynPendingDec
| EvAcceptEnqueue
| EvUnregister
| EvFree.

(** What one operation reads from the outside. *)
Record tcp_io := mk_io {
  io_ms : Z;
  io_cycles : Z;
  io_hz : Z;
  arm_ok : bool;
  frag_ok : bool;
  arp_ok : bool;
  mbuf_ok : bool;
  ring_ok : bool;
  accept_ok : bool;
  sack_alloc : nat -> bool;
  chunk_alloc : nat -> bool;
  ofo_alloc : nat -> ofo_mem;
  blob_ok : nat -> bool
}.

Record tcb := mk_tcb {
  rx : tcp_rx;
  opt : tcp_opt_state;
  rtt : tcp_rtt;
  cc : tcp_cc;
  sb : tcp_sndbuf;
  sent_seq : Z;
  snd_wnd : Z;
  snd_wl1 : Z;
  snd_wl2 : Z;
  snd_wnd_valid : bool;
  retries : Z;
  syn_retransmitted : bool;
  timer : option Z;
  tx_queue : list tcp_segment;
  ack_pending : bool;
  close_deadline_cycles : Z;
  linger_enabled : bool;
  linger_seconds : Z;
  app_closed : bool;
  app_visible : bool;
  nodelay : bool;
  io_rings : bool;
  has_listener : bool;
  registered : bool;
  freed : bool;
  fault : bool;
  gauges : sb_mem;
  time_wait : resource_metric;
  out : list tcp_event
}.

Definition set_rx (v : tcp_rx) (t : tcb) : tcb :=
  mk_tcb v (opt t) (rtt t) (cc t) (sb t) (sent_seq t) (snd_wnd t)
   (snd_wl1 t) (snd_wl2 t) (snd_wnd_valid t) (retries t)
   (syn_retransmitted t) (timer t) (tx_queue t) (ack_pending t)
   (close_deadline_cycles t) (linger_enabled t) (linger_seconds t)
   (app_closed t) (app_visible t) (nodelay t) (io_rings t) (has_listener t)
   (registered t) (freed t) (fault t) (gauges t) (time_wait t) (out t) .
Definition set_opt (v : tcp_opt_state) (t : tcb) : tcb :=
  mk_tcb (rx t) v (rtt t) (cc t) (sb t) (sent_seq t) (snd_wnd t) (snd_wl1 t)
   (snd_wl2 t) (snd_wnd_valid t) (retries t) (syn_retransmitted t) (timer t)
   (tx_queue t) (ack_pending t) (close_deadline_cycles t) (linger_enabled t)
   (linger_seconds t) (app_closed t) (app_visible t) (nodelay t)
   (io_rings t) (has_listener t) (registered t) (freed t) (fault t)
   (gauges t) (time_wait t) (out t) .
Definition set_rtt (v : tcp_rtt) (t : tcb) : tcb :=
  mk_tcb (rx t) (opt t) v (cc t) (sb t) (sent_seq t) (snd_wnd t) (snd_wl1 t)
   (snd_wl2 t) (snd_wnd_valid t) (retries t) (syn_retransmitted t) (timer t)
   (tx_queue t) (ack_pending t) (close_deadline_cycles t) (linger_enabled t)
   (linger_seconds t) (app_closed t) (app_visible t) (nodelay t)
   (io_rings t) (has_listener t) (registered t) (freed t) (fault t)
   (gauges t) (time_wait t) (out t) .
Definition set_cc (v : tcp_cc) (t : tcb) : tcb :=
  mk_tcb (rx t) (opt t) (rtt t) v (sb t) (sent_seq t) (snd_wnd t)
   (snd_wl1 t) (snd_wl2 t) (snd_wnd_valid t) (retries t)
   (syn_retransmitted t) (timer t) (tx_queue t) (ack_pending t)
   (close_deadline_cycles t) (linger_enabled t) (linger_seconds t)
   (app_closed t) (app_visible t) (nodelay t) (io_rings t) (has_listener t)
   (registered t) (freed t) (fault t) (gauges t) (time_wait t) (out t) .
Definition set_sb (v : tcp_sndbuf) (t : tcb) : tcb :=
  mk_tcb (rx t) (opt t) (rtt t) (cc t) v (sent_seq t) (snd_wnd t)
   (snd_wl1 t) (snd_wl2 t) (snd_wnd_valid t) (retries t)
   (syn_retransmitted t) (timer t) (tx_queue t) (ack_pending t)
   (close_deadline_cycles t) (linger_enabled t) (linger_seconds t)
   (app_closed t) (app_visible t) (nodelay t) (io_rings t) (has_listener t)
   (registered t) (freed t) (fault t) (gauges t) (time_wait t) (out t) .
Definition set_sent_seq (v : Z) (t : tcb) : tcb :=
  mk_tcb (rx t) (opt t) (rtt t) (cc t) (sb t) v (snd_wnd t) (snd_wl1 t)
   (snd_wl2 t) (snd_wnd_valid t) (retries t) (syn_retransmitted t) (timer t)
   (tx_queue t) (ack_pending t) (close_deadline_cycles t) (linger_enabled t)
   (linger_seconds t) (app_closed t) (app_visible t) (nodelay t)
   (io_rings t) (has_listener t) (registered t) (freed t) (fault t)
   (gauges t) (time_wait t) (out t) .
Definition set_snd_wnd (v : Z) (t : tcb) : tcb :=
  mk_tcb (rx t) (opt t) (rtt t) (cc t) (sb t) (sent_seq t) v (snd_wl1 t)
   (snd_wl2 t) (snd_wnd_valid t) (retries t) (syn_retransmitted t) (timer t)
   (tx_queue t) (ack_pending t) (close_deadline_cycles t) (linger_enabled t)
   (linger_seconds t) (app_closed t) (app_visible t) (nodelay t)
   (io_rings t) (has_listener t) (registered t) (freed t) (fault t)
   (gauges t) (time_wait t) (out t) .
Definition set_snd_wl1 (v : Z) (t : tcb) : tcb :=
  mk_tcb (rx t) (opt t) (rtt t) (cc t) (sb t) (sent_seq t) (snd_wnd t) v
   (snd_wl2 t) (snd_wnd_valid t) (retries t) (syn_retransmitted t) (timer t)
   (tx_queue t) (ack_pending t) (close_deadline_cycles t) (linger_enabled t)
   (linger_seconds t) (app_closed t) (app_visible t) (nodelay t)
   (io_rings t) (has_listener t) (registered t) (freed t) (fault t)
   (gauges t) (time_wait t) (out t) .
Definition set_snd_wl2 (v : Z) (t : tcb) : tcb :=
  mk_tcb (rx t) (opt t) (rtt t) (cc t) (sb t) (sent_seq t) (snd_wnd t)
   (snd_wl1 t) v (snd_wnd_valid t) (retries t) (syn_retransmitted t)
   (timer t) (tx_queue t) (ack_pending t) (close_deadline_cycles t)
   (linger_enabled t) (linger_seconds t) (app_closed t) (app_visible t)
   (nodelay t) (io_rings t) (has_listener t) (registered t) (freed t)
   (fault t) (gauges t) (time_wait t) (out t) .
Definition set_snd_wnd_valid (v : bool) (t : tcb) : tcb :=
  mk_tcb (rx t) (opt t) (rtt t) (cc t) (sb t) (sent_seq t) (snd_wnd t)
   (snd_wl1 t) (snd_wl2 t) v (retries t) (syn_retransmitted t) (timer t)
   (tx_queue t) (ack_pending t) (close_deadline_cycles t) (linger_enabled t)
   (linger_seconds t) (app_closed t) (app_visible t) (nodelay t)
   (io_rings t) (has_listener t) (registered t) (freed t) (fault t)
   (gauges t) (time_wait t) (out t) .
Definition set_retries (v : Z) (t : tcb) : tcb :=
  mk_tcb (rx t) (opt t) (rtt t) (cc t) (sb t) (sent_seq t) (snd_wnd t)
   (snd_wl1 t) (snd_wl2 t) (snd_wnd_valid t) v (syn_retransmitted t)
   (timer t) (tx_queue t) (ack_pending t) (close_deadline_cycles t)
   (linger_enabled t) (linger_seconds t) (app_closed t) (app_visible t)
   (nodelay t) (io_rings t) (has_listener t) (registered t) (freed t)
   (fault t) (gauges t) (time_wait t) (out t) .
Definition set_syn_retransmitted (v : bool) (t : tcb) : tcb :=
  mk_tcb (rx t) (opt t) (rtt t) (cc t) (sb t) (sent_seq t) (snd_wnd t)
   (snd_wl1 t) (snd_wl2 t) (snd_wnd_valid t) (retries t) v (timer t)
   (tx_queue t) (ack_pending t) (close_deadline_cycles t) (linger_enabled t)
   (linger_seconds t) (app_closed t) (app_visible t) (nodelay t)
   (io_rings t) (has_listener t) (registered t) (freed t) (fault t)
   (gauges t) (time_wait t) (out t) .
Definition set_timer (v : option Z) (t : tcb) : tcb :=
  mk_tcb (rx t) (opt t) (rtt t) (cc t) (sb t) (sent_seq t) (snd_wnd t)
   (snd_wl1 t) (snd_wl2 t) (snd_wnd_valid t) (retries t)
   (syn_retransmitted t) v (tx_queue t) (ack_pending t)
   (close_deadline_cycles t) (linger_enabled t) (linger_seconds t)
   (app_closed t) (app_visible t) (nodelay t) (io_rings t) (has_listener t)
   (registered t) (freed t) (fault t) (gauges t) (time_wait t) (out t) .
Definition set_tx_queue (v : list tcp_segment) (t : tcb) : tcb :=
  mk_tcb (rx t) (opt t) (rtt t) (cc t) (sb t) (sent_seq t) (snd_wnd t)
   (snd_wl1 t) (snd_wl2 t) (snd_wnd_valid t) (retries t)
   (syn_retransmitted t) (timer t) v (ack_pending t)
   (close_deadline_cycles t) (linger_enabled t) (linger_seconds t)
   (app_closed t) (app_visible t) (nodelay t) (io_rings t) (has_listener t)
   (registered t) (freed t) (fault t) (gauges t) (time_wait t) (out t) .
Definition set_ack_pending (v : bool) (t : tcb) : tcb :=
  mk_tcb (rx t) (opt t) (rtt t) (cc t) (sb t) (sent_seq t) (snd_wnd t)
   (snd_wl1 t) (snd_wl2 t) (snd_wnd_valid t) (retries t)
   (syn_retransmitted t) (timer t) (tx_queue t) v (close_deadline_cycles t)
   (linger_enabled t) (linger_seconds t) (app_closed t) (app_visible t)
   (nodelay t) (io_rings t) (has_listener t) (registered t) (freed t)
   (fault t) (gauges t) (time_wait t) (out t) .
Definition set_close_deadline_cycles (v : Z) (t : tcb) : tcb :=
  mk_tcb (rx t) (opt t) (rtt t) (cc t) (sb t) (sent_seq t) (snd_wnd t)
   (snd_wl1 t) (snd_wl2 t) (snd_wnd_valid t) (retries t)
   (syn_retransmitted t) (timer t) (tx_queue t) (ack_pending t) v
   (linger_enabled t) (linger_seconds t) (app_closed t) (app_visible t)
   (nodelay t) (io_rings t) (has_listener t) (registered t) (freed t)
   (fault t) (gauges t) (time_wait t) (out t) .
Definition set_linger_enabled (v : bool) (t : tcb) : tcb :=
  mk_tcb (rx t) (opt t) (rtt t) (cc t) (sb t) (sent_seq t) (snd_wnd t)
   (snd_wl1 t) (snd_wl2 t) (snd_wnd_valid t) (retries t)
   (syn_retransmitted t) (timer t) (tx_queue t) (ack_pending t)
   (close_deadline_cycles t) v (linger_seconds t) (app_closed t)
   (app_visible t) (nodelay t) (io_rings t) (has_listener t) (registered t)
   (freed t) (fault t) (gauges t) (time_wait t) (out t) .
Definition set_linger_seconds (v : Z) (t : tcb) : tcb :=
  mk_tcb (rx t) (opt t) (rtt t) (cc t) (sb t) (sent_seq t) (snd_wnd t)
   (snd_wl1 t) (snd_wl2 t) (snd_wnd_valid t) (retries t)
   (syn_retransmitted t) (timer t) (tx_queue t) (ack_pending t)
   (close_deadline_cycles t) (linger_enabled t) v (app_closed t)
   (app_visible t) (nodelay t) (io_rings t) (has_listener t) (registered t)
   (freed t) (fault t) (gauges t) (time_wait t) (out t) .
Definition set_app_closed (v : bool) (t : tcb) : tcb :=
  mk_tcb (rx t) (opt t) (rtt t) (cc t) (sb t) (sent_seq t) (snd_wnd t)
   (snd_wl1 t) (snd_wl2 t) (snd_wnd_valid t) (retries t)
   (syn_retransmitted t) (timer t) (tx_queue t) (ack_pending t)
   (close_deadline_cycles t) (linger_enabled t) (linger_seconds t) v
   (app_visible t) (nodelay t) (io_rings t) (has_listener t) (registered t)
   (freed t) (fault t) (gauges t) (time_wait t) (out t) .
Definition set_app_visible (v : bool) (t : tcb) : tcb :=
  mk_tcb (rx t) (opt t) (rtt t) (cc t) (sb t) (sent_seq t) (snd_wnd t)
   (snd_wl1 t) (snd_wl2 t) (snd_wnd_valid t) (retries t)
   (syn_retransmitted t) (timer t) (tx_queue t) (ack_pending t)
   (close_deadline_cycles t) (linger_enabled t) (linger_seconds t)
   (app_closed t) v (nodelay t) (io_rings t) (has_listener t) (registered t)
   (freed t) (fault t) (gauges t) (time_wait t) (out t) .
Definition set_nodelay (v : bool) (t : tcb) : tcb :=
  mk_tcb (rx t) (opt t) (rtt t) (cc t) (sb t) (sent_seq t) (snd_wnd t)
   (snd_wl1 t) (snd_wl2 t) (snd_wnd_valid t) (retries t)
   (syn_retransmitted t) (timer t) (tx_queue t) (ack_pending t)
   (close_deadline_cycles t) (linger_enabled t) (linger_seconds t)
   (app_closed t) (app_visible t) v (io_rings t) (has_listener t)
   (registered t) (freed t) (fault t) (gauges t) (time_wait t) (out t) .
Definition set_io_rings (v : bool) (t : tcb) : tcb :=
  mk_tcb (rx t) (opt t) (rtt t) (cc t) (sb t) (sent_seq t) (snd_wnd t)
   (snd_wl1 t) (snd_wl2 t) (snd_wnd_valid t) (retries t)
   (syn_retransmitted t) (timer t) (tx_queue t) (ack_pending t)
   (close_deadline_cycles t) (linger_enabled t) (linger_seconds t)
   (app_closed t) (app_visible t) (nodelay t) v (has_listener t)
   (registered t) (freed t) (fault t) (gauges t) (time_wait t) (out t) .
Definition set_has_listener (v : bool) (t : tcb) : tcb :=
  mk_tcb (rx t) (opt t) (rtt t) (cc t) (sb t) (sent_seq t) (snd_wnd t)
   (snd_wl1 t) (snd_wl2 t) (snd_wnd_valid t) (retries t)
   (syn_retransmitted t) (timer t) (tx_queue t) (ack_pending t)
   (close_deadline_cycles t) (linger_enabled t) (linger_seconds t)
   (app_closed t) (app_visible t) (nodelay t) (io_rings t) v (registered t)
   (freed t) (fault t) (gauges t) (time_wait t) (out t) .
Definition set_registered (v : bool) (t : tcb) : tcb :=
  mk_tcb (rx t) (opt t) (rtt t) (cc t) (sb t) (sent_seq t) (snd_wnd t)
   (snd_wl1 t) (snd_wl2 t) (snd_wnd_valid t) (retries t)
   (syn_retransmitted t) (timer t) (tx_queue t) (ack_pending t)
   (close_deadline_cycles t) (linger_enabled t) (linger_seconds t)
   (app_closed t) (app_visible t) (nodelay t) (io_rings t) (has_listener t)
   v (freed t) (fault t) (gauges t) (time_wait t) (out t) .
Definition set_freed (v : bool) (t : tcb) : tcb :=
  mk_tcb (rx t) (opt t) (rtt t) (cc t) (sb t) (sent_seq t) (snd_wnd t)
   (snd_wl1 t) (snd_wl2 t) (snd_wnd_valid t) (retries t)
   (syn_retransmitted t) (timer t) (tx_queue t) (ack_pending t)
   (close_deadline_cycles t) (linger_enabled t) (linger_seconds t)
   (app_closed t) (app_visible t) (nodelay t) (io_rings t) (has_listener t)
   (registered t) v (fault t) (gauges t) (time_wait t) (out t) .
Definition set_fault (v : bool) (t : tcb) : tcb :=
  mk_tcb (rx t) (opt t) (rtt t) (cc t) (sb t) (sent_seq t) (snd_wnd t)
   (snd_wl1 t) (snd_wl2 t) (snd_wnd_valid t) (retries t)
   (syn_retransmitted t) (timer t) (tx_queue t) (ack_pending t)
   (close_deadline_cycles t) (linger_enabled t) (linger_seconds t)
   (app_closed t) (app_visible t) (nodelay t) (io_rings t) (has_listener t)
   (registered t) (freed t) v (gauges t) (time_wait t) (out t) .
Definition set_gauges (v : sb_mem) (t : tcb) : tcb :=
  mk_tcb (rx t) (opt t) (rtt t) (cc t) (sb t) (sent_seq t) (snd_wnd t)
   (snd_wl1 t) (snd_wl2 t) (snd_wnd_valid t) (retries t)
   (syn_retransmitted t) (timer t) (tx_queue t) (ack_pending t)
   (close_deadline_cycles t) (linger_enabled t) (linger_seconds t)
   (app_closed t) (app_visible t) (nodelay t) (io_rings t) (has_listener t)
   (registered t) (freed t) (fault t) v (time_wait t) (out t) .
Definition set_time_wait (v : resource_metric) (t : tcb) : tcb :=
  mk_tcb (rx t) (opt t) (rtt t) (cc t) (sb t) (sent_seq t) (snd_wnd t)
   (snd_wl1 t) (snd_wl2 t) (snd_wnd_valid t) (retries t)
   (syn_retransmitted t) (timer t) (tx_queue t) (ack_pending t)
   (close_deadline_cycles t) (linger_enabled t) (linger_seconds t)
   (app_closed t) (app_visible t) (nodelay t) (io_rings t) (has_listener t)
   (registered t) (freed t) (fault t) (gauges t) v (out t) .
Definition set_out (v : list tcp_event) (t : tcb) : tcb :=
  mk_tcb (rx t) (opt t) (rtt t) (cc t) (sb t) (sent_seq t) (snd_wnd t)
   (snd_wl1 t) (snd_wl2 t) (snd_wnd_valid t) (retries t)
   (syn_retransmitted t) (timer t) (tx_queue t) (ack_pending t)
   (close_deadline_cycles t) (linger_enabled t) (linger_seconds t)
   (app_closed t) (app_visible t) (nodelay t) (io_rings t) (has_listener t)
   (registered t) (freed t) (fault t) (gauges t) (time_wait t) v.

Definition una (t : tcb) : Z := TcpOptions.snd_una (opt t).
Definition score (t : tcb) : tcp_sack_state := sack (opt t).
Definition st (t : tcb) : TCP_STATUS := status (rx t).
Definition emit (e : tcp_event) (t : tcb) : tcb := set_out (out t ++ [e]) t.
Definition set_una (v : Z) (t : tcb) : tcb := set_opt (TcpOptions.with_snd_una v (opt t)) t.
Definition set_score (v : tcp_sack_state) (t : tcb) : tcb := set_opt (with_sack v (opt t)) t.
Definition senv (t : tcb) : sack_env :=
  mk_senv (una t) (TcpOptions.snd_mss (opt t)) (TcpOptions.sack_permitted (opt t)).
Definition cenv (t : tcb) : cc_env :=
  mk_env (TcpOptions.snd_mss (opt t)) (srtt_ms (rtt t)) (syn_retransmitted t).

(** The stream fields the option code and the receive code share live in
    [rx]; [opt_view] is the option state of the stream as tcp_options.c sees
    it and [opt_store] writes its result back. *)
Definition to_block (b : Z * Z) : tcp_sack_block := mk_block (fst b) (snd b).
Definition of_block (valid : bool) (b : tcp_sack_block) : option (Z * Z) :=
  if valid then Some (bleft b, bright b) else None.
Definition opt_view (t : tcb) : tcp_opt_state :=
  let r := rx t in
  TcpOptions.with_recv_ack (recv_ack r)
    (TcpOptions.with_ofo (map (fun g => (oseq g, zlen (odata g))) (ofo r))
      (with_dsack_pending (bool_decide (is_Some (TcpOfo.dsack r)))
        (with_dsack_block (from_option to_block (dsack_block (opt t)) (TcpOfo.dsack r))
          (with_sack_recent_valid (bool_decide (is_Some (TcpOfo.sack_recent r)))
            (TcpOptions.with_sack_recent
              (from_option to_block (TcpOptions.sack_recent (opt t)) (TcpOfo.sack_recent r))
              (with_sack_history (take (Z.to_nat (sack_history_count r)) (sack_history (opt t)))
                (opt t))))))).
Definition opt_store (o : tcp_opt_state) (t : tcb) : tcb :=
  set_rx (TcpOfo.with_dsack (of_block (dsack_pending o) (dsack_block o))
    (TcpOfo.with_sack_recent (of_block (sack_recent_valid o) (TcpOptions.sack_recent o))
      (with_sack_history_count (zlen (sack_history o))
        (TcpOfo.with_sack_permitted (TcpOptions.sack_permitted o) (rx t))))) (set_opt o t).

(** ** Receive window *)

Fixpoint wscale_loop (fuel : nat) (scale size : Z) : Z :=
  match fuel with
  | O => scale
  | S f => if (scale <? TCP_WSCALE_MAX) && (UINT16_MAX <? Z.shiftr size scale)
           then wscale_loop f (scale + 1) size else scale
  end.
Definition tcp_choose_rcv_wscale (size : Z) : Z := wscale_loop 15 0 size.

Definition tcp_rcv_wnd (t : tcb) : Z :=
  if rcvbuf_size (rx t) <=? rcvbuf_used (rx t) then 0 else rcvbuf_size (rx t) - rcvbuf_used (rx t).

Definition tcp_wire_rcv_wnd (flags : Z) (t : tcb) : Z :=
  let scale := if negb (has_flag flags RTE_TCP_SYN_FLAG) && wscale_ok (opt t) then rcv_wscale (opt t) else 0 in
  let wnd := Z.shiftr (tcp_rcv_wnd t) scale in
  if UINT16_MAX <? wnd then UINT16_MAX else wnd.

(** ** Fragments and the control queue *)

Definition blank_frag (flags : Z) : tcp_fragment := mk_frag flags (u8 (Z.shiftl 5 4)) 0 (replicate 40 0).

(** [None] when no descriptor is left.  The appliers cannot fail on an empty
    option area. *)
Definition tcp_make_fragment (io : tcp_io) (flags seq ack : Z) (t : tcb) : option tcp_segment * tcb :=
  if negb (frag_ok io) then (None, t)
  else
    let win := tcp_wire_rcv_wnd flags t in
    let f0 := blank_frag flags in
    if has_flag flags RTE_TCP_SYN_FLAG then (Some (mk_seg seq ack flags win f0 []), t)
    else
      let '(f, o) := tcp_options_apply_established (io_ms io) (opt_view t) f0 in
      (Some (mk_seg seq ack flags win (default f0 f) []), opt_store o t).

(** [tcp_options_apply_syn] on a fragment already made. *)
Definition apply_syn (io : tcp_io) (ws ts sp : bool) (ecr : Z) (f : tcp_segment) (t : tcb) : tcp_segment * tcb :=
  let '(g, o) := tcp_options_apply_syn (io_ms io) ws ts sp ecr (opt_view t) (seg_opts f) in
  (mk_seg (seg_seq f) (seg_ack f) (seg_flags f) (seg_win f) (default (seg_opts f) g) (seg_data f), opt_store o t).

(** A ring of [RING_SIZE] slots holds one entry less. *)
Definition tx_full (t : tcb) : bool :=
  (if io_rings t then RING_SIZE - 1 else RING_SIZE) <=? zlen (tx_queue t).
Definition nsock_tcp_tx_enqueue (f : tcp_segment) (t : tcb) : bool * tcb :=
  if tx_full t then (false, t) else (true, set_tx_queue (tx_queue t ++ [f]) t).
Definition nsock_tcp_tx_requeue_head (f : tcp_segment) (t : tcb) : bool * tcb :=
  if tx_full t then (false, t)
  else (true, set_tx_queue (if io_rings t then tx_queue t ++ [f] else f :: tx_queue t) t).

Definition tcp_enqueue_fragment (f : option tcp_segment) (t : tcb) : bool * tcb :=
  match f with
  | None => (false, t)
  | Some f => let '(ok, t1) := nsock_tcp_tx_enqueue f t in if ok then (true, emit EvMarkDirty t1) else (false, t1)
  end.

(** ** Timers *)

Definition deadline_after (io : tcp_io) (delay_ms : Z) : Z :=
  let delay := owner_timer_ms_to_cycles (io_hz io) delay_ms in
  if UINT64_MAX - io_cycles io <? delay then UINT64_MAX else io_cycles io + delay.
Definition arm_at (io : tcp_io) (deadline : Z) (t : tcb) : bool * tcb :=
  if arm_ok io then (true, set_timer (Some deadline) t) else (false, t).
Definition tcp_arm_syn_timer (io : tcp_io) (delay_ms : Z) (t : tcb) : bool * tcb :=
  arm_at io (deadline_after io delay_ms) t.
Definition tcp_arm_data_rto (io : tcp_io) (delay_ms : Z) (t : tcb) : bool * tcb :=
  let deadline := deadline_after io delay_ms in
  let c := close_deadline_cycles t in
  arm_at io (if negb (c =? 0) && (c <? deadline) then c else deadline) t.

(** ** Status, teardown *)

Definition nsock_tcp_conn_unregister (t : tcb) : tcb :=
  if registered t then emit EvUnregister (set_registered false t) else t.

Definition one_of (s : TCP_STATUS) (l : list TCP_STATUS) : bool := bool_decide (s ∈ l).

Definition tcp_stream_set_status (s : TCP_STATUS) (t : tcb) : tcb :=
  let old := st t in
  let t1 := if bool_decide (old = s) then t
            else
              let g := if bool_decide (old = TCP_STATUS_TIME_WAIT) then resource_release 1 (time_wait t) else time_wait t in
              set_time_wait (if bool_decide (s = TCP_STATUS_TIME_WAIT) then resource_acquire 1 g else g) t in
  let t2 := if negb (bool_decide (old = TCP_STATUS_CLOSED)) && bool_decide (s = TCP_STATUS_CLOSED)
            then nsock_tcp_conn_unregister t1 else t1 in
  set_rx (with_status s (rx t2)) t2.

Definition tcp_sack_score_clear (t : tcb) : tcb := set_score (tcp_sack_state_reset (una t) (score t)) t.

Definition sndbuf_reset (seq : Z) (t : tcb) : tcb :=
  let '(m, b) := tcp_sndbuf_reset (gauges t) seq (sb t) in set_sb b (set_gauges m t).

Definition tcp_drain_send (t : tcb) : tcb :=
  tcp_sack_score_clear (set_una (sent_seq t) (sndbuf_reset (sent_seq t) (set_ack_pending false (set_tx_queue [] t)))).
Definition drain_recv (t : tcb) : tcb := set_rx (tcp_drain_recv (rx t)) t.

(** The stream part of [nsock_free]. *)
Definition nsock_free (t : tcb) : tcb :=
  let t1 := if bool_decide (st t = TCP_STATUS_TIME_WAIT) then tcp_stream_set_status TCP_STATUS_CLOSED t else t in
  let t2 := tcp_sack_score_clear (set_timer None (set_has_listener false t1)) in
  let '(m, b) := tcp_sndbuf_free (gauges t2) (sb t2) in
  emit EvFree (set_freed true (nsock_tcp_conn_unregister (set_sb b (set_gauges m t2)))).

(** A reset for the stream, built on the stack and sent when the path to the
    peer is up. *)
Definition tcp_try_send_abort_reset (io : tcp_io) (t : tcb) : tcb :=
  if arp_ok io && mbuf_ok io && ring_ok io then
    let flags := Z.lor RTE_TCP_RST_FLAG RTE_TCP_ACK_FLAG in
    emit (EvPacket (mk_seg (sent_seq t) (recv_ack (rx t)) flags 0 (blank_frag flags) [])) t
  else t.

(** The abort after the receive half is done: [old] is the status before. *)
Definition tcp_abort_stream (io : tcp_io) (error : errno) (send_reset : bool) (t : tcb) : tcb :=
  let old := st t in
  let t1 := set_close_deadline_cycles 0 (set_timer None t) in
  let t2 := if send_reset && negb (one_of old [TCP_STATUS_CLOSED; TCP_STATUS_LISTEN; TCP_STATUS_SYN_SENT; TCP_STATUS_TIME_WAIT])
            then tcp_try_send_abort_reset io t1 else t1 in
  let t3 := if bool_decide (old = TCP_STATUS_SYN_RECV) && has_listener t2 then emit EvSynPendingDec t2 else t2 in
  let t4 := drain_recv (tcp_drain_send (tcp_stream_set_status TCP_STATUS_CLOSED t3)) in
  let t5 := emit (EvReady (Z.lor OWNER_IO_EV_ERROR OWNER_IO_EV_HUP)) (emit (EvAbortWaiters error)
              (set_rx (with_terminal_error (Some error) (rx t4)) t4)) in
  if app_closed t5 || bool_decide (old = TCP_STATUS_SYN_RECV) then nsock_free t5 else t5.

Definition tcp_enter_time_wait (io : tcp_io) (t : tcb) : bool * tcb :=
  let t1 := set_close_deadline_cycles 0 (set_retries 0 (tcp_stream_set_status TCP_STATUS_TIME_WAIT t)) in
  let '(ok, t2) := tcp_arm_syn_timer io TCP_2MSL_MS t1 in
  if ok then (true, t2) else (false, tcp_abort_stream io ENOBUFS false t2).

(** ** Peer window *)

Definition buf_end (t : tcb) : Z := u32 (head_seq (sb t) + sb_len (sb t)).

(** Payload right edge already transmitted. *)
Definition tcp_sack_payload_flight_end (t : tcb) : Z :=
  if seq_lt (sent_seq t) (buf_end t) then sent_seq t else buf_end t.

(** (accepted, need_tx), state. *)
Definition tcp_update_snd_wnd_local (seg_seq seg_ack seg_wnd scale : Z) (t : tcb) : (bool * bool) * tcb :=
  let scaled_wnd := u32 (Z.shiftl seg_wnd scale) in
  if negb (snd_wnd_valid t) || seq_lt (snd_wl1 t) seg_seq
     || ((snd_wl1 t =? seg_seq) && seq_leq (snd_wl2 t) seg_ack)
  then
    let t1 := set_snd_wnd_valid true (set_snd_wl2 seg_ack (set_snd_wl1 seg_seq (set_snd_wnd scaled_wnd t))) in
    ((true, (0 <? sb_len (sb t1)) && seq_lt (sent_seq t1) (buf_end t1)), t1)
  else ((false, false), t).

Definition tcp_update_snd_wnd (seg_seq seg_ack seg_wnd scale : Z) (t : tcb) : tcb :=
  let '((accepted, need_tx), t1) := tcp_update_snd_wnd_local seg_seq seg_ack seg_wnd scale t in
  if negb accepted then t1
  else let t2 := emit (EvReady OWNER_IO_EV_WRITE) (emit EvWakeSend t1) in
       if need_tx then emit EvMarkDirty t2 else t2.

Definition tcp_app_snd_limit (t : tcb) : Z :=
  if snd_wnd_valid t && (snd_wnd t <? TCP_SNDBUF_APP_HIWAT) then snd_wnd t else TCP_SNDBUF_APP_HIWAT.
Definition tcp_app_snd_space (t : tcb) : Z :=
  let limit := tcp_app_snd_limit t in if limit <=? sb_len (sb t) then 0 else limit - sb_len (sb t).

(** ** Congestion control of a new connection (tcp_cc.c) *)

Definition tcp_cc_default_ops : tcp_cc_ops := tcp_cubic_ops.
Definition tcp_cc_init_default (syn_rexmit : bool) (t : tcb) : tcb :=
  set_cc (tcp_cc_set_ops (cenv t) (Some tcp_cc_default_ops) syn_rexmit (cc t)) t.
