(* ===== verification/TcpAck.v ===== *)
(** * ACK processing (pro-stack/tcp.c: tcp_process_peer_ack_ex)

    One inbound ACK updates the peer window, retires acknowledged bytes,
    samples the RTT, feeds the SACK scoreboard, enters, continues or leaves
    loss recovery, drives congestion control and restarts or stops the
    retransmission timer.  The stages are separate definitions in the order
    of the code. *)

From S2P Require Import Prelude Config SeqNum TcpRtt TcpCc SackRange TcpSack TcpOptions TcpOfo TcpSndBuf.
From S2P Require Import TcpTcb.

(** Retiring [ack - SND.UNA] bytes: the payload bytes among them, the raw RTT
    sample and the state. *)
Definition ack_progress (io : tcp_io) (ack : Z) (t : tcb) : (Z * option Z) * tcb :=
  let acked := Z.min (u32 (ack - una t)) (sb_len (sb t)) in
  let '(m, b) := tcp_sndbuf_remove acked (gauges t) (sb t) in
  let t1 := set_una ack (set_sb b (set_gauges m t)) in
  let o := opt t1 in
  let raw := tcp_rtt_sample_ack (timestamps_ok o) (rx_timestamp_present o) (rx_tsecr o) (io_ms io) (rtt t1) in
  let r := snd (tcp_rtt_on_ack (timestamps_ok o) ack (rx_timestamp_present o) (rx_tsecr o) (io_ms io) (rtt t1)) in
  ((acked, raw), set_rtt r t1).

(** Scoreboard update and the D-SACK notice. *)
Definition ack_scoreboard (io : tcp_io) (ack flight_end : Z) (t : tcb) : tcp_sack_ack_result * tcb :=
  let blocks := if TcpOptions.sack_permitted (opt t) then rx_sacks (opt t) else [] in
  let '(res, s) := tcp_sack_update (sack_alloc io) (senv t) ack blocks flight_end (score t) in
  let t1 := set_score s t in
  let d := TcpSack.dsack res in
  (res, if dsack_valid res
        then set_cc (tcp_cc_on_dsack (cenv t1) (bleft d, bright d) (dsack_covers_retransmission res) (cc t1)) t1
        else t1).

(** NewReno: (recovery left, partial ACK), state. *)
Definition ack_newreno (old_mode : tcp_recovery_mode) (progressed : bool) (ack flight_end : Z) (t : tcb)
    : (bool * bool) * tcb :=
  if bool_decide (old_mode = TCP_RECOVERY_NEWRENO) && progressed then
    if negb (seq_lt ack (recovery_point (score t))) then
      ((true, false), set_score (tcp_sack_cancel_candidate
                        (with_dup_acks 0 (with_mode TCP_RECOVERY_NORMAL (score t)))) t)
    else ((false, true), set_score (snd (tcp_sack_schedule_newreno_partial (senv t) flight_end (score t))) t)
  else ((false, false), t).

Definition enter_recovery (reason : tcp_cc_loss_reason) (m : tcp_recovery_mode) (flight_end flight_size : Z) (t : tcb)
    : tcb :=
  let t1 := set_cc (tcp_cc_on_loss (cenv t) (mk_loss reason flight_size flight_end false) (cc t)) t in
  set_score (tcp_sack_enter_recovery (senv t1) m flight_end (score t1)) t1.

Definition set_pipe (flight_end : Z) (t : tcb) : tcb :=
  set_score (snd (tcp_sack_set_pipe (senv t) flight_end (score t))) t.

(** Loss detection: whether recovery was entered, and the state. *)
Definition ack_detect_loss (progressed classic_dup new_info : bool) (flight_end flight_size : Z) (t : tcb)
    : bool * tcb :=
  let normal := bool_decide (mode (score t) = TCP_RECOVERY_NORMAL) in
  let permitted := TcpOptions.sack_permitted (opt t) in
  if permitted && new_info && normal then
    let t1 := set_score (with_dup_acks (u8 (dup_acks (score t) + 1)) (score t)) t in
    if (TCP_SACK_DUP_THRESH <=? dup_acks (score t1)) || tcp_sack_is_lost (senv t1) (score t1) (una t1)
    then (true, set_pipe flight_end (enter_recovery TCP_CC_LOSS_SACK TCP_RECOVERY_SACK flight_end flight_size t1))
    else (false, set_pipe flight_end (set_score (with_limited_transmit true (score t1)) t1))
  else if negb permitted && negb progressed && classic_dup && seq_lt (una t) flight_end && normal then
    let t1 := set_score (with_dup_acks (u8 (dup_acks (score t) + 1)) (score t)) t in
    if TCP_SACK_DUP_THRESH <=? dup_acks (score t1)
    then (true, enter_recovery TCP_CC_LOSS_DUPACK TCP_RECOVERY_NEWRENO flight_end flight_size t1)
    else (false, t1)
  else (false, t).

Definition ack_continue_recovery (progressed new_info : bool) (flight_end : Z) (t : tcb) : tcb :=
  match mode (score t) with
  | TCP_RECOVERY_SACK => set_pipe flight_end t
  | TCP_RECOVERY_RTO =>
      if progressed || new_info
      then set_score (snd (tcp_sack_schedule_next (senv t) (buf_end t) false (score t))) t else t
  | _ => t
  end.

(** Restarting or stopping the RTO; [false] when the timer cannot be armed. *)
Definition ack_timer (io : tcp_io) (progressed : bool) (t : tcb) : bool * tcb :=
  if negb progressed then (true, t)
  else
    let t1 := set_retries 0 t in
    if una t =? sent_seq t then
      let t2 := if one_of (st t) [TCP_STATUS_TIME_WAIT; TCP_STATUS_SYN_SENT; TCP_STATUS_SYN_RECV]
                then t1 else set_timer None t1 in
      (true, set_rtt (tcp_rtt_on_flight_acked (rtt t2)) t2)
    else
      let '(ok, t2) := tcp_arm_data_rto io (rto_ms (rtt t1)) t1 in
      if ok then (true, t2) else (false, tcp_abort_stream io ENOBUFS true t2).

Definition ack_need_tx (t : tcb) : bool :=
  negb (bool_decide (kind (pending (score t)) = TCP_RECOVERY_TX_NONE))
  || bool_decide (mode (score t) = TCP_RECOVERY_SACK)
  || limited_transmit (score t)
  || ((0 <? sb_len (sb t)) && seq_lt (sent_seq t) (buf_end t)).

(** The stages after the window update; [w] is (accepted, need_tx). *)
Definition ack_commit (io : tcp_io) (ack : Z) (classic_dup : bool) (w : bool * bool) (t : tcb) : bool * tcb :=
  let flight_end := tcp_sack_payload_flight_end t in
  let flight_size := u32 (flight_end - una t) in
  let progressed := negb (ack =? una t) in
  let old_mode := mode (score t) in
  let '((acked, raw), t1) := if progressed then ack_progress io ack t else ((0, None), t) in
  let '(res, t2) := ack_scoreboard io ack flight_end t1 in
  let '((exited, partial), t3) := ack_newreno old_mode progressed ack flight_end t2 in
  let t4 := if progressed then set_score (with_dup_acks 0 (score t3)) t3 else t3 in
  let '(entered, t5) := ack_detect_loss progressed classic_dup (new_sack_information res) flight_end flight_size t4 in
  let t6 := ack_continue_recovery progressed (new_sack_information res) flight_end t5 in
  let ev := mk_ack ack flight_end acked (TcpSack.newly_sacked_bytes res) flight_size (io_ms io) (default 0 raw)
              (bool_decide (is_Some raw)) (cwnd_limited (TcpCc.st (cc t6)))
              (negb progressed && (classic_dup || new_sack_information res)) entered partial
              (bool_decide (old_mode = TCP_RECOVERY_NEWRENO)
               || (entered && bool_decide (mode (score t6) = TCP_RECOVERY_NEWRENO)))
              (negb (bool_decide (old_mode = TCP_RECOVERY_NORMAL)) || entered) in
  let t7 := set_cc (tcp_cc_on_ack (cenv t6) ev (cc t6)) t6 in
  let t8 := if recovery_exited res || exited then set_cc (tcp_cc_on_recovery_exit (cenv t7) (cc t7)) t7 else t7 in
  let '(ok, t9) := ack_timer io progressed t8 in
  if negb ok then (false, t9)
  else
    let t10 := if progressed || fst w then emit (EvReady OWNER_IO_EV_WRITE) (emit EvWakeSend t9) else t9 in
    (true, if ack_need_tx t10 || snd w then emit EvMarkDirty t10 else t10).

(** [win] is [Some (seg_seq, seg_wnd, scale)] when the packet's window applies. *)
Definition tcp_process_peer_ack_ex (io : tcp_io) (ack : Z) (classic_dup : bool) (win : option (Z * Z * Z)) (t : tcb)
    : bool * tcb :=
  if seq_lt ack (una t) || tcp_seq_gt ack (sent_seq t) then (true, t)
  else
    let '(w, t1) := match win with
                    | Some (seg_seq, seg_wnd, scale) => tcp_update_snd_wnd_local seg_seq ack seg_wnd scale t
                    | None => ((false, false), t)
                    end in
    ack_commit io ack classic_dup w t1.

Definition tcp_process_peer_ack (io : tcp_io) (ack : Z) (t : tcb) : bool * tcb :=
  tcp_process_peer_ack_ex io ack false None t.
