(* ===== verification/TcpTx.v ===== *)
(** * Transmission (pro-stack/tcp.c: tcp_tx_flush_recovery_retransmit,
    tcp_tx_flush_sndbuf, tcp_tx_flush, tcp_send)

    The transmit loops make one packet attempt after another; [io k] is what
    the [k]-th attempt reads from the outside.  A loop that has not finished
    when the fuel runs out returns [None]. *)

From S2P Require Import Prelude Config SeqNum TcpRtt TcpCc SackRange TcpSack TcpOptions TcpOfo TcpSndBuf.
From S2P Require Import TcpTcb TcpAck.

Inductive tcp_sndbuf_flush_result :=
| TCP_SNDBUF_IDLE | TCP_SNDBUF_SENT | TCP_SNDBUF_RETRY | TCP_SNDBUF_ARP_WAIT | TCP_SNDBUF_DESTROYED.
Inductive sock_tx_flush_result :=
| SOCK_TX_FLUSH_IDLE | SOCK_TX_FLUSH_RETRY | SOCK_TX_FLUSH_ARP_WAIT | SOCK_TX_FLUSH_DESTROYED.

(** The option descriptor [tcp_build_pkt] accepts. *)
Definition descriptor_ok (f : tcp_fragment) : bool :=
  (0 <=? opt_len f) && (opt_len f <=? 10) && (data_off f =? u8 (Z.shiftl (5 + opt_len f) 4)).

(** [tcp_build_pkt] and the output ring accept the packet. *)
Definition packet_ok (io : tcp_io) (s : tcp_segment) : bool :=
  descriptor_ok (seg_opts s) && mbuf_ok io && ring_ok io.

Definition tcp_tx_commit (io : tcp_io) (sent_end : Z) (t : tcb) : tcb :=
  set_score (tcp_sack_commit_candidate (sack_alloc io 0%nat) (senv t) sent_end (score t)) t.
Definition cancel_candidate (t : tcb) : tcb := set_score (tcp_sack_cancel_candidate (score t)) t.

(** RFC 6675: pick the next range while cwnd - Pipe holds a segment. *)
Definition recovery_schedule (t : tcb) : tcb :=
  if bool_decide (kind (pending (score t)) = TCP_RECOVERY_TX_NONE)
     && bool_decide (mode (score t) = TCP_RECOVERY_SACK)
  then
    let '(pipe, s) := tcp_sack_set_pipe (senv t) (tcp_sack_payload_flight_end t) (score t) in
    let t1 := set_score s t in
    let cwnd := tcp_cc_send_window (cc t1) in
    if (pipe <=? cwnd) && (TcpOptions.snd_mss (opt t1) <=? cwnd - pipe)
    then set_score (snd (tcp_sack_schedule_next (senv t1) (buf_end t1)
                          (seq_lt (sent_seq t1) (buf_end t1)) (score t1))) t1
    else t1
  else t.

Definition data_flags : Z := Z.lor RTE_TCP_ACK_FLAG RTE_TCP_PSH_FLAG.

(** The option area of a data segment; [None] when it cannot be built. *)
Definition data_options (io : tcp_io) (t : tcb) : option tcp_fragment * tcb :=
  let '(f, o) := tcp_options_apply_established (io_ms io) (opt_view t) (blank_frag data_flags) in
  (f, opt_store o t).

(** Sending the candidate [seq, end_) whose first chunk holds [payload]. *)
Definition recovery_send (io : tcp_io) (seq end_ : Z) (payload : list Z) (t : tcb) : tcp_sndbuf_flush_result * tcb :=
  if negb (arp_ok io) then (TCP_SNDBUF_ARP_WAIT, emit EvArpWait t)
  else
    let win := tcp_wire_rcv_wnd data_flags t in
    match data_options io t with
    | (None, t1) => (TCP_SNDBUF_RETRY, t1)
    | (Some f, t1) =>
        let mss := u32 (tcp_options_data_mss (opt t1) (Some f)) in
        let seglen := Z.min (Z.min (u32 (end_ - seq)) mss) (zlen payload) in
        if seglen =? 0 then (TCP_SNDBUF_IDLE, cancel_candidate t1)
        else
          let s := mk_seg seq (recv_ack (rx t1)) data_flags win f (take (Z.to_nat seglen) payload) in
          if negb (packet_ok io s) then (TCP_SNDBUF_RETRY, t1)
          else
            let t2 := tcp_tx_commit io (u32 (seq + seglen)) (set_ack_pending false (emit (EvPacket s) t1)) in
            let t3 := set_rtt (tcp_rtt_on_retransmit (rtt t2)) t2 in
            let ev := mk_tx seglen (io_ms io) true (cwnd_limited (TcpCc.st (cc t3))) in
            (TCP_SNDBUF_SENT, set_cc (tcp_cc_on_packet_sent (cenv t3) ev (cc t3)) t3)
    end.

(** The candidate's bounds are [uint32_t] fields. *)
Definition tcp_tx_flush_recovery_retransmit (io : tcp_io) (t : tcb) : tcp_sndbuf_flush_result * tcb :=
  let t1 := recovery_schedule t in
  if negb (bool_decide (kind (pending (score t1)) = TCP_RECOVERY_TX_RETRANSMIT)) then (TCP_SNDBUF_IDLE, t1)
  else
    let seq := u32 (cseq (pending (score t1))) in
    let end_ := u32 (cend (pending (score t1))) in
    if (sb_len (sb t1) =? 0) || seq_lt seq (head_seq (sb t1)) || negb (seq_lt seq end_)
       || tcp_seq_gt end_ (tcp_sack_payload_flight_end t1)
    then (TCP_SNDBUF_IDLE, cancel_candidate t1)
    else match tcp_sndbuf_peek seq (sb t1) with
    | None => (TCP_SNDBUF_IDLE, cancel_candidate t1)
    | Some payload => recovery_send io seq end_ payload t1
    end.

(** The unsent bytes the flight is charged for congestion control. *)
Definition congestion_flight (t : tcb) : Z * tcb :=
  if bool_decide (mode (score t) = TCP_RECOVERY_SACK) || limited_transmit (score t) then
    let '(p, s) := tcp_sack_set_pipe (senv t) (tcp_sack_payload_flight_end t) (score t) in (p, set_score s t)
  else (u32 (sent_seq t - una t), t).

(** The unsent range by buffer, window and chunk, before the MSS. *)
Definition new_seglen (unsent credit chunk_available : Z) (t : tcb) : Z :=
  let seglen := Z.min (Z.min unsent credit) chunk_available in
  let c := pending (score t) in
  let room := u32 (cend c - sent_seq t) in
  if bool_decide (kind c = TCP_RECOVERY_TX_NEW_DATA) && (cseq c =? sent_seq t) && (room <? seglen) then room else seglen.

(** Bookkeeping after a new segment of [seglen] bytes is on the ring. *)
Definition new_data_sent (io : tcp_io) (seglen congestion cwnd : Z) (was_idle : bool) (t : tcb)
    : tcp_sndbuf_flush_result * tcb :=
  let end_ := buf_end t in
  let seq := sent_seq t in
  let t1 :=
    if was_idle then
      let c := tcp_cc_on_idle_restart (cenv t) (io_ms io) (rto_ms (rtt t)) (cc t) in
      let r := tcp_rtt_note_xmit (timestamps_ok (opt t)) (u32 (seq + seglen)) (ts_last_val (opt t)) (rtt t) in
      set_rtt r (set_cc c t)
    else t in
  let b := sb t1 in
  let t2 := set_sent_seq (u32 (seq + seglen))
              (set_gauges (mk_sbmem (sndbuf_bytes (gauges t1)) (resource_acquire seglen (unacked_bytes (gauges t1))))
                (set_sb (mk_sndbuf (chunks b) (sb_len b) (head_seq b) (u32 (unacked b + seglen))) t1)) in
  let t3 :=
    if bool_decide (kind (pending (score t2)) = TCP_RECOVERY_TX_NEW_DATA) then tcp_tx_commit io (sent_seq t2) t2
    else set_score (tcp_sack_note_new_data (sent_seq t2) (score t2)) t2 in
  let t4 := set_score (with_limited_transmit false (score t3)) t3 in
  let after := if UINT32_MAX - congestion <? seglen then UINT32_MAX else congestion + seglen in
  let limited := seq_lt (sent_seq t4) end_ && (cwnd <=? snd_wnd t4) && (cwnd <=? after) in
  let t5 := set_cc (tcp_cc_on_packet_sent (cenv t4) (mk_tx seglen (io_ms io) false limited) (cc t4)) t4 in
  if was_idle then
    let '(ok, t6) := tcp_arm_data_rto io (rto_ms (rtt t5)) (set_retries 0 t5) in
    if ok then (TCP_SNDBUF_SENT, t6) else (TCP_SNDBUF_DESTROYED, tcp_abort_stream io ENOBUFS true t6)
  else (TCP_SNDBUF_SENT, t5).

(** One attempt at [payload], the bytes from SND.NXT in their chunk. *)
Definition new_data_send (io : tcp_io) (payload : list Z) (t : tcb) : tcp_sndbuf_flush_result * tcb :=
  let unsent := u32 (buf_end t - sent_seq t) in
  let in_flight := u32 (sent_seq t - una t) in
  let was_idle := una t =? sent_seq t in
  let '(congestion, t1) := congestion_flight t in
  let cwnd := tcp_cc_send_window (cc t1) in
  let send_window := Z.min cwnd (snd_wnd t1) in
  if send_window <=? congestion then (TCP_SNDBUF_IDLE, t1)
  else
    let seglen0 := new_seglen unsent (send_window - congestion) (zlen payload) t1 in
    if seglen0 =? 0 then (TCP_SNDBUF_IDLE, t1)
    else if negb (arp_ok io) then (TCP_SNDBUF_ARP_WAIT, emit EvArpWait t1)
    else
      let win := tcp_wire_rcv_wnd data_flags t1 in
      let '(f0, t2) := data_options io t1 in
      let f := default (blank_frag data_flags) f0 in
      let mss := u32 (tcp_options_data_mss (opt t2) (Some f)) in
      if negb (nodelay t2) && negb (in_flight =? 0) && (unsent <? mss) && negb (app_closed t2)
         && negb (bool_decide (kind (pending (score t2)) = TCP_RECOVERY_TX_NEW_DATA))
      then (TCP_SNDBUF_IDLE, t2)
      else
        let seglen := Z.min seglen0 mss in
        if seglen =? 0 then (TCP_SNDBUF_IDLE, t2)
        else
          let s := mk_seg (sent_seq t2) (recv_ack (rx t2)) data_flags win f (take (Z.to_nat seglen) payload) in
          if negb (packet_ok io s) then (TCP_SNDBUF_RETRY, t2)
          else new_data_sent io seglen congestion cwnd was_idle (set_ack_pending false (emit (EvPacket s) t2)).

Definition tcp_tx_flush_sndbuf (io : tcp_io) (t : tcb) : tcp_sndbuf_flush_result * tcb :=
  if negb (one_of (st t) [TCP_STATUS_ESTABLISHED; TCP_STATUS_CLOSE_WAIT; TCP_STATUS_FIN_WAIT_1; TCP_STATUS_CLOSING;
                          TCP_STATUS_LAST_ACK])
  then (TCP_SNDBUF_IDLE, t)
  else if bool_decide (chunks (sb t) = []) || (sb_len (sb t) =? 0) then (TCP_SNDBUF_IDLE, t)
  else if negb (seq_lt (sent_seq t) (buf_end t)) then (TCP_SNDBUF_IDLE, t)
  else match tcp_sndbuf_peek (sent_seq t) (sb t) with
  | None => (TCP_SNDBUF_IDLE, t)
  | Some payload => new_data_send io payload t
  end.

(** ** The flush *)

(** Draining the control queue; [None] when it is empty. *)
Fixpoint flush_control (q : list tcp_segment) (io : nat -> tcp_io) (k : nat) (t : tcb)
    : (option sock_tx_flush_result * nat) * tcb :=
  match q with
  | [] => ((None, k), t)
  | f :: q' =>
      let t0 := set_tx_queue q' t in
      if negb (arp_ok (io k)) then
        let '(ok, t1) := nsock_tcp_tx_requeue_head f t0 in
        if ok then ((Some SOCK_TX_FLUSH_ARP_WAIT, k), emit EvArpWait t1) else ((Some SOCK_TX_FLUSH_IDLE, k), t1)
      else if negb (packet_ok (io k) f) then
        let '(ok, t1) := nsock_tcp_tx_requeue_head f t0 in
        ((Some (if ok then SOCK_TX_FLUSH_RETRY else SOCK_TX_FLUSH_IDLE), k), t1)
      else
        let t1 := emit (EvPacket f) t0 in
        let t2 :=
          if has_flag (seg_flags f) RTE_TCP_ACK_FLAG && negb (has_flag (seg_flags f) RTE_TCP_SYN_FLAG)
             && (seg_ack f =? recv_ack (rx t1)) && (seg_win f =? tcp_wire_rcv_wnd (seg_flags f) t1)
          then set_ack_pending false t1 else t1 in
        flush_control q' io (S k) t2
  end.

Fixpoint flush_recovery (fuel : nat) (io : nat -> tcp_io) (k : nat) (t : tcb)
    : option (tcp_sndbuf_flush_result * nat) * tcb :=
  match fuel with
  | O => (None, t)
  | S f =>
      match tcp_tx_flush_recovery_retransmit (io k) t with
      | (TCP_SNDBUF_SENT, t1) => flush_recovery f io (S k) t1
      | (r, t1) => (Some (r, S k), t1)
      end
  end.

Definition fin_ready (t : tcb) : bool :=
  one_of (st t) [TCP_STATUS_FIN_WAIT_1; TCP_STATUS_LAST_ACK; TCP_STATUS_CLOSING]
  && fin_deferred (opt t) && (sent_seq t =? u32 (una t + sb_len (sb t))).
Definition set_fin_deferred (b : bool) (t : tcb) : tcb := set_opt (TcpOptions.with_fin_deferred b (opt t)) t.
Definition fin_flags : Z := Z.lor RTE_TCP_FIN_FLAG RTE_TCP_ACK_FLAG.

(** The end of a round: a pending ACK, then a deferred FIN.  [None] continues. *)
Definition flush_tail (io : tcp_io) (t : tcb) : option sock_tx_flush_result * tcb :=
  if ack_pending t then
    let '(f, t1) := tcp_make_fragment io RTE_TCP_ACK_FLAG (sent_seq t) (recv_ack (rx t)) t in
    let '(ok, t2) := tcp_enqueue_fragment f t1 in
    if ok then (None, set_ack_pending false t2) else (Some SOCK_TX_FLUSH_RETRY, t2)
  else if fin_ready t then
    let '(f, t1) := tcp_make_fragment io fin_flags (sent_seq t) (recv_ack (rx t)) t in
    let '(ok, t2) := tcp_enqueue_fragment f t1 in
    if ok then
      let '(armed, t3) := tcp_arm_data_rto io (rto_ms (rtt t2))
                            (set_fin_deferred false (set_sent_seq (u32 (sent_seq t2 + 1)) t2)) in
      if armed then (None, t3) else (Some SOCK_TX_FLUSH_DESTROYED, tcp_abort_stream io ENOBUFS true t3)
    else (Some SOCK_TX_FLUSH_DESTROYED, tcp_abort_stream io ENOBUFS true t2)
  else (Some SOCK_TX_FLUSH_IDLE, t).

Fixpoint flush_loop (fuel : nat) (io : nat -> tcp_io) (k : nat) (t : tcb) : option sock_tx_flush_result * tcb :=
  match fuel with
  | O => (None, t)
  | S f =>
      match flush_control (tx_queue t) io k t with
      | ((Some r, _), t1) => (Some r, t1)
      | ((None, k1), t1) =>
          match flush_recovery fuel io k1 t1 with
          | (None, t2) => (None, t2)
          | (Some (TCP_SNDBUF_ARP_WAIT, _), t2) => (Some SOCK_TX_FLUSH_ARP_WAIT, t2)
          | (Some (TCP_SNDBUF_RETRY, _), t2) => (Some SOCK_TX_FLUSH_RETRY, t2)
          | (Some (_, k2), t2) =>
              match tcp_tx_flush_sndbuf (io k2) t2 with
              | (TCP_SNDBUF_ARP_WAIT, t3) => (Some SOCK_TX_FLUSH_ARP_WAIT, t3)
              | (TCP_SNDBUF_RETRY, t3) => (Some SOCK_TX_FLUSH_RETRY, t3)
              | (TCP_SNDBUF_DESTROYED, t3) => (Some SOCK_TX_FLUSH_DESTROYED, t3)
              | (TCP_SNDBUF_SENT, t3) => flush_loop f io (S k2) t3
              | (TCP_SNDBUF_IDLE, t3) =>
                  match flush_tail (io (S k2)) t3 with
                  | (None, t4) => flush_loop f io (S (S k2)) t4
                  | (Some r, t4) => (Some r, t4)
                  end
              end
          end
      end
  end.

Definition tcp_tx_flush (fuel : nat) (io : nat -> tcp_io) (t : tcb) : option sock_tx_flush_result * tcb :=
  if one_of (st t) [TCP_STATUS_CLOSED; TCP_STATUS_LISTEN] then (Some SOCK_TX_FLUSH_IDLE, t)
  else flush_loop fuel io 0 t.

(** ** Application writes *)

(** The bytes accepted or the error. *)
Definition tcp_send (io : tcp_io) (data : list Z) (t : tcb) : (errno + Z) * tcb :=
  if zlen data =? 0 then (inr 0, t)
  else if negb (one_of (st t) [TCP_STATUS_ESTABLISHED; TCP_STATUS_CLOSE_WAIT])
  then (inl (default EPIPE (terminal_error (rx t))), t)
  else
    let space := tcp_app_snd_space t in
    if space =? 0 then (inl EAGAIN, t)
    else
      let accepted := Z.min (zlen data) space in
      let '(n, (m, b)) := tcp_sndbuf_append (chunk_alloc io) (take (Z.to_nat accepted) data) (gauges t) (sb t) in
      let t1 := set_sb b (set_gauges m t) in
      if n <=? 0 then (inl ENOBUFS, t1) else (inr n, emit EvMarkDirty t1).
