(* ===== verification/TcpState.v ===== *)
(** * The connection state machine (pro-stack/tcp.c: state handlers,
    tcp_ingress, tcp_timer_cb, tcp_connect, tcp_close, tcp_recv)

    One definition per handler.  [tcp_ingress_stream] is [tcp_ingress] for a
    segment that matches a live stream; [tcp_reset_reply] is the answer to one
    that matches none.  A null-pointer access sets [fault]. *)

From S2P Require Import Prelude Config SeqNum TcpRtt TcpCc SackRange TcpSack TcpOptions OwnerTimer TcpOfo.
From S2P Require Import TcpSndBuf TcpTcb TcpAck TcpTx.

(** A segment that passed the header and checksum checks. *)
Record tcp_inbound := mk_in {
  in_seq : Z;
  in_ack : Z;
  in_flags : Z;
  in_win : Z;
  in_opts : tcp_options_rx;
  in_data : list Z
}.
Definition has (h : tcp_inbound) (f : Z) : bool := has_flag (in_flags h) f.

Definition store_opt (f : tcp_opt_state -> tcp_opt_state) (t : tcb) : tcb := opt_store (f (opt_view t)) t.

(** ** Receiving stream data *)

Definition tcp_apply_peer_eof (io : tcp_io) (t : tcb) : bool * tcb :=
  if negb (peer_eof (rx t)) then (true, t)
  else match st t with
  | TCP_STATUS_ESTABLISHED => (true, tcp_stream_set_status TCP_STATUS_CLOSE_WAIT t)
  | TCP_STATUS_FIN_WAIT_1 => (true, tcp_stream_set_status TCP_STATUS_CLOSING t)
  | TCP_STATUS_FIN_WAIT_2 => tcp_enter_time_wait io t
  | _ => (true, t)
  end.

Definition tcp_receive_stream_range (io : tcp_io) (seq : Z) (payload : list Z) (fin : bool) (t : tcb) : bool * tcb :=
  let '(apply, r) := receive_range (ofo_alloc io) (blob_ok io) seq payload fin (rx t) in
  if apply then tcp_apply_peer_eof io (set_rx r t) else (true, set_rx r t).

(** A control segment on the queue, dropped when none can be made. *)
Definition queue_control (io : tcp_io) (flags seq : Z) (t : tcb) : bool * tcb :=
  let '(f, t1) := tcp_make_fragment io flags seq (recv_ack (rx t)) t in tcp_enqueue_fragment f t1.

Definition tcp_receive_stream_segment (io : tcp_io) (h : tcp_inbound) (t : tcb) : bool * tcb :=
  let fin := has h RTE_TCP_FIN_FLAG in
  let old := recv_ack (rx t) in
  if (zlen (in_data h) =? 0) && negb fin then (true, t)
  else if has h RTE_TCP_SYN_FLAG then (true, t)
  else
    let '(ok, t1) := tcp_receive_stream_range io (in_seq h) (in_data h) fin t in
    if negb ok then (false, t1)
    else
      let moved := negb (recv_ack (rx t1) =? old) in
      let t2 := if moved then set_opt (tcp_options_note_receive_progress (io_ms io) (opt t1)) t1 else t1 in
      let t3 :=
        if negb fin && (in_seq h =? old) && moved && bool_decide (ofo (rx t2) = [])
           && bool_decide (TcpOfo.dsack (rx t2) = None) && negb (peer_eof (rx t2))
        then emit EvMarkDirty (set_ack_pending true t2)
        else snd (queue_control io RTE_TCP_ACK_FLAG (sent_seq t2) t2) in
      (true, if negb (zlen (rx_queue (rx t3)) =? 0) || peer_eof (rx t3)
             then emit (EvReady (if peer_eof (rx t3) then Z.lor OWNER_IO_EV_READ OWNER_IO_EV_HUP else OWNER_IO_EV_READ))
                    (emit EvWakeRecv t3)
             else t3).

Definition tcp_recv (io : tcp_io) (len : Z) (t : tcb) : recv_result * tcb :=
  let '((res, copied), r) := recv_copy (blob_ok io) len (rx t) in
  let t1 := set_rx r t in
  match copied with
  | None => (res, t1)
  | Some whole =>
      let '(ok, t2) := tcp_apply_peer_eof io t1 in
      if negb ok then (res, t2)
      else
        let t3 := emit EvMarkDirty (set_ack_pending true t2) in
        (res, if whole then set_rx (with_rx_current None (rx t3)) t3 else t3)
  end.

(** ** Handshake *)

(** What both handshakes do once the peer has acknowledged the SYN. *)
Definition synchronised (seg_seq seg_ack seg_wnd scale : Z) (t : tcb) : tcb :=
  let t1 := set_sent_seq (u32 (sent_seq t + 1)) t in
  let t2 := sndbuf_reset (sent_seq t1) (set_una (sent_seq t1) t1) in
  let t3 := set_timer None (set_score (tcp_sack_state_reset (sent_seq t2) (score t2)) t2) in
  let t4 := tcp_update_snd_wnd seg_seq seg_ack seg_wnd scale t3 in
  let t5 := set_rtt (tcp_rtt_reset (rtt t4)) t4 in
  tcp_stream_set_status TCP_STATUS_ESTABLISHED (tcp_cc_init_default (syn_retransmitted t5) t5).

Definition tcp_state_syn_sent (io : tcp_io) (h : tcp_inbound) (t : tcb) : tcb :=
  if negb (has h RTE_TCP_SYN_FLAG) || negb (has h RTE_TCP_ACK_FLAG) then t
  else if negb (in_ack h =? u32 (sent_seq t + 1)) then t
  else
    let t1 := set_rx (TcpOfo.with_recv_ack (u32 (in_seq h + 1)) (rx t)) t in
    let t2 := synchronised (in_seq h) (in_ack h) (in_win h) 0 t1 in
    emit (EvReady OWNER_IO_EV_CONNECTED) (emit (EvCompleteConnect None)
      (emit EvMarkDirty (set_ack_pending true t2))).

Definition synack_flags : Z := Z.lor RTE_TCP_SYN_FLAG RTE_TCP_ACK_FLAG.

(** The SYN+ACK of a passive open with its negotiated options. *)
Definition make_synack (io : tcp_io) (t : tcb) : option tcp_segment * tcb :=
  match tcp_make_fragment io synack_flags (sent_seq t) (recv_ack (rx t)) t with
  | (None, t1) => (None, t1)
  | (Some f, t1) =>
      let o := opt t1 in
      let '(g, t2) := apply_syn io (wscale_ok o) (timestamps_ok o) (sack_local_offered o) (ts_recent o) f t1 in
      (Some g, t2)
  end.

Definition peer_scale (t : tcb) : Z := if wscale_ok (opt t) then snd_wscale (opt t) else 0.

Definition tcp_send_reset_for_stream (io : tcp_io) (t : tcb) : tcb :=
  if mbuf_ok io && ring_ok io then
    let flags := Z.lor RTE_TCP_RST_FLAG RTE_TCP_ACK_FLAG in
    emit (EvPacket (mk_seg (sent_seq t) (recv_ack (rx t)) flags 0 (blank_frag flags) [])) t
  else t.

Definition tcp_state_syn_recv (io : tcp_io) (h : tcp_inbound) (t : tcb) : tcb :=
  if has h RTE_TCP_SYN_FLAG && negb (has h RTE_TCP_ACK_FLAG) then
    let '(f, t1) := make_synack io t in
    let t2 := set_retries 0 (snd (tcp_enqueue_fragment f t1)) in
    let '(ok, t3) := tcp_arm_syn_timer io TCP_SYN_RTO_MS t2 in
    if ok then t3 else tcp_abort_stream io ENOBUFS false t3
  else if negb (has h RTE_TCP_ACK_FLAG) then t
  else if negb (in_ack h =? u32 (sent_seq t + 1)) then t
  else
    let t1 := synchronised (in_seq h) (in_ack h) (in_win h) (peer_scale t) (set_retries 0 t) in
    if negb (has_listener t1) then t1
    else
      let t2 := emit EvSynPendingDec t1 in
      if accept_ok io then emit EvAcceptEnqueue t2
      else nsock_free (drain_recv (tcp_drain_send (tcp_send_reset_for_stream io t2))).

(** ** Synchronised states *)

Definition tcp_state_established (io : tcp_io) (h : tcp_inbound) (t : tcb) : tcb :=
  let '(ok, t1) :=
    if has h RTE_TCP_ACK_FLAG then
      let scale := peer_scale t in
      let classic_dup := (zlen (in_data h) =? 0) && negb (has h RTE_TCP_FIN_FLAG) && negb (has h RTE_TCP_SYN_FLAG)
                         && snd_wnd_valid t && (u32 (Z.shiftl (in_win h) scale) =? snd_wnd t) in
      tcp_process_peer_ack_ex io (in_ack h) classic_dup (Some (in_seq h, in_win h, scale)) t
    else (true, t) in
  if ok then snd (tcp_receive_stream_segment io h t1) else t1.

(** The ACK of a segment in a state that does not use its window. *)
Definition state_ack (io : tcp_io) (h : tcp_inbound) (t : tcb) : bool * tcb :=
  if has h RTE_TCP_ACK_FLAG then tcp_process_peer_ack io (in_ack h) t else (true, t).

Definition tcp_state_last_ack (io : tcp_io) (h : tcp_inbound) (t : tcb) : tcb :=
  let '(ok, t1) := tcp_receive_stream_segment io h t in
  if negb ok || negb (has h RTE_TCP_ACK_FLAG) then t1
  else
    let '(ok2, t2) := tcp_process_peer_ack io (in_ack h) t1 in
    if negb ok2 || negb (in_ack h =? sent_seq t2) then t2
    else
      let t3 := drain_recv (tcp_drain_send (tcp_stream_set_status TCP_STATUS_CLOSED t2)) in
      if app_closed t3 then nsock_free t3 else t3.

Definition tcp_state_time_wait (io : tcp_io) (h : tcp_inbound) (t : tcb) : tcb :=
  snd (tcp_receive_stream_segment io h t).

Definition tcp_state_closing (io : tcp_io) (h : tcp_inbound) (t : tcb) : tcb :=
  let '(ok, t1) := tcp_receive_stream_segment io h t in
  if negb ok || negb (has h RTE_TCP_ACK_FLAG) then t1
  else
    let '(ok2, t2) := tcp_process_peer_ack io (in_ack h) t1 in
    if negb ok2 || negb (in_ack h =? sent_seq t2) then t2 else snd (tcp_enter_time_wait io t2).

Definition tcp_state_fin_wait_1 (io : tcp_io) (h : tcp_inbound) (t : tcb) : tcb :=
  let '(ok, t1) := state_ack io h t in
  if negb ok then t1
  else
    let '(ok2, t2) :=
      if has h RTE_TCP_ACK_FLAG && (in_ack h =? sent_seq t1) then
        let s := tcp_stream_set_status TCP_STATUS_FIN_WAIT_2 t1 in
        let deadline := deadline_after io TCP_FIN_WAIT_2_TIMEOUT_MS in
        let c := close_deadline_cycles s in
        let s1 := if (c =? 0) || (deadline <? c) then set_close_deadline_cycles deadline s else s in
        let '(armed, s2) := arm_at io (close_deadline_cycles s1) s1 in
        if armed then (true, s2) else (false, tcp_abort_stream io ENOBUFS true s2)
      else (true, t1) in
    if ok2 then snd (tcp_receive_stream_segment io h t2) else t2.

Definition tcp_state_fin_wait_2 (io : tcp_io) (h : tcp_inbound) (t : tcb) : tcb :=
  let '(ok, t1) := state_ack io h t in if ok then snd (tcp_receive_stream_segment io h t1) else t1.

Definition tcp_state_close_wait (io : tcp_io) (h : tcp_inbound) (t : tcb) : tcb :=
  let '(ok, t1) := state_ack io h t in if ok then snd (tcp_receive_stream_segment io h t1) else t1.

(** [tcp_state_ops], indexed by the status. *)
Definition tcp_state_ops (s : TCP_STATUS) : tcp_io -> tcp_inbound -> tcb -> tcb :=
  match s with
  | TCP_STATUS_CLOSED | TCP_STATUS_LISTEN => fun _ _ t => t
  | TCP_STATUS_SYN_SENT => tcp_state_syn_sent
  | TCP_STATUS_SYN_RECV => tcp_state_syn_recv
  | TCP_STATUS_ESTABLISHED => tcp_state_established
  | TCP_STATUS_CLOSE_WAIT => tcp_state_close_wait
  | TCP_STATUS_LAST_ACK => tcp_state_last_ack
  | TCP_STATUS_TIME_WAIT => tcp_state_time_wait
  | TCP_STATUS_CLOSING => tcp_state_closing
  | TCP_STATUS_FIN_WAIT_1 => tcp_state_fin_wait_1
  | TCP_STATUS_FIN_WAIT_2 => tcp_state_fin_wait_2
  end.

(** ** Dispatch *)

Definition tcp_rst_acceptable (h : tcp_inbound) (t : tcb) : bool :=
  match st t with
  | TCP_STATUS_SYN_SENT => has h RTE_TCP_ACK_FLAG && (in_ack h =? u32 (sent_seq t + 1))
  | TCP_STATUS_TIME_WAIT => false
  | _ => in_seq h =? recv_ack (rx t)
  end.

Definition tcp_ingress_stream (io : tcp_io) (h : tcp_inbound) (t : tcb) : tcb :=
  if has h RTE_TCP_RST_FLAG then
    if tcp_rst_acceptable h t then tcp_abort_stream io ECONNRESET false t else t
  else
    let s := st t in
    let t1 :=
      if bool_decide (s = TCP_STATUS_SYN_SENT) && (Z.land (in_flags h) synack_flags =? synack_flags)
         && (in_ack h =? u32 (sent_seq t + 1))
      then store_opt (tcp_options_negotiate_syn (io_ms io) (in_opts h)) t else t in
    let acceptable := bool_decide (s = TCP_STATUS_ESTABLISHED)
      && tcp_segment_acceptable (in_seq h) (zlen (in_data h)) (has h RTE_TCP_FIN_FLAG) (rx t1) in
    let '(code, o) := tcp_options_process_inbound (io_ms io) (in_opts h) false (in_seq h) acceptable (opt_view t1) in
    let t2 := opt_store o t1 in
    if negb (code =? 0) then
      if (code =? -2) && bool_decide (s = TCP_STATUS_ESTABLISHED) then
        let t3 := set_rx (tcp_sack_note_duplicate (in_seq h) (zlen (in_data h)) (rx t2)) t2 in
        snd (queue_control io RTE_TCP_ACK_FLAG (sent_seq t3) t3)
      else t2
    else tcp_state_ops s io h t2.

(** RFC 793 reset for a segment without a stream: its sequence number,
    acknowledgement number and flags. *)
Definition tcp_reset_reply (h : tcp_inbound) : option (Z * Z * Z) :=
  if has h RTE_TCP_RST_FLAG then None
  else
    let seg_len := zlen (in_data h) + (if has h RTE_TCP_SYN_FLAG then 1 else 0)
                   + (if has h RTE_TCP_FIN_FLAG then 1 else 0) in
    Some (if has h RTE_TCP_ACK_FLAG then (in_ack h, 0, RTE_TCP_RST_FLAG)
          else (0, u32 (in_seq h + seg_len), Z.lor RTE_TCP_RST_FLAG RTE_TCP_ACK_FLAG)).

(** ** Timer *)

(** The SYN RTO after [retries] expiries, as the [uint64_t] shift computes it. *)
Definition syn_delay (retries : Z) : Z := u64 (Z.shiftl TCP_SYN_RTO_MS (retries - 1)).

Definition arm_syn_or_abort (io : tcp_io) (t : tcb) : tcb :=
  let '(ok, t1) := tcp_arm_syn_timer io (syn_delay (retries t)) t in
  if ok then t1 else tcp_abort_stream io ENOBUFS false t1.

Definition timer_syn_sent (io : tcp_io) (t : tcb) : tcb :=
  if retries t <? TCP_SYN_MAX_RETRIES then
    let t1 := set_syn_retransmitted true (set_retries (u8 (retries t + 1)) t) in
    let '(f, t2) := tcp_make_fragment io RTE_TCP_SYN_FLAG (sent_seq t1) 0 t1 in
    let '(f, t3) := match f with
                    | Some f => let '(g, t') := apply_syn io true true true 0 f t2 in (Some g, t')
                    | None => (None, t2)
                    end in
    arm_syn_or_abort io (snd (tcp_enqueue_fragment f t3))
  else
    let t1 := tcp_drain_send (tcp_stream_set_status TCP_STATUS_CLOSED t) in
    let t2 := set_rx (with_terminal_error (Some ETIMEDOUT) (rx t1)) t1 in
    let t3 := emit (EvReady OWNER_IO_EV_ERROR) (emit (EvCompleteConnect (Some ETIMEDOUT)) t2) in
    if app_closed t3 then nsock_free (drain_recv t3) else t3.

(** The options are written through the fragment pointer without a check. *)
Definition timer_syn_recv (io : tcp_io) (t : tcb) : tcb :=
  if retries t <? TCP_SYN_MAX_RETRIES then
    let t1 := set_syn_retransmitted true (set_retries (u8 (retries t + 1)) t) in
    match make_synack io t1 with
    | (None, t2) => set_fault true t2
    | (Some f, t2) => arm_syn_or_abort io (snd (tcp_enqueue_fragment (Some f) t2))
    end
  else
    let t1 := if has_listener t then emit EvSynPendingDec t else t in
    nsock_free (tcp_drain_send (drain_recv (set_timer None t1))).

(** Loss response to a data RTO. *)
Definition timer_data_loss (t : tcb) : tcb :=
  let flight_end := tcp_sack_payload_flight_end t in
  let c := TcpCc.st (cc t) in
  let first_rto := negb (rto_loss_valid c) || negb (rto_loss_seq c =? una t) in
  let ev := mk_loss TCP_CC_LOSS_RTO (u32 (flight_end - una t)) flight_end first_rto in
  let c1 := mk_tcp_cc (ops (cc t)) (with_rto_loss_seq (una t) (with_rto_loss_valid true c)) in
  let t1 := set_cc (tcp_cc_on_rto (cenv t) ev c1) t in
  set_score (tcp_sack_on_rto (senv t1) flight_end (score t1)) t1.

Definition rearm_or_abort (io : tcp_io) (t : tcb) : bool * tcb :=
  let '(ok, t1) := tcp_arm_data_rto io (rto_ms (rtt t)) t in
  if ok then (true, t1) else (false, tcp_abort_stream io ENOBUFS true t1).

Definition timer_established (io : tcp_io) (t : tcb) : tcb :=
  if una t =? sent_seq t then t
  else if TCP_DATA_MAX_RETRIES <=? retries t then tcp_abort_stream io ETIMEDOUT true t
  else
    let t1 := set_rtt (tcp_rtt_on_timeout (rtt t)) (set_retries (u8 (retries t + 1)) t) in
    let '(ok, t2) := rearm_or_abort io (timer_data_loss t1) in
    if ok then emit EvMarkDirty t2 else t2.

Definition timer_fin (io : tcp_io) (t : tcb) : tcb :=
  if una t =? sent_seq t then t
  else if TCP_DATA_MAX_RETRIES <=? retries t then tcp_abort_stream io ETIMEDOUT true t
  else
    let t1 := set_rtt (tcp_rtt_on_timeout (rtt t)) (set_retries (u8 (retries t + 1)) t) in
    let data := 0 <? sb_len (sb t1) in
    let t2 := if data then timer_data_loss t1 else snd (queue_control io fin_flags (una t1) t1) in
    let '(ok, t3) := rearm_or_abort io t2 in
    if ok && data then emit EvMarkDirty t3 else t3.

Definition timer_time_wait (t : tcb) : tcb :=
  let t1 := tcp_drain_send (drain_recv (tcp_stream_set_status TCP_STATUS_CLOSED t)) in
  if negb (app_visible t1) || app_closed t1 then nsock_free t1 else t1.

(** [now] is the engine's time at the expiry. *)
Definition tcp_timer_cb (io : tcp_io) (now : Z) (t : tcb) : tcb :=
  if negb (close_deadline_cycles t =? 0) && (close_deadline_cycles t <=? now)
  then tcp_abort_stream io ETIMEDOUT true t
  else match st t with
  | TCP_STATUS_SYN_SENT => timer_syn_sent io t
  | TCP_STATUS_TIME_WAIT => timer_time_wait t
  | TCP_STATUS_ESTABLISHED | TCP_STATUS_CLOSE_WAIT => timer_established io t
  | TCP_STATUS_SYN_RECV => timer_syn_recv io t
  | TCP_STATUS_FIN_WAIT_1 | TCP_STATUS_LAST_ACK | TCP_STATUS_CLOSING => timer_fin io t
  | _ => t
  end.

(** ** Opening *)

(** [nsock_alloc] for TCP. *)
Definition tcb_alloc (rings : bool) (owner : tcp_ofo_owner_state) (m : sb_mem) (tw : resource_metric) : tcb :=
  let r := mk_rx 0 TCP_RCVBUF_SIZE 0 [] 0 0 0 false None None 0 TCP_STATUS_CLOSED false [] None owner None in
  let b := mk_block 0 0 in
  let o := mk_opt false 0 false 0 0 false 0 0 false false false false b [] false b [] false TCP_DEFAULT_MSS 0 false 0
             0 0 [] (tcp_sack_state_init 0) in
  tcp_cc_init_default false
    (mk_tcb r o (mk_rtt 0 0 0 false 0 0 false) (mk_tcp_cc None cc_zero) (tcp_sndbuf_init 0) 0 0 0 0 false 0 false
       None [] false 0 false 0 false false true rings false false false false m tw []).

(** What both opens do to the stream state before the SYN is made. *)
Definition open_reset (isn : Z) (t : tcb) : tcb :=
  let t1 := set_rx (with_terminal_error None (rx t)) (set_has_listener false t) in
  let t2 := sndbuf_reset isn (set_una isn (set_sent_seq isn t1)) in
  let t3 := set_rx (TcpOfo.with_recv_ack 0 (rx t2)) t2 in
  let t4 := set_opt (with_wscale_ok false (with_snd_wscale 0
              (with_rcv_wscale (tcp_choose_rcv_wscale (rcvbuf_size (rx t3))) (opt t3)))) t3 in
  let t5 := store_opt tcp_options_reset_state t4 in
  tcp_cc_init_default false (set_syn_retransmitted false (set_rtt (tcp_rtt_reset (rtt t5)) t5)).

Definition connect_start (isn : Z) (t : tcb) : tcb :=
  let t1 := open_reset isn t in set_retries 0 (set_rx (with_peer_eof false (rx t1)) t1).

(** The SYN queued and its timer armed, the four-tuple being registered. *)
Definition connect_syn (io : tcp_io) (t3 : tcb) : option errno * tcb :=
  let '(f, t4) := tcp_make_fragment io RTE_TCP_SYN_FLAG (sent_seq t3) 0 t3 in
  let '(f, t5) := match f with
                  | Some f => let '(g, t') := apply_syn io true true true 0 f t4 in (Some g, t')
                  | None => (None, t4)
                  end in
  let '(ok, t6) := tcp_enqueue_fragment f t5 in
  if negb ok then (None, nsock_tcp_conn_unregister t6)
  else
    let '(armed, t7) := tcp_arm_syn_timer io TCP_SYN_RTO_MS (tcp_stream_set_status TCP_STATUS_SYN_SENT t6) in
    if armed then (Some EINPROGRESS, t7) else (Some ENOBUFS, tcp_abort_stream io ENOBUFS false t7).

(** [bound] is the result of the implicit bind; [registered_ok] that of the
    four-tuple registration.  [None] is a failure that leaves [errno] alone. *)
Definition tcp_connect (io : tcp_io) (isn : Z) (bound : option errno) (registered_ok : bool) (t : tcb)
    : option errno * tcb :=
  if negb (bool_decide (st t = TCP_STATUS_CLOSED)) then (None, t)
  else match bound with
  | Some e => (Some e, t)
  | None =>
      if registered_ok then connect_syn io (set_registered true (connect_start isn t))
      else (Some EADDRINUSE, connect_start isn t)
  end.

(** ** Closing *)

(** Queue the FIN now or after the unsent data; [false] when the queue refuses. *)
Definition close_fin (io : tcp_io) (t : tcb) : bool * tcb :=
  if seq_lt (sent_seq t) (buf_end t) then (true, set_fin_deferred true t)
  else
    let '(ok, t1) := queue_control io fin_flags (sent_seq t) t in
    if ok then (true, set_sent_seq (u32 (sent_seq t1 + 1)) t1) else (false, t1).

(** The two timers a close may need. *)
Definition close_arm (io : tcp_io) (t : tcb) : bool * tcb :=
  if negb (una t =? sent_seq t) then tcp_arm_data_rto io (rto_ms (rtt t)) t
  else if negb (close_deadline_cycles t =? 0) then arm_at io (close_deadline_cycles t) t
  else (true, t).

Definition close_into (io : tcp_io) (s : TCP_STATUS) (drain : bool) (t : tcb) : option errno * tcb :=
  let '(ok, t1) := close_fin io t in
  if negb ok then (Some ENOBUFS, tcp_abort_stream io ENOBUFS true t1)
  else
    let t2 := tcp_stream_set_status s (set_retries 0 t1) in
    let '(armed, t3) := close_arm io t2 in
    if negb armed then (Some ENOBUFS, tcp_abort_stream io ENOBUFS true t3)
    else
      let t4 := if drain then drain_recv t3 else t3 in
      (None, if fin_deferred (opt t4) then emit EvMarkDirty t4 else t4).

(** [None] is the 0 return. The listener's close is in TcpListen. *)
Definition tcp_close (io : tcp_io) (t : tcb) : option errno * tcb :=
  match st t with
  | TCP_STATUS_CLOSED => (None, nsock_free (drain_recv (tcp_drain_send t)))
  | TCP_STATUS_LISTEN => (None, nsock_free (drain_recv (tcp_drain_send (emit (EvAbortWaiters ECANCELED) t))))
  | TCP_STATUS_SYN_SENT =>
      let t1 := emit (EvCompleteConnect (Some ECANCELED)) (tcp_stream_set_status TCP_STATUS_CLOSED (set_timer None t)) in
      (None, nsock_free (drain_recv (tcp_drain_send t1)))
  | s =>
      if linger_enabled t && (linger_seconds t =? 0) then (None, tcp_abort_stream io ECONNRESET true t)
      else
        let t1 := if linger_enabled t && (close_deadline_cycles t =? 0)
                  then set_close_deadline_cycles (deadline_after io (u64 (linger_seconds t * 1000))) t else t in
        match s with
        | TCP_STATUS_ESTABLISHED => close_into io TCP_STATUS_FIN_WAIT_1 false t1
        | TCP_STATUS_SYN_RECV =>
            close_into io TCP_STATUS_FIN_WAIT_1 false (if has_listener t1 then emit EvSynPendingDec t1 else t1)
        | TCP_STATUS_CLOSE_WAIT => close_into io TCP_STATUS_LAST_ACK true t1
        | _ => (None, t1)
        end
  end.

(** ** The owner's commands on a published stream *)

(** SOCK_CMD_CLOSE and owner_io_close: the handle is marked closed before the
    stream is. *)
Definition sock_cmd_close (io : tcp_io) (t : tcb) : option errno * tcb :=
  if app_closed t then (Some EBADF, t) else tcp_close io (emit (EvAbortWaiters ECANCELED) (set_app_closed true t)).

(** The child of an ACCEPT, taken off its listener. *)
Definition publish_accepted (nd : bool) (t : tcb) : tcb := set_nodelay nd (set_app_visible true (set_has_listener false t)).

Definition socket_option_nodelay (v : bool) (t : tcb) : tcb :=
  let t1 := set_nodelay v t in if nodelay t1 then emit EvMarkDirty t1 else t1.

Definition socket_option_linger (on : bool) (seconds : Z) (t : tcb) : tcb := set_linger_seconds seconds (set_linger_enabled on t).

(** On a stream; a listener is closed with its children (TcpListen). *)
Definition tcp_force_abort (io : tcp_io) (error : errno) (t : tcb) : tcb := tcp_abort_stream io error true t.
