(* ===== verification/TcpListen.v ===== *)
(** * Listeners and passive opens (pro-stack/tcp.c: tcp_listen,
    tcp_state_listen, tcp_stream_create, tcp_accept_owned,
    tcp_close_listener, tcp_listener_child_attach/detach)

    A listener is the fields of [struct tcp_stream] that only listeners use;
    its children are control blocks named by their owner slot.  The events a
    child leaves in [out] are what it does to its listener: [settle] applies
    them.  [rte_align32pow2] and [rte_ring] are DPDK's: the first is a
    parameter, and a ring of [n] slots holds [n - 1] entries. *)

From stdpp Require Import gmap.
From S2P Require Import Prelude Config SeqNum TcpRtt TcpCc SackRange TcpSack TcpOptions OwnerTimer TcpOfo.
From S2P Require Import TcpSndBuf TcpTcb TcpAck TcpTx TcpState.

Record listener := mk_listener {
  l_status : TCP_STATUS;
  backlog : Z;
  syn_pending : Z;
  (** Slots of [accept_queue]; [None] is the null pointer. *)
  ring_slots : option Z;
  accept_queue : list nat;
  child_list : list nat;
  kids : gmap nat tcb
}.

Definition with_l_status (v : TCP_STATUS) (l : listener) : listener :=
  mk_listener v (backlog l) (syn_pending l) (ring_slots l) (accept_queue l) (child_list l) (kids l).
Definition with_backlog (v : Z) (l : listener) : listener :=
  mk_listener (l_status l) v (syn_pending l) (ring_slots l) (accept_queue l) (child_list l) (kids l).
Definition with_syn_pending (v : Z) (l : listener) : listener :=
  mk_listener (l_status l) (backlog l) v (ring_slots l) (accept_queue l) (child_list l) (kids l).
Definition with_ring (v : option Z) (q : list nat) (l : listener) : listener :=
  mk_listener (l_status l) (backlog l) (syn_pending l) v q (child_list l) (kids l).
Definition with_children (cs : list nat) (k : gmap nat tcb) (l : listener) : listener :=
  mk_listener (l_status l) (backlog l) (syn_pending l) (ring_slots l) (accept_queue l) cs k.

Definition ring_room (l : listener) : bool :=
  match ring_slots l with Some n => zlen (accept_queue l) <? n - 1 | None => false end.

(** ** The list of unaccepted children *)

Definition tcp_listener_child_detach (id : nat) (l : listener) : listener :=
  with_children (filter (fun x => x <> id) (child_list l)) (alter (set_has_listener false) id (kids l)) l.
Definition tcp_listener_child_attach (id : nat) (l : listener) : listener :=
  let l1 := tcp_listener_child_detach id l in
  with_children (child_list l1 ++ [id]) (alter (set_has_listener true) id (kids l1)) l1.

(** ** What a child does to its listener *)

Definition pending_dec (l : listener) : listener :=
  if 0 <? syn_pending l then with_syn_pending (syn_pending l - 1) l else l.

Definition child_event (id : nat) (l : listener) (e : tcp_event) : listener :=
  match e with
  | EvSynPendingDec => pending_dec l
  | EvAcceptEnqueue => with_ring (ring_slots l) (accept_queue l ++ [id]) l
  | EvFree => with_children (filter (fun x => x <> id) (child_list l)) (delete id (kids l)) l
  | _ => l
  end.

(** The child's new state [t], then its events in order. *)
Definition settle (id : nat) (t : tcb) (l : listener) : listener :=
  foldl (child_event id) (with_children (child_list l) (<[id := t]> (kids l)) l) (out t).

(** An operation on a child; the accept ring is the listener's. *)
Definition with_accept (b : bool) (io : tcp_io) : tcp_io :=
  mk_io (io_ms io) (io_cycles io) (io_hz io) (arm_ok io) (frag_ok io) (arp_ok io) (mbuf_ok io) (ring_ok io) b
    (sack_alloc io) (chunk_alloc io) (ofo_alloc io) (blob_ok io).
Definition run_child (f : tcp_io -> tcb -> tcb) (io : tcp_io) (id : nat) (l : listener) : listener :=
  match kids l !! id with
  | Some t => settle id (f (with_accept (ring_room l) io) (set_out [] t)) l
  | None => l
  end.

(** The release of a child by its listener. *)
Definition release_child (id : nat) : listener -> listener :=
  run_child (fun _ t => nsock_free (drain_recv (tcp_drain_send t))) 
    (mk_io 0 0 0 false false false false false false (fun _ => false) (fun _ => false)
       (fun _ => mk_omem 0 0 0 0 false false) (fun _ => false)) id.

(** ** Passive open *)

(** What a SYN finds outside: the initial sequence number, the slot and the
    results of the allocation, the adoption and the registration. *)
Record syn_env := mk_syn {
  syn_isn : Z;
  syn_slot : nat;
  alloc_ok : bool;
  adopt_ok : bool;
  register_ok : bool;
  syn_owner : tcp_ofo_owner_state;
  syn_gauges : sb_mem;
  syn_time_wait : resource_metric
}.

(** [None] when a step fails; what was allocated is released again. *)
Definition tcp_stream_create (e : syn_env) : option tcb :=
  if negb (alloc_ok e) || negb (adopt_ok e) || negb (register_ok e) then None
  else
    let t0 := tcb_alloc true (syn_owner e) (syn_gauges e) (syn_time_wait e) in
    let t1 := set_registered true (set_rx (with_status TCP_STATUS_SYN_RECV (rx t0)) t0) in
    Some (open_reset (syn_isn e) t1).

(** The SYN+ACK of a new child: the descriptor's options come from
    [tcp_options_apply_syn]. *)
Definition first_synack (io : tcp_io) (peer_seq : Z) (t : tcb) : tcp_segment * tcb :=
  let win := tcp_wire_rcv_wnd synack_flags t in
  let f := mk_seg (sent_seq t) (u32 (peer_seq + 1)) synack_flags win (mk_frag synack_flags 0 0 (replicate 40 0)) [] in
  let o := opt t in
  let '(g, t1) := apply_syn io (wscale_ok o) (timestamps_ok o) true (ts_recent o) f t in
  (g, set_rx (TcpOfo.with_recv_ack (seg_ack g) (rx t1)) t1).

(** The child after its SYN; [None] when it did not survive. *)
Definition open_child (io : tcp_io) (h : tcp_inbound) (t : tcb) : option (bool * tcb) :=
  let t1 := store_opt (tcp_options_negotiate_syn (io_ms io) (in_opts h)) t in
  if negb (frag_ok io) then None
  else
    let '(f, t2) := first_synack io (in_seq h) t1 in
    let '(ok, t3) := tcp_enqueue_fragment (Some f) t2 in
    if negb ok then None
    else
      let '(armed, t4) := tcp_arm_syn_timer io TCP_SYN_RTO_MS (set_retries 0 t3) in
      Some (armed, if armed then t4 else tcp_abort_stream io ENOBUFS false t4).

(** The reset reply, if any, and the listener. *)
Definition tcp_state_listen (io : tcp_io) (e : syn_env) (h : tcp_inbound) (l : listener)
    : option (Z * Z * Z) * listener :=
  if negb (has h RTE_TCP_SYN_FLAG) || has h RTE_TCP_ACK_FLAG then (None, l)
  else if negb (bool_decide (l_status l = TCP_STATUS_LISTEN)) then (None, l)
  else if bool_decide (ring_slots l = None) then (None, l)
  else if backlog l <=? u32 (syn_pending l + zlen (accept_queue l)) then (tcp_reset_reply h, l)
  else match tcp_stream_create e with
  | None => (tcp_reset_reply h, l)
  | Some t =>
      let id := syn_slot e in
      let l1 := tcp_listener_child_attach id (with_children (child_list l) (<[id := t]> (kids l)) l) in
      let l2 := with_syn_pending (syn_pending l1 + 1) l1 in
      match open_child io h (set_out [] (set_has_listener true t)) with
      | None =>
          (None, with_syn_pending (syn_pending l2 - 1)
                   (with_children (filter (fun x => x <> id) (child_list l2)) (delete id (kids l2)) l2))
      | Some (_, t1) => (None, settle id t1 l2)
      end
  end.

(** ** The application's side *)

Section Listen.
Context (rte_align32pow2 : Z -> Z).

Definition ring_size (b : Z) : Z := Z.max 2 (rte_align32pow2 (u32 (b + 1))).

(** [ring_ok] is the result of [rte_ring_create], [registered] that of the
    listener registration. *)
Definition tcp_listen (ring_ok : bool) (registered : option errno) (b : Z) (l : listener)
    : option (option errno) * listener :=
  match l_status l with
  | TCP_STATUS_LISTEN => (None, with_backlog (if 0 <? b then u32 b else 1) l)
  | TCP_STATUS_CLOSED =>
      let b := if b <? 1 then 1 else b in
      let l1 := with_backlog (u32 b) (with_syn_pending 0 (with_l_status TCP_STATUS_LISTEN l)) in
      if negb ring_ok then (Some None, with_l_status TCP_STATUS_CLOSED (with_ring None [] l1))
      else match registered with
      | Some e => (Some (Some e), with_l_status TCP_STATUS_CLOSED (with_ring None [] l1))
      | None => (None, with_ring (Some (ring_size b)) [] l1)
      end
  | _ => (Some (Some EINVAL), l)
  end.
End Listen.

(** The accept loop over what the ring holds. *)
Fixpoint accept_loop (q : list nat) (l : listener) : (errno + nat) * listener :=
  match q with
  | [] => (inl EAGAIN, l)
  | id :: q' =>
      let l1 := with_ring (ring_slots l) q' l in
      match kids l1 !! id with
      | Some t =>
          if bool_decide (st t = TCP_STATUS_CLOSED) then accept_loop q' (release_child id l1)
          else (inr id, tcp_listener_child_detach id l1)
      | None => (inl EAGAIN, l1)
      end
  end.

Definition tcp_accept_owned (l : listener) : (errno + nat) * listener :=
  if negb (bool_decide (l_status l = TCP_STATUS_LISTEN)) || bool_decide (ring_slots l = None) then (inl EINVAL, l)
  else accept_loop (accept_queue l) l.

(** Closing: the queued children, then those still in the handshake. *)
Fixpoint release_all (ids : list nat) (l : listener) : listener :=
  match ids with
  | [] => l
  | id :: rest =>
      release_all rest
        (match kids l !! id with
         | Some t => if app_visible t then tcp_listener_child_detach id l else release_child id l
         | None => l
         end)
  end.
Definition tcp_close_listener (l : listener) : listener :=
  let l1 := foldl (fun l id => release_child id l) l (accept_queue l) in
  let l2 := with_ring None [] l1 in
  with_l_status TCP_STATUS_CLOSED (with_syn_pending 0 (release_all (child_list l2) l2)).
