(* ===== verification/TcpSend.v ===== *)
(** * The send side of a connection: its invariant

    [sview] is the part of a control block the send side lives in.  The
    lemmas here say which operations leave it alone; the invariant places the
    send buffer, SND.UNA and SND.NXT in the stream of the bytes the
    application has written. *)

From S2P Require Import Prelude Config SeqNum TcpRtt TcpCc SackRange TcpSack TcpOptions OwnerTimer TcpOfo.
From S2P Require Import TcpOfoFacts TcpSndBuf TcpTcb TcpAck TcpTx TcpState.

Definition sview (t : tcb) : tcp_sndbuf * Z * Z * bool * list tcp_segment :=
  (sb t, sent_seq t, una t, fin_deferred (opt t), tx_queue t).

Definition packet (e : tcp_event) : option tcp_segment := match e with EvPacket s => Some s | _ => None end.
(** The packets handed to the output ring, oldest first. *)
Definition packets (t : tcb) : list tcp_segment := omap packet (out t).

(** The send view, the packets and the state are those of [t]. *)
Definition quiet (t t' : tcb) : Prop := sview t' = sview t /\ packets t' = packets t /\ st t' = st t.

#[global] Instance quiet_preorder : PreOrder quiet.
Proof. split; [intros ?; by split_and!|]. intros x y z (? & ? & ?) (? & ? & ?). split_and!; congruence. Qed.

Lemma quiet_emit e t : packet e = None -> quiet t (emit e t).
Proof. intros H. split_and!; try done. unfold packets. cbn. rewrite omap_app. cbn. by rewrite H, app_nil_r. Qed.

Definition opt_core (o : tcp_opt_state) : Z * bool := (TcpOptions.snd_una o, fin_deferred o).

Lemma quiet_opt o t : opt_core o = opt_core (opt t) -> quiet t (opt_store o t).
Proof. intros [= H1 H2]. split_and!; try done. unfold sview, una. cbn. by rewrite H1, H2. Qed.

Lemma opt_core_view t : opt_core (opt_view t) = opt_core (opt t).
Proof. done. Qed.

Lemma quiet_score s t : quiet t (set_score s t).
Proof. by split_and!. Qed.

Create HintDb quiet.
#[export] Hint Resolve quiet_emit quiet_opt quiet_score : quiet.

(** Setting a field outside the send view. *)
Lemma quiet_rtt v t u : quiet t u -> quiet t (set_rtt v u).
Proof. by intros (? & ? & ?). Qed.
Lemma quiet_cc v t u : quiet t u -> quiet t (set_cc v u).
Proof. by intros (? & ? & ?). Qed.
Lemma quiet_snd_wnd v t u : quiet t u -> quiet t (set_snd_wnd v u).
Proof. by intros (? & ? & ?). Qed.
Lemma quiet_snd_wl1 v t u : quiet t u -> quiet t (set_snd_wl1 v u).
Proof. by intros (? & ? & ?). Qed.
Lemma quiet_snd_wl2 v t u : quiet t u -> quiet t (set_snd_wl2 v u).
Proof. by intros (? & ? & ?). Qed.
Lemma quiet_snd_wnd_valid v t u : quiet t u -> quiet t (set_snd_wnd_valid v u).
Proof. by intros (? & ? & ?). Qed.
Lemma quiet_retries v t u : quiet t u -> quiet t (set_retries v u).
Proof. by intros (? & ? & ?). Qed.
Lemma quiet_syn_retransmitted v t u : quiet t u -> quiet t (set_syn_retransmitted v u).
Proof. by intros (? & ? & ?). Qed.
Lemma quiet_timer v t u : quiet t u -> quiet t (set_timer v u).
Proof. by intros (? & ? & ?). Qed.
Lemma quiet_ack_pending v t u : quiet t u -> quiet t (set_ack_pending v u).
Proof. by intros (? & ? & ?). Qed.
Lemma quiet_close_deadline_cycles v t u : quiet t u -> quiet t (set_close_deadline_cycles v u).
Proof. by intros (? & ? & ?). Qed.
Lemma quiet_has_listener v t u : quiet t u -> quiet t (set_has_listener v u).
Proof. by intros (? & ? & ?). Qed.
Lemma quiet_registered v t u : quiet t u -> quiet t (set_registered v u).
Proof. by intros (? & ? & ?). Qed.
Lemma quiet_freed v t u : quiet t u -> quiet t (set_freed v u).
Proof. by intros (? & ? & ?). Qed.
Lemma quiet_fault v t u : quiet t u -> quiet t (set_fault v u).
Proof. by intros (? & ? & ?). Qed.
Lemma quiet_gauges v t u : quiet t u -> quiet t (set_gauges v u).
Proof. by intros (? & ? & ?). Qed.
Lemma quiet_time_wait v t u : quiet t u -> quiet t (set_time_wait v u).
Proof. by intros (? & ? & ?). Qed.
#[export] Hint Resolve quiet_rtt quiet_cc quiet_snd_wnd quiet_snd_wl1 quiet_snd_wl2 quiet_snd_wnd_valid quiet_retries quiet_syn_retransmitted quiet_timer quiet_ack_pending quiet_close_deadline_cycles quiet_has_listener quiet_registered quiet_freed quiet_fault quiet_gauges quiet_time_wait : quiet.

(** The packets alone, for chains that touch the send view. *)
Lemma packets_rx r t : packets (set_rx r t) = packets t.
Proof. done. Qed.
Lemma packets_sb b t : packets (set_sb b t) = packets t.
Proof. done. Qed.
Lemma packets_una v t : packets (set_una v t) = packets t.
Proof. done. Qed.
Lemma packets_score v t : packets (set_score v t) = packets t.
Proof. done. Qed.
Lemma packets_tx_queue v t : packets (set_tx_queue v t) = packets t.
Proof. done. Qed.
Lemma packets_gauges v t : packets (set_gauges v t) = packets t.
Proof. done. Qed.
Lemma packets_ack_pending v t : packets (set_ack_pending v t) = packets t.
Proof. done. Qed.
Lemma packets_freed v t : packets (set_freed v t) = packets t.
Proof. done. Qed.
Create Rewrite HintDb packets.
#[export] Hint Rewrite packets_rx packets_sb packets_una packets_score packets_tx_queue packets_gauges
  packets_ack_pending packets_freed : packets.

Ltac quiet := first [by split_and! | eauto with quiet].

Lemma history_push_core b s : opt_core (tcp_options_history_push b s) = opt_core s.
Proof. unfold tcp_options_history_push. by repeat bsplit1. Qed.

Lemma collect_core c s : opt_core (snd (tcp_options_collect_sacks c s)) = opt_core s.
Proof.
  unfold tcp_options_collect_sacks. cbv zeta.
  destruct (if sack_recent_valid s then _ else _); cbn [snd]; by destruct (_ && _).
Qed.

Lemma established_core now s f : opt_core (snd (tcp_options_apply_established now s f)) = opt_core s.
Proof.
  unfold tcp_options_apply_established, tcp_options_ts_now. cbv zeta.
  set (p := if timestamps_ok s then (now, _) else _).
  assert (opt_core (snd p) = opt_core s) as Hp by (unfold p; by destruct (timestamps_ok s)).
  destruct p as [v s1]. cbn [snd] in Hp. destruct (if timestamps_ok s then _ else _) as [f1|]; [|done].
  unfold tcp_options_emit_sack. destruct (_ || _); [done|].
  set (c := Z.min _ _). pose proof (collect_core c s1) as Hc. destruct (tcp_options_collect_sacks c s1) as [bl s2].
  cbn [snd] in *. by destruct (bool_decide _); [|destruct (tcp_options_append _ _)]; cbn [snd]; congruence.
Qed.

Lemma apply_syn_core now a b c d s f : opt_core (snd (tcp_options_apply_syn now a b c d s f)) = opt_core s.
Proof.
  unfold tcp_options_apply_syn, tcp_options_ts_now. destruct (tcp_options_emit_mss _ _); [|done].
  destruct (if a then _ else _); [|done]. destruct b;
    (destruct (tcp_options_emit_timestamp _ _ _) || idtac); destruct c;
    (destruct (tcp_options_emit_sack_permitted _) || idtac); done.
Qed.

Lemma inbound_core now r b q a s : opt_core (snd (tcp_options_process_inbound now r b q a s)) = opt_core s.
Proof. unfold tcp_options_process_inbound. cbv zeta. by repeat bsplit1. Qed.

Lemma negotiate_core now p s : opt_core (tcp_options_negotiate_syn now p s) = opt_core s.
Proof. unfold tcp_options_negotiate_syn. by repeat bsplit1. Qed.

Lemma progress_core now s : opt_core (tcp_options_note_receive_progress now s) = opt_core s.
Proof. unfold tcp_options_note_receive_progress. by bsplit1. Qed.

(** ** Operations that leave the send view alone *)

Lemma quiet_make io flags seq ack t : quiet t (snd (tcp_make_fragment io flags seq ack t)).
Proof.
  unfold tcp_make_fragment. destruct (negb _); [by split_and!|]. destruct (has_flag _ _); [by split_and!|].
  pose proof (established_core (io_ms io) (opt_view t) (blank_frag flags)) as H.
  destruct (tcp_options_apply_established _ _ _) as [f o]. apply quiet_opt. by rewrite <- opt_core_view.
Qed.

Lemma make_fields io flags seq ack t s :
  fst (tcp_make_fragment io flags seq ack t) = Some s ->
  seg_seq s = seq /\ seg_ack s = ack /\ seg_flags s = flags /\ seg_data s = [].
Proof.
  unfold tcp_make_fragment. destruct (negb _); [done|]. destruct (has_flag _ _); [by intros [= <-]|].
  destruct (tcp_options_apply_established _ _ _). by intros [= <-].
Qed.

Lemma quiet_apply_syn io a b c d f t : quiet t (snd (apply_syn io a b c d f t)).
Proof.
  unfold apply_syn. pose proof (apply_syn_core (io_ms io) a b c d (opt_view t) (seg_opts f)) as H.
  destruct (tcp_options_apply_syn _ _ _ _ _ _ _) as [g o]. apply quiet_opt. by rewrite <- opt_core_view.
Qed.

Lemma quiet_data_options io t : quiet t (snd (data_options io t)).
Proof.
  unfold data_options. pose proof (established_core (io_ms io) (opt_view t) (blank_frag data_flags)) as H.
  destruct (tcp_options_apply_established _ _ _) as [f o]. apply quiet_opt. by rewrite <- opt_core_view.
Qed.

Lemma quiet_arm io d t : quiet t (snd (arm_at io d t)).
Proof. unfold arm_at. destruct (arm_ok io); by split_and!. Qed.
Lemma quiet_arm_syn io d t : quiet t (snd (tcp_arm_syn_timer io d t)).
Proof. apply quiet_arm. Qed.
Lemma quiet_arm_rto io d t : quiet t (snd (tcp_arm_data_rto io d t)).
Proof. unfold tcp_arm_data_rto. cbv zeta. apply quiet_arm. Qed.

Lemma quiet_wnd_local a b c d t : quiet t (snd (tcp_update_snd_wnd_local a b c d t)).
Proof. unfold tcp_update_snd_wnd_local. destruct (_ || _); by split_and!. Qed.

Lemma quiet_wnd a b c d t : quiet t (tcp_update_snd_wnd a b c d t).
Proof.
  unfold tcp_update_snd_wnd. pose proof (quiet_wnd_local a b c d t) as H.
  destruct (tcp_update_snd_wnd_local a b c d t) as [[acc need] t1]. cbn [snd] in H.
  destruct (negb acc); [done|]. etrans; [exact H|]. etrans; [by apply (quiet_emit EvWakeSend)|].
  etrans; [by apply (quiet_emit (EvReady OWNER_IO_EV_WRITE))|]. destruct need; [by apply quiet_emit|done].
Qed.

Lemma quiet_unregister t : quiet t (nsock_tcp_conn_unregister t).
Proof. unfold nsock_tcp_conn_unregister. destruct (registered t); [|done]. etrans; [|by apply quiet_emit]. by split_and!. Qed.

Lemma quiet_pipe e t : quiet t (set_pipe e t).
Proof. apply quiet_score. Qed.
Lemma quiet_cancel t : quiet t (cancel_candidate t).
Proof. apply quiet_score. Qed.
Lemma quiet_commit io e t : quiet t (tcp_tx_commit io e t).
Proof. apply quiet_score. Qed.
Lemma quiet_schedule t : quiet t (recovery_schedule t).
Proof.
  unfold recovery_schedule. destruct (_ && _); [|done]. destruct (tcp_sack_set_pipe _ _ _) as [p s]. cbv zeta.
  destruct (_ && _); by split_and!.
Qed.
Lemma quiet_congestion t : quiet t (snd (congestion_flight t)).
Proof. unfold congestion_flight. destruct (_ || _); [|done]. by destruct (tcp_sack_set_pipe _ _ _). Qed.

Lemma quiet_scoreboard io ack e t : quiet t (snd (ack_scoreboard io ack e t)).
Proof. unfold ack_scoreboard. destruct (tcp_sack_update _ _ _ _ _ _) as [r s]. cbn [snd]. destruct (dsack_valid r); by split_and!. Qed.
Lemma quiet_newreno m p a e t : quiet t (snd (ack_newreno m p a e t)).
Proof. unfold ack_newreno. destruct (_ && p); [destruct (negb _)|]; by split_and!. Qed.
Lemma quiet_detect p c n e f t : quiet t (snd (ack_detect_loss p c n e f t)).
Proof. unfold ack_detect_loss. cbv zeta. repeat (bsplit1; try (by split_and!)). Qed.
Lemma quiet_continue p n e t : quiet t (ack_continue_recovery p n e t).
Proof. unfold ack_continue_recovery. destruct (mode _); try done. by destruct (p || n). Qed.
Lemma quiet_data_loss t : quiet t (timer_data_loss t).
Proof. by split_and!. Qed.

#[export] Hint Resolve quiet_make quiet_apply_syn quiet_data_options quiet_arm quiet_arm_syn quiet_arm_rto quiet_wnd
  quiet_unregister quiet_schedule quiet_congestion : quiet.

Lemma set_status_view s t (t' := tcp_stream_set_status s t) :
  sview t' = sview t /\ packets t' = packets t /\ st t' = s /\ app_closed t' = app_closed t.
Proof.
  unfold t', tcp_stream_set_status. cbv zeta. set (t1 := if bool_decide _ then t else _).
  assert (quiet t t1 /\ app_closed t1 = app_closed t) as [(H1 & H2 & _) H3]
    by (unfold t1; destruct (bool_decide _); by split_and!).
  set (t2 := if _ && _ then _ else _).
  assert (quiet t1 t2 /\ app_closed t2 = app_closed t1) as [(H4 & H5 & _) H6].
  { unfold t2. destruct (_ && _); [|done]. split; [apply quiet_unregister|].
    unfold nsock_tcp_conn_unregister. by destruct (registered t1). }
  split_and!; [|change (packets (set_rx _ t2)) with (packets t2); congruence|done|cbn; congruence].
  change (sview t2 = sview t). congruence.
Qed.

(** Enqueueing adds at most the segment. *)
Lemma enqueue_view f t (r := tcp_enqueue_fragment f t) :
  quiet t (snd r) /\ fst r = false \/
  exists s, f = Some s /\ fst r = true /\ packets (snd r) = packets t /\ st (snd r) = st t /\
    sb (snd r) = sb t /\ sent_seq (snd r) = sent_seq t /\ una (snd r) = una t /\
    fin_deferred (opt (snd r)) = fin_deferred (opt t) /\ tx_queue (snd r) = tx_queue t ++ [s].
Proof.
  unfold r, tcp_enqueue_fragment, nsock_tcp_tx_enqueue. destruct f as [s|]; [|by left].
  destruct (tx_full t); [by left|]. right. exists s. cbn [fst snd].
  destruct (quiet_emit EvMarkDirty (set_tx_queue (tx_queue t ++ [s]) t) eq_refl) as (H1 & H2 & H3).
  by rewrite H2, H3.
Qed.

(** ** The receive operations keep the state of the connection *)

Lemma outer_status s s' : outer s' = outer s -> status s' = status s.
Proof. unfold outer. congruence. Qed.

Lemma purge_status s : status (tcp_ofo_purge s) = status s.
Proof.
  change (status (tcp_ofo_purge s)) with (status (purge_nodes (ofo s) s)). generalize (ofo s). intros l.
  revert s. induction l as [|g l IH]; intros s; [done|]. cbn [purge_nodes]. rewrite IH.
  rewrite (outer_status _ _ (proj1 (unlink_fields g l (tcp_ofo_rcvbuf_sub (zlen (odata g)) s)))).
  unfold tcp_ofo_rcvbuf_sub. by repeat bsplit1.
Qed.

Lemma walk_status mem k seq data fin pre rest s : status (snd (ofo_walk mem k seq data fin pre rest s)) = status s.
Proof.
  assert (forall m q d f a b s, status (snd (tcp_ofo_link m q d f a b s)) = status s) as Hlink.
  { intros m q d f a b s0. destruct (tcp_ofo_link m q d f a b s0) as [ok s1] eqn:E.
    by apply tcp_ofo_link_cases, proj1, outer_status in E. }
  revert k seq data pre s. induction rest as [|c t IH]; intros k seq data pre s; cbn [ofo_walk]; [apply Hlink|].
  cbv zeta. pose proof (Hlink (mem k) seq (take (Z.to_nat (u32 (oseq c - seq))) data) false pre (c :: t) s) as H.
  destruct (tcp_ofo_link _ _ (take _ data) _ _ _ _) as [ok s1]. cbn [snd] in H.
  repeat (bsplit1; try apply Hlink; try apply IH; try done). by rewrite IH.
Qed.

Lemma insert_status mem seq data fin s : status (snd (tcp_ofo_insert mem seq data fin s)) = status s.
Proof.
  unfold tcp_ofo_insert. destruct (tcp_ofo_queue_insert _ _ _ _ _) as [ok s1] eqn:E. cbn [snd].
  assert (status s1 = status s) as <-.
  { revert E. set (s0 := tcp_sack_note_duplicate _ _ s). assert (status s0 = status s) as <-
      by (unfold s0, tcp_sack_note_duplicate; cbv zeta; by bsplit1).
    unfold tcp_ofo_queue_insert. cbv zeta. generalize s0. clear. intros s.
    destruct (_ && _); [by intros [= <- <-]|]. destruct (if seq_lt _ _ then _ else _) as [q d].
    destruct (negb (seq_lt _ _)).
    { destruct (tcp_ofo_range_buffered _ _ _ _); intros [= <- <-]; [done|].
      unfold tcp_ofo_record_rcv_window_drop. by bsplit1. }
    destruct (if tcp_seq_gt _ _ then _ else _) as [d' f']. destruct (_ && _); [by intros [= <- <-]|].
    destruct (walk_start q (ofo s)) as [pre rest]. intros E. rewrite <- (walk_status mem 0 q d' f' pre rest s). by rewrite E. }
  unfold tcp_sack_note_recent. cbv zeta. by bsplit1.
Qed.

Lemma deliver_status rx_ok d s : status (snd (tcp_deliver_payload rx_ok d s)) = status s.
Proof. unfold tcp_deliver_payload. by repeat bsplit1. Qed.

Lemma drain_loop_status fuel rx_ok s : status (ofo_drain_loop fuel rx_ok s) = status s.
Proof.
  revert s. induction fuel as [|n IH]; intros s; [done|]. cbn [ofo_drain_loop].
  destruct (ofo s) as [|g t]; [done|]. destruct (tcp_seq_gt _ _); [done|]. cbv zeta.
  destruct (_ && _).
  { rewrite IH, (outer_status _ _ (proj1 (unlink_fields g t _))). unfold tcp_ofo_rcvbuf_sub. by bsplit1. }
  set (p := if seq_lt _ _ then _ else _). assert (status (snd p) = status s) as Hp.
  { unfold p. destruct (seq_lt _ _); [|done]. unfold tcp_ofo_rekey_after_trim, tcp_ofo_rcvbuf_sub. cbv zeta. by repeat bsplit1. }
  destruct p as [g' s1]. cbn [snd] in Hp. rewrite <- Hp. clear Hp.
  set (q := if 0 <? _ then _ else _). assert (status (snd q) = status s1) as Hq
    by (unfold q; destruct (0 <? _); [apply deliver_status|done]).
  destruct q as [ok s2]. cbn [snd] in Hq. destruct (negb ok); [done|]. rewrite <- Hq.
  pose proof (outer_status _ _ (proj1 (unlink_fields g' t s2))) as Hu.
  destruct (ofin g'); [rewrite purge_status; exact Hu|rewrite IH; exact Hu].
Qed.

Lemma receive_range_status mem rx_ok seq d fin s : status (snd (receive_range mem rx_ok seq d fin s)) = status s.
Proof.
  unfold receive_range. cbv zeta. set (s0 := tcp_sack_note_duplicate _ _ s).
  assert (status s0 = status s) as <- by (unfold s0, tcp_sack_note_duplicate; cbv zeta; by bsplit1).
  set (s1 := if past_eof _ then _ else _). assert (status s1 = status s0) as <- by (unfold s1; by bsplit1).
  destruct (peer_eof s1); [done|]. destruct (negb _).
  { cbn [snd]. destruct (seq_lt _ _); [done|]. unfold tcp_ofo_record_rcv_window_drop. by bsplit1. }
  destruct (if tcp_seq_gt _ _ then _ else _) as [d' f']. cbn [snd]. destruct (seq =? _).
  - unfold receive_next. set (q := if 0 <? _ then _ else _).
    assert (status (snd q) = status s1) as Hq by (unfold q; destruct (0 <? _); [apply deliver_status|done]).
    destruct q as [ok s2]. cbn [snd] in Hq. rewrite <- Hq. destruct (negb ok); [apply insert_status|].
    cbv zeta. destruct f'; [by rewrite purge_status|]. unfold tcp_ofo_drain. by rewrite drain_loop_status.
  - unfold tcp_ofo_drain. rewrite drain_loop_status. apply insert_status.
Qed.

Lemma recv_copy_status rx_ok len s : status (snd (recv_copy rx_ok len s)) = status s.
Proof.
  unfold recv_copy. destruct (len =? 0); [done|]. destruct (terminal_error s); [done|]. cbv zeta.
  set (s0 := match rx_current s with Some _ => _ | None => _ end).
  assert (status s0 = status s) as <- by (unfold s0; destruct (rx_current s); [done|]; by destruct (rx_queue s)).
  destruct (rx_current s0); [|done]. cbn [snd]. unfold tcp_ofo_drain. by rewrite drain_loop_status.
Qed.

Lemma used_status v s : status (with_rcvbuf_used v s) = status s.
Proof. done. Qed.
Lemma drain_recv_status s : status (tcp_drain_recv s) = status s.
Proof. unfold tcp_drain_recv. by rewrite used_status, purge_status. Qed.

Lemma st_emit e t : st (emit e t) = st t.
Proof. done. Qed.
Lemma st_failed a b e t : st (emit a (emit b (set_rx (with_terminal_error e (rx t)) t))) = st t.
Proof. done. Qed.
Lemma st_drain_recv t : st (drain_recv t) = st t.
Proof. apply drain_recv_status. Qed.
Lemma st_drain_send t : st (tcp_drain_send t) = st t.
Proof. unfold tcp_drain_send, sndbuf_reset. by destruct (tcp_sndbuf_reset _ _ _). Qed.

(** ** The invariant *)

Definition b2z (b : bool) : Z := if b then 1 else 0.

(** A segment without data or FIN. *)
Definition seg_control (s : tcp_segment) : Prop :=
  seg_data s = [] /\ has_flag (seg_flags s) RTE_TCP_FIN_FLAG = false.

(** A segment of the stream [w] numbered from [iss]: its data are the bytes of
    [w] at its sequence number; a FIN stands behind the last byte, and only
    when [f]. *)
Definition seg_good (iss : Z) (w : list Z) (f : bool) (s : tcp_segment) : Prop :=
  (seg_data s = [] \/
   exists p, 0 <= p /\ seg_seq s = u32 (iss + p) /\ zlen (seg_data s) <= TCP_MEMORY_CHUNK_SIZE /\
     seg_data s `prefix_of` drop (Z.to_nat p) w) /\
  (has_flag (seg_flags s) RTE_TCP_FIN_FLAG = true ->
   f = true /\ seg_data s = [] /\ seg_seq s = u32 (iss + zlen w)).

Lemma control_good iss w f s : seg_control s -> seg_good iss w f s.
Proof. intros [H1 H2]. split; [by left|congruence]. Qed.

Lemma good_fin iss w f s : seg_good iss w f s -> seg_good iss w true s.
Proof. intros [H1 H2]. split; [done|]. intros Hf. by destruct (H2 Hf) as (_ & ? & ?). Qed.

Lemma good_more iss w x s : seg_good iss w false s -> seg_good iss (w ++ x) false s.
Proof.
  intros [H1 H2]. split; [|intros Hf; by destruct (H2 Hf)]. destruct H1 as [|(p & Hp & Hs & Hl & Hd)]; [by left|].
  right. exists p. split_and!; try done. destruct (decide (Z.to_nat p <= length w)%nat) as [Hle|Hle].
  - rewrite drop_app_le by done. by apply prefix_app_r.
  - rewrite drop_ge in Hd by lia. apply prefix_nil_inv in Hd. rewrite Hd. apply prefix_nil.
Qed.

Definition closing_state : list TCP_STATUS :=
  [TCP_STATUS_FIN_WAIT_1; TCP_STATUS_FIN_WAIT_2; TCP_STATUS_CLOSING; TCP_STATUS_LAST_ACK; TCP_STATUS_TIME_WAIT].
Definition synced : list TCP_STATUS := [TCP_STATUS_ESTABLISHED; TCP_STATUS_CLOSE_WAIT] ++ closing_state.

(** Membership of a given state in a given list of states. *)
Ltac mem := apply (bool_decide_unpack _); vm_compute; exact I.
Ltac nomem H := apply (bool_decide_pack _) in H; vm_compute in H; exact (False_ind _ H).

(** [a] bytes of [w] are acknowledged and [k] sent; [f]: the FIN is sent;
    [e]: it is acknowledged. *)
Record sending (iss : Z) (w : list Z) (a k : Z) (f e : bool) (t : tcb) : Prop := {
  sd_buf : sndbuf_ok (sb t);
  sd_limit : sb_len (sb t) <= TCP_SNDBUF_APP_HIWAT;
  sd_contents : contents (sb t) = drop (Z.to_nat a) w;
  sd_head : head_seq (sb t) = u32 (iss + a);
  sd_range : 0 <= a <= k /\ k <= zlen w;
  sd_sent : sent_seq t = u32 (iss + k + b2z f);
  sd_una : una t = u32 (iss + a + b2z e);
  sd_unacked : unacked (sb t) = k - a;
  sd_f : f = true -> k = zlen w;
  sd_e : e = true -> f = true /\ a = zlen w;
  sd_deferred : fin_deferred (opt t) = true -> f = false;
  sd_state : f = true \/ fin_deferred (opt t) = true -> st t ∈ closing_state;
  sd_queue : Forall (seg_good iss w f) (tx_queue t);
  sd_queue_data : Forall (fun s => seg_data s = []) (tx_queue t);
  sd_packets : Forall (seg_good iss w f) (packets t)
}.

(** The life of a connection whose initial sequence number is [isn]. *)
Inductive conn (isn : Z) (w : list Z) (t : tcb) : Prop :=
| conn_handshake : st t ∈ [TCP_STATUS_SYN_SENT; TCP_STATUS_SYN_RECV] -> w = [] ->
    sending isn [] 0 0 false false t -> conn isn w t
| conn_open a k f e : st t ∈ synced -> sending (isn + 1) w a k f e t -> conn isn w t
| conn_dead f : st t = TCP_STATUS_CLOSED \/ freed t = true ->
    Forall (seg_good (isn + 1) w f) (packets t) -> conn isn w t.

Lemma sview_eq t t' : sview t' = sview t ->
  sb t' = sb t /\ sent_seq t' = sent_seq t /\ una t' = una t /\ fin_deferred (opt t') = fin_deferred (opt t) /\
  tx_queue t' = tx_queue t.
Proof. unfold sview. intros [= -> -> -> -> ->]. done. Qed.

Lemma sending_status iss w a k f e t t' :
  sview t' = sview t -> packets t' = packets t ->
  (f = true \/ fin_deferred (opt t) = true -> st t' ∈ closing_state) ->
  sending iss w a k f e t -> sending iss w a k f e t'.
Proof.
  intros Hv Hp Hst []. destruct (sview_eq _ _ Hv) as (E1 & E2 & E3 & E4 & E5).
  split; rewrite ?E1, ?E2, ?E3, ?E4, ?E5, ?Hp; try done.
Qed.

Lemma sending_quiet iss w a k f e t t' : quiet t t' -> sending iss w a k f e t -> sending iss w a k f e t'.
Proof. intros (Hv & Hp & Hs) S. eapply sending_status; try done. rewrite Hs. apply S. Qed.

Lemma conn_quiet isn w t t' : quiet t t' -> freed t' = freed t -> conn isn w t -> conn isn w t'.
Proof.
  intros Q Hf [Hs Hw S|a k f e Hs S|f Hd Hp].
  - apply conn_handshake; [by destruct Q as (_ & _ & ->)|done|by eapply sending_quiet].
  - eapply conn_open; [by destruct Q as (_ & _ & ->)|by eapply sending_quiet].
  - destruct Q as (_ & H2 & H3). apply (conn_dead _ _ _ f); [by rewrite H3, Hf|by rewrite H2].
Qed.

(** ** The end of a connection *)

(** [t'] is closed or gone, and [t]'s packets got only control segments added. *)
Definition ends (t t' : tcb) : Prop :=
  (st t' = TCP_STATUS_CLOSED \/ freed t' = true) /\
  exists l, packets t' = packets t ++ l /\ Forall seg_control l.

Lemma sending_good iss w a k f e t : sending iss w a k f e t -> Forall (seg_good iss w f) (packets t).
Proof. by intros []. Qed.

Lemma good_empty iss s : seg_good iss [] false s -> seg_control s.
Proof.
  intros [H1 H2]. split.
  - destruct H1 as [|(p & _ & _ & _ & H)]; [done|]. rewrite drop_nil in H. by apply prefix_nil_inv in H.
  - destruct (has_flag _ _); [|done]. by destruct (H2 eq_refl).
Qed.

Lemma conn_packets isn w t : conn isn w t -> exists f, Forall (seg_good (isn + 1) w f) (packets t).
Proof.
  intros [Hs -> S|a k f e Hs S|f Hd Hp]; [exists false|exists f; apply S|by exists f].
  eapply Forall_impl; [apply S|]. intros s Hg. apply control_good. by eapply good_empty.
Qed.

Lemma conn_ends isn w t t' : ends t t' -> conn isn w t -> conn isn w t'.
Proof.
  intros [Hd (l & Hl & Hc)] H. apply conn_packets in H as [f Hf]. apply (conn_dead _ _ _ f); [done|].
  rewrite Hl. apply Forall_app. split; [done|]. eapply Forall_impl; [done|]. intros. by apply control_good.
Qed.

(** An operation whose last step ends the connection. *)
Lemma ends_quiet t t1 t' : packets t1 = packets t -> ends t1 t' -> ends t t'.
Proof. intros H [Hd (l & Hl & Hc)]. split; [done|]. exists l. by rewrite Hl, H. Qed.

Lemma ends_same t t' : st t' = TCP_STATUS_CLOSED \/ freed t' = true -> packets t' = packets t -> ends t t'.
Proof. intros Hd Hp. split; [done|]. exists []. by rewrite app_nil_r. Qed.

Lemma emit_packets e t : packet e = None -> packets (emit e t) = packets t.
Proof. intros H. by destruct (quiet_emit e t H) as (_ & ? & _). Qed.

Lemma emit_packet s t : packets (emit (EvPacket s) t) = packets t ++ [s].
Proof. unfold packets. cbn. by rewrite omap_app. Qed.

Lemma packets_status s t : packets (tcp_stream_set_status s t) = packets t.
Proof. apply set_status_view. Qed.
Lemma packets_unregister t : packets (nsock_tcp_conn_unregister t) = packets t.
Proof. apply quiet_unregister. Qed.
Lemma packets_clear t : packets (tcp_sack_score_clear t) = packets t.
Proof. done. Qed.
Lemma packets_listener v t : packets (set_has_listener v t) = packets t.
Proof. done. Qed.
Lemma packets_timer v t : packets (set_timer v t) = packets t.
Proof. done. Qed.
#[export] Hint Rewrite packets_status packets_unregister packets_clear packets_listener packets_timer : packets.
#[export] Hint Rewrite emit_packets using done : packets.

Lemma free_packets t : packets (nsock_free t) = packets t /\ freed (nsock_free t) = true.
Proof.
  unfold nsock_free. cbv zeta. destruct (tcp_sndbuf_free _ _) as [m b].
  split; [|done]. autorewrite with packets. by destruct (bool_decide _); autorewrite with packets.
Qed.

Lemma free_ends t : ends t (nsock_free t).
Proof. destruct (free_packets t). apply ends_same; [by right|done]. Qed.

(** The optional reset of an abort. *)
Lemma reset_packets io t : exists l, packets (tcp_try_send_abort_reset io t) = packets t ++ l /\ Forall seg_control l.
Proof.
  unfold tcp_try_send_abort_reset. destruct (_ && _); [|exists []; by rewrite app_nil_r].
  eexists. rewrite emit_packet. split; [done|]. by repeat constructor.
Qed.

Lemma packets_drain_send t : packets (tcp_drain_send t) = packets t.
Proof. unfold tcp_drain_send, sndbuf_reset. destruct (tcp_sndbuf_reset _ _ _). by autorewrite with packets. Qed.
Lemma packets_drain_recv t : packets (drain_recv t) = packets t.
Proof. unfold drain_recv. by autorewrite with packets. Qed.
#[export] Hint Rewrite packets_drain_send packets_drain_recv : packets.

Lemma abort_ends io er b t : ends t (tcp_abort_stream io er b t).
Proof.
  unfold tcp_abort_stream. cbv zeta. set (t1 := set_close_deadline_cycles 0 (set_timer None t)).
  assert (packets t1 = packets t) as H1 by done.
  set (t2 := if b && _ then _ else t1).
  assert (exists l, packets t2 = packets t ++ l /\ Forall seg_control l) as (l & H2 & Hc).
  { unfold t2. rewrite <- H1. destruct (b && _); [apply reset_packets|]. exists []. by rewrite app_nil_r. }
  clearbody t2. set (t3 := if _ && has_listener t2 then _ else t2).
  assert (packets t3 = packets t ++ l) as H3
    by (unfold t3; destruct (_ && has_listener t2); autorewrite with packets; done).
  clearbody t3. set (t4 := tcp_stream_set_status TCP_STATUS_CLOSED t3).
  assert (st t4 = TCP_STATUS_CLOSED) as H4 by apply set_status_view.
  assert (packets t4 = packets t ++ l) as H5 by (unfold t4; by autorewrite with packets).
  clearbody t4. set (t5 := emit _ _).
  assert (packets t5 = packets t ++ l) as H6 by (unfold t5; by autorewrite with packets).
  destruct (_ || _).
  - destruct (free_packets t5) as [H7 H8]. split; [by right|]. exists l. by rewrite H7.
  - split; [left|by exists l]. unfold t5. by rewrite st_failed, st_drain_recv, st_drain_send.
Qed.
