(* ===== verification/TcpSendSteps.v ===== *)
(** * The send side of a connection: every operation keeps its invariant *)

From S2P Require Import Prelude Config SeqNum TcpRtt TcpCc SackRange TcpSack TcpOptions OwnerTimer TcpOfo.
From S2P Require Import TcpOfoFacts TcpSndBuf TcpTcb TcpAck TcpTx TcpState TcpSend.

Section Steps.
Context (isn : Z) (w : list Z).

Definition opened (t : tcb) : Prop :=
  st t ∈ synced /\ exists a k f e, sending (isn + 1) w a k f e t.

Lemma opened_conn t : opened t -> conn isn w t.
Proof. intros [Hs (a & k & f & e & S)]. by eapply conn_open. Qed.

Lemma opened_quiet t t' : quiet t t' -> opened t -> opened t'.
Proof.
  intros Q [Hs (a & k & f & e & S)]. split; [by destruct Q as (_ & _ & ->)|].
  exists a, k, f, e. by eapply sending_quiet.
Qed.

Lemma opened_emit ev t : packet ev = None -> opened t -> opened (emit ev t).
Proof. intros H. apply opened_quiet. by apply quiet_emit. Qed.

Lemma opened_status s t :
  s ∈ synced -> (st t ∈ closing_state -> s ∈ closing_state) -> opened t -> opened (tcp_stream_set_status s t).
Proof.
  intros Hs Hc [_ (a & k & f & e & S)]. destruct (set_status_view s t) as (Hv & Hp & Hst & _).
  split; [by rewrite Hst|]. exists a, k, f, e. eapply sending_status; try done.
  rewrite Hst. intros H. apply Hc, S, H.
Qed.

Lemma opened_rx r t : status r = st t -> opened t -> opened (set_rx r t).
Proof.
  intros Hr [Hs (a & k & f & e & S)]. split; [by change (status r ∈ synced); rewrite Hr|]. exists a, k, f, e.
  apply (sending_status (isn + 1) w a k f e t); [done|done| |done].
  intros H. change (status r ∈ closing_state). rewrite Hr. apply S, H.
Qed.

(** Enqueueing a good segment without data. *)
Lemma sending_enqueue iss v a k f e s t (r := tcp_enqueue_fragment (Some s) t) :
  sending iss v a k f e t -> seg_good iss v f s -> seg_data s = [] -> sending iss v a k f e (snd r).
Proof.
  intros S Hg Hd. unfold r. destruct (enqueue_view (Some s) t) as [[Q _]|(s' & [= <-] & _ & Hp & Hs & E1 & E2 & E3 & E4 & E5)];
    [by eapply sending_quiet|].
  destruct S. split; rewrite ?E1, ?E2, ?E3, ?E4, ?E5, ?Hp, ?Hs; try done.
  - apply Forall_app. split; [done|]. by apply Forall_singleton.
  - apply Forall_app. split; [done|]. by apply Forall_singleton.
Qed.

(** A control segment made and queued. *)
Lemma sending_queue iss v a k f e io flags seq t :
  sending iss v a k f e t ->
  (has_flag flags RTE_TCP_FIN_FLAG = true -> f = true /\ seq = u32 (iss + zlen v)) ->
  sending iss v a k f e (snd (queue_control io flags seq t)).
Proof.
  intros S Hf. unfold queue_control. pose proof (quiet_make io flags seq (recv_ack (rx t)) t) as Q.
  pose proof (make_fields io flags seq (recv_ack (rx t)) t) as F.
  destruct (tcp_make_fragment _ _ _ _ _) as [o t1]. cbn [fst snd] in *.
  pose proof (sending_quiet _ _ _ _ _ _ _ _ Q S) as S1. destruct o as [s|]; [|done].
  destruct (F s eq_refl) as (H1 & H2 & H3 & H4). apply sending_enqueue; [done| |done].
  split; [by left|]. rewrite H3, H1. intros H. by destruct (Hf H) as [? ->].
Qed.

Lemma queue_state io flags seq t : st (snd (queue_control io flags seq t)) = st t.
Proof.
  unfold queue_control. pose proof (quiet_make io flags seq (recv_ack (rx t)) t) as (_ & _ & Q).
  destruct (tcp_make_fragment _ _ _ _ _) as [o t1]. cbn [snd] in Q. rewrite <- Q.
  by destruct (enqueue_view o t1) as [[(_ & _ & ?) _]|(s & _ & _ & _ & ? & _)].
Qed.

Lemma opened_queue io flags seq t :
  has_flag flags RTE_TCP_FIN_FLAG = false -> opened t -> opened (snd (queue_control io flags seq t)).
Proof.
  intros Hf [Hs (a & k & f & e & S)]. split; [by rewrite queue_state|]. exists a, k, f, e.
  apply sending_queue; [done|congruence].
Qed.

(** ** Acknowledgements *)

(** Places in the stream: SND.UNA, an acceptable ACK and SND.NXT. *)
Lemma ack_place iss v a k f e t ack :
  sending iss v a k f e t -> in_u32 ack ->
  seq_lt ack (una t) || tcp_seq_gt ack (sent_seq t) = false ->
  exists q, ack = u32 (iss + q) /\ a + b2z e <= q <= k + b2z f.
Proof.
  intros S Hack H. bprop. pose proof (sd_range _ _ _ _ _ _ _ S) as R. pose proof (sd_limit _ _ _ _ _ _ _ S) as L.
  change TCP_SNDBUF_APP_HIWAT with 65536 in L.
  assert (sb_len (sb t) = zlen v - a) as HL.
  { rewrite (so_len _ (sd_buf _ _ _ _ _ _ _ S)), (sd_contents _ _ _ _ _ _ _ S). apply zlen_drop. lia. }
  assert (0 <= b2z f <= 1 /\ 0 <= b2z e <= 1) as [Bf Be] by (by destruct f, e).
  assert (a + b2z e <= k + b2z f) as Hle.
  { pose proof (sd_e _ _ _ _ _ _ _ S) as He. destruct e; [|cbn in *; lia]. destruct (He eq_refl) as [-> ->]. cbn. lia. }
  assert (k + b2z f - (a + b2z e) <= 65537) as Hd by lia.
  exists (a + b2z e + off (una t) ack).
  revert H H0. rewrite (sd_una _ _ _ _ _ _ _ S), (sd_sent _ _ _ _ _ _ _ S). unfold off, seq_lt, tcp_seq_gt.
  replace (iss + a + b2z e) with (iss + (a + b2z e)) by lia. replace (iss + k + b2z f) with (iss + (k + b2z f)) by lia.
  revert Hle Hd. generalize (a + b2z e) (k + b2z f). intros u n Hun Hd. clear -Hack Hun Hd. unfold i32, in_u32 in *. cbv zeta.
  bsplit; intros; bprop; warith.
Qed.
Lemma sending_len iss v a k f e t : sending iss v a k f e t -> sb_len (sb t) = zlen v - a.
Proof.
  intros S. rewrite (so_len _ (sd_buf _ _ _ _ _ _ _ S)), (sd_contents _ _ _ _ _ _ _ S).
  apply zlen_drop. pose proof (sd_range _ _ _ _ _ _ _ S). lia.
Qed.

(** The buffer after the acknowledged bytes are removed. *)
Lemma progress_fields io ack t (r := ack_progress io ack t) (n := Z.min (u32 (ack - una t)) (sb_len (sb t))) :
  sb (snd r) = snd (tcp_sndbuf_remove n (gauges t) (sb t)) /\ una (snd r) = ack /\
  sent_seq (snd r) = sent_seq t /\ fin_deferred (opt (snd r)) = fin_deferred (opt t) /\
  tx_queue (snd r) = tx_queue t /\ packets (snd r) = packets t /\ st (snd r) = st t.
Proof.
  unfold r, ack_progress, n. cbv zeta. by destruct (tcp_sndbuf_remove _ _ _) as [m b].
Qed.

Lemma ack_progress_ok iss v a k f e t io ack :
  sending iss v a k f e t -> in_u32 ack ->
  seq_lt ack (una t) || tcp_seq_gt ack (sent_seq t) = false -> ack <> una t ->
  exists a' e', sending iss v a' k f e' (snd (ack_progress io ack t)) /\ st (snd (ack_progress io ack t)) = st t.
Proof.
  intros S Hu Hok Hne. destruct (ack_place _ _ _ _ _ _ _ _ S Hu Hok) as (q & -> & Hq).
  pose proof (sending_len _ _ _ _ _ _ _ S) as HL. pose proof (sd_range _ _ _ _ _ _ _ S) as R.
  pose proof (sd_limit _ _ _ _ _ _ _ S) as L. change TCP_SNDBUF_APP_HIWAT with 65536 in L.
  pose proof (sd_f _ _ _ _ _ _ _ S) as Hf. pose proof (sd_e _ _ _ _ _ _ _ S) as He.
  assert (e = false) as ->.
  { destruct e; [|done]. destruct (He eq_refl) as [-> ->]. exfalso. apply Hne.
    rewrite (sd_una _ _ _ _ _ _ _ S). cbn in *. f_equal. specialize (Hf eq_refl). lia. }
  cbn [b2z] in Hq. assert (0 <= b2z f <= 1) as Bf by by destruct f.
  assert (q <= zlen v + b2z f /\ (f = false -> q <= k)) as [Hq1 Hq2] by (split; [lia|intros ->; cbn in Hq; lia]).
  set (a' := Z.min q (zlen v)). set (e' := zlen v <? q).
  assert (Z.min (u32 (u32 (iss + q) - una t)) (sb_len (sb t)) = a' - a) as Hn.
  { rewrite (sd_una _ _ _ _ _ _ _ S), HL. cbn [b2z]. unfold a'.
    replace (u32 (u32 (iss + q) - u32 (iss + a + 0))) with (q - a); [lia|]. clear -R Hq Hq1 L HL Bf. warith. }
  destruct (progress_fields io (u32 (iss + q)) t) as (Eb & Eu & Es & Ed & Et & Ep & Est). rewrite Hn in Eb.
  destruct (remove_ok (a' - a) (gauges t) (sb t) (sd_buf _ _ _ _ _ _ _ S) ltac:(lia)) as (B1 & B2 & B3 & B4 & B5).
  assert (Z.min (a' - a) (sb_len (sb t)) = a' - a) as Hm by lia. rewrite Hm in B2, B3, B4, B5.
  rewrite (sd_unacked _ _ _ _ _ _ _ S) in B4.
  exists a', e'. split; [|done]. set (t' := snd _) in *.
  assert (a' <= k) as Hak by (destruct f; [rewrite Hf by done; lia|specialize (Hq2 eq_refl); lia]).
  destruct S. split; rewrite ?Ed, ?Et, ?Ep, ?Est, ?Eb, ?Es; try done.
  - rewrite B5. change TCP_SNDBUF_APP_HIWAT with 65536. lia.
  - rewrite B2, sd_contents, drop_drop. f_equal. lia.
  - rewrite B3, sd_head, u32_add_l. f_equal. lia.
  - lia.
  - rewrite Eu. unfold e', a'. destruct (zlen v <? q) eqn:E; bprop; cbn [b2z]; f_equal; destruct f; cbn in *; lia.
  - rewrite B4. lia.
  - unfold e'. intros E. bprop. split; [|lia]. destruct f; [done|]. specialize (Hq2 eq_refl). lia.
Qed.

Lemma ack_timer_cases io p t (r := ack_timer io p t) :
  fst r = true /\ quiet t (snd r) \/ fst r = false /\ ends t (snd r).
Proof.
  unfold r, ack_timer. destruct (negb p); [by left|]. cbv zeta. destruct (una t =? sent_seq t).
  - left. split; [done|]. cbn [snd]. destruct (one_of _ _); quiet.
  - pose proof (quiet_arm_rto io (rto_ms (rtt (set_retries 0 t))) (set_retries 0 t)) as Q.
    destruct (tcp_arm_data_rto _ _ _) as [ok t2]. cbn [snd] in Q.
    assert (quiet t t2) as Q2 by (etrans; [|exact Q]; quiet).
    destruct ok; [by left|]. right. split; [done|]. cbn [snd].
    eapply ends_quiet; [|apply abort_ends]. apply Q2.
Qed.

(** An inbound ACK on an open connection. *)
Lemma ack_commit_ok io ack dup wnd t (r := ack_commit io ack dup wnd t) :
  opened t -> in_u32 ack -> seq_lt ack (una t) || tcp_seq_gt ack (sent_seq t) = false ->
  fst r = true /\ opened (snd r) /\ st (snd r) = st t \/ fst r = false /\ ends t (snd r).
Proof.
  intros [Hs (a & k & f & e & S)] Hu Hok. unfold r, ack_commit. cbv zeta.
  set (p := if negb (ack =? una t) then _ else _).
  assert (exists a' e', sending (isn + 1) w a' k f e' (snd p) /\ st (snd p) = st t /\ packets (snd p) = packets t)
    as (a1 & e1 & S1 & Hs1 & Hp1).
  { unfold p. destruct (ack =? una t) eqn:E; cbn [negb]; [by exists a, e|]. apply Z.eqb_neq in E.
    destruct (ack_progress_ok _ _ _ _ _ _ _ io _ S Hu Hok E) as (a1 & e1 & ? & ?). exists a1, e1. split_and!; try done.
    by destruct (progress_fields io ack t) as (_ & _ & _ & _ & _ & ? & _). }
  destruct p as [[acked raw] t1]. cbn [snd] in *.
  pose proof (quiet_scoreboard io ack (tcp_sack_payload_flight_end t) t1) as Q2.
  destruct (ack_scoreboard _ _ _ _) as [res t2]. cbn [snd] in Q2.
  pose proof (quiet_newreno (mode (score t)) (negb (ack =? una t)) ack (tcp_sack_payload_flight_end t) t2) as Q3.
  destruct (ack_newreno _ _ _ _ _) as [[ex pa] t3]. cbn [snd] in Q3.
  set (t4 := if negb (ack =? una t) then _ else t3).
  assert (quiet t3 t4) as Q4 by (unfold t4; destruct (negb _); quiet).
  pose proof (quiet_detect (negb (ack =? una t)) dup (new_sack_information res) (tcp_sack_payload_flight_end t)
    (u32 (tcp_sack_payload_flight_end t - una t)) t4) as Q5. clearbody t4.
  destruct (ack_detect_loss _ _ _ _ _ _) as [en t5]. cbn [snd] in Q5.
  pose proof (quiet_continue (negb (ack =? una t)) (new_sack_information res) (tcp_sack_payload_flight_end t) t5) as Q6.
  set (t6 := ack_continue_recovery _ _ _ _) in *. clearbody t6. set (t7 := set_cc _ t6).
  assert (quiet t6 t7) as Q7 by quiet. clearbody t7. set (t8 := if _ || ex then _ else t7).
  assert (quiet t7 t8) as Q8 by (unfold t8; destruct (_ || ex); quiet). clearbody t8.
  assert (quiet t1 t8) as Q by (etrans; [exact Q2|]; etrans; [exact Q3|]; etrans; [exact Q4|]; etrans; [exact Q5|];
    etrans; [exact Q6|]; etrans; [exact Q7|exact Q8]).
  assert (opened t1) as O1 by (split; [by rewrite Hs1|]; by exists a1, k, f, e1).
  pose proof (ack_timer_cases io (negb (ack =? una t)) t8) as T. destruct (ack_timer _ _ _) as [ok t9]. cbn [fst snd] in T.
  destruct T as [[-> Q9]|[-> E9]]; cbn [negb].
  - left. split; [done|]. cbn [snd]. set (t10 := if _ || fst wnd then _ else t9).
    assert (quiet t9 t10) as Q10.
    { unfold t10. destruct (_ || fst wnd); [|done]. etrans; [by apply (quiet_emit EvWakeSend)|by apply quiet_emit]. }
    clearbody t10. assert (quiet t1 (if ack_need_tx t10 || snd wnd then emit EvMarkDirty t10 else t10)) as Q11.
    { etrans; [exact Q|]. etrans; [exact Q9|]. etrans; [exact Q10|]. destruct (_ || snd wnd); [by apply quiet_emit|done]. }
    split; [by eapply opened_quiet|]. by destruct Q11 as (_ & _ & ->).
  - right. split; [done|]. cbn [snd]. eapply ends_quiet; [|exact E9]. rewrite <- Hp1. apply Q.
Qed.

Lemma peer_ack_ok io ack dup win t (r := tcp_process_peer_ack_ex io ack dup win t) :
  opened t -> in_u32 ack ->
  fst r = true /\ opened (snd r) /\ st (snd r) = st t \/ fst r = false /\ ends t (snd r).
Proof.
  intros O Hu. unfold r, tcp_process_peer_ack_ex. destruct (_ || _) eqn:E; [by left|].
  destruct win as [[[q x] sc]|]; [|by apply ack_commit_ok].
  pose proof (quiet_wnd_local q ack x sc t) as Q. destruct (tcp_update_snd_wnd_local _ _ _ _ _) as [wd t1]. cbn [snd] in Q.
  pose proof Q as (Hv & Hp & Hs). destruct (sview_eq _ _ Hv) as (_ & Es & Eu & _).
  destruct (ack_commit_ok io ack dup wd t1) as [(? & ? & ?)|[? ?]];
    [by eapply opened_quiet|done|by rewrite Eu, Es|left|right].
  - split_and!; try done. congruence.
  - split; [done|]. by eapply ends_quiet.
Qed.
End Steps.
