(* ===== verification/TcpSendTx.v ===== *)
(** * The send side of a connection: transmission keeps its invariant *)

From S2P Require Import Prelude Config SeqNum TcpRtt TcpCc SackRange TcpSack TcpOptions OwnerTimer TcpOfo TcpOfoFacts TcpSndBuf TcpTcb TcpAck TcpTx TcpState TcpSend TcpSendSteps.

Section Transmit.
Context (iss : Z) (v : list Z).
Local Abbreviation sending := (sending iss v).

(** Still sending in state [s], or ended after sending. *)
Definition still (s : TCP_STATUS) (t' : tcb) : Prop := exists a k f e, sending a k f e t' /\ st t' = s.
Definition gone (s : TCP_STATUS) (t' : tcb) : Prop :=
  exists t1 a k f e, sending a k f e t1 /\ st t1 = s /\ ends t1 t'.
Definition after (s : TCP_STATUS) (t' : tcb) : Prop := still s t' \/ gone s t'.

Lemma still_here a k f e t : sending a k f e t -> still (st t) t.
Proof. intros S. by exists a, k, f, e. Qed.

Lemma still_quiet a k f e t t' : sending a k f e t -> quiet t t' -> still (st t) t'.
Proof. intros S Q. exists a, k, f, e. split; [by eapply sending_quiet|apply Q]. Qed.

(** Bytes found at a sequence number are bytes of the stream. *)
Lemma peek_good a k f e t seq b n win fr :
  sending a k f e t -> in_u32 seq -> tcp_sndbuf_peek seq (sb t) = Some b ->
  seg_good iss v f (mk_seg seq (recv_ack (rx t)) data_flags win fr (take n b)).
Proof.
  intros S Hs Hp. destruct (peek_some _ _ _ (sd_buf _ _ _ _ _ _ _ S) Hs Hp) as (j & Hj & -> & Hl & Hpre).
  split; [right|cbn [seg_flags]; intros H; by vm_compute in H]. exists (a + j). pose proof (sd_range _ _ _ _ _ _ _ S). cbn [seg_seq seg_data].
  split_and!; [lia| | |].
  - rewrite (sd_head _ _ _ _ _ _ _ S), u32_add_l. f_equal. lia.
  - pose proof (prefix_length _ _ (prefix_take b n)). unfold zlen in *. lia.
  - rewrite (sd_contents _ _ _ _ _ _ _ S), drop_drop in Hpre. rewrite Z2Nat.inj_add by lia.
    etrans; [|exact Hpre]. apply prefix_take.
Qed.

Lemma sending_packet a k f e s t : sending a k f e t -> seg_good iss v f s -> sending a k f e (emit (EvPacket s) t).
Proof.
  intros [] Hg. split; try done. rewrite emit_packet. apply Forall_app. split; [done|by apply Forall_singleton].
Qed.

Lemma recovery_send_ok a k f e io seq end_ b t (r := recovery_send io seq end_ b t) :
  sending a k f e t -> in_u32 seq -> tcp_sndbuf_peek seq (sb t) = Some b -> sending a k f e (snd r) /\ st (snd r) = st t.
Proof.
  intros S Hs Hp. unfold r, recovery_send. cbv zeta. destruct (negb (arp_ok io)).
  { split; [|done]. eapply sending_quiet; [|exact S]. by apply quiet_emit. }
  pose proof (quiet_data_options io t) as Q. destruct (data_options io t) as [o t1]. cbn [snd] in Q.
  pose proof (sending_quiet _ _ _ _ _ _ _ _ Q S) as S1. pose proof Q as (Hv & _ & Hst). destruct (sview_eq _ _ Hv) as (Eb & _).
  destruct o as [fr|]; [|done]. destruct (_ =? 0).
  { split; [|done]. eapply sending_quiet; [|exact S1]. apply quiet_cancel. }
  destruct (negb (packet_ok _ _)); [done|]. cbn [snd]. rewrite <- Eb in Hp.
  pose proof (peek_good _ _ _ _ _ _ _ (Z.to_nat (Z.min (Z.min (u32 (end_ - seq)) (u32 (tcp_options_data_mss (opt t1) (Some fr))))
    (zlen b))) (tcp_wire_rcv_wnd data_flags t) fr S1 Hs Hp) as G.
  pose proof (sending_packet _ _ _ _ _ _ S1 G) as S2. set (t2 := emit _ t1) in *.
  assert (st t2 = st t) as <- by exact Hst. clearbody t2.
  set (t3 := tcp_tx_commit _ _ _). assert (quiet t2 t3) as Q3 by (etrans; [|apply quiet_commit]; quiet).
  clearbody t3. assert (quiet t2 (set_rtt (tcp_rtt_on_retransmit (rtt t3)) t3)) as Q4 by quiet.
  set (t4 := set_rtt _ t3) in *. clearbody t4. set (t5 := set_cc _ t4).
  assert (quiet t2 t5) as Q5 by (unfold t5; quiet). clearbody t5. split; [by eapply sending_quiet|apply Q5].
Qed.

Lemma recovery_ok a k f e io t (r := tcp_tx_flush_recovery_retransmit io t) :
  sending a k f e t -> sending a k f e (snd r) /\ st (snd r) = st t.
Proof.
  intros S. unfold r, tcp_tx_flush_recovery_retransmit. cbv zeta. pose proof (quiet_schedule t) as Q.
  set (t1 := recovery_schedule t) in *. clearbody t1. pose proof (sending_quiet _ _ _ _ _ _ _ _ Q S) as S1.
  destruct Q as (_ & _ & <-). destruct (negb (bool_decide _)); [done|].
  assert (sending a k f e (cancel_candidate t1)) as S2 by (eapply sending_quiet; [apply quiet_cancel|done]).
  destruct (_ || _); [done|]. destruct (tcp_sndbuf_peek _ _) as [b|] eqn:E; [|done].
  apply recovery_send_ok; [done|apply u32_range|done].
Qed.

Lemma flush_recovery_ok a k f e fuel io n t (r := flush_recovery fuel io n t) :
  sending a k f e t -> sending a k f e (snd r) /\ st (snd r) = st t.
Proof.
  unfold r. clear r. revert n t. induction fuel as [|fuel IH]; intros n t Hs; [done|]. cbn [flush_recovery].
  destruct (recovery_ok _ _ _ _ (io n) t Hs) as [S1 H1]. destruct (tcp_tx_flush_recovery_retransmit (io n) t) as [x t1].
  cbn [snd] in *. destruct x; try done. destruct (IH (S n) t1 S1) as [? ?]. split; [done|congruence].
Qed.

(** ** New data *)

Lemma unsent_place a k f e t :
  sending a k f e t -> seq_lt (sent_seq t) (buf_end t) = true ->
  f = false /\ e = false /\ k < zlen v /\ u32 (buf_end t - sent_seq t) = zlen v - k.
Proof.
  intros S H. pose proof (sending_len _ _ _ _ _ _ _ S) as HL. pose proof (sd_range _ _ _ _ _ _ _ S) as R.
  pose proof (sd_limit _ _ _ _ _ _ _ S) as L. change TCP_SNDBUF_APP_HIWAT with 65536 in L.
  pose proof (sd_f _ _ _ _ _ _ _ S) as Hf. pose proof (sd_e _ _ _ _ _ _ _ S) as He.
  revert H. unfold buf_end. rewrite (sd_sent _ _ _ _ _ _ _ S), (sd_head _ _ _ _ _ _ _ S), HL, u32_add_l.
  replace (iss + a + (zlen v - a)) with (iss + zlen v) by lia.
  intros H. assert (f = false) as ->.
  { destruct f; [|done]. rewrite Hf in H by done. cbn [b2z] in H. exfalso. revert H. unfold seq_lt, i32. cbv zeta.
    clear. bsplit; intros; bprop; warith. }
  assert (e = false) as -> by (destruct e; [by destruct (He eq_refl)|done]). cbn [b2z] in *.
  split_and!; try done.
  - destruct (Z.eq_dec k (zlen v)) as [->|]; [|lia]. rewrite Z.add_0_r in H. exfalso. revert H. unfold seq_lt.
    rewrite Z.sub_diag. done.
  - clear -R L HL. warith.
Qed.

(** The state once [n] new bytes are accounted. *)
Lemma new_data_fields io n c cw idle t (r := new_data_sent io n c cw idle t) :
  exists t1, sb t1 = mk_sndbuf (chunks (sb t)) (sb_len (sb t)) (head_seq (sb t)) (u32 (unacked (sb t) + n)) /\
    sent_seq t1 = u32 (sent_seq t + n) /\ una t1 = una t /\ fin_deferred (opt t1) = fin_deferred (opt t) /\
    tx_queue t1 = tx_queue t /\ packets t1 = packets t /\ st t1 = st t /\
    (quiet t1 (snd r) \/ fst r = TCP_SNDBUF_DESTROYED /\ ends t1 (snd r)).
Proof.
  unfold r, new_data_sent. cbv zeta. set (t1 := if idle then _ else t).
  assert (quiet t t1) as Q1 by (unfold t1; destruct idle; quiet). clearbody t1.
  destruct Q1 as (Hv & Hp & Hs). destruct (sview_eq _ _ Hv) as (E1 & E2 & E3 & E4 & E5).
  set (t2 := set_sent_seq _ _).
  exists t2. assert (st t2 = st t) as Hs2 by exact Hs. assert (packets t2 = packets t) as Hp2 by exact Hp.
  split_and!; try done; [by unfold t2; cbn; rewrite E1|]. clearbody t2. clear -t2.
  set (t3 := if bool_decide _ then _ else _).
  assert (quiet t2 t3) as Q3 by (unfold t3; destruct (bool_decide _); [apply quiet_commit|apply quiet_score]). clearbody t3.
  set (t4 := set_score _ t3). assert (quiet t2 t4) as Q4 by (etrans; [exact Q3|apply quiet_score]). clearbody t4.
  set (t5 := set_cc _ t4). assert (quiet t2 t5) as Q5 by (unfold t5; quiet). clearbody t5.
  destruct idle; [|by left]. assert (quiet t2 (set_retries 0 t5)) as Q6 by quiet.
  pose proof (quiet_arm_rto io (rto_ms (rtt t5)) (set_retries 0 t5)) as Q7.
  destruct (tcp_arm_data_rto _ _ _) as [ok t6]. cbn [snd] in Q7. assert (quiet t2 t6) as Q8 by (by etrans).
  destruct ok; [by left|]. right. split; [done|]. eapply ends_quiet; [|apply abort_ends]. apply Q8.
Qed.
Lemma new_seglen_le u c n t : 0 <= u -> 0 <= c -> 0 <= n ->
  0 <= new_seglen u c n t <= u /\ new_seglen u c n t <= n.
Proof.
  intros. unfold new_seglen. cbv zeta.
  pose proof (u32_range (cend (TcpSack.pending (score t)) - sent_seq t)) as Hr. unfold in_u32 in Hr.
  destruct (_ && _) eqn:E; bprop; lia.
Qed.

(** [n] bytes past SND.NXT are sent. *)
Lemma sending_advance a k t t1 n :
  sending a k false false t -> 0 < n <= zlen v - k ->
  sb t1 = mk_sndbuf (chunks (sb t)) (sb_len (sb t)) (head_seq (sb t)) (u32 (unacked (sb t) + n)) ->
  sent_seq t1 = u32 (sent_seq t + n) -> una t1 = una t -> fin_deferred (opt t1) = fin_deferred (opt t) ->
  tx_queue t1 = tx_queue t -> packets t1 = packets t -> st t1 = st t ->
  sending a (k + n) false false t1.
Proof.
  intros S Hn E1 E2 E3 E4 E5 E6 E7. pose proof (sending_len _ _ _ _ _ _ _ S) as HL.
  destruct S as [Hb Hlim Hc Hh Hr Hs Hu Hk Hf He Hd Hst Hq Hqd Hp]. change TCP_SNDBUF_APP_HIWAT with 65536 in *.
  assert (u32 (unacked (sb t) + n) = k + n - a) as Hua by (rewrite Hk, u32_small; wunfold; lia).
  split; rewrite ?E1, ?E2, ?E3, ?E4, ?E5, ?E6, ?E7, ?Hua; cbn [sb_len head_seq unacked]; try done; try lia.
  - destruct Hb as [B1 B2 B3 B4 B5]. split; cbn; try done. rewrite HL. lia.
  - rewrite Hs, u32_add_l. f_equal. cbn. lia.
Qed.

Lemma new_data_send_ok a k f e io b t (r := new_data_send io b t) :
  sending a k f e t -> seq_lt (sent_seq t) (buf_end t) = true -> tcp_sndbuf_peek (sent_seq t) (sb t) = Some b ->
  still (st t) (snd r) \/ fst r = TCP_SNDBUF_DESTROYED /\ gone (st t) (snd r).
Proof.
  intros S Hlt Hp. destruct (unsent_place _ _ _ _ _ S Hlt) as (-> & -> & Hk & Hun).
  unfold r, new_data_send. cbv zeta. rewrite Hun.
  pose proof (quiet_congestion t) as Q1. destruct (congestion_flight t) as [cg t1]. cbn [snd] in Q1.
  destruct (_ <=? cg) eqn:Ew; [left; by eapply still_quiet|]. apply Z.leb_gt in Ew.
  pose proof (new_seglen_le (zlen v - k) (Z.min (tcp_cc_send_window (cc t1)) (snd_wnd t1) - cg) (zlen b) t1
    ltac:(lia) ltac:(lia) (zlen_nonneg b)) as Hn0.
  set (n0 := new_seglen _ _ _ _) in *. clearbody n0. destruct (n0 =? 0) eqn:E0; [left; by eapply still_quiet|].
  destruct (negb (arp_ok io)); [left; eapply still_quiet; [done|]; etrans; [exact Q1|by apply quiet_emit]|].
  pose proof (quiet_data_options io t1) as Q2. destruct (data_options io t1) as [o t2]. cbn [snd] in Q2.
  assert (quiet t t2) as Q by (by etrans). set (fr := default _ o). clearbody fr.
  destruct (negb (nodelay t2) && _ && _ && _ && _); [left; by eapply still_quiet|].
  pose proof (u32_range (tcp_options_data_mss (opt t2) (Some fr))) as Hm. unfold in_u32 in Hm.
  set (n := Z.min n0 _). destruct (n =? 0) eqn:En; [left; by eapply still_quiet|].
  assert (0 < n <= n0) as Hnn by (unfold n in *; lia). clearbody n.
  destruct (negb (packet_ok _ _)); [left; by eapply still_quiet|].
  pose proof (sending_quiet _ _ _ _ _ _ _ _ Q S) as S2. pose proof Q as (Hv & _ & Hst).
  destruct (sview_eq _ _ Hv) as (Eb & Es & _). rewrite <- Eb, <- Es in Hp.
  assert (in_u32 (sent_seq t2)) as Hr by (rewrite (sd_sent _ _ _ _ _ _ _ S2); apply u32_range).
  pose proof (peek_good _ _ _ _ _ _ _ (Z.to_nat n) (tcp_wire_rcv_wnd data_flags t1) fr S2 Hr Hp) as G.
  pose proof (sending_packet _ _ _ _ _ _ S2 G) as S3. set (t3 := emit _ t2) in *.
  assert (st t3 = st t) as Hst3 by exact Hst. clearbody t3.
  assert (quiet t3 (set_ack_pending false t3)) as Q4 by quiet.
  pose proof (sending_quiet _ _ _ _ _ _ _ _ Q4 S3) as S4. set (t4 := set_ack_pending false t3) in *.
  assert (st t4 = st t) as Hst4 by exact Hst3. clearbody t4.
  set (idle := una t =? sent_seq t). set (cw := tcp_cc_send_window _).
  destruct (new_data_fields io n cg cw idle t4) as (t5 & F1 & F2 & F3 & F4 & F5 & F6 & F7 & F8).
  assert (sending a (k + n) false false t5) as S5 by (by eapply sending_advance; [exact S4|lia|..]).
  destruct F8 as [Q5|[D5 E5]]; [left|right; split; [done|]].
  - exists a, (k + n), false, false. split; [by eapply sending_quiet|]. destruct Q5 as (_ & _ & ->). congruence.
  - exists t5, a, (k + n), false, false. split_and!; [done|congruence|done].
Qed.
Lemma flush_sndbuf_ok a k f e io t (r := tcp_tx_flush_sndbuf io t) :
  sending a k f e t -> still (st t) (snd r) \/ fst r = TCP_SNDBUF_DESTROYED /\ gone (st t) (snd r).
Proof.
  intros S. pose proof (still_here _ _ _ _ _ S) as A. unfold r, tcp_tx_flush_sndbuf.
  destruct (negb (one_of _ _)); [by left|]. destruct (_ || _); [by left|].
  destruct (seq_lt _ _) eqn:E; [|by left]. cbn [negb].
  destruct (tcp_sndbuf_peek _ _) as [b|] eqn:Ep; [|by left]. by eapply new_data_send_ok.
Qed.

(** ** The control queue *)

Lemma sending_dequeue a k f e s q t : sending a k f e t -> tx_queue t = s :: q ->
  sending a k f e (set_tx_queue q t) /\ seg_good iss v f s /\ seg_data s = [].
Proof.
  intros [] Hq. rewrite Hq in *. repeat match goal with H : Forall _ (_ :: _) |- _ => apply Forall_cons in H as [? ?] end.
  split; [|done]. by split.
Qed.

Lemma sending_requeue a k f e s t (r := nsock_tcp_tx_requeue_head s t) :
  sending a k f e t -> seg_good iss v f s -> seg_data s = [] -> sending a k f e (snd r) /\ st (snd r) = st t.
Proof.
  intros S Hg Hd. unfold r, nsock_tcp_tx_requeue_head. destruct (tx_full t); [done|]. split; [|done]. cbn [snd].
  destruct S. destruct (io_rings t); split; try done; cbn; rewrite ?Forall_app, ?Forall_cons, ?Forall_nil; done.
Qed.

Lemma flush_control_ok a k f e q io n t (r := flush_control q io n t) :
  sending a k f e t -> tx_queue t = q -> sending a k f e (snd r) /\ st (snd r) = st t.
Proof.
  unfold r. clear r. revert n t. induction q as [|s q IH]; intros n t S Hq; [done|]. cbn [flush_control].
  destruct (sending_dequeue _ _ _ _ _ _ _ S Hq) as (S0 & Hg & Hd). set (t0 := set_tx_queue q t) in *.
  assert (st t0 = st t) as <- by done. assert (tx_queue t0 = q) as Hq0 by done. clearbody t0.
  destruct (sending_requeue _ _ _ _ s t0 S0 Hg Hd) as [S1 H1].
  destruct (nsock_tcp_tx_requeue_head s t0) as [ok t1]. cbn [snd] in *.
  destruct (negb (arp_ok _)).
  { destruct ok; [|done]. split; [|done]. eapply sending_quiet; [|exact S1]. by apply quiet_emit. }
  destruct (negb (packet_ok _ _)); [done|]. cbv zeta.
  pose proof (sending_packet _ _ _ _ _ _ S0 Hg) as S2. set (t2 := emit _ t0) in *.
  assert (st t2 = st t0) as <- by done. assert (tx_queue t2 = q) as Hq2 by done. clearbody t2.
  set (t3 := if _ && _ && _ && _ then _ else t2).
  assert (quiet t2 t3) as Q by (unfold t3; destruct (_ && _ && _ && _); quiet). clearbody t3.
  pose proof Q as (Hv & _ & <-). destruct (sview_eq _ _ Hv) as (_ & _ & _ & _ & Et).
  apply IH; [by eapply sending_quiet|congruence].
Qed.

(** ** The tail of a round *)

Lemma fin_place a k f e t : sending a k f e t -> fin_ready t = true ->
  f = false /\ e = false /\ k = zlen v /\ sent_seq t = u32 (iss + zlen v) /\ st t ∈ closing_state.
Proof.
  intros S H. unfold fin_ready in H. bprop. pose proof (sd_deferred _ _ _ _ _ _ _ S H1) as ->.
  assert (e = false) as -> by (destruct e; [by destruct (sd_e _ _ _ _ _ _ _ S eq_refl)|done]).
  pose proof (sending_len _ _ _ _ _ _ _ S) as HL. pose proof (sd_range _ _ _ _ _ _ _ S) as R.
  pose proof (sd_limit _ _ _ _ _ _ _ S) as L. change TCP_SNDBUF_APP_HIWAT with 65536 in L.
  pose proof (sd_sent _ _ _ _ _ _ _ S) as Hs. rewrite (sd_una _ _ _ _ _ _ _ S), HL in H0. cbn [b2z] in *.
  assert (k = zlen v) as -> by (clear -H0 Hs R L HL; rewrite Hs in H0; warith).
  rewrite Z.add_0_r in Hs. split_and!; try done. apply (sd_state _ _ _ _ _ _ _ S). by right.
Qed.

(** The FIN at the end of the data is queued and counted. *)
Lemma sending_fin a t t1 s :
  sending a (zlen v) false false t -> st t1 ∈ closing_state -> packets t1 = packets t ->
  sb t1 = sb t -> sent_seq t1 = u32 (sent_seq t + 1) -> una t1 = una t -> fin_deferred (opt t1) = false ->
  tx_queue t1 = tx_queue t ++ [s] -> seg_seq s = sent_seq t -> seg_data s = [] ->
  sending a (zlen v) true false t1.
Proof.
  intros S Hst Hp E1 E2 E3 E4 E5 Hseq Hd. destruct S as [Hb Hlim Hc Hh Hr Hs Hu Hk Hf He Hdf Hst0 Hq Hqd Hpk].
  assert (seg_good iss v true s) as Hg.
  { split; [by left|]. intros _. split_and!; try done. rewrite Hseq, Hs. cbn [b2z]. by rewrite Z.add_0_r. }
  split; rewrite ?E1, ?E2, ?E3, ?E4, ?E5, ?Hp; try done.
  - rewrite Hs, u32_add_l. cbn [b2z]. f_equal. lia.
  - apply Forall_app. split; [|by apply Forall_singleton]. eapply Forall_impl; [exact Hq|]. intros. by eapply good_fin.
  - apply Forall_app. split; [done|]. by apply Forall_singleton.
  - eapply Forall_impl; [exact Hpk|]. intros. by eapply good_fin.
Qed.

Lemma flush_tail_ok a k f e io t (r := flush_tail io t) :
  sending a k f e t -> still (st t) (snd r) \/ fst r <> None /\ gone (st t) (snd r).
Proof.
  intros S. unfold r, flush_tail. destruct (ack_pending t).
  { assert (has_flag RTE_TCP_ACK_FLAG RTE_TCP_FIN_FLAG = false) as Hn by done.
    pose proof (sending_queue _ _ _ _ _ _ io RTE_TCP_ACK_FLAG (sent_seq t) t S ltac:(by rewrite Hn)) as S1.
    pose proof (queue_state io RTE_TCP_ACK_FLAG (sent_seq t) t) as H1. unfold queue_control in S1, H1.
    destruct (tcp_make_fragment _ _ _ _ _) as [s t1]. destruct (tcp_enqueue_fragment s t1) as [ok t2]. cbn [snd] in *.
    left. exists a, k, f, e. destruct ok; [|done]. split; [|done]. eapply sending_quiet; [|exact S1]. quiet. }
  destruct (fin_ready t) eqn:Ef; [|left; by eapply still_here].
  destruct (fin_place _ _ _ _ _ S Ef) as (-> & -> & -> & Hs & Hst).
  pose proof (quiet_make io fin_flags (sent_seq t) (recv_ack (rx t)) t) as Q.
  pose proof (make_fields io fin_flags (sent_seq t) (recv_ack (rx t)) t) as F.
  destruct (tcp_make_fragment _ _ _ _ _) as [o t1]. cbn [fst snd] in *.
  pose proof (sending_quiet _ _ _ _ _ _ _ _ Q S) as S1. pose proof Q as (Hv & Hp & Hst1).
  destruct (sview_eq _ _ Hv) as (_ & Es & _).
  pose proof (enqueue_view o t1) as V. destruct (tcp_enqueue_fragment o t1) as [ok t2]. cbn [fst snd] in V.
  destruct V as [[Q2 ->]|(s & -> & -> & Hp2 & Hst2 & E1 & E2 & E3 & E4 & E5)].
  { right. split; [done|]. exists t1, a, (zlen v), false, false. split; [done|]. split; [done|].
    eapply ends_quiet; [|apply abort_ends]. apply Q2. }
  destruct (F s eq_refl) as (G1 & _ & _ & G4).
  set (t3 := set_fin_deferred false _).
  assert (sending a (zlen v) true false t3) as S3.
  { apply (sending_fin a t1 t3 s); try done; unfold t3; cbn; rewrite ?E2; try done; try congruence.
    change (st t2 ∈ closing_state). by rewrite Hst2, Hst1. }
  assert (st t3 = st t) as Hst3 by (transitivity (st t2); [done|congruence]). clearbody t3.
  pose proof (quiet_arm_rto io (rto_ms (rtt t2)) t3) as Q4. destruct (tcp_arm_data_rto _ _ _) as [armed t4]. cbn [snd] in Q4.
  destruct armed; cbn [fst snd].
  - left. exists a, (zlen v), true, false. split; [by eapply sending_quiet|]. destruct Q4 as (_ & _ & ->). done.
  - right. split; [done|]. exists t3, a, (zlen v), true, false. split; [done|]. split; [done|].
    eapply ends_quiet; [|apply abort_ends]. apply Q4.
Qed.

Lemma flush_loop_ok fuel io n t s : still s t -> after s (snd (flush_loop fuel io n t)).
Proof.
  revert n t. induction fuel as [|fuel IH]; intros n t A; [by left|]. cbn [flush_loop].
  destruct A as (a & k & f & e & S & <-).
  destruct (flush_control_ok _ _ _ _ (tx_queue t) io n t S eq_refl) as [S1 H1].
  destruct (flush_control _ io n t) as [[[r|] n1] t1]; cbn [snd] in *; [left; rewrite <- H1; by eapply still_here|].
  destruct (flush_recovery_ok _ _ _ _ (Datatypes.S fuel) io n1 t1 S1) as [S2 H2].
  destruct (flush_recovery _ io n1 t1) as [o t2]. cbn [snd] in *. assert (st t2 = st t) as H02 by congruence.
  assert (after (st t) t2) as A2 by (left; rewrite <- H02; by eapply still_here).
  destruct o as [[x n2]|]; [|done].
  assert (after (st t) (snd match tcp_tx_flush_sndbuf (io n2) t2 with
    | (TCP_SNDBUF_ARP_WAIT, t3) => (Some SOCK_TX_FLUSH_ARP_WAIT, t3)
    | (TCP_SNDBUF_RETRY, t3) => (Some SOCK_TX_FLUSH_RETRY, t3)
    | (TCP_SNDBUF_DESTROYED, t3) => (Some SOCK_TX_FLUSH_DESTROYED, t3)
    | (TCP_SNDBUF_SENT, t3) => flush_loop fuel io (Datatypes.S n2) t3
    | (TCP_SNDBUF_IDLE, t3) =>
        match flush_tail (io (Datatypes.S n2)) t3 with
        | (None, t4) => flush_loop fuel io (Datatypes.S (Datatypes.S n2)) t4
        | (Some r, t4) => (Some r, t4)
        end
    end)) as A3; [|by destruct x].
  destruct (flush_sndbuf_ok _ _ _ _ (io n2) t2 S2) as [A3|[E3 A3]];
    destruct (tcp_tx_flush_sndbuf (io n2) t2) as [y t3]; cbn [fst snd] in *; rewrite H02 in A3; [|subst y; by right].
  destruct y; try (by left); [|by apply IH].
  destruct A3 as (a3 & k3 & f3 & e3 & S3 & H3).
  destruct (flush_tail_ok _ _ _ _ (io (Datatypes.S n2)) t3 S3) as [A4|[E4 A4]]; rewrite ?H3 in *;
    destruct (flush_tail _ t3) as [[r|] t4]; cbn [fst snd] in *; try done; [by left|by apply IH|by right].
Qed.

Lemma tx_flush_ok a k f e fuel io t : sending a k f e t -> after (st t) (snd (tcp_tx_flush fuel io t)).
Proof.
  intros S. pose proof (still_here _ _ _ _ _ S) as A. unfold tcp_tx_flush. destruct (one_of _ _); [by left|].
  by apply flush_loop_ok.
Qed.
End Transmit.

(** ** The whole connection: every operation keeps the invariant of its send side *)

Lemma quiet_set_opt o t : opt_core o = opt_core (opt t) -> quiet t (set_opt o t).
Proof. intros [= H1 H2]. split_and!; try done. unfold sview, una. cbn. by rewrite H1, H2. Qed.

Section Conn.
Context (isn : Z) (w : list Z).
Local Abbreviation opened := (opened isn w).
Local Abbreviation conn := (conn isn w).

(** The result of a step that may have ended the connection. *)
Definition goes_on (r : bool * tcb) : Prop := fst r = true /\ opened (snd r) \/ fst r = false /\ conn (snd r).

Lemma goes_conn r : goes_on r -> conn (snd r).
Proof. intros [[_ H]|[_ H]]; [by apply opened_conn|done]. Qed.

Lemma opened_ends t t' : opened t -> ends t t' -> conn t'.
Proof. intros O E. eapply conn_ends; [exact E|]. by apply opened_conn. Qed.

(** ** Receiving *)

Lemma time_wait_ok io t : opened t -> goes_on (tcp_enter_time_wait io t).
Proof.
  intros O. unfold tcp_enter_time_wait. cbv zeta.
  assert (opened (tcp_stream_set_status TCP_STATUS_TIME_WAIT t)) as O1 by (apply opened_status; [mem|intros _; mem|done]).
  set (t1 := set_close_deadline_cycles _ _). assert (opened t1) as O2 by (eapply opened_quiet; [|exact O1]; quiet).
  clearbody t1. pose proof (quiet_arm_syn io TCP_2MSL_MS t1) as Q. destruct (tcp_arm_syn_timer _ _ _) as [ok t2].
  cbn [snd] in Q. pose proof (opened_quiet _ _ _ _ Q O2) as O3. destruct ok; [by left|]. right. split; [done|].
  eapply opened_ends; [exact O3|]. apply abort_ends.
Qed.

Lemma peer_eof_ok io t : opened t -> goes_on (tcp_apply_peer_eof io t).
Proof.
  intros O. unfold tcp_apply_peer_eof. destruct (negb _); [by left|].
  destruct (st t) eqn:E; try (by left); try (by apply time_wait_ok);
    (left; split; [done|]; apply opened_status; [mem|rewrite E; intros H; first [nomem H|mem]|done]).
Qed.

Lemma receive_range_conn io seq d fin t : opened t -> goes_on (tcp_receive_stream_range io seq d fin t).
Proof.
  intros O. unfold tcp_receive_stream_range.
  pose proof (receive_range_status (ofo_alloc io) (blob_ok io) seq d fin (rx t)) as H.
  destruct (receive_range _ _ _ _ _ _) as [ap r]. cbn [snd] in H.
  assert (opened (set_rx r t)) as O1 by (by apply opened_rx). destruct ap; [by apply peer_eof_ok|by left].
Qed.

Lemma receive_segment_ok io h t : opened t -> goes_on (tcp_receive_stream_segment io h t).
Proof.
  intros O. unfold tcp_receive_stream_segment. cbv zeta. destruct (_ && _); [by left|]. destruct (has h _); [by left|].
  pose proof (receive_range_conn io (in_seq h) (in_data h) (has h RTE_TCP_FIN_FLAG) t O) as G.
  destruct (tcp_receive_stream_range _ _ _ _ _) as [ok t1]. destruct G as [[H O1]|[H C1]]; cbn [fst snd] in *; subst ok; cbn [negb];
    [|by right]. left. split; [done|]. cbn [snd].
  set (t2 := if negb (_ =? _) then _ else t1).
  assert (quiet t1 t2) as Q2 by (unfold t2; destruct (negb _); [apply quiet_set_opt, progress_core|done]).
  pose proof (opened_quiet _ _ _ _ Q2 O1) as O2. clearbody t2.
  set (t3 := if _ && _ && _ && _ && _ && _ then _ else _).
  assert (opened t3) as O3.
  { unfold t3. destruct (_ && _ && _ && _ && _ && _); [|by apply opened_queue].
    apply opened_emit; [done|]. eapply opened_quiet; [|exact O2]. quiet. }
  clearbody t3. destruct (_ || _); [|done]. by apply opened_emit, opened_emit.
Qed.

Lemma recv_ok io len t : opened t -> conn (snd (tcp_recv io len t)).
Proof.
  intros O. unfold tcp_recv. pose proof (recv_copy_status (blob_ok io) len (rx t)) as H.
  destruct (recv_copy _ _ _) as [[res cp] r]. cbn [snd] in H. cbv zeta.
  assert (opened (set_rx r t)) as O1 by (by apply opened_rx). set (t1 := set_rx r t) in *. clearbody t1.
  destruct cp as [wh|]; [|by apply opened_conn]. pose proof (peer_eof_ok io t1 O1) as G.
  destruct (tcp_apply_peer_eof io t1) as [ok t2]. destruct G as [[E O2]|[E C2]]; cbn [fst snd] in *; subst ok; cbn [negb];
    [|done]. cbn [snd]. set (t3 := emit _ _).
  assert (opened t3) as O3 by (apply opened_emit; [done|]; eapply opened_quiet; [|exact O2]; quiet).
  clearbody t3. apply opened_conn. destruct wh; [|done]. by apply opened_rx.
Qed.

(** ** Synchronised states *)

Lemma ack_goes io ack dup win t : in_u32 ack -> opened t -> goes_on (tcp_process_peer_ack_ex io ack dup win t).
Proof.
  intros Hu O. destruct (peer_ack_ok isn w io ack dup win t O Hu) as [(H1 & H2 & _)|[H1 H2]]; [by left|right].
  split; [done|]. by eapply opened_ends.
Qed.

Lemma then_receive io h r : goes_on r ->
  conn (if fst r then snd (tcp_receive_stream_segment io h (snd r)) else snd r).
Proof. intros [[-> O]|[-> C]]; [|done]. by apply goes_conn, receive_segment_ok. Qed.

Lemma established_ok io h t : in_u32 (in_ack h) -> opened t -> conn (tcp_state_established io h t).
Proof.
  intros Hu O. unfold tcp_state_established. set (r := if has h _ then _ else _).
  assert (goes_on r) as G by (unfold r; destruct (has h _); [by apply ack_goes|by left]).
  clearbody r. pose proof (then_receive io h r G). by destruct r as [ok t1].
Qed.

Lemma state_ack_ok io h t : in_u32 (in_ack h) -> opened t -> goes_on (state_ack io h t).
Proof. intros Hu O. unfold state_ack. destruct (has h _); [by apply ack_goes|by left]. Qed.

Lemma ack_receive_ok io h t : in_u32 (in_ack h) -> opened t ->
  conn (let '(ok, t1) := state_ack io h t in if ok then snd (tcp_receive_stream_segment io h t1) else t1).
Proof.
  intros Hu O. pose proof (then_receive io h _ (state_ack_ok io h t Hu O)). by destruct (state_ack io h t).
Qed.

Lemma fin_wait_1_ok io h t : st t = TCP_STATUS_FIN_WAIT_1 -> in_u32 (in_ack h) -> opened t ->
  conn (tcp_state_fin_wait_1 io h t).
Proof.
  intros Hs Hu O. unfold tcp_state_fin_wait_1. pose proof (state_ack_ok io h t Hu O) as G.
  destruct (state_ack io h t) as [ok t1]. destruct G as [[E O1]|[E C1]]; cbn [fst snd] in *; subst ok; cbn [negb]; [|done].
  set (r := if _ && _ then _ else _).
  assert (goes_on r) as G2.
  { unfold r. clear r. destruct (_ && _); [|by left]. cbv zeta.
    assert (opened (tcp_stream_set_status TCP_STATUS_FIN_WAIT_2 t1)) as O2 by (apply opened_status; [mem|intros _; mem|done]).
    set (s := tcp_stream_set_status _ _) in *. clearbody s. set (s1 := if _ || _ then _ else s).
    assert (quiet s s1) as Q1 by (unfold s1; destruct (_ || _); quiet). pose proof (opened_quiet _ _ _ _ Q1 O2) as O3.
    clearbody s1. pose proof (quiet_arm io (close_deadline_cycles s1) s1) as Q2.
    destruct (arm_at _ _ _) as [armed s2]. cbn [snd] in Q2. pose proof (opened_quiet _ _ _ _ Q2 O3) as O4.
    destruct armed; [by left|]. right. split; [done|]. eapply opened_ends; [exact O4|]. apply abort_ends. }
  clearbody r. pose proof (then_receive io h r G2). by destruct r as [ok2 t2].
Qed.

Lemma last_ack_ok io h t : in_u32 (in_ack h) -> opened t -> conn (tcp_state_last_ack io h t).
Proof.
  intros Hu O. unfold tcp_state_last_ack. pose proof (receive_segment_ok io h t O) as G.
  destruct (tcp_receive_stream_segment io h t) as [ok t1]. destruct G as [[E O1]|[E C1]]; cbn [fst snd] in *; subst ok; cbn [negb orb];
    [|done]. destruct (negb (has h _)); [by apply opened_conn|].
  pose proof (ack_goes io (in_ack h) false None t1 Hu O1) as G. unfold tcp_process_peer_ack.
  destruct (tcp_process_peer_ack_ex _ _ _ _ _) as [ok t2]. destruct G as [[E O2]|[E C2]]; cbn [fst snd] in *; subst ok; cbn [negb orb];
    [|done]. destruct (negb _); [by apply opened_conn|].
  assert (ends t2 (drain_recv (tcp_drain_send (tcp_stream_set_status TCP_STATUS_CLOSED t2)))) as E3.
  { apply ends_same; [left; rewrite st_drain_recv, st_drain_send; apply set_status_view|by autorewrite with packets]. }
  set (t3 := drain_recv _) in *. clearbody t3. pose proof (opened_ends _ _ O2 E3) as C3.
  destruct (app_closed t3); [|done]. eapply conn_ends; [apply free_ends|done].
Qed.

Lemma closing_ok io h t : in_u32 (in_ack h) -> opened t -> conn (tcp_state_closing io h t).
Proof.
  intros Hu O. unfold tcp_state_closing. pose proof (receive_segment_ok io h t O) as G.
  destruct (tcp_receive_stream_segment io h t) as [ok t1]. destruct G as [[E O1]|[E C1]]; cbn [fst snd] in *; subst ok; cbn [negb orb];
    [|done]. destruct (negb (has h _)); [by apply opened_conn|].
  pose proof (ack_goes io (in_ack h) false None t1 Hu O1) as G. unfold tcp_process_peer_ack.
  destruct (tcp_process_peer_ack_ex _ _ _ _ _) as [ok t2]. destruct G as [[E O2]|[E C2]]; cbn [fst snd] in *; subst ok; cbn [negb orb];
    [|done]. destruct (negb _); [by apply opened_conn|]. by apply goes_conn, time_wait_ok.
Qed.

Lemma state_ops_ok io h t : in_u32 (in_ack h) -> opened t -> conn (tcp_state_ops (st t) io h t).
Proof.
  intros Hu O. destruct (st t) eqn:E; cbn [tcp_state_ops]; try (by apply opened_conn).
  - exfalso. destruct O as [H _]. rewrite E in H. nomem H.
  - exfalso. destruct O as [H _]. rewrite E in H. nomem H.
  - by apply established_ok.
  - by apply ack_receive_ok.
  - by apply last_ack_ok.
  - by apply goes_conn, receive_segment_ok.
  - by apply closing_ok.
  - by apply fin_wait_1_ok.
  - by apply ack_receive_ok.
Qed.
End Conn.
