(* ===== verification/TcpSendHistory.v ===== *)
(** * The send side of a connection: handshake, timers, writes and close

    With the synchronised states of TcpSendTx these are all operations of a
    connection, and each keeps the invariant. *)

From S2P Require Import Prelude Config SeqNum TcpRtt TcpCc SackRange TcpSack TcpOptions OwnerTimer TcpOfo.
From S2P Require Import TcpOfoFacts TcpSndBuf TcpTcb TcpAck TcpTx TcpState TcpSend TcpSendSteps TcpSendTx.

Section History.
Context (isn : Z).

(** ** Handshake *)

Definition syncing (t : tcb) : Prop :=
  st t ∈ [TCP_STATUS_SYN_SENT; TCP_STATUS_SYN_RECV] /\ sending isn [] 0 0 false false t.

Lemma syncing_conn t : syncing t -> conn isn [] t.
Proof. intros [? ?]. by apply conn_handshake. Qed.

Lemma syncing_quiet t t' : quiet t t' -> syncing t -> syncing t'.
Proof. intros Q [Hs S]. split; [by destruct Q as (_ & _ & ->)|by eapply sending_quiet]. Qed.

Lemma syncing_ends t t' : syncing t -> ends t t' -> conn isn [] t'.
Proof. intros S E. eapply conn_ends; [exact E|]. by apply syncing_conn. Qed.

Lemma syncing_enqueue o t : (forall s, o = Some s -> seg_control s) -> syncing t ->
  syncing (snd (tcp_enqueue_fragment o t)).
Proof.
  intros Hc [Hs S]. destruct o as [s|]; [|done]. destruct (Hc s eq_refl) as [Hd Hf]. split.
  - by destruct (enqueue_view (Some s) t) as [[(_ & _ & ->) _]|(? & _ & _ & _ & -> & _)].
  - apply sending_enqueue; [done| |done]. by apply control_good.
Qed.

Lemma apply_syn_fields io a b c d s t (r := fst (apply_syn io a b c d s t)) :
  seg_flags r = seg_flags s /\ seg_data r = seg_data s /\ seg_seq r = seg_seq s.
Proof. unfold r, apply_syn. by destruct (tcp_options_apply_syn _ _ _ _ _ _ _). Qed.

(** A SYN or SYN+ACK is a control segment. *)
Lemma make_synack_ok io t (r := make_synack io t) :
  quiet t (snd r) /\ forall s, fst r = Some s -> seg_control s.
Proof.
  unfold r, make_synack. pose proof (quiet_make io synack_flags (sent_seq t) (recv_ack (rx t)) t) as Q.
  pose proof (make_fields io synack_flags (sent_seq t) (recv_ack (rx t)) t) as F.
  destruct (tcp_make_fragment _ _ _ _ _) as [[s|] t1]; cbn [fst snd] in *; [|done]. cbv zeta.
  set (o := opt t1).
  pose proof (quiet_apply_syn io (wscale_ok o) (timestamps_ok o) (sack_local_offered o) (ts_recent o) s t1) as Q2.
  pose proof (apply_syn_fields io (wscale_ok o) (timestamps_ok o) (sack_local_offered o) (ts_recent o) s t1) as A.
  destruct (apply_syn _ _ _ _ _ _ _) as [g t2]. cbn [fst snd] in *. destruct A as (A1 & A2 & _).
  split; [by etrans|]. intros s' [= <-]. destruct (F s eq_refl) as (_ & _ & F3 & F4). split; [congruence|].
  by rewrite A1, F3.
Qed.

Lemma syn_fragment_ok io t (r := tcp_make_fragment io RTE_TCP_SYN_FLAG (sent_seq t) 0 t)
    (q := match fst r with
          | Some s => let '(g, t') := apply_syn io true true true 0 s (snd r) in (Some g, t')
          | None => (None, snd r)
          end) :
  quiet t (snd q) /\ forall s, fst q = Some s -> seg_control s.
Proof.
  unfold q, r. pose proof (quiet_make io RTE_TCP_SYN_FLAG (sent_seq t) 0 t) as Q.
  pose proof (make_fields io RTE_TCP_SYN_FLAG (sent_seq t) 0 t) as F.
  destruct (tcp_make_fragment _ _ _ _ _) as [[s|] t1]; cbn [fst snd] in *; [|done].
  pose proof (quiet_apply_syn io true true true 0 s t1) as Q2.
  pose proof (apply_syn_fields io true true true 0 s t1) as A.
  destruct (apply_syn _ _ _ _ _ _ _) as [g t2]. cbn [fst snd] in *. destruct A as (A1 & A2 & _).
  split; [by etrans|]. intros s' [= <-]. destruct (F s eq_refl) as (_ & _ & F3 & F4). split; [congruence|].
  by rewrite A1, F3.
Qed.

(** The fields of a send buffer just reset. *)
Lemma reset_fields seq t (t' := sndbuf_reset seq t) :
  sb t' = mk_sndbuf [] 0 seq 0 /\ sent_seq t' = sent_seq t /\ una t' = una t /\
  fin_deferred (opt t') = fin_deferred (opt t) /\ tx_queue t' = tx_queue t /\ packets t' = packets t /\ st t' = st t.
Proof. by unfold t', sndbuf_reset, tcp_sndbuf_reset, tcp_sndbuf_free. Qed.

(** An empty stream numbered from [x]. *)
Lemma sending_empty x t :
  sb t = mk_sndbuf [] 0 (u32 x) 0 -> sent_seq t = u32 x -> una t = u32 x -> fin_deferred (opt t) = false ->
  Forall seg_control (tx_queue t) -> Forall seg_control (packets t) -> sending x [] 0 0 false false t.
Proof.
  intros E1 E2 E3 E4 Hq Hp. split; rewrite ?E1, ?E2, ?E3, ?E4; cbn [b2z]; rewrite ?Z.add_0_r; try done.
  - split; try done. cbn. apply u32_range.
  - by intros [|].
  - eapply Forall_impl; [exact Hq|]. intros. by apply control_good.
  - eapply Forall_impl; [exact Hq|]. by intros ? [? _].
  - eapply Forall_impl; [exact Hp|]. intros. by apply control_good.
Qed.

Lemma syncing_control t : syncing t ->
  Forall seg_control (tx_queue t) /\ Forall seg_control (packets t) /\ fin_deferred (opt t) = false /\
  sent_seq t = u32 isn.
Proof.
  intros [Hs S]. split_and!.
  - eapply Forall_impl; [apply S|]. intros. by eapply good_empty.
  - eapply Forall_impl; [apply S|]. intros. by eapply good_empty.
  - destruct (fin_deferred (opt t)) eqn:E; [|done]. exfalso. pose proof (sd_state _ _ _ _ _ _ _ S (or_intror E)) as H.
    apply list_elem_of_In in Hs. destruct Hs as [Hs|[Hs|[]]]; rewrite <- Hs in H; nomem H.
  - rewrite (sd_sent _ _ _ _ _ _ _ S). f_equal. cbn. lia.
Qed.

(** The stream restarted at [q]. *)
Definition restarted (q : Z) (t : tcb) : tcb := sndbuf_reset q (set_una q (set_sent_seq q t)).

Lemma restarted_ok x t :
  Forall seg_control (tx_queue t) -> Forall seg_control (packets t) -> fin_deferred (opt t) = false ->
  sending x [] 0 0 false false (restarted (u32 x) t) /\ fin_deferred (opt (restarted (u32 x) t)) = false /\
  st (restarted (u32 x) t) = st t.
Proof. intros Hq Hp Hd. split; [by apply sending_empty|done]. Qed.

Lemma established_status t : sending (isn + 1) [] 0 0 false false t -> fin_deferred (opt t) = false ->
  opened isn [] (tcp_stream_set_status TCP_STATUS_ESTABLISHED t).
Proof.
  intros S Hd. destruct (set_status_view TCP_STATUS_ESTABLISHED t) as (Hv & Hp & Hst & _).
  split; [rewrite Hst; mem|]. exists 0, 0, false, false.
  apply (sending_status _ _ _ _ _ _ t); try done. intros [|H]; congruence.
Qed.

Lemma synchronised_ok a b c d t : syncing t -> opened isn [] (synchronised a b c d t).
Proof.
  intros Hs. destruct (syncing_control t Hs) as (Hq & Hp & Hd & Hn). unfold synchronised. cbv zeta.
  set (t1 := set_sent_seq _ t). assert (t1 = set_sent_seq (u32 (isn + 1)) t) as Ht1
    by (unfold t1; by rewrite Hn, u32_add_l).
  rewrite Ht1. clear Ht1 t1. set (q := u32 (isn + 1)).
  change (sndbuf_reset (sent_seq (set_sent_seq q t)) (set_una (sent_seq (set_sent_seq q t)) (set_sent_seq q t)))
    with (restarted q t). unfold q. clear q.
  destruct (restarted_ok (isn + 1) t Hq Hp Hd) as (S2 & Hd2 & _).
  set (t2 := restarted _ t) in *. clearbody t2. set (t3 := set_timer None _).
  assert (quiet t2 t3) as Q3 by (apply quiet_timer, quiet_score). clearbody t3.
  pose proof (quiet_wnd a b c d t3) as Q4. set (t4 := tcp_update_snd_wnd _ _ _ _ t3) in *. clearbody t4.
  set (t5 := set_rtt _ t4). assert (quiet t4 t5) as Q5 by (apply quiet_rtt; done). clearbody t5.
  assert (quiet t5 (tcp_cc_init_default (syn_retransmitted t5) t5)) as Q6 by (apply quiet_cc; done).
  set (t6 := tcp_cc_init_default _ t5) in *. clearbody t6.
  assert (quiet t2 t6) as Q by (etrans; [exact Q3|]; etrans; [exact Q4|]; by etrans).
  apply established_status; [by eapply sending_quiet|].
  destruct Q as (Qv & _ & _). apply sview_eq in Qv as (_ & _ & _ & Qd & _). congruence.
Qed.

Lemma syn_sent_ok io h t : syncing t -> conn isn [] (tcp_state_syn_sent io h t).
Proof.
  intros Hs. pose proof (syncing_conn t Hs) as C. unfold tcp_state_syn_sent.
  destruct (_ || _); [done|]. destruct (negb _); [done|]. cbv zeta.
  set (t1 := set_rx _ t). assert (quiet t t1) as Q1 by (by split_and!). pose proof (syncing_quiet _ _ Q1 Hs) as H1.
  clearbody t1. pose proof (synchronised_ok (in_seq h) (in_ack h) (in_win h) 0 t1 H1) as O.
  set (t2 := synchronised _ _ _ _ _) in *. clearbody t2. apply opened_conn. do 3 (apply opened_emit; [done|]).
  eapply opened_quiet; [|exact O]. apply quiet_ack_pending. done.
Qed.

Lemma syn_recv_ok io h t : syncing t -> conn isn [] (tcp_state_syn_recv io h t).
Proof.
  intros Hs. pose proof (syncing_conn t Hs) as C. unfold tcp_state_syn_recv.
  destruct (_ && _).
  { destruct (make_synack_ok io t) as [Q1 Hc]. destruct (make_synack io t) as [o t1]. cbn [fst snd] in *.
    pose proof (syncing_enqueue o t1 Hc (syncing_quiet _ _ Q1 Hs)) as H2. cbv zeta.
    set (t2 := snd _) in *. clearbody t2. pose proof (syncing_quiet _ _ (quiet_retries 0 t2 t2 ltac:(done)) H2) as H3.
    pose proof (quiet_arm_syn io TCP_SYN_RTO_MS (set_retries 0 t2)) as Q4.
    destruct (tcp_arm_syn_timer _ _ _) as [ok t3]. cbn [snd] in Q4. pose proof (syncing_quiet _ _ Q4 H3) as H4.
    destruct ok; [by apply syncing_conn|]. eapply syncing_ends; [exact H4|]. apply abort_ends. }
  destruct (negb (has h _)); [done|]. destruct (negb _); [done|]. cbv zeta.
  pose proof (syncing_quiet _ _ (quiet_retries 0 t t ltac:(done)) Hs) as H1.
  pose proof (synchronised_ok (in_seq h) (in_ack h) (in_win h) (peer_scale t) _ H1) as O.
  set (t2 := synchronised _ _ _ _ _) in *. clearbody t2. destruct (negb _); [by apply opened_conn|].
  pose proof (opened_emit _ _ EvSynPendingDec t2 eq_refl O) as O3. set (t3 := emit _ t2) in *. clearbody t3.
  destruct (accept_ok io); [by apply opened_conn, opened_emit|].
  eapply conn_ends; [|apply opened_conn, O3]. set (t4 := tcp_send_reset_for_stream io t3).
  assert (exists l, packets t4 = packets t3 ++ l /\ Forall seg_control l) as (l & Hl & Hc).
  { unfold t4, tcp_send_reset_for_stream. destruct (_ && _); [|exists []; by rewrite app_nil_r].
    eexists. rewrite emit_packet. split; [done|]. by repeat constructor. }
  clearbody t4. destruct (free_packets (drain_recv (tcp_drain_send t4))) as [Hp Hf]. split; [by right|].
  exists l. rewrite Hp. by autorewrite with packets.
Qed.

(** ** Dispatch of an inbound segment *)

Lemma ingress_ok io h w t :
  in_u32 (in_ack h) -> st t <> TCP_STATUS_CLOSED -> freed t = false -> conn isn w t ->
  conn isn w (tcp_ingress_stream io h t).
Proof.
  intros Hu Hc Hf C. unfold tcp_ingress_stream. destruct (has h _).
  { destruct (tcp_rst_acceptable h t); [|done]. eapply conn_ends; [apply abort_ends|done]. }
  cbv zeta. set (t1 := if _ && _ && _ then _ else t).
  assert (quiet t t1 /\ freed t1 = freed t) as [Q1 F1].
  { unfold t1. destruct (_ && _ && _); [|done]. split; [|done].
    apply quiet_opt. by rewrite negotiate_core, opt_core_view. }
  clearbody t1. set (acc := bool_decide _ && _). clearbody acc.
  pose proof (inbound_core (io_ms io) (in_opts h) false (in_seq h) acc (opt_view t1)) as H2.
  destruct (tcp_options_process_inbound _ _ _ _ _ _) as [code o]. cbn [snd] in H2.
  assert (quiet t (opt_store o t1)) as Q2 by (etrans; [exact Q1|]; apply quiet_opt; by rewrite <- opt_core_view).
  assert (freed (opt_store o t1) = freed t) as F2 by done. set (t2 := opt_store o t1) in *. clearbody t2.
  pose proof (conn_quiet _ _ _ _ Q2 F2 C) as C2. destruct Q2 as (_ & _ & Hs). rewrite <- Hs in *. rewrite <- F2 in Hf.
  clear H2 F2 Q1 F1 C Hs t t1. destruct C2 as [Hst -> S|a k f e Hst S|f Hd Hp].
  - assert (syncing t2) as Hy by (by split). pose proof (syncing_conn t2 Hy) as C.
    apply list_elem_of_In in Hst. destruct Hst as [E|[E|[]]]; rewrite <- E;
      (destruct (negb (code =? 0)); [by rewrite bool_decide_false, andb_false_r by done|]; cbn [tcp_state_ops]).
    + by apply syn_sent_ok.
    + by apply syn_recv_ok.
  - assert (opened isn w t2) as O by (split; [done|]; by exists a, k, f, e).
    destruct (negb (code =? 0)); [|by apply state_ops_ok].
    destruct (_ && _); [|by apply opened_conn]. set (t3 := set_rx _ t2).
    assert (opened isn w t3) as O3 by (apply opened_rx; [|done]; unfold tcp_sack_note_duplicate; cbv zeta; by bsplit1).
    clearbody t3. by apply opened_conn, opened_queue.
  - destruct Hd; congruence.
Qed.

(** ** Timer *)

Lemma arm_syn_ok io t : syncing t -> conn isn [] (arm_syn_or_abort io t).
Proof.
  intros H. unfold arm_syn_or_abort. pose proof (quiet_arm_syn io (syn_delay (retries t)) t) as Q.
  destruct (tcp_arm_syn_timer _ _ _) as [ok t1]. cbn [snd] in Q. pose proof (syncing_quiet _ _ Q H) as H1.
  destruct ok; [by apply syncing_conn|]. eapply syncing_ends; [exact H1|]. apply abort_ends.
Qed.

Lemma timer_syn_sent_ok io t : syncing t -> conn isn [] (timer_syn_sent io t).
Proof.
  intros H. unfold timer_syn_sent. destruct (_ <? _).
  - cbv zeta. set (t1 := set_syn_retransmitted _ _).
    assert (quiet t t1) as Q1 by (apply quiet_syn_retransmitted, quiet_retries; done).
    pose proof (syncing_quiet _ _ Q1 H) as H1. clearbody t1. destruct (syn_fragment_ok io t1) as [Q2 Hc].
    destruct (tcp_make_fragment _ _ _ _ _) as [o t2]. cbn [fst snd] in Q2, Hc.
    destruct (match o with Some _ => _ | None => _ end) as [o' t3]. cbn [fst snd] in Q2, Hc.
    apply arm_syn_ok, syncing_enqueue; [done|]. by eapply syncing_quiet.
  - cbv zeta. eapply syncing_ends; [exact H|]. set (t1 := tcp_drain_send _).
    assert (packets t1 = packets t /\ st t1 = TCP_STATUS_CLOSED) as [Hp Hs].
    { unfold t1. autorewrite with packets. split; [done|]. rewrite st_drain_send. apply set_status_view. }
    clearbody t1. set (t3 := emit _ _). assert (packets t3 = packets t) as Hp3 by (unfold t3; by autorewrite with packets).
    assert (st t3 = TCP_STATUS_CLOSED) as Hs3 by (unfold t3; by rewrite st_failed). clearbody t3.
    destruct (app_closed t3); [|apply ends_same; [by left|done]].
    eapply ends_quiet; [|apply free_ends]. by autorewrite with packets.
Qed.

Lemma timer_syn_recv_ok io t : syncing t -> conn isn [] (timer_syn_recv io t).
Proof.
  intros H. unfold timer_syn_recv. destruct (_ <? _).
  - cbv zeta. set (t1 := set_syn_retransmitted _ _).
    assert (quiet t t1) as Q1 by (apply quiet_syn_retransmitted, quiet_retries; done).
    pose proof (syncing_quiet _ _ Q1 H) as H1. clearbody t1. destruct (make_synack_ok io t1) as [Q2 Hc].
    destruct (make_synack io t1) as [o t2]. cbn [fst snd] in *. pose proof (syncing_quiet _ _ Q2 H1) as H2.
    destruct o as [s|].
    + by apply arm_syn_ok, syncing_enqueue.
    + apply syncing_conn. eapply syncing_quiet; [|exact H2]. apply quiet_fault. done.
  - cbv zeta. eapply syncing_ends; [exact H|]. set (t1 := if has_listener t then _ else t).
    assert (packets t1 = packets t) as Hp by (unfold t1; destruct (has_listener t); by autorewrite with packets).
    clearbody t1. eapply ends_quiet; [|apply free_ends]. by autorewrite with packets.
Qed.

Lemma rearm_ok io w t : opened isn w t -> goes_on isn w (rearm_or_abort io t).
Proof.
  intros O. unfold rearm_or_abort. pose proof (quiet_arm_rto io (rto_ms (rtt t)) t) as Q.
  destruct (tcp_arm_data_rto _ _ _) as [ok t1]. cbn [snd] in Q. pose proof (opened_quiet _ _ _ _ Q O) as O1.
  destruct ok; [by left|]. right. split; [done|]. eapply opened_ends; [exact O1|]. apply abort_ends.
Qed.

Lemma timer_step_quiet t : quiet t (set_rtt (tcp_rtt_on_timeout (rtt t)) (set_retries (u8 (retries t + 1)) t)).
Proof. by apply quiet_rtt, quiet_retries. Qed.

Lemma rearm_emit io w ev (b : bool) t : packet ev = None -> opened isn w t ->
  conn isn w (let '(ok, t1) := rearm_or_abort io t in if ok && b then emit ev t1 else t1).
Proof.
  intros He O. pose proof (rearm_ok io w t O) as G. destruct (rearm_or_abort io t) as [ok t1].
  destruct G as [[E O1]|[E C1]]; cbn [fst snd] in *; subst ok; cbn [andb]; [|done]. apply opened_conn.
  destruct b; [by apply opened_emit|done].
Qed.

Lemma timer_established_ok io w t : opened isn w t -> conn isn w (timer_established io t).
Proof.
  intros O. unfold timer_established. destruct (_ =? _); [by apply opened_conn|].
  destruct (_ <=? _); [eapply opened_ends; [exact O|apply abort_ends]|]. cbv zeta.
  pose proof (opened_quiet _ _ _ _ (timer_step_quiet t) O) as O1. set (t1 := set_rtt _ _) in *. clearbody t1.
  pose proof (opened_quiet _ _ _ _ (quiet_data_loss t1) O1) as O2.
  pose proof (rearm_emit io w EvMarkDirty true _ eq_refl O2) as R. destruct (rearm_or_abort _ _) as [[|] t3]; exact R.
Qed.

(** With nothing buffered, what is unacknowledged is the FIN. *)
Lemma fin_only iss w a k f e t : sending iss w a k f e t -> una t <> sent_seq t -> sb_len (sb t) <= 0 ->
  f = true /\ una t = u32 (iss + zlen w).
Proof.
  intros S Hne Hz. pose proof (sending_len _ _ _ _ _ _ _ S) as HL. pose proof (sd_range _ _ _ _ _ _ _ S) as R.
  pose proof (sd_una _ _ _ _ _ _ _ S) as Hu. pose proof (sd_sent _ _ _ _ _ _ _ S) as Hs.
  assert (a = zlen w /\ k = zlen w) as [-> ->] by lia.
  destruct f, e; cbn [b2z] in *; try (exfalso; apply Hne; congruence).
  - split; [done|]. rewrite Hu. f_equal. lia.
  - by destruct (sd_e _ _ _ _ _ _ _ S eq_refl).
Qed.

Lemma timer_fin_ok io w t : opened isn w t -> conn isn w (timer_fin io t).
Proof.
  intros O. unfold timer_fin. destruct (una t =? sent_seq t) eqn:E; [by apply opened_conn|]. apply Z.eqb_neq in E.
  destruct (_ <=? retries t); [eapply opened_ends; [exact O|apply abort_ends]|]. cbv zeta.
  pose proof (timer_step_quiet t) as Q. pose proof (opened_quiet _ _ _ _ Q O) as O1.
  set (t1 := set_rtt _ _) in *. clearbody t1. destruct Q as (Hv & _ & _). destruct (sview_eq _ _ Hv) as (_ & Es & Eu & _).
  destruct (0 <? sb_len (sb t1)) eqn:E0.
  - pose proof (opened_quiet _ _ _ _ (quiet_data_loss t1) O1) as O2. by apply rearm_emit.
  - apply Z.ltb_ge in E0. apply rearm_emit; [done|]. destruct O1 as [Hs (a & k & f & e & S)].
    split; [by rewrite queue_state|]. exists a, k, f, e. apply sending_queue; [done|]. intros _.
    by eapply fin_only; [exact S|congruence|].
Qed.

Lemma time_wait_timer_ok w t : opened isn w t -> conn isn w (timer_time_wait t).
Proof.
  intros O. unfold timer_time_wait. cbv zeta. set (t1 := tcp_drain_send _).
  assert (packets t1 = packets t /\ st t1 = TCP_STATUS_CLOSED) as [Hp Hs].
  { unfold t1. autorewrite with packets. split; [done|]. rewrite st_drain_send, st_drain_recv. apply set_status_view. }
  clearbody t1. eapply opened_ends; [exact O|]. destruct (_ || _); [|apply ends_same; [by left|done]].
  eapply ends_quiet; [|apply free_ends]. done.
Qed.

Lemma timer_ok io now w t : freed t = false -> conn isn w t -> conn isn w (tcp_timer_cb io now t).
Proof.
  intros Hf C. unfold tcp_timer_cb. destruct (_ && _); [eapply conn_ends; [apply abort_ends|done]|].
  destruct C as [Hs -> S|a k f e Hs S|f Hd Hp].
  - assert (syncing t) as Hy by (by split). apply list_elem_of_In in Hs. destruct Hs as [E|[E|[]]]; rewrite <- E.
    + by apply timer_syn_sent_ok.
    + by apply timer_syn_recv_ok.
  - assert (opened isn w t) as O by (split; [done|]; by exists a, k, f, e).
    destruct (st t) eqn:E; try (by apply opened_conn); try (by apply timer_established_ok); try (by apply timer_fin_ok).
    + nomem Hs.
    + nomem Hs.
    + by apply time_wait_timer_ok.
  - destruct Hd as [E|]; [|congruence]. rewrite E. apply (conn_dead _ _ _ f); [by left|done].
Qed.

(** ** Reads, writes and flushes *)

Lemma quiet_rx r t : status r = st t -> quiet t (set_rx r t).
Proof. intros H. by split_and!. Qed.

(** Outside the states a FIN can move, a read changes the receive half only. *)
Lemma recv_quiet io len t : one_of (st t) [TCP_STATUS_ESTABLISHED; TCP_STATUS_FIN_WAIT_1; TCP_STATUS_FIN_WAIT_2] = false ->
  quiet t (snd (TcpState.tcp_recv io len t)) /\ freed (snd (TcpState.tcp_recv io len t)) = freed t.
Proof.
  intros Hst. unfold TcpState.tcp_recv. pose proof (recv_copy_status (blob_ok io) len (rx t)) as H.
  destruct (recv_copy _ _ _) as [[res cp] r]. cbn [snd] in H. cbv zeta.
  pose proof (quiet_rx r t H) as Q1. assert (freed (set_rx r t) = freed t) as F1 by done.
  set (t1 := set_rx r t) in *. clearbody t1. destruct cp as [wh|]; [|done].
  assert (TcpState.tcp_apply_peer_eof io t1 = (true, t1)) as ->.
  { unfold TcpState.tcp_apply_peer_eof. destruct (negb _); [done|]. destruct Q1 as (_ & _ & ->).
    unfold one_of in Hst. apply bool_decide_eq_false in Hst.
    destruct (st t); try done; exfalso; apply Hst; mem. }
  cbn [negb snd]. set (t3 := emit _ _).
  assert (quiet t t3 /\ freed t3 = freed t) as [Q3 F3].
  { split; [|done]. etrans; [exact Q1|]. etrans; [|by apply quiet_emit]. by apply quiet_ack_pending. }
  clearbody t3. destruct wh; [|done]. split; [|done]. etrans; [exact Q3|]. by apply quiet_rx.
Qed.

Lemma conn_recv io len w t : freed t = false -> conn isn w t -> conn isn w (snd (TcpState.tcp_recv io len t)).
Proof.
  intros Hf C. destruct (one_of (st t) [TCP_STATUS_ESTABLISHED; TCP_STATUS_FIN_WAIT_1; TCP_STATUS_FIN_WAIT_2]) eqn:E.
  - unfold one_of in E. apply bool_decide_eq_true in E. destruct C as [Hs _ _|a k f e Hs S|f Hd _].
    + exfalso. apply list_elem_of_In in E, Hs. cbn in E, Hs. destruct Hs as [|[|]], E as [|[|[|]]]; congruence.
    + apply recv_ok. split; [done|]. by exists a, k, f, e.
    + exfalso. destruct Hd as [Hd|]; [|congruence]. rewrite Hd in E. nomem E.
  - destruct (recv_quiet io len t E) as [Q F]. by eapply conn_quiet.
Qed.

Definition accepted (data : list Z) (r : errno + Z) : list Z :=
  match r with inr n => take (Z.to_nat n) data | inl _ => [] end.

(** Appending to the stream. *)
Lemma sending_append iss w a k e t b x :
  sending iss w a k false e t -> sndbuf_ok b -> contents b = contents (sb t) ++ x -> head_seq b = head_seq (sb t) ->
  unacked b = unacked (sb t) -> sb_len b <= TCP_SNDBUF_APP_HIWAT -> sending iss (w ++ x) a k false e (set_sb b t).
Proof.
  intros S Hb Hc Hh Hu Hl. pose proof (sd_e _ _ _ _ _ _ _ S) as He.
  destruct S as [Sb Slim Sc Sh Sr Ss Su Sk Sf Se Sd Sst Sq Sqd Sp].
  assert (e = false) as -> by (destruct e; [by destruct (He eq_refl)|done]).
  pose proof (zlen_nonneg x). split; try done.
  - change (sb (set_sb b t)) with b. rewrite Hc, Sc. symmetry. apply drop_app_le. unfold zlen in *. lia.
  - change (sb (set_sb b t)) with b. congruence.
  - rewrite zlen_app. lia.
  - change (sb (set_sb b t)) with b. congruence.
  - change (Forall (seg_good iss (w ++ x) false) (tx_queue t)). eapply Forall_impl; [exact Sq|]. intros. by apply good_more.
  - change (Forall (seg_good iss (w ++ x) false) (packets t)). eapply Forall_impl; [exact Sp|]. intros. by apply good_more.
Qed.

Lemma conn_send io data w t (r := tcp_send io data t) :
  freed t = false -> conn isn w t -> conn isn (w ++ accepted data (fst r)) (snd r).
Proof.
  intros Hf C. unfold r, tcp_send. destruct (zlen data =? 0); [cbn; by rewrite app_nil_r|].
  destruct (one_of (st t) _) eqn:Es; cbn [negb]; [|cbn; by rewrite app_nil_r]. cbv zeta.
  destruct (tcp_app_snd_space t =? 0) eqn:E0; [cbn; by rewrite app_nil_r|]. apply Z.eqb_neq in E0.
  unfold one_of in Es. apply bool_decide_eq_true in Es.
  destruct C as [Hs _ _|a k f e Hs S|f Hd _].
  { exfalso. apply list_elem_of_In in Es, Hs. cbn in Es, Hs. destruct Hs as [|[|]], Es as [|[|]]; congruence. }
  2: { exfalso. destruct Hd as [Hd|]; [|congruence]. rewrite Hd in Es. nomem Es. }
  assert (f = false) as ->.
  { destruct f; [|done]. pose proof (sd_state _ _ _ _ _ _ _ S (or_introl eq_refl)) as H.
    apply list_elem_of_In in Es. cbn in Es. destruct Es as [E|[E|[]]]; rewrite <- E in H; nomem H. }
  assert (0 < tcp_app_snd_space t /\ sb_len (sb t) + tcp_app_snd_space t <= 65536) as [Hsp Hlim].
  { pose proof (sd_limit _ _ _ _ _ _ _ S) as L. revert E0. unfold tcp_app_snd_space, tcp_app_snd_limit. cbv zeta.
    change TCP_SNDBUF_APP_HIWAT with 65536 in *. clear -L. bsplit; bprop; lia. }
  set (sp := tcp_app_snd_space t) in *. clearbody sp. pose proof (zlen_nonneg data) as Hd0.
  set (d := take (Z.to_nat (Z.min (zlen data) sp)) data).
  assert (zlen d = Z.min (zlen data) sp) as Hdl by (apply zlen_take; lia).
  destruct (append_ok (chunk_alloc io) d (gauges t) (sb t) (sd_buf _ _ _ _ _ _ _ S)) as (n & Hn & Hr & Hb & Hc & Hh & Hu & _);
    [lia|].
  destruct (tcp_sndbuf_append _ _ _ _) as [n' [m b]]. cbn [fst snd] in *.
  assert (sb_len b <= TCP_SNDBUF_APP_HIWAT) as Hbl.
  { rewrite (so_len _ Hb), Hc, zlen_app, zlen_take, <- (so_len _ (sd_buf _ _ _ _ _ _ _ S)) by lia.
    change TCP_SNDBUF_APP_HIWAT with 65536. lia. }
  assert (sending (isn + 1) w a k false e (set_gauges m t)) as S1 by (eapply sending_quiet; [|exact S]; by apply quiet_gauges).
  pose proof (sending_append _ _ _ _ _ _ b _ S1 Hb Hc Hh Hu Hbl) as S2. set (t1 := set_sb b (set_gauges m t)) in *.
  assert (st t1 = st t) as Hst by done. clearbody t1.
  destruct (n' <=? 0) eqn:En; cbn [fst snd accepted].
  - assert (n = 0) as -> by (apply Z.leb_le in En; destruct (n =? 0) eqn:E; cbn [andb] in Hr; lia).
    cbn in S2. rewrite app_nil_r in *. eapply conn_open; [by rewrite Hst|exact S2].
  - apply Z.leb_gt in En. assert (n' = n) as -> by (destruct (_ && _); lia).
    assert (take (Z.to_nat n) d = take (Z.to_nat n) data) as <-.
    { unfold d. rewrite take_take. f_equal. lia. }
    eapply conn_open; [by rewrite st_emit, Hst|]. eapply sending_quiet; [|exact S2]. by apply quiet_emit.
Qed.

Lemma conn_after w t s : s ∈ synced -> after (isn + 1) w s t -> conn isn w t.
Proof.
  intros Hs [(a & k & f & e & S & Hst)|(t1 & a & k & f & e & S & _ & E)].
  - eapply conn_open; [by rewrite Hst|exact S].
  - destruct E as [Hd (l & Hl & Hc)]. apply (conn_dead _ _ _ f); [done|]. rewrite Hl. apply Forall_app.
    split; [apply S|]. eapply Forall_impl; [exact Hc|]. intros. by apply control_good.
Qed.

Lemma syncing_start a k f e t :
  st t ∈ [TCP_STATUS_SYN_SENT; TCP_STATUS_SYN_RECV] -> sending isn [] a k f e t -> syncing t.
Proof.
  intros Hs S. split; [done|]. pose proof (sd_range _ _ _ _ _ _ _ S) as R. change (zlen (@nil Z)) with 0 in R.
  assert (a = 0 /\ k = 0) as [-> ->] by lia.
  assert (f = false) as ->.
  { destruct f; [|done]. pose proof (sd_state _ _ _ _ _ _ _ S (or_introl eq_refl)) as H.
    apply list_elem_of_In in Hs. destruct Hs as [E|[E|[]]]; rewrite <- E in H; nomem H. }
  by destruct e; [destruct (sd_e _ _ _ _ _ _ _ S eq_refl)|].
Qed.

Lemma conn_flush fuel io w t : freed t = false -> conn isn w t -> conn isn w (snd (tcp_tx_flush fuel io t)).
Proof.
  intros Hf [Hs -> S|a k f e Hs S|f Hd Hp].
  - destruct (tx_flush_ok _ _ _ _ _ _ fuel io t S) as [(a & k & f & e & S1 & Hst)|(t1 & a & k & f & e & S1 & Hst & E)];
      rewrite <- Hst in Hs; pose proof (syncing_start _ _ _ _ _ Hs S1) as Hy.
    + by apply syncing_conn.
    + by eapply syncing_ends.
  - eapply conn_after; [exact Hs|]. by eapply tx_flush_ok.
  - destruct Hd as [Hd|]; [|congruence]. unfold tcp_tx_flush. rewrite Hd. apply (conn_dead _ _ _ f); [by left|done].
Qed.

(** ** Close *)

Lemma open_state_no_fin iss w a k f e t :
  st t ∈ [TCP_STATUS_ESTABLISHED; TCP_STATUS_CLOSE_WAIT] -> sending iss w a k f e t ->
  f = false /\ e = false /\ fin_deferred (opt t) = false.
Proof.
  intros Hs S. assert (~ (st t ∈ closing_state)) as Hn.
  { intros H. apply list_elem_of_In in Hs. destruct Hs as [E|[E|[]]]; rewrite <- E in H; nomem H. }
  assert (f = false) as -> by (destruct f; [|done]; exfalso; apply Hn, S; by left).
  split; [done|]. split; [by destruct e; [destruct (sd_e _ _ _ _ _ _ _ S eq_refl)|]|].
  destruct (fin_deferred (opt t)) eqn:E; [|done]. exfalso. apply Hn, S. by right.
Qed.

(** Nothing unsent: SND.NXT is the end of the stream. *)
Lemma all_sent_place iss w a k t : sending iss w a k false false t -> seq_lt (sent_seq t) (buf_end t) = false -> k = zlen w.
Proof.
  intros S H. pose proof (sending_len _ _ _ _ _ _ _ S) as HL. pose proof (sd_range _ _ _ _ _ _ _ S) as R.
  pose proof (sd_limit _ _ _ _ _ _ _ S) as L. change TCP_SNDBUF_APP_HIWAT with 65536 in L.
  revert H. unfold buf_end. rewrite (sd_sent _ _ _ _ _ _ _ S), (sd_head _ _ _ _ _ _ _ S), HL, u32_add_l.
  replace (iss + a + (zlen w - a)) with (iss + zlen w) by lia. cbn [b2z]. rewrite Z.add_0_r.
  unfold seq_lt, i32. cbv zeta. clear -R L HL. bsplit; intros; bprop; warith.
Qed.

(** The close with the FIN queued or deferred, in its new state [s]. *)
Lemma close_fin_ok io w s t (r := close_fin io t) (t2 := tcp_stream_set_status s (set_retries 0 (snd r))) :
  st t ∈ [TCP_STATUS_ESTABLISHED; TCP_STATUS_CLOSE_WAIT] -> s ∈ closing_state -> opened isn w t ->
  (fst r = true -> opened isn w t2) /\ (fst r = false -> opened isn w (snd r)).
Proof.
  intros Hst Hcl [Hsy (a & k & f & e & S)]. destruct (open_state_no_fin _ _ _ _ _ _ _ Hst S) as (-> & -> & Hdf).
  assert (s ∈ synced) as Hss by (unfold synced; rewrite elem_of_app; by right).
  destruct (set_status_view s (set_retries 0 (snd r))) as (Hv & Hp & Hs2 & _). fold t2 in Hv, Hp, Hs2.
  assert (sview t2 = sview (snd r) /\ packets t2 = packets (snd r)) as [Hv2 Hp2] by done. clear Hv Hp.
  apply sview_eq in Hv2 as (V1 & V2 & V3 & V4 & V5). clearbody t2. revert V1 V2 V3 V4 V5 Hp2.
  unfold r, close_fin. destruct (seq_lt _ _) eqn:E.
  - cbn [fst snd]. intros V1 V2 V3 V4 V5 Hp2. split; [|done]. intros _. split; [by rewrite Hs2|].
    exists a, k, false, false. destruct S. split; rewrite ?V1, ?V2, ?V3, ?V4, ?V5, ?Hp2, ?Hs2; done.
  - pose proof (all_sent_place _ _ _ _ _ S E) as ->. unfold queue_control.
    pose proof (quiet_make io fin_flags (sent_seq t) (recv_ack (rx t)) t) as Q.
    pose proof (make_fields io fin_flags (sent_seq t) (recv_ack (rx t)) t) as F.
    destruct (tcp_make_fragment _ _ _ _ _) as [o t1]. cbn [fst snd] in *.
    pose proof (sending_quiet _ _ _ _ _ _ _ _ Q S) as S1. pose proof Q as (Qv & _ & Qs).
    destruct (sview_eq _ _ Qv) as (_ & Qe & _ & Qd & _).
    pose proof (enqueue_view o t1) as V. destruct (tcp_enqueue_fragment o t1) as [ok t3]. cbn [fst snd] in V.
    destruct V as [[Q2 ->]|(g & -> & -> & Hp3 & Hst3 & E1 & E2 & E3 & E4 & E5)]; cbn [fst snd]; intros V1 V2 V3 V4 V5 Hp2.
    + split; [done|]. intros _. eapply opened_quiet; [exact Q2|]. split; [by rewrite Qs|]. by exists a, (zlen w), false, false.
    + split; [|done]. intros _. split; [by rewrite Hs2|]. exists a, (zlen w), true, false.
      destruct (F g eq_refl) as (G1 & _ & _ & G4).
      apply (sending_fin _ _ a t1 t2 g); try done; cbn in V1, V2, V3, V4, V5;
        try (change (packets (set_sent_seq _ t3)) with (packets t3) in Hp2); try congruence.
      change (una (set_sent_seq _ t3)) with (una t3) in V3. congruence.
Qed.

Lemma close_into_ok io w s b t :
  st t ∈ [TCP_STATUS_ESTABLISHED; TCP_STATUS_CLOSE_WAIT] -> s ∈ closing_state -> opened isn w t ->
  conn isn w (snd (close_into io s b t)).
Proof.
  intros Hst Hcl O. unfold close_into. destruct (close_fin_ok io w s t Hst Hcl O) as [H1 H2].
  destruct (close_fin io t) as [ok t1]. cbn [fst snd] in *. destruct ok; cbn [negb].
  2: { eapply opened_ends; [by apply H2|]. apply abort_ends. }
  specialize (H1 eq_refl). cbv zeta. set (t2 := tcp_stream_set_status _ _) in *. clearbody t2.
  assert (quiet t2 (snd (close_arm io t2))) as Q.
  { unfold close_arm. destruct (negb _); [apply quiet_arm_rto|]. destruct (negb _); [apply quiet_arm|done]. }
  destruct (close_arm io t2) as [armed t3]. cbn [snd] in Q. pose proof (opened_quiet _ _ _ _ Q H1) as O3.
  destruct armed; cbn [negb snd]; [|eapply opened_ends; [exact O3|apply abort_ends]].
  set (t4 := if b then _ else t3). assert (opened isn w t4) as O4.
  { unfold t4. destruct b; [|done]. apply opened_rx; [apply drain_recv_status|done]. }
  clearbody t4. apply opened_conn. destruct (fin_deferred _); [by apply opened_emit|done].
Qed.

Lemma dead_drain_free t : ends t (nsock_free (drain_recv (tcp_drain_send t))).
Proof. eapply ends_quiet; [|apply free_ends]. by autorewrite with packets. Qed.

Lemma conn_close io w t : freed t = false -> st t <> TCP_STATUS_SYN_RECV -> conn isn w t ->
  conn isn w (snd (tcp_close io t)).
Proof.
  intros Hf Hnr C. unfold tcp_close. destruct C as [Hs -> S|a k f e Hs S|f Hd Hp].
  - apply list_elem_of_In in Hs. destruct Hs as [E|[E|[]]]; [|congruence]. rewrite <- E. cbv zeta. cbn [snd].
    eapply conn_ends; [|apply syncing_conn; split; [rewrite <- E; mem|exact S]].
    eapply ends_quiet; [|apply dead_drain_free]. autorewrite with packets. by autorewrite with packets.
  - assert (opened isn w t) as O by (split; [done|]; by exists a, k, f, e).
    assert (opened isn w (if linger_enabled t && (close_deadline_cycles t =? 0)
       then set_close_deadline_cycles (deadline_after io (u64 (linger_seconds t * 1000))) t else t)) as O1.
    { destruct (_ && _); [|done]. eapply opened_quiet; [|exact O]. by apply quiet_close_deadline_cycles. }
    assert (st (if linger_enabled t && (close_deadline_cycles t =? 0)
       then set_close_deadline_cycles (deadline_after io (u64 (linger_seconds t * 1000))) t else t) = st t) as Hst
      by (by destruct (_ && _)).
    set (t1 := if linger_enabled t && (close_deadline_cycles t =? 0) then _ else t) in *. clearbody t1.
    destruct (st t) eqn:E; try (exfalso; by nomem Hs); try congruence; cbn [snd];
      (destruct (_ && (linger_seconds t =? 0)); [eapply opened_ends; [exact O|apply abort_ends]|]);
      try (by apply opened_conn).
    + apply close_into_ok; [rewrite Hst; mem|mem|done].
    + apply close_into_ok; [rewrite Hst; mem|mem|done].
  - destruct Hd as [Hd|]; [|congruence]. rewrite Hd. cbn [snd]. eapply conn_ends; [apply dead_drain_free|].
    apply (conn_dead _ _ _ f); [by left|done].
Qed.
End History.
