(* ===== verification/TcpFlush.v ===== *)
(** * Termination of the transmit loop

    [tcp_tx_flush] loops until nothing more can be sent.  Outside SACK
    recovery every round that goes on sends at least one new byte, the
    pending ACK or the deferred FIN, so the rounds are bounded by the unsent
    bytes. *)

From S2P Require Import Prelude Config SeqNum TcpRtt TcpCc SackRange TcpSack TcpOptions OwnerTimer TcpOfo.
From S2P Require Import TcpOfoFacts TcpSndBuf TcpTcb TcpAck TcpTx TcpState TcpSend TcpSendSteps TcpSendTx.

Definition sacking (t : tcb) : Prop := mode (score t) = TCP_RECOVERY_SACK.
Definition unsent (t : tcb) : Z := if seq_lt (sent_seq t) (buf_end t) then u32 (buf_end t - sent_seq t) else 0.

(** The work left to a flush. *)
Definition todo (t : tcb) : Z := unsent t + b2z (ack_pending t) + b2z (fin_deferred (opt t)).

(** No ACK or FIN is added, and SACK recovery is not entered. *)
Record calmer (t t' : tcb) : Prop := {
  cm_fin : fin_deferred (opt t') = fin_deferred (opt t);
  cm_ack : ack_pending t' = true -> ack_pending t = true;
  cm_mode : ~ sacking t -> ~ sacking t'
}.

(** No work is added. *)
Record eases (t t' : tcb) : Prop := {
  es_end : buf_end t' = buf_end t;
  es_sent : sent_seq t' = sent_seq t;
  es_calmer : calmer t t'
}.

#[global] Instance calmer_preorder : PreOrder calmer.
Proof.
  split; [by split|]. intros x y z [A1 A2 A3] [B1 B2 B3]. split; [congruence|auto|auto].
Qed.
#[global] Instance eases_preorder : PreOrder eases.
Proof.
  split; [by split|]. intros x y z [A1 A2 A3] [B1 B2 B3]. split; [congruence|congruence|by etrans].
Qed.

Lemma eases_todo t t' : eases t t' -> todo t' <= todo t.
Proof.
  intros [E1 E2 [E3 E4 _]]. unfold todo, unsent. rewrite E1, E2, E3.
  destruct (ack_pending t'), (ack_pending t); cbn; try lia.
Qed.

Lemma eases_emit e t : eases t (emit e t).
Proof. split; [done|done|by split]. Qed.
Lemma eases_queue q t : eases t (set_tx_queue q t).
Proof. split; [done|done|by split]. Qed.
Lemma eases_ack t : eases t (set_ack_pending false t).
Proof. split; [done|done|by split]. Qed.
Lemma eases_rtt v t : eases t (set_rtt v t).
Proof. split; [done|done|by split]. Qed.
Lemma eases_cc v t : eases t (set_cc v t).
Proof. split; [done|done|by split]. Qed.
Lemma eases_score s t : (~ sacking t -> mode s <> TCP_RECOVERY_SACK) -> eases t (set_score s t).
Proof. intros H. split; [done|done|by split]. Qed.

Lemma history_push_sack b s : sack (tcp_options_history_push b s) = sack s.
Proof. unfold tcp_options_history_push. by repeat bsplit1. Qed.
Lemma recent_valid_sack b s : sack (with_sack_recent_valid b s) = sack s.
Proof. done. Qed.
Lemma dsack_pending_sack b s : sack (with_dsack_pending b s) = sack s.
Proof. done. Qed.
Lemma collect_sack c s : sack (snd (tcp_options_collect_sacks c s)) = sack s.
Proof.
  unfold tcp_options_collect_sacks. cbv zeta. set (u := dsack_pending s && _). clearbody u.
  destruct (if sack_recent_valid s then _ else _); cbn [snd]; rewrite recent_valid_sack, ?history_push_sack;
    destruct u; [apply dsack_pending_sack|reflexivity|apply dsack_pending_sack|reflexivity].
Qed.
Lemma ts_now_sack now s : sack (snd (tcp_options_ts_now now s)) = sack s.
Proof. done. Qed.
Lemma emit_sack_sack s f : sack (snd (tcp_options_emit_sack s f)) = sack s.
Proof.
  unfold tcp_options_emit_sack. destruct (_ || _); [reflexivity|]. set (c := Z.min _ _).
  pose proof (collect_sack c s) as Hc. destruct (tcp_options_collect_sacks c s) as [bl s2]. cbn [snd] in Hc.
  destruct (bool_decide _); exact Hc.
Qed.
Lemma established_sack now s f : sack (snd (tcp_options_apply_established now s f)) = sack s.
Proof.
  unfold tcp_options_apply_established.
  set (p := if timestamps_ok s then tcp_options_ts_now now s else _).
  assert (sack (snd p) = sack s) as Hp.
  { unfold p. destruct (timestamps_ok s); [apply ts_now_sack|reflexivity]. }
  clearbody p. destruct p as [v s1]. cbn [snd] in Hp.
  destruct (if timestamps_ok s then _ else _) as [f1|]; [|exact Hp].
  pose proof (emit_sack_sack s1 f1) as Hc. destruct (tcp_options_emit_sack s1 f1) as [o s2]. cbn [snd] in Hc.
  destruct o; cbn [snd]; congruence.
Qed.

Lemma eases_opt o t : fin_deferred o = fin_deferred (opt t) -> sack o = sack (opt t) -> eases t (opt_store o t).
Proof.
  intros H1 H2. split; [reflexivity|reflexivity|split; [exact H1|exact (fun H => H)|]].
  unfold sacking, score. change (opt (opt_store o t)) with o. rewrite H2. exact (fun H => H).
Qed.
Lemma view_sack t : sack (opt_view t) = sack (opt t).
Proof. reflexivity. Qed.
Lemma view_fin t : fin_deferred (opt_view t) = fin_deferred (opt t).
Proof. reflexivity. Qed.
Lemma opt_core_fin o o' : opt_core o = opt_core o' -> fin_deferred o = fin_deferred o'.
Proof. unfold opt_core. congruence. Qed.

Lemma eases_options io f t (r := tcp_options_apply_established (io_ms io) (opt_view t) f) : eases t (opt_store (snd r) t).
Proof.
  apply eases_opt; unfold r.
  - rewrite <- view_fin. apply opt_core_fin, established_core.
  - rewrite <- view_sack. apply established_sack.
Qed.
Lemma eases_make io flags seq ack t : eases t (snd (tcp_make_fragment io flags seq ack t)).
Proof.
  unfold tcp_make_fragment. destruct (negb _); [done|]. destruct (has_flag _ _); [done|].
  pose proof (eases_options io (blank_frag flags) t) as H. by destruct (tcp_options_apply_established _ _ _).
Qed.
Lemma eases_data_options io t : eases t (snd (data_options io t)).
Proof.
  unfold data_options. pose proof (eases_options io (blank_frag data_flags) t) as H.
  by destruct (tcp_options_apply_established _ _ _).
Qed.
Lemma eases_enqueue o t : eases t (snd (tcp_enqueue_fragment o t)).
Proof.
  unfold tcp_enqueue_fragment, nsock_tcp_tx_enqueue. destruct o as [s|]; [|done]. destruct (tx_full t); [done|].
  cbn [snd]. etrans; [apply eases_queue|apply eases_emit].
Qed.

(** ** Retransmission outside SACK recovery *)

Lemma commit_mode a e q s : mode s <> TCP_RECOVERY_SACK -> mode (tcp_sack_commit_candidate a e q s) <> TCP_RECOVERY_SACK.
Proof.
  intros H. unfold tcp_sack_commit_candidate. cbv zeta. destruct (kind (TcpSack.pending s)); [done| |];
    (destruct (negb _); [done|]).
  - destruct (range_insert _ _ _ _ _ _) as [[ad l] n]. destruct (ad =? UINT32_MAX); [done|].
    repeat (bsplit1; try done).
  - repeat (bsplit1; try done).
Qed.

Lemma commit_clears a e q s :
  seq_lt (cseq (TcpSack.pending s)) q = true -> kind (TcpSack.pending (tcp_sack_commit_candidate a e q s)) = TCP_RECOVERY_TX_NONE.
Proof.
  intros H. unfold tcp_sack_commit_candidate. cbv zeta. destruct (kind (TcpSack.pending s)) eqn:E; [done| |]; rewrite H;
    cbn [negb]; [|done].
  destruct (range_insert _ _ _ _ _ _) as [[ad l] n]. by destruct (ad =? UINT32_MAX).
Qed.

Lemma eases_commit io q t : eases t (tcp_tx_commit io q t).
Proof. apply eases_score. intros H. by apply commit_mode. Qed.
Lemma eases_cancel t : eases t (cancel_candidate t).
Proof. by apply eases_score. Qed.

Lemma schedule_idle t : ~ sacking t -> recovery_schedule t = t.
Proof.
  intros H. unfold recovery_schedule. rewrite (bool_decide_eq_false_2 (mode (score t) = _)) by done.
  by rewrite andb_false_r.
Qed.

Lemma data_options_score io t : score (snd (data_options io t)) = score t.
Proof.
  unfold data_options. pose proof (established_sack (io_ms io) (opt_view t) (blank_frag data_flags)) as H.
  destruct (tcp_options_apply_established _ _ _) as [f o]. cbn [snd] in *. rewrite view_sack in H. exact H.
Qed.

Lemma recovery_send_eases io end_ b t (seq := u32 (cseq (TcpSack.pending (score t)))) (r := recovery_send io seq end_ b t) :
  0 < zlen b <= TCP_MEMORY_CHUNK_SIZE ->
  eases t (snd r) /\ (fst r = TCP_SNDBUF_SENT -> kind (TcpSack.pending (score (snd r))) = TCP_RECOVERY_TX_NONE).
Proof.
  intros Hb. unfold r, recovery_send. cbv zeta. destruct (negb (arp_ok io)); [split; [apply eases_emit|done]|].
  pose proof (eases_data_options io t) as Q. pose proof (data_options_score io t) as Hs.
  destruct (data_options io t) as [o t1]. cbn [snd] in Q, Hs. destruct o as [fr|]; [|done].
  pose proof (u32_range (end_ - seq)) as R1. pose proof (u32_range (tcp_options_data_mss (opt t1) (Some fr))) as R2.
  set (n := Z.min _ _). assert (0 <= n <= TCP_MEMORY_CHUNK_SIZE) as Hn by (unfold n, in_u32 in *; lia). clearbody n.
  destruct (n =? 0) eqn:En; [split; [etrans; [exact Q|apply eases_cancel]|done]|].
  destruct (negb (packet_ok _ _)); [done|]. cbn [fst snd].
  set (t2 := emit _ t1). assert (eases t t2) as Q2 by (etrans; [exact Q|apply eases_emit]).
  assert (score t2 = score t) as Hs2 by exact Hs. clearbody t2.
  set (t3 := set_ack_pending false t2). assert (eases t t3) as Q3 by (etrans; [exact Q2|apply eases_ack]).
  assert (score t3 = score t) as Hs3 by exact Hs2. clearbody t3.
  set (t4 := tcp_tx_commit io _ t3). assert (eases t t4) as Q4 by (etrans; [exact Q3|apply eases_commit]).
  assert (kind (TcpSack.pending (score t4)) = TCP_RECOVERY_TX_NONE) as Hk.
  { apply commit_clears. rewrite Hs3. unfold seq. change TCP_MEMORY_CHUNK_SIZE with 2048 in Hn. clear -Hn En.
    apply Z.eqb_neq in En. unfold seq_lt, i32. cbv zeta. bsplit; warith. }
  clearbody t4. set (t5 := set_rtt _ t4). assert (eases t t5) as Q5 by (etrans; [exact Q4|apply eases_rtt]).
  assert (score t5 = score t4) as Hs5 by done. clearbody t5.
  split; [etrans; [exact Q5|apply eases_cc]|]. intros _. change (score (set_cc _ t5)) with (score t5). by rewrite Hs5.
Qed.

Section Flush.
Context (iss : Z) (v : list Z).
Local Abbreviation sending := (sending iss v).

Lemma recovery_eases a k f e io t (r := tcp_tx_flush_recovery_retransmit io t) :
  sending a k f e t -> ~ sacking t ->
  eases t (snd r) /\ (fst r = TCP_SNDBUF_SENT -> kind (TcpSack.pending (score (snd r))) = TCP_RECOVERY_TX_NONE).
Proof.
  intros S H. unfold r, tcp_tx_flush_recovery_retransmit. cbv zeta. rewrite (schedule_idle t H).
  destruct (negb (bool_decide _)); [done|]. assert (eases t (cancel_candidate t)) as C by apply eases_cancel.
  destruct (_ || _); [done|]. destruct (tcp_sndbuf_peek _ _) as [b|] eqn:E; [|done].
  apply recovery_send_eases. destruct (peek_some _ _ _ (sd_buf _ _ _ _ _ _ _ S) (u32_range _) E) as (j & _ & _ & Hl & _).
  exact Hl.
Qed.

Lemma recovery_nothing io t : ~ sacking t -> kind (TcpSack.pending (score t)) = TCP_RECOVERY_TX_NONE ->
  tcp_tx_flush_recovery_retransmit io t = (TCP_SNDBUF_IDLE, t).
Proof.
  intros H Hk. unfold tcp_tx_flush_recovery_retransmit. cbv zeta. rewrite (schedule_idle t H), Hk. done.
Qed.

(** At most one retransmission is pending outside SACK recovery. *)
Lemma flush_recovery_ends a k f e fuel io n t (r := flush_recovery fuel io n t) :
  (2 <= fuel)%nat -> sending a k f e t -> ~ sacking t -> fst r <> None /\ eases t (snd r).
Proof.
  intros Hf S H. unfold r. clear r. destruct fuel as [|[|fuel]]; [lia|lia|].
  pose proof (recovery_eases _ _ _ _ (io n) t S H) as [Q Hk]. revert Q Hk. cbn [flush_recovery].
  destruct (tcp_tx_flush_recovery_retransmit (io n) t) as [x t1]. cbn [fst snd].
  intros Q Hk. destruct x; try done. rewrite recovery_nothing; [done| |by apply Hk].
  by apply (cm_mode _ _ (es_calmer _ _ Q)).
Qed.

(** ** New data *)

Lemma new_data_mode q s : mode s <> TCP_RECOVERY_SACK -> mode (tcp_sack_note_new_data q s) <> TCP_RECOVERY_SACK.
Proof. intros H. unfold tcp_sack_note_new_data. by repeat (bsplit1; try done). Qed.

Lemma calmer_score s t : (~ sacking t -> mode s <> TCP_RECOVERY_SACK) -> calmer t (set_score s t).
Proof. intros H. apply (eases_score _ _ H). Qed.

Lemma arm_calmer io d t : calmer t (snd (tcp_arm_data_rto io d t)).
Proof. by unfold tcp_arm_data_rto, arm_at; repeat (bsplit1; try done). Qed.

Lemma new_data_calmer io n c cw idle t (r := new_data_sent io n c cw idle t) :
  calmer t (snd r) \/ fst r = TCP_SNDBUF_DESTROYED.
Proof.
  unfold r, new_data_sent. cbv zeta. set (t1 := if idle then _ else t).
  assert (calmer t t1) as Q1 by (unfold t1; destruct idle; by split). clearbody t1.
  set (t2 := set_sent_seq _ _). assert (calmer t t2) as Q2 by (etrans; [exact Q1|by split]). clearbody t2.
  set (t3 := if bool_decide _ then _ else _).
  assert (calmer t t3) as Q3.
  { etrans; [exact Q2|]. unfold t3. destruct (bool_decide _); [apply eases_commit|].
    apply calmer_score. intros H. by apply new_data_mode. }
  clearbody t3. set (t4 := set_score _ t3). assert (calmer t t4) as Q4 by (etrans; [exact Q3|by apply calmer_score]).
  clearbody t4. set (t5 := set_cc _ t4). assert (calmer t t5) as Q5 by (etrans; [exact Q4|by split]). clearbody t5.
  destruct idle; [|by left]. pose proof (arm_calmer io (rto_ms (rtt t5)) (set_retries 0 t5)) as Q6.
  destruct (tcp_arm_data_rto _ _ _) as [ok t6]. cbn [snd] in Q6. destruct ok; [left|by right].
  etrans; [exact Q5|]. etrans; [|exact Q6]. by split.
Qed.

Lemma unsent_left a k f e t : sending a k f e t -> unsent t = zlen v - k.
Proof.
  intros S. unfold unsent. destruct (seq_lt _ _) eqn:E; [by destruct (unsent_place _ _ _ _ _ _ _ S E) as (_ & _ & _ & ?)|].
  pose proof (sending_len _ _ _ _ _ _ _ S) as HL. pose proof (sd_range _ _ _ _ _ _ _ S) as R.
  pose proof (sd_limit _ _ _ _ _ _ _ S) as L. change TCP_SNDBUF_APP_HIWAT with 65536 in L.
  pose proof (sd_f _ _ _ _ _ _ _ S) as Hf. destruct f; [rewrite Hf by done; lia|].
  revert E. unfold buf_end. rewrite (sd_sent _ _ _ _ _ _ _ S), (sd_head _ _ _ _ _ _ _ S), HL, u32_add_l. cbn [b2z].
  replace (iss + a + (zlen v - a)) with (iss + zlen v) by lia. clear -R L HL. unfold seq_lt, i32. cbv zeta.
  intros H. revert H. bsplit; intros; bprop; warith.
Qed.

Lemma congestion_eases t : eases t (snd (congestion_flight t)).
Proof. unfold congestion_flight. destruct (_ || _); [|done]. by apply eases_score. Qed.

(** What an attempt at new data leaves: the same work, or less. *)
Definition progressed (t : tcb) (r : tcp_sndbuf_flush_result * tcb) : Prop :=
  match fst r with
  | TCP_SNDBUF_DESTROYED => True
  | TCP_SNDBUF_SENT => calmer t (snd r) /\ unsent (snd r) < unsent t
  | _ => eases t (snd r)
  end.

Lemma new_data_result io n c cw idle t (r := new_data_sent io n c cw idle t) :
  fst r = TCP_SNDBUF_SENT \/ fst r = TCP_SNDBUF_DESTROYED.
Proof.
  unfold r, new_data_sent. cbv zeta. destruct idle; [|by left].
  destruct (tcp_arm_data_rto _ _ _) as [[] t6]; [by left|by right].
Qed.

Lemma new_data_sent_progress a k f e io n c cw idle t t1 (r := new_data_sent io n c cw idle t1) :
  sending a k f e t -> eases t t1 -> sb t1 = sb t -> 0 < n <= zlen v - k -> progressed t r.
Proof.
  intros S Q Eb Hn. destruct (new_data_fields io n c cw idle t1) as (t2 & F1 & F2 & _ & _ & _ & _ & _ & F8). fold r in F8.
  unfold progressed. destruct (new_data_result io n c cw idle t1) as [R0|R0]; fold r in R0; rewrite R0 in *; [|done].
  destruct (new_data_calmer io n c cw idle t1) as [C|C]; fold r in C; [|congruence]. destruct F8 as [Q2|[D _]]; [|done].
  assert (calmer t (snd r)) as Ct by (etrans; [apply Q|exact C]).
  assert (buf_end (snd r) = buf_end t /\ sent_seq (snd r) = u32 (sent_seq t + n)) as [G1 G2].
  { destruct Q2 as (Hv & _). destruct (sview_eq _ _ Hv) as (B1 & B2 & _). rewrite B2, F2, (es_sent _ _ Q). split; [|done].
    unfold buf_end. by rewrite B1, F1, Eb. }
  assert (unsent (snd r) < unsent t) as Hu.
  { pose proof (unsent_left _ _ _ _ _ S) as U. assert (seq_lt (sent_seq t) (buf_end t) = true) as Hlt.
    { revert U. unfold unsent. destruct (seq_lt _ _); [done|]. lia. }
    destruct (unsent_place _ _ _ _ _ _ _ S Hlt) as (_ & _ & _ & Hd).
    pose proof (sending_len _ _ _ _ _ _ _ S) as HL. pose proof (sd_range _ _ _ _ _ _ _ S) as R.
    pose proof (sd_limit _ _ _ _ _ _ _ S) as L. change TCP_SNDBUF_APP_HIWAT with 65536 in L.
    rewrite U. unfold unsent. rewrite G1, G2. clear -Hd Hn R L HL. bsplit; [|lia]. warith. }
  done.
Qed.

Lemma new_data_progress a k f e io b t :
  sending a k f e t -> seq_lt (sent_seq t) (buf_end t) = true -> tcp_sndbuf_peek (sent_seq t) (sb t) = Some b ->
  progressed t (new_data_send io b t).
Proof.
  intros S Hlt Hp. destruct (unsent_place _ _ _ _ _ _ _ S Hlt) as (-> & -> & Hk & Hun).
  unfold new_data_send. cbv zeta. rewrite Hun.
  pose proof (quiet_congestion t) as Q1. pose proof (congestion_eases t) as E1.
  destruct (congestion_flight t) as [cg t1]. cbn [snd] in Q1, E1.
  destruct (_ <=? cg) eqn:Ew; [exact E1|]. apply Z.leb_gt in Ew.
  pose proof (new_seglen_le (zlen v - k) (Z.min (tcp_cc_send_window (cc t1)) (snd_wnd t1) - cg) (zlen b) t1
    ltac:(lia) ltac:(lia) (zlen_nonneg b)) as Hn0.
  set (n0 := new_seglen _ _ _ _) in *. clearbody n0. destruct (n0 =? 0) eqn:E0; [exact E1|].
  destruct (negb (arp_ok io)); [change (eases t (emit EvArpWait t1)); etrans; [exact E1|apply eases_emit]|].
  pose proof (quiet_data_options io t1) as Q2. pose proof (eases_data_options io t1) as E2.
  destruct (data_options io t1) as [o t2]. cbn [snd] in Q2, E2.
  assert (quiet t t2) as Q by (by etrans). assert (eases t t2) as E by (by etrans). set (fr := default _ o). clearbody fr.
  destruct (negb (nodelay t2) && _ && _ && _ && _); [exact E|].
  pose proof (u32_range (tcp_options_data_mss (opt t2) (Some fr))) as Hm. unfold in_u32 in Hm.
  set (n := Z.min n0 _). destruct (n =? 0) eqn:En; [exact E|].
  assert (0 < n <= n0) as Hnn by (unfold n in *; lia). clearbody n.
  destruct (negb (packet_ok _ _)); [exact E|].
  eapply new_data_sent_progress; [exact S| | |lia].
  - etrans; [exact E|]. etrans; [apply eases_emit|apply eases_ack].
  - destruct Q as (Hv & _). destruct (sview_eq _ _ Hv) as (Eb & _). exact Eb.
Qed.

Lemma flush_sndbuf_progress a k f e io t : sending a k f e t -> progressed t (tcp_tx_flush_sndbuf io t).
Proof.
  intros S. assert (eases t t) as Q by done. unfold tcp_tx_flush_sndbuf.
  destruct (negb (one_of _ _)); [exact Q|]. destruct (_ || _); [exact Q|].
  destruct (seq_lt _ _) eqn:E; [|exact Q]. cbn [negb].
  destruct (tcp_sndbuf_peek _ _) as [b|] eqn:Ep; [|exact Q]. by eapply new_data_progress.
Qed.

(** ** The rounds *)

Lemma eases_requeue s t : eases t (snd (nsock_tcp_tx_requeue_head s t)).
Proof. unfold nsock_tcp_tx_requeue_head. destruct (tx_full t); [done|]. cbn [snd]. split; [done|done|by split]. Qed.

Lemma flush_control_eases q io n t : eases t (snd (flush_control q io n t)).
Proof.
  revert n t. induction q as [|s q IH]; intros n t; [done|]. cbn [flush_control].
  pose proof (eases_queue q t) as Q0. set (t0 := set_tx_queue q t) in *. clearbody t0.
  pose proof (eases_requeue s t0) as Q1. destruct (nsock_tcp_tx_requeue_head s t0) as [ok t1]. cbn [snd] in Q1.
  assert (eases t t1) as Q by (by etrans). destruct (negb (arp_ok _)).
  { destruct ok; [|exact Q]. etrans; [exact Q|apply eases_emit]. }
  destruct (negb (packet_ok _ _)); [exact Q|]. cbv zeta.
  set (t2 := emit _ t0). assert (eases t t2) as Q2 by (etrans; [exact Q0|apply eases_emit]). clearbody t2.
  etrans; [|apply IH]. etrans; [exact Q2|]. destruct (_ && _ && _ && _); [apply eases_ack|done].
Qed.

Lemma eases_arm io d t : eases t (snd (tcp_arm_data_rto io d t)).
Proof. unfold tcp_arm_data_rto, arm_at. destruct (arm_ok io); [|done]. split; [done|done|by split]. Qed.

Lemma fin_counted a k f e t t' :
  sending a k f e t -> fin_ready t = true -> buf_end t' = buf_end t -> sent_seq t' = u32 (sent_seq t + 1) -> unsent t' = 0.
Proof.
  intros S Hf E1 E2. destruct (fin_place _ _ _ _ _ _ _ S Hf) as (-> & -> & -> & Hs & _).
  pose proof (sending_len _ _ _ _ _ _ _ S) as HL. unfold unsent. rewrite E1, E2, Hs. unfold buf_end.
  rewrite (sd_head _ _ _ _ _ _ _ S), HL, u32_add_l. replace (iss + a + (zlen v - a)) with (iss + zlen v) by lia.
  clear. unfold seq_lt, i32. cbv zeta. destruct (_ <? 0) eqn:E; [|done]. exfalso. revert E. bsplit; intros; bprop; warith.
Qed.

Lemma flush_tail_less a k f e io t (r := flush_tail io t) :
  sending a k f e t -> fst r = None -> todo (snd r) < todo t /\ (~ sacking t -> ~ sacking (snd r)).
Proof.
  intros S. unfold r, flush_tail. destruct (ack_pending t) eqn:Ea.
  { pose proof (eases_make io RTE_TCP_ACK_FLAG (sent_seq t) (recv_ack (rx t)) t) as Q1.
    destruct (tcp_make_fragment _ _ _ _ _) as [s t1]. cbn [snd] in Q1. pose proof (eases_enqueue s t1) as Q2.
    destruct (tcp_enqueue_fragment s t1) as [[] t2]; [|done]. cbn [fst snd] in *. intros _.
    assert (eases t t2) as [E1 E2 [E3 E4 E5]] by (by etrans). split; [|exact E5].
    unfold todo, unsent. change (buf_end (set_ack_pending false t2)) with (buf_end t2).
    change (sent_seq (set_ack_pending false t2)) with (sent_seq t2). change (opt (set_ack_pending false t2)) with (opt t2).
    rewrite E1, E2, E3, Ea. cbn. lia. }
  destruct (fin_ready t) eqn:Ef; [|done].
  pose proof (eases_make io fin_flags (sent_seq t) (recv_ack (rx t)) t) as Q1.
  destruct (tcp_make_fragment _ _ _ _ _) as [s t1]. cbn [snd] in Q1. pose proof (eases_enqueue s t1) as Q2.
  destruct (tcp_enqueue_fragment s t1) as [[] t2]; [|done]. cbn [fst snd] in *.
  assert (eases t t2) as [E1 E2 [E3 E4 E5]] by (by etrans). set (t3 := set_fin_deferred false _).
  pose proof (eases_arm io (rto_ms (rtt t2)) t3) as Q3. destruct (tcp_arm_data_rto _ _ _) as [[] t4]; [|done].
  cbn [fst snd] in *. intros _. apply eases_todo in Q3 as H3. split; [|intros H; apply Q3, E5, H].
  eapply Z.le_lt_trans; [exact H3|]. unfold todo. rewrite (fin_counted _ _ _ _ t t3 S Ef); [|exact E1|].
  2:{ change (sent_seq t3) with (u32 (sent_seq t2 + 1)). by rewrite E2. }
  change (ack_pending t3) with (ack_pending t2). change (fin_deferred (opt t3)) with false.
  assert (ack_pending t2 = false) as -> by (destruct (ack_pending t2); [by rewrite E4 in Ea|done]).
  rewrite (unsent_left _ _ _ _ _ S), Ea. pose proof (sd_range _ _ _ _ _ _ _ S).
  unfold fin_ready in Ef. apply andb_true_iff in Ef as [Ef _]. apply andb_true_iff in Ef as [_ ->]. cbn. lia.
Qed.

Lemma flush_loop_ends fuel io n t s :
  still iss v s t -> ~ sacking t -> todo t + 2 <= Z.of_nat fuel -> fst (flush_loop fuel io n t) <> None.
Proof.
  revert n t. induction fuel as [|fuel IH]; intros n t A Hm Hf.
  { destruct A as (a & k & f & e & S & _). pose proof (unsent_left _ _ _ _ _ S). pose proof (sd_range _ _ _ _ _ _ _ S).
    unfold todo in Hf. destruct (ack_pending t), (fin_deferred (opt t)); cbn [b2z] in Hf; lia. }
  destruct A as (a & k & f & e & S & <-). cbn [flush_loop].
  destruct (flush_control_ok _ _ _ _ _ _ (tx_queue t) io n t S eq_refl) as [S1 H1].
  pose proof (flush_control_eases (tx_queue t) io n t) as Q1.
  destruct (flush_control _ io n t) as [[[r|] n1] t1]; cbn [snd] in *; [done|].
  pose proof (cm_mode _ _ (es_calmer _ _ Q1) Hm) as M1. apply eases_todo in Q1.
  assert (0 <= todo t1) as T1.
  { pose proof (unsent_left _ _ _ _ _ S1). pose proof (sd_range _ _ _ _ _ _ _ S1). unfold todo.
    destruct (ack_pending t1), (fin_deferred (opt t1)); cbn [b2z]; lia. }
  destruct (flush_recovery_ok _ _ _ _ _ _ (Datatypes.S fuel) io n1 t1 S1) as [S2 H2].
  destruct (flush_recovery_ends _ _ _ _ (Datatypes.S fuel) io n1 t1 ltac:(lia) S1 M1) as [R2 Q2].
  destruct (flush_recovery _ io n1 t1) as [o t2]. cbn [fst snd] in *. assert (st t2 = st t) as H02 by congruence.
  pose proof (cm_mode _ _ (es_calmer _ _ Q2) M1) as M2. apply eases_todo in Q2.
  destruct o as [[x n2]|]; [|done].
  assert (fst match tcp_tx_flush_sndbuf (io n2) t2 with
    | (TCP_SNDBUF_ARP_WAIT, t3) => (Some SOCK_TX_FLUSH_ARP_WAIT, t3)
    | (TCP_SNDBUF_RETRY, t3) => (Some SOCK_TX_FLUSH_RETRY, t3)
    | (TCP_SNDBUF_DESTROYED, t3) => (Some SOCK_TX_FLUSH_DESTROYED, t3)
    | (TCP_SNDBUF_SENT, t3) => flush_loop fuel io (Datatypes.S n2) t3
    | (TCP_SNDBUF_IDLE, t3) =>
        match flush_tail (io (Datatypes.S n2)) t3 with
        | (None, t4) => flush_loop fuel io (Datatypes.S (Datatypes.S n2)) t4
        | (Some r, t4) => (Some r, t4)
        end
    end <> None) as A3; [|by destruct x].
  pose proof (flush_sndbuf_ok _ _ _ _ _ _ (io n2) t2 S2) as A3. pose proof (flush_sndbuf_progress _ _ _ _ (io n2) t2 S2) as P.
  destruct (tcp_tx_flush_sndbuf (io n2) t2) as [y t3]. unfold progressed in P. cbn [fst snd] in *.
  destruct y; try done.
  - destruct A3 as [A3|[D _]]; [|done]. pose proof (cm_mode _ _ (es_calmer _ _ P) M2) as M3. apply eases_todo in P.
    destruct A3 as (a3 & k3 & f3 & e3 & S3 & H3).
    pose proof (flush_tail_ok _ _ _ _ _ _ (io (Datatypes.S n2)) t3 S3) as A4.
    pose proof (flush_tail_less _ _ _ _ (io (Datatypes.S n2)) t3 S3) as L4.
    destruct (flush_tail _ t3) as [[r|] t4]; cbn [fst snd] in *; [done|]. destruct (L4 eq_refl) as [L4a L4b].
    destruct A4 as [A4|[D _]]; [|done]. apply IH; [by rewrite <- H02, <- H3|by apply L4b|lia].
  - destruct A3 as [A3|[D _]]; [|done]. destruct P as [C P]. apply IH; [by rewrite <- H02|by apply (cm_mode _ _ C)|].
    assert (todo t3 < todo t2); [|lia]. unfold todo. rewrite (cm_fin _ _ C). pose proof (cm_ack _ _ C) as Ca.
    destruct (ack_pending t3), (ack_pending t2); cbn [b2z]; lia.
Qed.
End Flush.
