(* ===== verification/TcpListenFacts.v ===== *)
(** * Correctness of listeners

    What each operation of a child tells its listener, and the invariant of
    the backlog: [syn_pending] counts the half-open children, the accept ring
    holds the others, and every entry of the ring is a live child. *)

From stdpp Require Import gmap.
From S2P Require Import Prelude Config SeqNum TcpRtt TcpCc SackRange TcpSack TcpOptions OwnerTimer TcpOfo.
From S2P Require Import TcpOfoFacts TcpSndBuf TcpTcb TcpAck TcpTx TcpState TcpSend TcpSendSteps TcpSendTx.
From S2P Require Import TcpListen.

(** ** Events that concern the listener *)

Definition mark (e : tcp_event) : bool :=
  match e with EvSynPendingDec | EvAcceptEnqueue | EvFree => true | _ => false end.
Definition marks (t : tcb) : list tcp_event := filter (fun e => mark e = true) (out t).

(** What a listener sees of a child, its state apart. *)
Definition kview (t : tcb) : bool * bool * bool * bool * list tcp_event :=
  (freed t, app_closed t, app_visible t, has_listener t, marks t).
Definition calm (t t' : tcb) : Prop := kview t' = kview t.

#[global] Instance calm_preorder : PreOrder calm.
Proof. split; [done|]. unfold calm. intros x y z. congruence. Qed.

Lemma marks_emit e t : marks (emit e t) = marks t ++ (if mark e then [e] else []).
Proof. unfold marks, emit. cbn. rewrite filter_app. f_equal. cbn. by destruct (mark e) eqn:E; [rewrite decide_True|rewrite decide_False by congruence]. Qed.
Lemma calm_emit e t : mark e = false -> calm t (emit e t).
Proof. intros H. unfold calm, kview. rewrite marks_emit, H, app_nil_r. done. Qed.

(** Setters of the fields a listener does not see. *)
Lemma calm_rx v t : calm t (set_rx v t). Proof. done. Qed.
Lemma calm_opt v t : calm t (set_opt v t). Proof. done. Qed.
Lemma calm_rtt v t : calm t (set_rtt v t). Proof. done. Qed.
Lemma calm_cc v t : calm t (set_cc v t). Proof. done. Qed.
Lemma calm_sb v t : calm t (set_sb v t). Proof. done. Qed.
Lemma calm_sent v t : calm t (set_sent_seq v t). Proof. done. Qed.
Lemma calm_retries v t : calm t (set_retries v t). Proof. done. Qed.
Lemma calm_synr v t : calm t (set_syn_retransmitted v t). Proof. done. Qed.
Lemma calm_timer v t : calm t (set_timer v t). Proof. done. Qed.
Lemma calm_queue v t : calm t (set_tx_queue v t). Proof. done. Qed.
Lemma calm_ackp v t : calm t (set_ack_pending v t). Proof. done. Qed.
Lemma calm_dead v t : calm t (set_close_deadline_cycles v t). Proof. done. Qed.
Lemma calm_gauges v t : calm t (set_gauges v t). Proof. done. Qed.
Lemma calm_tw v t : calm t (set_time_wait v t). Proof. done. Qed.
Lemma calm_registered v t : calm t (set_registered v t). Proof. done. Qed.
Lemma calm_score v t : calm t (set_score v t). Proof. done. Qed.
Lemma calm_una v t : calm t (set_una v t). Proof. done. Qed.
Lemma calm_store o t : calm t (opt_store o t). Proof. done. Qed.
Lemma calm_fault v t : calm t (set_fault v t). Proof. done. Qed.

(** One more setter around a calm state. *)
Ltac calm1 :=
  match goal with
  | |- calm _ (set_rx _ ?u) => transitivity u; [|apply calm_rx]
  | |- calm _ (set_opt _ ?u) => transitivity u; [|apply calm_opt]
  | |- calm _ (set_rtt _ ?u) => transitivity u; [|apply calm_rtt]
  | |- calm _ (set_cc _ ?u) => transitivity u; [|apply calm_cc]
  | |- calm _ (set_sb _ ?u) => transitivity u; [|apply calm_sb]
  | |- calm _ (set_sent_seq _ ?u) => transitivity u; [|apply calm_sent]
  | |- calm _ (set_retries _ ?u) => transitivity u; [|apply calm_retries]
  | |- calm _ (set_syn_retransmitted _ ?u) => transitivity u; [|apply calm_synr]
  | |- calm _ (set_timer _ ?u) => transitivity u; [|apply calm_timer]
  | |- calm _ (set_tx_queue _ ?u) => transitivity u; [|apply calm_queue]
  | |- calm _ (set_ack_pending _ ?u) => transitivity u; [|apply calm_ackp]
  | |- calm _ (set_close_deadline_cycles _ ?u) => transitivity u; [|apply calm_dead]
  | |- calm _ (set_gauges _ ?u) => transitivity u; [|apply calm_gauges]
  | |- calm _ (set_time_wait _ ?u) => transitivity u; [|apply calm_tw]
  | |- calm _ (set_registered _ ?u) => transitivity u; [|apply calm_registered]
  | |- calm _ (set_score _ ?u) => transitivity u; [|apply calm_score]
  | |- calm _ (set_una _ ?u) => transitivity u; [|apply calm_una]
  | |- calm _ (opt_store _ ?u) => transitivity u; [|apply calm_store]
  | |- calm _ (set_fault _ ?u) => transitivity u; [|apply calm_fault]
  | |- calm _ (tcp_tx_commit _ _ ?u) => transitivity u; [|apply calm_score]
  | |- calm _ (cancel_candidate ?u) => transitivity u; [|apply calm_score]
  | |- calm _ (set_fin_deferred _ ?u) => transitivity u; [|apply calm_opt]
  | |- calm _ (emit _ ?u) => transitivity u; [|apply calm_emit; reflexivity]
  end.
Ltac calm := repeat calm1; try assumption; try reflexivity.

Lemma calm_make io flags seq ack t : calm t (snd (tcp_make_fragment io flags seq ack t)).
Proof.
  unfold tcp_make_fragment. destruct (negb _); [done|]. destruct (has_flag _ _); [done|].
  by destruct (tcp_options_apply_established _ _ _).
Qed.
Lemma calm_syn io a b c d f t : calm t (snd (apply_syn io a b c d f t)).
Proof. unfold apply_syn. by destruct (tcp_options_apply_syn _ _ _ _ _ _ _). Qed.
Lemma calm_enqueue o t : calm t (snd (tcp_enqueue_fragment o t)).
Proof.
  unfold tcp_enqueue_fragment, nsock_tcp_tx_enqueue. destruct o as [s|]; [|done]. destruct (tx_full t); [done|].
  cbn [snd]. calm.
Qed.
Lemma calm_data_options io t : calm t (snd (data_options io t)).
Proof. unfold data_options. by destruct (tcp_options_apply_established _ _ _). Qed.
Lemma calm_arm io d t : calm t (snd (arm_at io d t)).
Proof. unfold arm_at. by destruct (arm_ok io). Qed.
Lemma calm_arm_syn io d t : calm t (snd (tcp_arm_syn_timer io d t)).
Proof. apply calm_arm. Qed.
Lemma calm_arm_rto io d t : calm t (snd (tcp_arm_data_rto io d t)).
Proof. unfold tcp_arm_data_rto. cbv zeta. apply calm_arm. Qed.
Lemma calm_unregister t : calm t (nsock_tcp_conn_unregister t).
Proof. unfold nsock_tcp_conn_unregister. destruct (registered t); [|done]. calm. Qed.
Lemma calm_wnd_local a b c d t : calm t (snd (tcp_update_snd_wnd_local a b c d t)).
Proof. unfold tcp_update_snd_wnd_local. by destruct (_ || _). Qed.
Lemma calm_wnd a b c d t : calm t (tcp_update_snd_wnd a b c d t).
Proof.
  unfold tcp_update_snd_wnd. pose proof (calm_wnd_local a b c d t) as H.
  destruct (tcp_update_snd_wnd_local a b c d t) as [[acc need] t1]. cbn [snd] in H. destruct (negb acc); [done|].
  cbv zeta. destruct need; calm.
Qed.
Lemma calm_schedule t : calm t (recovery_schedule t).
Proof. unfold recovery_schedule. destruct (_ && _); [|done]. destruct (tcp_sack_set_pipe _ _ _) as [p s]. cbv zeta. by destruct (_ && _). Qed.
Lemma calm_congestion t : calm t (snd (congestion_flight t)).
Proof. unfold congestion_flight. destruct (_ || _); [|done]. by destruct (tcp_sack_set_pipe _ _ _). Qed.
Lemma calm_set_status s t : calm t (tcp_stream_set_status s t).
Proof.
  unfold tcp_stream_set_status. cbv zeta. set (t1 := if bool_decide _ then t else _).
  assert (calm t t1) as H1 by (unfold t1; by destruct (bool_decide _)). clearbody t1. calm1.
  destruct (_ && _); [|done]. etrans; [exact H1|]. apply calm_unregister.
Qed.
Lemma calm_drain_send t : calm t (tcp_drain_send t).
Proof. unfold tcp_drain_send, sndbuf_reset. by destruct (tcp_sndbuf_reset _ _ _). Qed.
Lemma calm_drain_recv t : calm t (drain_recv t).
Proof. done. Qed.
Lemma calm_data_loss t : calm t (timer_data_loss t).
Proof. done. Qed.
Lemma calm_rst io t : calm t (tcp_try_send_abort_reset io t).
Proof. unfold tcp_try_send_abort_reset. destruct (_ && _); [|done]. cbv zeta. calm. Qed.
(** ** Release and abort *)

Lemma free_marks t (t' := nsock_free t) :
  freed t' = true /\ marks t' = marks t ++ [EvFree].
Proof.
  unfold t', nsock_free. cbv zeta. set (t1 := if bool_decide _ then _ else t).
  assert (calm t t1) as H1 by (unfold t1; destruct (bool_decide _); [apply calm_set_status|done]). clearbody t1.
  set (t2 := tcp_sack_score_clear _). assert (marks t2 = marks t) as H2 by (change (marks t2) with (marks t1); unfold calm, kview in H1; congruence).
  clearbody t2. destruct (tcp_sndbuf_free _ _) as [m b]. split; [done|]. rewrite marks_emit. cbn [mark]. f_equal.
  set (t3 := set_sb b (set_gauges m t2)). assert (marks t3 = marks t) as H3 by done. clearbody t3.
  pose proof (calm_unregister t3) as H4. unfold calm, kview in H4. change (marks (nsock_tcp_conn_unregister t3) = marks t).
  congruence.
Qed.

(** An abort of a child that is past its handshake keeps it for the queue. *)
Lemma abort_waiting io e b t (t' := TcpTcb.tcp_abort_stream io e b t) :
  st t <> TCP_STATUS_SYN_RECV -> app_closed t = false -> calm t t' /\ st t' = TCP_STATUS_CLOSED.
Proof.
  intros Hs Ha. unfold t', tcp_abort_stream. cbv zeta. clear t'. rewrite (bool_decide_eq_false_2 _ Hs). cbn [andb].
  set (t1 := set_close_deadline_cycles 0 _). assert (calm t t1) as H1 by done. clearbody t1.
  set (t2 := if b && _ then _ else t1). assert (calm t t2) as H2
    by (unfold t2; destruct (b && _); [etrans; [exact H1|apply calm_rst]|done]). clearbody t2.
  set (t4 := drain_recv _). assert (calm t t4) as H4.
  { etrans; [exact H2|]. unfold t4. etrans; [|apply calm_drain_recv]. etrans; [|apply calm_drain_send]. apply calm_set_status. }
  assert (st t4 = TCP_STATUS_CLOSED) as Hs4
    by (unfold t4; rewrite st_drain_recv, st_drain_send; apply set_status_view).
  clearbody t4. set (t5 := emit _ _). assert (calm t t5) as H5 by (unfold t5; calm).
  assert (st t5 = st t4) as Hs5 by done. clearbody t5.
  replace (app_closed t5) with false by (unfold calm, kview in H5; congruence). cbn [orb]. split; [done|congruence].
Qed.

(** An abort in the handshake gives back the backlog credit and the block. *)
Lemma abort_half io e b t (t' := TcpTcb.tcp_abort_stream io e b t) :
  st t = TCP_STATUS_SYN_RECV -> has_listener t = true ->
  freed t' = true /\ marks t' = marks t ++ [EvSynPendingDec; EvFree].
Proof.
  intros Hs Hl. unfold t', tcp_abort_stream. cbv zeta. clear t'. rewrite (bool_decide_eq_true_2 _ Hs). cbn [andb].
  set (t1 := set_close_deadline_cycles 0 _). assert (calm t t1) as H1 by done. clearbody t1.
  set (t2 := if b && _ then _ else t1). assert (calm t t2) as H2
    by (unfold t2; destruct (b && _); [etrans; [exact H1|apply calm_rst]|done]). clearbody t2.
  replace (has_listener t2) with true by (unfold calm, kview in H2; congruence).
  set (t3 := emit EvSynPendingDec t2). assert (marks t3 = marks t ++ [EvSynPendingDec]) as H3.
  { unfold t3. rewrite marks_emit. cbn [mark]. f_equal. unfold calm, kview in H2. congruence. }
  clearbody t3. set (t5 := emit _ _). assert (calm t3 t5) as H5.
  { unfold t5. calm. etrans; [|apply calm_drain_recv]. etrans; [|apply calm_drain_send]. apply calm_set_status. }
  clearbody t5. rewrite orb_true_r. destruct (free_marks t5) as [H6 H7]. split; [done|]. rewrite H7.
  replace (marks t5) with (marks t3) by (unfold calm, kview in H5; congruence). rewrite H3, <- app_assoc. done.
Qed.

(** ** Children past the handshake *)

Section Waiting.
Context (vf vv vl : bool) (vm : list tcp_event).

(** Nothing a listener sees changes, and the state stays one of those a child
    in the accept ring may have. *)
Record waiting (t : tcb) : Prop := {
  wt_view : kview t = (vf, false, vv, vl, vm);
  wt_state : st t ∈ [TCP_STATUS_ESTABLISHED; TCP_STATUS_CLOSE_WAIT; TCP_STATUS_CLOSED]
}.

Lemma waiting_calm t t' : calm t t' -> st t' = st t -> waiting t -> waiting t'.
Proof. intros C E [H1 H2]. split; [unfold calm in C; congruence|by rewrite E]. Qed.

Lemma waiting_open t : waiting t -> app_closed t = false.
Proof. intros [H _]. unfold kview in H. congruence. Qed.
Lemma waiting_synced t : waiting t -> st t <> TCP_STATUS_SYN_RECV.
Proof. intros [_ H] E. rewrite E in H. nomem H. Qed.

Lemma waiting_abort io e b t : waiting t -> waiting (TcpTcb.tcp_abort_stream io e b t).
Proof.
  intros W. destruct (abort_waiting io e b t (waiting_synced t W) (waiting_open t W)) as [C E].
  destruct W as [V _]. split; [unfold calm in C; congruence|]. rewrite E. mem.
Qed.

Lemma waiting_status s t : s ∈ [TCP_STATUS_ESTABLISHED; TCP_STATUS_CLOSE_WAIT; TCP_STATUS_CLOSED] ->
  waiting t -> waiting (tcp_stream_set_status s t).
Proof.
  intros Hs [V _]. pose proof (calm_set_status s t) as C. destruct (set_status_view s t) as (_ & _ & E & _).
  split; [unfold calm in C; congruence|by rewrite E].
Qed.

(** A step that only the state machine sees, or an abort. *)
Lemma waiting_if_abort io e b (ok : bool) t : waiting t -> waiting (if ok then t else TcpTcb.tcp_abort_stream io e b t).
Proof. intros W. destruct ok; [done|by apply waiting_abort]. Qed.

(** *** Acknowledgements *)

Lemma ack_progress_calm io ack t : calm t (snd (ack_progress io ack t)) /\ st (snd (ack_progress io ack t)) = st t.
Proof. unfold ack_progress. cbv zeta. by destruct (tcp_sndbuf_remove _ _ _). Qed.
Lemma scoreboard_calm io ack e t : calm t (snd (ack_scoreboard io ack e t)).
Proof. unfold ack_scoreboard. destruct (tcp_sack_update _ _ _ _ _ _) as [r s]. cbn [snd]. by destruct (dsack_valid r). Qed.
Lemma newreno_calm m p a e t : calm t (snd (ack_newreno m p a e t)).
Proof. unfold ack_newreno. by destruct (_ && p); [destruct (negb _)|]. Qed.
Lemma detect_calm p c n e f t : calm t (snd (ack_detect_loss p c n e f t)).
Proof. unfold ack_detect_loss. cbv zeta. repeat (bsplit1; try done). Qed.
Lemma continue_calm p n e t : calm t (ack_continue_recovery p n e t).
Proof. unfold ack_continue_recovery. destruct (mode _); try done. by destruct (p || n). Qed.

Lemma waiting_timer io p t : waiting t -> waiting (snd (ack_timer io p t)).
Proof.
  intros W. unfold ack_timer. destruct (negb p); [done|]. cbv zeta. destruct (una t =? sent_seq t).
  - cbn [snd]. eapply waiting_calm; [| |exact W]; by destruct (one_of _ _).
  - pose proof (calm_arm_rto io (rto_ms (rtt (set_retries 0 t))) (set_retries 0 t)) as C.
    pose proof (quiet_arm_rto io (rto_ms (rtt (set_retries 0 t))) (set_retries 0 t)) as (_ & _ & Q).
    destruct (tcp_arm_data_rto _ _ _) as [ok t2]. cbn [snd] in *.
    assert (waiting t2) as W2 by (eapply waiting_calm; [exact C|exact Q|]; by eapply waiting_calm; [| |exact W]).
    destruct ok; [done|by apply waiting_abort].
Qed.

Lemma waiting_commit io ack c w t : waiting t -> waiting (snd (ack_commit io ack c w t)).
Proof.
  intros W. unfold ack_commit. cbv zeta. set (p := negb (ack =? una t)). set (fe := tcp_sack_payload_flight_end t).
  set (fs := u32 _). set (om := mode _). clearbody fe fs om.
  set (r1 := if p then _ else _). assert (waiting (snd r1)) as W1.
  { unfold r1. destruct p; [|done]. destruct (ack_progress_calm io ack t). by eapply waiting_calm. }
  clearbody r1. destruct r1 as [[acked raw] t1]. cbn [snd] in W1.
  pose proof (scoreboard_calm io ack fe t1) as C2. pose proof (quiet_scoreboard io ack fe t1) as (_ & _ & Q2).
  destruct (ack_scoreboard io ack fe t1) as [res t2]. cbn [snd] in C2, Q2. pose proof (waiting_calm _ _ C2 Q2 W1) as W2.
  pose proof (newreno_calm om p ack fe t2) as C3. pose proof (quiet_newreno om p ack fe t2) as (_ & _ & Q3).
  destruct (ack_newreno _ _ _ _ _) as [[exited partial] t3]. cbn [snd] in C3, Q3. pose proof (waiting_calm _ _ C3 Q3 W2) as W3.
  set (t4 := if p then _ else t3). assert (waiting t4) as W4 by (unfold t4; destruct p; [by eapply waiting_calm; [| |exact W3]|done]).
  clearbody t4. pose proof (detect_calm p c (new_sack_information res) fe fs t4) as C5.
  pose proof (quiet_detect p c (new_sack_information res) fe fs t4) as (_ & _ & Q5).
  destruct (ack_detect_loss _ _ _ _ _ _) as [entered t5]. cbn [snd] in C5, Q5. pose proof (waiting_calm _ _ C5 Q5 W4) as W5.
  set (t6 := ack_continue_recovery _ _ _ t5). assert (waiting t6) as W6
    by (eapply waiting_calm; [apply continue_calm|apply quiet_continue|exact W5]).
  clearbody t6. set (t7 := set_cc _ t6). assert (waiting t7) as W7 by (by eapply waiting_calm; [| |exact W6]). clearbody t7.
  set (t8 := if _ || _ then _ else t7). assert (waiting t8) as W8
    by (unfold t8; destruct (_ || _); [by eapply waiting_calm; [| |exact W7]|done]). clearbody t8.
  pose proof (waiting_timer io p t8 W8) as W9. destruct (ack_timer io p t8) as [ok t9]. cbn [snd] in W9.
  destruct (negb ok); [done|]. cbn [snd]. set (t10 := if p || _ then _ else t9).
  assert (waiting t10) as W10 by (unfold t10; destruct (p || _); [eapply waiting_calm; [calm|done|exact W9]|done]).
  clearbody t10. destruct (_ || _); [|done]. eapply waiting_calm; [calm|done|exact W10].
Qed.

Lemma waiting_ack io ack c w t : waiting t -> waiting (snd (tcp_process_peer_ack_ex io ack c w t)).
Proof.
  intros W. unfold tcp_process_peer_ack_ex. destruct (_ || _); [done|]. destruct w as [[[a b] d]|]; [|by apply waiting_commit].
  pose proof (calm_wnd_local a ack b d t) as C. pose proof (quiet_wnd_local a ack b d t) as (_ & _ & Q).
  destruct (tcp_update_snd_wnd_local _ _ _ _ _) as [w t1]. by apply waiting_commit, (waiting_calm t).
Qed.

(** *** Receiving *)

Lemma waiting_rx r t : status r = st t -> waiting t -> waiting (set_rx r t).
Proof. intros E. by apply waiting_calm. Qed.

Lemma waiting_control io flags seq t : waiting t -> waiting (snd (queue_control io flags seq t)).
Proof.
  intros W. unfold queue_control. pose proof (calm_make io flags seq (recv_ack (rx t)) t) as C.
  pose proof (quiet_make io flags seq (recv_ack (rx t)) t) as (_ & _ & Q).
  destruct (tcp_make_fragment _ _ _ _ _) as [o t1]. cbn [snd] in *.
  eapply waiting_calm; [apply calm_enqueue| |by eapply waiting_calm].
  by destruct (enqueue_view o t1) as [[(_ & _ & ->) _]|(? & _ & _ & _ & -> & _)].
Qed.

Lemma waiting_eof io t : waiting t -> waiting (snd (TcpState.tcp_apply_peer_eof io t)).
Proof.
  intros W. unfold TcpState.tcp_apply_peer_eof. destruct (negb _); [done|]. pose proof (wt_state t W) as Hs.
  destruct (st t) eqn:E; try done; try (exfalso; nomem Hs). cbn [snd]. apply waiting_status; [mem|done].
Qed.

Lemma waiting_receive io h t : waiting t -> waiting (snd (tcp_receive_stream_segment io h t)).
Proof.
  intros W. unfold tcp_receive_stream_segment. cbv zeta. destruct (_ && _); [done|]. destruct (has h _); [done|].
  assert (waiting (snd (TcpState.tcp_receive_stream_range io (in_seq h) (in_data h) (has h RTE_TCP_FIN_FLAG) t))) as W1.
  { unfold TcpState.tcp_receive_stream_range.
    pose proof (receive_range_status (ofo_alloc io) (blob_ok io) (in_seq h) (in_data h) (has h RTE_TCP_FIN_FLAG) (rx t)) as H.
    destruct (receive_range _ _ _ _ _ _) as [ap r]. cbn [snd] in H. pose proof (waiting_rx r t H W) as W0.
    destruct ap; [by apply waiting_eof|done]. }
  destruct (TcpState.tcp_receive_stream_range _ _ _ _ _) as [ok t1]. cbn [snd] in W1. destruct (negb ok); [done|]. cbn [snd].
  set (t2 := if negb (_ =? _) then _ else t1).
  assert (waiting t2) as W2 by (unfold t2; destruct (negb _); [by eapply waiting_calm; [| |exact W1]|done]). clearbody t2.
  set (t3 := if _ && _ && _ && _ && _ && _ then _ else _). assert (waiting t3) as W3.
  { unfold t3. destruct (_ && _ && _ && _ && _ && _); [|by apply waiting_control]. eapply waiting_calm; [calm|done|exact W2]. }
  clearbody t3. destruct (_ || _); [|done]. eapply waiting_calm; [calm|done|exact W3].
Qed.

Lemma waiting_established io h t : waiting t -> waiting (tcp_state_established io h t).
Proof.
  intros W. unfold tcp_state_established. set (r := if has h _ then _ else _).
  assert (waiting (snd r)) as Wr by (unfold r; destruct (has h _); [by apply waiting_ack|done]). clearbody r.
  destruct r as [ok t1]. cbn [snd] in Wr. destruct ok; [by apply waiting_receive|done].
Qed.

Lemma waiting_close_wait io h t : waiting t -> waiting (tcp_state_close_wait io h t).
Proof.
  intros W. unfold tcp_state_close_wait, state_ack, tcp_process_peer_ack. set (r := if has h _ then _ else _).
  assert (waiting (snd r)) as Wr by (unfold r; destruct (has h _); [by apply waiting_ack|done]). clearbody r.
  destruct r as [ok t1]. cbn [snd] in Wr. destruct ok; [by apply waiting_receive|done].
Qed.

Lemma waiting_ingress io h t : st t <> TCP_STATUS_CLOSED -> waiting t -> waiting (tcp_ingress_stream io h t).
Proof.
  intros Hc W. unfold tcp_ingress_stream. destruct (has h _).
  { destruct (tcp_rst_acceptable h t); [by apply waiting_abort|done]. }
  cbv zeta. pose proof (wt_state t W) as Hs. set (t1 := if _ && _ && _ then _ else t).
  assert (waiting t1 /\ st t1 = st t) as [W1 Hst] by (unfold t1; destruct (_ && _ && _); [split; [by eapply waiting_calm; [| |exact W]|done]|done]).
  clearbody t1. destruct (tcp_options_process_inbound _ _ _ _ _ _) as [code o]. set (t2 := opt_store o t1).
  assert (waiting t2) as W2 by (by eapply waiting_calm; [| |exact W1]). clearbody t2.
  destruct (negb _).
  { destruct (_ && _); [|done]. by apply waiting_control, waiting_rx; [unfold tcp_sack_note_duplicate; cbv zeta; by bsplit1|]. }
  destruct (st t) eqn:E; try (exfalso; nomem Hs); try done; [by apply waiting_established|by apply waiting_close_wait].
Qed.

(** *** Timer and transmission *)

Lemma waiting_timer_cb io now t : waiting t -> waiting (tcp_timer_cb io now t).
Proof.
  intros W. unfold tcp_timer_cb. destruct (_ && _); [by apply waiting_abort|]. pose proof (wt_state t W) as Hs.
  assert (waiting (timer_established io t)) as We.
  { unfold timer_established. destruct (_ =? _); [done|]. destruct (_ <=? _); [by apply waiting_abort|]. cbv zeta.
    set (t1 := timer_data_loss _). assert (waiting t1) as W1 by (by eapply waiting_calm; [| |exact W]). clearbody t1.
    unfold rearm_or_abort. pose proof (calm_arm_rto io (rto_ms (rtt t1)) t1) as C.
    pose proof (quiet_arm_rto io (rto_ms (rtt t1)) t1) as (_ & _ & Q). destruct (tcp_arm_data_rto _ _ _) as [ok t2].
    cbn [snd] in *. pose proof (waiting_calm _ _ C Q W1) as W2. destruct ok; [|by apply waiting_abort].
    eapply waiting_calm; [calm|done|exact W2]. }
  destruct (st t) eqn:E; try (exfalso; nomem Hs); done.
Qed.
End Waiting.

(** ** Transmission

    A flush changes nothing a listener sees, unless it aborts. *)
Section Flush.
Context (P : tcb -> Prop).
Hypothesis P_calm : forall t t', calm t t' -> st t' = st t -> P t -> P t'.
Hypothesis P_abort : forall io e b t, st t <> TCP_STATUS_SYN_RECV -> P t -> P (TcpTcb.tcp_abort_stream io e b t).

(** [H : P u], and the goal is [P] of [u] after setters. *)
Ltac by_calm H := match type of H with P ?u => cbn [snd]; apply (P_calm u); [calm|done|exact H] end.

Lemma P_recovery io t : P t -> P (snd (tcp_tx_flush_recovery_retransmit io t)).
Proof.
  intros H. unfold tcp_tx_flush_recovery_retransmit. cbv zeta.
  assert (P (recovery_schedule t)) as H1 by (eapply P_calm; [apply calm_schedule|apply quiet_schedule|exact H]).
  set (t1 := recovery_schedule t) in *. clearbody t1.
  assert (P (cancel_candidate t1)) as Hc by (by_calm H1).
  destruct (negb _); [done|]. destruct (_ || _); [done|]. destruct (tcp_sndbuf_peek _ _) as [b|]; [|done].
  unfold recovery_send. destruct (negb (arp_ok io)); [by_calm H1|]. cbv zeta.
  pose proof (calm_data_options io t1) as C2. pose proof (quiet_data_options io t1) as (_ & _ & Q2).
  destruct (data_options io t1) as [o t2]. cbn [snd] in C2, Q2. pose proof (P_calm _ _ C2 Q2 H1) as H2.
  destruct o as [f|]; [|done]. destruct (_ =? 0); [by_calm H2|].
  destruct (negb _); [done|]. cbn [snd].
  by_calm H2.
Qed.

Lemma P_new_data_sent io n c w i t : st t <> TCP_STATUS_SYN_RECV -> P t -> P (snd (new_data_sent io n c w i t)).
Proof.
  intros Hs H. unfold new_data_sent. cbv zeta. set (t1 := if i then _ else t).
  assert (P t1 /\ st t1 = st t) as [H1 E1] by (unfold t1; destruct i; [split; [by_calm H|done]|done]). clearbody t1.
  set (t2 := set_sent_seq _ _). assert (P t2 /\ st t2 = st t) as [H2 E2] by (split; [by_calm H1|done]).
  clearbody t2. set (t3 := if bool_decide _ then _ else _).
  assert (P t3 /\ st t3 = st t) as [H3 E3]
    by (unfold t3; destruct (bool_decide _); (split; [by_calm H2|done])). clearbody t3.
  set (t4 := set_score _ t3). assert (P t4 /\ st t4 = st t) as [H4 E4] by (split; [by_calm H3|done]).
  clearbody t4. set (t5 := set_cc _ t4). assert (P t5 /\ st t5 = st t) as [H5 E5] by (split; [by_calm H4|done]).
  clearbody t5. destruct i; [|done]. pose proof (calm_arm_rto io (rto_ms (rtt t5)) (set_retries 0 t5)) as C.
  pose proof (quiet_arm_rto io (rto_ms (rtt t5)) (set_retries 0 t5)) as (_ & _ & Q).
  destruct (tcp_arm_data_rto _ _ _) as [ok t6]. cbn [snd] in *.
  assert (P t6) as H6 by (eapply P_calm; [exact C|exact Q|]; by_calm H5).
  assert (st t6 <> TCP_STATUS_SYN_RECV) as Hs6 by (by rewrite Q; change (st t5 <> TCP_STATUS_SYN_RECV); rewrite E5).
  destruct ok; [done|by apply P_abort].
Qed.

Lemma P_sndbuf io t : P t -> P (snd (tcp_tx_flush_sndbuf io t)).
Proof.
  intros H. unfold tcp_tx_flush_sndbuf. destruct (one_of _ _) eqn:Es; cbn [negb]; [|done].
  assert (st t <> TCP_STATUS_SYN_RECV) as Hs
    by (intros E; unfold one_of in Es; apply bool_decide_eq_true in Es; rewrite E in Es; nomem Es). clear Es.
  destruct (_ || _); [done|]. destruct (negb _); [done|]. destruct (tcp_sndbuf_peek _ _) as [b|]; [|done].
  unfold new_data_send. cbv zeta. pose proof (calm_congestion t) as C1. pose proof (quiet_congestion t) as (_ & _ & Q1).
  destruct (congestion_flight t) as [cg t1]. cbn [snd] in *. pose proof (P_calm _ _ C1 Q1 H) as H1.
  destruct (_ <=? _); [done|]. destruct (_ =? 0); [done|]. destruct (negb (arp_ok io)); [by_calm H1|].
  pose proof (calm_data_options io t1) as C2. pose proof (quiet_data_options io t1) as (_ & _ & Q2).
  destruct (data_options io t1) as [o t2]. cbn [snd] in *. pose proof (P_calm _ _ C2 Q2 H1) as H2.
  destruct (_ && _); [done|]. destruct (_ =? 0); [done|]. destruct (negb _); [done|].
  set (t3 := set_ack_pending _ _). assert (P t3) as H3 by (unfold t3; by_calm H2).
  assert (st t3 = st t) as E3 by (change (st t2 = st t); congruence). clearbody t3. apply P_new_data_sent; [by rewrite E3|done].
Qed.

Lemma P_control q io k t : P t -> P (snd (flush_control q io k t)).
Proof.
  revert k t. induction q as [|f q IH]; intros k t H; cbn [flush_control]; [done|]. cbv zeta.
  set (t0 := set_tx_queue q t). assert (P t0) as H0 by (by_calm H). clearbody t0.
  assert (P (snd (nsock_tcp_tx_requeue_head f t0))) as Hr
    by (unfold nsock_tcp_tx_requeue_head; destruct (tx_full t0); [done|by_calm H0]).
  destruct (nsock_tcp_tx_requeue_head f t0) as [ok t1]. cbn [snd] in Hr.
  destruct (negb (arp_ok _)); [destruct ok; [by_calm Hr|done]|].
  destruct (negb (packet_ok _ _)); [done|]. apply IH. set (t2 := emit _ t0).
  assert (P t2) as H2 by (unfold t2; by_calm H0). clearbody t2.
  destruct (_ && _); [by_calm H2|done].
Qed.

Lemma P_recovery_loop fuel io k t : P t -> P (snd (flush_recovery fuel io k t)).
Proof.
  revert k t. induction fuel as [|n IH]; intros k t H; cbn [flush_recovery]; [done|].
  pose proof (P_recovery (io k) t H) as H1. destruct (tcp_tx_flush_recovery_retransmit _ _) as [r t1]. cbn [snd] in H1.
  destruct r; try done. by apply IH.
Qed.

Lemma P_make io flags seq ack t : P t ->
  P (snd (tcp_make_fragment io flags seq ack t)) /\ st (snd (tcp_make_fragment io flags seq ack t)) = st t.
Proof.
  intros H. pose proof (quiet_make io flags seq ack t) as (_ & _ & Q). split; [|done].
  eapply P_calm; [apply calm_make|exact Q|exact H].
Qed.
Lemma P_enqueue o t : P t -> P (snd (tcp_enqueue_fragment o t)) /\ st (snd (tcp_enqueue_fragment o t)) = st t.
Proof.
  intros H. assert (st (snd (tcp_enqueue_fragment o t)) = st t) as E
    by (by destruct (enqueue_view o t) as [[(_ & _ & ->) _]|(? & _ & _ & _ & -> & _)]).
  split; [|done]. by eapply P_calm; [apply calm_enqueue| |exact H].
Qed.

Lemma P_tail io t : P t -> P (snd (flush_tail io t)).
Proof.
  intros H. unfold flush_tail. destruct (ack_pending t).
  - destruct (P_make io RTE_TCP_ACK_FLAG (sent_seq t) (recv_ack (rx t)) t H) as [H1 _].
    destruct (tcp_make_fragment _ _ _ _ _) as [f t1]. cbn [snd] in H1. destruct (P_enqueue f t1 H1) as [H2 _].
    destruct (tcp_enqueue_fragment f t1) as [ok t2]. cbn [snd] in H2. destruct ok; [by_calm H2|done].
  - destruct (fin_ready t) eqn:Ef; [|done].
    assert (st t <> TCP_STATUS_SYN_RECV) as Hs.
    { intros E. unfold fin_ready, one_of in Ef. rewrite E in Ef. done. }
    destruct (P_make io fin_flags (sent_seq t) (recv_ack (rx t)) t H) as [H1 E1].
    destruct (tcp_make_fragment _ _ _ _ _) as [f t1]. cbn [snd] in H1, E1. destruct (P_enqueue f t1 H1) as [H2 E2].
    destruct (tcp_enqueue_fragment f t1) as [ok t2]. cbn [snd] in H2, E2.
    destruct ok; [|apply P_abort; [congruence|done]].
    set (t3 := set_fin_deferred _ _). assert (P t3 /\ st t3 = st t) as [H3 E3]
      by (split; [by_calm H2|change (st t2 = st t); congruence]). 
    pose proof (calm_arm_rto io (rto_ms (rtt t2)) t3) as C. pose proof (quiet_arm_rto io (rto_ms (rtt t2)) t3) as (_ & _ & Q).
    clearbody t3. destruct (tcp_arm_data_rto _ _ _) as [armed t4]. cbn [snd] in *. pose proof (P_calm _ _ C Q H3) as H4.
    destruct armed; [done|]. apply P_abort; [congruence|done].
Qed.

Lemma P_flush fuel io t : P t -> P (snd (tcp_tx_flush fuel io t)).
Proof.
  intros H. unfold tcp_tx_flush. destruct (one_of _ _); [done|]. revert H. generalize 0%nat. revert t.
  induction fuel as [|n IH]; intros t k H; cbn [flush_loop]; [done|].
  pose proof (P_control (tx_queue t) io k t H) as H1. destruct (flush_control _ _ _ _) as [[[r|] k1] t1]; [done|].
  cbn [snd] in H1. pose proof (P_recovery_loop (S n) io k1 t1 H1) as H2.
  destruct (flush_recovery _ _ _ _) as [[[r k2]|] t2]; [|done]. cbn [snd] in H2.
  assert (P (snd (match tcp_tx_flush_sndbuf (io k2) t2 with
    | (TCP_SNDBUF_ARP_WAIT, t3) => (Some SOCK_TX_FLUSH_ARP_WAIT, t3)
    | (TCP_SNDBUF_RETRY, t3) => (Some SOCK_TX_FLUSH_RETRY, t3)
    | (TCP_SNDBUF_DESTROYED, t3) => (Some SOCK_TX_FLUSH_DESTROYED, t3)
    | (TCP_SNDBUF_SENT, t3) => flush_loop n io (S k2) t3
    | (TCP_SNDBUF_IDLE, t3) =>
        match flush_tail (io (S k2)) t3 with
        | (None, t4) => flush_loop n io (S (S k2)) t4
        | (Some r, t4) => (Some r, t4)
        end
    end))) as G; [|by destruct r].
  pose proof (P_sndbuf (io k2) t2 H2) as H3. destruct (tcp_tx_flush_sndbuf _ _) as [r3 t3]. cbn [snd] in H3.
  destruct r3; try done; [|by apply IH]. pose proof (P_tail (io (S k2)) t3 H3) as H4.
  destruct (flush_tail _ _) as [[r4|] t4]; [done|by apply IH].
Qed.
End Flush.

(** ** Children in the handshake *)

Definition child_view (m : list tcp_event) : bool * bool * bool * bool * list tcp_event := (false, false, false, true, m).
Definition queued (t : tcb) : Prop := waiting false false true [] t.
Definition half (t : tcb) : Prop := kview t = child_view [] /\ st t = TCP_STATUS_SYN_RECV.

Lemma child_fields t m : kview t = child_view m ->
  freed t = false /\ app_closed t = false /\ app_visible t = false /\ has_listener t = true /\ marks t = m.
Proof. unfold kview, child_view. by intros [= -> -> -> -> ->]. Qed.

Lemma emit_view m e t : mark e = true -> kview t = child_view m -> kview (emit e t) = child_view (m ++ [e]).
Proof. intros He V. apply child_fields in V as (H1 & H2 & H3 & H4 & H5). unfold kview. rewrite marks_emit, He, H5. cbn. by rewrite H1, H2, H3, H4. Qed.

Lemma half_calm t t' : calm t t' -> st t' = st t -> half t -> half t'.
Proof. intros C E [H1 H2]. split; [unfold calm in C; congruence|congruence]. Qed.

(** What an operation on a half-open child may lead to. *)
Inductive half_outcome (room : bool) (t : tcb) : Prop :=
| half_open : half t -> half_outcome room t
| half_done : room = true -> kview t = child_view [EvSynPendingDec; EvAcceptEnqueue] ->
    st t = TCP_STATUS_ESTABLISHED -> half_outcome room t
| half_released : freed t = true -> marks t = [EvSynPendingDec; EvFree] -> half_outcome room t.

Lemma half_abort room io e b t : half t -> half_outcome room (TcpTcb.tcp_abort_stream io e b t).
Proof.
  intros [V S]. apply child_fields in V as (_ & _ & _ & Hl & Hm). destruct (abort_half io e b t S Hl) as [H1 H2].
  apply half_released; [done|]. by rewrite H2, Hm.
Qed.

Lemma synack_half io t : half t -> half (snd (make_synack io t)).
Proof.
  intros H. unfold make_synack. pose proof (calm_make io synack_flags (sent_seq t) (recv_ack (rx t)) t) as C.
  pose proof (quiet_make io synack_flags (sent_seq t) (recv_ack (rx t)) t) as (_ & _ & Q).
  destruct (tcp_make_fragment _ _ _ _ _) as [[f|] t1]; cbn [snd] in *; [|by eapply half_calm]. cbv zeta.
  pose proof (calm_syn io (wscale_ok (opt t1)) (timestamps_ok (opt t1)) (sack_local_offered (opt t1)) (ts_recent (opt t1)) f t1) as C2.
  pose proof (quiet_apply_syn io (wscale_ok (opt t1)) (timestamps_ok (opt t1)) (sack_local_offered (opt t1)) (ts_recent (opt t1)) f t1) as (_ & _ & Q2).
  destruct (apply_syn _ _ _ _ _ _ _) as [g t2]. cbn [snd] in *. eapply half_calm; [exact C2|exact Q2|]. by eapply half_calm.
Qed.
Lemma enqueue_half o t : half t -> half (snd (tcp_enqueue_fragment o t)).
Proof.
  apply half_calm; [apply calm_enqueue|].
  by destruct (enqueue_view o t) as [[(_ & _ & ->) _]|(? & _ & _ & _ & -> & _)].
Qed.
Lemma arm_syn_half io d t : half t -> half (snd (tcp_arm_syn_timer io d t)).
Proof. intros H. eapply half_calm; [apply calm_arm_syn| |exact H]. apply quiet_arm_syn. Qed.

Lemma synchronised_calm a b c d t (t' := synchronised a b c d t) : calm t t' /\ st t' = TCP_STATUS_ESTABLISHED.
Proof.
  unfold t', synchronised. cbv zeta. clear t'. split; [|apply set_status_view].
  etrans; [|apply calm_set_status]. set (t3 := set_timer None _).
  assert (calm t t3) as H3 by (unfold t3, sndbuf_reset; by destruct (tcp_sndbuf_reset _ _ _)). clearbody t3.
  pose proof (calm_wnd a b c d t3) as H4. set (t4 := tcp_update_snd_wnd _ _ _ _ t3) in *. clearbody t4.
  etrans; [exact H3|]. etrans; [exact H4|]. unfold tcp_cc_init_default. calm.
Qed.

Lemma syn_recv_half io h t : half t -> half_outcome (accept_ok io) (tcp_state_syn_recv io h t).
Proof.
  intros H. unfold tcp_state_syn_recv. destruct (_ && _).
  { pose proof (synack_half io t H) as H1. destruct (make_synack io t) as [f t1]. cbn [snd] in H1. cbv zeta.
    pose proof (enqueue_half f t1 H1) as H2. set (t2 := set_retries 0 _). assert (half t2) as H3 by (by eapply half_calm; [| |exact H2]).
    clearbody t2. pose proof (arm_syn_half io TCP_SYN_RTO_MS t2 H3) as H4. destruct (tcp_arm_syn_timer _ _ _) as [ok t3].
    cbn [snd] in H4. destruct ok; [by apply half_open|by apply half_abort]. }
  destruct (negb _); [by apply half_open|]. destruct (negb _); [by apply half_open|]. cbv zeta.
  destruct (synchronised_calm (in_seq h) (in_ack h) (in_win h) (peer_scale t) (set_retries 0 t)) as [C E].
  assert (calm t (set_retries 0 t)) as C0 by done. set (t1 := synchronised _ _ _ _ _) in *. clearbody t1.
  assert (kview t1 = child_view []) as V1 by (destruct H as [V _]; unfold calm in *; congruence).
  rewrite (proj1 (proj2 (proj2 (proj2 (child_fields t1 [] V1))))). cbn [negb].
  set (t2 := emit _ t1). assert (kview t2 = child_view [EvSynPendingDec] /\ st t2 = TCP_STATUS_ESTABLISHED) as [V2 E2]
    by (split; [by apply (emit_view [])|done]).
  clearbody t2. destruct (accept_ok io) eqn:Ea.
  - apply half_done; [done| |done]. by apply (emit_view [EvSynPendingDec]).
  - set (t3 := drain_recv _). assert (calm t2 t3) as C3.
    { unfold t3. etrans; [|apply calm_drain_recv]. etrans; [|apply calm_drain_send]. unfold tcp_send_reset_for_stream.
      destruct (_ && _); [|done]. cbv zeta. calm. }
    clearbody t3. destruct (free_marks t3) as [F1 F2]. apply half_released; [done|]. rewrite F2.
    unfold calm in C3. rewrite V2 in C3. by destruct (child_fields t3 _ C3) as (_ & _ & _ & _ & ->).
Qed.

Lemma ingress_half io h t : half t -> half_outcome (accept_ok io) (tcp_ingress_stream io h t).
Proof.
  intros H. unfold tcp_ingress_stream. destruct (has h _).
  { destruct (tcp_rst_acceptable h t); [by apply half_abort|by apply half_open]. }
  cbv zeta. destruct (H) as [_ Hs]. rewrite Hs. cbn [bool_decide decide]. 
  set (t1 := if _ && _ && _ then _ else t). assert (half t1) as H1 by (unfold t1; destruct (_ && _ && _); [by eapply half_calm; [| |exact H]|done]).
  clearbody t1. destruct (tcp_options_process_inbound _ _ _ _ _ _) as [code o]. set (t2 := opt_store o t1).
  assert (half t2) as H2 by (by eapply half_calm; [| |exact H1]). clearbody t2. destruct (negb _).
  { rewrite andb_comm. destruct (bool_decide (_ = TCP_STATUS_ESTABLISHED)) eqn:E; [by apply bool_decide_eq_true in E|].
    by apply half_open. }
  by apply syn_recv_half.
Qed.

Lemma timer_half room io now t : half t -> half_outcome room (tcp_timer_cb io now t).
Proof.
  intros H. unfold tcp_timer_cb. destruct (_ && _); [by apply half_abort|]. destruct (H) as [_ Hs]. rewrite Hs.
  unfold timer_syn_recv. destruct (_ <? _).
  - cbv zeta. set (t1 := set_syn_retransmitted _ _). assert (half t1) as H1 by (by eapply half_calm; [| |exact H]). clearbody t1.
    pose proof (synack_half io t1 H1) as H2. destruct (make_synack io t1) as [[f|] t2]; cbn [snd] in H2;
      [|apply half_open; by eapply half_calm; [| |exact H2]].
    pose proof (enqueue_half (Some f) t2 H2) as H3. set (t3 := snd _) in *. clearbody t3. unfold arm_syn_or_abort.
    pose proof (arm_syn_half io (syn_delay (retries t3)) t3 H3) as H4. destruct (tcp_arm_syn_timer _ _ _) as [ok t4].
    cbn [snd] in H4. destruct ok; [by apply half_open|by apply half_abort].
  - cbv zeta. destruct H as [V _]. rewrite (proj1 (proj2 (proj2 (proj2 (child_fields t [] V))))).
    set (t1 := emit _ t). assert (kview t1 = child_view [EvSynPendingDec]) as V1 by (by apply (emit_view [])).
    clearbody t1. set (t2 := tcp_drain_send _). assert (calm t1 t2) as C2.
    { unfold t2. etrans; [|apply calm_drain_send]. etrans; [|apply calm_drain_recv]. calm. }
    clearbody t2. destruct (free_marks t2) as [F1 F2]. apply half_released; [done|]. rewrite F2.
    unfold calm in C2. rewrite V1 in C2. by destruct (child_fields t2 _ C2) as (_ & _ & _ & _ & ->).
Qed.

Lemma flush_half room fuel io t : half t -> half_outcome room (snd (tcp_tx_flush fuel io t)).
Proof.
  intros H. apply half_open. apply P_flush; [intros ? ?; apply half_calm| |done].
  intros io' e b u Hn [_ Hs]. congruence.
Qed.

(** The three operations the owner runs on a child. *)
Inductive child_op : (tcp_io -> tcb -> tcb) -> Prop :=
| op_ingress h : child_op (fun io t => if bool_decide (st t = TCP_STATUS_CLOSED) then t else tcp_ingress_stream io h t)
| op_timer now : child_op (fun io t => tcp_timer_cb io now t)
| op_flush fuel ios : child_op (fun io t => snd (tcp_tx_flush fuel (fun k => with_accept (accept_ok io) (ios k)) t)).

Lemma op_half f io t : child_op f -> half t -> half_outcome (accept_ok io) (f io t).
Proof.
  intros [h|now|fuel ios] H; [|by apply timer_half|by apply flush_half].
  destruct (bool_decide _) eqn:E; [by apply half_open|by apply ingress_half].
Qed.
Lemma op_queued f io t : child_op f -> queued t -> queued (f io t).
Proof.
  intros [h|now|fuel ios] H.
  - destruct (bool_decide _) eqn:E; [done|]. apply bool_decide_eq_false in E. by apply waiting_ingress.
  - by apply waiting_timer_cb.
  - apply P_flush; [intros ? ?; apply waiting_calm|intros ? ? ? ? _; apply waiting_abort|done].
Qed.

(** ** The invariant of a listener *)

Definition child_half (t : tcb) : Prop := half (set_out [] t).
Definition child_queued (t : tcb) : Prop := queued (set_out [] t).

(** [m] is the largest backlog requested so far. *)
Record listening (m : Z) (l : listener) : Prop := {
  lo_status : l_status l = TCP_STATUS_LISTEN;
  lo_ring : exists n, ring_slots l = Some n /\ zlen (accept_queue l) <= n - 1 /\ 2 <= n <= 2147483648;
  lo_peak : backlog l <= m /\ zlen (child_list l) <= m /\ m <= 2147483647;
  lo_children : NoDup (child_list l);
  lo_queue : NoDup (accept_queue l);
  lo_queued id : id ∈ accept_queue l -> id ∈ child_list l /\ exists t, kids l !! id = Some t /\ child_queued t;
  lo_half id : id ∈ child_list l -> id ∉ accept_queue l -> exists t, kids l !! id = Some t /\ child_half t;
  lo_count : syn_pending l + zlen (accept_queue l) = zlen (child_list l)
}.

Lemma settle_marks id t l :
  settle id t l = foldl (child_event id) (with_children (child_list l) (<[id := t]> (kids l)) l) (marks t).
Proof.
  unfold settle, marks. generalize (with_children (child_list l) (<[id := t]> (kids l)) l). clear l.
  induction (out t) as [|e es IH]; intros l; [done|]. cbn [foldl]. rewrite IH.
  rewrite filter_cons. destruct (decide (mark e = true)) as [H|H]; [done|]. by destruct e.
Qed.

Section Invariant.
Context (m : Z).

Lemma queue_below l id : listening m l -> id ∈ child_list l -> id ∉ accept_queue l ->
  zlen (accept_queue l) < zlen (child_list l).
Proof.
  intros [] Hin Hout. unfold zlen. assert (length (id :: accept_queue l) <= length (child_list l))%nat as H.
  { apply submseteq_length, NoDup_submseteq; [by constructor|]. intros x [->|Hx]%list_elem_of_In; [done|].
    apply list_elem_of_In in Hx. by apply lo_queued0. }
  cbn in H. lia.
Qed.

(** A half-open child finds room in an accept ring made for every backlog. *)
Lemma half_room l id n : listening m l -> id ∈ child_list l -> id ∉ accept_queue l -> ring_slots l = Some n -> m <= n - 1 ->
  ring_room l = true.
Proof.
  intros L Hin Hout Hn Hm. pose proof (queue_below l id L Hin Hout). destruct (lo_peak m l L) as (_ & Hc & _).
  unfold ring_room. rewrite Hn. apply Z.ltb_lt. lia.
Qed.

(** A child updated in place. *)
Lemma listening_update l id t t' :
  listening m l -> kids l !! id = Some t -> (child_queued t -> child_queued t') -> (child_half t -> child_half t') ->
  listening m (with_children (child_list l) (<[id := t']> (kids l)) l).
Proof.
  intros [] Hk Hq Hh. split; cbn; try done.
  - intros x Hx. destruct (lo_queued0 x Hx) as (Hc & u & Hu & Hv). split; [done|].
    destruct (decide (x = id)) as [->|Hne]; [|exists u; by rewrite lookup_insert_ne].
    exists t'. rewrite lookup_insert_eq. split; [done|]. apply Hq. congruence.
  - intros x Hx Hn. destruct (lo_half0 x Hx Hn) as (u & Hu & Hv).
    destruct (decide (x = id)) as [->|Hne]; [|exists u; by rewrite lookup_insert_ne].
    exists t'. rewrite lookup_insert_eq. split; [done|]. apply Hh. congruence.
Qed.

Lemma filter_out_length (id : nat) (cs : list nat) : NoDup cs -> id ∈ cs -> zlen (filter (fun x => x <> id) cs) = zlen cs - 1.
Proof.
  induction cs as [|x cs IH]; intros Hn Hin; [by apply not_elem_of_nil in Hin|]. apply NoDup_cons in Hn as [Hx Hn].
  rewrite filter_cons. apply elem_of_cons in Hin as [->|Hin].
  - rewrite decide_False by (intros H; by apply H). assert (filter (fun y => y <> x) cs = cs) as ->.
    { clear IH Hn. induction cs as [|y cs IH]; [done|]. apply not_elem_of_cons in Hx as [Hxy Hx].
      rewrite filter_cons, decide_True by done. by rewrite IH. }
    unfold zlen. cbn. lia.
  - rewrite decide_True by (intros ->; done). unfold zlen in *. cbn. specialize (IH Hn Hin). lia.
Qed.

(** The half-open child [id] is gone, with its credit. *)
Lemma listening_drop l id :
  listening m l -> id ∈ child_list l -> id ∉ accept_queue l -> forall t,
  listening m (foldl (child_event id) (with_children (child_list l) (<[id := t]> (kids l)) l) [EvSynPendingDec; EvFree]).
Proof.
  intros L Hin Hout t. pose proof (queue_below l id L Hin Hout) as Hb. destruct L. cbn [foldl child_event]. unfold pending_dec.
  cbn [with_children syn_pending]. rewrite (proj2 (Z.ltb_lt 0 (syn_pending l))) by lia. split; cbn; try done.
  - rewrite filter_out_length by done. lia.
  - by apply NoDup_filter.
  - intros x Hx. destruct (lo_queued0 x Hx) as (Hc & u & Hu & Hv). assert (x <> id) as Hne by (by intros ->).
    split; [by apply list_elem_of_filter|]. exists u. by rewrite lookup_delete_ne, lookup_insert_ne.
  - intros x [Hne Hx]%list_elem_of_filter Hn. destruct (lo_half0 x Hx Hn) as (u & Hu & Hv).
    exists u. by rewrite lookup_delete_ne, lookup_insert_ne.
  - rewrite filter_out_length by done. lia.
Qed.

(** The half-open child [id] completed its handshake. *)
Lemma listening_done l id t :
  listening m l -> id ∈ child_list l -> id ∉ accept_queue l -> child_queued t -> ring_room l = true ->
  listening m (foldl (child_event id) (with_children (child_list l) (<[id := t]> (kids l)) l) [EvSynPendingDec; EvAcceptEnqueue]).
Proof.
  intros L Hin Hout Ht Hr. pose proof (queue_below l id L Hin Hout) as Hb. destruct L. cbn [foldl child_event]. unfold pending_dec.
  cbn [with_children syn_pending]. rewrite (proj2 (Z.ltb_lt 0 (syn_pending l))) by lia. split; cbn; try done.
  - destruct lo_ring0 as (n & Hn & _ & ?). exists n. unfold ring_room in Hr. rewrite Hn in Hr. apply Z.ltb_lt in Hr.
    rewrite zlen_app. change (zlen [id]) with 1. split_and!; [done|lia..].
  - apply NoDup_app. split_and!; [done|intros x Hx Hy|apply NoDup_singleton]. apply list_elem_of_singleton in Hy. by subst.
  - intros x [Hx| ->%list_elem_of_singleton]%elem_of_app; [|split; [done|]; exists t; by rewrite lookup_insert_eq].
    destruct (lo_queued0 x Hx) as (Hc & u & Hu & Hv). split; [done|].
    exists u. rewrite lookup_insert_ne by (by intros ->). done.
  - intros x Hx Hn. apply not_elem_of_app in Hn as [Hn Hne]. destruct (lo_half0 x Hx Hn) as (u & Hu & Hv).
    exists u. rewrite lookup_insert_ne; [done|]. intros ->. by apply Hne, list_elem_of_singleton.
  - rewrite zlen_app. change (zlen [id]) with 1. lia.
Qed.

Lemma view_clear t es : kview t = child_view es -> kview (set_out [] t) = child_view [].
Proof. intros V. apply child_fields in V as (H1 & H2 & H3 & H4 & _). unfold kview. cbn. by rewrite H1, H2, H3, H4. Qed.

Lemma run_child_ok f io id l : listening m l -> child_op f -> id ∈ child_list l -> listening m (run_child f io id l).
Proof.
  intros L Hf Hin. unfold run_child. destruct (kids l !! id) as [t|] eqn:Hk; [|done]. rewrite settle_marks.
  destruct (decide (id ∈ accept_queue l)) as [Hq|Hq].
  - destruct (lo_queued m l L id Hq) as (_ & u & Hu & Hv). rewrite Hk in Hu. injection Hu as <-.
    pose proof (op_queued f (with_accept (ring_room l) io) _ Hf Hv) as W. set (t1 := f _ _) in *. clearbody t1.
    destruct (child_fields t1 [] (wt_view _ _ _ _ _ W)) as (_ & _ & _ & _ & ->). cbn [foldl].
    apply (listening_update l id t t1 L Hk).
    + intros _. split; [exact (view_clear t1 [] (wt_view _ _ _ _ _ W))|exact (wt_state _ _ _ _ _ W)].
    + intros [_ H]. exfalso. destruct Hv as [_ Hs]. rewrite H in Hs. nomem Hs.
  - destruct (lo_half m l L id Hin Hq) as (u & Hu & Hv). rewrite Hk in Hu. injection Hu as <-.
    destruct (op_half f (with_accept (ring_room l) io) _ Hf Hv) as [Hh|R V E|Hfr Hm]; set (t1 := f _ _) in *; clearbody t1.
    + destruct (child_fields t1 [] (proj1 Hh)) as (_ & _ & _ & _ & ->). cbn [foldl]. apply (listening_update l id t t1 L Hk).
      * intros [_ H]. exfalso. destruct Hv as [_ Hs]. rewrite Hs in H. nomem H.
      * intros _. split; [exact (view_clear t1 [] (proj1 Hh))|exact (proj2 Hh)].
    + destruct (child_fields t1 _ V) as (_ & _ & _ & _ & ->). apply listening_done; try done.
      split; [exact (view_clear t1 _ V)|]. change (st (set_out [] t1)) with (st t1). rewrite E. mem.
    + rewrite Hm. by apply listening_drop.
Qed.

(** ** Operations of the listener *)

Lemma listening_ext l l' :
  listening m l -> l_status l' = l_status l -> backlog l' = backlog l -> syn_pending l' = syn_pending l ->
  ring_slots l' = ring_slots l -> accept_queue l' = accept_queue l -> child_list l' = child_list l ->
  (forall id, id ∈ child_list l -> kids l' !! id = kids l !! id) -> listening m l'.
Proof.
  intros [] E1 E2 E3 E4 E5 E6 E7. split; rewrite ?E1, ?E2, ?E3, ?E4, ?E5, ?E6; try done.
  - intros x Hx. destruct (lo_queued0 x Hx) as (Hc & u & Hu & Hv). split; [done|]. exists u. by rewrite E7.
  - intros x Hx Hn. destruct (lo_half0 x Hx Hn) as (u & Hu & Hv). exists u. by rewrite E7.
Qed.

Lemma filter_every (Q : nat -> Prop) `{dec : !forall x, Decision (Q x)} (cs : list nat) : (forall x, x ∈ cs -> Q x) -> filter Q cs = cs.
Proof.
  induction cs as [|y cs IH]; intros H; [done|]. rewrite filter_cons, decide_True by (apply H; set_solver).
  rewrite IH; [done|]. intros x Hx. apply H. set_solver.
Qed.
Lemma filter_none (Q : nat -> Prop) `{dec : !forall x, Decision (Q x)} (cs : list nat) : (forall x, x ∈ cs -> ~ Q x) -> filter Q cs = [].
Proof.
  induction cs as [|y cs IH]; intros H; [done|]. rewrite filter_cons, decide_False by (apply H; set_solver).
  apply IH. intros x Hx. apply H. set_solver.
Qed.
Lemma filter_absent (id : nat) (cs : list nat) : id ∉ cs -> filter (fun x => x <> id) cs = cs.
Proof. intros H. apply filter_every. by intros x Hx ->. Qed.

(** A fresh half-open child is added. *)
Lemma listening_add l id u (l' := with_syn_pending (syn_pending l + 1)
    (with_children (child_list l ++ [id]) (<[id := u]> (kids l)) l)) :
  listening m l -> id ∉ child_list l -> child_half u -> syn_pending l + zlen (accept_queue l) < backlog l -> listening m l'.
Proof.
  intros [] Hid Hu Hroom. unfold l'. split; cbn; try done.
  - rewrite zlen_app. change (zlen [id]) with 1. lia.
  - apply NoDup_app. split_and!; [done|intros x Hx ->%list_elem_of_singleton; done|apply NoDup_singleton].
  - intros x Hx. destruct (lo_queued0 x Hx) as (Hin & v & Hv & Hq). split; [apply elem_of_app; by left|].
    exists v. rewrite lookup_insert_ne by (intros ->; done). done.
  - intros x [Hx| ->%list_elem_of_singleton]%elem_of_app Hn'; [|exists u; by rewrite lookup_insert_eq].
    destruct (lo_half0 x Hx Hn') as (v & Hv & Hh). exists v. rewrite lookup_insert_ne by (intros ->; done). done.
  - rewrite zlen_app. change (zlen [id]) with 1. lia.
Qed.

Lemma create_half e t : tcp_stream_create e = Some t -> half (set_out [] (set_has_listener true t)).
Proof.
  unfold tcp_stream_create. destruct (_ || _); [done|]. intros [= <-]. cbv zeta. unfold open_reset. cbv zeta.
  set (t1 := set_registered _ _). assert (kview (set_out [] (set_has_listener true t1)) = child_view [] /\ st t1 = TCP_STATUS_SYN_RECV)
    as [V S] by done. clearbody t1. split; [|done]. exact V.
Qed.

Lemma open_child_outcome io h t : half t ->
  match open_child io h t with Some (_, t1) => half_outcome false t1 | None => True end.
Proof.
  intros H. unfold open_child. cbv zeta. set (t1 := store_opt _ t).
  assert (half t1) as H1 by (by eapply half_calm; [| |exact H]). clearbody t1. destruct (negb _); [done|].
  assert (half (snd (first_synack io (in_seq h) t1))) as H2.
  { unfold first_synack. cbv zeta. set (f := mk_seg _ _ _ _ _ _). clearbody f.
    pose proof (calm_syn io (wscale_ok (opt t1)) (timestamps_ok (opt t1)) true (ts_recent (opt t1)) f t1) as C.
    pose proof (quiet_apply_syn io (wscale_ok (opt t1)) (timestamps_ok (opt t1)) true (ts_recent (opt t1)) f t1) as (_ & _ & Q).
    destruct (apply_syn _ _ _ _ _ _ _) as [g t2]. cbn [snd] in *.
    eapply half_calm; [apply calm_rx| |]; [|by eapply half_calm]. done. }
  destruct (first_synack _ _ _) as [f t2]. cbn [snd] in H2. pose proof (enqueue_half (Some f) t2 H2) as H3.
  destruct (tcp_enqueue_fragment _ _) as [ok t3]. cbn [snd] in H3. destruct (negb ok); [done|].
  set (t4 := set_retries 0 t3). assert (half t4) as H4 by (by eapply half_calm; [| |exact H3]). clearbody t4.
  pose proof (arm_syn_half io TCP_SYN_RTO_MS t4 H4) as H5. destruct (tcp_arm_syn_timer _ _ _) as [armed t5]. cbn [snd] in H5.
  destruct armed; [by apply half_open|by apply half_abort].
Qed.

Lemma listening_settle l id u t1 (l1 := with_syn_pending (syn_pending l + 1)
    (with_children (child_list l ++ [id]) (<[id := u]> (kids l)) l)) :
  listening m l -> id ∉ child_list l -> child_half u -> syn_pending l + zlen (accept_queue l) < backlog l ->
  half_outcome false t1 -> listening m (settle id t1 l1).
Proof.
  intros L Hid Hu Hroom Ho. rewrite settle_marks.
  pose proof (listening_add l id u L Hid Hu Hroom) as L1. fold l1 in L1.
  assert (id ∈ child_list l1) as Hin by (apply elem_of_app; right; by apply list_elem_of_singleton).
  assert (id ∉ accept_queue l1) as Hout by (intros Hx; by destruct (lo_queued m l L id Hx)).
  destruct Ho as [H|R _ _|_ M]; [|done|].
  - destruct (child_fields t1 [] (proj1 H)) as (_ & _ & _ & _ & ->). cbn [foldl].
    apply (listening_update l1 id u t1 L1); [cbn; by rewrite lookup_insert_eq| |].
    + intros [_ Hs]. destruct Hu as [_ E]. rewrite E in Hs. nomem Hs.
    + intros _. split; [exact (view_clear t1 [] (proj1 H))|exact (proj2 H)].
  - rewrite M. by apply listening_drop.
Qed.

Lemma listen_syn_ok io e h l : listening m l -> kids l !! syn_slot e = None -> listening m (snd (tcp_state_listen io e h l)).
Proof.
  intros L Hk. unfold tcp_state_listen. destruct (_ || _); [done|]. destruct (negb _); [done|].
  destruct (bool_decide _); [done|]. destruct (backlog l <=? _) eqn:Eb; [done|]. apply Z.leb_gt in Eb.
  destruct (tcp_stream_create e) as [t|] eqn:Ec; [|done]. cbv zeta. set (id := syn_slot e) in *.
  assert (id ∉ child_list l) as Hid.
  { intros Hin. destruct (decide (id ∈ accept_queue l)) as [Hq|Hq];
      [destruct (lo_queued m l L id Hq) as (_ & u & Hu & _)|destruct (lo_half m l L id Hin Hq) as (u & Hu & _)]; congruence. }
  assert (syn_pending l + zlen (accept_queue l) < backlog l) as Hroom.
  { destruct (lo_peak m l L) as (Hb & Hc & Hmax). rewrite (lo_count m l L) in *. pose proof (zlen_nonneg (child_list l)).
    rewrite u32_small in Eb by (wunfold; lia). lia. }
  pose proof (create_half e t Ec) as Hh. pose proof (open_child_outcome io h _ Hh) as Ho.
  unfold tcp_listener_child_attach, tcp_listener_child_detach. cbn [with_children child_list kids syn_pending with_syn_pending].
  rewrite filter_absent by done. destruct (open_child _ _ _) as [[armed t1]|]; cbn [snd].
  - pose proof (listening_settle l id (set_has_listener true t) t1 L Hid Hh Hroom Ho) as R. revert R. rewrite !settle_marks.
    cbn [with_children with_syn_pending child_list kids syn_pending]. rewrite insert_insert_eq.
    intros R. match goal with |- listening m (foldl _ ?a _) => match type of R with listening m (foldl _ ?b _) =>
      assert (a = b) as ->; [|exact R] end end.
    unfold with_children, with_syn_pending. cbn. f_equal. by rewrite !insert_alter_eq, insert_insert_eq.
  - eapply (listening_ext l _ L); cbn; try done; [lia|rewrite filter_app, filter_absent by done; cbn;
      rewrite decide_False by (intros H; by apply H); by rewrite app_nil_r|].
    intros x Hx. assert (x <> id) by (intros ->; done).
    by rewrite lookup_delete_ne, !lookup_alter_ne, lookup_insert_ne.
Qed.

(** The first child of the queue leaves it and the list of children. *)
Lemma listening_pop l id q k :
  listening m l -> accept_queue l = id :: q -> (forall x, x <> id -> k !! x = kids l !! x) ->
  listening m (with_children (filter (fun x => x <> id) (child_list l)) k (with_ring (ring_slots l) q l)).
Proof.
  intros L Eq Hk. destruct L. rewrite Eq in *. apply NoDup_cons in lo_queue0 as [Hid Hq].
  destruct (lo_queued0 id ltac:(apply elem_of_cons; by left)) as [Hin _]. split; cbn; try done.
  - destruct lo_ring0 as (n & ? & Hq1 & ?). exists n. unfold zlen in Hq1 |- *. cbn in Hq1. split_and!; [done|lia..].
  - rewrite filter_out_length by done. lia.
  - by apply NoDup_filter.
  - intros x Hx. assert (x <> id) as Hne by (by intros ->).
    destruct (lo_queued0 x ltac:(apply elem_of_cons; by right)) as (Hc & u & Hu & Hv).
    split; [by apply list_elem_of_filter|]. exists u. by rewrite Hk.
  - intros x [Hne Hx]%list_elem_of_filter Hn. destruct (lo_half0 x Hx ltac:(by apply not_elem_of_cons)) as (u & Hu & Hv).
    exists u. by rewrite Hk.
  - rewrite filter_out_length by done. unfold zlen in *. cbn in lo_count0. lia.
Qed.

Lemma release_one l id t : kids l !! id = Some t -> kview (set_out [] t) = child_view [] ->
  exists k, release_child id l = with_children (filter (fun x => x <> id) (child_list l)) k l /\
    k !! id = None /\ (forall x, x <> id -> k !! x = kids l !! x).
Proof.
  intros Hk V0. unfold release_child, run_child. rewrite Hk, settle_marks. set (t1 := nsock_free _).
  assert (marks t1 = [EvFree]) as ->.
  { unfold t1. destruct (free_marks (drain_recv (tcp_drain_send (set_out [] t)))) as [_ ->].
    pose proof (calm_drain_send (set_out [] t)) as C1. pose proof (calm_drain_recv (tcp_drain_send (set_out [] t))) as C2.
    assert (kview (drain_recv (tcp_drain_send (set_out [] t))) = child_view []) as V by (unfold calm, child_view in *; congruence).
    by destruct (child_fields _ _ V) as (_ & _ & _ & _ & ->). }
  clearbody t1. cbn [foldl child_event]. eexists. split; [done|]. split; [cbn; by rewrite lookup_delete_eq|]. intros x Hx. cbn.
  by rewrite lookup_delete_ne, lookup_insert_ne.
Qed.

(** Closing releases children one after the other. *)
Definition releasable (l : listener) (id : nat) : Prop := exists t, kids l !! id = Some t /\ kview (set_out [] t) = child_view [].

Lemma release_many ids l (release : nat -> listener -> listener) :
  (forall id l, releasable l id -> release id l = release_child id l) -> NoDup ids -> Forall (releasable l) ids ->
  exists k, foldl (fun l id => release id l) l ids = with_children (filter (fun x => x ∉ ids) (child_list l)) k l /\
    (forall id, id ∈ ids -> k !! id = None) /\ (forall x, x ∉ ids -> k !! x = kids l !! x).
Proof.
  intros Hr. revert l. induction ids as [|id ids IH]; intros l Hn Hf; cbn [foldl].
  - exists (kids l). split_and!; [|by intros ? ?%not_elem_of_nil|done].
    assert (filter (fun x => x ∉ []) (child_list l) = child_list l) as -> by (apply filter_every; intros; apply not_elem_of_nil). by destruct l.
  - apply NoDup_cons in Hn as [Hid Hn]. apply Forall_cons in Hf as [Hi Hf]. rewrite Hr by done.
    destruct Hi as (t & Hk & V). destruct (release_one l id t Hk V) as (k & -> & Hnone & Hsame).
    destruct (IH (with_children (filter (fun x => x <> id) (child_list l)) k l)) as (k2 & -> & Hn2 & Hs2); [done| |].
    { rewrite Forall_forall in *. intros x Hx. destruct (Hf x Hx) as (u & Hu & Hv). exists u. split; [|done]. cbn. rewrite Hsame; [done|]. by intros ->. }
    cbn [with_children child_list kids] in *. exists k2. split_and!.
    + unfold with_children. cbn. f_equal. rewrite list_filter_filter. apply list_filter_iff. intros x. rewrite not_elem_of_cons. tauto.
    + intros x [->|Hx]%elem_of_cons; [|by apply Hn2]. by rewrite Hs2.
    + intros x [Hx1 Hx2]%not_elem_of_cons. by rewrite Hs2, Hsame.
Qed.

(** The queue's entries that are not closed, and their order. *)
Definition live_child (l : listener) (id : nat) : Prop := exists t, kids l !! id = Some t /\ st t <> TCP_STATUS_CLOSED.

Lemma accept_loop_ok q l : listening m l -> accept_queue l = q ->
  let r := accept_loop q l in listening m (snd r) /\
  match fst r with
  | inr id => (exists dead rest, q = dead ++ id :: rest /\ Forall (fun x => ~ live_child l x) dead /\ live_child l id /\
      (id ∉ child_list (snd r)) /\ accept_queue (snd r) = rest)
  | inl _ => Forall (fun x => ~ live_child l x) q /\ accept_queue (snd r) = []
  end.
Proof.
  revert l. induction q as [|id q IH]; intros l L Eq; cbn [accept_loop]; [by split_and!|]. cbv zeta.
  cbn [kids with_ring]. destruct (lo_queued m l L id ltac:(rewrite Eq; apply elem_of_cons; by left)) as (Hin & t & Hk & Hq).
  rewrite Hk. destruct (bool_decide _) eqn:E; [apply bool_decide_eq_true in E|apply bool_decide_eq_false in E].
  - destruct (release_one (with_ring (ring_slots l) q l) id t Hk (wt_view _ _ _ _ _ Hq)) as (k & -> & _ & Hsame).
    cbn [with_ring child_list kids] in *.
    set (l1 := with_children _ _ _). assert (listening m l1) as L1 by (by apply (listening_pop l id q k L Eq)).
    assert (NoDup (id :: q)) as Hnd by (rewrite <- Eq; apply L). apply NoDup_cons in Hnd as [Hid _].
    assert (forall x, x ∈ q -> live_child l1 x <-> live_child l x) as Hlive.
    { intros x Hx. unfold live_child, l1. cbn. rewrite Hsame; [done|]. by intros ->. }
    assert (~ live_child l id) as Hdead by (intros (u & Hu & Hne); congruence).
    specialize (IH l1 L1 eq_refl). cbv zeta in IH. destruct (accept_loop q l1) as [[e|x] l2]; cbn [fst snd] in *.
    + destruct IH as (H1 & H2 & H3). split_and!; [done| |done]. constructor; [done|].
      apply Forall_forall. intros x Hx. rewrite Forall_forall in H2. rewrite <- Hlive by done. by apply H2.
    + destruct IH as (H1 & dead & rest & -> & H2 & H3 & H4 & H5). split; [done|]. exists (id :: dead), rest.
      split_and!; try done.
      * constructor; [done|]. apply Forall_forall. intros y Hy. rewrite Forall_forall in H2.
        rewrite <- Hlive by (apply elem_of_app; by left). by apply H2.
      * apply Hlive; [|done]. apply elem_of_app. right. apply elem_of_cons. by left.
  - cbn [fst snd]. split.
    + unfold tcp_listener_child_detach. cbn [with_ring child_list kids].
      apply (listening_pop l id q _ L Eq). intros x Hx. by rewrite lookup_alter_ne.
    + exists [], q. split_and!; try done; [by exists t|]. cbn. intros [? _]%list_elem_of_filter. done.
Qed.

(** Closing leaves no child. *)
Lemma child_releasable l id : listening m l -> id ∈ child_list l -> exists t, kids l !! id = Some t /\ kview (set_out [] t) = child_view [].
Proof.
  intros L Hin. destruct (decide (id ∈ accept_queue l)) as [Hq|Hq].
  - destruct (lo_queued m l L id Hq) as (_ & t & Hk & Hv). exists t. split; [done|]. apply (wt_view _ _ _ _ _ Hv).
  - destruct (lo_half m l L id Hin Hq) as (t & Hk & Hv & _). by exists t.
Qed.

Lemma release_all_fold ids l :
  release_all ids l = foldl (fun l id => match kids l !! id with
    | Some t => if app_visible t then tcp_listener_child_detach id l else release_child id l | None => l end) l ids.
Proof. revert l. by induction ids as [|id ids IH]; intros l; cbn; [|rewrite IH]. Qed.

Lemma close_listener_ok l (l' := tcp_close_listener l) :
  listening m l -> child_list l' = [] /\ accept_queue l' = [] /\ syn_pending l' = 0 /\ (forall id, id ∈ child_list l -> kids l' !! id = None).
Proof.
  intros L. unfold l', tcp_close_listener. clear l'.
  destruct (release_many (accept_queue l) l (fun id l => release_child id l)) as (k & -> & Hn & Hs); [done|apply L| |].
  { apply Forall_forall. intros id Hid. apply child_releasable; [done|]. by destruct (lo_queued m l L id Hid). }
  set (rest := filter (fun x => x ∉ accept_queue l) (child_list l)).
  set (l2 := with_ring None [] (with_children rest k l)). cbv zeta. change (child_list l2) with rest. rewrite release_all_fold.
  destruct (release_many rest l2 (fun id l => match kids l !! id with
    | Some t => if app_visible t then tcp_listener_child_detach id l else release_child id l | None => l end)) as (k2 & -> & Hn2 & Hs2).
  - intros id l3 (t & Hk & V). rewrite Hk. destruct (child_fields _ _ V) as (_ & _ & Hv & _). change (app_visible t = false) in Hv. by rewrite Hv.
  - apply NoDup_filter, L.
  - apply Forall_forall. intros id [Hq Hin]%list_elem_of_filter. destruct (child_releasable l id L Hin) as (t & Hk & V).
    exists t. split; [|done]. cbn. by rewrite Hs.
  - cbn. split_and!; [by apply filter_none; intros x Hx Hnx|done|done|]. intros id Hin.
    destruct (decide (id ∈ accept_queue l)) as [Hq|Hq].
    + rewrite Hs2; [by apply Hn|]. by intros [? _]%list_elem_of_filter.
    + apply Hn2. by apply list_elem_of_filter.
Qed.
End Invariant.

(** ** Histories *)

Section Listening.
Context (rte_align32pow2 : Z -> Z).
(** DPDK: the next power of two is not below its argument. *)
Hypothesis align_up : forall x, 1 <= x <= 2147483648 -> x <= rte_align32pow2 x <= 2147483648.

(** A slot that has not been listening. *)
Definition idle_listener : listener := mk_listener TCP_STATUS_CLOSED 0 0 None [] [] ∅.

(** A listener and the largest backlog requested of it. *)
Inductive listen_step : listener * Z -> listener * Z -> Prop :=
| listen_syn io e h l m : kids l !! syn_slot e = None -> listen_step (l, m) (snd (tcp_state_listen io e h l), m)
| listen_child f io id l m : child_op f -> id ∈ child_list l -> listen_step (l, m) (run_child f io id l, m)
| listen_accept l m : listen_step (l, m) (snd (tcp_accept_owned l), m)
| listen_again ring_ok registered b l m : -2147483648 <= b <= 2147483647 ->
    listen_step (l, m) (snd (tcp_listen rte_align32pow2 ring_ok registered b l), Z.max m (Z.max 1 b)).

(** What [tcp_listen] leaves of a fresh stream. *)
Definition opened (b : Z) : listener * Z := (snd (tcp_listen rte_align32pow2 true None b idle_listener), Z.max 1 b).

Lemma listen_open b : -2147483648 <= b <= 2147483647 -> listening (snd (opened b)) (fst (opened b)).
Proof.
  intros Hb. unfold opened, tcp_listen. cbn [l_status idle_listener negb fst snd].
  assert ((if b <? 1 then 1 else b) = Z.max 1 b) as -> by (bsplit1; bprop; lia). set (b' := Z.max 1 b).
  assert (1 <= b' <= 2147483647) as Hb' by (unfold b'; lia). clearbody b'.
  pose proof (align_up (b' + 1) ltac:(lia)) as Ha. split; cbn; try done; try by constructor.
  - exists (ring_size rte_align32pow2 b'). unfold ring_size. rewrite !u32_small by (wunfold; lia).
    change (zlen (@nil nat)) with 0. split_and!; [done|lia..].
  - rewrite u32_small by (wunfold; lia). change (zlen (@nil nat)) with 0. lia.
  - intros id H. by apply not_elem_of_nil in H.
Qed.

Lemma listening_more m m' l : m <= m' <= 2147483647 -> listening m l -> listening m' l.
Proof. intros Hm []. split; try done. lia. Qed.

Lemma listen_step_ok x y : listen_step x y -> listening (snd x) (fst x) -> listening (snd y) (fst y).
Proof.
  intros [io e h l0 m Hk|f io id l0 m Hf Hin|l0 m|ok reg b l0 m Hb] L; cbn [fst snd] in *.
  - by apply listen_syn_ok.
  - by apply run_child_ok.
  - unfold tcp_accept_owned. destruct (_ || _); [done|]. by eapply accept_loop_ok.
  - unfold tcp_listen. rewrite (lo_status m l0 L). cbn [snd]. pose proof (lo_peak m l0 L) as Hp.
    destruct (listening_more m (Z.max m (Z.max 1 b)) l0 ltac:(lia) L). split; cbn; try done.
    bsplit1; bprop; [rewrite u32_small by (wunfold; lia)|]; lia.
Qed.

Lemma listen_history b x : -2147483648 <= b <= 2147483647 -> rtc listen_step (opened b) x -> listening (snd x) (fst x).
Proof.
  intros Hb H. pose proof (listen_open b Hb) as L. induction H as [|x y z Hs _ IH]; [done|]. apply IH. by eapply listen_step_ok.
Qed.
End Listening.

(** C5: in every history of a listener from its first listen to its close
    (SYNs, packets, timers and flushes of its children, accepts, and further
    listens with any backlog) the backlog is accounted exactly: [syn_pending]
    is the number of children still in the handshake, the other children are
    exactly the entries of the accept ring, every child is a live control
    block, and half-open plus queued children stay within the largest backlog
    [m] requested so far.  While the ring was made for that backlog, a child
    in the handshake finds room in it, so that no completed connection is
    reset for want of it.  Closing the listener releases every child. *)
Theorem listen_backlog_exact (rte_align32pow2 : Z -> Z)
    (align_up : forall x, 1 <= x <= 2147483648 -> x <= rte_align32pow2 x <= 2147483648) b l m
    (Hb : -2147483648 <= b <= 2147483647)
    (H : rtc (listen_step rte_align32pow2) (opened rte_align32pow2 b) (l, m)) :
  NoDup (child_list l) /\ NoDup (accept_queue l) /\ accept_queue l ⊆ child_list l /\
  syn_pending l = zlen (child_list l) - zlen (accept_queue l) /\
  0 <= syn_pending l /\ syn_pending l + zlen (accept_queue l) <= m /\ backlog l <= m /\
  (forall id, id ∈ child_list l -> exists t, kids l !! id = Some t /\ freed t = false /\ app_closed t = false /\
     (id ∈ accept_queue l <-> st t <> TCP_STATUS_SYN_RECV) /\
     (forall n, st t = TCP_STATUS_SYN_RECV -> ring_slots l = Some n -> m <= n - 1 -> ring_room l = true)) /\
  (let l' := tcp_close_listener l in
   child_list l' = [] /\ accept_queue l' = [] /\ syn_pending l' = 0 /\ forall id, id ∈ child_list l -> kids l' !! id = None).
Proof.
  apply (listen_history _ align_up b _ Hb) in H. cbn [fst snd] in H. pose proof H as L. pose proof (close_listener_ok m l L) as Hc. destruct H.
  assert (zlen (accept_queue l) <= zlen (child_list l)) as Hle.
  { apply inj_le, submseteq_length, NoDup_submseteq; [done|]. intros x Hx. by apply lo_queued0. }
  split_and!; try done; try lia.
  - intros x Hx. by destruct (lo_queued0 x Hx).
  - intros id Hin. destruct (decide (id ∈ accept_queue l)) as [Hq|Hq].
    + destruct (lo_queued0 id Hq) as (_ & t & Hk & [V S]). exists t. apply child_fields in V as (H1 & H2 & _).
      assert (st t <> TCP_STATUS_SYN_RECV) by (intros E; change (st (set_out [] t)) with (st t) in S; rewrite E in S; nomem S).
      by split_and!.
    + destruct (lo_half0 id Hin Hq) as (t & Hk & [V S]). exists t. apply child_fields in V as (H1 & H2 & _).
      change (st t = TCP_STATUS_SYN_RECV) in S. split_and!; try done. intros n _ Hn Hm. by eapply half_room.
Qed.

(** in every history an accept hands out the oldest completed connection
    that has not been reset, in the order of completion, detached from the
    listener; the reset ones before it are released.  It reports [EAGAIN]
    only when no live connection is waiting, and then the ring is empty. *)
Theorem accept_oldest_live (rte_align32pow2 : Z -> Z)
    (align_up : forall x, 1 <= x <= 2147483648 -> x <= rte_align32pow2 x <= 2147483648) b l m
    (Hb : -2147483648 <= b <= 2147483647)
    (H : rtc (listen_step rte_align32pow2) (opened rte_align32pow2 b) (l, m)) :
  match tcp_accept_owned l with
  | (inr id, l') => (exists dead, accept_queue l = dead ++ id :: accept_queue l' /\
      Forall (fun x => ~ live_child l x) dead /\ live_child l id /\ (id ∉ child_list l'))
  | (inl e, l') => e = EAGAIN /\ Forall (fun x => ~ live_child l x) (accept_queue l) /\ accept_queue l' = []
  end.
Proof.
  apply (listen_history _ align_up b _ Hb) in H. cbn [fst snd] in H. unfold tcp_accept_owned.
  destruct (lo_ring m l H) as (n & Hn & _). rewrite (lo_status m l H), Hn. cbn.
  pose proof (accept_loop_ok m (accept_queue l) l H eq_refl) as R. cbv zeta in R.
  assert (forall q k, fst (accept_loop q k) = inl EAGAIN \/ exists id, fst (accept_loop q k) = inr id) as Hr.
  { induction q as [|id q IH]; intros k; cbn [accept_loop]; [by left|]. cbv zeta. destruct (kids _ !! id); [|by left].
    destruct (bool_decide _); [apply IH|right; by exists id]. }
  destruct (Hr (accept_queue l) l) as [E|[id E]]; destruct (accept_loop _ _) as [r l']; cbn [fst snd] in *; subst r;
    destruct R as [_ R]; [by destruct R|]. destruct R as (dead & rest & -> & ? & ? & ? & <-). by exists dead.
Qed.

(** ** A concrete listener *)

Definition next_pow2 (x : Z) : Z := 2 ^ Z.log2_up x.
Lemma next_pow2_up x : 1 <= x <= 2147483648 -> x <= next_pow2 x <= 2147483648.
Proof.
  intros H. unfold next_pow2. split.
  - destruct (Z.eq_dec x 1) as [->|]; [done|]. apply Z.log2_up_spec. lia.
  - change 2147483648 with (2 ^ 31). apply Z.pow_le_mono_r; [lia|]. change 31 with (Z.log2_up (2 ^ 31)).
    apply Z.log2_up_le_mono. change (2 ^ 31) with 2147483648. lia.
Qed.

Definition peer_io : tcp_io :=
  mk_io 1000 1000000 1000000 true true true true true true (fun _ => true) (fun _ => true)
    (fun _ => mk_omem 1000 1000 1000 1000 true true) (fun _ => true).
Definition peer_env (slot : nat) : syn_env :=
  mk_syn (7000 + Z.of_nat slot) slot true true true (mk_owner metrics_zero 0 0 false) (mk_sbmem metric_zero metric_zero) metric_zero.
Definition peer_syn : tcp_inbound := mk_in 500 0 RTE_TCP_SYN_FLAG 1000 rx_init [].
(** The last packet of the handshake of the child in [slot]. *)
Definition peer_ack (slot : nat) : tcp_inbound := mk_in 501 (7001 + Z.of_nat slot) RTE_TCP_ACK_FLAG 1000 rx_init [].
Definition peer_op (h : tcp_inbound) (io : tcp_io) (t : tcb) : tcb :=
  if bool_decide (st t = TCP_STATUS_CLOSED) then t else tcp_ingress_stream io h t.

Definition lst_open (b : Z) : listener := snd (tcp_listen next_pow2 true None b idle_listener).
Definition lst_syn (slot : nat) (l : listener) : listener := snd (tcp_state_listen peer_io (peer_env slot) peer_syn l).
Definition lst_ack (slot : nat) (l : listener) : listener := run_child (peer_op (peer_ack slot)) peer_io slot l.

(** Two clients, the first completes. *)
Definition lst_two : listener := lst_ack 1 (lst_syn 2 (lst_syn 1 (lst_open 4))).

Lemma lst_two_history : rtc (listen_step next_pow2) (opened next_pow2 4) (lst_two, 4).
Proof.
  apply (rtc_l _ _ (lst_syn 1 (lst_open 4), 4)); [apply listen_syn; vm_compute; reflexivity|].
  apply (rtc_l _ _ (lst_syn 2 (lst_syn 1 (lst_open 4)), 4)); [apply listen_syn; vm_compute; reflexivity|].
  apply rtc_once. apply (listen_child _ (peer_op (peer_ack 1)) peer_io 1); [apply (op_ingress (peer_ack 1))|].
  apply (bool_decide_unpack _). vm_compute. exact I.
Qed.

Lemma listen_backlog_exact_witness :
  syn_pending lst_two = 1 /\ accept_queue lst_two = [1%nat] /\ child_list lst_two = [1%nat; 2%nat] /\
  syn_pending lst_two + zlen (accept_queue lst_two) <= 4.
Proof.
  split; [vm_compute; reflexivity|]. split; [vm_compute; reflexivity|]. split; [vm_compute; reflexivity|].
  apply (listen_backlog_exact next_pow2 next_pow2_up 4 lst_two 4); [lia|exact lst_two_history].
Defined.

Lemma accept_oldest_live_witness :
  fst (tcp_accept_owned lst_two) = inr 1%nat /\
  match tcp_accept_owned lst_two with
  | (inr id, l') => live_child lst_two id
  | (inl e, l') => e = EAGAIN
  end.
Proof.
  split; [vm_compute; reflexivity|].
  pose proof (accept_oldest_live next_pow2 next_pow2_up 4 lst_two 4 ltac:(lia) lst_two_history) as H.
  destruct (tcp_accept_owned lst_two) as [[e|id] l']; [by destruct H|]. by destruct H as (dead & _ & _ & ? & _).
Defined.

(** listening again with a larger backlog does not resize the accept ring:
    a listener opened with backlog 1 and raised to 8 admits a second
    handshake, well within its backlog, but resets the connection when the
    handshake completes, since the ring still holds a single entry. *)
Theorem relisten_keeps_ring :
  let l := lst_syn 2 (lst_ack 1 (lst_syn 1 (snd (tcp_listen next_pow2 true None 8 (lst_open 1))))) in
  backlog l = 8 /\ syn_pending l + zlen (accept_queue l) = 2 /\ child_list l = [1%nat; 2%nat] /\
  ring_slots l = Some 2 /\ ring_room l = false /\
  let l' := lst_ack 2 l in
  kids l' !! 2%nat = None /\ child_list l' = [1%nat] /\ accept_queue l' = [1%nat].
Proof. vm_compute. repeat split. Qed.
