(* ===== verification/TcpConnection.v ===== *)
(** * Correctness of a connection

    [tcp_step] is one operation on a live connection: a write, a flush of the
    transmit path, a segment from the network, a timer expiry, a read or a
    close, each with its own outside.  Every history that starts with an
    active or passive open puts only segments of the written stream on the wire, and a
    receiver fed those segments in any order reads a prefix of it. *)

From S2P Require Import Prelude Config SeqNum TcpRtt TcpCc SackRange TcpSack TcpOptions OwnerTimer TcpOfo.
From S2P Require Import TcpOfoFacts TcpOfoStream TcpSndBuf TcpTcb TcpAck TcpTx TcpState TcpListen TcpSend.
From S2P Require Import TcpSendSteps TcpSendTx TcpSendHistory.

(** ** The active open *)

(** A block that has sent nothing. *)
Definition fresh (t : tcb) : Prop := tx_queue t = [] /\ packets t = [].

Lemma open_reset_ok isn t (t' := open_reset isn t) :
  in_u32 isn -> fresh t -> sending isn [] 0 0 false false t' /\ st t' = st t.
Proof.
  intros Hi [Hq Hp]. unfold t', open_reset. cbv zeta.
  set (t1 := set_rx (with_terminal_error _ _) _). assert (tx_queue t1 = [] /\ packets t1 = [] /\ st t1 = st t) as (Q1 & P1 & S1) by done.
  clearbody t1. set (t2 := sndbuf_reset isn _).
  assert (sb t2 = mk_sndbuf [] 0 isn 0 /\ sent_seq t2 = isn /\ una t2 = isn /\ tx_queue t2 = [] /\ packets t2 = [] /\
          st t2 = st t) as (F1 & F2 & F3 & F4 & F5 & F6) by done.
  clearbody t2. split; [|done].
  assert (Forall seg_control (tx_queue t2) /\ Forall seg_control (packets t2)) as [G1 G2] by (by rewrite F4, F5).
  assert (u32 isn = isn) as Hu by (by apply u32_small).
  apply sending_empty; rewrite ?Hu; done.
Qed.

Lemma enqueue_control iss w a k f e o t (r := tcp_enqueue_fragment o t) :
  (forall s, o = Some s -> seg_control s) -> sending iss w a k f e t ->
  sending iss w a k f e (snd r) /\ st (snd r) = st t.
Proof.
  unfold r. clear r. intros Hc S. split; [|by destruct (enqueue_view o t) as [[(_ & _ & ->) _]|(? & _ & _ & _ & -> & _)]].
  destruct o as [g|]; [|done]. destruct (Hc g eq_refl) as [Hd Hg]. apply sending_enqueue; [done| |done].
  by apply control_good.
Qed.

Lemma connect_syn_ok io isn t t' :
  st t = TCP_STATUS_CLOSED -> sending isn [] 0 0 false false t -> connect_syn io t = (Some EINPROGRESS, t') ->
  conn isn [] t'.
Proof.
  intros Hst S3. unfold connect_syn. destruct (syn_fragment_ok io t) as [Q5 Hc]. revert Q5 Hc.
  destruct (tcp_make_fragment _ _ _ _ _) as [o t4]. cbn [fst snd].
  destruct (match o with Some _ => _ | None => _ end) as [g t5]. cbn [fst snd]. intros Q5 Hc.
  destruct (enqueue_control _ _ _ _ _ _ g t5 Hc (sending_quiet _ _ _ _ _ _ _ _ Q5 S3)) as [S6 Hs6].
  destruct Q5 as (_ & _ & Q5). destruct (tcp_enqueue_fragment g t5) as [ok t6]. cbn [snd] in *.
  destruct ok; cbn [negb]; [|done].
  set (t7 := tcp_stream_set_status _ t6). destruct (set_status_view TCP_STATUS_SYN_SENT t6) as (Hv & Hp & Hs & _).
  fold t7 in Hv, Hp, Hs. assert (syncing isn t7) as S7.
  { split; [rewrite Hs; mem|]. apply (sending_status _ _ _ _ _ _ t6); try done.
    intros H. apply (sd_state _ _ _ _ _ _ _ S6) in H. rewrite Hs6, Q5, Hst in H. nomem H. }
  clearbody t7. pose proof (quiet_arm_syn io TCP_SYN_RTO_MS t7) as Q. destruct (tcp_arm_syn_timer _ _ _) as [armed t8].
  cbn [snd] in Q. destruct armed; intros [= <-]. by apply syncing_conn, (syncing_quiet isn t7).
Qed.

Lemma connect_start_ok isn t (t' := set_registered true (connect_start isn t)) :
  in_u32 isn -> fresh t -> sending isn [] 0 0 false false t' /\ st t' = st t.
Proof.
  intros Hi Hf. destruct (open_reset_ok isn t Hi Hf) as [S0 <-]. unfold t', connect_start. clear t'. cbv zeta.
  generalize dependent (open_reset isn t). intros t0 S0. split; [|done]. eapply sending_quiet; [|exact S0]. by split_and!.
Qed.

Lemma connect_ok io isn t t' :
  in_u32 isn -> fresh t -> tcp_connect io isn None true t = (Some EINPROGRESS, t') -> conn isn [] t'.
Proof.
  intros Hi Hf. unfold tcp_connect. destruct (bool_decide _) eqn:Ec; cbn [negb]; [|done].
  apply bool_decide_eq_true in Ec. destruct (connect_start_ok isn t Hi Hf) as [S0 Hs0].
  rewrite Ec in Hs0. by apply connect_syn_ok.
Qed.

(** ** The passive open *)

Lemma first_synack_ok io q t (r := first_synack io q t) : quiet t (snd r) /\ seg_control (fst r).
Proof.
  unfold r, first_synack. clear r. cbv zeta. set (f := mk_seg _ _ _ _ _ _).
  assert (seg_control f) as Hf by (by split). clearbody f.
  pose proof (quiet_apply_syn io (wscale_ok (opt t)) (timestamps_ok (opt t)) true (ts_recent (opt t)) f t) as Q.
  pose proof (apply_syn_fields io (wscale_ok (opt t)) (timestamps_ok (opt t)) true (ts_recent (opt t)) f t) as (A1 & A2 & _).
  destruct (apply_syn _ _ _ _ _ _ _) as [g t1]. cbn [fst snd] in *. split; [|by destruct Hf; split; congruence].
  etrans; [exact Q|]. by split_and!.
Qed.

Lemma open_child_ok io h isn t t' :
  st t = TCP_STATUS_SYN_RECV -> sending isn [] 0 0 false false t -> open_child io h t = Some (true, t') -> conn isn [] t'.
Proof.
  intros Hs S. unfold open_child. cbv zeta. set (t1 := store_opt _ t).
  assert (quiet t t1) as Q1 by (unfold t1, store_opt; apply quiet_opt; by rewrite negotiate_core, opt_core_view).
  pose proof (sending_quiet _ _ _ _ _ _ _ _ Q1 S) as S1. destruct Q1 as (_ & _ & E1). clearbody t1.
  destruct (negb _); [done|]. destruct (first_synack_ok io (in_seq h) t1) as [Q2 Hc].
  destruct (first_synack io (in_seq h) t1) as [f t2]. cbn [fst snd] in *.
  destruct (enqueue_control _ _ _ _ _ _ (Some f) t2 ltac:(by intros ? [= <-]) (sending_quiet _ _ _ _ _ _ _ _ Q2 S1)) as [S3 E3].
  destruct Q2 as (_ & _ & E2). destruct (tcp_enqueue_fragment _ _) as [ok t3]. cbn [snd] in *. destruct (negb ok); [done|].
  set (t4 := set_retries 0 t3). assert (syncing isn t4) as Y.
  { split; [change (st t4) with (st t3); rewrite E3, E2, E1, Hs; mem|]. eapply sending_quiet; [|exact S3]. by split_and!. }
  clearbody t4. pose proof (quiet_arm_syn io TCP_SYN_RTO_MS t4) as Q. destruct (tcp_arm_syn_timer _ _ _) as [armed t5].
  cbn [snd] in Q. destruct armed; intros [= <-]. by apply syncing_conn, (syncing_quiet isn t4).
Qed.

Lemma passive_ok io e h t t' :
  in_u32 (syn_isn e) -> tcp_stream_create e = Some t ->
  open_child io h (set_out [] (set_has_listener true t)) = Some (true, t') -> conn (syn_isn e) [] t'.
Proof.
  intros Hi Ht. unfold tcp_stream_create in Ht. destruct (_ || _); [done|]. injection Ht as <-.
  set (t0 := set_registered _ _). assert (fresh t0 /\ st t0 = TCP_STATUS_SYN_RECV) as [Hf Hs] by (by split_and!). clearbody t0.
  destruct (open_reset_ok (syn_isn e) t0 Hi Hf) as [S E]. rewrite Hs in E.
  generalize dependent (open_reset (syn_isn e) t0). intros t1 S E.
  apply open_child_ok; [done|]. destruct S. by split.
Qed.

(** ** Histories *)

(** A block that is neither released nor broken. *)
Definition usable (t : tcb) : Prop := freed t = false /\ fault t = false.

(** A connection and the bytes its application has written. *)
Inductive tcp_step : tcb * list Z -> tcb * list Z -> Prop :=
| step_send io data t w :
    usable t -> tcp_step (t, w) (snd (tcp_send io data t), w ++ accepted data (fst (tcp_send io data t)))
| step_flush fuel io r t t' w : usable t -> tcp_tx_flush fuel io t = (Some r, t') -> tcp_step (t, w) (t', w)
| step_ingress io h t w :
    usable t -> in_u32 (in_ack h) -> st t <> TCP_STATUS_CLOSED -> tcp_step (t, w) (tcp_ingress_stream io h t, w)
| step_timer io now t w : usable t -> tcp_step (t, w) (tcp_timer_cb io now t, w)
| step_recv io len t w : usable t -> tcp_step (t, w) (snd (TcpState.tcp_recv io len t), w)
| step_close io t w : usable t -> st t <> TCP_STATUS_SYN_RECV -> tcp_step (t, w) (snd (sock_cmd_close io t), w)
| step_accept nd t w : usable t -> has_listener t = true -> tcp_step (t, w) (publish_accepted nd t, w)
| step_nodelay v t w : usable t -> app_closed t = false -> tcp_step (t, w) (socket_option_nodelay v t, w)
| step_linger on seconds t w : usable t -> app_closed t = false -> tcp_step (t, w) (socket_option_linger on seconds t, w)
| step_abort io error c t w :
    usable t -> tcp_step (t, w) (tcp_force_abort io error (if c : bool then set_app_closed true t else t), w).

(** A connection just opened, by [tcp_connect] or by a SYN to a listener. *)
Inductive opens (isn : Z) (t : tcb) : Prop :=
| opens_active io t0 : fresh t0 -> tcp_connect io isn None true t0 = (Some EINPROGRESS, t) -> opens isn t
| opens_passive io e h t0 : syn_isn e = isn -> tcp_stream_create e = Some t0 ->
    open_child io h (set_out [] (set_has_listener true t0)) = Some (true, t) -> opens isn t.

Lemma step_conn isn x y : tcp_step x y -> conn isn (snd x) (fst x) -> conn isn (snd y) (fst y).
Proof.
  intros [io data t w [Hf _]|fuel io r t t' w [Hf _] H|io h t w [Hf _] ? ?|io now t w [Hf _]|io len t w [Hf _]|io t w [Hf _] ?
    |nd t w _ _|v t w _ _|on seconds t w _ _|io error c t w _] C; cbn [fst snd] in *.
  - by apply conn_send.
  - change t' with (snd (Some r, t')). rewrite <- H. by apply conn_flush.
  - by apply ingress_ok.
  - by apply timer_ok.
  - by apply conn_recv.
  - unfold sock_cmd_close. destruct (app_closed t); [done|]. apply conn_close; [done|done|].
    apply (conn_quiet _ _ (set_app_closed true t)); [by apply quiet_emit|done|]. by apply (conn_quiet _ _ t).
  - by apply (conn_quiet _ _ t).
  - unfold socket_option_nodelay. cbv zeta. assert (conn isn w (set_nodelay v t)) as C1 by (by apply (conn_quiet _ _ t)).
    destruct (nodelay _); [|done]. by apply (conn_quiet _ _ (set_nodelay v t)); [apply quiet_emit|..].
  - by apply (conn_quiet _ _ t).
  - assert (conn isn w (if c then set_app_closed true t else t)) as C1 by (destruct c; [by apply (conn_quiet _ _ t)|done]).
    unfold tcp_force_abort. eapply conn_ends; [apply abort_ends|exact C1].
Qed.

Lemma history_conn isn t0 t w : in_u32 isn -> opens isn t0 -> rtc tcp_step (t0, []) (t, w) -> conn isn w t.
Proof.
  intros Hi Ho H. assert (conn isn [] t0) as Hc
    by (destruct Ho as [io t1 Hf Hc|io e h t1 <- Hc Hx]; [by eapply connect_ok|by eapply passive_ok]).
  change (conn isn (snd (t0, @nil Z)) (fst (t0, @nil Z))) in Hc. change (conn isn (snd (t, w)) (fst (t, w))).
  revert Hc. induction H as [|x y z Hs _ IH]; [done|]. intros C. apply IH. by eapply step_conn.
Qed.

(** C2: whatever the application, the network, the timers and failing
    allocations do to a connection after an active or passive open, every packet it puts
    on the wire carries bytes the application wrote, at the sequence number
    of their position in the stream (modulo 2^32) and no more than a memory
    chunk of them; a FIN carries no data and stands right behind the last
    byte written. *)
Theorem tcp_sender_stream isn t0 t w
    (Hi : in_u32 isn) (H0 : opens isn t0) (H : rtc tcp_step (t0, []) (t, w)) :
  Forall (fun s =>
    (seg_data s <> [] -> exists p, 0 <= p /\ seg_seq s = u32 (isn + 1 + p) /\
       zlen (seg_data s) <= TCP_MEMORY_CHUNK_SIZE /\ seg_data s `prefix_of` drop (Z.to_nat p) w) /\
    (has_flag (seg_flags s) RTE_TCP_FIN_FLAG = true ->
       seg_data s = [] /\ seg_seq s = u32 (isn + 1 + zlen w))) (packets t).
Proof.
  apply (history_conn isn _ _ _ Hi H0) in H. apply conn_packets in H as [f Hf].
  eapply Forall_impl; [exact Hf|]. intros s [Hd Hg]. split; [by destruct Hd|]. intros Hx. by destruct (Hg Hx) as (_ & ?).
Qed.

(** C3: while the connection is open its send buffer holds exactly the bytes
    written and not acknowledged, at most 64 KiB of them: SND.UNA is the
    position of the first, SND.NXT lies within them, a FIN that was sent
    counts one past the last byte, and the unacknowledged count is the
    distance between the two. *)
Theorem tcp_send_buffer_exact isn t0 t w
    (Hi : in_u32 isn) (H0 : opens isn t0) (H : rtc tcp_step (t0, []) (t, w))
    (Hopen : st t ∈ synced) (Hlive : freed t = false) :
  exists a k (fin acked : bool), 0 <= a <= k /\ k <= zlen w /\
    contents (sb t) = drop (Z.to_nat a) w /\ zlen w - a <= TCP_SNDBUF_APP_HIWAT /\
    una t = u32 (isn + 1 + a + b2z acked) /\ sent_seq t = u32 (isn + 1 + k + b2z fin) /\
    unacked (sb t) = k - a /\ (fin = true -> k = zlen w) /\ (acked = true -> fin = true /\ a = zlen w) /\
    (fin = true \/ fin_deferred (opt t) = true -> st t ∈ closing_state).
Proof.
  apply (history_conn isn _ _ _ Hi H0) in H. destruct H as [Hs _ _|a k f e _ S|f Hd _].
  - exfalso. apply list_elem_of_In in Hs. destruct Hs as [E|[E|[]]]; rewrite <- E in Hopen; nomem Hopen.
  - exists a, k, f, e. pose proof (sending_len _ _ _ _ _ _ _ S) as HL. destruct S. split_and!; try done; lia.
  - exfalso. destruct Hd as [E|]; [|congruence]. rewrite E in Hopen. nomem Hopen.
Qed.

(** ** End to end *)

(** The peer's receive half fed with packets of [ps], in any order and any
    number of times, while its application reads and its state changes. *)
Inductive wire_step (ps : list tcp_segment) : tcp_rx * list Z -> tcp_rx * list Z -> Prop :=
| wire_segment mem rx_ok tw g s acc (fin := has_flag (seg_flags g) RTE_TCP_FIN_FLAG) :
    terminal_error s = None -> g ∈ ps -> seg_data g <> [] \/ fin = true ->
    wire_step ps (s, acc) (snd (TcpOfo.tcp_receive_stream_range mem rx_ok tw (seg_seq g) (seg_data g) fin s), acc)
| wire_read rx_ok tw len s acc :
    0 <= len ->
    wire_step ps (s, acc)
      (snd (TcpOfo.tcp_recv rx_ok tw len s), acc ++ recv_bytes (fst (TcpOfo.tcp_recv rx_ok tw len s)))
| wire_status st s acc :
    terminal_error s = None -> st <> TCP_STATUS_CLOSED -> (past_eof st = true -> peer_eof s = true) ->
    wire_step ps (s, acc) (with_status st s, acc)
| wire_abort e s acc : wire_step ps (s, acc) (TcpOfo.tcp_abort_stream e s, acc).

(** The stream written, as a function of the position. *)
Definition written (w : list Z) (p : Z) : Z := nth (Z.to_nat p) w 0.

Lemma chunk_whole w : chunk (written w) 0 w.
Proof.
  unfold chunk, bytes. apply nth_ext with (d := 0) (d' := 0); [by rewrite length_map, length_seq|].
  intros n Hn. rewrite (nth_indep (map _ _) 0 (written w (0 + Z.of_nat 0))) by (by rewrite length_map, length_seq).
  rewrite (map_nth (fun i => written w (0 + Z.of_nat i))), seq_nth by done. unfold written. f_equal. lia.
Qed.

(** Data found in the stream at [p]. *)
Lemma chunk_written w p d : 0 <= p -> d <> [] -> d `prefix_of` drop (Z.to_nat p) w ->
  chunk (written w) p d /\ p + zlen d <= zlen w.
Proof.
  intros Hp Hne [r Hd]. pose proof (f_equal length Hd) as Hl. rewrite length_drop, length_app in Hl.
  assert (0 < length d)%nat as Hd0 by (destruct d; [done|cbn; lia]).
  split; [|unfold zlen; lia]. pose proof (chunk_whole w) as Hw.
  assert (w = take (Z.to_nat p) w ++ d ++ r) as Hs by (by rewrite <- Hd, take_drop).
  revert Hw. generalize (written w). intros h Hw. rewrite Hs in Hw. apply chunk_split in Hw as [_ Hw].
  apply chunk_split in Hw as [Hw _]. rewrite zlen_take in Hw by (unfold zlen; lia). by rewrite Z.add_0_l in Hw.
Qed.

Lemma bytes_prefix w n : (n <= length w)%nat -> bytes (written w) 0 n = take n w.
Proof.
  intros Hn. pose proof (chunk_whole w) as Hw. apply (chunk_take _ _ (Z.of_nat n)) in Hw. unfold chunk in Hw.
  rewrite Nat2Z.id, length_take_le in Hw by done. done.
Qed.

(** A packet of the sender is a segment of the stream for any receiver of it. *)
Lemma good_segment isn w f g pos (fin := has_flag (seg_flags g) RTE_TCP_FIN_FLAG) :
  zlen w <= 1073741824 -> 0 <= pos <= zlen w -> seg_good (isn + 1) w f g -> seg_data g <> [] \/ fin = true ->
  exists p, seg_seq g = at_pos (isn + 1) p /\ segment (written w) (Some (zlen w)) pos p (seg_data g) fin.
Proof.
  intros Hw Hp [Hd Hf] Hsome. destruct fin eqn:E.
  - destruct (Hf E) as (_ & Hnil & Hs). exists (zlen w). split; [done|]. rewrite Hnil. split; [lia|done|done|].
    change (zlen (@nil Z)) with 0. rewrite Z.add_0_r. split; [done|]. by intros ? [= <-].
  - assert (seg_data g <> []) as Hne by (by destruct Hsome). destruct Hd as [|(p & Hp0 & Hs & Hl & Hpre)]; [done|].
    destruct (chunk_written w p _ Hp0 Hne Hpre) as [Hc He]. pose proof (zlen_nonneg (seg_data g)).
    change TCP_MEMORY_CHUNK_SIZE with 2048 in Hl. exists p. split; [done|]. split; [lia|lia|done|].
    split; [done|]. intros ? [= <-]. lia.
Qed.

Lemma wire_rx isn w f ps r0 x :
  zlen w <= 1073741824 -> Forall (seg_good (isn + 1) w f) ps -> rx_start (isn + 1) r0 ->
  rtc (wire_step ps) (r0, []) x -> rtc (rx_step (isn + 1) (written w) (Some (zlen w))) (r0, []) x.
Proof.
  intros Hw Hg H0 H. pose proof (zlen_nonneg w) as Hn.
  assert (fits (Some (zlen w)) 0 false) as HF by (split; [done|]; by intros ? [= <-]).
  revert x H. apply (rtc_ind_r (fun x => rtc (rx_step (isn + 1) (written w) (Some (zlen w))) (r0, []) x)); [done|].
  intros y z _ Hyz IH. eapply rtc_r; [exact IH|].
  destruct Hyz as [mem rx_ok tw g s acc fin Ht Hin Hsome| | |]; [|by constructor..].
  assert (0 <= zlen (acc ++ TcpOfoFacts.pending s) <= zlen w) as Hp.
  { apply history_ok in IH; [|done..]. unfold stream_ok in IH. rewrite Ht in IH.
    destruct IH as (_ & _ & [_ Hle] & _). split; [apply zlen_nonneg|by apply Hle]. }
  rewrite Forall_forall in Hg. destruct (good_segment isn w f g _ Hw Hp (Hg g Hin) Hsome) as (p & -> & Hs).
  by apply step_segment.
Qed.


(** ** A concrete connection

    The initial sequence number is close to 2^32.  Six bytes are written and
    the connection is closed; the peer gets the FIN before the data. *)
Definition demo_io : tcp_io :=
  mk_io 1000 1000000 1000000 true true true true true true (fun _ => true) (fun _ => true)
    (fun _ => mk_omem 1000 1000 1000 1000 true true) (fun _ => true).
Definition demo_block : tcb :=
  tcb_alloc true (mk_owner metrics_zero 0 0 false) (mk_sbmem metric_zero metric_zero) metric_zero.
Definition demo_flush (t : tcb) : tcb := snd (tcp_tx_flush 10 (fun _ => demo_io) t).
Definition demo_syn : tcb := snd (tcp_connect demo_io 4294967292 None true demo_block).
Definition demo_syn_sent : tcb := demo_flush demo_syn.
Definition demo_synack : tcp_inbound := mk_in 500 4294967293 synack_flags 1000 rx_init [].
Definition demo_established : tcb := tcp_ingress_stream demo_io demo_synack demo_syn_sent.
Definition demo_open : tcb := demo_flush demo_established.
Definition demo_data : list Z := [1; 2; 3; 4; 5; 6].
Definition demo_written : tcb := snd (tcp_send demo_io demo_data demo_open).
Definition demo_sent : tcb := demo_flush demo_written.
Definition demo_closing : tcb := snd (sock_cmd_close demo_io demo_sent).
Definition demo_closed : tcb := demo_flush demo_closing.

Lemma demo_step_flush w t (x := demo_flush t) :
  negb (freed t) && negb (fault t) && bool_decide (is_Some (fst (tcp_tx_flush 10 (fun _ => demo_io) t))) = true ->
  tcp_step (t, w) (x, w).
Proof.
  intros H. apply andb_prop in H as [[Hf Hx]%andb_prop [r Hr]%bool_decide_eq_true]. apply negb_true_iff in Hf, Hx. apply (step_flush 10 (fun _ => demo_io) r); [done|].
  unfold x, demo_flush. rewrite <- Hr. by destruct (tcp_tx_flush _ _ _).
Qed.

Lemma pair_fst {A B} (p : A * B) a : fst p = a -> p = (a, snd p).
Proof. destruct p. cbn. congruence. Qed.

Lemma demo_opens : opens 4294967292 demo_syn.
Proof.
  apply (opens_active _ _ demo_io demo_block); [split; vm_compute; reflexivity|].
  assert (fst (tcp_connect demo_io 4294967292 None true demo_block) = Some EINPROGRESS) as H by (vm_compute; reflexivity).
  unfold demo_syn. exact (pair_fst _ _ H).
Qed.

Lemma demo_sent_history : rtc tcp_step (demo_syn, []) (demo_sent, demo_data).
Proof.
  apply (rtc_l _ _ (demo_syn_sent, [])); [unfold demo_syn_sent; apply demo_step_flush; vm_compute; reflexivity|].
  apply (rtc_l _ _ (demo_established, [])).
  { unfold demo_established. apply step_ingress; [split; vm_compute; reflexivity|split; vm_compute; congruence|].
    vm_compute. congruence. }
  apply (rtc_l _ _ (demo_open, [])); [unfold demo_open; apply demo_step_flush; vm_compute; reflexivity|].
  apply (rtc_l _ _ (demo_written, demo_data)).
  { unfold demo_written. assert (accepted demo_data (fst (tcp_send demo_io demo_data demo_open)) = demo_data) as E
      by (vm_compute; reflexivity).
    pose proof (step_send demo_io demo_data demo_open []) as H. rewrite E in H. apply H. split; vm_compute; reflexivity. }
  apply rtc_once. unfold demo_sent. apply demo_step_flush. vm_compute. reflexivity.
Qed.

Lemma demo_closed_history : rtc tcp_step (demo_syn, []) (demo_closed, demo_data).
Proof.
  etrans; [exact demo_sent_history|]. apply (rtc_l _ _ (demo_closing, demo_data)).
  { unfold demo_closing. apply step_close; [split; vm_compute; reflexivity|]. vm_compute. congruence. }
  apply rtc_once. unfold demo_closed. apply demo_step_flush. vm_compute. reflexivity.
Qed.

(** The packets on the wire, as sequence number, flags and data. *)
Definition demo_wire (t : tcb) : list (Z * Z * list Z) :=
  map (fun s => (seg_seq s, seg_flags s, seg_data s)) (packets t).

Lemma demo_isn : in_u32 4294967292.
Proof. split; vm_compute; congruence. Qed.

Lemma tcp_sender_stream_witness :
  demo_wire demo_closed =
    [(4294967292, 2, []); (4294967293, 16, []); (4294967293, 24, [1; 2; 3; 4; 5; 6]); (3, 17, [])] /\
  Forall (fun s => has_flag (seg_flags s) RTE_TCP_FIN_FLAG = true -> seg_seq s = 3) (packets demo_closed).
Proof.
  split; [vm_compute; reflexivity|].
  eapply Forall_impl; [exact (tcp_sender_stream 4294967292 demo_syn demo_closed demo_data demo_isn demo_opens
    demo_closed_history)|].
  intros s [_ H] Hf. destruct (H Hf) as [_ E]. rewrite E. vm_compute. reflexivity.
Defined.

Lemma tcp_send_buffer_exact_witness :
  contents (sb demo_sent) = demo_data /\
  exists a k (fin : bool), 0 <= a <= k /\ contents (sb demo_sent) = drop (Z.to_nat a) demo_data /\
    unacked (sb demo_sent) = k - a /\ sent_seq demo_sent = u32 (4294967292 + 1 + k + b2z fin).
Proof.
  split; [vm_compute; reflexivity|].
  destruct (tcp_send_buffer_exact 4294967292 demo_syn demo_sent demo_data demo_isn demo_opens demo_sent_history)
    as (a & k & fin & acked & Hr & _ & Hc & _ & Hu & Hn & Hk & _ & _ & Hst).
  - apply (bool_decide_unpack _). vm_compute. exact I.
  - vm_compute. reflexivity.
  - exists a, k, fin. split_and!; (assumption || lia).
Defined.

(** The receiver: the FIN first, then the data, then the read. *)
Definition demo_rx0 : tcp_rx := TcpOfo.with_recv_ack 4294967293 demo_start.
Definition demo_fin : tcp_segment := nth 3 (packets demo_closed) (mk_seg 0 0 0 0 (blank_frag 0) []).
Definition demo_bytes : tcp_segment := nth 2 (packets demo_closed) (mk_seg 0 0 0 0 (blank_frag 0) []).
Definition demo_receive (g : tcp_segment) (s : tcp_rx) : tcp_rx :=
  snd (TcpOfo.tcp_receive_stream_range (ofo_alloc demo_io) (blob_ok demo_io) true (seg_seq g) (seg_data g)
         (has_flag (seg_flags g) RTE_TCP_FIN_FLAG) s).
Definition demo_rx1 : tcp_rx := demo_receive demo_fin demo_rx0.
Definition demo_rx2 : tcp_rx := demo_receive demo_bytes demo_rx1.
Definition demo_read : recv_result * tcp_rx := TcpOfo.tcp_recv (blob_ok demo_io) true 100 demo_rx2.

Lemma demo_wire_history :
  rtc (wire_step (packets demo_closed)) (demo_rx0, []) (snd demo_read, recv_bytes (fst demo_read)).
Proof.
  apply (rtc_l _ _ (demo_rx1, [])).
  { unfold demo_rx1, demo_receive. apply wire_segment; [vm_compute; reflexivity| |right; vm_compute; reflexivity].
    apply list_elem_of_lookup_2 with 3%nat. vm_compute. reflexivity. }
  apply (rtc_l _ _ (demo_rx2, [])).
  { unfold demo_rx2, demo_receive. apply wire_segment; [vm_compute; reflexivity| |left; vm_compute; congruence].
    apply list_elem_of_lookup_2 with 2%nat. vm_compute. reflexivity. }
  apply rtc_once. unfold demo_read. apply (wire_read _ (blob_ok demo_io) true 100 demo_rx2 []). lia.
Qed.

