(* ===== verification/TcpCorners.v ===== *)
(** * Termination of the transmit path, and corners of the connection

    Every flush outside SACK recovery ends.  Then three behaviours of tcp.c
    that a user of the stack meets at its edges: a FIN deferred behind unsent
    data is lost when the flight before it is acknowledged; no step of a
    connection in CLOSE_WAIT changes the window its peer announced (a frame
    property proved through ingress, flush, timer, read and close); and a SYN-RECV timer that cannot
    get a fragment writes through a null pointer. *)

From S2P Require Import Prelude Config SeqNum TcpRtt TcpCc SackRange TcpSack TcpOptions OwnerTimer TcpOfo.
From S2P Require Import TcpOfoFacts TcpSndBuf TcpTcb TcpAck TcpTx TcpState TcpListen TcpSend TcpSendSteps TcpSendTx.
From S2P Require Import TcpSendTx TcpSendHistory TcpFlush TcpConnection.

(** ** The transmit loop ends *)

(** C4: the transmit loop of a connection ends: outside SACK recovery, with
    any outcome of address resolution, allocation, output ring and timer, a
    flush needs no more rounds than the bytes in the send buffer and four. *)
Theorem tcp_flush_terminates isn t0 t w io fuel
    (Hi : in_u32 isn) (H0 : opens isn t0) (H : rtc tcp_step (t0, []) (t, w))
    (Hlive : freed t = false) (Hmode : mode (score t) <> TCP_RECOVERY_SACK)
    (Hfuel : sb_len (sb t) + 4 <= Z.of_nat fuel) :
  exists r t', tcp_tx_flush fuel io t = (Some r, t').
Proof.
  enough (fst (tcp_tx_flush fuel io t) <> None) as Hn.
  { destruct (tcp_tx_flush fuel io t) as [[r|] t']; [by exists r, t'|done]. }
  unfold tcp_tx_flush. destruct (one_of _ _) eqn:E; [done|].
  assert (forall iss v a k f e, sending iss v a k f e t -> fst (flush_loop fuel io 0 t) <> None) as G.
  { intros iss v a k f e S. eapply (flush_loop_ends iss v); [by eapply still_here|done|].
    pose proof (unsent_left _ _ _ _ _ _ _ S). pose proof (sending_len _ _ _ _ _ _ _ S). pose proof (sd_range _ _ _ _ _ _ _ S).
    unfold todo. destruct (ack_pending t), (fin_deferred (opt t)); cbn [b2z]; lia. }
  apply (history_conn isn _ _ _ Hi H0) in H. destruct H as [_ _ S|a k f e _ S|f [Hd|Hd] _];
    [by eapply G|by eapply G| |congruence].
  unfold one_of in E. rewrite Hd in E. by vm_compute in E.
Qed.

Lemma tcp_flush_terminates_witness :
  sb_len (sb demo_sent) = 6 /\ exists r t', tcp_tx_flush 10 (fun _ => demo_io) demo_sent = (Some r, t').
Proof.
  split; [vm_compute; reflexivity|].
  apply (tcp_flush_terminates 4294967292 demo_syn demo_sent demo_data (fun _ => demo_io) 10 demo_isn demo_opens
    demo_sent_history); vm_compute; congruence.
Defined.

(** ** A deferred FIN *)

Section Silent.
Context (iss : Z) (v : list Z).

(** In FIN_WAIT_2 a flush sends queued control segments, retransmissions and
    ACKs, and leaves SND.NXT alone. *)
Lemma silent_tail a k f e io t (r := flush_tail io t) :
  sending iss v a k f e t -> st t = TCP_STATUS_FIN_WAIT_2 -> sending iss v a k f e (snd r) /\ st (snd r) = st t.
Proof.
  intros S Hs. unfold r, flush_tail. destruct (ack_pending t).
  { pose proof (sending_queue _ _ _ _ _ _ io RTE_TCP_ACK_FLAG (sent_seq t) t S ltac:(done)) as S1.
    pose proof (queue_state io RTE_TCP_ACK_FLAG (sent_seq t) t) as H1. unfold queue_control in S1, H1.
    destruct (tcp_make_fragment _ _ _ _ _) as [s t1]. destruct (tcp_enqueue_fragment s t1) as [ok t2]. cbn [snd] in *.
    destruct ok; [|done]. split; [|exact H1]. eapply sending_quiet; [|exact S1]. quiet. }
  assert (fin_ready t = false) as ->; [|done]. unfold fin_ready, one_of. rewrite Hs. reflexivity.
Qed.

Lemma silent_loop a k f e fuel io n t (r := flush_loop fuel io n t) :
  sending iss v a k f e t -> st t = TCP_STATUS_FIN_WAIT_2 -> sending iss v a k f e (snd r).
Proof.
  unfold r. clear r. revert n t. induction fuel as [|fuel IH]; intros n t S Hs; [done|]. cbn [flush_loop].
  destruct (flush_control_ok _ _ _ _ _ _ (tx_queue t) io n t S eq_refl) as [S1 H1].
  destruct (flush_control _ io n t) as [[[r|] n1] t1]; cbn [snd] in *; [done|].
  destruct (flush_recovery_ok _ _ _ _ _ _ (Datatypes.S fuel) io n1 t1 S1) as [S2 H2].
  destruct (flush_recovery _ io n1 t1) as [o t2]. cbn [snd] in *. assert (st t2 = TCP_STATUS_FIN_WAIT_2) as H02 by congruence.
  destruct o as [[x n2]|]; [|done].
  assert (tcp_tx_flush_sndbuf (io n2) t2 = (TCP_SNDBUF_IDLE, t2)) as E.
  { unfold tcp_tx_flush_sndbuf, one_of. rewrite H02. reflexivity. }
  rewrite E. destruct (silent_tail _ _ _ _ (io (Datatypes.S n2)) t2 S2 H02) as [S4 H4].
  destruct (flush_tail _ t2) as [[r|] t4]; cbn [snd] in *; [by destruct x|].
  specialize (IH (Datatypes.S (Datatypes.S n2)) t4 S4 ltac:(congruence)). by destruct x.
Qed.
End Silent.

(** The peer offers a large window and a segment size of 100 bytes; 1200
    bytes are written and 400 of them fit the initial congestion window. *)
Definition demo_run (t : tcb) : tcb := snd (tcp_tx_flush 50 (fun _ => demo_io) t).
Definition mss_synack : tcp_inbound :=
  mk_in 500 4294967293 synack_flags 60000 (TcpOptions.mk_rx 100 0 false false [] false 0 0) [].
Definition fin_open : tcb := tcp_ingress_stream demo_io mss_synack demo_syn_sent.
Definition fin_idle : tcb := demo_run fin_open.
Definition fin_data : list Z := replicate 1200 7.
Definition fin_written : tcb := snd (tcp_send demo_io fin_data fin_idle).
Definition fin_sent : tcb := demo_run fin_written.
Definition fin_close : tcb := snd (sock_cmd_close demo_io fin_sent).
Definition fin_closing : tcb := demo_run fin_close.
Definition fin_ack : tcp_inbound := mk_in 501 (sent_seq fin_closing) RTE_TCP_ACK_FLAG 60000 rx_init [].
Definition fin_lost : tcb := tcp_ingress_stream demo_io fin_ack fin_closing.

Definition usableb (t : tcb) : bool := negb (freed t) && negb (fault t).
Lemma usable_dec t : usableb t = true -> usable t.
Proof. intros H. apply andb_prop in H as [H1 H2]. apply negb_true_iff in H1, H2. by split. Qed.

Lemma run_step w t :
  usableb t && bool_decide (is_Some (fst (tcp_tx_flush 50 (fun _ => demo_io) t))) = true -> tcp_step (t, w) (demo_run t, w).
Proof.
  intros H. apply andb_prop in H as [Hu [r Hr]%bool_decide_eq_true].
  apply (step_flush 50 (fun _ => demo_io) r); [by apply usable_dec|]. exact (pair_fst _ _ Hr).
Qed.
Lemma ingress_step h w t :
  usableb t && (0 <=? in_ack h) && (in_ack h <? 2 ^ 32) && negb (bool_decide (st t = TCP_STATUS_CLOSED)) = true ->
  tcp_step (t, w) (tcp_ingress_stream demo_io h t, w).
Proof.
  intros H. apply andb_prop in H as [[[Hu H1]%andb_prop H2]%andb_prop H3].
  apply step_ingress; [by apply usable_dec|unfold in_u32; lia|]. by apply negb_true_iff, bool_decide_eq_false in H3.
Qed.
Lemma send_step d w t :
  usableb t && bool_decide (fst (tcp_send demo_io d t) = inr (zlen d)) = true ->
  tcp_step (t, w) (snd (tcp_send demo_io d t), w ++ d).
Proof.
  intros H. apply andb_prop in H as [Hu Hr%bool_decide_eq_true].
  pose proof (step_send demo_io d t w (usable_dec _ Hu)) as X. rewrite Hr in X. unfold accepted in X.
  rewrite take_ge in X by (unfold zlen; lia). exact X.
Qed.
Lemma close_step w t :
  usableb t && negb (bool_decide (st t = TCP_STATUS_SYN_RECV)) = true -> tcp_step (t, w) (snd (sock_cmd_close demo_io t), w).
Proof.
  intros H. apply andb_prop in H as [Hu Hr]. apply negb_true_iff, bool_decide_eq_false in Hr.
  apply step_close; [by apply usable_dec|done].
Qed.
Lemma demo_syn_step : tcp_step (demo_syn, []) (demo_syn_sent, []).
Proof. unfold demo_syn_sent. apply demo_step_flush. vm_compute. reflexivity. Qed.

Lemma fin_lost_history : rtc tcp_step (demo_syn, []) (fin_lost, fin_data).
Proof.
  apply (rtc_l _ _ (demo_syn_sent, [])); [exact demo_syn_step|].
  apply (rtc_l _ _ (fin_open, [])); [unfold fin_open; apply ingress_step; vm_compute; reflexivity|].
  apply (rtc_l _ _ (fin_idle, [])); [unfold fin_idle; apply run_step; vm_compute; reflexivity|].
  apply (rtc_l _ _ (fin_written, fin_data)); [unfold fin_written; apply (send_step fin_data []); vm_compute; reflexivity|].
  apply (rtc_l _ _ (fin_sent, fin_data)); [unfold fin_sent; apply run_step; vm_compute; reflexivity|].
  apply (rtc_l _ _ (fin_close, fin_data)); [unfold fin_close; apply close_step; vm_compute; reflexivity|].
  apply (rtc_l _ _ (fin_closing, fin_data)); [unfold fin_closing; apply run_step; vm_compute; reflexivity|].
  apply rtc_once. unfold fin_lost. apply ingress_step. vm_compute. reflexivity.
Qed.

(** C39: a connection closed by its application with data behind the
    congestion window loses that data: an ACK of the flight moves FIN_WAIT_1
    to FIN_WAIT_2 although the FIN is still deferred behind 800 unsent bytes,
    and from there no flush, whatever its environment, sends a byte or the
    FIN. *)
Theorem deferred_fin_lost :
  exists t w, rtc tcp_step (demo_syn, []) (t, w) /\ usable t /\ st t = TCP_STATUS_FIN_WAIT_2 /\
    fin_deferred (opt t) = true /\ una t = sent_seq t /\ sb_len (sb t) = 800 /\
    forall fuel io, sent_seq (snd (tcp_tx_flush fuel io t)) = sent_seq t.
Proof.
  exists fin_lost, fin_data. pose proof fin_lost_history as H.
  assert (st fin_lost = TCP_STATUS_FIN_WAIT_2) as Hs by (vm_compute; reflexivity).
  split; [exact H|]. split; [split; vm_compute; reflexivity|]. split; [exact Hs|].
  split; [vm_compute; reflexivity|]. split; [vm_compute; reflexivity|]. split; [vm_compute; reflexivity|].
  assert (freed fin_lost = false) as Hf by (vm_compute; reflexivity).
  apply (history_conn _ _ _ _ demo_isn demo_opens) in H. revert Hs Hf H. generalize fin_lost. intros t Hs Hf H fuel io.
  destruct H as [Hx _ _|a k f e _ S|f [Hd|Hd] _]; [rewrite Hs in Hx; nomem Hx| |congruence|congruence].
  unfold tcp_tx_flush. destruct (one_of _ _); [done|].
  pose proof (silent_loop _ _ _ _ _ _ fuel io 0 t S Hs) as S'.
  by rewrite (sd_sent _ _ _ _ _ _ _ S), (sd_sent _ _ _ _ _ _ _ S').
Qed.

(** ** Window updates in CLOSE_WAIT *)

(** The peer's window, as the connection knows it. *)
Definition peer_window (t : tcb) : Z * bool := (snd_wnd t, snd_wnd_valid t).

Local Abbreviation keeps f := (forall t : tcb, peer_window (f t) = peer_window t).

(** Setting another field. *)
Lemma window_drain_recv : keeps drain_recv.
Proof. done. Qed.
Lemma window_emit e : keeps (emit e).
Proof. done. Qed.
Lemma window_rx v : keeps (set_rx v).
Proof. done. Qed.
Lemma window_opt v : keeps (set_opt v).
Proof. done. Qed.
Lemma window_opt_store v : keeps (opt_store v).
Proof. done. Qed.
Lemma window_score v : keeps (set_score v).
Proof. done. Qed.
Lemma window_una v : keeps (set_una v).
Proof. done. Qed.
Lemma window_sb v : keeps (set_sb v).
Proof. done. Qed.
Lemma window_gauges v : keeps (set_gauges v).
Proof. done. Qed.
Lemma window_rtt v : keeps (set_rtt v).
Proof. done. Qed.
Lemma window_cc v : keeps (set_cc v).
Proof. done. Qed.
Lemma window_retries v : keeps (set_retries v).
Proof. done. Qed.
Lemma window_timer v : keeps (set_timer v).
Proof. done. Qed.
Lemma window_deadline v : keeps (set_close_deadline_cycles v).
Proof. done. Qed.
Lemma window_sent v : keeps (set_sent_seq v).
Proof. done. Qed.
Lemma window_ackp v : keeps (set_ack_pending v).
Proof. done. Qed.
Lemma window_queue v : keeps (set_tx_queue v).
Proof. done. Qed.
Lemma window_fin v : keeps (set_fin_deferred v).
Proof. done. Qed.
Lemma window_closed v : keeps (set_app_closed v).
Proof. done. Qed.
#[export] Hint Rewrite window_drain_recv window_emit window_rx window_opt window_opt_store window_score window_una window_sb window_gauges
  window_rtt window_cc window_retries window_timer window_deadline window_sent window_ackp window_queue window_fin window_closed : window.

(** A state that comes out of a pair is the second component of what made it. *)
Ltac window1 :=
  match goal with
  | |- context [match ?F with pair _ _ => _ end] =>
      let E := fresh in destruct F as [? ?] eqn:E; apply (f_equal snd) in E; cbn [snd] in E; subst
  | |- context [if ?b then _ else _] => destruct b
  | |- context [match ?x with _ => _ end] => destruct x
  end.
Ltac window := cbv zeta; cbn [fst snd]; repeat (window1; cbn [fst snd]); autorewrite with window; try reflexivity.

Lemma window_unregister : keeps nsock_tcp_conn_unregister.
Proof. intros t. unfold nsock_tcp_conn_unregister. window. Qed.
Lemma window_status s : keeps (tcp_stream_set_status s).
Proof.
  intros t. unfold tcp_stream_set_status. cbv zeta. set (t1 := if bool_decide _ then t else _).
  assert (peer_window t1 = peer_window t) as H by (unfold t1; by destruct (bool_decide _)). clearbody t1.
  destruct (_ && _); [|exact H]. rewrite <- H, <- (window_unregister t1). done.
Qed.
Lemma window_drain_send : keeps tcp_drain_send.
Proof. intros t. unfold tcp_drain_send, sndbuf_reset. window. Qed.
Lemma window_free : keeps nsock_free.
Proof.
  intros t. unfold nsock_free. cbv zeta. set (t1 := if bool_decide _ then _ else t).
  assert (peer_window t1 = peer_window t) as H by (unfold t1; destruct (bool_decide _); [apply window_status|done]). clearbody t1.
  destruct (tcp_sndbuf_free _ _) as [m b]. rewrite <- H. set (t2 := set_sb b _). transitivity (peer_window (nsock_tcp_conn_unregister t2)); [done|].
  by rewrite window_unregister.
Qed.
Lemma window_rst io : keeps (tcp_try_send_abort_reset io).
Proof. intros t. unfold tcp_try_send_abort_reset. window. Qed.
#[export] Hint Rewrite window_unregister window_status window_drain_send window_free window_rst : window.

Lemma window_abort io e r : keeps (tcp_abort_stream io e r).
Proof.
  intros t. unfold tcp_abort_stream. cbv zeta. set (t2 := if r && _ then _ else _).
  assert (peer_window t2 = peer_window t) as H2 by (unfold t2; destruct (_ && _); by autorewrite with window). clearbody t2.
  set (t3 := if bool_decide _ && _ then _ else t2).
  assert (peer_window t3 = peer_window t) as H3 by (unfold t3; by destruct (_ && _)). clearbody t3.
  destruct (_ || _); by autorewrite with window.
Qed.
Lemma window_arm io d t : peer_window (snd (arm_at io d t)) = peer_window t.
Proof. unfold arm_at. window. Qed.
Lemma window_arm_rto io d t : peer_window (snd (tcp_arm_data_rto io d t)) = peer_window t.
Proof. apply window_arm. Qed.
Lemma window_make io a b c t : peer_window (snd (tcp_make_fragment io a b c t)) = peer_window t.
Proof. unfold tcp_make_fragment. destruct (negb _); [done|]. destruct (has_flag _ _); [done|]. by destruct (tcp_options_apply_established _ _ _). Qed.
Lemma window_enqueue o t : peer_window (snd (tcp_enqueue_fragment o t)) = peer_window t.
Proof. unfold tcp_enqueue_fragment, nsock_tcp_tx_enqueue. destruct o; [|done]. by destruct (tx_full t). Qed.
#[export] Hint Rewrite window_abort window_arm window_arm_rto window_make window_enqueue : window.
Lemma window_control io a b t : peer_window (snd (queue_control io a b t)) = peer_window t.
Proof. unfold queue_control. window. Qed.
Lemma window_time_wait io t : peer_window (snd (tcp_enter_time_wait io t)) = peer_window t.
Proof. unfold tcp_enter_time_wait, tcp_arm_syn_timer. window. Qed.
#[export] Hint Rewrite window_control window_time_wait : window.

(** Receiving. *)
Lemma window_eof io t : peer_window (snd (tcp_apply_peer_eof io t)) = peer_window t.
Proof. unfold tcp_apply_peer_eof. window. Qed.
#[export] Hint Rewrite window_eof : window.
Lemma window_range io a b c t : peer_window (snd (tcp_receive_stream_range io a b c t)) = peer_window t.
Proof. unfold tcp_receive_stream_range. destruct (receive_range _ _ _ _ _ _) as [[] r]; by autorewrite with window. Qed.
#[export] Hint Rewrite window_range : window.
Lemma window_segment io h t : peer_window (snd (tcp_receive_stream_segment io h t)) = peer_window t.
Proof.
  unfold tcp_receive_stream_segment. cbv zeta. destruct (_ && _); [done|]. destruct (has h _); [done|].
  pose proof (window_range io (in_seq h) (in_data h) (has h RTE_TCP_FIN_FLAG) t) as H.
  destruct (tcp_receive_stream_range _ _ _ _ _) as [[] t1]; cbn [negb fst snd] in *; [|done]. rewrite <- H.
  set (t2 := if negb (recv_ack (rx t1) =? _) then _ else _). assert (peer_window t2 = peer_window t1) as H2 by (unfold t2; by destruct (negb _)). clearbody t2.
  set (t3 := if _ && _ then _ else _). assert (peer_window t3 = peer_window t1) as H3 by (unfold t3; destruct (_ && _); by autorewrite with window).
  clearbody t3. destruct (_ || _); by autorewrite with window.
Qed.
Lemma window_recv io n t : peer_window (snd (TcpState.tcp_recv io n t)) = peer_window t.
Proof.
  unfold TcpState.tcp_recv. destruct (recv_copy _ _ _) as [[res copied] r]. destruct copied; [|done].
  pose proof (window_eof io (set_rx r t)) as H. destruct (tcp_apply_peer_eof _ _) as [[] t2]; cbn [negb snd] in *; [|done].
  change (peer_window t) with (peer_window (set_rx r t)). rewrite <- H. window.
Qed.

(** Acknowledgements whose window is not used. *)
Lemma window_ack io ack t : peer_window (snd (tcp_process_peer_ack io ack t)) = peer_window t.
Proof.
  unfold tcp_process_peer_ack, tcp_process_peer_ack_ex. destruct (_ || _); [done|]. unfold ack_commit. cbv zeta.
  set (x1 := if negb (ack =? una t) then _ else _).
  assert (peer_window (snd x1) = peer_window t) as H1 by (unfold x1, ack_progress; destruct (negb _); [by destruct (tcp_sndbuf_remove _ _ _)|done]).
  destruct x1 as [[acked raw] t1]. cbn [snd] in H1. rewrite <- H1. clear H1.
  set (x2 := ack_scoreboard _ _ _ _). assert (peer_window (snd x2) = peer_window t1) as H2 by (unfold x2, ack_scoreboard; destruct (tcp_sack_update _ _ _ _ _ _); cbv zeta; by destruct (dsack_valid _)).
  destruct x2 as [res t2]. cbn [snd] in H2. rewrite <- H2. clear H2.
  set (x3 := ack_newreno _ _ _ _ _). assert (peer_window (snd x3) = peer_window t2) as H3 by (unfold x3, ack_newreno; by repeat case_match).
  destruct x3 as [[ex pa] t3]. cbn [snd] in H3. rewrite <- H3. clear H3.
  set (t4 := if negb _ then set_score _ t3 else t3). assert (peer_window t4 = peer_window t3) as H4 by (unfold t4; by destruct (negb _)). rewrite <- H4. clear H4. clearbody t4.
  set (x5 := ack_detect_loss _ _ _ _ _ _). assert (peer_window (snd x5) = peer_window t4) as H5 by (unfold x5, ack_detect_loss; cbv zeta; repeat (destruct (_ && _)); by repeat case_match).
  destruct x5 as [en t5]. cbn [snd] in H5. rewrite <- H5. clear H5.
  set (t6 := ack_continue_recovery _ _ _ _). assert (peer_window t6 = peer_window t5) as H6 by (unfold t6, ack_continue_recovery; by repeat case_match). rewrite <- H6. clear H6. clearbody t6.
  set (t7 := set_cc _ t6). assert (peer_window t7 = peer_window t6) as H7 by done. rewrite <- H7. clear H7. clearbody t7.
  set (t8 := if _ || _ then _ else t7). assert (peer_window t8 = peer_window t7) as H8 by (unfold t8; by destruct (_ || _)). rewrite <- H8. clear H8. clearbody t8.
  set (x9 := ack_timer _ _ _). assert (peer_window (snd x9) = peer_window t8) as H9.
  { unfold x9, ack_timer. destruct (ack =? una t); cbn [negb]; [done|]. cbv zeta. destruct (_ =? _); [by destruct (one_of _ _)|].
    match goal with |- context [tcp_arm_data_rto ?a ?b ?c] => pose proof (window_arm_rto a b c) as H; destruct (tcp_arm_data_rto a b c) as [[] u] end; cbn [snd] in *; by autorewrite with window. }
  destruct x9 as [ok t9]. cbn [snd fst] in *. destruct ok; cbn [negb snd]; [|done]. rewrite <- H9. clear. by repeat case_match.
Qed.
#[export] Hint Rewrite window_segment window_recv window_ack : window.

(** A segment in CLOSE_WAIT. *)
Lemma window_ingress io h t : st t = TCP_STATUS_CLOSE_WAIT -> peer_window (tcp_ingress_stream io h t) = peer_window t.
Proof.
  intros Hs. unfold tcp_ingress_stream. destruct (has h RTE_TCP_RST_FLAG); [destruct (tcp_rst_acceptable h t); by autorewrite with window|].
  rewrite Hs. cbv zeta. rewrite !(bool_decide_false (TCP_STATUS_CLOSE_WAIT = _)) by done. cbn [andb].
  destruct (tcp_options_process_inbound _ _ _ _ _ _) as [code o]. destruct (negb (code =? 0)); [by rewrite andb_false_r|]. cbn [tcp_state_ops].
  unfold tcp_state_close_wait, state_ack. destruct (has h RTE_TCP_ACK_FLAG); [|cbn [fst snd]; by autorewrite with window].
  pose proof (window_ack io (in_ack h) (opt_store o t)) as H. destruct (tcp_process_peer_ack _ _ _) as [[] t1]; cbn [snd] in H; by autorewrite with window in *.
Qed.


(** Sending. *)
Lemma window_schedule : keeps recovery_schedule.
Proof. intros t. unfold recovery_schedule. destruct (_ && _); [|done]. destruct (tcp_sack_set_pipe _ _ _) as [q s]. cbv zeta. by destruct (_ && _). Qed.
Lemma window_data_options io t : peer_window (snd (data_options io t)) = peer_window t.
Proof. unfold data_options. by destruct (tcp_options_apply_established _ _ _). Qed.
Lemma window_retransmit io t : peer_window (snd (tcp_tx_flush_recovery_retransmit io t)) = peer_window t.
Proof.
  unfold tcp_tx_flush_recovery_retransmit. cbv zeta. rewrite <- (window_schedule t). generalize (recovery_schedule t). clear t. intros t.
  destruct (negb _); [done|]. destruct (_ || _); [done|]. destruct (tcp_sndbuf_peek _ _); [|done]. unfold recovery_send. destruct (negb _); [done|].
  cbv zeta. pose proof (window_data_options io t) as H. destruct (data_options io t) as [[f|] t1]; cbn [snd] in H; [|done].
  rewrite <- H. destruct (_ =? 0); [done|]. by destruct (negb _).
Qed.
Lemma window_congestion t : peer_window (snd (congestion_flight t)) = peer_window t.
Proof. unfold congestion_flight. destruct (_ || _); [|done]. by destruct (tcp_sack_set_pipe _ _ _). Qed.
Lemma window_new_sent io a b c i t : peer_window (snd (new_data_sent io a b c i t)) = peer_window t.
Proof.
  unfold new_data_sent. cbv zeta. set (t1 := if i then _ else t). assert (peer_window t1 = peer_window t) as H1 by (unfold t1; by destruct i). clearbody t1.
  set (t2 := set_sent_seq _ _). assert (peer_window t2 = peer_window t1) as H2 by done. clearbody t2.
  set (t3 := if bool_decide _ then _ else _). assert (peer_window t3 = peer_window t2) as H3 by (unfold t3; by destruct (bool_decide _)). clearbody t3.
  set (t5 := set_cc _ _). assert (peer_window t5 = peer_window t3) as H5 by done. clearbody t5. destruct i; [|cbn [snd]; congruence].
  pose proof (window_arm_rto io (rto_ms (rtt t5)) (set_retries 0 t5)) as H. destruct (tcp_arm_data_rto _ _ _) as [[] t6]; cbn [snd] in *;
    rewrite ?window_abort, H; autorewrite with window; congruence.
Qed.
Lemma window_new_send io x t : peer_window (snd (new_data_send io x t)) = peer_window t.
Proof.
  unfold new_data_send. cbv zeta. pose proof (window_congestion t) as H1. destruct (congestion_flight t) as [cg t1]. cbn [snd] in H1. rewrite <- H1.
  destruct (_ <=? _); [done|]. destruct (_ =? 0); [done|]. destruct (negb (arp_ok io)); [done|].
  pose proof (window_data_options io t1) as H2. destruct (data_options io t1) as [f t2]. cbn [snd] in H2. rewrite <- H2.
  destruct (_ && _ && _ && _ && _); [done|]. destruct (_ =? 0); [done|]. destruct (negb _); [done|]. by rewrite window_new_sent.
Qed.
Lemma window_sndbuf io t : peer_window (snd (tcp_tx_flush_sndbuf io t)) = peer_window t.
Proof.
  unfold tcp_tx_flush_sndbuf. destruct (negb _); [done|]. destruct (_ || _); [done|]. destruct (negb _); [done|].
  destruct (tcp_sndbuf_peek _ _); [apply window_new_send|done].
Qed.
Lemma window_flush_control q io : forall k t, peer_window (snd (flush_control q io k t)) = peer_window t.
Proof.
  induction q as [|f q IH]; intros k t; [done|]. cbn [flush_control]. cbv zeta. unfold nsock_tcp_tx_requeue_head.
  destruct (negb _); [by destruct (tx_full _)|]. destruct (negb _); [by destruct (tx_full _)|]. rewrite IH. by destruct (_ && _).
Qed.
Lemma window_flush_recovery n io : forall k t, peer_window (snd (flush_recovery n io k t)) = peer_window t.
Proof.
  induction n as [|n IH]; intros k t; [done|]. cbn [flush_recovery]. pose proof (window_retransmit (io k) t) as H.
  destruct (tcp_tx_flush_recovery_retransmit _ _) as [[] t1]; cbn [snd] in *; try done. by rewrite IH.
Qed.
Lemma window_tail io t : peer_window (snd (flush_tail io t)) = peer_window t.
Proof.
  unfold flush_tail. destruct (ack_pending t); [window|]. destruct (fin_ready t); [|done].
  pose proof (window_make io fin_flags (sent_seq t) (recv_ack (rx t)) t) as H1. destruct (tcp_make_fragment _ _ _ _ _) as [f t1]. cbn [snd] in H1. rewrite <- H1.
  pose proof (window_enqueue f t1) as H2. destruct (tcp_enqueue_fragment f t1) as [[] t2]; cbn [snd] in *; [|by rewrite window_abort].
  rewrite <- H2. match goal with |- context [tcp_arm_data_rto ?a ?b ?c] => pose proof (window_arm_rto a b c) as H; destruct (tcp_arm_data_rto a b c) as [[] u] end;
    cbn [snd] in *; rewrite ?window_abort, H; by autorewrite with window.
Qed.
Lemma window_flush n io : forall k t, peer_window (snd (flush_loop n io k t)) = peer_window t.
Proof.
  induction n as [|n IH]; intros k t; [done|]. cbn [flush_loop]. pose proof (window_flush_control (tx_queue t) io k t) as H1.
  destruct (flush_control _ _ _ _) as [[[r|] k1] t1]; cbn [snd] in H1; [done|]. rewrite <- H1.
  pose proof (window_flush_recovery (S n) io k1 t1) as H2. destruct (flush_recovery _ _ _ _) as [[[r k2]|] t2]; cbn [snd] in H2; [|done].
  rewrite <- H2. pose proof (window_sndbuf (io k2) t2) as H3. destruct (tcp_tx_flush_sndbuf (io k2) t2) as [r3 t3]. cbn [snd] in H3.
  pose proof (window_tail (io (S k2)) t3) as H4. destruct (flush_tail (io (S k2)) t3) as [[r4|] t4]; cbn [snd] in H4;
    destruct r, r3; cbn [snd]; rewrite ?IH; congruence.
Qed.

(** Every step of a connection in CLOSE_WAIT. *)
Lemma window_close_into io s b t : peer_window (snd (close_into io s b t)) = peer_window t.
Proof.
  unfold close_into. assert (peer_window (snd (close_fin io t)) = peer_window t) as H1.
  { unfold close_fin. destruct (seq_lt _ _); [done|]. pose proof (window_control io fin_flags (sent_seq t) t) as H. by destruct (queue_control _ _ _ _) as [[] t1]. }
  destruct (close_fin io t) as [[] t1]; cbn [negb snd] in *; [|by rewrite window_abort]. rewrite <- H1. cbv zeta.
  set (t2 := tcp_stream_set_status s _). assert (peer_window t2 = peer_window t1) as H2 by (unfold t2; by autorewrite with window). clearbody t2. rewrite <- H2.
  assert (peer_window (snd (close_arm io t2)) = peer_window t2) as H3 by (unfold close_arm; destruct (negb _); [apply window_arm_rto|]; destruct (negb _); [apply window_arm|done]).
  destruct (close_arm io t2) as [[] t3]; cbn [negb snd] in *; [|by rewrite window_abort]. rewrite <- H3. destruct b, (fin_deferred _); by autorewrite with window.
Qed.

Lemma window_step x y : tcp_step x y -> st (fst x) = TCP_STATUS_CLOSE_WAIT -> peer_window (fst y) = peer_window (fst x).
Proof.
  intros [io data t w _|fuel io r t t' w _ E|io h t w _ _ _|io now t w _|io len t w _|io t w _ _|nd t w _ _|v t w _ _|on sec t w _ _|io e c t w _] Hs; cbn [fst snd] in *.
  - unfold tcp_send. destruct (_ =? 0); [done|]. destruct (negb _); [done|]. cbv zeta. destruct (_ =? 0); [done|].
    destruct (tcp_sndbuf_append _ _ _ _) as [n [m b]]. by destruct (n <=? 0).
  - unfold tcp_tx_flush in E. destruct (one_of _ _); [by injection E as _ <-|]. pose proof (window_flush fuel io 0 t) as H. by rewrite E in H.
  - by apply window_ingress.
  - unfold tcp_timer_cb. destruct (_ && _); [by rewrite window_abort|]. rewrite Hs. unfold timer_established. destruct (_ =? _); [done|].
    destruct (_ <=? _); [by rewrite window_abort|]. cbv zeta. unfold rearm_or_abort.
    match goal with |- context [tcp_arm_data_rto ?a ?b ?c] => pose proof (window_arm_rto a b c) as H; destruct (tcp_arm_data_rto a b c) as [[] u] end;
      cbn [snd] in *; rewrite ?window_abort, ?window_emit, H; done.
  - apply window_recv.
  - unfold sock_cmd_close. destruct (app_closed t); [done|]. unfold tcp_close. set (t0 := emit _ _). assert (peer_window t0 = peer_window t) as H0 by done.
    assert (st t0 = TCP_STATUS_CLOSE_WAIT) as -> by done. clearbody t0. destruct (_ && _); [cbn [snd]; by rewrite window_abort|]. cbv zeta.
    rewrite window_close_into. by destruct (_ && _).
  - done.
  - unfold socket_option_nodelay. cbv zeta. by destruct (nodelay _).
  - done.
  - unfold tcp_force_abort. rewrite window_abort. by destruct c.
Qed.

(** Steps that leave a connection in CLOSE_WAIT. *)
Definition half_closed_step (x y : tcb * list Z) : Prop :=
  tcp_step x y /\ st (fst x) = TCP_STATUS_CLOSE_WAIT /\ st (fst y) = TCP_STATUS_CLOSE_WAIT.

Lemma close_wait_len isn w t : conn isn w t -> st t = TCP_STATUS_CLOSE_WAIT -> freed t = false -> 0 <= sb_len (sb t).
Proof.
  intros C Hs Hf. destruct C as [H _ _|a k f e _ S|f [Hd|Hd] _]; [|idtac|congruence..].
  - exfalso. rewrite Hs in H. nomem H.
  - rewrite (sending_len _ _ _ _ _ _ _ S). pose proof (sd_range _ _ _ _ _ _ _ S). lia.
Qed.

Lemma window_zero_send io data t : st t = TCP_STATUS_CLOSE_WAIT -> peer_window t = (0, true) -> 0 <= sb_len (sb t) ->
  accepted data (fst (tcp_send io data t)) = [] /\ (data <> [] -> tcp_send io data t = (inl EAGAIN, t)).
Proof.
  intros Hs Hw Hl. unfold peer_window in Hw. injection Hw as Hw Hv. destruct data as [|b data]; [done|].
  enough (tcp_send io (b :: data) t = (inl EAGAIN, t)) as -> by done. unfold tcp_send.
  assert ((zlen (b :: data) =? 0) = false) as -> by (apply Z.eqb_neq; unfold zlen; cbn [length]; lia).
  unfold one_of. rewrite Hs, bool_decide_true by (apply elem_of_cons; right; apply elem_of_cons; by left). cbn [negb]. cbv zeta.
  unfold tcp_app_snd_space, tcp_app_snd_limit. rewrite Hv, Hw. cbn [andb]. change (0 <? TCP_SNDBUF_APP_HIWAT) with true. cbv iota zeta.
  by assert ((0 <=? sb_len (sb t)) = true) as -> by lia.
Qed.

(** What holds of every half-closed history behind an open connection: the
    window is where the FIN left it, and if that was zero no write is taken. *)
Lemma half_closed_stuck isn x y :
  conn isn (snd x) (fst x) -> rtc half_closed_step x y ->
  conn isn (snd y) (fst y) /\ peer_window (fst y) = peer_window (fst x) /\ (peer_window (fst x) = (0, true) -> snd y = snd x).
Proof.
  intros C H. revert C. induction H as [x|x y z (Hs & Hx & Hy) _ IH]; [done|]. intros C.
  pose proof (window_step _ _ Hs Hx) as Hw. pose proof (step_conn _ _ _ Hs C) as C'.
  destruct (IH C') as (Cz & Hz & Hn). split; [done|]. split; [congruence|]. intros H0. rewrite Hn by congruence. clear -C Hs Hx H0.
  destruct Hs as [io data t w [Hf _]| | | | | | | | |]; try done; cbn [fst snd] in *.
  destruct (window_zero_send io data t Hx H0) as [-> _]; [by eapply close_wait_len|]. by rewrite app_nil_r.
Qed.

(** A window of ten bytes is filled; the peer acknowledges it with a zero
    window and its FIN, and opens the window later. *)
Definition ten_synack : tcp_inbound := mk_in 500 4294967293 synack_flags 10 rx_init [].
Definition half_open : tcb := tcp_ingress_stream demo_io ten_synack demo_syn_sent.
Definition half_idle : tcb := demo_run half_open.
Definition half_data : list Z := replicate 10 9.
Definition half_written : tcb := snd (tcp_send demo_io half_data half_idle).
Definition half_sent : tcb := demo_run half_written.
Definition half_fin : tcp_inbound := mk_in 501 (sent_seq half_sent) fin_flags 0 rx_init [].
Definition half_closed : tcb := tcp_ingress_stream demo_io half_fin half_sent.
Definition half_update : tcp_inbound := mk_in 502 (sent_seq half_sent) RTE_TCP_ACK_FLAG 1000 rx_init [].
Definition half_updated : tcb := tcp_ingress_stream demo_io half_update half_closed.
Definition half_zero : tcb := tcp_ingress_stream demo_io (mk_in 501 (sent_seq half_sent) RTE_TCP_ACK_FLAG 0 rx_init []) half_sent.
Definition half_reopened : tcb := tcp_ingress_stream demo_io (mk_in 501 (sent_seq half_sent) RTE_TCP_ACK_FLAG 1000 rx_init []) half_zero.

Lemma half_history : rtc tcp_step (demo_syn, []) (half_closed, half_data).
Proof.
  apply (rtc_l _ _ (demo_syn_sent, [])); [exact demo_syn_step|].
  apply (rtc_l _ _ (half_open, [])); [unfold half_open; apply ingress_step; vm_compute; reflexivity|].
  apply (rtc_l _ _ (half_idle, [])); [unfold half_idle; apply run_step; vm_compute; reflexivity|].
  apply (rtc_l _ _ (half_written, half_data)); [unfold half_written; apply (send_step half_data []); vm_compute; reflexivity|].
  apply (rtc_l _ _ (half_sent, half_data)); [unfold half_sent; apply run_step; vm_compute; reflexivity|].
  apply rtc_once. unfold half_closed. apply ingress_step. vm_compute. reflexivity.
Qed.
Lemma half_quiet : rtc half_closed_step (half_closed, half_data) (half_updated, half_data).
Proof.
  apply rtc_once. split; [unfold half_updated; apply ingress_step; vm_compute; reflexivity|]. split; vm_compute; reflexivity.
Qed.

(** C40: a connection in CLOSE_WAIT does not hear window updates: after any
    history of an opened connection, and any further steps the connection
    spends in CLOSE_WAIT (segments, flushes, timers, reads, writes, options),
    the peer's window is what it was at the first of them; if that was zero,
    nothing was written meanwhile and every write still gets EAGAIN.  A real
    history reaches this: the peer fills its window, closes its half with a
    zero window and then opens the window; the same update to a connection
    still in ESTABLISHED opens it. *)
Theorem close_wait_window_stuck :
  (forall isn t0 t w t' w', in_u32 isn -> opens isn t0 -> rtc tcp_step (t0, []) (t, w) -> rtc half_closed_step (t, w) (t', w') ->
     peer_window t' = peer_window t /\
     (peer_window t = (0, true) -> w' = w /\
        (st t' = TCP_STATUS_CLOSE_WAIT -> freed t' = false ->
         forall io data, data <> [] -> tcp_send io data t' = (inl EAGAIN, t')))) /\
  (exists w, rtc tcp_step (demo_syn, []) (half_closed, w) /\ rtc half_closed_step (half_closed, w) (half_updated, w)) /\
  peer_window half_closed = (0, true) /\ in_win half_update = 1000 /\ una half_updated = sent_seq half_updated /\
  st half_reopened = TCP_STATUS_ESTABLISHED /\ peer_window half_zero = (0, true) /\ peer_window half_reopened = (1000, true).
Proof.
  split.
  - intros isn t0 t w t' w' Hi Ho H Hc. pose proof (history_conn _ _ _ _ Hi Ho H) as C.
    destruct (half_closed_stuck isn (t, w) (t', w') C Hc) as (C' & Hw & Hn). cbn [fst snd] in *. split; [done|].
    intros H0. split; [auto|]. intros Hs Hf io data Hd. apply window_zero_send; [done|congruence|by eapply close_wait_len|done].
  - split; [exists half_data; split; [exact half_history|exact half_quiet]|]. split_and!; vm_compute; reflexivity.
Qed.

(** ** The SYN+ACK retransmission without a fragment *)

Lemma make_none io flags seq ack t : frag_ok io = false -> tcp_make_fragment io flags seq ack t = (None, t).
Proof. intros H. unfold tcp_make_fragment. by rewrite H. Qed.

(** when a half-open connection's SYN+ACK timer expires and no fragment
    can be allocated, the options are written through the null pointer. *)
Theorem syn_recv_timer_null io now t
    (Hs : st t = TCP_STATUS_SYN_RECV) (Hr : retries t < TCP_SYN_MAX_RETRIES) (Hd : close_deadline_cycles t = 0)
    (Hf : frag_ok io = false) :
  fault (tcp_timer_cb io now t) = true.
Proof.
  unfold tcp_timer_cb. rewrite Hd, Hs. cbn [negb andb Z.eqb]. unfold timer_syn_recv.
  assert ((retries t <? TCP_SYN_MAX_RETRIES) = true) as -> by lia. cbv zeta.
  set (t1 := set_syn_retransmitted _ _). clearbody t1. unfold make_synack. rewrite make_none by done. reflexivity.
Qed.

Definition starved_io : tcp_io :=
  mk_io 1000 1000000 1000000 true false true true true true (fun _ => true) (fun _ => true)
    (fun _ => mk_omem 1000 1000 1000 1000 true true) (fun _ => true).
Definition half_open_child : tcb := tcp_stream_set_status TCP_STATUS_SYN_RECV demo_block.

Lemma syn_recv_timer_null_witness :
  st half_open_child = TCP_STATUS_SYN_RECV /\ fault (tcp_timer_cb starved_io 0 half_open_child) = true.
Proof.
  split; [vm_compute; reflexivity|]. apply syn_recv_timer_null; vm_compute; reflexivity.
Defined.
