(* ===== verification/Json.v ===== *)
(** * JSON documents and scalar values (third_party/jsmn/jsmn.h,
    traffic-gen/core/value.c, traffic-gen/core/scenario_json.c)

    A document is its text, a list of bytes, and the tokens jsmn found in it.
    A string a function leaves in a character array is the C string there; its
    failure, the result -1, is [None].  [finite] is the test
    [isfinite(strtod(s))] and [order] the sign of the comparison of two numbers
    read by [strtold]. *)

From stdpp Require Import strings.
From S2P Require Import Prelude.

(** ** Typed scalar values (traffic-gen/core/value.h); [vtext] is the C string of the text *)

Inductive tg_value_kind := TG_VALUE_NULL | TG_VALUE_STRING | TG_VALUE_NUMBER | TG_VALUE_BOOL.
#[global] Instance value_kind_eq_dec : EqDecision tg_value_kind.
Proof. solve_decision. Defined.

Record tg_value := mk_value { vkind : tg_value_kind; vtext : list Z }.

(** ** Tokens *)

Definition TG_VALUE_CAP : Z := 1025.

Inductive jsmntype := JSMN_UNDEFINED | JSMN_OBJECT | JSMN_ARRAY | JSMN_STRING | JSMN_PRIMITIVE.
#[global] Instance jsmntype_eq_dec : EqDecision jsmntype.
Proof. solve_decision. Defined.

Record jsmntok := mk_tok { ttype : jsmntype; tstart : Z; tend : Z; tsize : Z; tparent : Z }.

(** ** The tokenizer *)

Inductive jsmnerr := JSMN_ERROR_NOMEM | JSMN_ERROR_INVAL | JSMN_ERROR_PART.
#[global] Instance jsmnerr_eq_dec : EqDecision jsmnerr.
Proof. solve_decision. Defined.

(** [toknext] is the number of tokens allocated so far. *)
Record jsmn_parser := mk_parser { pos : Z; toksuper : Z; toks : list jsmntok }.
Definition jsmn_init : jsmn_parser := mk_parser 0 (-1) [].
Definition toknext (p : jsmn_parser) : Z := zlen (toks p).

(** [json[i]]. *)
Definition byte_at (s : list Z) (i : Z) : Z := nth (Z.to_nat i) s 0.

Definition tok_alter (f : jsmntok -> jsmntok) (i : Z) (l : list jsmntok) : list jsmntok :=
  if i <? 0 then l else alter f (Z.to_nat i) l.
Definition size_incr (t : jsmntok) : jsmntok := mk_tok (ttype t) (tstart t) (tend t) (tsize t + 1) (tparent t).
Definition close_at (e : Z) (t : jsmntok) : jsmntok := mk_tok (ttype t) (tstart t) e (tsize t) (tparent t).

(** [jsmn_alloc_token] and [jsmn_fill_token]; [None] when there is no room. *)
Definition new_token (cap : Z) (ty : jsmntype) (s e : Z) (p : jsmn_parser) : option jsmn_parser :=
  if cap <=? toknext p then None else Some (mk_parser (pos p) (toksuper p) (toks p ++ [mk_tok ty s e 0 (toksuper p)])).
Definition at_pos (v : Z) (p : jsmn_parser) : jsmn_parser := mk_parser v (toksuper p) (toks p).

Definition is_ws (c : Z) : bool := (c =? 9) || (c =? 13) || (c =? 10) || (c =? 32).
Definition ends_primitive (c : Z) : bool := is_ws c || (c =? 44) || (c =? 93) || (c =? 125).

(** The end of the primitive that starts with the bytes [l] at [i]. *)
Fixpoint primitive_end (i : Z) (l : list Z) : option Z :=
  match l with
  | [] => Some i
  | c :: t =>
      if ends_primitive c then Some i
      else if (c <? 32) || (127 <=? c) then None else primitive_end (i + 1) t
  end.
Definition jsmn_parse_primitive (cap : Z) (json : list Z) (p : jsmn_parser) : jsmnerr + jsmn_parser :=
  match primitive_end (pos p) (drop (Z.to_nat (pos p)) json) with
  | None => inl JSMN_ERROR_INVAL
  | Some e =>
      match new_token cap JSMN_PRIMITIVE (pos p) e p with
      | None => inl JSMN_ERROR_NOMEM
      | Some p' => inr (at_pos (e - 1) p')
      end
  end.

Definition is_xdigit (c : Z) : bool :=
  ((48 <=? c) && (c <=? 57)) || ((65 <=? c) && (c <=? 70)) || ((97 <=? c) && (c <=? 102)).
Definition simple_escape (c : Z) : bool :=
  existsb (Z.eqb c) [34; 47; 92; 98; 102; 114; 110; 116].

(** The closing quote of a string whose next bytes are [l] at [i]. *)
Fixpoint string_end (i : Z) (l : list Z) : jsmnerr + Z :=
  match l with
  | [] => inl JSMN_ERROR_PART
  | c :: t =>
      if c =? 34 then inr i
      else if c =? 92 then
        match t with
        | [] => inl JSMN_ERROR_PART
        | e :: t1 =>
            if simple_escape e then string_end (i + 2) t1
            else if e =? 117 then
              match t1 with
              | a :: b :: x :: d :: t2 =>
                  if is_xdigit a && is_xdigit b && is_xdigit x && is_xdigit d then string_end (i + 6) t2
                  else inl JSMN_ERROR_INVAL
              | _ => inl JSMN_ERROR_INVAL
              end
            else inl JSMN_ERROR_INVAL
        end
      else string_end (i + 1) t
  end.
Definition jsmn_parse_string (cap : Z) (json : list Z) (p : jsmn_parser) : jsmnerr + jsmn_parser :=
  match string_end (pos p + 1) (drop (Z.to_nat (pos p + 1)) json) with
  | inl e => inl e
  | inr e =>
      match new_token cap JSMN_STRING (pos p + 1) e p with
      | None => inl JSMN_ERROR_NOMEM
      | Some p' => inr (at_pos e p')
      end
  end.

Definition count_child (p : jsmn_parser) : jsmn_parser := mk_parser (pos p) (toksuper p) (tok_alter size_incr (toksuper p) (toks p)).

(** The innermost token still open, among the first [n]. *)
Fixpoint last_open (n : nat) (l : list jsmntok) : option nat :=
  match n with
  | O => None
  | S k =>
      match l !! k with
      | Some t => if negb (tstart t =? -1) && (tend t =? -1) then Some k else last_open k l
      | None => last_open k l
      end
  end.
(** With no token at all the search loop does not run, and nothing happens. *)
Definition close_container (c : Z) (p : jsmn_parser) : jsmnerr + jsmn_parser :=
  match toks p with
  | [] => inr p
  | _ =>
      match last_open (length (toks p)) (toks p) with
      | None => inl JSMN_ERROR_INVAL
      | Some k =>
          let t := nth k (toks p) (mk_tok JSMN_UNDEFINED 0 0 0 0) in
          if bool_decide (ttype t = if c =? 125 then JSMN_OBJECT else JSMN_ARRAY)
          then inr (mk_parser (pos p) (tparent t) (tok_alter (close_at (pos p + 1)) (Z.of_nat k) (toks p)))
          else inl JSMN_ERROR_INVAL
      end
  end.

Definition super_type (p : jsmn_parser) : jsmntype := ttype (nth (Z.to_nat (toksuper p)) (toks p) (mk_tok JSMN_UNDEFINED 0 0 0 0)).

(** One round of the main loop; the tokens counted are those allocated. *)
Definition jsmn_round (cap : Z) (json : list Z) (p : jsmn_parser) : jsmnerr + jsmn_parser :=
  let c := byte_at json (pos p) in
  if (c =? 123) || (c =? 91) then
    if cap <=? toknext p then inl JSMN_ERROR_NOMEM
    else
      let p1 := count_child p in
      inr (mk_parser (pos p) (toknext p)
             (toks p1 ++ [mk_tok (if c =? 123 then JSMN_OBJECT else JSMN_ARRAY) (pos p) (-1) 0 (toksuper p)]))
  else if (c =? 125) || (c =? 93) then close_container c p
  else if c =? 34 then
    match jsmn_parse_string cap json p with inl e => inl e | inr p1 => inr (count_child p1) end
  else if is_ws c then inr p
  else if c =? 58 then inr (mk_parser (pos p) (toknext p - 1) (toks p))
  else if c =? 44 then
    if negb (toksuper p =? -1) && negb (bool_decide (super_type p = JSMN_ARRAY)) && negb (bool_decide (super_type p = JSMN_OBJECT))
    then inr (mk_parser (pos p) (tparent (nth (Z.to_nat (toksuper p)) (toks p) (mk_tok JSMN_UNDEFINED 0 0 0 (-1)))) (toks p))
    else inr p
  else match jsmn_parse_primitive cap json p with inl e => inl e | inr p1 => inr (count_child p1) end.

Definition is_open (t : jsmntok) : bool := negb (tstart t =? -1) && (tend t =? -1).

(** Every round moves [pos] forward: as many rounds as the text has bytes. *)
Fixpoint jsmn_loop (fuel : nat) (cap : Z) (json : list Z) (p : jsmn_parser) : jsmnerr + jsmn_parser :=
  match fuel with
  | O => inr p
  | S k =>
      if pos p <? zlen json then
        match jsmn_round cap json p with
        | inl e => inl e
        | inr p1 => jsmn_loop k cap json (at_pos (pos p1 + 1) p1)
        end
      else inr p
  end.
Definition jsmn_parse (cap : Z) (json : list Z) : jsmnerr + list jsmntok :=
  match jsmn_loop (length json) cap json jsmn_init with
  | inl e => inl e
  | inr p => if existsb is_open (toks p) then inl JSMN_ERROR_PART else inr (toks p)
  end.

(** ** Strings *)

Record tg_json_doc := mk_doc { text_of : list Z; tokens : list jsmntok }.
Definition token_count (d : tg_json_doc) : Z := zlen (tokens d).
Definition no_token : jsmntok := mk_tok JSMN_UNDEFINED 0 0 0 0.
Definition tok (d : tg_json_doc) (t : Z) : jsmntok := nth (Z.to_nat t) (tokens d) no_token.
Definition has_token (d : tg_json_doc) (t : Z) : bool := (0 <=? t) && (t <? token_count d).

(** The bytes of a token. *)
Definition span (s : list Z) (t : jsmntok) : list Z := take (Z.to_nat (tend t - tstart t)) (drop (Z.to_nat (tstart t)) s).

Definition hex_digit (c : Z) : Z := if c <=? 57 then c - 48 else if c <=? 70 then c - 65 + 10 else c - 97 + 10.
Definition hex4 (a b c d : Z) : option Z :=
  if is_xdigit a && is_xdigit b && is_xdigit c && is_xdigit d
  then Some (((hex_digit a * 16 + hex_digit b) * 16 + hex_digit c) * 16 + hex_digit d) else None.

(** [strchr(esc, c)], which finds the terminator too. *)
Definition escaped (c : Z) : option Z :=
  if c =? 34 then Some 34 else if c =? 92 then Some 92 else if c =? 47 then Some 47
  else if c =? 98 then Some 8 else if c =? 102 then Some 12 else if c =? 110 then Some 10
  else if c =? 114 then Some 13 else if c =? 116 then Some 9 else if c =? 0 then Some 0 else None.

(** The bytes written for a code point of an escape. *)
Definition emit_code (c : Z) : list Z :=
  if c <? 128 then [c]
  else if c <? 2048 then [Z.lor 192 (Z.shiftr c 6); Z.lor 128 (Z.land c 63)]
  else if c <? 65536 then [Z.lor 224 (Z.shiftr c 12); Z.lor 128 (Z.land (Z.shiftr c 6) 63); Z.lor 128 (Z.land c 63)]
  else [Z.lor 240 (Z.shiftr c 18); Z.lor 128 (Z.land (Z.shiftr c 12) 63); Z.lor 128 (Z.land (Z.shiftr c 6) 63);
        Z.lor 128 (Z.land c 63)].

(** A byte sequence of the text that starts with [c] of 128 or more. *)
Definition raw_ok (c : Z) (parts : list Z) : bool :=
  let bytes := 1 + zlen parts in
  let cp := foldl (fun v part => Z.lor (Z.shiftl v 6) (Z.land part 63)) (Z.land c (Z.shiftr 127 bytes)) parts in
  (194 <=? c) && (c <=? 244)
  && forallb (fun part => Z.land part 192 =? 128) parts
  && (cp <=? 1114111) && negb ((55296 <=? cp) && (cp <=? 57343))
  && negb ((bytes =? 3) && (cp <? 2048)) && negb ((bytes =? 4) && (cp <? 65536)).

(** What one character writes, then the rest after it. *)
Definition put (cap n : Z) (bytes : list Z) (rest : Z -> option (list Z)) : option (list Z) :=
  if cap <=? n + zlen bytes then None else option_map (app bytes) (rest (n + zlen bytes)).

Fixpoint read_chars (cap n : Z) (l : list Z) : option (list Z) :=
  match l with
  | [] => Some []
  | c :: l1 =>
      if c <? 32 then None
      else if c =? 92 then
        match l1 with
        | [] => None
        | e :: l2 =>
            match escaped e with
            | Some b => put cap n [b] (fun m => read_chars cap m l2)
            | None =>
                if e =? 117 then
                  match l2 with
                  | a :: b :: x :: d :: l3 =>
                      match hex4 a b x d with
                      | None => None
                      | Some u =>
                          if (55296 <=? u) && (u <=? 56319) then
                            match l3 with
                            | s :: v :: a' :: b' :: x' :: d' :: l4 =>
                                if negb (s =? 92) || negb (v =? 117) then None
                                else match hex4 a' b' x' d' with
                                | None => None
                                | Some low =>
                                    if (low <? 56320) || (57343 <? low) then None
                                    else put cap n (emit_code (65536 + (u - 55296) * 1024 + low - 56320))
                                           (fun m => read_chars cap m l4)
                                end
                            | _ => None
                            end
                          else if (56320 <=? u) && (u <=? 57343) then None
                          else if u =? 0 then None
                          else put cap n (emit_code u) (fun m => read_chars cap m l3)
                      end
                  | _ => None
                  end
                else None
            end
        end
      else if 128 <=? c then
        if 240 <=? c then
          match l1 with
          | p1 :: p2 :: p3 :: l2 => if raw_ok c [p1; p2; p3] then put cap n [c; p1; p2; p3] (fun m => read_chars cap m l2) else None
          | _ => None
          end
        else if 224 <=? c then
          match l1 with
          | p1 :: p2 :: l2 => if raw_ok c [p1; p2] then put cap n [c; p1; p2] (fun m => read_chars cap m l2) else None
          | _ => None
          end
        else
          match l1 with
          | p1 :: l2 => if raw_ok c [p1] then put cap n [c; p1] (fun m => read_chars cap m l2) else None
          | _ => None
          end
      else put cap n [c] (fun m => read_chars cap m l1)
  end.

Definition tg_string_read (d : tg_json_doc) (t cap : Z) : option (list Z) :=
  if negb (has_token d t) || negb (bool_decide (ttype (tok d t) = JSMN_STRING)) || (cap =? 0) then None
  else option_map cstr (read_chars cap 0 (span (text_of d) (tok d t))).

(** ** Scalars *)

Definition is_digit (c : Z) : bool := (48 <=? c) && (c <=? 57).
Fixpoint skip_digits (l : list Z) : list Z :=
  match l with c :: t => if is_digit c then skip_digits t else l | [] => [] end.

Definition after_int (l : list Z) : option (list Z) :=
  match l with
  | 48 :: t => Some t
  | c :: _ => if (c <? 49) || (57 <? c) then None else Some (skip_digits l)
  | [] => None
  end.
Definition after_digits (l : list Z) : option (list Z) :=
  match l with c :: _ => if is_digit c then Some (skip_digits l) else None | [] => None end.
Definition after_fraction (l : list Z) : option (list Z) :=
  match l with 46 :: t => after_digits t | _ => Some l end.
Definition after_exponent (l : list Z) : option (list Z) :=
  match l with
  | c :: t =>
      if (c =? 101) || (c =? 69)
      then after_digits (match t with s :: t1 => if (s =? 43) || (s =? 45) then t1 else t | [] => [] end)
      else Some l
  | [] => Some []
  end.
Definition number_syntax (s : list Z) : bool :=
  match after_int (match s with 45 :: t => t | _ => s end) with
  | None => false
  | Some l1 =>
      match after_fraction l1 with
      | None => false
      | Some l2 => match after_exponent l2 with Some [] => true | _ => false end
      end
  end.

Section Scalars.
Context (finite : list Z -> bool) (order : list Z -> list Z -> Z).

Definition number (s : list Z) : bool := number_syntax s && finite s.

Definition tg_value_read (d : tg_json_doc) (t : Z) : option tg_value :=
  if negb (has_token d t) then None
  else match ttype (tok d t) with
  | JSMN_STRING => option_map (mk_value TG_VALUE_STRING) (tg_string_read d t TG_VALUE_CAP)
  | JSMN_PRIMITIVE =>
      let len := tend (tok d t) - tstart (tok d t) in
      if (len <? 1) || (TG_VALUE_CAP <=? len) then None
      else
        let s := cstr (span (text_of d) (tok d t)) in
        if bool_decide (s = text "null") then Some (mk_value TG_VALUE_NULL s)
        else if bool_decide (s = text "true") || bool_decide (s = text "false") then Some (mk_value TG_VALUE_BOOL s)
        else if number s then Some (mk_value TG_VALUE_NUMBER s) else None
  | _ => None
  end.

(** The sign of [strcmp]. *)
Fixpoint strcmp (a b : list Z) : Z :=
  match a, b with
  | [], [] => 0
  | [], _ => -1
  | _, [] => 1
  | x :: a', y :: b' => if x <? y then -1 else if y <? x then 1 else strcmp a' b'
  end.

Definition tg_value_compare (a : tg_value) (op : list Z) (b : tg_value) : option bool :=
  if negb (bool_decide (vkind a = vkind b)) then None
  else
    let cmp := if bool_decide (vkind a = TG_VALUE_NUMBER) then order (vtext a) (vtext b) else strcmp (vtext a) (vtext b) in
    if bool_decide (op = text "==") then Some (cmp =? 0)
    else if bool_decide (op = text "!=") then Some (negb (cmp =? 0))
    else if negb (bool_decide (vkind a = TG_VALUE_NUMBER)) && negb (bool_decide (vkind a = TG_VALUE_STRING)) then None
    else if bool_decide (op = text "<") then Some (cmp <? 0)
    else if bool_decide (op = text "<=") then Some (cmp <=? 0)
    else if bool_decide (op = text ">") then Some (0 <? cmp)
    else if bool_decide (op = text ">=") then Some (0 <=? cmp)
    else None.
End Scalars.

(** ** Documents *)

(** The first token, from [t] on among [l], that does not start before [e]. *)
Fixpoint next_from (e t : Z) (l : list jsmntok) : Z :=
  match l with
  | x :: r => if tstart x <? e then next_from e (t + 1) r else t
  | [] => t
  end.
Definition tg_json_next (d : tg_json_doc) (t : Z) : Z :=
  next_from (tend (tok d t)) (t + 1) (drop (Z.to_nat (t + 1)) (tokens d)).

Fixpoint ws_from (p : Z) (l : list Z) : Z :=
  match l with c :: t => if is_ws c then ws_from (p + 1) t else p | [] => p end.
Definition ws (s : list Z) (p : Z) : Z := ws_from p (drop (Z.to_nat p) s).

Section Documents.
Context (finite : list Z -> bool) (mem : Z -> bool).

(** [valid] at token [t] and position [p]: the token and position after the
    value, [None] when it is rejected.  [mem] says whether an allocation of so
    many bytes succeeds.  A call at [t] needs [2 * (token_count - t) + 2] fuel,
    for every value takes a token. *)
Fixpoint valid (fuel : nat) (d : tg_json_doc) (depth t p : Z) {struct fuel} : option (Z * Z) :=
  match fuel with
  | O => None
  | S k =>
      if (64 <? depth) || (token_count d <=? t) then None
      else
        let x := tok d t in
        let p := ws (text_of d) p in
        match ttype x with
        | JSMN_STRING =>
            if negb (p =? tstart x - 1) then None
            else if negb (mem (tend x - tstart x + 1)) then None
            else match tg_string_read d t (tend x - tstart x + 1) with
            | None => None
            | Some _ => Some (t + 1, tend x + 1)
            end
        | JSMN_PRIMITIVE =>
            if negb (p =? tstart x) then None
            else match tg_value_read finite d t with None => None | Some _ => Some (t + 1, tend x) end
        | _ =>
            if negb (p =? tstart x) then None
            else
              let object := bool_decide (ttype x = JSMN_OBJECT) in
              let stop := if object then 125 else 93 in
              let p1 := ws (text_of d) (p + 1) in
              if byte_at (text_of d) p1 =? stop then Some (t + 1, p1 + 1) else valid_members k d object stop depth (t + 1) p1
        end
  end
with valid_members (fuel : nat) (d : tg_json_doc) (object : bool) (stop depth t p : Z) {struct fuel} : option (Z * Z) :=
  match fuel with
  | O => None
  | S k =>
      match (if object then
               if (token_count d <=? t) || negb (bool_decide (ttype (tok d t) = JSMN_STRING)) then None
               else match valid k d (depth + 1) t p with
               | None => None
               | Some (t1, p1) =>
                   let p2 := ws (text_of d) p1 in
                   if byte_at (text_of d) p2 =? 58 then Some (t1, p2 + 1) else None
               end
             else Some (t, p)) with
      | None => None
      | Some (t1, p1) =>
          match valid k d (depth + 1) t1 p1 with
          | None => None
          | Some (t2, p2) =>
              let p3 := ws (text_of d) p2 in
              if byte_at (text_of d) p3 =? stop then Some (t2, p3 + 1)
              else if byte_at (text_of d) p3 =? 44 then valid_members k d object stop depth t2 (p3 + 1)
              else None
          end
      end
  end.
Definition valid_fuel (d : tg_json_doc) : nat := 2 * length (tokens d) + 2.

(** The token array doubles until the tokens fit: 128 doubled 17 times is past
    the limit. *)
Definition TOKEN_SIZE : Z := 20.
Fixpoint tokenize (fuel : nat) (cap : Z) (s : list Z) : option (list jsmntok) :=
  match fuel with
  | O => None
  | S k =>
      if negb (mem (cap * TOKEN_SIZE)) then None
      else match jsmn_parse cap s with
      | inl e =>
          if bool_decide (e = JSMN_ERROR_NOMEM) then if 4194304 <? cap then None else tokenize k (cap * 2) s else None
      | inr l => Some l
      end
  end.

Definition tg_document_parse (s : list Z) : option tg_json_doc :=
  if (33554432 <? zlen s) || existsb (Z.eqb 0) s then None
  else if negb (mem (zlen s + 1)) then None
  else match tokenize 17 128 s with
  | None => None
  | Some l =>
      let d := mk_doc s l in
      if zlen l <? 1 then None
      else match valid (valid_fuel d) d 0 0 0 with
      | None => None
      | Some (t, p) => if (ws s p =? zlen s) && (t =? token_count d) then Some d else None
      end
  end.
End Documents.

(** ** Navigation *)

(** The tokens the loops over an object's members ([key], then its value) and
    over an array's items visit. *)
Fixpoint visit (fuel : nat) (d : tg_json_doc) (step : Z) (e i : Z) : list Z :=
  match fuel with
  | O => []
  | S k =>
      if (i <? token_count d) && (tstart (tok d i) <? e) then i :: visit k d step e (tg_json_next d (i + step)) else []
  end.
Definition object_keys (d : tg_json_doc) (o : Z) : list Z := visit (length (tokens d)) d 1 (tend (tok d o)) (o + 1).
Definition array_items (d : tg_json_doc) (a : Z) : list Z := visit (length (tokens d)) d 0 (tend (tok d a)) (a + 1).

(** The value of the only member with a name; [None] is a key that cannot be
    read or a second member of that name, [Some (-1)] no member. *)
Fixpoint find_member (d : tg_json_doc) (cap : Z) (key : list Z) (found : Z) (l : list Z) : option Z :=
  match l with
  | [] => Some found
  | i :: r =>
      match tg_string_read d i cap with
      | None => None
      | Some name =>
          if bool_decide (name = key) then if 0 <=? found then None else find_member d cap key (i + 1) r
          else find_member d cap key found r
      end
  end.

(** A reference token of a pointer: the key and the rest of the path. *)
Fixpoint pointer_key (n : Z) (l : list Z) : option (list Z * list Z) :=
  match l with
  | [] => Some ([], [])
  | c :: t =>
      if c =? 47 then Some ([], l)
      else
        let add b rest := match rest with Some (k, r) => Some (b :: k, r) | None => None end in
        if c =? 126 then
          match t with
          | e :: t1 =>
              if negb (e =? 48) && negb (e =? 49) then None
              else if TG_VALUE_CAP <=? n + 1 then None
              else add (if e =? 48 then 126 else 47) (pointer_key (n + 1) t1)
          | [] => None
          end
        else if TG_VALUE_CAP <=? n + 1 then None
        else add c (pointer_key (n + 1) t)
  end.

Fixpoint array_index (acc : Z) (l : list Z) : option Z :=
  match l with
  | [] => Some acc
  | c :: t => if negb (is_digit c) || (1000000 <? acc) then None else array_index (acc * 10 + (c - 48)) t
  end.
Fixpoint nth_item (fuel : nat) (d : tg_json_doc) (index i : Z) : Z :=
  match fuel with
  | O => i
  | S k => if (index =? 0) || (token_count d <=? i) then i else nth_item k d (index - 1) (tg_json_next d i)
  end.

Definition pointer_step (d : tg_json_doc) (t : Z) (key : list Z) : option Z :=
  match ttype (tok d t) with
  | JSMN_OBJECT =>
      match find_member d TG_VALUE_CAP key (-1) (object_keys d t) with
      | Some f => if f <? 0 then None else Some f
      | None => None
      end
  | JSMN_ARRAY =>
      if bool_decide (key = []) || ((1 <? zlen key) && (byte_at key 0 =? 48)) then None
      else match array_index 0 key with
      | None => None
      | Some index =>
          let i := nth_item (length (tokens d)) d index (t + 1) in
          if (i <? token_count d) && (tparent (tok d i) =? t) then Some i else None
      end
  | _ => None
  end.

(** A step for every byte of the path is enough. *)
Fixpoint pointer_from (fuel : nat) (d : tg_json_doc) (t : Z) (path : list Z) : option Z :=
  match fuel, path with
  | _, [] => Some t
  | O, _ => None
  | S k, c :: rest =>
      if negb (c =? 47) then None
      else match pointer_key 0 rest with
      | None => None
      | Some (key, rest1) =>
          match pointer_step d t key with None => None | Some t1 => pointer_from k d t1 rest1 end
      end
  end.
Definition tg_json_pointer (d : tg_json_doc) (path : list Z) : option Z := pointer_from (length path) d 0 path.

(** ** Unescaped fields (scenario_json.c) *)

Definition tg_json_token_equal (d : tg_json_doc) (x : jsmntok) (literal : list Z) : bool :=
  negb ((tstart x <? 0) || (tend x <? tstart x)) && (tend x - tstart x =? zlen literal)
  && bool_decide (span (text_of d) x = literal).

Definition tg_json_copy_string (cap : Z) (d : tg_json_doc) (x : jsmntok) : errno + list Z :=
  if (cap =? 0) || negb (bool_decide (ttype x = JSMN_STRING)) || (tstart x <? 0) || (tend x <? tstart x) then inl EINVAL
  else
    let length := tend x - tstart x in
    if (length =? 0) || (cap <=? length) || existsb (Z.eqb 92) (span (text_of d) x) then inl EINVAL
    else inr (span (text_of d) x).

Fixpoint parse_digits (value : Z) (l : list Z) : errno + Z :=
  match l with
  | [] => inr value
  | c :: t =>
      if negb (is_digit c) then inl EINVAL
      else if (UINT32_MAX - (c - 48)) / 10 <? value then inl ERANGE
      else parse_digits (value * 10 + (c - 48)) t
  end.
Definition tg_json_parse_u32 (d : tg_json_doc) (x : jsmntok) (minimum maximum : Z) : errno + Z :=
  if negb (bool_decide (ttype x = JSMN_PRIMITIVE)) || (tstart x <? 0) || (tend x <=? tstart x) then inl EINVAL
  else match parse_digits 0 (span (text_of d) x) with
  | inl e => inl e
  | inr value => if (value <? minimum) || (maximum <? value) then inl ERANGE else inr value
  end.

Definition tg_json_parse_bool (d : tg_json_doc) (x : jsmntok) : errno + bool :=
  if negb (bool_decide (ttype x = JSMN_PRIMITIVE)) then inl EINVAL
  else if tg_json_token_equal d x (text "true") then inr true
  else if tg_json_token_equal d x (text "false") then inr false
  else inl EINVAL.

(** The scans over all tokens behind an object. *)
Definition tokens_after (d : tg_json_doc) (o : Z) : list Z := seqZ (o + 1) (token_count d - (o + 1)).
Definition tg_json_object_value (d : tg_json_doc) (o : Z) (key : list Z) : Z :=
  if negb (has_token d o) then -1
  else match List.find (fun i => (tparent (tok d i) =? o) && bool_decide (ttype (tok d i) = JSMN_STRING)
                            && tg_json_token_equal d (tok d i) key) (tokens_after d o) with
  | None => -1
  | Some i => if (token_count d <=? i + 1) || negb (tparent (tok d (i + 1)) =? i) then -1 else i + 1
  end.
Definition tg_json_object_has_only (d : tg_json_doc) (o : Z) (allowed : list (list Z)) : bool :=
  has_token d o &&
  forallb (fun i => negb (tparent (tok d i) =? o)
             || (bool_decide (ttype (tok d i) = JSMN_STRING) && existsb (tg_json_token_equal d (tok d i)) allowed))
    (tokens_after d o).
