(* ===== verification/JsonFacts.v ===== *)
(** * JSON strings: what tg_string_read accepts and what it returns

    RFC 8259 strings as a relation between the bytes between the quotes and
    the code points they denote, and UTF-8 as a function. *)

From stdpp Require Import strings.
From S2P Require Import Prelude Json.

(** ** UTF-8 *)

Definition scalar (cp : Z) : Prop := 0 < cp <= 1114111 /\ ~ 55296 <= cp <= 57343.

Definition utf8 (cp : Z) : list Z :=
  if cp <? 128 then [cp]
  else if cp <? 2048 then [192 + cp / 64; 128 + cp mod 64]
  else if cp <? 65536 then [224 + cp / 4096; 128 + (cp / 64) mod 64; 128 + cp mod 64]
  else [240 + cp / 262144; 128 + (cp / 4096) mod 64; 128 + (cp / 64) mod 64; 128 + cp mod 64].
Definition utf8s (cps : list Z) : list Z := concat (map utf8 cps).

Definition bytes_ok (l : list Z) : Prop := Forall (fun c => 0 < c < 256) l.

(** ** Strings of RFC 8259, without their quotes *)

Definition escapes : list (Z * Z) := [(34, 34); (92, 92); (47, 47); (98, 8); (102, 12); (110, 10); (114, 13); (116, 9)].

(** One character and the code point it stands for. *)
Inductive json_char : list Z -> Z -> Prop :=
| jc_raw cp : scalar cp -> 32 <= cp -> cp <> 92 -> json_char (utf8 cp) cp
| jc_escape e cp : (e, cp) ∈ escapes -> json_char [92; e] cp
| jc_unicode a b c d cp : hex4 a b c d = Some cp -> scalar cp -> json_char [92; 117; a; b; c; d] cp
| jc_pair a b c d a' b' c' d' high low :
    hex4 a b c d = Some high -> 55296 <= high <= 56319 -> hex4 a' b' c' d' = Some low -> 56320 <= low <= 57343 ->
    json_char [92; 117; a; b; c; d; 92; 117; a'; b'; c'; d'] (65536 + (high - 55296) * 1024 + (low - 56320)).

Inductive json_chars : list Z -> list Z -> Prop :=
| jcs_nil : json_chars [] []
| jcs_cons pre cp l cs : json_char pre cp -> json_chars l cs -> json_chars (pre ++ l) (cp :: cs).

(** ** Bits *)

Lemma land63 x : Z.land x 63 = x mod 64.
Proof. apply (land_mod x 6). lia. Qed.
Lemma shift6 v x : 0 <= x < 64 -> Z.lor (Z.shiftl v 6) x = v * 64 + x.
Proof. intros. rewrite Z.shiftl_mul_pow2 by lia. by apply lor_add. Qed.
Lemma cont_byte p : 0 <= p < 256 -> (Z.land p 192 =? 128) = (128 <=? p) && (p <? 192).
Proof.
  intros H. assert (forallb (fun p => Bool.eqb (Z.land p 192 =? 128) ((128 <=? p) && (p <? 192))) (seqZ 0 256) = true) as F
    by (vm_compute; reflexivity).
  rewrite forallb_forall in F. specialize (F p). rewrite <- list_elem_of_In, elem_of_seqZ in F. by apply eqb_prop, F.
Qed.

Lemma shiftr_div x n : 0 <= n -> Z.shiftr x n = x / 2 ^ n.
Proof. apply Z.shiftr_div_pow2. Qed.

Lemma emit_utf8 c : 0 <= c <= 1114111 -> emit_code c = utf8 c.
Proof.
  intros H. unfold emit_code, utf8. rewrite !shiftr_div, !land63 by lia.
  assert (forall x, Z.lor 128 (x mod 64) = 128 + x mod 64) as T by (intros; apply (lor_add 2 _ 6); [lia|apply Z.mod_pos_bound; lia]).
  rewrite !T. change (2 ^ 6) with 64. change (2 ^ 12) with 4096. change (2 ^ 18) with 262144. bsplit; [done| | |].
  - do 2 f_equal. apply (lor_add 6 _ 5); [lia|]. change (2 ^ 5) with 32. Z.to_euclidean_division_equations; lia.
  - do 2 f_equal. apply (lor_add 14 _ 4); [lia|]. change (2 ^ 4) with 16. Z.to_euclidean_division_equations; lia.
  - do 2 f_equal. apply (lor_add 30 _ 3); [lia|]. change (2 ^ 3) with 8. Z.to_euclidean_division_equations; lia.
Qed.

(** The accepted sequences are the encodings of the code points that are not
    encoded in one byte. *)
Definition encodes (c : Z) (parts : list Z) : Prop := exists cp, scalar cp /\ 128 <= cp /\ utf8 cp = c :: parts.

Ltac raw_arith := Z.to_euclidean_division_equations; lia.

Lemma cp_bits c parts n :
  Forall (fun p => 0 < p < 256) (c :: parts) -> (n = 5 \/ n = 4 \/ n = 3) -> Z.shiftr 127 (1 + zlen parts) = 2 ^ n - 1 ->
  foldl (fun v p => Z.lor (Z.shiftl v 6) (Z.land p 63)) (Z.land c (Z.shiftr 127 (1 + zlen parts))) parts
  = foldl (fun v p => v * 64 + p mod 64) (c mod 2 ^ n) parts.
Proof.
  intros F Hn ->. rewrite land_mod by lia. generalize (c mod 2 ^ n). clear. induction parts as [|p l IH]; intros v; [done|].
  cbn [foldl]. rewrite IH, land63, shift6 by (apply Z.mod_pos_bound; lia). done.
Qed.

Ltac raw_start F H :=
  unfold bytes_ok in F; unfold raw_ok; rewrite (cp_bits _ _ _ F H) by reflexivity; clear H; cbn [forallb foldl];
  repeat match type of F with Forall _ (_ :: _) => let F' := fresh "F" in apply Forall_cons in F as [F' F] end;
  rewrite !cont_byte by lia; unfold zlen; cbn [length]; rewrite !andb_true_iff, !negb_true_iff, !andb_false_iff, !Z.leb_le, !Z.leb_gt, !Z.ltb_lt, ?Z.ltb_ge, ?Z.eqb_neq.

Lemma raw2 c p1 : bytes_ok [c; p1] -> 128 <= c < 224 -> raw_ok c [p1] = true <-> encodes c [p1].
Proof.
  intros F Hc. assert (5 = 5 \/ 5 = 4 \/ 5 = 3) as H by lia. raw_start F H. change (2 ^ 5) with 32. split.
  - intros R. exists ((c - 192) * 64 + (p1 - 128)). unfold scalar, utf8.
    assert (c mod 32 * 64 + p1 mod 64 = (c - 192) * 64 + (p1 - 128)) by raw_arith.
    split; [raw_arith|]. split; [raw_arith|]. bsplit; try lia. repeat f_equal; raw_arith.
  - intros (cp & [S1 S2] & Hlo & E). unfold utf8 in E. revert E. bsplit; intros [= <- <-].
    split_and!; try raw_arith.
Qed.
Lemma raw3 c p1 p2 : bytes_ok [c; p1; p2] -> 224 <= c < 240 -> raw_ok c [p1; p2] = true <-> encodes c [p1; p2].
Proof.
  intros F Hc. assert (4 = 5 \/ 4 = 4 \/ 4 = 3) as H by lia. raw_start F H. change (2 ^ 4) with 16. split.
  - intros R. exists (((c - 224) * 64 + (p1 - 128)) * 64 + (p2 - 128)). unfold scalar, utf8.
    assert ((c mod 16 * 64 + p1 mod 64) * 64 + p2 mod 64 = ((c - 224) * 64 + (p1 - 128)) * 64 + (p2 - 128)) by raw_arith.
    split; [lia|]. split; [lia|]. bsplit; try lia. repeat f_equal; raw_arith.
  - intros (cp & [S1 S2] & Hlo & E). unfold utf8 in E. revert E. bsplit; intros [= <- <- <-].
    assert (((224 + cp / 4096) mod 16 * 64 + (128 + (cp / 64) mod 64) mod 64) * 64 + (128 + cp mod 64) mod 64 = cp) as -> by raw_arith.
    split_and!; try done; try lia; raw_arith.
Qed.
Lemma raw4 c p1 p2 p3 : bytes_ok [c; p1; p2; p3] -> 240 <= c -> raw_ok c [p1; p2; p3] = true <-> encodes c [p1; p2; p3].
Proof.
  intros F Hc. assert (3 = 5 \/ 3 = 4 \/ 3 = 3) as H by lia. raw_start F H. change (2 ^ 3) with 8. split.
  - intros R. exists ((((c - 240) * 64 + (p1 - 128)) * 64 + (p2 - 128)) * 64 + (p3 - 128)). unfold scalar, utf8.
    assert (((c mod 8 * 64 + p1 mod 64) * 64 + p2 mod 64) * 64 + p3 mod 64
            = (((c - 240) * 64 + (p1 - 128)) * 64 + (p2 - 128)) * 64 + (p3 - 128)) by raw_arith.
    split; [lia|]. split; [lia|]. bsplit; try lia. repeat f_equal; raw_arith.
  - intros (cp & [S1 S2] & Hlo & E). unfold utf8 in E. revert E. bsplit; intros [= <- <- <- <-].
    assert ((((240 + cp / 262144) mod 8 * 64 + (128 + (cp / 4096) mod 64) mod 64) * 64 + (128 + (cp / 64) mod 64) mod 64) * 64
            + (128 + cp mod 64) mod 64 = cp) as -> by raw_arith.
    split_and!; try done; try lia; raw_arith.
Qed.

(** ** One character of the decoder *)

(** The bytes written for the first character of [l], and what follows it. *)
Definition take_unicode (u : Z) (l3 : list Z) : option (list Z * list Z) :=
  if (55296 <=? u) && (u <=? 56319) then
    match l3 with
    | s :: v :: a' :: b' :: x' :: d' :: l4 =>
        if negb (s =? 92) || negb (v =? 117) then None
        else match hex4 a' b' x' d' with
        | None => None
        | Some low =>
            if (low <? 56320) || (57343 <? low) then None
            else Some (emit_code (65536 + (u - 55296) * 1024 + low - 56320), l4)
        end
    | _ => None
    end
  else if (56320 <=? u) && (u <=? 57343) then None
  else if u =? 0 then None else Some (emit_code u, l3).
Definition take_escape (l1 : list Z) : option (list Z * list Z) :=
  match l1 with
  | [] => None
  | e :: l2 =>
      match escaped e with
      | Some b => Some ([b], l2)
      | None =>
          if e =? 117 then
            match l2 with
            | a :: b :: x :: d :: l3 => match hex4 a b x d with None => None | Some u => take_unicode u l3 end
            | _ => None
            end
          else None
      end
  end.
Definition take_raw (c : Z) (l1 : list Z) : option (list Z * list Z) :=
  let n := if 240 <=? c then 3%nat else if 224 <=? c then 2%nat else 1%nat in
  if (n <=? length l1)%nat && raw_ok c (take n l1) then Some (c :: take n l1, drop n l1) else None.
Definition take_char (l : list Z) : option (list Z * list Z) :=
  match l with
  | [] => None
  | c :: l1 =>
      if c <? 32 then None else if c =? 92 then take_escape l1 else if 128 <=? c then take_raw c l1 else Some ([c], l1)
  end.

Lemma read_step cap n c l :
  read_chars cap n (c :: l) = match take_char (c :: l) with
                              | None => None
                              | Some (out, rest) => put cap n out (fun m => read_chars cap m rest)
                              end.
Proof.
  cbn [read_chars take_char]. destruct (c <? 32); [done|]. destruct (c =? 92).
  - destruct l as [|e l2]; [done|]. cbn [take_escape]. destruct (escaped e); [done|]. destruct (e =? 117); [|done].
    destruct l2 as [|a [|b [|x [|d l3]]]]; try done. destruct (hex4 a b x d) as [u|]; [|done]. unfold take_unicode.
    destruct ((55296 <=? u) && _); [|by repeat case_match].
    destruct l3 as [|s [|v [|a' [|b' [|x' [|d' l4]]]]]]; try done. by repeat case_match; simplify_eq.
  - destruct (128 <=? c); [|done]. unfold take_raw.
    destruct (240 <=? c); [|destruct (224 <=? c)];
      (destruct l as [|p1 [|p2 [|p3 l2]]]; cbn; try done; by destruct (raw_ok _ _)).
Qed.

Lemma hex_digit_range c : is_xdigit c = true -> 0 <= hex_digit c < 16.
Proof. unfold is_xdigit, hex_digit. intros H. bsplit; destruct_or?; lia. Qed.
Lemma hex4_range a b c d u : hex4 a b c d = Some u -> 0 <= u < 65536.
Proof.
  unfold hex4. destruct (is_xdigit a && _ && _ && _) eqn:E; [|done]. intros [= <-]. bprop.
  repeat match goal with H : is_xdigit _ = true |- _ => apply hex_digit_range in H end. lia.
Qed.

Lemma escaped_spec e b : 0 < e -> escaped e = Some b <-> (e, b) ∈ escapes.
Proof.
  intros He. unfold escaped, escapes. rewrite !elem_of_cons, elem_of_nil, !pair_equal_spec. split.
  - bsplit; intros [= <-]; lia.
  - intros H. destruct_or?; try done; destruct_and?; subst; done.
Qed.
Lemma escapes_range e b : (e, b) ∈ escapes -> 0 < e < 256 /\ 0 < b < 128 /\ e <> 117.
Proof. unfold escapes. rewrite !elem_of_cons, elem_of_nil, !pair_equal_spec. lia. Qed.

Lemma encodes_raw c l out rest :
  bytes_ok (c :: l) -> 128 <= c -> take_raw c l = Some (out, rest) -> exists cp, scalar cp /\ 128 <= cp /\ out = utf8 cp /\ c :: l = utf8 cp ++ rest.
Proof.
  intros F Hc. unfold take_raw. set (n := if 240 <=? c then _ else _). destruct (n <=? length l)%nat eqn:E; [|done]. cbn [andb].
  destruct (raw_ok c (take n l)) eqn:R; [|done]. intros [= <- <-].
  assert (encodes c (take n l)) as (cp & S & Hlo & U).
  { apply Nat.leb_le in E. assert (bytes_ok (c :: take n l)) as F'.
    { apply Forall_cons in F as [? F]. constructor; [done|]. by apply Forall_take. }
    subst n. destruct (240 <=? c) eqn:?; [|destruct (224 <=? c) eqn:?]; bprop;
      (destruct l as [|p1 [|p2 [|p3 l2]]]; cbn in *; try lia; first [apply raw4; done || lia|apply raw3; done || lia|apply raw2; done || lia]). }
  exists cp. split_and!; try done. rewrite U. cbn. by rewrite take_drop.
Qed.

(** The decoder takes exactly one character of the grammar off the front. *)
Lemma take_char_sound l out rest :
  bytes_ok l -> take_char l = Some (out, rest) -> exists pre cp, l = pre ++ rest /\ json_char pre cp /\ out = utf8 cp.
Proof.
  intros F. destruct l as [|c l1]; [done|]. cbn [take_char]. destruct (c <? 32) eqn:E1; [done|]. destruct (c =? 92) eqn:E2; bprop.
  2: { destruct (128 <=? c) eqn:E3; bprop.
    - intros (cp & S & Hlo & -> & ->)%encodes_raw; try done. exists (utf8 cp), cp. split_and!; try done. constructor; [done|lia..].
    - intros [= <- <-]. assert (utf8 c = [c]) as U by (unfold utf8; bsplit; done || lia).
      exists [c], c. rewrite U. split_and!; try done. rewrite <- U. constructor; [split; lia|lia..]. }
  subst c. unfold take_escape. destruct l1 as [|e l2]; [done|]. assert (0 < e < 256) as He.
  { apply Forall_cons in F as [_ F]. by apply Forall_cons in F as [? _]. }
  destruct (escaped e) as [b|] eqn:Es.
  { intros [= <- <-]. apply escaped_spec in Es; [|lia]. pose proof (escapes_range _ _ Es). exists [92; e], b. split_and!; [done|by constructor|].
    unfold utf8. bsplit; done || lia. }
  destruct (e =? 117) eqn:E; [|done]. bprop. subst e. destruct l2 as [|a [|b [|x [|d l3]]]]; try done.
  destruct (hex4 a b x d) as [u|] eqn:Hu; [|done]. pose proof (hex4_range _ _ _ _ _ Hu). unfold take_unicode.
  destruct ((55296 <=? u) && (u <=? 56319)) eqn:Hs; bprop.
  - destruct l3 as [|s [|v [|a' [|b' [|x' [|d' l4]]]]]]; try done. destruct (negb (s =? 92) || negb (v =? 117)) eqn:Hb; [done|]. bprop. subst.
    destruct (hex4 a' b' x' d') as [low|] eqn:Hl; [|done]. destruct ((low <? 56320) || (57343 <? low)) eqn:Hw; [done|]. bprop. intros [= <- <-].
    eexists [92; 117; a; b; x; d; 92; 117; a'; b'; x'; d'], _. split_and!; [done|by econstructor; try done; lia|].
    rewrite emit_utf8 by lia. f_equal. lia.
  - destruct ((56320 <=? u) && (u <=? 57343)) eqn:Hs2; [done|]. destruct (u =? 0) eqn:H0; [done|]. bprop. intros [= <- <-].
    exists [92; 117; a; b; x; d], u. rewrite emit_utf8 by lia. split_and!; try done. econstructor; [done|].
    apply andb_false_iff in Hs, Hs2. split; [lia|]. rewrite !Z.leb_gt in *. lia.
Qed.

Lemma utf8_bytes cp : scalar cp -> bytes_ok (utf8 cp) /\ 1 <= zlen (utf8 cp) <= 4.
Proof.
  intros [S _]. unfold utf8, bytes_ok, zlen. bsplit; cbn [length]; (split; [|lia]); repeat constructor; raw_arith.
Qed.

Lemma take_raw_at c parts l :
  length parts = (if 240 <=? c then 3%nat else if 224 <=? c then 2%nat else 1%nat) -> raw_ok c parts = true ->
  take_raw c (parts ++ l) = Some (c :: parts, l).
Proof.
  intros E R. unfold take_raw. rewrite <- E, take_app_length, drop_app_length, R, length_app.
  assert ((length parts <=? length parts + length l)%nat = true) as -> by (apply Nat.leb_le; lia). done.
Qed.
Lemma utf8_big cp : scalar cp -> 128 <= cp -> exists c parts, utf8 cp = c :: parts /\ 128 <= c /\ forall l, take_raw c (parts ++ l) = Some (utf8 cp, l).
Proof.
  intros S Hlo. pose proof (utf8_bytes cp S) as [F _]. assert (encodes (hd 0 (utf8 cp)) (tl (utf8 cp))) as En.
  { exists cp. split_and!; try done. unfold utf8. by bsplit. }
  unfold utf8 in *. destruct S as [S1 S2]. revert F En. bsplit; try lia; intros F En; cbn [hd tl] in *; eexists _, _; (split; [done|]).
  - apply raw2 in En; [|done|raw_arith]. split; [raw_arith|]. intros l. apply take_raw_at; [|done].
    assert (192 + cp / 64 < 224) by raw_arith. bsplit; done || lia.
  - apply raw3 in En; [|done|raw_arith]. split; [raw_arith|]. intros l. apply take_raw_at; [|done].
    assert (224 <= 224 + cp / 4096 < 240) by raw_arith. bsplit; done || lia.
  - apply raw4 in En; [|done|raw_arith]. split; [raw_arith|]. intros l. apply take_raw_at; [|done].
    assert (240 <= 240 + cp / 262144) by raw_arith. bsplit; done || lia.
Qed.

Lemma take_char_complete pre cp rest : json_char pre cp -> take_char (pre ++ rest) = Some (utf8 cp, rest).
Proof.
  intros [cp' S H1 H2|e b He|a b c d u Hu S|a b c d a' b' c' d' high low Hh R1 Hl R2].
  - destruct (decide (cp' < 128)).
    + assert (utf8 cp' = [cp']) as -> by (unfold utf8; bsplit; done || lia). cbn. bsplit; done || lia.
    + destruct (utf8_big cp' S ltac:(lia)) as (c & parts & -> & Hc & T). specialize (T rest). cbn [app take_char].
      bsplit; try lia. done.
  - pose proof (escapes_range _ _ He). cbn. apply escaped_spec in He; [|lia]. rewrite He. unfold utf8. bsplit; done || lia.
  - cbn. rewrite Hu. unfold take_unicode. destruct S as [S1 S2]. rewrite emit_utf8 by lia.
    bsplit; try done; lia.
  - cbn. rewrite Hh. unfold take_unicode. rewrite Hl. cbn. rewrite emit_utf8 by lia.
    replace (65536 + (high - 55296) * 1024 + low - 56320) with (65536 + (high - 55296) * 1024 + (low - 56320)) by lia.
    assert ((55296 <=? high) && (high <=? 56319) = true) as -> by lia. assert ((low <? 56320) || (57343 <? low) = false) as -> by lia. done.
Qed.

Lemma json_char_scalar pre cp : json_char pre cp -> scalar cp /\ pre <> [].
Proof.
  intros [cp' S H1 H2|e b He|a b c d u Hu S|a b c d a' b' c' d' high low Hh R1 Hl R2]; split; try done.
  - destruct (utf8_bytes cp' S) as [_ L]. intros E. rewrite E in L. unfold zlen in L. cbn in L. lia.
  - pose proof (escapes_range _ _ He). split; lia.
  - split; lia.
Qed.
Lemma json_chars_scalars l cs : json_chars l cs -> Forall scalar cs.
Proof. induction 1; constructor; [by eapply json_char_scalar|done]. Qed.

(** ** The decoder *)

Lemma utf8s_cons cp cs : utf8s (cp :: cs) = utf8 cp ++ utf8s cs.
Proof. done. Qed.

Lemma read_chars_exact l cap n s :
  bytes_ok l -> n < cap -> read_chars cap n l = Some s <-> exists cps, json_chars l cps /\ s = utf8s cps /\ n + zlen s < cap.
Proof.
  remember (length l) as k eqn:Hk. revert l n s Hk. induction (lt_wf k) as [k _ IH]. intros l n s -> F Hn.
  destruct l as [|c l1].
  { cbn. split.
    - intros [= <-]. exists []. split_and!; [constructor|done|]. unfold zlen; cbn; lia.
    - intros (cps & J & -> & _). inversion J as [|pre cp l cs Jc Jr E]; [done|]. apply json_char_scalar in Jc as [_ Jc].
      by destruct pre. }
  rewrite read_step. split.
  - destruct (take_char (c :: l1)) as [[out rest]|] eqn:T; [|done]. destruct (take_char_sound _ _ _ F T) as (pre & cp & E & J & ->).
    unfold put. destruct (cap <=? n + zlen (utf8 cp)) eqn:C; [done|]. bprop. intros (r & R & ->)%fmap_Some. 
    rewrite E in F. apply Forall_app in F as [_ F]. apply json_char_scalar in J as Hs.
    eapply (IH (length rest)) in R as (cps & J' & -> & L); [| |done|done|lia].
    + exists (cp :: cps). rewrite E, utf8s_cons, zlen_app. split_and!; [by constructor|done|lia].
    + rewrite E, length_app. destruct Hs as [_ Hs], pre; cbn; [done|lia].
  - intros (cps & J & -> & L). inversion J as [|pre cp rest cs Jc Jr E]; subst. rewrite <- E in *. clear E J.
    rewrite take_char_complete with (cp := cp) by done. rewrite utf8s_cons, zlen_app in *. apply Forall_app in F as [_ F].
    pose proof (zlen_nonneg (utf8s cs)). unfold put. destruct (cap <=? n + zlen (utf8 cp)) eqn:C; bprop; [lia|].
    apply fmap_Some. eexists. split; [|done].
    eapply (IH (length rest)); [|done|done|lia|].
    + apply json_char_scalar in Jc as [_ Jc]. rewrite length_app. destruct pre; cbn; [done|lia].
    + exists cs. split_and!; [done|done|lia].
Qed.

Lemma cstr_bytes l : bytes_ok l -> cstr l = l.
Proof. induction 1 as [|c l H F IH]; [done|]. cbn. bsplit; [lia|]. by rewrite IH. Qed.
Lemma utf8s_bytes cps : Forall scalar cps -> bytes_ok (utf8s cps).
Proof. induction 1 as [|cp cps S F IH]; [constructor|]. rewrite utf8s_cons. apply Forall_app. split; [by apply utf8_bytes|done]. Qed.

Lemma string_read_cap d t cap : tg_string_read d t cap <> None -> cap <> 0.
Proof. unfold tg_string_read. intros H ->. by rewrite orb_true_r in H. Qed.

(** C19: C13.  [tg_string_read] decodes exactly the RFC 8259 strings: on a string
    token whose text has no NUL byte it succeeds precisely when the bytes are
    well-formed characters, escapes, [\u] escapes and surrogate pairs that
    denote code points other than 0 and whose UTF-8 encoding fits the buffer
    with its terminator, and then it leaves that encoding. *)
Theorem string_read_exact d t cap s :
  0 < cap -> has_token d t = true -> ttype (tok d t) = JSMN_STRING -> bytes_ok (span (text_of d) (tok d t)) ->
  tg_string_read d t cap = Some s <->
  exists cps, json_chars (span (text_of d) (tok d t)) cps /\ Forall scalar cps /\ s = utf8s cps /\ zlen s < cap.
Proof.
  intros Hc Ht Ty F. unfold tg_string_read. rewrite Ht, Ty, bool_decide_true by done.
  assert ((cap =? 0) = false) as -> by lia. cbn [negb orb]. split.
  - intros (out & (cps & J & -> & L)%read_chars_exact & ->)%fmap_Some; [|done|lia]. exists cps.
    pose proof (json_chars_scalars _ _ J) as Sc. rewrite cstr_bytes by (by apply utf8s_bytes). split_and!; done || lia.
  - intros (cps & J & Sc & -> & L). apply fmap_Some. exists (utf8s cps). split.
    + apply read_chars_exact; [done|lia|]. exists cps. split_and!; done || lia.
    + symmetry. by apply cstr_bytes, utf8s_bytes.
Qed.

Definition demo_text : list Z := text "[_a\n\u00e9\ud83d\ude00_]".
Definition demo_doc : tg_json_doc := mk_doc demo_text [mk_tok JSMN_ARRAY 0 25 1 (-1); mk_tok JSMN_STRING 2 23 0 0].
Lemma string_read_exact_witness :
  tg_string_read demo_doc 1 16 = Some [97; 10; 195; 169; 240; 159; 152; 128] /\
  (exists cps, json_chars (span demo_text (mk_tok JSMN_STRING 2 23 0 0)) cps /\ Forall scalar cps /\
     [97; 10; 195; 169; 240; 159; 152; 128] = utf8s cps /\ zlen [97; 10; 195; 169; 240; 159; 152; 128] < 16) /\
  ~ exists cps, json_chars (span demo_text (mk_tok JSMN_STRING 2 23 0 0)) cps /\ Forall scalar cps /\
     [97; 10; 195; 169; 240; 159; 152; 128] = utf8s cps /\ zlen [97; 10; 195; 169; 240; 159; 152; 128] < 8.
Proof.
  assert (tg_string_read demo_doc 1 16 = Some [97; 10; 195; 169; 240; 159; 152; 128]) as E by (vm_compute; reflexivity).
  assert (bytes_ok (span demo_text (mk_tok JSMN_STRING 2 23 0 0))) as F by (vm_compute; repeat constructor).
  split; [done|]. split.
  - apply (string_read_exact demo_doc 1 16); [lia|reflexivity|reflexivity|exact F|exact E].
  - intros H. apply (string_read_exact demo_doc 1 8) in H; [vm_compute in H; discriminate|lia|reflexivity|reflexivity|exact F].
Defined.
