(* ===== verification/JsonText.v ===== *)
(** * JSON documents: what tg_document_parse accepts

    The grammar of RFC 8259 with a bound on the nesting, what the tokenizer
    promises of its tokens, and that an accepted document is a text of the
    grammar. *)

From stdpp Require Import strings.
From S2P Require Import Prelude Json JsonFacts.

(** ** The grammar *)

Definition blank (w : list Z) : Prop := Forall (fun c => is_ws c = true) w.

(** The characters between the quotes: no quote stands at a character
    boundary. *)
Definition json_string (l : list Z) : Prop :=
  (exists cps, json_chars l cps) /\ forall l1 l2 cps, l = l1 ++ 34 :: l2 -> ~ json_chars l1 cps.
Definition json_scalar (l : list Z) : Prop :=
  l = text "null" \/ l = text "true" \/ l = text "false" \/ number_syntax l = true.

(** Values nested at most [n] deep below this one. *)
Inductive json_value : nat -> list Z -> Prop :=
| jv_string n l : json_string l -> json_value n (34 :: l ++ [34])
| jv_scalar n l : json_scalar l -> json_value n l
| jv_empty n w (o : bool) : blank w -> json_value n ((if o then 123 else 91) :: w ++ [if o then 125 else 93])
| jv_object n l w : json_members n l -> blank w -> json_value (S n) (123 :: l ++ w ++ [125])
| jv_array n l w : json_items n l -> blank w -> json_value (S n) (91 :: l ++ w ++ [93])
with json_members : nat -> list Z -> Prop :=
| jm_one n k w1 w2 w3 v : json_string k -> blank w1 -> blank w2 -> blank w3 -> json_value n v ->
    json_members n (w1 ++ (34 :: k ++ [34]) ++ w2 ++ [58] ++ w3 ++ v)
| jm_more n l w m : json_members n l -> blank w -> json_members n m -> json_members n (l ++ w ++ [44] ++ m)
with json_items : nat -> list Z -> Prop :=
| ji_one n w v : blank w -> json_value n v -> json_items n (w ++ v)
| ji_more n l w m : json_items n l -> blank w -> json_items n m -> json_items n (l ++ w ++ [44] ++ m).

(** ** The tokenizer's promise *)

Definition tok_ok (s : list Z) (x : jsmntok) : Prop :=
  match ttype x with
  | JSMN_STRING => 1 <= tstart x /\ byte_at s (tstart x - 1) = 34 /\ string_end (tstart x) (drop (Z.to_nat (tstart x)) s) = inr (tend x)
  | JSMN_PRIMITIVE => 0 <= tstart x /\ tstart x <= tend x <= zlen s
  | JSMN_OBJECT => 0 <= tstart x < zlen s /\ byte_at s (tstart x) = 123
  | JSMN_ARRAY => 0 <= tstart x < zlen s /\ byte_at s (tstart x) = 91
  | JSMN_UNDEFINED => False
  end.

Lemma string_end_bounds l : forall i e, string_end i l = inr e -> i <= e < i + zlen l /\ nth (Z.to_nat (e - i)) l 0 = 34.
Proof.
  remember (length l) as k eqn:Hk. revert l Hk. induction (lt_wf k) as [k _ IH]. intros l -> i e.
  destruct l as [|c l]; [done|]. cbn [string_end]. destruct (c =? 34) eqn:E; bprop.
  { intros [= <-]. subst c. rewrite Z.sub_diag, zlen_cons. pose proof (zlen_nonneg l). split; [lia|done]. }
  assert (forall pre l', l = pre ++ l' -> string_end (i + 1 + zlen pre) l' = inr e ->
            i <= e < i + zlen (c :: l) /\ nth (Z.to_nat (e - i)) (c :: l) 0 = 34) as Step.
  { intros pre l' -> H. eapply (IH (length l')) in H as [H1 H2]; [|cbn; rewrite length_app; lia|done].
    pose proof (zlen_nonneg pre). rewrite zlen_cons, zlen_app. split; [lia|].
    replace (Z.to_nat (e - i)) with (S (length pre + Z.to_nat (e - (i + 1 + zlen pre)))) by (unfold zlen in *; lia).
    cbn [nth]. rewrite app_nth2 by lia. by replace (length pre + _ - length pre)%nat with (Z.to_nat (e - (i + 1 + zlen pre))) by lia. }
  destruct (c =? 92); [|intros H; apply (Step [] l); [done|by rewrite Z.add_0_r]].
  destruct l as [|x l1]; [done|]. destruct (simple_escape x).
  { intros H. apply (Step [x] l1); [done|]. by replace (i + 1 + zlen [x]) with (i + 2) by (unfold zlen; cbn; lia). }
  destruct (x =? 117); [|done]. destruct l1 as [|a [|b [|y [|d l2]]]]; try done. destruct (is_xdigit a && _ && _ && _); [|done].
  intros H. apply (Step [x; a; b; y; d] l2); [done|].
  by replace (i + 1 + zlen [x; a; b; y; d]) with (i + 6) by (unfold zlen; cbn; lia).
Qed.
Lemma primitive_end_bounds l : forall i e, primitive_end i l = Some e -> i <= e <= i + zlen l.
Proof.
  induction l as [|c l IH]; intros i e; cbn [primitive_end].
  - intros [= <-]. unfold zlen. cbn. lia.
  - rewrite zlen_cons. pose proof (zlen_nonneg l). destruct (ends_primitive c); [intros [= <-]; lia|]. destruct (_ || _); [done|].
    intros ?%IH. lia.
Qed.

(** Every token allocated so far is good, and so is one whose size or, for a
    container, whose end is set. *)
Definition toks_ok (s : list Z) (p : jsmn_parser) : Prop := 0 <= pos p /\ Forall (tok_ok s) (toks p).

Lemma tok_alter_ok s f i l : Forall (tok_ok s) l -> (forall x, l !! Z.to_nat i = Some x -> tok_ok s x -> tok_ok s (f x)) -> Forall (tok_ok s) (tok_alter f i l).
Proof.
  intros F H. unfold tok_alter. destruct (i <? 0); [done|]. apply Forall_lookup. intros j y Hy.
  rewrite list_lookup_alter in Hy. destruct (decide (Z.to_nat i = j)) as [<-|Hne].
  - apply fmap_Some in Hy as (x & Hx & ->). apply H; [done|]. by eapply Forall_lookup.
  - by eapply Forall_lookup.
Qed.
Lemma count_child_ok s p : toks_ok s p -> toks_ok s (count_child p).
Proof. intros [P F]. split; [done|]. apply tok_alter_ok; [done|]. by intros []. Qed.
Lemma new_token_ok s cap ty a e p p' q :
  toks_ok s p -> 0 <= q -> new_token cap ty a e p = Some p' -> tok_ok s (mk_tok ty a e 0 (toksuper p)) -> toks_ok s (at_pos q p').
Proof.
  intros [P F] Hq. unfold new_token. destruct (cap <=? toknext p); [done|]. intros [= <-] T. split; [done|]. cbn. apply Forall_app. split; [done|by constructor].
Qed.
Lemma close_container_ok s c p p' : toks_ok s p -> close_container c p = inr p' -> toks_ok s p'.
Proof.
  intros [P F]. unfold close_container. destruct (toks p) as [|t0 ts] eqn:Et; [intros [= <-]; split; [done|by rewrite Et]|].
  rewrite <- Et in *. destruct (last_open _ _) as [k|]; [|done]. case_bool_decide as Ty; [|done]. intros [= <-]. split; [done|]. cbn.
  apply tok_alter_ok; [done|]. rewrite Nat2Z.id. intros x Hx T. apply nth_lookup_Some with (d := mk_tok JSMN_UNDEFINED 0 0 0 0) in Hx.
  rewrite Hx in Ty. unfold tok_ok, close_at in *. cbn. destruct (c =? 125), (ttype x); done.
Qed.

Lemma drop_nth (s : list Z) i : 0 <= i < zlen s -> drop (Z.to_nat i) s = byte_at s i :: drop (Z.to_nat (i + 1)) s.
Proof.
  intros H. replace (Z.to_nat (i + 1)) with (S (Z.to_nat i)) by lia. apply drop_S. unfold byte_at, zlen in *.
  destruct (nth_lookup_or_length s (Z.to_nat i) 0); [done|lia].
Qed.

Lemma parse_string_ok s cap p p' :
  toks_ok s p -> pos p < zlen s -> byte_at s (pos p) = 34 -> jsmn_parse_string cap s p = inr p' -> toks_ok s p'.
Proof.
  intros I Hp Hb. pose proof (proj1 I). unfold jsmn_parse_string. destruct (string_end _ _) as [|e] eqn:Se; [done|].
  destruct (new_token cap JSMN_STRING (pos p + 1) e p) as [p1|] eqn:N; [|done]. intros [= <-].
  destruct (string_end_bounds _ _ _ Se) as [B _]. eapply new_token_ok; [done|lia|done|].
  cbn. split; [lia|]. split; [by replace (pos p + 1 - 1) with (pos p) by lia|done].
Qed.
Lemma parse_primitive_ok s cap p p' :
  toks_ok s p -> pos p < zlen s -> ends_primitive (byte_at s (pos p)) = false -> jsmn_parse_primitive cap s p = inr p' -> toks_ok s p'.
Proof.
  intros I Hp Hb. pose proof (proj1 I). unfold jsmn_parse_primitive. rewrite drop_nth by lia. cbn [primitive_end]. rewrite Hb.
  destruct (_ || _); [done|]. destruct (primitive_end _ _) as [e|] eqn:Pe; [|done].
  destruct (new_token cap JSMN_PRIMITIVE (pos p) e p) as [p1|] eqn:N; [|done]. intros [= <-].
  apply primitive_end_bounds in Pe. rewrite zlen_drop in Pe by lia. eapply new_token_ok; [done|lia|done|]. cbn. lia.
Qed.

Lemma jsmn_round_ok s cap p p' : toks_ok s p -> pos p < zlen s -> jsmn_round cap s p = inr p' -> toks_ok s p'.
Proof.
  intros I Hp. pose proof I as [P F]. unfold jsmn_round. set (c := byte_at s (pos p)).
  destruct ((c =? 123) || (c =? 91)) eqn:E1.
  { destruct (cap <=? toknext p); [done|]. intros [= <-]. split; [done|]. cbn. apply Forall_app. split; [apply count_child_ok, I|].
    constructor; [|done]. destruct (c =? 123) eqn:?; bprop; (split; [cbn; lia|]); [done|]. cbn in *. by apply Z.eqb_eq. }
  destruct ((c =? 125) || (c =? 93)) eqn:E2; [by apply close_container_ok|].
  destruct (c =? 34) eqn:E3; bprop.
  { destruct (jsmn_parse_string cap s p) eqn:Ps; [done|]. intros [= <-]. apply count_child_ok. by eapply parse_string_ok. }
  destruct (is_ws c) eqn:E4; [by intros [= <-]|]. destruct (c =? 58); [by intros [= <-]|]. destruct (c =? 44) eqn:E5; [by case_match; intros [= <-]|].
  destruct (jsmn_parse_primitive cap s p) eqn:Pp; [done|]. intros [= <-]. apply count_child_ok. eapply parse_primitive_ok; [done..| |done].
  unfold ends_primitive. fold c. rewrite E4. lia.
Qed.

Lemma jsmn_loop_ok s cap fuel p p' : toks_ok s p -> jsmn_loop fuel cap s p = inr p' -> toks_ok s p'.
Proof.
  revert p. induction fuel as [|k IH]; intros p I; cbn [jsmn_loop]; [by intros [= <-]|]. destruct (pos p <? zlen s) eqn:Hp; [|by intros [= <-]]. bprop.
  destruct (jsmn_round cap s p) as [|p1] eqn:R; [done|]. apply IH. apply jsmn_round_ok in R as [P F]; [|done..]. split; [cbn; lia|done].
Qed.

(** The tokens of a parse are good. *)
Lemma jsmn_parse_ok s cap l : jsmn_parse cap s = inr l -> Forall (tok_ok s) l.
Proof.
  unfold jsmn_parse. destruct (jsmn_loop _ _ _ _) as [|p] eqn:L; [done|]. destruct (existsb is_open (toks p)); [done|]. intros [= <-].
  apply jsmn_loop_ok in L as [_ F]; [done|]. by split.
Qed.

(** ** Positions of the text *)

Lemma drop_byte (s : list Z) p c : byte_at s p = c -> c <> 0 -> 0 <= p -> drop (Z.to_nat p) s = c :: drop (Z.to_nat (p + 1)) s.
Proof.
  intros Hb Hc Hp. rewrite drop_nth; [by rewrite Hb|]. split; [done|]. unfold byte_at, zlen in *.
  destruct (decide (p < Z.of_nat (length s))); [done|]. rewrite nth_overflow in Hb by lia. congruence.
Qed.
Lemma ws_from_split l : forall p, p <= ws_from p l /\ exists w, blank w /\ l = w ++ drop (Z.to_nat (ws_from p l - p)) l.
Proof.
  induction l as [|c l IH]; intros p; cbn [ws_from].
  - split; [lia|]. exists []. split; [constructor|]. by rewrite Z.sub_diag.
  - destruct (is_ws c) eqn:E.
    + destruct (IH (p + 1)) as (H & w & B & Hl). split; [lia|]. exists (c :: w). split; [by constructor|]. cbn.
      replace (Z.to_nat (ws_from (p + 1) l - p)) with (S (Z.to_nat (ws_from (p + 1) l - (p + 1)))) by lia. by rewrite Hl at 1.
    + split; [lia|]. exists []. split; [constructor|]. by rewrite Z.sub_diag.
Qed.
Lemma ws_split s p : 0 <= p -> p <= ws s p /\ exists w, blank w /\ drop (Z.to_nat p) s = w ++ drop (Z.to_nat (ws s p)) s.
Proof.
  intros Hp. unfold ws. destruct (ws_from_split (drop (Z.to_nat p) s) p) as (H & w & B & E). split; [done|]. exists w. split; [done|].
  rewrite E at 1. f_equal. rewrite drop_drop. f_equal. lia.
Qed.
Lemma span_split s x : 0 <= tstart x <= tend x -> drop (Z.to_nat (tstart x)) s = span s x ++ drop (Z.to_nat (tend x)) s.
Proof.
  intros H. unfold span. rewrite <- (take_drop (Z.to_nat (tend x - tstart x)) (drop (Z.to_nat (tstart x)) s)) at 1. f_equal.
  rewrite drop_drop. f_equal. lia.
Qed.

(** The tokenizer ends a string at the first quote at a character boundary. *)
Lemma string_end_utf8 cp i r : scalar cp -> cp <> 92 -> cp <> 34 -> string_end i (utf8 cp ++ r) = string_end (i + zlen (utf8 cp)) r.
Proof.
  intros [S _] H1 H2. pose proof (utf8_bytes cp) as _. assert (Forall (fun c => c <> 92 /\ c <> 34) (utf8 cp)) as F.
  { unfold utf8. bsplit; repeat constructor; Z.to_euclidean_division_equations; lia. }
  clear S. revert i. induction F as [|c l [A B] F IH]; intros i; [by rewrite Z.add_0_r|]. cbn [app string_end].
  apply Z.eqb_neq in A, B. rewrite A, B, IH, zlen_cons. f_equal. lia.
Qed.
#[local] Arguments simple_escape : simpl never.
#[local] Arguments is_xdigit : simpl never.
Lemma string_end_stops l1 cps : json_chars l1 cps -> forall i r e, string_end i (l1 ++ 34 :: r) = inr e -> e <= i + zlen l1.
Proof.
  induction 1 as [|pre cp l cs J Js IH]; intros i r e.
  - cbn. intros [= <-]. unfold zlen. cbn. lia.
  - rewrite <- app_assoc, zlen_app. pose proof (zlen_nonneg l). destruct J as [cp S H1 H2|x b He|a b c d u Hu S|a b c d a' b' c' d' high low Hh R1 Hl R2].
    + destruct (decide (cp = 34)) as [->|].
      * cbn. intros [= <-]. unfold zlen. cbn. lia.
      * rewrite string_end_utf8 by done. intros ?%IH. lia.
    + assert (simple_escape x = true) as E.
      { revert He. unfold escapes. rewrite !elem_of_cons, elem_of_nil, !pair_equal_spec. intros ?. destruct_or?; try done; destruct_and?; by subst. }
      cbn. rewrite E. intros ?%IH. unfold zlen in *. cbn. lia.
    + unfold hex4 in Hu. destruct (is_xdigit a && _ && _ && _) eqn:X; [|done]. cbn. rewrite X. intros ?%IH. unfold zlen in *. cbn. lia.
    + unfold hex4 in *. destruct (is_xdigit a && _ && _ && _) eqn:X; [|done]. destruct (is_xdigit a' && _ && _ && _) eqn:X'; [|done].
      cbn. rewrite X. cbn. rewrite X'. intros ?%IH. unfold zlen in *. cbn. lia.
Qed.

(** ** Soundness of the validation *)

Lemma valid_members_unfold finite mem k d object stop depth t p :
  valid_members finite mem (S k) d object stop depth t p =
  match (if object then
           if (token_count d <=? t) || negb (bool_decide (ttype (tok d t) = JSMN_STRING)) then None
           else match valid finite mem k d (depth + 1) t p with
                | Some (t1, p1) => let p2 := ws (text_of d) p1 in if byte_at (text_of d) p2 =? 58 then Some (t1, p2 + 1) else None
                | None => None
                end
         else Some (t, p)) with
  | None => None
  | Some (t1, p1) =>
      match valid finite mem k d (depth + 1) t1 p1 with
      | None => None
      | Some (t2, p2) =>
          let p3 := ws (text_of d) p2 in
          if byte_at (text_of d) p3 =? stop then Some (t2, p3 + 1)
          else if byte_at (text_of d) p3 =? 44 then valid_members finite mem k d object stop depth t2 (p3 + 1) else None
      end
  end.
Proof. by destruct object. Qed.

Section Sound.
Context (finite : list Z -> bool) (mem : Z -> bool) (d : tg_json_doc).
Let s := text_of d.
Context (Hb : bytes_ok s) (Ht : Forall (tok_ok s) (tokens d)).

Lemma token_ok t : has_token d t = true -> tok_ok s (tok d t).
Proof.
  unfold has_token, token_count, tok. intros H. bprop. eapply Forall_lookup; [exact Ht|].
  destruct (nth_lookup_or_length (tokens d) (Z.to_nat t) no_token) as [E|]; [exact E|]. unfold zlen in *. lia.
Qed.
Lemma span_bytes x : bytes_ok (span s x).
Proof. by apply Forall_take, Forall_drop. Qed.

Lemma string_token t cap o :
  tg_string_read d t cap = Some o ->
  let x := tok d t in
  ttype x = JSMN_STRING /\ has_token d t = true /\ 1 <= tstart x <= tend x /\ json_string (span s x) /\
  drop (Z.to_nat (tstart x - 1)) s = (34 :: span s x ++ [34]) ++ drop (Z.to_nat (tend x + 1)) s.
Proof.
  intros R x. assert (has_token d t = true /\ ttype x = JSMN_STRING) as [H Ty].
  { unfold tg_string_read in R. fold x in R. destruct (has_token d t); [|done]. case_bool_decide; done. }
  pose proof (token_ok t H) as T. unfold tok_ok in T. fold x in T. rewrite Ty in T. destruct T as (T1 & T2 & T3).
  destruct (string_end_bounds _ _ _ T3) as [B E].
  assert (drop (Z.to_nat (tend x)) s = 34 :: drop (Z.to_nat (tend x + 1)) s) as Hend.
  { apply drop_byte; [|done|lia]. rewrite <- E. unfold byte_at. rewrite !nth_lookup, lookup_drop. do 2 f_equal. lia. }
  pose proof (span_split s x ltac:(lia)) as Sp. split_and!; try done; try lia.
  - split.
    + unfold tg_string_read in R. fold x in R. rewrite H, Ty in R. cbn in R. destruct (cap =? 0); [done|].
      apply fmap_Some in R as (r & R & _). destruct (decide (0 < cap)).
      * apply read_chars_exact in R as (cps & J & _); [by exists cps|apply span_bytes|done].
      * fold s in R. destruct (span s x) as [|c r'] eqn:Es; [exists []; constructor|].
        rewrite read_step in R. destruct (take_char _) as [[out rest]|]; [|done]. unfold put in R. pose proof (zlen_nonneg out).
        destruct (cap <=? 0 + zlen out) eqn:?; [done|]. bprop. lia.
    + intros l1 l2 cps El J. rewrite Sp, El, Hend in T3. rewrite <- app_assoc in T3. cbn in T3.
      pose proof (string_end_stops _ _ J _ _ _ T3) as L.
      assert (zlen (span s x) = tend x - tstart x) as Ls by (unfold span, zlen in *; rewrite length_take; lia).
      rewrite El, zlen_app, zlen_cons in Ls. pose proof (zlen_nonneg l2). lia.
  - rewrite (drop_byte s (tstart x - 1) 34) by (done || lia). replace (tstart x - 1 + 1) with (tstart x) by lia.
    rewrite Sp, Hend. cbn. by rewrite <- app_assoc.
Qed.

Lemma scalar_token t v :
  tg_value_read finite d t = Some v -> ttype (tok d t) = JSMN_PRIMITIVE ->
  0 <= tstart (tok d t) <= tend (tok d t) /\ json_scalar (span s (tok d t)).
Proof.
  unfold tg_value_read. destruct (has_token d t) eqn:H; [|done]. cbn [negb]. pose proof (token_ok t H) as T. intros R Ty.
  unfold tok_ok in T. rewrite Ty in T, R. split; [lia|]. destruct (_ || _); [done|]. fold s in R.
  rewrite cstr_bytes in R by apply span_bytes. unfold json_scalar.
  destruct (bool_decide_reflect (span s (tok d t) = text "null")); [by left|].
  destruct (bool_decide_reflect (span s (tok d t) = text "true")); [by right; left|].
  destruct (bool_decide_reflect (span s (tok d t) = text "false")); [by right; right; left|].
  cbn [orb] in R. destruct (number finite _) eqn:N; [|done]. unfold number in N. bprop. by do 3 right.
Qed.

Lemma members_blank n l : json_members n l -> forall w, blank w -> json_members n (w ++ l).
Proof.
  induction 1 as [n k w1 w2 w3 v|n l w m Hl IH Hw Hm _]; intros w0 B.
  - rewrite app_assoc. constructor; try done. by apply Forall_app.
  - rewrite app_assoc. constructor; try done. by apply IH.
Qed.
Lemma items_blank n l : json_items n l -> forall w, blank w -> json_items n (w ++ l).
Proof.
  induction 1 as [n w1 v|n l w m Hl IH Hw Hm _]; intros w0 B.
  - rewrite app_assoc. constructor; try done. by apply Forall_app.
  - rewrite app_assoc. apply ji_more; [by apply IH|done..].
Qed.

Definition left_at (depth : Z) : nat := Z.to_nat (64 - depth).
Definition inner (object : bool) (n : nat) (l : list Z) : Prop := if object then json_members n l else json_items n l.
Definition stop_of (object : bool) : Z := if object then 125 else 93.

Definition value_sound (k : nat) : Prop := forall depth t p t' p',
  0 <= t -> 0 <= p -> valid finite mem k d depth t p = Some (t', p') ->
  0 <= t' /\ p <= p' /\ depth <= 64 /\ exists w v, blank w /\ json_value (left_at depth) v /\ drop (Z.to_nat p) s = w ++ v ++ drop (Z.to_nat p') s.
Definition members_sound (k : nat) : Prop := forall (object : bool) depth t p t' p',
  0 <= t -> 0 <= p -> valid_members finite mem k d object (stop_of object) depth t p = Some (t', p') ->
  0 <= t' /\ p <= p' /\ depth + 1 <= 64 /\ exists l w, inner object (left_at (depth + 1)) l /\ blank w /\
    drop (Z.to_nat p) s = l ++ w ++ [stop_of object] ++ drop (Z.to_nat p') s.

Lemma key_sound k depth t p t' p' :
  0 <= t -> 0 <= p -> ttype (tok d t) = JSMN_STRING -> valid finite mem k d depth t p = Some (t', p') ->
  0 <= t' /\ p <= p' /\ exists w q, blank w /\ json_string q /\ drop (Z.to_nat p) s = w ++ (34 :: q ++ [34]) ++ drop (Z.to_nat p') s.
Proof.
  intros H0 Hp Ty. destruct k as [|k]; [done|]. cbn [valid]. destruct (_ || _); [done|]. cbv zeta. rewrite Ty.
  fold s. destruct (ws s p =? tstart (tok d t) - 1) eqn:E; [|done]. bprop. cbn [negb]. destruct (mem _); [|done]. cbn [negb].
  destruct (tg_string_read _ _ _) as [o|] eqn:R; [|done]. intros [= <- <-].
  destruct (string_token _ _ _ R) as (_ & _ & B & J & D). destruct (ws_split s p Hp) as (Hw & w & Bw & Dw).
  split; [lia|]. split; [lia|]. exists w, (span s (tok d t)). split_and!; try done. by rewrite Dw, E, D.
Qed.

Lemma container_step k (object : bool) depth t q t' p' :
  members_sound k -> 0 <= t -> 0 <= q -> depth <= 64 -> byte_at s q = (if object then 123 else 91) ->
  (let p1 := ws s (q + 1) in
   if byte_at s p1 =? stop_of object then Some (t + 1, p1 + 1) else valid_members finite mem k d object (stop_of object) depth (t + 1) p1)
  = Some (t', p') ->
  0 <= t' /\ q <= p' /\ exists v, json_value (left_at depth) v /\ drop (Z.to_nat q) s = v ++ drop (Z.to_nat p') s.
Proof.
  intros IM Ht0 Hq Hd Hb0. cbv zeta. destruct (ws_split s (q + 1) ltac:(lia)) as (Hw & w & Bw & Dw).
  assert (drop (Z.to_nat q) s = (if object then 123 else 91) :: drop (Z.to_nat (q + 1)) s) as Dq by (apply drop_byte; [done|by destruct object|done]).
  destruct (byte_at s (ws s (q + 1)) =? stop_of object) eqn:E; bprop.
  - intros [= <- <-]. split; [lia|]. split; [lia|]. exists ((if object then 123 else 91) :: w ++ [if object then 125 else 93]).
    split; [by apply jv_empty|]. rewrite Dq, Dw. rewrite (drop_byte s (ws s (q + 1)) (stop_of object)) by (done || lia || by destruct object).
    cbn. by rewrite <- app_assoc.
  - intros (Ht1 & Hp1 & Hd1 & l & w2 & J & B2 & D)%IM; [|lia..]. split; [done|]. split; [lia|].
    assert (left_at depth = S (left_at (depth + 1))) as Hl by (unfold left_at; lia).
    exists ((if object then 123 else 91) :: (w ++ l) ++ w2 ++ [stop_of object]). rewrite Hl. split.
    + destruct object; cbn in J |- *; [apply jv_object|apply jv_array]; try done; [by apply members_blank|by apply items_blank].
    + rewrite Dq, Dw, D. cbn. by rewrite <- !app_assoc.
Qed.

Lemma value_step k : value_sound k -> members_sound k -> value_sound (S k).
Proof.
  intros IH IM depth t p t' p' Ht0 Hp H. cbn [valid] in H. destruct ((64 <? depth) || (token_count d <=? t)) eqn:G; [done|].
  cbv zeta in H. fold s in H. bprop. destruct (ws_split s p Hp) as (Hw & w & Bw & Dw).
  assert (tok_ok s (tok d t)) as T by (apply token_ok; unfold has_token; lia).
  assert (0 <= t' /\ ws s p <= p' /\ (exists v, json_value (left_at depth) v /\ drop (Z.to_nat (ws s p)) s = v ++ drop (Z.to_nat p') s) ->
            0 <= t' /\ p <= p' /\ depth <= 64 /\
            exists w v, blank w /\ json_value (left_at depth) v /\ drop (Z.to_nat p) s = w ++ v ++ drop (Z.to_nat p') s) as Done.
  { intros (? & ? & v & J & D). split_and!; [done|lia|done|]. exists w, v. split_and!; [done..|]. by rewrite Dw, D. }
  apply Done. clear Done. destruct (ttype (tok d t)) eqn:Ty.
  - unfold tok_ok in T. by rewrite Ty in T.
  - destruct (ws s p =? tstart (tok d t)) eqn:E; [|done]. bprop. cbn [negb] in H. rewrite bool_decide_true in H by done.
    apply (container_step k true depth t (ws s p) t' p' IM Ht0 ltac:(lia) ltac:(lia)); [|exact H]. rewrite E. unfold tok_ok in T. rewrite Ty in T. apply T.
  - destruct (ws s p =? tstart (tok d t)) eqn:E; [|done]. bprop. cbn [negb] in H. rewrite bool_decide_false in H by done.
    apply (container_step k false depth t (ws s p) t' p' IM Ht0 ltac:(lia) ltac:(lia)); [|exact H]. rewrite E. unfold tok_ok in T. rewrite Ty in T. apply T.
  - destruct (ws s p =? tstart (tok d t) - 1) eqn:E; [|done]. bprop. cbn [negb] in H. destruct (mem _); [|done]. cbn [negb] in H.
    destruct (tg_string_read _ _ _) as [o|] eqn:R; [|done]. injection H as <- <-.
    destruct (string_token _ _ _ R) as (_ & _ & B & J & D). split_and!; [lia..|].
    eexists. split; [by apply jv_string|by rewrite E, D].
  - destruct (ws s p =? tstart (tok d t)) eqn:E; [|done]. bprop. cbn [negb] in H.
    destruct (tg_value_read _ _ _) as [v|] eqn:R; [|done]. injection H as <- <-. destruct (scalar_token _ _ R Ty) as [B J].
    split_and!; [lia..|]. eexists. split; [by apply jv_scalar|rewrite E; by apply span_split].
Qed.

Lemma members_step k : value_sound k -> members_sound k -> members_sound (S k).
Proof.
  intros IH IM object depth t p t' p' Ht0 Hp H. rewrite valid_members_unfold in H. fold s in H.
  (* what precedes the value of this entry *)
  assert (forall t1 p1, (if object then
      if (token_count d <=? t) || negb (bool_decide (ttype (tok d t) = JSMN_STRING)) then None
      else match valid finite mem k d (depth + 1) t p with
           | Some (t1, p1) => let p2 := ws s p1 in if byte_at s p2 =? 58 then Some (t1, p2 + 1) else None
           | None => None
           end else Some (t, p)) = Some (t1, p1) ->
    0 <= t1 /\ p <= p1 /\ exists pre, drop (Z.to_nat p) s = pre ++ drop (Z.to_nat p1) s /\
      forall w v, blank w -> json_value (left_at (depth + 1)) v -> inner object (left_at (depth + 1)) (pre ++ w ++ v)) as Key.
  { intros t1 p1. destruct object.
    - destruct (_ || _) eqn:G; [done|]. bprop. case_bool_decide as Ty; [|done]. destruct (valid _ _ _ _ _ _ _) as [[t2 p2]|] eqn:V; [|done].
      cbv zeta. destruct (byte_at s (ws s p2) =? 58) eqn:E; [|done]. bprop. intros [= <- <-].
      destruct (key_sound _ _ _ _ _ _ Ht0 Hp Ty V) as (? & ? & w1 & q & B1 & J1 & D1). destruct (ws_split s p2 ltac:(lia)) as (Hw & w2 & B2 & D2).
      split; [done|]. split; [lia|]. exists (w1 ++ (34 :: q ++ [34]) ++ w2 ++ [58]). split.
      + rewrite D1, D2, (drop_byte s (ws s p2) 58) by (done || lia). by rewrite <- !app_assoc.
      + intros w v Bw Jv. rewrite <- !app_assoc. by apply jm_one.
    - intros [= <- <-]. split; [done|]. split; [lia|]. exists []. split; [done|]. intros w v Bw Jv. cbn. by apply ji_one. }
  destruct (if object then _ else _) as [[t1 p1]|]; [|done]. destruct (Key t1 p1 eq_refl) as (Ht1 & Hp1 & pre & Dp & Jp). clear Key.
  destruct (valid finite mem k d (depth + 1) t1 p1) as [[t2 p2]|] eqn:V; [|done]. apply IH in V as (Ht2 & Hp2 & Hd & w & v & Bw & Jv & Dv); [|lia..].
  destruct (ws_split s p2 ltac:(lia)) as (Hw3 & w3 & B3 & D3). cbv zeta in H.
  destruct (byte_at s (ws s p2) =? stop_of object) eqn:E; [|destruct (byte_at s (ws s p2) =? 44) eqn:E2; [|done]]; bprop.
  - injection H as <- <-. split_and!; [done|lia|lia|]. exists (pre ++ w ++ v), w3. split_and!; [by apply Jp|done|].
    rewrite Dp, Dv, D3, (drop_byte s (ws s p2) (stop_of object)) by (done || lia || by destruct object). by rewrite <- !app_assoc.
  - apply IM in H as (Ht3 & Hp3 & _ & l & w4 & Jl & B4 & D4); [|lia..]. split_and!; [done|lia|lia|].
    exists ((pre ++ w ++ v) ++ w3 ++ [44] ++ l), w4. split_and!; [|done|].
    + specialize (Jp w v Bw Jv). destruct object; [by apply jm_more|by apply ji_more].
    + rewrite Dp, Dv, D3, (drop_byte s (ws s p2) 44), D4 by (done || lia). by rewrite <- !app_assoc.
Qed.

Lemma valid_sound k : value_sound k /\ members_sound k.
Proof. induction k as [|k [IH IM]]; [done|]. split; [by apply value_step|by apply members_step]. Qed.
End Sound.

(** C18: only strict JSON is accepted, and only in bounded size: a text that
    [tg_document_parse] accepts has at most 32 MiB and no NUL; the document
    holds that text, and the text is one value of the grammar, nested at most
    64 deep, between white space.  So what jsmn alone lets through - a missing
    or trailing separator, a member without value, a bare word, a malformed
    number or escape, bytes after the value - is refused. *)
Theorem document_strict finite mem s d :
  tg_document_parse finite mem s = Some d -> Forall (fun c => 0 <= c < 256) s ->
  zlen s <= 33554432 /\ Forall (fun c => c <> 0) s /\ text_of d = s /\
  exists w v w', s = w ++ v ++ w' /\ blank w /\ blank w' /\ json_value 64 v.
Proof.
  unfold tg_document_parse. destruct (_ || existsb (Z.eqb 0) s) eqn:Z0; [done|]. apply orb_false_iff in Z0 as [Len Z0].
  destruct (mem _); [|done]. cbn [negb]. destruct (tokenize mem 17 128 s) as [l|] eqn:Tk; [|done].
  destruct (zlen l <? 1); [done|]. set (d0 := mk_doc s l). destruct (valid _ _ _ _ _ _ _) as [[t p]|] eqn:V; [|done].
  destruct (_ && _) eqn:G; [|done]. intros [= <-] F. bprop.
  assert (bytes_ok s) as Hb.
  { apply Forall_forall. intros c Hc. rewrite Forall_forall in F. specialize (F c Hc). enough (c <> 0) by lia. intros ->.
    rewrite <- not_true_iff_false, existsb_exists in Z0. apply Z0. exists 0. split; [by apply list_elem_of_In|done]. }
  split; [lia|]. split; [apply (Forall_impl _ _ _ Hb); lia|]. split; [done|].
  assert (Forall (tok_ok s) l) as Ht.
  { revert Tk. generalize 128. generalize 17%nat. intros n. induction n as [|n IH]; intros cap; cbn [tokenize]; [done|].
    destruct (mem _); [|done]. cbn [negb]. destruct (jsmn_parse cap s) as [e|l'] eqn:J.
    - case_bool_decide; [|done]. destruct (4194304 <? cap); [done|]. apply IH.
    - intros [= ->]. by eapply jsmn_parse_ok. }
  destruct (valid_sound finite mem d0 Hb Ht (valid_fuel d0)) as [VS _]. apply VS in V as (_ & Hp & _ & w & v & Bw & Jv & D); [|lia..].
  destruct (ws_split s p Hp) as (Hw & w' & Bw' & D'). exists w, v, w'. split_and!; try done.
  cbn [text_of d0] in D. rewrite D' in D. change (drop (Z.to_nat 0) s) with s in D. etransitivity; [exact D|]. do 2 f_equal.
  rewrite H, drop_ge; [by rewrite app_nil_r|]. unfold zlen. lia.
Qed.

Definition quoted (s : string) : list Z := map (fun c => if c =? 39 then 34 else c) (text s).
Definition demo_json : list Z := quoted " {'a': [1, -2.5e3, true], 'b': {'x': '\u00e9 }', 'y':[]}} ".
Definition finite_all (_ : list Z) : bool := true.
Definition memory_all (_ : Z) : bool := true.
Lemma document_strict_witness :
  exists d, tg_document_parse finite_all memory_all demo_json = Some d /\
  (zlen demo_json <= 33554432 /\ Forall (fun c => c <> 0) demo_json /\ text_of d = demo_json /\ exists w v w', demo_json = w ++ v ++ w' /\ blank w /\ blank w' /\ json_value 64 v).
Proof.
  destruct (tg_document_parse finite_all memory_all demo_json) as [d|] eqn:E; [|vm_compute in E; discriminate].
  exists d. split; [reflexivity|]. apply (document_strict finite_all memory_all demo_json d E).
  apply Forall_forall. intros c Hc. assert (forallb (fun c => (0 <=? c) && (c <? 256)) demo_json = true) as H by (vm_compute; reflexivity).
  rewrite forallb_forall in H. apply list_elem_of_In in Hc. specialize (H c Hc). lia.
Defined.

Example document_refused :
  Forall (fun t => tg_document_parse finite_all memory_all (quoted t) = None)
    ["[1,]"; "{'a' 1}"; "{'a':1,}"; "[1 2]"; "01"; "'a"; "[]]"; "{'a':}"; "{a:1}"; "[,1]"; "1 2"; ""; "'\u0000'"; "'\ud800'";
     "{'a':1 'b':2}"; "[1}"; "{1:2}"; "nul"; "+1"; "1."; "'\x'"]%string.
Proof. repeat constructor. Qed.

(** ** Enough fuel *)

Section Fuel.
Context (finite : list Z -> bool) (mem : Z -> bool) (d : tg_json_doc).
Local Abbreviation V k := (valid finite mem k d).
Local Abbreviation M k := (valid_members finite mem k d).

Lemma valid_advances k :
  (forall depth t p t' p', V k depth t p = Some (t', p') -> t < t' /\ t < token_count d) /\
  (forall object stop depth t p t' p', M k object stop depth t p = Some (t', p') -> t < t').
Proof.
  induction k as [|k [IV IM]]; [done|]. split.
  - intros depth t p t' p'. cbn [valid]. destruct ((64 <? depth) || (token_count d <=? t)) eqn:G; [done|]. bprop. cbv zeta.
    destruct (ttype (tok d t)); (case_match; [done|]); repeat (case_match; try done); try (intros [= <- <-]; lia); intros ?%IM; lia.
  - intros object stop depth t p t' p'. rewrite valid_members_unfold.
    destruct (if object then _ else _) as [[t1 p1]|] eqn:K; [|done].
    assert (t <= t1) as Ht.
    { destruct object; [|by simplify_eq]. destruct (_ || _); [done|]. destruct (V k (depth + 1) t p) as [[t2 p2]|] eqn:E; [|done].
      apply IV in E. cbv zeta in K. case_match; simplify_eq. lia. }
    destruct (V k (depth + 1) t1 p1) as [[t2 p2]|] eqn:E; [|done]. apply IV in E. cbv zeta.
    destruct (_ =? stop); [intros [= <- <-]; lia|]. destruct (_ =? 44); [|done]. intros ?%IM. lia.
Qed.

(** More fuel than a call at [t] needs changes nothing. *)
Definition needs (t : Z) : Z := 2 * (token_count d - t) + 2.
Lemma valid_fuel_irrelevant k : forall j, (k <= j)%nat ->
  (forall depth t p, 1 <= Z.of_nat k /\ needs t <= Z.of_nat k -> V k depth t p = V j depth t p) /\
  (forall object stop depth t p, 2 <= Z.of_nat k /\ needs t + 1 <= Z.of_nat k ->
     M k object stop depth t p = M j object stop depth t p).
Proof.
  induction k as [|k IH]; intros j Hj; [split; intros; unfold needs in *; lia|]. destruct j as [|j]; [lia|].
  destruct (IH j ltac:(lia)) as [IV IM]. clear IH. unfold needs in *. split.
  - intros depth t p H. cbn [valid]. destruct ((64 <? depth) || (token_count d <=? t)) eqn:G; [done|]. bprop. cbv zeta.
    destruct (ttype (tok d t)); try done; (case_match; [done|]); (case_match; [done|]); apply IM; lia.
  - intros object stop depth t p H. rewrite !valid_members_unfold.
    assert (V k (depth + 1) t p = V j (depth + 1) t p) as E1 by (apply IV; lia). rewrite E1.
    destruct (if object then _ else _) as [[t1 p1]|] eqn:K; [|done].
    assert (t <= t1) as Ht.
    { destruct object; [|by simplify_eq]. destruct (_ || _); [done|]. destruct (V j (depth + 1) t p) as [[t2 p2]|] eqn:E; [|done].
      apply valid_advances in E. cbv zeta in K. case_match; simplify_eq. lia. }
    rewrite (IV (depth + 1) t1 p1) by lia. destruct (V j (depth + 1) t1 p1) as [[t2 p2]|] eqn:E; [|done]. apply valid_advances in E. cbv zeta.
    destruct (_ =? stop); [done|]. destruct (_ =? 44); [|done]. apply IM. lia.
Qed.

Theorem valid_fuel_enough k : (valid_fuel d <= k)%nat -> V k 0 0 0 = V (valid_fuel d) 0 0 0.
Proof. intros H. symmetry. apply valid_fuel_irrelevant; [done|]. unfold needs, valid_fuel, token_count, zlen. lia. Qed.
End Fuel.
