(* ===== verification/WorkflowPlan.v ===== *)
(** * Workflow plans (traffic-gen/core/workflow_plan.h, workflow_plan.c)

    The compiler of a business transaction: from the JSON of a class to steps
    with resolved targets.  A token index that is negative stands for an absent
    member.  [None] is the result -1.  The steps and rows of a plan are lists;
    its [count] and [row_count] are their lengths. *)

From stdpp Require Import strings.
From S2P Require Import Prelude Json.

Definition TG_WF_STEPS : Z := 16.
Definition TG_WF_VARS : Z := 32.
Definition TG_WF_REQUEST_CAP : Z := 16385.

Inductive tg_step_kind := TG_STEP_HTTP | TG_STEP_DNS | TG_STEP_THINK | TG_STEP_BRANCH.
#[global] Instance step_kind_eq_dec : EqDecision tg_step_kind.
Proof. solve_decision. Defined.

Record tg_step_plan := mk_step {
  st_name : list Z; st_kind : tg_step_kind;
  st_object : Z; st_extract : Z; st_checks : Z; st_condition : Z;
  st_next : Z; st_yes : Z; st_no : Z; st_timeout_ms : Z; st_min_ms : Z; st_max_ms : Z;
  st_capture_headers : bool; st_capture_json : bool
}.
Record tg_workflow_plan := mk_wplan {
  wp_doc : tg_json_doc; wp_steps : list tg_step_plan; wp_timeout_ms : Z; wp_vars : Z; wp_rows : list Z
}.
Definition count (p : tg_workflow_plan) : Z := zlen (wp_steps p).
Definition row_count (p : tg_workflow_plan) : Z := zlen (wp_rows p).

(** ** C strings *)

(** [strchr] for a byte that is not 0: what is before it and after it. *)
Fixpoint split_at (c : Z) (l : list Z) : option (list Z * list Z) :=
  match l with
  | [] => None
  | x :: t => if x =? c then Some ([], t) else match split_at c t with Some (a, b) => Some (x :: a, b) | None => None end
  end.
Fixpoint prefix_of (p l : list Z) : bool :=
  match p, l with
  | [], _ => true
  | x :: p', y :: l' => (x =? y) && prefix_of p' l'
  | _, _ => false
  end.
(** [strstr]: the text from the first occurrence on. *)
Fixpoint strstr (l needle : list Z) : option (list Z) :=
  if prefix_of needle l then Some l else match l with [] => None | _ :: t => strstr t needle end.

(** A failed test ends a function with -1. *)
Definition ensure {A} (b : bool) (k : option A) : option A := if b then k else None.
Local Notation "'need' b ; k" := (ensure b k) (at level 20, b at level 100, k at level 200, right associativity).
Local Notation "x <- e ; k" := (match e with Some x => k | None => None end) (at level 20, e at level 100, k at level 200, right associativity).
Definition succeeds {A B} (r : A + B) : option B := match r with inl _ => None | inr b => Some b end.

(** ** Members *)

Section Doc.
Context (d : tg_json_doc).

Definition tg_wf_member (o : Z) (key : list Z) : Z :=
  if negb (has_token d o) || negb (bool_decide (ttype (tok d o) = JSMN_OBJECT)) then -1
  else from_option id (-1) (find_member d TG_VALUE_CAP key (-1) (object_keys d o)).

Definition tg_wf_text (o : Z) (key : list Z) (fallback : option (list Z)) (cap : Z) : option (list Z) :=
  let t := tg_wf_member o key in
  if 0 <=? t then tg_string_read d t cap
  else match fallback with
  | Some f => if cap <=? zlen f then None else Some f
  | None => None
  end.

Definition tg_wf_u32 (o : Z) (key : list Z) (fallback min max : Z) : errno + Z :=
  let t := tg_wf_member o key in if t <? 0 then inr fallback else tg_json_parse_u32 d (tok d t) min max.

(** [object]: the names of the members, if all are allowed and none is
    repeated. *)
Fixpoint fields_ok (allowed : list Z) (seen : list (list Z)) (keys : list Z) : bool :=
  match keys with
  | [] => true
  | i :: r =>
      match tg_string_read d i 64 with
      | None => false
      | Some name =>
          match strstr allowed (32 :: name ++ [32]) with
          | None => false
          | Some _ => negb (bool_decide (name ∈ seen)) && fields_ok allowed (name :: seen) r
          end
      end
  end.
Definition object (o : Z) (allowed : list Z) : bool :=
  negb ((o <? 0) || negb (bool_decide (ttype (tok d o) = JSMN_OBJECT))) && fields_ok allowed [] (object_keys d o).

Context (finite : list Z -> bool) (mem : Z -> bool).

Fixpoint values_ok (n : Z) (seen : list (list Z)) (keys : list Z) : bool :=
  match keys with
  | [] => true
  | i :: r =>
      (n + 1 <=? TG_WF_VARS) &&
      match tg_string_read d i 64 with
      | None => false
      | Some name =>
          negb (bool_decide (name = [])) && bool_decide (is_Some (tg_value_read finite d (i + 1)))
          && negb (bool_decide (name ∈ seen)) && values_ok (n + 1) (name :: seen) r
      end
  end.
Definition values (o : Z) : bool :=
  if o <? 0 then true
  else bool_decide (ttype (tok d o) = JSMN_OBJECT) && (tsize (tok d o) <=? TG_WF_VARS) && values_ok 0 [] (object_keys d o).

(** ** Selectors and conditions *)

Definition reference_ok (ref : list Z) : bool :=
  existsb (Z.eqb 46) ref && (prefix_of (text "vars.") ref || prefix_of (text "data.") ref || prefix_of (text "ctx.") ref).

Definition selector (o : Z) (kind : tg_step_kind) (response : bool) : bool :=
  if negb (object o (text " ref  source  path  index ")) then false
  else
    let rt := tg_wf_member o (text "ref") in
    let st := tg_wf_member o (text "source") in
    if Bool.eqb (0 <=? rt) (0 <=? st) then false
    else if 0 <=? rt then match tg_wf_text o (text "ref") None 128 with Some ref => reference_ok ref | None => false end
    else if negb response then false
    else match tg_wf_text o (text "source") None 32, tg_wf_text o (text "path") (Some []) TG_VALUE_CAP,
               tg_wf_u32 o (text "index") 0 0 65535 with
    | Some source, Some path, inr _ =>
        if bool_decide (kind = TG_STEP_DNS) then bool_decide (source = text "address")
        else bool_decide (source = text "status")
          || (bool_decide (source = text "header") && negb (bool_decide (path = [])))
          || (bool_decide (source = text "json") && (bool_decide (path = []) || prefix_of [47] path))
    | _, _, _ => false
    end.

Definition compare_ops : list (list Z) := map text ["=="; "!="; "<"; "<="; ">"; ">="]%string.

Definition condition (o : Z) (kind : tg_step_kind) (response : bool) : bool :=
  object o (text " left  op  right ") &&
  match tg_wf_text o (text "op") None 16 with
  | None => false
  | Some op =>
      selector (tg_wf_member o (text "left")) kind response &&
      (if bool_decide (op = text "exists") then tg_wf_member o (text "right") <? 0
       else bool_decide (op ∈ compare_ops) && bool_decide (is_Some (tg_value_read finite d (tg_wf_member o (text "right")))))
  end.

(** What a selector asks of the response. *)
Definition capture_source (sel : Z) (s : tg_step_plan) : tg_step_plan :=
  match tg_wf_text sel (text "source") (Some []) 16 with
  | None => s
  | Some source =>
      mk_step (st_name s) (st_kind s) (st_object s) (st_extract s) (st_checks s) (st_condition s) (st_next s) (st_yes s) (st_no s)
        (st_timeout_ms s) (st_min_ms s) (st_max_ms s)
        (st_capture_headers s || bool_decide (source = text "header")) (st_capture_json s || bool_decide (source = text "json"))
  end.

(** The index, from [i] on, of the first step with a name. *)
Fixpoint find_step (name : list Z) (i : Z) (l : list tg_step_plan) : option Z :=
  match l with
  | [] => None
  | s :: r => if bool_decide (name = st_name s) then Some i else find_step name (i + 1) r
  end.
Definition target (steps : list tg_step_plan) (o : Z) (key : list Z) (from : Z) : option Z :=
  name <- tg_wf_text o key None 64;
  if bool_decide (name = text "end") then Some (zlen steps)
  else find_step name (from + 1) (drop (Z.to_nat (from + 1)) steps).

(** One reference of a template, between its braces. *)
Definition template_ref_ok (inside : list Z) : bool :=
  let '(ref, filter) := match split_at 124 inside with Some (r, f) => (r, Some f) | None => (inside, None) end in
  match split_at 46 ref with
  | Some (_, _ :: _) =>
      (prefix_of (text "vars.") ref || prefix_of (text "data.") ref || prefix_of (text "ctx.") ref)
      && match filter with Some f => bool_decide (f = text "url") || bool_decide (f = text "json") | None => true end
  | _ => false
  end.
(** Every reference takes characters off the text. *)
Fixpoint template_ok (fuel : nat) (l : list Z) : bool :=
  match fuel with
  | O => true
  | S k =>
      match strstr l (text "${") with
      | None => true
      | Some s =>
          match split_at 125 (drop 2 s) with
          | None => false
          | Some (inside, rest) => if 128 <? 2 + zlen inside then false else template_ref_ok inside && template_ok k rest
          end
      end
  end.
Definition template_field (o : Z) (key : list Z) (fallback : option (list Z)) (cap : Z) : bool :=
  mem cap && match tg_wf_text o key fallback cap with None => false | Some l => template_ok (length l) l end.

(** ** The compiler *)

Definition step_kind_of (kind : list Z) : option tg_step_kind :=
  if bool_decide (kind = text "http") then Some TG_STEP_HTTP
  else if bool_decide (kind = text "dns") then Some TG_STEP_DNS
  else if bool_decide (kind = text "think") then Some TG_STEP_THINK
  else if bool_decide (kind = text "branch") then Some TG_STEP_BRANCH
  else None.

(** The first pass registers the names. *)
Fixpoint register_steps (items : list Z) (steps : list tg_step_plan) : option (list tg_step_plan) :=
  match items with
  | [] => Some steps
  | i :: r =>
      name <- tg_wf_text i (text "name") None 64;
      need negb (bool_decide (name = [])) && negb (bool_decide (name = text "end"));
      kind <- tg_wf_text i (text "type") None 16;
      need negb (bool_decide (name ∈ map st_name steps));
      k <- step_kind_of kind;
      register_steps r (steps ++ [mk_step name k i 0 0 0 0 0 0 0 0 0 false false])
  end.

Definition step_fields (k : tg_step_kind) : list Z :=
  match k with
  | TG_STEP_HTTP => text " name  type  next  peer  http  extract  checks  timeout_ms "
  | TG_STEP_DNS => text " name  type  next  peer  dns  extract  checks  timeout_ms "
  | TG_STEP_THINK => text " name  type  next  ms  min_ms  max_ms "
  | TG_STEP_BRANCH => text " name  type  condition  then  else "
  end.

(** The extraction names across all steps. *)
Fixpoint extract_ok (kind : tg_step_kind) (keys : list Z) (names : list (list Z)) (s : tg_step_plan)
    : option (list (list Z) * tg_step_plan) :=
  match keys with
  | [] => Some (names, s)
  | j :: r =>
      name <- tg_string_read d j 64;
      need negb (bool_decide (name = [])) && selector (j + 1) kind true;
      let s := capture_source (j + 1) s in
      if bool_decide (name ∈ names) then extract_ok kind r names s
      else need negb (zlen names =? TG_WF_VARS); extract_ok kind r (names ++ [name]) s
  end.
Fixpoint checks_ok (kind : tg_step_kind) (items : list Z) (s : tg_step_plan) : option tg_step_plan :=
  match items with
  | [] => Some s
  | j :: r => need condition j kind true; checks_ok kind r (capture_source (tg_wf_member j (text "left")) s)
  end.

Definition http_fields_ok (cfg : Z) : bool :=
  template_field cfg (text "method") (Some (text "GET")) 16 &&
  template_field cfg (text "path") (Some (text "/")) TG_WF_REQUEST_CAP &&
  template_field cfg (text "host") (Some []) TG_VALUE_CAP &&
  template_field cfg (text "body") (Some []) TG_WF_REQUEST_CAP &&
  (let keep := tg_wf_member cfg (text "keepalive") in
   (keep <? 0) || bool_decide (is_Some (succeeds (tg_json_parse_bool d (tok d keep))))) &&
  (let headers := tg_wf_member cfg (text "headers") in
   (headers <? 0) ||
   (bool_decide (ttype (tok d headers) = JSMN_OBJECT) && (tsize (tok d headers) <=? 32) &&
    forallb (fun j => match tg_string_read d j 128 with
                      | Some key => negb (bool_decide (key = [])) && template_field headers key None TG_WF_REQUEST_CAP
                      | None => false
                      end) (object_keys d headers))).

Definition dns_fields_ok (cfg : Z) : bool :=
  template_field cfg (text "qname") None TG_VALUE_CAP &&
  bool_decide (tg_wf_text cfg (text "qtype") (Some (text "A")) 16 = Some (text "A")).

(** An HTTP or DNS step: its request, its extraction, its checks. *)
Definition compile_network (s : tg_step_plan) (names : list (list Z)) : option (list (list Z) * tg_step_plan) :=
  let o := st_object s in
  let http := bool_decide (st_kind s = TG_STEP_HTTP) in
  let peer := tg_wf_member o (text "peer") in
  need object peer (text " ip  port ");
  ip <- tg_wf_text peer (text "ip") None TG_VALUE_CAP;
  need negb (bool_decide (ip = []));
  port <- succeeds (tg_wf_u32 peer (text "port") (if http then 80 else 53) 1 65535);
  timeout <- succeeds (tg_wf_u32 o (text "timeout_ms") 5000 1 3600000);
  let s := mk_step (st_name s) (st_kind s) (st_object s) (st_extract s) (st_checks s) (st_condition s) (st_next s) (st_yes s) (st_no s)
             timeout (st_min_ms s) (st_max_ms s) (st_capture_headers s) (st_capture_json s) in
  let cfg := tg_wf_member o (if http then text "http" else text "dns") in
  need object cfg (if http then text " method  path  host  keepalive  headers  body " else text " qname  qtype ");
  need template_field peer (text "ip") None TG_VALUE_CAP;
  need (if http then http_fields_ok cfg else dns_fields_ok cfg);
  r <- (if 0 <=? st_extract s then
          need bool_decide (ttype (tok d (st_extract s)) = JSMN_OBJECT) && (tsize (tok d (st_extract s)) <=? TG_WF_VARS);
          extract_ok (st_kind s) (object_keys d (st_extract s)) names s
        else Some (names, s));
  let '(names, s) := r in
  if 0 <=? st_checks s then
    need bool_decide (ttype (tok d (st_checks s)) = JSMN_ARRAY) && (tsize (tok d (st_checks s)) <=? 32);
    s <- checks_ok (st_kind s) (array_items d (st_checks s)) s;
    Some (names, s)
  else Some (names, s).

(** The second pass resolves step [i]; the result is its names so far, the
    step, and what it adds to the default deadline. *)
Definition compile_step (steps : list tg_step_plan) (i : Z) (s : tg_step_plan) (names : list (list Z))
    : option (list (list Z) * tg_step_plan * Z) :=
  let o := st_object s in
  need object o (step_fields (st_kind s));
  next <- (if 0 <=? tg_wf_member o (text "next") then target steps o (text "next") i else Some (i + 1));
  let extract := tg_wf_member o (text "extract") in
  let checks := tg_wf_member o (text "checks") in
  let s1 := mk_step (st_name s) (st_kind s) o extract checks 0 next 0 0 0 0 0 false false in
  match st_kind s with
  | TG_STEP_BRANCH =>
      let c := tg_wf_member o (text "condition") in
      need condition c (st_kind s) false;
      yes <- target steps o (text "then") i;
      no <- target steps o (text "else") i;
      Some (names, mk_step (st_name s) (st_kind s) o extract checks c next yes no 0 0 0 false false, 0)
  | TG_STEP_THINK =>
      ms <- succeeds (tg_wf_u32 o (text "ms") 0 0 3600000);
      min <- succeeds (tg_wf_u32 o (text "min_ms") ms 0 3600000);
      max <- succeeds (tg_wf_u32 o (text "max_ms") ms 0 3600000);
      need negb (max <? min);
      need negb ((0 <=? tg_wf_member o (text "ms")) && ((0 <=? tg_wf_member o (text "min_ms")) || (0 <=? tg_wf_member o (text "max_ms"))));
      Some (names, mk_step (st_name s) (st_kind s) o extract checks 0 next 0 0 0 min max false false, max)
  | _ =>
      r <- compile_network s1 names;
      let '(names, s2) := r in Some (names, s2, st_timeout_ms s2)
  end.

(** Targets are looked up among the registered steps, whose names do not
    change. *)
Fixpoint compile_steps (all : list tg_step_plan) (i : Z) (todo : list tg_step_plan) (names : list (list Z)) (timeout : Z)
    : option (list tg_step_plan * Z) :=
  match todo with
  | [] => Some ([], timeout)
  | s :: r =>
      c <- compile_step all i s names;
      let '(names, s', t) := c in
      q <- compile_steps all (i + 1) r names (timeout + t);
      let '(rest, total) := q in Some (s' :: rest, total)
  end.

Definition compile_rows (dataset : Z) : option (list Z) :=
  if dataset <? 0 then Some []
  else
    let x := tok d dataset in
    need bool_decide (ttype x = JSMN_ARRAY);
    need tend x - tstart x <=? 16777216;
    need negb (tsize x =? 0) && mem (tsize x * 4);
    let rows := array_items d dataset in
    need (zlen rows <=? tsize x) && forallb values rows;
    Some (rows ++ replicate (Z.to_nat (tsize x - zlen rows)) 0).

Definition compile_owned : option tg_workflow_plan :=
  need object 0 (text " vars  dataset  steps  timeout_ms ");
  let vars := tg_wf_member 0 (text "vars") in
  need values vars;
  rows <- compile_rows (tg_wf_member 0 (text "dataset"));
  let steps := tg_wf_member 0 (text "steps") in
  need negb (steps <? 0) && bool_decide (ttype (tok d steps) = JSMN_ARRAY) && (1 <=? tsize (tok d steps))
       && (tsize (tok d steps) <=? TG_WF_STEPS);
  named <- register_steps (array_items d steps) [];
  q <- compile_steps named 0 named [] 0;
  let '(compiled, total) := q in
  let timeout := if total =? 0 then 1 else total in
  need timeout <=? 86400000;
  t <- succeeds (tg_wf_u32 0 (text "timeout_ms") timeout 1 86400000);
  Some (mk_wplan d compiled t vars rows).
End Doc.

(** [calloc] of the plan, then the document and its compilation. *)
Definition PLAN_SIZE : Z := 1856.
Definition copy_text (finite : list Z -> bool) (mem : Z -> bool) (s : list Z) : errno + tg_workflow_plan :=
  if negb (mem PLAN_SIZE) then inl ENOMEM
  else match tg_document_parse finite mem s with
  | None => inl EINVAL
  | Some d => match compile_owned d finite mem with None => inl EINVAL | Some p => inr p end
  end.

Definition tg_workflow_compile (finite : list Z -> bool) (mem : Z -> bool) (d : tg_json_doc) (t : Z) : errno + tg_workflow_plan :=
  copy_text finite mem (span (text_of d) (tok d t)).
(** The plan of another shard. *)
Definition clone (finite : list Z -> bool) (mem : Z -> bool) (p : tg_workflow_plan) : errno + tg_workflow_plan :=
  copy_text finite mem (cstr (text_of (wp_doc p))).
