(* ===== verification/WorkflowPlanFacts.v ===== *)
(** * Workflow plans: what the compiler guarantees

    [plan_ok] is what the execution of a plan relies on. *)

From stdpp Require Import strings.
From S2P Require Import Prelude Json JsonFacts JsonText WorkflowPlan.

Definition network (k : tg_step_kind) : Prop := k = TG_STEP_HTTP \/ k = TG_STEP_DNS.

(** Step [i] of [n]: control only moves forward, at most to the end. *)
Record step_ok (n i : Z) (s : tg_step_plan) : Prop := {
  so_next : i < st_next s <= n;
  so_branch : st_kind s = TG_STEP_BRANCH -> i < st_yes s <= n /\ i < st_no s <= n;
  so_think : st_kind s = TG_STEP_THINK -> 0 <= st_min_ms s <= st_max_ms s /\ st_max_ms s <= 3600000;
  so_network : network (st_kind s) -> 1 <= st_timeout_ms s <= 3600000
}.
Definition plan_ok (p : tg_workflow_plan) : Prop :=
  (forall i s, wp_steps p !! i = Some s -> step_ok (count p) (Z.of_nat i) s) /\
  NoDup (map st_name (wp_steps p)) /\
  Forall (fun s => st_name s <> [] /\ st_name s <> text "end") (wp_steps p) /\
  1 <= wp_timeout_ms p <= 86400000.

Section Facts.
Context (d : tg_json_doc) (finite : list Z -> bool) (mem : Z -> bool).

(** ** Inversion of the option monad *)

Lemma ensure_some {A} b (k : option A) x : ensure b k = Some x <-> b = true /\ k = Some x.
Proof. unfold ensure. destruct b; intuition discriminate. Qed.
Ltac opt H :=
  repeat first
    [ apply ensure_some in H; let G := fresh "G" in destruct H as [G H]
    | match type of H with (match ?e with Some _ => _ | None => _ end) = Some _ =>
        let E := fresh "E" in destruct e eqn:E; [|discriminate H] end
    | match type of H with (let '(_, _) := ?r in _) = _ => destruct r end ];
  cbv zeta in H.

Lemma u32_bounds o key f lo hi v :
  succeeds (tg_wf_u32 d o key f lo hi) = Some v -> lo <= f <= hi -> lo <= v <= hi.
Proof.
  unfold tg_wf_u32, succeeds, tg_json_parse_u32. destruct (_ <? 0); [intros [= <-]; done|].
  destruct (_ || _); [done|]. destruct (parse_digits _ _); [done|]. destruct (_ || _) eqn:G; [done|]. intros [= <-] _. bprop. lia.
Qed.

Lemma find_step_bounds name l : forall i j, find_step name i l = Some j -> i <= j < i + zlen l.
Proof.
  induction l as [|s l IH]; intros i j; cbn [find_step]; [done|]. rewrite zlen_cons. pose proof (zlen_nonneg l).
  case_bool_decide; [intros [= <-]; lia|]. intros ?%IH. lia.
Qed.
Lemma target_bounds steps o key from j : target d steps o key from = Some j -> 0 <= from < zlen steps -> from < j <= zlen steps.
Proof.
  unfold target. intros H B. opt H. case_bool_decide; [injection H as <-; lia|]. apply find_step_bounds in H.
  rewrite zlen_drop in H by lia. lia.
Qed.

(** ** The passes *)

Lemma register_names items : forall acc l,
  register_steps d items acc = Some l -> NoDup (map st_name acc) -> Forall (fun s => st_name s <> [] /\ st_name s <> text "end") acc ->
  NoDup (map st_name l) /\ Forall (fun s => st_name s <> [] /\ st_name s <> text "end") l /\ length l = (length acc + length items)%nat.
Proof.
  induction items as [|i r IH]; intros acc l; cbn [register_steps]; [intros [= <-]; rewrite Nat.add_0_r; done|]. intros H N F. opt H.
  apply IH in H as (A & B & C).
  - split_and!; [done..|]. rewrite C, length_app. cbn. lia.
  - rewrite map_app. bprop. case_bool_decide as Hn; [done|]. apply NoDup_app. split_and!; [done| |apply NoDup_singleton].
    intros x Hx. cbn. rewrite list_elem_of_singleton. by intros ->.
  - bprop. repeat case_bool_decide; try done. apply Forall_app. split; [done|]. by repeat constructor.
Qed.

Definition same_step (s s' : tg_step_plan) : Prop :=
  st_kind s' = st_kind s /\ st_name s' = st_name s /\ st_next s' = st_next s /\ st_timeout_ms s' = st_timeout_ms s.
Lemma capture_same sel s : same_step s (capture_source d sel s).
Proof. unfold capture_source, same_step. by case_match. Qed.
Lemma same_step_trans a b c : same_step a b -> same_step b c -> same_step a c.
Proof. unfold same_step. intuition congruence. Qed.
Lemma extract_same k keys : forall names s names' s', extract_ok d k keys names s = Some (names', s') -> same_step s s' /\ zlen names <= zlen names' /\ (zlen names <= TG_WF_VARS -> zlen names' <= TG_WF_VARS).
Proof.
  induction keys as [|j r IH]; intros names s names' s'; cbn [extract_ok]; [by intros [= <- <-]|]. intros H. opt H. pose proof (capture_same (j + 1) s).
  case_bool_decide.
  - apply IH in H as [? ?]. split; [by eapply same_step_trans|done].
  - opt H. apply IH in H as (? & L & B). rewrite zlen_app in *. bprop. split; [by eapply same_step_trans|]. unfold zlen in *. cbn in *.
    split; [lia|]. intros. apply B. unfold TG_WF_VARS in *. lia.
Qed.
Lemma checks_same k items : forall s s', checks_ok d finite k items s = Some s' -> same_step s s'.
Proof.
  induction items as [|j r IH]; intros s s'; cbn [checks_ok]; [by intros [= <-]|]. intros H. opt H. eapply same_step_trans; [apply capture_same|by eapply IH].
Qed.

Lemma compile_network_ok s names names' s' :
  compile_network d finite mem s names = Some (names', s') ->
  st_kind s' = st_kind s /\ st_name s' = st_name s /\ st_next s' = st_next s /\ 1 <= st_timeout_ms s' <= 3600000 /\
  (zlen names <= TG_WF_VARS -> zlen names' <= TG_WF_VARS).
Proof.
  unfold compile_network. intros H. opt H. apply u32_bounds in E1; [|lia]. cbn [st_extract st_checks] in E2.
  match type of E2 with context [extract_ok _ _ _ _ ?x] => set (s1 := x) in * end.
  assert (same_step s1 t /\ (zlen names <= TG_WF_VARS -> zlen l0 <= TG_WF_VARS)) as [S1 L].
  { destruct (0 <=? st_extract s); [|by injection E2 as <- <-]. opt E2. apply extract_same in E2. intuition. }
  assert (same_step t s' /\ names' = l0) as [S2 ->].
  { destruct (0 <=? st_checks t); [|by injection H as <- <-]. opt H. injection H as <- <-. split; [by eapply checks_same|done]. }
  pose proof (same_step_trans _ _ _ S1 S2) as (A & B & C & D). cbn in A, B, C, D. rewrite A, B, C, D. split_and!; try done; lia.
Qed.

Lemma compile_step_ok all i s names names' s' t :
  compile_step d finite mem all i s names = Some (names', s', t) -> 0 <= i < zlen all ->
  step_ok (zlen all) i s' /\ st_name s' = st_name s /\ st_kind s' = st_kind s /\ 0 <= t <= 3600000 /\
  (zlen names <= TG_WF_VARS -> zlen names' <= TG_WF_VARS).
Proof.
  unfold compile_step. intros H B. opt H.
  assert (i < z <= zlen all) as Hn.
  { destruct (0 <=? _); [by eapply target_bounds|]. injection E as <-. lia. }
  destruct (st_kind s) eqn:K; opt H.
  - apply compile_network_ok in E0 as (K1 & N1 & X1 & T1 & L1). injection H as <- <- <-. cbn in *.
    split_and!; try done; try lia. split; unfold network; try congruence; lia.
  - apply compile_network_ok in E0 as (K1 & N1 & X1 & T1 & L1). injection H as <- <- <-. cbn in *.
    split_and!; try done; try lia. split; unfold network; try congruence; lia.
  - injection H as <- <- <-. apply u32_bounds in E0; [|lia]. apply u32_bounds in E1; [|lia]. apply u32_bounds in E2; [|lia]. bprop.
    split_and!; try done; try lia. split; cbn; unfold network; try lia; intuition discriminate.
  - injection H as <- <- <-. split_and!; try done; try lia. apply target_bounds in E0, E1; [|done..].
    split; cbn; unfold network; try lia; intuition discriminate.
Qed.

Lemma compile_steps_ok all : forall todo i names timeout l total,
  compile_steps d finite mem all i todo names timeout = Some (l, total) -> 0 <= i -> i + zlen todo = zlen all -> 0 <= timeout ->
  (forall j s, l !! j = Some s -> step_ok (zlen all) (i + Z.of_nat j) s) /\ map st_name l = map st_name todo /\ length l = length todo /\ 0 <= total.
Proof.
  induction todo as [|s r IH]; intros i names timeout l total; cbn [compile_steps]; [by intros [= <- <-]|].
  intros H Hi Hl Ht. rewrite zlen_cons in Hl. pose proof (zlen_nonneg r). opt H. injection H as <- <-.
  apply compile_step_ok in E as (A & N & K & T & _); [|lia]. apply IH in E0 as (B & M & L & Ht'); [|lia..].
  split_and!; [|cbn; congruence|cbn; lia|done].
  intros [|j] s'; cbn [lookup list_lookup]; [intros [= <-]; by rewrite Z.add_0_r|]. intros Hs. replace (i + Z.of_nat (S j)) with (i + 1 + Z.of_nat j) by lia. by apply B.
Qed.

Lemma compile_owned_ok p :
  compile_owned d finite mem = Some p ->
  plan_ok p /\ wp_doc p = d /\ length (wp_steps p) = length (array_items d (tg_wf_member d 0 (text "steps"))) /\
  1 <= tsize (tok d (tg_wf_member d 0 (text "steps"))) <= TG_WF_STEPS /\
  ttype (tok d (tg_wf_member d 0 (text "steps"))) = JSMN_ARRAY.
Proof.
  unfold compile_owned. intros H. opt H. injection H as <-. bprop. case_bool_decide as Ty; [|done].
  apply register_names in E0 as (N & F & L); [|constructor..]. cbn in L.
  apply compile_steps_ok in E1 as (S & M & Ls & T); [|lia..].
  apply u32_bounds in E2; [|case_match; bprop; lia]. unfold plan_ok, count. cbn. split_and!; try done; try lia.
  - intros i s Hs. unfold zlen. rewrite Ls. apply (S i s Hs).
  - by rewrite M.
  - apply Forall_forall. intros s Hs. rewrite Forall_forall in F. apply (list_elem_of_fmap_2 st_name) in Hs.
    change (st_name <$> l1) with (map st_name l1) in Hs. rewrite M in Hs. apply list_elem_of_fmap in Hs as (s0 & -> & Hs). by apply F.
Qed.
End Facts.


Definition demo_plan_text : list Z :=
  quoted "{'vars':{'h':'a b'},'dataset':[{'u':'x&y'},{'u':'z'}],'steps':[{'name':'get','type':'http','peer':{'ip':'1.2.3.4'},'http':{'path':'/${data.u|url}','headers':{'X':'${vars.h}'},'keepalive':true},'extract':{'tok':{'source':'json','path':'/a'}},'checks':[{'left':{'source':'status'},'op':'==','right':200}]},{'name':'b','type':'branch','condition':{'left':{'ref':'ctx.tok'},'op':'exists'},'then':'wait','else':'end'},{'name':'wait','type':'think','min_ms':5,'max_ms':9}]}".

(** The comment of [object] says that delimited names avoid partial matches;
    the empty name matches two of the delimiters, and two adjacent names match
    as one. *)
Lemma whitelist_gap :
  let plan extra := copy_text finite_all memory_all (quoted ("{" ++ extra ++ "'steps':[{'name':'t','type':'think','ms':5}]}")%string) in
  (exists p, plan "'':0,"%string = inr p) /\ (exists p, plan "'vars  dataset':0,"%string = inr p) /\
  plan "'unknown':0,"%string = inl EINVAL.
Proof. cbv zeta. split_and!; [vm_compute; by eexists..|by vm_compute]. Qed.
