(* ===== verification/Dns.v ===== *)
(** * DNS client plugin (traffic-gen/proto/dns/dns_client.c)

    The query encoder and the response validator.  Reads of the datagram are
    explicit: [Outside] is a read outside of it (or a name that never ends),
    [Fail] the code's own rejection.  A character array is the list of its
    bytes, [cstr] the string in it. *)

From Stdlib Require Import String.
From S2P Require Import Prelude Txn Json.

Definition TG_DNS_QNAME_CAP : Z := 256.
Definition TG_DNS_LABEL_MAX : Z := 63.
Definition TG_DNS_TRANSACTION_ID : Z := 1.
Definition TG_DNS_QTYPE_A : Z := 1.
Definition TG_DNS_QTYPE_AAAA : Z := 28.
Definition SIZE_MAX : Z := UINT64_MAX.

Record tg_dns_config := mk_dcfg {
  qname : list Z;
  qtype : Z;
  transaction_id : Z;
  require_address : bool
}.

(** [address] is the C string. *)
Record tg_dns_state := mk_dns { address : list Z; state_id : Z }.

(** ** Reading a datagram *)

Inductive reading (A : Type) := Outside | Fail | Got (a : A).
Arguments Outside {A}.
Arguments Fail {A}.
Arguments Got {A} a.

Definition rbind {A B} (r : reading A) (f : A -> reading B) : reading B :=
  match r with Outside => Outside | Fail => Fail | Got a => f a end.
Declare Scope reading_scope.
Delimit Scope reading_scope with reading.
Notation "x <- r ;; k" := (rbind r (fun x => k)) (at level 100, r at next level, right associativity) : reading_scope.
Local Open Scope reading_scope.

Definition byte_at (data : list Z) (i : Z) : reading Z :=
  if i <? 0 then Outside else match data !! Z.to_nat i with Some b => Got b | None => Outside end.

Definition tg_dns_get_u16 (data : list Z) (i : Z) : reading Z :=
  hi <- byte_at data i ;; lo <- byte_at data (i + 1) ;; Got (u16 (Z.lor (Z.shiftl hi 8) lo)).
Definition tg_dns_put_u16 (value : Z) : list Z := [u8 (Z.shiftr value 8); u8 value].

Definition tg_dns_qtype_supported (t : Z) : bool := (t =? TG_DNS_QTYPE_A) || (t =? TG_DNS_QTYPE_AAAA).
Definition tg_dns_lower (c : Z) : Z := if (65 <=? c) && (c <=? 90) then u8 (c - 65 + 97) else c.

(** ** Names in presentation form *)

(** The label up to the first dot, and what follows the dot if there is one. *)
Fixpoint split_label (l : list Z) : list Z * option (list Z) :=
  match l with
  | [] => ([], None)
  | c :: t => if c =? 46 then ([], Some t) else let '(a, r) := split_label t in (c :: a, r)
  end.

Fixpoint wire_loop (fuel : nat) (l : list Z) (wire_length : Z) : option Z :=
  match fuel with
  | O => Some wire_length
  | S f =>
      if bool_decide (l = []) then Some wire_length
      else
        let '(label, separator) := split_label l in
        let n := zlen label in
        if (n =? 0) || (TG_DNS_LABEL_MAX <? n) || bool_decide (separator = Some []) || (SIZE_MAX - n - 1 <? wire_length)
        then None
        else match separator with
        | None => Some (wire_length + (n + 1))
        | Some rest => wire_loop f rest (wire_length + (n + 1))
        end
  end.

Definition tg_dns_qname_wire_length (name : list Z) : option Z :=
  let text_length := zlen (cstr name) in
  if (text_length =? 0) || (253 <? text_length) then None else wire_loop (length (cstr name)) (cstr name) 1.

Definition tg_dns_qname_validate (name : list Z) : bool := bool_decide (is_Some (tg_dns_qname_wire_length name)).

(** ** Query *)

Fixpoint encode_labels (fuel : nat) (l : list Z) : list Z :=
  match fuel with
  | O => []
  | S f =>
      if bool_decide (l = []) then []
      else
        let '(label, separator) := split_label l in
        u8 (zlen label) :: label ++ match separator with None => [] | Some rest => encode_labels f rest end
  end.

Definition tg_dns_build_request (config : option tg_dns_config) (buffer_cap : Z) : errno + list Z :=
  match config with
  | None => inl EINVAL
  | Some c =>
      if buffer_cap <? 12 then inl EINVAL
      else match tg_dns_qname_wire_length (qname c) with
      | None => inl EINVAL
      | Some wire =>
          if negb (tg_dns_qtype_supported (qtype c)) then inl EINVAL
          else if (SIZE_MAX - 12 - 4 <? wire) || (buffer_cap <? 12 + wire + 4) then inl EMSGSIZE
          else
            inr (tg_dns_put_u16 (transaction_id c) ++ tg_dns_put_u16 256 ++ tg_dns_put_u16 1 ++ tg_dns_put_u16 0
                 ++ tg_dns_put_u16 0 ++ tg_dns_put_u16 0
                 ++ encode_labels (length (cstr (qname c))) (cstr (qname c)) ++ [0]
                 ++ tg_dns_put_u16 (qtype c) ++ tg_dns_put_u16 1)
      end
  end.

(** ** Compressed names *)

Fixpoint read_bytes (n : nat) (data : list Z) (i : Z) : reading (list Z) :=
  match n with
  | O => Got []
  | S k => b <- byte_at data i ;; r <- read_bytes k data (i + 1) ;; Got (b :: r)
  end.

(** The expanded text and the offset behind the name where it stands. *)
Fixpoint expand_loop (fuel : nat) (data : list Z) (output_cap cursor : Z) (output : list Z) (next jumps : Z)
    (jumped : bool) : reading (list Z * Z) :=
  match fuel with
  | O => Outside
  | S f =>
      let length := zlen data in
      if length <=? cursor then Fail
      else
        label <- byte_at data cursor ;;
        if label =? 0 then
          if output_cap <=? zlen output then Fail else Got (output, if jumped then next else cursor + 1)
        else if Z.land label 192 =? 192 then
          if length <=? cursor + 1 then Fail
          else
            low <- byte_at data (cursor + 1) ;;
            let pointer := u16 (Z.lor (Z.shiftl (Z.land label 63) 8) low) in
            if (length <=? pointer) || (length <? jumps + 1) then Fail
            else expand_loop f data output_cap pointer output (if jumped then next else cursor + 2) (jumps + 1) true
        else if negb (Z.land label 192 =? 0) || (TG_DNS_LABEL_MAX <? label) || (length <? cursor + 1 + label) then Fail
        else if negb (zlen output =? 0) && (output_cap <=? zlen output + 1) then Fail
        else
          let output1 := if zlen output =? 0 then output else output ++ [46] in
          if output_cap <=? zlen output1 + label then Fail
          else
            bytes <- read_bytes (Z.to_nat label) data (cursor + 1) ;;
            expand_loop f data output_cap (cursor + 1 + label) (output1 ++ map tg_dns_lower bytes) next jumps jumped
  end.

(** Every round follows one of at most [length] pointers or writes to the
    output. *)
Definition expand_fuel (data : list Z) (output_cap : Z) : nat := (length data + Z.to_nat output_cap + 2)%nat.

Definition tg_dns_expand_name (data : list Z) (offset output_cap : Z) : reading (list Z * Z) :=
  if (output_cap =? 0) || (zlen data <=? offset) then Fail
  else expand_loop (expand_fuel data output_cap) data output_cap offset [] offset 0 false.

Fixpoint names_equal (left right : list Z) : bool :=
  match left, right with
  | [], [] => true
  | a :: l, b :: r => (tg_dns_lower a =? tg_dns_lower b) && names_equal l r
  | _, _ => false
  end.
(** On the C strings of the two arrays. *)
Definition tg_dns_names_equal (left right : list Z) : bool := names_equal (cstr left) (cstr right).

(** ** Response *)

(** The resource records of all sections; the offset behind them. *)
Fixpoint skip_sections (n : nat) (data : list Z) (offset : Z) : reading Z :=
  match n with
  | O => Got offset
  | S k =>
      e <- tg_dns_expand_name data offset TG_DNS_QNAME_CAP ;;
      let o := snd e in
      if zlen data <? o + 10 then Fail
      else
        rdata_length <- tg_dns_get_u16 data (o + 8) ;;
        if zlen data - (o + 10) <? rdata_length then Fail else skip_sections k data (o + 10 + rdata_length)
  end.

(** A rejection inside is [Got false] for the caller. *)
Definition or_false {A} (r : reading A) (f : A -> reading bool) : reading bool :=
  match r with Outside => Outside | Fail => Got false | Got a => f a end.

Definition tg_dns_response_valid (state : option tg_dns_state) (config : option tg_dns_config) (data : list Z)
    : reading bool :=
  match state, config with
  | Some s, Some c =>
      if (zlen data <? 12) || negb (tg_dns_qtype_supported (qtype c)) then Got false
      else
        id <- tg_dns_get_u16 data 0 ;;
        if negb (id =? state_id s) then Got false
        else
          flags <- tg_dns_get_u16 data 2 ;;
          if (Z.land flags 32768 =? 0) || negb (Z.land flags 30720 =? 0) || negb (Z.land flags 512 =? 0) then Got false
          else
            questions <- tg_dns_get_u16 data 4 ;;
            if negb (questions =? 1) then Got false
            else
              answers <- tg_dns_get_u16 data 6 ;;
              authority <- tg_dns_get_u16 data 8 ;;
              additional <- tg_dns_get_u16 data 10 ;;
              or_false (tg_dns_expand_name data 12 TG_DNS_QNAME_CAP) (fun e =>
                let '(name, o) := e in
                if negb (tg_dns_names_equal name (qname c)) || (zlen data <? o + 4) then Got false
                else
                  t <- tg_dns_get_u16 data o ;;
                  if negb (t =? qtype c) then Got false
                  else
                    cls <- tg_dns_get_u16 data (o + 2) ;;
                    if negb (cls =? 1) then Got false
                    else
                      or_false (skip_sections (Z.to_nat (answers + authority + additional)) data (o + 4)) (fun off =>
                        Got (off =? zlen data)))
  | _, _ => Got false
  end.

(** [inet_ntop(AF_INET)]. *)
Definition dec_byte (b : Z) : list Z :=
  if b <? 10 then [48 + b]
  else if b <? 100 then [48 + b / 10; 48 + b mod 10]
  else [48 + b / 100; 48 + b / 10 mod 10; 48 + b mod 10].
Definition inet_ntop (l : list Z) : list Z :=
  match l with
  | [a; b; c; d] => dec_byte a ++ [46] ++ dec_byte b ++ [46] ++ dec_byte c ++ [46] ++ dec_byte d
  | _ => []
  end.

(** The answers of one hop: [inl] an address, [inr] the CNAME target. *)
Fixpoint answer_loop (n : nat) (data wanted : list Z) (offset : Z) (next_name : list Z)
    : reading (list Z + list Z) :=
  match n with
  | O => Got (inr next_name)
  | S k =>
      e <- tg_dns_expand_name data offset TG_DNS_QNAME_CAP ;;
      let '(owner, o) := e in
      if zlen data <? o + 10 then Fail
      else
        type <- tg_dns_get_u16 data o ;;
        cls <- tg_dns_get_u16 data (o + 2) ;;
        len <- tg_dns_get_u16 data (o + 8) ;;
        let o := o + 10 in
        if zlen data - o <? len then Fail
        else if (cls =? 1) && tg_dns_names_equal owner wanted then
          if (type =? 1) && (len =? 4) then a <- read_bytes 4 data o ;; Got (inl (inet_ntop a))
          else if (type =? 5) && bool_decide (cstr next_name = []) then
            e2 <- tg_dns_expand_name data o TG_DNS_QNAME_CAP ;;
            let '(target, following) := e2 in
            if negb (following =? o + len) then Fail else answer_loop k data wanted (o + len) target
          else answer_loop k data wanted (o + len) next_name
        else answer_loop k data wanted (o + len) next_name
  end.

Fixpoint hop_loop (hops : nat) (data wanted : list Z) : reading (list Z) :=
  match hops with
  | O => Fail
  | S k =>
      e <- tg_dns_expand_name data 12 TG_DNS_QNAME_CAP ;;
      answers <- tg_dns_get_u16 data 6 ;;
      r <- answer_loop (Z.to_nat answers) data wanted (snd e + 4) [] ;;
      match r with
      | inl a => Got a
      | inr next_name =>
          if bool_decide (cstr next_name = []) || tg_dns_names_equal wanted next_name then Fail
          else hop_loop k data (cstr next_name)
      end
  end.

(** The address found, as text. *)
Definition tg_dns_address (config : tg_dns_config) (data : list Z) : reading (list Z) :=
  hop_loop 16 data (cstr (qname config)).

(** ** The plugin *)

Abbreviation dtxn := (tg_txn tg_dns_config tg_dns_state).

Definition tg_dns_init (alloc : bool) (t : dtxn) : bool * dtxn :=
  if alloc then
    let id := match class_config t with Some c => transaction_id c | None => TG_DNS_TRANSACTION_ID end in
    (true, with_proto_ctx (Some (mk_dns [] id)) t)
  else (false, t).

Definition tg_dns_on_rx (t : dtxn) (data : list Z) : reading (tg_proto_result * dtxn) :=
  ok <- tg_dns_response_valid (proto_ctx t) (class_config t) data ;;
  if negb ok then Got (TG_PROTO_FAILED, t)
  else
    flags <- tg_dns_get_u16 data 2 ;;
    if negb (Z.land flags 15 =? 0) then Got (TG_PROTO_FAILED, with_error_reason TG_ERROR_DNS_RCODE t)
    else
      answers <- tg_dns_get_u16 data 6 ;;
      if answers =? 0 then Got (TG_PROTO_FAILED, t)
      else match class_config t, proto_ctx t with
      | Some c, Some s =>
          if require_address c then
            match tg_dns_address c data with
            | Outside => Outside
            | Fail => Got (TG_PROTO_FAILED, t)
            | Got a => Got (TG_PROTO_COMPLETE, with_proto_ctx (Some (mk_dns a (state_id s))) t)
            end
          else Got (TG_PROTO_COMPLETE, t)
      | _, _ => Got (TG_PROTO_FAILED, t)
      end.

Definition tg_dns_on_eof (t : dtxn) : tg_proto_result * dtxn := (TG_PROTO_FAILED, t).
Definition tg_dns_on_tx_accepted (t : dtxn) (bytes : Z) : dtxn := t.
Definition tg_dns_reset (t : dtxn) : dtxn := with_proto_ctx None t.

Definition tg_dns_export (t : dtxn) (source : list Z) : option tg_value :=
  match proto_ctx t with
  | Some s =>
      if negb (bool_decide (cstr source = text "address")) || bool_decide (address s = []) then None
      else Some (mk_value TG_VALUE_STRING (address s))
  | None => None
  end.
