(* ===== verification/DnsFacts.v ===== *)
(** * DNS plugin: reads stay inside the datagram, queries and answers round trip *)

From Stdlib Require Import String.
From S2P Require Import Prelude Config Txn Json Dns.

Local Open Scope reading_scope.

(** ** Reads *)

Abbreviation bytes := (Forall in_u8).

Lemma byte_at_in data i : bytes data -> 0 <= i < zlen data -> exists b, byte_at data i = Got b /\ in_u8 b.
Proof.
  intros Hb Hi. unfold byte_at. destruct (Z.ltb_spec i 0); [lia|].
  destruct (lookup_lt_is_Some_2 data (Z.to_nat i)) as [b E]; [unfold zlen in Hi; lia|].
  rewrite E. exists b. split; [done|]. by eapply Forall_lookup_1.
Qed.

Lemma get_u16_in data i : bytes data -> 0 <= i -> i + 2 <= zlen data -> exists v, tg_dns_get_u16 data i = Got v /\ in_u16 v.
Proof.
  intros Hb H0 H1. unfold tg_dns_get_u16. destruct (byte_at_in data i Hb ltac:(lia)) as (a & -> & _). cbn [rbind].
  destruct (byte_at_in data (i + 1) Hb ltac:(lia)) as (b & -> & _). cbn [rbind]. eexists. split; [done|]. apply u16_range.
Qed.

Lemma read_bytes_in n data i :
  bytes data -> 0 <= i -> i + Z.of_nat n <= zlen data -> exists l, read_bytes n data i = Got l /\ length l = n /\ bytes l.
Proof.
  revert i. induction n as [|n IH]; intros i Hb H0 H1; cbn [read_bytes]; [by exists []|].
  destruct (byte_at_in data i Hb ltac:(lia)) as (b & -> & Hbb). cbn [rbind].
  destruct (IH (i + 1) Hb ltac:(lia) ltac:(lia)) as (l & -> & Hl & Hf). cbn [rbind].
  exists (b :: l). split_and!; [done|by cbn; rewrite Hl|by constructor].
Qed.

(** A name that was read lies inside the datagram and fits the buffer. *)
Definition name_ok (data : list Z) (cap : Z) (r : reading (list Z * Z)) : Prop :=
  match r with
  | Outside => False
  | Fail => True
  | Got (name, next) => 0 < next <= zlen data /\ zlen name < cap
  end.

Lemma expand_loop_ok fuel data cap cursor output next jumps jumped :
  bytes data -> 0 <= cursor -> (jumped = true -> 0 < next <= zlen data) -> 0 <= jumps <= zlen data -> zlen output <= cap ->
  zlen data - jumps + (cap - zlen output) < Z.of_nat fuel ->
  name_ok data cap (expand_loop fuel data cap cursor output next jumps jumped).
Proof.
  revert cursor output next jumps jumped. induction fuel as [|fuel IH]; intros cursor output next jumps jumped Hb Hc Hn Hj Ho Hf;
    [lia|]. cbn [expand_loop].
  destruct (zlen data <=? cursor) eqn:E1; [done|]. bprop.
  destruct (byte_at_in data cursor Hb ltac:(lia)) as (label & -> & Hl). cbn [rbind].
  destruct (label =? 0) eqn:E2.
  { destruct (cap <=? zlen output) eqn:E3; [done|]. bprop. cbn. split; [|lia]. destruct jumped; [by apply Hn|lia]. }
  bprop. destruct (Z.land label 192 =? 192).
  { destruct (zlen data <=? cursor + 1) eqn:E3; [done|]. bprop.
    destruct (byte_at_in data (cursor + 1) Hb ltac:(lia)) as (low & -> & Hlo). cbn [rbind].
    set (p := u16 _). assert (in_u16 p) as Hp by apply u16_range. clearbody p.
    destruct (_ || _) eqn:E4; [done|]. bprop. unfold in_u16 in Hp.
    apply IH; try done; try lia. intros _. destruct jumped; [by apply Hn|lia]. }
  destruct (_ || _ || _) eqn:E3; [done|]. bprop.
  destruct (_ && _) eqn:E4; [done|].
  set (o1 := if zlen output =? 0 then output else output ++ [46]).
  assert (zlen output <= zlen o1) as Ho1.
  { unfold o1. destruct (zlen output =? 0); [done|]. rewrite zlen_app. pose proof (zlen_nonneg [46]). lia. }
  destruct (cap <=? zlen o1 + label) eqn:E5; [done|]. bprop. unfold in_u8 in Hl.
  destruct (read_bytes_in (Z.to_nat label) data (cursor + 1) Hb ltac:(lia) ltac:(lia)) as (l & -> & Hll & _). cbn [rbind].
  assert (zlen (o1 ++ map tg_dns_lower l) = zlen o1 + label) as Hz.
  { rewrite zlen_app. f_equal. unfold zlen. rewrite length_map, Hll. lia. }
  apply IH; try done; try lia.
Qed.

Lemma expand_name_ok data offset cap :
  bytes data -> 0 <= offset -> 0 <= cap -> name_ok data cap (tg_dns_expand_name data offset cap).
Proof.
  intros Hb H0 Hc. unfold tg_dns_expand_name. destruct (_ || _) eqn:E; [done|]. bprop.
  apply expand_loop_ok; try done; change (zlen (@nil Z)) with 0; pose proof (zlen_nonneg data); try lia.
  unfold expand_fuel, zlen. lia.
Qed.

Definition inside {A} (P : A -> Prop) (r : reading A) : Prop :=
  match r with Outside => False | Fail => True | Got a => P a end.

Lemma inside_bind {A B} (P : A -> Prop) (Q : B -> Prop) r (f : A -> reading B) :
  inside P r -> (forall a, P a -> inside Q (f a)) -> inside Q (rbind r f).
Proof. destruct r; cbn; auto. Qed.
Lemma inside_or_false {A} (P : A -> Prop) Q r (f : A -> reading bool) :
  inside P r -> Q false -> (forall a, P a -> inside Q (f a)) -> inside Q (or_false r f).
Proof. destruct r; cbn; auto. Qed.

Lemma u16_inside data i : bytes data -> 0 <= i -> i + 2 <= zlen data -> inside in_u16 (tg_dns_get_u16 data i).
Proof. intros Hb H0 H1. destruct (get_u16_in data i Hb H0 H1) as (v & -> & Hv). exact Hv. Qed.
Lemma name_inside data offset :
  bytes data -> 0 <= offset ->
  inside (fun e => 0 < snd e <= zlen data /\ zlen (fst e) < TG_DNS_QNAME_CAP) (tg_dns_expand_name data offset TG_DNS_QNAME_CAP).
Proof.
  intros Hb H0. pose proof (expand_name_ok data offset TG_DNS_QNAME_CAP Hb H0 ltac:(done)) as H.
  by destruct (tg_dns_expand_name _ _ _) as [| |[n o]].
Qed.

Create HintDb inside.
#[export] Hint Resolve u16_inside name_inside : inside.
(** Reads one field, and names its value. *)
Ltac rd := (eapply inside_bind || (eapply inside_or_false; [|done|])); [solve [eauto with inside lia]|intros ? ?; cbv beta in *].
#[export] Hint Extern 3 (_ <= _) => lia : inside.

Lemma sections_inside n data offset :
  bytes data -> 0 <= offset -> inside (fun o => 0 <= o) (skip_sections n data offset).
Proof.
  revert offset. induction n as [|n IH]; intros offset Hb H0; [done|]. cbn [skip_sections].
  rd. destruct (zlen data <? snd a + 10) eqn:E; [done|]. bprop. unfold in_u16 in *.
  rd. bsplit; [done|]. apply IH; [done|]. unfold in_u16 in *. lia.
Qed.
#[export] Hint Resolve sections_inside : inside.

Lemma valid_inside s c data :
  bytes data -> inside (fun ok => ok = true -> 12 <= zlen data /\
    exists name o, tg_dns_expand_name data 12 TG_DNS_QNAME_CAP = Got (name, o) /\ o + 4 <= zlen data)
    (tg_dns_response_valid s c data).
Proof.
  intros Hb. unfold tg_dns_response_valid. destruct s as [s|]; [|done]. destruct c as [c|]; [|done].
  destruct (_ || _) eqn:E; [done|]. bprop. rd. bsplit; [done|]. rd. bsplit; [done|]. rd. bsplit; [done|].
  rd. rd. rd. pose proof (name_inside data 12 Hb ltac:(lia)) as Hn.
  destruct (tg_dns_expand_name data 12 TG_DNS_QNAME_CAP) as [| |[name o]] eqn:En; [done|done|]. cbn [or_false inside fst snd] in *.
  destruct (_ || _) eqn:Eo; [done|]. bprop. rd. bsplit; [done|]. rd. bsplit; [done|]. rd.
  cbn. intros _. split; [lia|]. by exists name, o.
Qed.

Lemma answers_inside n data wanted offset nx :
  bytes data -> 0 <= offset -> inside (fun _ => True) (answer_loop n data wanted offset nx).
Proof.
  revert offset nx. induction n as [|n IH]; intros offset nx Hb H0; [done|]. cbn [answer_loop].
  rd. destruct a as [owner o]. cbn [fst snd] in *. destruct (zlen data <? o + 10) eqn:E; [done|]. bprop.
  rd. rd. rd. unfold in_u16 in *. destruct (zlen data - (o + 10) <? a1) eqn:E2; [done|]. bprop.
  destruct (_ && tg_dns_names_equal _ _); [|apply IH; [done|lia]].
  destruct (_ && (a1 =? 4)) eqn:E3.
  { bprop. destruct (read_bytes_in 4 data (o + 10) Hb ltac:(lia) ltac:(lia)) as (l & -> & _). done. }
  destruct (_ && bool_decide _); [|apply IH; [done|lia]].
  rd. destruct a2 as [target following]. destruct (negb _); [done|]. apply IH; [done|lia].
Qed.
#[export] Hint Resolve answers_inside : inside.

Lemma hops_inside n data wanted : bytes data -> 12 <= zlen data -> inside (fun _ => True) (hop_loop n data wanted).
Proof.
  revert wanted. induction n as [|n IH]; intros wanted Hb H0; [done|]. cbn [hop_loop].
  rd. rd. rd. destruct a1 as [x|nx]; [done|]. destruct (_ || _); [done|]. by apply IH.
Qed.

(** C22: no read outside.  Whatever datagram arrives, with any compression
    pointers, counts and lengths, the response handler ends and reads only
    bytes of the datagram; every name it expands fits its 256-byte buffer. *)
Theorem dns_reads_inside (t : dtxn) data (Hb : Forall in_u8 data) :
  tg_dns_on_rx t data <> Outside /\
  forall offset name next, 0 <= offset -> tg_dns_expand_name data offset TG_DNS_QNAME_CAP = Got (name, next) ->
    zlen name < TG_DNS_QNAME_CAP /\ next <= zlen data.
Proof.
  split; [|intros offset name next H0 E; pose proof (name_inside data offset Hb H0) as H; rewrite E in H; cbn in H; lia].
  enough (inside (fun _ => True) (tg_dns_on_rx t data)) as H by (by destruct (tg_dns_on_rx t data)).
  unfold tg_dns_on_rx. eapply inside_bind; [by apply valid_inside|]. intros ok Hok. destruct ok; [|done]. cbn [negb].
  destruct (Hok eq_refl) as (H12 & _). rd. bsplit; [done|]. rd. bsplit; [done|].
  destruct (class_config t) as [c|]; [|done]. destruct (proto_ctx t) as [s|]; [|done]. destruct (require_address c); [|done].
  pose proof (hops_inside 16 data (cstr (qname c)) Hb H12) as Hh. unfold tg_dns_address.
  by destruct (hop_loop 16 data (cstr (qname c))).
Qed.

(** A response whose answer name is a pointer to itself. *)
Definition looping_reply : list Z :=
  [0; 7; 129; 128; 0; 1; 0; 1; 0; 0; 0; 0; 1; 120; 0; 0; 1; 0; 1; 192; 19; 0; 1; 0; 1; 0; 0; 0; 9; 0; 4; 1; 2; 3; 4].
Definition demo_query : tg_dns_config := mk_dcfg (text "x" ++ [0]) TG_DNS_QTYPE_A 7 true.
Definition demo_txn : dtxn :=
  mk_txn false TG_ERROR_NONE true (Some demo_query) (Some (mk_dns [] 7)) [] 0 0 false false.

Lemma dns_reads_inside_witness : bytes looping_reply /\ tg_dns_on_rx demo_txn looping_reply <> Outside.
Proof.
  assert (bytes looping_reply) as Hb by (repeat constructor; vm_compute; congruence).
  split; [exact Hb|]. exact (proj1 (dns_reads_inside demo_txn looping_reply Hb)).
Defined.

(** ** Queries *)

Lemma zlen_map {A B} (f : A -> B) l : zlen (map f l) = zlen l.
Proof. unfold zlen. by rewrite length_map. Qed.

Lemma byte_at_app pre b post : byte_at (pre ++ b :: post) (zlen pre) = Got b.
Proof.
  unfold byte_at, zlen. destruct (Z.ltb_spec (Z.of_nat (length pre)) 0); [lia|]. rewrite Nat2Z.id.
  by rewrite lookup_app_r, Nat.sub_diag by lia.
Qed.

Lemma read_bytes_app l pre post : read_bytes (length l) (pre ++ l ++ post) (zlen pre) = Got l.
Proof.
  revert pre. induction l as [|b l IH]; intros pre; [done|]. cbn [read_bytes length].
  rewrite <- app_comm_cons, byte_at_app. cbn [rbind]. rewrite app_cons_split.
  replace (zlen pre + 1) with (zlen (pre ++ [b])) by (rewrite zlen_app; done). by rewrite IH.
Qed.

Lemma get_put_u16 pre v post : in_u16 v -> tg_dns_get_u16 (pre ++ tg_dns_put_u16 v ++ post) (zlen pre) = Got v.
Proof.
  intros Hv. unfold tg_dns_get_u16, tg_dns_put_u16. cbn [app]. rewrite byte_at_app. cbn [rbind].
  rewrite app_cons_split. replace (zlen pre + 1) with (zlen (pre ++ [u8 (Z.shiftr v 8)])) by (rewrite zlen_app; done).
  rewrite byte_at_app. cbn [rbind]. f_equal. rewrite Z.shiftr_div_pow2, Z.shiftl_mul_pow2 by lia.
  change (2 ^ 8) with 256. unfold in_u16 in Hv.
  assert (u8 (v / 256) = v / 256) as -> by (apply u8_small; unfold in_u8; Z.to_euclidean_division_equations; lia).
  assert (Z.land (v / 256 * 256) (u8 v) = 0) as Hd.
  { apply Z.bits_inj'. intros n Hn. rewrite Z.land_spec, Z.bits_0. change 256 with (2 ^ 8) at 2.
    rewrite <- Z.shiftl_mul_pow2, Z.shiftl_spec by lia. destruct (Z.ltb_spec n 8); [by rewrite Z.testbit_neg_r by lia|].
    unfold u8. change 256 with (2 ^ 8). rewrite Z.mod_pow2_bits_high by lia. apply andb_false_r. }
  rewrite <- Z.lxor_lor, <- Z.add_nocarry_lxor by exact Hd.
  unfold u8. rewrite u16_small; unfold in_u16; Z.to_euclidean_division_equations; lia.
Qed.

Lemma split_none l a : split_label l = (a, None) -> a = l.
Proof.
  revert a. induction l as [|c l IH]; intros a; cbn; [by intros [= <-]|]. destruct (c =? 46); [done|].
  destruct (split_label l) as [x [r|]] eqn:E; [done|]. intros [= <-]. by rewrite (IH x).
Qed.
Lemma split_some l a r : split_label l = (a, Some r) -> l = a ++ 46 :: r.
Proof.
  revert a. induction l as [|c l IH]; intros a; cbn; [done|]. destruct (Z.eqb_spec c 46) as [->|].
  { by intros [= <- <-]. }
  destruct (split_label l) as [x [r'|]] eqn:E; [|done]. intros [= <- <-]. by rewrite (IH x).
Qed.

(** One round of the label loops. *)
Lemma wire_round fuel l w w' :
  l <> [] -> wire_loop (S fuel) l w = Some w' ->
  exists a, 0 < zlen a <= TG_DNS_LABEL_MAX /\
    (l = a /\ w' = w + (zlen a + 1) /\ encode_labels (S fuel) l = zlen a :: a \/
     exists r, r <> [] /\ l = a ++ 46 :: r /\ wire_loop fuel r (w + (zlen a + 1)) = Some w' /\
       encode_labels (S fuel) l = zlen a :: a ++ encode_labels fuel r).
Proof.
  intros Hne. cbn [wire_loop encode_labels]. rewrite (bool_decide_eq_false_2 _ Hne).
  destruct (split_label l) as [a s] eqn:E. destruct (_ || _) eqn:Eo; [done|]. bprop.
  pose proof (zlen_nonneg a). change TG_DNS_LABEL_MAX with 63 in *. intros Hw. exists a. split; [lia|].
  rewrite u8_small by (unfold in_u8; lia). destruct s as [r|].
  - right. exists r. apply split_some in E. match goal with H : bool_decide _ = false |- _ => apply bool_decide_eq_false in H as Hs end.
    split_and!; try done. congruence.
  - left. apply split_none in E as ->. injection Hw as <-. by rewrite app_nil_r.
Qed.

Lemma encode_wire fuel l w w' :
  (length l <= fuel)%nat -> l <> [] -> wire_loop fuel l w = Some w' ->
  w' = w + zlen l + 1 /\ zlen (encode_labels fuel l) = zlen l + 1.
Proof.
  revert l w. induction fuel as [|fuel IH]; intros l w Hl Hne Hw; [by destruct l; [|cbn in Hl; lia]|].
  destruct (wire_round fuel l w w' Hne Hw) as (a & _ & [(-> & -> & ->)|(r & Hr & -> & Hw' & ->)]); [rewrite zlen_cons; lia|].
  destruct (IH r _ ltac:(rewrite length_app in Hl; cbn in Hl; lia) Hr Hw') as [-> H2].
  rewrite zlen_cons, !zlen_app, zlen_cons. lia.
Qed.

Lemma label_plain n : 0 < n <= TG_DNS_LABEL_MAX -> Z.land n 192 = 0.
Proof.
  intros H. change TG_DNS_LABEL_MAX with 63 in H.
  assert (forallb (fun k => Z.land (Z.of_nat k) 192 =? 0) (seq 0 64) = true) as F by (vm_compute; reflexivity).
  rewrite forallb_forall in F. specialize (F (Z.to_nat n)). rewrite in_seq, Z2Nat.id in F by lia. apply Z.eqb_eq, F. lia.
Qed.

(** The expansion of an encoded name, met at [zlen pre]. *)
Definition joined (out l : list Z) : list Z := (if zlen out =? 0 then out else out ++ [46]) ++ map tg_dns_lower l.

(** One label of the datagram is copied to the output. *)
Lemma expand_label f a pre post cap out next jumps jumped :
  0 < zlen a <= TG_DNS_LABEL_MAX -> zlen (joined out a) < cap ->
  expand_loop (S f) (pre ++ zlen a :: a ++ post) cap (zlen pre) out next jumps jumped =
  expand_loop f (pre ++ zlen a :: a ++ post) cap (zlen pre + 1 + zlen a) (joined out a) next jumps jumped.
Proof.
  intros Ha Hc. cbn [expand_loop]. rewrite byte_at_app. cbn [rbind]. rewrite (label_plain _ Ha).
  rewrite !zlen_app, zlen_cons, zlen_app. change TG_DNS_LABEL_MAX with 63 in *.
  pose proof (zlen_nonneg pre). pose proof (zlen_nonneg post). pose proof (zlen_nonneg out).
  assert (zlen (joined out a) = zlen (if zlen out =? 0 then out else out ++ [46]) + zlen a) as Hj.
  { unfold joined. by rewrite zlen_app, zlen_map. }
  destruct (Z.leb_spec (zlen pre + (1 + (zlen a + zlen post))) (zlen pre)); [lia|].
  destruct (Z.eqb_spec (zlen a) 0); [lia|]. destruct (Z.eqb_spec 0 192); [lia|]. rewrite Z.eqb_refl. cbn [negb orb].
  destruct (Z.ltb_spec 63 (zlen a)); [lia|]. cbn [orb].
  destruct (Z.ltb_spec (zlen pre + (1 + (zlen a + zlen post))) (zlen pre + 1 + zlen a)); [lia|].
  assert (negb (zlen out =? 0) && (cap <=? zlen out + 1) = false) as ->.
  { destruct (Z.eqb_spec (zlen out) 0); [done|]. cbn [negb andb]. apply Z.leb_gt. revert Hj.
    destruct (Z.eqb_spec (zlen out) 0); [done|]. rewrite zlen_app. change (zlen [46]) with 1. lia. }
  destruct (Z.leb_spec cap (zlen (if zlen out =? 0 then out else out ++ [46]) + zlen a)); [lia|].
  replace (Z.to_nat (zlen a)) with (length a) by (unfold zlen; lia).
  rewrite (app_cons_split pre). replace (zlen pre + 1) with (zlen (pre ++ [zlen a])) by (rewrite zlen_app; done).
  rewrite read_bytes_app. cbn [rbind]. by rewrite <- app_cons_split.
Qed.

Lemma lower_dot : tg_dns_lower 46 = 46.
Proof. done. Qed.

Lemma joined_joined out a r : a <> [] -> joined (joined out a) r = joined out (a ++ 46 :: r).
Proof.
  intros Ha. unfold joined at 1. assert (zlen (joined out a) <> 0) as Hn.
  { unfold joined. rewrite zlen_app. pose proof (zlen_nonneg (if zlen out =? 0 then out else out ++ [46])).
    destruct a; [done|]. cbn [map]. rewrite zlen_cons. pose proof (zlen_nonneg (map tg_dns_lower a)). lia. }
  destruct (Z.eqb_spec (zlen (joined out a)) 0); [done|]. unfold joined. rewrite map_app. cbn [map]. rewrite lower_dot.
  by rewrite <- !app_assoc.
Qed.

Lemma expand_encoded fuel : forall l w w' pre post cap out next jumps jumped f,
  (length l <= fuel)%nat -> l <> [] -> wire_loop fuel l w = Some w' ->
  zlen (joined out l) < cap -> (length l < f)%nat ->
  expand_loop f (pre ++ encode_labels fuel l ++ 0 :: post) cap (zlen pre) out next jumps jumped =
    Got (joined out l, if jumped then next else zlen pre + zlen l + 2).
Proof.
  induction fuel as [|fuel IH]; intros l w w' pre post cap out next jumps jumped f Hl Hne Hw Hc Hf;
    [by destruct l; [|cbn in Hl; lia]|].
  destruct f as [|f]; [lia|].
  destruct (wire_round fuel l w w' Hne Hw) as (a & Ha & [(-> & _ & ->)|(r & Hr & -> & Hw' & ->)]); rewrite <- app_comm_cons.
  - rewrite expand_label by done. destruct f as [|f]; [unfold zlen in Ha; lia|]. cbn [expand_loop].
    rewrite !zlen_app, zlen_cons, zlen_app, zlen_cons. pose proof (zlen_nonneg post). pose proof (zlen_nonneg pre).
    destruct (Z.leb_spec (zlen pre + (1 + (zlen a + (1 + zlen post)))) (zlen pre + 1 + zlen a)); [lia|].
    replace (pre ++ zlen a :: a ++ 0 :: post) with ((pre ++ zlen a :: a) ++ 0 :: post) by (by rewrite <- app_assoc).
    replace (zlen pre + 1 + zlen a) with (zlen (pre ++ zlen a :: a)) by (rewrite zlen_app, zlen_cons; lia).
    rewrite byte_at_app. cbn [rbind]. destruct (Z.leb_spec cap (zlen (joined out a))); [lia|]. cbn [Z.eqb].
    destruct jumped; [done|]. do 2 f_equal. rewrite zlen_app, zlen_cons. lia.
  - rewrite <- app_assoc. assert (a <> []) as Hane by (intros ->; change (zlen (@nil Z)) with 0 in Ha; lia).
    assert (zlen (joined out a) < cap) as Hc1.
    { rewrite <- joined_joined in Hc by done. unfold joined at 1 in Hc. rewrite zlen_app in Hc.
      pose proof (zlen_nonneg (map tg_dns_lower r)). destruct (Z.eqb_spec (zlen (joined out a)) 0); [lia|].
      rewrite zlen_app in Hc. change (zlen [46]) with 1 in Hc. lia. }
    rewrite expand_label by done.
    replace (pre ++ zlen a :: a ++ encode_labels fuel r ++ 0 :: post)
      with ((pre ++ zlen a :: a) ++ encode_labels fuel r ++ 0 :: post) by (by rewrite <- app_assoc).
    replace (zlen pre + 1 + zlen a) with (zlen (pre ++ zlen a :: a)) by (rewrite zlen_app, zlen_cons; lia).
    rewrite length_app in Hl, Hf. cbn [length] in Hl, Hf.
    rewrite (IH r _ _ (pre ++ zlen a :: a) post cap (joined out a) next jumps jumped f ltac:(lia) Hr Hw')
      by (rewrite ?joined_joined by done; lia || done).
    rewrite joined_joined by done. destruct jumped; [done|]. do 2 f_equal. rewrite !zlen_app, !zlen_cons. lia.
Qed.

Definition qtext (c : tg_dns_config) : list Z := cstr (qname c).
Definition qlabels (c : tg_dns_config) : list Z := encode_labels (length (qtext c)) (qtext c).

Lemma wire_length_some name w :
  tg_dns_qname_wire_length name = Some w ->
  cstr name <> [] /\ zlen (cstr name) <= 253 /\ wire_loop (length (cstr name)) (cstr name) 1 = Some w /\
  w = zlen (cstr name) + 2 /\ zlen (encode_labels (length (cstr name)) (cstr name)) = zlen (cstr name) + 1.
Proof.
  unfold tg_dns_qname_wire_length. destruct (_ || _) eqn:E; [done|]. bprop. intros Hw.
  assert (cstr name <> []) as Hne by (intros Hx; rewrite Hx in *; done).
  destruct (encode_wire _ _ _ _ (Nat.le_refl _) Hne Hw). split_and!; try done; lia.
Qed.

(** The question's name, read where it stands or through a pointer to it. *)
Lemma question_expand c w pre post f next jumps jumped :
  tg_dns_qname_wire_length (qname c) = Some w -> (length (qtext c) < f)%nat ->
  expand_loop f (pre ++ qlabels c ++ 0 :: post) TG_DNS_QNAME_CAP (zlen pre) [] next jumps jumped =
    Got (map tg_dns_lower (qtext c), if jumped then next else zlen pre + zlen (qtext c) + 2).
Proof.
  intros Hw Hf. destruct (wire_length_some _ _ Hw) as (Hne & Hl & Hw' & _).
  assert (zlen (joined [] (qtext c)) < TG_DNS_QNAME_CAP) as Hj.
  { change (joined [] (qtext c)) with (map tg_dns_lower (qtext c)). rewrite zlen_map. change TG_DNS_QNAME_CAP with 256.
    unfold qtext. lia. }
  exact (expand_encoded _ _ _ _ pre post TG_DNS_QNAME_CAP [] next jumps jumped f (Nat.le_refl _) Hne Hw' Hj Hf).
Qed.

Lemma question_name c w pre post :
  tg_dns_qname_wire_length (qname c) = Some w ->
  tg_dns_expand_name (pre ++ qlabels c ++ 0 :: post) (zlen pre) TG_DNS_QNAME_CAP =
    Got (map tg_dns_lower (qtext c), zlen pre + zlen (qtext c) + 2).
Proof.
  intros Hw. unfold tg_dns_expand_name. rewrite !zlen_app, zlen_cons.
  pose proof (zlen_nonneg (qlabels c)). pose proof (zlen_nonneg post).
  destruct (Z.leb_spec (zlen pre + (zlen (qlabels c) + (1 + zlen post))) (zlen pre)); [lia|]. cbn [orb].
  rewrite (question_expand c w); [done|done|]. destruct (wire_length_some _ _ Hw) as (_ & Hl & _).
  unfold expand_fuel. unfold zlen in Hl. unfold qtext. change TG_DNS_QNAME_CAP with 256. lia.
Qed.

Lemma zlen_put v : zlen (tg_dns_put_u16 v) = 2.
Proof. done. Qed.

(** Lengths of the fields of a packet. *)
Ltac dlen := repeat first [rewrite zlen_app|rewrite zlen_cons|rewrite zlen_put]; change (zlen (@nil Z)) with 0; lia.
Lemma get_at pre v post d i : d = pre ++ tg_dns_put_u16 v ++ post -> i = zlen pre -> in_u16 v -> tg_dns_get_u16 d i = Got v.
Proof. intros -> -> Hv. by apply get_put_u16. Qed.
Ltac field p := eapply (get_at p); [by rewrite <- ?app_assoc|dlen|done].

Definition header (id flags qd an : Z) : list Z :=
  tg_dns_put_u16 id ++ tg_dns_put_u16 flags ++ tg_dns_put_u16 qd ++ tg_dns_put_u16 an ++ tg_dns_put_u16 0 ++ tg_dns_put_u16 0.
Definition question_tail (c : tg_dns_config) : list Z := tg_dns_put_u16 (qtype c) ++ tg_dns_put_u16 1.

Lemma header_fields id flags qd an rest (d := header id flags qd an ++ rest) :
  in_u16 id -> in_u16 flags -> in_u16 qd -> in_u16 an ->
  tg_dns_get_u16 d 0 = Got id /\ tg_dns_get_u16 d 2 = Got flags /\ tg_dns_get_u16 d 4 = Got qd /\
  tg_dns_get_u16 d 6 = Got an /\ tg_dns_get_u16 d 8 = Got 0 /\ tg_dns_get_u16 d 10 = Got 0.
Proof.
  intros H1 H2 H3 H4. unfold d, header. rewrite <- !app_assoc.
  split_and!.
  - field (@nil Z).
  - field (tg_dns_put_u16 id).
  - field (tg_dns_put_u16 id ++ tg_dns_put_u16 flags).
  - field (tg_dns_put_u16 id ++ tg_dns_put_u16 flags ++ tg_dns_put_u16 qd).
  - field (tg_dns_put_u16 id ++ tg_dns_put_u16 flags ++ tg_dns_put_u16 qd ++ tg_dns_put_u16 an).
  - field (tg_dns_put_u16 id ++ tg_dns_put_u16 flags ++ tg_dns_put_u16 qd ++ tg_dns_put_u16 an ++ tg_dns_put_u16 0).
Qed.

Lemma build_request_shape c cap req :
  tg_dns_build_request (Some c) cap = inr req ->
  exists w, tg_dns_qname_wire_length (qname c) = Some w /\ tg_dns_qtype_supported (qtype c) = true /\ 16 + w <= cap /\
    req = header (transaction_id c) 256 1 0 ++ qlabels c ++ 0 :: question_tail c.
Proof.
  unfold tg_dns_build_request. destruct (cap <? 12); [done|]. destruct (tg_dns_qname_wire_length _) as [w|]; [|done].
  destruct (tg_dns_qtype_supported _); [|done]. cbn [negb]. destruct (_ || _) eqn:E; [done|]. bprop. intros [= <-].
  exists w. split_and!; [done|done|lia|reflexivity].
Qed.

Lemma qtype_u16 c : tg_dns_qtype_supported (qtype c) = true -> in_u16 (qtype c).
Proof.
  unfold tg_dns_qtype_supported. intros H. apply orb_true_iff in H. rewrite !Z.eqb_eq in H.
  change TG_DNS_QTYPE_A with 1 in H. change TG_DNS_QTYPE_AAAA with 28 in H. unfold in_u16. lia.
Qed.

(** C24: a query that [build_request] wrote decodes to its configuration: the
    identifier, recursion desired, one question, and at the question the
    name in lower case, the type and class IN; it fits the buffer and ends
    with the question. *)
Theorem dns_query_roundtrip c cap req
    (H : tg_dns_build_request (Some c) cap = inr req) (Hid : in_u16 (transaction_id c)) :
  let n := zlen (cstr (qname c)) in
  zlen req = n + 18 /\ zlen req <= cap /\
  tg_dns_get_u16 req 0 = Got (transaction_id c) /\ tg_dns_get_u16 req 2 = Got 256 /\
  tg_dns_get_u16 req 4 = Got 1 /\ tg_dns_get_u16 req 6 = Got 0 /\ tg_dns_get_u16 req 8 = Got 0 /\
  tg_dns_get_u16 req 10 = Got 0 /\
  tg_dns_expand_name req 12 TG_DNS_QNAME_CAP = Got (map tg_dns_lower (cstr (qname c)), n + 14) /\
  tg_dns_get_u16 req (n + 14) = Got (qtype c) /\ tg_dns_get_u16 req (n + 16) = Got 1.
Proof.
  destruct (build_request_shape _ _ _ H) as (w & Hw & Hq & Hc & ->). apply qtype_u16 in Hq.
  destruct (wire_length_some _ _ Hw) as (_ & _ & _ & Hw2 & Hel). fold (qtext c) in *. fold (qlabels c) in Hel. cbv zeta.
  assert (zlen (header (transaction_id c) 256 1 0) = 12) as Hh by done.
  destruct (header_fields (transaction_id c) 256 1 0 (qlabels c ++ 0 :: question_tail c) Hid) as (F1 & F2 & F3 & F4 & F5 & F6);
    [done..|].
  pose proof (question_name c w (header (transaction_id c) 256 1 0) (question_tail c) Hw) as Hn. rewrite Hh in Hn.
  split_and!; try assumption.
  - unfold question_tail. rewrite Hw2 in Hc. dlen.
  - unfold question_tail. dlen.
  - rewrite Hn. do 2 f_equal. lia.
  - unfold question_tail. eapply (get_at (header (transaction_id c) 256 1 0 ++ qlabels c ++ [0]));
      [by rewrite <- !app_assoc|dlen|done].
  - unfold question_tail. eapply (get_at (header (transaction_id c) 256 1 0 ++ qlabels c ++ [0] ++ tg_dns_put_u16 (qtype c)) 1 []);
      [by rewrite <- !app_assoc|dlen|done].
Qed.

(** ** Answers *)

Lemma cstr_nonzero l : Forall (fun c => c <> 0) (cstr l).
Proof. induction l as [|c l IH]; cbn; [done|]. destruct (Z.eqb_spec c 0); by constructor. Qed.
Lemma cstr_id l : Forall (fun c => c <> 0) l -> cstr l = l.
Proof. induction 1 as [|c l Hc _ IH]; [done|]. cbn. rewrite IH. by destruct (Z.eqb_spec c 0). Qed.
Lemma lower_cases c : tg_dns_lower c = c \/ 65 <= c <= 90 /\ tg_dns_lower c = c + 32.
Proof.
  unfold tg_dns_lower. destruct (_ && _) eqn:E; [|by left]. bprop. right. split; [lia|].
  rewrite u8_small; unfold in_u8; lia.
Qed.
Lemma lower_lower c : tg_dns_lower (tg_dns_lower c) = tg_dns_lower c.
Proof.
  destruct (lower_cases c) as [E|[H E]]; rewrite E; [exact E|]. unfold tg_dns_lower.
  destruct (_ && _) eqn:E2; [|done]. apply andb_true_iff in E2 as [H1 H2]. bprop. lia.
Qed.

Lemma names_equal_lower l : Forall (fun c => c <> 0) l -> tg_dns_names_equal (map tg_dns_lower l) l = true.
Proof.
  intros H. unfold tg_dns_names_equal. rewrite (cstr_id l H), cstr_id.
  - clear H. induction l as [|c l IH]; [done|]. cbn. by rewrite lower_lower, Z.eqb_refl, IH.
  - induction H as [|c l Hc _ IH]; constructor; [|done]. destruct (lower_cases c) as [->|[? ->]]; lia.
Qed.

Lemma names_equal_cstr x l : tg_dns_names_equal x (cstr l) = tg_dns_names_equal x l.
Proof. unfold tg_dns_names_equal. by rewrite (cstr_id _ (cstr_nonzero l)). Qed.

(** A compression pointer to the question. *)
Lemma pointer_name c w hdr mid post (d := hdr ++ qlabels c ++ 0 :: mid ++ 192 :: 12 :: post) (i := zlen hdr + zlen (qlabels c) + 1 + zlen mid) :
  zlen hdr = 12 -> tg_dns_qname_wire_length (qname c) = Some w ->
  tg_dns_expand_name d i TG_DNS_QNAME_CAP = Got (map tg_dns_lower (qtext c), i + 2).
Proof.
  intros Hh Hw. destruct (wire_length_some _ _ Hw) as (_ & Hl & _). fold (qtext c) in Hl.
  assert (d = (hdr ++ qlabels c ++ 0 :: mid) ++ 192 :: 12 :: post) as Hd by (unfold d; by rewrite <- !app_assoc).
  assert (i = zlen (hdr ++ qlabels c ++ 0 :: mid)) as Hi by (unfold i; dlen).
  assert (zlen d = i + 2 + zlen post) as Hz by (rewrite Hd, Hi; dlen).
  pose proof (zlen_nonneg post). pose proof (zlen_nonneg (qlabels c)). pose proof (zlen_nonneg mid).
  unfold tg_dns_expand_name. rewrite Hz. destruct (Z.leb_spec (i + 2 + zlen post) i); [lia|]. cbn [orb].
  change (TG_DNS_QNAME_CAP =? 0) with false. cbn [orb].
  remember (expand_fuel d TG_DNS_QNAME_CAP) as f eqn:Ef. destruct f as [|f]; [unfold expand_fuel in Ef; lia|]. cbn [expand_loop].
  rewrite Hz. destruct (Z.leb_spec (i + 2 + zlen post) i); [lia|].
  assert (byte_at d i = Got 192) as -> by (rewrite Hd, Hi; apply byte_at_app).
  assert (byte_at d (i + 1) = Got 12) as ->.
  { rewrite Hd, app_cons_split. replace (i + 1) with (zlen ((hdr ++ qlabels c ++ 0 :: mid) ++ [192])) by (rewrite zlen_app, Hi; done).
    apply byte_at_app. }
  cbn [rbind]. change (192 =? 0) with false. change (Z.land 192 192 =? 192) with true. cbn [orb].
  destruct (Z.leb_spec (i + 2 + zlen post) (i + 1)); [lia|]. change (u16 _) with 12.
  destruct (Z.leb_spec (i + 2 + zlen post) 12); [unfold i in *; lia|]. cbn [orb].
  destruct (Z.ltb_spec (i + 2 + zlen post) (0 + 1)); [unfold i in *; lia|].
  rewrite <- Hh. unfold d. rewrite (question_expand c w); [done|done|].
  unfold expand_fuel in Ef. change TG_DNS_QNAME_CAP with 256 in Ef. unfold zlen in Hl. lia.
Qed.

(** The reply of a server: the question echoed, then one address record. *)
Definition reply (c : tg_dns_config) (flags : Z) (ttl addr : list Z) : list Z :=
  header (transaction_id c) flags 1 1 ++ qlabels c ++ 0 :: question_tail c
    ++ 192 :: 12 :: tg_dns_put_u16 1 ++ tg_dns_put_u16 1 ++ ttl ++ tg_dns_put_u16 4 ++ addr.

(** What reads of the reply's fields give. *)
Lemma reply_fields c w flags ttl addr (d := reply c flags ttl addr) (o := zlen (qtext c) + 20) :
  tg_dns_qname_wire_length (qname c) = Some w -> in_u16 (qtype c) -> zlen ttl = 4 -> zlen addr = 4 ->
  zlen d = o + 14 /\
  tg_dns_expand_name d 12 TG_DNS_QNAME_CAP = Got (map tg_dns_lower (qtext c), o - 6) /\
  tg_dns_get_u16 d (o - 6) = Got (qtype c) /\ tg_dns_get_u16 d (o - 4) = Got 1 /\
  tg_dns_expand_name d (o - 2) TG_DNS_QNAME_CAP = Got (map tg_dns_lower (qtext c), o) /\
  tg_dns_get_u16 d o = Got 1 /\ tg_dns_get_u16 d (o + 2) = Got 1 /\ tg_dns_get_u16 d (o + 8) = Got 4 /\
  read_bytes 4 d (o + 10) = Got addr.
Proof.
  intros Hw Hq Ht Ha. destruct (wire_length_some _ _ Hw) as (_ & _ & _ & _ & Hel). fold (qtext c) in Hel. fold (qlabels c) in Hel.
  set (h := header (transaction_id c) flags 1 1). assert (zlen h = 12) as Hh by done.
  assert (d = h ++ qlabels c ++ 0 :: question_tail c
    ++ 192 :: 12 :: tg_dns_put_u16 1 ++ tg_dns_put_u16 1 ++ ttl ++ tg_dns_put_u16 4 ++ addr) as Hd by done.
  clearbody h d. subst d. subst o. split_and!.
  - unfold question_tail. dlen.
  - pose proof (question_name c w h (question_tail c ++ 192 :: 12 :: tg_dns_put_u16 1 ++ tg_dns_put_u16 1 ++ ttl ++
      tg_dns_put_u16 4 ++ addr) Hw) as P. rewrite Hh in P. rewrite P. do 2 f_equal. lia.
  - unfold question_tail. eapply (get_at (h ++ qlabels c ++ [0])); [by rewrite <- !app_assoc|dlen|done].
  - unfold question_tail. eapply (get_at (h ++ qlabels c ++ [0] ++ tg_dns_put_u16 (qtype c)) 1); [by rewrite <- !app_assoc|dlen|done].
  - pose proof (pointer_name c w h (question_tail c) (tg_dns_put_u16 1 ++ tg_dns_put_u16 1 ++ ttl ++ tg_dns_put_u16 4 ++ addr) Hh Hw) as P.
    cbv zeta in P. change (zlen (question_tail c)) with 4 in P. rewrite Hh, Hel in P.
    replace (zlen (qtext c) + 20 - 2) with (12 + (zlen (qtext c) + 1) + 1 + 4) by lia. rewrite P. do 2 f_equal. lia.
  - eapply (get_at (h ++ qlabels c ++ [0] ++ question_tail c ++ [192; 12])); [by rewrite <- !app_assoc|unfold question_tail; dlen|done].
  - eapply (get_at (h ++ qlabels c ++ [0] ++ question_tail c ++ [192; 12] ++ tg_dns_put_u16 1) 1);
      [by rewrite <- !app_assoc|unfold question_tail; dlen|done].
  - eapply (get_at (h ++ qlabels c ++ [0] ++ question_tail c ++ [192; 12] ++ tg_dns_put_u16 1 ++ tg_dns_put_u16 1 ++ ttl) 4 addr);
      [by rewrite <- !app_assoc|unfold question_tail; dlen|done].
  - replace (h ++ qlabels c ++ 0 :: question_tail c ++ 192 :: 12 :: tg_dns_put_u16 1 ++ tg_dns_put_u16 1 ++ ttl ++ tg_dns_put_u16 4 ++ addr)
      with ((h ++ qlabels c ++ [0] ++ question_tail c ++ [192; 12] ++ tg_dns_put_u16 1 ++ tg_dns_put_u16 1 ++ ttl ++ tg_dns_put_u16 4)
        ++ addr ++ []) by (rewrite app_nil_r; by rewrite <- !app_assoc).
    replace (zlen (qtext c) + 20 + 10) with (zlen (h ++ qlabels c ++ [0] ++ question_tail c ++ [192; 12] ++ tg_dns_put_u16 1
      ++ tg_dns_put_u16 1 ++ ttl ++ tg_dns_put_u16 4)) by (unfold question_tail; dlen).
    replace 4%nat with (length addr) by (unfold zlen in Ha; lia). apply read_bytes_app.
Qed.

(** an answer is accepted.  For every configuration the encoder accepts,
    a reply with the query's identifier, response flag set, no error, the
    question echoed and one address record whose owner is a compression
    pointer to the question completes the transaction, and the address
    exported is the record's in dotted decimal. *)
Theorem dns_answer_accepted (t : dtxn) c s cap req flags ttl addr
    (Hreq : tg_dns_build_request (Some c) cap = inr req) (Hid : in_u16 (transaction_id c))
    (Hc : class_config t = Some c) (Hs : proto_ctx t = Some s) (Hsid : state_id s = transaction_id c)
    (Hra : require_address c = true)
    (Hf : flags = 33152 \/ flags = 33920) (Ht : zlen ttl = 4) (Ha : zlen addr = 4) :
  exists t', tg_dns_on_rx t (reply c flags ttl addr) = Got (TG_PROTO_COMPLETE, t') /\
    tg_dns_export t' (text "address") = Some (mk_value TG_VALUE_STRING (inet_ntop addr)).
Proof.
  destruct (build_request_shape _ _ _ Hreq) as (w & Hw & Hq & _ & _). pose proof (qtype_u16 _ Hq) as Hq16.
  assert (in_u16 flags) as Hf16 by (unfold in_u16; lia).
  destruct (reply_fields c w flags ttl addr Hw Hq16 Ht Ha) as (Hlen & N1 & G1 & G2 & N2 & G3 & G4 & G5 & R).
  destruct (header_fields (transaction_id c) flags 1 1 (qlabels c ++ 0 :: question_tail c
    ++ 192 :: 12 :: tg_dns_put_u16 1 ++ tg_dns_put_u16 1 ++ ttl ++ tg_dns_put_u16 4 ++ addr) Hid Hf16)
    as (F1 & F2 & F3 & F4 & F5 & F6); [done..|].
  fold (reply c flags ttl addr) in F1, F2, F3, F4, F5, F6.
  set (d := reply c flags ttl addr) in *. clearbody d. pose proof (zlen_nonneg (qtext c)).
  assert (tg_dns_names_equal (map tg_dns_lower (qtext c)) (qname c) = true) as Hne.
  { rewrite <- names_equal_cstr. apply names_equal_lower, cstr_nonzero. }
  assert (tg_dns_response_valid (Some s) (Some c) d = Got true) as Hv.
  { unfold tg_dns_response_valid. destruct (Z.ltb_spec (zlen d) 12); [lia|]. rewrite Hq. cbn [negb orb].
    rewrite F1, F2, F3, F4, F5, F6. cbn [rbind]. rewrite Hsid, Z.eqb_refl. cbn [negb].
    assert ((Z.land flags 32768 =? 0) || negb (Z.land flags 30720 =? 0) || negb (Z.land flags 512 =? 0) = false) as ->
      by (destruct Hf as [-> | ->]; reflexivity).
    change (1 =? 1) with true. cbn [negb]. rewrite N1. cbn [or_false]. rewrite Hne. cbn [negb orb].
    destruct (Z.ltb_spec (zlen d) (zlen (qtext c) + 20 - 6 + 4)); [lia|]. rewrite G1. cbn [rbind]. rewrite Z.eqb_refl.
    replace (zlen (qtext c) + 20 - 6 + 2) with (zlen (qtext c) + 20 - 4) by lia. rewrite G2. cbn [negb rbind].
    change (1 =? 1) with true. cbn [negb]. change (Z.to_nat (1 + 0 + 0)) with 1%nat. cbn [skip_sections].
    replace (zlen (qtext c) + 20 - 6 + 4) with (zlen (qtext c) + 20 - 2) by lia. rewrite N2. cbn [rbind snd].
    destruct (Z.ltb_spec (zlen d) (zlen (qtext c) + 20 + 10)); [lia|]. rewrite G5. cbn [rbind].
    destruct (Z.ltb_spec (zlen d - (zlen (qtext c) + 20 + 10)) 4); [lia|]. cbn [or_false].
    f_equal. apply Z.eqb_eq. lia. }
  assert (tg_dns_address c d = Got (inet_ntop addr)) as Hadr.
  { unfold tg_dns_address. cbn [hop_loop]. rewrite N1, F4. cbn [rbind snd]. change (Z.to_nat 1) with 1%nat. cbn [answer_loop].
    replace (zlen (qtext c) + 20 - 6 + 4) with (zlen (qtext c) + 20 - 2) by lia. rewrite N2. cbn [rbind].
    destruct (Z.ltb_spec (zlen d) (zlen (qtext c) + 20 + 10)); [lia|]. rewrite G3, G4, G5. cbn [rbind].
    destruct (Z.ltb_spec (zlen d - (zlen (qtext c) + 20 + 10)) 4); [lia|]. change (1 =? 1) with true.
    change (4 =? 4) with true. rewrite names_equal_cstr, Hne. cbn [andb]. by rewrite R. }
  unfold tg_dns_on_rx. rewrite Hs, Hc, Hv. cbn [rbind negb]. rewrite F2, F4. cbn [rbind].
  assert ((Z.land flags 15 =? 0) = true) as -> by (destruct Hf as [-> | ->]; reflexivity).
  change (1 =? 0) with false. cbn [negb]. rewrite Hra, Hadr. eexists. split; [done|].
  unfold tg_dns_export. cbn [proto_ctx with_proto_ctx address].
  rewrite bool_decide_eq_true_2 by reflexivity. cbn [negb orb]. rewrite bool_decide_eq_false_2; [done|].
  destruct addr as [|a1 [|a2 [|a3 [|a4 [|]]]]]; unfold zlen in Ha; cbn in Ha; try lia. cbn. intros E. by apply app_nil in E as [].
Qed.

Definition demo_host : tg_dns_config := mk_dcfg (text "Www.Example.org" ++ [0]) TG_DNS_QTYPE_A 258 true.
Definition demo_request : list Z :=
  [1; 2; 1; 0; 0; 1; 0; 0; 0; 0; 0; 0; 3] ++ text "Www" ++ [7] ++ text "Example" ++ [3] ++ text "org" ++ [0; 0; 1; 0; 1].

Lemma dns_query_roundtrip_witness :
  tg_dns_build_request (Some demo_host) 64 = inr demo_request /\
  tg_dns_expand_name demo_request 12 TG_DNS_QNAME_CAP = Got (text "www.example.org", 29).
Proof.
  assert (tg_dns_build_request (Some demo_host) 64 = inr demo_request) as E by (vm_compute; reflexivity).
  split; [exact E|]. assert (in_u16 (transaction_id demo_host)) as Hid by (vm_compute; split; congruence).
  pose proof (dns_query_roundtrip demo_host 64 demo_request E Hid) as (_ & _ & _ & _ & _ & _ & _ & _ & H & _). rewrite H.
  vm_compute. reflexivity.
Defined.

Definition host_txn : dtxn := mk_txn false TG_ERROR_NONE true (Some demo_host) (Some (mk_dns [] 258)) [] 0 0 false false.

Lemma dns_answer_accepted_witness :
  exists t', tg_dns_on_rx host_txn (reply demo_host 33152 [0; 0; 0; 60] [192; 0; 2; 15]) = Got (TG_PROTO_COMPLETE, t') /\
    tg_dns_export t' (text "address") = Some (mk_value TG_VALUE_STRING (text "192.0.2.15")).
Proof.
  apply (dns_answer_accepted host_txn demo_host (mk_dns [] 258) 64 demo_request 33152 [0; 0; 0; 60] [192; 0; 2; 15]);
    try (vm_compute; reflexivity).
  - vm_compute. split; congruence.
  - by left.
Defined.

(** ** Where an address comes from *)

(** A resource record: its owner, its numbers and the place of its data. *)
Record rr := mk_rr { rr_owner : list Z; rr_type : Z; rr_class : Z; rr_data : Z; rr_len : Z }.

Definition record_at (data : list Z) (offset : Z) (r : rr) : Prop :=
  exists o, tg_dns_expand_name data offset TG_DNS_QNAME_CAP = Got (rr_owner r, o) /\
    tg_dns_get_u16 data o = Got (rr_type r) /\ tg_dns_get_u16 data (o + 2) = Got (rr_class r) /\
    tg_dns_get_u16 data (o + 8) = Got (rr_len r) /\ rr_data r = o + 10 /\ rr_data r + rr_len r <= zlen data.

(** One of [n] records from [offset]. *)
Inductive record_in (data : list Z) : nat -> Z -> rr -> Prop :=
| record_here n offset r : record_at data offset r -> record_in data (S n) offset r
| record_later n offset r r' :
    record_at data offset r -> record_in data n (rr_data r + rr_len r) r' -> record_in data (S n) offset r'.

(** A record of the answer section. *)
Definition answer (data : list Z) (r : rr) : Prop :=
  exists name o n, tg_dns_expand_name data 12 TG_DNS_QNAME_CAP = Got (name, o) /\ tg_dns_get_u16 data 6 = Got n /\
    record_in data (Z.to_nat n) (o + 4) r.

(** [wanted] has the address [a] by a chain of CNAME records. *)
Inductive resolves (data : list Z) : list Z -> list Z -> Prop :=
| resolves_address wanted r l :
    answer data r -> rr_class r = 1 -> rr_type r = 1 -> rr_len r = 4 -> tg_dns_names_equal (rr_owner r) wanted = true ->
    read_bytes 4 data (rr_data r) = Got l -> resolves data wanted (inet_ntop l)
| resolves_cname wanted r target a :
    answer data r -> rr_class r = 1 -> rr_type r = 5 -> tg_dns_names_equal (rr_owner r) wanted = true ->
    tg_dns_expand_name data (rr_data r) TG_DNS_QNAME_CAP = Got (target, rr_data r + rr_len r) ->
    resolves data (cstr target) a -> resolves data wanted a.

(** What a pass over the answers found. *)
Definition found (data wanted : list Z) (P : rr -> Prop) (nx : list Z) (x : list Z + list Z) : Prop :=
  match x with
  | inl a => exists r l, P r /\ rr_class r = 1 /\ rr_type r = 1 /\ rr_len r = 4 /\
      tg_dns_names_equal (rr_owner r) wanted = true /\ read_bytes 4 data (rr_data r) = Got l /\ a = inet_ntop l
  | inr target => target = nx \/ exists r, P r /\ rr_class r = 1 /\ rr_type r = 5 /\
      tg_dns_names_equal (rr_owner r) wanted = true /\
      tg_dns_expand_name data (rr_data r) TG_DNS_QNAME_CAP = Got (target, rr_data r + rr_len r)
  end.

Lemma found_mono data wanted (P Q : rr -> Prop) nx x : (forall r, P r -> Q r) -> found data wanted P nx x -> found data wanted Q nx x.
Proof.
  intros H. destruct x as [a|target]; cbn.
  - intros (r & l & Hp & Hr). exists r, l. auto.
  - intros [|(r & Hp & Hr)]; [by left|right]. exists r. auto.
Qed.

Lemma answer_loop_found n data wanted offset nx x :
  answer_loop n data wanted offset nx = Got x -> found data wanted (record_in data n offset) nx x.
Proof.
  revert offset nx. induction n as [|n IH]; intros offset nx; cbn [answer_loop]; [intros [= <-]; by left|].
  destruct (tg_dns_expand_name data offset _) as [| |[owner o]] eqn:En; try done. cbn [rbind].
  destruct (zlen data <? o + 10); [done|].
  destruct (tg_dns_get_u16 data o) as [| |ty] eqn:Et; try done. destruct (tg_dns_get_u16 data (o + 2)) as [| |cls] eqn:Ec; try done.
  destruct (tg_dns_get_u16 data (o + 8)) as [| |len] eqn:El; try done. cbn [rbind].
  destruct (Z.ltb_spec (zlen data - (o + 10)) len); [done|].
  set (r := mk_rr owner ty cls (o + 10) len). assert (record_at data offset r) as Hr by (exists o; cbn; split_and!; try done; lia).
  assert (forall r', record_in data n (o + 10 + len) r' -> record_in data (S n) offset r') as Hl
    by (intros r' H'; by apply (record_later data n offset r)).
  assert (forall nx', answer_loop n data wanted (o + 10 + len) nx' = Got x ->
    found data wanted (record_in data (S n) offset) nx' x) as Hrec by (intros nx' H'; eapply found_mono; [exact Hl|by apply IH]).
  destruct (_ && tg_dns_names_equal _ _) eqn:Em; [|by apply Hrec]. bprop.
  destruct (_ && (len =? 4)) eqn:Ea.
  { bprop. destruct (read_bytes 4 data (o + 10)) as [| |l] eqn:Er; try done. intros [= <-].
    exists r, l. split_and!; try done. by apply record_here. }
  destruct (_ && bool_decide _) eqn:Eb; [|by apply Hrec]. bprop.
  destruct (tg_dns_expand_name data (o + 10) _) as [| |[target fl]] eqn:Ex; try done. cbn [rbind].
  destruct (Z.eqb_spec fl (o + 10 + len)) as [->|]; [|done]. cbn [negb]. intros H'. apply Hrec in H'.
  destruct x as [a|t']; [exact H'|]. destruct H' as [->|H']; [|by right]. right. exists r. split_and!; try done. by apply record_here.
Qed.

(** C23: the address handed to a workflow belongs to the name asked for: it is
    an IN A record of the answer section whose owner is the queried name or
    the end of a chain of IN CNAME records of the answer section that starts
    at it; other records of the datagram cannot choose it. *)
Theorem dns_address_chain c data a (H : tg_dns_address c data = Got a) : resolves data (cstr (qname c)) a.
Proof.
  revert H. unfold tg_dns_address. generalize 16%nat, (cstr (qname c)). intros n. induction n as [|n IH]; intros wanted; [done|].
  cbn [hop_loop]. destruct (tg_dns_expand_name data 12 _) as [| |[name o]] eqn:En; try done. cbn [rbind snd].
  destruct (tg_dns_get_u16 data 6) as [| |k] eqn:Ek; try done. cbn [rbind].
  destruct (answer_loop _ data wanted (o + 4) []) as [| |x] eqn:Ex; try done. cbn [rbind].
  apply answer_loop_found in Ex. assert (forall r, record_in data (Z.to_nat k) (o + 4) r -> answer data r) as Ha
    by (intros r Hr; by exists name, o, k).
  apply (found_mono _ _ _ _ _ _ Ha) in Ex. destruct x as [b|target].
  - destruct Ex as (r & l & Hr & H1 & H2 & H3 & H4 & H5 & ->). intros [= <-]. by eapply resolves_address.
  - destruct (_ || _) eqn:Eo; [done|]. bprop. intros H'. apply IH in H'. destruct Ex as [->|(r & Hr & H1 & H2 & H3 & H4)]; [done|].
    by eapply resolves_cname.
Qed.

(** www.example.org is an alias of a.example.org. *)
Definition cname_reply : list Z :=
  header 258 33152 1 2 ++ qlabels demo_host ++ 0 :: question_tail demo_host
    ++ [192; 12; 0; 5; 0; 1; 0; 0; 0; 9; 0; 4; 1; 97; 192; 16] ++ [192; 45; 0; 1; 0; 1; 0; 0; 0; 9; 0; 4; 10; 0; 0; 7].

Lemma dns_address_chain_witness :
  tg_dns_address demo_host cname_reply = Got (text "10.0.0.7") /\
  resolves cname_reply (text "Www.Example.org") (text "10.0.0.7").
Proof.
  assert (tg_dns_address demo_host cname_reply = Got (text "10.0.0.7")) as E by (vm_compute; reflexivity).
  split; [exact E|]. exact (dns_address_chain demo_host cname_reply (text "10.0.0.7") E).
Defined.

(** A question that is one label with dots in it, or has bytes behind a NUL,
    is taken for the question that was asked. *)
Lemma question_confused :
  tg_dns_response_valid (Some (mk_dns [] 7)) (Some (mk_dcfg (text "a.b" ++ [0]) 1 7 false))
    (header 7 33152 1 0 ++ [3; 97; 46; 98; 0; 0; 1; 0; 1]) = Got true /\
  tg_dns_response_valid (Some (mk_dns [] 7)) (Some (mk_dcfg (text "a" ++ [0]) 1 7 false))
    (header 7 33152 1 0 ++ [3; 97; 0; 98; 0; 0; 1; 0; 1]) = Got true.
Proof. split; vm_compute; reflexivity. Qed.
