(* ===== verification/Http.v ===== *)
(** * HTTP client plugin (traffic-gen/proto/http/http_client.h, http_client.c)

    The request encoders, the callbacks the plugin installs in the llhttp
    parser, the export of values and the life cycle.  llhttp is a parameter:
    [execute] and [finish] run a parser over bytes and yield the tree of the
    callbacks they make, each with the continuation of its return value.
    A character array is the C string in it; [mem] says whether an allocation
    of so many bytes succeeds. *)

From stdpp Require Import strings.
From S2P Require Import Prelude Txn Json.

Definition TG_HTTP_METHOD_CAP : Z := 16.
Definition TG_HTTP_PATH_CAP : Z := 768.
Definition TG_HTTP_HOST_CAP : Z := 256.

Record tg_http_config := mk_hcfg {
  method : list Z;
  path : list Z;
  host : list Z;
  connection_close : bool;
  accept_any_status : bool;
  capture_headers : bool;
  capture_json : bool
}.
Definition tg_http_bootstrap_config : tg_http_config :=
  mk_hcfg (text "GET") (text "/") (text "localhost") true false false false.

(** ** Requests *)

Definition CRLF : list Z := [13; 10].
Definition connection_of (close : bool) : list Z := if close then text "close" else text "keep-alive".

(** [snprintf] into [cap] bytes. *)
Definition print_to (cap : Z) (s : list Z) : errno + list Z := if cap <=? zlen s then inl EMSGSIZE else inr s.

Definition or_default (s d : list Z) : list Z := match s with [] => d | _ => s end.
Definition tg_http_build_request (config : option tg_http_config) (cap : Z) : errno + list Z :=
  if cap =? 0 then inl EINVAL
  else
    let m := match config with Some c => or_default (method c) (text "GET") | None => text "GET" end in
    let p := match config with Some c => or_default (path c) (text "/") | None => text "/" end in
    let h := match config with Some c => or_default (host c) (text "localhost") | None => text "localhost" end in
    let close := match config with Some c => connection_close c | None => true end in
    print_to cap (m ++ text " " ++ p ++ text " HTTP/1.1" ++ CRLF ++ text "Host: " ++ h ++ CRLF
                  ++ text "Connection: " ++ connection_of close ++ CRLF ++ CRLF).

Definition tg_http_build_parts (config : tg_http_config) (headers body : list Z) (cap : Z) : errno + list Z :=
  print_to cap (method config ++ text " " ++ path config ++ text " HTTP/1.1" ++ CRLF ++ text "Host: " ++ host config ++ CRLF
                ++ text "Connection: " ++ connection_of (connection_close config) ++ CRLF ++ headers
                ++ text "Content-Length: " ++ print_size (zlen body) ++ CRLF ++ CRLF ++ body).

(** ** The llhttp interface *)

Inductive http_event :=
| MessageBegin
| HeaderField (data : list Z)
| HeaderFieldComplete
| HeaderValue (data : list Z)
| HeaderValueComplete
| HeadersComplete (major minor status : Z)
| Body (data : list Z)
| MessageComplete (keep_alive : bool).

(** [Stop ok p]: the bytes are used up in state [p], or parsing failed. *)
Inductive run {P : Type} := Stop (ok : bool) (p : P) | Call (e : http_event) (k : Z -> run).
Arguments run : clear implicits.

Section Http.
Context {P : Type} (mem : Z -> bool) (finite : list Z -> bool).
Context (llhttp_init : P) (llhttp_execute : P -> list Z -> run P) (llhttp_needs_eof : P -> bool) (llhttp_finish : P -> run P).

(** ** State *)

Record tg_http_parser := mk_hp {
  parser : P;
  message_complete : bool;
  hp_reusable : bool;
  body_received : Z;
  status : Z;
  headers : option (list Z);
  body : option (list Z);
  json : option tg_json_doc
}.
Definition with_parser (v : P) (c : tg_http_parser) : tg_http_parser :=
  mk_hp v (message_complete c) (hp_reusable c) (body_received c) (status c) (headers c) (body c) (json c).
Definition with_status (v : Z) (c : tg_http_parser) : tg_http_parser :=
  mk_hp (parser c) (message_complete c) (hp_reusable c) (body_received c) v (headers c) (body c) (json c).
Definition with_headers (v : option (list Z)) (c : tg_http_parser) : tg_http_parser :=
  mk_hp (parser c) (message_complete c) (hp_reusable c) (body_received c) (status c) v (body c) (json c).
Definition with_json (v : option tg_json_doc) (c : tg_http_parser) : tg_http_parser :=
  mk_hp (parser c) (message_complete c) (hp_reusable c) (body_received c) (status c) (headers c) (body c) v.
Definition with_hp_reusable (v : bool) (c : tg_http_parser) : tg_http_parser :=
  mk_hp (parser c) (message_complete c) v (body_received c) (status c) (headers c) (body c) (json c).

Abbreviation tg_txn := (tg_txn tg_http_config tg_http_parser).
Definition with_peer_closes (v : bool) (t : tg_txn) : tg_txn :=
  mk_txn (resource_counted t) (error_reason t) (bound t) (class_config t) (proto_ctx t) (request t)
    (request_offset t) (response_bytes t) (connection_reusable t) v.

(** A callback's return value, the context and the transaction after it. *)
Definition result : Type := Z * tg_http_parser * tg_txn.

(** ** Callbacks *)

Definition HEADER_BUFFER : Z := 65536.
Definition BODY_LIMIT : Z := 65536.

Definition wants (f : tg_http_config -> bool) (t : tg_txn) : bool := match class_config t with Some c => f c | None => false end.

Definition tg_http_on_message_begin (c : tg_http_parser) (t : tg_txn) : result := (if message_complete c then -1 else 0, c, t).

Definition tg_http_on_headers_complete (major minor code : Z) (c : tg_http_parser) (t : tg_txn) : result :=
  if negb (major =? 1) || (negb (minor =? 0) && negb (minor =? 1)) then (-1, c, t)
  else
    let c := with_status code c in
    if code =? 101 then (-1, c, t)
    else if (100 <=? code) && (code <? 200) then (0, c, t)
    else if negb (wants accept_any_status t) && ((code <? 200) || (300 <=? code))
    then (-1, c, with_error_reason TG_ERROR_HTTP_STATUS t)
    else (if wants (fun g => bool_decide (method g = text "HEAD")) t then 1 else 0, c, t).

Definition tg_http_on_body (data : list Z) (c : tg_http_parser) (t : tg_txn) : result :=
  if UINT64_MAX - body_received c <? zlen data then (-1, c, t)
  else
    let received := mk_hp (parser c) (message_complete c) (hp_reusable c) (body_received c + zlen data) (status c) (headers c) in
    if wants capture_json t then
      let held := default [] (body c) in
      if BODY_LIMIT - zlen held <? zlen data then (-1, c, t)
      else if negb (bool_decide (is_Some (body c))) && negb (mem (BODY_LIMIT + 1)) then (-1, c, t)
      else (0, received (Some (held ++ data)) (json c), t)
    else (0, received (body c) (json c), t).

(** An informational message leaves nothing behind. *)
Definition tg_http_on_message_complete (keep_alive : bool) (c : tg_http_parser) (t : tg_txn) : result :=
  if status c <? 200 then (0, with_headers (option_map (fun _ => []) (headers c)) c, t)
  else
    let reusable := match class_config t with Some g => negb (connection_close g) | None => false end && keep_alive in
    (0, mk_hp (parser c) true reusable (body_received c) (status c) (headers c) (body c) (json c),
     with_peer_closes (negb reusable) (with_connection_reusable reusable t)).

Definition tg_http_capture (data : list Z) (c : tg_http_parser) (t : tg_txn) : result :=
  if negb (wants capture_headers t) then (0, c, t)
  else if negb (bool_decide (is_Some (headers c))) && negb (mem HEADER_BUFFER) then (-1, c, t)
  else
    let held := default [] (headers c) in
    if HEADER_BUFFER - 1 - zlen held <? zlen data then (-1, with_headers (Some held) c, t)
    else (0, with_headers (Some (held ++ data)) c, t).

Definition tg_http_header_end (c : tg_http_parser) (t : tg_txn) : result :=
  if negb (wants capture_headers t) then (0, c, t)
  else if negb (bool_decide (is_Some (headers c))) && negb (mem HEADER_BUFFER) then (-1, c, t)
  else
    let held := default [] (headers c) in
    if HEADER_BUFFER - 1 <=? zlen held then (-1, with_headers (Some held) c, t)
    else (0, with_headers (Some (held ++ [0])) c, t).

(** Both tables of callbacks: without header capture the header callbacks
    are not installed, and do nothing here. *)
Definition callback (e : http_event) (c : tg_http_parser) (t : tg_txn) : result :=
  match e with
  | MessageBegin => tg_http_on_message_begin c t
  | HeaderField data => tg_http_capture data c t
  | HeaderFieldComplete => tg_http_header_end c t
  | HeaderValue data => tg_http_capture data c t
  | HeaderValueComplete => tg_http_header_end c t
  | HeadersComplete major minor code => tg_http_on_headers_complete major minor code c t
  | Body data => tg_http_on_body data c t
  | MessageComplete keep => tg_http_on_message_complete keep c t
  end.

Fixpoint drive (r : run P) (c : tg_http_parser) (t : tg_txn) : bool * tg_http_parser * tg_txn :=
  match r with
  | Stop ok p => (ok, with_parser p c, t)
  | Call e k => let '(v, c, t) := callback e c t in drive (k v) c t
  end.

(** ** Values of a response *)

(** Two C strings that are equal but for the case of letters. *)
Definition tolower (c : Z) : Z := if (65 <=? c) && (c <=? 90) then c + 32 else c.
Definition strcasecmp_eq (a b : list Z) : bool := bool_decide (map tolower a = map tolower b).

(** The scan over the NUL-separated names and values from [l] on. *)
Fixpoint find_header (fuel : nat) (l : list Z) (name : list Z) (index : Z) : option tg_value :=
  match fuel, l with
  | S k, _ :: _ =>
      let n := cstr l in
      if zlen l <? zlen n + 1 then None
      else
        let l1 := drop (S (length n)) l in
        let v := cstr l1 in
        if strcasecmp_eq n name then
          if index =? 0 then if TG_VALUE_CAP <=? zlen v then None else Some (mk_value TG_VALUE_STRING v)
          else find_header k (drop (S (length v)) l1) name (index - 1)
        else find_header k (drop (S (length v)) l1) name index
  | _, _ => None
  end.

(** The JSON document is parsed once and kept. *)
Definition tg_http_export (t : tg_txn) (source path : list Z) (index : Z) : option tg_value * tg_txn :=
  match proto_ctx t with
  | None => (None, t)
  | Some c =>
      if negb (message_complete c) then (None, t)
      else if bool_decide (source = text "status") then (Some (mk_value TG_VALUE_NUMBER (print_size (status c))), t)
      else if bool_decide (source = text "header") && bool_decide (is_Some (headers c)) then
        let l := default [] (headers c) in (find_header (length l) l path index, t)
      else if bool_decide (source = text "json") && bool_decide (is_Some (body c)) then
        match (match json c with Some d => Some d | None => tg_document_parse finite mem (default [] (body c)) end) with
        | None => (None, t)
        | Some d =>
            (match tg_json_pointer d path with Some i => tg_value_read finite d i | None => None end,
             with_proto_ctx (Some (with_json (Some d) c)) t)
        end
      else (None, t)
  end.

(** ** Life cycle *)

Definition PARSER_SIZE : Z := 256.
Definition tg_http_init (t : tg_txn) : bool * tg_txn :=
  if negb (mem PARSER_SIZE) then (false, t)
  else (true, with_proto_ctx (Some (mk_hp llhttp_init false false 0 0 None None None)) t).

Definition tg_http_on_tx_accepted (t : tg_txn) (bytes : Z) : tg_txn := t.

Definition tg_http_on_rx (t : tg_txn) (data : list Z) : tg_proto_result * tg_txn :=
  match proto_ctx t with
  | None => (TG_PROTO_FAILED, t)
  | Some c =>
      if message_complete c then (if bool_decide (data = []) then TG_PROTO_COMPLETE else TG_PROTO_FAILED, t)
      else
        let '(ok, c1, t1) := drive (llhttp_execute (parser c) data) c t in
        if negb ok then (TG_PROTO_FAILED, with_proto_ctx (Some c1) t1)
        else (if message_complete c1 then TG_PROTO_COMPLETE else TG_PROTO_MORE,
              with_connection_reusable (hp_reusable c1) (with_proto_ctx (Some c1) t1))
  end.

Definition tg_http_on_eof (t : tg_txn) : tg_proto_result * tg_txn :=
  match proto_ctx t with
  | None => (TG_PROTO_FAILED, t)
  | Some c =>
      let c0 := with_hp_reusable false c in
      let t0 := with_connection_reusable false (with_proto_ctx (Some c0) t) in
      if message_complete c0 then (TG_PROTO_COMPLETE, t0)
      else if negb (llhttp_needs_eof (parser c0)) then (TG_PROTO_FAILED, t0)
      else
        let '(ok, c1, t1) := drive (llhttp_finish (parser c0)) c0 t0 in
        if negb ok || negb (message_complete c1) then (TG_PROTO_FAILED, with_proto_ctx (Some c1) t1)
        else (TG_PROTO_COMPLETE, with_connection_reusable false (with_proto_ctx (Some (with_hp_reusable false c1)) t1))
  end.

Definition tg_http_reset (t : tg_txn) : tg_txn := with_proto_ctx None t.

Definition tg_http_proto_ops : tg_proto_ops tg_http_config tg_http_parser :=
  mk_proto (Some tg_http_init) (Some tg_http_on_tx_accepted) (Some tg_http_on_rx) (Some tg_http_on_eof) (Some tg_http_reset).
End Http.
