(* ===== verification/HttpFacts.v ===== *)
(** * HTTP client plugin: a response through tg_http_on_rx (facts on Http.v)

    [reads] says which callbacks llhttp makes for the chunks of a connection;
    [response_events] are those of a response in the pieces the parser cut it
    into.  However the transport and the parser cut it, the plugin completes
    on exactly the responses it can hold and the exports give what the
    response said. *)

From stdpp Require Import strings.
From S2P Require Import Prelude Txn Json Http.

(** ** llhttp as the plugin sees it *)

(** The return value on which the parser goes on: 0, and 1 from
    [on_headers_complete] for a final message whose body is to be skipped, as
    the plugin asks in a HEAD transaction. *)
Definition go_on (head : bool) (e : http_event) : Z :=
  match e with HeadersComplete _ _ code => if head && negb ((100 <=? code) && (code <? 200)) then 1 else 0 | _ => 0 end.

(** A run that makes the callbacks [es] and ends in state [p] while they
    return that; a callback that returns -1 makes it fail. *)
Inductive runs_as {P} (head : bool) : run P -> list http_event -> P -> Prop :=
| runs_stop p : runs_as head (Stop true p) [] p
| runs_call e k es p :
    runs_as head (k (go_on head e)) es p -> (exists q, k (-1) = Stop false q) -> runs_as head (Call e k) (e :: es) p.

(** The chunks of a message from state [p]: the last one ends it. *)
Inductive reads {P} (execute : P -> list Z -> run P) (head : bool) : P -> list (list Z) -> list http_event -> Prop :=
| reads_last p d es p' : runs_as head (execute p d) es p' -> reads execute head p [d] es
| reads_more p d ds es es' p' :
    runs_as head (execute p d) es p' -> es' <> [] -> reads execute head p' ds es' -> reads execute head p (d :: ds) (es ++ es').

(** The transaction layer's loop: chunks go to the plugin while it wants more. *)
Fixpoint rx_all {P} mem (execute : P -> list Z -> run P) (t : tg_txn tg_http_config tg_http_parser) (ds : list (list Z))
    : tg_proto_result * tg_txn tg_http_config tg_http_parser :=
  match ds with
  | [] => (TG_PROTO_MORE, t)
  | d :: ds =>
      let '(r, t1) := tg_http_on_rx mem execute t d in
      if bool_decide (r = TG_PROTO_MORE) then rx_all mem execute t1 ds else (r, t1)
  end.

Section Callbacks.
Context {P : Type} (mem : Z -> bool) (finite : list Z -> bool) (head : bool).
Local Abbreviation parser_ctx := (tg_http_parser (P := P)).
Local Abbreviation txn := (tg_txn tg_http_config parser_ctx).

(** The callbacks in turn, while the parser goes on. *)
Fixpoint callbacks (es : list http_event) (c : parser_ctx) (t : txn) : bool * parser_ctx * txn :=
  match es with
  | [] => (true, c, t)
  | e :: r => let '(v, c, t) := callback mem e c t in if v =? go_on head e then callbacks r c t else (false, c, t)
  end.

Lemma callbacks_app es1 : forall es2 c t,
  callbacks (es1 ++ es2) c t = let '(ok, c1, t1) := callbacks es1 c t in if ok then callbacks es2 c1 t1 else (false, c1, t1).
Proof.
  induction es1 as [|e r IH]; intros es2 c t; [done|]. cbn [app callbacks]. destruct (callback mem e c t) as [[v c1] t1].
  destruct (v =? _); [apply IH|done].
Qed.

(** ** What the callbacks depend on

    They use neither the parser's state nor what [tg_http_on_rx] stores in
    the transaction between two chunks. *)

Definition alike (x y : parser_ctx * txn) : Prop :=
  (exists q, fst y = with_parser q (fst x)) /\ exists b o, snd y = with_connection_reusable b (with_proto_ctx o (snd x)).

Lemma alike_refl x : alike x x.
Proof. destruct x as [c t]. split; [exists (parser c); by destruct c|]. exists (connection_reusable t), (proto_ctx t). by destruct t. Qed.
Lemma alike_trans x y z : alike x y -> alike y z -> alike x z.
Proof.
  intros [[q E] (b & o & F)] [[q' E'] (b' & o' & F')]. split; [exists q'; by rewrite E', E|exists b', o'; by rewrite F', F].
Qed.

Lemma callback_alike e c t c' t' : alike (c, t) (c', t') ->
  let '(v, c1, t1) := callback mem e c t in let '(v', c1', t1') := callback mem e c' t' in v = v' /\ alike (c1, t1) (c1', t1').
Proof.
  intros [[q E] (b & o & F)]. cbn [fst snd] in E, F. subst c' t'.
  destruct e; cbn [callback]; unfold tg_http_on_message_begin, tg_http_capture, tg_http_header_end, tg_http_on_headers_complete, tg_http_on_body, tg_http_on_message_complete, wants;
    destruct c, t as [rc er bd [g|] pc rq ro rb cr pe]; cbn; repeat case_match; simplify_eq;
    (split; [done|]); (split; [by exists q|]); cbn; try (by exists b, o); try (by eexists _, o).
Qed.

Lemma callbacks_alike es : forall c t c' t', alike (c, t) (c', t') ->
  let '(ok, c1, t1) := callbacks es c t in let '(ok', c1', t1') := callbacks es c' t' in ok = ok' /\ alike (c1, t1) (c1', t1').
Proof.
  induction es as [|e es IH]; intros c t c' t' H; [done|]. cbn [callbacks]. pose proof (callback_alike e c t c' t' H) as He.
  destruct (callback mem e c t) as [[v c1] t1], (callback mem e c' t') as [[v' c1'] t1']. destruct He as [<- He].
  destruct (v =? _); [by apply IH|done].
Qed.

(** A callback goes on or returns -1, when the transaction agrees on HEAD. *)
Definition head_of (t : txn) : bool := wants (fun g => bool_decide (method g = text "HEAD")) t.

Lemma callback_class e (c : parser_ctx) (t : txn) : let '(_, _, t1) := callback mem e c t in class_config t1 = class_config t.
Proof.
  destruct e; cbn [callback]; unfold tg_http_on_message_begin, tg_http_capture, tg_http_header_end, tg_http_on_headers_complete, tg_http_on_body, tg_http_on_message_complete;
    by repeat case_match; simplify_eq.
Qed.

Lemma callback_result e c t : head_of t = head ->
  let '(v, c1, t1) := callback mem e c t in (v = go_on head e \/ v = -1) /\ head_of t1 = head /\ class_config t1 = class_config t.
Proof.
  intros Hh. pose proof (callback_class e c t) as Hc.
  enough (let '(v, _, _) := callback mem e c t in v = go_on head e \/ v = -1) as Hv.
  { destruct (callback mem e c t) as [[v c1] t1]. split_and!; [done| |done]. unfold head_of, wants in *. by rewrite Hc. }
  clear Hc. destruct e as [| | | | |ma mi code| |]; cbn [callback go_on]; try (clear Hh; unfold tg_http_on_message_begin, tg_http_capture, tg_http_header_end, tg_http_on_body, tg_http_on_message_complete;
    repeat case_match; simplify_eq; first [by left|by right]).
  unfold tg_http_on_headers_complete. destruct (_ || _); [by right|]. cbv zeta. destruct (Z.eqb_spec code 101); [by right|].
  destruct (_ && (code <? 200)); [rewrite andb_false_r; by left|]. rewrite andb_true_r.
  destruct (_ && _); [by right|]. left. unfold head_of in Hh. by rewrite Hh.
Qed.

Lemma go_on_ne e : (-1 =? go_on head e) = false.
Proof. destruct e; cbn; try done. by destruct (_ && _). Qed.

Lemma drive_callbacks r es p : runs_as head r es p -> forall c t, head_of t = head ->
  let '(ok, c1, t1) := drive mem r c t in let '(ok', c1', t1') := callbacks es c t in
  ok = ok' /\ (exists q, c1 = with_parser q c1' /\ (ok = true -> q = p)) /\ t1 = t1' /\ head_of t1 = head.
Proof.
  induction 1 as [p|e k es p H IH [q Hq]]; intros c t Hh; cbn [drive callbacks]; [split_and!; eauto|].
  pose proof (callback_result e c t Hh) as Hr. destruct (callback mem e c t) as [[v c1] t1]. destruct Hr as ([-> | ->] & Hh1 & _).
  - rewrite Z.eqb_refl. by apply IH.
  - rewrite Hq. cbn [drive]. rewrite go_on_ne.
    split_and!; eauto. exists q. split; [done|]. done.
Qed.

(** ** The plugin over the chunks *)

Definition finished (x : bool * parser_ctx * txn) : bool := let '(_, c, _) := x in message_complete c.

Lemma alike_finished es c t c' t' : alike (c, t) (c', t') -> finished (callbacks es c t) = finished (callbacks es c' t').
Proof.
  intros H. pose proof (callbacks_alike es c t c' t' H) as A. destruct (callbacks es c t) as [[ok c1] t1], (callbacks es c' t') as [[ok' c1'] t1'].
  destruct A as [_ [[q E] _]]. cbn in *. by rewrite E.
Qed.

Lemma rx_callbacks execute p ds es : reads execute head p ds es -> forall c t,
  head_of t = head -> proto_ctx t = Some c -> parser c = p -> message_complete c = false ->
  (forall es1 es2, es = es1 ++ es2 -> es2 <> [] -> finished (callbacks es1 c t) = false) ->
  let '(ok, c1, t1) := callbacks es c t in let '(r, t2) := rx_all mem execute t ds in
  error_reason t2 = error_reason t1 /\
  if ok then r = (if message_complete c1 then TG_PROTO_COMPLETE else TG_PROTO_MORE) /\ (exists q, proto_ctx t2 = Some (with_parser q c1)) /\
    peer_closes t2 = peer_closes t1 /\ connection_reusable t2 = hp_reusable c1
  else r = TG_PROTO_FAILED.
Proof.
  induction 1 as [p d es p' H|p d ds es es' p' H Hne Hr IH]; intros c t Hh Hc Hp Hm Hq; cbn [rx_all]; unfold tg_http_on_rx; rewrite Hc, Hm, Hp;
    pose proof (drive_callbacks _ _ _ H c t Hh) as D.
  - destruct (drive _ _ _ _) as [[ok c1] t1], (callbacks es c t) as [[ok' c1'] t1']. destruct D as (<- & (q & -> & _) & <- & _).
    destruct ok; cbn [negb]; [|by rewrite bool_decide_false]. change (message_complete (with_parser q c1')) with (message_complete c1').
    destruct (message_complete c1'); [rewrite bool_decide_false by done|rewrite bool_decide_true by done]; (split_and!; try done; by exists q).
  - rewrite callbacks_app. pose proof (Hq es es' eq_refl Hne) as Hf.
    assert (forall es1, callbacks (es ++ es1) c t = let '(ok, c1, t1) := callbacks es c t in if ok then callbacks es1 c1 t1 else (false, c1, t1)) as Ha
      by (intros; apply callbacks_app).
    destruct (drive _ _ _ _) as [[ok c1] t1], (callbacks es c t) as [[ok' c1'] t1']. destruct D as (<- & (q & -> & Eq) & <- & Hh1).
    destruct ok; cbn [negb]; [|by rewrite bool_decide_false]. specialize (Eq eq_refl). subst q. cbn [finished] in Hf.
    change (message_complete (with_parser p' c1')) with (message_complete c1'). rewrite Hf. rewrite bool_decide_true by done.
    set (t' := with_connection_reusable _ _). assert (alike (c1', t1) (with_parser p' c1', t')) as A by (split; [by exists p'|by eexists _, _]).
    specialize (IH (with_parser p' c1') t' Hh1 eq_refl eq_refl Hf).
    assert (forall es1 es2, es' = es1 ++ es2 -> es2 <> [] -> finished (callbacks es1 (with_parser p' c1') t') = false) as Hq'.
    { intros es1 es2 -> N. rewrite <- (alike_finished es1 c1' t1) by done. specialize (Hq (es ++ es1) es2 (app_assoc _ _ _) N). by rewrite Ha in Hq. }
    specialize (IH Hq'). pose proof (callbacks_alike es' _ _ _ _ A) as B.
    destruct (callbacks es' c1' t1) as [[ok2 c2] t2], (callbacks es' _ t') as [[ok2' c2'] t2'], (rx_all _ _ _ _) as [r t3].
    destruct B as [<- [[q E] (b & o & F)]]. cbn [fst snd] in E, F. subst c2' t2'. destruct IH as [He IH]. split; [exact He|].
    destruct ok2; [|done]. destruct IH as (-> & [q' ->] & ? & ?). split_and!; try done. by exists q'.
Qed.

Lemma drive_class r : forall c t, let '(_, _, t1) := drive (P := P) mem r c t in class_config t1 = class_config t.
Proof.
  induction r as [ok p|e k IH]; intros c t; [done|]. cbn [drive]. pose proof (callback_class e c t) as Hc.
  destruct (callback mem e c t) as [[v c1] t1]. specialize (IH v c1 t1). destruct (drive _ _ _ _) as [[? ?] ?]. congruence.
Qed.
Lemma rx_class (execute : P -> list Z -> run P) ds : forall t, class_config (snd (rx_all mem execute t ds)) = class_config t.
Proof.
  induction ds as [|d ds IH]; intros t; [done|]. cbn [rx_all]. unfold tg_http_on_rx. destruct (proto_ctx t) as [c|]; [|done].
  destruct (message_complete c); [by case_bool_decide|]. pose proof (drive_class (execute (parser c) d) c t) as Hd.
  destruct (drive _ _ _ _) as [[ok c1] t1]. destruct ok; cbn [negb]; [|by rewrite bool_decide_false].
  destruct (message_complete c1); [by rewrite bool_decide_false|]. rewrite bool_decide_true, IH by done. done.
Qed.

(** ** The header callbacks *)

(** A field with the pieces of its name and of its value. *)
Record field := mk_field { f_name : list (list Z); f_value : list (list Z) }.
Definition name_of (f : field) : list Z := concat (f_name f).
Definition value_of (f : field) : list Z := concat (f_value f).
Definition field_events (f : field) : list http_event :=
  map HeaderField (f_name f) ++ [HeaderFieldComplete] ++ map HeaderValue (f_value f) ++ [HeaderValueComplete].
Definition fields_events (fs : list field) : list http_event := concat (map field_events fs).
Definition field_ok (f : field) : Prop := Forall (fun c => c <> 0) (name_of f) /\ Forall (fun c => c <> 0) (value_of f).

Definition wire (fs : list field) : list Z := concat (map (fun f => name_of f ++ [0] ++ value_of f ++ [0]) fs).

(** What the response says: the values of the fields of a name, in order. *)
Definition named (name : list Z) (fs : list field) : list (list Z) := map value_of (List.filter (fun f => strcasecmp_eq (name_of f) name) fs).

Definition held (c : parser_ctx) : list Z := default [] (headers c).

(** The headers of one message fit the buffer. *)
Definition fits (fs : list field) : Prop := fs = [] \/ mem HEADER_BUFFER = true /\ zlen (wire fs) <= HEADER_BUFFER - 1.

Definition is_header (e : http_event) : bool :=
  match e with HeaderField _ | HeaderFieldComplete | HeaderValue _ | HeaderValueComplete => true | _ => false end.

Lemma headers_only es : Forall (fun e => is_header e = true) es -> forall c t,
  let '(ok, c1, t1) := callbacks es c t in t1 = t /\ with_headers None c1 = with_headers None c /\ (wants capture_headers t = false -> ok = true /\ c1 = c).
Proof.
  induction 1 as [|e es He F IH]; intros c t; [done|]. cbn [callbacks].
  assert (let '(v, c1, t1) := callback mem e c t in t1 = t /\ with_headers None c1 = with_headers None c /\ go_on head e = 0 /\ (wants capture_headers t = false -> v = 0 /\ c1 = c)) as K.
  { destruct e; try done; cbn; unfold tg_http_capture, tg_http_header_end; destruct (wants capture_headers t); cbn [negb]; try done; repeat case_match; by simplify_eq. }
  destruct (callback mem e c t) as [[v c1] t1]. destruct K as (-> & K1 & -> & K2). specialize (IH c1 t).
  destruct (v =? 0) eqn:Ev; bprop.
  - destruct (callbacks es c1 t) as [[ok c2] t2]. destruct IH as (-> & I1 & I2). split_and!; [done|congruence|]. intros W. destruct (K2 W) as [_ ->]. auto.
  - split_and!; [done..|]. intros W. by destruct (K2 W).
Qed.

Lemma fields_are_headers fs : Forall (fun e => is_header e = true) (fields_events fs).
Proof.
  unfold fields_events. apply Forall_concat, Forall_map, Forall_true. intros f. unfold field_events.
  repeat (apply Forall_app; split); try (apply Forall_map, Forall_true; done); by repeat constructor.
Qed.

(** The callbacks append [l] to the buffer, or stop when it does not fit. *)
Definition appends (es : list http_event) (l : list Z) : Prop :=
  forall c t, wants capture_headers t = true -> zlen (held c) <= HEADER_BUFFER - 1 ->
  match callbacks es c t with
  | (true, c1, t1) => t1 = t /\ held c1 = held c ++ l /\ zlen (held c1) <= HEADER_BUFFER - 1
  | (false, _, _) => HEADER_BUFFER - 1 < zlen (held c) + zlen l
  end.

Lemma appends_nil : appends [] [].
Proof. intros c t Hw Hl. cbn. by rewrite app_nil_r. Qed.
Lemma appends_app es1 l1 es2 l2 : appends es1 l1 -> appends es2 l2 -> appends (es1 ++ es2) (l1 ++ l2).
Proof.
  intros A1 A2 c t Hw Hl. rewrite callbacks_app. specialize (A1 c t Hw Hl). destruct (callbacks es1 c t) as [[[] c1] t1].
  - destruct A1 as (-> & H1 & L1). specialize (A2 c1 t Hw L1). destruct (callbacks es2 c1 t) as [[[] c2] t2].
    + destruct A2 as (-> & H2 & L2). split_and!; [done|by rewrite H2, H1, app_assoc|done].
    + rewrite H1 in A2. rewrite !zlen_app in *. lia.
  - rewrite zlen_app. pose proof (zlen_nonneg l2). lia.
Qed.

Section Buffer.
Context (Hmem : mem HEADER_BUFFER = true).

Lemma capture_appends e data : e = HeaderField data \/ e = HeaderValue data -> appends [e] data.
Proof.
  intros He c t Hw Hl. assert (callback mem e c t = tg_http_capture mem data c t /\ go_on head e = 0) as [E G0] by (by destruct He as [-> | ->]).
  cbn [callbacks]. rewrite E, G0. unfold tg_http_capture. rewrite Hw, Hmem. cbn [negb]. rewrite andb_false_r. fold (held c).
  destruct (HEADER_BUFFER - 1 - zlen (held c) <? zlen data) eqn:G; bprop; cbn; [lia|]. split_and!; try done. rewrite zlen_app. lia.
Qed.
Lemma end_appends e : e = HeaderFieldComplete \/ e = HeaderValueComplete -> appends [e] [0].
Proof.
  intros He c t Hw Hl. assert (callback mem e c t = tg_http_header_end mem c t /\ go_on head e = 0) as [E G0] by (by destruct He as [-> | ->]).
  cbn [callbacks]. rewrite E, G0. unfold tg_http_header_end. rewrite Hw, Hmem. cbn [negb]. rewrite andb_false_r. fold (held c).
  destruct (HEADER_BUFFER - 1 <=? zlen (held c)) eqn:G; bprop; cbn; [unfold zlen in *; cbn; lia|]. split_and!; try done.
  rewrite zlen_app. unfold zlen in *. cbn. lia.
Qed.
Lemma pieces_append (mk : list Z -> http_event) l :
  (forall data, mk data = HeaderField data \/ mk data = HeaderValue data) -> appends (map mk l) (concat l).
Proof.
  intros Hmk. induction l as [|x l IH]; [apply appends_nil|]. cbn [map concat]. apply (appends_app [mk x]); [|done]. by apply capture_appends.
Qed.
Lemma field_appends f : appends (field_events f) (name_of f ++ [0] ++ value_of f ++ [0]).
Proof.
  unfold field_events. repeat apply appends_app; try (apply pieces_append; auto); apply end_appends; auto.
Qed.
Lemma fields_append fs : appends (fields_events fs) (wire fs).
Proof.
  unfold wire, fields_events. induction fs as [|f fs IH]; [apply appends_nil|]. cbn [map concat]. apply appends_app; [apply field_appends|done].
Qed.
End Buffer.

(** Without memory for the buffer the first callback of a field refuses. *)
Lemma fields_nomem f fs c t :
  mem HEADER_BUFFER = false -> headers c = None -> wants capture_headers t = true -> callbacks (fields_events (f :: fs)) c t = (false, c, t).
Proof.
  intros Hm Hc Hw. unfold fields_events, field_events. cbn [map concat]. destruct (f_name f) as [|x l]; cbn [map app callbacks callback go_on].
  - unfold tg_http_header_end. by rewrite Hw, Hc, Hm.
  - unfold tg_http_capture. by rewrite Hw, Hc, Hm.
Qed.

(** The state between two messages of a connection. *)
Definition between (c : parser_ctx) : Prop := held c = [] /\ (mem HEADER_BUFFER = false -> headers c = None).

Lemma fields_phase fs c t : between c ->
  let '(ok, c1, t1) := callbacks (fields_events fs) c t in
  t1 = t /\ with_headers None c1 = with_headers None c /\ (ok = true <-> (wants capture_headers t = true -> fits fs)) /\
  (ok = true -> held c1 = (if wants capture_headers t then wire fs else []) /\ (mem HEADER_BUFFER = false -> headers c1 = None)).
Proof.
  intros [Hc Hn]. pose proof (headers_only _ (fields_are_headers fs) c t) as K. destruct (wants capture_headers t) eqn:Hw.
  2: { destruct (callbacks _ c t) as [[ok c1] t1]. destruct K as (-> & K1 & K2). destruct (K2 eq_refl) as [-> ->]. by split_and!. }
  destruct (mem HEADER_BUFFER) eqn:Hm.
  - pose proof (fields_append Hm fs c t Hw) as A. rewrite Hc in A. specialize (A ltac:(done)). destruct (callbacks _ c t) as [[ok c1] t1].
    destruct K as (-> & K1 & _). split_and!; try done.
    + destruct ok.
      * destruct A as (_ & A & L). rewrite A in L. split; [|done]. intros _ _. by right.
      * split; [done|]. intros B. change (zlen (@nil Z)) with 0 in A. destruct (B eq_refl) as [->|[_ B1]]; [done|lia].
    + intros ->. by destruct A as (_ & -> & _).
  - destruct fs as [|f fs]; [|rewrite (fields_nomem f fs c t Hm (Hn eq_refl) Hw) in *].
    + cbn in *. split_and!; try done. split; [|done]. intros _ _. by left.
    + split_and!; try done. split; [done|]. intros B. destruct (B eq_refl) as [|[? _]]; congruence.
Qed.

(** ** The scan *)

Lemma cstr_until a l : Forall (fun c => c <> 0) a -> cstr (a ++ 0 :: l) = a.
Proof. induction 1 as [|c a Hc F IH]; [done|]. cbn. apply Z.eqb_neq in Hc. by rewrite Hc, IH. Qed.
Lemma drop_until (a l : list Z) x : drop (S (length a)) (a ++ x :: l) = l.
Proof. rewrite app_cons_split. replace (S (length a)) with (length (a ++ [x])) by (rewrite length_app; cbn; lia). apply drop_app_length. Qed.

Definition to_value (v : list Z) : option tg_value := if TG_VALUE_CAP <=? zlen v then None else Some (mk_value TG_VALUE_STRING v).

Lemma find_header_exact fs name : Forall field_ok fs -> forall fuel index,
  (length fs <= fuel)%nat -> 0 <= index ->
  find_header fuel (wire fs) name index = match named name fs !! Z.to_nat index with Some v => to_value v | None => None end.
Proof.
  induction 1 as [|f fs [Hn Hv] F IH]; intros fuel index Hf Hi.
  - unfold wire. cbn. by destruct fuel.
  - destruct fuel as [|k]; [cbn in Hf; lia|]. cbn [length] in Hf.
    assert (wire (f :: fs) = name_of f ++ 0 :: value_of f ++ 0 :: wire fs) as -> by (unfold wire; cbn [map concat]; by rewrite <- !app_assoc).
    set (l := name_of f ++ _). assert (exists x r, l = x :: r) as (x & r & El) by (subst l; destruct (name_of f); eauto).
    cbn [find_header]. rewrite El. rewrite <- El. subst l. rewrite cstr_until by done.
    rewrite zlen_app, zlen_cons. pose proof (zlen_nonneg (value_of f ++ 0 :: wire fs)). rewrite drop_until, cstr_until, drop_until by done.
    destruct (_ <? _) eqn:G; bprop; [lia|]. unfold named. cbn [List.filter].
    destruct (strcasecmp_eq (name_of f) name) eqn:Es; [|apply IH; lia]. cbn [map].
    destruct (index =? 0) eqn:Ei; bprop; [by subst|]. rewrite IH by lia.
    replace (Z.to_nat index) with (S (Z.to_nat (index - 1))) by lia. done.
Qed.

Lemma wire_long fs : (length fs <= length (wire fs))%nat.
Proof. unfold wire. induction fs as [|f fs IH]; [done|]. cbn [map concat length]. rewrite !length_app. cbn [length]. lia. Qed.

Lemma export_header (c : parser_ctx) (t : txn) name index :
  proto_ctx t = Some c -> message_complete c = true ->
  fst (tg_http_export mem finite t (text "header") name index) = find_header (length (held c)) (held c) name index.
Proof.
  intros Hp Hm. unfold tg_http_export. rewrite Hp, Hm. cbn [negb]. rewrite bool_decide_false by done.
  rewrite bool_decide_true by done. unfold held. destruct (headers c) as [h|]; cbn; [done|]. by rewrite bool_decide_false.
Qed.


(** ** The body *)

Definition kept (c : parser_ctx) : list Z := default [] (body c).
Definition fits_body (pieces : list (list Z)) : Prop := pieces = [] \/ mem (BODY_LIMIT + 1) = true /\ zlen (concat pieces) <= BODY_LIMIT.

Lemma body_pieces pieces : forall (c : parser_ctx) (t : txn), mem (BODY_LIMIT + 1) = true ->
  body_received c + zlen (concat pieces) <= UINT64_MAX -> zlen (kept c) <= BODY_LIMIT ->
  let '(ok, c1, t1) := callbacks (map Body pieces) c t in
  t1 = t /\ headers c1 = headers c /\ message_complete c1 = message_complete c /\ status c1 = status c /\ json c1 = json c /\
  if ok then kept c1 = kept c ++ (if wants capture_json t then concat pieces else []) /\ zlen (kept c1) <= BODY_LIMIT
  else wants capture_json t = true /\ BODY_LIMIT < zlen (kept c) + zlen (concat pieces).
Proof.
  induction pieces as [|x l IH]; intros c t Hm Hr Hk; cbn [map concat callbacks callback] in *.
  { split_and!; try done. destruct (wants _ _); by rewrite app_nil_r. }
  rewrite zlen_app in Hr. pose proof (zlen_nonneg (concat l)). pose proof (zlen_nonneg x). unfold tg_http_on_body at 1. cbn [go_on].
  destruct (UINT64_MAX - body_received c <? zlen x) eqn:E; bprop; [lia|]. destruct (wants capture_json t) eqn:W.
  - fold (kept c). destruct (BODY_LIMIT - zlen (kept c) <? zlen x) eqn:G; bprop; [cbn; split_and!; try done; rewrite zlen_app; lia|].
    rewrite Hm, andb_false_r. cbn [negb]. cbn [Z.eqb].
    match goal with |- context [callbacks _ ?c0 t] => specialize (IH c0 t Hm) end. cbn in IH. rewrite zlen_app, W in IH.
    specialize (IH ltac:(lia) ltac:(lia)). destruct (callbacks _ _ t) as [[ok c1] t1]. destruct IH as (-> & ? & ? & ? & ? & IH).
    split_and!; try done. destruct ok.
    + destruct IH as [Hk1 ?]. split; [|done]. unfold kept in Hk1 |- *. cbn in Hk1. by rewrite Hk1, app_assoc.
    + destruct IH as [_ ?]. split; [done|]. rewrite zlen_app. unfold kept in *. cbn in *. lia.
  - cbn [Z.eqb]. match goal with |- context [callbacks _ ?c0 t] => specialize (IH c0 t Hm) end. cbn in IH. rewrite W in IH.
    specialize (IH ltac:(lia) Hk). destruct (callbacks _ _ t) as [[ok c1] t1]. destruct IH as (-> & ? & ? & ? & ? & IH).
    split_and!; try done. destruct ok; [done|]. by destruct IH.
Qed.

Lemma body_phase pieces (c : parser_ctx) (t : txn) : body c = None -> body_received c = 0 -> zlen (concat pieces) <= UINT64_MAX ->
  let '(ok, c1, t1) := callbacks (map Body pieces) c t in
  t1 = t /\ message_complete c1 = message_complete c /\ (ok = true <-> (wants capture_json t = true -> fits_body pieces)) /\
  (ok = true -> headers c1 = headers c /\ status c1 = status c /\ json c1 = json c /\ kept c1 = if wants capture_json t then concat pieces else []).
Proof.
  intros Hb Hr Hl. assert (kept c = []) as Hk by (unfold kept; by rewrite Hb). destruct (mem (BODY_LIMIT + 1)) eqn:Hm.
  - pose proof (body_pieces pieces c t Hm ltac:(lia) ltac:(by rewrite Hk)) as B. destruct (callbacks _ c t) as [[ok c1] t1].
    destruct B as (-> & Hh & Hmc & Hs & Hj & B). rewrite Hk in B. split_and!; try done.
    + destruct ok; [|destruct B as [W B]].
      * split; [|done]. intros _ W. rewrite W in B. destruct B as [B L]. rewrite B in L. by right.
      * split; [done|]. intros F. change (zlen (@nil Z)) with 0 in B. destruct (F W) as [->|[_ F1]]; [done|lia].
    + intros ->. by destruct B as [-> _].
  - destruct (wants capture_json t) eqn:W.
    + destruct pieces as [|x l]; [cbn; split_and!; try done; split; [|done]; intros _ _; by left|].
      cbn [map callbacks callback]. unfold tg_http_on_body. rewrite Hr, W, Hb, Hm. cbn [go_on is_Some negb andb default].
      rewrite bool_decide_false by (by intros [? ?]). destruct (_ <? _); [|destruct (_ <? _)]; cbn;
        (split_and!; try done; (split; [done|]); intros F; destruct (F eq_refl) as [|[? _]]; congruence).
    + enough (forall pieces c, body_received c + zlen (concat pieces) <= UINT64_MAX ->
        let '(ok, c1, t1) := callbacks (map Body pieces) c t in ok = true /\ t1 = t /\ message_complete c1 = message_complete c /\
          headers c1 = headers c /\ status c1 = status c /\ json c1 = json c /\ body c1 = body c) as K.
      { specialize (K pieces c ltac:(lia)). destruct (callbacks _ c t) as [[ok c1] t1]. destruct K as (-> & -> & ? & ? & ? & ? & Hb1).
        split_and!; try done. intros _. split_and!; try done. unfold kept. by rewrite Hb1, Hb. }
      clear - W. induction pieces as [|x l IH]; intros c Hl; cbn [map concat callbacks callback] in *; [done|].
      rewrite zlen_app in Hl. pose proof (zlen_nonneg (concat l)). unfold tg_http_on_body at 1. rewrite W. cbn [go_on].
      destruct (_ <? _) eqn:E; bprop; [lia|]. cbn [Z.eqb]. match goal with |- context [callbacks _ ?c0 t] => specialize (IH c0) end. cbn in IH.
      specialize (IH ltac:(lia)). by destruct (callbacks _ _ t) as [[ok c1] t1].
Qed.

Lemma document_empty : tg_document_parse finite mem [] = None.
Proof.
  unfold tg_document_parse. cbn [tokenize]. change (jsmn_parse 128 []) with (inr [] : jsmnerr + list jsmntok).
  change (33554432 <? zlen (@nil Z)) with false. cbn [orb existsb]. destruct (mem (zlen [] + 1)); [|done]. cbn [negb].
  by destruct (mem (128 * TOKEN_SIZE)).
Qed.


(** ** A whole response *)

(** The head of a message; a final response over HTTP/1.0 or 1.1, after any
    number of informational ones, in the pieces the parser saw. *)
Record message := mk_message { m_major : Z; m_minor : Z; m_code : Z; m_fields : list field }.
Record response := mk_response { r_info : list (message * bool); r_final : message; r_body : list (list Z); r_keep : bool }.

Definition head_events (m : message) : list http_event :=
  MessageBegin :: fields_events (m_fields m) ++ [HeadersComplete (m_major m) (m_minor m) (m_code m)].
Definition info_events (i : message * bool) : list http_event := head_events (fst i) ++ [MessageComplete (snd i)].
Definition early_events (r : response) : list http_event := concat (map info_events (r_info r)) ++ head_events (r_final r) ++ map Body (r_body r).
Definition response_events (r : response) : list http_event := early_events r ++ [MessageComplete (r_keep r)].

Definition informational (m : message) : Prop := 100 <= m_code m < 200.

(** What llhttp delivers: 1xx codes before the final one, header fields
    without NUL, no body in answer to HEAD. *)
Record response_ok (r : response) : Prop := {
  ro_info : Forall (fun i => informational (fst i)) (r_info r);
  ro_code : 200 <= m_code (r_final r);
  ro_fields : Forall field_ok (m_fields (r_final r));
  ro_body : zlen (concat (r_body r)) <= UINT64_MAX;
  ro_head : head = true -> r_body r = []
}.

(** What the plugin takes. *)
Definition head_ok (g : tg_http_config) (m : message) : Prop :=
  (capture_headers g = true -> fits (m_fields m)) /\ m_major m = 1 /\ (m_minor m = 0 \/ m_minor m = 1) /\ m_code m <> 101.
Definition status_ok (g : tg_http_config) (m : message) : Prop := accept_any_status g = true \/ 200 <= m_code m < 300.
Definition takes (g : tg_http_config) (r : response) : Prop :=
  Forall (fun i => head_ok g (fst i)) (r_info r) /\ head_ok g (r_final r) /\ status_ok g (r_final r) /\
  (capture_json g = true -> fits_body (r_body r)).

(** What an export of the response must give. *)
Definition exported (g : tg_http_config) (r : response) (source path : list Z) (index : Z) : option tg_value :=
  if bool_decide (source = text "status") then Some (mk_value TG_VALUE_NUMBER (print_size (m_code (r_final r))))
  else if bool_decide (source = text "header") then
    if capture_headers g then match named path (m_fields (r_final r)) !! Z.to_nat index with Some v => to_value v | None => None end else None
  else if bool_decide (source = text "json") then
    if capture_json g then
      match tg_document_parse finite mem (concat (r_body r)) with
      | Some d => match tg_json_pointer d path with Some i => tg_value_read finite d i | None => None end
      | None => None
      end
    else None
  else None.

(** Everything of the context but the headers and the status. *)
Definition rest_of (c : parser_ctx) : parser_ctx := with_headers None (with_status 0 c).

Lemma rest_fields c c1 : rest_of c1 = rest_of c ->
  message_complete c1 = message_complete c /\ body c1 = body c /\ json c1 = json c /\ body_received c1 = body_received c.
Proof. unfold rest_of. destruct c, c1. by intros [= -> -> -> -> -> ->]. Qed.

Section Message.
Context (g : tg_http_config).

Lemma head_phase m c t :
  class_config t = Some g -> head_of t = head -> between c -> message_complete c = false -> 100 <= m_code m ->
  let '(ok, c1, t1) := callbacks (head_events m) c t in
  rest_of c1 = rest_of c /\ class_config t1 = class_config t /\
  (ok = true <-> head_ok g m /\ (informational m \/ status_ok g m)) /\
  (ok = true -> t1 = t /\ status c1 = m_code m /\ held c1 = (if capture_headers g then wire (m_fields m) else []) /\
     (mem HEADER_BUFFER = false -> headers c1 = None)) /\
  (head_ok g m -> ok = false -> error_reason t1 = TG_ERROR_HTTP_STATUS).
Proof.
  intros Hg Hh Hb Hm Hc. unfold head_events. cbn [callbacks callback]. unfold tg_http_on_message_begin. rewrite Hm. cbn [go_on Z.eqb].
  rewrite callbacks_app. pose proof (fields_phase (m_fields m) c t Hb) as A. unfold wants in A. rewrite Hg in A.
  destruct (callbacks (fields_events _) c t) as [[ok c1] t1]. destruct A as (-> & R1 & O1 & H1).
  assert (rest_of c1 = rest_of c) as Hr.
  { unfold rest_of. destruct c, c1. unfold with_headers, with_status in *. cbn in *. congruence. }
  destruct ok.
  2: { assert (~ (capture_headers g = true -> fits (m_fields m))) as Hn by (intros F; by apply O1 in F).
       split_and!; try done; unfold head_ok; try tauto. }
  destruct (H1 eq_refl) as [H2 H3]. pose proof (proj1 O1 eq_refl) as F. cbn [callbacks callback]. unfold tg_http_on_headers_complete.
  assert (rest_of (with_status (m_code m) c1) = rest_of c) as Hr2 by (rewrite <- Hr; by destruct c1).
  destruct (negb (m_major m =? 1) || _) eqn:Ev; bprop.
  { rewrite go_on_ne. unfold head_ok. split_and!; try done; try (intros; lia). }
  cbv zeta. destruct (Z.eqb_spec (m_code m) 101) as [E1|N1].
  { rewrite go_on_ne. unfold head_ok. split_and!; try done; try (intros; tauto). split; [done|]. intros [(_ & _ & _ & ?) _]. done. }
  destruct ((100 <=? m_code m) && (m_code m <? 200)) eqn:Ei; bprop.
  { cbn [go_on]. rewrite (proj2 (Z.leb_le _ _)), (proj2 (Z.ltb_lt _ _)) by lia. cbn [andb negb]. rewrite andb_false_r. cbn. split_and!; try done. split; [|done]. intros _. split; [split_and!; try done; lia|]. left. unfold informational. lia. }
  unfold wants at 1. rewrite Hg. destruct (negb (accept_any_status g) && ((m_code m <? 200) || (300 <=? m_code m))) eqn:Es.
  - rewrite go_on_ne. assert (~ status_ok g m) as Hns by (unfold status_ok; bprop; intros [E|E]; [congruence|lia]).
    split_and!; try done. split; [done|]. intros [_ [Hi|?]]; [unfold informational in Hi; lia|done].
  - cbn [go_on]. assert (((100 <=? m_code m) && (m_code m <? 200)) = false) as -> by lia. cbn [negb]. rewrite andb_true_r.
    unfold head_of in Hh. rewrite Hh, Z.eqb_refl. cbn. assert (status_ok g m) as Hs by (unfold status_ok; destruct (accept_any_status g); [by left|right; bprop; lia]).
    split_and!; try done. split; [|done]. intros _. split; [split_and!; try done; lia|by right].
Qed.

Lemma info_phase l : forall c t,
  class_config t = Some g -> head_of t = head -> between c -> message_complete c = false -> Forall (fun i => informational (fst i)) l ->
  let '(ok, c1, t1) := callbacks (concat (map info_events l)) c t in
  rest_of c1 = rest_of c /\ (ok = true <-> Forall (fun i => head_ok g (fst i)) l) /\ (ok = true -> t1 = t /\ between c1).
Proof.
  induction l as [|[m keep] l IH]; intros c t Hg Hh Hb Hm Hi; cbn [map concat]; [cbn; split_and!; try done; by split|].
  apply Forall_cons in Hi as [Hi F]. cbn [fst] in Hi. rewrite callbacks_app. unfold info_events at 1. cbn [fst snd]. rewrite callbacks_app.
  pose proof (head_phase m c t Hg Hh Hb Hm ltac:(unfold informational in Hi; lia)) as A. destruct (callbacks (head_events m) c t) as [[ok c1] t1].
  destruct A as (R1 & _ & O1 & H1 & _). destruct ok.
  2: { split_and!; try done. rewrite Forall_cons. cbn [fst]. split; [done|]. intros [? _]. apply O1. auto. }
  destruct (H1 eq_refl) as (-> & S1 & H2 & H3). destruct (proj1 O1 eq_refl) as [Ho _]. destruct (rest_fields _ _ R1) as (M1 & _).
  cbn [callbacks callback go_on]. unfold tg_http_on_message_complete. rewrite S1, (proj2 (Z.ltb_lt _ _)) by (unfold informational in Hi; lia). cbn [Z.eqb].
  specialize (IH (with_headers (option_map (fun _ => []) (headers c1)) c1) t Hg Hh).
  destruct (callbacks (concat _) _ t) as [[ok c2] t2]. destruct IH as (R2 & O2 & H4); [|cbn; congruence|done|].
  { split; [unfold held; cbn; by destruct (headers c1)|]. intros N. cbn. by rewrite H3. }
  split_and!.
  - rewrite R2, <- R1. by destruct c1.
  - rewrite O2, Forall_cons. cbn [fst]. tauto.
  - done.
Qed.

Lemma early_phase r c t :
  class_config t = Some g -> head_of t = head -> headers c = None -> message_complete c = false -> json c = None -> body c = None ->
  body_received c = 0 -> response_ok r ->
  let '(ok, c1, t1) := callbacks (early_events r) c t in
  message_complete c1 = false /\ (ok = true <-> takes g r) /\
  (ok = true -> t1 = t /\ status c1 = m_code (r_final r) /\ held c1 = (if capture_headers g then wire (m_fields (r_final r)) else []) /\
     json c1 = None /\ kept c1 = (if capture_json g then concat (r_body r) else [])) /\
  (Forall (fun i => head_ok g (fst i)) (r_info r) -> head_ok g (r_final r) -> ~ status_ok g (r_final r) -> error_reason t1 = TG_ERROR_HTTP_STATUS).
Proof.
  intros Hg Hh Hc Hm Hj Hb Hr [Ri Rc Rf Rb Rh]. unfold early_events, takes. rewrite callbacks_app.
  assert (between c) as Hbt by (split; [unfold held; by rewrite Hc|done]).
  pose proof (info_phase (r_info r) c t Hg Hh Hbt Hm Ri) as A. destruct (callbacks (concat _) c t) as [[ok c1] t1].
  destruct A as (R1 & O1 & H1). destruct (rest_fields _ _ R1) as (M1 & B1 & J1 & V1). destruct ok.
  2: { split_and!; [congruence| |done|intros F; by apply O1 in F]. split; [done|]. intros [F _]. by apply O1 in F. }
  destruct (H1 eq_refl) as [-> Hbt1]. pose proof (proj1 O1 eq_refl) as Fi. rewrite callbacks_app.
  pose proof (head_phase (r_final r) c1 t Hg Hh Hbt1 ltac:(congruence) ltac:(lia)) as A. destruct (callbacks (head_events _) c1 t) as [[ok c2] t2].
  destruct A as (R2 & _ & O2 & H2 & E2). destruct (rest_fields _ _ R2) as (M2 & B2 & J2 & V2).
  assert (~ informational (r_final r)) as Ni by (unfold informational; lia). destruct ok.
  2: { split_and!; [congruence| |done|auto]. split; [done|]. intros (_ & ? & ? & _). apply O2. auto. }
  destruct (H2 eq_refl) as (-> & S2 & D2 & _). destruct (proj1 O2 eq_refl) as [Ho [?|Hs]]; [done|].
  pose proof (body_phase (r_body r) c2 t ltac:(congruence) ltac:(congruence) Rb) as A. unfold wants in A. rewrite Hg in A.
  destruct (callbacks (map Body _) c2 t) as [[ok c3] t3]. destruct A as (-> & M3 & O3 & H3).
  split_and!; [congruence|tauto| |by intros].
  intros ->. destruct (H3 eq_refl) as (D3 & S3 & J3 & K3). split_and!; try congruence. unfold held in *. by rewrite D3.
Qed.

Lemma finished_mono es : forall c t, message_complete c = true -> finished (callbacks es c t) = true.
Proof.
  induction es as [|e es IH]; intros c t Hm; [done|]. cbn [callbacks].
  assert (let '(_, c1, _) := callback mem e c t in message_complete c1 = true) as K.
  { destruct e; cbn [callback]; unfold tg_http_on_message_begin, tg_http_capture, tg_http_header_end, tg_http_on_headers_complete, tg_http_on_body, tg_http_on_message_complete;
      by repeat case_match; simplify_eq. }
  destruct (callback mem e c t) as [[v c1] t1]. destruct (v =? _); [by apply IH|done].
Qed.
End Message.

(** ** The exports *)

Lemma exports_exact g r (c : parser_ctx) (t : txn) :
  class_config t = Some g -> proto_ctx t = Some c -> message_complete c = true -> response_ok r ->
  status c = m_code (r_final r) -> held c = (if capture_headers g then wire (m_fields (r_final r)) else []) ->
  json c = None -> kept c = (if capture_json g then concat (r_body r) else []) ->
  forall source path index, 0 <= index -> fst (tg_http_export mem finite t source path index) = exported g r source path index.
Proof.
  intros Hg Hp Hm Ro Hs Hh Hj Hk source path0 index Hi. unfold exported.
  destruct (bool_decide_reflect (source = text "status")) as [-> |Ns]; [unfold tg_http_export; rewrite Hp, Hm, bool_decide_true by done; cbn; by rewrite Hs|].
  destruct (bool_decide_reflect (source = text "header")) as [-> |Nh].
  { rewrite (export_header c) by done. rewrite Hh. destruct (capture_headers g); [|done].
    apply find_header_exact; [apply Ro|apply wire_long|done]. }
  destruct (bool_decide_reflect (source = text "json")) as [-> |Nj].
  2: { unfold tg_http_export. rewrite Hp, Hm. cbn [negb]. by rewrite (bool_decide_false _ Ns), (bool_decide_false _ Nh), (bool_decide_false _ Nj). }
  unfold tg_http_export. rewrite Hp, Hm, bool_decide_false by done. cbn. rewrite Hj. unfold kept in Hk.
  destruct (body c) as [b|] eqn:Eb; cbn in Hk |- *.
  - subst b. destruct (capture_json g); [by destruct (tg_document_parse _ _ _)|]. by rewrite document_empty.
  - destruct (capture_json g); [|done]. rewrite <- Hk. by rewrite document_empty.
Qed.
End Callbacks.

(** C21: an HTTP transaction over its whole connection.  The chunks the
    transport delivers are given to tg_http_on_rx one after the other; llhttp
    finds in them a response - informational messages, then the final one -
    cut into pieces anyhow, and the last chunk ends it.  The transaction
    completes precisely when every message is HTTP/1.0 or 1.1 and not a 101,
    the final status is 2xx or any is accepted, and what was asked to be
    captured fits: the headers of each message with their terminators in 65535
    bytes, the body in 65536, with the memory for it; otherwise it fails,
    with the reason HTTP_STATUS if only the status is at fault, and nothing is
    truncated.  When it completes, the exports give the status, the value of
    the index-th field of a name (letters compared without case, repeated and
    empty fields kept apart) and the JSON scalar at a pointer, and the
    connection may be used again exactly when both sides keep it. *)
Theorem http_response_exact {P} mem finite (llhttp_init : P) llhttp_execute g r ds t
    (Hg : class_config t = Some g) (head := bool_decide (method g = text "HEAD"))
    (Hr : response_ok head r) (Hm : mem PARSER_SIZE = true)
    (Hd : reads llhttp_execute head llhttp_init ds (response_events r)) :
  let '(res, t1) := rx_all mem llhttp_execute (snd (tg_http_init mem llhttp_init t)) ds in
  (res = TG_PROTO_COMPLETE <-> takes mem g r) /\ (res <> TG_PROTO_COMPLETE -> res = TG_PROTO_FAILED) /\
  (Forall (fun i => head_ok mem g (fst i)) (r_info r) -> head_ok mem g (r_final r) -> ~ status_ok g (r_final r) ->
     error_reason t1 = TG_ERROR_HTTP_STATUS) /\
  (res = TG_PROTO_COMPLETE ->
     connection_reusable t1 = negb (connection_close g) && r_keep r /\ peer_closes t1 = negb (connection_reusable t1) /\
     forall source path index, 0 <= index ->
       fst (tg_http_export mem finite t1 source path index) = exported mem finite g r source path index).
Proof.
  unfold tg_http_init. rewrite Hm. cbn [negb snd]. set (c := mk_hp _ _ _ _ _ _ _ _). set (t0 := with_proto_ctx _ t).
  assert (Hh : head_of t0 = head) by (unfold head_of, wants; cbn; by rewrite Hg).
  pose proof (early_phase mem head g r c t0 Hg Hh eq_refl eq_refl eq_refl eq_refl eq_refl Hr) as E.
  pose proof (rx_callbacks mem head llhttp_execute llhttp_init ds _ Hd c t0 Hh eq_refl eq_refl eq_refl) as R.
  assert (forall es, callbacks mem head (early_events r ++ es) c t0 =
    let '(ok, c1, t1) := callbacks mem head (early_events r) c t0 in if ok then callbacks mem head es c1 t1 else (false, c1, t1)) as Ha by (intros; apply callbacks_app).
  destruct (callbacks mem head (early_events r) c t0) as [[ok c1] t1] eqn:Ec. destruct E as (M & O & H & Er).
  assert (forall es1 es2, response_events r = es1 ++ es2 -> es2 <> [] -> finished (callbacks mem head es1 c t0) = false) as Hf.
  { intros es1 es2 Eq Ne. destruct es2 as [|y es2 _] using rev_ind; [done|]. unfold response_events in Eq. rewrite app_assoc in Eq.
    apply app_inj_tail in Eq as [Eq _]. rewrite Eq, callbacks_app in Ec. destruct (callbacks mem head es1 c t0) as [[ok1 c2] t2]. cbn.
    destruct (message_complete c2) eqn:M2; [|done]. destruct ok1; [|congruence].
    pose proof (finished_mono mem head es2 c2 t2 M2) as Hx. rewrite Ec in Hx. cbn in Hx. congruence. }
  specialize (R Hf). unfold response_events in R. rewrite Ha in R.
  pose proof (rx_class mem llhttp_execute ds t0) as Hcl. cbn [class_config t0 with_proto_ctx] in Hcl.
  destruct (rx_all _ _ _ _) as [res t2]. destruct ok.
  2: { destruct R as [He ->]. split_and!; try done; [|rewrite He; by apply Er]. split; [done|]. intros T. by apply O in T. }
  destruct (H eq_refl) as (-> & S1 & D1 & J1 & K1). pose proof (proj1 O eq_refl) as T.
  cbn [callbacks callback go_on] in R. unfold tg_http_on_message_complete in R. rewrite S1, (proj2 (Z.ltb_ge _ _)) in R by apply Hr.
  cbn [Z.eqb message_complete] in R. destruct R as (He & -> & [q Hq] & Hp & Hu). split_and!; try done.
  - intros F1 F2 F3. rewrite He. by apply Er.
  - intros _. cbn in Hu, Hp. rewrite Hg in Hu, Hp. split; [exact Hu|]. split; [by rewrite Hu|].
    eapply exports_exact; try done. exact (eq_trans Hcl Hg).
Qed.

(** A parser that plays a script: the callbacks of each chunk. *)
Definition script : Type := list (list http_event).
Fixpoint play (head : bool) (es : list http_event) (p : script) : run script :=
  match es with
  | [] => Stop true p
  | e :: es => Call e (fun v => if v =? go_on head e then play head es p else Stop false p)
  end.
Definition script_execute (p : script) (data : list Z) : run script :=
  match p with [] => Stop true [] | es :: p => play false es p end.

Lemma play_runs es p : runs_as false (play false es p) es p.
Proof.
  induction es as [|e es IH]; [constructor|]. cbn [play]. constructor; [by rewrite Z.eqb_refl|]. exists p. by destruct e.
Qed.
Lemma script_reads es ds : length es = length ds -> Forall (fun x => x <> []) es -> es <> [] -> reads script_execute false es ds (concat es).
Proof.
  revert ds. induction es as [|x es IH]; intros ds Hl F Ne; [done|]. destruct ds as [|d ds]; [done|]. apply Forall_cons in F as [Hx F].
  cbn in Hl. injection Hl as Hl. destruct es as [|y es].
  - destruct ds; [|done]. cbn. rewrite app_nil_r. eapply reads_last. apply play_runs.
  - change (concat (x :: y :: es)) with (x ++ concat (y :: es)). eapply reads_more; [apply play_runs| |by apply IH].
    apply Forall_cons in F as [Hy _]. by destruct y.
Qed.

Definition finite0 (_ : list Z) : bool := true.
Definition demo_http : tg_http_config := mk_hcfg (text "GET") (text "/") (text "h") false false true true.
Definition demo_response : response :=
  mk_response [(mk_message 1 1 103 [mk_field [text "Link"] [text "x"]], true)]
    (mk_message 1 1 201 [mk_field [text "X-T"; text "oken"] [text "a"; text "bc"]; mk_field [text "Empty"] []; mk_field [text "x-token"] [text "d"]])
    [text "{"; [34] ++ text "k" ++ [34]; text ": [1, 2]}"] true.
Definition demo_http_txn : tg_txn tg_http_config (tg_http_parser (P := script)) := mk_txn false TG_ERROR_NONE true (Some demo_http) None [] 0 0 false false.
Definition demo_script : script := [take 9 (response_events demo_response); take 4 (drop 9 (response_events demo_response)); drop 13 (response_events demo_response)].
Definition demo_chunks : list (list Z) := [[1]; [2]; [3]].
Local Abbreviation demo_rx := (rx_all (fun _ => true) script_execute (snd (tg_http_init (fun _ => true) demo_script demo_http_txn)) demo_chunks).

Lemma demo_ok : response_ok false demo_response.
Proof. split; cbn; try done; repeat constructor; vm_compute; discriminate. Qed.
Lemma demo_reads : reads script_execute false demo_script demo_chunks (response_events demo_response).
Proof. change (response_events demo_response) with (concat demo_script). apply script_reads; [done| |done]. by repeat constructor. Qed.
Lemma demo_completes : fst demo_rx = TG_PROTO_COMPLETE.
Proof. vm_compute. reflexivity. Qed.

Lemma http_response_exact_witness :
  fst demo_rx = TG_PROTO_COMPLETE /\ takes (fun _ => true) demo_http demo_response /\ connection_reusable (snd demo_rx) = true /\
  fst (tg_http_export (fun _ => true) finite0 (snd demo_rx) (text "header") (text "X-TOKEN") 1) = Some (mk_value TG_VALUE_STRING (text "d")) /\
  fst (tg_http_export (fun _ => true) finite0 (snd demo_rx) (text "json") (text "/k/1") 0) = Some (mk_value TG_VALUE_NUMBER (text "2")) /\
  fst (tg_http_export (fun _ => true) finite0 (snd demo_rx) (text "status") [] 0) = Some (mk_value TG_VALUE_NUMBER (text "201")).
Proof.
  pose proof (http_response_exact (fun _ => true) finite0 demo_script script_execute demo_http demo_response demo_chunks demo_http_txn
    eq_refl demo_ok eq_refl demo_reads) as H.
  pose proof demo_completes as Er.
  destruct (rx_all _ _ _ _) as [res t1]. cbn [fst snd] in *. destruct H as (H1 & _ & _ & H2). destruct (H2 Er) as (Hu & _ & Hx).
  split; [exact Er|]. split; [by apply H1|]. split; [rewrite Hu; reflexivity|].
  rewrite !Hx by lia. repeat split; vm_compute; reflexivity.
Defined.
