(* ===== verification/ConnPool.v ===== *)
(** * Flows and the connection pool (traffic-gen/core/flow.h, conn_pool.c)

    A flow is named by its slot in the flow pool; [flows] holds the slots in
    use.  An intrusive list (idle connections, due flows) is the list of its
    members; a class plan is named by its index.  [notes] is the trace of what
    a shard does outside: completion callbacks, sockets created and closed. *)

From stdpp Require Import gmap.
From S2P Require Import Prelude Config Txn.

Definition TG_PLAN_MAX_CLASSES : nat := 16.
Definition NSOCK_INVALID_ID : Z := UINT32_MAX.
Definition IPPROTO_TCP : Z := 6.
Definition IPPROTO_UDP : Z := 17.

(** ** Data *)

Inductive tg_flow_state :=
| TG_FLOW_NEW | TG_FLOW_CONNECTING | TG_FLOW_SENDING | TG_FLOW_RECEIVING | TG_FLOW_IDLE | TG_FLOW_CLOSING | TG_FLOW_DONE
| TG_FLOW_FAILED.
#[global] Instance flow_state_eq_dec : EqDecision tg_flow_state.
Proof. solve_decision. Defined.

Inductive tg_flow_result :=
| TG_FLOW_RESULT_SUCCESS | TG_FLOW_RESULT_CONNECT_FAILURE | TG_FLOW_RESULT_IO_FAILURE | TG_FLOW_RESULT_PROTOCOL_FAILURE
| TG_FLOW_RESULT_RESOURCE_PRESSURE.
#[global] Instance flow_result_eq_dec : EqDecision tg_flow_result.
Proof. solve_decision. Defined.

Record nsock_handle := mk_handle { hid : Z; howner : Z; hgeneration : Z; hprotocol : Z }.
#[global] Instance handle_eq_dec : EqDecision nsock_handle.
Proof. solve_decision. Defined.

(** What a shard does outside itself. *)
Inductive note :=
| Finished (id : nat) (r : tg_flow_result) (reason : tg_error_reason)
| Started (id : nat)
| SocketCreated
| SocketReleased
| SocketClosed (h : nsock_handle).

(** [class_keys] and [idle_lists] have [TG_PLAN_MAX_CLASSES] entries. *)
Record tg_conn_pool := mk_cpool {
  idle_lists : list (list nat);
  class_keys : list (option nat);
  max_connections : Z;
  max_requests : Z;
  connections : Z;
  draining : bool
}.

Definition with_p_idle_lists (v : list (list nat)) (s : tg_conn_pool) : tg_conn_pool :=
  mk_cpool v (class_keys s) (max_connections s) (max_requests s)
   (connections s) (draining s) .
Definition with_p_class_keys (v : list (option nat)) (s : tg_conn_pool) : tg_conn_pool :=
  mk_cpool (idle_lists s) v (max_connections s) (max_requests s)
   (connections s) (draining s) .
Definition with_p_max_connections (v : Z) (s : tg_conn_pool) : tg_conn_pool :=
  mk_cpool (idle_lists s) (class_keys s) v (max_requests s) (connections s)
   (draining s) .
Definition with_p_max_requests (v : Z) (s : tg_conn_pool) : tg_conn_pool :=
  mk_cpool (idle_lists s) (class_keys s) (max_connections s) v
   (connections s) (draining s) .
Definition with_p_connections (v : Z) (s : tg_conn_pool) : tg_conn_pool :=
  mk_cpool (idle_lists s) (class_keys s) (max_connections s)
   (max_requests s) v (draining s) .
Definition with_p_draining (v : bool) (s : tg_conn_pool) : tg_conn_pool :=
  mk_cpool (idle_lists s) (class_keys s) (max_connections s)
   (max_requests s) (connections s) v.

Section ConnPool.
Context {Cfg Ctx : Type}.

(** [timer] is the deadline of the armed owner timer, [in_conn_pool] is
    [conn_pool != NULL], [on_finish] whether an observer is set; the prefix
    holds [response_prefix_len] bytes. *)
Record tg_flow := mk_flow {
  timer : option Z;
  expire_queued : bool;
  handle : nsock_handle;
  state : tg_flow_state;
  txn : tg_txn Cfg Ctx;
  peer : Z * Z;
  reuse_host : list Z;
  class_plan : option nat;
  in_conn_pool : bool;
  mapped : bool;
  in_idle_pool : bool;
  completion_notified : bool;
  on_finish : bool;
  requests_started : Z;
  start_cycles : Z;
  connected_cycles : Z;
  first_rx_cycles : Z;
  deadline_cycles : Z;
  idle_since_cycles : Z;
  response_prefix : list Z
}.

Definition with_f_timer (v : option Z) (s : tg_flow) : tg_flow :=
  mk_flow v (expire_queued s) (handle s) (state s) (txn s) (peer s)
   (reuse_host s) (class_plan s) (in_conn_pool s) (mapped s)
   (in_idle_pool s) (completion_notified s) (on_finish s)
   (requests_started s) (start_cycles s) (connected_cycles s)
   (first_rx_cycles s) (deadline_cycles s) (idle_since_cycles s)
   (response_prefix s) .
Definition with_f_expire_queued (v : bool) (s : tg_flow) : tg_flow :=
  mk_flow (timer s) v (handle s) (state s) (txn s) (peer s) (reuse_host s)
   (class_plan s) (in_conn_pool s) (mapped s) (in_idle_pool s)
   (completion_notified s) (on_finish s) (requests_started s)
   (start_cycles s) (connected_cycles s) (first_rx_cycles s)
   (deadline_cycles s) (idle_since_cycles s) (response_prefix s) .
Definition with_f_handle (v : nsock_handle) (s : tg_flow) : tg_flow :=
  mk_flow (timer s) (expire_queued s) v (state s) (txn s) (peer s)
   (reuse_host s) (class_plan s) (in_conn_pool s) (mapped s)
   (in_idle_pool s) (completion_notified s) (on_finish s)
   (requests_started s) (start_cycles s) (connected_cycles s)
   (first_rx_cycles s) (deadline_cycles s) (idle_since_cycles s)
   (response_prefix s) .
Definition with_f_state (v : tg_flow_state) (s : tg_flow) : tg_flow :=
  mk_flow (timer s) (expire_queued s) (handle s) v (txn s) (peer s)
   (reuse_host s) (class_plan s) (in_conn_pool s) (mapped s)
   (in_idle_pool s) (completion_notified s) (on_finish s)
   (requests_started s) (start_cycles s) (connected_cycles s)
   (first_rx_cycles s) (deadline_cycles s) (idle_since_cycles s)
   (response_prefix s) .
Definition with_f_txn (v : tg_txn Cfg Ctx) (s : tg_flow) : tg_flow :=
  mk_flow (timer s) (expire_queued s) (handle s) (state s) v (peer s)
   (reuse_host s) (class_plan s) (in_conn_pool s) (mapped s)
   (in_idle_pool s) (completion_notified s) (on_finish s)
   (requests_started s) (start_cycles s) (connected_cycles s)
   (first_rx_cycles s) (deadline_cycles s) (idle_since_cycles s)
   (response_prefix s) .
Definition with_f_peer (v : Z * Z) (s : tg_flow) : tg_flow :=
  mk_flow (timer s) (expire_queued s) (handle s) (state s) (txn s) v
   (reuse_host s) (class_plan s) (in_conn_pool s) (mapped s)
   (in_idle_pool s) (completion_notified s) (on_finish s)
   (requests_started s) (start_cycles s) (connected_cycles s)
   (first_rx_cycles s) (deadline_cycles s) (idle_since_cycles s)
   (response_prefix s) .
Definition with_f_reuse_host (v : list Z) (s : tg_flow) : tg_flow :=
  mk_flow (timer s) (expire_queued s) (handle s) (state s) (txn s) (peer s)
   v (class_plan s) (in_conn_pool s) (mapped s) (in_idle_pool s)
   (completion_notified s) (on_finish s) (requests_started s)
   (start_cycles s) (connected_cycles s) (first_rx_cycles s)
   (deadline_cycles s) (idle_since_cycles s) (response_prefix s) .
Definition with_f_class_plan (v : option nat) (s : tg_flow) : tg_flow :=
  mk_flow (timer s) (expire_queued s) (handle s) (state s) (txn s) (peer s)
   (reuse_host s) v (in_conn_pool s) (mapped s) (in_idle_pool s)
   (completion_notified s) (on_finish s) (requests_started s)
   (start_cycles s) (connected_cycles s) (first_rx_cycles s)
   (deadline_cycles s) (idle_since_cycles s) (response_prefix s) .
Definition with_f_in_conn_pool (v : bool) (s : tg_flow) : tg_flow :=
  mk_flow (timer s) (expire_queued s) (handle s) (state s) (txn s) (peer s)
   (reuse_host s) (class_plan s) v (mapped s) (in_idle_pool s)
   (completion_notified s) (on_finish s) (requests_started s)
   (start_cycles s) (connected_cycles s) (first_rx_cycles s)
   (deadline_cycles s) (idle_since_cycles s) (response_prefix s) .
Definition with_f_mapped (v : bool) (s : tg_flow) : tg_flow :=
  mk_flow (timer s) (expire_queued s) (handle s) (state s) (txn s) (peer s)
   (reuse_host s) (class_plan s) (in_conn_pool s) v (in_idle_pool s)
   (completion_notified s) (on_finish s) (requests_started s)
   (start_cycles s) (connected_cycles s) (first_rx_cycles s)
   (deadline_cycles s) (idle_since_cycles s) (response_prefix s) .
Definition with_f_in_idle_pool (v : bool) (s : tg_flow) : tg_flow :=
  mk_flow (timer s) (expire_queued s) (handle s) (state s) (txn s) (peer s)
   (reuse_host s) (class_plan s) (in_conn_pool s) (mapped s) v
   (completion_notified s) (on_finish s) (requests_started s)
   (start_cycles s) (connected_cycles s) (first_rx_cycles s)
   (deadline_cycles s) (idle_since_cycles s) (response_prefix s) .
Definition with_f_completion_notified (v : bool) (s : tg_flow) : tg_flow :=
  mk_flow (timer s) (expire_queued s) (handle s) (state s) (txn s) (peer s)
   (reuse_host s) (class_plan s) (in_conn_pool s) (mapped s)
   (in_idle_pool s) v (on_finish s) (requests_started s) (start_cycles s)
   (connected_cycles s) (first_rx_cycles s) (deadline_cycles s)
   (idle_since_cycles s) (response_prefix s) .
Definition with_f_on_finish (v : bool) (s : tg_flow) : tg_flow :=
  mk_flow (timer s) (expire_queued s) (handle s) (state s) (txn s) (peer s)
   (reuse_host s) (class_plan s) (in_conn_pool s) (mapped s)
   (in_idle_pool s) (completion_notified s) v (requests_started s)
   (start_cycles s) (connected_cycles s) (first_rx_cycles s)
   (deadline_cycles s) (idle_since_cycles s) (response_prefix s) .
Definition with_f_requests_started (v : Z) (s : tg_flow) : tg_flow :=
  mk_flow (timer s) (expire_queued s) (handle s) (state s) (txn s) (peer s)
   (reuse_host s) (class_plan s) (in_conn_pool s) (mapped s)
   (in_idle_pool s) (completion_notified s) (on_finish s) v (start_cycles s)
   (connected_cycles s) (first_rx_cycles s) (deadline_cycles s)
   (idle_since_cycles s) (response_prefix s) .
Definition with_f_start_cycles (v : Z) (s : tg_flow) : tg_flow :=
  mk_flow (timer s) (expire_queued s) (handle s) (state s) (txn s) (peer s)
   (reuse_host s) (class_plan s) (in_conn_pool s) (mapped s)
   (in_idle_pool s) (completion_notified s) (on_finish s)
   (requests_started s) v (connected_cycles s) (first_rx_cycles s)
   (deadline_cycles s) (idle_since_cycles s) (response_prefix s) .
Definition with_f_connected_cycles (v : Z) (s : tg_flow) : tg_flow :=
  mk_flow (timer s) (expire_queued s) (handle s) (state s) (txn s) (peer s)
   (reuse_host s) (class_plan s) (in_conn_pool s) (mapped s)
   (in_idle_pool s) (completion_notified s) (on_finish s)
   (requests_started s) (start_cycles s) v (first_rx_cycles s)
   (deadline_cycles s) (idle_since_cycles s) (response_prefix s) .
Definition with_f_first_rx_cycles (v : Z) (s : tg_flow) : tg_flow :=
  mk_flow (timer s) (expire_queued s) (handle s) (state s) (txn s) (peer s)
   (reuse_host s) (class_plan s) (in_conn_pool s) (mapped s)
   (in_idle_pool s) (completion_notified s) (on_finish s)
   (requests_started s) (start_cycles s) (connected_cycles s) v
   (deadline_cycles s) (idle_since_cycles s) (response_prefix s) .
Definition with_f_deadline_cycles (v : Z) (s : tg_flow) : tg_flow :=
  mk_flow (timer s) (expire_queued s) (handle s) (state s) (txn s) (peer s)
   (reuse_host s) (class_plan s) (in_conn_pool s) (mapped s)
   (in_idle_pool s) (completion_notified s) (on_finish s)
   (requests_started s) (start_cycles s) (connected_cycles s)
   (first_rx_cycles s) v (idle_since_cycles s) (response_prefix s) .
Definition with_f_idle_since_cycles (v : Z) (s : tg_flow) : tg_flow :=
  mk_flow (timer s) (expire_queued s) (handle s) (state s) (txn s) (peer s)
   (reuse_host s) (class_plan s) (in_conn_pool s) (mapped s)
   (in_idle_pool s) (completion_notified s) (on_finish s)
   (requests_started s) (start_cycles s) (connected_cycles s)
   (first_rx_cycles s) (deadline_cycles s) v (response_prefix s) .
Definition with_f_response_prefix (v : list Z) (s : tg_flow) : tg_flow :=
  mk_flow (timer s) (expire_queued s) (handle s) (state s) (txn s) (peer s)
   (reuse_host s) (class_plan s) (in_conn_pool s) (mapped s)
   (in_idle_pool s) (completion_notified s) (on_finish s)
   (requests_started s) (start_cycles s) (connected_cycles s)
   (first_rx_cycles s) (deadline_cycles s) (idle_since_cycles s) v.

(** ** A shard's flows, its socket map and its pools *)

Record shard := mk_shard {
  flows : gmap nat tg_flow;
  by_socket_id : gmap Z nat;
  map_capacity : Z;
  owner_lcore : Z;
  expired : list nat;
  conn_pool : tg_conn_pool;
  txn_resources : resource_metric;
  notes : list note
}.

Definition with_s_flows (v : gmap nat tg_flow) (s : shard) : shard :=
  mk_shard v (by_socket_id s) (map_capacity s) (owner_lcore s) (expired s)
   (conn_pool s) (txn_resources s) (notes s) .
Definition with_s_by_socket_id (v : gmap Z nat) (s : shard) : shard :=
  mk_shard (flows s) v (map_capacity s) (owner_lcore s) (expired s)
   (conn_pool s) (txn_resources s) (notes s) .
Definition with_s_map_capacity (v : Z) (s : shard) : shard :=
  mk_shard (flows s) (by_socket_id s) v (owner_lcore s) (expired s)
   (conn_pool s) (txn_resources s) (notes s) .
Definition with_s_owner_lcore (v : Z) (s : shard) : shard :=
  mk_shard (flows s) (by_socket_id s) (map_capacity s) v (expired s)
   (conn_pool s) (txn_resources s) (notes s) .
Definition with_s_expired (v : list nat) (s : shard) : shard :=
  mk_shard (flows s) (by_socket_id s) (map_capacity s) (owner_lcore s) v
   (conn_pool s) (txn_resources s) (notes s) .
Definition with_s_conn_pool (v : tg_conn_pool) (s : shard) : shard :=
  mk_shard (flows s) (by_socket_id s) (map_capacity s) (owner_lcore s)
   (expired s) v (txn_resources s) (notes s) .
Definition with_s_txn_resources (v : resource_metric) (s : shard) : shard :=
  mk_shard (flows s) (by_socket_id s) (map_capacity s) (owner_lcore s)
   (expired s) (conn_pool s) v (notes s) .
Definition with_s_notes (v : list note) (s : shard) : shard :=
  mk_shard (flows s) (by_socket_id s) (map_capacity s) (owner_lcore s)
   (expired s) (conn_pool s) (txn_resources s) v.

Definition note_of (n : note) (s : shard) : shard := with_s_notes (notes s ++ [n]) s.
Definition update (id : nat) (g : tg_flow -> tg_flow) (s : shard) : shard := with_s_flows (alter g id (flows s)) s.

(** ** The pool of idle connections *)

Definition tg_conn_pool_init (max : Z) : option tg_conn_pool :=
  if max =? 0 then None
  else Some (mk_cpool (replicate TG_PLAN_MAX_CLASSES []) (replicate TG_PLAN_MAX_CLASSES None) max 0 0 false).

Definition tg_conn_pool_fini (p : tg_conn_pool) : tg_conn_pool :=
  mk_cpool (replicate TG_PLAN_MAX_CLASSES []) (replicate TG_PLAN_MAX_CLASSES None) 0 0 0 false.

Definition tg_conn_pool_can_create (p : tg_conn_pool) : bool := negb (draining p) && (connections p <? max_connections p).

(** First position whose key satisfies [q]. *)
Fixpoint key_index (q : option nat -> bool) (keys : list (option nat)) : option nat :=
  match keys with
  | [] => None
  | k :: t => if q k then Some 0%nat else S <$> key_index q t
  end.

Definition find_class (c : nat) (p : tg_conn_pool) : option nat :=
  key_index (fun k => bool_decide (k = Some c)) (class_keys p).
Definition tg_conn_pool_class_index (c : nat) (create : bool) (p : tg_conn_pool) : option nat * tg_conn_pool :=
  match find_class c p with
  | Some i => (Some i, p)
  | None =>
      if create then
        match key_index (fun k => bool_decide (k = None)) (class_keys p) with
        | Some i => (Some i, with_p_class_keys (<[i := Some c]> (class_keys p)) p)
        | None => (None, p)
        end
      else (None, p)
  end.

Definition idle_at (i : nat) (p : tg_conn_pool) : list nat := default [] (idle_lists p !! i).
Definition set_idle (i : nat) (l : list nat) (p : tg_conn_pool) : tg_conn_pool := with_p_idle_lists (<[i := l]> (idle_lists p)) p.

Definition tg_conn_pool_attach (id c : nat) (s : shard) : option errno * shard :=
  if negb (tg_conn_pool_can_create (conn_pool s)) then (Some EAGAIN, s)
  else match flows s !! id with
  | None => (Some EAGAIN, s)
  | Some f =>
      if in_conn_pool f then (Some EALREADY, s)
      else match tg_conn_pool_class_index c true (conn_pool s) with
      | (None, _) => (Some ENOSPC, s)
      | (Some _, p) =>
          (None, with_s_conn_pool (with_p_connections (connections p + 1) p)
             (update id (fun f => with_f_in_conn_pool true (with_f_class_plan (Some c) (with_f_in_idle_pool false f))) s))
      end
  end.

(** The cursor loop takes the flow out of its list if it is there. *)
Definition tg_conn_pool_detach (id : nat) (s : shard) : shard :=
  match flows s !! id with
  | Some f =>
      if negb (in_conn_pool f) then s
      else
        let p := conn_pool s in
        let index := match class_plan f with Some c => find_class c p | None => None end in
        let p1 := match index with
                  | Some i => if in_idle_pool f then set_idle i (filter (fun x => x <> id) (idle_at i p)) p else p
                  | None => p
                  end in
        let p2 := if negb (connections p1 =? 0) then with_p_connections (connections p1 - 1) p1 else p1 in
        let p3 := match index with
                  | Some i => if bool_decide (idle_at i p2 = []) then with_p_class_keys (<[i := None]> (class_keys p2)) p2 else p2
                  | None => p2
                  end in
        with_s_conn_pool p3 (update id (fun f => with_f_in_conn_pool false (with_f_in_idle_pool false f)) s)
  | None => s
  end.

(** The flow at the head of list [i] leaves it. *)
Definition take_head (i : nat) (s : shard) : option nat * shard :=
  match idle_at i (conn_pool s) with
  | [] => (None, s)
  | id :: rest => (Some id, with_s_conn_pool (set_idle i rest (conn_pool s)) (update id (with_f_in_idle_pool false) s))
  end.

Definition tg_conn_pool_take_idle (c : nat) (s : shard) : option nat * shard :=
  if draining (conn_pool s) then (None, s)
  else match find_class c (conn_pool s) with
  | None => (None, s)
  | Some i => take_head i s
  end.

Definition flow_matches (addr : Z * Z) (host : list Z) (f : tg_flow) : bool :=
  bool_decide (peer f = addr) && (hprotocol (handle f) =? IPPROTO_TCP) && bool_decide (cstr (reuse_host f) = cstr host).

Definition tg_conn_pool_take_matching (c : nat) (addr : Z * Z) (host : list Z) (s : shard) : option nat * shard :=
  if draining (conn_pool s) then (None, s)
  else match find_class c (conn_pool s) with
  | None => (None, s)
  | Some i =>
      let l := idle_at i (conn_pool s) in
      match List.find (fun id => from_option (flow_matches addr host) false (flows s !! id)) l with
      | None => (None, s)
      | Some id =>
          (Some id, with_s_conn_pool (set_idle i (filter (fun x => x <> id) l) (conn_pool s))
                      (update id (with_f_in_idle_pool false) s))
      end
  end.

Definition tg_conn_pool_take_any_idle (s : shard) : option nat * shard :=
  match List.find (fun i => negb (bool_decide (idle_at i (conn_pool s) = []))) (seq 0 TG_PLAN_MAX_CLASSES) with
  | None => (None, s)
  | Some i => take_head i s
  end.

Definition tg_conn_pool_put_idle (id : nat) (s : shard) : option errno * shard :=
  match flows s !! id with
  | Some f =>
      match in_conn_pool f, class_plan f with
      | true, Some c =>
          if in_idle_pool f then (Some EINVAL, s)
          else if draining (conn_pool s) then (Some ESHUTDOWN, s)
          else match tg_conn_pool_class_index c true (conn_pool s) with
          | (None, _) => (Some ENOSPC, s)
          | (Some i, p) =>
              (None, with_s_conn_pool (set_idle i (id :: idle_at i p) p) (update id (with_f_in_idle_pool true) s))
          end
      | _, _ => (Some EINVAL, s)
      end
  | None => (Some EINVAL, s)
  end.

Definition tg_conn_pool_begin_drain (s : shard) : shard := with_s_conn_pool (with_p_draining true (conn_pool s)) s.
End ConnPool.

Arguments tg_flow : clear implicits.
Arguments shard : clear implicits.
