(* ===== verification/Nepoll.v ===== *)
(** * Poll sets over readiness snapshots (pro-stack/nepoll.c; the descriptor
    table of pro-stack/socket.c)

    A poller is addressed by its id, which is never reused; [polls] holds the
    pollers that are allocated, [pollers] the list of the open ones.  A
    critical section under [poll_lock] is one function; what other threads do
    between two of them is an argument of nepoll_wait. *)

From stdpp Require Import gmap.
From S2P Require Import Prelude ConnPool.

(** ** The descriptor table of socket.c *)

Definition NSOCK_FD_MAX : Z := 1024.

Record fd_entry := mk_fd {
  fd_nonblock : bool;
  fd_recv_timeout_ns : Z;
  fd_send_timeout_ns : Z;
  readiness : Z;
  fd_handle : nsock_handle
}.

(** An entry that is not [used] is absent. *)
Abbreviation fd_table := (gmap Z fd_entry).

Definition handle_equal (a b : nsock_handle) : bool :=
  (hid a =? hid b) && (hgeneration a =? hgeneration b) && (howner a =? howner b) && (hprotocol a =? hprotocol b).

Definition socket_public_snapshot (fds : fd_table) (fd : Z) : option (nsock_handle * Z) :=
  if (fd <? 0) || (NSOCK_FD_MAX <=? fd) then None
  else (fun e => (fd_handle e, readiness e)) <$> fds !! fd.

(** ** nepoll.h *)

Definition NEPOLL_READ : Z := 1.
Definition NEPOLL_WRITE : Z := 2.
Definition NEPOLL_CONNECTED : Z := 4.
Definition NEPOLL_ERROR : Z := 8.
Definition NEPOLL_HUP : Z := 16.
Definition NEPOLL_ACCEPT : Z := 32.

Definition NEPOLL_CTL_ADD : Z := 1.
Definition NEPOLL_CTL_MOD : Z := 2.
Definition NEPOLL_CTL_DEL : Z := 3.

Record nepoll_event := mk_event { ev_events : Z; ev_fd : Z; ev_data : Z }.

(** ** nepoll.c *)

Record subscription := mk_sub { sub_handle : nsock_handle; interest : Z; sub_data : Z }.

(** A slot that is not [used] is absent. *)
Record poller := mk_poller { p_refs : Z; p_cursor : Z; p_closed : bool; p_slots : gmap Z subscription }.

Record nepoll := mk_nepoll {
  polls : gmap Z poller;
  pollers : list Z;
  next_id : Z;
  public_sequence : Z
}.

Definition with_refs (v : Z) (p : poller) : poller := mk_poller v (p_cursor p) (p_closed p) (p_slots p).
Definition with_slots (v : gmap Z subscription) (p : poller) : poller := mk_poller (p_refs p) (p_cursor p) (p_closed p) v.
Definition with_cursor (v : Z) (p : poller) : poller := mk_poller (p_refs p) v (p_closed p) (p_slots p).
Definition with_polls (v : gmap Z poller) (s : nepoll) : nepoll := mk_nepoll v (pollers s) (next_id s) (public_sequence s).

Definition nepoll_initial : nepoll := mk_nepoll ∅ [] 1 0.

Definition socket_public_notify (s : nepoll) : nepoll :=
  mk_nepoll (polls s) (pollers s) (next_id s) (u32 (public_sequence s + 1)).

Definition find (id : Z) (s : nepoll) : option poller :=
  if bool_decide (id ∈ pollers s) then polls s !! id else None.

Definition INT_MAX : Z := 2147483647.

(** [memory]: calloc succeeds. *)
Definition nepoll_create (memory : bool) (s : nepoll) : (errno + Z) * nepoll :=
  if negb memory then (inl ENOMEM, s)
  else if INT_MAX <? next_id s then (inl EMFILE, s)
  else
    let id := next_id s in
    (inr id, mk_nepoll (<[id := mk_poller 1 0 false ∅]> (polls s)) (id :: pollers s) (u32 (id + 1)) (public_sequence s)).

Definition alter_poller (id : Z) (f : poller -> poller) (s : nepoll) : nepoll := with_polls (alter f id (polls s)) s.

(** [event] is None for a null pointer; its [fd] is ignored. *)
Definition nepoll_ctl (fds : fd_table) (epfd operation fd : Z) (event : option nepoll_event) (s : nepoll)
    : (errno + unit) * nepoll :=
  if (fd <? 0) || (NSOCK_FD_MAX <=? fd) || (operation <? NEPOLL_CTL_ADD) || (NEPOLL_CTL_DEL <? operation)
     || (negb (operation =? NEPOLL_CTL_DEL)
         && match event with None => true | Some e => negb (Z.land (ev_events e) (Z.lnot 63) =? 0) end)
  then (inl EINVAL, s)
  else
    match find epfd s, socket_public_snapshot fds fd with
    | Some p, Some (handle, ready) =>
        let slots := match p_slots p !! fd with
                     | Some sub => if handle_equal (sub_handle sub) handle then p_slots p else delete fd (p_slots p)
                     | None => p_slots p
                     end in
        let used := match slots !! fd with Some _ => true | None => false end in
        let put slots := alter_poller epfd (with_slots slots) s in
        if (operation =? NEPOLL_CTL_ADD) && used then (inl EEXIST, put slots)
        else if negb (operation =? NEPOLL_CTL_ADD) && negb used then (inl ENOENT, put slots)
        else if operation =? NEPOLL_CTL_DEL then (inr tt, socket_public_notify (put (delete fd slots)))
        else
          match event with
          | Some e => (inr tt, socket_public_notify (put (<[fd := mk_sub handle (ev_events e) (ev_data e)]> slots)))
          | None => (inl EINVAL, s)
          end
    | _, _ => (inl EBADF, s)
    end.

(** The caller holds a reference; the poller is freed with the last one. *)
Definition release (id : Z) (s : nepoll) : nepoll :=
  match polls s !! id with
  | Some p =>
      let refs := u32 (p_refs p - 1) in
      if refs =? 0 then with_polls (delete id (polls s)) s else alter_poller id (with_refs refs) s
  | None => s
  end.

(** The scan of one round: descriptors [start + i], [i] counting up. *)
Fixpoint scan_loop (n : nat) (i start maxevents : Z) (fds : fd_table) (p : poller) (events : list nepoll_event)
    : list nepoll_event * poller :=
  match n with
  | O => (events, p)
  | S n =>
      if maxevents <=? zlen events then (events, p)
      else
        let fd := (start + i) mod NSOCK_FD_MAX in
        match p_slots p !! fd with
        | None => scan_loop n (i + 1) start maxevents fds p events
        | Some s =>
            match socket_public_snapshot fds fd with
            | Some (handle, ready) =>
                if handle_equal handle (sub_handle s) then
                  let mask := Z.land ready (Z.lor (Z.lor (interest s) NEPOLL_ERROR) NEPOLL_HUP) in
                  if mask =? 0 then scan_loop n (i + 1) start maxevents fds p events
                  else scan_loop n (i + 1) start maxevents fds (with_cursor ((fd + 1) mod NSOCK_FD_MAX) p)
                         (events ++ [mk_event mask fd (sub_data s)])
                else scan_loop n (i + 1) start maxevents fds (with_slots (delete fd (p_slots p)) p) events
            | None => scan_loop n (i + 1) start maxevents fds (with_slots (delete fd (p_slots p)) p) events
            end
        end
  end.

(** The critical section of a round. *)
Definition wait_scan (fds : fd_table) (maxevents id : Z) (s : nepoll) : option ((errno + list nepoll_event) * nepoll) :=
  match polls s !! id with
  | None => None
  | Some p =>
      if p_closed p then Some (inl EBADF, s)
      else
        let '(events, p') := scan_loop (Z.to_nat NSOCK_FD_MAX) 0 (p_cursor p) maxevents fds p [] in
        Some (inr events, with_polls (<[id := p']> (polls s)) s)
  end.

(** What a round of nepoll_wait meets: the other threads' work before it, the
    descriptor table, and the clock after it. *)
Record round := mk_round { before_scan : nepoll -> nepoll; round_fds : fd_table; now_after : Z }.

Inductive outcome :=
| Returned (r : errno + list nepoll_event) (s : nepoll)
| Waiting (s : nepoll)
| UseAfterFree.

Fixpoint wait_rounds (maxevents deadline id : Z) (rounds : list round) (s : nepoll) : outcome :=
  match rounds with
  | [] => Waiting s
  | r :: rounds =>
      match wait_scan (round_fds r) maxevents id (before_scan r s) with
      | None => UseAfterFree
      | Some (inl e, s1) => Returned (inl e) (release id s1)
      | Some (inr [], s1) =>
          if deadline <=? now_after r then Returned (inr []) (release id s1)
          else wait_rounds maxevents deadline id rounds s1
      | Some (inr events, s1) => Returned (inr events) (release id s1)
      end
  end.

(** The first critical section of nepoll_wait: the waiter takes a reference. *)
Definition wait_begin (epfd : Z) (s : nepoll) : option nepoll :=
  match find epfd s with
  | Some p => Some (alter_poller epfd (with_refs (u32 (p_refs p + 1))) s)
  | None => None
  end.

(** [events] tells whether the caller passed a buffer; [now] is the clock when
    the deadline is set. *)
Definition nepoll_wait (events : bool) (epfd maxevents timeout_ms now : Z) (rounds : list round) (s : nepoll) : outcome :=
  if negb events || (maxevents <=? 0) || (timeout_ms <? -1) then Returned (inl EINVAL) s
  else
    match wait_begin epfd s with
    | None => Returned (inl EBADF) s
    | Some s1 =>
        let deadline := if timeout_ms <? 0 then UINT64_MAX else u64 (now + timeout_ms * 1000000) in
        wait_rounds maxevents deadline epfd rounds s1
    end.

Definition nepoll_close (epfd : Z) (s : nepoll) : (errno + unit) * nepoll :=
  if bool_decide (epfd ∈ pollers s) then
    match polls s !! epfd with
    | Some p =>
        let refs := u32 (p_refs p - 1) in
        let p' := mk_poller refs (p_cursor p) true (p_slots p) in
        let polls' := if refs =? 0 then delete epfd (polls s) else <[epfd := p']> (polls s) in
        (inr tt, socket_public_notify (mk_nepoll polls' (List.remove Z.eq_dec epfd (pollers s)) (next_id s) (public_sequence s)))
    | None => (inl EBADF, s)
    end
  else (inl EBADF, s).

(** ** What a scan reports *)

(** The event descriptor [fd] is due: it is subscribed, the table still holds
    the subscribed socket, and a bit the caller waits for is set. *)
Definition due (fds : fd_table) (slots : gmap Z subscription) (fd : Z) : option nepoll_event :=
  match slots !! fd, socket_public_snapshot fds fd with
  | Some s, Some (handle, ready) =>
      let mask := Z.land ready (Z.lor (Z.lor (interest s) NEPOLL_ERROR) NEPOLL_HUP) in
      if handle_equal handle (sub_handle s) && negb (mask =? 0) then Some (mk_event mask fd (sub_data s)) else None
  | _, _ => None
  end.

Definition window (start i : Z) (n : nat) : list Z := (fun k => (start + k) mod NSOCK_FD_MAX) <$> seqZ i (Z.of_nat n).

(** Every descriptor once, from [start] on. *)
Definition order (start : Z) : list Z := window start 0 (Z.to_nat NSOCK_FD_MAX).

Definition due_list (fds : fd_table) (p : poller) : list nepoll_event := omap (due fds (p_slots p)) (order (p_cursor p)).

Lemma window_S start i n : window start i (S n) = (start + i) mod NSOCK_FD_MAX :: window start (i + 1) n.
Proof. unfold window. rewrite seqZ_cons by lia. cbn. do 3 f_equal; lia. Qed.

Lemma due_fd fds slots fd e : due fds slots fd = Some e -> ev_fd e = fd.
Proof. unfold due. repeat case_match; intros; simplify_eq; done. Qed.

Lemma due_delete fds slots fd : due fds slots fd = None -> forall g, due fds (delete fd slots) g = due fds slots g.
Proof.
  intros H g. destruct (decide (g = fd)) as [->|Hne].
  - rewrite H. unfold due. by rewrite lookup_delete_eq.
  - unfold due. by rewrite lookup_delete_ne.
Qed.

Definition last_cursor (c : Z) (events : list nepoll_event) : Z :=
  match last events with Some e => (ev_fd e + 1) mod NSOCK_FD_MAX | None => c end.

Lemma last_cursor_cons c e l : last_cursor c (e :: l) = last_cursor ((ev_fd e + 1) mod NSOCK_FD_MAX) l.
Proof. unfold last_cursor. rewrite last_cons. by destruct (last l). Qed.

(** What the loop leaves of the poller: only slots that cannot fire go. *)
Definition scanned (fds : fd_table) (p p' : poller) : Prop :=
  p_refs p' = p_refs p /\ p_closed p' = p_closed p /\ p_slots p' ⊆ p_slots p /\
  forall g, due fds (p_slots p') g = due fds (p_slots p) g.

Lemma scanned_refl fds p : scanned fds p p.
Proof. done. Qed.
Lemma scanned_trans fds p q r : scanned fds p q -> scanned fds q r -> scanned fds p r.
Proof.
  intros (A1&A2&A3&A4) (B1&B2&B3&B4). split_and!; [congruence..|by etrans|]. intros g. by rewrite B4.
Qed.
Lemma scanned_delete fds p fd : due fds (p_slots p) fd = None -> scanned fds p (with_slots (delete fd (p_slots p)) p).
Proof. intros. split_and!; [done|done|apply delete_subseteq|by apply due_delete]. Qed.

Lemma omap_ext_all {A B} (f g : A -> option B) (l : list A) : (forall x, f x = g x) -> omap f l = omap g l.
Proof. intros H. induction l as [|x l IH]; cbn; [done|]. by rewrite H, IH. Qed.

Lemma length_omap_le {A B} (f : A -> option B) (l : list A) : (length (omap f l) <= length l)%nat.
Proof. induction l as [|x l IH]; cbn; [lia|]. destruct (f x); cbn; lia. Qed.

Lemma scan_loop_spec n i start m fds p acc :
  let new := take (Z.to_nat (m - zlen acc)) (omap (due fds (p_slots p)) (window start i n)) in
  exists p', scan_loop n i start m fds p acc = (acc ++ new, p') /\ p_cursor p' = last_cursor (p_cursor p) new /\ scanned fds p p'.
Proof.
  cbv zeta. revert i p acc. induction n as [|n IH]; intros i p acc.
  { exists p. change (window start i 0) with (@nil Z). cbn. rewrite take_nil, app_nil_r. done. }
  rewrite window_S. cbn [scan_loop omap list_omap]. destruct (Z.leb_spec m (zlen acc)) as [Hm|Hm].
  { exists p. replace (Z.to_nat (m - zlen acc)) with O by lia. rewrite take_0, app_nil_r. done. }
  set (fd := (start + i) mod NSOCK_FD_MAX).
  assert (Hskip : forall p1, scanned fds p p1 -> p_cursor p1 = p_cursor p -> due fds (p_slots p) fd = None ->
    exists p', scan_loop n (i + 1) start m fds p1 acc
      = (acc ++ take (Z.to_nat (m - zlen acc)) (omap (due fds (p_slots p)) (fd :: window start (i + 1) n)), p')
      /\ p_cursor p' = last_cursor (p_cursor p) (take (Z.to_nat (m - zlen acc)) (omap (due fds (p_slots p)) (fd :: window start (i + 1) n)))
      /\ scanned fds p p').
  { intros p1 Hp1 Hc Hd. destruct (IH (i + 1) p1 acc) as (p' & E & Hc' & Hs). exists p'.
    cbn [omap list_omap]. rewrite Hd.
    rewrite (omap_ext_all (due fds (p_slots p1)) (due fds (p_slots p))) in * by apply Hp1.
    rewrite Hc in Hc'. split_and!; [done|done|by eapply scanned_trans]. }
  destruct (p_slots p !! fd) as [s|] eqn:Es; [|apply Hskip; [apply scanned_refl|done|unfold due; by rewrite Es]].
  assert (Hstale : due fds (p_slots p) fd = None -> scanned fds p (with_slots (delete fd (p_slots p)) p))
    by apply scanned_delete.
  destruct (socket_public_snapshot fds fd) as [[h ready]|] eqn:Ef;
    [|assert (Hd : due fds (p_slots p) fd = None) by (unfold due; by rewrite Es, Ef); by apply Hskip; auto].
  destruct (handle_equal h (sub_handle s)) eqn:Eh;
    [|assert (Hd : due fds (p_slots p) fd = None) by (unfold due; by rewrite Es, Ef, Eh); by apply Hskip; auto].
  cbv zeta. destruct (_ =? 0) eqn:Em; [by apply Hskip; [| |unfold due; rewrite Es, Ef, Eh, Em]|].
  set (e := mk_event _ fd _). set (p1 := with_cursor _ p).
  assert (Hd : due fds (p_slots p) fd = Some e) by (unfold due; by rewrite Es, Ef, Eh, Em).
  destruct (IH (i + 1) p1 (acc ++ [e])) as (p' & E & Hc & Hs). exists p'. cbn [omap list_omap]. rewrite Hd.
  rewrite zlen_app in *. change (zlen [e]) with 1 in *.
  replace (Z.to_nat (m - zlen acc)) with (S (Z.to_nat (m - (zlen acc + 1)))) by lia. cbn [take].
  rewrite <-app_assoc in E. split_and!; [exact E| |].
  - rewrite last_cursor_cons. exact Hc.
  - eapply scanned_trans; [|exact Hs]. done.
Qed.

(** ** The scan rotates *)

Lemma window_app start i n m : window start i (n + m) = window start i n ++ window start (i + Z.of_nat n) m.
Proof. unfold window. rewrite Nat2Z.inj_add, seqZ_app by lia. by rewrite fmap_app. Qed.

Lemma window_shift c j i n : window ((c + j) mod NSOCK_FD_MAX) i n = window c (j + i) n.
Proof.
  unfold window. rewrite <-(fmap_add_seqZ j i). rewrite <-list_fmap_compose. apply list_fmap_ext. intros _ k _. cbn.
  rewrite Zplus_mod_idemp_l. f_equal. lia.
Qed.

Lemma window_period c n : window c NSOCK_FD_MAX n = window c 0 n.
Proof.
  unfold window. rewrite <-(fmap_add_seqZ NSOCK_FD_MAX 0), <-list_fmap_compose. apply list_fmap_ext. intros _ k _. cbn.
  replace (c + (NSOCK_FD_MAX + k)) with ((c + k) + 1 * NSOCK_FD_MAX) by lia. apply Z_mod_plus_full.
Qed.

Lemma length_window c i n : length (window c i n) = n.
Proof. unfold window. rewrite length_fmap, length_seqZ. lia. Qed.

Lemma order_rotate c l1 f l2 :
  order c = l1 ++ f :: l2 -> order ((f + 1) mod NSOCK_FD_MAX) = l2 ++ l1 ++ [f].
Proof.
  intros E. set (j := length l1).
  assert (Hlen : length (l1 ++ f :: l2) = Z.to_nat NSOCK_FD_MAX) by (rewrite <-E; apply length_window).
  rewrite length_app in Hlen. cbn [length] in Hlen. fold j in Hlen.
  assert (E' : order c = window c 0 j ++ (c + Z.of_nat j) mod NSOCK_FD_MAX :: window c (Z.of_nat j + 1) (length l2)).
  { unfold order. rewrite <-Hlen, window_app, window_S. done. }
  rewrite E' in E. apply app_inj_1 in E as [E1 E2]; [|apply length_window]. injection E2 as Ef E2.
  rewrite <-Ef, <-E1, <-E2. unfold order.
  rewrite Zplus_mod_idemp_l, <-Z.add_assoc, window_shift, Z.add_0_r.
  replace (Z.to_nat NSOCK_FD_MAX) with (length l2 + (j + 1))%nat by lia. rewrite window_app. f_equal.
  replace (Z.of_nat j + 1 + Z.of_nat (length l2)) with NSOCK_FD_MAX by (unfold NSOCK_FD_MAX in *; lia).
  by rewrite window_period, window_app, window_S.
Qed.

Lemma take_omap_last {A B} (f : A -> option B) (l : list A) m e :
  last (take m (omap f l)) = Some e ->
  exists l1 x l2, l = l1 ++ x :: l2 /\ f x = Some e /\ take m (omap f l) = omap f l1 ++ [e] /\ drop m (omap f l) = omap f l2.
Proof.
  revert m. induction l as [|x l IH]; intros m; cbn; [by rewrite take_nil|].
  destruct (f x) as [y|] eqn:Ex.
  - destruct m as [|m]; [done|]. cbn [take drop]. rewrite last_cons. destruct (last (take m (omap f l))) eqn:El.
    + intros [= ->]. destruct (IH m El) as (l1 & x' & l2 & -> & ? & E1 & E2). exists (x :: l1), x', l2.
      cbn. rewrite Ex. split_and!; [done|done| |done]. rewrite E1. done.
    + apply last_None in El. intros [= ->]. exists [], x, l. split_and!; [done|done|by rewrite El|].
      destruct m as [|m]; [done|]. by destruct (omap f l).
  - intros H. destruct (IH m H) as (l1 & x' & l2 & -> & ? & E1 & E2). exists (x :: l1), x', l2. cbn. rewrite Ex. done.
Qed.

Lemma due_list_scanned fds p p' : scanned fds p p' -> p_cursor p' = p_cursor p -> due_list fds p' = due_list fds p.
Proof. intros (_ & _ & _ & H) Hc. unfold due_list. rewrite Hc. by apply omap_ext_all. Qed.

Lemma rotate_none {A} m (l : list A) : (0 < m)%nat -> take m l = [] -> l = drop m l ++ take m l.
Proof. destruct m, l; cbn; [lia..|done|done]. Qed.

Lemma due_list_unfold fds p : due_list fds p = omap (due fds (p_slots p)) (order (p_cursor p)).
Proof. done. Qed.

Lemma scan_all m fds p :
  exists p', scan_loop (Z.to_nat NSOCK_FD_MAX) 0 (p_cursor p) m fds p [] = (take (Z.to_nat m) (due_list fds p), p') /\
    p_cursor p' = last_cursor (p_cursor p) (take (Z.to_nat m) (due_list fds p)) /\ scanned fds p p'.
Proof.
  pose proof (scan_loop_spec (Z.to_nat NSOCK_FD_MAX) 0 (p_cursor p) m fds p []) as H.
  change (zlen []) with 0 in H. rewrite Z.sub_0_r in H. exact H.
Qed.

(** The descriptors a scan looks at before [fd]. *)
Definition turn (p : poller) (fd : Z) : Z := (fd - p_cursor p) mod NSOCK_FD_MAX.

Lemma turn_order p fd : 0 <= fd < NSOCK_FD_MAX ->
  exists l1 l2, order (p_cursor p) = l1 ++ fd :: l2 /\ turn p fd = zlen l1.
Proof.
  intros Hf. assert (0 <= turn p fd < NSOCK_FD_MAX) as Ht by (by apply Z.mod_pos_bound). set (j := Z.to_nat (turn p fd)).
  exists (window (p_cursor p) 0 j), (window (p_cursor p) (Z.of_nat j + 1) (Z.to_nat NSOCK_FD_MAX - j - 1)). split.
  - unfold order. replace (Z.to_nat NSOCK_FD_MAX) with (j + S (Z.to_nat NSOCK_FD_MAX - j - 1))%nat at 1 by lia.
    rewrite window_app, window_S. do 2 f_equal. replace (0 + Z.of_nat j) with (turn p fd) by lia. unfold turn.
    rewrite Zplus_mod_idemp_r. replace (p_cursor p + (fd - p_cursor p)) with fd by lia. by rewrite Z.mod_small.
  - unfold zlen. rewrite length_window. lia.
Qed.

Lemma order_lookup c k x : order c !! k = Some x -> x = (c + Z.of_nat k) mod NSOCK_FD_MAX.
Proof. unfold order, window. rewrite list_lookup_fmap. intros (j & Hj & ->)%fmap_Some. by apply lookup_seqZ in Hj as [-> _]. Qed.

#[local] Opaque order due_list scan_loop.

Lemma due_list_elem fds p e : e ∈ due_list fds p -> due fds (p_slots p) (ev_fd e) = Some e.
Proof. rewrite due_list_unfold, list_elem_of_omap. intros (fd & _ & He). by rewrite (due_fd _ _ _ _ He). Qed.

Lemma due_list_rotate fds p p' m :
  (0 < m)%nat -> scanned fds p p' -> p_cursor p' = last_cursor (p_cursor p) (take m (due_list fds p)) ->
  due_list fds p' = drop m (due_list fds p) ++ take m (due_list fds p).
Proof.
  intros Hm Hs Hc. destruct (last (take m (due_list fds p))) as [e|] eqn:El; unfold last_cursor in Hc; rewrite El in Hc.
  - assert (El' := El). rewrite due_list_unfold in El'.
    destruct (take_omap_last _ _ _ _ El') as (l1 & x & l2 & Eo & Hx & E1 & E2). rewrite <-due_list_unfold in E1, E2.
    rewrite E1, E2, due_list_unfold, Hc, (due_fd _ _ _ _ Hx), (order_rotate _ _ _ _ Eo).
    rewrite (omap_ext_all _ (due fds (p_slots p))) by apply Hs. rewrite !omap_app. cbn. by rewrite Hx.
  - rewrite (due_list_scanned _ _ _ Hs) by done. apply last_None in El. by apply rotate_none.
Qed.

Lemma wait_scan_spec fds maxevents id s p :
  polls s !! id = Some p -> p_closed p = false -> 0 < maxevents ->
  let m := Z.to_nat maxevents in let l := due_list fds p in
  exists s' p', wait_scan fds maxevents id s = Some (inr (take m l), s') /\
    s' = with_polls (<[id := p']> (polls s)) s /\ scanned fds p p' /\
    due_list fds p' = drop m l ++ take m l.
Proof.
  intros Hp Hcl Hm m l. unfold wait_scan. rewrite Hp, Hcl.
  destruct (scan_all maxevents fds p) as (p' & -> & Hc & Hs).
  exists (with_polls (<[id := p']> (polls s)) s), p'. split_and!; [done|done|done|].
  by apply due_list_rotate; [lia|..].
Qed.

(** A scan reports [fd] when it is due, or it fills the buffer and moves the
    cursor as many descriptors nearer to it. *)
Lemma scan_progress fds m id s p fd e : polls s !! id = Some p -> p_closed p = false -> 0 < m -> due fds (p_slots p) fd = Some e ->
  exists events p', wait_scan fds m id s = Some (inr events, with_polls (<[id := p']> (polls s)) s) /\
    zlen events <= m /\ (forall e', e' ∈ events -> due fds (p_slots p) (ev_fd e') = Some e') /\
    (e ∈ events \/ turn p' fd + m <= turn p fd).
Proof.
  intros Hp Hcl Hm He. unfold wait_scan. rewrite Hp, Hcl. destruct (scan_all m fds p) as (p' & -> & Hc & Hs).
  eexists _, p'. split; [done|]. split; [unfold zlen; rewrite length_take; lia|]. split.
  { intros e' He'. apply due_list_elem. rewrite <-(take_drop (Z.to_nat m)). apply elem_of_app. by left. }
  assert (Hf : 0 <= fd < NSOCK_FD_MAX).
  { unfold due, socket_public_snapshot in He. destruct (p_slots p !! fd); [|done]. destruct (_ || _) eqn:E; [done|]. bprop. lia. }
  destruct (turn_order p fd Hf) as (l1 & l2 & Eo & Et). rewrite due_list_unfold, Eo, omap_app in *. cbn [omap list_omap] in *. rewrite He in *.
  set (a := omap (due fds (p_slots p)) l1) in *. destruct (Nat.le_gt_cases (Z.to_nat m) (length a)) as [Hle|Hgt].
  2: { left. apply list_elem_of_lookup. exists (length a). rewrite lookup_take_lt by lia. by apply list_lookup_middle. }
  right. rewrite take_app_le in Hc by done. destruct (last (take (Z.to_nat m) a)) as [e0|] eqn:El.
  2: { apply last_None in El. apply (f_equal length) in El. rewrite length_take in El. cbn in El. lia. }
  unfold last_cursor in Hc. rewrite El in Hc. destruct (take_omap_last _ _ _ _ El) as (b & x & d & -> & Hx & E1 & _).
  rewrite (due_fd _ _ _ _ Hx) in Hc. apply (f_equal length) in E1. rewrite length_take, length_app in E1. fold a in E1. cbn in E1.
  pose proof (length_omap_le (due fds (p_slots p)) b) as Lb. assert (x = (p_cursor p + zlen b) mod NSOCK_FD_MAX) as Ex.
  { assert (order (p_cursor p) !! length b = Some x) as Hl by (rewrite Eo, <-app_assoc; by apply list_lookup_middle).
    by apply order_lookup. }
  assert (turn p' fd = (turn p fd - (zlen b + 1)) mod NSOCK_FD_MAX) as Et'.
  { unfold turn. rewrite Hc, Ex. clear. rewrite Zplus_mod_idemp_l, Zminus_mod_idemp_r, Zminus_mod_idemp_l. f_equal. lia. }
  assert (0 <= turn p fd < NSOCK_FD_MAX) by (by apply Z.mod_pos_bound). rewrite Et, zlen_app, zlen_cons in *.
  pose proof (zlen_nonneg b). pose proof (zlen_nonneg d). rewrite Et', Z.mod_small by lia. unfold zlen in *. lia.
Qed.

(** ** References: a poller is freed with its last user *)

(** The waiters are the threads between the two ends of nepoll_wait. *)
Record poll_system := mk_psys { np : nepoll; waiters : list Z }.

(** Every critical section but a scan; the number of threads is below 2^32 - 1. *)
Inductive quiet_step : poll_system -> poll_system -> Prop :=
| step_create memory s w : quiet_step (mk_psys s w) (mk_psys (snd (nepoll_create memory s)) w)
| step_ctl fds epfd op fd ev s w : quiet_step (mk_psys s w) (mk_psys (snd (nepoll_ctl fds epfd op fd ev s)) w)
| step_begin epfd s s' w :
    wait_begin epfd s = Some s' -> zlen w < UINT32_MAX - 1 -> quiet_step (mk_psys s w) (mk_psys s' (epfd :: w))
| step_release id s w1 w2 : quiet_step (mk_psys s (w1 ++ id :: w2)) (mk_psys (release id s) (w1 ++ w2))
| step_close epfd s w : quiet_step (mk_psys s w) (mk_psys (snd (nepoll_close epfd s)) w).

Inductive poll_step : poll_system -> poll_system -> Prop :=
| step_quiet x y : quiet_step x y -> poll_step x y
| step_scan fds m id r s s' w : id ∈ w -> wait_scan fds m id s = Some (r, s') -> poll_step (mk_psys s w) (mk_psys s' w).

Inductive poll_reachable : poll_system -> Prop :=
| reach_init : poll_reachable (mk_psys nepoll_initial [])
| reach_step a b : poll_reachable a -> poll_step a b -> poll_reachable b.

Definition users (id : Z) (s : nepoll) (w : list Z) : Z :=
  (if bool_decide (id ∈ pollers s) then 1 else 0) + Z.of_nat (count_occ Z.eq_dec w id).

Record poll_inv (x : poll_system) : Prop := {
  pi_refs : forall id p, polls (np x) !! id = Some p ->
    p_refs p = users id (np x) (waiters x) /\ p_closed p = bool_decide (id ∉ pollers (np x));
  pi_alive : forall id, is_Some (polls (np x) !! id) <-> 0 < users id (np x) (waiters x);
  pi_nodup : NoDup (pollers (np x));
  pi_next : 0 <= next_id (np x) <= 2147483648 /\ forall id, is_Some (polls (np x) !! id) -> id < next_id (np x);
  pi_bound : zlen (waiters x) < UINT32_MAX
}.

Lemma users_range id s w : 0 <= users id s w <= 1 + zlen w.
Proof. unfold users, zlen. pose proof (count_occ_bound Z.eq_dec id w). case_bool_decide; lia. Qed.

(** Updating one poller with the same references and flag. *)
Lemma poll_inv_update id p p' s w :
  poll_inv (mk_psys s w) -> polls s !! id = Some p -> p_refs p' = p_refs p -> p_closed p' = p_closed p ->
  poll_inv (mk_psys (with_polls (<[id := p']> (polls s)) s) w).
Proof.
  intros [H1 H2 H3 [H4 H5] H6] Hp Hr Hc. cbn in *.
  assert (Hdom : forall i, is_Some (<[id := p']> (polls s) !! i) <-> is_Some (polls s !! i)).
  { intros i. rewrite lookup_insert_is_Some'. split; [intros [->|]; eauto|tauto]. }
  split; cbn; [|intros i; rewrite Hdom; apply H2|done|split; [done|intros i; rewrite Hdom; apply H5]|done].
  intros i q. rewrite lookup_insert_Some. intros [[<- <-]|[_ Hq]]; [|by apply H1].
  rewrite Hr, Hc. by apply H1.
Qed.

Lemma alter_insert id f s p : polls s !! id = Some p -> alter_poller id f s = with_polls (<[id := f p]> (polls s)) s.
Proof. intros H. unfold alter_poller. f_equal. by apply alter_insert_Some || (apply map_eq; intros i; destruct (decide (i = id)) as [->|]; [by rewrite lookup_alter_eq, H, lookup_insert_eq|by rewrite lookup_alter_ne, lookup_insert_ne]). Qed.

Lemma poll_inv_notify s w : poll_inv (mk_psys s w) -> poll_inv (mk_psys (socket_public_notify s) w).
Proof. by intros [H1 H2 H3 H4 H5]. Qed.

Lemma find_Some id s p : find id s = Some p -> id ∈ pollers s /\ polls s !! id = Some p.
Proof. unfold find. case_bool_decide; [done|done]. Qed.

Lemma poll_inv_ctl fds epfd op fd ev s w : poll_inv (mk_psys s w) -> poll_inv (mk_psys (snd (nepoll_ctl fds epfd op fd ev s)) w).
Proof.
  intros H. unfold nepoll_ctl. destruct (_ || _); [done|].
  destruct (find epfd s) as [p|] eqn:Ef; [|done]. apply find_Some in Ef as [_ Hp].
  destruct (socket_public_snapshot fds fd) as [[h r]|]; [|done].
  assert (Hput : forall sl, poll_inv (mk_psys (alter_poller epfd (with_slots sl) s) w)).
  { intros sl. rewrite (alter_insert _ _ _ _ Hp). by eapply poll_inv_update. }
  repeat case_match; cbn [snd]; try apply poll_inv_notify; auto.
Qed.

Lemma poll_inv_create memory s w : poll_inv (mk_psys s w) -> poll_inv (mk_psys (snd (nepoll_create memory s)) w).
Proof.
  intros H. unfold nepoll_create. destruct (negb memory); [done|]. destruct (Z.ltb_spec INT_MAX (next_id s)) as [|Hlt]; [done|].
  destruct H as [H1 H2 H3 [H4 H5] H6]. unfold INT_MAX in Hlt. cbn in *.
  assert (Hfresh : polls s !! next_id s = None).
  { destruct (polls s !! next_id s) eqn:E; [|done]. exfalso. specialize (H5 (next_id s) ltac:(by eexists)). lia. }
  assert (Hu : users (next_id s) s w = 0).
  { pose proof (users_range (next_id s) s w). destruct (decide (0 < users (next_id s) s w)) as [Hpos|]; [|lia].
    apply H2 in Hpos as [? E]. congruence. }
  set (s' := mk_nepoll _ _ _ _).
  assert (Hus : forall i, users i s' w = if bool_decide (i = next_id s) then 1 else users i s w).
  { intros i. unfold users, s' in *. cbn [pollers]. destruct (decide (i = next_id s)) as [->|Hne].
    - rewrite (bool_decide_eq_true_2 (_ ∈ _ :: _)), (bool_decide_eq_true_2 (_ = _)) by set_solver +.
      destruct (bool_decide (next_id s ∈ pollers s)); lia.
    - rewrite (bool_decide_eq_false_2 (_ = _)) by done. f_equal.
      by rewrite (bool_decide_ext (i ∈ next_id s :: pollers s) (i ∈ pollers s)) by (rewrite elem_of_cons; tauto). }
  split; cbn.
  - intros i q. rewrite lookup_insert_Some, Hus. intros [[<- <-]|[Hne Hq]].
    + rewrite bool_decide_eq_true_2 by done. cbn. split; [done|]. symmetry. apply bool_decide_eq_false_2. set_solver.
    + rewrite bool_decide_eq_false_2 by done. destruct (H1 i q Hq) as [-> ->]. split; [done|]. apply bool_decide_ext. set_solver.
  - intros i. rewrite Hus. case_bool_decide as Hi; [subst; rewrite lookup_insert_eq; split; [lia|by eexists]|].
    rewrite lookup_insert_ne by done. apply H2.
  - apply NoDup_cons. split; [|done]. intros Hin. unfold users in Hu. rewrite bool_decide_eq_true_2 in Hu by done. lia.
  - split; [rewrite u32_small by (unfold in_u32; lia); lia|]. intros i. rewrite u32_small by (unfold in_u32; lia).
    destruct (decide (i = next_id s)) as [->|]; [lia|]. rewrite lookup_insert_ne by done. intros Hi. apply H5 in Hi. lia.
  - done.
Qed.

Lemma users_cons id i s w : users i s (id :: w) = users i s w + (if bool_decide (i = id) then 1 else 0).
Proof.
  unfold users. destruct (decide (i = id)) as [->|Hne].
  - rewrite count_occ_cons_eq, (bool_decide_eq_true_2 (id = id)) by done. lia.
  - rewrite count_occ_cons_neq, (bool_decide_eq_false_2 (i = id)) by congruence. lia.
Qed.

Lemma users_mid id i s w1 w2 : users i s (w1 ++ id :: w2) = users i s (w1 ++ w2) + (if bool_decide (i = id) then 1 else 0).
Proof.
  transitivity (users i s (id :: w1 ++ w2)); [|apply users_cons].
  unfold users. do 2 f_equal. revert i. apply (Permutation_count_occ Z.eq_dec). by rewrite Permutation_middle.
Qed.

Lemma poll_inv_begin epfd s s' w :
  poll_inv (mk_psys s w) -> wait_begin epfd s = Some s' -> zlen w < UINT32_MAX - 1 -> poll_inv (mk_psys s' (epfd :: w)).
Proof.
  intros [H1 H2 H3 [H4 H5] H6] Hb Hw. unfold wait_begin in Hb. destruct (find epfd s) as [p|] eqn:Ef; [|done].
  injection Hb as <-. apply find_Some in Ef as [_ Hp]. rewrite (alter_insert _ _ _ _ Hp). cbn in *.
  assert (Hr : u32 (p_refs p + 1) = p_refs p + 1).
  { destruct (H1 _ _ Hp) as [-> _]. pose proof (users_range epfd s w). apply u32_small. unfold in_u32, UINT32_MAX in *. lia. }
  assert (Hu : forall i, users i (with_polls (<[epfd := with_refs (u32 (p_refs p + 1)) p]> (polls s)) s) (epfd :: w)
             = users i s w + (if bool_decide (i = epfd) then 1 else 0)) by (intros; by rewrite users_cons).
  assert (Hpos : 0 < users epfd s w) by (apply H2; by eexists).
  split; cbn.
  - intros i q. rewrite lookup_insert_Some, Hu. intros [[<- <-]|[Hne Hq]].
    + rewrite bool_decide_eq_true_2 by done. cbn. rewrite Hr. destruct (H1 _ _ Hp) as [-> ->]. done.
    + rewrite (bool_decide_eq_false_2 (i = epfd)) by done. destruct (H1 i q Hq) as [-> ->]. split; [lia|done].
  - intros i. rewrite Hu, lookup_insert_is_Some', H2. case_bool_decide; subst; [split; [lia|by left]|split; [intros [?|]; [congruence|lia]|right; lia]].
  - done.
  - split; [done|]. intros i. rewrite lookup_insert_is_Some'. intros [<-|]; [apply H5; by eexists|by apply H5].
  - rewrite zlen_cons. lia.
Qed.

(** Dropping one user of [id]: freed when it was the last. *)
Lemma poll_inv_drop id p p' s s0 w w0 :
  poll_inv (mk_psys s w) -> polls s !! id = Some p ->
  (forall i, users i s w = users i s0 w0 + (if bool_decide (i = id) then 1 else 0)) ->
  p_refs p' = u32 (p_refs p - 1) -> p_closed p' = bool_decide (id ∉ pollers s0) ->
  (forall i, i <> id -> (i ∈ pollers s0 <-> i ∈ pollers s)) -> NoDup (pollers s0) -> zlen w0 <= zlen w ->
  next_id s0 = next_id s ->
  polls s0 = (if u32 (p_refs p - 1) =? 0 then delete id (polls s) else <[id := p']> (polls s)) ->
  poll_inv (mk_psys s0 w0).
Proof.
  intros [H1 H2 H3 [H4 H5] H6] Hp Hu Hr Hc Hpl Hnd Hw Hn E. cbn in *.
  assert (Hu' := Hu id). rewrite bool_decide_eq_true_2 in Hu' by done.
  pose proof (users_range id s0 w0). pose proof (users_range id s w).
  destruct (H1 _ _ Hp) as [Hrefs _].
  assert (Hsm : u32 (p_refs p - 1) = users id s0 w0) by (rewrite u32_small; unfold in_u32, UINT32_MAX in *; lia).
  rewrite Hsm in *.
  assert (Hdom : forall i, is_Some (polls s0 !! i) <-> 0 < users i s0 w0).
  { intros i. destruct (decide (i = id)) as [->|Hne].
    - rewrite E. destruct (Z.eqb_spec (users id s0 w0) 0); [rewrite lookup_delete_eq; split; [by intros []|lia]|].
      rewrite lookup_insert_eq. split; [lia|by eexists].
    - specialize (Hu i). rewrite (bool_decide_eq_false_2 (i = id)) in Hu by done. rewrite Z.add_0_r in Hu. rewrite <-Hu, <-H2, E.
      destruct (_ =? 0); [by rewrite lookup_delete_ne|by rewrite lookup_insert_ne]. }
  split; cbn; [|exact Hdom|done| |lia].
  - intros i q Hq. destruct (decide (i = id)) as [->|Hne].
    + rewrite E in Hq. destruct (_ =? 0); [by rewrite lookup_delete_eq in Hq|]. rewrite lookup_insert_eq in Hq. injection Hq as <-. done.
    + assert (Hq' : polls s !! i = Some q) by (rewrite E in Hq; destruct (_ =? 0); [by rewrite lookup_delete_ne in Hq|by rewrite lookup_insert_ne in Hq]).
      destruct (H1 i q Hq') as [-> ->]. specialize (Hu i). rewrite (bool_decide_eq_false_2 (i = id)) in Hu by done.
      split; [lia|]. apply bool_decide_ext. by rewrite Hpl.
  - rewrite Hn. split; [done|]. intros i Hi. apply H5. apply Hdom in Hi. apply H2. rewrite Hu. destruct (bool_decide (i = id)); lia.
Qed.

Lemma poll_inv_release id s w1 w2 : poll_inv (mk_psys s (w1 ++ id :: w2)) -> poll_inv (mk_psys (release id s) (w1 ++ w2)).
Proof.
  intros H. pose proof H as [H1 H2 H3 _ H6]. cbn in *.
  assert (exists p, polls s !! id = Some p) as [p Hp].
  { apply H2. rewrite users_mid, bool_decide_eq_true_2 by done. pose proof (users_range id s (w1 ++ w2)). lia. }
  destruct (H1 _ _ Hp) as [_ Hc]. unfold release. rewrite Hp. cbv zeta.
  eapply (poll_inv_drop id p (with_refs (u32 (p_refs p - 1)) p)); [exact H|exact Hp| |done|..].
  - intros i. rewrite users_mid. f_equal. by destruct (_ =? 0).
  - cbn. rewrite Hc. by destruct (_ =? 0).
  - by destruct (_ =? 0).
  - by destruct (_ =? 0).
  - rewrite !zlen_app, zlen_cons. lia.
  - by destruct (_ =? 0).
  - destruct (_ =? 0); [done|]. by rewrite (alter_insert _ _ _ _ Hp).
Qed.

Lemma poll_inv_close epfd s w : poll_inv (mk_psys s w) -> poll_inv (mk_psys (snd (nepoll_close epfd s)) w).
Proof.
  intros H. unfold nepoll_close. destruct (bool_decide (epfd ∈ pollers s)) eqn:Ein; [|done]. apply bool_decide_eq_true in Ein.
  destruct (polls s !! epfd) as [p|] eqn:Hp; [|done]. cbn [snd]. apply poll_inv_notify.
  pose proof H as [H1 H2 H3 _ H6]. cbn in *.
  assert (Hrm : forall i, i ∈ List.remove Z.eq_dec epfd (pollers s) <-> i ∈ pollers s /\ i <> epfd).
  { intros i. rewrite !list_elem_of_In. split; [intros Hi; by apply in_remove in Hi|intros []; by apply in_in_remove]. }
  eapply (poll_inv_drop epfd p (mk_poller (u32 (p_refs p - 1)) (p_cursor p) true (p_slots p))); [exact H|exact Hp| |done|..]; cbn.
  - intros i. unfold users. cbn. destruct (decide (i = epfd)) as [->|Hi].
    + rewrite (bool_decide_eq_true_2 (epfd ∈ pollers s)), (bool_decide_eq_true_2 (epfd = epfd)) by done.
      rewrite (bool_decide_eq_false_2 (epfd ∈ _)) by (rewrite Hrm; tauto). lia.
    + rewrite (bool_decide_eq_false_2 (i = epfd)) by done.
      rewrite (bool_decide_ext (i ∈ List.remove Z.eq_dec epfd (pollers s)) (i ∈ pollers s)) by (rewrite Hrm; tauto). lia.
  - symmetry. apply bool_decide_eq_true_2. rewrite Hrm. tauto.
  - intros i Hi. rewrite Hrm. tauto.
  - revert H3. clear. induction (pollers s) as [|x l IH]; cbn; intros H3; [done|]. apply NoDup_cons in H3 as [Hx Hl].
    destruct (Z.eq_dec epfd x); [by apply IH|]. apply NoDup_cons. split; [|by apply IH].
    rewrite list_elem_of_In. intros Hin. apply in_remove in Hin as [Hin _]. by apply Hx, list_elem_of_In.
  - lia.
  - done.
  - done.
Qed.

Lemma poll_inv_step a b : poll_inv a -> poll_step a b -> poll_inv b.
Proof.
  intros IH Hs. destruct Hs as [x y Hq|fds m id r s s' w _ H0].
  - destruct Hq; [by apply poll_inv_create|by apply poll_inv_ctl|by eapply poll_inv_begin|by apply poll_inv_release|by apply poll_inv_close].
  - unfold wait_scan in H0. destruct (polls s !! id) as [p|] eqn:Hp; [|done]. destruct (p_closed p); [by simplify_eq|].
    destruct (scan_all m fds p) as (p' & Es & _ & Hr & Hc & _). rewrite Es in H0. simplify_eq. by eapply poll_inv_update.
Qed.

Lemma poll_inv_reachable x : poll_reachable x -> poll_inv x.
Proof.
  induction 1 as [|a b _ IH Hs].
  { split; cbn; [done|intros i; rewrite lookup_empty; split; [by intros []|done]|by constructor| |done].
    split; [lia|]. intros i. rewrite lookup_empty. by intros []. }
  by eapply poll_inv_step.
Qed.

Lemma users_pos id s w : 0 < users id s w <-> id ∈ pollers s \/ id ∈ w.
Proof.
  unfold users. rewrite (list_elem_of_In w), (count_occ_In Z.eq_dec). case_bool_decide; [split; [by left|lia]|].
  split; [right; lia|intros [?|?]; [done|lia]].
Qed.

(** C28: in every interleaving of creating, changing, waiting on and closing
    poll sets, a poll set is allocated exactly while it is open or a thread
    waits on it, so a waiter never reads freed memory and nothing leaks; a
    waiter is told EBADF exactly when the set was closed meanwhile. *)
Theorem nepoll_memory_exact x id :
  poll_reachable x ->
  (is_Some (polls (np x) !! id) <-> id ∈ pollers (np x) \/ id ∈ waiters x) /\
  (id ∈ waiters x -> forall fds m, exists r s',
     wait_scan fds m id (np x) = Some (r, s') /\ (r = inl EBADF <-> id ∉ pollers (np x))).
Proof.
  intros H%poll_inv_reachable. pose proof (pi_alive _ H id) as Ha. rewrite users_pos in Ha. split; [exact Ha|].
  intros Hw fds m. destruct (proj2 Ha (or_intror Hw)) as [p Hp]. destruct (pi_refs _ H _ _ Hp) as [_ Hc].
  unfold wait_scan. rewrite Hp, Hc. case_bool_decide as Hin.
  - eexists _, _. split; [done|]. by split.
  - destruct (scan_all m fds p) as (p' & -> & _). eexists _, _. split; [done|]. split; [done|]. intros Hn. by exfalso.
Qed.

(** ** A busy descriptor starves no other *)

(** What a scan met and reported. *)
Record report := mk_report { r_fds : fd_table; r_slots : gmap Z subscription; r_max : Z; r_events : list nepoll_event }.

(** A history in which [fd] is due whenever poll set [id] is scanned, with
    buffers of at least [m] events: the tables of the scans, the other
    threads' operations and scans of other sets in between are arbitrary.  It
    lists the reports of the scans of [id]. *)
Inductive watched (id fd m : Z) : poll_system -> list report -> Prop :=
| watched_end x : watched id fd m x []
| watched_quiet x y l : quiet_step x y -> watched id fd m y l -> watched id fd m x l
| watched_other fds n j r s s' w l : j <> id -> j ∈ w -> wait_scan fds n j s = Some (r, s') ->
    watched id fd m (mk_psys s' w) l -> watched id fd m (mk_psys s w) l
| watched_scan fds n events s s' w p l : id ∈ w -> m <= n -> polls s !! id = Some p -> is_Some (due fds (p_slots p) fd) ->
    wait_scan fds n id s = Some (inr events, s') ->
    watched id fd m (mk_psys s' w) l -> watched id fd m (mk_psys s w) (mk_report fds (p_slots p) n events :: l).

Lemma quiet_cursor id x y : poll_inv x -> quiet_step x y -> id < next_id (np x) ->
  id < next_id (np y) /\ forall p', polls (np y) !! id = Some p' -> exists p, polls (np x) !! id = Some p /\ p_cursor p' = p_cursor p.
Proof.
  intros Hi Hq Hid. pose proof (pi_next _ Hi) as [Hn _]. assert (Hal : forall f i (s : nepoll), (forall q, p_cursor (f q) = p_cursor q) ->
    forall p', polls (alter_poller i f s) !! id = Some p' -> exists p, polls s !! id = Some p /\ p_cursor p' = p_cursor p).
  { intros f i s Hf p'. unfold alter_poller. cbn. rewrite lookup_alter_Some. intros [(-> & q & Hq' & ->)|[_ Hq']]; eauto. }
  destruct Hq as [memory s w|fds epfd op fd ev s w|epfd s s' w Hb _|i s w1 w2|epfd s w]; cbn in *.
  - unfold nepoll_create. destruct memory; cbn [negb]; [|by eauto]. destruct (INT_MAX <? next_id s) eqn:E; [by eauto|]. bprop.
    unfold INT_MAX in E. cbn. rewrite u32_small by (unfold in_u32; lia). split; [lia|]. intros p'. rewrite lookup_insert_ne by lia. eauto.
  - unfold nepoll_ctl. repeat case_match; cbn; (split; [done|]); first [by eauto|by apply Hal].
  - unfold wait_begin in Hb. destruct (find epfd s); [|done]. injection Hb as <-. split; [done|]. by apply Hal.
  - unfold release. destruct (polls s !! i) as [p|] eqn:Hp; [|by eauto]. cbv zeta. destruct (_ =? 0); cbn; [|split; [done|]; by apply Hal].
    split; [done|]. intros p'. rewrite lookup_delete_Some. intros [_ ?]. eauto.
  - unfold nepoll_close. case_bool_decide; [|by eauto]. destruct (polls s !! epfd) as [p|] eqn:Hp; [|by eauto]. cbn. split; [done|].
    intros p'. destruct (_ =? 0); [rewrite lookup_delete_Some; intros [_ ?]; eauto|]. rewrite lookup_insert_Some. intros [[-> <-]|[_ ?]]; eauto.
Qed.

Lemma watched_reports id fd m x l : watched id fd m x l -> 0 < m -> poll_inv x -> id < next_id (np x) ->
  Forall (fun r => zlen (r_events r) <= r_max r /\ forall e, e ∈ r_events r -> due (r_fds r) (r_slots r) (ev_fd e) = Some e) l /\
  forall t, 0 <= t -> (forall p, polls (np x) !! id = Some p -> turn p fd <= t) -> t < m * zlen l ->
  exists r e, r ∈ l /\ due (r_fds r) (r_slots r) fd = Some e /\ e ∈ r_events r.
Proof.
  intros H Hm. induction H as [x|x y l Hq _ IH|fds n j r s s' w l Hj Hw Hs _ IH|fds n events s s' w p l Hw Hn Hp [e He] Hs _ IH]; intros Hi Hid.
  - split; [done|]. intros t ? _ Ht. change (zlen []) with 0 in Ht. lia.
  - destruct (quiet_cursor id x y Hi Hq Hid) as [Hid' Hc]. destruct IH as [F IH]; [eapply poll_inv_step; [done|by constructor]|done|].
    split; [done|]. intros t H0 Ht Hl. apply (IH t); [done| |done]. intros p' Hp'. destruct (Hc p' Hp') as (p & Hp & E). unfold turn. rewrite E. by apply Ht.
  - assert (poll_inv (mk_psys s' w)) as Hi' by (eapply poll_inv_step; [done|by eapply step_scan]).
    assert (next_id s' = next_id s /\ polls s' !! id = polls s !! id) as [E1 E2].
    { unfold wait_scan in Hs. destruct (polls s !! j) as [q|]; [|done]. destruct (p_closed q); [by simplify_eq|].
      destruct (scan_loop _ _ _ _ _ _ _) as [ev q']. simplify_eq. cbn. by rewrite lookup_insert_ne. }
    cbn in *. rewrite E1, E2 in IH. by apply IH.
  - assert (poll_inv (mk_psys s' w)) as Hi' by (eapply poll_inv_step; [done|by eapply step_scan]).
    assert (p_closed p = false) as Hcl by (unfold wait_scan in Hs; rewrite Hp in Hs; by destruct (p_closed p)).
    destruct (scan_progress fds n id s p fd e Hp Hcl ltac:(lia) He) as (ev & p' & E & Hz & Hd & Ho). rewrite E in Hs. injection Hs as <- <-.
    destruct IH as [F IH]; [done|done|]. split; [by constructor|]. intros t H0 Ht Hl. cbn in Ht. specialize (Ht p Hp).
    destruct Ho as [Hin|Hlt]; [eexists (mk_report _ _ _ _), e; cbn; split; [by left|done]|].
    assert (0 <= turn p' fd) by (by apply Z.mod_pos_bound).
    destruct (IH (t - m)) as (r & e' & Hr & Hx); [lia| |rewrite zlen_cons in Hl; lia|exists r, e'; split; [by right|done]].
    cbn. intros q. rewrite lookup_insert_eq. intros [= <-]. lia.
Qed.

(** C27: no descriptor of a poll set starves another, whatever else goes on.
    In a history where [fd] is due whenever the set is scanned - for buffers
    of at least [m] events, any readiness of all other descriptors at each
    scan, other waiters' scans of the same set counted in, and any creations,
    changes, waits, releases and closes in between - as many scans as its
    place in the rotation (at most 1024) over [m] include one that reports it.
    Every scan fills at most its buffer and reports only what is due: the
    descriptor is subscribed, still names the socket that was subscribed, and
    a bit asked for, or an error or a hang-up, which are always reported, is
    set. *)
Theorem nepoll_fair id fd m x p l :
  poll_reachable x -> polls (np x) !! id = Some p -> 0 < m -> watched id fd m x l ->
  Forall (fun r => zlen (r_events r) <= r_max r /\ forall e, e ∈ r_events r -> due (r_fds r) (r_slots r) (ev_fd e) = Some e) l /\
  0 <= turn p fd < NSOCK_FD_MAX /\
  (turn p fd < m * zlen l -> exists r e, r ∈ l /\ due (r_fds r) (r_slots r) fd = Some e /\ e ∈ r_events r).
Proof.
  intros Hx%poll_inv_reachable Hp Hm Hw. destruct (watched_reports _ _ _ _ _ Hw Hm Hx) as [F H].
  { apply (pi_next _ Hx). by eexists. }
  split; [done|]. assert (0 <= turn p fd < NSOCK_FD_MAX) by (by apply Z.mod_pos_bound). split; [done|]. apply H; [lia|]. intros q. rewrite Hp. by intros [= <-].
Qed.

(** ** Witnesses *)

Definition w_handle (g : Z) : nsock_handle := mk_handle 7 2 g 6.

(** Two scans with room for one event: descriptor 0 stays ready, and 1, which
    hangs up, is reported by the second. *)
Definition w_busy : fd_table := list_to_map [(0, mk_fd false 0 0 1 (w_handle 1)); (1, mk_fd false 0 0 16 (w_handle 2))].
Definition w_subscribe (fd data : Z) (s : nepoll) : nepoll := snd (nepoll_ctl w_busy 1 NEPOLL_CTL_ADD fd (Some (mk_event 1 0 data)) s).
Definition w_fair : poll_system :=
  mk_psys (default nepoll_initial (wait_begin 1 (w_subscribe 1 11 (w_subscribe 0 10 (snd (nepoll_create true nepoll_initial)))))) [1].
Lemma w_fair_reachable : poll_reachable w_fair.
Proof.
  pose proof (reach_step _ _ reach_init (step_quiet _ _ (step_create true _ _))) as H1.
  pose proof (reach_step _ _ H1 (step_quiet _ _ (step_ctl w_busy 1 NEPOLL_CTL_ADD 0 (Some (mk_event 1 0 10)) _ _))) as H2.
  pose proof (reach_step _ _ H2 (step_quiet _ _ (step_ctl w_busy 1 NEPOLL_CTL_ADD 1 (Some (mk_event 1 0 11)) _ _))) as H3.
  eapply (reach_step _ _ H3), step_quiet, (step_begin 1); [vm_compute; reflexivity|done].
Qed.
Definition w_slots : gmap Z subscription := list_to_map [(0, mk_sub (w_handle 1) 1 10); (1, mk_sub (w_handle 2) 1 11)].
Definition w_reports : list report := [mk_report w_busy w_slots 1 [mk_event 1 0 10]; mk_report w_busy w_slots 1 [mk_event 16 1 11]].
Lemma w_watched : watched 1 1 1 w_fair w_reports.
Proof.
  eapply (watched_scan 1 1 1 w_busy 1 [mk_event 1 0 10] _ _ _ (mk_poller 2 0 false w_slots));
    [by left|done|vm_compute; reflexivity|vm_compute; by eexists|vm_compute; reflexivity|].
  eapply (watched_scan 1 1 1 w_busy 1 [mk_event 16 1 11] _ _ _ (mk_poller 2 1 false w_slots));
    [by left|done|vm_compute; reflexivity|vm_compute; by eexists|vm_compute; reflexivity|].
  apply watched_end.
Qed.

Lemma nepoll_fair_witness :
  exists p, polls (np w_fair) !! 1 = Some p /\ turn p 1 = 1 /\
  exists r e, r ∈ w_reports /\ due (r_fds r) (r_slots r) 1 = Some e /\ e ∈ r_events r.
Proof.
  exists (mk_poller 2 0 false w_slots). split; [vm_compute; reflexivity|]. split; [vm_compute; reflexivity|].
  apply (nepoll_fair 1 1 1 w_fair (mk_poller 2 0 false w_slots) w_reports w_fair_reachable); [vm_compute; reflexivity|done|exact w_watched|done].
Defined.

(** A poller closed while a thread waits on it. *)
Definition w_closed : poll_system :=
  mk_psys (mk_nepoll {[1 := mk_poller 1 0 true ∅]} [] 2 1) [1].

Lemma w_closed_reachable : poll_reachable w_closed.
Proof.
  eapply reach_step; [eapply reach_step; [eapply reach_step; [apply reach_init|apply step_quiet, (step_create true)]|
    eapply step_quiet, (step_begin 1); [vm_compute; reflexivity|done]]|apply step_quiet, (step_close 1)].
Qed.

Lemma nepoll_memory_exact_witness :
  (is_Some (polls (np w_closed) !! 1) <-> 1 ∈ pollers (np w_closed) \/ 1 ∈ waiters w_closed) /\
  (1 ∈ waiters w_closed -> forall fds m, exists r s',
     wait_scan fds m 1 (np w_closed) = Some (r, s') /\ (r = inl EBADF <-> 1 ∉ pollers (np w_closed))).
Proof. apply (nepoll_memory_exact w_closed 1). exact w_closed_reachable. Defined.
