(* ===== verification/Flow.v ===== *)
(** * The flow life cycle (traffic-gen/core/flow.c, and from main_tg.c the
    admission tg_start_class and tg_close_idle_connections)

    One physical connection and its current transaction.  What an operation
    reads from outside is [flow_io]: the clock, the results of the socket
    calls in order (a socket that has no further answer blocks), of the timer
    and of the allocations.  The pool of flow objects is [flows], the slots in
    use; [slot] chooses the next from them (FlowPool shows that a slot handed
    out is unused).  Null arguments are not modelled. *)

From stdpp Require Import gmap.
From S2P Require Import Prelude Config Txn OwnerTimer TcpTcb ConnPool.

Definition TG_FLOW_RESPONSE_CAP : Z := 4096.
Definition TG_FLOW_RESPONSE_TIMEOUT_MS : Z := 5000.
Definition TG_FLOW_TCP_RESPONSE_TIMEOUT_MS : Z := 5000.
Definition TG_FLOW_TCP_IDLE_TIMEOUT_MS : Z := 30000.

(** [recvs] of a UDP socket come with the datagram's source. *)
Record flow_io := mk_fio {
  now : Z;
  hz : Z;
  slot : gset nat -> option nat;
  arm : bool;
  created : errno + nsock_handle;
  observer : option errno;
  bound_ok : option errno;
  connected : option errno;
  sends : list (errno + Z);
  recvs : list (errno + (list Z * (Z * Z)));
  sock_error : Z
}.

Section Flow.
Context {Cfg Ctx : Type} (proto : tg_proto_ops Cfg Ctx).
Abbreviation tg_flow := (tg_flow Cfg Ctx).
Abbreviation shard := (shard Cfg Ctx).
Abbreviation tg_txn := (tg_txn Cfg Ctx).

Definition with_request_offset (v : Z) (t : tg_txn) : tg_txn :=
  mk_txn (resource_counted t) (error_reason t) (bound t) (class_config t) (proto_ctx t) (request t)
    v (response_bytes t) (connection_reusable t) (peer_closes t).

(** A pool object after [tg_flow_reset]. *)
Definition flow_zero : tg_flow :=
  mk_flow None false (mk_handle NSOCK_INVALID_ID 0 0 0) TG_FLOW_NEW txn_zero (0, 0) [] None false false false false false 0 0 0 0
    0 0 [].

(** ** The socket map *)

Definition tg_flow_handle_valid_for_map (s : shard) (h : nsock_handle) : bool :=
  (hid h <? map_capacity s) && (howner h =? owner_lcore s).
Definition tg_flow_handle_equal (a b : nsock_handle) : bool :=
  (hid a =? hid b) && (howner a =? howner b) && (hgeneration a =? hgeneration b) && (hprotocol a =? hprotocol b).

Definition tg_flow_map_init_with_capacity (alloc : bool) (owner capacity : Z) (s : shard) : option errno * shard :=
  if capacity =? 0 then (Some EINVAL, s)
  else if negb alloc then (Some ENOMEM, with_s_expired [] (with_s_owner_lcore 0 (with_s_map_capacity 0 (with_s_by_socket_id ∅ s))))
  else (None, with_s_expired [] (with_s_owner_lcore owner (with_s_map_capacity capacity (with_s_by_socket_id ∅ s)))).
Definition tg_flow_map_fini (s : shard) : shard :=
  with_s_expired [] (with_s_owner_lcore 0 (with_s_map_capacity 0 (with_s_by_socket_id ∅ s))).

Definition tg_flow_timeout_unqueue (id : nat) (s : shard) : shard :=
  match flows s !! id with
  | Some f =>
      if expire_queued f
      then with_s_expired (filter (fun x => x <> id) (expired s)) (update id (with_f_expire_queued false) s) else s
  | None => s
  end.
Definition tg_flow_timeout_cancel (id : nat) (s : shard) : shard :=
  tg_flow_timeout_unqueue id (update id (with_f_timer None) s).

(** The owner timer fires: it is no longer armed. *)
Definition tg_flow_timeout_cb (id : nat) (s : shard) : shard :=
  let s := update id (with_f_timer None) s in
  match flows s !! id with
  | Some f =>
      if negb (mapped f) || expire_queued f then s
      else with_s_expired (id :: expired s) (update id (with_f_expire_queued true) s)
  | None => s
  end.

Definition tg_flow_timeout_arm (io : flow_io) (id : nat) (deadline : Z) (s : shard) : bool * shard :=
  if arm io then (true, tg_flow_timeout_unqueue id (update id (with_f_timer (Some deadline)) s)) else (false, s).

Definition tg_flow_map_insert (id : nat) (h : nsock_handle) (s : shard) : option errno * shard :=
  match flows s !! id with
  | Some f =>
      if negb (tg_flow_handle_valid_for_map s h) then (Some EINVAL, s)
      else if mapped f then (Some EALREADY, s)
      else if bool_decide (is_Some (by_socket_id s !! hid h)) then (Some EEXIST, s)
      else (None, with_s_by_socket_id (<[hid h := id]> (by_socket_id s))
                    (update id (fun f => with_f_mapped true (with_f_handle h f)) s))
  | None => (Some EINVAL, s)
  end.

Definition tg_flow_map_lookup (h : nsock_handle) (s : shard) : option nat :=
  if negb (tg_flow_handle_valid_for_map s h) then None
  else match by_socket_id s !! hid h with
  | Some id =>
      match flows s !! id with
      | Some f => if mapped f && tg_flow_handle_equal (handle f) h then Some id else None
      | None => None
      end
  | None => None
  end.

Definition invalid_handle (h : nsock_handle) : nsock_handle := mk_handle NSOCK_INVALID_ID (howner h) (hgeneration h) (hprotocol h).

Definition tg_flow_map_remove (id : nat) (s : shard) : option errno * shard :=
  match flows s !! id with
  | Some f =>
      if negb (mapped f) || negb (tg_flow_handle_valid_for_map s (handle f)) then (Some EINVAL, s)
      else if negb (bool_decide (by_socket_id s !! hid (handle f) = Some id)) then (Some ENOENT, s)
      else
        let s1 := tg_flow_timeout_cancel id s in
        (None, with_s_by_socket_id (delete (hid (handle f)) (by_socket_id s1))
                 (update id (fun f => with_f_mapped false (with_f_handle (invalid_handle (handle f)) f)) s1))
  | None => (Some EINVAL, s)
  end.

(** ** Pool objects *)

Definition pool_get (io : flow_io) (s : shard) : option (nat * shard) :=
  match slot io (dom (flows s)) with
  | None => None
  | Some id => Some (id, with_s_flows (<[id := flow_zero]> (flows s)) s)
  end.

(** [tg_flow_pool_put] refuses a mapped flow; the reset cancels the timeout
    and releases the transaction. *)
Definition pool_put (id : nat) (s : shard) : shard :=
  match flows s !! id with
  | Some f =>
      if mapped f then s
      else
        let s1 := tg_flow_timeout_cancel id s in
        with_s_txn_resources (snd (tg_txn_reset (txn f) (txn_resources s1))) (with_s_flows (delete id (flows s1)) s1)
  | None => s
  end.

Definition tg_flow_start_cleanup (id : nat) (socket_created : bool) (s : shard) : shard :=
  match flows s !! id with
  | Some f =>
      let s1 := if in_conn_pool f then tg_conn_pool_detach id s else s in
      let s2 := if mapped f then snd (tg_flow_map_remove id s1) else s1 in
      let s3 := if socket_created then note_of (SocketClosed (handle f)) s2 else s2 in
      pool_put id s3
  | None => s
  end.

Definition tg_flow_deadline (hz start timeout_ms : Z) : Z :=
  let delay := owner_timer_ms_to_cycles hz timeout_ms in
  if UINT64_MAX - start <? delay then UINT64_MAX else start + delay.

(** ** Transmission *)

Definition request_len (f : tg_flow) : Z := zlen (request (txn f)).

Fixpoint tg_flow_send_pending (answers : list (errno + Z)) (f : tg_flow) : option errno * tg_flow :=
  if request_offset (txn f) <? request_len f then
    match answers with
    | inr sent :: rest =>
        if 0 <? sent then
          tg_flow_send_pending rest
            (with_f_txn (tg_txn_on_tx_accepted proto (with_request_offset (request_offset (txn f) + sent) (txn f)) sent) f)
        else (Some EIO, f)
    | inl e :: _ => (if bool_decide (e = EAGAIN) then None else Some e, f)
    | [] => (None, f)
    end
  else (None, with_f_state TG_FLOW_RECEIVING f).

(** [g] on a flow that may fail. *)
Definition on_flow {A} (id : nat) (d : A) (g : tg_flow -> A * tg_flow) (s : shard) : A * shard :=
  match flows s !! id with
  | Some f => let '(a, f') := g f in (a, with_s_flows (<[id := f']> (flows s)) s)
  | None => (d, s)
  end.

Definition start_txn (cfg : option Cfg) (req : list Z) (id : nat) (s : shard) : bool * shard :=
  match flows s !! id with
  | Some f =>
      let '(ok, t, m) := tg_txn_init_with_request proto cfg req (txn f) (txn_resources s) in
      (ok, with_s_txn_resources m (update id (with_f_txn t) s))
  | None => (false, s)
  end.

(** A new flow with its transaction; [inl] when it was not admitted. *)
Definition open_flow (io : flow_io) (cfg : option Cfg) (cls : option nat) (req : list Z) (tcp : bool) (s : shard)
    : (errno + nat) * shard :=
  match pool_get io s with
  | None => (inl ENOBUFS, s)
  | Some (id, s1) =>
      let s2 := update id (fun f =>
        let f := with_f_start_cycles (now io) (with_f_on_finish true f) in
        if tcp then with_f_class_plan cls (with_f_deadline_cycles (tg_flow_deadline (hz io) (now io) TG_FLOW_TCP_RESPONSE_TIMEOUT_MS) f)
        else f) s1 in
      let '(ok, s3) := start_txn cfg req id s2 in
      if ok then (inr id, s3) else (inl ENOMEM, pool_put id s3)
  end.

(** The socket of a new flow, observed from its creation. *)
Definition open_socket (io : flow_io) (id : nat) (s : shard) : (errno + nsock_handle) * shard :=
  match created io with
  | inl e => (inl e, tg_flow_start_cleanup id false s)
  | inr h =>
      let s1 := note_of SocketCreated (update id (with_f_handle h) s) in
      match observer io with
      | Some e => (inl e, tg_flow_start_cleanup id true (note_of SocketReleased s1))
      | None => (inr h, s1)
      end
  end.

Definition fail_start (e : errno) (id : nat) (s : shard) : (errno + nat) * shard := (inl e, tg_flow_start_cleanup id true s).

(** The deadline armed, the connection begun. *)
Definition launch_tcp (io : flow_io) (id : nat) (s : shard) : (errno + nat) * shard :=
  match tg_flow_timeout_arm io id (from_option deadline_cycles 0 (flows s !! id)) s with
  | (false, s1) => fail_start ENOSPC id s1
  | (true, s1) =>
      let s2 := update id (with_f_state TG_FLOW_CONNECTING) s1 in
      match connected io with
      | None =>
          let s3 := update id (fun f => with_f_state TG_FLOW_SENDING (with_f_connected_cycles (now io) f)) s2 in
          match on_flow id None (tg_flow_send_pending (sends io)) s3 with
          | (Some e, s4) => fail_start e id s4
          | (None, s4) => (inr id, s4)
          end
      | Some e => if bool_decide (e = EINPROGRESS) then (inr id, s2) else fail_start e id s2
      end
  end.

(** The flow put into the map and, if it is pooled, the connection pool. *)
Definition register_tcp (io : flow_io) (cls : option nat) (pooled : bool) (id : nat) (h : nsock_handle) (s : shard)
    : (errno + nat) * shard :=
  match tg_flow_map_insert id h s with
  | (Some e, s1) => fail_start e id (update id (with_f_handle h) s1)
  | (None, s1) =>
      match (match cls with Some c => if pooled then tg_conn_pool_attach id c s1 else (None, s1) | None => (None, s1) end) with
      | (Some e, s2) => fail_start e id s2
      | (None, s2) => launch_tcp io id s2
      end
  end.

Definition tg_flow_start_tcp (io : flow_io) (cfg : option Cfg) (cls : option nat) (pooled : bool) (req : list Z) (s : shard)
    : (errno + nat) * shard :=
  if bool_decide (req = []) || (pooled && bool_decide (cls = None)) then (inl EINVAL, s)
  else match open_flow io cfg cls req true s with
  | (inl e, s1) => (inl e, s1)
  | (inr id, s1) =>
      match open_socket io id (update id (with_f_requests_started 1) s1) with
      | (inl e, s2) => (inl e, s2)
      | (inr h, s2) => register_tcp io cls pooled id h s2
      end
  end.

(** One datagram; the rest of the request counts as one. *)
Definition accept_datagram (sent : Z) (f : tg_flow) : tg_flow :=
  with_f_state TG_FLOW_RECEIVING
    (with_f_txn (tg_txn_on_tx_accepted proto (with_request_offset (request_offset (txn f) + sent) (txn f)) sent) f).

Definition launch_udp (io : flow_io) (id : nat) (s : shard) : (errno + nat) * shard :=
  match tg_flow_timeout_arm io id (from_option deadline_cycles 0 (flows s !! id)) s with
  | (false, s1) => fail_start ENOSPC id s1
  | (true, s1) =>
      let s2 := update id (with_f_state TG_FLOW_SENDING) s1 in
      let len := from_option request_len 0 (flows s2 !! id) in
      match head (sends io) with
      | Some (inr sent) => if sent =? len then (inr id, update id (accept_datagram len) s2) else fail_start EIO id s2
      | Some (inl e) => if bool_decide (e = EAGAIN) then (inr id, s2) else fail_start e id s2
      | None => (inr id, s2)
      end
  end.

Definition tg_flow_start_udp (io : flow_io) (cfg : option Cfg) (addr : Z * Z) (req : list Z) (s : shard)
    : (errno + nat) * shard :=
  if bool_decide (req = []) then (inl EINVAL, s)
  else match open_flow io cfg None req false s with
  | (inl e, s1) => (inl e, s1)
  | (inr id, s1) =>
      match open_socket io id s1 with
      | (inl e, s2) => (inl e, s2)
      | (inr h, s2) =>
          match bound_ok io with
          | Some e => fail_start e id s2
          | None =>
              let deadline := tg_flow_deadline (hz io) (now io) TG_FLOW_RESPONSE_TIMEOUT_MS in
              let s3 := update id (fun f => with_f_deadline_cycles deadline (with_f_peer addr f)) s2 in
              match tg_flow_map_insert id h s3 with
              | (Some e, s4) => fail_start e id s4
              | (None, s4) => launch_udp io id s4
              end
          end
      end
  end.

(** ** A new transaction on an idle connection *)

(** The idle socket must have nothing to read. *)
Definition idle_clean (io : flow_io) : bool :=
  match head (recvs io) with
  | None => true
  | Some (inl e) => bool_decide (e = EAGAIN)
  | Some (inr _) => false
  end.

Definition may_reuse (f : tg_flow) (p : tg_conn_pool) : bool :=
  in_conn_pool f && negb (draining p) && ((max_requests p =? 0) || (requests_started f <? max_requests p)).

Definition rearm_fields (io : flow_io) (f : tg_flow) : tg_flow :=
  with_f_state TG_FLOW_SENDING
    (with_f_requests_started (if requests_started f =? UINT64_MAX then requests_started f else requests_started f + 1)
      (with_f_completion_notified false (with_f_response_prefix [] (with_f_idle_since_cycles 0 f)))).

Definition tg_flow_rearm_tcp (io : flow_io) (id : nat) (cfg : option Cfg) (req : list Z) (s : shard) : option errno * shard :=
  match flows s !! id with
  | None => (Some EINVAL, s)
  | Some f =>
      if bool_decide (req = []) || negb (bool_decide (state f = TG_FLOW_IDLE)) || negb (may_reuse f (conn_pool s))
      then (Some EINVAL, s)
      else if negb (idle_clean io) then (Some ESTALE, s)
      else
        let '(ok, t, m) := tg_txn_rearm_with_request proto cfg req (txn f) (txn_resources s) in
        let s1 := with_s_txn_resources m (update id (with_f_txn t) s) in
        if negb ok then (Some ENOMEM, s1)
        else
          let deadline := tg_flow_deadline (hz io) (now io) TG_FLOW_TCP_RESPONSE_TIMEOUT_MS in
          let s2 := update id (fun f => with_f_deadline_cycles deadline
                      (with_f_first_rx_cycles 0 (with_f_connected_cycles 0 (with_f_start_cycles (now io) f)))) s1 in
          match tg_flow_timeout_arm io id deadline s2 with
          | (false, s3) => (Some ENOSPC, s3)
          | (true, s3) => on_flow id None (tg_flow_send_pending (sends io)) (update id (rearm_fields io) s3)
          end
  end.

(** ** Reception *)

Definition tg_flow_deliver_response (now : Z) (data : list Z) (f : tg_flow) : tg_proto_result * tg_flow :=
  let f1 := if first_rx_cycles f =? 0 then with_f_first_rx_cycles now f else f in
  let kept := take (Z.to_nat (TG_FLOW_RESPONSE_CAP - zlen (response_prefix f1))) data in
  let f2 := with_f_response_prefix (response_prefix f1 ++ kept) f1 in
  let '(r, t) := tg_txn_on_rx proto (txn f2) data in
  (r, with_f_txn t f2).

(** [inr (eof, complete)]. *)
Fixpoint tg_flow_drain_receive (now : Z) (answers : list (errno + (list Z * (Z * Z)))) (complete : bool) (f : tg_flow)
    : (errno + (bool * bool)) * tg_flow :=
  match answers with
  | [] => (inr (false, complete), f)
  | inl e :: _ => (if bool_decide (e = EAGAIN) then inr (false, complete) else inl e, f)
  | inr (data, _) :: rest =>
      if bool_decide (data = []) then (inr (true, complete), f)
      else
        let '(r, f1) := tg_flow_deliver_response now data f in
        if bool_decide (r = TG_PROTO_FAILED) then (inl EPROTO, f1)
        else tg_flow_drain_receive now rest (complete || bool_decide (r = TG_PROTO_COMPLETE)) f1
  end.

Definition tg_flow_peer_matches (f : tg_flow) (from : Z * Z) : bool := bool_decide (from = peer f).

Fixpoint tg_flow_drain_udp_receive (now : Z) (answers : list (errno + (list Z * (Z * Z)))) (f : tg_flow)
    : (errno + bool) * tg_flow :=
  match answers with
  | [] => (inr false, f)
  | inl e :: _ => (if bool_decide (e = EAGAIN) then inr false else inl e, f)
  | inr (data, from) :: rest =>
      if negb (tg_flow_peer_matches f from) then tg_flow_drain_udp_receive now rest f
      else
        let '(r, f1) := tg_flow_deliver_response now data f in
        match r with
        | TG_PROTO_FAILED => (inl EPROTO, f1)
        | TG_PROTO_COMPLETE => (inr true, f1)
        | TG_PROTO_MORE => tg_flow_drain_udp_receive now rest f1
        end
  end.

(** ** The end of a transaction and of a connection *)

Definition notify (id : nat) (r : tg_flow_result) (s : shard) : shard :=
  match flows s !! id with
  | Some f =>
      if negb (completion_notified f) && on_finish f
      then note_of (Finished id r (error_reason (txn f))) (update id (with_f_completion_notified true) s) else s
  | None => s
  end.

Definition tg_flow_close_connection (id : nat) (finish_transaction : bool) (r : tg_flow_result) (s : shard) : shard :=
  match flows s !! id with
  | Some f =>
      let s1 := if finish_transaction && bound (txn f) then notify id r s else s in
      let s2 := update id (with_f_state TG_FLOW_FAILED) s1 in
      let s3 := if in_conn_pool f then tg_conn_pool_detach id s2 else s2 in
      let s4 := if mapped f then snd (tg_flow_map_remove id s3) else s3 in
      pool_put id (note_of (SocketClosed (handle f)) s4)
  | None => s
  end.

Definition reset_txn (id : nat) (s : shard) : shard :=
  match flows s !! id with
  | Some f =>
      let '(t, m) := tg_txn_reset (txn f) (txn_resources s) in with_s_txn_resources m (update id (with_f_txn t) s)
  | None => s
  end.

(** The connection becomes idle. *)
Definition park (io : flow_io) (id : nat) (r : tg_flow_result) (s : shard) : shard :=
  let s1 := update id (fun f => with_f_completion_notified false (with_f_response_prefix []
              (with_f_idle_since_cycles (now io) (with_f_deadline_cycles 0 (with_f_state TG_FLOW_IDLE f))))) (reset_txn id s) in
  match tg_flow_timeout_arm io id (tg_flow_deadline (hz io) (now io) TG_FLOW_TCP_IDLE_TIMEOUT_MS) s1 with
  | (false, s2) => tg_flow_close_connection id false r s2
  | (true, s2) =>
      match tg_conn_pool_put_idle id s2 with
      | (None, s3) => s3
      | (Some _, s3) => tg_flow_close_connection id false r s3
      end
  end.

Definition tg_flow_finish_transaction (io : flow_io) (id : nat) (r : tg_flow_result) (allow_reuse : bool) (s : shard) : shard :=
  match flows s !! id with
  | Some f =>
      let ok := allow_reuse && bool_decide (r = TG_FLOW_RESULT_SUCCESS) in
      let reusable := ok && connection_reusable (txn f) && may_reuse f (conn_pool s) in
      let wait_for_eof := ok && peer_closes (txn f) in
      let s1 := notify id r s in
      if wait_for_eof then update id (with_f_state TG_FLOW_CLOSING) (reset_txn id s1)
      else if negb reusable then tg_flow_close_connection id false r s1
      else park io id r s1
  | None => s
  end.

(** The reason of a failed operation, and its result. *)
Definition tg_flow_io_result (e : errno) (f : tg_flow) : tg_flow_result * tg_flow :=
  let reason :=
    match e with
    | ECONNRESET => TG_ERROR_RESET
    | ETIMEDOUT => if bool_decide (state f = TG_FLOW_CONNECTING) then TG_ERROR_CONNECT_TIMEOUT else TG_ERROR_RESPONSE_TIMEOUT
    | ENOBUFS | ENOMEM => TG_ERROR_RESOURCE
    | _ => TG_ERROR_IO
    end in
  (if bool_decide (reason = TG_ERROR_RESOURCE) then TG_FLOW_RESULT_RESOURCE_PRESSURE else TG_FLOW_RESULT_IO_FAILURE,
   with_f_txn (with_error_reason reason (txn f)) f).
Definition tg_flow_rx_result (e : errno) (f : tg_flow) : tg_flow_result * tg_flow :=
  if bool_decide (e = EPROTO) then (TG_FLOW_RESULT_PROTOCOL_FAILURE, f) else tg_flow_io_result e f.

(** [flow->state = FAILED], then the result of errno [e], then the finish. *)
Definition fail_with (g : errno -> tg_flow -> tg_flow_result * tg_flow) (io : flow_io) (e : errno) (id : nat) (s : shard) : shard :=
  let '(r, s1) := on_flow id TG_FLOW_RESULT_IO_FAILURE (g e) (update id (with_f_state TG_FLOW_FAILED) s) in
  tg_flow_finish_transaction io id r false s1.
Definition finish_as (io : flow_io) (st : tg_flow_state) (r : tg_flow_result) (allow_reuse : bool) (id : nat) (s : shard) : shard :=
  tg_flow_finish_transaction io id r allow_reuse (update id (with_f_state st) s).

(** ** Events *)

Definition has_ev (events bits : Z) : bool := negb (Z.land events bits =? 0).

Definition tg_flow_send_udp (io : flow_io) (f : tg_flow) : option errno * tg_flow :=
  if request_len f <=? request_offset (txn f) then (None, with_f_state TG_FLOW_RECEIVING f)
  else
    let remaining := request_len f - request_offset (txn f) in
    match head (sends io) with
    | None => (None, f)
    | Some (inl e) => (if bool_decide (e = EAGAIN) then None else Some e, f)
    | Some (inr sent) => if sent =? remaining then (None, accept_datagram sent f) else (Some EIO, f)
    end.

Definition state_of (id : nat) (s : shard) : tg_flow_state := from_option state TG_FLOW_NEW (flows s !! id).

Definition udp_read (io : flow_io) (id : nat) (events : Z) (s : shard) : shard :=
  if bool_decide (state_of id s = TG_FLOW_RECEIVING) && has_ev events OWNER_IO_EV_READ then
    match on_flow id (inr false) (tg_flow_drain_udp_receive (now io) (recvs io)) s with
    | (inl e, s1) => fail_with tg_flow_rx_result io e id s1
    | (inr true, s1) => finish_as io TG_FLOW_DONE TG_FLOW_RESULT_SUCCESS false id s1
    | (inr false, s1) => s1
    end
  else s.

Definition tg_flow_on_udp_event (io : flow_io) (id : nat) (events : Z) (s : shard) : shard :=
  if has_ev events (Z.lor OWNER_IO_EV_ERROR OWNER_IO_EV_HUP)
  then finish_as io TG_FLOW_FAILED TG_FLOW_RESULT_IO_FAILURE false id s
  else if bool_decide (state_of id s = TG_FLOW_SENDING) && has_ev events OWNER_IO_EV_WRITE then
    match on_flow id None (tg_flow_send_udp io) s with
    | (Some e, s1) => fail_with tg_flow_io_result io e id s1
    | (None, s1) => udp_read io id events s1
    end
  else udp_read io id events s.

Definition closing_event (io : flow_io) (id : nat) (events : Z) (s : shard) : shard :=
  let close := tg_flow_close_connection id false TG_FLOW_RESULT_SUCCESS s in
  if has_ev events (Z.lor OWNER_IO_EV_ERROR OWNER_IO_EV_HUP) then close
  else if negb (has_ev events OWNER_IO_EV_READ) then s
  else if idle_clean io then s else close.

(** [owner_io_error] says why; the reason is set before the state changes. *)
Definition error_event (io : flow_io) (e : errno) (id : nat) (s : shard) : shard :=
  let was := state_of id s in
  let s1 := snd (on_flow id TG_FLOW_RESULT_IO_FAILURE (tg_flow_io_result e) s) in
  if bool_decide (was = TG_FLOW_IDLE) then tg_flow_close_connection id false TG_FLOW_RESULT_IO_FAILURE s1
  else finish_as io TG_FLOW_FAILED
         (if bool_decide (was = TG_FLOW_CONNECTING) then TG_FLOW_RESULT_CONNECT_FAILURE else TG_FLOW_RESULT_IO_FAILURE) false id s1.

(** The connection is lost while nothing is left to read. *)
Definition hup_event (io : flow_io) (id : nat) (events : Z) (s : shard) : shard :=
  if bool_decide (state_of id s = TG_FLOW_IDLE) && has_ev events (Z.lor OWNER_IO_EV_READ OWNER_IO_EV_HUP)
  then tg_flow_close_connection id false TG_FLOW_RESULT_IO_FAILURE s
  else if has_ev events OWNER_IO_EV_HUP then
    finish_as io TG_FLOW_FAILED
      (if bool_decide (state_of id s = TG_FLOW_CONNECTING) then TG_FLOW_RESULT_CONNECT_FAILURE else TG_FLOW_RESULT_IO_FAILURE)
      false id s
  else s.

Definition tcp_read (io : flow_io) (id : nat) (events : Z) (s : shard) : shard :=
  if bool_decide (state_of id s ∈ [TG_FLOW_SENDING; TG_FLOW_RECEIVING])
     && has_ev events (Z.lor OWNER_IO_EV_READ OWNER_IO_EV_HUP) then
    match on_flow id (inr (false, false)) (tg_flow_drain_receive (now io) (recvs io) false) s with
    | (inl e, s1) => fail_with tg_flow_rx_result io e id s1
    | (inr (eof, true), s1) =>
        finish_as io TG_FLOW_DONE TG_FLOW_RESULT_SUCCESS (negb eof && negb (has_ev events OWNER_IO_EV_HUP)) id s1
    | (inr (true, false), s1) =>
        let '(r, s2) := on_flow id TG_PROTO_FAILED (fun f => let '(r, t) := tg_txn_on_eof proto (txn f) in (r, with_f_txn t f)) s1 in
        if bool_decide (r = TG_PROTO_COMPLETE) then finish_as io TG_FLOW_DONE TG_FLOW_RESULT_SUCCESS false id s2
        else finish_as io TG_FLOW_FAILED TG_FLOW_RESULT_PROTOCOL_FAILURE false id s2
    | (inr (false, false), s1) => hup_event io id events s1
    end
  else hup_event io id events s.

Definition tcp_write (io : flow_io) (id : nat) (events : Z) (s : shard) : shard :=
  if bool_decide (state_of id s = TG_FLOW_SENDING) && has_ev events (Z.lor OWNER_IO_EV_CONNECTED OWNER_IO_EV_WRITE) then
    match on_flow id None (tg_flow_send_pending (sends io)) s with
    | (Some e, s1) => fail_with tg_flow_io_result io e id s1
    | (None, s1) => tcp_read io id events s1
    end
  else tcp_read io id events s.

(** [io_errno] translates the positive error number of [owner_io_error]. *)
Definition tg_flow_on_event (io_errno : Z -> errno) (io : flow_io) (id : nat) (events : Z) (s : shard) : shard :=
  match flows s !! id with
  | None => s
  | Some f =>
      if hprotocol (handle f) =? IPPROTO_UDP then tg_flow_on_udp_event io id events s
      else if bool_decide (state f = TG_FLOW_CLOSING) then closing_event io id events s
      else if has_ev events OWNER_IO_EV_ERROR
      then error_event io (if 0 <? sock_error io then io_errno (sock_error io) else EIO) id s
      else
        let s1 := if has_ev events OWNER_IO_EV_CONNECTED && bool_decide (state f = TG_FLOW_CONNECTING)
                  then update id (fun f => with_f_state TG_FLOW_SENDING (with_f_connected_cycles (now io) f)) s else s in
        tcp_write io id events s1
  end.

(** An event of a socket that has gone, or was reused, is dropped. *)
Definition tg_on_event (io_errno : Z -> errno) (io : flow_io) (h : nsock_handle) (events : Z) (s : shard) : shard :=
  match tg_flow_map_lookup h s with
  | None => s
  | Some id => tg_flow_on_event io_errno io id events s
  end.

(** ** Expiry *)

(** What happens to a due flow once it is off the queue. *)
Definition expire_flow (io : flow_io) (t : Z) (id : nat) (s : shard) : shard :=
  match flows s !! id with
  | None => s
  | Some f =>
      let due := negb (deadline_cycles f =? 0) && (deadline_cycles f <=? t) in
      let timeout reason r :=
        finish_as io TG_FLOW_FAILED r false id (update id (fun f => with_f_txn (with_error_reason reason (txn f)) f) s) in
      if negb (mapped f) then s
      else if hprotocol (handle f) =? IPPROTO_UDP then
        if due then timeout TG_ERROR_RESPONSE_TIMEOUT TG_FLOW_RESULT_IO_FAILURE else s
      else match state f with
      | TG_FLOW_CLOSING => if due then tg_flow_close_connection id false TG_FLOW_RESULT_SUCCESS s else s
      | TG_FLOW_IDLE =>
          if (idle_since_cycles f =? 0) || (t <? tg_flow_deadline (hz io) (idle_since_cycles f) TG_FLOW_TCP_IDLE_TIMEOUT_MS)
          then s else tg_flow_close_connection id false TG_FLOW_RESULT_IO_FAILURE s
      | TG_FLOW_CONNECTING =>
          if due then timeout TG_ERROR_CONNECT_TIMEOUT TG_FLOW_RESULT_CONNECT_FAILURE else s
      | TG_FLOW_SENDING | TG_FLOW_RECEIVING =>
          if due then timeout TG_ERROR_RESPONSE_TIMEOUT TG_FLOW_RESULT_IO_FAILURE else s
      | _ => s
      end
  end.

Fixpoint expire_loop (fuel : nat) (io : flow_io) (t : Z) (s : shard) : shard :=
  match fuel, expired s with
  | S k, id :: _ => expire_loop k io t (expire_flow io t id (tg_flow_timeout_unqueue id s))
  | _, _ => s
  end.
(** Every round takes the head off the queue and adds nothing to it. *)
Definition tg_flow_expire (io : flow_io) (t : Z) (s : shard) : shard := expire_loop (length (expired s)) io t s.

(** ** Admission and shutdown (main_tg.c) *)

Inductive tg_transport := TG_TRANSPORT_TCP | TG_TRANSPORT_UDP.
Record class_data := mk_class { cl_transport : tg_transport; cl_config : option Cfg; cl_request : list Z; cl_peer : Z * Z }.

(** A class that is not a workflow; [ios] is what the reuse, then the new
    flow, read. *)
Definition record_start (r : (errno + nat) * shard) : (errno + nat) * shard :=
  match r with (inr id, s) => (inr id, note_of (Started id) s) | _ => r end.

Definition tg_start_class (io_reuse io_new : flow_io) (c : nat) (d : class_data) (s : shard) : (errno + nat) * shard :=
  match cl_transport d with
  | TG_TRANSPORT_UDP => record_start (tg_flow_start_udp io_new (cl_config d) (cl_peer d) (cl_request d) s)
  | TG_TRANSPORT_TCP =>
      let fresh s := record_start (tg_flow_start_tcp io_new (cl_config d) (Some c) true (cl_request d) s) in
      match tg_conn_pool_take_idle c s with
      | (Some id, s1) =>
          match tg_flow_rearm_tcp io_reuse id (cl_config d) (cl_request d) s1 with
          | (None, s2) => (inr id, note_of (Started id) s2)
          | (Some e, s2) =>
              let s3 := tg_flow_close_connection id false TG_FLOW_RESULT_IO_FAILURE s2 in
              if bool_decide (e = ESTALE) then fresh s3 else (inl e, s3)
          end
      | (None, s1) => if tg_conn_pool_can_create (conn_pool s1) then fresh s1 else (inl EAGAIN, s1)
      end
  end.

Fixpoint close_idle_loop (fuel : nat) (s : shard) : shard :=
  match fuel with
  | O => s
  | S k =>
      match tg_conn_pool_take_any_idle s with
      | (None, s1) => s1
      | (Some id, s1) => close_idle_loop k (tg_flow_close_connection id false TG_FLOW_RESULT_IO_FAILURE s1)
      end
  end.
(** Every round closes a connection. *)
Definition tg_close_idle_connections (s : shard) : shard :=
  close_idle_loop (S (size (flows s))) (tg_conn_pool_begin_drain s).
End Flow.
