(* ===== verification/FlowFacts.v ===== *)
(** * Flows: the socket map, the due queue and the connection pool stay consistent

    [shaped] relates the flags of every flow to the structures that point at
    it: it holds between any two primitive operations. *)

From stdpp Require Import gmap.
From S2P Require Import Prelude Config Txn OwnerTimer TcpTcb ConnPool Flow.

Definition b2z (b : bool) : Z := if b then 1 else 0.

(** ** Counting flows *)

Section Count.
Context {A : Type}.

Definition count (q : A -> bool) (m : gmap nat A) : Z := Z.of_nat (size (filter (fun kv => q kv.2 = true) m)).

Lemma count_fresh q m id x : m !! id = None -> count q (<[id := x]> m) = count q m + b2z (q x).
Proof.
  intros H. unfold count. destruct (q x) eqn:E; cbn [b2z].
  - rewrite map_filter_insert_True by done. rewrite map_size_insert_None; [lia|]. by apply map_lookup_filter_None_2; left.
  - rewrite map_filter_insert_False by (cbn; congruence). rewrite delete_id by done. lia.
Qed.
Lemma count_delete q m id x : m !! id = Some x -> count q (delete id m) = count q m - b2z (q x).
Proof.
  intros H. rewrite <- (insert_delete_id m id x H) at 2. rewrite count_fresh by apply lookup_delete_eq. lia.
Qed.
Lemma count_insert q m id x y : m !! id = Some x -> count q (<[id := y]> m) = count q m - b2z (q x) + b2z (q y).
Proof.
  intros H. rewrite <- (insert_delete_eq m id y), count_fresh by apply lookup_delete_eq.
  by rewrite (count_delete q m id x).
Qed.
Lemma count_nonneg q m : 0 <= count q m.
Proof. unfold count. lia. Qed.
Lemma count_pos q m id x : m !! id = Some x -> q x = true -> 0 < count q m.
Proof. intros H E. pose proof (count_delete q m id x H) as D. rewrite E in D. pose proof (count_nonneg q (delete id m)). cbn in D. lia. Qed.
End Count.

Section Shape.
Context {Cfg Ctx : Type}.
Local Abbreviation tg_flow := (tg_flow Cfg Ctx).
Local Abbreviation shard := (shard Cfg Ctx).

Definition place (f : tg_flow) : bool * bool * bool * bool * nsock_handle * option nat :=
  (mapped f, expire_queued f, in_idle_pool f, in_conn_pool f, handle f, class_plan f).

Definition key_of (p : tg_conn_pool) (i c : nat) : Prop := class_keys p !! i = Some (Some c).

(** The idle lists hold the flows marked idle, under the key of their class;
    the connection count is exact and within the limit. *)
Record pool_ok (m : gmap nat tg_flow) (p : tg_conn_pool) : Prop := {
  po_idle : forall id f, m !! id = Some f -> in_idle_pool f = true ->
    in_conn_pool f = true /\ exists c i, class_plan f = Some c /\ key_of p i c /\ id ∈ idle_at i p;
  po_lists : forall i id, id ∈ idle_at i p ->
    exists f c, m !! id = Some f /\ in_idle_pool f = true /\ class_plan f = Some c /\ key_of p i c;
  po_nodup : forall i, NoDup (idle_at i p);
  po_keys : forall i j c, key_of p i c -> key_of p j c -> i = j;
  po_lengths : length (class_keys p) = TG_PLAN_MAX_CLASSES /\ length (idle_lists p) = TG_PLAN_MAX_CLASSES;
  po_count : connections p = count in_conn_pool m;
  po_bound : connections p <= max_connections p
}.

Record shaped (s : shard) : Prop := {
  sh_mapped : forall id f, flows s !! id = Some f -> mapped f = true ->
    tg_flow_handle_valid_for_map s (handle f) = true /\ by_socket_id s !! hid (handle f) = Some id;
  sh_socket : forall sid id, by_socket_id s !! sid = Some id ->
    exists f, flows s !! id = Some f /\ mapped f = true /\ hid (handle f) = sid;
  sh_queued : forall id f, flows s !! id = Some f -> (expire_queued f = true <-> id ∈ expired s);
  sh_expired : forall id, id ∈ expired s -> is_Some (flows s !! id);
  sh_expired_nodup : NoDup (expired s);
  sh_pool : pool_ok (flows s) (conn_pool s)
}.

(** A flow that keeps its pool membership keeps the pool. *)
Lemma pool_ok_insert m p id f f' :
  m !! id = Some f -> (in_idle_pool f', in_conn_pool f', class_plan f') = (in_idle_pool f, in_conn_pool f, class_plan f) ->
  pool_ok m p -> pool_ok (<[id := f']> m) p.
Proof.
  intros Hf [= P3 P4 P6] []. split; try done.
  - intros i g [[<- <-]|[Hne Hg]]%lookup_insert_Some; [|by eapply po_idle0]. rewrite P3, P4, P6. by apply po_idle0.
  - intros i x Hx. destruct (po_lists0 _ _ Hx) as (g & c & Hg & Hi & Hc & Hk). destruct (decide (x = id)) as [->|Hne].
    + exists f', c. rewrite lookup_insert_eq. simplify_eq. rewrite P3, P6. done.
    + exists g, c. by rewrite lookup_insert_ne.
  - rewrite (count_insert _ _ _ _ _ Hf), P4, po_count0. lia.
Qed.

(** A flow rewritten in place keeps the shape when its place does not change. *)
Lemma shaped_insert s id f f' :
  flows s !! id = Some f -> place f' = place f -> shaped s -> shaped (with_s_flows (<[id := f']> (flows s)) s).
Proof.
  intros Hf [= P1 P2 P3 P4 P5 P6] []. split; cbn; try done.
  - intros i g [[<- <-]|[Hne Hg]]%lookup_insert_Some; [|by eapply sh_mapped0]. rewrite P1, P5. intros Hm.
    exact (sh_mapped0 _ _ Hf Hm).
  - intros sid i Hs. destruct (sh_socket0 _ _ Hs) as (g & Hg & Hm & Hh). destruct (decide (i = id)) as [->|Hne].
    + exists f'. rewrite lookup_insert_eq. simplify_eq. rewrite P1, P5. done.
    + exists g. by rewrite lookup_insert_ne.
  - intros i g [[<- <-]|[Hne Hg]]%lookup_insert_Some; [|by apply sh_queued0]. rewrite P2. by apply sh_queued0.
  - intros i Hi. destruct (decide (i = id)) as [->|Hne]; [rewrite lookup_insert_eq; by eexists|].
    rewrite lookup_insert_ne by done. by apply sh_expired0.
  - eapply pool_ok_insert; [exact Hf|by rewrite P3, P4, P6|done].
Qed.

Lemma update_insert id g (s : shard) f : flows s !! id = Some f -> update id g s = with_s_flows (<[id := g f]> (flows s)) s.
Proof. intros H. unfold update. f_equal. apply map_eq. intros j. destruct (decide (j = id)) as [->|Hne].
  - by rewrite lookup_alter_eq, lookup_insert_eq, H.
  - by rewrite lookup_alter_ne, lookup_insert_ne by done.
Qed.

Lemma shaped_update s id g f :
  flows s !! id = Some f -> place (g f) = place f -> shaped s -> shaped (update id g s).
Proof. intros H P S. rewrite (update_insert id g s f H). by apply (shaped_insert s id f). Qed.

Lemma shaped_notes v s : shaped s -> shaped (with_s_notes v s).
Proof. intros []. by split. Qed.
Lemma shaped_txn v s : shaped s -> shaped (with_s_txn_resources v s).
Proof. intros []. by split. Qed.
Lemma shaped_note n s : shaped s -> shaped (note_of n s).
Proof. apply shaped_notes. Qed.
Lemma shaped_drain s : shaped s -> shaped (tg_conn_pool_begin_drain s).
Proof. intros [H1 H2 H3 H4 H5 []]. by split. Qed.

(** ** Primitive operations

    [moved id f' s s']: the step rewrites flow [id] to [f'] and says nothing. *)
Definition moved (id : nat) (f' : tg_flow) (s s' : shard) : Prop :=
  shaped s' /\ flows s' = <[id := f']> (flows s) /\ notes s' = notes s.

Lemma flow_moved_trans id f1 f2 s s1 s2 : moved id f1 s s1 -> moved id f2 s1 s2 -> moved id f2 s s2.
Proof. intros (_ & F1 & N1) (S2 & F2 & N2). split_and!; [done| |congruence]. by rewrite F2, F1, insert_insert_eq. Qed.
Lemma moved_at id f s s' : moved id f s s' -> flows s' !! id = Some f.
Proof. intros (_ & -> & _). apply lookup_insert_eq. Qed.
Lemma moved_shaped id f s s' : moved id f s s' -> shaped s'.
Proof. by intros (? & _). Qed.
Lemma moved_same id f s : flows s !! id = Some f -> shaped s -> moved id f s s.
Proof. intros H S. split_and!; [done| |done]. by rewrite insert_id. Qed.

Lemma moved_update s id g f :
  flows s !! id = Some f -> place (g f) = place f -> shaped s -> moved id (g f) s (update id g s).
Proof. intros H P S. split_and!; [by eapply shaped_update| |done]. by rewrite (update_insert id g s f H). Qed.
Lemma moved_insert s id f f' :
  flows s !! id = Some f -> place f' = place f -> shaped s -> moved id f' s (with_s_flows (<[id := f']> (flows s)) s).
Proof. intros H P S. split_and!; [by eapply shaped_insert|done|done]. Qed.
Lemma moved_txn id f s s' v : moved id f s s' -> moved id f s (with_s_txn_resources v s').
Proof. intros (S & F & N). split_and!; [by apply shaped_txn|done|done]. Qed.

Lemma filter_ne_elem (x id : nat) (l : list nat) : x ∈ filter (fun y => y <> id) l <-> x <> id /\ x ∈ l.
Proof. by rewrite list_elem_of_filter. Qed.

(** Only the due queue and the flag of its member change. *)
Lemma shaped_queue s id f f' (b : bool) l :
  flows s !! id = Some f -> f' = with_f_expire_queued b f ->
  (b = true <-> id ∈ l) -> (forall x, x <> id -> (x ∈ l <-> x ∈ expired s)) -> NoDup l -> shaped s ->
  moved id f' s (with_s_expired l (with_s_flows (<[id := f']> (flows s)) s)).
Proof.
  intros Hf -> Hb Hl Hn []. split_and!; [|done|done]. split; cbn; try done.
  - intros i g [[<- <-]|[Hne Hg]]%lookup_insert_Some; [|by eapply sh_mapped0]. intros Hm. exact (sh_mapped0 _ _ Hf Hm).
  - intros sid i Hs. destruct (sh_socket0 _ _ Hs) as (g & Hg & Hm & Hh). destruct (decide (i = id)) as [->|Hne].
    + simplify_eq. eexists. rewrite lookup_insert_eq. done.
    + exists g. by rewrite lookup_insert_ne.
  - intros i g [[<- <-]|[Hne Hg]]%lookup_insert_Some; [done|]. rewrite Hl by done. by apply sh_queued0.
  - intros i Hi. destruct (decide (i = id)) as [->|Hne]; [rewrite lookup_insert_eq; by eexists|].
    rewrite lookup_insert_ne by done. apply sh_expired0. by apply Hl.
  - by eapply pool_ok_insert.
Qed.

Lemma flow_eta_queued (f : tg_flow) b : expire_queued f = b -> with_f_expire_queued b f = f.
Proof. by intros <-; destruct f. Qed.

Lemma unqueue_moved s id f :
  flows s !! id = Some f -> shaped s -> moved id (with_f_expire_queued false f) s (tg_flow_timeout_unqueue id s).
Proof.
  intros Hf S. unfold tg_flow_timeout_unqueue. rewrite Hf. destruct (expire_queued f) eqn:E.
  - rewrite (update_insert _ _ _ _ Hf). apply (shaped_queue s id f _ false); try done.
    + rewrite filter_ne_elem. split; [done|by intros [? ?]].
    + intros x Hx. rewrite filter_ne_elem. tauto.
    + apply NoDup_filter, S.
  - rewrite flow_eta_queued by done. by apply moved_same.
Qed.

Lemma cancel_moved s id f :
  flows s !! id = Some f -> shaped s ->
  moved id (with_f_expire_queued false (with_f_timer None f)) s (tg_flow_timeout_cancel id s).
Proof.
  intros Hf S. pose proof (moved_update s id (with_f_timer None) f Hf eq_refl S) as M.
  eapply flow_moved_trans; [exact M|]. unfold tg_flow_timeout_cancel. by apply unqueue_moved; [apply (moved_at _ _ _ _ M)|apply M].
Qed.

Lemma cb_moved s id f :
  flows s !! id = Some f -> shaped s ->
  moved id (with_f_expire_queued (mapped f || expire_queued f) (with_f_timer None f)) s (tg_flow_timeout_cb id s).
Proof.
  intros Hf S. pose proof (moved_update s id (with_f_timer None) f Hf eq_refl S) as M.
  eapply flow_moved_trans; [exact M|]. unfold tg_flow_timeout_cb. pose proof (moved_at _ _ _ _ M) as Hf1. destruct M as (S1 & _).
  revert Hf1 S1. generalize (update id (with_f_timer None) s). intros s1 Hf1 S1. cbv zeta. rewrite Hf1. cbn.
  destruct (mapped f) eqn:Em; [|destruct (expire_queued f) eqn:Eq; cbn [negb orb]].
  2-3: rewrite flow_eta_queued by done; by apply moved_same.
  destruct (expire_queued f) eqn:Eq; cbn [negb orb]; [rewrite flow_eta_queued by done; by apply moved_same|].
  rewrite (update_insert _ _ _ _ Hf1). apply (shaped_queue s1 id (with_f_timer None f) _ true); try done.
  - split; [|done]. intros _. apply list_elem_of_here.
  - intros x Hx. rewrite elem_of_cons. tauto.
  - apply NoDup_cons. split; [|apply S1]. rewrite <- (sh_queued s1 S1 _ _ Hf1). cbn. by rewrite Eq.
Qed.

Lemma arm_moved io s id d f :
  flows s !! id = Some f -> shaped s ->
  exists f', moved id f' s (snd (tg_flow_timeout_arm io id d s)) /\
    f' = if fst (tg_flow_timeout_arm io id d s) then with_f_expire_queued false (with_f_timer (Some d) f) else f.
Proof.
  intros Hf S. unfold tg_flow_timeout_arm. destruct (arm io); cbn [fst snd]; [|eexists; split; [by apply moved_same|done]].
  pose proof (moved_update s id (with_f_timer (Some d)) f Hf eq_refl S) as M. eexists. split; [|done].
  eapply flow_moved_trans; [exact M|]. by apply unqueue_moved; [apply (moved_at _ _ _ _ M)|apply M].
Qed.

(** ** The socket map *)

Lemma map_insert_moved s id h f :
  flows s !! id = Some f -> shaped s ->
  match tg_flow_map_insert id h s with
  | (None, s') => mapped f = false /\ moved id (with_f_mapped true (with_f_handle h f)) s s'
  | (Some _, s') => s' = s
  end.
Proof.
  intros Hf S. unfold tg_flow_map_insert. rewrite Hf. destruct (tg_flow_handle_valid_for_map s h) eqn:Ev; [|done]. cbn [negb].
  destruct (mapped f) eqn:Em; [done|]. destruct (bool_decide_reflect (is_Some (by_socket_id s !! hid h))) as [|Hn]; [done|].
  apply eq_None_not_Some in Hn. split; [done|]. rewrite (update_insert _ _ _ _ Hf). split_and!; [|done|done].
  destruct S. split; cbn; try done.
  - intros i g [[<- <-]|[Hne Hg]]%lookup_insert_Some Hm; [split; [done|apply lookup_insert_eq]|].
    destruct (sh_mapped0 _ _ Hg Hm) as [V B]. split; [done|]. rewrite lookup_insert_ne; [done|congruence].
  - intros sid i [[<- <-]|[Hne Hs]]%lookup_insert_Some; [eexists; rewrite lookup_insert_eq; done|].
    destruct (sh_socket0 _ _ Hs) as (g & Hg & Hm & Hh). exists g. rewrite lookup_insert_ne; [done|]. intros <-. congruence.
  - intros i g [[<- <-]|[Hne Hg]]%lookup_insert_Some; [exact (sh_queued0 _ _ Hf)|by apply sh_queued0].
  - intros i Hi. destruct (decide (i = id)) as [->|Hne]; [rewrite lookup_insert_eq; by eexists|].
    rewrite lookup_insert_ne by done. by apply sh_expired0.
  - by eapply pool_ok_insert.
Qed.

(** A flow out of the map. *)
Definition unmap (f : tg_flow) : tg_flow := with_f_mapped false (with_f_handle (invalid_handle (handle f)) f).

Lemma map_remove_moved s id f :
  flows s !! id = Some f -> mapped f = true -> shaped s ->
  moved id (unmap (with_f_expire_queued false (with_f_timer None f))) s (snd (tg_flow_map_remove id s)).
Proof.
  intros Hf Hm S. destruct (sh_mapped s S id f Hf Hm) as [Hv Hb]. unfold tg_flow_map_remove. rewrite Hf, Hm, Hv.
  cbn [negb orb]. rewrite bool_decide_eq_true_2 by done. cbn [negb snd].
  assert (by_socket_id (tg_flow_timeout_cancel id s) = by_socket_id s /\ map_capacity (tg_flow_timeout_cancel id s) = map_capacity s /\
          owner_lcore (tg_flow_timeout_cancel id s) = owner_lcore s) as (Eb & Ec & Eo).
  { unfold tg_flow_timeout_cancel, tg_flow_timeout_unqueue. destruct (flows (update id (with_f_timer None) s) !! id) as [g|]; [destruct (expire_queued g)|]; done. }
  pose proof (cancel_moved s id f Hf S) as M. pose proof (moved_at _ _ _ _ M) as Hf1.
  set (f1 := with_f_expire_queued false (with_f_timer None f)) in *. assert (handle f1 = handle f) as Eh by done.
  eapply flow_moved_trans; [exact M|]. destruct M as (S1 & _). rewrite (update_insert _ _ _ _ Hf1).
  revert Eb Ec Eo Hf1 S1. generalize (tg_flow_timeout_cancel id s). intros s1 Eb Ec Eo Hf1 S1. clearbody f1.
  split_and!; [|done|done]. destruct S1. split; cbn; try done.
  - intros i g [[<- <-]|[Hne Hg]]%lookup_insert_Some Hmg; [done|]. destruct (sh_mapped0 _ _ Hg Hmg) as [V B].
    split; [done|]. rewrite lookup_delete_ne; [done|]. intros E. rewrite <- E, Eb in B. congruence.
  - intros sid i [Hne Hs]%lookup_delete_Some. destruct (sh_socket0 _ _ Hs) as (g & Hg & Hmg & Hh). exists g.
    rewrite lookup_insert_ne; [done|]. intros <-. congruence.
  - intros i g [[<- <-]|[Hne Hg]]%lookup_insert_Some; [exact (sh_queued0 _ _ Hf1)|by apply sh_queued0].
  - intros i Hi. destruct (decide (i = id)) as [->|Hne]; [rewrite lookup_insert_eq; by eexists|].
    rewrite lookup_insert_ne by done. by apply sh_expired0.
  - by eapply pool_ok_insert.
Qed.

(** ** Pool objects *)

Lemma pool_get_shaped s id (s' := with_s_flows (<[id := flow_zero]> (flows s)) s) :
  flows s !! id = None -> shaped s -> shaped s'.
Proof.
  intros Hn []. split; cbn; try done.
  - intros i g [[<- <-]|[Hne Hg]]%lookup_insert_Some Hm; [done|by apply sh_mapped0].
  - intros sid i Hs. destruct (sh_socket0 _ _ Hs) as (g & Hg & Hm & Hh). exists g. rewrite lookup_insert_ne; [done|congruence].
  - intros i g [[<- <-]|[Hne Hg]]%lookup_insert_Some; [|by apply sh_queued0]. split; [done|]. intros Hx.
    apply sh_expired0 in Hx as [? ?]. congruence.
  - intros i Hi. destruct (decide (i = id)) as [->|Hne]; [rewrite lookup_insert_eq; by eexists|].
    rewrite lookup_insert_ne by done. by apply sh_expired0.
  - destruct sh_pool0. split; try done.
    + intros i g [[<- <-]|[Hne Hg]]%lookup_insert_Some Hi; [done|by apply po_idle0].
    + intros i x Hx. destruct (po_lists0 _ _ Hx) as (g & c & Hg & R). exists g, c. rewrite lookup_insert_ne; [done|congruence].
    + rewrite count_fresh, po_count0 by done. cbn. lia.
Qed.

Lemma delete_shaped s id f :
  flows s !! id = Some f -> mapped f = false -> expire_queued f = false -> in_conn_pool f = false -> shaped s ->
  shaped (with_s_flows (delete id (flows s)) s).
Proof.
  intros Hf Hm Hq Hp []. assert (in_idle_pool f = false) as Hi.
  { destruct (in_idle_pool f) eqn:E; [|done]. destruct (po_idle _ _ sh_pool0 _ _ Hf E) as [? _]. congruence. }
  split; cbn; try done.
  - intros i g [Hne Hg]%lookup_delete_Some. by apply sh_mapped0.
  - intros sid i Hs. destruct (sh_socket0 _ _ Hs) as (g & Hg & Hmg & Hh). exists g. rewrite lookup_delete_ne; [done|congruence].
  - intros i g [Hne Hg]%lookup_delete_Some. by apply sh_queued0.
  - intros i Hx. rewrite lookup_delete_ne; [by apply sh_expired0|]. intros <-. apply (sh_queued0 _ _ Hf) in Hx. congruence.
  - destruct sh_pool0. split; try done.
    + intros i g [Hne Hg]%lookup_delete_Some. by apply po_idle0.
    + intros i x Hx. destruct (po_lists0 _ _ Hx) as (g & c & Hg & Hgi & R). exists g, c. rewrite lookup_delete_ne; [done|congruence].
    + rewrite (count_delete _ _ _ _ Hf), Hp, po_count0. cbn. lia.
Qed.

Lemma pool_put_gone s id f :
  flows s !! id = Some f -> mapped f = false -> in_conn_pool f = false -> shaped s ->
  shaped (pool_put id s) /\ flows (pool_put id s) = delete id (flows s) /\ notes (pool_put id s) = notes s.
Proof.
  intros Hf Hm Hp S. unfold pool_put. rewrite Hf, Hm. pose proof (cancel_moved s id f Hf S) as M.
  pose proof (moved_at _ _ _ _ M) as Hf1. destruct M as (S1 & F1 & N1).
  split_and!; [|cbn; by rewrite F1, delete_insert_eq|done]. apply shaped_txn. by eapply delete_shaped.
Qed.

(** A flow nothing points at may be rewritten freely. *)
Lemma moved_fresh s id g f :
  flows s !! id = Some f -> (mapped f, in_idle_pool f) = (false, false) ->
  (mapped (g f), in_idle_pool (g f), expire_queued (g f), in_conn_pool (g f)) = (false, false, expire_queued f, in_conn_pool f) ->
  shaped s -> moved id (g f) s (update id g s).
Proof.
  intros Hf [= Q1 Q3] [= P1 P3 P2 P4] []. rewrite (update_insert _ _ _ _ Hf). split_and!; [|done|done]. split; cbn; try done.
  - intros i h [[<- <-]|[Hne Hg]]%lookup_insert_Some Hm; [congruence|by apply sh_mapped0].
  - intros sid i Hs. destruct (sh_socket0 _ _ Hs) as (h & Hg & Hm & Hh). exists h. rewrite lookup_insert_ne; [done|congruence].
  - intros i h [[<- <-]|[Hne Hg]]%lookup_insert_Some; [rewrite P2; exact (sh_queued0 _ _ Hf)|by apply sh_queued0].
  - intros i Hi. destruct (decide (i = id)) as [->|Hne]; [rewrite lookup_insert_eq; by eexists|].
    rewrite lookup_insert_ne by done. by apply sh_expired0.
  - destruct sh_pool0. split; try done.
    + intros i h [[<- <-]|[Hne Hg]]%lookup_insert_Some Hi; [congruence|by apply po_idle0].
    + intros i x Hx. destruct (po_lists0 _ _ Hx) as (h & c & Hg & Hi & R). exists h, c. rewrite lookup_insert_ne; [done|congruence].
    + rewrite (count_insert _ _ _ _ _ Hf), P4, po_count0. lia.
Qed.

(** ** The connection pool *)

Lemma key_index_some q keys i : key_index q keys = Some i -> exists k, keys !! i = Some k /\ q k = true.
Proof.
  revert i. induction keys as [|k keys IH]; intros i; cbn; [done|]. destruct (q k) eqn:E; [intros [= <-]; by exists k|].
  destruct (key_index q keys) as [j|]; [|done]. intros [= <-]. by apply IH.
Qed.
Lemma key_index_none q keys i k : key_index q keys = None -> keys !! i = Some k -> q k = false.
Proof.
  revert i. induction keys as [|k0 keys IH]; intros i; cbn; [done|]. destruct (q k0) eqn:E; [done|].
  destruct (key_index q keys) as [j|]; [done|]. intros _. destruct i as [|i]; cbn; [by intros [= <-]|]. by apply IH.
Qed.
Lemma find_class_some c p i : find_class c p = Some i -> key_of p i c.
Proof. intros (k & Hk & E)%key_index_some. apply bool_decide_eq_true in E as ->. exact Hk. Qed.
Lemma find_class_none c p i : find_class c p = None -> ~ key_of p i c.
Proof. intros H Hk. pose proof (key_index_none _ _ _ _ H Hk) as E. by apply bool_decide_eq_false in E. Qed.
Lemma find_class_key m p i c : pool_ok m p -> key_of p i c -> find_class c p = Some i.
Proof.
  intros P Hk. destruct (find_class c p) as [j|] eqn:E; [|by destruct (find_class_none c p i E)].
  f_equal. eapply (po_keys _ _ P); [by apply find_class_some|exact Hk].
Qed.

Lemma class_index_ok m p c i p' :
  pool_ok m p -> tg_conn_pool_class_index c true p = (Some i, p') ->
  pool_ok m p' /\ key_of p' i c /\ idle_lists p' = idle_lists p /\ connections p' = connections p /\
  max_connections p' = max_connections p /\ draining p' = draining p.
Proof.
  intros P. unfold tg_conn_pool_class_index. destruct (find_class c p) as [j|] eqn:E.
  { intros [= <- <-]. apply find_class_some in E. done. }
  destruct (key_index _ (class_keys p)) as [j|] eqn:Ej; [|done]. intros [= <- <-].
  destruct (key_index_some _ _ _ Ej) as (k & Hk & ->%bool_decide_eq_true).
  assert (j < length (class_keys p))%nat as Hj by (by apply lookup_lt_Some in Hk).
  assert (forall i' c', key_of (with_p_class_keys (<[j := Some c]> (class_keys p)) p) i' c' <-> key_of p i' c' \/ i' = j /\ c' = c) as Hkey.
  { intros i' c'. unfold key_of. cbn. destruct (decide (i' = j)) as [->|Hne].
    - rewrite list_lookup_insert_eq by done. rewrite Hk. clear -Hk; split; [intros [= <-]; by right|intros [[=]|[_ ->]]; done].
    - rewrite list_lookup_insert_ne by done. naive_solver. }
  split_and!; try done; [|apply Hkey; by right]. destruct P. split; try done.
  - intros id f Hf Hi. destruct (po_idle0 _ _ Hf Hi) as (Hp & c' & i' & Hc & Hk' & Hin). split; [done|].
    exists c', i'. split_and!; [done| |done]. apply Hkey. by left.
  - intros i' id Hin. destruct (po_lists0 _ _ Hin) as (f & c' & Hf & Hi & Hc & Hk'). exists f, c'. split_and!; try done.
    apply Hkey. by left.
  - intros i1 i2 c' [H1|[-> ->]]%Hkey [H2|[-> H2]]%Hkey; subst; try done; [by eapply po_keys0|..];
      exfalso; by eapply find_class_none.
  - cbn. by rewrite length_insert.
Qed.

(** The pool of a step that rewrites flow [id]. *)
Lemma moved_pool s id f f' p :
  flows s !! id = Some f -> (mapped f', expire_queued f', handle f') = (mapped f, expire_queued f, handle f) ->
  shaped s -> pool_ok (<[id := f']> (flows s)) p ->
  moved id f' s (with_s_conn_pool p (with_s_flows (<[id := f']> (flows s)) s)).
Proof.
  intros Hf [= P1 P2 P5] [] HP. split_and!; [|done|done]. split; cbn; try done.
  - intros i g [[<- <-]|[Hne Hg]]%lookup_insert_Some; [|by eapply sh_mapped0]. rewrite P1, P5. intros Hm.
    exact (sh_mapped0 _ _ Hf Hm).
  - intros sid i Hs. destruct (sh_socket0 _ _ Hs) as (g & Hg & Hm & Hh). destruct (decide (i = id)) as [->|Hne].
    + exists f'. rewrite lookup_insert_eq. simplify_eq. rewrite P1, P5. done.
    + exists g. by rewrite lookup_insert_ne.
  - intros i g [[<- <-]|[Hne Hg]]%lookup_insert_Some; [|by apply sh_queued0]. rewrite P2. by apply sh_queued0.
  - intros i Hi. destruct (decide (i = id)) as [->|Hne]; [rewrite lookup_insert_eq; by eexists|].
    rewrite lookup_insert_ne by done. by apply sh_expired0.
Qed.

Lemma attach_moved s id c f :
  flows s !! id = Some f -> shaped s ->
  match tg_conn_pool_attach id c s with
  | (None, s') => moved id (with_f_in_conn_pool true (with_f_class_plan (Some c) (with_f_in_idle_pool false f))) s s'
  | (Some _, s') => s' = s
  end.
Proof.
  intros Hf S. unfold tg_conn_pool_attach. destruct (tg_conn_pool_can_create _) eqn:Ec; [|done]. cbn [negb]. rewrite Hf.
  destruct (in_conn_pool f) eqn:Ep; [done|]. destruct (tg_conn_pool_class_index c true (conn_pool s)) as [[i|] p] eqn:Ei; [|done].
  destruct (class_index_ok _ _ _ _ _ (sh_pool s S) Ei) as (P & Hk & HL & HC & HM & _).
  unfold tg_conn_pool_can_create in Ec. bprop. rewrite (update_insert _ _ _ _ Hf). apply (moved_pool s id f); try done.
  assert (in_idle_pool f = false) as Hi.
  { destruct (in_idle_pool f) eqn:E; [|done]. destruct (po_idle _ _ P _ _ Hf E) as [? _]. congruence. }
  destruct P. split; cbn; try done.
  - intros j g [[<- <-]|[Hne Hg]]%lookup_insert_Some; [done|by apply po_idle0].
  - intros j x Hx. destruct (po_lists0 _ _ Hx) as (g & c' & Hg & Hgi & R). exists g, c'. rewrite lookup_insert_ne; [done|congruence].
  - rewrite (count_insert _ _ _ _ _ Hf), po_count0, Ep. cbn. lia.
  - lia.
Qed.

Lemma idle_at_set i j l p : (i < length (idle_lists p))%nat -> idle_at j (set_idle i l p) = if decide (j = i) then l else idle_at j p.
Proof.
  intros H. unfold idle_at, set_idle. cbn. destruct (decide (j = i)) as [->|Hne]; [by rewrite list_lookup_insert_eq|].
  by rewrite list_lookup_insert_ne.
Qed.
Lemma key_length m p i c : pool_ok m p -> key_of p i c -> (i < length (idle_lists p))%nat.
Proof. intros P H. destruct (po_lengths _ _ P) as [H1 H2]. apply lookup_lt_Some in H. lia. Qed.

(** A member of an idle list is in no other. *)
Lemma idle_once m p i j x : pool_ok m p -> x ∈ idle_at i p -> x ∈ idle_at j p -> i = j.
Proof.
  intros P H1 H2. destruct (po_lists _ _ P _ _ H1) as (f & c & Hf & _ & Hc & K1).
  destruct (po_lists _ _ P _ _ H2) as (f' & c' & Hf' & _ & Hc' & K2). simplify_eq. by eapply (po_keys _ _ P).
Qed.

(** Flow [id] leaves idle list [i]. *)
Lemma pool_ok_leave m p i id f f' :
  pool_ok m p -> m !! id = Some f -> id ∈ idle_at i p ->
  (in_idle_pool f', in_conn_pool f', class_plan f') = (false, in_conn_pool f, class_plan f) ->
  pool_ok (<[id := f']> m) (set_idle i (filter (fun x => x <> id) (idle_at i p)) p).
Proof.
  intros P Hf Hin [= P3 P4 P6]. destruct (po_lists _ _ P _ _ Hin) as (f0 & c & Hf0 & Hi & Hc & Hk).
  pose proof (key_length _ _ _ _ P Hk) as Hl. simplify_eq.
  assert (forall j x, x ∈ idle_at j (set_idle i (filter (fun x => x <> id) (idle_at i p)) p) <-> x <> id /\ x ∈ idle_at j p) as Hm.
  { intros j x. rewrite idle_at_set by done. destruct (decide (j = i)) as [->|Hne]; [by rewrite filter_ne_elem|].
    split; [|by intros [_ ?]]. intros Hx. split; [|done]. intros ->. by eapply Hne, idle_once. }
  pose proof P as P'. destruct P. split; try done.
  - intros x g [[<- <-]|[Hne Hg]]%lookup_insert_Some Hgi; [congruence|].
    destruct (po_idle0 _ _ Hg Hgi) as (Hp & c' & j & Hc' & Hk' & Hx). split; [done|]. exists c', j. split_and!; try done.
    by apply Hm.
  - intros j x [Hne Hx]%Hm. destruct (po_lists0 _ _ Hx) as (g & c' & Hg & R). exists g, c'. by rewrite lookup_insert_ne.
  - intros j. rewrite idle_at_set by done. destruct (decide (j = i)); [by apply NoDup_filter|done].
  - cbn. by rewrite length_insert.
  - cbn. rewrite (count_insert _ _ _ _ _ Hf), P4, po_count0. lia.
Qed.

(** A key whose list is empty may go. *)
Lemma pool_ok_forget m p i : pool_ok m p -> idle_at i p = [] -> pool_ok m (with_p_class_keys (<[i := None]> (class_keys p)) p).
Proof.
  intros P He. assert (forall j c, key_of (with_p_class_keys (<[i := None]> (class_keys p)) p) j c <-> j <> i /\ key_of p j c) as Hk.
  { intros j c. unfold key_of. cbn. destruct (decide (j = i)) as [->|Hne].
    - destruct (decide (i < length (class_keys p))%nat) as [Hlt|Hge]; [rewrite list_lookup_insert_eq by done; naive_solver|].
      rewrite list_insert_ge by lia. split; [|by intros [? ?]]. intros H. apply lookup_lt_Some in H. lia.
    - rewrite list_lookup_insert_ne by done. naive_solver. }
  destruct P. split; try done.
  - intros id f Hf Hi. destruct (po_idle0 _ _ Hf Hi) as (Hp & c & j & Hc & Hkj & Hin). split; [done|]. exists c, j.
    split_and!; try done. apply Hk. split; [|done]. intros ->. rewrite He in Hin. by apply not_elem_of_nil in Hin.
  - intros j id Hin. change (id ∈ idle_at j p) in Hin. destruct (po_lists0 _ _ Hin) as (f & c & Hf & Hi & Hc & Hkj). exists f, c. split_and!; try done.
    apply Hk. split; [|done]. intros ->. rewrite He in Hin. by apply not_elem_of_nil in Hin.
  - intros a b c [_ H1]%Hk [_ H2]%Hk. by eapply po_keys0.
  - cbn. by rewrite length_insert.
Qed.
(** A connection that is not idle leaves the pool. *)
Lemma pool_ok_detached m p id f f' :
  pool_ok m p -> m !! id = Some f -> in_idle_pool f = false -> in_conn_pool f = true ->
  in_idle_pool f' = false -> in_conn_pool f' = false ->
  pool_ok (<[id := f']> m) (with_p_connections (connections p - 1) p).
Proof.
  intros [] Hf Hi Hp Hi' Hp'. split; cbn; try done.
  - intros j g [[<- <-]|[Hne Hg]]%lookup_insert_Some; [congruence|by apply po_idle0].
  - intros j x Hx. destruct (po_lists0 _ _ Hx) as (g & c' & Hg & Hgi & R). exists g, c'. rewrite lookup_insert_ne; [done|congruence].
  - rewrite (count_insert _ _ _ _ _ Hf), po_count0, Hp, Hp'. cbn. lia.
  - lia.
Qed.

Lemma detach_moved s id f :
  flows s !! id = Some f -> in_conn_pool f = true -> shaped s ->
  moved id (with_f_in_conn_pool false (with_f_in_idle_pool false f)) s (tg_conn_pool_detach id s).
Proof.
  intros Hf Hp S. unfold tg_conn_pool_detach. rewrite Hf, Hp. cbn [negb]. rewrite (update_insert _ _ _ _ Hf).
  set (f2 := with_f_in_conn_pool false _). set (index := match class_plan f with Some _ => _ | None => _ end).
  set (p1 := match index with Some _ => _ | None => conn_pool s end).
  assert (exists f1, pool_ok (<[id := f1]> (flows s)) p1 /\ in_idle_pool f1 = false /\ in_conn_pool f1 = true) as (f1 & P1 & Hi1 & Hp1).
  { destruct (in_idle_pool f) eqn:Ei.
    - destruct (po_idle _ _ (sh_pool s S) _ _ Hf Ei) as (_ & c & i & Hc & Hk & Hin). exists (with_f_in_idle_pool false f).
      split_and!; [|done..]. subst p1 index. rewrite Hc, (find_class_key _ _ _ _ (sh_pool s S) Hk).
      by apply (pool_ok_leave _ _ _ _ f); [apply S|..].
    - exists f. split_and!; [|done..]. replace p1 with (conn_pool s) by (subst p1; by destruct index).
      rewrite insert_id by done. apply S. }
  assert (0 < connections p1) as Hc by (rewrite (po_count _ _ P1); eapply count_pos; [apply lookup_insert_eq|done]).
  clearbody p1. cbv zeta. replace (connections p1 =? 0) with false by (symmetry; lia). cbn [negb].
  apply (moved_pool s id f); try done.
  pose proof (pool_ok_detached _ _ _ f1 f2 P1 (lookup_insert_eq _ _ _) Hi1 Hp1 eq_refl eq_refl) as P2.
  rewrite insert_insert_eq in P2. destruct index as [i|]; [|done]. case_bool_decide; [|done]. by apply pool_ok_forget.
Qed.

(** ** Idle connections *)

Lemma leave_moved s id i f :
  flows s !! id = Some f -> id ∈ idle_at i (conn_pool s) -> shaped s ->
  moved id (with_f_in_idle_pool false f) s
    (with_s_conn_pool (set_idle i (filter (fun x => x <> id) (idle_at i (conn_pool s))) (conn_pool s))
       (update id (with_f_in_idle_pool false) s)).
Proof.
  intros Hf Hin S. rewrite (update_insert _ _ _ _ Hf). apply (moved_pool s id f); try done.
  by apply (pool_ok_leave _ _ _ _ f); [apply S|..].
Qed.

(** What taking an idle connection gives. *)
Definition taken (s : shard) (r : option nat * shard) : Prop :=
  match r with
  | (None, s') => s' = s
  | (Some id, s') => exists f, flows s !! id = Some f /\ in_idle_pool f = true /\ moved id (with_f_in_idle_pool false f) s s'
  end.

Lemma filter_head_ne (id : nat) l : NoDup (id :: l) -> filter (fun x => x <> id) (id :: l) = l.
Proof.
  intros [Hn _]%NoDup_cons. rewrite filter_cons_False by tauto. induction l as [|y l IH]; [done|].
  apply not_elem_of_cons in Hn as [H1 H2]. rewrite filter_cons_True by congruence. by rewrite IH.
Qed.

Lemma take_head_taken s i : shaped s -> taken s (take_head i s).
Proof.
  intros S. unfold take_head. destruct (idle_at i (conn_pool s)) as [|id rest] eqn:E; [done|].
  assert (id ∈ idle_at i (conn_pool s)) as Hin by (rewrite E; apply list_elem_of_here).
  destruct (po_lists _ _ (sh_pool s S) _ _ Hin) as (f & c & Hf & Hi & _). exists f. split_and!; [done..|].
  pose proof (leave_moved s id i f Hf Hin S) as M. rewrite E, filter_head_ne in M; [done|]. rewrite <- E. apply S.
Qed.

Lemma take_idle_taken s c : shaped s -> taken s (tg_conn_pool_take_idle c s).
Proof.
  intros S. unfold tg_conn_pool_take_idle. destruct (draining _); [done|]. destruct (find_class _ _); [|done]. by apply take_head_taken.
Qed.
Lemma take_matching_taken s c a h : shaped s -> taken s (tg_conn_pool_take_matching c a h s).
Proof.
  intros S. unfold tg_conn_pool_take_matching. destruct (draining _); [done|]. destruct (find_class _ _) as [i|]; [|done].
  destruct (List.find _ _) as [id|] eqn:E; [|done]. apply List.find_some in E as [Hin _]. apply list_elem_of_In in Hin.
  destruct (po_lists _ _ (sh_pool s S) _ _ Hin) as (f & c' & Hf & Hi & _). exists f. split_and!; [done..|]. by apply leave_moved.
Qed.
Lemma take_any_taken s : shaped s -> taken s (tg_conn_pool_take_any_idle s).
Proof. intros S. unfold tg_conn_pool_take_any_idle. destruct (List.find _ _); [by apply take_head_taken|done]. Qed.

Lemma pool_ok_enter m p i c id f f' :
  pool_ok m p -> m !! id = Some f -> key_of p i c -> in_idle_pool f = false -> in_conn_pool f = true -> class_plan f = Some c ->
  (in_idle_pool f', in_conn_pool f', class_plan f') = (true, in_conn_pool f, class_plan f) ->
  pool_ok (<[id := f']> m) (set_idle i (id :: idle_at i p) p).
Proof.
  intros P Hf Hk Hi Hp Hc [= P3 P4 P6]. pose proof (key_length _ _ _ _ P Hk) as Hl.
  assert (forall j x, x ∈ idle_at j (set_idle i (id :: idle_at i p) p) <-> x = id /\ j = i \/ x ∈ idle_at j p) as Hm.
  { intros j x. rewrite idle_at_set by done. destruct (decide (j = i)) as [->|Hne]; [rewrite elem_of_cons|]; tauto. }
  assert (forall j, id ∉ idle_at j p) as Hout.
  { intros j Hx. destruct (po_lists _ _ P _ _ Hx) as (g & ? & Hg & Hgi & _). congruence. }
  destruct P. split; try done.
  - intros x g [[<- <-]|[Hne Hg]]%lookup_insert_Some Hgi.
    + split; [congruence|]. exists c, i. split_and!; [congruence|done|]. apply Hm. by left.
    + destruct (po_idle0 _ _ Hg Hgi) as (Hp' & c' & j & Hc' & Hk' & Hx). split; [done|]. exists c', j. split_and!; try done.
      apply Hm. by right.
  - intros j x [[-> ->]|Hx]%Hm; [exists f', c; rewrite lookup_insert_eq; split_and!; [done|congruence..|exact Hk]|].
    destruct (po_lists0 _ _ Hx) as (g & c' & Hg & R). exists g, c'. rewrite lookup_insert_ne; [done|]. intros <-. by apply (Hout j).
  - intros j. rewrite idle_at_set by done. destruct (decide (j = i)); [|done]. apply NoDup_cons. by split.
  - cbn. by rewrite length_insert.
  - cbn. rewrite (count_insert _ _ _ _ _ Hf), P4, po_count0. lia.
Qed.

Lemma put_idle_moved s id f :
  flows s !! id = Some f -> shaped s ->
  match tg_conn_pool_put_idle id s with
  | (None, s') => moved id (with_f_in_idle_pool true f) s s'
  | (Some _, s') => s' = s
  end.
Proof.
  intros Hf S. unfold tg_conn_pool_put_idle. rewrite Hf. destruct (in_conn_pool f) eqn:Hp; [|done].
  destruct (class_plan f) as [c|] eqn:Hc; [|done]. destruct (in_idle_pool f) eqn:Hi; [done|]. destruct (draining _); [done|].
  destruct (tg_conn_pool_class_index c true (conn_pool s)) as [[i|] p] eqn:Ei; [|done].
  destruct (class_index_ok _ _ _ _ _ (sh_pool s S) Ei) as (P & Hk & _). rewrite (update_insert _ _ _ _ Hf).
  apply (moved_pool s id f); try done. by eapply pool_ok_enter.
Qed.
End Shape.

Create HintDb shaped.
#[export] Hint Resolve shaped_note shaped_txn shaped_drain : shaped.
