(* ===== verification/FlowLife.v ===== *)
(** * Flows: every transaction ends once

    [rest] says what a flow looks like between two events: mapped, with a
    timeout armed (or due and queued), idle exactly when it is in the idle
    pool.  An operation touches one flow; [around] says what it leaves of the
    others, [outcome] what becomes of the one. *)

From stdpp Require Import gmap.
From S2P Require Import Prelude Config Txn OwnerTimer TcpTcb ConnPool Flow FlowFacts.

(** Transactions of flow [y] admitted, less those reported. *)
Definition weight (y : nat) (n : note) : Z :=
  match n with
  | Started z => if decide (z = y) then 1 else 0
  | Finished z _ _ => if decide (z = y) then -1 else 0
  | _ => 0
  end.
Fixpoint in_flight (y : nat) (l : list note) : Z :=
  match l with
  | [] => 0
  | n :: t => weight y n + in_flight y t
  end.
Lemma in_flight_app y a b : in_flight y (a ++ b) = in_flight y a + in_flight y b.
Proof. induction a as [|n a IH]; cbn; [lia|]. rewrite IH. lia. Qed.

Section Life.
Context {Cfg Ctx : Type} (proto : tg_proto_ops Cfg Ctx) (hertz : Z).
Local Abbreviation tg_flow := (tg_flow Cfg Ctx).
Local Abbreviation shard := (shard Cfg Ctx).

(** Flow [x] becomes [o]; [d] is the change of its transactions in flight. *)
Record around (x : nat) (o : option tg_flow) (d : Z) (s s' : shard) : Prop := {
  ar_shaped : shaped s';
  ar_self : flows s' !! x = o;
  ar_others : forall y, y <> x -> flows s' !! y = flows s !! y;
  ar_notes : forall y, in_flight y (notes s') = in_flight y (notes s) + (if decide (x = y) then d else 0)
}.

Lemma around_trans x o1 d1 o2 d2 s s1 s2 : around x o1 d1 s s1 -> around x o2 d2 s1 s2 -> around x o2 (d1 + d2) s s2.
Proof.
  intros [_ _ O1 N1] [S2 F2 O2 N2]. split; try done.
  - intros y Hy. by rewrite O2, O1.
  - intros y. rewrite N2, N1. case_decide; lia.
Qed.
Lemma around_then x o1 o2 d s s1 s2 : around x o1 0 s s1 -> around x o2 d s1 s2 -> around x o2 d s s2.
Proof. apply around_trans. Qed.
Lemma moved_around x f s s' : moved x f s s' -> around x (Some f) 0 s s'.
Proof.
  intros (S & F & N). split; [done|by rewrite F, lookup_insert_eq| |].
  - intros y Hy. by rewrite F, lookup_insert_ne.
  - intros y. rewrite N. case_decide; lia.
Qed.
Lemma around_note x f d n s : flows s !! x = Some f -> (forall y, weight y n = if decide (x = y) then d else 0) -> shaped s ->
  around x (Some f) d s (note_of n s).
Proof. intros Hf Hw S. split; [by apply shaped_note|done..|]. intros y. cbn. rewrite in_flight_app. cbn. rewrite Hw. lia. Qed.
Lemma around_same x s : shaped s -> around x (flows s !! x) 0 s s.
Proof. intros S. split; try done. intros y. case_decide; lia. Qed.
Lemma around_put s x f :
  flows s !! x = Some f -> mapped f = false -> in_conn_pool f = false -> shaped s -> around x None 0 s (pool_put x s).
Proof.
  intros Hf Hm Hp S. destruct (pool_put_gone s x f Hf Hm Hp S) as (S' & F & N). split; [done|by rewrite F, lookup_delete_eq| |].
  - intros y Hy. by rewrite F, lookup_delete_ne.
  - intros y. rewrite N. case_decide; lia.
Qed.

(** ** Closing *)

(** Out of the connection pool, out of the map, back to the flow pool. *)
Definition retire (x : nat) (f : tg_flow) (close : bool) (s : shard) : shard :=
  let s1 := if in_conn_pool f then tg_conn_pool_detach x s else s in
  let s2 := if mapped f then snd (tg_flow_map_remove x s1) else s1 in
  pool_put x (if close then note_of (SocketClosed (handle f)) s2 else s2).

Lemma retire_around s x f g close :
  flows s !! x = Some f -> (in_conn_pool g, mapped g) = (in_conn_pool f, mapped f) -> shaped s ->
  around x None 0 s (retire x g close s).
Proof.
  intros Hf [= Gp Gm] S. unfold retire. rewrite Gp, Gm. set (s1 := if in_conn_pool f then _ else s).
  assert (exists f1, moved x f1 s s1 /\ in_conn_pool f1 = false /\ mapped f1 = mapped f) as (f1 & M1 & Hp1 & Hm1).
  { subst s1. destruct (in_conn_pool f) eqn:E; [eexists; split; [by apply detach_moved|done]|exists f; by split; [apply moved_same|]]. }
  apply (around_then _ (Some f1) _ _ _ s1); [by apply moved_around|]. pose proof (moved_at _ _ _ _ M1) as Hf1.
  pose proof (moved_shaped _ _ _ _ M1) as S1. clearbody s1. clear M1. set (s2 := if mapped f then _ else s1).
  assert (exists f2, moved x f2 s1 s2 /\ in_conn_pool f2 = false /\ mapped f2 = false) as (f2 & M2 & Hp2 & Hm2).
  { subst s2. destruct (mapped f) eqn:E; [eexists; split; [by apply map_remove_moved|done]|exists f1; by split; [apply moved_same|]]. }
  apply (around_then _ (Some f2) _ _ _ s2); [by apply moved_around|]. pose proof (moved_at _ _ _ _ M2) as Hf2.
  pose proof (moved_shaped _ _ _ _ M2) as S2. clearbody s2.
  destruct close; [|by apply (around_put _ _ f2)].
  eapply around_then; [apply (around_note x f2 0 (SocketClosed (handle g))); [done| |done]; intros y; by destruct (decide (x = y))|].
  by apply (around_put _ _ f2); [..|apply shaped_note].
Qed.

Lemma cleanup_around s x f created : flows s !! x = Some f -> shaped s -> around x None 0 s (tg_flow_start_cleanup x created s).
Proof. intros Hf S. unfold tg_flow_start_cleanup. rewrite Hf. by apply (retire_around s x f f created). Qed.

Lemma close_around s x f r : flows s !! x = Some f -> shaped s -> around x None 0 s (tg_flow_close_connection x false r s).
Proof.
  intros Hf S. unfold tg_flow_close_connection. rewrite Hf. cbn [andb].
  pose proof (moved_update s x (with_f_state TG_FLOW_FAILED) f Hf eq_refl S) as M.
  eapply around_then; [apply moved_around, M|]. apply (retire_around _ x _ f true (moved_at _ _ _ _ M) eq_refl (moved_shaped _ _ _ _ M)).
Qed.
(** ** Flows at rest *)

Definition armed (T d : Z) (f : tg_flow) : Prop := 
  0 < d /\ if expire_queued f then d <= T else timer f = Some d.
Definition active (f : tg_flow) : bool :=
  match state f with TG_FLOW_CONNECTING | TG_FLOW_SENDING | TG_FLOW_RECEIVING => true | _ => false end.
Definition idle_deadline (f : tg_flow) : Z := tg_flow_deadline hertz (idle_since_cycles f) TG_FLOW_TCP_IDLE_TIMEOUT_MS.

(** A transaction under way; the state may have been changed on the way to
    its end. *)
Definition busy (T : Z) (f : tg_flow) : Prop :=
  mapped f = true /\ on_finish f = true /\ completion_notified f = false /\ in_idle_pool f = false /\ armed T (deadline_cycles f) f.

Definition rest (T : Z) (f : tg_flow) : Prop :=
  match state f with
  | TG_FLOW_CONNECTING | TG_FLOW_SENDING | TG_FLOW_RECEIVING => busy T f
  | TG_FLOW_CLOSING =>
      mapped f = true /\ on_finish f = true /\ completion_notified f = true /\ in_idle_pool f = false /\
      armed T (deadline_cycles f) f /\ hprotocol (handle f) <> IPPROTO_UDP
  | TG_FLOW_IDLE =>
      mapped f = true /\ on_finish f = true /\ completion_notified f = false /\ in_idle_pool f = true /\
      armed T (idle_deadline f) f /\ idle_since_cycles f <> 0 /\ hprotocol (handle f) <> IPPROTO_UDP
  | _ => False
  end.

Lemma rest_later T T' f : rest T f -> T <= T' -> rest T' f.
Proof. unfold rest, busy, armed. intros H HT. destruct (state f), (expire_queued f); intuition lia. Qed.
Lemma rest_mapped T f : rest T f -> mapped f = true.
Proof. unfold rest, busy. destruct (state f); tauto. Qed.
Lemma active_busy T f : active f = true -> rest T f -> busy T f.
Proof. unfold active, rest. by destruct (state f). Qed.
Lemma busy_rest T f : active f = true -> busy T f -> rest T f.
Proof. unfold active, rest. by destruct (state f). Qed.

Lemma ms_to_cycles_nonneg ms : 0 <= owner_timer_ms_to_cycles hertz ms.
Proof.
  unfold owner_timer_ms_to_cycles, u64. cbv zeta. repeat case_match; try done. apply Z.add_nonneg_nonneg; [by apply Z.mod_pos_bound|].
  apply Z.add_nonneg_nonneg; [by apply Z.mod_pos_bound|]. apply Z.div_pos; [by apply Z.mod_pos_bound|done].
Qed.
Lemma deadline_pos t ms : 0 < t -> 0 < tg_flow_deadline hertz t ms.
Proof.
  intros Ht. unfold tg_flow_deadline. case_match; [done|]. pose proof (ms_to_cycles_nonneg ms). lia.
Qed.

(** What the socket calls leave alone. *)
Definition kept (f f' : tg_flow) : Prop :=
  (place f', completion_notified f', on_finish f', timer f', deadline_cycles f') =
  (place f, completion_notified f, on_finish f, timer f, deadline_cycles f).
Lemma kept_trans a b c : kept a b -> kept b c -> kept a c.
Proof. unfold kept. congruence. Qed.
Lemma kept_busy T f f' : kept f f' -> busy T f -> busy T f'.
Proof. unfold kept, place, busy, armed. intros [= E1 E2 E3 E4 E5 E6 E7 E8 E9 E10]. by rewrite E1, E2, E3, E7, E8, E9, E10. Qed.

(** ** The end of a transaction *)

Definition ended (T : Z) (o : option tg_flow) : Prop :=
  match o with None => True | Some f => rest T f /\ active f = false end.

Lemma notify_around s x f r :
  flows s !! x = Some f -> on_finish f = true -> completion_notified f = false -> shaped s -> around x (Some (with_f_completion_notified true f)) (-1) s (notify x r s).
Proof.
  intros Hf Ho Hc S. unfold notify. rewrite Hf, Ho, Hc. cbn [negb andb].
  pose proof (moved_update s x (with_f_completion_notified true) f Hf eq_refl S) as M.
  eapply around_then; [apply moved_around, M|]. by apply around_note; [apply (moved_at _ _ _ _ M)| |apply M].
Qed.

Lemma reset_txn_moved (s : shard) x f : flows s !! x = Some f -> shaped s -> exists t, moved x (with_f_txn t f) s (reset_txn x s).
Proof.
  intros Hf S. unfold reset_txn. rewrite Hf. destruct (tg_txn_reset (txn f) (txn_resources s)) as [t m]. exists t.
  apply moved_txn. by apply (moved_update s x (with_f_txn t) f).
Qed.

Lemma park_around s x f T io r :
  flows s !! x = Some f -> mapped f = true -> on_finish f = true -> in_idle_pool f = false ->
  hprotocol (handle f) <> IPPROTO_UDP -> 0 < now io -> hz io = hertz -> shaped s ->
  exists o, around x o 0 s (park io x r s) /\ ended T o.
Proof.
  intros Hf Hm Ho Hi Hu Hn Hz S. unfold park. destruct (reset_txn_moved s x f Hf S) as (t & M0).
  match goal with |- context [update x ?g (reset_txn x s)] =>
    pose proof (moved_update _ x g _ (moved_at _ _ _ _ M0) eq_refl (moved_shaped _ _ _ _ M0)) as M1;
    set (f1 := g (with_f_txn t f)) in M1; pose proof (flow_moved_trans _ _ _ _ _ _ M0 M1) as M; clear M0 M1;
    revert M; generalize (update x g (reset_txn x s)) end.
  intros s1 M. pose proof (moved_at _ _ _ _ M) as Hf1. pose proof (moved_shaped _ _ _ _ M) as S1.
  set (d := tg_flow_deadline _ _ _). destruct (arm_moved io s1 x d f1 Hf1 S1) as (f2 & M2 & E2).
  destruct (tg_flow_timeout_arm io x d s1) as [ok s2]. cbn [fst snd] in *.
  pose proof (flow_moved_trans _ _ _ _ _ _ M M2) as M'. pose proof (moved_at _ _ _ _ M2) as Hf2. pose proof (moved_shaped _ _ _ _ M2) as S2.
  destruct ok.
  - pose proof (put_idle_moved s2 x f2 Hf2 S2) as H. destruct (tg_conn_pool_put_idle x s2) as [[e|] s3].
    + subst s3. exists None. split; [|done]. eapply around_then; [apply moved_around, M'|]. by eapply close_around.
    + eexists. split; [apply moved_around, (flow_moved_trans _ _ _ _ _ _ M' H)|]. subst f2. split; [|done].
      cbn. split_and!; try done; [|subst f1; cbn; lia]. subst f1 d. unfold armed, idle_deadline. cbn. rewrite Hz.
      by split; [apply deadline_pos|].
  - exists None. split; [|done]. eapply around_then; [apply moved_around, M'|]. by eapply close_around.
Qed.

Lemma finish_close_around s x f io r :
  flows s !! x = Some f -> on_finish f = true -> completion_notified f = false -> shaped s ->
  around x None (-1) s (tg_flow_finish_transaction io x r false s).
Proof.
  intros Hf Ho Hc S. unfold tg_flow_finish_transaction. rewrite Hf. cbn [andb negb].
  pose proof (notify_around s x f r Hf Ho Hc S) as N. eapply (around_trans _ _ (-1) _ 0); [exact N|].
  eapply close_around; [apply (ar_self _ _ _ _ _ N)|apply (ar_shaped _ _ _ _ _ N)].
Qed.

Lemma finish_around s x f T io r reuse :
  flows s !! x = Some f -> busy T f -> shaped s -> 0 < now io -> hz io = hertz ->
  (reuse = true -> hprotocol (handle f) <> IPPROTO_UDP) ->
  exists o, around x o (-1) s (tg_flow_finish_transaction io x r reuse s) /\ ended T o /\ (reuse = false -> o = None).
Proof.
  intros Hf (Hm & Ho & Hc & Hi & Ha) S Hn Hz Hu. destruct reuse; [specialize (Hu eq_refl)|].
  2: { exists None. split_and!; [by apply (finish_close_around s x f)|done..]. }
  unfold tg_flow_finish_transaction. rewrite Hf. cbv zeta. cbn [andb]. pose proof (notify_around s x f r Hf Ho Hc S) as N.
  pose proof (ar_self _ _ _ _ _ N) as Hf1. pose proof (ar_shaped _ _ _ _ _ N) as S1.
  revert N Hf1 S1. generalize (notify x r s). intros s1 N Hf1 S1.
  destruct (bool_decide (r = TG_FLOW_RESULT_SUCCESS) && peer_closes (txn f)).
  { destruct (reset_txn_moved s1 x _ Hf1 S1) as (t & M).
    pose proof (moved_update _ x (with_f_state TG_FLOW_CLOSING) _ (moved_at _ _ _ _ M) eq_refl (moved_shaped _ _ _ _ M)) as M1.
    eexists. split_and!; [eapply (around_trans _ _ (-1) _ 0); [exact N|apply moved_around, (flow_moved_trans _ _ _ _ _ _ M M1)]| |done].
    done. }
  case_match.
  - exists None. split_and!; [|done..]. eapply (around_trans _ _ (-1) _ 0); [exact N|]. by eapply close_around.
  - destruct (park_around s1 x _ T io r Hf1 Hm Ho Hi Hu Hn Hz S1) as (o & A & E). exists o. split_and!; [|done..].
    by eapply (around_trans _ _ (-1) _ 0).
Qed.
(** ** Socket calls *)

Lemma send_pending_kept answers f :
  kept f (snd (tg_flow_send_pending proto answers f)) /\
  (state (snd (tg_flow_send_pending proto answers f)) = state f \/ state (snd (tg_flow_send_pending proto answers f)) = TG_FLOW_RECEIVING).
Proof.
  revert f. induction answers as [|[e|sent] rest IH]; intros f; cbn; (destruct (_ <? _); [|by split; [|right]]); try by split; [|left].
  destruct (0 <? sent); [|by split; [|left]].
  match goal with |- context [tg_flow_send_pending proto rest ?g] => destruct (IH g) as [K E] end.
  split; [by eapply kept_trans; [|exact K]|exact E].
Qed.
Lemma send_udp_kept io f :
  kept f (snd (tg_flow_send_udp proto io f)) /\
  (state (snd (tg_flow_send_udp proto io f)) = state f \/ state (snd (tg_flow_send_udp proto io f)) = TG_FLOW_RECEIVING).
Proof.
  unfold tg_flow_send_udp. case_match; [by split; [|right]|]. destruct (head (sends io)) as [[e|sent]|]; try by split; [|left].
  case_match; [by split; [|right]|by split; [|left]].
Qed.

Definition kept_state (f f' : tg_flow) : Prop := kept f f' /\ state f' = state f.
Lemma kept_state_trans a b c : kept_state a b -> kept_state b c -> kept_state a c.
Proof. intros [K1 E1] [K2 E2]. split; [by eapply kept_trans|congruence]. Qed.
Lemma kept_state_refl f : kept_state f f.
Proof. done. Qed.

Lemma deliver_kept t data f : kept_state f (snd (tg_flow_deliver_response proto t data f)).
Proof. unfold tg_flow_deliver_response. destruct (first_rx_cycles f =? 0); cbv zeta; by destruct (tg_txn_on_rx _ _ _). Qed.
Lemma drain_kept t answers c f : kept_state f (snd (tg_flow_drain_receive proto t answers c f)).
Proof.
  revert c f. induction answers as [|[e|[data from]] rest IH]; intros c f; cbn; try done.
  pose proof (deliver_kept t data f) as K. destruct (tg_flow_deliver_response proto t data f) as [r f1]. cbn in K.
  case_bool_decide; [done|]. case_bool_decide; [done|]. by eapply kept_state_trans.
Qed.
Lemma drain_udp_kept t answers f : kept_state f (snd (tg_flow_drain_udp_receive proto t answers f)).
Proof.
  revert f. induction answers as [|[e|[data from]] rest IH]; intros f; cbn; try done.
  destruct (tg_flow_peer_matches f from); cbn [negb]; [|apply IH].
  pose proof (deliver_kept t data f) as K. destruct (tg_flow_deliver_response proto t data f) as [r f1]. cbn in K.
  destruct r; try done. by eapply kept_state_trans.
Qed.
Lemma io_result_kept e f : kept_state f (snd (tg_flow_io_result e f)).
Proof. by split. Qed.
Lemma rx_result_kept e f : kept_state f (snd (tg_flow_rx_result e f)).
Proof. unfold tg_flow_rx_result. by case_bool_decide. Qed.

Lemma kept_place f f' : kept f f' -> place f' = place f.
Proof. unfold kept. congruence. Qed.
Lemma kept_active f f' : kept_state f f' -> active f' = active f.
Proof. unfold active. by intros [_ ->]. Qed.
Lemma kept_handle f f' : kept f f' -> handle f' = handle f.
Proof. unfold kept, place. congruence. Qed.
Lemma sent_active f f' : (state f' = state f \/ state f' = TG_FLOW_RECEIVING) -> active f = true -> active f' = true.
Proof. unfold active. by intros [-> | ->]. Qed.

Lemma on_flow_moved {A} s x f (d : A) g :
  flows s !! x = Some f -> kept f (snd (g f)) -> shaped s ->
  exists s', on_flow x d g s = (fst (g f), s') /\ moved x (snd (g f)) s s'.
Proof.
  intros Hf K S. unfold on_flow. rewrite Hf. destruct (g f) as [a f'] eqn:E. eexists. split; [done|].
  by apply (moved_insert s x f); [|apply kept_place|].
Qed.

(** ** What an operation on one flow leaves *)

Definition settles (T : Z) (x : nat) (f : tg_flow) (s s' : shard) : Prop :=
  exists o d, around x o d s s' /\
    match o with
    | Some f' => rest T f' /\ b2z (active f) + d = b2z (active f')
    | None => b2z (active f) + d = 0
    end.

Lemma settles_after T x f f1 s s1 s' : moved x f1 s s1 -> active f1 = active f -> settles T x f1 s1 s' -> settles T x f s s'.
Proof.
  intros M E (o & d & A & H). exists o, d. split; [|by rewrite <- E]. by eapply around_then; [apply moved_around|].
Qed.
Lemma settles_same T x f s : flows s !! x = Some f -> rest T f -> shaped s -> settles T x f s s.
Proof. intros Hf R S. exists (Some f), 0. split; [rewrite <- Hf; by apply around_same|]. split; [done|lia]. Qed.
Lemma settles_close T x f s r :
  flows s !! x = Some f -> active f = false -> shaped s -> settles T x f s (tg_flow_close_connection x false r s).
Proof. intros Hf Ha S. exists None, 0. rewrite Ha. by split; [eapply close_around|]. Qed.
Lemma settles_ended T x f o s s' : active f = true -> around x o (-1) s s' -> ended T o -> settles T x f s s'.
Proof. intros Ha A E. exists o, (-1). rewrite Ha. split; [done|]. destruct o; [|done]. destruct E as [? ->]. by split. Qed.

Definition good (io : flow_io) : Prop := 0 < now io /\ hz io = hertz.

Lemma finish_as_around T x f s io st r reuse :
  flows s !! x = Some f -> busy T f -> shaped s -> good io -> (reuse = true -> hprotocol (handle f) <> IPPROTO_UDP) ->
  exists o, around x o (-1) s (finish_as io st r reuse x s) /\ ended T o /\ (reuse = false -> o = None).
Proof.
  intros Hf B S [Hn Hz] Hu. pose proof (moved_update s x (with_f_state st) f Hf eq_refl S) as M.
  destruct (finish_around _ x (with_f_state st f) T io r reuse (moved_at _ _ _ _ M) B (moved_shaped _ _ _ _ M) Hn Hz Hu) as (o & A & E).
  exists o. split; [|done]. by eapply around_then; [apply moved_around|].
Qed.
Lemma finish_as_settles T x f s io st r reuse :
  flows s !! x = Some f -> busy T f -> active f = true -> shaped s -> good io -> (reuse = true -> hprotocol (handle f) <> IPPROTO_UDP) ->
  settles T x f s (finish_as io st r reuse x s).
Proof.
  intros Hf B Ha S G Hu. destruct (finish_as_around T x f s io st r reuse Hf B S G Hu) as (o & A & E & _). by eapply settles_ended.
Qed.
Lemma fail_with_settles T x f s g io e :
  flows s !! x = Some f -> busy T f -> active f = true -> shaped s -> good io -> (forall f, kept f (snd (g e f))) ->
  settles T x f s (fail_with g io e x s).
Proof.
  intros Hf B Ha S [Hn Hz] K. unfold fail_with. pose proof (moved_update s x (with_f_state TG_FLOW_FAILED) f Hf eq_refl S) as M.
  destruct (on_flow_moved _ x _ TG_FLOW_RESULT_IO_FAILURE (g e) (moved_at _ _ _ _ M) (K _) (moved_shaped _ _ _ _ M)) as (s1 & -> & M1).
  pose proof (flow_moved_trans _ _ _ _ _ _ M M1) as M2.
  destruct (finish_around s1 x _ T io (fst (g e (with_f_state TG_FLOW_FAILED f))) false (moved_at _ _ _ _ M1)
    (kept_busy T (with_f_state TG_FLOW_FAILED f) _ (K _) B) (moved_shaped _ _ _ _ M1) Hn Hz ltac:(done)) as (o & A & E & _).
  eapply settles_ended; [done| |exact E]. by eapply around_then; [apply moved_around|].
Qed.
(** ** Events *)

Lemma has_ev_or e a b : has_ev e (Z.lor a b) = has_ev e a || has_ev e b.
Proof.
  unfold has_ev. rewrite Z.land_lor_distr_r. destruct (Z.eqb_spec (Z.lor (Z.land e a) (Z.land e b)) 0) as [E|E].
  - apply Z.lor_eq_0_iff in E as [-> ->]. done.
  - destruct (Z.eqb_spec (Z.land e a) 0) as [Ea|]; [|done]. destruct (Z.eqb_spec (Z.land e b) 0) as [Eb|]; [|done].
    by rewrite Ea, Eb in E.
Qed.
Lemma state_at s x (f : tg_flow) : flows s !! x = Some f -> state_of x s = state f.
Proof. unfold state_of. by intros ->. Qed.

Section Event.
Context (T : Z) (io : flow_io) (x : nat) (G : good io).

Lemma udp_read_settles s f ev :
  flows s !! x = Some f -> rest T f -> active f = true -> shaped s -> settles T x f s (udp_read proto io x ev s).
Proof.
  intros Hf R Ha S. unfold udp_read. case_match; [|by apply settles_same].
  destruct (on_flow_moved s x f (inr false) _ Hf (proj1 (drain_udp_kept (now io) (recvs io) f)) S) as (s1 & -> & M).
  pose proof (drain_udp_kept (now io) (recvs io) f) as K. revert M K.
  destruct (tg_flow_drain_udp_receive proto (now io) (recvs io) f) as [r f1]. cbn [fst snd]. intros M K.
  pose proof (moved_at _ _ _ _ M) as Hf1. pose proof (moved_shaped _ _ _ _ M) as S1.
  pose proof (kept_busy T f f1 (proj1 K) (active_busy T f Ha R)) as B1. pose proof (kept_active _ _ K) as E. rewrite Ha in E.
  apply (settles_after T x f f1 s s1); [done|congruence|]. destruct r as [e|[]].
  - apply fail_with_settles; first [done|intros g; apply rx_result_kept].
  - by apply finish_as_settles.
  - apply settles_same; try done. by apply busy_rest.
Qed.

Lemma on_udp_event_settles s f ev :
  flows s !! x = Some f -> rest T f -> active f = true -> shaped s -> settles T x f s (tg_flow_on_udp_event proto io x ev s).
Proof.
  intros Hf R Ha S. pose proof (active_busy T f Ha R) as B. unfold tg_flow_on_udp_event. case_match; [by apply finish_as_settles|].
  case_match; [|by apply udp_read_settles]. destruct (send_udp_kept io f) as [K E].
  destruct (on_flow_moved s x f None _ Hf K S) as (s1 & -> & M).
  revert M K E. destruct (tg_flow_send_udp proto io f) as [r f1]. cbn [fst snd]. intros M K E.
  pose proof (moved_at _ _ _ _ M) as Hf1. pose proof (moved_shaped _ _ _ _ M) as S1.
  pose proof (kept_busy T f f1 K B) as B1. pose proof (sent_active _ _ E Ha) as Ha1.
  apply (settles_after T x f f1 s s1); [done|congruence|]. destruct r as [e|].
  - apply fail_with_settles; first [done|intros g; apply io_result_kept].
  - apply udp_read_settles; try done. by apply busy_rest.
Qed.

Lemma closing_event_settles s f ev :
  flows s !! x = Some f -> rest T f -> active f = false -> shaped s -> settles T x f s (closing_event io x ev s).
Proof.
  intros Hf R Ha S. unfold closing_event. cbv zeta.
  repeat case_match; first [by apply settles_same|by apply settles_close].
Qed.

(** Not closing: under way, or idle. *)
Definition open (f : tg_flow) : Prop := active f = true \/ state f = TG_FLOW_IDLE.
Lemma open_idle f : open f -> state f <> TG_FLOW_IDLE -> active f = true.
Proof. by intros [|]. Qed.

Lemma hup_event_settles s f ev :
  flows s !! x = Some f -> rest T f -> open f -> shaped s -> settles T x f s (hup_event io x ev s).
Proof.
  intros Hf R O S. unfold hup_event. rewrite (state_at _ _ _ Hf), has_ev_or. case_bool_decide as Ei; cbn [andb].
  - assert (active f = false) as Ha by (unfold active; by rewrite Ei). destruct (has_ev ev OWNER_IO_EV_HUP) eqn:Eh.
    + rewrite orb_true_r. by apply settles_close.
    + rewrite orb_false_r. case_match; [by apply settles_close|by apply settles_same].
  - pose proof (open_idle f O Ei) as Ha. case_match; [|by apply settles_same]. apply finish_as_settles; try done. by apply active_busy.
Qed.

Lemma tcp_read_settles s f ev :
  flows s !! x = Some f -> rest T f -> open f -> hprotocol (handle f) <> IPPROTO_UDP -> shaped s ->
  settles T x f s (tcp_read proto io x ev s).
Proof.
  intros Hf R O Hu S. unfold tcp_read. rewrite (state_at _ _ _ Hf). case_bool_decide as Ei; cbn [andb]; [|by apply hup_event_settles].
  case_match; [|by apply hup_event_settles].
  assert (active f = true) as Ha by (apply open_idle; [done|]; intros E; rewrite E in Ei; by apply list_elem_of_In in Ei as [|[|]]).
  pose proof (drain_kept (now io) (recvs io) false f) as K. destruct (on_flow_moved s x f (inr (false, false)) _ Hf (proj1 K) S) as (s1 & -> & M).
  revert M K. destruct (tg_flow_drain_receive proto (now io) (recvs io) false f) as [r f1]. cbn [fst snd]. intros M K.
  pose proof (moved_at _ _ _ _ M) as Hf1. pose proof (moved_shaped _ _ _ _ M) as S1.
  pose proof (kept_busy T f f1 (proj1 K) (active_busy T f Ha R)) as B1. pose proof (kept_active _ _ K) as E. rewrite Ha in E.
  assert (hprotocol (handle f1) <> IPPROTO_UDP) as Hu1 by (by rewrite (kept_handle f f1 (proj1 K))).
  apply (settles_after T x f f1 s s1); [done|congruence|]. destruct r as [e|[eof complete]].
  { apply fail_with_settles; first [done|intros g; apply rx_result_kept]. }
  destruct complete; [destruct eof; by apply finish_as_settles|]. destruct eof.
  - match goal with |- context [on_flow x ?d ?g s1] => destruct (on_flow_moved s1 x f1 d g Hf1) as (s2 & -> & M2); [|done|] end.
    { by destruct (tg_txn_on_eof proto (txn f1)). }
    revert M2. destruct (tg_txn_on_eof proto (txn f1)) as [r t]. cbn [fst snd]. intros M2.
    pose proof (moved_at _ _ _ _ M2) as Hf2. pose proof (moved_shaped _ _ _ _ M2) as S2.
    apply (settles_after T x f1 (with_f_txn t f1) s1 s2); [done..|]. case_match; by apply finish_as_settles.
  - apply hup_event_settles; try done; [by apply busy_rest|by left].
Qed.

Lemma tcp_write_settles s f ev :
  flows s !! x = Some f -> rest T f -> open f -> hprotocol (handle f) <> IPPROTO_UDP -> shaped s ->
  settles T x f s (tcp_write proto io x ev s).
Proof.
  intros Hf R O Hu S. unfold tcp_write. rewrite (state_at _ _ _ Hf). case_bool_decide as Ei; cbn [andb]; [|by apply tcp_read_settles].
  case_match; [|by apply tcp_read_settles].
  assert (active f = true) as Ha by (apply open_idle; [done|congruence]). pose proof (active_busy T f Ha R) as B.
  destruct (send_pending_kept (sends io) f) as [K E]. destruct (on_flow_moved s x f None _ Hf K S) as (s1 & -> & M).
  revert M K E. destruct (tg_flow_send_pending proto (sends io) f) as [r f1]. cbn [fst snd]. intros M K E.
  pose proof (moved_at _ _ _ _ M) as Hf1. pose proof (moved_shaped _ _ _ _ M) as S1.
  pose proof (kept_busy T f f1 K B) as B1. pose proof (sent_active _ _ E Ha) as Ha1.
  apply (settles_after T x f f1 s s1); [done|congruence|]. destruct r as [e|].
  - apply fail_with_settles; first [done|intros g; apply io_result_kept].
  - apply tcp_read_settles; try done; [by apply busy_rest|by left|by rewrite (kept_handle f f1 K)].
Qed.

Lemma error_event_settles s f e :
  flows s !! x = Some f -> rest T f -> open f -> shaped s -> settles T x f s (error_event io e x s).
Proof.
  intros Hf R O S. unfold error_event. rewrite (state_at _ _ _ Hf).
  destruct (on_flow_moved s x f TG_FLOW_RESULT_IO_FAILURE _ Hf (proj1 (io_result_kept e f)) S) as (s1 & E & M). rewrite E. cbn [snd].
  pose proof (io_result_kept e f) as K. revert M K. generalize (snd (tg_flow_io_result e f)). intros f1 M K.
  pose proof (moved_at _ _ _ _ M) as Hf1. pose proof (moved_shaped _ _ _ _ M) as S1. pose proof (kept_active _ _ K) as Ea.
  apply (settles_after T x f f1 s s1); [done..|]. case_bool_decide as Ei.
  - apply settles_close; try done. rewrite Ea. unfold active. by rewrite Ei.
  - pose proof (open_idle f O Ei) as Ha. rewrite Ha in Ea. apply finish_as_settles; try done.
    eapply kept_busy; [exact (proj1 K)|]. by apply active_busy.
Qed.

Lemma on_event_settles s f io_errno ev :
  flows s !! x = Some f -> rest T f -> shaped s -> settles T x f s (tg_flow_on_event proto io_errno io x ev s).
Proof.
  intros Hf R S. unfold tg_flow_on_event. rewrite Hf. destruct (Z.eqb_spec (hprotocol (handle f)) IPPROTO_UDP) as [Eu|Eu].
  { apply on_udp_event_settles; try done. unfold rest in R. unfold active. destruct (state f); try done; by destruct_and?. }
  case_bool_decide as Ec; [apply closing_event_settles; try done; unfold active; by rewrite Ec|].
  assert (open f) as O by (unfold open, active, rest in *; destruct (state f); try done; first [by left|by right]).
  case_match; [by apply error_event_settles|]. destruct (has_ev ev OWNER_IO_EV_CONNECTED); cbn [andb]; [|by apply tcp_write_settles].
  case_bool_decide as En; [|by apply tcp_write_settles].
  match goal with |- context [update x ?g s] => pose proof (moved_update s x g f Hf eq_refl S) as M end.
  pose proof (moved_at _ _ _ _ M) as Hf1. pose proof (moved_shaped _ _ _ _ M) as S1.
  assert (active f = true) as Ha by (apply open_idle; [done|congruence]).
  eapply settles_after; [exact M|by rewrite Ha|]. apply tcp_write_settles; try done; [|by left]. by apply (active_busy T f).
Qed.
End Event.
End Life.
