(* ===== verification/FlowStart.v ===== *)
(** * Flows: admission, expiry and shutdown keep the invariant

    [life] is the invariant of a shard between two operations: every flow is
    at rest and has as many transactions in flight as its state says. *)

From stdpp Require Import gmap.
From S2P Require Import Prelude Config Txn OwnerTimer TcpTcb ConnPool Flow FlowFacts FlowLife.

(** The flow pool hands out unused slots. *)
Definition fresh_slots (io : flow_io) : Prop := forall used x, slot io used = Some x -> x ∉ used.

Section Start.
Context {Cfg Ctx : Type} (proto : tg_proto_ops Cfg Ctx) (hertz T : Z).
Local Abbreviation tg_flow := (tg_flow Cfg Ctx).
Local Abbreviation shard := (shard Cfg Ctx).
Local Abbreviation around := (around (Cfg := Cfg) (Ctx := Ctx)).

(** No flow and no account changed. *)
Definition quiet (s s' : shard) : Prop :=
  shaped s' /\ (forall y, flows s' !! y = flows s !! y) /\ (forall y, in_flight y (notes s') = in_flight y (notes s)).
Lemma quiet_same s : shaped s -> quiet s s.
Proof. done. Qed.
Lemma around_quiet x s s' : flows s !! x = None -> around x None 0 s s' -> quiet s s'.
Proof.
  intros Hn [S F O N]. split_and!; [done| |].
  - intros y. destruct (decide (y = x)) as [->|Hy]; [congruence|by apply O].
  - intros y. rewrite N. case_decide; lia.
Qed.

(** What a start gives: nothing, or a new flow under way. *)
Definition started (s : shard) (r : (errno + nat) * shard) : Prop :=
  match r with
  | (inl _, s') => quiet s s'
  | (inr x, s') => flows s !! x = None /\ exists f, around x (Some f) 0 s s' /\ busy T f /\ active f = true
  end.

(** Flow [f] is being set up in slot [x], which was unused in [s]. *)
Definition setting (x : nat) (f : tg_flow) (s s' : shard) : Prop := flows s !! x = None /\ around x (Some f) 0 s s'.
Lemma setting_moved x f f' s s1 s2 : setting x f s s1 -> moved x f' s1 s2 -> setting x f' s s2.
Proof. intros [Hn A] M. split; [done|]. by eapply around_then; [|apply moved_around]. Qed.
Lemma setting_at x f s s' : setting x f s s' -> flows s' !! x = Some f.
Proof. intros [_ A]. apply A. Qed.
Lemma setting_shaped x f s s' : setting x f s s' -> shaped s'.
Proof. intros [_ A]. apply A. Qed.
Lemma setting_cleanup x f s s' b : setting x f s s' -> quiet s (tg_flow_start_cleanup x b s').
Proof.
  intros St. apply (around_quiet x); [apply St|]. eapply around_then; [apply St|].
  eapply cleanup_around; [by apply (setting_at _ _ _ _ St)|by apply (setting_shaped _ _ _ _ St)].
Qed.
Lemma setting_fail x f s s' e : setting x f s s' -> started s (fail_start e x s').
Proof. apply setting_cleanup. Qed.
Lemma setting_note x f s s' n :
  setting x f s s' -> (forall y, weight y n = 0) -> setting x f s (note_of n s').
Proof.
  intros St Hw. split; [apply St|]. eapply around_then; [apply St|]. apply around_note; [apply (setting_at _ _ _ _ St)| |apply (setting_shaped _ _ _ _ St)].
  intros y. rewrite Hw. by case_decide.
Qed.
Lemma setting_update x f s s' g : setting x f s s' -> place (g f) = place f -> setting x (g f) s (update x g s').
Proof.
  intros St P. eapply setting_moved; [exact St|]. apply moved_update; [apply (setting_at _ _ _ _ St)|done|apply (setting_shaped _ _ _ _ St)].
Qed.

(** ** A new flow *)

Definition fresh_flow (f : tg_flow) : Prop :=
  mapped f = false /\ in_idle_pool f = false /\ in_conn_pool f = false /\ completion_notified f = false /\ on_finish f = true.

Lemma setting_fresh x f s s' g :
  setting x f s s' -> fresh_flow f -> fresh_flow (g f) -> expire_queued (g f) = expire_queued f -> setting x (g f) s (update x g s').
Proof.
  intros St (M1 & I1 & C1 & _) (M2 & I2 & C2 & _) E. eapply setting_moved; [exact St|].
  apply moved_fresh; [apply (setting_at _ _ _ _ St)|congruence|congruence|apply (setting_shaped _ _ _ _ St)].
Qed.

Lemma pool_get_setting s io x s' :
  fresh_slots io -> shaped s -> pool_get io s = Some (x, s') -> setting x flow_zero s s'.
Proof.
  intros Fr S. unfold pool_get. destruct (slot io (dom (flows s))) as [y|] eqn:E; [|done]. intros [= <- <-].
  apply Fr, not_elem_of_dom in E. split; [done|]. split; [by apply pool_get_shaped|apply lookup_insert_eq| |].
  - intros z Hz. by apply lookup_insert_ne.
  - intros z. case_decide; cbn; lia.
Qed.

Lemma start_txn_setting x f s s' cfg req :
  setting x f s s' ->
  exists t s2, start_txn proto cfg req x s' = (fst (start_txn proto cfg req x s'), s2) /\ setting x (with_f_txn t f) s s2.
Proof.
  intros St. unfold start_txn. rewrite (setting_at _ _ _ _ St). destruct (tg_txn_init_with_request _ _ _ _ _) as [[ok t] m].
  exists t. eexists. split; [done|]. eapply setting_moved; [exact St|]. apply moved_txn.
  by apply (moved_update s' x (with_f_txn t) f); [apply (setting_at _ _ _ _ St)| |apply (setting_shaped _ _ _ _ St)].
Qed.

(** With the deadline of a TCP flow. *)
Lemma open_flow_setting io cfg cls req tcp s :
  fresh_slots io -> good hertz io -> shaped s ->
  match open_flow proto io cfg cls req tcp s with
  | (inl _, s') => quiet s s'
  | (inr x, s') => exists f, setting x f s s' /\ fresh_flow f /\ (tcp = true -> 0 < deadline_cycles f)
  end.
Proof.
  intros Fr [Hn Hz] S. unfold open_flow. destruct (pool_get io s) as [[x s1]|] eqn:E; [|by apply quiet_same].
  pose proof (pool_get_setting s io x s1 Fr S E) as St. set (g := fun f : tg_flow => _).
  assert (setting x (g flow_zero) s (update x g s1)) as St2.
  { eapply setting_moved; [exact St|]. apply moved_fresh; [apply (setting_at _ _ _ _ St)|done|by destruct tcp|apply (setting_shaped _ _ _ _ St)]. }
  assert (fresh_flow (g flow_zero) /\ (tcp = true -> 0 < deadline_cycles (g flow_zero))) as [Ff Fd].
  { subst g. destruct tcp; [|done]. split; [done|]. intros _. cbn. rewrite Hz. by apply deadline_pos. }
  destruct (start_txn_setting x _ _ _ cfg req St2) as (t & s3 & -> & St3). destruct (fst _).
  - by exists (with_f_txn t (g flow_zero)).
  - apply (around_quiet x); [apply St|]. eapply around_then; [apply St3|].
    eapply around_put; [apply (setting_at _ _ _ _ St3)|apply Ff..|apply (setting_shaped _ _ _ _ St3)].
Qed.

Lemma open_socket_setting io x f s s1 :
  setting x f s s1 -> fresh_flow f ->
  match open_socket io x s1 with
  | (inl _, s') => quiet s s'
  | (inr h, s') => setting x (with_f_handle h f) s s'
  end.
Proof.
  intros St Ff. unfold open_socket. destruct (created io) as [e|h]; [by eapply setting_cleanup|].
  pose proof (setting_fresh x f s s1 (with_f_handle h) St Ff Ff eq_refl) as St1.
  pose proof (setting_note _ _ _ _ SocketCreated St1 ltac:(done)) as St2. destruct (observer io) as [e|]; [|done].
  eapply setting_cleanup. by apply (setting_note _ _ _ _ SocketReleased St2).
Qed.

(** ** Its first step *)

(** In the map, not yet armed. *)
Definition launchable (f : tg_flow) : Prop :=
  mapped f = true /\ in_idle_pool f = false /\ completion_notified f = false /\ on_finish f = true /\ 0 < deadline_cycles f.

Lemma arm_setting io x f s s1 (d := from_option deadline_cycles 0 (flows s1 !! x)) :
  setting x f s s1 -> launchable f ->
  match tg_flow_timeout_arm io x d s1 with
  | (false, s2) => exists f', setting x f' s s2
  | (true, s2) => exists f', setting x f' s s2 /\ busy T f'
  end.
Proof.
  intros St L. subst d. rewrite (setting_at _ _ _ _ St). cbn [from_option].
  destruct (arm_moved io s1 x (deadline_cycles f) f (setting_at _ _ _ _ St) (setting_shaped _ _ _ _ St)) as (f' & M & E).
  destruct (tg_flow_timeout_arm io x (deadline_cycles f) s1) as [[] s2]; cbn [fst snd] in *.
  - exists f'. split; [by eapply setting_moved|]. subst f'. destruct L as (L1 & L2 & L3 & L4 & L5). by split_and!.
  - exists f'. by eapply setting_moved.
Qed.

Lemma launch_tcp_started io x f s s1 : setting x f s s1 -> launchable f -> started s (launch_tcp proto io x s1).
Proof.
  intros St L. unfold launch_tcp. pose proof (arm_setting io x f s s1 St L) as H. cbv zeta in H.
  destruct (tg_flow_timeout_arm _ _ _ _) as [[] s2]; [|destruct H as (f' & St'); by eapply setting_fail].
  destruct H as (f1 & St1 & B1). pose proof (setting_update x f1 s s2 (with_f_state TG_FLOW_CONNECTING) St1 eq_refl) as St2.
  destruct (connected io) as [e|].
  - case_bool_decide; [|by eapply setting_fail]. split; [apply St|]. eexists. by split; [apply St2|].
  - match goal with |- context [update x ?g (update x (with_f_state TG_FLOW_CONNECTING) s2)] =>
      pose proof (setting_update x _ s _ g St2 eq_refl) as St3 end.
    match type of St3 with setting x ?f3 s ?s3 => destruct (send_pending_kept proto (sends io) f3) as [K E];
      destruct (on_flow_moved s3 x f3 None _ (setting_at _ _ _ _ St3) K (setting_shaped _ _ _ _ St3)) as (s4 & -> & M);
      pose proof (kept_busy T f3 _ K B1) as B2; pose proof (sent_active f3 _ E eq_refl) as A2; revert M B2 A2;
      destruct (tg_flow_send_pending proto (sends io) f3) as [[e|] f4]; cbn [fst snd]; intros M B2 A2 end.
    + eapply setting_fail. by eapply setting_moved.
    + split; [apply St|]. exists f4. split; [|done]. by apply (setting_moved _ _ _ _ _ _ St3 M).
Qed.

Lemma launch_udp_started io x f s s1 : setting x f s s1 -> launchable f -> started s (launch_udp proto io x s1).
Proof.
  intros St L. unfold launch_udp. pose proof (arm_setting io x f s s1 St L) as H. cbv zeta in H.
  destruct (tg_flow_timeout_arm _ _ _ _) as [[] s2]; [|destruct H as (f' & St'); by eapply setting_fail].
  destruct H as (f1 & St1 & B1). pose proof (setting_update x f1 s s2 (with_f_state TG_FLOW_SENDING) St1 eq_refl) as St2.
  cbv zeta. rewrite (setting_at _ _ _ _ St2). cbn [from_option]. destruct (head (sends io)) as [[e|sent]|].
  - case_bool_decide; [|by eapply setting_fail]. split; [apply St|]. eexists. by split; [apply St2|].
  - case_match; [|by eapply setting_fail]. split; [apply St|].
    match goal with |- context [update x (accept_datagram proto ?n) ?s3] => pose proof (setting_update x _ s _ (accept_datagram proto n) St2 eq_refl) as St3 end.
    eexists. by split; [apply St3|].
  - split; [apply St|]. eexists. by split; [apply St2|].
Qed.

Lemma register_tcp_started io cls pooled x h f s s1 :
  setting x f s s1 -> fresh_flow f -> 0 < deadline_cycles f -> started s (register_tcp proto io cls pooled x h s1).
Proof.
  intros St Ff Hd. unfold register_tcp. pose proof (map_insert_moved s1 x h f (setting_at _ _ _ _ St) (setting_shaped _ _ _ _ St)) as H.
  destruct (tg_flow_map_insert x h s1) as [[e|] s2].
  - subst s2. eapply setting_fail. by apply (setting_fresh x f s s1 (with_f_handle h)).
  - destruct H as [_ M]. pose proof (setting_moved _ _ _ _ _ _ St M) as St2. destruct Ff as (_ & F1 & F2 & F3 & F4).
    assert (forall s3, s3 = s2 -> started s (launch_tcp proto io x s3)) as Plain.
    { intros ? ->. by eapply launch_tcp_started; [exact St2|]. }
    destruct cls as [c|]; [|by apply Plain]. destruct pooled; [|by apply Plain].
    pose proof (attach_moved s2 x c _ (setting_at _ _ _ _ St2) (setting_shaped _ _ _ _ St2)) as H.
    destruct (tg_conn_pool_attach x c s2) as [[e|] s3].
    + subst s3. by eapply setting_fail.
    + eapply launch_tcp_started; [by eapply setting_moved|]. by split_and!.
Qed.

Lemma start_tcp_started io cfg cls pooled req s :
  fresh_slots io -> good hertz io -> shaped s -> started s (tg_flow_start_tcp proto io cfg cls pooled req s).
Proof.
  intros Fr G S. unfold tg_flow_start_tcp. case_match; [by apply quiet_same|].
  pose proof (open_flow_setting io cfg cls req true s Fr G S) as H1. destruct (open_flow _ _ _ _ _ _ _) as [[e|x] s1]; [done|].
  destruct H1 as (f & St & Ff & Fd). pose proof (setting_update x f s s1 (with_f_requests_started 1) St eq_refl) as St1.
  pose proof (open_socket_setting io x _ s _ St1 Ff) as H2. destruct (open_socket _ _ _) as [[e|h] s2]; [done|].
  eapply register_tcp_started; [exact H2|exact Ff|by apply Fd].
Qed.

Lemma start_udp_started io cfg addr req s :
  fresh_slots io -> good hertz io -> shaped s -> started s (tg_flow_start_udp proto io cfg addr req s).
Proof.
  intros Fr G S. unfold tg_flow_start_udp. case_match; [by apply quiet_same|].
  pose proof (open_flow_setting io cfg None req false s Fr G S) as H1. destruct (open_flow _ _ _ _ _ _ _) as [[e|x] s1]; [done|].
  destruct H1 as (f & St & Ff & Fd). pose proof (open_socket_setting io x _ s _ St Ff) as H2.
  destruct (open_socket _ _ _) as [[e|h] s2]; [done|]. destruct (bound_ok io); [by eapply setting_fail|].
  cbv zeta. match goal with |- context [update x ?g s2] => pose proof (setting_update x _ s s2 g H2 eq_refl) as St3;
    revert St3; generalize (update x g s2) end. intros s3 St3.
  pose proof (map_insert_moved s3 x h _ (setting_at _ _ _ _ St3) (setting_shaped _ _ _ _ St3)) as H3.
  destruct (tg_flow_map_insert x h s3) as [[e|] s4]; [subst s4; by eapply setting_fail|].
  destruct H3 as [_ M]. eapply launch_udp_started; [by eapply setting_moved|]. destruct Ff as (_ & F1 & F2 & F3 & F4). destruct G as [Gn Gz].
  split_and!; try done. cbn. rewrite Gz. by apply deadline_pos.
Qed.
End Start.
