(* ===== verification/FlowHistory.v ===== *)
(** * Flows: histories of a shard

    Any interleaving of admissions, socket events, timer callbacks, expiry
    rounds and the shutdown of idle connections. *)

From stdpp Require Import gmap.
From S2P Require Import Prelude Config Txn OwnerTimer TcpTcb ConnPool Flow FlowFacts FlowLife FlowStart.

Section History.
Context {Cfg Ctx : Type} (proto : tg_proto_ops Cfg Ctx) (hertz : Z).
Local Abbreviation tg_flow := (tg_flow Cfg Ctx).
Local Abbreviation shard := (shard Cfg Ctx).

(** [T] is the time of the last operation. *)
Definition life (T : Z) (s : shard) : Prop :=
  shaped s /\
  forall x, match flows s !! x with
            | Some f => rest hertz T f /\ in_flight x (notes s) = b2z (active f)
            | None => in_flight x (notes s) = 0
            end.

Lemma life_later T T' s : life T s -> T <= T' -> life T' s.
Proof.
  intros [S L] HT. split; [done|]. intros x. specialize (L x). destruct (flows s !! x); [|done].
  destruct L. split; [by eapply rest_later|done].
Qed.
Lemma life_rest T s x f : life T s -> flows s !! x = Some f -> rest hertz T f.
Proof. intros [_ L] Hf. specialize (L x). rewrite Hf in L. apply L. Qed.
Lemma life_settles T x f s s' : life T s -> flows s !! x = Some f -> settles hertz T x f s s' -> life T s'.
Proof.
  intros [_ L] Hf (o & d & [S' F O N] & H). split; [done|]. intros y. destruct (decide (x = y)) as [<-|Hne].
  - rewrite F, N, decide_True by done. specialize (L x). rewrite Hf in L. destruct L as [_ L], o as [f'|]; rewrite L; lia || done.
  - rewrite O, N, decide_False, Z.add_0_r by congruence. apply L.
Qed.
Lemma life_quiet T s s' : life T s -> quiet s s' -> life T s'.
Proof. intros [_ L] (S & F & N). split; [done|]. intros x. rewrite F, N. apply L. Qed.
Lemma life_record T s r : life T s -> started T s r -> life T (snd (record_start r)).
Proof.
  intros [S L] H. destruct r as [[e|x] s1]; cbn in *; [by eapply life_quiet|].
  destruct H as (Hn & f & A & B & Ha). pose proof (L x) as Lx. rewrite Hn in Lx.
  pose proof (around_note x f 1 (Started x) s1 (ar_self _ _ _ _ _ A) ltac:(done) (ar_shaped _ _ _ _ _ A)) as A1.
  destruct (around_trans _ _ _ _ _ _ _ _ A A1) as [S' F O N]. split; [done|]. intros y. destruct (decide (x = y)) as [<-|Hne].
  - rewrite F, N, decide_True, Lx, Ha by done. split; [by apply busy_rest|done].
  - rewrite O, N, decide_False, Z.add_0_r by congruence. apply L.
Qed.

(** ** Admission *)

Section Rearm.
Context (T : Z).

Lemma rearm_around io x f cfg req s :
  flows s !! x = Some f -> mapped f = true -> on_finish f = true -> in_idle_pool f = false -> good hertz io -> shaped s ->
  match tg_flow_rearm_tcp proto io x cfg req s with
  | (None, s') => exists f', around x (Some f') 0 s s' /\ busy T f' /\ active f' = true
  | (Some _, s') => exists f', around x (Some f') 0 s s'
  end.
Proof.
  intros Hf Hm Ho Hi [Hn Hz] S. unfold tg_flow_rearm_tcp. rewrite Hf.
  assert (exists f', around x (Some f') 0 s s) as Same by (exists f; rewrite <- Hf; by apply around_same).
  destruct (bool_decide (req = []) || _ || _); [done|]. destruct (idle_clean io); cbn [negb]; [|done]. destruct (tg_txn_rearm_with_request _ _ _ _ _) as [[ok t] m].
  pose proof (moved_txn x _ s _ m (moved_update s x (with_f_txn t) f Hf eq_refl S)) as M1. cbv zeta.
  revert M1. generalize (with_s_txn_resources m (update x (with_f_txn t) s)). intros s1 M1.
  destruct ok; cbn [negb]; [|eexists; apply moved_around, M1]. set (d := tg_flow_deadline _ _ _).
  match goal with |- context [update x ?g s1] =>
    pose proof (moved_update s1 x g _ (moved_at _ _ _ _ M1) eq_refl (moved_shaped _ _ _ _ M1)) as M2;
    set (f2 := g (with_f_txn t f)) in M2; revert M2; generalize (update x g s1) end. intros s2 M2.
  pose proof (flow_moved_trans _ _ _ _ _ _ M1 M2) as M. clear M1 M2.
  destruct (arm_moved io s2 x d f2 (moved_at _ _ _ _ M) (moved_shaped _ _ _ _ M)) as (f3 & M3 & E3).
  destruct (tg_flow_timeout_arm io x d s2) as [[] s3]; cbn [fst snd] in *;
    pose proof (flow_moved_trans _ _ _ _ _ _ M M3) as M'; [|eexists; apply moved_around, M'].
  pose proof (moved_update s3 x (rearm_fields io) f3 (moved_at _ _ _ _ M') eq_refl (moved_shaped _ _ _ _ M')) as M4.
  pose proof (flow_moved_trans _ _ _ _ _ _ M' M4) as M''. assert (busy T (rearm_fields io f3)) as B.
  { subst f3 f2. split_and!; try done. split; [|done]. cbn. subst d. rewrite Hz. by apply deadline_pos. }
  destruct (send_pending_kept proto (sends io) (rearm_fields io f3)) as [K E].
  destruct (on_flow_moved _ x _ None _ (moved_at _ _ _ _ M'') K (moved_shaped _ _ _ _ M'')) as (s5 & -> & M5).
  pose proof (moved_around _ _ _ _ (flow_moved_trans _ _ _ _ _ _ M'' M5)) as A.
  destruct (fst _); eexists; [exact A|]. split_and!; [exact A|by eapply kept_busy|by eapply sent_active].
Qed.

Lemma start_class_life io1 io2 c d s :
  life T s -> good hertz io1 -> good hertz io2 -> fresh_slots io2 -> life T (snd (tg_start_class proto io1 io2 c d s)).
Proof.
  intros L G1 G2 Fr. pose proof (proj1 L) as S. unfold tg_start_class. destruct (cl_transport d).
  2: { apply (life_record T s); [done|]. by eapply start_udp_started. }
  assert (forall s1, life T s1 -> life T (snd (record_start (tg_flow_start_tcp proto io2 (cl_config d) (Some c) true (cl_request d) s1)))) as Fresh.
  { intros s1 L1. apply (life_record T s1); [done|]. eapply start_tcp_started; [done..|apply L1]. }
  pose proof (take_idle_taken s c S) as Tk. destruct (tg_conn_pool_take_idle c s) as [[x|] s1].
  2: { cbn in Tk. subst s1. destruct (tg_conn_pool_can_create (conn_pool s)); [by apply Fresh|done]. }
  destruct Tk as (f & Hf & Hi & M). pose proof (life_rest T s x f L Hf) as R. unfold rest, busy in R.
  assert (active f = false /\ mapped f = true /\ on_finish f = true) as (Ha & Hm & Ho).
  { unfold active. destruct (state f); try done; destruct_and?; try congruence; done. }
  pose proof (rearm_around io1 x _ (cl_config d) (cl_request d) s1 (moved_at _ _ _ _ M) Hm Ho eq_refl G1 (moved_shaped _ _ _ _ M)) as H.
  destruct (tg_flow_rearm_tcp _ _ _ _ _ _) as [[e|] s2].
  - destruct H as (f' & A). assert (life T (tg_flow_close_connection x false TG_FLOW_RESULT_IO_FAILURE s2)) as L3.
    { eapply (life_settles T x f s); [done..|]. exists None, 0. rewrite Ha. split; [|done].
      eapply around_then; [apply moved_around, M|]. eapply around_then; [exact A|].
      eapply close_around; [apply (ar_self _ _ _ _ _ A)|apply (ar_shaped _ _ _ _ _ A)]. }
    case_bool_decide; [by apply Fresh|done].
  - destruct H as (f' & A & B & Ha'). eapply (life_settles T x f s); [done..|]. exists (Some f'), 1. cbn [snd]. rewrite Ha, Ha'.
    split; [|split; [by apply busy_rest|done]].
    eapply around_then; [apply moved_around, M|]. eapply around_then; [exact A|].
    by apply around_note; [apply (ar_self _ _ _ _ _ A)| |apply (ar_shaped _ _ _ _ _ A)].
Qed.
End Rearm.

(** ** Events *)

(** The map finds exactly the flow of a socket: a handle of another
    generation, owner or protocol finds nothing. *)
Lemma lookup_exact (s : shard) h x :
  shaped s -> tg_flow_map_lookup h s = Some x <-> exists f, flows s !! x = Some f /\ mapped f = true /\ handle f = h.
Proof.
  intros S. unfold tg_flow_map_lookup. split.
  - destruct (tg_flow_handle_valid_for_map s h); [|done]. cbn [negb]. destruct (by_socket_id s !! hid h) as [y|]; [|done].
    destruct (flows s !! y) as [f|] eqn:Hf; [|done]. destruct (mapped f) eqn:Hm; [|done]. cbn [andb]. case_match; [|done].
    intros [= <-]. exists f. split_and!; try done. unfold tg_flow_handle_equal in *. destruct (handle f), h; cbn in *; bprop. congruence.
  - intros (f & Hf & Hm & <-). destruct (sh_mapped s S x f Hf Hm) as [-> ->]. rewrite Hf, Hm. cbn [negb andb].
    unfold tg_flow_handle_equal. by rewrite !Z.eqb_refl.
Qed.

Lemma on_event_life T io_errno io h ev s : life T s -> good hertz io -> life T (tg_on_event proto io_errno io h ev s).
Proof.
  intros L G. unfold tg_on_event. destruct (tg_flow_map_lookup h s) as [x|] eqn:E; [|done].
  apply lookup_exact in E as (f & Hf & Hm & Hh); [|apply L]. eapply life_settles; [done..|].
  apply on_event_settles; try done; [by eapply life_rest|apply L].
Qed.

Lemma timer_life T t x f d s :
  life T s -> T <= t -> flows s !! x = Some f -> timer f = Some d -> d <= t -> life t (tg_flow_timeout_cb x s).
Proof.
  intros L HT Hf Ht Hd. pose proof (cb_moved s x f Hf (proj1 L)) as M. pose proof (life_rest T s x f L Hf) as R.
  rewrite (rest_mapped _ _ _ R) in M. eapply life_settles; [by eapply life_later|done|].
  eexists _, 0. split; [by apply moved_around|]. split; [|by rewrite Z.add_0_r].
  unfold rest, busy, armed, idle_deadline in *. cbn in *. rewrite Ht in R.
  destruct (state f); try done; destruct_and?; split_and!; try done; destruct (expire_queued f); simplify_eq; cbn in *; lia.
Qed.
(** ** Expiry *)

(** The deadline a flow is held to. *)
Definition due_at (f : tg_flow) : Z := if bool_decide (state f = TG_FLOW_IDLE) then idle_deadline hertz f else deadline_cycles f.

Lemma rest_armed T f : rest hertz T f -> armed T (due_at f) f.
Proof. unfold rest, busy, due_at. intros R. case_bool_decide as E; [rewrite E in R|]; destruct (state f); try done; by destruct_and?. Qed.

(** A due flow ends: its transaction is reported, its connection closed. *)
Lemma expire_flow_around T t io x (f : tg_flow) s :
  flows s !! x = Some f -> rest hertz T f -> expire_queued f = true -> T <= t -> good hertz io -> shaped s ->
  around x None (- b2z (active f)) s (expire_flow io t x (tg_flow_timeout_unqueue x s)).
Proof.
  intros Hf R Hq HT [_ Hz] S. pose proof (unqueue_moved s x f Hf S) as M. eapply around_then; [apply moved_around, M|].
  pose proof (moved_at _ _ _ _ M) as Hf1. pose proof (moved_shaped _ _ _ _ M) as S1.
  revert Hf1 S1. generalize (tg_flow_timeout_unqueue x s). clear M. intros s1 Hf1 S1.
  destruct (rest_armed T f R) as [D1 D2]. rewrite Hq in D2.
  assert (forall reason r, active f = true ->
    around x None (- b2z (active f)) s1 (finish_as io TG_FLOW_FAILED r false x
      (update x (fun f => with_f_txn (with_error_reason reason (txn f)) f) s1))) as Timeout.
  { intros reason r Ha. destruct (active_busy _ _ _ Ha R) as (_ & Ho & Hc & _). rewrite Ha.
    pose proof (moved_update s1 x (fun f => with_f_txn (with_error_reason reason (txn f)) f) _ Hf1 eq_refl S1) as M.
    pose proof (moved_update _ x (with_f_state TG_FLOW_FAILED) _ (moved_at _ _ _ _ M) eq_refl (moved_shaped _ _ _ _ M)) as M1.
    eapply around_then; [apply moved_around, (flow_moved_trans _ _ _ _ _ _ M M1)|].
    eapply finish_close_around; [apply (moved_at _ _ _ _ M1)|done..|apply (moved_shaped _ _ _ _ M1)]. }
  assert (forall r, active f = false -> around x None (- b2z (active f)) s1 (tg_flow_close_connection x false r s1)) as Close.
  { intros r Ha. rewrite Ha. by eapply close_around. }
  unfold due_at, idle_deadline in *. unfold rest, busy, active in *. unfold expire_flow. rewrite Hf1. cbn.
  destruct (state f) eqn:Es; try done;
    first [rewrite bool_decide_eq_false_2 in D1, D2 by done|rewrite bool_decide_eq_true_2 in D1, D2 by done]; destruct_and?; rewrite ?H; cbn [negb].
  4: { rewrite Hz. destruct (Z.eqb_spec (hprotocol (handle f)) IPPROTO_UDP); [done|]. destruct (Z.eqb_spec (idle_since_cycles f) 0); [done|].
    cbn [orb]. destruct (Z.ltb_spec t (tg_flow_deadline hertz (idle_since_cycles f) TG_FLOW_TCP_IDLE_TIMEOUT_MS)); [lia|]. by apply Close. }
  all: replace (negb (deadline_cycles f =? 0) && (deadline_cycles f <=? t)) with true by lia.
  all: destruct (Z.eqb_spec (hprotocol (handle f)) IPPROTO_UDP); first [done|by apply Timeout|by apply Close].
Qed.

Lemma expire_loop_all fuel T t io s :
  life T s -> T <= t -> good hertz io -> (length (expired s) <= fuel)%nat ->
  life T (expire_loop fuel io t s) /\ expired (expire_loop fuel io t s) = [] /\
  forall x, flows (expire_loop fuel io t s) !! x = (f ← flows s !! x; if expire_queued f then None else Some f).
Proof.
  revert s. induction fuel as [|k IH]; intros s L HT G Hl.
  { apply Nat.le_0_r, nil_length_inv in Hl. split_and!; [done..|]. intros x. cbn. destruct (flows s !! x) as [f|] eqn:Hf; [|done]. cbn.
    destruct (expire_queued f) eqn:E; [|done]. apply (sh_queued s (proj1 L) x f Hf) in E. rewrite Hl in E. by apply not_elem_of_nil in E. }
  cbn. destruct (expired s) as [|x rest] eqn:Ee.
  { split_and!; [done..|]. intros x. destruct (flows s !! x) as [f|] eqn:Hf; [|done]. cbn.
    destruct (expire_queued f) eqn:E; [|done]. apply (sh_queued s (proj1 L) x f Hf) in E. rewrite Ee in E. by apply not_elem_of_nil in E. }
  assert (x ∈ expired s) as Hx by (rewrite Ee; apply list_elem_of_here).
  destruct (sh_expired s (proj1 L) x Hx) as [f Hf]. pose proof (proj2 (sh_queued s (proj1 L) x f Hf) Hx) as Hq.
  pose proof (expire_flow_around T t io x f s Hf (life_rest _ _ _ _ L Hf) Hq HT G (proj1 L)) as A.
  revert A. generalize (expire_flow io t x (tg_flow_timeout_unqueue x s)). intros s1 A.
  assert (life T s1) as L1 by (eapply life_settles; [done..|]; eexists None, _; split; [exact A|lia]).
  assert (forall y, y ∈ expired s1 -> y ∈ rest) as Sub.
  { intros y Hy. destruct (sh_expired s1 (proj1 L1) y Hy) as [g Hg]. assert (y <> x) as Hne by (intros ->; rewrite (ar_self _ _ _ _ _ A) in Hg; done).
    pose proof Hg as Hg'. rewrite (ar_others _ _ _ _ _ A y Hne) in Hg'. apply (sh_queued s1 (proj1 L1) y g Hg) in Hy.
    apply (sh_queued s (proj1 L) y g Hg') in Hy. rewrite Ee in Hy. by apply elem_of_cons in Hy as [|]. }
  destruct (IH s1 L1 HT G) as (L2 & E2 & F2).
  { pose proof (submseteq_length _ _ (NoDup_submseteq _ rest (sh_expired_nodup s1 (proj1 L1)) Sub)). cbn in Hl. lia. }
  split_and!; [done..|]. intros y. rewrite F2. destruct (decide (y = x)) as [->|Hne].
  - rewrite (ar_self _ _ _ _ _ A), Hf. cbn. by rewrite Hq.
  - by rewrite (ar_others _ _ _ _ _ A y Hne).
Qed.
(** ** Shutdown *)

Lemma life_drain T s : life T s -> life T (tg_conn_pool_begin_drain s).
Proof. intros [S L]. split; [by apply shaped_drain|done]. Qed.

Lemma take_any_none (s s1 : shard) i : tg_conn_pool_take_any_idle s = (None, s1) -> (i < TG_PLAN_MAX_CLASSES)%nat -> idle_at i (conn_pool s) = [].
Proof.
  unfold tg_conn_pool_take_any_idle. destruct (List.find _ _) as [j|] eqn:E.
  - apply List.find_some in E as [_ E]. unfold take_head. by destruct (idle_at j (conn_pool s)).
  - intros _ Hi. pose proof (List.find_none _ _ E i (proj2 (List.in_seq _ _ _) (conj (Nat.le_0_l i) Hi))) as N.
    by apply negb_false_iff, bool_decide_eq_true in N.
Qed.
Lemma take_any_none_idle (s s1 : shard) x f :
  shaped s -> tg_conn_pool_take_any_idle s = (None, s1) -> flows s !! x = Some f -> in_idle_pool f = false.
Proof.
  intros S E Hf. destruct (in_idle_pool f) eqn:Hi; [|done].
  destruct (po_idle _ _ (sh_pool s S) x f Hf Hi) as (_ & c & i & _ & Hk & Hx). apply lookup_lt_Some in Hk.
  rewrite (proj1 (po_lengths _ _ (sh_pool s S))) in Hk. rewrite (take_any_none s s1 i E Hk) in Hx. by apply not_elem_of_nil in Hx.
Qed.

Lemma close_idle_loop_all fuel T s :
  life T s -> (size (flows s) < fuel)%nat ->
  life T (close_idle_loop fuel s) /\
  forall x, flows (close_idle_loop fuel s) !! x = (f ← flows s !! x; if in_idle_pool f then None else Some f).
Proof.
  revert s. induction fuel as [|k IH]; intros s L Hs; [lia|]. cbn.
  pose proof (take_any_taken s (proj1 L)) as Tk. destruct (tg_conn_pool_take_any_idle s) as [[x|] s1] eqn:E.
  2: { cbn in Tk. subst s1. split; [done|]. intros x. destruct (flows s !! x) as [f|] eqn:Hf; [|done]. cbn.
       by rewrite (take_any_none_idle s s x f (proj1 L) E Hf). }
  destruct Tk as (f & Hf & Hi & M). pose proof (life_rest T s x f L Hf) as R.
  assert (active f = false) as Ha by (unfold rest, busy, active in *; destruct (state f); try done; destruct_and?; congruence).
  assert (around x None 0 s (tg_flow_close_connection x false TG_FLOW_RESULT_IO_FAILURE s1)) as A.
  { eapply around_then; [apply moved_around, M|]. eapply close_around; [apply (moved_at _ _ _ _ M)|apply (moved_shaped _ _ _ _ M)]. }
  revert A. generalize (tg_flow_close_connection x false TG_FLOW_RESULT_IO_FAILURE s1). clear M. intros s2 A.
  assert (flows s2 = delete x (flows s)) as Hd.
  { apply map_eq. intros y. destruct (decide (y = x)) as [->|Hne]; [by rewrite (ar_self _ _ _ _ _ A), lookup_delete_eq|].
    by rewrite (ar_others _ _ _ _ _ A y Hne), lookup_delete_ne. }
  destruct (IH s2) as [L2 F2].
  - eapply life_settles; [done..|]. exists None, 0. by rewrite Ha.
  - rewrite Hd, map_size_delete_Some by done. assert (size (flows s) <> 0%nat); [|lia]. intros Z0. apply map_size_empty_inv in Z0. by rewrite Z0, lookup_empty in Hf.
  - split; [done|]. intros y. rewrite F2, Hd. destruct (decide (y = x)) as [->|Hne]; [by rewrite lookup_delete_eq, Hf; cbn; rewrite Hi|].
    by rewrite lookup_delete_ne.
Qed.

(** ** Histories *)

Inductive flow_step : Z -> shard -> Z -> shard -> Prop :=
| step_start T t io1 io2 c d s : T <= t -> good hertz io1 -> good hertz io2 -> fresh_slots io2 ->
    flow_step T s t (snd (tg_start_class proto io1 io2 c d s))
| step_event T t io_errno io h ev s : T <= t -> good hertz io -> flow_step T s t (tg_on_event proto io_errno io h ev s)
| step_timer T t x f d s : T <= t -> flows s !! x = Some f -> timer f = Some d -> d <= t ->
    flow_step T s t (tg_flow_timeout_cb x s)
| step_expire T t io s : T <= t -> good hertz io -> flow_step T s t (tg_flow_expire io t s)
| step_close_idle T t s : T <= t -> flow_step T s t (tg_close_idle_connections s).

Inductive reached : Z -> shard -> Prop :=
| reached_init capacity owner max p m : 0 <= max -> tg_conn_pool_init max = Some p -> reached 0 (mk_shard ∅ ∅ capacity owner [] p m [])
| reached_step T s t s' : reached T s -> flow_step T s t s' -> reached t s'.

Lemma life_init capacity owner max p m : 0 <= max -> tg_conn_pool_init max = Some p -> life 0 (mk_shard ∅ ∅ capacity owner [] p m []).
Proof.
  intros Hm. unfold tg_conn_pool_init. case_match; [done|]. intros [= <-]. split; [|by intros x; cbn; rewrite lookup_empty].
  assert (forall i, default [] (replicate TG_PLAN_MAX_CLASSES [] !! i) = ([] : list nat)) as He.
  { intros i. destruct (replicate _ _ !! i) eqn:E; [|done]. by apply lookup_replicate in E as [-> _]. }
  split; cbn [flows by_socket_id expired conn_pool]; try done.
  - intros x Hx. by apply not_elem_of_nil in Hx.
  - apply NoDup_nil_2.
  - split; unfold idle_at, key_of; cbn [idle_lists class_keys connections max_connections]; try done.
    + intros i x. rewrite He. by intros ?%not_elem_of_nil.
    + intros i. rewrite He. apply NoDup_nil_2.
    + intros i j c E. change (replicate TG_PLAN_MAX_CLASSES (None : option nat) !! i = Some (Some c)) in E.
      by apply lookup_replicate in E as [? _].
Qed.

Lemma life_step T s t s' : life T s -> flow_step T s t s' -> life t s'.
Proof.
  intros L H. inversion H; subst; (assert (life t s) as L' by (by eapply life_later)).
  - by apply start_class_life.
  - by apply on_event_life.
  - by eapply timer_life.
  - eapply (expire_loop_all _ t t); try done.
  - apply close_idle_loop_all; [by apply life_drain|cbn; lia].
Qed.
Lemma reached_life T s : reached T s -> life T s.
Proof. induction 1; [by eapply life_init|by eapply life_step]. Qed.
End History.
