(* ===== verification/FlowTheorems.v ===== *)
(** * Flows: what holds of every history

    Every transaction a shard admits is reported once; the socket map, the
    idle lists and the timers agree with the flows; a due flow ends. *)

From Stdlib Require Import String.
From stdpp Require Import gmap.
From S2P Require Import Prelude Config Txn Redis RedisReply OwnerTimer TcpTcb ConnPool Flow FlowFacts FlowLife FlowStart FlowHistory.

(** ** The reactor (traffic-gen/core/reactor.c)

    One worker turn: a bounded burst of readiness events, then the tick.  The
    callbacks act on a state [St]; [burst n] is what [owner_io_ready_burst]
    gives when asked for [n] events.  Null arguments are not modelled. *)

Record tg_reactor := mk_reactor { turns : Z; events : Z; event_burst_high_water : Z }.

Definition tg_reactor_init : tg_reactor := mk_reactor 0 0 0.

Section Reactor.
Context {Ev St : Type}.

Definition tg_reactor_run (on_event : option (Ev -> St -> St)) (on_tick : option (Z -> St -> St)) (burst : Z -> list Ev) (budget : Z)
    (r : tg_reactor) (st : St) : tg_reactor * St :=
  if budget =? 0 then (r, st)
  else
    let budget := if 32 <? budget then 32 else budget in
    let r1 := mk_reactor (u64 (turns r + 1)) (events r) (event_burst_high_water r) in
    let '(r2, st2) :=
      match on_event with
      | Some f =>
          let l := burst budget in
          let count := zlen l in
          (mk_reactor (turns r1) (u64 (events r1 + count))
             (if event_burst_high_water r1 <? count then count else event_burst_high_water r1),
           fold_left (fun s e => f e s) l st)
      | None => (r1, st)
      end in
    (r2, match on_tick with Some f => f budget st2 | None => st2 end).
End Reactor.

(** The counters since the last call. *)
Definition tg_reactor_metrics_take (r : tg_reactor) : (Z * Z * Z) * tg_reactor :=
  ((turns r, events r, event_burst_high_water r), mk_reactor 0 0 0).

(** ** Totals over flows *)

(** ** Totals *)

Fixpoint zsum (g : nat -> Z) (l : list nat) : Z :=
  match l with
  | [] => 0
  | x :: t => g x + zsum g t
  end.
Lemma zsum_add g h l : zsum (fun x => g x + h x) l = zsum g l + zsum h l.
Proof. induction l as [|x l IH]; cbn; [done|]. rewrite IH. lia. Qed.
Lemma zsum_ext g h l : (forall x, x ∈ l -> g x = h x) -> zsum g l = zsum h l.
Proof.
  induction l as [|x l IH]; cbn; intros H; [done|]. rewrite (H x) by apply list_elem_of_here. f_equal. apply IH. intros y Hy. apply H.
  by apply list_elem_of_further.
Qed.
Lemma zsum_zero l : zsum (fun _ => 0) l = 0.
Proof. induction l as [|x l IH]; cbn; [done|]. by rewrite IH. Qed.
Lemma zsum_point x d l : NoDup l -> x ∈ l -> zsum (fun y => if decide (x = y) then d else 0) l = d.
Proof.
  induction l as [|y l IH]; cbn; [by intros _ ?%not_elem_of_nil|]. intros [Hn Hd]%NoDup_cons [->|Hx]%elem_of_cons.
  - rewrite decide_True by done. rewrite (zsum_ext _ (fun _ => 0)), zsum_zero; [lia|]. intros z Hz. rewrite decide_False; [done|congruence].
  - rewrite IH by done. rewrite decide_False; [lia|congruence].
Qed.

(** The flow a note counts for. *)
Definition subject (n : note) : option (nat * Z) :=
  match n with Started x => Some (x, 1) | Finished x _ _ => Some (x, -1) | _ => None end.
Definition is_started (n : note) : bool := match n with Started _ => true | _ => false end.
Definition is_finished (n : note) : bool := match n with Finished _ _ _ => true | _ => false end.
Definition number (q : note -> bool) (l : list note) : Z := Z.of_nat (length (List.filter q l)).

Lemma in_flight_total l X :
  NoDup X -> (forall n x d, n ∈ l -> subject n = Some (x, d) -> x ∈ X) ->
  zsum (fun x => in_flight x l) X = number is_started l - number is_finished l.
Proof.
  intros HX. induction l as [|n l IH]; intros Hs; [by rewrite zsum_zero|]. cbn [in_flight]. rewrite zsum_add, IH.
  2: { intros n' x d Hn. apply (Hs n' x d). by apply list_elem_of_further. }
  unfold number. cbn [List.filter]. specialize (Hs n). destruct n; cbn [is_started is_finished weight length subject] in *;
    rewrite ?zsum_zero, ?zsum_point; try lia; try done; eapply Hs; try done; apply list_elem_of_here.
Qed.

Section Theorems.
Context {Cfg Ctx : Type} (proto : tg_proto_ops Cfg Ctx) (hertz : Z).
Local Abbreviation tg_flow := (tg_flow Cfg Ctx).
Local Abbreviation shard := (shard Cfg Ctx).

Definition active_at (s : shard) (x : nat) : Z := from_option (fun f => b2z (active f)) 0 (flows s !! x).

Lemma count_total {A} (q : A -> bool) (m : gmap nat A) X :
  NoDup X -> (forall x, is_Some (m !! x) -> x ∈ X) -> count q m = zsum (fun x => from_option (fun f => b2z (q f)) 0 (m !! x)) X.
Proof.
  intros HX. induction m as [|x f m Hn IH] using map_ind; intros Hd.
  - rewrite (zsum_ext _ (fun _ => 0)), zsum_zero; [done|]. intros x _. by rewrite lookup_empty.
  - assert (x ∈ X) as Hx by (apply Hd; rewrite lookup_insert_eq; by eexists).
    rewrite count_fresh by done. rewrite IH.
    2: { intros y Hy. destruct (decide (y = x)) as [->|Hne]; [done|]. apply Hd. by rewrite lookup_insert_ne. }
    rewrite <- (zsum_point x (b2z (q f)) X HX Hx), <- zsum_add. apply zsum_ext. intros y _. destruct (decide (x = y)) as [<-|Hne].
    + rewrite lookup_insert_eq, Hn. done.
    + rewrite lookup_insert_ne by done. lia.
Qed.

Lemma life_accounts T s :
  life hertz T s ->
  (forall x, in_flight x (notes s) = active_at s x) /\ number is_started (notes s) - number is_finished (notes s) = count active (flows s).
Proof.
  intros [S L]. assert (forall x, in_flight x (notes s) = active_at s x) as Each.
  { intros x. specialize (L x). unfold active_at. destruct (flows s !! x); [apply L|done]. }
  split; [done|]. set (X := remove_dups (elements (dom (flows s)) ++ map (fun n => from_option fst 0%nat (subject n)) (notes s))).
  assert (NoDup X) as HX by apply NoDup_remove_dups.
  rewrite <- (in_flight_total _ X HX), (count_total _ _ X HX).
  - apply zsum_ext. intros x _. apply Each.
  - intros x Hx. apply elem_of_remove_dups, elem_of_app. left. by apply elem_of_elements, elem_of_dom.
  - intros n x d Hn Hs. apply elem_of_remove_dups, elem_of_app. right. apply list_elem_of_In, in_map_iff. exists n.
    rewrite Hs. split; [done|]. by apply list_elem_of_In.
Qed.

(** C12: over any history, the transactions of a flow that were admitted but
    not yet reported are one when the flow is connecting, sending or
    receiving and none otherwise, so every transaction is reported exactly
    once; in all, the admissions less the reports are the number of flows
    under way. *)
Theorem flow_conservation T s :
  reached proto hertz T s ->
  (forall x, in_flight x (notes s) = active_at s x) /\
  number is_started (notes s) - number is_finished (notes s) = count active (flows s).
Proof. intros R. eapply life_accounts. by eapply reached_life. Qed.

(** C13: after an expiry round no flow is left that was due, none of their
    transactions is unreported, and every other flow is untouched and holds
    an armed timer for exactly its deadline. *)
Theorem flow_expiry T s t io :
  reached proto hertz T s -> T <= t -> good hertz io ->
  expired (tg_flow_expire io t s) = [] /\
  (forall x f, flows s !! x = Some f -> expire_queued f = true ->
     flows (tg_flow_expire io t s) !! x = None /\ in_flight x (notes (tg_flow_expire io t s)) = 0) /\
  (forall x f, flows s !! x = Some f -> expire_queued f = false ->
     flows (tg_flow_expire io t s) !! x = Some f /\ timer f = Some (due_at hertz f)).
Proof.
  intros R HT G. apply reached_life in R. destruct (expire_loop_all hertz (length (expired s)) T t io s R HT G (le_n _)) as (L & E & F).
  split_and!; [done|..]; intros x f Hf Hq; unfold tg_flow_expire; specialize (F x); rewrite Hf in F; cbn in F; rewrite Hq in F.
  - split; [done|]. pose proof (proj2 L x) as Lx. by rewrite F in Lx.
  - split; [done|]. destruct (rest_armed hertz T f (life_rest hertz T s x f R Hf)) as [_ A]. by rewrite Hq in A.
Qed.

(** C15: a socket event reaches the flow whose handle it carries, generation
    included, and no other: a handle that no flow holds changes nothing. *)
Theorem flow_event_exact T s h :
  reached proto hertz T s ->
  (forall x, tg_flow_map_lookup h s = Some x <-> exists f, flows s !! x = Some f /\ handle f = h) /\
  ((forall x f, flows s !! x = Some f -> handle f <> h) ->
   forall io_errno io ev, tg_on_event proto io_errno io h ev s = s).
Proof.
  intros R. apply reached_life in R. assert (forall x, tg_flow_map_lookup h s = Some x <-> exists f, flows s !! x = Some f /\ handle f = h) as H.
  { intros x. rewrite lookup_exact by apply R. split; intros (f & Hf & Hh); exists f; [tauto|].
    by rewrite (rest_mapped _ _ _ (life_rest hertz T s x f R Hf)). }
  split; [done|]. intros Hn io_errno io ev. unfold tg_on_event. destruct (tg_flow_map_lookup h s) as [x|] eqn:E; [|done].
  destruct (proj1 (H x) eq_refl) as (f & Hf & Hh). by destruct (Hn x f Hf).
Qed.

(** C14: the connection pool counts exactly the connections it holds, never
    more than its limit, and its idle lists hold exactly the idle flows, each
    once, in the list of its class. *)
Theorem pool_exact T s :
  reached proto hertz T s ->
  let p := conn_pool s in
  connections p = count in_conn_pool (flows s) /\ connections p <= max_connections p /\
  (forall x, (exists i, x ∈ idle_at i p) <-> exists f, flows s !! x = Some f /\ state f = TG_FLOW_IDLE) /\
  (forall i, NoDup (idle_at i p)) /\
  (forall i x, x ∈ idle_at i p -> exists f c, flows s !! x = Some f /\ class_plan f = Some c /\ find_class c p = Some i).
Proof.
  intros R p. apply reached_life in R. pose proof (sh_pool s (proj1 R)) as P.
  assert (forall x f, flows s !! x = Some f -> (in_idle_pool f = true <-> state f = TG_FLOW_IDLE)) as Hi.
  { intros x f Hf. pose proof (life_rest hertz T s x f R Hf) as Rf. unfold rest, busy in Rf.
    destruct (state f); try done; destruct_and?; split; try congruence; done. }
  split_and!; try apply P.
  - intros x. split.
    + intros (i & Hx). destruct (po_lists _ _ P i x Hx) as (f & c & Hf & Hfi & _). exists f. by rewrite <- (Hi x f Hf).
    + intros (f & Hf & Hs%(Hi x f Hf)). destruct (po_idle _ _ P x f Hf Hs) as (_ & c & i & _ & _ & Hx). by exists i.
  - intros i x Hx. destruct (po_lists _ _ P i x Hx) as (f & c & Hf & _ & Hc & Hk). exists f, c. split_and!; try done.
    by eapply find_class_key.
Qed.

(** shutting the idle connections ends, closes every one of them, and
    leaves every flow with a transaction, and every account, as it was. *)
Theorem close_idle_exact T s :
  reached proto hertz T s ->
  (forall x, flows (tg_close_idle_connections s) !! x =
     (f ← flows s !! x; if bool_decide (state f = TG_FLOW_IDLE) then None else Some f)) /\
  (forall x, in_flight x (notes (tg_close_idle_connections s)) = in_flight x (notes s)).
Proof.
  intros R. apply reached_life in R.
  destruct (close_idle_loop_all hertz (S (size (flows s))) T _ (life_drain hertz T s R) (Nat.lt_succ_diag_r _)) as [L F].
  assert (forall x, flows (tg_close_idle_connections s) !! x =
     (f ← flows s !! x; if bool_decide (state f = TG_FLOW_IDLE) then None else Some f)) as H.
  { intros x. unfold tg_close_idle_connections. rewrite F. cbn. destruct (flows s !! x) as [f|] eqn:Hf; [|done]. cbn.
    pose proof (life_rest hertz T s x f R Hf) as Rf. unfold rest, busy in Rf.
    case_bool_decide as Hs; [rewrite Hs in Rf|destruct (state f); try done]; destruct_and?; by destruct (in_idle_pool f). }
  split; [done|]. intros x. unfold tg_close_idle_connections in *. rewrite (proj1 (life_accounts T _ L)), (proj1 (life_accounts T s R)).
  unfold active_at. rewrite H. destruct (flows s !! x) as [f|]; [|done]. cbn. case_bool_decide as Hs; [|done]. cbn. unfold active. by rewrite Hs.
Qed.

(** A worker turn of the reactor at time [t]: its events, then the expiry. *)
Lemma reactor_turn_reached T s t io_errno io burst budget r :
  reached proto hertz T s -> T <= t -> (forall e, good hertz (io e)) ->
  exists T', T' <= t /\ reached proto hertz T'
    (snd (tg_reactor_run (Some (fun (e : Z * (nsock_handle * Z)) => tg_on_event proto io_errno (io e) (fst (snd e)) (snd (snd e))))
            (Some (fun b => tg_flow_expire (io (b, (mk_handle 0 0 0 0, 0))) t)) burst budget r s)).
Proof.
  intros R HT G1. unfold tg_reactor_run. destruct (budget =? 0); [by exists T|]. cbv zeta. cbn [snd]. exists t. split; [done|].
  assert (forall l s1 T1, reached proto hertz T1 s1 -> T1 <= t ->
    exists T2, T2 <= t /\ reached proto hertz T2 (fold_left (fun s (e : Z * (nsock_handle * Z)) => tg_on_event proto io_errno (io e) (fst (snd e)) (snd (snd e)) s) l s1)) as Fold.
  { induction l as [|e l IH]; intros s1 T1 R1 H1; cbn; [by exists T1|]. apply (IH _ T1); [|done].
    eapply reached_step; [exact R1|]. by apply step_event. }
  match goal with |- context [fold_left _ ?l s] => destruct (Fold l s T R HT) as (T2 & H2 & R2) end.
  eapply reached_step; [exact R2|]. by apply step_expire.
Qed.
End Theorems.

(** ** A run: a Redis class on one connection, reused *)

Definition demo_slot (used : gset nat) : option nat :=
  if decide (0%nat ∈ used) then if decide (1%nat ∈ used) then None else Some 1%nat else Some 0%nat.
Definition demo_io (t : Z) (out : list (errno + Z)) (inp : list (errno + (list Z * (Z * Z)))) : flow_io :=
  mk_fio t 1000 demo_slot true (inr (mk_handle 7 2 1 IPPROTO_TCP)) None None (Some EINPROGRESS) out inp 0.
Definition demo_class : class_data (Cfg := tg_redis_config) :=
  mk_class TG_TRANSPORT_TCP (Some (demo_config TG_REDIS_PING)) (text "PING") (1, 6379).
Abbreviation demo_proto := (tg_redis_proto_ops true).
Definition demo_0 : shard tg_redis_config tg_redis_state :=
  mk_shard ∅ ∅ 64 2 [] (default (mk_cpool [] [] 0 0 0 false) (tg_conn_pool_init 1)) metric_zero [].
Definition demo_handle : nsock_handle := mk_handle 7 2 1 IPPROTO_TCP.
Definition demo_start (t : Z) (s : shard tg_redis_config tg_redis_state) : shard tg_redis_config tg_redis_state :=
  snd (tg_start_class demo_proto (demo_io t [inr 4] []) (demo_io t [] []) 3 demo_class s).
Definition demo_event (t : Z) out inp ev (s : shard tg_redis_config tg_redis_state) : shard tg_redis_config tg_redis_state :=
  tg_on_event demo_proto (fun _ => EIO) (demo_io t out inp) demo_handle ev s.
(** Connected and sent; answered and idle; reused; due. *)
Definition demo_1 := demo_start 10 demo_0.
Definition demo_2 := demo_event 20 [inr 4] [] OWNER_IO_EV_CONNECTED demo_1.
Definition demo_3 := demo_event 30 [] [inr (text "+PONG" ++ [13; 10], (1, 6379))] OWNER_IO_EV_READ demo_2.
Definition demo_4 := demo_start 40 demo_3.
Definition demo_5 := tg_flow_timeout_cb 0 demo_4.

Lemma demo_fresh t out inp : fresh_slots (demo_io t out inp).
Proof. intros used x. cbn. unfold demo_slot. repeat case_decide; by intros [= <-]. Qed.
Lemma demo_good t out inp : 0 < t -> good 1000 (demo_io t out inp).
Proof. by split. Qed.
Lemma demo_reached_start T t s : reached demo_proto 1000 T s -> T <= t -> 0 < t -> reached demo_proto 1000 t (demo_start t s).
Proof. intros R HT Ht. eapply reached_step; [exact R|]. apply step_start; [done|by apply demo_good..|apply demo_fresh]. Qed.
Lemma demo_reached_event T t out inp ev s :
  reached demo_proto 1000 T s -> T <= t -> 0 < t -> reached demo_proto 1000 t (demo_event t out inp ev s).
Proof. intros R HT Ht. eapply reached_step; [exact R|]. apply step_event; [done|by apply demo_good]. Qed.

Lemma demo_reached_3 : reached demo_proto 1000 30 demo_3.
Proof.
  apply (demo_reached_event 20); [|lia..]. apply (demo_reached_event 10); [|lia..]. apply (demo_reached_start 0); [|lia..].
  by apply (reached_init demo_proto 1000 64 2 1).
Qed.
Lemma demo_reached_4 : reached demo_proto 1000 40 demo_4.
Proof. apply (demo_reached_start 30); [exact demo_reached_3|lia..]. Qed.
Lemma demo_reached_5 : reached demo_proto 1000 5040 demo_5.
Proof.
  eapply reached_step; [exact demo_reached_4|]. destruct (flows demo_4 !! 0%nat) as [f|] eqn:E; [|by vm_compute in E].
  apply (step_timer _ _ 40 5040 0%nat f 5040); [lia|exact E| |lia]. vm_compute in E. by injection E as <-.
Qed.

Lemma flow_conservation_witness :
  in_flight 0 (notes demo_3) = 0 /\ notes demo_3 = [SocketCreated; Started 0; Finished 0 TG_FLOW_RESULT_SUCCESS TG_ERROR_NONE] /\
  in_flight 0 (notes demo_4) = 1.
Proof.
  rewrite (proj1 (flow_conservation demo_proto 1000 30 demo_3 demo_reached_3)).
  rewrite (proj1 (flow_conservation demo_proto 1000 40 demo_4 demo_reached_4)). vm_compute. done.
Defined.

Lemma flow_expiry_witness :
  expired demo_5 = [0%nat] /\ expired (tg_flow_expire (demo_io 5050 [] []) 5050 demo_5) = [] /\
  flows (tg_flow_expire (demo_io 5050 [] []) 5050 demo_5) !! 0%nat = None.
Proof.
  destruct (flow_expiry demo_proto 1000 5040 demo_5 5050 (demo_io 5050 [] []) demo_reached_5 ltac:(lia) ltac:(done)) as (E & Q & _).
  split_and!; [by vm_compute|exact E|]. destruct (flows demo_5 !! 0%nat) as [f|] eqn:Hf; [|by vm_compute in Hf].
  apply (Q 0%nat f Hf). vm_compute in Hf. by injection Hf as <-.
Defined.

Lemma flow_event_exact_witness :
  tg_flow_map_lookup demo_handle demo_4 = Some 0%nat /\
  tg_on_event demo_proto (fun _ => EIO) (demo_io 50 [] []) (mk_handle 7 2 2 IPPROTO_TCP) OWNER_IO_EV_ERROR demo_4 = demo_4.
Proof.
  split.
  - apply (proj1 (flow_event_exact demo_proto 1000 40 demo_4 demo_handle demo_reached_4) 0%nat).
    destruct (flows demo_4 !! 0%nat) as [f|] eqn:E; [|by vm_compute in E]. exists f. split; [done|]. vm_compute in E. by injection E as <-.
  - apply (proj2 (flow_event_exact demo_proto 1000 40 demo_4 (mk_handle 7 2 2 IPPROTO_TCP) demo_reached_4)).
    intros x f Hf Hh.
    pose proof (proj2 (proj1 (flow_event_exact demo_proto 1000 40 demo_4 (mk_handle 7 2 2 IPPROTO_TCP) demo_reached_4) x) (ex_intro _ f (conj Hf Hh))) as H.
    by vm_compute in H.
Defined.

Lemma pool_exact_witness : connections (conn_pool demo_3) = 1 /\ exists i, 0%nat ∈ idle_at i (conn_pool demo_3).
Proof.
  destruct (pool_exact demo_proto 1000 30 demo_3 demo_reached_3) as (C & _ & I & _). split; [by vm_compute|]. apply I.
  destruct (flows demo_3 !! 0%nat) as [f|] eqn:E; [|by vm_compute in E]. exists f. split; [done|]. vm_compute in E. by injection E as <-.
Defined.

Lemma close_idle_exact_witness :
  is_Some (flows demo_3 !! 0%nat) /\ flows (tg_close_idle_connections demo_3) !! 0%nat = None.
Proof.
  split; [vm_compute; by eexists|]. rewrite (proj1 (close_idle_exact demo_proto 1000 30 demo_3 demo_reached_3)). by vm_compute.
Defined.
