(* ===== verification/Arp.v ===== *)
(** * ARP (pro-stack/arp.c)

    One owner's neighbour cache, the demand-driven resolver and the packet
    handler.  The DPDK hash is the map from an address to the index of its
    entry; what a call meets outside is [arp_io].  The state also holds the
    packets put on the output ring and the addresses whose waiters were woken,
    newest last.  A frame is its header fields, its two lengths included. *)

From stdpp Require Import gmap.
From S2P Require Import Prelude.

Definition ARP_CACHE_CAPACITY : nat := 256.
Definition ARP_REACHABLE_TTL_MS : Z := 5 * 60 * 1000.
Definition ARP_PROBE_INTERVAL_MS : Z := 1000.
Definition ARP_PROBE_MAX_RETRIES : Z := 3.
Definition ARP_FAILED_TTL_MS : Z := 30 * 1000.
Definition ARP_SWEEP_BATCH : nat := 8.
Definition RTE_ARP_OP_REQUEST : Z := 1.
Definition RTE_ARP_OP_REPLY : Z := 2.
Definition RTE_ARP_HRD_ETHER : Z := 1.
Definition RTE_ETHER_TYPE_IPV4 : Z := 2048.
Definition RTE_ETHER_ADDR_LEN : Z := 6.
(** An Ethernet header and an ARP header. *)
Definition ARP_FRAME_LEN : Z := 14 + 28.
Definition g_broadcast_mac : list Z := [255; 255; 255; 255; 255; 255].

Inductive arp_state := ARP_STATE_FREE | ARP_STATE_INCOMPLETE | ARP_STATE_REACHABLE | ARP_STATE_FAILED.
#[global] Instance arp_state_eq_dec : EqDecision arp_state.
Proof. solve_decision. Defined.

Record arp_entry := mk_entry {
  e_ip : Z;
  hwaddr : list Z;
  e_state : arp_state;
  probe_count : Z;
  confirmed_at : Z;
  last_probe_at : Z;
  last_used_at : Z
}.
Definition entry_zero : arp_entry := mk_entry 0 [0; 0; 0; 0; 0; 0] ARP_STATE_FREE 0 0 0 0.

Record arp_table := mk_arpt { hash : gmap Z nat; entries : list arp_entry; acount : Z }.

(** A frame as received or sent. *)
Record arp_frame := mk_frame {
  pkt_len : Z;
  data_len : Z;
  eth_dst : list Z;
  eth_src : list Z;
  arp_hardware : Z;
  arp_protocol : Z;
  arp_hlen : Z;
  arp_plen : Z;
  arp_opcode : Z;
  arp_sha : list Z;
  arp_sip : Z;
  arp_tha : list Z;
  arp_tip : Z
}.

Record arp := mk_arp { table : arp_table; tx : list arp_frame; woken : list Z }.

(** [emit]: a packet could be allocated and the ring took it; [insert]: the
    hash took the key. *)
Record arp_io := mk_aio { a_emit : bool; a_insert : bool }.

Section Arp.
(** The timer frequency and the stack's own addresses. *)
Context (hz : Z) (local_ip : Z) (local_mac : list Z).

Definition arp_table_init_owner : arp := mk_arp (mk_arpt ∅ (replicate ARP_CACHE_CAPACITY entry_zero) 0) [] [].

Definition arp_wake_tx_waiters (ip : Z) (a : arp) : arp := mk_arp (table a) (tx a) (woken a ++ [ip]).
Definition with_table (t : arp_table) (a : arp) : arp := mk_arp t (tx a) (woken a).

Definition arp_elapsed_ms (now then_ : Z) : Z := if now <? then_ then UINT64_MAX else u64 ((now - then_) * 1000) / hz.

(** ** Entries *)

Definition entry_at (i : nat) (t : arp_table) : arp_entry := default entry_zero (entries t !! i).
Definition set_entry (i : nat) (e : arp_entry) (t : arp_table) : arp_table := mk_arpt (hash t) (<[i := e]> (entries t)) (acount t).

Definition arp_remove (i : nat) (t : arp_table) : arp_table :=
  if bool_decide (e_state (entry_at i t) = ARP_STATE_FREE) then t
  else mk_arpt (delete (e_ip (entry_at i t)) (hash t)) (<[i := entry_zero]> (entries t)) (u32 (acount t - 1)).

Definition arp_find (t : arp_table) (ip : Z) : option nat := hash t !! ip.

(** The entry to use and whether it must be removed first. *)
Fixpoint allocate_scan (now : Z) (i : nat) (es : list arp_entry) (lru : option (nat * Z)) : option (nat * bool) :=
  match es with
  | [] => match lru with Some (j, _) => Some (j, true) | None => None end
  | e :: rest =>
      match e_state e with
      | ARP_STATE_FREE => Some (i, false)
      | ARP_STATE_REACHABLE =>
          if ARP_REACHABLE_TTL_MS <=? arp_elapsed_ms now (confirmed_at e) then Some (i, true)
          else allocate_scan now (S i) rest
                 (match lru with
                  | Some (_, used) => if last_used_at e <? used then Some (i, last_used_at e) else lru
                  | None => Some (i, last_used_at e)
                  end)
      | ARP_STATE_FAILED =>
          if ARP_FAILED_TTL_MS <=? arp_elapsed_ms now (last_probe_at e) then Some (i, true)
          else allocate_scan now (S i) rest lru
      | ARP_STATE_INCOMPLETE => allocate_scan now (S i) rest lru
      end
  end.

Definition arp_allocate (t : arp_table) (now : Z) : option nat * arp_table :=
  match allocate_scan now 0 (entries t) None with
  | Some (i, true) => (Some i, arp_remove i t)
  | Some (i, false) => (Some i, t)
  | None => (None, t)
  end.

Definition arp_create (io : arp_io) (t : arp_table) (ip now : Z) : option nat * arp_table :=
  match arp_allocate t now with
  | (None, t1) => (None, t1)
  | (Some i, t1) =>
      if a_insert io
      then (Some i, mk_arpt (<[ip := i]> (hash t1)) (<[i := mk_entry ip [0; 0; 0; 0; 0; 0] ARP_STATE_INCOMPLETE 0 0 0 now]> (entries t1))
                      (u32 (acount t1 + 1)))
      else (None, set_entry i entry_zero t1)
  end.

(** ** Packets *)

Definition arp_build_pkt (opcode : Z) (dst_mac : list Z) (src_ip dst_ip : Z) : arp_frame :=
  mk_frame ARP_FRAME_LEN ARP_FRAME_LEN dst_mac local_mac RTE_ARP_HRD_ETHER RTE_ETHER_TYPE_IPV4 RTE_ETHER_ADDR_LEN 4 opcode
    local_mac src_ip dst_mac dst_ip.

Definition arp_send_request (io : arp_io) (ip : Z) (a : arp) : bool * arp :=
  if a_emit io
  then (true, mk_arp (table a) (tx a ++ [arp_build_pkt RTE_ARP_OP_REQUEST g_broadcast_mac local_ip ip]) (woken a))
  else (false, a).

Definition arp_probe (io : arp_io) (i : nat) (now : Z) (a : arp) : arp :=
  let e := entry_at i (table a) in
  let e1 := mk_entry (e_ip e) (hwaddr e) (e_state e) (probe_count e) (confirmed_at e) now (last_used_at e) in
  let '(sent, a1) := arp_send_request io (e_ip e) (with_table (set_entry i e1 (table a)) a) in
  if sent
  then with_table (set_entry i (mk_entry (e_ip e) (hwaddr e) (e_state e) (u8 (probe_count e + 1)) (confirmed_at e) now (last_used_at e))
                     (table a1)) a1
  else a1.

(** ** The resolver *)

Definition set_state (s : arp_state) (e : arp_entry) : arp_entry :=
  mk_entry (e_ip e) (hwaddr e) s (probe_count e) (confirmed_at e) (last_probe_at e) (last_used_at e).

(** A new entry, probed at once. *)
Definition create_and_probe (io : arp_io) (ip now : Z) (a : arp) : arp :=
  match arp_create io (table a) ip now with
  | (None, t) => with_table t a
  | (Some i, t) => arp_probe io i now (with_table t a)
  end.

Definition arp_resolve (io : arp_io) (ip now : Z) (a : arp) : option (list Z) * arp :=
  let t := table a in
  match arp_find t ip with
  | None => (None, create_and_probe io ip now a)
  | Some i =>
      let e := entry_at i t in
      match e_state e with
      | ARP_STATE_REACHABLE =>
          if arp_elapsed_ms now (confirmed_at e) <? ARP_REACHABLE_TTL_MS
          then (Some (hwaddr e),
                with_table (set_entry i (mk_entry (e_ip e) (hwaddr e) (e_state e) (probe_count e) (confirmed_at e) (last_probe_at e) now) t) a)
          else (None, create_and_probe io ip now (with_table (arp_remove i t) a))
      | ARP_STATE_INCOMPLETE =>
          if ARP_PROBE_INTERVAL_MS <=? arp_elapsed_ms now (last_probe_at e)
          then if probe_count e <? ARP_PROBE_MAX_RETRIES then (None, arp_probe io i now a)
               else (None, with_table (set_entry i (mk_entry (e_ip e) (hwaddr e) ARP_STATE_FAILED (probe_count e) (confirmed_at e) now (last_used_at e)) t) a)
          else (None, a)
      | ARP_STATE_FAILED =>
          if ARP_FAILED_TTL_MS <=? arp_elapsed_ms now (last_probe_at e)
          then (None, arp_probe io i now
                        (with_table (set_entry i (mk_entry (e_ip e) (hwaddr e) ARP_STATE_INCOMPLETE 0 (confirmed_at e) (last_probe_at e) (last_used_at e)) t) a))
          else (None, a)
      | ARP_STATE_FREE => (None, a)
      end
  end.

(** ** Learning *)

Definition refresh (now : Z) (e : arp_entry) : arp_entry :=
  mk_entry (e_ip e) (hwaddr e) (e_state e) (probe_count e) now (last_probe_at e) now.

Definition arp_table_learn_at (io : arp_io) (ip : Z) (mac : list Z) (now : Z) (a : arp) : arp :=
  let write i t :=
    let e := entry_at i t in
    arp_wake_tx_waiters ip (with_table (set_entry i (mk_entry (e_ip e) mac ARP_STATE_REACHABLE 0 now (last_probe_at e) now) t) a) in
  match arp_find (table a) ip with
  | None =>
      match arp_create io (table a) ip now with
      | (None, t) => with_table t a
      | (Some i, t) => write i t
      end
  | Some i =>
      let e := entry_at i (table a) in
      if bool_decide (e_state e = ARP_STATE_REACHABLE) && bool_decide (hwaddr e = mac)
      then with_table (set_entry i (refresh now e) (table a)) a
      else write i (table a)
  end.

Definition arp_table_learn (io : arp_io) (ip : Z) (mac : list Z) (now : Z) (a : arp) : arp := arp_table_learn_at io ip mac now a.

Definition arp_table_confirm (io : arp_io) (ip : Z) (mac : list Z) (now : Z) (a : arp) : arp :=
  match arp_find (table a) ip with
  | Some i =>
      let e := entry_at i (table a) in
      if bool_decide (e_state e = ARP_STATE_REACHABLE) && bool_decide (hwaddr e = mac)
      then with_table (set_entry i (refresh now e) (table a)) a
      else arp_table_learn_at io ip mac now a
  | None => arp_table_learn_at io ip mac now a
  end.

(** ** Maintenance *)

Definition maintain_entry (now : Z) (a : arp) (i : nat) : arp :=
  let t := table a in
  let e := entry_at i t in
  match e_state e with
  | ARP_STATE_REACHABLE =>
      if ARP_REACHABLE_TTL_MS <=? arp_elapsed_ms now (confirmed_at e) then with_table (arp_remove i t) a else a
  | ARP_STATE_INCOMPLETE =>
      if ARP_PROBE_INTERVAL_MS <=? arp_elapsed_ms now (last_probe_at e) then arp_wake_tx_waiters (e_ip e) a else a
  | ARP_STATE_FAILED =>
      if ARP_FAILED_TTL_MS <=? arp_elapsed_ms now (last_probe_at e)
      then arp_wake_tx_waiters (e_ip e) (with_table (arp_remove i t) a) else a
  | ARP_STATE_FREE => a
  end.
Definition arp_maintain (now : Z) (a : arp) : arp := fold_left (maintain_entry now) (seq 0 (length (entries (table a)))) a.

(** The diagnostic sweep; [ios] is what each of the eight calls meets. *)
Fixpoint sweep_loop (ios : nat -> arp_io) (n : nat) (next_host now : Z) (a : arp) : Z * arp :=
  match n with
  | O => (next_host, a)
  | S k =>
      let ip := Z.lor (Z.land local_ip 16777215) (Z.shiftl next_host 24) in
      sweep_loop ios k (if next_host =? 254 then 1 else u8 (next_host + 1)) now (snd (arp_resolve (ios n) ip now a))
  end.
Definition arp_debug_sweep (ios : nat -> arp_io) (next_host now : Z) (a : arp) : Z * arp :=
  sweep_loop ios ARP_SWEEP_BATCH (if next_host =? 0 then 1 else next_host) now a.

(** ** The packet handler *)

(** The sender must be a unicast address that is not all zeros. *)
Definition arp_frame_is_valid (f : arp_frame) : bool :=
  (ARP_FRAME_LEN <=? pkt_len f) && (ARP_FRAME_LEN <=? data_len f) && (arp_hardware f =? RTE_ARP_HRD_ETHER) &&
  (arp_protocol f =? RTE_ETHER_TYPE_IPV4) && (arp_hlen f =? RTE_ETHER_ADDR_LEN) && (arp_plen f =? 4) &&
  existsb (fun b => negb (b =? 0)) (arp_sha f) && (Z.land (nth 0 (arp_sha f) 0) 1 =? 0).

Definition arp_handle_mode (io : arp_io) (f : arp_frame) (reply_allowed : bool) (now : Z) (a : arp) : arp :=
  if (pkt_len f <? ARP_FRAME_LEN) || (data_len f <? ARP_FRAME_LEN) then a
  else if negb (arp_frame_is_valid f) then a
  else if negb (arp_tip f =? local_ip) then a
  else if arp_opcode f =? RTE_ARP_OP_REQUEST then
    let a1 := arp_table_learn io (arp_sip f) (arp_sha f) now a in
    if negb reply_allowed then a1
    else if a_emit io
    then mk_arp (table a1) (tx a1 ++ [arp_build_pkt RTE_ARP_OP_REPLY (arp_sha f) (arp_tip f) (arp_sip f)]) (woken a1)
    else a1
  else if arp_opcode f =? RTE_ARP_OP_REPLY then arp_table_learn io (arp_sip f) (arp_sha f) now a
  else a.
Definition arp_handle (io : arp_io) (f : arp_frame) (now : Z) (a : arp) : arp := arp_handle_mode io f true now a.
End Arp.
