(* ===== verification/ArpFacts.v ===== *)
(** * ARP: the cache is exact, an answer is the last one learned *)

From stdpp Require Import gmap.
From S2P Require Import Prelude Arp.

(** What was learned last about an address; the newest event is first. *)
Fixpoint last_learned (ip : Z) (log : list (Z * list Z * Z)) : option (list Z * Z) :=
  match log with
  | [] => None
  | (ip', mac, t) :: rest => if ip' =? ip then Some (mac, t) else last_learned ip rest
  end.

Definition in_use (e : arp_entry) : bool := negb (bool_decide (e_state e = ARP_STATE_FREE)).
Fixpoint used (l : list arp_entry) : Z :=
  match l with
  | [] => 0
  | e :: t => (if in_use e then 1 else 0) + used t
  end.
Lemma used_insert l i e e' : l !! i = Some e -> used (<[i := e']> l) = used l - (if in_use e then 1 else 0) + (if in_use e' then 1 else 0).
Proof. revert i. induction l as [|x l IH]; intros [|i]; cbn; [done..|intros [= ->]; lia|]. intros H. pose proof (IH i H) as E. unfold insert in *. lia. Qed.
Lemma used_range l : 0 <= used l <= Z.of_nat (length l).
Proof. induction l as [|x l IH]; cbn; [lia|]. destruct (in_use x); lia. Qed.
Lemma used_pos l i e : l !! i = Some e -> in_use e = true -> 0 < used l.
Proof. intros H E. pose proof (used_insert l i e entry_zero H) as U. rewrite E in U. pose proof (used_range (<[i := entry_zero]> l)). change (in_use entry_zero) with false in U. cbn iota in U. lia. Qed.

Section Facts.
Context (hz : Z) (local_ip : Z) (local_mac : list Z).

(** The hash finds exactly the entries in use, and [count] counts them; a
    reachable entry holds what was learned last about its address. *)
Record arp_ok (log : list (Z * list Z * Z)) (t : arp_table) : Prop := {
  ao_hash : forall ip i, hash t !! ip = Some i <-> exists e, entries t !! i = Some e /\ in_use e = true /\ e_ip e = ip;
  ao_count : acount t = used (entries t);
  ao_length : length (entries t) = ARP_CACHE_CAPACITY;
  ao_fresh : forall i e, entries t !! i = Some e -> e_state e = ARP_STATE_REACHABLE ->
    last_learned (e_ip e) log = Some (hwaddr e, confirmed_at e)
}.

Lemma entry_lookup t i e : entries t !! i = Some e -> entry_at i t = e.
Proof. unfold entry_at. by intros ->. Qed.
Lemma find_entry log t ip i : arp_ok log t -> arp_find t ip = Some i -> exists e, entries t !! i = Some e /\ entry_at i t = e /\ in_use e = true /\ e_ip e = ip.
Proof. intros O H. apply (ao_hash _ _ O) in H as (e & He & R). exists e. by rewrite (entry_lookup t i e He). Qed.

(** Rewriting an entry in use. *)
Lemma set_ok log t i e e' :
  arp_ok log t -> entries t !! i = Some e -> in_use e = true -> in_use e' = true -> e_ip e' = e_ip e ->
  (e_state e' = ARP_STATE_REACHABLE -> last_learned (e_ip e) log = Some (hwaddr e', confirmed_at e')) ->
  arp_ok log (set_entry i e' t).
Proof.
  intros O He U U' Hip Hl. pose proof (lookup_lt_Some _ _ _ He) as Hi. destruct O. split; cbn.
  - intros ip j. rewrite ao_hash0. destruct (decide (j = i)) as [->|Hne].
    + rewrite list_lookup_insert_eq by done. split; intros (x & Hx & Ux & Ex); [exists e'|exists e]; simplify_eq; split_and!; congruence.
    + by rewrite list_lookup_insert_ne.
  - rewrite (used_insert _ _ _ _ He), U, U', ao_count0. lia.
  - by rewrite length_insert.
  - intros j x Hx Sx. destruct (decide (j = i)) as [->|Hne].
    + rewrite list_lookup_insert_eq in Hx by done. simplify_eq. rewrite Hip. by apply Hl.
    + rewrite list_lookup_insert_ne in Hx by done. by eapply ao_fresh0.
Qed.

Lemma arp_remove_ok log t i e : arp_ok log t -> entries t !! i = Some e -> in_use e = true ->
  arp_ok log (arp_remove i t) /\ hash (arp_remove i t) = delete (e_ip e) (hash t) /\ entries (arp_remove i t) = <[i := entry_zero]> (entries t).
Proof.
  intros O He U. unfold arp_remove. rewrite (entry_lookup t i e He).
  rewrite bool_decide_eq_false_2 by (intros E; unfold in_use in U; by rewrite E in U).
  split_and!; [|done|done]. pose proof (lookup_lt_Some _ _ _ He) as Hi. destruct O. split; cbn.
  - intros ip j. rewrite lookup_delete_Some, ao_hash0. split.
    + intros (Hne & x & Hx & Ux & Ex). assert (j <> i) by congruence. exists x. by rewrite list_lookup_insert_ne.
    + destruct (decide (j = i)) as [->|Hne]; [rewrite list_lookup_insert_eq by done; intros (x & [= <-] & Ux & _); done|].
      rewrite list_lookup_insert_ne by done. intros (x & Hx & Ux & Ex). split; [|by exists x]. intros E.
      assert (hash t !! ip = Some i) as H1 by (apply ao_hash0; exists e; split_and!; try done; congruence).
      assert (hash t !! ip = Some j) as H2 by (apply ao_hash0; by exists x). congruence.
  - pose proof (used_pos _ _ _ He U). pose proof (used_range (entries t)). rewrite ao_length0 in *. change (Z.of_nat ARP_CACHE_CAPACITY) with 256 in *.
    rewrite (used_insert _ _ _ _ He), U, ao_count0. change (in_use entry_zero) with false. cbn iota. rewrite u32_small; [lia|unfold in_u32; lia].
  - by rewrite length_insert.
  - intros j x Hx Sx. destruct (decide (j = i)) as [->|Hne]; [rewrite list_lookup_insert_eq in Hx by done; by simplify_eq|].
    rewrite list_lookup_insert_ne in Hx by done. by eapply ao_fresh0.
Qed.

(** The scan gives a free entry, or one in use that may go. *)
Lemma arp_scan_spec now es k i r lru (all : list arp_entry) :
  (forall j e, es !! j = Some e -> all !! (k + j)%nat = Some e) ->
  (forall j u, lru = Some (j, u) -> exists e, all !! j = Some e /\ in_use e = true) ->
  allocate_scan hz now k es lru = Some (i, r) -> exists e, all !! i = Some e /\ in_use e = r.
Proof.
  revert k lru. induction es as [|e es IH]; intros k lru Hall Hlru; cbn.
  { destruct lru as [[j u]|]; [|done]. intros [= <- <-]. by eapply Hlru. }
  assert (all !! k = Some e) as He by (rewrite <- (Nat.add_0_r k); by apply Hall).
  assert (forall j x, es !! j = Some x -> all !! (S k + j)%nat = Some x) as Hall'.
  { intros j x Hx. replace (S k + j)%nat with (k + S j)%nat by lia. by apply Hall. }
  assert (forall b, e_state e <> ARP_STATE_FREE -> b = true -> exists x, all !! k = Some x /\ in_use x = b) as Used.
  { intros b Hs ->. exists e. split; [done|]. unfold in_use. by rewrite bool_decide_eq_false_2. }
  destruct (e_state e) eqn:Es.
  - intros [= <- <-]. exists e. split; [done|]. unfold in_use. by rewrite Es.
  - by apply IH.
  - case_match; [intros [= <- <-]; by apply Used|]. apply IH; [done|]. intros j u Hj.
    destruct lru as [[j0 u0]|]; [case_match|]; simplify_eq; try (by apply (Used true)); by eapply Hlru.
  - case_match; [intros [= <- <-]; by apply Used|by apply IH].
Qed.

Lemma allocate_ok log t now i t' :
  arp_ok log t -> arp_allocate hz t now = (Some i, t') ->
  arp_ok log t' /\ entries t' !! i = Some (entry_at i t') /\ in_use (entry_at i t') = false /\
  forall ip, arp_find t ip = None -> arp_find t' ip = None.
Proof.
  intros O. unfold arp_allocate. destruct (allocate_scan _ _ _ _ _) as [[j r]|] eqn:E; [|done].
  destruct (arp_scan_spec now (entries t) 0 j r None (entries t) ltac:(done) ltac:(done) E) as (e & He & U).
  destruct r; intros [= <- <-].
  - destruct (arp_remove_ok log t j e O He U) as (O' & Hh & Hes). split_and!; [done|..].
    + unfold entry_at. rewrite Hes, list_lookup_insert_eq by (by eapply lookup_lt_Some). done.
    + unfold entry_at. by rewrite Hes, list_lookup_insert_eq by (by eapply lookup_lt_Some).
    + intros ip Hn. unfold arp_find in *. rewrite Hh. by apply lookup_delete_None; right.
  - by rewrite (entry_lookup t j e He).
Qed.

(** A fresh entry for [ip]. *)
Definition incomplete (ip now : Z) : arp_entry := mk_entry ip [0; 0; 0; 0; 0; 0] ARP_STATE_INCOMPLETE 0 0 0 now.

Lemma create_ok log io t ip now :
  arp_ok log t -> arp_find t ip = None ->
  match arp_create hz io t ip now with
  | (None, t') => arp_ok log t' /\ arp_find t' ip = None
  | (Some i, t') => arp_ok log t' /\ arp_find t' ip = Some i /\ entries t' !! i = Some (incomplete ip now)
  end.
Proof.
  intros O Hn. unfold arp_create. destruct (arp_allocate hz t now) as [[i|] t1] eqn:E.
  2: { unfold arp_allocate in E. destruct (allocate_scan _ _ _ _ _) as [[? []]|]; by simplify_eq. }
  destruct (allocate_ok log t now i t1 O E) as (O1 & He & U & Hn1). specialize (Hn1 ip Hn).
  pose proof (lookup_lt_Some _ _ _ He) as Hi. destruct (a_insert io).
  - split_and!; cbn; [|apply lookup_insert_eq|by apply list_lookup_insert_eq]. destruct O1. split; cbn.
    + intros ip' j. destruct (decide (ip' = ip)) as [->|Hip].
      * rewrite lookup_insert_eq. split; [intros [= <-]; exists (incomplete ip now); by rewrite list_lookup_insert_eq|].
        intros (x & Hx & Ux & Ex). destruct (decide (j = i)) as [->|Hne]; [done|]. rewrite list_lookup_insert_ne in Hx by done.
        assert (hash t1 !! ip = Some j) as H1 by (apply ao_hash0; by exists x). unfold arp_find in Hn1. congruence.
      * rewrite lookup_insert_ne, ao_hash0 by done. destruct (decide (j = i)) as [->|Hne]; [|by rewrite list_lookup_insert_ne].
        rewrite list_lookup_insert_eq by done. split; intros (x & Hx & Ux & Ex); [|by simplify_eq].
        exfalso. rewrite He in Hx. simplify_eq. congruence.
    + pose proof (used_insert _ _ _ (incomplete ip now) He) as Hu. pose proof (used_range (<[i := incomplete ip now]> (entries t1))) as Hr.
      rewrite length_insert, ao_length0 in Hr. rewrite U in Hu. change (in_use (incomplete ip now)) with true in Hu. cbn iota in Hu. change (Z.of_nat ARP_CACHE_CAPACITY) with 256 in Hr.
      change (mk_entry ip [0; 0; 0; 0; 0; 0] ARP_STATE_INCOMPLETE 0 0 0 now) with (incomplete ip now). rewrite Hu in *. rewrite ao_count0.
      rewrite u32_small; [lia|unfold in_u32; lia].
    + by rewrite length_insert.
    + intros j x Hx Sx. destruct (decide (j = i)) as [->|Hne]; [rewrite list_lookup_insert_eq in Hx by done; by simplify_eq|].
      rewrite list_lookup_insert_ne in Hx by done. by eapply ao_fresh0.
  - split; [|done]. destruct O1. split; cbn.
    + intros ip' j. rewrite ao_hash0. destruct (decide (j = i)) as [->|Hne]; [|by rewrite list_lookup_insert_ne].
      rewrite list_lookup_insert_eq by done. split; intros (x & Hx & Ux & Ex); [|by simplify_eq]. exfalso. rewrite He in Hx. simplify_eq. congruence.
    + rewrite (used_insert _ _ _ entry_zero He), U, ao_count0. change (in_use entry_zero) with false. cbn iota. lia.
    + by rewrite length_insert.
    + intros j x Hx Sx. destruct (decide (j = i)) as [->|Hne]; [rewrite list_lookup_insert_eq in Hx by done; by simplify_eq|].
      rewrite list_lookup_insert_ne in Hx by done. by eapply ao_fresh0.
Qed.
(** ** The operations *)

Lemma probe_ok log io i now a e :
  arp_ok log (table a) -> entries (table a) !! i = Some e -> e_state e = ARP_STATE_INCOMPLETE ->
  arp_ok log (table (arp_probe local_ip local_mac io i now a)).
Proof.
  intros O He Hs. assert (in_use e = true) as U by (unfold in_use; by rewrite Hs).
  assert (forall n, arp_ok log (set_entry i (mk_entry (e_ip e) (hwaddr e) (e_state e) n (confirmed_at e) now (last_used_at e)) (table a))) as H.
  { intros n. apply (set_ok log _ i e); try done. cbn. congruence. }
  unfold arp_probe, arp_send_request. rewrite (entry_lookup _ _ _ He). destruct (a_emit io); [|apply H].
  specialize (H (u8 (probe_count e + 1))). unfold set_entry in *. cbn in *. by rewrite list_insert_insert_eq.
Qed.

Lemma create_probe_ok log io ip now a :
  arp_ok log (table a) -> arp_find (table a) ip = None -> arp_ok log (table (create_and_probe hz local_ip local_mac io ip now a)).
Proof.
  intros O Hn. unfold create_and_probe. pose proof (create_ok log io (table a) ip now O Hn) as H.
  destruct (arp_create hz io (table a) ip now) as [[i|] t]; [|apply H]. destruct H as (O1 & _ & He). by eapply probe_ok.
Qed.

(** An answer is what was learned last, not longer ago than the time to live. *)
Lemma resolve_ok log io ip now a :
  arp_ok log (table a) ->
  arp_ok log (table (snd (arp_resolve hz local_ip local_mac io ip now a))) /\
  forall mac, fst (arp_resolve hz local_ip local_mac io ip now a) = Some mac ->
    exists t, last_learned ip log = Some (mac, t) /\ arp_elapsed_ms hz now t < ARP_REACHABLE_TTL_MS.
Proof.
  intros O. unfold arp_resolve. destruct (arp_find (table a) ip) as [i|] eqn:Ef; [|split; [by apply create_probe_ok|done]].
  destruct (find_entry log _ _ _ O Ef) as (e & He & -> & U & Hip). destruct (e_state e) eqn:Es.
  - done.
  - case_match; [|done]. case_match; (split; [|done]); [by eapply probe_ok|]. by apply (set_ok log _ i e).
  - destruct (Z.ltb_spec (arp_elapsed_ms hz now (confirmed_at e)) ARP_REACHABLE_TTL_MS).
    + pose proof (ao_fresh _ _ O _ _ He Es) as Hl. split; [by apply (set_ok log _ i e)|].
      intros mac [= <-]. exists (confirmed_at e). by rewrite <- Hip.
    + split; [|done]. destruct (arp_remove_ok log _ i e O He U) as (O1 & Hh & _). apply create_probe_ok; [done|].
      unfold arp_find. cbn. rewrite Hh, Hip. apply lookup_delete_eq.
  - case_match; [|done]. split; [|done]. eapply probe_ok; [by apply (set_ok log _ i e)|cbn; by apply list_lookup_insert_eq; eapply lookup_lt_Some|done].
Qed.

(** A fact about an address the table does not hold changes nothing. *)
Lemma ok_extend log ip mac now t : arp_ok log t -> arp_find t ip = None -> arp_ok ((ip, mac, now) :: log) t.
Proof.
  intros O Hn. pose proof O as []. split; try done. intros i e He Hs. cbn. destruct (Z.eqb_spec ip (e_ip e)) as [->|]; [|by eapply ao_fresh0].
  assert (hash t !! e_ip e = Some i) as H by (apply ao_hash0; exists e; split_and!; try done; unfold in_use; by rewrite Hs).
  unfold arp_find in Hn. congruence.
Qed.

(** A fact about the address of entry [i], written there. *)
Lemma learn_write_ok log ip mac now t i e e' :
  arp_ok log t -> entries t !! i = Some e -> in_use e = true -> e_ip e = ip ->
  e_ip e' = ip -> e_state e' = ARP_STATE_REACHABLE -> hwaddr e' = mac -> confirmed_at e' = now ->
  arp_ok ((ip, mac, now) :: log) (set_entry i e' t).
Proof.
  intros O He U Hip Hip' Hs Hmac Hnow. assert (arp_ok log (set_entry i (incomplete ip 0) t)) as O1 by (by eapply set_ok; eauto).
  assert (arp_ok ((ip, mac, now) :: log) (set_entry i (incomplete ip 0) t)) as O2.
  { pose proof O1 as []. split; try done. intros j x Hx Sx. cbn. destruct (Z.eqb_spec ip (e_ip x)) as [E|]; [|by eapply ao_fresh0].
    assert (hash (set_entry i (incomplete ip 0) t) !! ip = Some j) as H1.
    { apply ao_hash0. exists x. split_and!; try done. unfold in_use. by rewrite Sx. }
    assert (hash (set_entry i (incomplete ip 0) t) !! ip = Some i) as H2.
    { apply ao_hash0. exists (incomplete ip 0). split_and!; try done. cbn. apply list_lookup_insert_eq. by eapply lookup_lt_Some. }
    assert (j = i) as -> by congruence. cbn in Hx. rewrite list_lookup_insert_eq in Hx by (by eapply lookup_lt_Some). by simplify_eq. }
  replace (set_entry i e' t) with (set_entry i e' (set_entry i (incomplete ip 0) t)) by (unfold set_entry; cbn; by rewrite list_insert_insert_eq).
  apply (set_ok _ _ i (incomplete ip 0)); try done.
  - cbn. apply list_lookup_insert_eq. by eapply lookup_lt_Some.
  - unfold in_use. by rewrite Hs.
  - intros _. cbn. by rewrite Z.eqb_refl, Hmac, Hnow.
Qed.

Lemma learn_ok log io ip mac now a :
  arp_ok log (table a) -> arp_ok ((ip, mac, now) :: log) (table (arp_table_learn_at hz io ip mac now a)).
Proof.
  intros O. unfold arp_table_learn_at. destruct (arp_find (table a) ip) as [i|] eqn:Ef.
  - destruct (find_entry log _ _ _ O Ef) as (e & He & -> & U & Hip).
    destruct (bool_decide_reflect (e_state e = ARP_STATE_REACHABLE)), (bool_decide_reflect (hwaddr e = mac)); cbn [andb];
      by apply (learn_write_ok log ip mac now (table a) i e).
  - pose proof (create_ok log io (table a) ip now O Ef) as H. destruct (arp_create hz io (table a) ip now) as [[i|] t].
    + destruct H as (O1 & _ & He). rewrite (entry_lookup _ _ _ He). by apply (learn_write_ok log ip mac now t i (incomplete ip now)).
    + destruct H as (O1 & Hn). by apply ok_extend.
Qed.
Lemma confirm_learn io ip mac now a : arp_table_confirm hz io ip mac now a = arp_table_learn_at hz io ip mac now a.
Proof.
  unfold arp_table_confirm. destruct (arp_find (table a) ip) as [i|] eqn:E; [|done]. case_match; [|done].
  unfold arp_table_learn_at. rewrite E. by case_match.
Qed.

Lemma maintain_entry_ok log now a i : arp_ok log (table a) -> arp_ok log (table (maintain_entry hz now a i)).
Proof.
  intros O. unfold maintain_entry. destruct (entries (table a) !! i) as [e|] eqn:He.
  2: { unfold entry_at. by rewrite He. }
  rewrite (entry_lookup _ _ _ He). destruct (e_state e) eqn:Es; try done; case_match; try done;
    apply (arp_remove_ok log _ i e O He); unfold in_use; by rewrite Es.
Qed.
Lemma maintain_ok log now a : arp_ok log (table a) -> arp_ok log (table (arp_maintain hz now a)).
Proof. unfold arp_maintain. generalize (seq 0 (length (entries (table a)))). intros l. revert a. induction l as [|i l IH]; intros a O; cbn; [done|]. by apply IH, maintain_entry_ok. Qed.

Lemma init_ok : arp_ok [] (table arp_table_init_owner).
Proof.
  split; try done.
  - intros ip i. cbn [table hash entries arp_table_init_owner]. rewrite lookup_empty. split; [done|].
    intros (e & He%lookup_replicate & U & _). destruct He as [-> _]. done.
  - intros i e He. apply lookup_replicate in He as [-> _]. done.
Qed.
End Facts.

(** ** The theorems *)

Section Theorems.
Context (hz : Z) (local_ip : Z) (local_mac : list Z).

(** The frames a stack learns from. *)
Definition learns (f : arp_frame) : bool :=
  arp_frame_is_valid f && (arp_tip f =? local_ip) && ((arp_opcode f =? RTE_ARP_OP_REQUEST) || (arp_opcode f =? RTE_ARP_OP_REPLY)).

Lemma handle_table io f reply now a :
  table (arp_handle_mode hz local_ip local_mac io f reply now a) =
  if learns f then table (arp_table_learn_at hz io (arp_sip f) (arp_sha f) now a) else table a.
Proof.
  unfold arp_handle_mode, learns. destruct (arp_frame_is_valid f) eqn:Ev; cbn [negb andb]; [|by case_match].
  assert ((pkt_len f <? ARP_FRAME_LEN) || (data_len f <? ARP_FRAME_LEN) = false) as ->.
  { unfold arp_frame_is_valid in Ev. bprop. lia. }
  destruct (arp_tip f =? local_ip); cbn [negb andb]; [|done]. destruct (arp_opcode f =? RTE_ARP_OP_REQUEST); cbn [orb].
  - destruct reply; cbn [negb]; [|done]. by destruct (a_emit io).
  - by destruct (arp_opcode f =? RTE_ARP_OP_REPLY).
Qed.

(** Any sequence of resolutions, learned and confirmed neighbours, received
    frames and maintenance rounds; the log holds what was learned. *)
Inductive arp_reached : list (Z * list Z * Z) -> arp -> Prop :=
| reached_init : arp_reached [] arp_table_init_owner
| reached_resolve log a io ip now : arp_reached log a -> arp_reached log (snd (arp_resolve hz local_ip local_mac io ip now a))
| reached_learn log a io ip mac now : arp_reached log a -> arp_reached ((ip, mac, now) :: log) (arp_table_learn hz io ip mac now a)
| reached_confirm log a io ip mac now : arp_reached log a -> arp_reached ((ip, mac, now) :: log) (arp_table_confirm hz io ip mac now a)
| reached_frame log a io f reply now : arp_reached log a ->
    arp_reached (if learns f then (arp_sip f, arp_sha f, now) :: log else log) (arp_handle_mode hz local_ip local_mac io f reply now a)
| reached_maintain log a now : arp_reached log a -> arp_reached log (arp_maintain hz now a).

Lemma reached_ok log a : arp_reached log a -> arp_ok log (table a).
Proof.
  induction 1; [apply init_ok|by apply resolve_ok|by apply learn_ok|rewrite confirm_learn; by apply learn_ok| |by apply maintain_ok].
  rewrite handle_table. destruct (learns f); [by apply learn_ok|done].
Qed.

(** in every history the hash finds exactly the entries in use, no
    address has two, and the counter counts them. *)
Theorem arp_cache_exact log a :
  arp_reached log a ->
  (forall ip i, arp_find (table a) ip = Some i <-> exists e, entries (table a) !! i = Some e /\ in_use e = true /\ e_ip e = ip) /\
  acount (table a) = used (entries (table a)) /\ 0 <= acount (table a) <= 256 /\ length (entries (table a)) = ARP_CACHE_CAPACITY.
Proof.
  intros O%reached_ok. pose proof (used_range (entries (table a))) as Hr. destruct O. rewrite ao_length0 in Hr.
  split_and!; try done; rewrite ao_count0; apply Hr.
Qed.

(** C25: in every history an address resolves only to the Ethernet address
    that was learned last for it, and only while that is younger than five
    minutes. *)
Theorem arp_answer_fresh log a io ip now mac :
  arp_reached log a -> fst (arp_resolve hz local_ip local_mac io ip now a) = Some mac ->
  exists t, last_learned ip log = Some (mac, t) /\ arp_elapsed_ms hz now t < ARP_REACHABLE_TTL_MS.
Proof. intros O%reached_ok. by apply resolve_ok. Qed.

(** ** Learning and then resolving *)

Lemma learn_resolve log io io' ip mac now later a :
  arp_ok log (table a) ->
  (is_Some (arp_find (table a) ip) \/ is_Some (fst (arp_create hz io (table a) ip now))) ->
  arp_elapsed_ms hz later now < ARP_REACHABLE_TTL_MS ->
  fst (arp_resolve hz local_ip local_mac io' ip later (arp_table_learn_at hz io ip mac now a)) = Some mac.
Proof.
  intros O Room Young.
  assert (exists i e, arp_find (table (arp_table_learn_at hz io ip mac now a)) ip = Some i /\
    entries (table (arp_table_learn_at hz io ip mac now a)) !! i = Some e /\ e_state e = ARP_STATE_REACHABLE /\ hwaddr e = mac /\ confirmed_at e = now)
    as (i & e & Hf & He & Hs & Hm & Hc).
  { unfold arp_table_learn_at. destruct (arp_find (table a) ip) as [i|] eqn:Ef.
    - destruct (find_entry log _ _ _ O Ef) as (e & He & -> & U & Hip). pose proof (lookup_lt_Some _ _ _ He) as Hi.
      destruct (bool_decide_reflect (e_state e = ARP_STATE_REACHABLE)), (bool_decide_reflect (hwaddr e = mac)); cbn [andb];
        (eexists i, _; split; [exact Ef|]; split; [by apply list_lookup_insert_eq|done]).
    - destruct Room as [[? ?]|Room]; [done|]. pose proof (create_ok hz log io (table a) ip now O Ef) as H.
      destruct (arp_create hz io (table a) ip now) as [[i|] t]; [|by destruct Room]. destruct H as (O1 & Hf & He).
      eexists i, _. split; [exact Hf|]. split; [apply list_lookup_insert_eq; by eapply lookup_lt_Some|done]. }
  unfold arp_resolve. rewrite Hf, (entry_lookup _ _ _ He), Hs, Hc. destruct (Z.ltb_spec (arp_elapsed_ms hz later now) ARP_REACHABLE_TTL_MS); [|lia].
  by rewrite <- Hm.
Qed.
End Theorems.

(** An Ethernet address a frame may come from. *)
Definition unicast (mac : list Z) : bool := existsb (fun b => negb (b =? 0)) mac && (Z.land (nth 0 mac 0) 1 =? 0).
Definition granted : arp_io := mk_aio true true.

Lemma built_valid mac op dst sip tip : unicast mac = true -> arp_frame_is_valid (arp_build_pkt mac op dst sip tip) = true.
Proof. unfold unicast, arp_frame_is_valid. cbn. done. Qed.

(** a resolution over the wire.  A stack that does not know a neighbour
    asks for it; the neighbour handles the frame sent, learns the asker and
    answers; once the asker handles that frame it resolves the neighbour to
    the neighbour's own address, for five minutes. *)
Theorem arp_exchange hz ipA macA ipB macB logA logB a b t0 t1 t2 t3 i t
    (Ha : arp_reached hz ipA macA logA a) (Hb : arp_reached hz ipB macB logB b)
    (HA : unicast macA = true) (HB : unicast macB = true)
    (Hn : arp_find (table a) ipB = None) (Hroom : arp_create hz granted (table a) ipB t0 = (Some i, t))
    (Young : arp_elapsed_ms hz t3 t2 < ARP_REACHABLE_TTL_MS) :
  exists request reply,
    let a1 := snd (arp_resolve hz ipA macA granted ipB t0 a) in
    let b1 := arp_handle hz ipB macB granted request t1 b in
    tx a1 = tx a ++ [request] /\ tx b1 = tx b ++ [reply] /\
    fst (arp_resolve hz ipA macA granted ipB t3 (arp_handle hz ipA macA granted reply t2 a1)) = Some macB.
Proof.
  exists (arp_build_pkt macA RTE_ARP_OP_REQUEST g_broadcast_mac ipA ipB), (arp_build_pkt macB RTE_ARP_OP_REPLY macA ipB ipA). cbv zeta.
  pose proof (reached_ok _ _ _ _ _ (reached_resolve hz ipA macA logA a granted ipB t0 Ha)) as O1.
  pose proof (create_ok hz logA granted (table a) ipB t0 (reached_ok _ _ _ _ _ Ha) Hn) as C. rewrite Hroom in C. destruct C as (OC & Hf & He).
  assert (snd (arp_resolve hz ipA macA granted ipB t0 a) = arp_probe ipA macA granted i t0 (with_table t a)) as Er.
  { unfold arp_resolve. rewrite Hn. unfold create_and_probe. by rewrite Hroom. }
  assert (arp_find (table (arp_probe ipA macA granted i t0 (with_table t a))) ipB = Some i) as Hf1 by exact Hf.
  split_and!.
  - rewrite Er. unfold arp_probe. cbn. rewrite (entry_lookup _ _ _ He). done.
  - unfold arp_handle, arp_handle_mode. rewrite built_valid by done. cbn [pkt_len data_len arp_build_pkt arp_tip arp_opcode]. rewrite !Z.eqb_refl. cbn.
    unfold arp_table_learn, arp_table_learn_at. repeat case_match; done.
  - rewrite Er in *. unfold arp_handle, arp_handle_mode. rewrite built_valid by done. cbn [pkt_len data_len arp_build_pkt arp_tip arp_opcode].
    rewrite !Z.eqb_refl. cbn [negb orb]. change (ARP_FRAME_LEN <? ARP_FRAME_LEN) with false. cbn [orb].
    change (RTE_ARP_OP_REPLY =? RTE_ARP_OP_REQUEST) with false. cbn iota.
    apply (learn_resolve hz ipA macA logA); [done|left; by eexists|done].
Qed.

(** ** A cache of unanswered probes *)

Definition resolving (t : arp_table) : Prop := Forall (fun e => e_state e = ARP_STATE_INCOMPLETE) (entries t).

Lemma maintain_resolving hz now a : resolving (table a) -> table (arp_maintain hz now a) = table a.
Proof.
  intros H. unfold arp_maintain. generalize (seq 0 (length (entries (table a)))). intros l.
  assert (forall b, table b = table a -> table (fold_left (maintain_entry hz now) l b) = table a) as Fold; [|by apply Fold].
  induction l as [|i l IH]; intros b E; cbn; [done|]. apply IH. unfold maintain_entry. rewrite E.
  destruct (entries (table a) !! i) as [e|] eqn:He; [|unfold entry_at; by rewrite He].
  rewrite (entry_lookup _ _ _ He), (Forall_lookup_1 _ _ _ _ H He). by case_match.
Qed.

Lemma scan_resolving hz now k es : Forall (fun e => e_state e = ARP_STATE_INCOMPLETE) es -> allocate_scan hz now k es None = None.
Proof. intros H. revert k. induction H as [|e es E H IH]; intros k; cbn; [done|]. rewrite E. apply IH. Qed.

(** C38: when every entry awaits an answer, maintenance frees none, however
    often and late it runs; an address outside the cache is then never
    resolved, and its own announcements are not learned. *)
Theorem arp_resolving_forever hz local_ip local_mac a ip nows
    (H : resolving (table a)) (Hn : arp_find (table a) ip = None) :
  let a' := fold_left (fun a now => arp_maintain hz now a) nows a in
  table a' = table a /\
  forall io now mac,
    arp_resolve hz local_ip local_mac io ip now a' = (None, a') /\ arp_table_learn hz io ip mac now a' = a'.
Proof.
  assert (table (fold_left (fun a now => arp_maintain hz now a) nows a) = table a) as E.
  { revert a H Hn. induction nows as [|t nows IH]; intros a H Hn; cbn; [done|]. pose proof (maintain_resolving hz t a H) as E.
    rewrite IH; [done|by rewrite E|by rewrite E]. }
  cbv zeta. split; [done|]. intros io now mac. revert E. generalize (fold_left (fun a now => arp_maintain hz now a) nows a). intros a' E.
  assert (arp_create hz io (table a') ip now = (None, table a')) as Ec.
  { unfold arp_create, arp_allocate. rewrite scan_resolving; [done|]. by rewrite E. }
  assert (with_table (table a') a' = a') as Ew by (by destruct a').
  unfold arp_resolve, arp_table_learn, arp_table_learn_at, create_and_probe. rewrite E, Hn, <- E, Ec, Ew. done.
Qed.

(** ** Concrete runs *)

Definition macX : list Z := [2; 0; 0; 0; 0; 1].
Definition macY : list Z := [2; 0; 0; 0; 0; 2].

Lemma arp_exchange_witness : exists request reply,
  tx (arp_handle 1000 9 macY granted request 20 arp_table_init_owner) = [reply] /\
  fst (arp_resolve 1000 7 macX granted 9 40
         (arp_handle 1000 7 macX granted reply 30 (snd (arp_resolve 1000 7 macX granted 9 10 arp_table_init_owner)))) = Some macY.
Proof.
  destruct (arp_create 1000 granted (table arp_table_init_owner) 9 10) as [o t] eqn:E. assert (o = Some 0%nat) as -> by (by vm_compute in E; simplify_eq).
  destruct (arp_exchange 1000 7 macX 9 macY [] [] arp_table_init_owner arp_table_init_owner 10 20 30 40 0%nat t (reached_init _ _ _)
    (reached_init _ _ _) eq_refl eq_refl eq_refl E ltac:(by vm_compute)) as (request & reply & _ & H2 & H3).
  exists request, reply. split; [exact H2|exact H3].
Defined.

(** Learned at 10, resolved at 20. *)
Definition learned_demo : arp := arp_table_learn 1000 granted 9 macY 10 arp_table_init_owner.
Lemma learned_demo_reached : arp_reached 1000 7 macX [(9, macY, 10)] learned_demo.
Proof. apply reached_learn, reached_init. Qed.

Lemma arp_answer_fresh_witness : exists t, last_learned 9 [(9, macY, 10)] = Some (macY, t) /\ arp_elapsed_ms 1000 20 t < ARP_REACHABLE_TTL_MS.
Proof. apply (arp_answer_fresh 1000 7 macX [(9, macY, 10)] learned_demo granted 9 20 macY learned_demo_reached). by vm_compute. Defined.

Lemma arp_cache_exact_witness : acount (table learned_demo) = used (entries (table learned_demo)) /\ acount (table learned_demo) = 1.
Proof. destruct (arp_cache_exact 1000 7 macX _ learned_demo learned_demo_reached) as (_ & H & _). split; [exact H|by vm_compute]. Defined.

(** Two hundred and fifty-six probes at time 10. *)
Definition probed : arp :=
  fold_left (fun a n => snd (arp_resolve 1000 7 macX granted (100 + Z.of_nat n) 10 a)) (seq 0 256) arp_table_init_owner.
Lemma probed_resolving : resolving (table probed).
Proof. apply (bool_decide_unpack (resolving (table probed))). by vm_compute. Qed.

Lemma probed_absent : arp_find (table probed) 9 = None.
Proof. by vm_compute. Qed.

Lemma arp_resolving_forever_witness :
  let a' := fold_left (fun a now => arp_maintain 1000 now a) [100000000] probed in
  arp_resolve 1000 7 macX granted 9 100000000 a' = (None, a').
Proof. exact (proj1 (proj2 (arp_resolving_forever 1000 7 macX probed 9 [100000000] probed_resolving probed_absent) granted 100000000 macX)). Defined.
