(* ===== verification/Udp.v ===== *)
(** * UDP sockets (pro-stack/udp.c, udp_memory.c)

    The owner-local queue-node pool, datagram construction, ingress, egress
    and the receive call.  A queue or a ring is the list of what it holds,
    oldest first; a received packet is its addresses, the length field of its
    UDP header and its bytes from that header on.  What a call meets outside
    (allocation, address resolution, the output ring) is an argument; null
    arguments are not modelled. *)

From S2P Require Import Prelude.

Definition UDP_RX_QUEUE_LIMIT : Z := 64.
Definition UDP_MEMORY_RX_NODES : Z := 4095.
Definition UDP_SENDTO_MAX_DATAGRAMS : Z := 8.
(** A ring of [RING_SIZE] slots holds one packet less. *)
Definition RING_ROOM : Z := 1024 - 1.
Definition IPV4_HDR : Z := 20.
Definition UDP_HDR : Z := 8.
Definition ETHER_HDR : Z := 14.
Definition broadcast_mac : list Z := [255; 255; 255; 255; 255; 255].

(** ** The node pool *)

(** [available] is the free count of the DPDK pool, [pool_ready] whether it
    was created. *)
Record udp_owner_memory := mk_umem {
  pool_ready : bool;
  mem_capacity : Z;
  available : Z;
  alloc_fail : Z;
  unavailable : Z;
  peak_in_use : Z;
  queue_drops : Z
}.

Definition umem_zero : udp_owner_memory := mk_umem false 0 0 0 0 0 0.

Definition udp_owner_memory_init (created : bool) : bool * udp_owner_memory :=
  if created then (true, mk_umem true UDP_MEMORY_RX_NODES UDP_MEMORY_RX_NODES 0 0 0 0) else (false, umem_zero).
Definition udp_owner_memory_fini (m : udp_owner_memory) : udp_owner_memory := umem_zero.

(** [available], capacity, failures, unavailability, peak, drops. *)
Definition udp_owner_memory_snapshot (m : udp_owner_memory) : Z * Z * Z * Z * Z * Z :=
  (mem_capacity m, if pool_ready m then available m else 0, alloc_fail m, unavailable m, peak_in_use m, queue_drops m).

Definition udp_memory_get (m : udp_owner_memory) : option errno * udp_owner_memory :=
  if negb (pool_ready m) then
    (Some ENOBUFS, mk_umem (pool_ready m) (mem_capacity m) (available m) (u64 (alloc_fail m + 1)) (u64 (unavailable m + 1)) (peak_in_use m)
                     (queue_drops m))
  else if available m <=? 0 then
    (Some ENOBUFS, mk_umem (pool_ready m) (mem_capacity m) (available m) (u64 (alloc_fail m + 1)) (unavailable m) (peak_in_use m) (queue_drops m))
  else
    let available := available m - 1 in
    let used := mem_capacity m - available in
    (None, mk_umem (pool_ready m) (mem_capacity m) available (alloc_fail m) (unavailable m)
             (if peak_in_use m <? used then used else peak_in_use m) (queue_drops m)).
Definition udp_memory_rx_node_alloc (m : udp_owner_memory) : option errno * udp_owner_memory := udp_memory_get m.
Definition udp_memory_rx_node_free (m : udp_owner_memory) : udp_owner_memory :=
  if pool_ready m
  then mk_umem (pool_ready m) (mem_capacity m) (available m + 1) (alloc_fail m) (unavailable m) (peak_in_use m) (queue_drops m) else m.
Definition udp_memory_record_queue_drop (m : udp_owner_memory) : udp_owner_memory :=
  mk_umem (pool_ready m) (mem_capacity m) (available m) (alloc_fail m) (unavailable m) (peak_in_use m) (u64 (queue_drops m + 1)).

(** ** Sockets *)

(** [image] starts at the UDP header, [seg_len] of its bytes are in the first
    segment of the buffer; the two length fields are as on the wire. *)
Record udp_rx := mk_urx { rx_src : Z * Z; rx_dst : Z * Z; ip_total_length : Z; dgram_len : Z; cksum_zero : bool; cksum_ok : bool;
  seg_len : Z; image : list Z }.

Record udp_tx := mk_utx { tx_mac : list Z; tx_src : Z * Z; tx_dst : Z * Z; tx_data : list Z }.

Record udp_sock := mk_usock {
  owner_local : bool;
  sk_local : Z * Z;
  rx_queue : list udp_rx;
  rx_queue_count : Z;
  rx_current : option udp_rx;
  rx_current_off : Z;
  recv_buf : list udp_rx;
  send_buf : list udp_tx
}.

(** What the owner learns of. *)
Inductive udp_event := UReadable | UWritable | UConfirmed (ip : Z) | UArpWait (ip : Z) | UDirty | UQueueDrops (n : Z).

Record udp := mk_udp { sock : udp_sock; memory : udp_owner_memory; out : list udp_tx; udp_events : list udp_event }.

Definition with_sock (s : udp_sock) (u : udp) : udp := mk_udp s (memory u) (out u) (udp_events u).
Definition with_memory (m : udp_owner_memory) (u : udp) : udp := mk_udp (sock u) m (out u) (udp_events u).
Definition with_out (o : list udp_tx) (u : udp) : udp := mk_udp (sock u) (memory u) o (udp_events u).
Definition say (e : udp_event) (u : udp) : udp := mk_udp (sock u) (memory u) (out u) (udp_events u ++ [e]).
Definition with_rx (q : list udp_rx) (n : Z) (s : udp_sock) : udp_sock :=
  mk_usock (owner_local s) (sk_local s) q n (rx_current s) (rx_current_off s) (recv_buf s) (send_buf s).
Definition with_current (c : option udp_rx) (off : Z) (s : udp_sock) : udp_sock :=
  mk_usock (owner_local s) (sk_local s) (rx_queue s) (rx_queue_count s) c off (recv_buf s) (send_buf s).
Definition with_recv_buf (l : list udp_rx) (s : udp_sock) : udp_sock :=
  mk_usock (owner_local s) (sk_local s) (rx_queue s) (rx_queue_count s) (rx_current s) (rx_current_off s) l (send_buf s).
Definition with_send_buf (l : list udp_tx) (s : udp_sock) : udp_sock :=
  mk_usock (owner_local s) (sk_local s) (rx_queue s) (rx_queue_count s) (rx_current s) (rx_current_off s) (recv_buf s) l.
Definition with_local (a : Z * Z) (s : udp_sock) : udp_sock :=
  mk_usock (owner_local s) a (rx_queue s) (rx_queue_count s) (rx_current s) (rx_current_off s) (recv_buf s) (send_buf s).

(** ** The owner-local receive queue *)

Definition udp_local_rx_enqueue (p : udp_rx) (u : udp) : option errno * udp :=
  if UDP_RX_QUEUE_LIMIT <=? rx_queue_count (sock u) then (Some ENOBUFS, u)
  else match udp_memory_rx_node_alloc (memory u) with
  | (Some e, m) => (Some e, with_memory m u)
  | (None, m) => (None, with_sock (with_rx (rx_queue (sock u) ++ [p]) (rx_queue_count (sock u) + 1) (sock u)) (with_memory m u))
  end.

Definition udp_local_rx_dequeue (u : udp) : option udp_rx * udp :=
  match rx_queue (sock u) with
  | [] => (None, u)
  | p :: rest =>
      (Some p, with_memory (udp_memory_rx_node_free (memory u))
                 (with_sock (with_rx rest (if 0 <? rx_queue_count (sock u) then rx_queue_count (sock u) - 1 else rx_queue_count (sock u)) (sock u)) u))
  end.

Fixpoint drain_loop (fuel : nat) (u : udp) : udp :=
  match fuel with
  | O => u
  | S k => match udp_local_rx_dequeue u with (None, u1) => u1 | (Some _, u1) => drain_loop k u1 end
  end.
Definition udp_local_rx_drain (u : udp) : udp := drain_loop (S (length (rx_queue (sock u)))) u.

Definition udp_rx_current_release (u : udp) : udp := with_sock (with_current None 0 (sock u)) u.

(** ** Sending *)

Section Send.
(** The MTU, the space of a packet buffer and the stack's address. *)
Context (ipv4_mtu room local_ip : Z).

(** The payload limit and the number of datagrams. *)
Definition udp_datagram_shape (len : Z) : errno + (Z * Z) :=
  let headers := IPV4_HDR + UDP_HDR in
  if ipv4_mtu <=? headers then inl ENETDOWN
  else
    let payload_limit := ipv4_mtu - headers in
    let count := if len =? 0 then 1 else len / payload_limit + (if len mod payload_limit =? 0 then 0 else 1) in
    if UDP_SENDTO_MAX_DATAGRAMS <? count then inl EMSGSIZE else inr (payload_limit, count).

Definition udp_build_pkt (alloc : bool) (mac : list Z) (src dst : Z * Z) (data : list Z) : option udp_tx :=
  if room <? ETHER_HDR + IPV4_HDR + UDP_HDR + zlen data then None
  else if UINT16_MAX - UDP_HDR <? zlen data then None
  else if alloc then Some (mk_utx mac src dst data) else None.

(** [alloc i] says whether the buffer of datagram [i] can be had. *)
Fixpoint build_loop (alloc : nat -> bool) (i : nat) (n : nat) (limit : Z) (mac : list Z) (src dst : Z * Z) (buf : list Z)
    : option (list udp_tx) :=
  match n with
  | O => Some []
  | S k =>
      let chunk := take (Z.to_nat limit) buf in
      match udp_build_pkt (alloc i) mac src dst chunk with
      | None => None
      | Some p => option_map (cons p) (build_loop alloc (S i) k limit mac src dst (drop (Z.to_nat limit) buf))
      end
  end.

Definition udp_build_datagrams (alloc : nat -> bool) (s : udp_sock) (dst : Z * Z) (mac : list Z) (buf : list Z) : errno + list udp_tx :=
  match udp_datagram_shape (zlen buf) with
  | inl e => inl e
  | inr (limit, count) =>
      let src := (if fst (sk_local s) =? 0 then local_ip else fst (sk_local s), snd (sk_local s)) in
      match build_loop alloc 0 (Z.to_nat count) limit mac src dst buf with
      | None => inl ENOBUFS
      | Some l => inr l
      end
  end.

(** [ring] says whether there is an output ring and how many packets it takes;
    [mac] is the answer of the resolver. *)
Definition udp_sendto_local (ring : option Z) (mac : option (list Z)) (alloc : nat -> bool) (buf : list Z) (dst : Z * Z) (u : udp)
    : (errno + Z) * udp :=
  match ring with
  | None => (inl ENETDOWN, u)
  | Some free =>
      match mac with
      | None => (inl EAGAIN, say (UArpWait (fst dst)) u)
      | Some m =>
          match udp_build_datagrams alloc (sock u) dst m buf with
          | inl e => (inl e, u)
          | inr packets =>
              let count := zlen packets in
              let enqueued := Z.max 0 (Z.min free count) in
              let u1 := with_out (out u ++ take (Z.to_nat enqueued) packets) u in
              (inr (zlen buf), if enqueued =? count then u1 else say (UQueueDrops (count - enqueued)) u1)
          end
      end
  end.

(** [bind] is the result of the ephemeral bind, the port taken. *)
Definition udp_sendto (bind : errno + Z) (ring : option Z) (mac : option (list Z)) (alloc : nat -> bool) (buf : list Z) (dst : Z * Z) (u : udp)
    : (errno + Z) * udp :=
  match udp_datagram_shape (zlen buf) with
  | inl e => (inl e, u)
  | inr _ =>
      let bound :=
        if snd (sk_local (sock u)) =? 0 then
          match bind with
          | inl e => inl e
          | inr port => inr (with_sock (with_local (if fst (sk_local (sock u)) =? 0 then local_ip else fst (sk_local (sock u)), port) (sock u)) u)
          end
        else inr u in
      match bound with
      | inl e => (inl e, u)
      | inr u1 =>
          if owner_local (sock u1) then udp_sendto_local ring mac alloc buf dst u1
          else match udp_build_datagrams alloc (sock u1) dst broadcast_mac buf with
          | inl e => (inl e, u1)
          | inr packets =>
              if RING_ROOM <? zlen (send_buf (sock u1)) + zlen packets then (inl EAGAIN, u1)
              else (inr (zlen buf), say UDirty (with_sock (with_send_buf (send_buf (sock u1) ++ packets) (sock u1)) u1))
          end
      end
  end.

Inductive flush_result := SOCK_TX_FLUSH_IDLE | SOCK_TX_FLUSH_RETRY | SOCK_TX_FLUSH_ARP_WAIT.

Definition mac_is_broadcast (mac : list Z) : bool := bool_decide (mac = broadcast_mac).

(** Back to the tail of the send ring, or lost when it is full. *)
Definition requeue (p : udp_tx) (r : flush_result) (u : udp) : flush_result * udp :=
  if RING_ROOM <=? zlen (send_buf (sock u)) then (SOCK_TX_FLUSH_IDLE, u)
  else (r, with_sock (with_send_buf (send_buf (sock u) ++ [p]) (sock u)) u).

Definition udp_tx_flush (ring_takes : bool) (mac : option (list Z)) (u : udp) : flush_result * udp :=
  if owner_local (sock u) then (SOCK_TX_FLUSH_IDLE, say UWritable u)
  else match send_buf (sock u) with
  | [] => (SOCK_TX_FLUSH_IDLE, u)
  | p :: rest =>
      let u1 := say UWritable (with_sock (with_send_buf rest (sock u)) u) in
      let send p :=
        if ring_takes
        then (if bool_decide (send_buf (sock u1) = []) then SOCK_TX_FLUSH_IDLE else SOCK_TX_FLUSH_RETRY, with_out (out u1 ++ [p]) u1)
        else requeue p SOCK_TX_FLUSH_RETRY u1 in
      if mac_is_broadcast (tx_mac p) then
        match mac with
        | Some m => send (mk_utx m (tx_src p) (tx_dst p) (tx_data p))
        | None =>
            match requeue p SOCK_TX_FLUSH_ARP_WAIT u1 with
            | (SOCK_TX_FLUSH_ARP_WAIT, u2) => (SOCK_TX_FLUSH_ARP_WAIT, say (UArpWait (fst (tx_dst p))) u2)
            | r => r
            end
        end
      else send p
  end.
End Send.

(** ** Receiving *)

(** [found]: the packet's socket is this one and is open. *)
Definition udp_ingress (found : bool) (p : udp_rx) (u : udp) : bool * udp :=
  let l4_len := u16 (ip_total_length p - IPV4_HDR) in
  if (seg_len p <? UDP_HDR) || (l4_len <? UDP_HDR) then (false, u)
  else if negb (dgram_len p =? l4_len) || (negb (cksum_zero p) && negb (cksum_ok p)) then (false, u)
  else if negb found then (false, u)
  else
    let u1 := say (UConfirmed (fst (rx_src p))) u in
    if owner_local (sock u1) then
      match udp_local_rx_enqueue p u1 with
      | (Some _, u2) => (false, with_memory (udp_memory_record_queue_drop (memory u2)) u2)
      | (None, u2) => (true, say UReadable u2)
      end
    else if RING_ROOM <=? zlen (recv_buf (sock u1)) then (false, u1)
    else (true, say UReadable (with_sock (with_recv_buf (recv_buf (sock u1) ++ [p]) (sock u1)) u1)).

(** The packet a receive works on. *)
Definition next_packet (u : udp) : option udp_rx * udp :=
  match rx_current (sock u) with
  | Some p => (Some p, u)
  | None =>
      let '(o, u1) :=
        if owner_local (sock u) then udp_local_rx_dequeue u
        else match recv_buf (sock u) with
             | [] => (None, u)
             | p :: rest => (Some p, with_sock (with_recv_buf rest (sock u)) u)
             end in
      match o with
      | None => (None, u1)
      | Some p => (Some p, with_sock (with_current (Some p) 0 (sock u1)) u1)
      end
  end.

(** [len] is the size of the caller's buffer, [null] whether there is none. *)
Definition udp_recvfrom (null : bool) (len : Z) (u : udp) : (errno + (list Z * (Z * Z))) * udp :=
  match next_packet u with
  | (None, u1) => (inl EAGAIN, u1)
  | (Some p, u1) =>
      if (dgram_len p <? UDP_HDR) || (zlen (image p) <? dgram_len p) then (inl EPROTO, udp_rx_current_release u1)
      else
        let payload_len := dgram_len p - UDP_HDR in
        let off := rx_current_off (sock u1) in
        if payload_len <? off then (inl EPROTO, udp_rx_current_release u1)
        else
          let remaining := payload_len - off in
          let copied := if len <? remaining then len else remaining in
          if (0 <? copied) && null then (inl EFAULT, u1)
          else
            let data := take (Z.to_nat copied) (drop (Z.to_nat (UDP_HDR + off)) (image p)) in
            (inr (data, rx_src p),
             if copied <? remaining then with_sock (with_current (rx_current (sock u1)) (off + copied) (sock u1)) u1
             else udp_rx_current_release u1)
  end.

Definition udp_close (u : udp) : udp :=
  let u1 := udp_rx_current_release u in
  if owner_local (sock u1) then udp_local_rx_drain u1 else with_sock (with_send_buf [] (with_recv_buf [] (sock u1))) u1.
