(* ===== verification/UdpFacts.v ===== *)
(** * UDP: datagrams go out whole and come in whole, in order

    [pending] is the abstract receive queue: the datagrams accepted and not
    yet read, each with what is left of it. *)

From S2P Require Import Prelude Udp.

(** ** Sending *)

Section Send.
Context (ipv4_mtu room local_ip : Z).

Lemma shape_spec len limit count :
  0 <= len -> udp_datagram_shape ipv4_mtu len = inr (limit, count) ->
  limit = ipv4_mtu - 28 /\ 0 < limit /\ 1 <= count <= 8 /\ len <= limit * count /\ limit * (count - 1) < Z.max 1 len.
Proof.
  intros Hl. unfold udp_datagram_shape. cbv zeta. destruct (Z.leb_spec ipv4_mtu (IPV4_HDR + UDP_HDR)) as [|Hm]; [done|].
  change (IPV4_HDR + UDP_HDR) with 28 in *. case_match eqn:E; [done|]. intros [= <- <-]. revert E. set (l := ipv4_mtu - 28).
  change UDP_SENDTO_MAX_DATAGRAMS with 8. intros E. assert (0 < l) as Hp by lia. split_and!; try done; try lia.
  all: destruct (Z.eqb_spec len 0) as [->|Hne]; [lia|]; pose proof (Z.div_mod len l) as D; pose proof (Z.mod_pos_bound len l Hp);
    pose proof (Z.div_pos len l Hl Hp); destruct (Z.eqb_spec (len mod l) 0); nia.
Qed.

(** More than eight datagrams' worth is refused, nothing else is for its size. *)
Lemma shape_refuses len : 0 <= len -> 28 < ipv4_mtu -> (udp_datagram_shape ipv4_mtu len = inl EMSGSIZE <-> 8 * (ipv4_mtu - 28) < len).
Proof.
  intros Hl Hm. unfold udp_datagram_shape. cbv zeta. change (IPV4_HDR + UDP_HDR) with 28. destruct (Z.leb_spec ipv4_mtu 28); [lia|].
  set (l := ipv4_mtu - 28). assert (0 < l) as Hp by lia. change UDP_SENDTO_MAX_DATAGRAMS with 8.
  pose proof (Z.div_mod len l) as D; pose proof (Z.mod_pos_bound len l Hp).
  destruct (Z.ltb_spec 8 (if len =? 0 then 1 else len / l + (if len mod l =? 0 then 0 else 1))) as [C|C]; (split; intros Q; [|done || exfalso]); try done;
    revert C; destruct (Z.eqb_spec len 0) as [->|]; intros C; try lia; destruct (Z.eqb_spec (len mod l) 0); nia.
Qed.

Lemma build_loop_spec alloc i n limit mac src dst buf l :
  0 < limit -> zlen buf <= limit * Z.of_nat n -> build_loop room alloc i n limit mac src dst buf = Some l ->
  concat (map tx_data l) = buf /\ length l = n /\
  Forall (fun p => zlen (tx_data p) <= limit /\ tx_mac p = mac /\ tx_src p = src /\ tx_dst p = dst) l.
Proof.
  revert i buf l. induction n as [|n IH]; intros i buf l Hp Hb; cbn [build_loop].
  { intros [= <-]. assert (zlen buf = 0) as Hz by (pose proof (zlen_nonneg buf); lia). by apply zlen_zero in Hz as ->. }
  unfold udp_build_pkt. repeat case_match; try done. destruct (build_loop room alloc (S i) n limit mac src dst (drop (Z.to_nat limit) buf)) as [r|] eqn:E; [|done].
  intros [= <-]. destruct (IH (S i) (drop (Z.to_nat limit) buf) r Hp) as (Hc & Hlen & Hall); [rewrite Nat2Z.inj_succ, Z.mul_succ_r in Hb; unfold zlen in *; rewrite length_drop; nia|done|].
  simplify_eq. split_and!; cbn.
  - rewrite Hc. apply take_drop.
  - lia.
  - constructor; [|done]. split_and!; try done. cbn. unfold zlen. rewrite length_take. lia.
Qed.

Lemma build_datagrams_spec alloc s dst mac buf l :
  udp_build_datagrams ipv4_mtu room local_ip alloc s dst mac buf = inr l ->
  concat (map tx_data l) = buf /\ 1 <= zlen l <= 8 /\
  Forall (fun p => zlen (tx_data p) <= ipv4_mtu - 28 /\ tx_mac p = mac /\ tx_dst p = dst /\
            tx_src p = (if fst (sk_local s) =? 0 then local_ip else fst (sk_local s), snd (sk_local s))) l.
Proof.
  unfold udp_build_datagrams. destruct (udp_datagram_shape ipv4_mtu (zlen buf)) as [|[limit count]] eqn:E; [done|].
  destruct (shape_spec (zlen buf) limit count (zlen_nonneg buf) E) as (-> & Hp & Hc & Hb & _). cbv zeta.
  destruct (build_loop _ _ _ _ _ _ _ _ _) as [r|] eqn:El; [|done]. intros [= <-].
  assert (zlen buf <= (ipv4_mtu - 28) * Z.of_nat (Z.to_nat count)) as Hb' by (rewrite Z2Nat.id by lia; exact Hb).
  destruct (build_loop_spec _ _ _ _ _ _ _ _ _ Hp Hb' El) as (H1 & H2 & H3). split_and!; [done|unfold zlen; lia..|].
  eapply Forall_impl; [exact H3|]. cbn. tauto.
Qed.

(** an accepted send puts the whole buffer into at most eight datagrams
    that each fit the MTU, in order, from the socket's address and port to
    the destination: all of them on the socket's ring, or on the output ring
    as many as it takes, the others counted as dropped. *)
Theorem udp_send_whole bind ring mac alloc buf dst u n u' :
  udp_sendto ipv4_mtu room local_ip bind ring mac alloc buf dst u = (inr n, u') ->
  n = zlen buf /\ exists l,
    concat (map tx_data l) = buf /\ 1 <= zlen l <= 8 /\
    Forall (fun p => zlen (tx_data p) <= ipv4_mtu - 28 /\ tx_dst p = dst /\ snd (tx_src p) = snd (sk_local (sock u'))) l /\
    if owner_local (sock u)
    then exists k, out u' = out u ++ take k l /\ (if Nat.ltb k (length l) then udp_events u' = udp_events u ++ [UQueueDrops (zlen l - Z.of_nat k)] else True)
    else out u' = out u /\ send_buf (sock u') = send_buf (sock u) ++ l.
Proof.
  unfold udp_sendto. destruct (udp_datagram_shape ipv4_mtu (zlen buf)) as [|shape]; [done|].
  set (bound := if snd (sk_local (sock u)) =? 0 then _ else _). assert (forall u1, bound = inr u1 ->
    owner_local (sock u1) = owner_local (sock u) /\ out u1 = out u /\ send_buf (sock u1) = send_buf (sock u) /\ udp_events u1 = udp_events u) as Hb.
  { intros u1. subst bound. repeat case_match; by intros [= <-]. }
  destruct bound as [e|u1]; [done|]. destruct (Hb u1 eq_refl) as (Eo & Eu & Es & Ee). rewrite <- Eo, <- Eu, <- Es, <- Ee. clear Hb Eo Eu Es Ee.
  destruct (owner_local (sock u1)) eqn:El.
  - unfold udp_sendto_local. destruct ring as [free|]; [|done]. destruct mac as [m|]; [|done].
    destruct (udp_build_datagrams _ _ _ _ _ _ _ _) as [|l] eqn:E; [done|]. intros [= <- <-]. split; [done|].
    destruct (build_datagrams_spec _ _ _ _ _ _ E) as (H1 & H2 & H3). exists l. split_and!; [done|lia..| |].
    + eapply Forall_impl; [exact H3|]. intros p (A & _ & B & C). split_and!; [done..|]. rewrite C. cbn [snd]. by destruct (Z.max _ _ =? _).
    + exists (Z.to_nat (Z.max 0 (Z.min free (zlen l)))). set (k := Z.max 0 (Z.min free (zlen l))).
      assert (0 <= k <= zlen l) as Hk by (pose proof (zlen_nonneg l); lia). destruct (Z.eqb_spec k (zlen l)) as [Ek|Ek].
      * split; [done|]. destruct (Nat.ltb_spec (Z.to_nat k) (length l)); [|done]. exfalso. unfold zlen in *. lia.
      * split; [done|]. destruct (Nat.ltb_spec (Z.to_nat k) (length l)); [|done]. cbn. by rewrite Z2Nat.id by lia.
  - destruct (udp_build_datagrams _ _ _ _ _ _ _ _) as [|l] eqn:E; [done|]. case_match; [done|]. intros [= <- <-]. split; [done|].
    destruct (build_datagrams_spec _ _ _ _ _ _ E) as (H1 & H2 & H3). exists l. split_and!; try done; try lia.
    eapply Forall_impl; [exact H3|]. intros p (A & _ & B & C). split_and!; [done..|]. rewrite C. done.
Qed.
End Send.

(** ** Receiving *)

(** A datagram whose length field fits its bytes has a payload. *)
Definition intact (p : udp_rx) : bool := negb ((dgram_len p <? UDP_HDR) || (zlen (image p) <? dgram_len p)).
Definition payload (p : udp_rx) : list Z := take (Z.to_nat (dgram_len p - UDP_HDR)) (drop (Z.to_nat UDP_HDR) (image p)).
Definition item (off : Z) (p : udp_rx) : (Z * Z) * option (list Z) :=
  (rx_src p, if intact p then Some (drop (Z.to_nat off) (payload p)) else None).

Definition waiting (s : udp_sock) : list udp_rx := if owner_local s then rx_queue s else recv_buf s.
Definition pending (s : udp_sock) : list ((Z * Z) * option (list Z)) :=
  match rx_current s with Some p => [item (rx_current_off s) p] | None => [] end ++ map (item 0) (waiting s).

(** The abstract receive: at most one datagram per call, the rest of a short
    read kept, a damaged datagram dropped with an error. *)
Definition abs_recv (len : Z) (q : list ((Z * Z) * option (list Z))) : (errno + (list Z * (Z * Z))) * list ((Z * Z) * option (list Z)) :=
  match q with
  | [] => (inl EAGAIN, [])
  | (src, None) :: rest => (inl EPROTO, rest)
  | (src, Some b) :: rest =>
      if len <? zlen b then (inr (take (Z.to_nat len) b, src), (src, Some (drop (Z.to_nat len) b)) :: rest) else (inr (b, src), rest)
  end.

(** The queue counter is exact and bounded, every waiting datagram of an
    owner-local socket holds one node, and the offset stays in its datagram. *)
Record udp_ok (nodes : Z) (u : udp) : Prop := {
  uo_count : rx_queue_count (sock u) = zlen (rx_queue (sock u));
  uo_limit : zlen (rx_queue (sock u)) <= UDP_RX_QUEUE_LIMIT;
  uo_ring : zlen (recv_buf (sock u)) <= RING_ROOM;
  uo_nodes : available (memory u) + zlen (rx_queue (sock u)) = nodes;
  uo_ready : pool_ready (memory u) = false -> rx_queue (sock u) = [];
  uo_off : match rx_current (sock u) with
           | Some p => intact p = true -> 0 <= rx_current_off (sock u) <= dgram_len p - UDP_HDR
           | None => True
           end
}.

Lemma payload_len p : intact p = true -> zlen (payload p) = dgram_len p - UDP_HDR.
Proof.
  unfold intact, payload, UDP_HDR. intros H. bprop. unfold zlen in *. rewrite length_take, length_drop. lia.
Qed.

Lemma dequeue_ok nodes u :
  udp_ok nodes u ->
  match udp_local_rx_dequeue u with
  | (None, u') => u' = u /\ rx_queue (sock u) = []
  | (Some p, u') => udp_ok nodes u' /\ rx_queue (sock u) = p :: rx_queue (sock u') /\ rx_current (sock u') = rx_current (sock u) /\
      owner_local (sock u') = owner_local (sock u) /\ recv_buf (sock u') = recv_buf (sock u)
  end.
Proof.
  intros []. unfold udp_local_rx_dequeue. destruct (rx_queue (sock u)) as [|p rest] eqn:E; [done|].
  unfold udp_memory_rx_node_free. destruct (pool_ready (memory u)) eqn:Er; [|by specialize (uo_ready0 eq_refl)].
  rewrite zlen_cons in *. pose proof (zlen_nonneg rest). split_and!; try done. split; cbn; try done; try lia.
  rewrite uo_count0. destruct (Z.ltb_spec 0 (1 + zlen rest)); lia.
Qed.

Lemma next_packet_ok nodes u :
  udp_ok nodes u ->
  match next_packet u with
  | (None, u') => u' = u /\ pending (sock u) = []
  | (Some p, u') => udp_ok nodes u' /\ rx_current (sock u') = Some p /\ pending (sock u') = pending (sock u) /\
      pending (sock u) = item (rx_current_off (sock u')) p :: map (item 0) (waiting (sock u'))
  end.
Proof.
  intros O. unfold next_packet, pending, waiting. destruct (rx_current (sock u)) as [p|] eqn:Ec.
  { split_and!; [done|done| |]; by rewrite ?Ec. }
  destruct (owner_local (sock u)) eqn:El.
  - pose proof (dequeue_ok nodes u O) as H. destruct (udp_local_rx_dequeue u) as [[p|] u1].
    + destruct H as (O1 & Eq & Ec1 & El1 & _). rewrite El in El1. cbn. rewrite El1, Eq. split_and!; try done. destruct O1. split; try done.
      cbn. intros Hi. unfold intact in Hi. bprop. lia.
    + destruct H as [-> ->]. done.
  - destruct (recv_buf (sock u)) as [|p rest] eqn:Er; [done|]. cbn. rewrite El. split_and!; try done. destruct O. rewrite Er, zlen_cons in *.
    split; try done; cbn; [lia|]. intros Hi. unfold intact in Hi. bprop. lia.
Qed.

Lemma release_ok nodes u : udp_ok nodes u -> udp_ok nodes (udp_rx_current_release u).
Proof. intros []. by split. Qed.
Lemma release_pending u : pending (sock (udp_rx_current_release u)) = map (item 0) (waiting (sock u)).
Proof. done. Qed.

Lemma recv_refines nodes len u :
  udp_ok nodes u -> 0 <= len ->
  udp_ok nodes (snd (udp_recvfrom false len u)) /\
  fst (udp_recvfrom false len u) = fst (abs_recv len (pending (sock u))) /\
  pending (sock (snd (udp_recvfrom false len u))) = snd (abs_recv len (pending (sock u))).
Proof.
  intros O Hl. unfold udp_recvfrom. pose proof (next_packet_ok nodes u O) as H. destruct (next_packet u) as [[p|] u1].
  2: { destruct H as [-> E]. rewrite E. by split_and!. }
  destruct H as (O1 & Ec & Ep & Eq). rewrite Eq. pose proof (uo_off _ _ O1) as Ho. rewrite Ec in Ho.
  change (item (rx_current_off (sock u1)) p) with (rx_src p, if intact p then Some (drop (Z.to_nat (rx_current_off (sock u1))) (payload p)) else None).
  unfold intact at 1 2.
  destruct ((dgram_len p <? UDP_HDR) || (zlen (image p) <? dgram_len p)) eqn:Ei; cbn [negb].
  { split_and!; [by apply release_ok|done|apply release_pending]. }
  assert (intact p = true) as Hi by (unfold intact; by rewrite Ei). specialize (Ho Hi). cbv zeta. cbn [abs_recv].
  set (off := rx_current_off (sock u1)) in *. destruct (Z.ltb_spec (dgram_len p - UDP_HDR) off); [lia|].
  assert (zlen (drop (Z.to_nat off) (payload p)) = dgram_len p - UDP_HDR - off) as Hz by (rewrite zlen_drop; rewrite payload_len by done; lia).
  assert (forall n, 0 <= n <= dgram_len p - UDP_HDR - off ->
    take (Z.to_nat n) (drop (Z.to_nat (UDP_HDR + off)) (image p)) = take (Z.to_nat n) (drop (Z.to_nat off) (payload p))) as Hd.
  { intros n Hn. unfold payload. rewrite skipn_firstn_comm, drop_drop, take_take. f_equal; [unfold UDP_HDR in *; lia|f_equal; unfold UDP_HDR; lia]. }
  rewrite Hz. destruct (Z.ltb_spec len (dgram_len p - UDP_HDR - off)) as [Hs|Hs]; rewrite andb_false_r.
  - destruct (Z.ltb_spec len (dgram_len p - UDP_HDR - off)); [|lia]. cbn [fst snd]. split_and!.
    + pose proof O1 as []. split; try done. cbn. rewrite Ec. intros _. lia.
    + rewrite Hd by lia. done.
    + unfold pending. cbn. rewrite Ec. cbn. f_equal. unfold item. rewrite Hi. rewrite drop_drop. replace (Z.to_nat (off + len)) with (Z.to_nat off + Z.to_nat len)%nat by lia. done.
  - rewrite Z.ltb_irrefl. cbn [fst snd]. split_and!; [by apply release_ok| |apply release_pending].
    rewrite Hd by lia. repeat f_equal. rewrite firstn_all2; [done|]. unfold zlen in Hz. lia.
Qed.

Lemma recv_null len u :
  udp_recvfrom true len u = udp_recvfrom false len u \/ udp_recvfrom true len u = (inl EFAULT, snd (next_packet u)).
Proof.
  unfold udp_recvfrom. destruct (next_packet u) as [[p|] u1]; [|by left]. destruct (_ || _); [by left|]. cbv zeta.
  destruct (_ <? _); [by left|]. rewrite andb_false_r, andb_true_r. destruct (0 <? _); [by right|by left].
Qed.

(** The pool's other counters do not matter. *)
Lemma counters_ok nodes u m :
  udp_ok nodes u -> available m = available (memory u) -> pool_ready m = pool_ready (memory u) -> udp_ok nodes (with_memory m u).
Proof. intros [] E1 E2. by split; cbn; rewrite ?E1, ?E2. Qed.

(** An accepted datagram joins the end of the queue; a refused one leaves it. *)
Lemma ingress_refines nodes found p u :
  udp_ok nodes u ->
  udp_ok nodes (snd (udp_ingress found p u)) /\
  pending (sock (snd (udp_ingress found p u))) = pending (sock u) ++ (if fst (udp_ingress found p u) then [item 0 p] else []).
Proof.
  intros O. assert (udp_ok nodes u /\ pending (sock u) = pending (sock u) ++ []) as Same by (by rewrite app_nil_r).
  unfold udp_ingress. cbv zeta. destruct (_ || _); [done|]. destruct (_ || _); [done|]. destruct found; cbn [negb]; [|done].
  set (u1 := say _ u). assert (udp_ok nodes u1) as O1 by (by destruct O). change (sock u1) with (sock u).
  destruct (owner_local (sock u)) eqn:El.
  - unfold udp_local_rx_enqueue. destruct (Z.leb_spec UDP_RX_QUEUE_LIMIT (rx_queue_count (sock u1))) as [|Hroom]; [split; [by destruct O1|apply Same]|].
    unfold udp_memory_rx_node_alloc, udp_memory_get. destruct (pool_ready (memory u1)) eqn:Er; cbn [negb].
    2: { split; [|apply Same]. apply counters_ok; [by apply counters_ok|done..]. }
    destruct (available (memory u1) <=? 0); [split; [|apply Same]; apply counters_ok; [by apply counters_ok|done..]|].
    cbn [fst snd]. change (rx_queue_count (sock u1)) with (rx_queue_count (sock u)) in Hroom. split.
    + destruct O. split; cbn; rewrite ?zlen_app, ?zlen_cons; try done; change (zlen (@nil udp_rx)) with 0; try lia.
    + unfold pending, waiting. cbn. rewrite El, map_app. by rewrite app_assoc.
  - destruct (Z.leb_spec RING_ROOM (zlen (recv_buf (sock u)))) as [|Hroom]; [split; [done|apply Same]|]. cbn [fst snd]. split.
    + destruct O. split; cbn; try done. rewrite zlen_app, zlen_cons. change (zlen (@nil udp_rx)) with 0. lia.
    + unfold pending, waiting. cbn. rewrite El, map_app. by rewrite app_assoc.
Qed.

(** Sending leaves the receive side alone. *)
Definition rx_side (u : udp) :=
  (owner_local (sock u), rx_queue (sock u), rx_queue_count (sock u), rx_current (sock u), rx_current_off (sock u), recv_buf (sock u), memory u).
Lemma rx_side_ok nodes u u' : rx_side u' = rx_side u -> udp_ok nodes u -> udp_ok nodes u'.
Proof. unfold rx_side. intros [= E1 E2 E3 E4 E5 E6 E7] []. by split; rewrite ?E2, ?E3, ?E4, ?E5, ?E6, ?E7. Qed.

Section History.
Context (ipv4_mtu room local_ip : Z).

Lemma sendto_rx bind ring mac alloc buf dst u : rx_side (snd (udp_sendto ipv4_mtu room local_ip bind ring mac alloc buf dst u)) = rx_side u.
Proof.
  unfold udp_sendto. destruct (udp_datagram_shape _ _) as [|shape]; [done|].
  set (bound := if snd (sk_local (sock u)) =? 0 then _ else _). assert (forall u1, bound = inr u1 -> rx_side u1 = rx_side u) as Hb.
  { intros u1. subst bound. repeat case_match; by intros [= <-]. }
  destruct bound as [e|u1]; [done|]. rewrite <- (Hb u1 eq_refl). unfold udp_sendto_local. by repeat case_match.
Qed.
Lemma flush_rx takes mac u : rx_side (snd (udp_tx_flush takes mac u)) = rx_side u.
Proof. unfold udp_tx_flush, requeue. by repeat (case_match; simplify_eq/=). Qed.

Inductive udp_reached (nodes : Z) : udp -> Prop :=
| udp_new local addr m :
    available m = nodes -> udp_reached nodes (mk_udp (mk_usock local addr [] 0 None 0 [] []) m [] [])
| udp_in found p u : udp_reached nodes u -> udp_reached nodes (snd (udp_ingress found p u))
| udp_recv null len u : 0 <= len -> udp_reached nodes u -> udp_reached nodes (snd (udp_recvfrom null len u))
| udp_send bind ring mac alloc buf dst u : udp_reached nodes u ->
    udp_reached nodes (snd (udp_sendto ipv4_mtu room local_ip bind ring mac alloc buf dst u))
| udp_flush takes mac u : udp_reached nodes u -> udp_reached nodes (snd (udp_tx_flush takes mac u)).

Lemma udp_reached_ok nodes u : udp_reached nodes u -> udp_ok nodes u.
Proof.
  induction 1 as [local addr m <-|found p u _ IH|null len u Hl _ IH|bind ring mac alloc buf dst u _ IH|takes mac u _ IH].
  - by split; cbn; try done; change (zlen (@nil udp_rx)) with 0; rewrite ?Z.add_0_r.
  - by apply ingress_refines.
  - destruct null; [|by apply recv_refines]. destruct (recv_null len u) as [-> | ->]; [by apply recv_refines|].
    cbn [snd]. pose proof (next_packet_ok nodes u IH) as H. destruct (next_packet u) as [[p|] u1]; cbn [snd]; [apply H|by destruct H as [-> _]].
  - by apply (rx_side_ok nodes u); [apply sendto_rx|].
  - by apply (rx_side_ok nodes u); [apply flush_rx|].
Qed.

Lemma udp_drain_ok nodes fuel u :
  udp_ok nodes u -> (length (rx_queue (sock u)) < fuel)%nat ->
  udp_ok nodes (drain_loop fuel u) /\ rx_queue (sock (drain_loop fuel u)) = [] /\ rx_current (sock (drain_loop fuel u)) = rx_current (sock u) /\
  owner_local (sock (drain_loop fuel u)) = owner_local (sock u).
Proof.
  revert u. induction fuel as [|k IH]; intros u O Hf; [lia|]. cbn. pose proof (dequeue_ok nodes u O) as H.
  destruct (udp_local_rx_dequeue u) as [[p|] u1]; [|by destruct H as [-> ->]]. destruct H as (O1 & Eq & Ec & El & _).
  rewrite Eq in Hf. cbn in Hf. destruct (IH u1 O1) as (O2 & E2 & C2 & L2); [lia|]. split_and!; try done; congruence.
Qed.

(** C26: in every history of a socket the receive call behaves as that of an
    abstract queue of datagrams: it answers from the oldest one only, returns
    its source, keeps the rest of a short read, reports a damaged one once,
    and an accepted datagram joins the end while a refused one changes
    nothing. *)
Theorem udp_receive_refines nodes u :
  udp_reached nodes u ->
  (forall len, 0 <= len ->
     fst (udp_recvfrom false len u) = fst (abs_recv len (pending (sock u))) /\
     pending (sock (snd (udp_recvfrom false len u))) = snd (abs_recv len (pending (sock u)))) /\
  (forall found p, pending (sock (snd (udp_ingress found p u))) =
     pending (sock u) ++ (if fst (udp_ingress found p u) then [item 0 p] else [])).
Proof.
  intros O%udp_reached_ok. split; [intros len Hl; by apply (recv_refines nodes)|]. intros found p. by apply (ingress_refines nodes).
Qed.

(** in every history the queue counter is exact and at most 64, every
    waiting datagram of an owner-local socket holds one node of the pool, and
    closing the socket drops what waits and returns every node. *)
Theorem udp_nodes_exact nodes u :
  udp_reached nodes u ->
  rx_queue_count (sock u) = zlen (rx_queue (sock u)) /\ rx_queue_count (sock u) <= 64 /\
  available (memory u) + zlen (rx_queue (sock u)) = nodes /\
  (owner_local (sock u) = true -> available (memory (udp_close u)) = nodes /\ pending (sock (udp_close u)) = []).
Proof.
  intros O%udp_reached_ok. split_and!; try apply O; [rewrite (uo_count _ _ O); apply O|]. intros El. unfold udp_close. cbv zeta.
  change (owner_local (sock (udp_rx_current_release u))) with (owner_local (sock u)). rewrite El. unfold udp_local_rx_drain.
  destruct (udp_drain_ok nodes (S (length (rx_queue (sock (udp_rx_current_release u))))) (udp_rx_current_release u) (release_ok _ _ O) (Nat.lt_succ_diag_r _))
    as (O1 & E1 & C1 & L1). split.
  - pose proof (uo_nodes _ _ O1) as H. rewrite E1 in H. change (zlen (@nil udp_rx)) with 0 in H. lia.
  - unfold pending, waiting. rewrite C1, L1, E1. change (owner_local (sock (udp_rx_current_release u))) with (owner_local (sock u)). by rewrite El.
Qed.
End History.

(** ** A run *)

Definition udp_demo_mem : udp_owner_memory := snd (udp_owner_memory_init true).
Definition udp_demo_new (local : bool) : udp := mk_udp (mk_usock local (7, 9000) [] 0 None 0 [] []) udp_demo_mem [] [].
Definition udp_demo_packet : udp_rx := mk_urx (1, 53) (7, 9000) 32 12 false true 12 ([0; 53; 35; 40; 0; 12; 0; 1] ++ [5; 6; 7; 8]).
(** One datagram of four bytes has arrived. *)
Definition udp_demo : udp := snd (udp_ingress true udp_demo_packet (udp_demo_new true)).
Lemma udp_demo_reached : udp_reached 100 2048 7 UDP_MEMORY_RX_NODES udp_demo.
Proof. apply udp_in. by apply udp_new. Qed.

Lemma udp_send_whole_witness : exists l u',
  udp_sendto 100 2048 7 (inl EINVAL) None None (fun _ => true) (repeat 3 100) (1, 53) (udp_demo_new false) = (inr 100, u') /\
  concat (map tx_data l) = repeat 3 100 /\ zlen l <= 8 /\ send_buf (sock u') = l.
Proof.
  destruct (udp_sendto 100 2048 7 (inl EINVAL) None None (fun _ => true) (repeat 3 100) (1, 53) (udp_demo_new false)) as [r u'] eqn:E.
  assert (r = inr 100) as -> by (vm_compute in E; congruence).
  destruct (udp_send_whole 100 2048 7 _ _ _ _ _ _ _ _ _ E) as (_ & l & H1 & H2 & _ & _ & H3). exists l, u'. split_and!; try done; lia.
Defined.

Lemma udp_receive_refines_witness :
  fst (udp_recvfrom false 3 udp_demo) = inr ([5; 6; 7], (1, 53)) /\
  pending (sock (snd (udp_recvfrom false 3 udp_demo))) = [((1, 53), Some [8])].
Proof.
  destruct (udp_receive_refines 100 2048 7 _ udp_demo udp_demo_reached) as [H _]. destruct (H 3 ltac:(lia)) as [-> ->]. by vm_compute.
Defined.

Lemma udp_nodes_exact_witness : available (memory udp_demo) = 4094 /\ available (memory (udp_close udp_demo)) = 4095.
Proof.
  destruct (udp_nodes_exact 100 2048 7 _ udp_demo udp_demo_reached) as (_ & _ & _ & H). split; [by vm_compute|]. by apply H.
Defined.
