(* ===== verification/Workflow.v ===== *)
(** * Workflow execution (traffic-gen/core/workflow.h, workflow.c)

    Business transactions of several steps over the flows of a shard.  A
    business is named by its index in the storage; the ready queue and the free
    list are the lists of their members; an armed timer is its deadline.  What
    an operation reads from outside - clock, timers, sockets - is [wf_io]; what
    it tells the statistics is the trace [e_notes].  [inet_pton] is the libc
    function, [business_size] the size of an object; [finite] and [order] are
    those of Json. *)

From stdpp Require Import gmap strings.
From S2P Require Import Prelude Config Latency Scheduler Txn OwnerTimer TcpTcb Json WorkflowPlan Dns Http ConnPool Flow.

(** ** Data *)

(** The counters of one step, [uint64_t] each. *)
Record tg_step_counts := mk_counts {
  reached : Z; started : Z; success : Z; failed : Z; start_failed : Z; branch_skipped : Z; not_reached : Z
}.
Definition counts_zero : tg_step_counts := mk_counts 0 0 0 0 0 0 0.
(** The three histograms are those of all, successful and failed steps. *)
Record tg_step_stats := mk_sstats { counts : tg_step_counts; hist : option (list tg_histogram) }.

(** The calls of the statistics module. *)
Inductive wf_note :=
| BusinessAdmitted (cls : nat) (phase : Z)
| BusinessFinished (cls : nat) (phase : Z) (r : tg_flow_result) (reason : tg_error_reason) (tx rx : Z)
| ConnectionReused
| HttpCompleted.

(** The two plugins a step uses, told apart by the configuration. *)
Inductive exchange_config := HttpExchange (c : tg_http_config) | DnsExchange (c : tg_dns_config).

Record tg_business := mk_business {
  b_class : nat;
  b_plan : tg_workflow_plan;
  b_context : list (list Z * tg_value);
  b_step : Z;
  b_phase : Z;
  b_visited : Z;
  b_skipped : Z;
  b_ordinal : Z;
  b_planned : Z;
  b_start : Z;
  b_step_start : Z;
  b_bytes_rx : Z;
  b_bytes_tx : Z;
  b_timeout : option Z;
  b_wake : option Z;
  b_handle : nsock_handle;
  b_active : bool;
  b_queued : bool;
  b_waiting : bool;
  b_thinking : bool;
  b_timed_out : bool;
  b_failed : bool;
  b_failure : tg_flow_result;
  b_reason : tg_error_reason
}.

Definition with_b_context (v : list (list Z * tg_value)) (s : tg_business) : tg_business :=
  mk_business (b_class s) (b_plan s) v (b_step s) (b_phase s) (b_visited s) (b_skipped s) (b_ordinal s)
    (b_planned s) (b_start s) (b_step_start s) (b_bytes_rx s) (b_bytes_tx s) (b_timeout s) (b_wake s)
    (b_handle s) (b_active s) (b_queued s) (b_waiting s) (b_thinking s) (b_timed_out s) (b_failed s)
    (b_failure s) (b_reason s) .
Definition with_b_step (v : Z) (s : tg_business) : tg_business :=
  mk_business (b_class s) (b_plan s) (b_context s) v (b_phase s) (b_visited s) (b_skipped s) (b_ordinal s)
    (b_planned s) (b_start s) (b_step_start s) (b_bytes_rx s) (b_bytes_tx s) (b_timeout s) (b_wake s)
    (b_handle s) (b_active s) (b_queued s) (b_waiting s) (b_thinking s) (b_timed_out s) (b_failed s)
    (b_failure s) (b_reason s) .
Definition with_b_visited (v : Z) (s : tg_business) : tg_business :=
  mk_business (b_class s) (b_plan s) (b_context s) (b_step s) (b_phase s) v (b_skipped s) (b_ordinal s)
    (b_planned s) (b_start s) (b_step_start s) (b_bytes_rx s) (b_bytes_tx s) (b_timeout s) (b_wake s)
    (b_handle s) (b_active s) (b_queued s) (b_waiting s) (b_thinking s) (b_timed_out s) (b_failed s)
    (b_failure s) (b_reason s) .
Definition with_b_skipped (v : Z) (s : tg_business) : tg_business :=
  mk_business (b_class s) (b_plan s) (b_context s) (b_step s) (b_phase s) (b_visited s) v (b_ordinal s)
    (b_planned s) (b_start s) (b_step_start s) (b_bytes_rx s) (b_bytes_tx s) (b_timeout s) (b_wake s)
    (b_handle s) (b_active s) (b_queued s) (b_waiting s) (b_thinking s) (b_timed_out s) (b_failed s)
    (b_failure s) (b_reason s) .
Definition with_b_step_start (v : Z) (s : tg_business) : tg_business :=
  mk_business (b_class s) (b_plan s) (b_context s) (b_step s) (b_phase s) (b_visited s) (b_skipped s)
    (b_ordinal s) (b_planned s) (b_start s) v (b_bytes_rx s) (b_bytes_tx s) (b_timeout s) (b_wake s)
    (b_handle s) (b_active s) (b_queued s) (b_waiting s) (b_thinking s) (b_timed_out s) (b_failed s)
    (b_failure s) (b_reason s) .
Definition with_b_bytes_rx (v : Z) (s : tg_business) : tg_business :=
  mk_business (b_class s) (b_plan s) (b_context s) (b_step s) (b_phase s) (b_visited s) (b_skipped s)
    (b_ordinal s) (b_planned s) (b_start s) (b_step_start s) v (b_bytes_tx s) (b_timeout s) (b_wake s)
    (b_handle s) (b_active s) (b_queued s) (b_waiting s) (b_thinking s) (b_timed_out s) (b_failed s)
    (b_failure s) (b_reason s) .
Definition with_b_bytes_tx (v : Z) (s : tg_business) : tg_business :=
  mk_business (b_class s) (b_plan s) (b_context s) (b_step s) (b_phase s) (b_visited s) (b_skipped s)
    (b_ordinal s) (b_planned s) (b_start s) (b_step_start s) (b_bytes_rx s) v (b_timeout s) (b_wake s)
    (b_handle s) (b_active s) (b_queued s) (b_waiting s) (b_thinking s) (b_timed_out s) (b_failed s)
    (b_failure s) (b_reason s) .
Definition with_b_timeout (v : option Z) (s : tg_business) : tg_business :=
  mk_business (b_class s) (b_plan s) (b_context s) (b_step s) (b_phase s) (b_visited s) (b_skipped s)
    (b_ordinal s) (b_planned s) (b_start s) (b_step_start s) (b_bytes_rx s) (b_bytes_tx s) v (b_wake s)
    (b_handle s) (b_active s) (b_queued s) (b_waiting s) (b_thinking s) (b_timed_out s) (b_failed s)
    (b_failure s) (b_reason s) .
Definition with_b_wake (v : option Z) (s : tg_business) : tg_business :=
  mk_business (b_class s) (b_plan s) (b_context s) (b_step s) (b_phase s) (b_visited s) (b_skipped s)
    (b_ordinal s) (b_planned s) (b_start s) (b_step_start s) (b_bytes_rx s) (b_bytes_tx s) (b_timeout s) v
    (b_handle s) (b_active s) (b_queued s) (b_waiting s) (b_thinking s) (b_timed_out s) (b_failed s)
    (b_failure s) (b_reason s) .
Definition with_b_handle (v : nsock_handle) (s : tg_business) : tg_business :=
  mk_business (b_class s) (b_plan s) (b_context s) (b_step s) (b_phase s) (b_visited s) (b_skipped s)
    (b_ordinal s) (b_planned s) (b_start s) (b_step_start s) (b_bytes_rx s) (b_bytes_tx s) (b_timeout s)
    (b_wake s) v (b_active s) (b_queued s) (b_waiting s) (b_thinking s) (b_timed_out s) (b_failed s)
    (b_failure s) (b_reason s) .
Definition with_b_active (v : bool) (s : tg_business) : tg_business :=
  mk_business (b_class s) (b_plan s) (b_context s) (b_step s) (b_phase s) (b_visited s) (b_skipped s)
    (b_ordinal s) (b_planned s) (b_start s) (b_step_start s) (b_bytes_rx s) (b_bytes_tx s) (b_timeout s)
    (b_wake s) (b_handle s) v (b_queued s) (b_waiting s) (b_thinking s) (b_timed_out s) (b_failed s)
    (b_failure s) (b_reason s) .
Definition with_b_queued (v : bool) (s : tg_business) : tg_business :=
  mk_business (b_class s) (b_plan s) (b_context s) (b_step s) (b_phase s) (b_visited s) (b_skipped s)
    (b_ordinal s) (b_planned s) (b_start s) (b_step_start s) (b_bytes_rx s) (b_bytes_tx s) (b_timeout s)
    (b_wake s) (b_handle s) (b_active s) v (b_waiting s) (b_thinking s) (b_timed_out s) (b_failed s)
    (b_failure s) (b_reason s) .
Definition with_b_waiting (v : bool) (s : tg_business) : tg_business :=
  mk_business (b_class s) (b_plan s) (b_context s) (b_step s) (b_phase s) (b_visited s) (b_skipped s)
    (b_ordinal s) (b_planned s) (b_start s) (b_step_start s) (b_bytes_rx s) (b_bytes_tx s) (b_timeout s)
    (b_wake s) (b_handle s) (b_active s) (b_queued s) v (b_thinking s) (b_timed_out s) (b_failed s)
    (b_failure s) (b_reason s) .
Definition with_b_thinking (v : bool) (s : tg_business) : tg_business :=
  mk_business (b_class s) (b_plan s) (b_context s) (b_step s) (b_phase s) (b_visited s) (b_skipped s)
    (b_ordinal s) (b_planned s) (b_start s) (b_step_start s) (b_bytes_rx s) (b_bytes_tx s) (b_timeout s)
    (b_wake s) (b_handle s) (b_active s) (b_queued s) (b_waiting s) v (b_timed_out s) (b_failed s)
    (b_failure s) (b_reason s) .
Definition with_b_timed_out (v : bool) (s : tg_business) : tg_business :=
  mk_business (b_class s) (b_plan s) (b_context s) (b_step s) (b_phase s) (b_visited s) (b_skipped s)
    (b_ordinal s) (b_planned s) (b_start s) (b_step_start s) (b_bytes_rx s) (b_bytes_tx s) (b_timeout s)
    (b_wake s) (b_handle s) (b_active s) (b_queued s) (b_waiting s) (b_thinking s) v (b_failed s)
    (b_failure s) (b_reason s) .
Definition with_b_failed (v : bool) (s : tg_business) : tg_business :=
  mk_business (b_class s) (b_plan s) (b_context s) (b_step s) (b_phase s) (b_visited s) (b_skipped s)
    (b_ordinal s) (b_planned s) (b_start s) (b_step_start s) (b_bytes_rx s) (b_bytes_tx s) (b_timeout s)
    (b_wake s) (b_handle s) (b_active s) (b_queued s) (b_waiting s) (b_thinking s) (b_timed_out s) v
    (b_failure s) (b_reason s) .
Definition with_b_failure (v : tg_flow_result) (s : tg_business) : tg_business :=
  mk_business (b_class s) (b_plan s) (b_context s) (b_step s) (b_phase s) (b_visited s) (b_skipped s)
    (b_ordinal s) (b_planned s) (b_start s) (b_step_start s) (b_bytes_rx s) (b_bytes_tx s) (b_timeout s)
    (b_wake s) (b_handle s) (b_active s) (b_queued s) (b_waiting s) (b_thinking s) (b_timed_out s)
    (b_failed s) v (b_reason s) .
Definition with_b_reason (v : tg_error_reason) (s : tg_business) : tg_business :=
  mk_business (b_class s) (b_plan s) (b_context s) (b_step s) (b_phase s) (b_visited s) (b_skipped s)
    (b_ordinal s) (b_planned s) (b_start s) (b_step_start s) (b_bytes_rx s) (b_bytes_tx s) (b_timeout s)
    (b_wake s) (b_handle s) (b_active s) (b_queued s) (b_waiting s) (b_thinking s) (b_timed_out s)
    (b_failed s) (b_failure s) v.

Section Workflow.
Context {Ctx : Type} (proto : tg_proto_ops exchange_config Ctx).
Context (finite : list Z -> bool) (order : list Z -> list Z -> Z) (inet_pton : list Z -> option Z) (business_size : Z).

(** [e_storage] is [None] for a null pointer; [e_plans] gives for each class
    the plan of its transaction, if it has one. *)
Record tg_workflow_engine := mk_engine {
  e_plans : list (option tg_workflow_plan);
  e_seed : Z;
  e_phase_count : Z;
  e_max_concurrency : Z;
  e_shard : shard exchange_config Ctx;
  e_scheduler : tg_scheduler;
  e_latency : tg_latency;
  e_notes : list wf_note;
  e_storage : option (list tg_business);
  e_free : list nat;
  e_ready : list nat;
  e_steps : list tg_step_stats;
  e_offsets : list Z;
  e_step_count : Z;
  e_capacity : Z;
  e_memory_bytes : Z;
  e_resources : resource_metric
}.

Definition with_e_shard (v : shard exchange_config Ctx) (s : tg_workflow_engine) : tg_workflow_engine :=
  mk_engine (e_plans s) (e_seed s) (e_phase_count s) (e_max_concurrency s) v (e_scheduler s) (e_latency s)
    (e_notes s) (e_storage s) (e_free s) (e_ready s) (e_steps s) (e_offsets s) (e_step_count s) (e_capacity s)
    (e_memory_bytes s) (e_resources s) .
Definition with_e_scheduler (v : tg_scheduler) (s : tg_workflow_engine) : tg_workflow_engine :=
  mk_engine (e_plans s) (e_seed s) (e_phase_count s) (e_max_concurrency s) (e_shard s) v (e_latency s)
    (e_notes s) (e_storage s) (e_free s) (e_ready s) (e_steps s) (e_offsets s) (e_step_count s) (e_capacity s)
    (e_memory_bytes s) (e_resources s) .
Definition with_e_latency (v : tg_latency) (s : tg_workflow_engine) : tg_workflow_engine :=
  mk_engine (e_plans s) (e_seed s) (e_phase_count s) (e_max_concurrency s) (e_shard s) (e_scheduler s) v
    (e_notes s) (e_storage s) (e_free s) (e_ready s) (e_steps s) (e_offsets s) (e_step_count s) (e_capacity s)
    (e_memory_bytes s) (e_resources s) .
Definition with_e_notes (v : list wf_note) (s : tg_workflow_engine) : tg_workflow_engine :=
  mk_engine (e_plans s) (e_seed s) (e_phase_count s) (e_max_concurrency s) (e_shard s) (e_scheduler s)
    (e_latency s) v (e_storage s) (e_free s) (e_ready s) (e_steps s) (e_offsets s) (e_step_count s)
    (e_capacity s) (e_memory_bytes s) (e_resources s) .
Definition with_e_storage (v : option (list tg_business)) (s : tg_workflow_engine) : tg_workflow_engine :=
  mk_engine (e_plans s) (e_seed s) (e_phase_count s) (e_max_concurrency s) (e_shard s) (e_scheduler s)
    (e_latency s) (e_notes s) v (e_free s) (e_ready s) (e_steps s) (e_offsets s) (e_step_count s)
    (e_capacity s) (e_memory_bytes s) (e_resources s) .
Definition with_e_free (v : list nat) (s : tg_workflow_engine) : tg_workflow_engine :=
  mk_engine (e_plans s) (e_seed s) (e_phase_count s) (e_max_concurrency s) (e_shard s) (e_scheduler s)
    (e_latency s) (e_notes s) (e_storage s) v (e_ready s) (e_steps s) (e_offsets s) (e_step_count s)
    (e_capacity s) (e_memory_bytes s) (e_resources s) .
Definition with_e_ready (v : list nat) (s : tg_workflow_engine) : tg_workflow_engine :=
  mk_engine (e_plans s) (e_seed s) (e_phase_count s) (e_max_concurrency s) (e_shard s) (e_scheduler s)
    (e_latency s) (e_notes s) (e_storage s) (e_free s) v (e_steps s) (e_offsets s) (e_step_count s)
    (e_capacity s) (e_memory_bytes s) (e_resources s) .
Definition with_e_steps (v : list tg_step_stats) (s : tg_workflow_engine) : tg_workflow_engine :=
  mk_engine (e_plans s) (e_seed s) (e_phase_count s) (e_max_concurrency s) (e_shard s) (e_scheduler s)
    (e_latency s) (e_notes s) (e_storage s) (e_free s) (e_ready s) v (e_offsets s) (e_step_count s)
    (e_capacity s) (e_memory_bytes s) (e_resources s) .
Definition with_e_offsets (v : list Z) (s : tg_workflow_engine) : tg_workflow_engine :=
  mk_engine (e_plans s) (e_seed s) (e_phase_count s) (e_max_concurrency s) (e_shard s) (e_scheduler s)
    (e_latency s) (e_notes s) (e_storage s) (e_free s) (e_ready s) (e_steps s) v (e_step_count s)
    (e_capacity s) (e_memory_bytes s) (e_resources s) .
Definition with_e_step_count (v : Z) (s : tg_workflow_engine) : tg_workflow_engine :=
  mk_engine (e_plans s) (e_seed s) (e_phase_count s) (e_max_concurrency s) (e_shard s) (e_scheduler s)
    (e_latency s) (e_notes s) (e_storage s) (e_free s) (e_ready s) (e_steps s) (e_offsets s) v (e_capacity s)
    (e_memory_bytes s) (e_resources s) .
Definition with_e_capacity (v : Z) (s : tg_workflow_engine) : tg_workflow_engine :=
  mk_engine (e_plans s) (e_seed s) (e_phase_count s) (e_max_concurrency s) (e_shard s) (e_scheduler s)
    (e_latency s) (e_notes s) (e_storage s) (e_free s) (e_ready s) (e_steps s) (e_offsets s) (e_step_count s)
    v (e_memory_bytes s) (e_resources s) .
Definition with_e_memory_bytes (v : Z) (s : tg_workflow_engine) : tg_workflow_engine :=
  mk_engine (e_plans s) (e_seed s) (e_phase_count s) (e_max_concurrency s) (e_shard s) (e_scheduler s)
    (e_latency s) (e_notes s) (e_storage s) (e_free s) (e_ready s) (e_steps s) (e_offsets s) (e_step_count s)
    (e_capacity s) v (e_resources s) .
Definition with_e_resources (v : resource_metric) (s : tg_workflow_engine) : tg_workflow_engine :=
  mk_engine (e_plans s) (e_seed s) (e_phase_count s) (e_max_concurrency s) (e_shard s) (e_scheduler s)
    (e_latency s) (e_notes s) (e_storage s) (e_free s) (e_ready s) (e_steps s) (e_offsets s) (e_step_count s)
    (e_capacity s) (e_memory_bytes s) v.

(** Clock readings of one pop, the wake timer, the two flow operations a
    request may make, and the errno that closing a flow leaves behind. *)
Record wf_io := mk_wio {
  w_now : Z;
  w_step : Z;
  w_record : Z;
  w_finish : Z;
  w_wake : bool;
  w_deadline : bool;
  w_close_errno : errno -> errno;
  w_reuse : flow_io;
  w_new : flow_io
}.

Definition hz (e : tg_workflow_engine) : Z := Scheduler.cycles_per_second (e_scheduler e).

(** ** Objects *)

Definition biz (e : tg_workflow_engine) (x : nat) : option tg_business := match e_storage e with Some l => l !! x | None => None end.
Definition upd (x : nat) (g : tg_business -> tg_business) (e : tg_workflow_engine) : tg_workflow_engine :=
  with_e_storage (option_map (alter g x) (e_storage e)) e.
Definition say (n : wf_note) (e : tg_workflow_engine) : tg_workflow_engine := with_e_notes (e_notes e ++ [n]) e.

Definition enqueue (x : nat) (e : tg_workflow_engine) : tg_workflow_engine :=
  match biz e x with
  | Some b => if negb (b_active b) || b_queued b then e else with_e_ready (e_ready e ++ [x]) (upd x (with_b_queued true) e)
  | None => e
  end.

(** A timer that fires is no longer armed. *)
Definition timeout_cb (x : nat) (e : tg_workflow_engine) : tg_workflow_engine :=
  enqueue x (upd x (fun b => with_b_timed_out true (with_b_timeout None b)) e).
Definition wake_cb (x : nat) (e : tg_workflow_engine) : tg_workflow_engine := enqueue x (upd x (with_b_wake None) e).

(** ** Step counters *)

Definition step_index (e : tg_workflow_engine) (phase : Z) (cls : nat) (step : Z) : nat :=
  Z.to_nat (u32 (u32 (phase * e_step_count e) + nth cls (e_offsets e) 0 + step)).
Definition count_alter (g : tg_step_counts -> tg_step_counts) (s : tg_step_stats) : tg_step_stats := mk_sstats (g (counts s)) (hist s).
(** [step_stats] of a business, and a change of its counters. *)
Definition step_stats (b : tg_business) (step : Z) (g : tg_step_counts -> tg_step_counts) (e : tg_workflow_engine) : tg_workflow_engine :=
  with_e_steps (alter (count_alter g) (step_index e (b_phase b) (b_class b) step) (e_steps e)) e.

Definition inc_reached c := mk_counts (u64 (reached c + 1)) (started c) (success c) (failed c) (start_failed c) (branch_skipped c) (not_reached c).
Definition inc_started c := mk_counts (reached c) (u64 (started c + 1)) (success c) (failed c) (start_failed c) (branch_skipped c) (not_reached c).
Definition inc_skipped c := mk_counts (reached c) (started c) (success c) (failed c) (start_failed c) (u64 (branch_skipped c + 1)) (not_reached c).
Definition inc_not_reached c := mk_counts (reached c) (started c) (success c) (failed c) (start_failed c) (branch_skipped c) (u64 (not_reached c + 1)).
Definition inc_outcome (ok sf : bool) c :=
  mk_counts (reached c) (started c) (if ok then u64 (success c + 1) else success c) (if ok then failed c else u64 (failed c + 1))
    (if sf then u64 (start_failed c + 1) else start_failed c) (branch_skipped c) (not_reached c).

(** The rounded-up microseconds since [step_start]; the difference is 64 bits
    wide, the product 128, the result 64 again. *)
Definition step_us (now start hz : Z) : Z := u64 ((u64 (now - start) * 1000000 + hz - 1) / hz).
Definition hist_sample (ok : bool) (us : Z) (l : list tg_histogram) : list tg_histogram :=
  alter (tg_histogram_record us) (if ok then 1 else 2)%nat (alter (tg_histogram_record us) 0%nat l).

Definition record_step (now : Z) (x : nat) (ok sf : bool) (e : tg_workflow_engine) : tg_workflow_engine :=
  match biz e x with
  | None => e
  | Some b =>
      with_e_steps
        (alter (fun s => mk_sstats (inc_outcome ok sf (counts s)) (option_map (hist_sample ok (step_us now (b_step_start b) (hz e))) (hist s)))
           (step_index e (b_phase b) (b_class b) (b_step b)) (e_steps e)) e
  end.

(** The steps between the current one and [next] are skipped. *)
Fixpoint skip_steps (l : list Z) (x : nat) (e : tg_workflow_engine) : tg_workflow_engine :=
  match l with
  | [] => e
  | i :: r =>
      match biz e x with
      | None => e
      | Some b => skip_steps r x (upd x (with_b_skipped (Z.lor (b_skipped b) (Z.shiftl 1 i))) (step_stats b i inc_skipped e))
      end
  end.
Definition advance (x : nat) (next : Z) (e : tg_workflow_engine) : tg_workflow_engine :=
  match biz e x with
  | None => e
  | Some b => upd x (with_b_step next) (skip_steps (seqZ (b_step b + 1) (next - (b_step b + 1))) x e)
  end.

(** ** Completion *)

(** The statistics-only flow of a business. *)
Definition timing (b : tg_business) : lat_flow :=
  Latency.mk_lflow (b_planned b) (b_phase b) (Z.of_nat (b_class b)) (b_start b) 0 0.

Fixpoint count_not_reached (l : list Z) (b : tg_business) (e : tg_workflow_engine) : tg_workflow_engine :=
  match l with
  | [] => e
  | i :: r => count_not_reached r b (if Z.testbit (Z.lor (b_visited b) (b_skipped b)) i then e else step_stats b i inc_not_reached e)
  end.

Definition finish (now : Z) (x : nat) (ok : bool) (e : tg_workflow_engine) : tg_workflow_engine :=
  match biz e x with
  | None => e
  | Some b =>
      let e1 := upd x (fun b => with_b_wake None (with_b_timeout None (with_b_active false b))) e in
      let e2 := if b_waiting b then
                  match tg_flow_map_lookup (b_handle b) (e_shard e1) with
                  | Some f => with_e_shard (tg_flow_close_connection f false TG_FLOW_RESULT_IO_FAILURE (e_shard e1)) e1
                  | None => e1
                  end
                else e1 in
      let e3 := count_not_reached (seqZ 0 (count (b_plan b))) b e2 in
      let result := if ok then TG_FLOW_RESULT_SUCCESS else b_failure b in
      let reason := if negb ok && bool_decide (b_reason b = TG_ERROR_NONE) then TG_ERROR_WORKFLOW else b_reason b in
      let e4 := say (BusinessFinished (b_class b) (b_phase b) result reason (b_bytes_tx b) (b_bytes_rx b)) e3 in
      let e5 := with_e_latency (tg_latency_on_finished (e_latency e4) (timing b) (bool_decide (result = TG_FLOW_RESULT_SUCCESS)) now) e4 in
      let e6 := with_e_scheduler (tg_scheduler_on_flow_finished (e_scheduler e5)) e5 in
      with_e_resources (resource_release 1 (e_resources e6)) (with_e_free (x :: e_free e6) e6)
  end.

(** ** Values *)

Fixpoint find_context (key : list Z) (l : list (list Z * tg_value)) : option tg_value :=
  match l with
  | [] => None
  | (n, v) :: r => if bool_decide (key = n) then Some v else find_context key r
  end.

Definition lookup (b : tg_business) (ref : list Z) : option tg_value :=
  match split_at 46 ref with
  | Some (_, (_ :: _) as key) =>
      if prefix_of (text "ctx.") ref then find_context key (b_context b)
      else
        let d := wp_doc (b_plan b) in
        let o := if prefix_of (text "vars.") ref then wp_vars (b_plan b)
                 else if prefix_of (text "data.") ref && negb (row_count (b_plan b) =? 0)
                 then nth (Z.to_nat (b_ordinal b mod row_count (b_plan b))) (wp_rows (b_plan b)) 0 else -1 in
        tg_value_read finite d (tg_wf_member d o key)
  | _ => None
  end.

Fixpoint set_context (name : list Z) (v : tg_value) (l : list (list Z * tg_value)) : list (list Z * tg_value) :=
  match l with
  | [] => [(name, v)]
  | (n, w) :: r => if bool_decide (n = name) then (name, v) :: r else (n, w) :: set_context name v r
  end.
Definition save (name : list Z) (v : tg_value) (b : tg_business) : option tg_business :=
  let known := existsb (fun p => bool_decide (fst p = name)) (b_context b) in
  if (negb known && (zlen (b_context b) =? TG_WF_VARS)) || (64 <=? zlen name) then None
  else Some (with_b_context (set_context name v (b_context b)) b).

(** ** Templates *)

Definition append (cap : Z) (out s : list Z) : option (list Z) := if cap - zlen out <=? zlen s then None else Some (out ++ s).

Inductive filter := FilterNone | FilterUrl | FilterJson.
#[global] Instance filter_eq_dec : EqDecision filter.
Proof. solve_decision. Defined.
Definition filter_of (f : option (list Z)) : option filter :=
  match f with
  | None => Some FilterNone
  | Some s => if bool_decide (s = text "url") then Some FilterUrl else if bool_decide (s = text "json") then Some FilterJson else None
  end.

Definition isalnum (c : Z) : bool := is_digit c || ((65 <=? c) && (c <=? 90)) || ((97 <=? c) && (c <=? 122)).
Definition hex_upper (n : Z) : Z := if n <? 10 then 48 + n else 55 + n.
Definition hex_lower (n : Z) : Z := if n <? 10 then 48 + n else 87 + n.
Definition encode_byte (f : filter) (c : Z) : list Z :=
  match f with
  | FilterNone => [c]
  | FilterUrl =>
      if negb (isalnum c || existsb (Z.eqb c) (text "-._~")) then [37; hex_upper (c / 16); hex_upper (c mod 16)] else [c]
  | FilterJson =>
      if c <? 32 then [92; 117; 48; 48; hex_lower (c / 16); hex_lower (c mod 16)]
      else if (c =? 34) || (c =? 92) then [92; c] else [c]
  end.
Fixpoint append_bytes (f : filter) (cap : Z) (out l : list Z) : option (list Z) :=
  match l with
  | [] => Some out
  | c :: r => match append cap out (encode_byte f c) with None => None | Some o => append_bytes f cap o r end
  end.
Definition append_quote (f : filter) (cap : Z) (out : list Z) : option (list Z) :=
  if bool_decide (f = FilterJson) then append cap out [34] else Some out.

(** One reference, between its braces. *)
Definition expand (b : tg_business) (cap : Z) (inside out : list Z) : option (list Z) :=
  if 128 <=? zlen inside then None
  else
    let '(ref, fl) := match split_at 124 inside with Some (r, f) => (r, Some f) | None => (inside, None) end in
    match lookup b ref, filter_of fl with
    | Some v, Some f =>
        match append_quote f cap out with
        | None => None
        | Some o => match append_bytes f cap o (vtext v) with None => None | Some o => append_quote f cap o end
        end
    | _, _ => None
    end.
(** Every round takes a character off the text. *)
Fixpoint render_from (fuel : nat) (b : tg_business) (cap : Z) (src out : list Z) : option (list Z) :=
  match fuel, src with
  | S k, c :: t =>
      if prefix_of (text "${") src then
        match split_at 125 (drop 2 src) with
        | None => None
        | Some (inside, rest) =>
            match expand b cap inside out with None => None | Some o => render_from k b cap rest o end
        end
      else match append cap out [c] with None => None | Some o => render_from k b cap t o end
  | _, _ => Some out
  end.
Definition render (b : tg_business) (src : list Z) (cap : Z) : option (list Z) := render_from (length src) b cap src [].

Definition field (b : tg_business) (o : Z) (name : list Z) (fallback : option (list Z)) (cap : Z) : option (list Z) :=
  match tg_wf_text (wp_doc (b_plan b)) o name fallback TG_WF_REQUEST_CAP with
  | None => None
  | Some src => render b src cap
  end.

(** ** Conditions *)

(** The [export_value] of the transaction that ended; a branch has none. *)
Definition exporter : Type := list Z -> list Z -> Z -> option tg_value.

Definition operand (b : tg_business) (o : Z) (txn : option exporter) : option tg_value :=
  let d := wp_doc (b_plan b) in
  if 0 <=? tg_wf_member d o (text "ref") then
    match tg_wf_text d o (text "ref") None 128 with Some ref => lookup b ref | None => None end
  else match txn, tg_wf_text d o (text "source") None 32, tg_wf_text d o (text "path") (Some []) TG_VALUE_CAP,
             tg_wf_u32 d o (text "index") 0 0 65535 with
  | Some export, Some source, Some path, inr index => export source path index
  | _, _, _, _ => None
  end.

Definition predicate (b : tg_business) (o : Z) (txn : option exporter) : option bool :=
  let d := wp_doc (b_plan b) in
  match tg_wf_text d o (text "op") None 16 with
  | None => None
  | Some op =>
      let left := operand b (tg_wf_member d o (text "left")) txn in
      if bool_decide (op = text "exists") then Some (bool_decide (is_Some left))
      else match left, tg_value_read finite d (tg_wf_member d o (text "right")) with
      | Some l, Some r => tg_value_compare order l op r
      | _, _ => None
      end
  end.

(** ** Requests *)

Definition token_char (c : Z) : bool := isalnum c || existsb (Z.eqb c) (text "!#$%&'*+-.^_`|~").
Definition safe_text (s : list Z) (token : bool) : bool :=
  negb (bool_decide (s = [])) && forallb (fun c => negb ((c <=? 32) || (c =? 127) || (token && negb (token_char c)))) s.
Definition safe_header_value (s : list Z) : bool := forallb (fun c => negb (((c <? 32) && negb (c =? 9)) || (c =? 127))) s.

Definition reserved_headers : list (list Z) :=
  map text ["Host"; "Connection"; "Content-Length"; "Transfer-Encoding"; "Upgrade"; "Expect"; "Trailer"; "TE"; "Keep-Alive"; "Proxy-Connection"]%string.

Fixpoint build_headers (b : tg_business) (keys : list Z) (headers : list Z) : option (list Z) :=
  match keys with
  | [] => Some headers
  | t :: r =>
      let d := wp_doc (b_plan b) in
      match tg_string_read d t 128, tg_string_read d (t + 1) TG_WF_REQUEST_CAP with
      | Some key, Some raw =>
          if negb (safe_text key true) || existsb (strcasecmp_eq key) reserved_headers then None
          else match render b raw TG_WF_REQUEST_CAP with
          | None => None
          | Some value =>
              if negb (safe_header_value value) then None
              else match append TG_WF_REQUEST_CAP headers key with
              | None => None
              | Some h1 =>
                  match append TG_WF_REQUEST_CAP h1 (text ": ") with
                  | None => None
                  | Some h2 =>
                      match append TG_WF_REQUEST_CAP h2 value with
                      | None => None
                      | Some h3 => match append TG_WF_REQUEST_CAP h3 CRLF with None => None | Some h4 => build_headers b r h4 end
                      end
                  end
              end
          end
      | _, _ => None
      end
  end.

(** What a request needs: the endpoint, the plugin's configuration, the
    bytes. *)
Record request := mk_request { q_peer : Z * Z; q_config : exchange_config; q_bytes : list Z }.

(** The endpoint, with the text of its address. *)
Definition endpoint (b : tg_business) (s : tg_step_plan) : errno + (list Z * (Z * Z)) :=
  let d := wp_doc (b_plan b) in
  let peer := tg_wf_member d (st_object s) (text "peer") in
  match field b peer (text "ip") None 16 with
  | None => inl EINVAL
  | Some ip =>
      match inet_pton ip with
      | None => inl EINVAL
      | Some addr =>
          match tg_wf_u32 d peer (text "port") (if bool_decide (st_kind s = TG_STEP_HTTP) then 80 else 53) 1 65535 with
          | inl e => inl e
          | inr port => inr (ip, (addr, port))
          end
      end
  end.

Definition http_request (b : tg_business) (s : tg_step_plan) (ip : list Z) : errno + (tg_http_config * list Z) :=
  let d := wp_doc (b_plan b) in
  let cfg := tg_wf_member d (st_object s) (text "http") in
  match field b cfg (text "method") (Some (text "GET")) TG_HTTP_METHOD_CAP, field b cfg (text "path") (Some (text "/")) TG_HTTP_PATH_CAP,
        field b cfg (text "host") (Some ip) TG_HTTP_HOST_CAP with
  | Some m, Some p, Some h =>
      if negb (safe_text m true) || negb (prefix_of [47] p) || negb (safe_text p false) || negb (safe_text h false) then inl EINVAL
      else
        let k := tg_wf_member d cfg (text "keepalive") in
        match (if 0 <=? k then tg_json_parse_bool d (tok d k) else inr false) with
        | inl e => inl e
        | inr keep =>
            let g := mk_hcfg m p h (negb keep) true (st_capture_headers s) (st_capture_json s) in
            let hs := tg_wf_member d cfg (text "headers") in
            match (if 0 <=? hs then
                     if bool_decide (ttype (tok d hs) = JSMN_OBJECT) then build_headers b (object_keys d hs) [] else None
                   else Some []),
                  field b cfg (text "body") (Some []) TG_WF_REQUEST_CAP with
            | Some headers, Some body =>
                match tg_http_build_parts g headers body TG_WF_REQUEST_CAP with inl e => inl e | inr bytes => inr (g, bytes) end
            | _, _ => inl EINVAL
            end
        end
  | _, _, _ => inl EINVAL
  end.

Definition dns_request (b : tg_business) (s : tg_step_plan) : errno + (tg_dns_config * list Z) :=
  let cfg := tg_wf_member (wp_doc (b_plan b)) (st_object s) (text "dns") in
  match field b cfg (text "qname") None TG_DNS_QNAME_CAP with
  | None => inl EINVAL
  | Some q =>
      let g := mk_dcfg q TG_DNS_QTYPE_A TG_DNS_TRANSACTION_ID true in
      if negb (tg_dns_qname_validate q) then inl EINVAL
      else match tg_dns_build_request (Some g) TG_WF_REQUEST_CAP with inl e => inl e | inr bytes => inr (g, bytes) end
  end.

(** Idle connections must not starve a new flow. *)
Definition make_room (io : wf_io) (http : bool) (s : shard exchange_config Ctx) : shard exchange_config Ctx :=
  if negb (bool_decide (is_Some (slot (w_new io) (dom (flows s))))) || (http && negb (tg_conn_pool_can_create (conn_pool s))) then
    match tg_conn_pool_take_any_idle s with
    | (Some idle, s1) => tg_flow_close_connection idle false TG_FLOW_RESULT_IO_FAILURE s1
    | (None, s1) => s1
    end
  else s.

(** A reused connection, if one fits: [inr None] asks for a new flow.  The
    boolean is whether a connection was reused. *)
Definition reuse (io : wf_io) (cls : nat) (keep : bool) (q : request) (host : list Z) (s : shard exchange_config Ctx)
    : (errno + option nat) * shard exchange_config Ctx :=
  if negb keep then (inr None, s)
  else match tg_conn_pool_take_matching cls (q_peer q) host s with
  | (None, s1) => (inr None, s1)
  | (Some f, s1) =>
      match tg_flow_rearm_tcp proto (w_reuse io) f (Some (q_config q)) (q_bytes q) (update f (with_f_on_finish true) s1) with
      | (None, s2) => (inr (Some f), s2)
      | (Some e, s2) =>
          let s3 := tg_flow_close_connection f false TG_FLOW_RESULT_IO_FAILURE s2 in
          (if bool_decide (e = ESTALE) then inr None else inl (w_close_errno io e), s3)
      end
  end.

Definition fresh_flow (io : wf_io) (cls : nat) (http : bool) (q : request) (s : shard exchange_config Ctx)
    : (errno + nat) * shard exchange_config Ctx :=
  let s1 := make_room io http s in
  if http then tg_flow_start_tcp proto (w_new io) (Some (q_config q)) (Some cls) true (q_bytes q) s1
  else tg_flow_start_udp proto (w_new io) (Some (q_config q)) (q_peer q) (q_bytes q) s1.

(** The step's deadline replaces the flow's. *)
Definition set_deadline (io : wf_io) (hz step_start : Z) (st : tg_step_plan) (host : option (list Z)) (f : nat) (s : shard exchange_config Ctx)
    : (errno + nsock_handle) * shard exchange_config Ctx :=
  let deadline := tg_flow_deadline hz step_start (st_timeout_ms st) in
  let s1 := update f (fun fl => with_f_deadline_cycles deadline (match host with Some h => with_f_reuse_host h fl | None => fl end)) s in
  if w_deadline io then
    let s2 := update f (with_f_timer (Some deadline)) s1 in
    (inr (from_option ConnPool.handle (mk_handle NSOCK_INVALID_ID 0 0 0) (flows s2 !! f)), s2)
  else (inl ENOSPC, tg_flow_close_connection f false TG_FLOW_RESULT_IO_FAILURE s1).

(** The request of the current step: [inr (http, host, keep, request)]. *)
Definition prepare (b : tg_business) (st : tg_step_plan) : errno + (option (list Z) * bool * request) :=
  match endpoint b st with
  | inl e => inl e
  | inr (ip, addr) =>
      if bool_decide (st_kind st = TG_STEP_HTTP) then
        match http_request b st ip with
        | inl e => inl e
        | inr (g, bytes) => inr (Some (host g), negb (connection_close g), mk_request addr (HttpExchange g) bytes)
        end
      else match dns_request b st with
      | inl e => inl e
      | inr (g, bytes) => inr (None, false, mk_request addr (DnsExchange g) bytes)
      end
  end.

(** [inl errno] is the result -1. *)
Definition exchange (io : wf_io) (b : tg_business) (st : tg_step_plan) (e : tg_workflow_engine) : (errno + nsock_handle) * tg_workflow_engine :=
  match prepare b st with
  | inl err => (inl err, e)
  | inr (host, keep, q) =>
      let http := bool_decide (st_kind st = TG_STEP_HTTP) in
      match reuse io (b_class b) keep q (default [] host) (e_shard e) with
      | (inl err, s1) => (inl err, with_e_shard s1 e)
      | (inr (Some f), s1) =>
          let '(r, s2) := set_deadline io (Flow.hz (w_new io)) (b_step_start b) st host f s1 in
          (r, say ConnectionReused (with_e_shard s2 e))
      | (inr None, s1) =>
          match fresh_flow io (b_class b) http q s1 with
          | (inl err, s2) => (inl err, with_e_shard s2 e)
          | (inr f, s2) => let '(r, s3) := set_deadline io (Flow.hz (w_new io)) (b_step_start b) st host f s2 in (r, with_e_shard s3 e)
          end
      end
  end.
Definition network (io : wf_io) (x : nat) (st : tg_step_plan) (e : tg_workflow_engine) : option errno * tg_workflow_engine :=
  match biz e x with
  | None => (Some EINVAL, e)
  | Some b =>
      match exchange io b st e with
      | (inl err, e1) => (Some err, e1)
      | (inr h, e1) => (None, upd x (fun b => with_b_waiting true (with_b_handle h b)) e1)
      end
  end.

(** ** Responses *)

(** The flow that ended, as its callback sees it. *)
Record outcome := mk_outcome { o_reason : tg_error_reason; o_sent : Z; o_received : Z; o_export : exporter }.

Fixpoint skip_space (l : list Z) : list Z :=
  match l with c :: t => if (c =? 32) || ((9 <=? c) && (c <=? 13)) then skip_space t else l | [] => [] end.
Fixpoint digits_from (v : Z) (l : list Z) : Z :=
  match l with c :: t => if is_digit c then digits_from (v * 10 + (c - 48)) t else v | [] => v end.
Definition atoi (s : list Z) : Z :=
  match skip_space s with
  | 45 :: t => - digits_from 0 t
  | 43 :: t => digits_from 0 t
  | l => digits_from 0 l
  end.

(** Every check is evaluated; the first boolean is whether all hold, the
    second whether one names the status. *)
Fixpoint run_checks (b : tg_business) (txn : exporter) (items : list Z) : bool * bool :=
  match items with
  | [] => (true, false)
  | i :: r =>
      let d := wp_doc (b_plan b) in
      let names := bool_decide (tg_wf_text d (tg_wf_member d i (text "left")) (text "source") (Some []) 32 = Some (text "status")) in
      let holds := bool_decide (predicate b i (Some txn) = Some true) in
      let '(ok, explicit) := run_checks b txn r in (holds && ok, names || explicit)
  end.
(** The extraction stops at the first failure; what it saved stays. *)
Fixpoint run_extract (b : tg_business) (txn : exporter) (keys : list Z) : bool * tg_business :=
  match keys with
  | [] => (true, b)
  | i :: r =>
      match tg_string_read (wp_doc (b_plan b)) i 64, operand b (i + 1) (Some txn) with
      | Some name, Some v => match save name v b with Some b' => run_extract b' txn r | None => (false, b) end
      | _, _ => (false, b)
      end
  end.

Definition status_ok (txn : exporter) : bool :=
  match txn (text "status") [] 0 with Some v => (200 <=? atoi (vtext v)) && (atoi (vtext v) <? 300) | None => false end.

(** Checks, default status policy, extraction: whether the response is
    accepted, and the business with its reason and context. *)
Definition judge (ok : bool) (st : tg_step_plan) (txn : exporter) (b : tg_business) : bool * tg_business :=
  let d := wp_doc (b_plan b) in
  let '(ok1, explicit) := if ok && (0 <=? st_checks st) then run_checks b txn (array_items d (st_checks st)) else (ok, false) in
  let refused := ok1 && bool_decide (st_kind st = TG_STEP_HTTP) && negb explicit && negb (status_ok txn) in
  let b1 := if refused then with_b_reason TG_ERROR_HTTP_STATUS b else b in
  let ok2 := ok1 && negb refused in
  if ok2 && (0 <=? st_extract st) then run_extract b1 txn (object_keys d (st_extract st)) else (ok2, b1).

(** [t_check] and [t_record] are the two clock readings. *)
Definition response (t_check t_record : Z) (x : nat) (o : outcome) (r : tg_flow_result) (e : tg_workflow_engine) : tg_workflow_engine :=
  match biz e x with
  | None => e
  | Some b =>
      if negb (b_active b) || negb (b_waiting b) then e
      else
        match wp_steps (b_plan b) !! Z.to_nat (b_step b) with
        | None => e
        | Some st =>
            let late := u64 (st_timeout_ms st * hz e) / 1000 <=? u64 (t_check - b_step_start b) in
            let r := if late then TG_FLOW_RESULT_IO_FAILURE else r in
            let b1 := with_b_waiting false (with_b_reason (if late then TG_ERROR_RESPONSE_TIMEOUT else o_reason o)
                        (with_b_bytes_rx (u64 (b_bytes_rx b + o_received o)) (with_b_bytes_tx (u64 (b_bytes_tx b + o_sent o)) b))) in
            let '(ok, b2) := judge (bool_decide (r = TG_FLOW_RESULT_SUCCESS)) st (o_export o) b1 in
            let e1 := record_step t_record x ok false (upd x (fun _ => b2) e) in
            let e2 := if ok then
                        advance x (st_next st) (if bool_decide (st_kind st = TG_STEP_HTTP) then say HttpCompleted e1 else e1)
                      else
                        upd x (fun b => with_b_failed true (with_b_failure
                          (if bool_decide (r = TG_FLOW_RESULT_SUCCESS) then TG_FLOW_RESULT_PROTOCOL_FAILURE else r) b)) e1 in
            enqueue x e2
        end
  end.

(** ** The engine *)

Definition plan_steps (p : option tg_workflow_plan) : Z := match p with Some p => count p | None => 0 end.
Fixpoint offsets_from (n : Z) (plans : list (option tg_workflow_plan)) : list Z * Z :=
  match plans with
  | [] => ([], n)
  | p :: r => let '(l, total) := offsets_from (u32 (n + plan_steps p)) r in (n :: l, total)
  end.

Definition business_zero (p : tg_workflow_plan) : tg_business :=
  mk_business 0 p [] 0 0 0 0 0 0 0 0 0 0 None None (mk_handle 0 0 0 0) false false false false false false TG_FLOW_RESULT_SUCCESS TG_ERROR_NONE.
Definition plan_zero : tg_workflow_plan := mk_wplan (mk_doc [] []) [] 0 0 [].

(** The sizes of a step's statistics and of a histogram. *)
Definition STEP_SIZE : Z := 64.
Definition HISTOGRAM_SIZE : Z := 7824.

Definition tg_workflow_engine_fini (e : tg_workflow_engine) : tg_workflow_engine :=
  with_e_steps [] (with_e_storage None e).

(** [memory] says which of the three allocations succeed.  The free list is
    built by pushing the objects in order. *)
Definition tg_workflow_engine_init (memory : bool * bool * bool) (e : tg_workflow_engine) : bool * tg_workflow_engine :=
  let '(offsets, total) := offsets_from (e_step_count e) (e_plans e) in
  let e1 := with_e_step_count total (with_e_offsets offsets e) in
  if total =? 0 then (true, e1)
  else
    let capacity := e_max_concurrency e in
    let r := e_resources e1 in
    let e2 := with_e_resources (mk_metric capacity (r_current r) (r_peak r) (r_exhausted r) (r_unavailable r) (r_busy r) (r_limit r))
                (with_e_capacity capacity e1) in
    let n := total * e_phase_count e in
    let timed := bool_decide (is_Some (groups (e_latency e))) in
    let '(m1, m2, m3) := memory in
    if negb m1 || negb m2 || (timed && negb m3) then (false, tg_workflow_engine_fini e2)
    else
      (true,
       with_e_memory_bytes (capacity * business_size + n * STEP_SIZE + (if timed then n * 3 * HISTOGRAM_SIZE else 0))
         (with_e_steps (replicate (Z.to_nat n) (mk_sstats counts_zero (if timed then Some (replicate 3 hist_zero) else None)))
            (with_e_free (rev (seq 0 (Z.to_nat capacity)) ++ e_free e2)
               (with_e_storage (Some (replicate (Z.to_nat capacity) (business_zero plan_zero))) e2)))).

(** [armed] is the deadline of the business timer, or that it could not be
    armed. *)
Definition tg_workflow_start (now : Z) (armed : option Z) (c : nat) (p : tg_workflow_plan) (e : tg_workflow_engine) : bool * tg_workflow_engine :=
  match e_free e with
  | [] =>
      (false, with_e_resources ((if bool_decide (e_storage e = None) then resource_unavailable else resource_exhausted) (e_resources e)) e)
  | x :: rest =>
      let s := e_scheduler e in
      let e1 := with_e_free rest (with_e_resources (resource_acquire 1 (e_resources e)) e) in
      let b := mk_business c p [] 0 (Scheduler.phase_index s) 0 0 (dispatch_ordinal s) (dispatch_planned_cycles s) now 0 0 0 armed None
                 (mk_handle 0 0 0 0) false false false false false false TG_FLOW_RESULT_PROTOCOL_FAILURE TG_ERROR_NONE in
      let e2 := upd x (fun _ => b) e1 in
      match armed with
      | None => (false, with_e_resources (resource_release 1 (e_resources e2)) (with_e_free (x :: e_free e2) e2))
      | Some _ =>
          let e3 := upd x (with_b_active true) e2 in
          let e4 := with_e_latency (fst (tg_latency_on_admitted (e_latency e3) (timing b) (b_phase b) (Z.of_nat c) (b_planned b))) e3 in
          (true, enqueue x (say (BusinessAdmitted c (b_phase b)) e4))
      end
  end.

(** ** The tick *)

(** The think time of a planned arrival, between the plan's bounds. *)
Definition splitmix (seed ordinal step : Z) : Z :=
  let x := u64 (ordinal + u64 (Z.shiftl seed 32) + step + 11400714819323198485) in
  let x := u64 (Z.lxor x (Z.shiftr x 30) * 13787848793156543929) in
  let x := u64 (Z.lxor x (Z.shiftr x 27) * 10723151780598845931) in
  Z.lxor x (Z.shiftr x 31).
Definition think_ms (seed ordinal step : Z) (st : tg_step_plan) : Z :=
  u32 (st_min_ms st + u32 (splitmix seed ordinal step mod (st_max_ms st - st_min_ms st + 1))).

Definition pressure (e : errno) : bool := bool_decide (e = ENOBUFS) || bool_decide (e = ENFILE).

(** The first entry of a step that is not waited for. *)
Definition run_step (io : wf_io) (x : nat) (b : tg_business) (st : tg_step_plan) (e : tg_workflow_engine) : tg_workflow_engine :=
  match st_kind st with
  | TG_STEP_HTTP | TG_STEP_DNS =>
      match network io x st e with
      | (Some err, e1) =>
          finish (w_finish io) x false
            (upd x (with_b_failure (if pressure err then TG_FLOW_RESULT_RESOURCE_PRESSURE else TG_FLOW_RESULT_PROTOCOL_FAILURE))
               (record_step (w_record io) x false true e1))
      | (None, e1) => step_stats b (b_step b) inc_started e1
      end
  | TG_STEP_BRANCH =>
      let e1 := step_stats b (b_step b) inc_started e in
      match predicate b (st_condition st) None with
      | None => finish (w_finish io) x false (record_step (w_record io) x false false e1)
      | Some holds => enqueue x (advance x (if holds then st_yes st else st_no st) (record_step (w_record io) x true false e1))
      end
  | TG_STEP_THINK =>
      let e1 := upd x (with_b_thinking true) (step_stats b (b_step b) inc_started e) in
      let ms := think_ms (e_seed e) (b_ordinal b) (b_step b) st in
      if ms =? 0 then enqueue x e1
      else if w_wake io then upd x (with_b_wake (Some (tg_flow_deadline (Flow.hz (w_new io)) (w_now io) ms))) e1
      else finish (w_finish io) x false (record_step (w_record io) x false false e1)
  end.

(** A business at the head of the ready queue, after its removal. *)
Definition advance_business (io : wf_io) (x : nat) (e : tg_workflow_engine) : tg_workflow_engine :=
  match biz e x with
  | None => e
  | Some b =>
      if b_timed_out b || (u64 (wp_timeout_ms (b_plan b) * hz e) / 1000 <=? u64 (w_now io - b_start b)) then
        let e1 := if (b_waiting b || b_thinking b) && (b_step b <? count (b_plan b)) then record_step (w_record io) x false false e else e in
        finish (w_finish io) x false (upd x (fun b => with_b_reason TG_ERROR_RESPONSE_TIMEOUT (with_b_failure TG_FLOW_RESULT_IO_FAILURE b)) e1)
      else if b_failed b then finish (w_finish io) x false e
      else if b_step b =? count (b_plan b) then finish (w_finish io) x true e
      else match wp_steps (b_plan b) !! Z.to_nat (b_step b) with
      | None => e
      | Some st =>
          if b_thinking b then
            enqueue x (advance x (st_next st) (record_step (w_record io) x true false (upd x (with_b_thinking false) e)))
          else
            let b1 := with_b_visited (Z.lor (b_visited b) (Z.shiftl 1 (b_step b))) (with_b_step_start (w_step io) b) in
            run_step io x b1 st (step_stats b1 (b_step b1) inc_reached (upd x (fun _ => b1) e))
      end
  end.

Definition pop (io : wf_io) (e : tg_workflow_engine) : tg_workflow_engine :=
  match e_ready e with
  | [] => e
  | x :: rest => advance_business io x (upd x (with_b_queued false) (with_e_ready rest e))
  end.

(** [io n] is what the pop reads when [n] are left of the budget. *)
Fixpoint tg_workflow_tick (budget : nat) (io : nat -> wf_io) (e : tg_workflow_engine) : tg_workflow_engine :=
  match budget with
  | O => e
  | S n => if bool_decide (e_ready e = []) then e else tg_workflow_tick n io (pop (io n) e)
  end.

(** ** Reporting *)

Definition add_counts (a b : tg_step_counts) : tg_step_counts :=
  mk_counts (u64 (reached a + reached b)) (u64 (started a + started b)) (u64 (success a + success b)) (u64 (failed a + failed b))
    (u64 (start_failed a + start_failed b)) (u64 (branch_skipped a + branch_skipped b)) (u64 (not_reached a + not_reached b)).
Definition add_hists (a : list tg_histogram) (b : option (list tg_histogram)) : list tg_histogram :=
  match b with Some b => zip_with tg_histogram_merge a b | None => a end.

(** The merged row of one step over the engines of all owners. *)
Definition merge_step (engines : list tg_workflow_engine) (p : Z) (c : nat) (step : Z) : tg_step_counts * list tg_histogram :=
  foldl (fun '(n, h) e =>
           match e_steps e !! step_index e p c step with
           | Some s => (add_counts n (counts s), add_hists h (hist s))
           | None => (n, h)
           end) (counts_zero, replicate 3 hist_zero) engines.

(** One line per phase, transaction class, step and metric; [write] prints a
    line, and the first failure ends the report. *)
Record csv_row := mk_row { row_phase : Z; row_class : nat; row_kind : tg_step_kind; row_step : list Z; row_metric : nat;
                           row_hist : tg_histogram; row_counts : tg_step_counts }.
Definition step_rows (engines : list tg_workflow_engine) (p : Z) (c : nat) (i : nat) (st : tg_step_plan) : list csv_row :=
  let '(n, h) := merge_step engines p c (Z.of_nat i) in
  map (fun m => mk_row p c (st_kind st) (st_name st) m (nth m h hist_zero) n) [0; 1; 2]%nat.
Definition tg_workflow_rows (phases : Z) (plans : list (option tg_workflow_plan)) (engines : list tg_workflow_engine) : list csv_row :=
  concat (map (fun p => concat (imap (fun c wf =>
    match wf with
    | Some wf => concat (imap (step_rows engines p c) (wp_steps wf))
    | None => []
    end) plans)) (seqZ 0 phases)).
Definition tg_workflow_csv (alloc : bool) (write : csv_row -> bool) (stream_ok : bool) (phases : Z)
    (plans : list (option tg_workflow_plan)) (engines : list tg_workflow_engine) : bool :=
  alloc && forallb write (tg_workflow_rows phases plans engines) && stream_ok.
End Workflow.
