(* ===== verification/WorkflowFacts.v ===== *)
(** * Workflow execution: the ledger of the step counters

    What one business does to the counters of its steps: [moves] relates two
    engines that differ in one business and in the counters of its group, and
    composes. *)

From stdpp Require Import gmap strings.
From S2P Require Import Prelude Config Latency Scheduler Txn OwnerTimer TcpTcb Json WorkflowPlan WorkflowPlanFacts Dns Http ConnPool Flow Workflow.

Definition M64 : Z := 18446744073709551616.

(** Three balances of a step's counters, modulo their width. *)
Definition ledger_started (n : tg_step_counts) : Z := reached n - started n - start_failed n.
Definition ledger_done (n : tg_step_counts) : Z := reached n - success n - failed n.
Definition ledger_all (n : tg_step_counts) : Z := reached n + branch_skipped n + not_reached n.
Definition shifted (f : tg_step_counts -> Z) (d : Z) (n n' : tg_step_counts) : Prop := (f n' - f n - d) mod M64 = 0.

Lemma shifted_trans f d d' a b c : shifted f d a b -> shifted f d' b c -> shifted f (d + d') a c.
Proof. unfold shifted, M64. intros. Z.to_euclidean_division_equations; lia. Qed.
Lemma shifted_refl f a : shifted f 0 a a.
Proof. unfold shifted. by rewrite Z.sub_diag. Qed.

(** The three balances of [n'] and [n] differ by these amounts. *)
Record delta := mk_delta { d_started : Z; d_done : Z; d_all : Z }.
Definition d_zero : delta := mk_delta 0 0 0.
Definition d_add (a b : delta) : delta := mk_delta (d_started a + d_started b) (d_done a + d_done b) (d_all a + d_all b).
Definition differ (d : delta) (n n' : tg_step_counts) : Prop :=
  shifted ledger_started (d_started d) n n' /\ shifted ledger_done (d_done d) n n' /\ shifted ledger_all (d_all d) n n'.

Lemma differ_refl n : differ d_zero n n.
Proof. repeat split; apply shifted_refl. Qed.
Lemma differ_trans d d' a b c : differ d a b -> differ d' b c -> differ (d_add d d') a c.
Proof. intros (? & ? & ?) (? & ? & ?). repeat split; by eapply shifted_trans. Qed.

Ltac ledger := unfold differ, shifted, ledger_started, ledger_done, ledger_all, M64; cbn; unfold u64; repeat split; Z.to_euclidean_division_equations; lia.
Lemma differ_reached n : differ (mk_delta 1 1 1) n (inc_reached n).
Proof. ledger. Qed.
Lemma differ_started n : differ (mk_delta (-1) 0 0) n (inc_started n).
Proof. ledger. Qed.
Lemma differ_skipped n : differ (mk_delta 0 0 1) n (inc_skipped n).
Proof. ledger. Qed.
Lemma differ_not_reached n : differ (mk_delta 0 0 1) n (inc_not_reached n).
Proof. ledger. Qed.
Definition b2z (b : bool) : Z := if b then 1 else 0.
Lemma differ_outcome ok sf n : differ (mk_delta (- b2z sf) (-1) 0) n (inc_outcome ok sf n).
Proof. destruct ok, sf; ledger. Qed.

Section Facts.
Context {Ctx : Type}.
Local Abbreviation engine := (tg_workflow_engine (Ctx := Ctx)).

(** ** The table of counters *)

Definition is_step (e : engine) (p : Z) (c : nat) (i : Z) : Prop :=
  0 <= p < e_phase_count e /\ exists wf, e_plans e !! c = Some (Some wf) /\ 0 <= i < count wf.
Definition cell (e : engine) (p : Z) (c : nat) (i : Z) : tg_step_counts :=
  from_option counts counts_zero (e_steps e !! step_index e p c i).

(** The table is laid out as [tg_workflow_engine_init] computes it, and its
    indices fit 32 bits. *)
Record layout (e : engine) : Prop := {
  lo_offsets : offsets_from 0 (e_plans e) = (e_offsets e, e_step_count e);
  lo_total : Zsum (map plan_steps (e_plans e)) * e_phase_count e < 4294967296;
  lo_length : zlen (e_steps e) = e_step_count e * e_phase_count e;
  lo_phases : 0 <= e_phase_count e
}.

Lemma plan_steps_nonneg q : 0 <= plan_steps q.
Proof. destruct q; cbn; [apply zlen_nonneg|done]. Qed.
Lemma plans_sum_nonneg l : 0 <= Zsum (map plan_steps l).
Proof. apply Zsum_nonneg, Forall_forall. intros z Hz. apply list_elem_of_fmap in Hz as (q & -> & _). apply plan_steps_nonneg. Qed.

Lemma offsets_exact plans : forall n l total,
  offsets_from n plans = (l, total) -> 0 <= n -> n + Zsum (map plan_steps plans) < 4294967296 ->
  total = n + Zsum (map plan_steps plans) /\ forall c q, plans !! c = Some q -> nth c l 0 = n + Zsum (map plan_steps (take c plans)).
Proof.
  induction plans as [|q plans IH]; intros n l total; cbn [offsets_from map]; rewrite ?Zsum_nil, ?Zsum_cons.
  - intros [= <- <-] _ _. split; [lia|]. by intros [].
  - pose proof (plan_steps_nonneg q). pose proof (plans_sum_nonneg plans). intros H1 Hn Hb.
    rewrite u32_small in H1 by warith. destruct (offsets_from _ _) as [l' t'] eqn:E. injection H1 as <- <-.
    apply IH in E as [-> E]; [|lia..]. split; [lia|]. intros [|c] q' Hq; cbn [nth take map] in *.
    + rewrite Zsum_nil. lia.
    + rewrite Zsum_cons, (E c q') by done. lia.
Qed.

Lemma take_sum_bound (plans : list (option tg_workflow_plan)) c wf :
  plans !! c = Some (Some wf) -> Zsum (map plan_steps (take c plans)) + count wf <= Zsum (map plan_steps plans).
Proof.
  intros H. rewrite <- (take_drop_middle plans c _ H) at 2. rewrite map_app, Zsum_app. cbn [map]. rewrite Zsum_cons.
  pose proof (plans_sum_nonneg (drop (S c) plans)). cbn. lia.
Qed.
Lemma take_sum_mono (plans : list (option tg_workflow_plan)) c c' wf :
  plans !! c = Some (Some wf) -> (c < c')%nat -> Zsum (map plan_steps (take c plans)) + count wf <= Zsum (map plan_steps (take c' plans)).
Proof.
  intros H Hc. pose proof (take_sum_bound (take c' plans) c wf) as B. rewrite take_take, Nat.min_l in B by lia. apply B.
  by rewrite lookup_take_lt.
Qed.

(** Different steps of different groups have different cells. *)
Lemma step_index_exact e p c i :
  layout e -> is_step e p c i ->
  exists off, 0 <= off < e_step_count e /\ off = Zsum (map plan_steps (take c (e_plans e))) + i /\
    step_index e p c i = Z.to_nat (p * e_step_count e + off) /\ p * e_step_count e + off < zlen (e_steps e).
Proof.
  intros [Lo Lt Ll Lp] (Hp & wf & Hc & Hi). pose proof (plans_sum_nonneg (e_plans e)).
  assert (Zsum (map plan_steps (e_plans e)) < 4294967296) as Hs by nia.
  destruct (offsets_exact _ _ _ _ Lo ltac:(lia) ltac:(lia)) as [Ht Ho]. rewrite Z.add_0_l in Ht. specialize (Ho _ _ Hc). rewrite Z.add_0_l in Ho.
  pose proof (take_sum_bound _ _ _ Hc). pose proof (plans_sum_nonneg (take c (e_plans e))).
  exists (Zsum (map plan_steps (take c (e_plans e))) + i). rewrite Ll, Ht. split; [lia|]. split; [done|].
  assert (p * Zsum (map plan_steps (e_plans e)) + (Zsum (map plan_steps (take c (e_plans e))) + i)
          < Zsum (map plan_steps (e_plans e)) * e_phase_count e) as Hb by nia.
  split; [|lia]. unfold step_index. rewrite Ho, Ht. f_equal. rewrite (u32_small (p * _)) by (wunfold; nia). rewrite u32_small by (wunfold; nia). lia.
Qed.
Lemma step_index_inj e p c i p' c' i' :
  layout e -> is_step e p c i -> is_step e p' c' i' -> step_index e p c i = step_index e p' c' i' -> p = p' /\ c = c' /\ i = i'.
Proof.
  intros L S S'. destruct (step_index_exact _ _ _ _ L S) as (o & Bo & Eo & -> & _). destruct (step_index_exact _ _ _ _ L S') as (o' & Bo' & Eo' & -> & _).
  intros H. destruct S as (Hp & wf & Hc & Hi), S' as (Hp' & wf' & Hc' & Hi').
  assert (p * e_step_count e + o = p' * e_step_count e + o') as E by nia.
  assert (p = p') as -> by nia. assert (o = o') as Eoo by lia. split; [done|].
  destruct (Nat.lt_trichotomy c c') as [Hl|[->|Hl]]; [|split; [done|lia]|].
  - pose proof (take_sum_mono _ _ _ _ Hc Hl). lia.
  - pose proof (take_sum_mono _ _ _ _ Hc' Hl). lia.
Qed.

(** ** The trace *)

Definition of_group (p : Z) (c : nat) (p' : Z) (c' : nat) : bool := bool_decide (p' = p /\ c' = c).
Definition admits (p : Z) (c : nat) (n : wf_note) : Z :=
  match n with BusinessAdmitted c' p' => b2z (of_group p c p' c') | _ => 0 end.
Definition completes (p : Z) (c : nat) (n : wf_note) : Z :=
  match n with BusinessFinished c' p' _ _ _ _ => b2z (of_group p c p' c') | _ => 0 end.
Definition admissions (e : engine) (p : Z) (c : nat) : Z := Zsum (map (admits p c) (e_notes e)).
Definition completions (e : engine) (p : Z) (c : nat) : Z := Zsum (map (completes p c) (e_notes e)).

(** ** One business moves *)

(** What a move leaves alone. *)
Record same (e e' : engine) : Prop := {
  sa_plans : e_plans e' = e_plans e;
  sa_seed : e_seed e' = e_seed e;
  sa_phases : e_phase_count e' = e_phase_count e;
  sa_offsets : e_offsets e' = e_offsets e;
  sa_count : e_step_count e' = e_step_count e;
  sa_length : length (e_steps e') = length (e_steps e);
  sa_free : e_free e' = e_free e;
  sa_ready : e_ready e' = e_ready e;
  sa_resources : e_resources e' = e_resources e;
  sa_hz : Scheduler.cycles_per_second (e_scheduler e') = Scheduler.cycles_per_second (e_scheduler e);
  sa_admitted : forall p c, admissions e' p c = admissions e p c;
  sa_completed : forall p c, completions e' p c = completions e p c
}.
Lemma same_refl e : same e e.
Proof. by split. Qed.
Lemma same_trans e1 e2 e3 : same e1 e2 -> same e2 e3 -> same e1 e3.
Proof. intros [] []. split; intros; congruence. Qed.

Definition group_of (b : tg_business) (p : Z) (c : nat) : bool := of_group p c (b_phase b) (b_class b).
Definition kept (b b' : tg_business) : Prop := b_class b' = b_class b /\ b_phase b' = b_phase b /\ b_plan b' = b_plan b.
Definition stored (e : engine) (x : nat) (b : tg_business) : Prop := biz e x = Some b.

Record moves (x : nat) (b b' : tg_business) (D : Z -> delta) (e e' : engine) : Prop := {
  mv_before : biz e x = Some b;
  mv_after : biz e' x = Some b';
  mv_others : forall y, y <> x -> biz e' y = biz e y;
  mv_length : option_map length (e_storage e') = option_map length (e_storage e);
  mv_same : same e e';
  mv_kept : kept b b';
  mv_cells : forall p c i, is_step e p c i -> differ (if group_of b p c then D i else d_zero) (cell e p c i) (cell e' p c i)
}.

Lemma is_step_same e e' p c i : same e e' -> is_step e' p c i <-> is_step e p c i.
Proof. intros []. unfold is_step. by rewrite sa_plans0, sa_phases0. Qed.
Lemma layout_same e e' : same e e' -> layout e -> layout e'.
Proof. intros [] []. split; try congruence. unfold zlen in *. congruence. Qed.

Lemma moves_refl x b (e : engine) : biz e x = Some b -> moves x b b (fun _ => d_zero) e e.
Proof. intros H. split; try done. intros p c i _. destruct (group_of b p c); apply differ_refl. Qed.
Lemma moves_trans x b1 b2 b3 D1 D2 e1 e2 e3 :
  moves x b1 b2 D1 e1 e2 -> moves x b2 b3 D2 e2 e3 -> moves x b1 b3 (fun i => d_add (D1 i) (D2 i)) e1 e3.
Proof.
  intros [B1 A1 O1 L1 S1 (K1 & K1' & K1'') C1] [B2 A2 O2 L2 S2 (K2 & K2' & K2'') C2]. split; try done; try congruence.
  - intros y Hy. rewrite O2, O1; done.
  - by eapply same_trans.
  - repeat split; congruence.
  - intros p c i Hi. specialize (C1 p c i Hi). specialize (C2 p c i (proj2 (is_step_same _ _ _ _ _ S1) Hi)).
    assert (group_of b2 p c = group_of b1 p c) as G by (unfold group_of; by rewrite K1, K1'). rewrite G in C2.
    destruct (group_of b1 p c); [by eapply differ_trans|]. apply (differ_trans d_zero d_zero _ _ _ C1 C2).
Qed.
Lemma moves_delta x b b' D D' e e' : moves x b b' D e e' -> (forall i, 0 <= i < count (b_plan b) -> D i = D' i) ->
  (forall c p i, group_of b p c = true -> is_step e p c i -> 0 <= i < count (b_plan b)) -> moves x b b' D' e e'.
Proof.
  intros [] E Hs. split; try done. intros p c i Hi. specialize (mv_cells0 p c i Hi). destruct (group_of b p c) eqn:G; [|done].
  rewrite <- E; [done|]. by eapply Hs.
Qed.

(** ** The primitive moves *)

Lemma biz_upd (e : engine) x g y : biz (upd x g e) y = if decide (y = x) then g <$> biz e y else biz e y.
Proof.
  unfold biz, upd. cbn. destruct (e_storage e) as [l|]; cbn; [|by case_decide]. rewrite list_lookup_alter. repeat case_decide; congruence.
Qed.
Lemma same_upd x g (e : engine) : same e (upd x g e).
Proof. by split. Qed.
Lemma moves_upd x b g (e : engine) : biz e x = Some b -> kept b (g b) -> moves x b (g b) (fun _ => d_zero) e (upd x g e).
Proof.
  intros H K. split; try done.
  - by rewrite biz_upd, decide_True, H.
  - intros y Hy. by rewrite biz_upd, decide_False.
  - unfold upd. cbn. destruct (e_storage e); [|done]. cbn. by rewrite length_alter.
  - intros p c i _. destruct (group_of b p c); apply differ_refl.
Qed.

(** A change outside the storage and the table. *)
Lemma moves_outside x b (e e' : engine) :
  biz e x = Some b -> e_storage e' = e_storage e -> e_steps e' = e_steps e -> same e e' -> moves x b b (fun _ => d_zero) e e'.
Proof.
  intros H E1 E2 S. assert (forall y, biz e' y = biz e y) as E by (intros; unfold biz; by rewrite E1). split; try done.
  - by rewrite E.
  - by rewrite E1.
  - intros p c i _. assert (cell e' p c i = cell e p c i) as ->; [|destruct (group_of b p c); apply differ_refl].
    unfold cell, step_index. destruct S. by rewrite E2, sa_offsets0, sa_count0.
Qed.
Lemma same_say n (e : engine) : (forall p c, admits p c n = 0 /\ completes p c n = 0) -> same e (say n e).
Proof.
  intros H. split; try done; intros p c; destruct (H p c) as [H1 H2]; unfold admissions, completions, say; cbn;
    rewrite map_app, Zsum_app; cbn; rewrite ?H1, ?H2; lia.
Qed.

(** A cell of the business' group changes. *)
Lemma moves_cell x b (e : engine) (h : tg_step_stats -> tg_step_stats) j d :
  biz e x = Some b -> layout e -> is_step e (b_phase b) (b_class b) j -> (forall s, differ d (counts s) (counts (h s))) ->
  moves x b b (fun i => if decide (i = j) then d else d_zero) e
    (with_e_steps (alter h (step_index e (b_phase b) (b_class b) j) (e_steps e)) e).
Proof.
  intros H L Hj Hd. split; try done.
  - split; try done. cbn. by rewrite length_alter.
  - intros p c i Hi. unfold cell. change (step_index (with_e_steps _ e) p c i) with (step_index e p c i). cbn [e_steps with_e_steps].
    rewrite list_lookup_alter. destruct (step_index_exact e _ _ _ L Hj) as (off & Bo & _ & Ej & Bj).
    destruct (decide (step_index e (b_phase b) (b_class b) j = step_index e p c i)) as [Ei|Ei].
    + rewrite <- Ei. apply step_index_inj in Ei as (<- & <- & <-); [|done..].
      unfold group_of, of_group. rewrite bool_decide_true, decide_True by done. destruct (e_steps e !! _) as [s|] eqn:Es; cbn; [apply Hd|].
      apply lookup_ge_None in Es. rewrite Ej in Es. unfold zlen in Bj. destruct Hj as [Hp _].
      assert (0 <= b_phase b * e_step_count e + off) by nia. lia.
    + unfold group_of, of_group. case_bool_decide as G; [|apply differ_refl]. destruct G as [<- <-].
      rewrite decide_False; [apply differ_refl|]. by intros ->.
Qed.
Lemma moves_step_stats x b (e : engine) g j d :
  biz e x = Some b -> layout e -> is_step e (b_phase b) (b_class b) j -> (forall n, differ d n (g n)) ->
  moves x b b (fun i => if decide (i = j) then d else d_zero) e (step_stats b j g e).
Proof. intros. apply moves_cell; try done. Qed.
Lemma moves_record now x b ok sf (e : engine) :
  biz e x = Some b -> layout e -> is_step e (b_phase b) (b_class b) (b_step b) ->
  moves x b b (fun i => if decide (i = b_step b) then mk_delta (- b2z sf) (-1) 0 else d_zero) e (record_step now x ok sf e).
Proof.
  intros H L Hj. unfold record_step. rewrite H. apply moves_cell; try done. intros s. apply differ_outcome.
Qed.

(** ** Skipping, and what was never reached *)

Definition in_group (e : engine) (b : tg_business) : Prop := 0 <= b_phase b < e_phase_count e /\ e_plans e !! b_class b = Some (Some (b_plan b)).
Lemma group_step e b i : in_group e b -> 0 <= i < count (b_plan b) -> is_step e (b_phase b) (b_class b) i.
Proof. intros [Hp Hc] Hi. split; [done|]. by exists (b_plan b). Qed.
Lemma group_step_of e b p c i : in_group e b -> group_of b p c = true -> is_step e p c i -> 0 <= i < count (b_plan b).
Proof.
  intros [_ Hc] G (_ & wf & Hw & Hi). unfold group_of, of_group in G. apply bool_decide_eq_true in G as [<- <-].
  rewrite Hc in Hw. by injection Hw as ->.
Qed.
Lemma in_group_kept e e' b b' : same e e' -> kept b b' -> in_group e b -> in_group e' b'.
Proof. intros [] (K1 & K2 & K3) [Hp Hc]. unfold in_group. by rewrite K1, K2, K3, sa_plans0, sa_phases0. Qed.

Definition one_all : delta := mk_delta 0 0 1.

Lemma testbit_add v s i : 0 <= i -> 0 <= s -> Z.testbit (Z.lor v (Z.shiftl 1 s)) i = Z.testbit v i || (i =? s).
Proof.
  intros Hi Hs. rewrite Z.lor_spec, Z.shiftl_spec by done. f_equal. destruct (Z.eqb_spec i s) as [->|Hne]; [by rewrite Z.sub_diag|].
  destruct (decide (i < s)); [by apply Z.testbit_neg_r; lia|]. apply Z.bits_above_log2; cbn; lia.
Qed.

Lemma skip_steps_moves x l : forall b (e : engine),
  biz e x = Some b -> layout e -> in_group e b -> NoDup l -> Forall (fun i => 0 <= i < count (b_plan b)) l ->
  exists v, moves x b (with_b_skipped v b) (fun i => if decide (i ∈ l) then one_all else d_zero) e (skip_steps l x e) /\
    forall i, 0 <= i -> Z.testbit v i = Z.testbit (b_skipped b) i || bool_decide (i ∈ l).
Proof.
  induction l as [|j l IH]; intros b e H L G N F; cbn [skip_steps].
  - exists (b_skipped b). split; [by destruct b; apply moves_refl|]. intros i _. by rewrite bool_decide_false, orb_false_r by apply not_elem_of_nil.
  - rewrite H. apply NoDup_cons in N as [Nj N]. apply Forall_cons in F as [Fj F].
    pose proof (moves_step_stats x b e inc_skipped j one_all H L (group_step _ _ _ G Fj) differ_skipped) as M1.
    set (e1 := step_stats b j inc_skipped e) in *. set (v1 := Z.lor (b_skipped b) (Z.shiftl 1 j)).
    pose proof (moves_upd x b (with_b_skipped v1) e1 (mv_after _ _ _ _ _ _ M1) ltac:(done)) as M2.
    pose proof (moves_trans _ _ _ _ _ _ _ _ _ M1 M2) as M.
    destruct (IH (with_b_skipped v1 b) (upd x (with_b_skipped v1) e1)) as (v & M3 & Hv); [apply M2| | |done|done|].
    + eapply layout_same; [apply M|done].
    + eapply in_group_kept; [apply M|apply M|done].
    + exists v. split.
      * pose proof (moves_trans _ _ _ _ _ _ _ _ _ M M3) as M'. eapply moves_delta; [exact M'| |].
        -- intros i Hi. cbn. destruct (decide (i = j)) as [->|Hne].
           ++ rewrite (decide_False (P := j ∈ l)), decide_True by (done || by left). done.
           ++ destruct (decide (i ∈ l)); [rewrite decide_True by (by right)|rewrite decide_False by (intros [->|?]%elem_of_cons; done)]; done.
        -- intros c p i. by apply group_step_of.
      * intros i Hi. rewrite Hv by done. cbn. unfold v1. rewrite testbit_add by lia. rewrite <- orb_assoc. f_equal.
        destruct (decide (i = j)) as [->|Hne]; [rewrite Z.eqb_refl; cbn; by rewrite bool_decide_true by (by left)|].
        rewrite (proj2 (Z.eqb_neq i j)) by done. cbn. apply bool_decide_ext. rewrite elem_of_cons. intuition.
Qed.

Lemma not_reached_moves x l b0 : forall b (e : engine),
  biz e x = Some b -> layout e -> in_group e b -> kept b0 b -> NoDup l -> Forall (fun i => 0 <= i < count (b_plan b)) l ->
  moves x b b (fun i => if decide (i ∈ l) then if Z.testbit (Z.lor (b_visited b0) (b_skipped b0)) i then d_zero else one_all else d_zero)
    e (count_not_reached l b0 e).
Proof.
  induction l as [|j l IH]; intros b e H L G K N F; cbn [count_not_reached]; [by apply moves_refl|].
  apply NoDup_cons in N as [Nj N]. apply Forall_cons in F as [Fj F]. set (bit := Z.testbit _ j).
  assert (moves x b b (fun i => if decide (i = j) then if bit then d_zero else one_all else d_zero) e
            (if bit then e else step_stats b0 j inc_not_reached e)) as M1.
  { destruct bit.
    - eapply moves_delta; [by apply moves_refl| |]; [intros; by case_decide|]. intros c p i. by apply group_step_of.
    - destruct K as (K1 & K2 & K3). assert (step_stats b0 j inc_not_reached e = step_stats b j inc_not_reached e) as -> by (unfold step_stats; by rewrite K1, K2).
      apply moves_step_stats; try done; [by apply group_step|apply differ_not_reached]. }
  assert (moves x b b (fun i => if decide (i ∈ l) then if Z.testbit (Z.lor (b_visited b0) (b_skipped b0)) i then d_zero else one_all else d_zero)
            (if bit then e else step_stats b0 j inc_not_reached e)
            (count_not_reached l b0 (if bit then e else step_stats b0 j inc_not_reached e))) as M2.
  { apply IH; try done; [apply M1|eapply layout_same; [apply M1|done]|eapply in_group_kept; [apply M1|by repeat split|done]]. }
  pose proof (moves_trans _ _ _ _ _ _ _ _ _ M1 M2) as M. eapply moves_delta; [exact M| |].
  - intros i Hi. cbn. destruct (decide (i = j)) as [->|Hne].
    + rewrite (decide_False (P := j ∈ l)), decide_True by (done || by left). subst bit. by destruct (Z.testbit _ j).
    + destruct (decide (i ∈ l)); [rewrite decide_True by (by right)|rewrite decide_False by (intros [->|?]%elem_of_cons; done)]; [|done].
      by destruct (Z.testbit _ i).
  - intros c p i. by apply group_step_of.
Qed.
End Facts.
