(* ===== verification/WorkflowInv.v ===== *)
(** * Workflow execution: the invariant of an engine

    [engine_ok] ties the businesses, the ready queue, the free list, the
    counters and the trace together; [engine_ok (Some x)] is the same while
    business [x], just taken off the queue, is being advanced. *)

From stdpp Require Import gmap strings.
From S2P Require Import Prelude Config Latency Scheduler Txn OwnerTimer TcpTcb Json WorkflowPlan WorkflowPlanFacts Dns Http ConnPool Flow Workflow WorkflowFacts.

Section Inv.
Context {Ctx : Type}.
Local Abbreviation engine := (tg_workflow_engine (Ctx := Ctx)).

(** ** One business *)

Definition held (b : tg_business) : bool := b_waiting b || b_thinking b || b_failed b.
Definition touched (b : tg_business) (i : Z) : bool := Z.testbit (Z.lor (b_visited b) (b_skipped b)) i.

(** An active business: the steps before its current one were visited or
    skipped, the current one is if it is under way or failed. *)
Record biz_ok (e : engine) (b : tg_business) : Prop := {
  bo_group : in_group e b;
  bo_plan : plan_ok (b_plan b);
  bo_step : 0 <= b_step b <= count (b_plan b);
  bo_bits : forall i, 0 <= i < count (b_plan b) -> touched b i = (i <? b_step b) || ((i =? b_step b) && held b);
  bo_held : held b = true -> b_step b < count (b_plan b);
  bo_one : b2z (b_waiting b) + b2z (b_thinking b) + b2z (b_failed b) <= 1;
  bo_wake : b_wake b <> None -> b_thinking b = true;
  bo_timer : b_timed_out b = false -> b_timeout b <> None
}.

(** A business that is not queued waits for a response or a wake-up. *)
Definition queue_ok (b : tg_business) : Prop :=
  (b_queued b = false -> (b_waiting b = true \/ (b_thinking b = true /\ b_wake b <> None)) /\ b_timed_out b = false) /\
  (b_queued b = true -> b_timed_out b = true \/ (b_waiting b = false /\ b_wake b = None)).

(** Its share of the balances of step [i]: under way, or not touched yet. *)
Definition inflight (i : Z) (b : tg_business) : Z := b2z (b_active b && (b_waiting b || b_thinking b) && (b_step b =? i)).
Definition pending (i : Z) (b : tg_business) : Z := b2z (b_active b && negb (touched b i)).
Definition in_ (p : Z) (c : nat) (f : tg_business -> Z) (b : tg_business) : Z := if group_of b p c then f b else 0.
Definition alive (b : tg_business) : Z := b2z (b_active b).

Definition total (e : engine) (f : tg_business -> Z) : Z := Zsum (map f (default [] (e_storage e))).

Record ledger_ok (e : engine) (p : Z) (c : nat) (i : Z) : Prop := {
  lg_started : ledger_started (cell e p c i) mod M64 = 0;
  lg_done : (ledger_done (cell e p c i) - total e (in_ p c (inflight i))) mod M64 = 0;
  lg_all : (ledger_all (cell e p c i) + total e (in_ p c (pending i)) - admissions e p c) mod M64 = 0
}.

Record engine_ok (busy : option nat) (e : engine) : Prop := {
  eo_layout : layout e;
  eo_storage : e_storage e <> None;
  eo_active : forall x b, biz e x = Some b -> b_active b = true -> biz_ok e b;
  eo_idle : forall x b, biz e x = Some b -> b_active b = false -> b_queued b = false /\ b_timeout b = None /\ b_wake b = None;
  eo_free : NoDup (e_free e) /\ forall x, x ∈ e_free e <-> exists b, biz e x = Some b /\ b_active b = false;
  eo_ready : NoDup (e_ready e) /\ forall x, x ∈ e_ready e <-> exists b, biz e x = Some b /\ b_queued b = true;
  eo_queue : forall x b, biz e x = Some b -> b_active b = true -> busy <> Some x -> queue_ok b;
  eo_busy : forall x, busy = Some x -> exists b, biz e x = Some b /\ b_active b = true /\ b_queued b = false;
  eo_ledger : forall p c i, is_step e p c i -> ledger_ok e p c i;
  eo_trace : forall p c, admissions e p c - completions e p c = total e (in_ p c alive);
  eo_resources : counts_live (total e alive) (e_resources e);
  eo_size : total e (fun _ => 1) < 18446744073709551615
}.

(** ** Sums over the storage *)

Lemma moves_storage x b b' D (e e' : engine) l :
  moves x b b' D e e' -> e_storage e = Some l -> e_storage e' = Some (alter (fun _ => b') x l).
Proof.
  intros [H1 H2 H3 H4] E. unfold biz in *. rewrite E in *. destruct (e_storage e') as [l'|]; [|done]. cbn in *. f_equal.
  apply list_eq. intros y. rewrite list_lookup_alter. case_decide as Hy; [subst; rewrite H1; done|]. apply H3. congruence.
Qed.
Lemma total_moves x b b' D (e e' : engine) f : moves x b b' D e e' -> total e' f = total e f - f b + f b'.
Proof.
  intros Mv. pose proof (mv_before _ _ _ _ _ _ Mv) as H. unfold biz in H. destruct (e_storage e) as [l|] eqn:E; [|done].
  unfold total. rewrite (moves_storage _ _ _ _ _ _ _ Mv E), E. cbn [from_option id]. rewrite (Zsum_alter _ _ _ _ _ H). lia.
Qed.

Lemma biz_ok_same e e' b : same e e' -> biz_ok e b -> biz_ok e' b.
Proof. intros S []. split; try done. eapply in_group_kept; [done|by repeat split|done]. Qed.

(** ** Moves of an active business *)

(** The counters account for what the business did. *)
Definition balanced (D : Z -> delta) (b b' : tg_business) : Prop :=
  forall i, 0 <= i < count (b_plan b) ->
    d_started (D i) = 0 /\ d_done (D i) = inflight i b' - inflight i b /\ d_all (D i) = pending i b - pending i b'.

Lemma ledger_moves x b b' D (e e' : engine) p c i :
  moves x b b' D e e' -> in_group e b -> balanced D b b' -> is_step e p c i -> ledger_ok e p c i -> ledger_ok e' p c i.
Proof.
  intros Mv G Bal Hi [L1 L2 L3]. pose proof (mv_cells _ _ _ _ _ _ Mv p c i Hi) as Df.
  pose proof (mv_kept _ _ _ _ _ _ Mv) as (K1 & K2 & K3). pose proof (sa_admitted _ _ (mv_same _ _ _ _ _ _ Mv) p c) as Ad.
  assert (group_of b' p c = group_of b p c) as Gb by (unfold group_of; by rewrite K1, K2).
  pose proof (total_moves _ _ _ _ _ _ (in_ p c (inflight i)) Mv) as T1. pose proof (total_moves _ _ _ _ _ _ (in_ p c (pending i)) Mv) as T2.
  unfold in_ at 3 4 in T1. unfold in_ at 3 4 in T2. rewrite Gb in T1, T2. destruct Df as (D1 & D2 & D3).
  destruct (group_of b p c) eqn:Gr.
  - destruct (Bal i (group_step_of _ _ _ _ _ G Gr Hi)) as (B1 & B2 & B3). unfold shifted, M64 in *.
    rewrite B1 in D1. rewrite B2 in D2. rewrite B3 in D3. split; unfold M64; rewrite ?T1, ?T2, ?Ad; Z.to_euclidean_division_equations; lia.
  - unfold shifted, M64 in *. cbn in D1, D2, D3. split; unfold M64; rewrite ?T1, ?T2, ?Ad; Z.to_euclidean_division_equations; lia.
Qed.

(** The queue and the free list mention a business by two of its flags. *)
Lemma moves_flag x b b' D (e e' : engine) (q : tg_business -> bool) (l : list nat) :
  moves x b b' D e e' -> q b' = q b ->
  (forall y, y ∈ l <-> exists b, biz e y = Some b /\ q b = true) -> forall y, y ∈ l <-> exists b, biz e' y = Some b /\ q b = true.
Proof.
  intros Mv Hq H y. rewrite H. destruct (decide (y = x)) as [->|Hy].
  - rewrite (mv_before _ _ _ _ _ _ Mv), (mv_after _ _ _ _ _ _ Mv). split; intros (b0 & [= <-] & Hb); eexists; (split; [done|congruence]).
  - by rewrite (mv_others _ _ _ _ _ _ Mv).
Qed.
Lemma moves_idle_flag x b b' D (e e' : engine) (l : list nat) :
  moves x b b' D e e' -> b_active b' = b_active b ->
  (forall y, y ∈ l <-> exists b, biz e y = Some b /\ b_active b = false) -> forall y, y ∈ l <-> exists b, biz e' y = Some b /\ b_active b = false.
Proof.
  intros Mv Ha H. assert (forall e : engine, forall y, (exists b, biz e y = Some b /\ b_active b = false) <-> exists b, biz e y = Some b /\ negb (b_active b) = true) as E.
  { intros e0 y. setoid_rewrite negb_true_iff. done. }
  setoid_rewrite E. setoid_rewrite E in H. eapply moves_flag; [exact Mv|by rewrite Ha|done].
Qed.

(** A business may move at any time; outside its own turn it must then be
    queued or waiting. *)
Lemma engine_moves busy x b b' D (e e' : engine) :
  engine_ok busy e -> moves x b b' D e e' -> b_active b = true -> balanced D b b' -> b_active b' = true -> b_queued b' = b_queued b ->
  biz_ok e' b' -> (busy <> Some x -> queue_ok b') -> engine_ok busy e'.
Proof.
  intros [L St Ac Id [Fn Fr] [Rn Re] Qu Bu Le Tr Rs Sz] Mv Hba Bal Ha Hq Ok Qx. pose proof (mv_same _ _ _ _ _ _ Mv) as S.
  pose proof (mv_before _ _ _ _ _ _ Mv) as Hb. pose proof (mv_after _ _ _ _ _ _ Mv) as Hb'. pose proof (Ac _ _ Hb Hba) as Okb.
  assert (forall y b1, biz e' y = Some b1 -> y <> x -> biz e y = Some b1) as Ot by (intros y b1 Hy Hne; by rewrite (mv_others _ _ _ _ _ _ Mv) in Hy).
  split.
  - by eapply layout_same.
  - pose proof (mv_length _ _ _ _ _ _ Mv) as Hl. destruct (e_storage e), (e_storage e'); done.
  - intros y b1 Hy Hb1. destruct (decide (y = x)) as [->|Hne]; [rewrite Hb' in Hy; by injection Hy as <-|].
    eapply biz_ok_same; [done|]. by eapply Ac; [apply Ot|].
  - intros y b1 Hy Hb1. destruct (decide (y = x)) as [->|Hne]; [rewrite Hb' in Hy; injection Hy as <-; congruence|].
    eapply Id; [by apply Ot|done].
  - rewrite (sa_free _ _ S). split; [done|]. eapply moves_idle_flag; [done|congruence|done].
  - rewrite (sa_ready _ _ S). split; [done|]. eapply moves_flag; [done|congruence|done].
  - intros y b1 Hy Hb1 Hne. destruct (decide (y = x)) as [->|Hxy]; [rewrite Hb' in Hy; injection Hy as <-; by apply Qx|].
    eapply Qu; [by apply Ot|done|done].
  - intros y ->. destruct (Bu y eq_refl) as (b0 & H0 & Ha0 & Hq0). destruct (decide (y = x)) as [->|Hne].
    + rewrite Hb in H0. injection H0 as <-. exists b'. split_and!; [done|done|congruence].
    + exists b0. split_and!; try done. by rewrite (mv_others _ _ _ _ _ _ Mv).
  - intros p c i Hi. pose proof (proj1 (is_step_same _ _ _ _ _ S) Hi) as Hi'. eapply ledger_moves; try done; [apply Okb|by apply Le].
  - intros p c. rewrite (sa_admitted _ _ S), (sa_completed _ _ S), Tr, (total_moves _ _ _ _ _ _ _ Mv).
    destruct (mv_kept _ _ _ _ _ _ Mv) as (K1 & K2 & K3). unfold in_ at 3 4, group_of, alive. rewrite K1, K2, Ha, Hba. lia.
  - rewrite (sa_resources _ _ S), (total_moves _ _ _ _ _ _ _ Mv). unfold alive at 2 3. rewrite Ha, Hba. by rewrite Z.sub_add.
  - rewrite (total_moves _ _ _ _ _ _ _ Mv). lia.
Qed.

(** Its turn begins, and ends. *)
Lemma engine_busy x b (e : engine) : engine_ok None e -> biz e x = Some b -> b_active b = true -> b_queued b = false -> engine_ok (Some x) e.
Proof. intros [] H Ha Hq. split; try done; [intros; by eapply eo_queue0|]. intros y [= <-]. by exists b. Qed.
Lemma engine_settle x b (e : engine) : engine_ok (Some x) e -> biz e x = Some b -> queue_ok b -> engine_ok None e.
Proof.
  intros [] H Q. split; try done. intros y b1 Hy Hb1 _. destruct (decide (y = x)) as [->|Hne]; [congruence|].
  eapply eo_queue0; [done|done|congruence].
Qed.

(** Nothing of the storage or the table changes. *)
Lemma engine_outside busy (e e' : engine) :
  engine_ok busy e -> same e e' -> e_storage e' = e_storage e -> e_steps e' = e_steps e -> engine_ok busy e'.
Proof.
  intros [] S Es Et. assert (forall x, biz e' x = biz e x) as Eb by (intros; unfold biz; by rewrite Es).
  assert (forall f, total e' f = total e f) as Ef by (intros; unfold total; by rewrite Es).
  split; try setoid_rewrite Eb; try done.
  - by eapply layout_same.
  - by rewrite Es.
  - intros x b Hb Ha. eapply biz_ok_same; [done|by eapply eo_active0].
  - by rewrite (sa_free _ _ S).
  - by rewrite (sa_ready _ _ S).
  - intros p c i Hi. pose proof (proj1 (is_step_same _ _ _ _ _ S) Hi) as Hi'. destruct (eo_ledger0 _ _ _ Hi').
    assert (cell e' p c i = cell e p c i) as Ec by (unfold cell, step_index; by rewrite Et, (sa_offsets _ _ S), (sa_count _ _ S)).
    split; rewrite ?Ec, ?Ef, ?(sa_admitted _ _ S); done.
  - intros p c. by rewrite (sa_admitted _ _ S), (sa_completed _ _ S), Ef.
  - by rewrite Ef, (sa_resources _ _ S).
  - by rewrite Ef.
Qed.

(** The flags a queue entry does not depend on. *)
Lemma total_upd (e : engine) x b g f : biz e x = Some b -> total (upd x g e) f = total e f - f b + f (g b).
Proof.
  unfold biz, total, upd. destruct (e_storage e); [|done]. intros H. cbn [e_storage with_e_storage option_map from_option id].
  rewrite (Zsum_alter _ _ _ _ _ H). lia.
Qed.

(** A business enters or leaves the queue. *)
Lemma engine_requeue busy busy' x b q l (e : engine) :
  engine_ok busy e -> biz e x = Some b -> b_active b = true -> (busy = None \/ busy = Some x) ->
  NoDup l -> (forall y, y ∈ l <-> if decide (y = x) then q = true else y ∈ e_ready e) ->
  (busy' = Some x /\ q = false \/ busy' = None /\ queue_ok (with_b_queued q b)) ->
  engine_ok busy' (with_e_ready l (upd x (with_b_queued q) e)).
Proof.
  intros [L St Ac Id [Fn Fr] [Rn Re] Qu Bu Le Tr Rs Sz] H Ha Hbusy Nl Hl Hq. set (e' := with_e_ready _ _).
  assert (forall y, biz e' y = if decide (y = x) then Some (with_b_queued q b) else biz e y) as Eb.
  { intros y. change (biz e' y) with (biz (upd x (with_b_queued q) e) y). rewrite biz_upd. case_decide as E; [by rewrite E, H|done]. }
  assert (forall f, (f (with_b_queued q b) = f b) -> total e' f = total e f) as Ef.
  { intros f Hf. change (total e' f) with (total (upd x (with_b_queued q) e) f). rewrite (total_upd _ _ b) by done. rewrite Hf. lia. }
  pose proof (Ac _ _ H Ha) as Okx. split.
  - by destruct L.
  - unfold e', upd. cbn. by destruct (e_storage e).
  - intros y b1. rewrite Eb. case_decide; [|intros Hy Hb1; destruct (Ac _ _ Hy Hb1); by split]. intros [= <-] _. destruct Okx. by split.
  - intros y b1. rewrite Eb. case_decide; [intros [= <-]; cbn; congruence|by apply Id].
  - split; [done|]. intros y. change (e_free e') with (e_free e). rewrite Fr, Eb. case_decide as E; [|done]. subst.
    rewrite H. split; intros (b1 & [= <-] & Hb1); eexists; (split; [done|cbn in *; congruence]).
  - split; [done|]. intros y. change (e_ready e') with l. rewrite Hl, Eb. case_decide; [|apply Re].
    split; [intros ->; by eexists|by intros (b1 & [= <-] & ?)].
  - intros y b1. rewrite Eb. case_decide as E.
    + intros [= <-] _ Hy. destruct Hq as [[-> _]|[_ Hq]]; [congruence|done].
    + intros Hy Hb1 _. apply (Qu _ _ Hy Hb1). destruct Hbusy as [->| ->]; congruence.
  - intros y Hy. destruct Hq as [[-> ->]|[-> _]]; [|done]. injection Hy as <-. exists (with_b_queued false b). by rewrite Eb, decide_True by done.
  - intros p c i Hi. destruct (Le p c i Hi). change (cell e' p c i) with (cell e p c i). change (admissions e' p c) with (admissions e p c).
    split; rewrite ?Ef; done.
  - intros p c. change (admissions e' p c) with (admissions e p c). change (completions e' p c) with (completions e p c). by rewrite Ef.
  - rewrite Ef by done. exact Rs.
  - by rewrite Ef.
Qed.

Lemma engine_enqueue x b (e : engine) :
  engine_ok (Some x) e -> biz e x = Some b -> b_timed_out b = true \/ (b_waiting b = false /\ b_wake b = None) -> engine_ok None (enqueue x e).
Proof.
  intros Ok H Hw. destruct (eo_busy _ _ Ok x eq_refl) as (b0 & H0 & Ha & Hq). rewrite H in H0. injection H0 as <-.
  unfold enqueue. rewrite H, Ha, Hq. cbn [negb orb]. destruct (eo_ready _ _ Ok) as [Rn Re].
  assert (x ∉ e_ready e) as Hx by (rewrite Re; intros (b1 & Hb1 & ?); congruence).
  eapply engine_requeue; [done|done|done|by right| | |right; split; [done|split; cbn; [done|auto]]].
  - apply NoDup_app. split_and!; [done| |apply NoDup_singleton]. intros y Hy ->%list_elem_of_singleton. done.
  - intros y. change (e_ready (upd x (with_b_queued true) e)) with (e_ready e). rewrite elem_of_app, list_elem_of_singleton.
    case_decide; [intuition|]. split; [by intros [?|?]|by left].
Qed.

(** The head of the queue begins its turn. *)
Lemma engine_turn x rest (e : engine) :
  engine_ok None e -> e_ready e = x :: rest ->
  exists b, biz (upd x (with_b_queued false) (with_e_ready rest e)) x = Some b /\
    engine_ok (Some x) (upd x (with_b_queued false) (with_e_ready rest e)) /\
    b_active b = true /\ b_queued b = false /\ (b_timed_out b = true \/ (b_waiting b = false /\ b_wake b = None)).
Proof.
  intros Ok Hr. destruct (eo_ready _ _ Ok) as [Rn Re]. rewrite Hr in Rn, Re. apply NoDup_cons in Rn as [Nx Rn].
  destruct (proj1 (Re x) ltac:(by left)) as (b & H & Hq). assert (b_active b = true) as Ha.
  { destruct (b_active b) eqn:E; [done|]. destruct (eo_idle _ _ Ok _ _ H E). congruence. }
  exists (with_b_queued false b). split_and!; [|apply (engine_requeue None (Some x) x b false rest e)|done..|].
  - rewrite biz_upd, decide_True by done. change (biz (with_e_ready rest e) x) with (biz e x). by rewrite H.
  - done.
  - done.
  - done.
  - by left.
  - done.
  - intros y. case_decide as E; [by subst|]. rewrite Hr, elem_of_cons. split; [by right|by intros [?|?]].
  - by left.
  - apply (eo_queue _ _ Ok _ _ H Ha ltac:(done)). done.
Qed.

(** ** Completion *)

Definition dead (b : tg_business) : tg_business := with_b_wake None (with_b_timeout None (with_b_active false b)).
Definition unreached (b : tg_business) (i : Z) : delta := if touched b i then d_zero else one_all.

(** [e'] is [e] with business [x] of [b], dead, on the free list, and one more
    completion of its group. *)
Record freed (x : nat) (b : tg_business) (e e' : engine) : Prop := {
  fr_storage : e_storage e' = e_storage e;
  fr_steps : e_steps e' = e_steps e;
  fr_plans : e_plans e' = e_plans e /\ e_phase_count e' = e_phase_count e /\ e_offsets e' = e_offsets e /\ e_step_count e' = e_step_count e;
  fr_ready : e_ready e' = e_ready e;
  fr_free : e_free e' = x :: e_free e;
  fr_resources : e_resources e' = resource_release 1 (e_resources e);
  fr_note : exists r reason tx rx, e_notes e' = e_notes e ++ [BusinessFinished (b_class b) (b_phase b) r reason tx rx]
}.

Lemma finish_moves now x b ok (e : engine) :
  biz e x = Some b -> layout e -> in_group e b -> exists e3, moves x b (dead b) (unreached b) e e3 /\ freed x b e3 (finish now x ok e).
Proof.
  intros H L G. unfold finish. rewrite H. set (e1 := upd x _ e). set (e2 := if b_waiting b then _ else _).
  assert (moves x b (dead b) (fun _ => d_zero) e e1) as M1 by (apply moves_upd; [done|by repeat split]).
  assert (moves x (dead b) (dead b) (fun _ => d_zero) e1 e2) as M2.
  { assert (biz e1 x = Some (dead b)) as H1 by apply M1. subst e2. destruct (b_waiting b); [|by apply moves_refl].
    destruct (tg_flow_map_lookup _ _); [|by apply moves_refl]. by apply moves_outside. }
  pose proof (moves_trans _ _ _ _ _ _ _ _ _ M1 M2) as M12.
  assert (layout e2) as L2 by (eapply layout_same; [apply M12|done]).
  assert (in_group e2 (dead b)) as G2 by (eapply in_group_kept; [apply M12|apply M12|done]).
  pose proof (not_reached_moves x (seqZ 0 (count (b_plan b))) b (dead b) e2 (mv_after _ _ _ _ _ _ M12) L2 G2
                ltac:(by repeat split) (NoDup_seqZ _ _) ltac:(apply Forall_forall; intros i; rewrite elem_of_seqZ; change (b_plan (dead b)) with (b_plan b); lia)) as M3.
  pose proof (moves_trans _ _ _ _ _ _ _ _ _ M12 M3) as M. eexists. split.
  - eapply moves_delta; [exact M| |].
    + intros i Hi. cbn. rewrite decide_True by (apply elem_of_seqZ; lia). unfold unreached, touched. by destruct (Z.testbit _ i).
    + intros c p i. by apply group_step_of.
  - split; try done. by eexists _, _, _, _.
Qed.

Lemma total_freed x b (e e' : engine) f : freed x b e e' -> total e' f = total e f.
Proof. intros []. unfold total. by rewrite fr_storage0. Qed.

(** What a business did since its turn began, up to its completion. *)
Definition closing (D : Z -> delta) (b0 b : tg_business) : Prop :=
  forall i, 0 <= i < count (b_plan b0) ->
    d_started (D i) = 0 /\ d_done (D i) = - inflight i b0 /\ d_all (D i) + b2z (negb (touched b i)) = pending i b0.

Lemma engine_finish now x b0 b D ok (e0 e : engine) :
  engine_ok (Some x) e0 -> biz e0 x = Some b0 -> moves x b0 b D e0 e -> closing D b0 b -> b_active b = true -> b_queued b = false ->
  engine_ok None (finish now x ok e).
Proof.
  intros Ok H0 M0 Cl Ha Hq. destruct Ok as [L St Ac Id [Fn Fr] [Rn Re] Qu Bu Le Tr Rs Sz].
  destruct (Bu x eq_refl) as (b1 & H1 & Ha0 & Hq0). rewrite H0 in H1. injection H1 as <-. pose proof (Ac _ _ H0 Ha0) as Ok0.
  assert (layout e) as Le' by (eapply layout_same; [apply M0|done]).
  assert (in_group e b) as Ge by (eapply in_group_kept; [apply M0|apply M0|apply Ok0]).
  destruct (finish_moves now x b ok e (mv_after _ _ _ _ _ _ M0) Le' Ge) as (e3 & M3 & F).
  pose proof (moves_trans _ _ _ _ _ _ _ _ _ M0 M3) as M. set (e' := finish now x ok e) in *. pose proof (mv_same _ _ _ _ _ _ M) as S.
  assert (balanced (fun i => d_add (D i) (unreached b i)) b0 (dead b)) as Bal.
  { intros i Hi. destruct (Cl i Hi) as (C1 & C2 & C3). unfold unreached, inflight, pending in *. cbn. rewrite C1, C2.
    destruct (touched b i); cbn in *; split_and!; try lia. all: rewrite <- C3; cbn; lia. }
  assert (forall y, biz e' y = biz e3 y) as Eb by (intros y; unfold biz; by rewrite (fr_storage _ _ _ _ F)).
  assert (forall y b1, biz e' y = Some b1 -> y <> x -> biz e0 y = Some b1) as Ot.
  { intros y b1 Hy Hne. rewrite Eb in Hy. by rewrite (mv_others _ _ _ _ _ _ M) in Hy. }
  assert (biz e' x = Some (dead b)) as Hx by (rewrite Eb; apply M).
  assert (forall f, total e' f = total e0 f - f b0 + f (dead b)) as Et.
  { intros f. rewrite (total_freed _ _ _ _ _ F). by apply (total_moves _ _ _ _ _ _ _ M). }
  destruct (fr_plans _ _ _ _ F) as (P1 & P2 & P3 & P4). destruct (fr_note _ _ _ _ F) as (r & reason & tx & rx & N).
  assert (forall b1, biz_ok e0 b1 -> biz_ok e' b1) as Okm.
  { intros b1 []. split; try done. destruct S. unfold in_group in *. by rewrite P1, P2, sa_plans, sa_phases. }
  assert (forall p c, admissions e' p c = admissions e0 p c) as Ea.
  { intros p c. rewrite <- (sa_admitted _ _ S). unfold admissions. rewrite N, map_app, Zsum_app. cbn. lia. }
  assert (forall p c, completions e' p c = completions e0 p c + b2z (group_of b0 p c)) as Ec.
  { intros p c. rewrite <- (sa_completed _ _ S). unfold completions. rewrite N, map_app, Zsum_app. cbn.
    destruct (mv_kept _ _ _ _ _ _ M0) as (K1 & K2 & K3). unfold group_of. rewrite K1, K2. lia. }
  split.
  - destruct (layout_same _ _ S L). split; rewrite ?P1, ?P2, ?P3, ?P4, ?(fr_steps _ _ _ _ F); done.
  - rewrite (fr_storage _ _ _ _ F). pose proof (mv_length _ _ _ _ _ _ M) as Hl. destruct (e_storage e0), (e_storage e3); done.
  - intros y b1 Hy Hb1. destruct (decide (y = x)) as [->|Hne]; [rewrite Hx in Hy; by injection Hy as <-|]. apply Okm. by eapply Ac; [apply Ot|].
  - intros y b1 Hy Hb1. destruct (decide (y = x)) as [->|Hne]; [rewrite Hx in Hy; by injection Hy as <-|]. eapply Id; [by apply Ot|done].
  - rewrite (fr_free _ _ _ _ F), (sa_free _ _ S). assert (x ∉ e_free e0) as Hn by (rewrite Fr; intros (b1 & Hb1 & ?); congruence).
    split; [by constructor|]. intros y. rewrite elem_of_cons, Fr. destruct (decide (y = x)) as [->|Hne].
    + rewrite Hx. split; [intros _; by eexists|by left].
    + rewrite Eb, (mv_others _ _ _ _ _ _ M) by done. split; [by intros [?|?]|by right].
  - rewrite (fr_ready _ _ _ _ F), (sa_ready _ _ S). split; [done|]. intros y. rewrite Re. destruct (decide (y = x)) as [->|Hne].
    + rewrite Hx, H0. split; intros (b1 & [= <-] & Hb1); cbn in *; congruence.
    + by rewrite Eb, (mv_others _ _ _ _ _ _ M).
  - intros y b1 Hy Hb1 _. destruct (decide (y = x)) as [->|Hne]; [rewrite Hx in Hy; by injection Hy as <-|]. eapply Qu; [by apply Ot|done|congruence].
  - done.
  - intros p c i Hi. assert (is_step e3 p c i) as Hi3 by (unfold is_step in *; by rewrite <- P1, <- P2).
    pose proof (proj1 (is_step_same _ _ _ _ _ S) Hi3) as Hi0.
    destruct (ledger_moves _ _ _ _ _ _ _ _ _ M (bo_group _ _ Ok0) Bal Hi0 (Le _ _ _ Hi0)) as [L1 L2 L3].
    assert (cell e' p c i = cell e3 p c i) as Ecell by (unfold cell, step_index; by rewrite (fr_steps _ _ _ _ F), P3, P4).
    split; rewrite ?Ecell, ?(total_freed _ _ _ _ _ F), ?Ea, <- ?(sa_admitted _ _ S); done.
  - intros p c. rewrite Ea, Ec, Et. specialize (Tr p c). destruct (mv_kept _ _ _ _ _ _ M0) as (K1 & K2 & K3).
    assert (group_of b p c = group_of b0 p c) as Gb by (unfold group_of; by rewrite K1, K2).
    assert (in_ p c alive b0 = b2z (group_of b0 p c)) as -> by (unfold in_, alive; rewrite Ha0; by destruct (group_of b0 p c)).
    assert (in_ p c alive (dead b) = 0) as -> by (unfold in_, alive; by destruct (group_of (dead b) p c)). lia.
  - rewrite (fr_resources _ _ _ _ F), (sa_resources _ _ S), Et.
    assert (alive b0 = 1) as -> by (unfold alive; by rewrite Ha0). change (alive (dead b)) with 0. rewrite Z.add_0_r.
    apply release_counts; [done|]. assert (total e0 alive <= total e0 (fun _ => 1)) as Hle.
    { unfold total. induction (default [] (e_storage e0)) as [|a l IH]; [done|]. cbn. unfold Zsum, alive, b2z in *. cbn. case_match; lia. }
    split; [|lia]. unfold total, biz in *. destruct (e_storage e0) as [l|]; [|done]. cbn in *.
    assert (forall l y, l !! y = Some b0 -> 0 < Zsum (map alive l)) as Hpos; [|by eapply Hpos].
    clear -Ha0. induction l as [|a l IH]; intros [|y]; cbn; try done.
    + intros [= ->]. assert (0 <= Zsum (map alive l)). { apply Zsum_nonneg, Forall_forall. intros z (a & -> & _)%list_elem_of_fmap. unfold alive, b2z. case_match; lia. }
      unfold Zsum, alive, b2z in *. cbn. rewrite Ha0. lia.
    + intros ?%IH. unfold Zsum, alive, b2z in *. cbn. case_match; lia.
  - rewrite Et. lia.
Qed.
End Inv.
