(* ===== verification/WorkflowSteps.v ===== *)
(** * Workflow execution: every operation keeps the invariant

    The moves a turn is made of, each an extension of the turn so far; then
    the branches of a turn, the callbacks, and the start of a business. *)

From stdpp Require Import gmap strings.
From S2P Require Import Prelude Config Latency Scheduler Txn OwnerTimer TcpTcb Json WorkflowPlan WorkflowPlanFacts Dns Http ConnPool Flow Workflow WorkflowFacts WorkflowInv.

Section Steps.
Context {Ctx : Type} (proto : tg_proto_ops exchange_config Ctx).
Context (finite : list Z -> bool) (order : list Z -> list Z -> Z) (inet_pton : list Z -> option Z).
Local Abbreviation engine := (tg_workflow_engine (Ctx := Ctx)).

(** ** Extending a turn *)

Section Turn.
Context (x : nat) (b0 : tg_business) (e0 : engine) (L0 : layout e0) (G0 : in_group e0 b0).
Local Abbreviation turn b D e := (moves x b0 b D e0 e).

Lemma turn_layout b D e : turn b D e -> layout e.
Proof using L0. intros M. eapply layout_same; [apply M|done]. Qed.
Lemma turn_group b D e : turn b D e -> in_group e b.
Proof using G0. intros M. eapply in_group_kept; [apply M|apply M|done]. Qed.
Lemma turn_plan b D e : turn b D e -> b_plan b = b_plan b0.
Proof using. intros M. apply (mv_kept _ _ _ _ _ _ M). Qed.

Lemma turn_start : biz e0 x = Some b0 -> turn b0 (fun _ => d_zero) e0.
Proof using. apply moves_refl. Qed.
Lemma turn_upd b D e g : turn b D e -> kept b (g b) -> turn (g b) (fun i => d_add (D i) d_zero) (upd x g e).
Proof using. intros M K. eapply moves_trans; [exact M|]. apply moves_upd; [apply M|done]. Qed.
Lemma turn_outside b D e e' :
  turn b D e -> e_storage e' = e_storage e -> e_steps e' = e_steps e -> same e e' -> turn b (fun i => d_add (D i) d_zero) e'.
Proof using. intros M E1 E2 S. eapply moves_trans; [exact M|]. apply moves_outside; [apply M|done..]. Qed.
Lemma turn_stats b D e g d j :
  turn b D e -> 0 <= j < count (b_plan b0) -> (forall n, differ d n (g n)) ->
  turn b (fun i => d_add (D i) (if decide (i = j) then d else d_zero)) (step_stats b j g e).
Proof using L0 G0.
  intros M Hj Hd. eapply moves_trans; [exact M|]. apply moves_step_stats; [apply M|by eapply turn_layout| |done].
  apply group_step; [by eapply turn_group|]. by rewrite (turn_plan _ _ _ M).
Qed.
Lemma turn_record b D e now ok sf :
  turn b D e -> 0 <= b_step b < count (b_plan b0) ->
  turn b (fun i => d_add (D i) (if decide (i = b_step b) then mk_delta (- b2z sf) (-1) 0 else d_zero)) (record_step now x ok sf e).
Proof using L0 G0.
  intros M Hj. eapply moves_trans; [exact M|]. apply moves_record; [apply M|by eapply turn_layout|].
  apply group_step; [by eapply turn_group|]. by rewrite (turn_plan _ _ _ M).
Qed.
Lemma turn_advance b D e next :
  turn b D e -> 0 <= b_step b < next -> next <= count (b_plan b0) ->
  exists v, turn (with_b_step next (with_b_skipped v b))
      (fun i => d_add (D i) (if decide (b_step b < i < next) then one_all else d_zero)) (advance x next e) /\
    forall i, 0 <= i -> Z.testbit v i = Z.testbit (b_skipped b) i || bool_decide (b_step b < i < next).
Proof using L0 G0.
  intros M Hs Hn. pose proof (mv_after _ _ _ _ _ _ M) as H. unfold advance. rewrite H.
  assert (forall i, i ∈ seqZ (b_step b + 1) (next - (b_step b + 1)) <-> b_step b < i < next) as E.
  { intros i. rewrite elem_of_seqZ. lia. }
  destruct (skip_steps_moves x (seqZ (b_step b + 1) (next - (b_step b + 1))) b e H (turn_layout _ _ _ M) (turn_group _ _ _ M)
              (NoDup_seqZ _ _)) as (v & M1 & Hv).
  { apply Forall_forall. intros i ?%E. rewrite (turn_plan _ _ _ M). lia. }
  exists v. split.
  - pose proof (moves_upd x _ (with_b_step next) _ (mv_after _ _ _ _ _ _ M1) ltac:(by repeat split)) as M2.
    pose proof (moves_trans _ _ _ _ _ _ _ _ _ M (moves_trans _ _ _ _ _ _ _ _ _ M1 M2)) as M'.
    eapply moves_delta; [exact M'| |].
    + intros i _. cbn beta. destruct (decide (b_step b < i < next)) as [Hi|Hi].
      * rewrite decide_True by by apply E. done.
      * rewrite decide_False by by rewrite E. done.
    + intros c p i. by apply group_step_of.
  - intros i Hi. rewrite Hv by done. f_equal. apply bool_decide_ext, E.
Qed.
End Turn.

(** ** Sending a request *)

(** Only sockets, flows and the trace change. *)
Definition aside (e e' : engine) : Prop := e_storage e' = e_storage e /\ e_steps e' = e_steps e /\ same e e'.
Lemma aside_refl e : aside e e.
Proof using. by repeat split. Qed.
Lemma aside_shard s e : aside e (with_e_shard s e).
Proof using. by repeat split. Qed.
Lemma aside_say n e : (forall p c, admits p c n = 0 /\ completes p c n = 0) -> aside e (say n e).
Proof using. intros. split_and!; [done..|by apply same_say]. Qed.
Lemma aside_trans a b c : aside a b -> aside b c -> aside a c.
Proof using. intros (E1 & E2 & S) (E3 & E4 & S'). split_and!; [congruence..|by eapply same_trans]. Qed.
Hint Resolve aside_refl aside_shard : core.

Lemma exchange_aside io b st e r e' : exchange proto finite inet_pton io b st e = (r, e') -> aside e e'.
Proof using.
  unfold exchange. destruct (prepare _ _ b st) as [err|[[h keep] q]]; [by intros [= <- <-]|].
  destruct (reuse _ _ _ _ _ _ _) as [[err|[f|]] s1]; [by intros [= <- <-]| |].
  - destruct (set_deadline _ _ _ _ _ _ _) as [r' s2]. intros [= <- <-]. eapply aside_trans; [apply aside_shard|by apply aside_say].
  - destruct (fresh_flow _ _ _ _ _ _) as [[err|f] s2]; [by intros [= <- <-]|].
    destruct (set_deadline _ _ _ _ _ _ _) as [r' s3]. by intros [= <- <-].
Qed.
Lemma network_turn io x st b0 b D (e0 e : engine) :
  moves x b0 b D e0 e ->
  (exists err e1, network proto finite inet_pton io x st e = (Some err, e1) /\ moves x b0 b (fun i => d_add (D i) d_zero) e0 e1) \/
  (exists h e1, network proto finite inet_pton io x st e = (None, e1) /\
     moves x b0 (with_b_waiting true (with_b_handle h b)) (fun i => d_add (d_add (D i) d_zero) d_zero) e0 e1).
Proof using.
  intros M. unfold network. rewrite (mv_after _ _ _ _ _ _ M). destruct (exchange _ _ _ io b st e) as [[err|h] e1] eqn:E;
    apply exchange_aside in E as (E1 & E2 & S); pose proof (turn_outside _ _ _ _ _ _ _ M E1 E2 S) as M1.
  - left. by exists err, e1.
  - right. eexists h, _. split; [done|]. apply (turn_upd x b0 e0 b _ e1 (fun b => with_b_waiting true (with_b_handle h b))); [done|by repeat split].
Qed.

(** ** Going on to a later step *)

(** When the current step is accounted for, the ones up to the next are
    skipped. *)
Lemma advance_ok x b (e : engine) (L : layout e) (Okb : biz_ok e b) (Ha : b_active b = true) b1 D e1 next :
  moves x b b1 D e e1 -> balanced D b b1 -> b_step b1 = b_step b -> b_step b < next <= count (b_plan b) -> held b1 = false ->
  (forall i, 0 <= i < count (b_plan b) -> touched b1 i = (i <? b_step b) || (i =? b_step b)) ->
  b_active b1 = true -> b_wake b1 = None -> (b_timed_out b1 = false -> b_timeout b1 <> None) ->
  exists b2 D2, moves x b b2 D2 e (advance x next e1) /\ balanced D2 b b2 /\ biz_ok (advance x next e1) b2 /\
    held b2 = false /\ b_active b2 = true /\ b_queued b2 = b_queued b1 /\ b_wake b2 = None.
Proof using.
  intros M Bal Hs Hn Hh Ht Ha1 Hw Htm. destruct Okb as [G P S B Hd One Wk Tm].
  destruct (turn_advance _ _ _ L G b1 D e1 next M ltac:(lia) ltac:(lia)) as (v & M1 & Hv).
  pose proof (turn_plan _ _ _ _ _ _ M) as Hp. set (b2 := with_b_step next (with_b_skipped v b1)) in *.
  assert (b_waiting b1 = false /\ b_thinking b1 = false /\ b_failed b1 = false) as (W1 & W2 & W3).
  { unfold held in Hh. by destruct (b_waiting b1), (b_thinking b1), (b_failed b1). }
  assert (forall i, 0 <= i < count (b_plan b) -> touched b2 i = touched b1 i || bool_decide (b_step b < i < next)) as Ht2.
  { intros i Hi. unfold touched. cbn. rewrite !Z.lor_spec, Hv, Hs by lia. by rewrite orb_assoc. }
  eexists b2, _. split_and!; [exact M1| | | |done..].
  - intros i Hi. destruct (Bal i Hi) as (B1 & B2 & B3). cbn. rewrite B1, B2, B3, Hs. unfold inflight, pending.
    rewrite Ht2, Ht by done. cbn. rewrite Ha1, W1, W2. cbn.
    repeat case_decide; repeat case_bool_decide; destruct (Z.ltb_spec i (b_step b)), (Z.eqb_spec i (b_step b)); cbn; lia.
  - split; cbn; rewrite ?Hp; try done.
    + exact (turn_group _ _ _ G _ _ _ M1).
    + lia.
    + intros i Hi. rewrite Ht2, Ht by done. unfold held. cbn. rewrite W1, W2, W3, andb_false_r, orb_false_r.
      case_bool_decide; destruct (Z.ltb_spec i (b_step b)), (Z.eqb_spec i (b_step b)), (Z.ltb_spec i next); cbn; done || lia.
    + unfold held. cbn. by rewrite W1, W2, W3.
    + rewrite W1, W2, W3. cbn. lia.
  - unfold held. cbn. by rewrite W1, W2, W3.
Qed.

(** ** The branches of a turn *)

Ltac account Bits :=
  intros i Hi; generalize (Bits i Hi); unfold inflight, pending, touched, held in *; cbn in *;
  rewrite ?Z.lor_spec, ?testbit_add by lia; cbn;
  repeat (case_decide || case_bool_decide ||
          match goal with
          | |- context [?a =? ?b] => destruct (Z.eqb_spec a b)
          | |- context [?a <? ?b] => destruct (Z.ltb_spec a b)
          | |- context [Z.testbit ?a ?b] => destruct (Z.testbit a b)
          end);
  cbn; try discriminate; intros; split_and?; lia.

Section Turns.
Context (io : wf_io) (x : nat) (b : tg_business) (e : engine).
Context (Ok : engine_ok (Some x) e) (H : biz e x = Some b).

Lemma turn_active : b_active b = true /\ b_queued b = false.
Proof using Ok H. destruct (eo_busy _ _ Ok x eq_refl) as (b1 & H1 & ?). rewrite H in H1. by injection H1 as <-. Qed.
Lemma turn_ok : biz_ok e b.
Proof using Ok H. eapply eo_active; [done|done|apply turn_active]. Qed.

(** It ends without an outcome of the current step. *)
Lemma turn_end now ok : b_waiting b = false -> b_thinking b = false -> engine_ok None (finish now x ok e).
Proof using Ok H.
  intros W T. destruct turn_active as [Ha Hq]. eapply engine_finish; [done|done|by apply moves_refl| |done|done].
  intros i Hi. unfold inflight, pending. rewrite W, T, Ha. cbn. destruct (touched b i); done.
Qed.

(** Its timeout: the step under way has failed. *)
Lemma turn_late t1 t2 r reason :
  engine_ok None (finish t2 x false (upd x (fun b => with_b_reason reason (with_b_failure r b))
    (if (b_waiting b || b_thinking b) && (b_step b <? count (b_plan b)) then record_step t1 x false false e else e))).
Proof using Ok H.
  destruct turn_active as [Ha Hq], turn_ok as [G P S B Hd One Wk Tm]. pose proof (eo_layout _ _ Ok) as L.
  pose proof (turn_start x b e H) as M. destruct (b_waiting b || b_thinking b) eqn:U; cbn [andb].
  - assert (held b = true) as Hh by (unfold held; by rewrite U). specialize (Hd Hh). rewrite (proj2 (Z.ltb_lt _ _)) by done.
    pose proof (turn_record _ _ _ L G _ _ _ t1 false false M ltac:(lia)) as M1.
    pose proof (turn_upd _ _ _ _ _ _ (fun b => with_b_reason reason (with_b_failure r b)) M1 ltac:(by repeat split)) as M2.
    eapply engine_finish; [done|done|exact M2| |done|done]. rewrite Hh in B. unfold closing, inflight, pending. cbn. rewrite Ha, U. account B.
  - apply orb_false_iff in U as [U1 U2].
    pose proof (turn_upd _ _ _ _ _ _ (fun b => with_b_reason reason (with_b_failure r b)) M ltac:(by repeat split)) as M2.
    eapply engine_finish; [done|done|exact M2| |done|done].
    unfold closing, inflight, pending. cbn. rewrite Ha, U1, U2. account B.
Qed.

(** It goes on to a later step. *)
Lemma turn_next b1 D e1 next :
  moves x b b1 D e e1 -> balanced D b b1 -> b_step b1 = b_step b -> b_step b < next <= count (b_plan b) -> held b1 = false ->
  (forall i, 0 <= i < count (b_plan b) -> touched b1 i = (i <? b_step b) || (i =? b_step b)) ->
  b_active b1 = true -> b_queued b1 = false -> b_wake b1 = None -> (b_timed_out b1 = false -> b_timeout b1 <> None) ->
  engine_ok None (enqueue x (advance x next e1)).
Proof using Ok H.
  intros M Bal Hs Hn Hh Ht Ha1 Hq1 Hw Htm. destruct turn_active as [Ha Hq].
  destruct (advance_ok x b e (eo_layout _ _ Ok) turn_ok Ha b1 D e1 next) as (b2 & D2 & M2 & Bal2 & Okb & Hh2 & Ha2 & Hq2 & Hw2); try done.
  eapply engine_enqueue; [|exact (mv_after _ _ _ _ _ _ M2)|].
  - eapply engine_moves; [done|exact M2|done|done|by rewrite Ha2|by rewrite Hq2, Hq|done|done].
  - right. rewrite Hw2. split; [|done]. unfold held in Hh2. by destruct (b_waiting b2).
Qed.

Context (st : tg_step_plan) (Hst : wp_steps (b_plan b) !! Z.to_nat (b_step b) = Some st).

Lemma turn_step : 0 <= b_step b < count (b_plan b) /\ step_ok (count (b_plan b)) (b_step b) st.
Proof using Ok H Hst.
  destruct turn_ok as [G [P _] S B Hd One Wk Tm]. pose proof (lookup_lt_Some _ _ _ Hst) as Hl.
  assert (b_step b < count (b_plan b)) by (unfold count, zlen; lia). split; [lia|]. specialize (P _ _ Hst). by rewrite Z2Nat.id in P by lia.
Qed.

(** Its think time is over. *)
Lemma turn_woken now :
  b_thinking b = true -> b_wake b = None ->
  engine_ok None (enqueue x (advance x (st_next st) (record_step now x true false (upd x (with_b_thinking false) e)))).
Proof using Ok H Hst.
  intros T Wn. destruct turn_active as [Ha Hq], turn_ok as [G P S B Hd One Wk Tm], turn_step as [Hs [So _ _ _]]. pose proof (eo_layout _ _ Ok) as L.
  assert (b_waiting b = false /\ b_failed b = false) as [W1 W2].
  { rewrite T in One. by destruct (b_waiting b), (b_failed b); cbn in One; try lia. }
  assert (held b = true) as Hh by (unfold held; by rewrite T, W1). rewrite Hh in B.
  pose proof (turn_upd _ _ _ _ _ _ (with_b_thinking false) (turn_start x b e H) ltac:(by repeat split)) as M.
  pose proof (turn_record _ _ _ L G _ _ _ now true false M Hs) as M1.
  eapply turn_next; [exact M1| |done|lia| | |done|done|done|done].
  - unfold balanced, inflight, pending. cbn. rewrite Ha, T, W1. account B.
  - unfold held. cbn. by rewrite W1, W2.
  - intros i Hi. change (touched (with_b_thinking false b) i) with (touched b i). by rewrite B, andb_true_r.
Qed.

(** *** A step is entered *)

Context (Hfree : held b = false) (Htime : b_timed_out b = false).
Definition entered : tg_business := with_b_visited (Z.lor (b_visited b) (Z.shiftl 1 (b_step b))) (with_b_step_start (w_step io) b).
Definition entering : engine := step_stats entered (b_step entered) inc_reached (upd x (fun _ => entered) e).
Definition reached_once (i : Z) : delta := d_add (d_add d_zero d_zero) (if decide (i = b_step b) then mk_delta 1 1 1 else d_zero).

Lemma enter_moves : moves x b entered reached_once e entering.
Proof using Ok H Hst.
  destruct turn_ok as [G P S B Hd One Wk Tm], turn_step as [Hs _]. pose proof (eo_layout _ _ Ok) as L.
  exact (turn_stats _ _ _ L G _ _ _ inc_reached _ (b_step b)
    (turn_upd _ _ _ _ _ _ (fun _ => entered) (turn_start x b e H) ltac:(by repeat split)) Hs differ_reached).
Qed.
Lemma enter_flags : b_waiting b = false /\ b_thinking b = false /\ b_failed b = false /\ b_wake b = None /\ b_timeout b <> None.
Proof using Ok H Hfree Htime.
  destruct turn_ok as [G P S B Hd One Wk Tm]. unfold held in Hfree.
  destruct (b_waiting b), (b_thinking b), (b_failed b); try done. split_and!; try done; [|by apply Tm].
  destruct (b_wake b) eqn:E; [|done]. by specialize (Wk ltac:(done)).
Qed.
Lemma enter_bits i : 0 <= i < count (b_plan b) -> touched b i = (i <? b_step b) /\ touched entered i = (i <? b_step b) || (i =? b_step b).
Proof using Ok H Hst Hfree.
  intros Hi. destruct turn_ok as [G P S B Hd One Wk Tm], turn_step as [Hs _]. specialize (B i Hi). rewrite Hfree, andb_false_r, orb_false_r in B.
  split; [done|]. rewrite <- B. unfold touched. cbn. rewrite Z.lor_spec, testbit_add, Z.lor_spec by lia. by destruct (Z.testbit _ _), (Z.testbit _ _), (_ =? _).
Qed.

(** What the step leaves when it is under way, or has been accounted for. *)
Definition outcome_delta (under_way : bool) (i : Z) : delta := if decide (i = b_step b) then mk_delta 0 (b2z under_way) 1 else d_zero.
Definition same_bits (b' : tg_business) : Prop := b_visited b' = b_visited entered /\ b_skipped b' = b_skipped b /\ b_step b' = b_step b /\ b_active b' = true.
Lemma enter_touched b' i : same_bits b' -> touched b' i = touched entered i.
Proof using. intros (V & K & _). unfold touched. by rewrite V, K. Qed.
Lemma enter_closing D b' : (forall i, D i = outcome_delta false i) -> same_bits b' -> closing D b b'.
Proof using Ok H Hst Hfree Htime.
  intros HD Sb i Hi. rewrite HD, (enter_touched _ _ Sb). destruct (enter_bits i Hi) as [E1 E2], enter_flags as (W1 & W2 & _), turn_active as [Ha _].
  unfold outcome_delta, inflight, pending. rewrite E1, E2, W1, W2, Ha. cbn.
  case_decide; destruct (Z.ltb_spec i (b_step b)), (Z.eqb_spec i (b_step b)); cbn; lia.
Qed.
Lemma enter_balanced D b' :
  (forall i, D i = outcome_delta (b_waiting b' || b_thinking b') i) -> same_bits b' -> balanced D b b'.
Proof using Ok H Hst Hfree Htime.
  intros HD Sb i Hi. rewrite HD. destruct (enter_bits i Hi) as [E1 E2], enter_flags as (W1 & W2 & _), turn_active as [Ha _].
  unfold outcome_delta, inflight, pending. rewrite (enter_touched _ _ Sb), E1, E2, W1, W2, Ha. destruct Sb as (_ & _ & -> & ->). cbn.
  case_decide; destruct (Z.ltb_spec i (b_step b)), (Z.eqb_spec i (b_step b)), (Z.eqb_spec (b_step b) i), (b_waiting b' || b_thinking b'); cbn; lia.
Qed.

(** The step is under way: the business waits. *)
Lemma enter_waits D b' e' :
  moves x b b' D e e' -> (forall i, D i = outcome_delta true i) -> same_bits b' -> b_queued b' = false -> b_failed b' = false ->
  b_timeout b' <> None -> b_timed_out b' = false -> xorb (b_waiting b') (b_thinking b') = true -> (b_wake b' <> None -> b_thinking b' = true) ->
  engine_ok (Some x) e'.
Proof using Ok H Hst Hfree Htime.
  intros M HD Sb Hq Hf Ht Hto Hx Hw. destruct turn_ok as [G P S B Hd One Wk Tm], turn_step as [Hs _], turn_active as [Ha Hqb].
  assert (b_waiting b' || b_thinking b' = true) as Hu by (by destruct (b_waiting b'), (b_thinking b')).
  pose proof (turn_plan _ _ _ _ _ _ M) as Hp.
  eapply engine_moves; [done|exact M|done|apply enter_balanced; [by rewrite Hu|done]|apply Sb|by rewrite Hqb| |done].
  assert (held b' = true) as Hh by (unfold held; by rewrite Hu). pose proof Sb as (_ & _ & Hst' & _).
  split; rewrite ?Hp, ?Hst', ?Hh, ?Hf; try done; try lia.
  - exact (turn_group _ _ _ G _ _ _ M).
  - intros i Hi. rewrite (enter_touched _ _ Sb). rewrite andb_true_r. by apply enter_bits.
  - by destruct (b_waiting b'), (b_thinking b').
Qed.

Lemma enter_started :
  moves x b entered (fun i => d_add (reached_once i) (if decide (i = b_step b) then mk_delta (-1) 0 0 else d_zero)) e
    (step_stats entered (b_step entered) inc_started entering).
Proof using Ok H Hst.
  destruct turn_ok as [G _ _ _ _ _ _ _], turn_step as [Hs _].
  exact (turn_stats _ _ _ (eo_layout _ _ Ok) G _ _ _ inc_started _ (b_step b) enter_moves Hs differ_started).
Qed.
Ltac deltas := intros i; unfold outcome_delta, reached_once; cbn; case_decide; cbn; done.

(** The step has failed: the business ends. *)
Lemma enter_fails now b' D e' sf :
  moves x b b' D e e' -> same_bits b' -> b_queued b' = false ->
  (forall i, d_add (D i) (if decide (i = b_step b) then mk_delta (- b2z sf) (-1) 0 else d_zero) = outcome_delta false i) ->
  moves x b b' (outcome_delta false) e (record_step now x false sf e').
Proof using Ok H Hst.
  intros M Sb Hq HD. destruct turn_ok as [G _ _ _ _ _ _ _], turn_step as [Hs _]. pose proof Sb as (_ & _ & Hst' & _).
  pose proof (turn_record _ _ _ (eo_layout _ _ Ok) G _ _ _ now false sf M ltac:(by rewrite Hst')) as M1. rewrite Hst' in M1.
  eapply moves_delta; [exact M1|intros i _; apply HD|]. intros c p i. by apply group_step_of.
Qed.

Lemma turn_network : WorkflowPlanFacts.network (st_kind st) -> engine_ok None (run_step proto finite order inet_pton io x entered st entering).
Proof using Ok H Hst Hfree Htime.
  intros K. destruct turn_active as [Ha Hq], enter_flags as (W1 & W2 & W3 & W4 & W5).
  assert (same_bits entered) as Sb by done.
  enough (engine_ok None (match Workflow.network proto finite inet_pton io x st entering with
    | (Some err, e1) =>
        finish (w_finish io) x false
          (upd x (with_b_failure (if pressure err then TG_FLOW_RESULT_RESOURCE_PRESSURE else TG_FLOW_RESULT_PROTOCOL_FAILURE))
             (record_step (w_record io) x false true e1))
    | (None, e1) => step_stats entered (b_step entered) inc_started e1
    end)) by (unfold run_step; by destruct K as [-> | ->]).
  destruct (network_turn io x st b entered _ e entering enter_moves) as [(err & e1 & -> & M)|(h & e1 & -> & M)].
  - pose proof (enter_fails (w_record io) entered _ _ true M Sb Hq ltac:(deltas)) as M1.
    pose proof (turn_upd _ _ _ _ _ _ (with_b_failure (if pressure err then TG_FLOW_RESULT_RESOURCE_PRESSURE else TG_FLOW_RESULT_PROTOCOL_FAILURE)) M1
                  ltac:(by repeat split)) as M2.
    eapply engine_finish; [done|done|exact M2| |done|done]. apply enter_closing; [deltas|done].
  - destruct turn_ok as [G _ _ _ _ _ _ _], turn_step as [Hs _].
    pose proof (turn_stats _ _ _ (eo_layout _ _ Ok) G _ _ _ inc_started _ (b_step b) M Hs differ_started) as M1.
    eapply engine_settle; [eapply enter_waits; [exact M1|deltas|done|done|done|done|done| |]|exact (mv_after _ _ _ _ _ _ M1)|]; cbn; rewrite ?W2, ?W4; try done.
    split; cbn; [|by rewrite Hq]. intros _. split; [by left|done].
Qed.

Lemma turn_branch : st_kind st = TG_STEP_BRANCH -> engine_ok None (run_step proto finite order inet_pton io x entered st entering).
Proof using Ok H Hst Hfree Htime.
  intros K. destruct turn_active as [Ha Hq], enter_flags as (W1 & W2 & W3 & W4 & W5). assert (same_bits entered) as Sb by done.
  unfold run_step. rewrite K. destruct (predicate _ _ _ _ _) as [holds|].
  - destruct turn_ok as [G _ _ _ _ _ _ _], turn_step as [Hs [_ So _ _]]. destruct (So K) as [So1 So2].
    pose proof (turn_record _ _ _ (eo_layout _ _ Ok) G _ _ _ (w_record io) true false enter_started Hs) as M.
    eapply turn_next; [exact M| |done|by destruct holds| | |done|done|done|done].
    + apply enter_balanced; [|done]. cbn. rewrite W1, W2. deltas.
    + unfold held. cbn. by rewrite W1, W2, W3.
    + intros i Hi. by apply enter_bits.
  - pose proof (enter_fails (w_record io) entered _ _ false enter_started Sb Hq ltac:(deltas)) as M.
    eapply engine_finish; [done|done|exact M| |done|done]. by apply enter_closing.
Qed.

Lemma turn_think : st_kind st = TG_STEP_THINK -> engine_ok None (run_step proto finite order inet_pton io x entered st entering).
Proof using Ok H Hst Hfree Htime.
  intros K. destruct turn_active as [Ha Hq], enter_flags as (W1 & W2 & W3 & W4 & W5).
  assert (same_bits (with_b_thinking true entered)) as Sb by done.
  pose proof (turn_upd _ _ _ _ _ _ (with_b_thinking true) enter_started ltac:(by repeat split)) as M.
  unfold run_step. rewrite K. cbv zeta. destruct (_ =? 0).
  - eapply engine_enqueue; [eapply enter_waits; [exact M|deltas|done..| |]|exact (mv_after _ _ _ _ _ _ M)|]; cbn; rewrite ?W1; try done.
    by right.
  - destruct (w_wake io).
    + pose proof (turn_upd _ _ _ _ _ _ (with_b_wake (Some (tg_flow_deadline (Flow.hz (w_new io)) (w_now io)
        (think_ms (e_seed entering) (b_ordinal entered) (b_step entered) st)))) M ltac:(by repeat split)) as M1.
      eapply engine_settle; [eapply enter_waits; [exact M1|deltas|done..| |]|exact (mv_after _ _ _ _ _ _ M1)|]; cbn; rewrite ?W1; try done.
      split; cbn; [|by rewrite Hq]. intros _. split; [by right|done].
    + pose proof (enter_fails (w_record io) (with_b_thinking true entered) _ _ false M Sb Hq ltac:(deltas)) as M1.
      eapply engine_finish; [done|done|exact M1| |done|done]. by apply enter_closing.
Qed.

Lemma turn_run_step : engine_ok None (run_step proto finite order inet_pton io x entered st entering).
Proof using Ok H Hst Hfree Htime.
  destruct (st_kind st) eqn:K; first [by apply turn_branch|by apply turn_think|apply turn_network; by constructor].
Qed.
End Turns.

(** ** The operations *)

Theorem pop_ok io (e : engine) : engine_ok None e -> engine_ok None (pop proto finite order inet_pton io e).
Proof using.
  intros Ok. unfold pop. destruct (e_ready e) as [|x rest] eqn:Hr; [done|].
  destruct (engine_turn x rest e Ok Hr) as (b & H & Ok1 & Ha & Hq & Hw). set (e1 := upd x _ _) in *.
  unfold advance_business. rewrite H. destruct (b_timed_out b || _) eqn:T; [by apply turn_late|]. apply orb_false_iff in T as [T _].
  destruct Hw as [Hw|[Hw1 Hw2]]; [congruence|]. pose proof (eo_active _ _ Ok1 _ _ H Ha) as Okb. destruct Okb as [G P S B Hd One Wk Tm].
  destruct (b_failed b) eqn:F.
  { apply (turn_end _ _ _ Ok1 H); [done|]. rewrite Hw1 in One. destruct (b_thinking b); [|done]. cbn in One. lia. }
  destruct (Z.eqb_spec (b_step b) (count (b_plan b))) as [E|E].
  { apply (turn_end _ _ _ Ok1 H); [done|]. destruct (b_thinking b) eqn:Th; [|done].
    assert (held b = true) as Hh by (unfold held; by rewrite Th, orb_true_r). specialize (Hd Hh). lia. }
  destruct (lookup_lt_is_Some_2 (wp_steps (b_plan b)) (Z.to_nat (b_step b))) as [st Hst]; [unfold count, zlen in *; lia|].
  rewrite Hst. destruct (b_thinking b) eqn:Th.
  - by eapply (turn_woken _ _ _ Ok1 H _ Hst).
  - apply (turn_run_step io x b e1 Ok1 H st Hst); [|done]. unfold held. by rewrite Hw1, Th, F.
Qed.

Theorem tick_ok budget io (e : engine) : engine_ok None e -> engine_ok None (tg_workflow_tick proto finite order inet_pton budget io e).
Proof using.
  revert e. induction budget as [|n IH]; intros e Ok; cbn [tg_workflow_tick]; [done|].
  case_bool_decide; [done|]. by apply IH, pop_ok.
Qed.

(** ** Callbacks *)

(** An event of an active business that puts it on the queue. *)
Lemma engine_event x b b' D (e e' : engine) :
  engine_ok None e -> moves x b b' D e e' -> balanced D b b' -> b_active b = true -> b_active b' = true -> b_queued b' = b_queued b ->
  biz_ok e' b' -> b_timed_out b' = true \/ (b_waiting b' = false /\ b_wake b' = None) -> engine_ok None (enqueue x e').
Proof using.
  intros Ok M Bal Ha Ha' Hq Okb Hw. pose proof (mv_before _ _ _ _ _ _ M) as H. pose proof (mv_after _ _ _ _ _ _ M) as H'.
  destruct (b_queued b) eqn:Q.
  - assert (enqueue x e' = e') as -> by (unfold enqueue; by rewrite H', Ha', Hq).
    eapply engine_moves; [done|exact M|done|done|done|congruence|done|]. intros _. split; [congruence|done].
  - eapply engine_enqueue; [eapply engine_moves; [by eapply engine_busy|exact M|done|done|done|congruence|done|done]|done|done].
Qed.

Theorem timeout_cb_ok x b (e : engine) : engine_ok None e -> biz e x = Some b -> b_timeout b <> None -> engine_ok None (timeout_cb x e).
Proof using.
  intros Ok H Ht. assert (b_active b = true) as Ha by (destruct (b_active b) eqn:E; [done|]; by destruct (eo_idle _ _ Ok _ _ H E) as (_ & ? & _)).
  destruct (eo_active _ _ Ok _ _ H Ha) as [G P S B Hd One Wk Tm].
  pose proof (moves_upd x b (fun b => with_b_timed_out true (with_b_timeout None b)) e H ltac:(by repeat split)) as M.
  eapply engine_event; [done|exact M| |done..| |by left].
  - intros i Hi. unfold inflight, pending, touched. cbn. lia.
  - split; try done.
Qed.
Theorem wake_cb_ok x b (e : engine) : engine_ok None e -> biz e x = Some b -> b_wake b <> None -> engine_ok None (wake_cb x e).
Proof using.
  intros Ok H Ht. assert (b_active b = true) as Ha by (destruct (b_active b) eqn:E; [done|]; by destruct (eo_idle _ _ Ok _ _ H E) as (_ & _ & ?)).
  destruct (eo_active _ _ Ok _ _ H Ha) as [G P S B Hd One Wk Tm].
  pose proof (moves_upd x b (with_b_wake None) e H ltac:(by repeat split)) as M.
  eapply engine_event; [done|exact M| |done..| |].
  - intros i Hi. unfold inflight, pending, touched. cbn. lia.
  - split; try done.
  - right. cbn. split; [|done]. rewrite (Wk Ht) in One. destruct (b_waiting b), (b_failed b); cbn in One; try lia; done.
Qed.

(** *** The end of a response *)

Lemma run_extract_context b txn keys ok b' : run_extract finite b txn keys = (ok, b') -> exists c, b' = with_b_context c b.
Proof using.
  revert b ok b'. induction keys as [|i r IH]; intros b ok b'; cbn [run_extract]; [intros [= <- <-]; exists (b_context b); by destruct b|].
  destruct (tg_string_read _ _ _) as [name|]; [|intros [= <- <-]; exists (b_context b); by destruct b].
  destruct (operand _ _ _ _) as [v|]; [|intros [= <- <-]; exists (b_context b); by destruct b].
  unfold save. destruct (_ || _); [intros [= <- <-]; exists (b_context b); by destruct b|]. intros (c & ->)%IH. by exists c.
Qed.
(** The judgement changes the reason and the context only. *)
Lemma judge_kept ok st txn b ok' b' : judge finite order ok st txn b = (ok', b') -> exists r c, b' = with_b_context c (with_b_reason r b).
Proof using.
  unfold judge. destruct (if ok && _ then _ else _) as [ok1 explicit]. set (refused := ok1 && _ && _ && _).
  assert (exists r, (if refused then with_b_reason TG_ERROR_HTTP_STATUS b else b) = with_b_reason r b) as [r ->].
  { destruct refused; [by eexists|]. exists (b_reason b). by destruct b. }
  destruct (ok1 && negb refused && _).
  - intros (c & ->)%run_extract_context. by exists r, c.
  - intros [= <- <-]. exists r, (b_context b). by destruct b.
Qed.

Theorem response_ok t1 t2 x o r (e : engine) : engine_ok None e -> engine_ok None (response finite order t1 t2 x o r e).
Proof using.
  intros Ok. unfold response. destruct (biz e x) as [b|] eqn:H; [|done]. destruct (b_active b) eqn:Ha; [|done].
  destruct (b_waiting b) eqn:W; [|done]. cbn [negb orb]. destruct (wp_steps (b_plan b) !! _) as [st|] eqn:Hst; [|done]. cbv zeta.
  set (late := _ <=? _). set (r' := if late then _ else r). set (b1 := with_b_waiting false _).
  destruct (judge _ _ _ _ _ b1) as [ok b2] eqn:J. apply judge_kept in J as (reason & ctx & ->). set (b2 := with_b_context ctx _).
  pose proof (eo_active _ _ Ok _ _ H Ha) as Okb. pose proof Okb as [G [P _] S B Hd One Wk Tm]. pose proof (eo_layout _ _ Ok) as L.
  assert (b_thinking b = false /\ b_failed b = false) as [W1 W2].
  { rewrite W in One. by destruct (b_thinking b), (b_failed b); cbn in One; try lia. }
  assert (b_wake b = None) as W3 by (destruct (b_wake b) eqn:E; [|done]; specialize (Wk ltac:(done)); congruence).
  assert (held b = true) as Hh by (unfold held; by rewrite W). specialize (Hd Hh). rewrite Hh in B.
  pose proof (P _ _ Hst) as [So _ _ _]. rewrite Z2Nat.id in So by lia.
  pose proof (turn_upd _ _ _ _ _ _ (fun _ => b2) (turn_start x b e H) ltac:(by repeat split)) as M.
  pose proof (turn_record _ _ _ L G _ _ _ t2 ok false M ltac:(cbn; lia)) as M1. destruct ok.
  - assert (exists D e2, moves x b b2 D e e2 /\ balanced D b b2 /\
      (if bool_decide (st_kind st = TG_STEP_HTTP) then say HttpCompleted (record_step t2 x true false (upd x (fun _ => b2) e))
       else record_step t2 x true false (upd x (fun _ => b2) e)) = e2) as (D & e2 & M2 & Bal & ->).
    { case_bool_decide; [eexists _, (say HttpCompleted _)|eexists _, _].
      - split; [eapply turn_outside; [exact M1|done|done|by apply same_say]|]. split; [|done].
        unfold balanced, inflight, pending. cbn. rewrite Ha, W, W1. account B.
      - split; [exact M1|]. split; [|done]. unfold balanced, inflight, pending. cbn. rewrite Ha, W, W1. account B. }
    destruct (advance_ok x b e L Okb Ha b2 D e2 (st_next st)) as (b3 & D3 & M3 & Bal3 & Okb3 & Hh3 & Ha3 & Hq3 & Hw3);
      [done|done|done|lia| | |done|done|done|].
    + unfold held. cbn. by rewrite W1, W2.
    + intros i Hi. change (touched b2 i) with (touched b i). by rewrite B, andb_true_r.
    + eapply engine_event; [done|exact M3|done..|]. right. unfold held in Hh3. by destruct (b_waiting b3).
  - pose proof (turn_upd _ _ _ _ _ _ (fun b => with_b_failed true (with_b_failure
      (if bool_decide (r' = TG_FLOW_RESULT_SUCCESS) then TG_FLOW_RESULT_PROTOCOL_FAILURE else r') b)) M1 ltac:(by repeat split)) as M2.
    eapply engine_event; [done|exact M2| |done..| |by right].
    + unfold balanced, inflight, pending. cbn. rewrite Ha, W, W1. account B.
    + split; try done.
      * exact (turn_group _ _ _ G _ _ _ M2).
      * exact (bo_plan _ _ Okb).
      * intros i Hi. unfold held. cbn. rewrite W1. exact (B i Hi).
      * cbn. rewrite W1. cbn. lia.
Qed.
End Steps.
