(* ===== verification/WorkflowHistory.v ===== *)
(** * Workflow execution: histories of an engine

    The start of a business and the set-up of an engine, the reachable states
    of an engine, and what its counters say in every one of them. *)

From stdpp Require Import gmap strings.
From S2P Require Import Prelude Config Latency Scheduler Txn OwnerTimer TcpTcb Json WorkflowPlan WorkflowPlanFacts Dns Http ConnPool Flow Workflow WorkflowFacts WorkflowInv WorkflowSteps.

Section History.
Context {Ctx : Type} (proto : tg_proto_ops exchange_config Ctx).
Context (finite : list Z -> bool) (order : list Z -> list Z -> Z) (inet_pton : list Z -> option Z) (business_size : Z).
Local Abbreviation engine := (tg_workflow_engine (Ctx := Ctx)).

(** ** Starting a business *)

Lemma free_idle (e : engine) x rest :
  engine_ok None e -> e_free e = x :: rest ->
  exists b, biz e x = Some b /\ b_active b = false /\ b_queued b = false /\ NoDup rest /\ x ∉ rest.
Proof using.
  intros Ok Hf. destruct (eo_free _ _ Ok) as [Fn Fr]. rewrite Hf in Fn, Fr. apply NoDup_cons in Fn as [Nx Nr].
  destruct (proj1 (Fr x) ltac:(by left)) as (b & H & Ha). exists b. split_and!; try done. by destruct (eo_idle _ _ Ok _ _ H Ha).
Qed.
Lemma alive_total (e : engine) : 0 <= total e alive <= total e (fun _ => 1).
Proof using.
  unfold total. induction (default [] (e_storage e)) as [|a l IH]; [done|]. cbn. unfold Zsum, alive, b2z in *. cbn. case_match; lia.
Qed.
Lemma idle_total (e : engine) x b : biz e x = Some b -> b_active b = false -> total e alive < total e (fun _ => 1).
Proof using.
  intros H Ha. pose proof (alive_total (upd x (with_b_active true) e)) as B. rewrite !(total_upd _ _ _ _ _ H) in B.
  assert (alive b = 0) as E by (unfold alive; by rewrite Ha). rewrite E in B. change (alive (with_b_active true b)) with 1 in B. cbn in B. lia.
Qed.

(** An object of the free list becomes a business: one more admission, and its
    steps are all pending. *)
Lemma engine_admit x rest b' (e e' : engine) :
  engine_ok None e -> e_free e = x :: rest ->
  biz_ok e b' -> b_active b' = true -> b_queued b' = false -> (forall i, touched b' i = false) -> b_waiting b' || b_thinking b' = false ->
  e' = say (BusinessAdmitted (b_class b') (b_phase b'))
         (with_e_free rest (with_e_resources (resource_acquire 1 (e_resources e)) (upd x (fun _ => b') e))) ->
  engine_ok (Some x) e'.
Proof using.
  intros Ok Hf Okb Ha Hq Ht Hw ->. destruct (free_idle _ _ _ Ok Hf) as (b & H & Hab & Hqb & Nr & Nx).
  set (e' := say _ _). assert (forall y, biz e' y = if decide (y = x) then Some b' else biz e y) as Eb.
  { intros y. change (biz e' y) with (biz (upd x (fun _ => b') e) y). rewrite biz_upd. case_decide as E; [by rewrite E, H|done]. }
  assert (forall f, total e' f = total e f - f b + f b') as Et by (intros f; exact (total_upd e x b (fun _ => b') f H)).
  assert (forall i, inflight i b = 0 /\ pending i b = 0 /\ inflight i b' = 0 /\ pending i b' = 1) as Ez.
  { intros i. unfold inflight, pending. by rewrite Hab, Ha, Ht, Hw. }
  assert (forall p c, admissions e' p c = admissions e p c + b2z (group_of b' p c)) as Ea.
  { intros p c. unfold admissions, e', say. cbn. rewrite map_app, Zsum_app. cbn. unfold group_of. lia. }
  assert (forall p c, completions e' p c = completions e p c) as Ec.
  { intros p c. unfold completions, e', say. cbn. rewrite map_app, Zsum_app. cbn. lia. }
  assert (forall b1, biz_ok e b1 -> biz_ok e' b1) as Okm by (intros b1 []; by split).
  pose proof Ok as [L St Ac Id [Fn Fr] [Rn Re] Qu _ Le Tr Rs Sz]. split.
  - by destruct L.
  - unfold e', upd. cbn. by destruct (e_storage e).
  - intros y b1. rewrite Eb. case_decide; [by intros [= <-] _; apply Okm|]. intros Hy Hb1. by eapply Okm, Ac.
  - intros y b1. rewrite Eb. case_decide; [intros [= <-]; congruence|by apply Id].
  - change (e_free e') with rest. split; [done|]. intros y. rewrite Eb. case_decide as E.
    + subst. split; [done|]. intros (b1 & [= <-] & ?). congruence.
    + rewrite <- Fr, Hf, elem_of_cons. split; [by right|by intros [?|?]].
  - split; [done|]. intros y. change (e_ready e') with (e_ready e). rewrite Re, Eb. case_decide as E; [|done]. subst. rewrite H.
    split; intros (b1 & [= <-] & ?); congruence.
  - intros y b1. rewrite Eb. case_decide; [congruence|]. intros Hy Hb1 _. by eapply Qu.
  - intros y [= <-]. exists b'. by rewrite Eb, decide_True.
  - intros p c i Hi. destruct (Le p c i Hi) as [L1 L2 L3]. destruct (Ez i) as (Z1 & Z2 & Z3 & Z4).
    change (cell e' p c i) with (cell e p c i) in *. split; change (cell e' p c i) with (cell e p c i); [done| |]; rewrite Et, ?Ea.
    + replace (in_ p c (inflight i) b) with 0; [replace (in_ p c (inflight i) b') with 0|]; [by rewrite Z.sub_0_r, Z.add_0_r|unfold in_; by case_match..].
    + replace (in_ p c (pending i) b) with 0 by (unfold in_; by case_match).
      replace (in_ p c (pending i) b') with (b2z (group_of b' p c)) by (unfold in_; rewrite Z4; by case_match).
      rewrite <- L3. f_equal. lia.
  - intros p c. rewrite Ea, Ec, Et. specialize (Tr p c). replace (in_ p c alive b) with 0 by (unfold in_, alive; rewrite Hab; by case_match).
    replace (in_ p c alive b') with (b2z (group_of b' p c)) by (unfold in_, alive; rewrite Ha; by case_match). lia.
  - rewrite Et. assert (alive b = 0) as -> by (unfold alive; by rewrite Hab). assert (alive b' = 1) as -> by (unfold alive; by rewrite Ha).
    rewrite Z.sub_0_r. apply acquire_counts; [done|apply alive_total|].
    pose proof (idle_total _ _ _ H Hab). unfold e'. cbn. lia.
  - rewrite Et. lia.
Qed.

Lemma engine_resources busy r (e : engine) : engine_ok busy e -> counts_live (total e alive) r -> engine_ok busy (with_e_resources r e).
Proof using. intros [L St Ac Id F R Qu Bu Le Tr Rs Sz] Hr. split; try done; [by destruct L| |].
  - intros x b Hb Ha. destruct (Ac x b Hb Ha). by split.
  - intros p c i Hi. by destruct (Le p c i Hi).
Qed.

(** An idle object may hold anything idle. *)
Lemma engine_idle x b b' (e : engine) :
  engine_ok None e -> biz e x = Some b -> b_active b = false ->
  b_active b' = false -> b_queued b' = false -> b_timeout b' = None -> b_wake b' = None -> engine_ok None (upd x (fun _ => b') e).
Proof using.
  intros Ok H Ha Ha' Hq' Ht' Hw'. destruct (eo_idle _ _ Ok _ _ H Ha) as (Hq & _). set (e' := upd x _ e).
  assert (forall y, biz e' y = if decide (y = x) then Some b' else biz e y) as Eb.
  { intros y. unfold e'. rewrite biz_upd. case_decide as E; [by rewrite E, H|done]. }
  assert (forall f, f b' = f b -> total e' f = total e f) as Et.
  { intros f Hf. unfold e'. rewrite (total_upd e x b (fun _ => b') f H), Hf. lia. }
  assert (forall i, inflight i b = 0 /\ pending i b = 0 /\ inflight i b' = 0 /\ pending i b' = 0 /\ alive b = 0 /\ alive b' = 0) as Ez.
  { intros i. unfold inflight, pending, alive. by rewrite Ha, Ha'. }
  assert (forall p c f, f b = 0 -> f b' = 0 -> in_ p c f b' = in_ p c f b) as Ei by (intros p c f E1 E2; unfold in_; rewrite E1, E2; by repeat case_match).
  destruct Ok as [L St Ac Id [Fn Fr] [Rn Re] Qu Bu Le Tr Rs Sz]. split.
  - by destruct L.
  - unfold e', upd. cbn. by destruct (e_storage e).
  - intros y b1. rewrite Eb. case_decide; [intros [= <-]; congruence|]. intros Hy Hb1. destruct (Ac _ _ Hy Hb1). by split.
  - intros y b1. rewrite Eb. case_decide; [by intros [= <-]|by apply Id].
  - split; [done|]. intros y. change (e_free e') with (e_free e). rewrite Fr, Eb. case_decide as E; [|done]. subst. rewrite H.
    split; intros _; by eexists.
  - split; [done|]. intros y. change (e_ready e') with (e_ready e). rewrite Re, Eb. case_decide as E; [|done]. subst. rewrite H.
    split; intros (b1 & [= <-] & ?); congruence.
  - intros y b1. rewrite Eb. case_decide; [intros [= <-]; congruence|]. intros Hy Hb1 _. by eapply Qu.
  - done.
  - intros p c i Hi. destruct (Le p c i Hi) as [L1 L2 L3]. destruct (Ez i) as (Z1 & Z2 & Z3 & Z4 & _).
    split; change (cell e' p c i) with (cell e p c i); change (admissions e' p c) with (admissions e p c); rewrite ?Et; try done; by apply Ei.
  - intros p c. destruct (Ez 0) as (_ & _ & _ & _ & Z5 & Z6). rewrite Et by by apply Ei. apply Tr.
  - destruct (Ez 0) as (_ & _ & _ & _ & Z5 & Z6). rewrite Et by congruence. apply Rs.
  - by rewrite Et.
Qed.

(** The class has this plan, and the scheduler is in one of its phases. *)
Definition start_ready (c : nat) (p : tg_workflow_plan) (e : engine) : Prop :=
  e_plans e !! c = Some (Some p) /\ plan_ok p /\ 0 <= Scheduler.phase_index (e_scheduler e) < e_phase_count e.

Theorem workflow_start_ok now armed c p (e : engine) :
  engine_ok None e -> start_ready c p e -> engine_ok None (snd (tg_workflow_start now armed c p e)).
Proof using.
  intros Ok (Hc & Hp & Hph). unfold tg_workflow_start. destruct (e_free e) as [|x rest] eqn:Hf.
  { cbn [snd]. apply engine_resources; [done|]. destruct (eo_resources _ _ Ok). by case_bool_decide. }
  destruct (free_idle _ _ _ Ok Hf) as (b & H & Hab & Hqb & Nr & Nx). cbv zeta. set (b0 := mk_business c p [] 0 _ _ _ _ _ _ _ _ _ _ _ _ _ _ _ _ _ _ _ _).
  destruct armed as [t|]; cbn [snd].
  - set (e2 := upd x (with_b_active true) _). set (e3 := say _ _).
    set (b1 := with_b_active true b0). set (E := say (BusinessAdmitted (b_class b1) (b_phase b1))
      (with_e_free rest (with_e_resources (resource_acquire 1 (e_resources e)) (upd x (fun _ => b1) e)))).
    assert (biz_ok e b1) as Okb.
    { split; cbn; try done; [unfold count; pose proof (zlen_nonneg (wp_steps p)); lia|].
      intros i Hi. unfold touched, held. cbn. rewrite Z.testbit_0_l, andb_false_r, orb_false_r. symmetry. apply Z.ltb_ge. lia. }
    assert (engine_ok (Some x) E) as OkE.
    { eapply engine_admit; [done|exact Hf|exact Okb|done|done| |done|done]. intros i. unfold touched. cbn. apply Z.testbit_0_l. }
    assert (e_storage e3 = e_storage E) as Es.
    { unfold e3, e2, E, upd, say. cbn. destruct (e_storage e) as [l|]; [|done]. cbn. f_equal. apply list_eq. intros y.
      rewrite !list_lookup_alter. repeat case_decide; try done. by destruct (l !! x). }
    assert (engine_ok (Some x) e3) as Ok3 by (apply (engine_outside _ E); [done|by split|done|done]).
    apply (engine_enqueue x b1); [exact Ok3| |by right]. unfold biz. rewrite Es. change (biz E x = Some b1).
    change (biz (upd x (fun _ => b1) e) x = Some b1). by rewrite biz_upd, decide_True, H.
  - apply (engine_outside _ (with_e_resources (resource_release 1 (resource_acquire 1 (e_resources e))) (upd x (fun _ => b0) e))); try done.
    + apply engine_resources; [by eapply engine_idle|]. rewrite (total_upd e x b) by done.
      assert (alive b = 0) as -> by (unfold alive; by rewrite Hab). change (alive b0) with 0. rewrite Z.sub_0_r, Z.add_0_r.
      pose proof (eo_resources _ _ Ok) as Rs. pose proof (alive_total e). pose proof (eo_size _ _ Ok).
      replace (total e alive) with (total e alive + 1 - 1) by lia. apply release_counts; [apply acquire_counts; [done|lia..]|lia].
Qed.

(** ** Setting an engine up *)

(** An engine as its owner makes it, before [tg_workflow_engine_init]. *)
Record fresh (e : engine) : Prop := {
  fs_storage : e_storage e = None;
  fs_free : e_free e = [];
  fs_ready : e_ready e = [];
  fs_notes : e_notes e = [];
  fs_count : e_step_count e = 0;
  fs_gauge : r_current (e_resources e) = 0 /\ 0 <= r_peak (e_resources e);
  fs_bounds : Zsum (map plan_steps (e_plans e)) * e_phase_count e < 4294967296;
  fs_phases : 1 <= e_phase_count e;
  fs_capacity : 0 <= e_max_concurrency e < 4294967296
}.

Lemma Zsum_replicate {A} (f : A -> Z) n z : Zsum (map f (replicate n z)) = Z.of_nat n * f z.
Proof using. induction n as [|n IH]; [done|]. cbn [replicate map]. rewrite Zsum_cons, IH. lia. Qed.

Theorem workflow_init_ok memory (e e' : engine) :
  fresh e -> tg_workflow_engine_init business_size memory e = (true, e') -> e_storage e' <> None -> engine_ok None e'.
Proof using.
  intros [F1 F2 F3 F4 F5 [F6 F7] F8 F9 F10]. unfold tg_workflow_engine_init. rewrite F5. destruct (offsets_from 0 (e_plans e)) as [offsets tot] eqn:Eo.
  cbv zeta. destruct (Z.eqb_spec tot 0) as [->|Ht]; [by intros [= <-]|]. destruct memory as [[m1 m2] m3].
  destruct (_ || _); [by intros [=]|]. intros [= <-] _.
  destruct (offsets_exact _ _ _ _ Eo ltac:(lia)) as [Et _]; [pose proof (plans_sum_nonneg (e_plans e)); nia|]. rewrite Z.add_0_l in Et.
  pose proof (plans_sum_nonneg (e_plans e)) as Hn. set (st := mk_sstats counts_zero _). set (e' := with_e_memory_bytes _ _).
  set (z := business_zero plan_zero) in *. set (n := Z.to_nat (e_max_concurrency e)) in *.
  assert (forall x, biz e' x = replicate n z !! x) as Eb by done.
  assert (forall x b, biz e' x = Some b -> b = z) as Ez by (intros x b; rewrite Eb; intros [-> _]%lookup_replicate; done).
  assert (forall f, f z = 0 -> total e' f = 0) as Etot.
  { intros f Hf. unfold total. change (default [] (e_storage e')) with (replicate n z). rewrite Zsum_replicate, Hf. lia. }
  assert (forall p c i, cell e' p c i = counts_zero) as Ec.
  { intros p c i. unfold cell. change (e_steps e') with (replicate (Z.to_nat (tot * e_phase_count e)) st).
    destruct (replicate _ st !! _) eqn:E; [|done]. by apply lookup_replicate in E as [-> _]. }
  assert (forall p c, admissions e' p c = 0 /\ completions e' p c = 0) as En by (intros; unfold admissions, completions; change (e_notes e') with (e_notes e); by rewrite F4).
  split.
  - split; cbn; [exact Eo|exact F8| |lia]. unfold zlen. rewrite length_replicate. nia.
  - done.
  - intros x b Hb. by rewrite (Ez _ _ Hb).
  - intros x b Hb. by rewrite (Ez _ _ Hb).
  - change (e_free e') with (rev (seq 0 n) ++ e_free e). rewrite F2, app_nil_r. split.
    + rewrite <- (Permutation_rev (seq 0 n)). apply NoDup_seq.
    + intros x. rewrite <- (Permutation_rev (seq 0 n)), elem_of_seq, Eb. split.
      * intros Hx. exists z. split; [|done]. apply lookup_replicate. split; [done|lia].
      * intros (b & [_ Hb]%lookup_replicate & _). lia.
  - change (e_ready e') with (e_ready e). rewrite F3. split; [constructor|]. intros x. split; [by intros ?%not_elem_of_nil|].
    intros (b & Hb & Hq). by rewrite (Ez _ _ Hb) in Hq.
  - intros x b Hb. by rewrite (Ez _ _ Hb).
  - done.
  - intros p c i _. destruct (En p c) as [Ea _]. split; rewrite ?Ec, ?Ea, ?Etot by (unfold in_; by case_match); done.
  - intros p c. destruct (En p c) as [-> ->]. by rewrite Etot by (unfold in_; by case_match).
  - rewrite Etot by done. by split.
  - unfold total. change (default [] (e_storage e')) with (replicate n z). rewrite Zsum_replicate. unfold n. lia.
Qed.

(** ** Histories *)

(** What happens to an engine: its own operations, called as the reactor, the
    timers and the flows call them, and changes of what it only reads. *)
Inductive wf_step : engine -> engine -> Prop :=
| WfStart now armed c p e : start_ready c p e -> wf_step e (snd (tg_workflow_start now armed c p e))
| WfTick budget io e : wf_step e (tg_workflow_tick proto finite order inet_pton budget io e)
| WfTimeout x b e : biz e x = Some b -> b_timeout b <> None -> wf_step e (timeout_cb x e)
| WfWake x b e : biz e x = Some b -> b_wake b <> None -> wf_step e (wake_cb x e)
| WfResponse t1 t2 x o r e : wf_step e (response finite order t1 t2 x o r e)
| WfOutside e e' : aside e e' -> wf_step e e'.

Lemma wf_step_ok e e' : wf_step e e' -> engine_ok None e -> engine_ok None e'.
Proof using.
  intros [] Ok.
  - by apply workflow_start_ok.
  - by apply tick_ok.
  - by eapply timeout_cb_ok.
  - by eapply wake_cb_ok.
  - by apply response_ok.
  - destruct H as (E1 & E2 & S). by eapply engine_outside.
Qed.
Definition wf_reachable (memory : bool * bool * bool) (e0 e : engine) : Prop :=
  exists e1, tg_workflow_engine_init business_size memory e0 = (true, e1) /\ e_storage e1 <> None /\ rtc wf_step e1 e.
Lemma reachable_ok memory e0 e : fresh e0 -> wf_reachable memory e0 e -> engine_ok None e.
Proof using.
  intros F (e1 & I & St & R). apply workflow_init_ok in I; [|done..]. clear -I R. induction R as [|a b c S _ IH]; [done|]. by eapply IH, wf_step_ok.
Qed.

(** Active businesses of a group whose step [i] is under way, or still to
    come. *)
Definition under_way (e : engine) (p : Z) (c : nat) (i : Z) : Z := total e (in_ p c (inflight i)).
Definition to_come (e : engine) (p : Z) (c : nat) (i : Z) : Z := total e (in_ p c (pending i)).
Definition active (e : engine) (p : Z) (c : nat) : Z := total e (in_ p c alive).
End History.

(** ** The theorems *)

Section Theorems.
Context {Ctx : Type} (proto : tg_proto_ops exchange_config Ctx).
Context (finite : list Z -> bool) (order : list Z -> list Z -> Z) (inet_pton : list Z -> option Z) (business_size : Z).
Local Abbreviation engine := (tg_workflow_engine (Ctx := Ctx)).
Local Abbreviation reachable := (wf_reachable proto finite order inet_pton business_size).

(** C16: The counters of every step of every phase and class agree with each other,
    with the businesses of the engine and with what the statistics were told,
    modulo their 64 bits: every step reached was started or could not be,
    every one reached has an outcome or is under way, and every business
    admitted has reached, skipped or not reached it, or has it still to
    come.  Admissions less completions are the active businesses, which are
    exactly the ones off the free list, and the gauge counts them. *)
Theorem workflow_conservation memory (e0 e : engine) p c i :
  fresh e0 -> reachable memory e0 e -> is_step e p c i ->
  let n := cell e p c i in
  (reached n - (started n + start_failed n)) mod M64 = 0 /\
  (reached n - (success n + failed n + under_way e p c i)) mod M64 = 0 /\
  (reached n + branch_skipped n + not_reached n + to_come e p c i - admissions e p c) mod M64 = 0 /\
  admissions e p c - completions e p c = active e p c /\
  (forall x b, biz e x = Some b -> x ∈ e_free e <-> b_active b = false) /\
  r_current (e_resources e) = total e alive.
Proof.
  intros F R Hi n. pose proof (reachable_ok _ _ _ _ _ _ _ _ F R) as [L St Ac Id [Fn Fr] Rd Qu Bu Le Tr Rs Sz].
  destruct (Le p c i Hi) as [L1 L2 L3]. unfold ledger_started, ledger_done, ledger_all in *.
  split_and!; [rewrite <- L1|rewrite <- L2|rewrite <- L3|apply Tr| |apply Rs]; try (f_equal; unfold n, under_way, to_come; lia).
  intros x b Hb. rewrite Fr. split; [|by eexists]. intros (b' & Hb' & ?). congruence.
Qed.

(** ** One turn concerns one business *)

(** From [e] to [e'] only business [x] changes, the queue is extended by [x]
    at most, and the trace grows. *)
Record local (x : nat) (e e' : engine) : Prop := {
  lc_others : forall y, y <> x -> biz e' y = biz e y;
  lc_ready : e_ready e' = e_ready e \/ e_ready e' = e_ready e ++ [x];
  lc_notes : exists l, e_notes e' = e_notes e ++ l
}.
(** The same without an enqueue. *)
Definition quiet (x : nat) (e e' : engine) : Prop :=
  (forall y, y <> x -> biz e' y = biz e y) /\ e_ready e' = e_ready e /\ exists l, e_notes e' = e_notes e ++ l.

Lemma quiet_refl x e : quiet x e e.
Proof using. split_and!; try done. exists []. by rewrite app_nil_r. Qed.
Lemma quiet_trans x a b c : quiet x a b -> quiet x b c -> quiet x a c.
Proof using.
  intros (O1 & R1 & l1 & N1) (O2 & R2 & l2 & N2). split_and!; [|congruence|].
  - intros y Hy. by rewrite O2, O1.
  - exists (l1 ++ l2). by rewrite N2, N1, app_assoc.
Qed.
Lemma quiet_plain x (e e' : engine) :
  e_storage e' = e_storage e -> e_ready e' = e_ready e -> e_notes e' = e_notes e -> quiet x e e'.
Proof using. intros E1 E2 E3. split_and!; [|done|exists []; by rewrite app_nil_r]. intros y _. unfold biz. by rewrite E1. Qed.
Lemma quiet_upd x g (e : engine) : quiet x e (upd x g e).
Proof using. split_and!; [|done|exists []; by rewrite app_nil_r]. intros y Hy. by rewrite biz_upd, decide_False. Qed.
Lemma quiet_say x n (e : engine) : quiet x e (say n e).
Proof using. split_and!; try done. by exists [n]. Qed.
Lemma quiet_stats x b j g (e : engine) : quiet x e (step_stats b j g e).
Proof using. by apply quiet_plain. Qed.
Lemma quiet_record now x ok sf (e : engine) : quiet x e (record_step now x ok sf e).
Proof using. unfold record_step. destruct (biz e x); [by apply quiet_plain|apply quiet_refl]. Qed.
Lemma quiet_skip x l : forall e : engine, quiet x e (skip_steps l x e).
Proof using.
  induction l as [|i l IH]; intros e; cbn [skip_steps]; [apply quiet_refl|]. destruct (biz e x); [|apply quiet_refl].
  eapply quiet_trans; [|apply IH]. eapply quiet_trans; [apply quiet_stats|apply quiet_upd].
Qed.
Lemma quiet_advance x next (e : engine) : quiet x e (advance x next e).
Proof using. unfold advance. destruct (biz e x); [|apply quiet_refl]. eapply quiet_trans; [apply quiet_skip|apply quiet_upd]. Qed.
Lemma quiet_not_reached x b l : forall e : engine, quiet x e (count_not_reached l b e).
Proof using.
  induction l as [|i l IH]; intros e; cbn [count_not_reached]; [apply quiet_refl|]. eapply quiet_trans; [|apply IH].
  destruct (Z.testbit _ _); [apply quiet_refl|apply quiet_stats].
Qed.
Lemma quiet_finish now x ok (e : engine) : quiet x e (finish now x ok e).
Proof using.
  unfold finish. destruct (biz e x) as [b|]; [|apply quiet_refl]. cbv zeta. set (e1 := upd x _ e). set (e2 := if b_waiting b then _ else _).
  apply (quiet_trans x e e1); [apply quiet_upd|]. apply (quiet_trans x e1 e2).
  { subst e2. destruct (b_waiting b); [|apply quiet_refl]. destruct (tg_flow_map_lookup _ _); [by apply quiet_plain|apply quiet_refl]. }
  eapply quiet_trans; [apply quiet_not_reached|]. eapply quiet_trans; [apply quiet_say|]. by apply quiet_plain.
Qed.
Lemma quiet_exchange io b st x (e e' : engine) r : exchange proto finite inet_pton io b st e = (r, e') -> quiet x e e'.
Proof using.
  unfold exchange. destruct (prepare _ _ b st) as [err|[[h keep] q]]; [intros [= <- <-]; apply quiet_refl|].
  destruct (reuse _ _ _ _ _ _ _) as [[err|[f|]] s1]; [intros [= <- <-]; by apply quiet_plain| |].
  - destruct (set_deadline _ _ _ _ _ _ _) as [r' s2]. intros [= <- <-]. eapply quiet_trans; [|apply quiet_say]. by apply quiet_plain.
  - destruct (fresh_flow _ _ _ _ _ _) as [[err|f] s2]; [intros [= <- <-]; by apply quiet_plain|].
    destruct (set_deadline _ _ _ _ _ _ _) as [r' s3]. intros [= <- <-]. by apply quiet_plain.
Qed.
Lemma quiet_network io x st (e : engine) : quiet x e (snd (network proto finite inet_pton io x st e)).
Proof using.
  unfold network. destruct (biz e x) as [b|]; [|apply quiet_refl].
  destruct (exchange _ _ _ io b st e) as [[err|h] e1] eqn:E; apply (quiet_exchange _ _ _ x) in E; [done|].
  eapply quiet_trans; [exact E|apply quiet_upd].
Qed.

Lemma local_quiet x a b : quiet x a b -> local x a b.
Proof using. intros (O & R & N). split; [done|by left|done]. Qed.
Lemma local_enqueue x a b : quiet x a b -> local x a (enqueue x b).
Proof using.
  intros Q. unfold enqueue. destruct (biz b x) as [bx|]; [|by apply local_quiet]. destruct (_ || _); [by apply local_quiet|].
  destruct (quiet_trans _ _ _ _ Q (quiet_upd x (with_b_queued true) b)) as (O & R & N). split; [done| |done]. right. cbn. by destruct Q as (_ & -> & _).
Qed.

Ltac quiet :=
  repeat first
    [ apply quiet_refl | apply quiet_finish | apply quiet_record | apply quiet_stats | apply quiet_upd | apply quiet_advance
    | eapply quiet_trans; [|apply quiet_finish] | eapply quiet_trans; [|apply quiet_upd] | eapply quiet_trans; [|apply quiet_record]
    | eapply quiet_trans; [|apply quiet_stats] | eapply quiet_trans; [|apply quiet_advance] ].

Lemma local_run_step io x b st (e : engine) : local x e (run_step proto finite order inet_pton io x b st e).
Proof using.
  assert (local x e (match network proto finite inet_pton io x st e with
    | (Some err, e1) =>
        finish (w_finish io) x false
          (upd x (with_b_failure (if pressure err then TG_FLOW_RESULT_RESOURCE_PRESSURE else TG_FLOW_RESULT_PROTOCOL_FAILURE))
             (record_step (w_record io) x false true e1))
    | (None, e1) => step_stats b (b_step b) inc_started e1
    end)) as N.
  { pose proof (quiet_network io x st e) as Q. destruct (network _ _ _ io x st e) as [[err|] e1]; apply local_quiet; cbn in Q; quiet; done. }
  unfold run_step. destruct (st_kind st); try exact N; cbv zeta.
  - destruct (_ =? 0); [apply local_enqueue; quiet|]. apply local_quiet. destruct (w_wake io); quiet.
  - destruct (predicate _ _ _ _ _); [apply local_enqueue|apply local_quiet]; quiet.
Qed.

Lemma local_turn io x (e : engine) : local x e (advance_business proto finite order inet_pton io x e).
Proof using.
  unfold advance_business. destruct (biz e x) as [b|]; [|apply local_quiet, quiet_refl].
  destruct (b_timed_out b || _).
  { apply local_quiet. destruct (_ && _); quiet. }
  destruct (b_failed b); [apply local_quiet; quiet|]. destruct (b_step b =? _); [apply local_quiet; quiet|].
  destruct (wp_steps (b_plan b) !! _) as [st|]; [|apply local_quiet, quiet_refl].
  destruct (b_thinking b); [apply local_enqueue; quiet|]. cbv zeta. set (e1 := step_stats _ _ _ _).
  assert (quiet x e e1) as (O & R & l & N) by (unfold e1; quiet).
  destruct (local_run_step io x (with_b_visited (Z.lor (b_visited b) (Z.shiftl 1 (b_step b))) (with_b_step_start (w_step io) b)) st e1) as [O2 R2 [l2 N2]].
  split.
  - intros y Hy. by rewrite O2, O.
  - by rewrite <- R.
  - exists (l ++ l2). by rewrite N2, N, app_assoc.
Qed.

(** ** Time is up *)

(** Business [x], whose time is up, waits at position [k] of the queue. *)
Record due (x : nat) (b : tg_business) (k : nat) (e : engine) : Prop := {
  du_biz : biz e x = Some b;
  du_active : b_active b = true;
  du_late : b_timed_out b = true;
  du_place : e_ready e !! k = Some x
}.
(** Its end has been told, and its object is free. *)
Definition ended (x : nat) (b : tg_business) (e : engine) : Prop :=
  x ∈ e_free e /\ exists r tx rx, BusinessFinished (b_class b) (b_phase b) TG_FLOW_RESULT_IO_FAILURE r tx rx ∈ e_notes e.

Lemma pop_notes io (e : engine) : exists l, e_notes (pop proto finite order inet_pton io e) = e_notes e ++ l.
Proof using.
  unfold pop. destruct (e_ready e) as [|x rest]; [exists []; by rewrite app_nil_r|].
  destruct (local_turn io x (upd x (with_b_queued false) (with_e_ready rest e))) as [_ _ N]. exact N.
Qed.
(** A pop frees no object but takes none off the free list either. *)
Lemma pop_ended io x b (e : engine) : engine_ok None e -> ended x b e -> ended x b (pop proto finite order inet_pton io e).
Proof using.
  intros Ok (Hf & r & tx & rx & Hn). pose proof (pop_ok proto finite order inet_pton io e Ok) as Ok'. split.
  - destruct (eo_free _ _ Ok) as [_ Fr]. destruct (eo_free _ _ Ok') as [_ Fr']. apply Fr'. apply Fr in Hf as (b' & Hb & Ha). exists b'. split; [|done].
    unfold pop. destruct (e_ready e) as [|y rest] eqn:Hr; [done|]. destruct (decide (y = x)) as [->|Hxy].
    + exfalso. destruct (eo_ready _ _ Ok) as [_ Re]. destruct (proj1 (Re x) ltac:(rewrite Hr; by left)) as (b1 & Hb1 & Hq).
      rewrite Hb in Hb1. injection Hb1 as <-. destruct (eo_idle _ _ Ok _ _ Hb Ha). congruence.
    + destruct (local_turn io y (upd y (with_b_queued false) (with_e_ready rest e))) as [O _ _].
      rewrite O by congruence. by rewrite biz_upd, decide_False by congruence.
  - destruct (pop_notes io e) as [l ->]. exists r, tx, rx. by apply elem_of_app; left.
Qed.

Lemma finish_ended now x b (e : engine) :
  biz e x = Some b -> b_failure b = TG_FLOW_RESULT_IO_FAILURE -> x ∈ e_free (finish now x false e) /\
  exists r tx rx, BusinessFinished (b_class b) (b_phase b) TG_FLOW_RESULT_IO_FAILURE r tx rx ∈ e_notes (finish now x false e).
Proof using.
  intros H F. unfold finish. rewrite H, F. split; [by left|]. eexists _, _, _. cbn. by apply elem_of_app; right; left.
Qed.

(** Its turn ends it; any other turn moves it forward. *)
Lemma pop_due io x b k (e : engine) :
  engine_ok None e -> due x b k e ->
  match k with
  | O => ended x b (pop proto finite order inet_pton io e)
  | S k' => due x b k' (pop proto finite order inet_pton io e)
  end.
Proof using.
  intros Ok [H Ha Hl Hp]. unfold pop. destruct (e_ready e) as [|y rest] eqn:Hr; [done|]. destruct k as [|k]; cbn in Hp.
  - injection Hp as ->. set (e1 := upd x (with_b_queued false) _).
    assert (biz e1 x = Some (with_b_queued false b)) as H1.
    { unfold e1. rewrite biz_upd, decide_True by done. change (biz (with_e_ready rest e) x) with (biz e x). by rewrite H. }
    unfold advance_business. rewrite H1. change (b_timed_out (with_b_queued false b)) with (b_timed_out b). rewrite Hl. cbn [orb]. cbv zeta.
    set (e2 := if _ && _ then _ else e1). assert (biz e2 x = Some (with_b_queued false b)) as H2.
    { unfold e2. destruct (_ && _); [|done]. unfold record_step. by rewrite H1. }
    apply (finish_ended _ x (with_b_reason TG_ERROR_RESPONSE_TIMEOUT (with_b_failure TG_FLOW_RESULT_IO_FAILURE (with_b_queued false b)))); [|done].
    by rewrite biz_upd, decide_True, H2.
  - destruct (eo_ready _ _ Ok) as [Rn _]. rewrite Hr in Rn. apply NoDup_cons in Rn as [Ny _].
    assert (y <> x) as Hxy by (intros ->; by apply Ny, list_elem_of_lookup_2 with k).
    destruct (local_turn io y (upd y (with_b_queued false) (with_e_ready rest e))) as [O R _]. split; try done.
    + rewrite O by congruence. by rewrite biz_upd, decide_False by congruence.
    + change (e_ready (upd y (with_b_queued false) (with_e_ready rest e))) with rest in R.
      destruct R as [->| ->]; [done|]. by apply lookup_app_l_Some.
Qed.

Lemma tick_ended budget io x b : forall e : engine,
  engine_ok None e -> ended x b e -> ended x b (tg_workflow_tick proto finite order inet_pton budget io e).
Proof using.
  induction budget as [|n IH]; intros e Ok D; cbn [tg_workflow_tick]; [done|]. case_bool_decide; [done|].
  apply IH; [by apply pop_ok|by apply pop_ended].
Qed.
Lemma tick_due budget io x b : forall k (e : engine),
  engine_ok None e -> due x b k e -> (k < budget)%nat -> ended x b (tg_workflow_tick proto finite order inet_pton budget io e).
Proof using.
  induction budget as [|n IH]; intros k e Ok D Hk; [lia|]. cbn [tg_workflow_tick]. rewrite bool_decide_false.
  - pose proof (pop_due (io n) x b k e Ok D) as P. pose proof (pop_ok proto finite order inet_pton (io n) e Ok) as Ok'.
    destruct k as [|k]; [by apply tick_ended|]. apply (IH k); [done|done|lia].
  - intros E. pose proof (du_place _ _ _ _ D) as Hp. by rewrite E in Hp.
Qed.

Lemma timeout_due x b (e : engine) :
  engine_ok None e -> biz e x = Some b -> b_timeout b <> None ->
  exists b' k, due x b' k (timeout_cb x e) /\ (k < length (e_ready (timeout_cb x e)))%nat /\ kept b b'.
Proof using.
  intros Ok H Ht. assert (b_active b = true) as Ha by (destruct (b_active b) eqn:E; [done|]; by destruct (eo_idle _ _ Ok _ _ H E) as (_ & ? & _)).
  pose proof (timeout_cb_ok x b e Ok H Ht) as Ok'. set (b1 := with_b_timed_out true (with_b_timeout None b)).
  assert (biz (timeout_cb x e) x = Some (with_b_queued true b1)) as H'.
  { unfold timeout_cb, enqueue. set (e1 := upd x _ e). assert (biz e1 x = Some b1) as H1 by (unfold e1; by rewrite biz_upd, decide_True, H).
    rewrite H1. change (b_active b1) with (b_active b). change (b_queued b1) with (b_queued b). rewrite Ha. cbn [negb orb].
    destruct (b_queued b) eqn:Q; [rewrite H1; f_equal; unfold b1; destruct b; cbn in *; by rewrite Q|].
    change (biz (upd x (with_b_queued true) e1) x = Some (with_b_queued true b1)). by rewrite biz_upd, decide_True, H1. }
  destruct (eo_ready _ _ Ok') as [_ Re]. pose proof (proj2 (Re x) ltac:(by eexists)) as Hr. apply list_elem_of_lookup in Hr as [k Hk].
  exists (with_b_queued true b1), k. split_and!; [by split|by eapply lookup_lt_Some|by repeat split].
Qed.

(** C17: When the timeout of a business fires, one tick whose budget covers the
    ready queue ends it: the failure is told to the statistics and its object
    is free again, whatever step it was in and whatever else the tick does. *)
Theorem workflow_timeout_ends memory (e0 e : engine) x b budget io :
  fresh e0 -> reachable memory e0 e -> biz e x = Some b -> b_timeout b <> None ->
  (length (e_ready (timeout_cb x e)) <= budget)%nat ->
  let e' := tg_workflow_tick proto finite order inet_pton budget io (timeout_cb x e) in
  x ∈ e_free e' /\ exists r tx rx, BusinessFinished (b_class b) (b_phase b) TG_FLOW_RESULT_IO_FAILURE r tx rx ∈ e_notes e'.
Proof.
  intros F R H Ht Hb. pose proof (reachable_ok _ _ _ _ _ _ _ _ F R) as Ok.
  destruct (timeout_due x b e Ok H Ht) as (b' & k & D & Hk & K1 & K2 & _). rewrite <- K1, <- K2.
  apply (tick_due _ _ _ b' k); [by eapply timeout_cb_ok|done|lia].
Qed.
End Theorems.

(** ** A run: one think step *)

Definition demo_think : tg_workflow_plan :=
  mk_wplan (mk_doc [] []) [mk_step (text "t") TG_STEP_THINK 0 (-1) (-1) (-1) 1 1 1 0 5 5 false false] 1000 (-1) [].
Definition demo_sched0 : tg_scheduler :=
  Scheduler.mk_sched (Scheduler.mk_plan 0 0 0 1 0 0 [] 0 []) 1000 0 0 0 0 0 0 0 0 0 0 0 0 0 0 0 [] 0 0 0 false true false.
Abbreviation wf_proto := (mk_proto None None None None None : tg_proto_ops exchange_config unit).
Definition demo_wf0 : tg_workflow_engine (Ctx := unit) :=
  mk_engine [Some demo_think] 0 1 1 (mk_shard ∅ ∅ 64 2 [] (default (mk_cpool [] [] 0 0 0 false) (tg_conn_pool_init 1)) metric_zero [])
    demo_sched0 (mk_latency None 1 1 1000 0 false) [] None [] [] [] [] 0 0 0 metric_zero.
Definition demo_wf1 := snd (tg_workflow_engine_init 100 (true, true, true) demo_wf0).
Definition demo_wf2 := snd (tg_workflow_start 10 (Some 1010) 0 demo_think demo_wf1).
Definition demo_wio (t : Z) : wf_io :=
  let io := mk_fio t 1000 (fun _ => None) true (inl ENOSPC) None None None [] [] 0 in mk_wio t t t t true true (fun e => e) io io.
Definition demo_wf3 := tg_workflow_tick wf_proto (fun _ => true) (fun _ _ => 0) (fun _ => None) 4 (fun _ => demo_wio 12) demo_wf2.

Lemma demo_think_ok : plan_ok demo_think.
Proof.
  split_and!; try done.
  - intros [|i] s; [|by destruct i]. intros [= <-]. split; cbn; try lia; try done. by intros [?|?].
  - repeat constructor. by intros ?%not_elem_of_nil.
  - by repeat constructor.
Qed.
Lemma demo_wf_fresh : fresh demo_wf0.
Proof. by split. Qed.
Lemma demo_wf_reachable :
  wf_reachable wf_proto (fun _ => true) (fun _ _ => 0) (fun _ => None) 100 (true, true, true) demo_wf0 demo_wf3.
Proof.
  exists demo_wf1. split; [reflexivity|]. split; [vm_compute; discriminate|]. apply (rtc_l _ _ demo_wf2).
  - unfold demo_wf2. apply WfStart. split; [reflexivity|]. split; [apply demo_think_ok|]. vm_compute. split; congruence.
  - apply rtc_once. unfold demo_wf3. apply WfTick.
Qed.

Lemma workflow_conservation_witness :
  started (cell demo_wf3 0 0 0) = 1 /\ under_way demo_wf3 0 0 0 = 1 /\
  (reached (cell demo_wf3 0 0 0) - (success (cell demo_wf3 0 0 0) + failed (cell demo_wf3 0 0 0) + under_way demo_wf3 0 0 0)) mod M64 = 0.
Proof.
  split; [reflexivity|]. split; [vm_compute; reflexivity|].
  apply (workflow_conservation wf_proto (fun _ => true) (fun _ _ => 0) (fun _ => None) 100 (true, true, true) demo_wf0 demo_wf3 0 0 0
    demo_wf_fresh demo_wf_reachable).
  split; [vm_compute; split; congruence|]. exists demo_think. split; [reflexivity|vm_compute; split; congruence].
Defined.

Lemma workflow_timeout_ends_witness :
  e_free demo_wf3 = [] /\
  0%nat ∈ e_free (tg_workflow_tick wf_proto (fun _ => true) (fun _ _ => 0) (fun _ => None) 1 (fun _ => demo_wio 1010) (timeout_cb 0 demo_wf3)).
Proof.
  split; [reflexivity|]. destruct (biz demo_wf3 0) as [b|] eqn:E; [|vm_compute in E; discriminate].
  apply (workflow_timeout_ends wf_proto (fun _ => true) (fun _ _ => 0) (fun _ => None) 100 (true, true, true) demo_wf0 demo_wf3 0 b 1
    (fun _ => demo_wio 1010) demo_wf_fresh demo_wf_reachable E); [|vm_compute; constructor].
  vm_compute in E. injection E as <-. discriminate.
Defined.
